(* ===== verification/_CoqProject ===== *)
-Q . S2P
Prelude.v
Bytes.v
Simd.v
Name.v
NameOps.v
NameOrder.v
NameText.v
Ecs.v
Msg.v
Builder.v
Edns.v
Query.v
Rrlist.v
Nameset.v
Text.v
Addr.v
Rdesc.v
Bitmap.v
Rdata.v
Rnames.v
Nsec.v
Mdhash.v
Sha1.v
Sha2.v
Rrset.v
Dnskey.v
Rrsig.v
Rrvalid.v
Group.v
Cache.v
Cachemap.v
Cachecoh.v
Rcache.v
Cookie.v
Bn.v
Mont.v
Rsa.v
Nsec3.v
Ratelimit.v
Dns64.v

Dcache.v
Valset.v
Valflight.v
Valtasks.v
Valstep.v
Valinv.v
Valstore.v
Valchain.v
