(* ===== verification/Prelude.v ===== *)
(** * Elpis: a validating DNS resolver, its core verified

    Elpis (C, under src/) is a recursive, validating DNS resolver.  A packet
    that arrives is parsed and checked whole ([elpis_msg_parse]); names are
    compared, hashed and ordered on their wire form; records are kept in an
    accumulator while a resolution crosses zones; an answer or an outgoing query
    is written by a builder with name compression and an EDNS record; clients
    and servers are told apart by address and prefix.  This development models
    that core and proves it correct.

    ** Conventions

    Octets are integers ([byte]), buffers are lists of them, offsets are
    integers.  [w]-bit unsigned arithmetic is written out with [u8], [u16],
    [u32] and [u64].  A fallible or memory-touching function returns [res]: [Ok],
    [Err] with the return code and drop reason, or [Stuck] for a read or write
    outside its object or of one that was freed, and for a loop that outlived its
    fuel.  So a theorem that
    excludes [Stuck] is one of memory safety and of termination.  Loops that are
    not structural take fuel; where the bound is a constant it is justified at
    the definition ([name_fuel], at most 127 labels and 129 pointers; 256 turns
    where a name's 127 labels bound the loop; 34 for the octets of an 8-bit
    prefix length; 64 decimal digits), and every theorem about such a function
    also shows that the fuel is not exhausted.  Names are seen as lists of
    labels through [wire] and [name_of] (Name.v).

    ** Files

    - Prelude: the outcome monad and its weakest precondition [safe], lists
      with integer offsets, machine words, tactics and hints.
    - Bytes: include/elpis/common.h, the endian accessors and rotations.
    - Simd: include/elpis/simd.h, src/simd/simd.c, src/simd/simd_internal.h; the
      word-wise case fold, comparison and hash, against the octet-wise ones.
    - Name, NameOps, NameOrder, NameText: include/elpis/name.h and
      src/dns/name.c; the parser against the grammar of RFC 1035, the operations
      on lists of labels, the canonical order of RFC 4034, presentation form.
    - Ecs: src/dns/ecs.c, client subnets as bit prefixes.
    - Msg: the first half of src/dns/msg.c; parsing and iteration.  [msg_tiled]
      is the abstract view: an accepted message is cut into frames.
    - Builder: the second half of src/dns/msg.c.  [wf_bld] and [good] are the
      invariant, the second saying that every compression slot names what is
      really written at its offset.
    - Edns: src/dns/edns.c, the OPT record as a list of options.
    - Query: build_query of src/resolver/outbound.c, composing the builder and
      the EDNS writer, read back by the parser.
    - Rrlist: src/dns/rrlist.c; [holds] says which records a list stands for.
    - Nameset: src/nameset.c; [table_ok] is the invariant of the hash table, and
      the look-up is refined to the deepest listed suffix.
    - Text, Addr: the strings, numbers, addresses and prefixes of src/util.c.
    - Rdesc, Bitmap, Rdata, Rnames: src/dns/rdata.c; the descriptor table and its
      search, type bitmaps, the walk that validates and expands rdata against a
      grammar, the target name, and the mnemonics both ways.
    - Nsec, Nsec3: src/dnssec/nsec.c and nsec3.c, denial of existence.  The
      specification is a zone and the records a correct signer publishes for it
      ([genuine], [genuine3]); the theorems say what an accepted proof shows of
      every zone the records are genuine in.
    - Mdhash, Sha1, Sha2: src/crypto/sha1.c and sha2.c; the buffering of a
      Merkle-Damgard hash, once for all block sizes, streaming against the
      padding of FIPS 180-4, HMAC and PBKDF2 against their RFCs.
    - Ratelimit: src/server/ratelimit.c and rrl.c, token buckets under any
      sequence of calls ([rl_run]).
    - Dns64: src/server/dns64.c over the accumulator; a task keeps only the
      fields this file uses.
    - Rrset: the RRset buffers of src/cache/rcache.c; [rrset_holds] ties a buffer
      to its lists of records and signatures.
    - Dnskey, Rrsig, Rrvalid: the first half of src/dnssec/dnssec.c: keys
      and DS records, the signed data and one verification, the validation of an
      RRset and of a DNSKEY set under the KeyTrap limits.  The public-key
      operations are a class ([SigPrims]), of which nothing is assumed.
    - Group, Cache, Cachemap, Cachecoh: include/elpis/simd.h and
      src/cache/cache.c.  [layout] is the invariant of the open-addressing table
      (no empty control byte on the probe path before an entry), [shard_ok] adds
      the counters; Cachemap refines every operation to a finite map, Cachecoh
      states what callers rely on.  An operation is one step, as it holds the
      shard's lock; hash, keys and payload are parameters, tied by the law that
      the equality callback compares keys.  [alloc] says which table sizes can be
      had: none over 2^30 slots.  The probe loops have a turn for each group of
      the table and two to spare, the loops over a mask 32.
    - Rcache: the RRset cache of src/cache/rcache.c over the cache table; [served]
      says what a look-up gives of an entry, [rent_holds] what an entry holds.
      The area elpis_malloc gives has any contents ([mem_ok]).
    - Cookie: src/dns/cookie.c; SipHash-2-4 against the paper's definition, and
      which server cookies are accepted, across one rotation of the secret.
    - Bn, Mont, Rsa: src/crypto/bn.c and rsa.c.  A number is the list of its
      limbs; one Montgomery loop, of the limb's width, is both bodies of the
      code.  The RSA theorem says what is accepted in terms of integers and
      octet strings alone, whatever the thread's table of contexts holds.  The
      local arrays of bn.c are lists: that their sizes are enough is not shown.
    - Dcache: src/cache/delegation.c over the cache table; [stored] says what an
      entry is of, [built_ok] is the type of a delegation under its builders.
      Claiming a refresh is two steps, [refresh_begin] with the load and
      [refresh_swap] with the compare-and-swap; [race_run] lets the steps of any
      number of workers fall in any order while they hold the read lock.
    - Valset: the answer of src/dnssec/dnssec.c seen as RRsets: [leads] is the
      first record of an RRset, [group_data] and [group_sigs] what it is made of,
      [signer_is] whom it names, [denial_proof] what check_denial accepts.
    - Valflight: the table of look-ups that validations share and the TTL-0 sets
      they keep.  Tasks are numbers; [flight_ok] is what holds of the table,
      [ledger] ties the counts to the references.
    - Valtasks: who resumes and who frees a task: elpis_task_child, the callback
      of task_finish, val_resume and elpis_task_free of src/resolver/resolver.c
      and src/dnssec/dnssec.c, with the stack of callbacks that run inside each
      other.  [can] says which events can come, [step] does them, [reached] is
      every state they lead to.  What a task resolves in between is left open.
    - Valstep: the validation machine, val_alloc to elpis_val_start, as a state
      monad over the thread's world, the task and the validation.  A turn of
      val_step's loop is [val_turn], and its guard of 128 the fuel of [val_turns]
      itself.  The caches are the class [ValStore].  Whether a child can be
      started is a parameter, and a look-up that is started is a record in
      [w_sent]; its answer is the next [val_resume].
    - Valinv: the invariant of the machine, by a total weakest precondition:
      [vouched] is the chain of trust, [base] what every operation keeps, [inv]
      and [stage_ok] what each stage of the walk has established.  The class
      [ValStoreLaws] is all that is asked of the caches.
    - Valstore: the RRset cache and the delegation cache give [ValStore], and
      [caches_laws] discharges its laws.
    - Valchain: [lives], one validation from its start over its resumptions, in
      a world that may change in between within [world_ok]; its soundness,
      termination, budget and end, and runs over the caches as they are.
    ** Groups of theorems

    Round trips: names in wire and presentation form, addresses, client
    subnets, records and whole queries written by the builder and read by the
    parser.  Exactness: the parsers accept exactly their grammar.  Invariants:
    the builder under any sequence of operations, the accumulator and the hash
    table under insertion.  Equivalences: word-wise against octet-wise kernels,
    the two subdomain tests, skipping against parsing a name.  Errors: an OPT
    record is written whole or not at all, an add that fails changes nothing.
    Refinements of an abstract view: hash table to list of texts, accumulator to
    list of records, denial proofs to zones.  Bounds and liveness: the rate
    limits hold and let the slow through.

    The validation of an answer: sound over all its runs, bounded in look-ups
    and in public-key operations, gone from the shared tables at its end.

    ** Not modelled

    The vector kernels (compiler intrinsics; the portable loops they must agree
    with are modelled), system calls (sockets, clocks, files, randomness),
    logging and the web interface are left out: they are input and output.  The
    memory allocator is a parameter ([alloc]); C library calls the code makes
    (strlen, strchr, printf's [%u] and [%x]) are modelled from their standard.
    Hash collisions are not excluded: the NSEC3 theorems speak of hashes where
    a name is known only by its hash.  The fuel of the record walks is the
    length of the octets they read; every turn consumes at least one.
    Also left out are the resolver's own state machine, the transports, the
    message and server caches, configuration parsing and the symmetric and
    elliptic-curve cryptography: the components of the manifest say so one by
    one.  That the child of every look-up comes back, with an answer or without,
    is the resolver's part; a validation that is never resumed stays as it is,
    until its task's deadline.  The configuration and the trust anchors are
    fixed during the life of a validation. *)
From stdpp Require Import base list numbers.
From Stdlib Require Import ZArith Lia.

#[global] Open Scope Z_scope.

(** ** Return codes and drop reasons *)

(** [elpis_rc_t]: what a fallible C function returns. *)
Inductive elpis_rc_t :=
  | ELPIS_OK | ELPIS_ERR | ELPIS_ENOMEM | ELPIS_EFORMAT | ELPIS_ETRUNC
  | ELPIS_ETIMEOUT | ELPIS_EAGAIN | ELPIS_ENOTFOUND | ELPIS_ELOOP
  | ELPIS_EREFUSED | ELPIS_EBOGUS.

(** [elpis_drop_t]: why malformed input was dropped. *)
Inductive elpis_drop_t :=
  | ELPIS_DROP_NONE | ELPIS_DROP_SHORT | ELPIS_DROP_QR_SET | ELPIS_DROP_OPCODE
  | ELPIS_DROP_QDCOUNT | ELPIS_DROP_NAME | ELPIS_DROP_COMPRESS
  | ELPIS_DROP_TRAILING | ELPIS_DROP_RDLEN | ELPIS_DROP_RDATA
  | ELPIS_DROP_CLASS | ELPIS_DROP_EDNS | ELPIS_DROP_TSIG
  | ELPIS_DROP_MULTI_OPT | ELPIS_DROP_SPOOF | ELPIS_DROP_ACL
  | ELPIS_DROP_RATELIMIT | ELPIS_DROP_OVERSIZE | ELPIS_DROP_LOOP
  | ELPIS_DROP_RESOURCE | ELPIS_DROP_SENDFAIL.

#[export] Instance elpis_rc_t_eq_dec : EqDecision elpis_rc_t.
Proof. solve_decision. Defined.
#[export] Instance elpis_drop_t_eq_dec : EqDecision elpis_drop_t.
Proof. solve_decision. Defined.

(** ** The outcome of running C code

    [Ok] is a normal return, [Err] a failure return together with the value
    left in the caller's [*drop] (ELPIS_DROP_NONE where the function has no
    such argument), and [Stuck] behaviour the C standard does not define or a
    loop that outlived its fuel.  A safety theorem says [Stuck] is never
    reached, so it covers both memory safety and termination. *)
Inductive fault := OutOfBounds | OutOfFuel | SignedOverflow.

Inductive res (A : Type) :=
  | Ok (a : A)
  | Err (rc : elpis_rc_t) (d : elpis_drop_t)
  | Stuck (f : fault).
Arguments Ok {A} a.
Arguments Err {A} rc d.
Arguments Stuck {A} f.

#[export] Instance res_ret : MRet res := @Ok.
#[export] Instance res_bind : MBind res := fun A B k m =>
  match m with
  | Ok a => k a
  | Err rc d => Err rc d
  | Stuck f => Stuck f
  end.

(** [guard_err c rc d]: the code's [if (c) { *drop = d; return rc; }]. *)
Definition guard_err (c : bool) (rc : elpis_rc_t) (d : elpis_drop_t) : res unit :=
  if c then Err rc d else Ok tt.

(** One step of the monad on a known outcome. *)
Ltac bind_step := cbn [mbind res_bind guard_err mret res_ret negb].

(** One step by rewriting, where reduction would unfold loops whose fuel is a
    numeral. *)
Lemma bind_Ok {A B} (x : A) (k : A → res B) : (Ok x ≫= k) = k x.
Proof. done. Qed.
Ltac bind_ok := rewrite bind_Ok; cbv beta.

Lemma bind_Ok_inv {A B} (m : res A) (k : A → res B) b :
  (m ≫= k) = Ok b → ∃ a, m = Ok a ∧ k a = Ok b.
Proof. destruct m; cbn; intros H; try discriminate. eauto. Qed.

Lemma guard_err_Ok_inv c rc d u : guard_err c rc d = Ok u → c = false.
Proof. destruct c; cbn; congruence. Qed.

(** [safe P m]: running [m] never gets stuck, and a normal return satisfies
    [P].  The weakest precondition of the outcome monad. *)
Definition safe {A} (P : A → Prop) (m : res A) : Prop :=
  match m with
  | Ok a => P a
  | Err _ _ => True
  | Stuck _ => False
  end.

Lemma safe_bind {A B} (P : A → Prop) (Q : B → Prop) (m : res A) (k : A → res B) :
  safe P m → (∀ a, P a → safe Q (k a)) → safe Q (m ≫= k).
Proof. destruct m; cbn; naive_solver. Qed.

Lemma safe_mono {A} (P Q : A → Prop) (m : res A) :
  safe P m → (∀ a, P a → Q a) → safe Q m.
Proof. destruct m; cbn; naive_solver. Qed.

Lemma safe_and {A} (P Q : A → Prop) (m : res A) :
  safe P m → safe Q m → safe (fun a => P a ∧ Q a) m.
Proof. destruct m; cbn; naive_solver. Qed.

Lemma safe_guard_err c rc d : safe (fun _ => c = false) (guard_err c rc d).
Proof. destruct c; cbn; done. Qed.

Lemma safe_guard {A} (Q : A → Prop) c rc d (k : unit → res A) :
  (c = false → safe Q (k tt)) → safe Q (guard_err c rc d ≫= k).
Proof. destruct c; cbn; auto. Qed.

Lemma safe_Ok {A} (P : A → Prop) (m : res A) a : safe P m → m = Ok a → P a.
Proof. intros Hs ->. exact Hs. Qed.

Lemma safe_not_stuck {A} (P : A → Prop) (m : res A) f : safe P m → m ≠ Stuck f.
Proof. intros Hs ->. exact Hs. Qed.

(** [errs E m]: a failure return of [m] satisfies [E]. *)
Definition errs {A} (E : elpis_rc_t → elpis_drop_t → Prop) (m : res A) : Prop :=
  match m with Err rc d => E rc d | _ => True end.

Lemma errs_bind {A B} E (m : res A) (k : A → res B) :
  errs E m → (∀ a, errs E (k a)) → errs E (m ≫= k).
Proof. destruct m; cbn; naive_solver. Qed.

Lemma errs_guard_err E c rc d : E rc d → errs E (guard_err c rc d).
Proof. destruct c; cbn; done. Qed.

Lemma errs_none {A} E (m : res A) : (∀ rc d, m ≠ Err rc d) → errs E m.
Proof. destruct m; cbn; naive_solver. Qed.

Create HintDb errs.
#[export] Hint Resolve errs_guard_err : errs.

(** Walks through a computation, leaving what the hints do not know. *)
Ltac errs_step :=
  match goal with
  | |- errs _ (mbind _ _) => apply errs_bind; [|intros ?]
  | |- errs _ (let _ := _ in _) => cbv zeta
  | |- errs _ (if ?c then _ else _) => destruct c
  | |- errs _ (match ?c with (_, _) => _ end) => destruct c
  | |- errs _ (match ?c with _ => _ end) => destruct c
  | |- errs _ (Ok _) => exact I
  | |- errs _ (Stuck _) => exact I
  end.
Ltac errs_auto := repeat (errs_step || solve [auto with errs]).

(** ** Lists with [Z] offsets, as C buffers are addressed *)

Definition zlen {A} (l : list A) : Z := Z.of_nat (length l).
Arguments zlen : simpl never.

(** [p[i]]: a read outside the object is undefined behaviour. *)
Definition rd {A} (l : list A) (i : Z) : res A :=
  if 0 <=? i then
    match l !! Z.to_nat i with Some x => Ok x | None => Stuck OutOfBounds end
  else Stuck OutOfBounds.

Definition slice {A} (l : list A) (o n : Z) : list A :=
  take (Z.to_nat n) (drop (Z.to_nat o) l).

(** The source side of [memcpy(_, l + o, n)]. *)
Definition rds {A} (l : list A) (o n : Z) : res (list A) :=
  if (0 <=? o) && (0 <=? n) && (o + n <=? zlen l) then Ok (slice l o n)
  else Stuck OutOfBounds.

Definition splice {A} (l : list A) (o : Z) (bs : list A) : list A :=
  take (Z.to_nat o) l ++ bs ++ drop (Z.to_nat (o + zlen bs)) l.

(** The target side of [memcpy(l + o, bs, zlen bs)]. *)
Definition blit {A} (l : list A) (o : Z) (bs : list A) : res (list A) :=
  if (0 <=? o) && (o + zlen bs <=? zlen l) then Ok (splice l o bs)
  else Stuck OutOfBounds.

Lemma errs_rd {A} E (l : list A) i : errs E (rd l i).
Proof. unfold rd. repeat case_match; exact I. Qed.
Lemma errs_rds {A} E (l : list A) o n : errs E (rds l o n).
Proof. unfold rds. case_match; exact I. Qed.
Lemma errs_blit {A} E (l : list A) o bs : errs E (blit l o bs).
Proof. unfold blit. case_match; exact I. Qed.
#[export] Hint Resolve errs_rd errs_rds errs_blit : errs.

Arguments rd : simpl never.
Arguments rds : simpl never.
Arguments slice : simpl never.
Arguments splice : simpl never.
Arguments blit : simpl never.

(** [p[i] = x] *)
Definition wr {A} (l : list A) (i : Z) (x : A) : res (list A) :=
  if (0 <=? i) && (i <? zlen l) then Ok (<[Z.to_nat i := x]> l) else Stuck OutOfBounds.
Arguments wr : simpl never.

(** [memset(_, 0, n)] *)
Definition zeros (n : Z) : list Z := replicate (Z.to_nat n) 0.

(** ** Machine words *)

(** The value of an unsigned C conversion. *)
Definition u8 (x : Z) : Z := x mod 2 ^ 8.
Definition u16 (x : Z) : Z := x mod 2 ^ 16.
Definition u32 (x : Z) : Z := x mod 2 ^ 32.
Definition u64 (x : Z) : Z := x mod 2 ^ 64.

Definition byte (b : Z) : Prop := 0 <= b < 256.
Abbreviation bytes := (Forall byte).

#[export] Instance byte_dec b : Decision (byte b).
Proof. unfold byte. apply _. Defined.

(** ** Automation *)

(** Case analysis on the boolean tests of the code, turned into [Prop]. *)
Ltac bool_to_prop :=
  repeat match goal with
  | H : (_ && _)%bool = true |- _ => apply andb_true_iff in H as [? ?]
  | H : (_ && _)%bool = false |- _ => apply andb_false_iff in H
  | H : (_ || _)%bool = true |- _ => apply orb_true_iff in H
  | H : (_ || _)%bool = false |- _ => apply orb_false_iff in H as [? ?]
  | H : negb _ = true |- _ => apply negb_true_iff in H
  | H : negb _ = false |- _ => apply negb_false_iff in H
  | H : (_ <? _) = true |- _ => apply Z.ltb_lt in H
  | H : (_ <? _) = false |- _ => apply Z.ltb_ge in H
  | H : (_ <=? _) = true |- _ => apply Z.leb_le in H
  | H : (_ <=? _) = false |- _ => apply Z.leb_gt in H
  | H : (_ =? _) = true |- _ => apply Z.eqb_eq in H
  | H : (_ =? _) = false |- _ => apply Z.eqb_neq in H
  end.

(** Arithmetic with lengths, [div]/[mod] by constants and conversions. *)
Ltac zl := unfold zlen, byte in *; cbn [length] in *; lia.

Ltac zdiv := unfold zlen, byte in *; cbn [length] in *; Z.div_mod_to_equations; lia.

(** Rewrites a boolean test to its value, proved by arithmetic. *)
Ltac ztrue c := replace c with true by (symmetry; rewrite ?andb_true_iff; zl).
Ltac zfalse c := replace c with false by (symmetry; rewrite ?andb_false_iff; zl).

(** Closes a decidable proposition on concrete data by evaluation. *)
Ltac by_compute :=
  match goal with
  | |- ?P => refine (bool_decide_unpack P _); vm_compute; exact I
  end.

Create HintDb elpis.
Create Rewrite HintDb zlen.

(** ** Lemmas on lengths, reads and slices *)

Lemma zlen_nonneg {A} (l : list A) : 0 <= zlen l.
Proof. zl. Qed.
Lemma zlen_nil {A} : zlen (@nil A) = 0.
Proof. done. Qed.
Lemma zlen_cons {A} (x : A) l : zlen (x :: l) = 1 + zlen l.
Proof. unfold zlen. cbn [length]. lia. Qed.
Lemma zlen_app {A} (l k : list A) : zlen (l ++ k) = zlen l + zlen k.
Proof. unfold zlen. rewrite length_app. lia. Qed.
Lemma zlen_take {A} (l : list A) n : zlen (take n l) = Z.min (Z.of_nat n) (zlen l).
Proof. unfold zlen. rewrite length_take. lia. Qed.
Lemma zlen_drop {A} (l : list A) n : zlen (drop n l) = Z.max 0 (zlen l - Z.of_nat n).
Proof. unfold zlen. rewrite length_drop. lia. Qed.
Lemma zlen_map {A B} (f : A → B) l : zlen (map f l) = zlen l.
Proof. unfold zlen. by rewrite length_map. Qed.
Lemma zlen_replicate {A} n (x : A) : zlen (replicate n x) = Z.of_nat n.
Proof. unfold zlen. by rewrite length_replicate. Qed.
Lemma zlen_slice {A} (l : list A) o n :
  0 <= o → 0 <= n → o + n <= zlen l → zlen (slice l o n) = n.
Proof. intros. unfold slice. rewrite zlen_take, zlen_drop. zl. Qed.
Lemma zlen_splice {A} (l : list A) o bs :
  0 <= o → o + zlen bs <= zlen l → zlen (splice l o bs) = zlen l.
Proof.
  intros. unfold splice. rewrite !zlen_app, zlen_take, zlen_drop. zl.
Qed.
#[export] Hint Rewrite @zlen_nil @zlen_cons @zlen_app @zlen_map @zlen_replicate
  @zlen_take @zlen_drop : zlen.

Lemma rd_lookup {A} (l : list A) i x :
  0 <= i → l !! Z.to_nat i = Some x → rd l i = Ok x.
Proof. intros Hi Hl. unfold rd. ztrue (0 <=? i). by rewrite Hl. Qed.

Lemma rd_Ok_inv {A} (l : list A) i x :
  rd l i = Ok x → 0 <= i < zlen l ∧ l !! Z.to_nat i = Some x.
Proof.
  unfold rd. destruct (0 <=? i) eqn:E; [|done]. bool_to_prop.
  destruct (l !! Z.to_nat i) eqn:Hl; [|done]. intros [= ->].
  apply lookup_lt_Some in Hl as ?. split; [zl|done].
Qed.

Lemma rd_in_range {A} (l : list A) i :
  0 <= i < zlen l → ∃ x, rd l i = Ok x ∧ l !! Z.to_nat i = Some x.
Proof.
  intros Hi. destruct (lookup_lt_is_Some_2 l (Z.to_nat i)) as [x Hx]; [zl|].
  exists x. split; [|done]. apply rd_lookup; [lia|done].
Qed.

Lemma safe_rd {A} (l : list A) i (P : A → Prop) :
  0 <= i < zlen l → Forall P l → safe P (rd l i).
Proof.
  intros Hi Hl. destruct (rd_in_range l i Hi) as (x & -> & Hx).
  cbn. by eapply Forall_lookup_1.
Qed.

Lemma Forall_elem {A} (P : A → Prop) l x : Forall P l → x ∈ l → P x.
Proof. intros Hf Hx. exact (proj1 (Forall_forall _ _) Hf x (proj1 (list_elem_of_In _ _) Hx)). Qed.

Lemma rds_in_range {A} (l : list A) o n :
  0 <= o → 0 <= n → o + n <= zlen l → rds l o n = Ok (slice l o n).
Proof. intros. unfold rds. by ztrue ((0 <=? o) && (0 <=? n) && (o + n <=? zlen l)). Qed.

Lemma rds_Ok_inv {A} (l : list A) o n s :
  rds l o n = Ok s → 0 <= o ∧ 0 <= n ∧ o + n <= zlen l ∧ s = slice l o n.
Proof.
  unfold rds. destruct (_ && _)%bool eqn:E; [|done]. bool_to_prop.
  intros [= <-]. done.
Qed.

Lemma blit_in_range {A} (l : list A) o bs :
  0 <= o → o + zlen bs <= zlen l → blit l o bs = Ok (splice l o bs).
Proof. intros. unfold blit. by ztrue ((0 <=? o) && (o + zlen bs <=? zlen l)). Qed.

Lemma wr_in_range {A} (l : list A) i x : 0 <= i < zlen l → wr l i x = Ok (<[Z.to_nat i := x]> l).
Proof. intros. unfold wr. by ztrue ((0 <=? i) && (i <? zlen l)). Qed.

Lemma zlen_insert {A} (l : list A) i x : zlen (<[i := x]> l) = zlen l.
Proof. unfold zlen. by rewrite length_insert. Qed.

Lemma Forall_slice {A} (P : A → Prop) l o n : Forall P l → Forall P (slice l o n).
Proof. intros. unfold slice. by apply Forall_take, Forall_drop. Qed.

Lemma safe_rds {A} (l : list A) o n (P : A → Prop) :
  0 <= o → 0 <= n → o + n <= zlen l → Forall P l →
  safe (fun s => zlen s = n ∧ Forall P s ∧ s = slice l o n) (rds l o n).
Proof.
  intros. rewrite rds_in_range by done. cbn.
  split_and!; [by apply zlen_slice|by apply Forall_slice|done].
Qed.

Lemma zlen_zeros n : 0 <= n → zlen (zeros n) = n.
Proof. intros. unfold zeros. rewrite zlen_replicate. lia. Qed.

Lemma zeros_add a b : 0 <= a → 0 <= b → zeros (a + b) = zeros a ++ zeros b.
Proof. intros. unfold zeros. by rewrite Z2Nat.inj_add, replicate_add. Qed.


Lemma zlen_0_nil {A} (l : list A) : zlen l = 0 → l = [].
Proof. destruct l; [done|]. rewrite zlen_cons. pose proof (zlen_nonneg l). lia. Qed.

(** Reads in a concatenation. *)
Lemma lookupZ_app_r {A} (l k : list A) i :
  zlen l <= i → (l ++ k) !! Z.to_nat i = k !! Z.to_nat (i - zlen l).
Proof. intros. rewrite lookup_app_r by zl. f_equal. zl. Qed.

Lemma rd_app_r {A} (l k : list A) i :
  zlen l <= i → rd (l ++ k) i = rd k (i - zlen l).
Proof.
  intros. pose proof (zlen_nonneg l). unfold rd.
  ztrue (0 <=? i). ztrue (0 <=? i - zlen l). by rewrite lookupZ_app_r.
Qed.

Lemma rd_app_l {A} (l k : list A) i : i < zlen l → rd (l ++ k) i = rd l i.
Proof.
  intros. unfold rd. destruct (0 <=? i) eqn:E; [|done]. bool_to_prop.
  rewrite lookup_app_l by zl. done.
Qed.

Lemma rd_cons_0 {A} (x : A) l : rd (x :: l) 0 = Ok x.
Proof. done. Qed.

Lemma rd_cons_S {A} (x : A) l i : 0 < i → rd (x :: l) i = rd l (i - 1).
Proof.
  intros. change (x :: l) with ([x] ++ l). rewrite rd_app_r; rewrite zlen_cons, zlen_nil; [f_equal; lia|lia].
Qed.

Lemma slice_app_r {A} (l k : list A) o n :
  zlen l <= o → slice (l ++ k) o n = slice k (o - zlen l) n.
Proof.
  intros. unfold slice. f_equal. rewrite drop_app_ge by zl. f_equal. zl.
Qed.

Lemma slice_app_l {A} (l k : list A) o n :
  0 <= o → 0 <= n → o + n <= zlen l → slice (l ++ k) o n = slice l o n.
Proof.
  intros. unfold slice. rewrite drop_app_le by zl.
  apply take_app_le. rewrite length_drop. zl.
Qed.

Lemma slice_0_all {A} (l : list A) n : zlen l <= n → slice l 0 n = l.
Proof. intros. unfold slice. change (Z.to_nat 0) with 0%nat. rewrite drop_0. apply take_ge. zl. Qed.

Lemma slice_0_app {A} (l k : list A) : slice (l ++ k) 0 (zlen l) = l.
Proof.
  unfold slice. change (Z.to_nat 0) with 0%nat. rewrite drop_0.
  apply take_app_length'. zl.
Qed.

Lemma rds_app_r {A} (l k : list A) o n :
  zlen l <= o → rds (l ++ k) o n = rds k (o - zlen l) n.
Proof.
  intros. pose proof (zlen_nonneg l). unfold rds. rewrite zlen_app, slice_app_r by done.
  replace (0 <=? o) with (0 <=? o - zlen l) by lia.
  by replace (o + n <=? zlen l + zlen k) with (o - zlen l + n <=? zlen k) by lia.
Qed.

Lemma rds_app_mono {A} (l k : list A) o n s : rds l o n = Ok s → rds (l ++ k) o n = Ok s.
Proof.
  intros (? & ? & ? & ->)%rds_Ok_inv. rewrite rds_in_range; [|lia|lia|rewrite zlen_app; pose proof (zlen_nonneg k); lia].
  by rewrite slice_app_l.
Qed.

Lemma rds_at_end {A} (l k m : list A) : rds (l ++ k ++ m) (zlen l) (zlen k) = Ok k.
Proof.
  rewrite rds_app_r by lia. rewrite Z.sub_diag.
  rewrite rds_in_range; [|lia|apply zlen_nonneg|rewrite zlen_app; pose proof (zlen_nonneg m); lia].
  by rewrite slice_0_app.
Qed.

Lemma slice_split {A} (l : list A) o n m :
  0 <= o → 0 <= n → 0 <= m → slice l o (n + m) = slice l o n ++ slice l (o + n) m.
Proof.
  intros. unfold slice. rewrite !Z2Nat.inj_add by done.
  by rewrite <- drop_drop, take_take_drop.
Qed.

Lemma rds_full {A} (l : list A) n : n = zlen l → rds l 0 n = Ok l.
Proof. intros ->. rewrite rds_in_range by (pose proof (zlen_nonneg l); lia). by rewrite slice_0_all. Qed.

Lemma Forall_filter {A} (P Q : A → Prop) `{∀ x, Decision (Q x)} l : Forall P l → Forall P (filter Q l).
Proof. induction 1; [by rewrite filter_nil|]. rewrite filter_cons. case_decide; by try constructor. Qed.

Lemma length_filter_le {A} (P : A → Prop) `{∀ x, Decision (P x)} l : zlen (filter P l) <= zlen l.
Proof. pose proof (length_filter P l). zl. Qed.

#[export] Instance zlen_perm {A} : Proper ((≡ₚ) ==> (=)) (@zlen A).
Proof. intros l l' Hp. unfold zlen. by rewrite Hp. Qed.

(** ** Decimal and hexadecimal literals of characters *)
Definition ch_dot := 46.
Definition ch_backslash := 92.
Definition ch_0 := 48.
Definition ch_9 := 57.
Definition ch_A := 65.
Definition ch_Z := 90.
