(* ===== verification/Bytes.v ===== *)
(** Endian-safe, unaligned accessors of include/elpis/common.h, the rotations
    and the native word loads, with their round trips. *)
From stdpp Require Import base list numbers.
From Stdlib Require Import ZArith Lia.
From S2P Require Import Prelude.

(** ** Definitions *)

(** Big-endian reads at [p + o]. *)
Definition elpis_get16 (p : list Z) (o : Z) : res Z :=
  p0 ← rd p o; p1 ← rd p (o + 1);
  Ok (u16 (Z.lor (u16 (Z.shiftl p0 8)) p1)).

Definition elpis_get32 (p : list Z) (o : Z) : res Z :=
  p0 ← rd p o; p1 ← rd p (o + 1); p2 ← rd p (o + 2); p3 ← rd p (o + 3);
  Ok (Z.lor (Z.lor (Z.lor (u32 (Z.shiftl p0 24)) (u32 (Z.shiftl p1 16)))
                   (u32 (Z.shiftl p2 8))) p3).

Definition elpis_get64 (p : list Z) (o : Z) : res Z :=
  hi ← elpis_get32 p o; lo ← elpis_get32 p (o + 4);
  Ok (Z.lor (u64 (Z.shiftl hi 32)) lo).

(** The octets the big-endian writers store. *)
Definition put16_bytes (v : Z) : list Z := [u8 (Z.shiftr v 8); u8 v].
Definition put32_bytes (v : Z) : list Z :=
  [u8 (Z.shiftr v 24); u8 (Z.shiftr v 16); u8 (Z.shiftr v 8); u8 v].
Definition put64_bytes (v : Z) : list Z :=
  put32_bytes (u32 (Z.shiftr v 32)) ++ put32_bytes (u32 v).

Definition elpis_put16 (p : list Z) (o v : Z) : res (list Z) := blit p o (put16_bytes v).
Definition elpis_put32 (p : list Z) (o v : Z) : res (list Z) := blit p o (put32_bytes v).
Definition elpis_put64 (p : list Z) (o v : Z) : res (list Z) := blit p o (put64_bytes v).

(** Little-endian. *)
Definition elpis_get32le (p : list Z) (o : Z) : res Z :=
  p0 ← rd p o; p1 ← rd p (o + 1); p2 ← rd p (o + 2); p3 ← rd p (o + 3);
  Ok (Z.lor (Z.lor (Z.lor p0 (u32 (Z.shiftl p1 8))) (u32 (Z.shiftl p2 16)))
            (u32 (Z.shiftl p3 24))).
Definition elpis_get64le (p : list Z) (o : Z) : res Z :=
  lo ← elpis_get32le p o; hi ← elpis_get32le p (o + 4);
  Ok (Z.lor lo (u64 (Z.shiftl hi 32))).
Definition put32le_bytes (v : Z) : list Z :=
  [u8 v; u8 (Z.shiftr v 8); u8 (Z.shiftr v 16); u8 (Z.shiftr v 24)].
Definition put64le_bytes (v : Z) : list Z :=
  put32le_bytes (u32 v) ++ put32le_bytes (u32 (Z.shiftr v 32)).
Definition elpis_put32le (p : list Z) (o v : Z) : res (list Z) := blit p o (put32le_bytes v).
Definition elpis_put64le (p : list Z) (o v : Z) : res (list Z) := blit p o (put64le_bytes v).

(** [elpis_load64], [elpis_load32]: a native load, on a little-endian machine
    (the byte order every word kernel of src/simd/simd.c is selected for). *)
Definition elpis_load64 : list Z → Z → res Z := elpis_get64le.
Definition elpis_load32 : list Z → Z → res Z := elpis_get32le.

(** Rotations; the count [n] is the constant the callers pass. *)
Definition elpis_rotl32 (x n : Z) : Z :=
  Z.lor (u32 (Z.shiftl x n)) (Z.shiftr x (Z.land (32 - n) 31)).
Definition elpis_rotr32 (x n : Z) : Z :=
  Z.lor (Z.shiftr x n) (u32 (Z.shiftl x (Z.land (32 - n) 31))).
Definition elpis_rotl64 (x n : Z) : Z :=
  Z.lor (u64 (Z.shiftl x n)) (Z.shiftr x (Z.land (64 - n) 63)).
Definition elpis_rotr64 (x n : Z) : Z :=
  Z.lor (Z.shiftr x n) (u64 (Z.shiftl x (Z.land (64 - n) 63))).

(** ** Bit-level lemmas *)

(** Disjoint bit ranges: [|] is [+]. *)
Lemma lor_shiftl_add a b n :
  0 <= n → 0 <= b < 2 ^ n → Z.lor (Z.shiftl a n) b = a * 2 ^ n + b.
Proof.
  intros Hn Hb. rewrite <- Z.shiftl_mul_pow2 by done.
  rewrite Z.add_nocarry_lxor; [symmetry; apply Z.lxor_lor|];
    apply Z.bits_inj'; intros i Hi;
    rewrite Z.land_spec, Z.shiftl_spec, Z.bits_0 by done;
    (destruct (Z.ltb_spec i n);
     [rewrite (Z.testbit_neg_r a) by lia; done|
      destruct (decide (b = 0)) as [->|];
        [rewrite Z.bits_0; apply andb_false_r|
         rewrite (Z.bits_above_log2 b), andb_false_r; [done|lia|];
         apply Z.log2_lt_pow2; [lia|];
         apply Z.lt_le_trans with (2 ^ n); [lia|apply Z.pow_le_mono_r; lia]]]).
Qed.

Lemma lor_add_shiftl a b n :
  0 <= n → 0 <= a < 2 ^ n → Z.lor a (Z.shiftl b n) = a + b * 2 ^ n.
Proof. intros. rewrite Z.lor_comm, lor_shiftl_add by done. lia. Qed.

Lemma shiftr_div z n : 0 <= n → Z.shiftr z n = z / 2 ^ n.
Proof. apply Z.shiftr_div_pow2. Qed.

Lemma shiftl_mul z n : 0 <= n → Z.shiftl z n = z * 2 ^ n.
Proof. apply Z.shiftl_mul_pow2. Qed.

Lemma u8_byte x : byte (u8 x).
Proof. unfold byte, u8. apply Z.mod_pos_bound. done. Qed.
Lemma u8_id x : byte x → u8 x = x.
Proof. intros. apply Z.mod_small. unfold byte in *. lia. Qed.
Lemma u16_id x : 0 <= x < 2 ^ 16 → u16 x = x.
Proof. apply Z.mod_small. Qed.
Lemma u32_id x : 0 <= x < 2 ^ 32 → u32 x = x.
Proof. apply Z.mod_small. Qed.
Lemma u64_id x : 0 <= x < 2 ^ 64 → u64 x = x.
Proof. apply Z.mod_small. Qed.
Lemma u16_range x : 0 <= u16 x < 2 ^ 16.
Proof. apply Z.mod_pos_bound. done. Qed.
Lemma u32_range x : 0 <= u32 x < 2 ^ 32.
Proof. apply Z.mod_pos_bound. done. Qed.
Lemma u64_range x : 0 <= u64 x < 2 ^ 64.
Proof. apply Z.mod_pos_bound. done. Qed.
#[export] Hint Resolve u8_byte u16_range u32_range u64_range : elpis.

(** A fact about a byte, checked on all 256 values. *)
Lemma byte_forallb (f : Z → bool) b :
  forallb f (seqZ 0 256) = true → byte b → f b = true.
Proof.
  intros Hf Hb. rewrite forallb_forall in Hf. apply Hf.
  apply list_elem_of_In, elem_of_seqZ. zl.
Qed.

(** ** Values of the readers *)

Definition be2 (a b : Z) : Z := a * 256 + b.
Definition be4 (a b c d : Z) : Z := ((a * 256 + b) * 256 + c) * 256 + d.

Lemma get16_value p o a b :
  rd p o = Ok a → rd p (o + 1) = Ok b → byte a → byte b →
  elpis_get16 p o = Ok (be2 a b).
Proof.
  intros Ha Hb ??. unfold elpis_get16. rewrite Ha. cbn. rewrite Hb. cbn. f_equal.
  unfold be2. rewrite (u16_id (Z.shiftl _ _)) by (rewrite shiftl_mul by lia; zl).
  rewrite lor_shiftl_add by zl. apply u16_id. zl.
Qed.

Lemma get32_value p o a b c d :
  rd p o = Ok a → rd p (o + 1) = Ok b → rd p (o + 2) = Ok c → rd p (o + 3) = Ok d →
  byte a → byte b → byte c → byte d →
  elpis_get32 p o = Ok (be4 a b c d).
Proof.
  intros Ha Hb Hc Hd ????. unfold elpis_get32. rewrite Ha; cbn. rewrite Hb; cbn.
  rewrite Hc; cbn. rewrite Hd; cbn. f_equal. unfold be4.
  rewrite !u32_id by (rewrite shiftl_mul by lia; zl).
  replace (Z.shiftl a 24) with (Z.shiftl (Z.shiftl (Z.shiftl a 8) 8) 8)
    by (rewrite !Z.shiftl_shiftl by lia; done).
  replace (Z.shiftl b 16) with (Z.shiftl (Z.shiftl b 8) 8)
    by (rewrite !Z.shiftl_shiftl by lia; done).
  rewrite <- !Z.shiftl_lor, !lor_shiftl_add by zl. lia.
Qed.

Lemma get32le_value p o a b c d :
  rd p o = Ok a → rd p (o + 1) = Ok b → rd p (o + 2) = Ok c → rd p (o + 3) = Ok d →
  byte a → byte b → byte c → byte d →
  elpis_get32le p o = Ok (be4 d c b a).
Proof.
  intros Ha Hb Hc Hd ????. unfold elpis_get32le. rewrite Ha; cbn. rewrite Hb; cbn.
  rewrite Hc; cbn. rewrite Hd; cbn. f_equal. unfold be4.
  rewrite !u32_id by (rewrite shiftl_mul by lia; zl).
  rewrite (lor_add_shiftl a b 8), (lor_add_shiftl _ c 16), (lor_add_shiftl _ d 24) by zl.
  lia.
Qed.

Lemma get16_safe p o :
  bytes p → 0 <= o → o + 2 <= zlen p → safe (fun v => 0 <= v < 65536) (elpis_get16 p o).
Proof.
  intros Hp ??. unfold elpis_get16.
  eapply safe_bind; [apply (safe_rd _ _ byte); [lia|done]|intros a Ha].
  eapply safe_bind; [apply (safe_rd _ _ byte); [lia|done]|intros b Hb].
  cbn. apply u16_range.
Qed.

Lemma get32_safe p o :
  bytes p → 0 <= o → o + 4 <= zlen p → safe (fun v => 0 <= v < 2 ^ 32) (elpis_get32 p o).
Proof.
  intros Hp ??.
  destruct (rd_in_range p o) as (a & Ha & La); [lia|].
  destruct (rd_in_range p (o + 1)) as (b & Hb & Lb); [lia|].
  destruct (rd_in_range p (o + 2)) as (c & Hc & Lc); [lia|].
  destruct (rd_in_range p (o + 3)) as (d & Hd & Ld); [lia|].
  pose proof (Forall_lookup_1 _ _ _ _ Hp La). pose proof (Forall_lookup_1 _ _ _ _ Hp Lb).
  pose proof (Forall_lookup_1 _ _ _ _ Hp Lc). pose proof (Forall_lookup_1 _ _ _ _ Hp Ld).
  cbv beta in *. rewrite (get32_value p o a b c d) by done. cbn. unfold be4. zl.
Qed.
#[export] Hint Resolve get16_safe get32_safe : elpis.

Lemma errs_get16 E p o : errs E (elpis_get16 p o).
Proof. unfold elpis_get16. errs_auto. Qed.
Lemma errs_get32 E p o : errs E (elpis_get32 p o).
Proof. unfold elpis_get32. errs_auto. Qed.
#[export] Hint Resolve errs_get16 errs_get32 : errs.

(** ** The octets of the writers *)

Lemma bytes_put16 v : bytes (put16_bytes v).
Proof. unfold put16_bytes. repeat constructor; apply u8_byte. Qed.
Lemma bytes_put32 v : bytes (put32_bytes v).
Proof. unfold put32_bytes. repeat constructor; apply u8_byte. Qed.
Lemma zlen_put16 v : zlen (put16_bytes v) = 2.
Proof. done. Qed.
Lemma zlen_put32 v : zlen (put32_bytes v) = 4.
Proof. done. Qed.
Lemma zlen_put64 v : zlen (put64_bytes v) = 8.
Proof. done. Qed.
Lemma bytes_put64 v : bytes (put64_bytes v).
Proof. repeat constructor; apply u8_byte. Qed.
#[export] Hint Resolve bytes_put16 bytes_put32 bytes_put64 : elpis.
#[export] Hint Rewrite zlen_put16 zlen_put32 : zlen.

(** Reading the bytes of a buffer that holds [bs] at [o]. *)
Lemma rd_mid {A} (pre bs post : list A) o :
  0 <= o - zlen pre < zlen bs → rd (pre ++ bs ++ post) o = rd bs (o - zlen pre).
Proof. intros. rewrite rd_app_r by lia. rewrite rd_app_l by lia. done. Qed.

Lemma rd_mid_eq {A} (pre bs post : list A) o i x :
  o = zlen pre + i → rd bs i = Ok x → rd (pre ++ bs ++ post) o = Ok x.
Proof.
  intros -> H. apply rd_Ok_inv in H as ?. rewrite rd_mid by lia.
  rewrite <- H. f_equal. lia.
Qed.

Lemma get16_put16 pre post v :
  0 <= v < 2 ^ 16 → elpis_get16 (pre ++ put16_bytes v ++ post) (zlen pre) = Ok v.
Proof.
  intros Hv.
  erewrite get16_value; [| | |apply (u8_byte (Z.shiftr v 8))|apply (u8_byte v)].
  - unfold be2, u8. rewrite shiftr_div by lia. f_equal.
    change (2 ^ 8) with 256. rewrite (Z.mod_small (v / 256)) by (split; [apply Z.div_pos; lia|apply Z.div_lt_upper_bound; lia]).
    pose proof (Z.div_mod v 256). lia.
  - by apply (rd_mid_eq _ _ _ _ 0); [lia|].
  - by apply (rd_mid_eq _ _ _ _ 1); [lia|].
Qed.

Lemma be4_digits v :
  0 <= v < 2 ^ 32 →
  be4 (u8 (Z.shiftr v 24)) (u8 (Z.shiftr v 16)) (u8 (Z.shiftr v 8)) (u8 v) = v.
Proof.
  intros. unfold be4, u8. rewrite !shiftr_div by lia.
  change (2 ^ 24) with (256 * 256 * 256). change (2 ^ 16) with (256 * 256). change (2 ^ 8) with 256.
  rewrite <- !Z.div_div by lia.
  rewrite (Z.mod_small (v / 256 / 256 / 256));
    [|rewrite !Z.div_div by lia; split; [apply Z.div_pos; lia|apply Z.div_lt_upper_bound; lia]].
  pose proof (Z.div_mod v 256). pose proof (Z.div_mod (v / 256) 256).
  pose proof (Z.div_mod (v / 256 / 256) 256). lia.
Qed.

Lemma get32_put32 pre post v :
  0 <= v < 2 ^ 32 → elpis_get32 (pre ++ put32_bytes v ++ post) (zlen pre) = Ok v.
Proof.
  intros Hv. rewrite <- (be4_digits v) at 2 by done.
  apply get32_value; try apply u8_byte;
    [apply (rd_mid_eq _ _ _ _ 0)|apply (rd_mid_eq _ _ _ _ 1)|
     apply (rd_mid_eq _ _ _ _ 2)|apply (rd_mid_eq _ _ _ _ 3)]; (lia || done).
Qed.

Lemma get32le_put32le pre post v :
  0 <= v < 2 ^ 32 → elpis_get32le (pre ++ put32le_bytes v ++ post) (zlen pre) = Ok v.
Proof.
  intros Hv. rewrite <- (be4_digits v) at 2 by done.
  apply get32le_value; try apply u8_byte;
    [apply (rd_mid_eq _ _ _ _ 0)|apply (rd_mid_eq _ _ _ _ 1)|
     apply (rd_mid_eq _ _ _ _ 2)|apply (rd_mid_eq _ _ _ _ 3)]; (lia || done).
Qed.

(** ** Fields of a record *)

(** Octet [i], where there is one. *)
Definition octet (k : list Z) (i : Z) : Z := default 0 (k !! Z.to_nat i).

Lemma rd_octet k i : 0 <= i < zlen k → rd k i = Ok (octet k i).
Proof. intros Hi. destruct (rd_in_range k i Hi) as (x & -> & Hx). unfold octet. by rewrite Hx. Qed.

Lemma octet_byte k i : bytes k → byte (octet k i).
Proof.
  intros Hk. unfold octet. destruct (k !! Z.to_nat i) eqn:E; cbn; [by eapply Forall_lookup_1|unfold byte; lia].
Qed.

(** The big-endian fields at [i]. *)
Definition oct16 (k : list Z) (i : Z) : Z := be2 (octet k i) (octet k (i + 1)).
Definition oct32 (k : list Z) (i : Z) : Z := be4 (octet k i) (octet k (i + 1)) (octet k (i + 2)) (octet k (i + 3)).

Lemma get16_oct k i : bytes k → 0 <= i → i + 2 <= zlen k → elpis_get16 k i = Ok (oct16 k i).
Proof. intros. apply get16_value; try (apply rd_octet; lia); by apply octet_byte. Qed.
Lemma get32_oct k i : bytes k → 0 <= i → i + 4 <= zlen k → elpis_get32 k i = Ok (oct32 k i).
Proof. intros. apply get32_value; try (apply rd_octet; lia); by apply octet_byte. Qed.

Lemma oct16_range k i : bytes k → 0 <= oct16 k i < 2 ^ 16.
Proof. intros Hk. pose proof (octet_byte k i Hk). pose proof (octet_byte k (i + 1) Hk). unfold oct16, be2, byte in *. lia. Qed.
Lemma oct32_range k i : bytes k → 0 <= oct32 k i < 2 ^ 32.
Proof.
  intros Hk. pose proof (octet_byte k i Hk). pose proof (octet_byte k (i + 1) Hk). pose proof (octet_byte k (i + 2) Hk).
  pose proof (octet_byte k (i + 3) Hk). unfold oct32, be4, byte in *. lia.
Qed.
