(* ===== verification/Simd.v ===== *)
(** Case folding, case-insensitive comparison and the name hash: the portable
    kernels of include/elpis/simd.h and src/simd/simd.c.  The intrinsics
    variants (SSE2, AVX2, NEON) are compiler built-ins and are not modelled;
    the portable ones are what the source calls the reference behaviour. *)
From stdpp Require Import base list numbers.
From Stdlib Require Import ZArith Lia.
From S2P Require Import Prelude Bytes.

(** ** Definitions *)

(** [c >= 'A' && c <= 'Z' ? c + 32 : c] *)
Definition lower_byte (c : Z) : Z :=
  if (ch_A <=? c) && (c <=? ch_Z) then u8 (c + 32) else c.

Definition ELPIS_SWAR_LO : Z := 0x7f7f7f7f7f7f7f7f.
Definition ELPIS_SWAR_HI : Z := 0x8080808080808080.
Definition ELPIS_SWAR_GEA : Z := 0x3f3f3f3f3f3f3f3f.
Definition ELPIS_SWAR_GTZ : Z := 0x2525252525252525.

(** Eight lanes at once. *)
Definition elpis_swar_lower64 (x : Z) : Z :=
  let lo := Z.land x ELPIS_SWAR_LO in
  let hi := Z.land x ELPIS_SWAR_HI in
  let ge := Z.land (u64 (lo + ELPIS_SWAR_GEA)) ELPIS_SWAR_HI in
  let gt := Z.land (u64 (lo + ELPIS_SWAR_GTZ)) ELPIS_SWAR_HI in
  let m := Z.land (Z.land ge (u64 (Z.lnot gt))) (u64 (Z.lnot hi)) in
  Z.lor x (Z.shiftr m 2).

(** [elpis_lower_pad16] (and [elpis_scalar_lower], the same two loops): fold
    [n] bytes of [src] into [dst].  The two loops, with fuel [n]. *)
Fixpoint lower_words (fuel : nat) (dst src : list Z) (i n : Z) : res (list Z * Z) :=
  match fuel with
  | O => Stuck OutOfFuel
  | S f =>
    if i + 8 <=? n then
      w ← elpis_load64 src i;
      dst' ← elpis_put64le dst i (elpis_swar_lower64 w);
      lower_words f dst' src (i + 8) n
    else Ok (dst, i)
  end.

Fixpoint lower_tail (fuel : nat) (dst src : list Z) (i n : Z) : res (list Z) :=
  match fuel with
  | O => Stuck OutOfFuel
  | S f =>
    if i <? n then
      c ← rd src i;
      dst' ← blit dst i [lower_byte c];
      lower_tail f dst' src (i + 1) n
    else Ok dst
  end.

Definition elpis_scalar_lower (dst src : list Z) (n : Z) : res (list Z) :=
  '(dst', i) ← lower_words (S (Z.to_nat n)) dst src 0 n;
  lower_tail (S (Z.to_nat n)) dst' src i n.

Definition elpis_lower_pad16 (dst src : list Z) (n : Z) : res (list Z) :=
  elpis_scalar_lower dst src n.

(** [elpis_eq_ci a b n]: [None] when a word differs, else where the loop ends. *)
Fixpoint eq_ci_words (fuel : nat) (a b : list Z) (i n : Z) : res (option Z) :=
  match fuel with
  | O => Stuck OutOfFuel
  | S f =>
    if i + 8 <=? n then
      wa ← elpis_load64 a i; wb ← elpis_load64 b i;
      if negb (elpis_swar_lower64 wa =? elpis_swar_lower64 wb) then Ok None
      else eq_ci_words f a b (i + 8) n
    else Ok (Some i)
  end.

Fixpoint eq_ci_tail (fuel : nat) (a b : list Z) (i n : Z) : res bool :=
  match fuel with
  | O => Stuck OutOfFuel
  | S f =>
    if i <? n then
      ca ← rd a i; cb ← rd b i;
      if negb (lower_byte ca =? lower_byte cb) then Ok false
      else eq_ci_tail f a b (i + 1) n
    else Ok true
  end.

Definition elpis_eq_ci (a b : list Z) (n : Z) : res bool :=
  r ← eq_ci_words (S (Z.to_nat n)) a b 0 n;
  match r with
  | None => Ok false
  | Some i => eq_ci_tail (S (Z.to_nat n)) a b i n
  end.

(** 64-bit mixing. *)
Definition elpis_mix64 (x : Z) : Z :=
  let x := Z.lxor x (Z.shiftr x 33) in
  let x := u64 (x * 0xff51afd7ed558ccd) in
  let x := Z.lxor x (Z.shiftr x 33) in
  let x := u64 (x * 0xc4ceb9fe1a85ec53) in
  Z.lxor x (Z.shiftr x 33).

(** With a 128-bit product ... *)
Definition elpis_mul_fold (a b : Z) : Z :=
  let r := a * b in
  Z.lxor (u64 r) (u64 (Z.shiftr r 64)).

(** ... and the portable C99 fallback. *)
Definition elpis_mul_fold_c99 (a b : Z) : Z :=
  let alo := Z.land a 0xFFFFFFFF in let ahi := Z.shiftr a 32 in
  let blo := Z.land b 0xFFFFFFFF in let bhi := Z.shiftr b 32 in
  let p0 := u64 (alo * blo) in let p1 := u64 (alo * bhi) in
  let p2 := u64 (ahi * blo) in let p3 := u64 (ahi * bhi) in
  let mid := u64 (u64 (Z.shiftr p0 32 + Z.land p1 0xFFFFFFFF) + Z.land p2 0xFFFFFFFF) in
  let lo := Z.lor (Z.land p0 0xFFFFFFFF) (u64 (Z.shiftl mid 32)) in
  let hi := u64 (u64 (u64 (p3 + Z.shiftr p1 32) + Z.shiftr p2 32) + Z.shiftr mid 32) in
  Z.lxor lo hi.

Definition HK0 : Z := 0xa0761d6478bd642f.
Definition HK1 : Z := 0xe7037ed1a0b428db.
Definition HK2 : Z := 0x8ebc6af09c88c6e3.
Definition HK3 : Z := 0x589965cc75374cc3.

Definition elpis_hash_seed (seed : Z) : Z :=
  Z.lxor seed (elpis_mul_fold (Z.lxor seed HK0) HK1).
Definition elpis_hash_step (h a b : Z) : Z :=
  elpis_mul_fold (Z.lxor (Z.lxor a h) HK1) (Z.lxor b HK2).

(** [elpis_hash_tail], little-endian branch: overlapping word loads. *)
Definition elpis_hash_tail (p : list Z) (n : Z) : res (Z * Z) :=
  let r := Z.land n 15 in
  if r =? 0 then Ok (0, 0)
  else
    '(x0, x1) ←
      (if 16 <=? n then
         let s := (16 - r) * 8 in
         x0 ← elpis_load64 p (n - 16);
         x1 ← elpis_load64 p (n - 8);
         if 64 <=? s then Ok (Z.shiftr x1 (s - 64), 0)
         else Ok (Z.lor (Z.shiftr x0 s) (u64 (Z.shiftl x1 (64 - s))), Z.shiftr x1 s)
       else if 8 <=? r then
         x0 ← elpis_load64 p 0;
         x1 ← (if r =? 8 then Ok 0
               else w ← elpis_load64 p (n - 8); Ok (Z.shiftr w ((16 - r) * 8)));
         Ok (x0, x1)
       else if 4 <=? r then
         lo ← elpis_load32 p 0;
         hi ← elpis_load32 p (n - 4);
         Ok (Z.lor lo (u64 (Z.shiftl (Z.shiftr hi ((8 - r) * 8)) 32)), 0)
       else
         b0 ← rd p 0;
         b1 ← rd p (Z.shiftr r 1);
         b2 ← rd p (r - 1);
         Ok (Z.lor (Z.lor b0 (u64 (Z.shiftl b1 (Z.shiftr r 1 * 8))))
                   (u64 (Z.shiftl b2 ((r - 1) * 8))), 0));
    Ok (elpis_swar_lower64 x0, elpis_swar_lower64 x1).

(** [elpis_hash_tail], the branch for any other byte order: a byte loop into a
    zeroed 16-byte buffer. *)
Fixpoint hash_tail_fill (fuel : nat) (p t : list Z) (base i r : Z) : res (list Z) :=
  match fuel with
  | O => Stuck OutOfFuel
  | S f =>
    if i <? r then
      c ← rd p (base + i);
      t' ← blit t i [lower_byte c];
      hash_tail_fill f p t' base (i + 1) r
    else Ok t
  end.

Definition elpis_hash_tail_bytes (p : list Z) (n : Z) : res (Z * Z) :=
  let r := Z.land n 15 in
  t ← hash_tail_fill 17 p (replicate 16 0) (n - r) 0 r;
  a ← elpis_load64 t 0; b ← elpis_load64 t 8;
  Ok (a, b).

Definition elpis_hash_finish (h a b n : Z) : Z :=
  let h := elpis_hash_step h a b in
  elpis_mix64 (Z.lxor h (u64 (n * HK3))).

Fixpoint hash_blocks (fuel : nat) (p : list Z) (h i n : Z) : res Z :=
  match fuel with
  | O => Stuck OutOfFuel
  | S f =>
    if i + 16 <=? n then
      wa ← elpis_load64 p i; wb ← elpis_load64 p (i + 8);
      hash_blocks f p (elpis_hash_step h (elpis_swar_lower64 wa) (elpis_swar_lower64 wb))
                  (i + 16) n
    else Ok h
  end.

Definition elpis_scalar_hash_ci (p : list Z) (n seed : Z) : res Z :=
  h ← hash_blocks (S (Z.to_nat n)) p (elpis_hash_seed seed) 0 n;
  '(a, b) ← elpis_hash_tail p n;
  Ok (elpis_hash_finish h a b n).

(** The dispatched [elpis_simd_hash_ci]: every backend agrees with the scalar
    reference (simd.c, tests/test_main.c). *)
Definition elpis_simd_hash_ci : list Z → Z → Z → res Z := elpis_scalar_hash_ci.

(** ** Lanes: a word as the little-endian list of its bytes *)

Definition pk (b x : Z) : Z := b + 256 * x.
Definition le_combine (l : list Z) : Z := foldr pk 0 l.

Lemma pk_testbit b x i :
  byte b → 0 <= i → Z.testbit (pk b x) i = if i <? 8 then Z.testbit b i else Z.testbit x (i - 8).
Proof.
  intros Hb Hi. unfold pk. replace (b + 256 * x) with (b + x * 2 ^ 8) by lia.
  rewrite <- lor_add_shiftl by zl. rewrite Z.lor_spec, Z.shiftl_spec by done.
  destruct (Z.ltb_spec i 8).
  - rewrite (Z.testbit_neg_r x) by lia. apply orb_false_r.
  - rewrite <- (Z.mod_small b (2 ^ 8)) by zl.
    by rewrite Z.mod_pow2_bits_high by lia.
Qed.

Lemma pk_op (f : Z → Z → Z) (g : bool → bool → bool) a x b y :
  (∀ u v i, 0 <= i → Z.testbit (f u v) i = g (Z.testbit u i) (Z.testbit v i)) →
  byte a → byte b → byte (f a b) →
  f (pk a x) (pk b y) = pk (f a b) (f x y).
Proof.
  intros Hf Ha Hb Hab. apply Z.bits_inj'. intros i Hi.
  rewrite Hf, !pk_testbit by done.
  destruct (Z.ltb_spec i 8); rewrite Hf by lia; done.
Qed.

Lemma land_bound a b n : 0 <= n → 0 <= a → 0 <= b < 2 ^ n → 0 <= Z.land a b < 2 ^ n.
Proof.
  intros Hn Ha Hb. split; [apply Z.land_nonneg; lia|].
  rewrite <- (Z.mod_small b (2 ^ n)), <- Z.land_ones, Z.land_assoc, Z.land_ones by lia.
  apply Z.mod_pos_bound. lia.
Qed.

Lemma byte_land a b : byte a → 0 <= b → byte (Z.land a b).
Proof. intros Ha Hb. unfold byte in *. rewrite Z.land_comm. by apply (land_bound b a 8). Qed.

Lemma pk_land a x b y :
  byte a → byte b → Z.land (pk a x) (pk b y) = pk (Z.land a b) (Z.land x y).
Proof.
  intros. apply (pk_op _ andb); [intros; apply Z.land_spec|done|done|apply byte_land; zl].
Qed.

Lemma byte_lor a b : byte a → byte b → byte (Z.lor a b).
Proof.
  intros Ha Hb. unfold byte in *. split; [apply Z.lor_nonneg; lia|].
  destruct (decide (a = 0)) as [->|]; [rewrite Z.lor_0_l; lia|].
  destruct (decide (b = 0)) as [->|]; [rewrite Z.lor_0_r; lia|].
  assert (0 <= Z.lor a b) by (apply Z.lor_nonneg; lia).
  destruct (decide (Z.lor a b = 0)); [lia|].
  apply (Z.log2_lt_pow2 _ 8); [lia|]. rewrite Z.log2_lor by lia.
  assert (Z.log2 a < 8) by (apply Z.log2_lt_pow2; lia).
  assert (Z.log2 b < 8) by (apply Z.log2_lt_pow2; lia). lia.
Qed.

Lemma pk_lor a x b y :
  byte a → byte b → Z.lor (pk a x) (pk b y) = pk (Z.lor a b) (Z.lor x y).
Proof.
  intros. apply (pk_op _ orb); [intros; apply Z.lor_spec|done|done|by apply byte_lor].
Qed.

Lemma land_ldiff_add a b : Z.land a b + Z.ldiff a b = a.
Proof.
  rewrite Z.add_nocarry_lxor.
  - apply Z.bits_inj'. intros i Hi. rewrite Z.lxor_spec, Z.land_spec, Z.ldiff_spec.
    by destruct (Z.testbit a i), (Z.testbit b i).
  - apply Z.bits_inj'. intros i Hi. rewrite Z.land_spec, Z.land_spec, Z.ldiff_spec, Z.bits_0.
    by destruct (Z.testbit a i), (Z.testbit b i).
Qed.

Lemma ldiff_bound a b : 0 <= a → 0 <= Z.ldiff a b <= a.
Proof.
  intros Ha. pose proof (land_ldiff_add a b).
  assert (0 <= Z.ldiff a b) by (apply Z.ldiff_nonneg; lia).
  assert (0 <= Z.land a b) by (apply Z.land_nonneg; lia). lia.
Qed.

Lemma byte_ldiff a b : byte a → 0 <= b → byte (Z.ldiff a b).
Proof. intros Ha Hb. pose proof (ldiff_bound a b). zl. Qed.

Lemma pk_ldiff a x b y :
  byte a → byte b → Z.ldiff (pk a x) (pk b y) = pk (Z.ldiff a b) (Z.ldiff x y).
Proof.
  intros. apply (pk_op _ (fun u v => u && negb v)%bool);
    [intros; apply Z.ldiff_spec|done|done|apply byte_ldiff; zl].
Qed.

(** The kernel with its masks abstracted: one lane fewer each step. *)
Definition swarN (LO HI GEA GTZ x : Z) : Z :=
  let lo := Z.land x LO in
  let m := Z.ldiff (Z.ldiff (Z.land (lo + GEA) HI) (Z.land (lo + GTZ) HI)) (Z.land x HI) in
  Z.lor x (Z.shiftr m 2).

Lemma shiftr2_pk a x : byte a → x mod 4 = 0 → Z.shiftr (pk a x) 2 = pk (Z.shiftr a 2) (Z.shiftr x 2).
Proof.
  intros Ha Hx. unfold pk. rewrite !Z.shiftr_div_pow2 by lia. change (2 ^ 2) with 4.
  pose proof (Z.div_mod x 4). pose proof (Z.div_mod a 4).
  pose proof (Z.mod_pos_bound a 4).
  replace (a + 256 * x) with (a + (64 * x) * 4) by lia. rewrite Z.div_add by lia. lia.
Qed.

Lemma mod4_ldiff_land u HI v w : HI mod 4 = 0 → Z.ldiff (Z.ldiff (Z.land u HI) v) w mod 4 = 0.
Proof.
  intros H. change 4 with (2 ^ 2) in *. rewrite <- Z.land_ones in * by lia.
  apply Z.bits_inj'. intros i Hi. rewrite Z.bits_0.
  apply (f_equal (fun z => Z.testbit z i)) in H. rewrite Z.bits_0 in H.
  rewrite Z.land_spec in H. rewrite Z.land_spec, !Z.ldiff_spec, Z.land_spec.
  destruct (Z.testbit HI i), (Z.testbit (Z.ones 2) i); cbn in H; try done;
    rewrite ?andb_false_r, ?andb_false_l; done.
Qed.

(** All 256 values of one lane. *)
Lemma swar_lane b : byte b → swarN 0x7f 0x80 0x3f 0x25 b = lower_byte b.
Proof.
  intros Hb. apply Z.eqb_eq.
  apply (byte_forallb (fun b => swarN 0x7f 0x80 0x3f 0x25 b =? lower_byte b)); [|done].
  by vm_compute.
Qed.

Lemma swar_step LO HI GEA GTZ b x :
  byte b → HI mod 4 = 0 →
  swarN (pk 0x7f LO) (pk 0x80 HI) (pk 0x3f GEA) (pk 0x25 GTZ) (pk b x)
  = pk (lower_byte b) (swarN LO HI GEA GTZ x).
Proof.
  intros Hb HHI. rewrite <- swar_lane by done. unfold swarN.
  assert (byte (Z.land b 0x7f)) by (apply byte_land; zl).
  assert (Z.land b 0x7f <= 0x7f).
  { change 0x7f with (Z.ones 7). rewrite Z.land_ones by lia. pose proof (Z.mod_pos_bound b (2^7)). change (Z.ones 7) with 127. lia. }
  rewrite pk_land by zl.
  assert (Hadd : ∀ k K, pk (Z.land b 127) (Z.land x LO) + pk k K
                = pk (Z.land b 127 + k) (Z.land x LO + K)) by (unfold pk; lia).
  rewrite !Hadd.
  assert (byte (Z.land b 127 + 0x3f)) by zl. assert (byte (Z.land b 127 + 0x25)) by zl.
  rewrite !pk_land by zl.
  assert (byte (Z.land (Z.land b 127 + 0x3f) 0x80)) by (apply byte_land; zl).
  assert (byte (Z.land (Z.land b 127 + 0x25) 0x80)) by (apply byte_land; zl).
  assert (byte (Z.land b 0x80)) by (apply byte_land; zl).
  rewrite pk_ldiff by done.
  assert (byte (Z.ldiff (Z.land (Z.land b 127 + 0x3f) 0x80) (Z.land (Z.land b 127 + 0x25) 0x80)))
    by (apply byte_ldiff; zl).
  rewrite pk_ldiff by done.
  match goal with |- context [Z.shiftr (pk ?a ?y) 2] => assert (Hm : byte a) by (apply byte_ldiff; zl) end.
  rewrite shiftr2_pk by (done || by apply mod4_ldiff_land).
  apply pk_lor; [done|].
  unfold byte in *. rewrite Z.shiftr_div_pow2 by lia.
  split; [apply Z.div_pos; lia|apply Z.div_lt_upper_bound; lia].
Qed.

Lemma u64_lnot_land a b : 0 <= a < 2 ^ 64 → Z.land a (u64 (Z.lnot b)) = Z.ldiff a b.
Proof.
  intros Ha. unfold u64. rewrite <- Z.land_ones by lia.
  rewrite (Z.land_comm (Z.lnot b)), Z.land_assoc, Z.land_ones, Z.mod_small by lia.
  apply Z.bits_inj'. intros i Hi. rewrite Z.land_spec, Z.lnot_spec, Z.ldiff_spec by done. done.
Qed.

(** The kernel as written is the lane-wise kernel on eight lanes. *)
Lemma swar_lower64_N x :
  0 <= x →
  elpis_swar_lower64 x = swarN ELPIS_SWAR_LO ELPIS_SWAR_HI ELPIS_SWAR_GEA ELPIS_SWAR_GTZ x.
Proof.
  intros Hx. unfold elpis_swar_lower64, swarN.
  assert (0 <= Z.land x ELPIS_SWAR_LO < 0x7f7f7f7f7f7f7f80).
  { split; [apply Z.land_nonneg; unfold ELPIS_SWAR_LO; lia|].
    rewrite Z.land_comm. pose proof (land_ldiff_add ELPIS_SWAR_LO x).
    pose proof (ldiff_bound ELPIS_SWAR_LO x). unfold ELPIS_SWAR_LO in *. lia. }
  rewrite (u64_id (_ + ELPIS_SWAR_GEA)), (u64_id (_ + ELPIS_SWAR_GTZ))
    by (unfold ELPIS_SWAR_GEA, ELPIS_SWAR_GTZ; lia).
  assert (0 <= Z.land (Z.land x ELPIS_SWAR_LO + ELPIS_SWAR_GEA) ELPIS_SWAR_HI < 2 ^ 64) as Hge
    by (apply land_bound; unfold ELPIS_SWAR_GEA, ELPIS_SWAR_HI; lia).
  rewrite (u64_lnot_land _ (Z.land (_ + ELPIS_SWAR_GTZ) _)) by exact Hge.
  rewrite u64_lnot_land; [done|].
  match goal with |- 0 <= Z.ldiff ?a ?b < _ => pose proof (ldiff_bound a b) end. lia.
Qed.

(** ** Words of eight bytes *)

Lemma swar_combine8 l :
  length l = 8%nat → bytes l →
  elpis_swar_lower64 (le_combine l) = le_combine (map lower_byte l).
Proof.
  intros Hl Hb. do 9 (destruct l as [|? l]; [try done|]); try done. clear Hl.
  rewrite swar_lower64_N.
  2: { decompose_Forall_hyps. cbn. unfold pk. zl. }
  decompose_Forall_hyps. cbn [le_combine foldr map].
  change ELPIS_SWAR_LO with (pk 127 (pk 127 (pk 127 (pk 127 (pk 127 (pk 127 (pk 127 (pk 127 0)))))))).
  change ELPIS_SWAR_HI with (pk 128 (pk 128 (pk 128 (pk 128 (pk 128 (pk 128 (pk 128 (pk 128 0)))))))).
  change ELPIS_SWAR_GEA with (pk 63 (pk 63 (pk 63 (pk 63 (pk 63 (pk 63 (pk 63 (pk 63 0)))))))).
  change ELPIS_SWAR_GTZ with (pk 37 (pk 37 (pk 37 (pk 37 (pk 37 (pk 37 (pk 37 (pk 37 0)))))))).
  rewrite !swar_step by done. done.
Qed.

Lemma le_combine_inj l k :
  length l = length k → bytes l → bytes k → le_combine l = le_combine k → l = k.
Proof.
  revert k. induction l as [|a l IH]; intros [|b k] Hl Ha Hb; try done.
  cbn. intros H. apply Forall_cons_1 in Ha as [Ha ?]. apply Forall_cons_1 in Hb as [Hb ?].
  fold (le_combine l) (le_combine k) in H.
  unfold pk in H. unfold byte in *. assert (a = b) as -> by lia.
  f_equal. apply IH; [by injection Hl|done|done|lia].
Qed.

Lemma slice_cons_rd {A} (l : list A) o n x :
  0 <= o → 0 < n → rd l o = Ok x → slice l o n = x :: slice l (o + 1) (n - 1).
Proof.
  intros Ho Hn Hx. apply rd_Ok_inv in Hx as [_ Hx]. unfold slice.
  rewrite (drop_S l x (Z.to_nat o)) by done.
  replace (Z.to_nat n) with (S (Z.to_nat (n - 1))) by lia.
  replace (Z.to_nat (o + 1)) with (S (Z.to_nat o)) by lia. done.
Qed.

Lemma slice_0 {A} (l : list A) o : slice l o 0 = [].
Proof. done. Qed.

Lemma load32_value p o :
  bytes p → 0 <= o → o + 4 <= zlen p →
  elpis_load32 p o = Ok (le_combine (slice p o 4)).
Proof.
  intros Hp ??. unfold elpis_load32.
  destruct (rd_in_range p o) as (a & Ha & La); [lia|].
  destruct (rd_in_range p (o + 1)) as (b & Hb & Lb); [lia|].
  destruct (rd_in_range p (o + 2)) as (c & Hc & Lc); [lia|].
  destruct (rd_in_range p (o + 3)) as (d & Hd & Ld); [lia|].
  pose proof (Forall_lookup_1 _ _ _ _ Hp La). pose proof (Forall_lookup_1 _ _ _ _ Hp Lb).
  pose proof (Forall_lookup_1 _ _ _ _ Hp Lc). pose proof (Forall_lookup_1 _ _ _ _ Hp Ld).
  cbv beta in *. rewrite (get32le_value p o a b c d) by done. f_equal.
  rewrite (slice_cons_rd p o 4 a), (slice_cons_rd p (o + 1) _ b) by (lia || done).
  rewrite (slice_cons_rd p _ _ c) by (lia || (rewrite <- Hc; f_equal; lia)).
  rewrite (slice_cons_rd p _ _ d) by (lia || (rewrite <- Hd; f_equal; lia)).
  replace (4 - 1 - 1 - 1 - 1) with 0 by lia. rewrite slice_0.
  cbn [le_combine foldr]. unfold be4, pk. lia.
Qed.

Lemma le_combine_app l k : le_combine (l ++ k) = le_combine l + 256 ^ zlen l * le_combine k.
Proof.
  induction l as [|a l IH]; [rewrite (@zlen_nil Z), Z.pow_0_r, app_nil_l; change (le_combine []) with 0; lia|].
  cbn [app le_combine foldr].
  fold (le_combine (l ++ k)) (le_combine l). rewrite IH, zlen_cons.
  unfold pk. rewrite Z.pow_add_r by (pose proof (zlen_nonneg l); lia). change (256 ^ 1) with 256. ring.
Qed.

Lemma le_combine_range l : bytes l → 0 <= le_combine l < 256 ^ zlen l.
Proof.
  induction 1 as [|a l Ha Hl IH]; [done|]. rewrite zlen_cons. cbn. fold (le_combine l).
  unfold pk. rewrite Z.pow_add_r by (pose proof (zlen_nonneg l); lia). change (256 ^ 1) with 256. unfold byte in *. lia.
Qed.

Lemma load64_value p o :
  bytes p → 0 <= o → o + 8 <= zlen p →
  elpis_load64 p o = Ok (le_combine (slice p o 8)).
Proof.
  intros Hp ??. unfold elpis_load64, elpis_get64le. fold elpis_load32.
  change (elpis_get32le p) with (elpis_load32 p). rewrite !load32_value by (done || lia). cbn -[slice le_combine].
  f_equal. change 8 with (4 + 4). rewrite slice_split, le_combine_app by lia.
  rewrite zlen_slice by lia. rewrite u64_id.
  - rewrite lor_add_shiftl; [change (256 ^ 4) with (2 ^ 32); lia|lia|].
    pose proof (le_combine_range (slice p o 4)) as Hr. rewrite zlen_slice in Hr by lia.
    apply Hr. by apply Forall_slice.
  - pose proof (le_combine_range (slice p (o + 4) 4)) as Hr. rewrite zlen_slice in Hr by lia.
    rewrite Z.shiftl_mul_pow2 by lia. specialize (Hr ltac:(by apply Forall_slice)).
    change (256 ^ 4) with (2 ^ 32) in Hr. lia.
Qed.

Lemma length_slice {A} (l : list A) o n :
  0 <= o → 0 <= n → o + n <= zlen l → length (slice l o n) = Z.to_nat n.
Proof. intros. pose proof (zlen_slice l o n). zl. Qed.

Lemma lower_byte_byte b : byte b → byte (lower_byte b).
Proof. intros. unfold lower_byte. destruct (_ && _)%bool; [apply u8_byte|done]. Qed.
#[export] Hint Resolve lower_byte_byte : elpis.

Lemma bytes_lower l : bytes l → bytes (map lower_byte l).
Proof. induction 1; cbn; constructor; auto using lower_byte_byte. Qed.
#[export] Hint Resolve bytes_lower : elpis.

(** Two words fold equal exactly when their lanes do. *)
Lemma swar_words_eq a b o :
  bytes a → bytes b → 0 <= o → o + 8 <= zlen a → o + 8 <= zlen b →
  (elpis_swar_lower64 (le_combine (slice a o 8)) =? elpis_swar_lower64 (le_combine (slice b o 8)))
  = bool_decide (map lower_byte (slice a o 8) = map lower_byte (slice b o 8)).
Proof.
  intros. rewrite !swar_combine8 by first [by apply Forall_slice | by rewrite length_slice by lia].
  apply eq_true_iff_eq. rewrite Z.eqb_eq, bool_decide_eq_true. split; [|by intros ->].
  apply le_combine_inj; [|by apply bytes_lower, Forall_slice..].
  rewrite !length_map, !length_slice by lia. done.
Qed.

(** ** [elpis_eq_ci] compares the case-folded octets *)

Definition fold_eq (l k : list Z) : Prop := map lower_byte l = map lower_byte k.
#[export] Instance fold_eq_dec l k : Decision (fold_eq l k).
Proof. unfold fold_eq. apply _. Defined.
#[export] Instance fold_eq_equiv : Equivalence fold_eq.
Proof. unfold fold_eq. split; intros ?; intros; congruence. Qed.

Lemma eq_ci_words_spec a b n fuel i :
  bytes a → bytes b → n <= zlen a → n <= zlen b → 0 <= i <= n → n - i < Z.of_nat fuel →
  fold_eq (slice a 0 i) (slice b 0 i) →
  ∃ r, eq_ci_words fuel a b i n = Ok r ∧
    match r with
    | None => ¬ fold_eq (slice a 0 n) (slice b 0 n)
    | Some j => i <= j <= n ∧ fold_eq (slice a 0 j) (slice b 0 j)
    end.
Proof.
  intros Ha Hb Hna Hnb. revert i. induction fuel as [|fuel IH]; intros i Hi Hf Heq; [lia|].
  cbn [eq_ci_words]. destruct (Z.leb_spec (i + 8) n) as [Hle|]; [|eexists; split; [done|split; [lia|done]]].
  rewrite !load64_value by (done || lia). cbn -[slice le_combine].
  rewrite swar_words_eq by (done || lia).
  case_bool_decide as Hw; cbn.
  - destruct (IH (i + 8)) as (r & -> & Hr); [lia|lia| |].
    { unfold fold_eq. rewrite !(slice_split _ 0 i 8), !map_app by lia. rewrite !Z.add_0_l. by f_equal. }
    exists r. split; [done|]. destruct r; [split; [lia|]|]; apply Hr.
  - eexists. split; [done|]. intros Hall. apply Hw.
    unfold fold_eq in *. replace n with (i + (8 + (n - i - 8))) in Hall by lia.
    rewrite !(slice_split _ 0 i), !map_app, Heq in Hall by lia. apply app_inv_head in Hall.
    rewrite !Z.add_0_l, !(slice_split _ i 8), !map_app in Hall by lia.
    apply app_inj_1 in Hall as [? _]; [done|]. by rewrite !length_map, !length_slice by lia.
Qed.

Lemma slice_snoc {A} (l : list A) o n x :
  0 <= o → 0 <= n → rd l (o + n) = Ok x → slice l o (n + 1) = slice l o n ++ [x].
Proof.
  intros Ho Hn Hx. rewrite slice_split by lia. by rewrite (slice_cons_rd l (o + n) 1 x) by (lia || done).
Qed.

Lemma eq_ci_tail_spec a b n fuel i :
  n <= zlen a → n <= zlen b → 0 <= i <= n → n - i < Z.of_nat fuel →
  fold_eq (slice a 0 i) (slice b 0 i) →
  eq_ci_tail fuel a b i n = Ok (bool_decide (fold_eq (slice a 0 n) (slice b 0 n))).
Proof.
  intros Hna Hnb. revert i. induction fuel as [|fuel IH]; intros i Hi Hf Heq; [lia|].
  cbn [eq_ci_tail]. destruct (Z.ltb_spec i n) as [Hlt|].
  - destruct (rd_in_range a i) as (x & Hx & _); [lia|].
    destruct (rd_in_range b i) as (y & Hy & _); [lia|].
    rewrite Hx, Hy. cbn.
    assert (Ha1 : slice a 0 (i + 1) = slice a 0 i ++ [x]) by (apply slice_snoc; [lia|lia|by rewrite Z.add_0_l]).
    assert (Hb1 : slice b 0 (i + 1) = slice b 0 i ++ [y]) by (apply slice_snoc; [lia|lia|by rewrite Z.add_0_l]).
    destruct (Z.eqb_spec (lower_byte x) (lower_byte y)) as [Hxy|Hxy]; cbn.
    + apply IH; [lia|lia|]. unfold fold_eq. rewrite Ha1, Hb1, !map_app. cbn. by rewrite Hxy, Heq.
    + rewrite bool_decide_eq_false_2; [done|]. unfold fold_eq. intros Hall. apply Hxy.
      replace n with ((i + 1) + (n - i - 1)) in Hall by lia.
      rewrite !(slice_split _ 0 (i + 1)), Ha1, Hb1, !map_app, <- !app_assoc, Heq in Hall by lia.
      apply app_inv_head in Hall. by injection Hall.
  - replace i with n in Heq by lia. by rewrite bool_decide_eq_true_2.
Qed.

Lemma eq_ci_spec a b n :
  bytes a → bytes b → 0 <= n → n <= zlen a → n <= zlen b →
  elpis_eq_ci a b n = Ok (bool_decide (fold_eq (slice a 0 n) (slice b 0 n))).
Proof.
  intros Ha Hb Hn Hna Hnb. unfold elpis_eq_ci.
  destruct (eq_ci_words_spec a b n (S (Z.to_nat n)) 0) as (r & -> & Hr); try (done || lia).
  cbn -[eq_ci_tail]. destruct r as [j|]; [|by rewrite bool_decide_eq_false_2].
  destruct Hr as [? ?]. apply eq_ci_tail_spec; (done || lia).
Qed.

(** ** [elpis_lower_pad16] folds in place *)

Lemma put64le_lanes l :
  length l = 8%nat → bytes l → put64le_bytes (le_combine l) = l.
Proof.
  intros Hl Hb. do 9 (destruct l as [|? l]; [try done|]); try done. clear Hl.
  unfold put64le_bytes, put32le_bytes. decompose_Forall_hyps.
  change (le_combine ?l) with (foldr pk 0 l). cbn [foldr app].
  unfold pk, u8, u32, byte in *. rewrite !Z.shiftr_div_pow2 by lia.
  change (2 ^ 8) with 256. change (2 ^ 16) with 65536. change (2 ^ 24) with 16777216.
  change (2 ^ 32) with 4294967296.
  repeat f_equal; Z.div_mod_to_equations; lia.
Qed.

Lemma splice_app {A} (pre mid post bs : list A) :
  zlen mid = zlen bs → splice (pre ++ mid ++ post) (zlen pre) bs = pre ++ bs ++ post.
Proof.
  intros Hl. unfold splice. rewrite take_app_length' by zl. f_equal. f_equal.
  rewrite app_assoc, drop_app_length'; [done|]. rewrite length_app. zl.
Qed.

Lemma splice_at {A} (pre rest bs : list A) :
  zlen bs <= zlen rest →
  splice (pre ++ rest) (zlen pre) bs = (pre ++ bs) ++ drop (length bs) rest.
Proof.
  intros Hl. rewrite <- (take_drop (length bs) rest) at 1.
  rewrite splice_app; [by rewrite <- app_assoc|]. rewrite zlen_take. zl.
Qed.

Lemma blit_at {A} (pre rest bs : list A) o :
  o = zlen pre → zlen bs <= zlen rest →
  blit (pre ++ rest) o bs = Ok ((pre ++ bs) ++ drop (length bs) rest).
Proof.
  intros -> Hl. rewrite blit_in_range; [by rewrite splice_at|apply zlen_nonneg|rewrite zlen_app; lia].
Qed.

Lemma zlen_lower_slice src i :
  0 <= i → i <= zlen src → zlen (map lower_byte (slice src 0 i)) = i.
Proof. intros. rewrite zlen_map, zlen_slice by lia. done. Qed.

Lemma lower_words_spec src n fuel i rest :
  bytes src → n <= zlen src → 0 <= i <= n → n - i < Z.of_nat fuel → n - i <= zlen rest →
  ∃ j, i <= j <= n ∧
    lower_words fuel (map lower_byte (slice src 0 i) ++ rest) src i n
    = Ok (map lower_byte (slice src 0 j) ++ drop (Z.to_nat (j - i)) rest, j).
Proof.
  intros Hb Hn. revert i rest.
  induction fuel as [|fuel IH]; intros i rest Hi Hf Hr; [lia|].
  cbn [lower_words]. destruct (Z.leb_spec (i + 8) n) as [Hle|].
  - rewrite load64_value by (done || lia). cbn -[slice le_combine lower_words].
    rewrite swar_combine8 by first [by apply Forall_slice|by rewrite length_slice by lia].
    unfold elpis_put64le. rewrite put64le_lanes; [|by rewrite length_map, length_slice by lia|by apply bytes_lower, Forall_slice].
    rewrite blit_at; [|by rewrite zlen_lower_slice by lia|rewrite zlen_map, zlen_slice by lia; lia].
    cbn -[slice lower_words]. rewrite <- map_app.
    replace (slice src 0 i ++ slice src i 8) with (slice src 0 (i + 8))
      by (rewrite slice_split by lia; done).
    rewrite length_map, length_slice by lia.
    destruct (IH (i + 8) (drop (Z.to_nat 8) rest)) as (j & Hj & ->);
      [lia|lia|rewrite zlen_drop; lia|].
    exists j. split; [lia|]. rewrite drop_drop. do 4 f_equal. lia.
  - exists i. split; [lia|]. by rewrite Z.sub_diag.
Qed.

Lemma lower_tail_spec src n fuel i rest :
  n <= zlen src → 0 <= i <= n → n - i < Z.of_nat fuel → n - i <= zlen rest →
  lower_tail fuel (map lower_byte (slice src 0 i) ++ rest) src i n
  = Ok (map lower_byte (slice src 0 n) ++ drop (Z.to_nat (n - i)) rest).
Proof.
  intros Hn. revert i rest.
  induction fuel as [|fuel IH]; intros i rest Hi Hf Hr; [lia|].
  cbn [lower_tail]. destruct (Z.ltb_spec i n) as [Hlt|].
  - destruct (rd_in_range src i) as (c & Hc & _); [lia|]. rewrite Hc. cbn -[slice lower_tail].
    rewrite blit_at; [|by rewrite zlen_lower_slice by lia|zl].
    cbn -[slice lower_tail drop]. change [lower_byte c] with (map lower_byte [c]). rewrite <- map_app.
    rewrite <- (slice_snoc src 0 i c) by (lia || by rewrite Z.add_0_l).
    rewrite IH; [|lia|lia|rewrite zlen_drop; zl].
    rewrite drop_drop. do 3 f_equal. cbn. lia.
  - replace n with i by lia. by rewrite Z.sub_diag.
Qed.

Lemma lower_pad16_spec dst src n :
  bytes src → 0 <= n → n <= zlen src → n <= zlen dst →
  elpis_lower_pad16 dst src n = Ok (map lower_byte (slice src 0 n) ++ drop (Z.to_nat n) dst).
Proof.
  intros Hb ???. unfold elpis_lower_pad16, elpis_scalar_lower.
  destruct (lower_words_spec src n (S (Z.to_nat n)) 0 dst) as (j & Hj & Hw); try (done || lia).
  rewrite slice_0 in Hw. cbn [map app] in Hw. rewrite Hw. cbn -[slice lower_tail].
  rewrite lower_tail_spec; [|lia|lia|lia|rewrite zlen_drop; lia].
  rewrite drop_drop. do 3 f_equal. lia.
Qed.

(** ** The two hash-tail implementations agree *)

Lemma le_combine_zeros k : le_combine (replicate k 0) = 0.
Proof.
  induction k as [|k IH]; [done|]. change (replicate (S k) 0) with (0 :: replicate k 0).
  change (le_combine (0 :: ?l)) with (pk 0 (le_combine l)). rewrite IH. done.
Qed.

Lemma le_combine_pad l k : le_combine (l ++ replicate k 0) = le_combine l.
Proof. rewrite le_combine_app, le_combine_zeros. lia. Qed.

Lemma le_combine_drop l k :
  bytes l → Z.shiftr (le_combine l) (8 * Z.of_nat k) = le_combine (drop k l).
Proof.
  intros Hb. rewrite Z.shiftr_div_pow2, Z.pow_mul_r by lia. change (2 ^ 8) with 256.
  destruct (decide (k ≤ length l)%nat).
  - rewrite <- (take_drop k l) at 1. rewrite le_combine_app.
    replace (zlen (take k l)) with (Z.of_nat k) by (rewrite zlen_take; zl).
    pose proof (le_combine_range (take k l) (Forall_take _ _ _ Hb)) as Hr.
    replace (zlen (take k l)) with (Z.of_nat k) in Hr by (rewrite zlen_take; zl).
    rewrite Z.add_comm, Z.mul_comm, Z.div_add_l by lia. rewrite Z.div_small by lia. lia.
  - rewrite drop_ge by lia. apply Z.div_small.
    pose proof (le_combine_range l Hb). split; [lia|].
    apply Z.lt_le_trans with (256 ^ zlen l); [lia|]. apply Z.pow_le_mono_r; zl.
Qed.

Lemma le_combine_take l k :
  bytes l → le_combine l mod 2 ^ (8 * Z.of_nat k) = le_combine (take k l).
Proof.
  intros Hb. rewrite Z.pow_mul_r by lia. change (2 ^ 8) with 256.
  destruct (decide (k ≤ length l)%nat).
  - rewrite <- (take_drop k l) at 1. rewrite le_combine_app.
    pose proof (le_combine_range (take k l) (Forall_take _ _ _ Hb)) as Hr.
    replace (zlen (take k l)) with (Z.of_nat k) in * by (rewrite zlen_take; zl).
    rewrite (Z.mul_comm (256 ^ _)), Z.mod_add by lia. by apply Z.mod_small.
  - rewrite take_ge by lia. apply Z.mod_small.
    pose proof (le_combine_range l Hb). split; [lia|].
    apply Z.lt_le_trans with (256 ^ zlen l); [lia|]. apply Z.pow_le_mono_r; zl.
Qed.

Lemma hash_tail_fill_spec p base r fuel i rest :
  0 <= base → base + r <= zlen p → 0 <= i <= r → r - i < Z.of_nat fuel → r - i <= zlen rest →
  hash_tail_fill fuel p (map lower_byte (slice p base i) ++ rest) base i r
  = Ok (map lower_byte (slice p base r) ++ drop (Z.to_nat (r - i)) rest).
Proof.
  intros Hb Hn. revert i rest.
  induction fuel as [|fuel IH]; intros i rest Hi Hf Hr; [lia|].
  cbn [hash_tail_fill]. destruct (Z.ltb_spec i r) as [Hlt|].
  - destruct (rd_in_range p (base + i)) as (c & Hc & _); [lia|]. rewrite Hc. cbn -[slice hash_tail_fill].
    rewrite blit_at; [|by rewrite zlen_map, zlen_slice by lia|zl].
    cbn -[slice hash_tail_fill drop]. change [lower_byte c] with (map lower_byte [c]).
    rewrite <- map_app, <- (slice_snoc p base i c) by (lia || done).
    rewrite IH; [|lia|lia|rewrite zlen_drop; zl].
    rewrite drop_drop. do 3 f_equal. cbn [length]. lia.
  - replace r with i by lia. by rewrite Z.sub_diag.
Qed.

(** The 16-byte block both branches stand for. *)
Definition tail_block (p : list Z) (n : Z) : list Z :=
  slice p (n - Z.land n 15) (Z.land n 15) ++ replicate (Z.to_nat (16 - Z.land n 15)) 0.

Lemma land15 n : Z.land n 15 = n mod 16.
Proof. change 15 with (Z.ones 4). by rewrite Z.land_ones by lia. Qed.

Lemma shiftr_small x s : 0 <= x < 2 ^ 64 → 64 <= s → Z.shiftr x s = 0.
Proof.
  intros. rewrite Z.shiftr_div_pow2 by lia. apply Z.div_small. split; [lia|].
  apply Z.lt_le_trans with (2 ^ 64); [lia|apply Z.pow_le_mono_r; lia].
Qed.

Lemma shiftr_le x s : 0 <= x → 0 <= s → 0 <= Z.shiftr x s <= x.
Proof.
  intros. rewrite Z.shiftr_div_pow2 by lia. pose proof (Z.pow_pos_nonneg 2 s).
  split; [apply Z.div_pos; lia|]. apply Z.div_le_upper_bound; [lia|nia].
Qed.

Section tail.
Context (p : list Z) (n : Z) (Hp : bytes p) (Hn : 0 <= n) (Hlen : n <= zlen p).

Lemma land15_range : 0 <= Z.land n 15 < 16 ∧ Z.land n 15 <= n.
  Proof.
    rewrite land15. pose proof (Z.mod_pos_bound n 16). pose proof (Z.mod_le n 16). lia.
  Qed.

Lemma bytes_tail_block : bytes (tail_block p n).
  Proof.
    apply Forall_app. split; [by apply Forall_slice|]. apply Forall_replicate. zl.
  Qed.

Lemma length_tail_block : length (tail_block p n) = 16%nat.
  Proof.
    pose proof land15_range. unfold tail_block.
    rewrite length_app, length_replicate, length_slice by lia. lia.
  Qed.

Lemma map_lower_tail_block :
    map lower_byte (tail_block p n)
    = map lower_byte (slice p (n - Z.land n 15) (Z.land n 15))
      ++ replicate (Z.to_nat (16 - Z.land n 15)) 0.
  Proof. unfold tail_block. rewrite map_app. f_equal. apply (fmap_replicate lower_byte). Qed.

Lemma hash_tail_bytes_spec :
    elpis_hash_tail_bytes p n
    = Ok (le_combine (map lower_byte (take 8 (tail_block p n))),
          le_combine (map lower_byte (drop 8 (tail_block p n)))).
  Proof.
    pose proof land15_range. unfold elpis_hash_tail_bytes.
    pose proof (hash_tail_fill_spec p (n - Z.land n 15) (Z.land n 15) 17 0 (replicate 16 0)) as Hf.
    rewrite slice_0 in Hf. cbn [map app] in Hf. rewrite Hf; [|lia|lia|lia|lia|rewrite zlen_replicate; lia].
    rewrite Z.sub_0_r, drop_replicate.
    replace (16 - Z.to_nat (Z.land n 15))%nat with (Z.to_nat (16 - Z.land n 15)) by lia.
    cbn -[slice elpis_load64 replicate]. rewrite <- map_lower_tail_block.
    pose proof bytes_tail_block. pose proof length_tail_block.
    rewrite !load64_value by first [by apply bytes_lower|rewrite zlen_map; zl|lia].
    cbn -[slice le_combine]. unfold slice. rewrite drop_0.
    do 2 f_equal; f_equal.
    - apply firstn_map.
    - rewrite take_ge; [apply skipn_map|]. rewrite length_drop, length_map. zl.
  Qed.

Lemma lower_pair x0 x1 :
    x0 = le_combine (take 8 (tail_block p n)) →
    x1 = le_combine (drop 8 (tail_block p n)) →
    (elpis_swar_lower64 x0, elpis_swar_lower64 x1)
    = (le_combine (map lower_byte (take 8 (tail_block p n))),
       le_combine (map lower_byte (drop 8 (tail_block p n)))).
  Proof.
    intros -> ->. pose proof bytes_tail_block. pose proof length_tail_block.
    rewrite !swar_combine8; [done|rewrite length_drop; lia|by apply Forall_drop|
      rewrite length_take; lia|by apply Forall_take].
  Qed.

  (** The value [V] of the [r] tail bytes determines both words. *)
Lemma tail_words :
    le_combine (take 8 (tail_block p n)) = u64 (le_combine (slice p (n - Z.land n 15) (Z.land n 15))) ∧
    le_combine (drop 8 (tail_block p n))
    = Z.shiftr (le_combine (slice p (n - Z.land n 15) (Z.land n 15))) 64.
  Proof.
    pose proof bytes_tail_block as Hb.
    rewrite <- le_combine_take, <- le_combine_drop by done.
    unfold tail_block. by rewrite le_combine_pad.
  Qed.

  (** Long input: the last 16 bytes, shifted down past those already hashed. *)
Lemma tail_long x0 x1 r s :
    16 <= n → r = Z.land n 15 → r ≠ 0 → s = (16 - r) * 8 →
    x0 = le_combine (slice p (n - 16) 8) → x1 = le_combine (slice p (n - 8) 8) →
    (if 64 <=? s then (Z.shiftr x1 (s - 64), 0)
     else (Z.lor (Z.shiftr x0 s) (u64 (Z.shiftl x1 (64 - s))), Z.shiftr x1 s))
    = (le_combine (take 8 (tail_block p n)), le_combine (drop 8 (tail_block p n))).
  Proof.
    intros Hn16 Hr Hr0 Hs Hx0 Hx1. destruct tail_words as [-> ->]. rewrite <- Hr.
    pose proof land15_range as Hrr. rewrite <- Hr in Hrr.
    assert (HV : le_combine (slice p (n - r) r) = Z.shiftr (x0 + 2 ^ 64 * x1) s).
    { rewrite Hx0, Hx1. change (2 ^ 64) with (256 ^ 8).
      replace (256 ^ 8) with (256 ^ zlen (slice p (n - 16) 8)) by (by rewrite zlen_slice by lia).
      replace (slice p (n - 8) 8) with (slice p (n - 16 + 8) 8) by (f_equal; lia).
      rewrite <- le_combine_app, <- slice_split by lia.
      rewrite Hs. replace ((16 - r) * 8) with (8 * Z.of_nat (Z.to_nat (16 - r))) by lia.
      rewrite le_combine_drop by (by apply Forall_slice).
      replace (8 + 8) with ((16 - r) + r) by lia. rewrite slice_split by lia.
      rewrite drop_app_length' by (rewrite length_slice; lia). do 2 f_equal. lia. }
    rewrite HV. clear HV Hr.
    assert (R0 : 0 <= x0 < 2 ^ 64).
    { pose proof (le_combine_range (slice p (n - 16) 8)) as H. rewrite zlen_slice in H by lia.
      rewrite Hx0. apply H. by apply Forall_slice. }
    assert (R1 : 0 <= x1 < 2 ^ 64).
    { pose proof (le_combine_range (slice p (n - 8) 8)) as H. rewrite zlen_slice in H by lia.
      rewrite Hx1. apply H. by apply Forall_slice. }
    clear Hx0 Hx1. rewrite Z.shiftr_shiftr by lia.
    replace (x0 + 2 ^ 64 * x1) with (Z.lor x0 (Z.shiftl x1 64))
      by (rewrite lor_add_shiftl by lia; lia).
    rewrite !Z.shiftr_lor.
    destruct (Z.leb_spec 64 s).
    - assert (s < 128) by lia.
      rewrite (shiftr_small x0 s), (shiftr_small x0 (s + 64)) by lia.
      rewrite !Z.lor_0_l, !Z.shiftr_shiftl_r by lia.
      replace (s + 64 - 64) with s by lia.
      rewrite (shiftr_small x1 s) by lia. pose proof (shiftr_le x1 (s - 64)).
      by rewrite u64_id by lia.
    - rewrite (shiftr_small x0 (s + 64)) by lia.
      rewrite Z.lor_0_l, (Z.shiftr_shiftl_r x1 64 (s + 64)), (Z.shiftr_shiftl_l x1 64 s) by lia.
      replace (s + 64 - 64) with s by lia. f_equal.
      unfold u64. rewrite <- !Z.land_ones by lia. rewrite Z.land_lor_distr_l. f_equal.
      pose proof (shiftr_le x0 s).
      rewrite Z.land_ones, Z.mod_small; [done|lia|lia].
  Qed.

Lemma land15_small : n < 16 → Z.land n 15 = n.
  Proof. intros. rewrite land15. by apply Z.mod_small. Qed.

Lemma le_slice_range o m : 0 <= o → 0 <= m → o + m <= zlen p →
    0 <= le_combine (slice p o m) < 256 ^ m.
  Proof.
    intros. pose proof (le_combine_range (slice p o m)) as H'. rewrite zlen_slice in H' by lia.
    apply H'. by apply Forall_slice.
  Qed.

  (** Eight to fifteen bytes. *)
Lemma tail_8 :
    8 <= n < 16 →
    le_combine (take 8 (tail_block p n)) = le_combine (slice p 0 8) ∧
    le_combine (drop 8 (tail_block p n)) = Z.shiftr (le_combine (slice p (n - 8) 8)) ((16 - n) * 8).
  Proof.
    intros H8. destruct tail_words as [-> ->]. rewrite land15_small, Z.sub_diag by lia.
    replace n with (8 + (n - 8)) at 1 by lia. rewrite slice_split, Z.add_0_l by lia. split.
    - unfold u64. change (2 ^ 64) with (2 ^ (8 * Z.of_nat 8)).
      rewrite le_combine_take by (apply Forall_app; split; by apply Forall_slice).
      by rewrite take_app_length' by (by rewrite length_slice by lia).
    - assert (Hw : slice p (n - 8) 8 = slice p (n - 8) (16 - n) ++ slice p 8 (n - 8)).
      { replace 8 with ((16 - n) + (n - 8)) at 2 by lia. rewrite slice_split by lia.
        do 2 f_equal. lia. }
      rewrite Hw. replace ((16 - n) * 8) with (8 * Z.of_nat (Z.to_nat (16 - n))) by lia.
      rewrite le_combine_drop by (apply Forall_app; split; by apply Forall_slice).
      rewrite drop_app_length' by (rewrite length_slice; lia).
      assert (Hn8 : slice p 0 n = slice p 0 8 ++ slice p 8 (n - 8)).
      { replace n with (8 + (n - 8)) at 1 by lia. by rewrite slice_split, Z.add_0_l by lia. }
      rewrite Hn8. change 64 with (8 * Z.of_nat 8).
      rewrite le_combine_drop by (apply Forall_app; split; by apply Forall_slice).
      by rewrite drop_app_length' by (by rewrite length_slice by lia).
  Qed.

  (** Four to seven bytes. *)
Lemma tail_4 :
    4 <= n < 8 →
    Z.lor (le_combine (slice p 0 4))
          (u64 (Z.shiftl (Z.shiftr (le_combine (slice p (n - 4) 4)) ((8 - n) * 8)) 32))
    = le_combine (slice p 0 n).
  Proof.
    intros H4.
    assert (Hw : slice p (n - 4) 4 = slice p (n - 4) (8 - n) ++ slice p 4 (n - 4)).
    { replace 4 with ((8 - n) + (n - 4)) at 2 by lia. rewrite slice_split by lia.
      do 2 f_equal. lia. }
    rewrite Hw. replace ((8 - n) * 8) with (8 * Z.of_nat (Z.to_nat (8 - n))) by lia.
    rewrite le_combine_drop by (apply Forall_app; split; by apply Forall_slice).
    rewrite drop_app_length' by (rewrite length_slice; lia).
    replace n with (4 + (n - 4)) at 2 by lia.
    rewrite slice_split, Z.add_0_l, le_combine_app, zlen_slice by lia.
    pose proof (le_slice_range 0 4) as R0. pose proof (le_slice_range 4 (n - 4)) as R1.
    assert (256 ^ (n - 4) <= 256 ^ 3) by (apply Z.pow_le_mono_r; lia).
    change (256 ^ 4) with (2 ^ 32) in *. change (256 ^ 3) with (2 ^ 24) in *.
    rewrite u64_id by (rewrite Z.shiftl_mul_pow2 by lia; lia).
    rewrite lor_add_shiftl by lia. lia.
  Qed.

  (** One to three bytes. *)
Lemma tail_1 b0 b1 b2 :
    1 <= n < 4 → rd p 0 = Ok b0 → rd p (Z.shiftr n 1) = Ok b1 → rd p (n - 1) = Ok b2 →
    Z.lor (Z.lor b0 (u64 (Z.shiftl b1 (Z.shiftr n 1 * 8)))) (u64 (Z.shiftl b2 ((n - 1) * 8)))
    = le_combine (slice p 0 n).
  Proof.
    intros H1 H0 Hb1 Hb2.
    assert (Hby : ∀ i b, rd p i = Ok b → byte b).
    { intros i b [_ Hl]%rd_Ok_inv. exact (Forall_lookup_1 _ _ _ _ Hp Hl). }
    pose proof (Hby _ _ H0). pose proof (Hby _ _ Hb1). pose proof (Hby _ _ Hb2).
    assert (n = 1 ∨ n = 2 ∨ n = 3) as [->|[->| ->]] by lia;
      change (Z.shiftr 1 1) with 0 in *; change (Z.shiftr 2 1) with 1 in *;
      change (Z.shiftr 3 1) with 1 in *; change (1 - 1) with 0 in *;
      change (2 - 1) with 1 in *; change (3 - 1) with 2 in *;
      change (0 * 8) with 0; change (1 * 8) with 8; change (2 * 8) with 16.
    - assert (b1 = b0) as -> by congruence. assert (b2 = b0) as -> by congruence.
      rewrite (slice_cons_rd p 0 1 b0), slice_0 by (lia || done).
      rewrite !Z.shiftl_0_r, !u64_id, !Z.lor_diag by zl.
      change (le_combine [b0]) with (pk b0 0). unfold pk. lia.
    - assert (b2 = b1) as -> by congruence.
      rewrite (slice_cons_rd p 0 2 b0), (slice_cons_rd p (0 + 1) _ b1) by (lia || done).
      replace (2 - 1 - 1) with 0 by lia. rewrite slice_0, <- Z.lor_assoc, Z.lor_diag.
      rewrite u64_id by (rewrite Z.shiftl_mul_pow2 by lia; zl).
      rewrite lor_add_shiftl by zl. change (le_combine [b0; b1]) with (pk b0 (pk b1 0)). unfold pk. lia.
    - rewrite (slice_cons_rd p 0 3 b0), (slice_cons_rd p (0 + 1) _ b1), (slice_cons_rd p _ _ b2) by (lia || done).
      replace (3 - 1 - 1 - 1) with 0 by lia. rewrite slice_0.
      rewrite !u64_id by (rewrite Z.shiftl_mul_pow2 by lia; zl).
      rewrite (lor_add_shiftl b0), (lor_add_shiftl _ b2) by (change (2^16) with 65536; zl).
      change (le_combine [b0; b1; b2]) with (pk b0 (pk b1 (pk b2 0))). unfold pk. lia.
  Qed.

Lemma hash_tail_spec :
    elpis_hash_tail p n
    = Ok (le_combine (map lower_byte (take 8 (tail_block p n))),
          le_combine (map lower_byte (drop 8 (tail_block p n)))).
  Proof.
    pose proof land15_range as Hr. unfold elpis_hash_tail.
    destruct (Z.eqb_spec (Z.land n 15) 0) as [H0|H0].
    { unfold tail_block. rewrite H0. done. }
    destruct (Z.leb_spec 16 n) as [H16|H16].
    - rewrite !load64_value by (done || lia). cbn -[slice le_combine Z.leb Z.sub Z.land].
      pose proof (tail_long _ _ _ _ H16 eq_refl H0 eq_refl eq_refl eq_refl) as Ht.
      destruct (64 <=? _); cbn -[slice le_combine Z.sub Z.land];
        injection Ht as Ha Hb; f_equal; by apply lower_pair.
    - rewrite land15_small in H0 |- * by lia.
      destruct (Z.leb_spec 8 n) as [H8|H8].
      + destruct tail_8 as [Ha Hb]; [lia|]. rewrite !load64_value by (done || lia).
        cbn -[slice le_combine Z.sub Z.mul].
        destruct (Z.eqb_spec n 8) as [E8|]; cbn -[slice le_combine Z.sub Z.mul];
          f_equal; apply lower_pair; try done.
        rewrite Hb. symmetry. apply shiftr_small; [|lia].
        pose proof (le_slice_range (n - 8) 8). change (2 ^ 64) with (256 ^ 8). lia.
      + assert (Hw : le_combine (take 8 (tail_block p n)) = le_combine (slice p 0 n) ∧
                     le_combine (drop 8 (tail_block p n)) = 0).
        { destruct tail_words as [-> ->]. rewrite land15_small, Z.sub_diag by lia.
          pose proof (le_slice_range 0 n).
          assert (256 ^ n <= 256 ^ 7) by (apply Z.pow_le_mono_r; lia).
          assert (256 ^ 7 < 2 ^ 64) by done. rewrite u64_id, shiftr_small by lia. done. }
        destruct Hw as [Ha Hb]. destruct (Z.leb_spec 4 n) as [H4|H4].
        * rewrite !load32_value by (done || lia). cbn -[slice le_combine Z.sub Z.mul].
          f_equal. apply lower_pair; [|done]. rewrite Ha. apply tail_4. lia.
        * assert (0 <= Z.shiftr n 1 < n).
          { rewrite Z.shiftr_div_pow2 by lia. change (2 ^ 1) with 2. Z.div_mod_to_equations; lia. }
          destruct (rd_in_range p 0) as (b0 & E0 & _); [lia|].
          destruct (rd_in_range p (Z.shiftr n 1)) as (b1 & E1 & _); [lia|].
          destruct (rd_in_range p (n - 1)) as (b2 & E2 & _); [lia|].
          rewrite E0. cbn -[slice le_combine Z.sub Z.mul]. rewrite E1.
          cbn -[slice le_combine Z.sub Z.mul]. rewrite E2. cbn -[slice le_combine Z.sub Z.mul].
          f_equal. apply lower_pair; [|done]. rewrite Ha. by apply tail_1; [lia|..].
  Qed.
End tail.

(** ** The folded hash *)

Lemma slice_slice {A} (l : list A) n o m :
  0 <= o → 0 <= m → o + m <= n → slice (slice l 0 n) o m = slice l o m.
Proof.
  intros. unfold slice. rewrite drop_0, skipn_firstn_comm, take_take. f_equal. lia.
Qed.

Lemma fold_eq_slice a b n o m :
  fold_eq (slice a 0 n) (slice b 0 n) → 0 <= o → 0 <= m → o + m <= n →
  fold_eq (slice a o m) (slice b o m).
Proof.
  unfold fold_eq. intros H ???.
  rewrite <- (slice_slice a n o m), <- (slice_slice b n o m) by done.
  revert H. generalize (slice a 0 n) (slice b 0 n). intros l k H.
  unfold slice. rewrite <- !firstn_map, <- !skipn_map. by rewrite H.
Qed.

Lemma swar_fold_eq a b o :
  bytes a → bytes b → 0 <= o → o + 8 <= zlen a → o + 8 <= zlen b →
  fold_eq (slice a o 8) (slice b o 8) →
  elpis_swar_lower64 (le_combine (slice a o 8)) = elpis_swar_lower64 (le_combine (slice b o 8)).
Proof.
  intros ????? H. rewrite !swar_combine8 by first [by apply Forall_slice|by rewrite length_slice by lia].
  by rewrite H.
Qed.

Lemma hash_blocks_ci a b n fuel h i :
  bytes a → bytes b → n <= zlen a → n <= zlen b → 0 <= i <= n → n - i < Z.of_nat fuel →
  fold_eq (slice a 0 n) (slice b 0 n) →
  ∃ h', hash_blocks fuel a h i n = Ok h' ∧ hash_blocks fuel b h i n = Ok h'.
Proof.
  intros Ha Hb Hna Hnb. revert h i. induction fuel as [|fuel IH]; intros h i Hi Hf Heq.
  { lia. }
  cbn [hash_blocks]. destruct (Z.leb_spec (i + 16) n); [|eauto].
  rewrite !load64_value by (done || lia). cbn -[slice le_combine elpis_swar_lower64 hash_blocks].
  rewrite !(swar_fold_eq a b) by (try done; try lia; apply (fold_eq_slice _ _ n); (done || lia)).
  apply IH; (done || lia).
Qed.

Lemma hash_ci_congr a b n seed :
  bytes a → bytes b → 0 <= n → n <= zlen a → n <= zlen b →
  fold_eq (slice a 0 n) (slice b 0 n) →
  ∃ h, elpis_simd_hash_ci a n seed = Ok h ∧ elpis_simd_hash_ci b n seed = Ok h.
Proof.
  intros Ha Hb Hn Hna Hnb Heq. unfold elpis_simd_hash_ci, elpis_scalar_hash_ci.
  destruct (hash_blocks_ci a b n (S (Z.to_nat n)) (elpis_hash_seed seed) 0) as (h & -> & ->);
    try (done || lia).
  cbn -[slice elpis_hash_tail elpis_hash_finish].
  rewrite (hash_tail_spec a n), (hash_tail_spec b n) by done.
  cbn -[slice le_combine elpis_hash_finish tail_block].
  pose proof (land15_range n Hn).
  assert (Ht : map lower_byte (tail_block a n) = map lower_byte (tail_block b n)).
  { rewrite !map_lower_tail_block. f_equal.
    apply (fold_eq_slice a b n); (done || lia). }
  eexists. split; [done|]. do 2 f_equal;
    unfold fold_eq in *; rewrite <- ?firstn_map, <- ?skipn_map; by rewrite Ht.
Qed.

(** The schoolbook sum of the four 32x32 partial products. *)
Lemma mul_fold_partials p0 p1 p2 p3 :
  0 <= p0 < 2 ^ 64 → 0 <= p1 < 2 ^ 64 → 0 <= p2 < 2 ^ 64 → 0 <= p3 →
  p0 + 2 ^ 32 * (p1 + p2) + 2 ^ 64 * p3 < 2 ^ 128 →
  let mid := u64 (u64 (p0 / 2 ^ 32 + p1 mod 2 ^ 32) + p2 mod 2 ^ 32) in
  Z.lxor (Z.lor (p0 mod 2 ^ 32) (u64 (Z.shiftl mid 32)))
         (u64 (u64 (u64 (p3 + p1 / 2 ^ 32) + p2 / 2 ^ 32) + mid / 2 ^ 32))
  = Z.lxor (u64 (p0 + 2 ^ 32 * (p1 + p2) + 2 ^ 64 * p3))
           (u64 ((p0 + 2 ^ 32 * (p1 + p2) + 2 ^ 64 * p3) / 2 ^ 64)).
Proof.
  intros R0 R1 R2 R3 HR mid.
  change (2 ^ 128) with (18446744073709551616 * 18446744073709551616) in *.
  unfold u64 in *. change (2 ^ 64) with 18446744073709551616 in *.
  change (2 ^ 32) with 4294967296 in *.
  assert (Hmid : mid = p0 / 4294967296 + p1 mod 4294967296 + p2 mod 4294967296).
  { subst mid. rewrite (Z.mod_small (p0 / _ + p1 mod _)) by (Z.div_mod_to_equations; lia).
    apply Z.mod_small. Z.div_mod_to_equations; lia. }
  clearbody mid. f_equal.
  - rewrite Z.shiftl_mul_pow2 by lia. change (2 ^ 32) with 4294967296.
    replace (mid * 4294967296 mod 18446744073709551616) with (Z.shiftl (mid mod 4294967296) 32)
      by (rewrite Z.shiftl_mul_pow2 by lia; change (2 ^ 32) with 4294967296;
          subst mid; Z.div_mod_to_equations; lia).
    rewrite lor_add_shiftl by (change (2 ^ 32) with 4294967296; Z.div_mod_to_equations; lia).
    change (2 ^ 32) with 4294967296. subst mid. Z.div_mod_to_equations. lia.
  - subst mid. Z.div_mod_to_equations. lia.
Qed.

(** ** Properties *)

(** The eight-lane SWAR kernel folds every byte of a 64-bit word exactly as
    the one-byte C expression does: no carry crosses a lane, and bytes of 0x80
    and above are left alone. *)
Theorem swar_lower64_lanes (x : Z) :
  0 <= x < 2 ^ 64 →
  put64le_bytes (elpis_swar_lower64 x) = map lower_byte (put64le_bytes x).
Proof.
  intros Hx. assert (Hb : bytes (put64le_bytes x)) by (repeat constructor; apply u8_byte).
  assert (Hc : le_combine (put64le_bytes x) = x).
  { unfold put64le_bytes, put32le_bytes. cbn [app].
    change (le_combine ?l) with (foldr pk 0 l). cbn [foldr].
    unfold pk, u8, u32. rewrite !Z.shiftr_div_pow2 by lia.
    change (2 ^ 8) with 256. change (2 ^ 16) with 65536. change (2 ^ 24) with 16777216.
    change (2 ^ 32) with 4294967296. Z.div_mod_to_equations. lia. }
  rewrite <- Hc at 1. rewrite swar_combine8 by done.
  apply put64le_lanes; [done|by apply bytes_lower].
Qed.

Lemma swar_lower64_lanes_witness :
  0 <= 0x5a4140805b616263 < 2 ^ 64 ∧
  put64le_bytes (elpis_swar_lower64 0x5a4140805b616263)
  = map lower_byte (put64le_bytes 0x5a4140805b616263).
Proof. split; [lia|]. apply (swar_lower64_lanes 0x5a4140805b616263). lia. Defined.

(** The word-at-a-time comparison answers exactly whether the first [n]
    octets of both buffers are equal after ASCII case folding, and reads
    nothing outside them. *)
Theorem elpis_eq_ci_exact (a b : list Z) (n : Z) :
  bytes a → bytes b → 0 <= n → n <= zlen a → n <= zlen b →
  elpis_eq_ci a b n
  = Ok (bool_decide (map lower_byte (slice a 0 n) = map lower_byte (slice b 0 n))).
Proof. intros. rewrite eq_ci_spec by done. done. Qed.

Lemma elpis_eq_ci_exact_witness :
  elpis_eq_ci [3;119;87;119;0] [3;87;119;87;0] 5
  = Ok (bool_decide (map lower_byte (slice [3;119;87;119;0] 0 5)
                     = map lower_byte (slice [3;87;119;87;0] 0 5))).
Proof.
  apply (elpis_eq_ci_exact [3;119;87;119;0] [3;87;119;87;0] 5);
    by_compute.
Defined.

(** The little-endian fast path of the hash tail (overlapping word loads,
    shifted into place) produces the same two words as the byte-order
    independent loop, for every length, and reads only the [n] octets. *)
Theorem hash_tail_branches_agree (p : list Z) (n : Z) :
  bytes p → 0 <= n → n <= zlen p → elpis_hash_tail p n = elpis_hash_tail_bytes p n.
Proof. intros. by rewrite hash_tail_spec, hash_tail_bytes_spec. Qed.

Lemma hash_tail_branches_agree_witness :
  elpis_hash_tail [65;66;67;68;69] 5 = elpis_hash_tail_bytes [65;66;67;68;69] 5.
Proof.
  apply (hash_tail_branches_agree [65;66;67;68;69] 5);
    by_compute.
Defined.

(** The portable C99 64x64 -> 128 multiply-and-fold equals the one that
    uses a 128-bit product, on all 64-bit operands. *)
Theorem mul_fold_portable (a b : Z) :
  0 <= a < 2 ^ 64 → 0 <= b < 2 ^ 64 → elpis_mul_fold_c99 a b = elpis_mul_fold a b.
Proof.
  intros Ha Hb. unfold elpis_mul_fold_c99, elpis_mul_fold.
  change 0xFFFFFFFF with (Z.ones 32). rewrite !Z.land_ones by lia.
  rewrite !Z.shiftr_div_pow2 by lia.
  pose proof (Z.div_mod a (2 ^ 32)). pose proof (Z.mod_pos_bound a (2 ^ 32)).
  pose proof (Z.div_mod b (2 ^ 32)). pose proof (Z.mod_pos_bound b (2 ^ 32)).
  assert (0 <= a / 2 ^ 32 < 2 ^ 32) by (split; [apply Z.div_pos|apply Z.div_lt_upper_bound]; lia).
  assert (0 <= b / 2 ^ 32 < 2 ^ 32) by (split; [apply Z.div_pos|apply Z.div_lt_upper_bound]; lia).
  set (alo := a mod 2 ^ 32) in *. set (ahi := a / 2 ^ 32) in *.
  set (blo := b mod 2 ^ 32) in *. set (bhi := b / 2 ^ 32) in *.
  assert (Hab : a * b = alo * blo + 2 ^ 32 * (alo * bhi + ahi * blo) + 2 ^ 64 * (ahi * bhi)) by nia.
  assert (0 <= a * b < 2 ^ 128) by (change (2 ^ 128) with (2 ^ 64 * 2 ^ 64); nia).
  assert (0 <= alo * blo < 2 ^ 64) by nia. assert (0 <= alo * bhi < 2 ^ 64) by nia.
  assert (0 <= ahi * blo < 2 ^ 64) by nia. assert (0 <= ahi * bhi < 2 ^ 64) by nia.
  rewrite Hab in *. clear Hab.
  rewrite !(u64_id (_ * _)) by lia.
  apply mul_fold_partials; lia.
Qed.

Lemma mul_fold_portable_witness :
  elpis_mul_fold_c99 0xFFFFFFFFFFFFFFFF HK1 = elpis_mul_fold 0xFFFFFFFFFFFFFFFF HK1.
Proof. apply (mul_fold_portable 0xFFFFFFFFFFFFFFFF HK1); unfold HK1; lia. Defined.

(** Two names that differ only in ASCII case hash alike under every seed,
    and the hash is defined (no read outside the [n] octets). *)
Theorem hash_ci_case_insensitive (a b : list Z) (n seed : Z) :
  bytes a → bytes b → 0 <= n → n <= zlen a → n <= zlen b →
  map lower_byte (slice a 0 n) = map lower_byte (slice b 0 n) →
  ∃ h, elpis_scalar_hash_ci a n seed = Ok h ∧ elpis_scalar_hash_ci b n seed = Ok h.
Proof. intros. by apply hash_ci_congr. Qed.

Lemma hash_ci_case_insensitive_witness :
  ∃ h, elpis_scalar_hash_ci [3;87;119;87;0] 5 7 = Ok h
     ∧ elpis_scalar_hash_ci [3;119;119;119;0] 5 7 = Ok h.
Proof.
  apply (hash_ci_case_insensitive [3;87;119;87;0] [3;119;119;119;0] 5 7);
    by_compute.
Defined.
