(* ===== verification/Name.v ===== *)
(** DNS owner names: include/elpis/name.h and src/dns/name.c.

    A name is the record the code keeps, [elpis_name_t], restricted to the
    octets in use: [n_d] holds the [n_len] octets of the wire form.  The 16
    zero octets the code keeps after them ([ELPIS_NAME_PAD]) appear where they
    matter, in [elpis_name_lower].  The abstract view of a name is its list of
    labels, leftmost first and without the root: [name_of]. *)
From stdpp Require Import base list numbers.
From Stdlib Require Import ZArith Lia.
From S2P Require Import Prelude Bytes Simd.

(** ** Protocol sizes (include/elpis/dns.h) *)
Definition ELPIS_MAX_NAME : Z := 255.
Definition ELPIS_MAX_LABEL : Z := 63.
Definition ELPIS_MAX_LABELS : Z := 128.
Definition ELPIS_NAME_PAD : Z := 16.

Record elpis_name_t := mkName { n_len : Z; n_labels : Z; n_d : list Z }.

#[export] Instance elpis_name_t_eq_dec : EqDecision elpis_name_t.
Proof. solve_decision. Defined.

Definition elpis_name_root : elpis_name_t := mkName 1 0 [0].
Definition elpis_name_init_root : elpis_name_t := elpis_name_root.
Definition elpis_name_is_root (n : elpis_name_t) : bool := n_len n =? 1.

(** A failure return of a function without a [drop] argument. *)
Abbreviation fail rc := (Err rc ELPIS_DROP_NONE).

(** ** Wire parsing *)

(** One turn of [for (;;)] per fuel unit.  [out] is [n->d[0..out)], [first_end]
    is 0 until the first pointer. *)
Fixpoint name_parse_loop (fuel : nat) (msg : list Z) (msglen off limit : Z)
    (out : list Z) (labels jumps first_end : Z) : res (elpis_name_t * Z) :=
  match fuel with
  | O => Stuck OutOfFuel
  | S f =>
    _ ← guard_err (msglen <=? off) ELPIS_EFORMAT ELPIS_DROP_NAME;
    c ← rd msg off;
    if Z.land c 0xC0 =? 0xC0 then
      _ ← guard_err (msglen <=? off + 1) ELPIS_EFORMAT ELPIS_DROP_NAME;
      c1 ← rd msg (off + 1);
      let target := Z.lor (Z.shiftl (Z.land c 0x3F) 8) c1 in
      let first_end := if first_end =? 0 then off + 2 else first_end in
      _ ← guard_err (limit <=? target) ELPIS_EFORMAT ELPIS_DROP_COMPRESS;
      let jumps := jumps + 1 in
      _ ← guard_err (ELPIS_MAX_LABELS <? jumps) ELPIS_EFORMAT ELPIS_DROP_COMPRESS;
      name_parse_loop f msg msglen target target out labels jumps first_end
    else
      _ ← guard_err (negb (Z.land c 0xC0 =? 0)) ELPIS_EFORMAT ELPIS_DROP_NAME;
      if c =? 0 then
        _ ← guard_err (ELPIS_MAX_NAME <? zlen out + 1) ELPIS_EFORMAT ELPIS_DROP_NAME;
        let first_end := if first_end =? 0 then off + 1 else first_end in
        Ok (mkName (u8 (zlen out + 1)) (u8 labels) (out ++ [0]), first_end)
      else
        _ ← guard_err (ELPIS_MAX_LABEL <? c) ELPIS_EFORMAT ELPIS_DROP_NAME;
        _ ← guard_err (msglen <? off + 1 + c) ELPIS_EFORMAT ELPIS_DROP_NAME;
        _ ← guard_err (ELPIS_MAX_NAME <? zlen out + 1 + c + 1) ELPIS_EFORMAT ELPIS_DROP_NAME;
        let labels := labels + 1 in
        _ ← guard_err (ELPIS_MAX_LABELS <? labels) ELPIS_EFORMAT ELPIS_DROP_NAME;
        lab ← rds msg (off + 1) c;
        name_parse_loop f msg msglen (off + 1 + c) limit (out ++ c :: lab) labels jumps first_end
  end.

(** At most 127 labels and 129 pointers are read before the loop leaves. *)
Definition name_fuel : nat := 400.

Definition elpis_name_parse (msg : list Z) (msglen off : Z) : res (elpis_name_t * Z) :=
  name_parse_loop name_fuel msg msglen off off [] 0 0 0.

Fixpoint name_parse_nocomp_loop (fuel : nat) (p : list Z) (len off : Z)
    (out : list Z) (labels : Z) : res (elpis_name_t * Z) :=
  match fuel with
  | O => Stuck OutOfFuel
  | S f =>
    _ ← guard_err (len <=? off) ELPIS_EFORMAT ELPIS_DROP_NONE;
    c ← rd p off;
    _ ← guard_err (negb (Z.land c 0xC0 =? 0)) ELPIS_EFORMAT ELPIS_DROP_NONE;
    if c =? 0 then
      _ ← guard_err (ELPIS_MAX_NAME <? zlen out + 1) ELPIS_EFORMAT ELPIS_DROP_NONE;
      Ok (mkName (u8 (zlen out + 1)) (u8 labels) (out ++ [0]), off + 1)
    else
      _ ← guard_err ((ELPIS_MAX_LABEL <? c) || (len <? off + 1 + c)) ELPIS_EFORMAT ELPIS_DROP_NONE;
      _ ← guard_err (ELPIS_MAX_NAME <? zlen out + 1 + c + 1) ELPIS_EFORMAT ELPIS_DROP_NONE;
      let labels := labels + 1 in
      _ ← guard_err (ELPIS_MAX_LABELS <? labels) ELPIS_EFORMAT ELPIS_DROP_NONE;
      lab ← rds p (off + 1) c;
      name_parse_nocomp_loop f p len (off + 1 + c) (out ++ c :: lab) labels
  end.

Definition elpis_name_parse_nocomp (p : list Z) (len : Z) : res (elpis_name_t * Z) :=
  name_parse_nocomp_loop name_fuel p len 0 [] 0.

(** ** Folding, hashing, comparison *)

(** In place: every word is loaded before it is stored, so source and target
    may be the same buffer.  The pad makes the rounded-up length fit. *)
Definition elpis_name_lower (n : elpis_name_t) : res elpis_name_t :=
  let buf := n_d n ++ replicate (Z.to_nat ELPIS_NAME_PAD) 0 in
  d ← elpis_lower_pad16 buf buf (Z.land (n_len n + 15) (Z.lnot 15));
  Ok (mkName (n_len n) (n_labels n) (slice d 0 (n_len n))).

Definition elpis_name_hash (n : elpis_name_t) : res Z :=
  elpis_simd_hash_ci (n_d n) (n_len n) 0x9E3779B97F4A7C15.

Definition elpis_name_eq (a b : elpis_name_t) : res bool :=
  if negb (n_len a =? n_len b) then Ok false
  else elpis_eq_ci (n_d a) (n_d b) (n_len a).

Definition elpis_name_parent (n : elpis_name_t) : res elpis_name_t :=
  _ ← guard_err (n_len n <=? 1) ELPIS_ERR ELPIS_DROP_NONE;
  l ← rd (n_d n) 0;
  _ ← guard_err (n_len n + 1 <=? 1 + l) ELPIS_ERR ELPIS_DROP_NONE;
  d ← rds (n_d n) (1 + l) (n_len n - 1 - l);
  Ok (mkName (u8 (n_len n - 1 - l)) (u8 (n_labels n - 1)) d).

(** [while (drop_labels-- > 0)] *)
Fixpoint suffix_skip (drop_labels : nat) (n : elpis_name_t) (i : Z) : res Z :=
  match drop_labels with
  | O => Ok i
  | S k =>
    _ ← guard_err (n_len n <=? i) ELPIS_ERR ELPIS_DROP_NONE;
    c ← rd (n_d n) i;
    _ ← guard_err (c =? 0) ELPIS_ERR ELPIS_DROP_NONE;
    suffix_skip k n (i + (1 + c))
  end.

Definition elpis_name_suffix (n : elpis_name_t) (keep : Z) : res elpis_name_t :=
  if n_labels n <=? keep then Ok n
  else
    i ← suffix_skip (Z.to_nat (n_labels n - keep)) n 0;
    _ ← guard_err (n_len n <=? i) ELPIS_ERR ELPIS_DROP_NONE;
    d ← rds (n_d n) i (n_len n - i);
    Ok (mkName (u8 (n_len n - i)) (u8 keep) d).

(** A callee's failure return used as a condition. *)
Definition try {A} (m : res A) : res (option A) :=
  match m with
  | Ok a => Ok (Some a)
  | Err _ _ => Ok None
  | Stuck f => Stuck f
  end.

Definition elpis_name_covers (zone name : elpis_name_t) : res bool :=
  if n_labels name <? n_labels zone then Ok false
  else
    r ← try (elpis_name_suffix name (n_labels zone));
    match r with
    | None => Ok false
    | Some tail => elpis_name_eq tail zone
    end.

(** [while (i < off)]: the first label boundary at or past [off], or [None]
    when the root is met before it. *)
Fixpoint subdomain_walk (fuel : nat) (d : list Z) (off i : Z) : res (option Z) :=
  match fuel with
  | O => Stuck OutOfFuel
  | S f =>
    if i <? off then
      c ← rd d i;
      if c =? 0 then Ok None else subdomain_walk f d off (i + (1 + c))
    else Ok (Some i)
  end.

Definition elpis_name_is_subdomain (sub parent : elpis_name_t) : res bool :=
  if n_len sub <? n_len parent then Ok false
  else if n_len parent =? 1 then Ok true
  else if n_labels sub <? n_labels parent then Ok false
  else
    let off := n_len sub - n_len parent in
    r ← subdomain_walk 256 (n_d sub) off 0;
    match r with
    | None => Ok false
    | Some i =>
      if negb (i =? off) then Ok false
      else
        tail ← rds (n_d sub) off (n_len parent);
        elpis_eq_ci tail (n_d parent) (n_len parent)
    end.

(** [while (x.labels > k && elpis_name_parent(&x, &x) == 0)] *)
Fixpoint common_trim (fuel : nat) (x : elpis_name_t) (k : Z) : res elpis_name_t :=
  match fuel with
  | O => Stuck OutOfFuel
  | S f =>
    if k <? n_labels x then
      p ← try (elpis_name_parent x);
      match p with None => Ok x | Some x' => common_trim f x' k end
    else Ok x
  end.

Fixpoint common_climb (fuel : nat) (x y : elpis_name_t) : res Z :=
  match fuel with
  | O => Stuck OutOfFuel
  | S f =>
    if (1 <? n_len x) && (1 <? n_len y) then
      e ← elpis_name_eq x y;
      if (e : bool) then Ok (n_labels x)
      else
        px ← try (elpis_name_parent x);
        match px with
        | None => Ok 0
        | Some x' =>
          py ← try (elpis_name_parent y);
          match py with
          | None => Ok 0
          | Some y' => common_climb f x' y'
          end
        end
    else Ok 0
  end.

Definition elpis_name_common_labels (a b : elpis_name_t) : res Z :=
  x ← common_trim 256 a (n_labels b);
  y ← common_trim 256 b (n_labels x);
  common_climb 256 x y.

Definition elpis_name_prepend (label : list Z) (llen : Z) (parent : elpis_name_t)
    : res elpis_name_t :=
  _ ← guard_err ((llen =? 0) || (ELPIS_MAX_LABEL <? llen)) ELPIS_EFORMAT ELPIS_DROP_NONE;
  _ ← guard_err (ELPIS_MAX_NAME <? 1 + llen + n_len parent) ELPIS_EFORMAT ELPIS_DROP_NONE;
  _ ← guard_err (ELPIS_MAX_LABELS <? n_labels parent + 1) ELPIS_EFORMAT ELPIS_DROP_NONE;
  pd ← rds (n_d parent) 0 (n_len parent);
  lab ← rds label 0 llen;
  Ok (mkName (u8 (1 + llen + n_len parent)) (u8 (n_labels parent + 1)) (u8 llen :: lab ++ pd)).

Definition elpis_name_substitute (n owner target : elpis_name_t) : res elpis_name_t :=
  s ← elpis_name_is_subdomain n owner;
  _ ← guard_err (negb s) ELPIS_EFORMAT ELPIS_DROP_NONE;
  let prefix := n_len n - n_len owner in
  let prefix_labels := u32 (n_labels n - n_labels owner) in
  _ ← guard_err (ELPIS_MAX_NAME <? prefix + n_len target) ELPIS_EFORMAT ELPIS_DROP_NONE;
  _ ← guard_err (ELPIS_MAX_LABELS <? u32 (prefix_labels + n_labels target)) ELPIS_EFORMAT ELPIS_DROP_NONE;
  td ← rds (n_d target) 0 (n_len target);
  nd ← rds (n_d n) 0 prefix;
  Ok (mkName (u8 (prefix + n_len target)) (u8 (prefix_labels + n_labels target)) (nd ++ td)).

(** [n->len >= 3 && n->d[0] == 1 && n->d[1] == '*'] *)
Definition elpis_name_is_wildcard (n : elpis_name_t) : res bool :=
  if negb (3 <=? n_len n) then Ok false
  else
    c0 ← rd (n_d n) 0;
    if negb (c0 =? 1) then Ok false
    else c1 ← rd (n_d n) 1; Ok (c1 =? 42).

(** ** The abstract view: lists of labels *)

Definition enc_label (l : list Z) : list Z := zlen l :: l.
Definition enc_labels (ls : list (list Z)) : list Z := concat (map enc_label ls).
Definition wire (ls : list (list Z)) : list Z := enc_labels ls ++ [0].
Definition name_of (ls : list (list Z)) : elpis_name_t := mkName (zlen (wire ls)) (zlen ls) (wire ls).

Definition label_ok (l : list Z) : Prop := 1 <= zlen l <= 63 ∧ bytes l.
Definition labels_ok (ls : list (list Z)) : Prop := Forall label_ok ls ∧ zlen (wire ls) <= 255.

(** What every [elpis_name_t] the code builds satisfies. *)
Definition wf_name (n : elpis_name_t) : Prop := ∃ ls, labels_ok ls ∧ n = name_of ls.

(** Labels up to ASCII case. *)
Definition fold_labels (ls : list (list Z)) : list (list Z) := map (map lower_byte) ls.
Definition labels_eq (a b : list (list Z)) : Prop := fold_labels a = fold_labels b.

#[export] Instance label_ok_dec l : Decision (label_ok l).
Proof. unfold label_ok. apply _. Defined.
#[export] Instance labels_ok_dec ls : Decision (labels_ok ls).
Proof. unfold labels_ok. apply _. Defined.
#[export] Instance labels_eq_dec a b : Decision (labels_eq a b).
Proof. unfold labels_eq. apply _. Defined.
#[export] Instance labels_eq_equiv : Equivalence labels_eq.
Proof. unfold labels_eq. split; intros ?; intros; congruence. Qed.

(** RFC 1035 section 4.1.4 with the code's rules: [name_at msg len limit off
    ls e j] says that the name at [off] has labels [ls], ends (in place) at
    [e], and takes [j] pointers to read, each aiming below the start of the
    run it leaves. *)
Inductive name_at (msg : list Z) (msglen : Z) : Z → Z → list (list Z) → Z → Z → Prop :=
  | name_at_root limit off :
      off < msglen → rd msg off = Ok 0 →
      name_at msg msglen limit off [] (off + 1) 0
  | name_at_label limit off l ls e j :
      1 <= zlen l <= 63 → rd msg off = Ok (zlen l) → off + 1 + zlen l <= msglen →
      rds msg (off + 1) (zlen l) = Ok l →
      name_at msg msglen limit (off + 1 + zlen l) ls e j →
      name_at msg msglen limit off (l :: ls) e j
  | name_at_ptr limit off c c1 target ls e j :
      rd msg off = Ok c → Z.land c 0xC0 = 0xC0 → off + 1 < msglen → rd msg (off + 1) = Ok c1 →
      target = Z.lor (Z.shiftl (Z.land c 0x3F) 8) c1 → target < limit →
      name_at msg msglen target target ls e j →
      name_at msg msglen limit off ls (off + 2) (j + 1).

(** ** Encodings *)

Lemma enc_labels_nil : enc_labels [] = [].
Proof. done. Qed.
Lemma enc_labels_cons l ls : enc_labels (l :: ls) = enc_label l ++ enc_labels ls.
Proof. done. Qed.
Lemma enc_labels_app a b : enc_labels (a ++ b) = enc_labels a ++ enc_labels b.
Proof. unfold enc_labels. by rewrite map_app, concat_app. Qed.
Lemma wire_cons l ls : wire (l :: ls) = enc_label l ++ wire ls.
Proof. unfold wire. by rewrite enc_labels_cons, app_assoc. Qed.
Lemma wire_app a b : wire (a ++ b) = enc_labels a ++ wire b.
Proof. unfold wire. by rewrite enc_labels_app, app_assoc. Qed.
Lemma zlen_enc_label l : zlen (enc_label l) = 1 + zlen l.
Proof. apply zlen_cons. Qed.
Lemma enc_labels_single l : enc_labels [l] = enc_label l.
Proof. by rewrite enc_labels_cons, enc_labels_nil, app_nil_r. Qed.
Lemma zlen_wire ls : zlen (wire ls) = zlen (enc_labels ls) + 1.
Proof. unfold wire. by rewrite zlen_app. Qed.
Lemma zlen_wire_cons l ls : zlen (wire (l :: ls)) = 1 + zlen l + zlen (wire ls).
Proof. rewrite wire_cons, zlen_app, zlen_enc_label. lia. Qed.
Lemma zlen_wire_pos ls : 1 <= zlen (wire ls).
Proof. rewrite zlen_wire. pose proof (zlen_nonneg (enc_labels ls)). lia. Qed.
#[export] Hint Rewrite zlen_enc_label zlen_wire_cons : zlen.

(** Every label takes at least two octets: 255 octets hold at most 127. *)
Lemma labels_bound ls : Forall label_ok ls → 2 * zlen ls <= zlen (enc_labels ls).
Proof.
  induction 1 as [|l ls [? ?] _ IH]; [done|].
  rewrite enc_labels_cons, zlen_app, zlen_enc_label, zlen_cons. lia.
Qed.

Lemma label_ok_intro l : 1 <= zlen l <= 63 → bytes l → label_ok l.
Proof. done. Qed.

Lemma labels_ok_cons l ls : labels_ok (l :: ls) → label_ok l ∧ labels_ok ls.
Proof.
  intros [Hf Hl]. apply Forall_cons_1 in Hf as [Hl1 Hf]. split; [done|]. split; [done|].
  rewrite zlen_wire_cons in Hl. destruct Hl1. lia.
Qed.

Lemma labels_ok_app a b : labels_ok (a ++ b) → labels_ok b.
Proof. induction a as [|l a IH]; [done|]. intros [_ ?]%labels_ok_cons. by apply IH. Qed.

Lemma bytes_enc_labels ls : Forall label_ok ls → bytes (enc_labels ls).
Proof.
  induction 1 as [|l ls [? ?] _ IH]; [constructor|]. rewrite enc_labels_cons.
  apply Forall_app. split; [|done]. constructor; [zl|done].
Qed.

Lemma bytes_wire ls : Forall label_ok ls → bytes (wire ls).
Proof.
  intros. apply Forall_app. split; [by apply bytes_enc_labels|]. repeat constructor; lia.
Qed.
#[export] Hint Resolve bytes_enc_labels bytes_wire : elpis.

Lemma zlen_labels_of_ok ls : labels_ok ls → 0 <= zlen ls <= 127.
Proof.
  intros [Hf Hl]. pose proof (labels_bound _ Hf). rewrite zlen_wire in Hl. zl.
Qed.

Lemma n_len_of ls : n_len (name_of ls) = zlen (wire ls).
Proof. done. Qed.
Lemma n_labels_of ls : n_labels (name_of ls) = zlen ls.
Proof. done. Qed.
Lemma n_d_of ls : n_d (name_of ls) = wire ls.
Proof. done. Qed.

(** Projects the fields of an encoded name. *)
Ltac name_fields := rewrite ?n_len_of, ?n_labels_of, ?n_d_of.

(** ** [elpis_name_parse] implements [name_at] *)

Lemma land_C0_0 c : byte c → (Z.land c 0xC0 =? 0) = (c <=? 63).
Proof.
  intros Hc. apply eqb_prop.
  apply (byte_forallb (fun c => eqb (Z.land c 0xC0 =? 0) (c <=? 63))); [|done]. by vm_compute.
Qed.

Lemma land_C0_C0 c : byte c → Z.land c 0xC0 = 0xC0 → 192 <= c.
Proof.
  intros Hc Hl. apply Z.leb_le. apply Z.eqb_eq in Hl.
  pose proof (byte_forallb (fun c => implb (Z.land c 0xC0 =? 0xC0) (192 <=? c)) c) as H.
  cbv beta in H. rewrite Hl in H. apply H; [by vm_compute|done].
Qed.

Lemma name_at_jumps msg msglen limit off ls e j :
  name_at msg msglen limit off ls e j → 0 <= j.
Proof. induction 1; lia. Qed.

Section parse.
Context (msg : list Z) (msglen : Z) (Hmsg : bytes msg) (Hlen : msglen <= zlen msg).

Lemma rd_byte i b : rd msg i = Ok b → byte b.
  Proof. intros [_ H]%rd_Ok_inv. exact (Forall_lookup_1 _ _ _ _ Hmsg H). Qed.

Lemma name_at_labels limit off ls e j :
    name_at msg msglen limit off ls e j → Forall label_ok ls.
  Proof.
    induction 1 as [| limit off l ls e j Hl Hr He Hs _ IH|]; [constructor| |done].
    constructor; [|done]. split; [done|]. apply rds_Ok_inv in Hs as (_ & _ & _ & ->).
    by apply Forall_slice.
  Qed.

Lemma name_at_end limit off ls e j :
    0 <= off → name_at msg msglen limit off ls e j → off < e <= msglen.
  Proof.
    intros Ho H. induction H; [lia| |lia]. pose proof (zlen_nonneg l). lia.
  Qed.

  (** What the loop promises from any intermediate state. *)
Definition parse_post (limit off : Z) (ls0 : list (list Z)) (jumps fe : Z)
      (r : res (elpis_name_t * Z)) : Prop :=
    let fits ls j := zlen (wire (ls0 ++ ls)) <= 255 ∧ jumps + j <= 128 in
    match r with
    | Ok (n, e) => ∃ ls e0 j, name_at msg msglen limit off ls e0 j ∧ fits ls j ∧
        n = name_of (ls0 ++ ls) ∧ e = if fe =? 0 then e0 else fe
    | Err _ _ => ∀ ls e0 j, name_at msg msglen limit off ls e0 j → ¬ fits ls j
    | Stuck _ => False
    end.

Lemma name_parse_loop_spec fuel : ∀ off limit ls0 jumps fe,
    0 <= off → 0 <= fe → 0 <= jumps <= 128 → Forall label_ok ls0 →
    zlen (enc_labels ls0) <= 254 →
    (254 - zlen (enc_labels ls0)) + (128 - jumps) < Z.of_nat fuel →
    parse_post limit off ls0 jumps fe
      (name_parse_loop fuel msg msglen off limit (enc_labels ls0) (zlen ls0) jumps fe).
  Proof.
    induction fuel as [|fuel IH]; intros off limit ls0 jumps fe Ho Hfe Hj Hls0 Hz Hf; [lia|].
    cbn -[Z.land Z.lor Z.shiftl wire enc_labels rds].
    destruct (Z.leb_spec msglen off) as [Hoff|Hoff]; cbn -[Z.land wire enc_labels rds].
    { intros ls e0 j Hn _. pose proof (name_at_end _ _ _ _ _ Ho Hn). lia. }
    destruct (rd_in_range msg off) as (c & Hc & _); [lia|].
    pose proof (rd_byte _ _ Hc) as Hbc. rewrite Hc. cbn -[Z.land wire enc_labels rds].
    destruct (Z.eqb_spec (Z.land c 192) 192) as [Hp|Hp].
    - (* pointer *)
      pose proof (land_C0_C0 _ Hbc Hp).
      destruct (Z.leb_spec msglen (off + 1)) as [Ho1|Ho1]; cbn -[Z.land wire enc_labels rds].
      { intros ls e0 j Hn _. inversion Hn; subst; [assert (c = 0) by congruence; lia| |lia].
        assert (c = zlen l) by congruence. lia. }
      destruct (rd_in_range msg (off + 1)) as (c1 & Hc1 & _); [lia|].
      pose proof (rd_byte _ _ Hc1) as Hbc1. rewrite Hc1. cbn -[Z.land wire enc_labels rds].
      set (target := Z.lor _ _).
      assert (Hinv : ∀ ls e0 j, name_at msg msglen limit off ls e0 j →
        target < limit ∧ e0 = off + 2 ∧ ∃ e1, name_at msg msglen target target ls e1 (j - 1)).
      { intros ls e0 j Hn. inversion Hn; subst.
        - assert (c = 0) by congruence. lia.
        - assert (c = zlen l) by congruence. lia.
        - assert (c0 = c) as -> by congruence. assert (c2 = c1) as -> by congruence.
          split_and!; [done|done|]. exists e. by replace (j0 + 1 - 1) with j0 by lia. }
      destruct (Z.leb_spec limit target) as [Ht|Ht]; cbn -[Z.land wire enc_labels rds].
      { intros ls e0 j Hn _. apply Hinv in Hn. lia. }
      destruct (Z.ltb_spec ELPIS_MAX_LABELS (jumps + 1)) as [Hjm|Hjm];
        cbn -[Z.land wire enc_labels rds].
      { intros ls e0 j (_ & _ & e1 & Hn)%Hinv [_ ?]. apply name_at_jumps in Hn.
        unfold ELPIS_MAX_LABELS in *. lia. }
      assert (0 <= target).
      { apply Z.lor_nonneg. split; [|zl]. apply Z.shiftl_nonneg, Z.land_nonneg. zl. }
      set (fe' := if fe =? 0 then off + 2 else fe).
      assert (Hfe' : fe' ≠ 0 ∧ 0 <= fe') by (unfold fe'; destruct (Z.eqb_spec fe 0); lia).
      specialize (IH target target ls0 (jumps + 1) fe').
      unfold ELPIS_MAX_LABELS in *. specialize (IH ltac:(lia) ltac:(lia) ltac:(lia) Hls0 Hz ltac:(lia)).
      destruct (name_parse_loop _ _ _ _ _ _ _ _ _) as [[n e]| |]; cbn -[wire] in IH |- *.
      + destruct IH as (ls & e0 & j & Hn & [? ?] & -> & ->).
        exists ls, (off + 2), (j + 1). split_and!; [|done|lia|done|].
        * by eapply name_at_ptr.
        * rewrite (proj2 (Z.eqb_neq fe' 0)) by lia. done.
      + intros ls e0 j (_ & _ & e1 & Hn)%Hinv [? ?]. eapply IH; [exact Hn|]. split; [done|lia].
      + done.
    - rewrite land_C0_0 by done. destruct (Z.leb_spec c 63) as [H63|H63]; cbn -[Z.land wire enc_labels rds].
      2: { intros ls e0 j Hn _. inversion Hn; subst.
           - assert (c = 0) by congruence. lia.
           - assert (c = zlen l) by congruence. lia.
           - assert (c0 = c) by congruence. subst. congruence. }
      destruct (Z.eqb_spec c 0) as [->|Hc0].
      + (* root *)
        unfold ELPIS_MAX_NAME. zfalse (255 <? zlen (enc_labels ls0) + 1). cbn -[wire enc_labels].
        exists [], (off + 1), 0. rewrite app_nil_r. split_and!.
        * by constructor.
        * rewrite zlen_wire. lia.
        * lia.
        * pose proof (labels_bound _ Hls0). unfold name_of. rewrite zlen_wire, !u8_id by zl. done.
        * done.
      + (* label *)
        unfold ELPIS_MAX_LABEL. zfalse (63 <? c). cbn -[wire enc_labels rds].
        assert (Hinv : ∀ ls e0 j, name_at msg msglen limit off ls e0 j →
          off + 1 + c <= msglen ∧ ∃ lab ls', ls = lab :: ls' ∧ zlen lab = c ∧
            rds msg (off + 1) c = Ok lab ∧ name_at msg msglen limit (off + 1 + c) ls' e0 j).
        { intros ls e0 j Hn. inversion Hn; subst.
          - congruence.
          - assert (c = zlen l) as -> by congruence. split; [done|]. by exists l, ls1.
          - assert (c0 = c) as -> by congruence. done. }
        destruct (Z.ltb_spec msglen (off + 1 + c)) as [Hm|Hm]; cbn -[wire enc_labels rds].
        { intros ls e0 j [? _]%Hinv _. lia. }
        rewrite (rds_in_range msg (off + 1) c) in Hinv |- * by zl.
        set (lab := slice msg (off + 1) c) in *.
        assert (Hlab : zlen lab = c) by (apply zlen_slice; zl).
        assert (Hlok : label_ok lab) by (split; [zl|by apply Forall_slice]).
        unfold ELPIS_MAX_NAME.
        destruct (Z.ltb_spec 255 (zlen (enc_labels ls0) + 1 + c + 1)) as [Hb|Hb];
          cbn -[wire enc_labels].
        { intros ls e0 j (_ & lab' & ls' & -> & Hl' & _ & _)%Hinv [Hw _].
          rewrite wire_app, zlen_app, zlen_wire_cons in Hw. pose proof (zlen_wire_pos ls'). lia. }
        pose proof (labels_bound _ Hls0).
        unfold ELPIS_MAX_LABELS. zfalse (128 <? zlen ls0 + 1). cbn -[wire enc_labels].
        specialize (IH (off + 1 + c) limit (ls0 ++ [lab]) jumps fe).
        assert (Henc : enc_labels (ls0 ++ [lab]) = enc_labels ls0 ++ c :: lab).
        { rewrite enc_labels_app. unfold enc_labels at 2. cbn. by rewrite app_nil_r, <- Hlab. }
        rewrite Henc, !zlen_app, zlen_cons in IH. rewrite zlen_cons in IH.
        change (zlen [lab]) with 1 in IH.
        specialize (IH ltac:(zl) Hfe Hj).
        specialize (IH ltac:(by apply Forall_app; split; [|repeat constructor; apply Hlok])).
        rewrite Hlab in IH. specialize (IH ltac:(zl) ltac:(zl)).
        destruct (name_parse_loop _ _ _ _ _ _ _ _ _) as [[n e]| |]; cbn -[wire] in IH |- *.
        * destruct IH as (ls & e0 & j & Hn & [Hw ?] & -> & ->).
          exists (lab :: ls), e0, j. rewrite <- app_assoc in *. cbn [app] in *. split_and!; try done.
          eapply name_at_label; rewrite ?Hlab; try done; [zl|apply rds_in_range; zl].
        * intros ls e0 j (_ & lab' & ls' & -> & Hl' & Heq & Hn)%Hinv [? ?].
          injection Heq as <-. eapply IH; [exact Hn|]. by rewrite <- app_assoc.
        * done.
  Qed.

  (** The whole parser, on success and on failure. *)
Lemma name_parse_spec off :
    0 <= off →
    match elpis_name_parse msg msglen off with
    | Ok (n, e) => ∃ ls j, name_at msg msglen off off ls e j ∧ labels_ok ls ∧ j <= 128 ∧ n = name_of ls
    | Err _ _ => ∀ ls e j, name_at msg msglen off off ls e j → zlen (wire ls) <= 255 → j <= 128 → False
    | Stuck _ => False
    end.
  Proof.
    intros Ho. pose proof (name_parse_loop_spec name_fuel off off [] 0 0 Ho) as H.
    specialize (H ltac:(lia) ltac:(lia) ltac:(constructor) ltac:(by vm_compute) ltac:(by vm_compute)).
    unfold elpis_name_parse. change (enc_labels []) with (@nil Z) in H. change (zlen (@nil (list Z))) with 0 in H.
    destruct (name_parse_loop _ _ _ _ _ _ _ _ _) as [[n e]| |]; cbn -[wire] in H.
    - destruct H as (ls & e0 & j & Hn & [? ?] & -> & ->). exists ls, j. split_and!; try done.
      split; [by eapply name_at_labels|done].
    - intros ls e j Hn ??. by apply (H ls e j Hn).
    - done.
  Qed.
End parse.

Lemma name_at_det msg msglen limit off ls e j ls' e' j' :
  bytes msg → name_at msg msglen limit off ls e j → name_at msg msglen limit off ls' e' j' →
  ls' = ls ∧ e' = e ∧ j' = j.
Proof.
  intros Hb H. revert ls' e' j'.
  induction H as [limit off ? H0|limit off l ls e j Hl Hr He Hs _ IH
    |limit off c c1 target ls e j Hr Hp Ho Hr1 -> Ht _ IH]; intros ls' e' j' H';
    inversion H' as [? ? ? H0'|? ? l' ls1 ? ? Hl' Hr' He' Hs' Hn'
    |? ? c' c1' ? ls1 ? ? Hr' Hp' Ho' Hr1' ? Ht' Hn']; subst.
  - done.
  - assert (zlen l' = 0) by congruence. lia.
  - assert (c' = 0) as -> by congruence. done.
  - assert (zlen l = 0) by congruence. lia.
  - assert (Hz : zlen l' = zlen l) by congruence. rewrite Hz in *.
    assert (l' = l) as -> by congruence. apply IH in Hn' as (-> & -> & ->). done.
  - assert (c' = zlen l) as -> by congruence.
    pose proof (land_C0_C0 _ (rd_byte msg Hb _ _ Hr) Hp'). lia.
  - assert (c = 0) as -> by congruence. done.
  - assert (c = zlen l') as -> by congruence.
    pose proof (land_C0_C0 _ (rd_byte msg Hb _ _ Hr) Hp). lia.
  - assert (c' = c) as -> by congruence. assert (c1' = c1) as -> by congruence.
    apply IH in Hn' as (-> & -> & ->). done.
Qed.

Lemma name_parse_complete msg msglen off ls e j :
  bytes msg → msglen <= zlen msg → 0 <= off →
  name_at msg msglen off off ls e j → zlen (wire ls) <= 255 → j <= 128 →
  elpis_name_parse msg msglen off = Ok (name_of ls, e).
Proof.
  intros Hb Hl Ho Hn Hw Hj. pose proof (name_parse_spec msg msglen Hb Hl off Ho) as H.
  destruct (elpis_name_parse msg msglen off) as [[n e']| |]; [|exfalso; eauto|done].
  destruct H as (ls' & j' & Hn' & _ & _ & ->).
  by destruct (name_at_det _ _ _ _ _ _ _ _ _ _ Hb Hn Hn') as (-> & -> & _).
Qed.

Lemma name_parse_safe msg msglen off :
  bytes msg → msglen <= zlen msg → 0 <= off →
  safe (fun '(n, e) => wf_name n ∧ off < e <= msglen) (elpis_name_parse msg msglen off).
Proof.
  intros Hb Hl Ho. pose proof (name_parse_spec msg msglen Hb Hl off Ho) as H.
  destruct (elpis_name_parse msg msglen off) as [[n e]| |]; cbn in *; [|done|done].
  destruct H as (ls & j & Hn & Hok & _ & ->). split; [by exists ls|].
  by eapply name_at_end.
Qed.

Lemma guard_Err_inv {A} c rc0 d0 (k : unit → res A) rc d :
  (guard_err c rc0 d0 ≫= k) = Err rc d → rc = rc0 ∨ k tt = Err rc d.
Proof. destruct c; cbn; [intros [= -> _]; by left|by right]. Qed.

Lemma rd_Err_inv {A B} (l : list A) i (k : A → res B) rc d :
  (rd l i ≫= k) = Err rc d → ∃ x, k x = Err rc d.
Proof. unfold rd. repeat case_match; cbn; intros; try done. eauto. Qed.

Lemma rds_Err_inv {A B} (l : list A) o n (k : list A → res B) rc d :
  (rds l o n ≫= k) = Err rc d → ∃ x, k x = Err rc d.
Proof. unfold rds. case_match; cbn; intros; try done. eauto. Qed.

Lemma name_parse_loop_err fuel msg msglen off limit out labels jumps fe rc d :
  name_parse_loop fuel msg msglen off limit out labels jumps fe = Err rc d → rc = ELPIS_EFORMAT.
Proof.
  revert off limit out labels jumps fe.
  induction fuel as [|fuel IH]; intros off limit out labels jumps fe; [done|].
  cbn [name_parse_loop].
  intros [?|[c H]%rd_Err_inv]%guard_Err_inv; [done|]. destruct (Z.land c 192 =? 192).
  - apply guard_Err_inv in H as [?|[c1 H]%rd_Err_inv]; [done|].
    do 2 (apply guard_Err_inv in H as [?|H]; [done|]). by eapply IH.
  - apply guard_Err_inv in H as [?|H]; [done|]. destruct (c =? 0).
    + apply guard_Err_inv in H as [?|H]; done.
    + do 4 (apply guard_Err_inv in H as [?|H]; [done|]).
      apply rds_Err_inv in H as [lab H]. by eapply IH.
Qed.

Lemma name_parse_err msg msglen off rc d :
  elpis_name_parse msg msglen off = Err rc d → rc = ELPIS_EFORMAT.
Proof. apply name_parse_loop_err. Qed.

(** ** Names in a longer message *)

Lemma rd_app_some {A} (l k : list A) i x : rd l i = Ok x → rd (l ++ k) i = Ok x.
Proof. intros H. apply rd_Ok_inv in H as ?. by rewrite rd_app_l by lia. Qed.

Lemma name_at_app l k len limit off ls e j :
  len <= zlen l → name_at l len limit off ls e j →
  name_at (l ++ k) (zlen (l ++ k)) limit off ls e j.
Proof.
  intros Hl. pose proof (zlen_nonneg k). pose proof (zlen_app l k) as Hz.
  induction 1 as [| |limit off c c1 target ls e j Hr Hp Ho Hr1 Ht0 Ht _ IH].
  - apply name_at_root; [lia|by apply rd_app_some].
  - apply name_at_label; [done|by apply rd_app_some|lia|by apply rds_app_mono|done].
  - eapply name_at_ptr; [by apply rd_app_some|done|lia|by apply rd_app_some|done|done|done].
Qed.

(** Labels written out literally before something readable. *)
Lemma name_at_literal pre lits post len limit ls e j :
  Forall label_ok lits → len <= zlen (pre ++ enc_labels lits ++ post) →
  zlen pre + zlen (enc_labels lits) <= len →
  name_at (pre ++ enc_labels lits ++ post) len limit (zlen pre + zlen (enc_labels lits)) ls e j →
  name_at (pre ++ enc_labels lits ++ post) len limit (zlen pre) (lits ++ ls) e j.
Proof.
  intros Hok. revert pre. induction Hok as [|l lits [Hl _] Hok IH]; intros pre Hz Hp Hn.
  - change (zlen (enc_labels [])) with 0 in Hn. by rewrite Z.add_0_r in Hn.
  - rewrite enc_labels_cons in *. rewrite zlen_app, zlen_enc_label in Hp, Hn.
    pose proof (zlen_nonneg (enc_labels lits)).
    assert (E : pre ++ (enc_label l ++ enc_labels lits) ++ post
            = (pre ++ enc_label l) ++ enc_labels lits ++ post) by by rewrite <- !app_assoc.
    cbn [app]. apply name_at_label.
    + done.
    + rewrite rd_app_r, Z.sub_diag by lia. done.
    + lia.
    + rewrite rds_app_r by lia. replace (zlen pre + 1 - zlen pre) with 1 by lia.
      unfold enc_label. change (((zlen l :: l) ++ enc_labels lits) ++ post) with ([zlen l] ++ (l ++ enc_labels lits) ++ post).
      rewrite rds_app_r by (change (zlen [zlen l]) with 1; lia). change (1 - zlen [zlen l]) with 0.
      rewrite <- app_assoc, rds_in_range by (rewrite ?zlen_app; pose proof (zlen_nonneg (enc_labels lits)); pose proof (zlen_nonneg post); lia).
      by rewrite slice_0_app.
    + rewrite E. replace (zlen pre + 1 + zlen l) with (zlen (pre ++ enc_label l))
        by (rewrite zlen_app, zlen_enc_label; lia).
      apply IH.
      * by rewrite <- E.
      * rewrite zlen_app, zlen_enc_label. lia.
      * rewrite <- E, zlen_app, zlen_enc_label.
        by replace (zlen pre + (1 + zlen l) + zlen (enc_labels lits))
          with (zlen pre + (1 + zlen l + zlen (enc_labels lits))) by lia.
Qed.

Lemma name_at_raw pre ls :
  Forall label_ok ls →
  name_at (pre ++ wire ls) (zlen (pre ++ wire ls)) (zlen pre) (zlen pre) ls (zlen (pre ++ wire ls)) 0.
Proof.
  intros Hok. unfold wire. pose proof (zlen_nonneg pre). pose proof (zlen_nonneg (enc_labels ls)).
  assert (Hz : zlen (pre ++ enc_labels ls ++ [0]) = zlen pre + zlen (enc_labels ls) + 1)
    by (rewrite !zlen_app; change (zlen [0]) with 1; lia).
  rewrite <- (app_nil_r ls) at 3. apply name_at_literal; [done|lia|lia|].
  rewrite Hz at 2. apply name_at_root; [lia|].
  by rewrite app_assoc, rd_app_r, zlen_app, Z.sub_diag by (rewrite zlen_app; lia).
Qed.

(** ** [elpis_name_parse_nocomp] *)

Lemma slice_cons_inv {A} (l : list A) o n x k :
  0 <= o → 0 <= n → o + (1 + n) <= zlen l → slice l o (1 + n) = x :: k →
  rd l o = Ok x ∧ slice l (o + 1) n = k.
Proof.
  intros Ho Hn Hl Hs. destruct (rd_in_range l o) as (y & Hy & _); [lia|].
  rewrite (slice_cons_rd l o (1 + n) y) in Hs by (lia || done).
  replace (1 + n - 1) with n in Hs by lia. injection Hs as -> <-. done.
Qed.

(** [ls] is spelled out, uncompressed, at [p + off], within [len]. *)
Definition spelled (p : list Z) (len off : Z) (ls : list (list Z)) : Prop :=
  off + zlen (wire ls) <= len ∧ slice p off (zlen (wire ls)) = wire ls.

Lemma spelled_nil p len off :
  0 <= off → len <= zlen p → spelled p len off [] ↔ off < len ∧ rd p off = Ok 0.
Proof.
  intros Ho Hlen. unfold spelled. change (zlen (wire [])) with 1. change (wire []) with [0]. split.
  - intros [? Hs]. split; [lia|].
    by destruct (slice_cons_inv p off 0 0 []) as [? _]; [lia|lia|lia|done|].
  - intros [? Hr]. split; [lia|]. by rewrite (slice_cons_rd p off 1 0) by (lia || done).
Qed.

Lemma spelled_cons p len off l ls :
  0 <= off → len <= zlen p →
  spelled p len off (l :: ls) ↔
  off + 1 + zlen l <= len ∧ rd p off = Ok (zlen l) ∧ slice p (off + 1) (zlen l) = l ∧
  spelled p len (off + 1 + zlen l) ls.
Proof.
  intros Ho Hlen. unfold spelled. rewrite zlen_wire_cons, wire_cons.
  pose proof (zlen_nonneg l). pose proof (zlen_wire_pos ls). split.
  - intros [? Hs]. rewrite <- Z.add_assoc in Hs.
    destruct (slice_cons_inv p off (zlen l + zlen (wire ls)) (zlen l) (l ++ wire ls)) as [Hr Hs'];
      [lia|lia|lia|done|].
    rewrite slice_split in Hs' by lia. apply app_inj_1 in Hs' as [Hl Hw];
      [|by rewrite length_slice by lia; zl].
    split_and!; try done; lia.
  - intros (? & Hr & Hl & ? & Hw). split; [lia|].
    rewrite (slice_cons_rd p off _ (zlen l)) by (lia || done).
    replace (1 + zlen l + zlen (wire ls) - 1) with (zlen l + zlen (wire ls)) by lia.
    rewrite slice_split by lia. rewrite Hl. cbn. do 2 f_equal.
    by rewrite <- Hw at 2.
Qed.

Section parse_nocomp.
Context (p : list Z) (len : Z) (Hp : bytes p) (Hlen : len <= zlen p).

Lemma name_parse_nocomp_loop_spec fuel : ∀ off ls0,
    0 <= off → Forall label_ok ls0 → zlen (enc_labels ls0) <= 254 →
    254 - zlen (enc_labels ls0) < Z.of_nat fuel →
    match name_parse_nocomp_loop fuel p len off (enc_labels ls0) (zlen ls0) with
    | Ok (n, e) => ∃ ls, spelled p len off ls ∧ labels_ok (ls0 ++ ls) ∧ n = name_of (ls0 ++ ls) ∧
                        e = off + zlen (wire ls)
    | Err _ _ => ∀ ls, spelled p len off ls → ¬ labels_ok (ls0 ++ ls)
    | Stuck _ => False
    end.
  Proof.
    induction fuel as [|fuel IH]; intros off ls0 Ho Hls0 Hz Hf; [lia|].
    cbn -[Z.land wire enc_labels rds].
    destruct (Z.leb_spec len off) as [Hoff|Hoff]; cbn -[Z.land wire enc_labels rds].
    { intros ls [Hs _] _. pose proof (zlen_wire_pos ls). lia. }
    destruct (rd_in_range p off) as (c & Hc & _); [lia|].
    pose proof (rd_byte p Hp _ _ Hc) as Hbc. rewrite Hc. cbn -[Z.land wire enc_labels rds].
    rewrite land_C0_0 by done.
    destruct (Z.leb_spec c 63) as [H63|H63]; cbn -[Z.land wire enc_labels rds].
    2: { intros [|l ls] Hs [Hfo _].
         - apply spelled_nil in Hs as [_ ?]; [|done|done]. assert (c = 0) by congruence. lia.
         - apply spelled_cons in Hs as (_ & Hr & _); [|done|done].
           assert (c = zlen l) as -> by congruence.
           apply Forall_app in Hfo as [_ Hfo]. apply Forall_cons_1 in Hfo as [[? _] _]. lia. }
    destruct (Z.eqb_spec c 0) as [->|Hc0].
    - unfold ELPIS_MAX_NAME. zfalse (255 <? zlen (enc_labels ls0) + 1). cbn -[wire enc_labels].
      exists []. rewrite app_nil_r. split_and!.
      + by apply spelled_nil.
      + split; [done|]. rewrite zlen_wire. lia.
      + pose proof (labels_bound _ Hls0). unfold name_of. rewrite zlen_wire, !u8_id by zl. done.
      + done.
    - assert (Hinv : ∀ ls, spelled p len off ls → labels_ok (ls0 ++ ls) →
        off + 1 + c <= len ∧ ∃ ls', ls = slice p (off + 1) c :: ls' ∧
          spelled p len (off + 1 + c) ls').
      { intros [|l ls] Hs Hok.
        - apply spelled_nil in Hs as [_ ?]; [|done|done]. congruence.
        - apply spelled_cons in Hs as (? & Hr & Hl & Hs); [|done|done].
          assert (c = zlen l) as -> by congruence. split; [done|]. exists ls. by rewrite Hl. }
      unfold ELPIS_MAX_LABEL. zfalse (63 <? c). cbn -[wire enc_labels rds].
      destruct (Z.ltb_spec len (off + 1 + c)) as [Hm|Hm]; cbn -[wire enc_labels rds].
      { intros ls Hs Hok. apply Hinv in Hs; [lia|done]. }
      rewrite rds_in_range by zl. set (lab := slice p (off + 1) c) in *.
      assert (Hlab : zlen lab = c) by (apply zlen_slice; zl).
      assert (Hlok : label_ok lab) by (split; [zl|by apply Forall_slice]).
      unfold ELPIS_MAX_NAME.
      destruct (Z.ltb_spec 255 (zlen (enc_labels ls0) + 1 + c + 1)) as [Hb|Hb];
        cbn -[wire enc_labels].
      { intros ls Hs Hok. destruct (Hinv _ Hs Hok) as (_ & ls' & -> & _). destruct Hok as [_ Hw].
        rewrite wire_app, zlen_app, zlen_wire_cons in Hw. pose proof (zlen_wire_pos ls'). lia. }
      pose proof (labels_bound _ Hls0).
      unfold ELPIS_MAX_LABELS. zfalse (128 <? zlen ls0 + 1). cbn -[wire enc_labels].
      specialize (IH (off + 1 + c) (ls0 ++ [lab])).
      assert (Henc : enc_labels (ls0 ++ [lab]) = enc_labels ls0 ++ c :: lab).
      { rewrite enc_labels_app. unfold enc_labels at 2. cbn. by rewrite app_nil_r, <- Hlab. }
      rewrite Henc, !zlen_app, zlen_cons in IH. rewrite zlen_cons in IH.
      change (zlen [lab]) with 1 in IH. rewrite Hlab in IH.
      specialize (IH ltac:(zl) ltac:(by apply Forall_app; split; [|repeat constructor; apply Hlok])).
      specialize (IH ltac:(zl) ltac:(zl)).
      destruct (name_parse_nocomp_loop _ _ _ _ _ _) as [[n e]| |]; cbn -[wire] in IH |- *.
      + destruct IH as (ls & Hs & Hok & -> & ->).
        exists (lab :: ls). rewrite <- app_assoc in *. cbn [app] in *. split_and!; try done.
        * apply spelled_cons; [done|done|]. rewrite Hlab. split_and!; done || lia.
        * rewrite zlen_wire_cons. lia.
      + intros ls Hs Hok. destruct (Hinv _ Hs Hok) as (_ & ls' & -> & Hs').
        eapply IH; [exact Hs'|]. by rewrite <- app_assoc.
      + done.
  Qed.

Lemma name_parse_nocomp_spec :
    match elpis_name_parse_nocomp p len with
    | Ok (n, e) => ∃ ls, spelled p len 0 ls ∧ labels_ok ls ∧ n = name_of ls ∧ e = zlen (wire ls)
    | Err _ _ => ∀ ls, spelled p len 0 ls → ¬ labels_ok ls
    | Stuck _ => False
    end.
  Proof.
    pose proof (name_parse_nocomp_loop_spec name_fuel 0 [] ltac:(lia) ltac:(constructor)
      ltac:(by vm_compute) ltac:(by vm_compute)) as H.
    exact H.
  Qed.
End parse_nocomp.

Lemma spelled_det p len off ls ls' :
  0 <= off → len <= zlen p → Forall label_ok ls → Forall label_ok ls' →
  spelled p len off ls → spelled p len off ls' → ls = ls'.
Proof.
  intros Ho Hl Hf. revert off Ho ls'.
  induction Hf as [|l ls [Hz1 _] Hf IH]; intros off Ho ls' Hf' H H'.
  - destruct Hf' as [|l' ls' [? _] _]; [done|].
    apply spelled_nil in H as [_ H]; [|done|done]. apply spelled_cons in H' as (_ & H' & _); [|done|done].
    rewrite H in H'. injection H'. lia.
  - apply spelled_cons in H as (? & Hr & Hs & H); [|done|done].
    destruct Hf' as [|l' ls' [? _] Hf'].
    + apply spelled_nil in H' as [_ H']; [|done|done]. rewrite H' in Hr. injection Hr. lia.
    + apply spelled_cons in H' as (? & Hr' & Hs' & H'); [|done|done].
      rewrite Hr in Hr'. injection Hr' as Hz. rewrite <- Hz in *.
      assert (l = l') as <- by congruence. f_equal. apply (IH (off + 1 + zlen l)); (done || lia).
Qed.

Lemma name_parse_nocomp_complete p len ls :
  bytes p → len <= zlen p → labels_ok ls → spelled p len 0 ls →
  elpis_name_parse_nocomp p len = Ok (name_of ls, zlen (wire ls)).
Proof.
  intros Hb Hl Hok Hs. pose proof (name_parse_nocomp_spec p len Hb Hl) as H.
  destruct (elpis_name_parse_nocomp p len) as [[n e]| |]; [|by apply H in Hs|done].
  destruct H as (ls' & Hs' & Hok' & -> & ->).
  assert (ls = ls') as -> by (eapply (spelled_det p len 0); try done; [apply Hok|apply Hok']).
  done.
Qed.

Lemma spelled_wire ls rest : spelled (wire ls ++ rest) (zlen (wire ls ++ rest)) 0 ls.
Proof.
  split; [rewrite zlen_app; pose proof (zlen_nonneg rest); lia|]. apply slice_0_app.
Qed.

(** ** Properties *)

(** C32. The compressed-name parser accepts exactly the names the wire grammar
    [name_at] describes (labels of 1..63 octets, pointers aiming strictly below
    the run they leave), of at most 255 octets and 128 pointers, and returns
    their labels and the offset just past the name in place. *)
Theorem name_parse_iff_grammar (msg : list Z) (msglen off e : Z) (n : elpis_name_t) :
  bytes msg → msglen <= zlen msg → 0 <= off →
  elpis_name_parse msg msglen off = Ok (n, e) ↔
  ∃ ls j, name_at msg msglen off off ls e j ∧ zlen (wire ls) <= 255 ∧ j <= 128 ∧ n = name_of ls.
Proof.
  intros Hb Hl Ho. split.
  - intros E. pose proof (name_parse_spec msg msglen Hb Hl off Ho) as H. rewrite E in H.
    destruct H as (ls & j & ? & [? ?] & ? & ->). by exists ls, j.
  - intros (ls & j & ? & ? & ? & ->). by apply (name_parse_complete _ _ _ _ _ j).
Qed.

Lemma name_parse_iff_grammar_witness :
  elpis_name_parse [1;97;0;1;98;192;0] 7 3 = Ok (name_of [[98];[97]], 7) ↔
  ∃ ls j, name_at [1;97;0;1;98;192;0] 7 3 3 ls 7 j ∧ zlen (wire ls) <= 255 ∧ j <= 128
          ∧ name_of [[98];[97]] = name_of ls.
Proof.
  apply (name_parse_iff_grammar [1;97;0;1;98;192;0] 7 3 7 (name_of [[98];[97]])); by_compute.
Defined.

(** On any octets whatever, the parser terminates within its bound and
    reads nothing outside the message; a name it returns is well formed (at
    most 255 octets, labels of 1..63) and ends inside the message. *)
Theorem name_parse_total (msg : list Z) (msglen off : Z) :
  bytes msg → msglen <= zlen msg → 0 <= off →
  match elpis_name_parse msg msglen off with
  | Ok (n, e) => wf_name n ∧ off < e <= msglen
  | Err rc _ => rc = ELPIS_EFORMAT
  | Stuck _ => False
  end.
Proof.
  intros Hb Hl Ho. pose proof (name_parse_safe msg msglen off Hb Hl Ho) as H.
  destruct (elpis_name_parse msg msglen off) as [[n e]|rc d|] eqn:E; cbn in H; [done| |done].
  by apply name_parse_err in E.
Qed.

Lemma name_parse_total_witness :
  match elpis_name_parse [192;0] 2 0 with
  | Ok (n, e) => wf_name n ∧ 0 < e <= 2
  | Err rc _ => rc = ELPIS_EFORMAT
  | Stuck _ => False
  end.
Proof. apply (name_parse_total [192;0] 2 0); by_compute. Defined.

(** Encoding then decoding: every well-formed name written out without
    compression, followed by anything, is read back by
    [elpis_name_parse_nocomp], which stops exactly at its end. *)
Theorem name_nocomp_roundtrip (ls : list (list Z)) (rest : list Z) :
  labels_ok ls → bytes rest →
  elpis_name_parse_nocomp (n_d (name_of ls) ++ rest) (zlen (wire ls ++ rest))
  = Ok (name_of ls, n_len (name_of ls)).
Proof.
  intros Hok Hr. apply name_parse_nocomp_complete; [|done|done|apply spelled_wire].
  apply Forall_app. split; [apply bytes_wire, Hok|done].
Qed.

Lemma name_nocomp_roundtrip_witness :
  elpis_name_parse_nocomp (n_d (name_of [[119;119];[99]]) ++ [1;2]) (zlen (wire [[119;119];[99]] ++ [1;2]))
  = Ok (name_of [[119;119];[99]], n_len (name_of [[119;119];[99]])).
Proof. apply (name_nocomp_roundtrip [[119;119];[99]] [1;2]); by_compute. Defined.
