(* ===== verification/NameOps.v ===== *)
(** The operations of src/dns/name.c on the list-of-labels view: what each one
    does to [name_of ls]. *)
From stdpp Require Import base list numbers.
From Stdlib Require Import ZArith Lia.
From S2P Require Import Prelude Bytes Simd Name.

(** ** Definitions of the specification *)

(** [p] is a suffix of [s], label by label, up to case. *)
Definition labels_suffix (p s : list (list Z)) : Prop :=
  (length p <= length s)%nat ∧ labels_eq (drop (length s - length p) s) p.

#[export] Instance labels_suffix_dec p s : Decision (labels_suffix p s).
Proof. unfold labels_suffix. apply _. Defined.

(** Longest common prefix, counted. *)
Fixpoint lcp (a b : list (list Z)) : nat :=
  match a, b with
  | x :: a', y :: b' => if decide (x = y) then S (lcp a' b') else O
  | _, _ => O
  end.

(** How many trailing labels two names share, up to case. *)
Definition shared_labels (a b : list (list Z)) : nat :=
  lcp (rev (fold_labels a)) (rev (fold_labels b)).

(** ** Facts about encodings *)

Lemma fold_labels_cons l ls : fold_labels (l :: ls) = map lower_byte l :: fold_labels ls.
Proof. done. Qed.

Lemma length_fold_labels ls : length (fold_labels ls) = length ls.
Proof. apply length_map. Qed.

Lemma labels_eq_length a b : labels_eq a b → length a = length b.
Proof. intros H. rewrite <- (length_fold_labels a), <- (length_fold_labels b). by f_equal. Qed.

Lemma lower_byte_len c : 0 <= c <= 63 → lower_byte c = c.
Proof. intros. unfold lower_byte, ch_A. by zfalse ((65 <=? c) && (c <=? ch_Z)). Qed.

Lemma fold_enc_labels ls :
  Forall label_ok ls → map lower_byte (enc_labels ls) = enc_labels (fold_labels ls).
Proof.
  induction 1 as [|l ls [? _] _ IH]; [done|].
  rewrite fold_labels_cons, !enc_labels_cons, map_app, IH. f_equal.
  unfold enc_label. cbn. rewrite lower_byte_len by lia. by rewrite zlen_map.
Qed.

Lemma fold_wire ls : Forall label_ok ls → map lower_byte (wire ls) = wire (fold_labels ls).
Proof. intros. unfold wire. by rewrite map_app, fold_enc_labels. Qed.

Lemma label_ok_fold l : label_ok l → label_ok (map lower_byte l).
Proof. intros [? ?]. split; [by rewrite zlen_map|by apply bytes_lower]. Qed.

Lemma labels_fold_Forall ls : Forall label_ok ls → Forall label_ok (fold_labels ls).
Proof. induction 1; cbn; constructor; auto using label_ok_fold. Qed.

Lemma zlen_wire_fold ls : zlen (wire (fold_labels ls)) = zlen (wire ls).
Proof.
  induction ls as [|l ls IH]; [done|].
  by rewrite fold_labels_cons, !zlen_wire_cons, zlen_map, IH.
Qed.

Lemma labels_ok_fold ls : labels_ok ls → labels_ok (fold_labels ls).
Proof. intros [? ?]. split; [by apply labels_fold_Forall|by rewrite zlen_wire_fold]. Qed.

Lemma wire_inj a b : Forall label_ok a → Forall label_ok b → wire a = wire b → a = b.
Proof.
  intros Ha. revert b. induction Ha as [|l a [Hl _] Ha IH]; intros b Hb Hw;
    destruct Hb as [|k b [Hk _] Hb]; [done| | |].
  - rewrite wire_cons in Hw. injection Hw as Hw _. lia.
  - rewrite wire_cons in Hw. injection Hw as Hw _. lia.
  - rewrite !wire_cons in Hw. injection Hw as Hz Hw.
    apply app_inj_1 in Hw as [-> Hw]; [|zl]. f_equal. by apply IH.
Qed.

Lemma name_of_inj a b : labels_ok a → labels_ok b → name_of a = name_of b → a = b.
Proof. intros [Ha _] [Hb _] H. injection H as _ _ H. by apply wire_inj. Qed.

Lemma labels_eq_wire a b :
  Forall label_ok a → Forall label_ok b → fold_eq (wire a) (wire b) ↔ labels_eq a b.
Proof.
  intros Ha Hb. unfold fold_eq, labels_eq. rewrite !fold_wire by done. split; [|by intros ->].
  apply wire_inj; by apply labels_fold_Forall.
Qed.

Lemma labels_eq_zlen a b : labels_eq a b → zlen (wire a) = zlen (wire b).
Proof. intros H. rewrite <- (zlen_wire_fold a), <- (zlen_wire_fold b). unfold labels_eq in H. by rewrite H. Qed.

Lemma fold_labels_drop k ls : fold_labels (drop k ls) = drop k (fold_labels ls).
Proof. symmetry. apply skipn_map. Qed.

Lemma lower_byte_idem c : lower_byte (lower_byte c) = lower_byte c.
Proof.
  destruct (decide (65 <= c <= 90)) as [Hc|Hc].
  - assert (lower_byte c = c + 32) as ->.
    { unfold lower_byte, ch_A, ch_Z. ztrue ((65 <=? c) && (c <=? 90)). apply u8_id. zl. }
    unfold lower_byte, ch_A, ch_Z. by zfalse ((65 <=? c + 32) && (c + 32 <=? 90)).
  - assert (lower_byte c = c) as Hl.
    { unfold lower_byte, ch_A, ch_Z. by zfalse ((65 <=? c) && (c <=? 90)). }
    by rewrite !Hl.
Qed.

Lemma fold_labels_idem ls : fold_labels (fold_labels ls) = fold_labels ls.
Proof.
  unfold fold_labels. rewrite map_map. apply map_ext. intros l. rewrite map_map.
  apply map_ext. apply lower_byte_idem.
Qed.

Lemma labels_ok_drop k ls : labels_ok ls → labels_ok (drop k ls).
Proof. intros H. rewrite <- (take_drop k ls) in H. by apply labels_ok_app in H. Qed.
#[export] Hint Resolve labels_ok_drop labels_ok_fold : elpis.

(** ** [elpis_name_lower], [elpis_name_eq], [elpis_name_hash] *)

Lemma round16 n : 0 <= n → Z.land (n + 15) (Z.lnot 15) = (n + 15) / 16 * 16.
Proof.
  intros. rewrite <- Z.ldiff_land. change 15 with (Z.ones 4) at 2.
  rewrite Z.ldiff_ones_r by lia. rewrite Z.shiftl_mul_pow2, Z.shiftr_div_pow2 by lia. done.
Qed.

Lemma name_lower_spec ls :
  labels_ok ls → elpis_name_lower (name_of ls) = Ok (name_of (fold_labels ls)).
Proof.
  intros [Hf Hl]. unfold elpis_name_lower. cbn [n_len n_labels n_d name_of].
  pose proof (zlen_wire_pos ls). pose proof (zlen_nonneg (wire ls)).
  set (buf := wire ls ++ replicate _ 0).
  assert (Hbuf : zlen buf = zlen (wire ls) + 16)
    by (unfold buf; rewrite zlen_app, zlen_replicate; done).
  assert (Hbb : bytes buf).
  { apply Forall_app. split; [by apply bytes_wire|]. apply Forall_replicate. zl. }
  rewrite round16 by lia. set (r := (zlen (wire ls) + 15) / 16 * 16).
  assert (zlen (wire ls) <= r <= zlen (wire ls) + 15)
    by (unfold r; Z.div_mod_to_equations; lia).
  rewrite lower_pad16_spec by (done || lia). cbn -[slice wire].
  unfold name_of. rewrite zlen_wire_fold. f_equal. f_equal; [unfold zlen; by rewrite length_fold_labels|].
  rewrite slice_app_l by (rewrite ?zlen_map, ?zlen_slice; lia).
  rewrite <- fold_wire by done.
  assert (slice buf 0 r = wire ls ++ slice buf (zlen (wire ls)) (r - zlen (wire ls))) as ->.
  { replace r with (zlen (wire ls) + (r - zlen (wire ls))) at 1 by lia.
    rewrite slice_split by lia. f_equal. unfold buf. apply slice_0_app. }
  rewrite map_app. rewrite <- (zlen_map lower_byte (wire ls)). apply slice_0_app.
Qed.

Lemma name_eq_spec a b :
  labels_ok a → labels_ok b →
  elpis_name_eq (name_of a) (name_of b) = Ok (bool_decide (labels_eq a b)).
Proof.
  intros [Ha ?] [Hb ?]. unfold elpis_name_eq. cbn [n_len n_d name_of].
  destruct (Z.eqb_spec (zlen (wire a)) (zlen (wire b))) as [Hz|Hz]; cbn [negb].
  - rewrite eq_ci_spec by first [by apply bytes_wire|apply zlen_nonneg|lia].
    f_equal. apply bool_decide_ext.
    rewrite slice_0_all by lia. rewrite Hz, slice_0_all by lia. by apply labels_eq_wire.
  - rewrite bool_decide_eq_false_2; [done|]. by intros ?%labels_eq_zlen.
Qed.

Lemma name_hash_spec a b :
  labels_ok a → labels_ok b → labels_eq a b →
  ∃ h, elpis_name_hash (name_of a) = Ok h ∧ elpis_name_hash (name_of b) = Ok h.
Proof.
  intros [Ha ?] [Hb ?] He. unfold elpis_name_hash. cbn [n_len n_d name_of].
  pose proof (labels_eq_zlen _ _ He) as Hz. rewrite <- Hz.
  apply hash_ci_congr; try first [by apply bytes_wire|apply zlen_nonneg|lia].
  rewrite slice_0_all by lia. rewrite Hz, slice_0_all by lia. by apply labels_eq_wire.
Qed.

(** ** [elpis_name_parent], [elpis_name_suffix] *)

Lemma name_parent_spec l ls :
  labels_ok (l :: ls) → elpis_name_parent (name_of (l :: ls)) = Ok (name_of ls).
Proof.
  intros Hok. pose proof (labels_ok_cons _ _ Hok) as [[? _] Hok'].
  pose proof (zlen_labels_of_ok _ Hok). pose proof (zlen_wire_pos ls).
  destruct Hok as [_ Hw]. unfold elpis_name_parent. cbn [n_len n_labels n_d name_of].
  rewrite zlen_wire_cons, zlen_cons in *. rewrite wire_cons.
  zfalse (1 + zlen l + zlen (wire ls) <=? 1). bind_step.
  change (rd (enc_label l ++ wire ls) 0) with (Ok (zlen l)). bind_step.
  zfalse (1 + zlen l + zlen (wire ls) + 1 <=? 1 + zlen l). cbn [guard_err res_bind mbind].
  rewrite rds_in_range; [|lia|lia|rewrite zlen_app, zlen_enc_label; lia].
  cbn [mbind res_bind]. unfold name_of. pose proof (zlen_nonneg ls). rewrite !u8_id by zl.
  do 2 f_equal; [lia|lia|].
  rewrite slice_app_r by (rewrite zlen_enc_label; lia). rewrite zlen_enc_label.
  rewrite Z.sub_diag. apply slice_0_all. lia.
Qed.

Lemma name_parent_root : elpis_name_parent (name_of []) = fail ELPIS_ERR.
Proof. done. Qed.

Lemma rd_wire_label pre l ls :
  rd (wire (pre ++ l :: ls)) (zlen (enc_labels pre)) = Ok (zlen l).
Proof.
  rewrite wire_app, wire_cons, rd_app_r, Z.sub_diag by lia. done.
Qed.

Lemma suffix_skip_spec k : ∀ pre ls,
  Forall label_ok (pre ++ ls) → (k <= length ls)%nat →
  suffix_skip k (name_of (pre ++ ls)) (zlen (enc_labels pre))
  = Ok (zlen (enc_labels (pre ++ take k ls))).
Proof.
  induction k as [|k IH]; intros pre ls Hf Hk.
  { cbn [suffix_skip take]. by rewrite app_nil_r. }
  destruct ls as [|l ls]; [cbn in Hk; lia|].
  assert (label_ok l) as [? _].
  { apply Forall_app in Hf as [_ Hf]. by apply Forall_cons_1 in Hf as [? _]. }
  cbn [suffix_skip name_of n_len n_d].
  assert (zlen (enc_labels pre) < zlen (wire (pre ++ l :: ls))).
  { rewrite wire_app, zlen_app. pose proof (zlen_wire_pos (l :: ls)). lia. }
  zfalse (zlen (wire (pre ++ l :: ls)) <=? zlen (enc_labels pre)). cbn [guard_err mbind res_bind].
  rewrite rd_wire_label. cbn [mbind res_bind]. zfalse (zlen l =? 0). cbn [guard_err mbind res_bind].
  specialize (IH (pre ++ [l]) ls). rewrite <- !app_assoc in IH. cbn [app] in IH.
  cbn in Hk. specialize (IH Hf ltac:(lia)).
  rewrite enc_labels_app, zlen_app in IH at 1. 
  rewrite enc_labels_single, zlen_enc_label in IH. exact IH.
Qed.

Lemma wire_drop k ls :
  slice (wire ls) (zlen (enc_labels (take k ls)))
        (zlen (wire ls) - zlen (enc_labels (take k ls))) = wire (drop k ls).
Proof.
  rewrite <- (take_drop k ls) at 1 3. rewrite wire_app, slice_app_r, Z.sub_diag, zlen_app by lia.
  apply slice_0_all. lia.
Qed.

Lemma zlen_wire_drop k ls :
  zlen (wire (drop k ls)) = zlen (wire ls) - zlen (enc_labels (take k ls)).
Proof. rewrite <- (take_drop k ls) at 2. rewrite wire_app, zlen_app. lia. Qed.

Lemma name_suffix_spec ls keep :
  labels_ok ls → 0 <= keep →
  elpis_name_suffix (name_of ls) keep = Ok (name_of (drop (length ls - Z.to_nat keep) ls)).
Proof.
  intros Hok Hk. pose proof (zlen_labels_of_ok _ Hok). destruct Hok as [Hf Hw].
  unfold elpis_name_suffix. cbn [n_labels name_of].
  destruct (Z.leb_spec (zlen ls) keep) as [Hle|Hle].
  { replace (length ls - Z.to_nat keep)%nat with 0%nat by zl. by rewrite drop_0. }
  replace (Z.to_nat (zlen ls - keep)) with (length ls - Z.to_nat keep)%nat by zl.
  set (k := (length ls - Z.to_nat keep)%nat).
  pose proof (suffix_skip_spec k [] ls Hf ltac:(lia)) as Hs. cbn [app] in Hs.
  change (zlen (enc_labels [])) with 0 in Hs. rewrite Hs. cbn [mbind res_bind n_len n_d name_of].
  pose proof (zlen_wire_drop k ls) as Hd. pose proof (zlen_wire_pos (drop k ls)).
  pose proof (zlen_nonneg (enc_labels (take k ls))).
  zfalse (zlen (wire ls) <=? zlen (enc_labels (take k ls))). cbn [guard_err mbind res_bind].
  rewrite rds_in_range by lia. cbn [mbind res_bind]. rewrite wire_drop. unfold name_of.
  rewrite !u8_id by zl. rewrite Hd. do 2 f_equal. rewrite zlen_drop. zl.
Qed.

(** ** [elpis_name_covers], [elpis_name_is_subdomain] *)

Lemma name_covers_spec zone name :
  labels_ok zone → labels_ok name →
  elpis_name_covers (name_of zone) (name_of name) = Ok (bool_decide (labels_suffix zone name)).
Proof.
  intros Hz Hn. unfold elpis_name_covers. cbn [n_labels name_of].
  destruct (Z.ltb_spec (zlen name) (zlen zone)) as [Hlt|Hle].
  - rewrite bool_decide_eq_false_2; [done|]. intros [? _]. zl.
  - change (mkName (zlen (wire ?x)) (zlen ?x) (wire ?x)) with (name_of x).
    rewrite name_suffix_spec by (done || apply zlen_nonneg). cbn [try mbind res_bind].
    rewrite name_eq_spec by auto with elpis. f_equal.
    replace (Z.to_nat (zlen zone)) with (length zone) by zl.
    apply bool_decide_ext. unfold labels_suffix. split; [|by intros [_ ?]]. split; [zl|done].
Qed.

Lemma enc_take_S k ls l :
  ls !! k = Some l → enc_labels (take (S k) ls) = enc_labels (take k ls) ++ enc_label l.
Proof.
  intros Hl. rewrite (take_S_r _ _ _ Hl), enc_labels_app. f_equal.
  apply enc_labels_single.
Qed.

Lemma rd_wire_at ls k l :
  ls !! k = Some l → rd (wire ls) (zlen (enc_labels (take k ls))) = Ok (zlen l).
Proof.
  intros Hl. rewrite <- (rd_wire_label (take k ls) l (drop (S k) ls)).
  by rewrite <- (drop_S ls l k Hl), take_drop.
Qed.

Lemma subdomain_walk_spec ls off fuel : ∀ k,
  Forall label_ok ls → (k <= length ls)%nat → off <= zlen (enc_labels ls) →
  off - zlen (enc_labels (take k ls)) < Z.of_nat fuel →
  (∀ j, (j < k)%nat → zlen (enc_labels (take j ls)) < off) →
  ∃ m, (k <= m <= length ls)%nat ∧ off <= zlen (enc_labels (take m ls)) ∧
    (∀ j, (j < m)%nat → zlen (enc_labels (take j ls)) < off) ∧
    subdomain_walk (S fuel) (wire ls) off (zlen (enc_labels (take k ls)))
    = Ok (Some (zlen (enc_labels (take m ls)))).
Proof.
  induction fuel as [|fuel IH]; intros k Hf Hk Hoff Hfu Hlow; cbn [subdomain_walk];
    destruct (Z.ltb_spec (zlen (enc_labels (take k ls))) off) as [Hlt|Hge]; try lia;
    try (exists k; split_and!; (done || lia)).
  destruct (decide (k = length ls)) as [->|]; [rewrite take_ge in Hlt by lia; lia|].
  destruct (lookup_lt_is_Some_2 ls k) as [l Hl]; [lia|].
  pose proof (Forall_lookup_1 _ _ _ _ Hf Hl) as [? _].
  rewrite (rd_wire_at ls k l Hl). bind_step. zfalse (zlen l =? 0).
  destruct (IH (S k)) as (m & ? & ? & Hm & Hw); [done| |done| | |].
  - apply lookup_lt_Some in Hl. lia.
  - rewrite (enc_take_S _ _ _ Hl), zlen_app, zlen_enc_label. lia.
  - intros j Hj. destruct (decide (j = k)) as [->|]; [done|]. apply Hlow. lia.
  - rewrite (enc_take_S _ _ _ Hl), zlen_app, zlen_enc_label in Hw.
    exists m. split_and!; [lia|lia|done|done|exact Hw].
Qed.

Lemma enc_labels_pos ls : Forall label_ok ls → (0 < length ls)%nat → 0 < zlen (enc_labels ls).
Proof. intros Hf Hl. pose proof (labels_bound ls Hf). zl. Qed.

Lemma labels_suffix_boundary p s :
  labels_suffix p s →
  zlen (enc_labels (take (length s - length p) s)) = zlen (wire s) - zlen (wire p).
Proof.
  intros [Hl He]. apply labels_eq_zlen in He. rewrite zlen_wire_drop in He. lia.
Qed.

Lemma name_is_subdomain_spec sub parent :
  labels_ok sub → labels_ok parent →
  elpis_name_is_subdomain (name_of sub) (name_of parent)
  = Ok (bool_decide (labels_suffix parent sub)).
Proof.
  intros Hs Hp. unfold elpis_name_is_subdomain. cbn [n_len n_labels n_d name_of].
  pose proof (zlen_wire_pos sub). pose proof (zlen_wire_pos parent).
  destruct (Z.ltb_spec (zlen (wire sub)) (zlen (wire parent))) as [Hlt|Hle].
  { rewrite bool_decide_eq_false_2; [done|]. intros Hx%labels_suffix_boundary.
    pose proof (zlen_nonneg (enc_labels (take (length sub - length parent) sub))). lia. }
  destruct (Z.eqb_spec (zlen (wire parent)) 1) as [H1|H1].
  { assert (parent = []) as ->.
    { destruct parent as [|l parent]; [done|]. destruct Hp as [Hp _].
      apply Forall_cons_1 in Hp as [[? _] _]. rewrite zlen_wire_cons in H1.
      pose proof (zlen_wire_pos parent). lia. }
    rewrite bool_decide_eq_true_2; [done|]. split; [cbn; lia|]. rewrite Nat.sub_0_r, drop_all. done. }
  destruct (Z.ltb_spec (zlen sub) (zlen parent)) as [Hlb|Hlb].
  { rewrite bool_decide_eq_false_2; [done|]. intros [? _]. zl. }
  destruct Hs as [Hsf Hsl], Hp as [Hpf Hpl].
  set (off := zlen (wire sub) - zlen (wire parent)).
  destruct (subdomain_walk_spec sub off 255 0) as (m & Hm & Hge & Hlow & Hw);
    [done|lia| |change (zlen (enc_labels (take 0 sub))) with 0; lia|lia|].
  { unfold off. rewrite zlen_wire. lia. }
  change (zlen (enc_labels (take 0 sub))) with 0 in Hw. rewrite Hw. cbn [mbind res_bind].
  destruct (Z.eqb_spec (zlen (enc_labels (take m sub))) off) as [Heq|Hne]; cbn [negb].
  - pose proof (zlen_wire_drop m sub) as Hd.
    rewrite rds_in_range by (unfold off in *; lia). cbn [mbind res_bind].
    replace (slice (wire sub) off (zlen (wire parent))) with (wire (drop m sub))
      by (rewrite <- wire_drop; f_equal; unfold off in *; lia).
    rewrite eq_ci_spec; [|by apply bytes_wire, Forall_drop|by apply bytes_wire|lia|unfold off in *; lia|lia].
    f_equal. apply bool_decide_ext.
    rewrite !slice_0_all by (unfold off in *; lia).
    rewrite labels_eq_wire by first [done|by apply Forall_drop].
    split.
    + intros He. apply labels_eq_length in He as Hlen. rewrite length_drop in Hlen.
      split; [lia|]. replace (length sub - length parent)%nat with m by lia. done.
    + intros Hsuf. pose proof (labels_suffix_boundary _ _ Hsuf) as Hb. fold off in Hb.
      destruct Hsuf as [? He]. set (q := (length sub - length parent)%nat) in *.
      destruct (decide (q < m)%nat) as [Hqm|]; [specialize (Hlow q Hqm); lia|].
      destruct (decide (q = m)) as [<-|]; [done|].
      assert (Hq : take q sub = take m sub ++ drop m (take q sub)).
      { rewrite <- (take_drop m (take q sub)) at 1. f_equal. rewrite take_take. f_equal. lia. }
      rewrite Hq, enc_labels_app, zlen_app in Hb.
      pose proof (enc_labels_pos (drop m (take q sub))) as Hpos. rewrite length_drop, length_take in Hpos.
      assert (0 < zlen (enc_labels (drop m (take q sub)))); [|lia].
      apply Hpos; [by apply Forall_drop, Forall_take|lia].
  - rewrite bool_decide_eq_false_2; [done|]. intros Hsuf.
    pose proof (labels_suffix_boundary _ _ Hsuf) as Hb. fold off in Hb.
    destruct Hsuf as [? _]. set (q := (length sub - length parent)%nat) in *.
    destruct (decide (q < m)%nat) as [Hqm|]; [specialize (Hlow q Hqm); lia|].
    assert (Hq : take q sub = take m sub ++ drop m (take q sub)).
    { rewrite <- (take_drop m (take q sub)) at 1. f_equal. rewrite take_take. f_equal. lia. }
    rewrite Hq, enc_labels_app, zlen_app in Hb.
    pose proof (zlen_nonneg (enc_labels (drop m (take q sub)))). lia.
Qed.

(** ** [elpis_name_common_labels] *)

Lemma name_parent_drop ls :
  labels_ok ls → ls ≠ [] → elpis_name_parent (name_of ls) = Ok (name_of (drop 1 ls)).
Proof. intros Hok Hne. destruct ls as [|l ls]; [done|]. by apply name_parent_spec. Qed.

Lemma common_trim_spec ls k fuel :
  labels_ok ls → 0 <= k → (length ls < fuel)%nat →
  common_trim fuel (name_of ls) k = Ok (name_of (drop (length ls - Z.to_nat k) ls)).
Proof.
  revert ls. induction fuel as [|fuel IH]; intros ls Hok Hk Hf; [lia|].
  cbn [common_trim]. name_fields. destruct (Z.ltb_spec k (zlen ls)) as [Hlt|Hge].
  - destruct ls as [|l ls]; [cbn in Hlt; unfold zlen in Hlt; cbn in Hlt; lia|].
    rewrite name_parent_spec by done. cbn [try mbind res_bind]. cbn [length] in Hf |- *.
    rewrite IH; [|by apply labels_ok_cons in Hok as [_ ?]|done|lia].
    replace (S (length ls) - Z.to_nat k)%nat with (S (length ls - Z.to_nat k)) by zl. done.
  - replace (length ls - Z.to_nat k)%nat with 0%nat by zl. by rewrite drop_0.
Qed.

Lemma lcp_app_eq u v x y :
  length u = length v →
  lcp (u ++ [x]) (v ++ [y])
  = if decide (u = v) then (if decide (x = y) then S (length u) else length u) else lcp u v.
Proof.
  revert v. induction u as [|a u IH]; intros [|b v] Hl; try done; cbn [app lcp length].
  injection Hl as Hl. rewrite (IH v Hl). repeat case_decide; congruence.
Qed.

Lemma lcp_refl u : lcp u u = length u.
Proof. induction u as [|a u IH]; [done|]. cbn. by rewrite decide_True, IH. Qed.

Lemma lcp_take u v : lcp u v = lcp (take (length v) u) (take (length u) v).
Proof.
  revert v. induction u as [|a u IH]; intros [|b v]; try done. cbn.
  case_decide; [|done]. by rewrite (IH v).
Qed.

Lemma common_climb_spec fuel : ∀ a b,
  labels_ok a → labels_ok b → length a = length b → (length a < fuel)%nat →
  common_climb fuel (name_of a) (name_of b) = Ok (Z.of_nat (shared_labels a b)).
Proof.
  induction fuel as [|fuel IH]; intros a b Ha Hb Hl Hf; [lia|].
  cbn [common_climb]. name_fields.
  destruct a as [|x a], b as [|y b]; try done.
  pose proof (labels_ok_cons _ _ Ha) as [[? _] Ha']. pose proof (labels_ok_cons _ _ Hb) as [[? _] Hb'].
  rewrite !zlen_wire_cons. pose proof (zlen_wire_pos a). pose proof (zlen_wire_pos b).
  ztrue ((1 <? 1 + zlen x + zlen (wire a)) && (1 <? 1 + zlen y + zlen (wire b))).
  rewrite name_eq_spec by done. bind_step.
  unfold shared_labels. rewrite !fold_labels_cons. cbn [rev].
  injection Hl as Hl. case_bool_decide as He.
  - unfold labels_eq in He. rewrite !fold_labels_cons in He. injection He as He1 He2.
    rewrite He1, He2, lcp_refl, length_app, length_rev, length_fold_labels. cbn. f_equal. zl.
  - rewrite name_parent_spec by done. cbn [try mbind res_bind].
    rewrite name_parent_spec by done. cbn [try mbind res_bind].
    rewrite IH by (done || cbn in Hf; lia). do 2 f_equal. unfold shared_labels.
    rewrite lcp_app_eq by (rewrite !length_rev, !length_fold_labels; done).
    destruct (decide _) as [Hr|]; [|done].
    rewrite decide_False.
    + rewrite Hr. apply lcp_refl.
    + intros Hxy. apply He. unfold labels_eq. rewrite !fold_labels_cons, Hxy. f_equal.
      apply (f_equal (@rev _)) in Hr. by rewrite !rev_involutive in Hr.
Qed.

Lemma take_rev_drop (ls : list (list Z)) m :
  (m <= length ls)%nat → take m (rev (fold_labels ls)) = rev (fold_labels (drop (length ls - m) ls)).
Proof.
  intros. rewrite firstn_rev, length_fold_labels. by rewrite fold_labels_drop.
Qed.

Lemma name_common_labels_spec a b :
  labels_ok a → labels_ok b →
  elpis_name_common_labels (name_of a) (name_of b) = Ok (Z.of_nat (shared_labels a b)).
Proof.
  intros Ha Hb. pose proof (zlen_labels_of_ok _ Ha). pose proof (zlen_labels_of_ok _ Hb).
  unfold elpis_name_common_labels. name_fields.
  rewrite common_trim_spec by (done || zl). bind_step.
  set (x := drop _ a). name_fields.
  rewrite common_trim_spec by (done || zl). bind_step. set (y := drop _ b).
  assert (Hx : length x = Nat.min (length a) (length b)) by (unfold x; rewrite length_drop; zl).
  assert (Hy : length y = Nat.min (length a) (length b)) by (unfold y; rewrite length_drop; zl).
  rewrite common_climb_spec by (try (apply labels_ok_drop; done); zl).
  do 2 f_equal. unfold shared_labels.
  rewrite (lcp_take (rev (fold_labels a))), !length_rev, !length_fold_labels.
  f_equal.
  - rewrite (lcp_take (rev (fold_labels a))) || idtac.
    destruct (decide (length b <= length a)%nat).
    + rewrite take_rev_drop by lia. unfold x. do 3 f_equal. zl.
    + rewrite take_ge by (rewrite length_rev, length_fold_labels; lia). unfold x.
      replace (length a - Z.to_nat (zlen b))%nat with 0%nat by zl. by rewrite drop_0.
  - destruct (decide (length a <= length b)%nat).
    + rewrite take_rev_drop by lia. unfold y. do 3 f_equal. zl.
    + rewrite take_ge by (rewrite length_rev, length_fold_labels; lia). unfold y.
      replace (length b - Z.to_nat (zlen x))%nat with 0%nat by zl. by rewrite drop_0.
Qed.

Lemma lcp_le u v : (lcp u v <= length u)%nat ∧ (lcp u v <= length v)%nat.
Proof.
  revert v. induction u as [|a u IH]; intros [|b v]; cbn; try lia.
  case_decide; [|lia]. pose proof (IH v). lia.
Qed.

Lemma lcp_common u v : take (lcp u v) u = take (lcp u v) v.
Proof.
  revert v. induction u as [|a u IH]; intros [|b v]; cbn; try done.
  case_decide; [|done]. subst. cbn. by rewrite IH.
Qed.

Lemma lcp_longest u v j :
  (j <= length u)%nat → (j <= length v)%nat → take j u = take j v → (j <= lcp u v)%nat.
Proof.
  revert v j. induction u as [|a u IH]; intros [|b v] [|j] ?? H; cbn in *; try lia.
  injection H as -> H. rewrite decide_True by done. apply le_n_S, IH; (done || lia).
Qed.

Lemma labels_eq_take_rev a b j :
  (j <= length a)%nat → (j <= length b)%nat →
  labels_eq (drop (length a - j) a) (drop (length b - j) b) ↔
  take j (rev (fold_labels a)) = take j (rev (fold_labels b)).
Proof.
  intros. rewrite !take_rev_drop by done. unfold labels_eq. split; [by intros ->|].
  intros H'. apply (f_equal (@rev _)) in H'. by rewrite !rev_involutive in H'.
Qed.

Lemma shared_labels_longest a b :
  let k := shared_labels a b in
  (k <= length a)%nat ∧ (k <= length b)%nat ∧
  labels_eq (drop (length a - k) a) (drop (length b - k) b) ∧
  ∀ j, (j <= length a)%nat → (j <= length b)%nat →
    labels_eq (drop (length a - j) a) (drop (length b - j) b) → (j <= k)%nat.
Proof.
  intros k. pose proof (lcp_le (rev (fold_labels a)) (rev (fold_labels b))) as Hle.
  rewrite !length_rev, !length_fold_labels in Hle. fold (shared_labels a b) in Hle.
  split_and!; [apply Hle|apply Hle| |].
  - apply labels_eq_take_rev; [apply Hle|apply Hle|]. apply lcp_common.
  - intros j ? ? Hj%labels_eq_take_rev; [|done|done].
    apply lcp_longest; rewrite ?length_rev, ?length_fold_labels; done.
Qed.

(** ** [elpis_name_prepend], [elpis_name_substitute], [elpis_name_is_wildcard] *)

Lemma name_prepend_spec l ls :
  labels_ok ls → bytes l →
  elpis_name_prepend l (zlen l) (name_of ls)
  = if decide (labels_ok (l :: ls)) then Ok (name_of (l :: ls)) else fail ELPIS_EFORMAT.
Proof.
  intros Hok Hl. pose proof (zlen_labels_of_ok _ Hok). pose proof (zlen_wire_pos ls).
  pose proof (zlen_nonneg l). destruct Hok as [Hf Hw].
  unfold elpis_name_prepend, ELPIS_MAX_LABEL, ELPIS_MAX_NAME, ELPIS_MAX_LABELS.
  cbn [n_len n_labels n_d name_of].
  destruct ((zlen l =? 0) || (63 <? zlen l))%bool eqn:E1; bind_step.
  { rewrite decide_False; [done|]. intros [[[? ?] _]%Forall_cons_1 _]. bool_to_prop. lia. }
  apply orb_false_iff in E1 as [E1a E1b]. bool_to_prop.
  destruct (Z.ltb_spec 255 (1 + zlen l + zlen (wire ls))) as [E2|E2]; bind_step.
  { rewrite decide_False; [done|]. intros [_ Hx]. rewrite zlen_wire_cons in Hx. lia. }
  zfalse (128 <? zlen ls + 1). bind_step.
  rewrite !rds_in_range by lia. bind_step. rewrite !slice_0_all by lia.
  rewrite decide_True.
  - unfold name_of. rewrite zlen_wire_cons, zlen_cons, wire_cons, !u8_id by zl.
    do 2 f_equal. lia.
  - split; [constructor; [split; [lia|done]|done]|]. rewrite zlen_wire_cons. lia.
Qed.

Lemma labels_suffix_zlen p s : labels_suffix p s → zlen (wire p) <= zlen (wire s) ∧ zlen p <= zlen s.
Proof.
  intros H. pose proof (labels_suffix_boundary _ _ H).
  pose proof (zlen_nonneg (enc_labels (take (length s - length p) s))). destruct H. zl.
Qed.

Lemma name_substitute_spec n o t :
  labels_ok n → labels_ok o → labels_ok t →
  elpis_name_substitute (name_of n) (name_of o) (name_of t)
  = if decide (labels_suffix o n) then
      let r := take (length n - length o) n ++ t in
      if decide (labels_ok r) then Ok (name_of r) else fail ELPIS_EFORMAT
    else fail ELPIS_EFORMAT.
Proof.
  intros Hn Ho Ht. unfold elpis_name_substitute.
  rewrite name_is_subdomain_spec by done. bind_step.
  case_bool_decide as Hs; bind_step; [|by rewrite decide_False].
  rewrite (decide_True (P := labels_suffix o n)) by done. cbn zeta.
  pose proof (labels_suffix_boundary _ _ Hs) as Hb. pose proof (labels_suffix_zlen _ _ Hs).
  set (k := (length n - length o)%nat) in *.
  pose proof (zlen_labels_of_ok _ Hn). pose proof (zlen_labels_of_ok _ Ho).
  pose proof (zlen_labels_of_ok _ Ht). pose proof (zlen_wire_pos t). pose proof (zlen_wire_pos o).
  unfold ELPIS_MAX_NAME, ELPIS_MAX_LABELS. cbn [n_len n_labels n_d name_of].
  assert (Hw : zlen (wire (take k n ++ t)) = zlen (wire n) - zlen (wire o) + zlen (wire t))
    by (rewrite wire_app, zlen_app; lia).
  destruct (Z.ltb_spec 255 (zlen (wire n) - zlen (wire o) + zlen (wire t))) as [E|E]; bind_step.
  { rewrite decide_False; [done|]. intros [_ Hx]. lia. }
  assert (Hr : labels_ok (take k n ++ t)).
  { split; [|lia]. apply Forall_app. split; [apply Forall_take, Hn|apply Ht]. }
  rewrite decide_True by done.
  pose proof (zlen_labels_of_ok _ Hr) as Hrl. rewrite zlen_app, zlen_take in Hrl.
  assert (Z.min (Z.of_nat k) (zlen n) = zlen n - zlen o) as Hk by zl. rewrite Hk in Hrl.
  rewrite (u32_id (zlen n - zlen o)), u32_id by lia.
  zfalse (128 <? zlen n - zlen o + zlen t). bind_step.
  rewrite !rds_in_range by lia. bind_step. rewrite (slice_0_all (wire t)) by lia.
  unfold name_of. rewrite Hw, zlen_app, zlen_take, Hk, !u8_id by zl.
  do 2 f_equal. rewrite wire_app. f_equal. rewrite <- Hb.
  rewrite <- (take_drop k n) at 1. rewrite wire_app. apply slice_0_app.
Qed.

Lemma name_is_wildcard_spec ls :
  labels_ok ls →
  elpis_name_is_wildcard (name_of ls) = Ok (bool_decide (head ls = Some [42])).
Proof.
  intros [Hf Hw]. unfold elpis_name_is_wildcard. cbn [n_len n_d name_of].
  destruct ls as [|l ls].
  { done. }
  apply Forall_cons_1 in Hf as [[Hl _] Hf]. rewrite zlen_wire_cons, wire_cons.
  pose proof (zlen_wire_pos ls).
  destruct (Z.leb_spec 3 (1 + zlen l + zlen (wire ls))); bind_step; [|lia].
  change (rd (enc_label l ++ wire ls) 0) with (Ok (zlen l)). bind_step.
  destruct l as [|b l]; [cbn in Hl; zl|].
  destruct (Z.eqb_spec (zlen (b :: l)) 1) as [H1|H1]; bind_step.
  - destruct l; [|zl]. change (rd (enc_label [b] ++ wire ls) 1) with (Ok b). bind_step.
    f_equal. apply eq_true_iff_eq. rewrite Z.eqb_eq, bool_decide_eq_true. cbn.
    split; [by intros ->|by intros [= ->]].
  - rewrite bool_decide_eq_false_2; [done|]. cbn. intros [= -> ->]. done.
Qed.

(** ** Properties *)

(** The two ancestor tests of the program, [elpis_name_covers] (drop
    labels, then compare) and [elpis_name_is_subdomain] (walk label boundaries,
    then compare), agree on all well-formed names, and both decide whether the
    labels of one are a suffix of the other's, up to case. *)
Theorem covers_is_subdomain_agree (zone name : elpis_name_t) :
  wf_name zone → wf_name name →
  elpis_name_covers zone name = elpis_name_is_subdomain name zone ∧
  ∀ z n, zone = name_of z → name = name_of n → labels_ok z → labels_ok n →
    elpis_name_is_subdomain name zone = Ok (bool_decide (labels_suffix z n)).
Proof.
  intros (z & Hz & ->) (n & Hn & ->). split.
  - by rewrite name_covers_spec, name_is_subdomain_spec.
  - intros z' n' -> -> ??. by apply name_is_subdomain_spec.
Qed.

Lemma covers_is_subdomain_agree_witness :
  elpis_name_covers (name_of [[67]]) (name_of [[97];[99]])
  = elpis_name_is_subdomain (name_of [[97];[99]]) (name_of [[67]]) ∧
  ∀ z n, name_of [[67]] = name_of z → name_of [[97];[99]] = name_of n → labels_ok z → labels_ok n →
    elpis_name_is_subdomain (name_of [[97];[99]]) (name_of [[67]]) = Ok (bool_decide (labels_suffix z n)).
Proof.
  apply (covers_is_subdomain_agree (name_of [[67]]) (name_of [[97];[99]]));
    [exists [[67]]|exists [[97];[99]]]; (split; [by_compute|reflexivity]).
Defined.

(** DNAME substitution (RFC 6672): when [n] is at or below [owner], its
    remaining labels are put in front of [target]; the result is well formed,
    and the only other outcomes are EFORMAT for a name outside [owner] and
    EFORMAT (the caller's YXDOMAIN) when the result would exceed 255 octets. *)
Theorem name_substitute_correct (n owner target : list (list Z)) :
  labels_ok n → labels_ok owner → labels_ok target →
  let r := take (length n - length owner) n ++ target in
  elpis_name_substitute (name_of n) (name_of owner) (name_of target)
  = if bool_decide (labels_suffix owner n) && (zlen (wire r) <=? 255)
    then Ok (name_of r) else fail ELPIS_EFORMAT.
Proof.
  intros Hn Ho Ht r. rewrite name_substitute_spec by done. cbn zeta. fold r.
  assert (Hr : Forall label_ok r)
    by (apply Forall_app; split; [apply Forall_take, Hn|apply Ht]).
  destruct (decide (labels_suffix owner n)) as [Hs|Hs];
    [rewrite bool_decide_eq_true_2 by done|by rewrite bool_decide_eq_false_2].
  cbn [andb]. destruct (Z.leb_spec (zlen (wire r)) 255).
  - by rewrite decide_True.
  - rewrite decide_False; [done|]. intros [_ ?]. lia.
Qed.

Lemma name_substitute_correct_witness :
  elpis_name_substitute (name_of [[97];[98];[99]]) (name_of [[66];[99]]) (name_of [[120]])
  = if bool_decide (labels_suffix [[66];[99]] [[97];[98];[99]])
       && (zlen (wire (take 1 [[97];[98];[99]] ++ [[120]])) <=? 255)
    then Ok (name_of (take 1 [[97];[98];[99]] ++ [[120]])) else fail ELPIS_EFORMAT.
Proof.
  apply (name_substitute_correct [[97];[98];[99]] [[66];[99]] [[120]]); by_compute.
Defined.

(** [elpis_name_common_labels] returns the length of the longest common
    run of trailing labels, compared without case, for any two names (the loops
    that trim and climb always end). *)
Theorem common_labels_longest (a b : list (list Z)) :
  labels_ok a → labels_ok b →
  ∃ k : nat, elpis_name_common_labels (name_of a) (name_of b) = Ok (Z.of_nat k) ∧
    (k <= length a)%nat ∧ (k <= length b)%nat ∧
    labels_eq (drop (length a - k) a) (drop (length b - k) b) ∧
    ∀ j : nat, (j <= length a)%nat → (j <= length b)%nat →
      labels_eq (drop (length a - j) a) (drop (length b - j) b) → (j <= k)%nat.
Proof.
  intros Ha Hb. exists (shared_labels a b). split; [by apply name_common_labels_spec|].
  apply shared_labels_longest.
Qed.

Lemma common_labels_longest_witness :
  ∃ k : nat, elpis_name_common_labels (name_of [[97];[99]]) (name_of [[98];[67]]) = Ok (Z.of_nat k) ∧
    (k <= 2)%nat ∧ (k <= 2)%nat ∧
    labels_eq (drop (2 - k) [[97];[99]]) (drop (2 - k) [[98];[67]]) ∧
    ∀ j : nat, (j <= 2)%nat → (j <= 2)%nat →
      labels_eq (drop (2 - j) [[97];[99]]) (drop (2 - j) [[98];[67]]) → (j <= k)%nat.
Proof. apply (common_labels_longest [[97];[99]] [[98];[67]]); by_compute. Defined.

(** Case folding, equality and hashing fit together: folding a name gives a
    well-formed name equal to it, [elpis_name_eq] is equality of folded names,
    and equal names have the same hash. *)
Theorem name_eq_lower_hash (a b : list (list Z)) :
  labels_ok a → labels_ok b →
  elpis_name_lower (name_of a) = Ok (name_of (fold_labels a)) ∧ labels_ok (fold_labels a) ∧
  elpis_name_eq (name_of a) (name_of b) = Ok (bool_decide (fold_labels a = fold_labels b)) ∧
  (elpis_name_eq (name_of a) (name_of b) = Ok true →
   ∃ h, elpis_name_hash (name_of a) = Ok h ∧ elpis_name_hash (name_of b) = Ok h).
Proof.
  intros Ha Hb. split_and!.
  - by apply name_lower_spec.
  - by apply labels_ok_fold.
  - by apply name_eq_spec.
  - rewrite name_eq_spec by done. intros [= He]. apply bool_decide_eq_true in He.
    by apply name_hash_spec.
Qed.

Lemma name_eq_lower_hash_witness :
  elpis_name_lower (name_of [[87;119]]) = Ok (name_of (fold_labels [[87;119]])) ∧
  labels_ok (fold_labels [[87;119]]) ∧
  elpis_name_eq (name_of [[87;119]]) (name_of [[119;87]])
  = Ok (bool_decide (fold_labels [[87;119]] = fold_labels [[119;87]])) ∧
  (elpis_name_eq (name_of [[87;119]]) (name_of [[119;87]]) = Ok true →
   ∃ h, elpis_name_hash (name_of [[87;119]]) = Ok h ∧ elpis_name_hash (name_of [[119;87]]) = Ok h).
Proof. apply (name_eq_lower_hash [[87;119]] [[119;87]]); by_compute. Defined.
