(* ===== verification/NameOrder.v ===== *)
(** The DNSSEC canonical order of names, RFC 4034 section 6.1:
    [elpis_name_canon_cmp] of src/dns/name.c computes a total order. *)
From stdpp Require Import base list numbers.
From Stdlib Require Import ZArith Lia.
From S2P Require Import Prelude Bytes Simd Name NameOps.

(** ** The code *)

(** The loop that fills [ao]: the offset of every label, leftmost first. *)
Fixpoint label_offsets (fuel : nat) (n : elpis_name_t) (i an : Z) : res (list Z) :=
  match fuel with
  | O => Stuck OutOfFuel
  | S f =>
    if i <? n_len n then
      c ← rd (n_d n) i;
      if negb (c =? 0) && (an <? ELPIS_MAX_LABELS) then
        rest ← label_offsets f n (i + (1 + c)) (an + 1);
        Ok (i :: rest)
      else Ok []
    else Ok []
  end.

(** [for (j = 0; j < m; j++)], [k] turns left. *)
Fixpoint cmp_octets (k : nat) (a b : list Z) (pa pb j : Z) : res (option Z) :=
  match k with
  | O => Ok None
  | S k =>
    ca ← rd a (pa + (1 + j)); cb ← rd b (pb + (1 + j));
    let ca := lower_byte ca in
    let cb := lower_byte cb in
    if negb (ca =? cb) then Ok (Some (if ca <? cb then -1 else 1))
    else cmp_octets k a b pa pb (j + 1)
  end.

(** [for (k = 0; k < an && k < bn; k++)], and the counts after it. *)
Fixpoint cmp_from_right (fuel : nat) (a b ao bo : list Z) (k : Z) : res Z :=
  match fuel with
  | O => Stuck OutOfFuel
  | S f =>
    if (k <? zlen ao) && (k <? zlen bo) then
      pa ← rd ao (zlen ao - 1 - k); pb ← rd bo (zlen bo - 1 - k);
      la ← rd a pa; lb ← rd b pb;
      let m := if la <? lb then la else lb in
      r ← cmp_octets (Z.to_nat m) a b pa pb 0;
      match r with
      | Some v => Ok v
      | None =>
        if negb (la =? lb) then Ok (if la <? lb then -1 else 1)
        else cmp_from_right f a b ao bo (k + 1)
      end
    else if zlen ao =? zlen bo then Ok 0
    else Ok (if zlen ao <? zlen bo then -1 else 1)
  end.

Definition elpis_name_canon_cmp (a b : elpis_name_t) : res Z :=
  ao ← label_offsets 256 a 0 0;
  bo ← label_offsets 256 b 0 0;
  cmp_from_right 256 (n_d a) (n_d b) ao bo 0.

(** ** Total comparison functions *)

(** What a three-way comparison promises. *)
Class TotalCmp {A} (cmp : A → A → Z) : Prop := {
  cmp_range x y : cmp x y = -1 ∨ cmp x y = 0 ∨ cmp x y = 1;
  cmp_eq x y : cmp x y = 0 ↔ x = y;
  cmp_opp x y : cmp y x = - cmp x y;
  cmp_trans x y z : cmp x y < 0 → cmp y z < 0 → cmp x z < 0
}.

Definition zcmp (x y : Z) : Z := if x =? y then 0 else if x <? y then -1 else 1.

#[export] Instance zcmp_total : TotalCmp zcmp.
Proof.
  split; unfold zcmp; intros; repeat (case_match; bool_to_prop); lia.
Qed.

Lemma zcmp_lt x y : x < y → zcmp x y = -1.
Proof. intros. unfold zcmp. repeat (case_match; bool_to_prop); lia. Qed.
Lemma zcmp_gt x y : y < x → zcmp x y = 1.
Proof. intros. unfold zcmp. repeat (case_match; bool_to_prop); lia. Qed.
Lemma zcmp_shift x y z : zcmp (z + x) (z + y) = zcmp x y.
Proof. unfold zcmp. repeat (case_match; bool_to_prop); lia. Qed.

(** Lexicographic: a proper prefix sorts first. *)
Fixpoint lexcmp {A} (cmp : A → A → Z) (a b : list A) : Z :=
  match a, b with
  | [], [] => 0
  | [], _ :: _ => -1
  | _ :: _, [] => 1
  | x :: a', y :: b' => if cmp x y =? 0 then lexcmp cmp a' b' else cmp x y
  end.

Section lexcmp.
Context {A} (cmp : A → A → Z) `{!TotalCmp cmp}.

Lemma cmp_refl x : cmp x x = 0.
  Proof. by apply cmp_eq. Qed.

Lemma lexcmp_range a b : lexcmp cmp a b = -1 ∨ lexcmp cmp a b = 0 ∨ lexcmp cmp a b = 1.
  Proof.
    revert b. induction a as [|x a IH]; intros [|y b]; cbn; auto.
    case_match; [apply IH|apply cmp_range].
  Qed.

Lemma lexcmp_eq a b : lexcmp cmp a b = 0 ↔ a = b.
  Proof.
    revert b. induction a as [|x a IH]; intros [|y b]; cbn; try done.
    destruct (Z.eqb_spec (cmp x y) 0) as [Hx|Hx].
    - apply cmp_eq in Hx as ->. rewrite IH. split; [by intros ->|by intros [= ->]].
    - split; [done|]. intros [= -> _]. by rewrite cmp_refl in Hx.
  Qed.

Lemma lexcmp_opp a b : lexcmp cmp b a = - lexcmp cmp a b.
  Proof.
    revert b. induction a as [|x a IH]; intros [|y b]; cbn; try done.
    rewrite (cmp_opp x y). destruct (Z.eqb_spec (cmp x y) 0) as [->|]; cbn.
    - apply IH.
    - by rewrite (proj2 (Z.eqb_neq (- cmp x y) 0)) by lia.
  Qed.

Lemma lexcmp_trans a b c : lexcmp cmp a b < 0 → lexcmp cmp b c < 0 → lexcmp cmp a c < 0.
  Proof.
    revert b c. induction a as [|x a IH]; intros [|y b] [|z c]; cbn; try (done || lia).
    destruct (Z.eqb_spec (cmp x y) 0) as [Hxy|Hxy].
    - apply cmp_eq in Hxy as ->. destruct (Z.eqb_spec (cmp y z) 0); [apply IH|lia].
    - destruct (Z.eqb_spec (cmp y z) 0) as [Hyz|Hyz].
      + apply cmp_eq in Hyz as ->. destruct (Z.eqb_spec (cmp x z) 0); lia.
      + intros H1 H2. pose proof (cmp_trans _ _ _ H1 H2).
        destruct (Z.eqb_spec (cmp x z) 0); lia.
  Qed.

#[export] Instance lexcmp_total : TotalCmp (lexcmp cmp).
  Proof. split; eauto using lexcmp_range, lexcmp_eq, lexcmp_opp, lexcmp_trans. Qed.

  (** A proper extension sorts after. *)
Lemma lexcmp_prefix a b : b ≠ [] → lexcmp cmp a (a ++ b) = -1.
  Proof.
    intros Hb. induction a as [|x a IH]; cbn; [by destruct b|]. by rewrite cmp_refl.
  Qed.
End lexcmp.

(** The specification: labels from the right, each as folded octets. *)
Definition octets_cmp : list Z → list Z → Z := lexcmp zcmp.
Definition canon_spec (a b : list (list Z)) : Z :=
  lexcmp octets_cmp (rev (fold_labels a)) (rev (fold_labels b)).

#[export] Instance octets_cmp_total : TotalCmp octets_cmp.
Proof. apply _. Qed.

(** [memcmp(a, b, n)], up to the sign. *)
Definition memcmp (a b : list Z) (n : Z) : res Z :=
  x ← rds a 0 n; y ← rds b 0 n; Ok (octets_cmp x y).

(** The comparison two files share: [memcmp] over the shorter length, and the
    lengths when that finds no difference. *)
Definition memcmp_then_len (a : list Z) (alen : Z) (b : list Z) (blen : Z) : res Z :=
  let n := if alen <? blen then alen else blen in
  c ← memcmp a b n;
  Ok (if negb (c =? 0) then c
      else if alen =? blen then 0
      else if alen <? blen then -1 else 1).

Lemma octets_cmp_common x : ∀ y,
  let c := octets_cmp (take (length y) x) (take (length x) y) in
  c = 0 ∧ octets_cmp x y = zcmp (zlen x) (zlen y) ∨ c ≠ 0 ∧ octets_cmp x y = c.
Proof.
  induction x as [|c x IH]; intros [|d y]; [by left|left|left|].
  - split; [done|]. unfold octets_cmp, zcmp. rewrite (@zlen_nil Z), zlen_cons. cbn [lexcmp]. pose proof (zlen_nonneg y).
    repeat case_match; bool_to_prop; lia.
  - split; [done|]. unfold octets_cmp, zcmp. rewrite (@zlen_nil Z), zlen_cons. cbn [lexcmp]. pose proof (zlen_nonneg x).
    repeat case_match; bool_to_prop; lia.
  - cbn [length take]. unfold octets_cmp in *. cbn [lexcmp]. destruct (Z.eqb_spec (zcmp c d) 0); [|right; done].
    destruct (IH y) as [[H1 H2]|[H1 H2]]; [left|right; done]. split; [done|]. rewrite H2, !zlen_cons. unfold zcmp.
    repeat case_match; bool_to_prop; lia.
Qed.

Lemma memcmp_then_len_spec a n b m :
  0 <= n <= zlen a → 0 <= m <= zlen b →
  memcmp_then_len a n b m = Ok (octets_cmp (slice a 0 n) (slice b 0 m)).
Proof.
  intros Ha Hb. unfold memcmp_then_len, memcmp. pose proof (octets_cmp_common (slice a 0 n) (slice b 0 m)) as Hcmp.
  set (k := if n <? m then n else m). assert (k = Z.min n m) as Hk by (unfold k; destruct (Z.ltb_spec n m); lia). clearbody k. subst k.
  rewrite !rds_in_range by lia. bind_step.
  cbn zeta in Hcmp. rewrite !length_slice in Hcmp by lia.
  assert (take (Z.to_nat m) (slice a 0 n) = slice a 0 (Z.min n m)) as E1 by (unfold slice; cbn; rewrite take_take; f_equal; lia).
  assert (take (Z.to_nat n) (slice b 0 m) = slice b 0 (Z.min n m)) as E2 by (unfold slice; cbn; rewrite take_take; f_equal; lia).
  rewrite E1, E2 in Hcmp. f_equal. destruct (Z.eqb_spec (octets_cmp (slice a 0 (Z.min n m)) (slice b 0 (Z.min n m))) 0) as [E|E]; cbn [negb].
  - destruct Hcmp as [[_ ->]|[? _]]; [|done]. rewrite !zlen_slice by lia. unfold zcmp. repeat case_match; bool_to_prop; lia.
  - by destruct Hcmp as [[? _]|[_ ->]].
Qed.

(** ** The code computes the specification *)

Definition offsets_of (pre ls : list (list Z)) : list Z :=
  map (fun k => zlen (enc_labels (pre ++ take k ls))) (seq 0 (length ls)).

Lemma offsets_of_cons pre l ls :
  offsets_of pre (l :: ls) = zlen (enc_labels pre) :: offsets_of (pre ++ [l]) ls.
Proof.
  unfold offsets_of. cbn [length seq map take]. rewrite app_nil_r. f_equal.
  rewrite <- seq_shift, map_map. apply map_ext. intros k. cbn [take].
  by rewrite <- app_assoc.
Qed.

Lemma label_offsets_spec ls : ∀ fuel pre,
  labels_ok (pre ++ ls) → (length ls < fuel)%nat →
  label_offsets fuel (name_of (pre ++ ls)) (zlen (enc_labels pre)) (zlen pre)
  = Ok (offsets_of pre ls).
Proof.
  induction ls as [|l ls IH]; intros fuel pre Hok Hf;
    (destruct fuel as [|fuel]; [cbn in Hf; lia|]); cbn [label_offsets]; name_fields.
  - rewrite app_nil_r. rewrite zlen_wire. ztrue (zlen (enc_labels pre) <? zlen (enc_labels pre) + 1).
    unfold wire. rewrite rd_app_r, Z.sub_diag by lia. done.
  - pose proof (zlen_labels_of_ok _ Hok) as Hb. rewrite zlen_app, zlen_cons in Hb.
    pose proof (proj1 Hok) as Hfo. apply Forall_app in Hfo as [_ Hfo].
    apply Forall_cons_1 in Hfo as [[? _] _].
    rewrite wire_app, zlen_app. pose proof (zlen_wire_pos (l :: ls)).
    ztrue (zlen (enc_labels pre) <? zlen (enc_labels pre) + zlen (wire (l :: ls))).
    rewrite <- wire_app, rd_wire_label. bind_step.
    pose proof (zlen_nonneg ls). unfold ELPIS_MAX_LABELS.
    replace (zlen l =? 0) with false by lia. ztrue (zlen pre <? 128). cbn [negb andb].
    specialize (IH fuel (pre ++ [l])). rewrite <- !app_assoc in IH. cbn [app] in IH.
    rewrite enc_labels_app, enc_labels_single, !zlen_app, zlen_enc_label in IH.
    change (zlen [l]) with 1 in IH. cbn in Hf.
    rewrite IH by (done || lia). bind_step. by rewrite offsets_of_cons.
Qed.

(** The octet loop over two labels laid out in their names. *)
Lemma cmp_octets_spec l1 : ∀ l2 a b p1 p2 q1 q2 pa pb j,
  a = p1 ++ l1 ++ q1 → b = p2 ++ l2 ++ q2 → zlen p1 = pa + (1 + j) → zlen p2 = pb + (1 + j) →
  ∃ r, cmp_octets (Nat.min (length l1) (length l2)) a b pa pb j = Ok r ∧
    match r with
    | Some v => v ≠ 0 ∧ octets_cmp (map lower_byte l1) (map lower_byte l2) = v
    | None => octets_cmp (map lower_byte l1) (map lower_byte l2) = zcmp (zlen l1) (zlen l2)
    end.
Proof.
  induction l1 as [|x l1 IH]; intros l2 a b p1 p2 q1 q2 pa pb j Ha Hb Hp1 Hp2.
  { exists None. split; [done|].
    destruct l2 as [|y l2]; [done|]. cbn [map octets_cmp lexcmp].
    symmetry. apply zcmp_lt. zl. }
  destruct l2 as [|y l2].
  { exists None. split; [done|]. cbn [map octets_cmp lexcmp].
    symmetry. apply zcmp_gt. zl. }
  cbn [length Nat.min cmp_octets].
  assert (rd a (pa + (1 + j)) = Ok x) as -> by (subst a; apply (rd_mid_eq _ _ _ _ 0); [lia|done]).
  bind_step.
  assert (rd b (pb + (1 + j)) = Ok y) as -> by (subst b; apply (rd_mid_eq _ _ _ _ 0); [lia|done]).
  bind_step. cbn [map]. unfold octets_cmp. cbn [lexcmp]. fold octets_cmp.
  destruct (Z.eqb_spec (lower_byte x) (lower_byte y)) as [Hxy|Hxy]; bind_step.
  - destruct (IH l2 a b (p1 ++ [x]) (p2 ++ [y]) q1 q2 pa pb (j + 1)) as (r & -> & Hr).
    + by rewrite <- app_assoc.
    + by rewrite <- app_assoc.
    + rewrite zlen_app. change (zlen [x]) with 1. lia.
    + rewrite zlen_app. change (zlen [y]) with 1. lia.
    + exists r. split; [done|]. rewrite Hxy, cmp_refl by apply _. cbn [Z.eqb].
      destruct r; [done|]. by rewrite !zlen_cons, zcmp_shift.
  - exists (Some (if lower_byte x <? lower_byte y then -1 else 1)). split; [done|].
    unfold zcmp. rewrite (proj2 (Z.eqb_neq _ _) Hxy). by destruct (lower_byte x <? lower_byte y).
Qed.

Lemma offsets_lookup ls k :
  (k < length ls)%nat → rd (offsets_of [] ls) (Z.of_nat k) = Ok (zlen (enc_labels (take k ls))).
Proof.
  intros Hk. apply rd_lookup; [lia|]. rewrite Nat2Z.id. unfold offsets_of.
  change (map ?f ?l) with (f <$> l). rewrite list_lookup_fmap, lookup_seq_lt by done. done.
Qed.

Lemma zlen_offsets ls : zlen (offsets_of [] ls) = zlen ls.
Proof. unfold offsets_of, zlen. by rewrite length_map, length_seq. Qed.

Lemma drop_rev_fold ls k l :
  ls !! (length ls - S k)%nat = Some l → (k < length ls)%nat →
  drop k (rev (fold_labels ls)) = map lower_byte l :: drop (S k) (rev (fold_labels ls)).
Proof.
  intros Hl Hk. apply drop_S. rewrite rev_alt. unfold fold_labels.
  change (rev_append ?x []) with (reverse x).
  change (map (map lower_byte) ls) with (map lower_byte <$> ls).
  rewrite <- fmap_reverse, list_lookup_fmap, reverse_lookup by done. by rewrite Hl.
Qed.

Lemma wire_split ls i l :
  ls !! i = Some l →
  wire ls = (enc_labels (take i ls) ++ [zlen l]) ++ l ++ wire (drop (S i) ls).
Proof.
  intros Hl. rewrite <- (take_drop i ls) at 1. rewrite wire_app, (drop_S ls l i Hl), wire_cons.
  by rewrite <- app_assoc.
Qed.

Lemma min_length_Z (l1 l2 : list Z) :
  Z.to_nat (if zlen l1 <? zlen l2 then zlen l1 else zlen l2) = Nat.min (length l1) (length l2).
Proof. destruct (Z.ltb_spec (zlen l1) (zlen l2)); zl. Qed.

Lemma cmp_from_right_spec a b fuel : ∀ k,
  (k <= length a)%nat → (k <= length b)%nat → (length a - k < fuel)%nat →
  cmp_from_right fuel (wire a) (wire b) (offsets_of [] a) (offsets_of [] b) (Z.of_nat k)
  = Ok (lexcmp octets_cmp (drop k (rev (fold_labels a))) (drop k (rev (fold_labels b)))).
Proof.
  induction fuel as [|fuel IH]; intros k Ha Hb Hf; [lia|]. cbn [cmp_from_right].
  rewrite !zlen_offsets.
  assert (La : length (rev (fold_labels a)) = length a) by (by rewrite length_rev, length_fold_labels).
  assert (Lb : length (rev (fold_labels b)) = length b) by (by rewrite length_rev, length_fold_labels).
  destruct ((Z.of_nat k <? zlen a) && (Z.of_nat k <? zlen b))%bool eqn:E.
  - bool_to_prop. set (i := (length a - S k)%nat). set (j := (length b - S k)%nat).
    replace (zlen a - 1 - Z.of_nat k) with (Z.of_nat i) by zl.
    replace (zlen b - 1 - Z.of_nat k) with (Z.of_nat j) by zl.
    rewrite !offsets_lookup by zl. bind_step.
    destruct (lookup_lt_is_Some_2 a i) as [l1 Hl1]; [zl|].
    destruct (lookup_lt_is_Some_2 b j) as [l2 Hl2]; [zl|].
    rewrite (rd_wire_at a i l1 Hl1), (rd_wire_at b j l2 Hl2). bind_step.
    rewrite min_length_Z.
    destruct (cmp_octets_spec l1 l2 (wire a) (wire b) _ _ _ _ (zlen (enc_labels (take i a)))
      (zlen (enc_labels (take j b))) 0 (wire_split a i l1 Hl1) (wire_split b j l2 Hl2))
      as (r & -> & Hr); [by rewrite zlen_app|by rewrite zlen_app|]. bind_step.
    rewrite (drop_rev_fold a k l1 Hl1), (drop_rev_fold b k l2 Hl2) by zl.
    cbn [lexcmp]. destruct r as [v|].
    + destruct Hr as [Hv ->]. by rewrite (proj2 (Z.eqb_neq _ _) Hv).
    + rewrite Hr. unfold zcmp. destruct (Z.eqb_spec (zlen l1) (zlen l2)); bind_step.
      * replace (Z.of_nat k + 1) with (Z.of_nat (S k)) by lia. apply IH; zl.
      * by destruct (zlen l1 <? zlen l2).
  - assert (k = length a ∨ k = length b) as Hk by (apply andb_false_iff in E; zl).
    destruct (Z.eqb_spec (zlen a) (zlen b)) as [He|He].
    { rewrite !drop_ge by zl. done. }
    destruct (Z.ltb_spec (zlen a) (zlen b)).
    + rewrite (drop_ge (rev (fold_labels a))) by zl.
      destruct (drop k (rev (fold_labels b))) eqn:Eb; [|done].
      apply (f_equal length) in Eb. rewrite length_drop in Eb. cbn in Eb. zl.
    + rewrite (drop_ge (rev (fold_labels b))) by zl.
      destruct (drop k (rev (fold_labels a))) eqn:Ea; [|done].
      apply (f_equal length) in Ea. rewrite length_drop in Ea. cbn in Ea. zl.
Qed.

Lemma name_canon_cmp_spec a b :
  labels_ok a → labels_ok b →
  elpis_name_canon_cmp (name_of a) (name_of b) = Ok (canon_spec a b).
Proof.
  intros Ha Hb. pose proof (zlen_labels_of_ok _ Ha). pose proof (zlen_labels_of_ok _ Hb).
  unfold elpis_name_canon_cmp.
  pose proof (label_offsets_spec a 256 [] Ha ltac:(zl)) as E1.
  pose proof (label_offsets_spec b 256 [] Hb ltac:(zl)) as E2.
  cbn [app] in E1, E2. change (zlen (enc_labels [])) with 0 in *. change (zlen (@nil (list Z))) with 0 in *.
  rewrite E1. bind_step. rewrite E2. bind_step. name_fields.
  apply (cmp_from_right_spec a b 256 0); zl.
Qed.

Lemma canon_spec_eq a b : canon_spec a b = 0 ↔ labels_eq a b.
Proof.
  unfold canon_spec, labels_eq. rewrite lexcmp_eq by apply _. split; [|by intros ->].
  intros H. apply (f_equal (@rev _)) in H. by rewrite !rev_involutive in H.
Qed.

Lemma canon_spec_opp a b : canon_spec b a = - canon_spec a b.
Proof. apply lexcmp_opp, _. Qed.

Lemma canon_spec_trans a b c : canon_spec a b < 0 → canon_spec b c < 0 → canon_spec a c < 0.
Proof. apply lexcmp_trans, _. Qed.

(** A name sorts before everything below it. *)
Lemma canon_spec_below p s :
  labels_suffix p s → (length p < length s)%nat → canon_spec p s = -1.
Proof.
  intros [Hl He] Hlt. unfold canon_spec. unfold labels_eq in He.
  rewrite <- (take_drop (length s - length p) s). unfold fold_labels. rewrite map_app.
  fold (fold_labels (drop (length s - length p) s)). rewrite He, rev_app_distr.
  apply lexcmp_prefix; [apply _|]. intros Hnil. apply (f_equal length) in Hnil.
  rewrite length_rev, length_map, length_take in Hnil. cbn in Hnil. lia.
Qed.

(** ** Properties *)

(** [elpis_name_canon_cmp] is the canonical order of RFC 4034: it compares
    the case-folded labels lexicographically from the right, the octets of each
    label likewise, a shorter label or name first; and it is a total order on
    names up to case, in which a zone sorts before everything below it. *)
Theorem canon_cmp_total_order (a b c : list (list Z)) :
  labels_ok a → labels_ok b → labels_ok c →
  let cmp x y := elpis_name_canon_cmp (name_of x) (name_of y) in
  cmp a b = Ok (canon_spec a b) ∧
  (cmp a b = Ok 0 ↔ labels_eq a b) ∧
  (∀ v, cmp a b = Ok v → cmp b a = Ok (- v)) ∧
  (cmp a b = Ok (-1) → cmp b c = Ok (-1) → cmp a c = Ok (-1)) ∧
  (labels_suffix a b → (length a < length b)%nat → cmp a b = Ok (-1)).
Proof.
  intros Ha Hb Hc. cbn zeta beta. rewrite !name_canon_cmp_spec by done. split_and!.
  - done.
  - rewrite <- canon_spec_eq. split; [by intros [=]|by intros ->].
  - intros v [= <-]. by rewrite canon_spec_opp.
  - intros [= H1] [= H2]. pose proof (canon_spec_trans a b c ltac:(lia) ltac:(lia)) as H3.
    pose proof (lexcmp_range octets_cmp (rev (fold_labels a)) (rev (fold_labels c))) as H4.
    fold (canon_spec a c) in H4. f_equal. lia.
  - intros. by rewrite canon_spec_below.
Qed.

Lemma canon_cmp_total_order_witness :
  let cmp x y := elpis_name_canon_cmp (name_of x) (name_of y) in
  cmp [[99]] [[97];[67]] = Ok (canon_spec [[99]] [[97];[67]]) ∧
  (cmp [[99]] [[97];[67]] = Ok 0 ↔ labels_eq [[99]] [[97];[67]]) ∧
  (∀ v, cmp [[99]] [[97];[67]] = Ok v → cmp [[97];[67]] [[99]] = Ok (- v)) ∧
  (cmp [[99]] [[97];[67]] = Ok (-1) → cmp [[97];[67]] [[122];[99]] = Ok (-1) →
   cmp [[99]] [[122];[99]] = Ok (-1)) ∧
  (labels_suffix [[99]] [[97];[67]] → (length [[99]] < length [[97];[67]])%nat →
   cmp [[99]] [[97];[67]] = Ok (-1)).
Proof. apply (canon_cmp_total_order [[99]] [[97];[67]] [[122];[99]]); by_compute. Defined.
