(* ===== verification/NameText.v ===== *)
(** Presentation format (RFC 1035 section 5.1): [elpis_name_from_text] and
    [elpis_name_to_text] of src/dns/name.c.  A C string is the list of its
    characters as [uint8_t] values, without the terminating NUL. *)
From stdpp Require Import base list numbers.
From Stdlib Require Import ZArith Lia.
From S2P Require Import Prelude Bytes Simd Name NameOps.

(** ** The code *)

Definition is_digit (c : Z) : bool := (ch_0 <=? c) && (c <=? ch_9).

(** The [\DDD] and [\X] escapes after a backslash: the octet meant and the
    text after it. *)
Definition from_text_escape (s : list Z) : res (Z * list Z) :=
  match s with
  | [] => fail ELPIS_EFORMAT
  | c0 :: s1 =>
    if is_digit c0 then
      match s1 with
      | c1 :: c2 :: s3 =>
        if is_digit c1 && is_digit c2 then
          let v := (c0 - ch_0) * 100 + (c1 - ch_0) * 10 + (c2 - ch_0) in
          if 255 <? v then fail ELPIS_EFORMAT else Ok (v, s3)
        else fail ELPIS_EFORMAT
      | _ => fail ELPIS_EFORMAT
      end
    else Ok (c0, s1)
  end.

(** [while ( *s != '\0')]; [d] is [n->d[0..out)]. *)
Fixpoint from_text_loop (fuel : nat) (s d : list Z) (lenpos labels : Z) : res (list Z * Z) :=
  match fuel with
  | O => Stuck OutOfFuel
  | S f =>
    match s with
    | [] => Ok (d, lenpos)
    | ch :: s =>
      if ch =? ch_dot then
        v ← rd d lenpos;
        _ ← guard_err (v =? 0) ELPIS_EFORMAT ELPIS_DROP_NONE;
        let labels := labels + 1 in
        _ ← guard_err (ELPIS_MAX_LABELS <? labels) ELPIS_EFORMAT ELPIS_DROP_NONE;
        match s with
        | [] => Ok (d, lenpos)
        | _ =>
          _ ← guard_err (ELPIS_MAX_NAME <=? zlen d + 1) ELPIS_EFORMAT ELPIS_DROP_NONE;
          from_text_loop f s (d ++ [0]) (zlen d) labels
        end
      else
        '(ch, s) ← (if ch =? ch_backslash then from_text_escape s else Ok (ch, s));
        v ← rd d lenpos;
        _ ← guard_err (ELPIS_MAX_LABEL <=? v) ELPIS_EFORMAT ELPIS_DROP_NONE;
        _ ← guard_err (ELPIS_MAX_NAME <? zlen d + 2) ELPIS_EFORMAT ELPIS_DROP_NONE;
        d ← blit (d ++ [ch]) lenpos [u8 (v + 1)];
        from_text_loop f s d lenpos labels
    end
  end.

(** The recount of labels from the wire form. *)
Fixpoint count_labels (fuel : nat) (d : list Z) (i labels : Z) : res (Z * Z) :=
  match fuel with
  | O => Stuck OutOfFuel
  | S f =>
    if i <? zlen d then
      c ← rd d i; count_labels f d (i + (1 + c)) (labels + 1)
    else Ok (i, labels)
  end.

Definition elpis_name_from_text (s : option (list Z)) : res elpis_name_t :=
  match s with
  | None => fail ELPIS_EFORMAT
  | Some [46] => Ok elpis_name_root
  | Some [] => fail ELPIS_EFORMAT
  | Some s =>
    '(d, lenpos) ← from_text_loop (S (length s)) s [0] 0 0;
    v ← rd d lenpos;
    _ ← guard_err (v =? 0) ELPIS_EFORMAT ELPIS_DROP_NONE;
    '(i, labels) ← count_labels 256 d 0 0;
    _ ← guard_err (negb (i =? zlen d)) ELPIS_EFORMAT ELPIS_DROP_NONE;
    _ ← guard_err (ELPIS_MAX_NAME <? zlen d + 1) ELPIS_EFORMAT ELPIS_DROP_NONE;
    Ok (mkName (u8 (zlen d + 1)) (u8 labels) (d ++ [0]))
  end.

(** . \ ; ( ) double-quote @ $ *)
Definition needs_backslash (c : Z) : bool :=
  (c =? 46) || (c =? 92) || (c =? 59) || (c =? 40) || (c =? 41) ||
  (c =? 34) || (c =? 64) || (c =? 36).

(** One octet; [buf] is [buf[0..o)]. *)
Definition to_text_char (buf : list Z) (c sz : Z) : res (list Z) :=
  if needs_backslash c then
    _ ← guard_err (sz <=? zlen buf + 2) ELPIS_ETRUNC ELPIS_DROP_NONE;
    Ok (buf ++ [92; c])
  else if (0x20 <? c) && (c <? 0x7F) then
    _ ← guard_err (sz <=? zlen buf + 1) ELPIS_ETRUNC ELPIS_DROP_NONE;
    Ok (buf ++ [c])
  else
    _ ← guard_err (sz <=? zlen buf + 4) ELPIS_ETRUNC ELPIS_DROP_NONE;
    Ok (buf ++ [92; ch_0 + c / 100; ch_0 + (c / 10) mod 10; ch_0 + c mod 10]).

Fixpoint to_text_label (k : nat) (d : list Z) (pos : Z) (buf : list Z) (sz : Z) : res (list Z) :=
  match k with
  | O => Ok buf
  | S k =>
    c ← rd d pos;
    buf ← to_text_char buf c sz;
    to_text_label k d (pos + 1) buf sz
  end.

Fixpoint to_text_loop (fuel : nat) (n : elpis_name_t) (i : Z) (buf : list Z) (sz : Z) : res (list Z) :=
  match fuel with
  | O => Stuck OutOfFuel
  | S f =>
    if i <? n_len n then
      l ← rd (n_d n) i;
      if l =? 0 then Ok buf
      else
        buf ← to_text_label (Z.to_nat l) (n_d n) (i + 1) buf sz;
        _ ← guard_err (sz <=? zlen buf + 1) ELPIS_ETRUNC ELPIS_DROP_NONE;
        to_text_loop f n (i + 1 + l) (buf ++ [ch_dot]) sz
    else Ok buf
  end.

Definition elpis_name_to_text (n : elpis_name_t) (sz : Z) : res (list Z) :=
  _ ← guard_err (sz <? 2) ELPIS_ETRUNC ELPIS_DROP_NONE;
  if n_len n <=? 1 then Ok [ch_dot]
  else to_text_loop 256 n 0 [] sz.

(** ** Specification *)

Definition text_char (c : Z) : list Z :=
  if needs_backslash c then [92; c]
  else if (0x20 <? c) && (c <? 0x7F) then [c]
  else [92; ch_0 + c / 100; ch_0 + (c / 10) mod 10; ch_0 + c mod 10].
Definition text_octets (l : list Z) : list Z := concat (map text_char l).
Definition text_label (l : list Z) : list Z := text_octets l ++ [ch_dot].
Definition text_labels (ls : list (list Z)) : list Z := concat (map text_label ls).
Definition text_of (ls : list (list Z)) : list Z :=
  match ls with [] => [ch_dot] | _ => text_labels ls end.

(** ** Printing *)

Lemma to_text_char_spec buf c sz :
  to_text_char buf c sz
  = if zlen buf + zlen (text_char c) <? sz then Ok (buf ++ text_char c) else fail ELPIS_ETRUNC.
Proof.
  unfold to_text_char, text_char.
  destruct (needs_backslash c); [|destruct ((0x20 <? c) && (c <? 0x7F))%bool];
    unfold zlen; cbn [length];
    match goal with |- context [guard_err (?s <=? ?x)] =>
      destruct (Z.leb_spec s x); bind_step;
      [rewrite (proj2 (Z.ltb_ge _ _)) by lia|rewrite (proj2 (Z.ltb_lt _ _)) by lia]; done end.
Qed.

Lemma text_octets_cons c l : text_octets (c :: l) = text_char c ++ text_octets l.
Proof. done. Qed.

Lemma to_text_label_spec l : ∀ d pre post buf sz,
  d = pre ++ l ++ post →
  to_text_label (length l) d (zlen pre) buf sz
  = if (zlen buf + zlen (text_octets l) <? sz) || bool_decide (l = [])
    then Ok (buf ++ text_octets l) else fail ELPIS_ETRUNC.
Proof.
  induction l as [|c l IH]; intros d pre post buf sz Hd.
  { cbn [to_text_label length]. rewrite bool_decide_eq_true_2, orb_true_r by done.
    by rewrite app_nil_r. }
  cbn [to_text_label length].
  assert (rd d (zlen pre) = Ok c) as -> by (subst d; apply (rd_mid_eq _ _ _ _ 0); [lia|done]).
  bind_step. rewrite to_text_char_spec, text_octets_cons, zlen_app.
  pose proof (zlen_nonneg (text_octets l)).
  rewrite (bool_decide_eq_false_2 (c :: l = [])), orb_false_r by done.
  destruct (Z.ltb_spec (zlen buf + zlen (text_char c)) sz) as [H1|H1]; bind_step.
  - specialize (IH d (pre ++ [c]) post (buf ++ text_char c) sz).
    rewrite zlen_app in IH. change (zlen [c]) with 1 in IH.
    rewrite IH by (subst d; by rewrite <- app_assoc).
    rewrite zlen_app, <- app_assoc, <- Z.add_assoc.
    destruct l as [|c' l]; [|by rewrite (bool_decide_eq_false_2 (c' :: l = [])), orb_false_r by done].
    rewrite bool_decide_eq_true_2, orb_true_r by done. change (zlen (text_octets [])) with 0.
    by rewrite (proj2 (Z.ltb_lt _ _)) by lia.
  - by rewrite (proj2 (Z.ltb_ge _ _)) by lia.
Qed.

Lemma to_text_loop_spec ls : ∀ fuel pre buf sz,
  labels_ok (pre ++ ls) → (length ls < fuel)%nat → zlen buf < sz →
  to_text_loop fuel (name_of (pre ++ ls)) (zlen (enc_labels pre)) buf sz
  = if zlen buf + zlen (text_labels ls) <? sz then Ok (buf ++ text_labels ls) else fail ELPIS_ETRUNC.
Proof.
  induction ls as [|l ls IH]; intros fuel pre buf sz Hok Hf Hsz;
    (destruct fuel as [|fuel]; [cbn in Hf; lia|]); cbn [to_text_loop]; name_fields.
  - rewrite app_nil_r, zlen_wire. ztrue (zlen (enc_labels pre) <? zlen (enc_labels pre) + 1).
    unfold wire. rewrite rd_app_r, Z.sub_diag by lia. change (rd [0] 0) with (Ok 0). bind_step.
    change (zlen (text_labels [])) with 0. rewrite app_nil_r.
    by rewrite (proj2 (Z.ltb_lt _ _)) by lia.
  - pose proof (proj1 Hok) as Hfo. apply Forall_app in Hfo as [_ Hfo].
    apply Forall_cons_1 in Hfo as [[Hl _] _].
    rewrite wire_app, zlen_app. pose proof (zlen_wire_pos (l :: ls)).
    ztrue (zlen (enc_labels pre) <? zlen (enc_labels pre) + zlen (wire (l :: ls))).
    rewrite <- wire_app, rd_wire_label. bind_step. zfalse (zlen l =? 0).
    replace (Z.to_nat (zlen l)) with (length l) by zl.
    replace (zlen (enc_labels pre) + 1) with (zlen (enc_labels pre ++ [zlen l]))
      by (by rewrite zlen_app).
    rewrite (to_text_label_spec l _ (enc_labels pre ++ [zlen l]) (wire ls))
      by (rewrite wire_app, wire_cons; by rewrite <- app_assoc).
    rewrite bool_decide_eq_false_2, orb_false_r by (intros ->; zl).
    change (text_labels (l :: ls)) with (text_label l ++ text_labels ls).
    unfold text_label. rewrite !zlen_app. change (zlen [ch_dot]) with 1.
    pose proof (zlen_nonneg (text_labels ls)). change (zlen [zlen l]) with 1.
    destruct (Z.ltb_spec (zlen buf + zlen (text_octets l)) sz) as [H1|H1]; bind_step;
      [|by rewrite (proj2 (Z.ltb_ge _ _)) by lia].
    rewrite zlen_app.
    destruct (Z.leb_spec sz (zlen buf + zlen (text_octets l) + 1)) as [H2|H2]; bind_step;
      [by rewrite (proj2 (Z.ltb_ge _ _)) by lia|].
    specialize (IH fuel (pre ++ [l]) ((buf ++ text_octets l) ++ [ch_dot]) sz).
    rewrite <- !app_assoc in IH. cbn [app] in IH.
    rewrite enc_labels_app, enc_labels_single, !zlen_app, zlen_enc_label in IH.
    change (zlen [ch_dot]) with 1 in IH. cbn in Hf.
    replace (zlen (enc_labels pre) + 1 + zlen l) with (zlen (enc_labels pre) + (1 + zlen l)) by lia.
    rewrite <- app_assoc. rewrite IH by (done || lia).
    rewrite <- !app_assoc. by rewrite !Z.add_assoc.
Qed.

Lemma name_to_text_spec ls sz :
  labels_ok ls →
  elpis_name_to_text (name_of ls) sz
  = if zlen (text_of ls) <? sz then Ok (text_of ls) else fail ELPIS_ETRUNC.
Proof.
  intros Hok. pose proof (zlen_labels_of_ok _ Hok) as Hl. unfold elpis_name_to_text. name_fields.
  destruct ls as [|l ls].
  { change (zlen (text_of [])) with 1.
    destruct (Z.ltb_spec sz 2), (Z.ltb_spec 1 sz); bind_step; (done || lia). }
  pose proof (proj1 Hok) as Hfo. apply Forall_cons_1 in Hfo as [[Hz _] _].
  assert (2 <= zlen (text_of (l :: ls))) as H2.
  { change (text_of (l :: ls)) with (text_label l ++ text_labels ls).
    unfold text_label. rewrite !zlen_app. change (zlen [ch_dot]) with 1.
    pose proof (zlen_nonneg (text_labels ls)).
    destruct l as [|c l]; [zl|]. rewrite text_octets_cons, zlen_app.
    pose proof (zlen_nonneg (text_octets l)).
    assert (1 <= zlen (text_char c)); [|lia].
    unfold text_char. destruct (needs_backslash c); [done|]. by destruct (_ && _)%bool. }
  destruct (Z.ltb_spec sz 2); bind_step; [by rewrite (proj2 (Z.ltb_ge _ _)) by lia|].
  rewrite zlen_wire_cons. pose proof (zlen_wire_pos ls).
  zfalse (1 + zlen l + zlen (wire ls) <=? 1).
  apply (to_text_loop_spec (l :: ls) 256 [] [] sz); [done|zl|zl].
Qed.

(** ** Reading *)

(** [n->d[0..out)] while label [cur] is open after the finished labels [ls]. *)
Definition open_name (ls : list (list Z)) (cur : list Z) : list Z :=
  enc_labels ls ++ enc_label cur.

Definition open_ok (ls : list (list Z)) (cur : list Z) : Prop :=
  Forall label_ok ls ∧ bytes cur ∧ zlen cur <= 63 ∧ zlen (open_name ls cur) <= 254.

Lemma zlen_open ls cur : zlen (open_name ls cur) = zlen (enc_labels ls) + 1 + zlen cur.
Proof. unfold open_name. rewrite zlen_app, zlen_enc_label. lia. Qed.

Lemma rd_open ls cur : rd (open_name ls cur) (zlen (enc_labels ls)) = Ok (zlen cur).
Proof. unfold open_name. rewrite rd_app_r, Z.sub_diag by lia. done. Qed.

Lemma blit_open ls cur c :
  zlen cur < 63 →
  blit (open_name ls cur ++ [c]) (zlen (enc_labels ls)) [u8 (zlen cur + 1)]
  = Ok (open_name ls (cur ++ [c])).
Proof.
  intros Hc. unfold open_name, enc_label. rewrite <- app_assoc.
  rewrite blit_at; [|done|rewrite zlen_app, zlen_cons; pose proof (zlen_nonneg cur); zl].
  cbn [app drop length]. pose proof (zlen_nonneg cur). rewrite u8_id by zl.
  rewrite zlen_app. change (zlen [c]) with 1. by rewrite <- app_assoc.
Qed.

Lemma open_push ls cur c :
  open_ok ls cur → byte c → zlen cur < 63 → zlen (open_name ls cur) <= 253 →
  open_ok ls (cur ++ [c]).
Proof.
  intros (? & ? & ? & ?) ???. unfold open_ok. rewrite zlen_open in *. rewrite zlen_app.
  change (zlen [c]) with 1. split_and!; [done| |lia|lia].
  apply Forall_app. split; [done|by apply Forall_singleton].
Qed.

Lemma open_close ls cur :
  open_ok ls cur → zlen cur ≠ 0 → zlen (open_name ls cur) <= 253 → open_ok (ls ++ [cur]) [].
Proof.
  intros (? & ? & ? & ?) ??. unfold open_ok. rewrite zlen_open in *.
  rewrite enc_labels_app, enc_labels_single, zlen_app, zlen_enc_label. change (zlen (@nil Z)) with 0.
  pose proof (zlen_nonneg cur).
  split_and!; [|constructor|lia|lia]. apply Forall_app. split; [done|]. repeat constructor; done || lia.
Qed.

Lemma open_name_nil ls cur : open_name ls cur ++ [0] = open_name (ls ++ [cur]) [].
Proof. unfold open_name. rewrite enc_labels_app, enc_labels_single. done. Qed.

Lemma is_digit_range c : is_digit c = true → 48 <= c <= 57.
Proof. unfold is_digit, ch_0, ch_9. intros. bool_to_prop. lia. Qed.

Lemma from_text_escape_spec s c s' :
  bytes s → from_text_escape s = Ok (c, s') →
  byte c ∧ bytes s' ∧ (length s' < length s)%nat.
Proof.
  intros Hs. unfold from_text_escape. destruct s as [|c0 s1]; [done|].
  apply Forall_cons_1 in Hs as [H0 Hs]. destruct (is_digit c0) eqn:D0.
  - destruct s1 as [|c1 [|c2 s3]]; [done|done|].
    apply Forall_cons_1 in Hs as [H1 Hs]. apply Forall_cons_1 in Hs as [H2 Hs].
    destruct (is_digit c1 && is_digit c2)%bool eqn:D; [|done].
    apply andb_true_iff in D as [D1 D2].
    apply is_digit_range in D0, D1, D2.
    destruct (Z.ltb_spec 255 ((c0 - ch_0) * 100 + (c1 - ch_0) * 10 + (c2 - ch_0))); [done|].
    intros [= <- <-]. split; [unfold ch_0 in *; zl|]. split; [done|]. cbn. lia.
  - intros [= <- <-]. split; [done|]. split; [done|]. cbn. lia.
Qed.

Lemma from_text_escape_safe s : bytes s → safe (fun _ => True) (from_text_escape s).
Proof.
  intros Hs. unfold from_text_escape. repeat (case_match; cbn; try done).
Qed.

Lemma from_text_loop_safe fuel : ∀ s ls cur labels,
  bytes s → open_ok ls cur → 0 <= labels <= zlen ls → (length s < fuel)%nat →
  safe (fun '(d, lenpos) => ∃ ls' cur', open_ok ls' cur' ∧ d = open_name ls' cur' ∧
          lenpos = zlen (enc_labels ls'))
       (from_text_loop fuel s (open_name ls cur) (zlen (enc_labels ls)) labels).
Proof.
  induction fuel as [|fuel IH]; intros s ls cur labels Hs Ho Hl Hf; [lia|]. cbn [from_text_loop].
  destruct s as [|ch s]; [cbn; eauto|]. cbn in Hf.
  apply Forall_cons_1 in Hs as [Hch Hs].
  destruct (Z.eqb_spec ch ch_dot).
  - rewrite rd_open. bind_step.
    apply safe_guard; intros Hv. bool_to_prop.
    apply safe_guard; intros Hm.
    destruct s as [|c s]; [cbn; eauto|].
    apply safe_guard; intros Hz. bool_to_prop.
    unfold ELPIS_MAX_NAME in *. rewrite open_name_nil.
    replace (zlen (open_name ls cur)) with (zlen (enc_labels (ls ++ [cur])))
      by (by rewrite enc_labels_app, enc_labels_single).
    apply IH; [done|apply open_close; (done || lia)| |done || lia].
    rewrite zlen_app. change (zlen [cur]) with 1. lia.
  - eapply (safe_bind (fun '(c, s') => byte c ∧ bytes s' ∧ (length s' <= length s)%nat)).
    { destruct (ch =? ch_backslash); [|cbn; done].
      pose proof (from_text_escape_safe s Hs).
      destruct (from_text_escape s) as [[c s']| |] eqn:E; cbn in *; [|done|done].
      apply from_text_escape_spec in E as (? & ? & ?); [|done]. split_and!; (done || lia). }
    intros [c s'] (Hc & Hs' & Hl').
    rewrite rd_open. bind_step.
    apply safe_guard; intros Hv. bool_to_prop.
    apply safe_guard; intros Hz. bool_to_prop.
    unfold ELPIS_MAX_NAME, ELPIS_MAX_LABEL in *. rewrite blit_open by lia. bind_step.
    apply IH; [done|by apply open_push; (done || lia)|done|lia].
Qed.

Lemma count_labels_spec ls : ∀ fuel pre,
  Forall label_ok (pre ++ ls) → (length ls < fuel)%nat →
  count_labels fuel (enc_labels (pre ++ ls)) (zlen (enc_labels pre)) (zlen pre)
  = Ok (zlen (enc_labels (pre ++ ls)), zlen (pre ++ ls)).
Proof.
  induction ls as [|l ls IH]; intros fuel pre Hok Hf;
    (destruct fuel as [|fuel]; [cbn in Hf; lia|]); cbn [count_labels].
  - rewrite app_nil_r. by rewrite Z.ltb_irrefl.
  - rewrite enc_labels_app, zlen_app, enc_labels_cons, zlen_app, zlen_enc_label.
    pose proof (zlen_nonneg l). pose proof (zlen_nonneg (enc_labels ls)).
    ztrue (zlen (enc_labels pre) <? zlen (enc_labels pre) + (1 + zlen l + zlen (enc_labels ls))).
    assert (rd (enc_labels pre ++ enc_label l ++ enc_labels ls) (zlen (enc_labels pre)) = Ok (zlen l)) as ->
      by (rewrite rd_app_r, Z.sub_diag by lia; done).
    bind_step. specialize (IH fuel (pre ++ [l])). rewrite <- !app_assoc in IH. cbn [app] in IH.
    cbn in Hf. specialize (IH Hok ltac:(lia)).
    rewrite !enc_labels_app, enc_labels_cons, enc_labels_single, !zlen_app, !zlen_enc_label in IH.
    change (zlen [l]) with 1 in IH. rewrite zlen_app. exact IH.
Qed.

(** What the tail of [elpis_name_from_text] makes of an open name. *)
Lemma from_text_finish ls cur :
  open_ok ls cur → zlen cur ≠ 0 →
  labels_ok (ls ++ [cur]) ∧
  count_labels 256 (open_name ls cur) 0 0 = Ok (zlen (open_name ls cur), zlen (ls ++ [cur])) ∧
  mkName (u8 (zlen (open_name ls cur) + 1)) (u8 (zlen (ls ++ [cur]))) (open_name ls cur ++ [0])
  = name_of (ls ++ [cur]).
Proof.
  intros (Hf & Hb & Hz & Hl) Hne. pose proof (zlen_nonneg cur).
  assert (He : open_name ls cur = enc_labels (ls ++ [cur]))
    by (by rewrite enc_labels_app, enc_labels_single).
  assert (Hf' : Forall label_ok (ls ++ [cur]))
    by (apply Forall_app; split; [done|repeat constructor; (done || lia)]).
  assert (Hok : labels_ok (ls ++ [cur])) by (split; [done|rewrite zlen_wire, <- He; lia]).
  pose proof (zlen_labels_of_ok _ Hok). rewrite He. split_and!; [done| |].
  - apply (count_labels_spec (ls ++ [cur]) 256 []); [done|zl].
  - rewrite <- He. unfold name_of. rewrite zlen_wire, <- He, !u8_id by zl.
    by rewrite He.
Qed.

Lemma from_text_unfold s :
  s ≠ [] → s ≠ [46] →
  elpis_name_from_text (Some s)
  = '(d, lenpos) ← from_text_loop (S (length s)) s [0] 0 0;
    v ← rd d lenpos;
    _ ← guard_err (v =? 0) ELPIS_EFORMAT ELPIS_DROP_NONE;
    '(i, labels) ← count_labels 256 d 0 0;
    _ ← guard_err (negb (i =? zlen d)) ELPIS_EFORMAT ELPIS_DROP_NONE;
    _ ← guard_err (ELPIS_MAX_NAME <? zlen d + 1) ELPIS_EFORMAT ELPIS_DROP_NONE;
    Ok (mkName (u8 (zlen d + 1)) (u8 labels) (d ++ [0])).
Proof.
  intros H1 H2. unfold elpis_name_from_text. destruct s as [|c s]; [done|].
  repeat (case_match; try done).
Qed.

Lemma open_ok_start : open_ok [] [].
Proof. unfold open_ok. split_and!; [constructor|constructor|done|done]. Qed.

Lemma name_from_text_safe s :
  bytes s → safe wf_name (elpis_name_from_text (Some s)).
Proof.
  intros Hs. destruct (decide (s = [])) as [->|H1]; [done|].
  destruct (decide (s = [46])) as [->|H2].
  { exists []. split; [by_compute|done]. }
  rewrite from_text_unfold by done.
  eapply safe_bind.
  { apply (from_text_loop_safe (S (length s)) s [] [] 0);
      [done|apply open_ok_start|done|lia]. }
  intros [d lenpos] (ls & cur & Ho & -> & ->). rewrite rd_open. bind_step.
  apply safe_guard; intros Hv. bool_to_prop.
  destruct (from_text_finish ls cur Ho Hv) as (Hok & Hc & Hn). rewrite Hc. bind_step.
  rewrite Z.eqb_refl. bind_step.
  apply safe_guard; intros _. cbn. exists (ls ++ [cur]). done.
Qed.

(** ** Round trip *)

Lemma needs_backslash_not_digit c : needs_backslash c = true → is_digit c = false.
Proof.
  unfold needs_backslash, is_digit, ch_0, ch_9. intros H.
  apply andb_false_iff. rewrite Z.leb_gt, Z.leb_gt.
  repeat (apply orb_true_iff in H as [H|H]); apply Z.eqb_eq in H; lia.
Qed.

Lemma decimal_digits c :
  byte c →
  is_digit (ch_0 + c / 100) = true ∧ is_digit (ch_0 + (c / 10) mod 10) = true ∧
  is_digit (ch_0 + c mod 10) = true ∧
  (ch_0 + c / 100 - ch_0) * 100 + (ch_0 + (c / 10) mod 10 - ch_0) * 10 + (ch_0 + c mod 10 - ch_0) = c.
Proof.
  intros Hc. unfold is_digit, ch_0, ch_9, byte in *.
  rewrite !andb_true_iff, !Z.leb_le. Z.div_mod_to_equations. lia.
Qed.

Lemma from_text_step f c s ls cur labels :
  byte c → open_ok ls cur → zlen cur < 63 → zlen (open_name ls cur) <= 253 →
  from_text_loop (S f) (text_char c ++ s) (open_name ls cur) (zlen (enc_labels ls)) labels
  = from_text_loop f s (open_name ls (cur ++ [c])) (zlen (enc_labels ls)) labels.
Proof.
  intros Hc Ho Hz Hd.
  assert (Hrest : (v ← rd (open_name ls cur) (zlen (enc_labels ls));
    _ ← guard_err (ELPIS_MAX_LABEL <=? v) ELPIS_EFORMAT ELPIS_DROP_NONE;
    _ ← guard_err (ELPIS_MAX_NAME <? zlen (open_name ls cur) + 2) ELPIS_EFORMAT ELPIS_DROP_NONE;
    d ← blit (open_name ls cur ++ [c]) (zlen (enc_labels ls)) [u8 (v + 1)];
    from_text_loop f s d (zlen (enc_labels ls)) labels)
    = from_text_loop f s (open_name ls (cur ++ [c])) (zlen (enc_labels ls)) labels).
  { rewrite rd_open. bind_step. unfold ELPIS_MAX_LABEL, ELPIS_MAX_NAME.
    rewrite (proj2 (Z.leb_gt _ _)) by lia. bind_step.
    rewrite (proj2 (Z.ltb_ge _ _)) by lia. bind_step. by rewrite blit_open. }
  unfold text_char. destruct (needs_backslash c) eqn:Eb.
  - cbn [app from_text_loop]. change (92 =? ch_dot) with false. change (92 =? ch_backslash) with true.
    cbn iota. unfold from_text_escape. rewrite needs_backslash_not_digit by done. bind_step. exact Hrest.
  - destruct ((0x20 <? c) && (c <? 0x7F))%bool eqn:Ep.
    + cbn [app from_text_loop]. unfold needs_backslash in Eb.
      repeat (apply orb_false_iff in Eb as [Eb ?]).
      unfold ch_dot, ch_backslash. rewrite Eb, H5. bind_step. exact Hrest.
    + cbn [app from_text_loop]. change (92 =? ch_dot) with false. change (92 =? ch_backslash) with true.
      cbn iota. unfold from_text_escape.
      destruct (decimal_digits c Hc) as (-> & -> & -> & ->). cbn [andb].
      zfalse (255 <? c). bind_step. exact Hrest.
Qed.

Lemma text_char_nonempty c : (1 <= length (text_char c))%nat.
Proof. unfold text_char. destruct (needs_backslash c); [cbn; lia|]. destruct (_ && _)%bool; cbn; lia. Qed.

Lemma from_text_octets l : ∀ fuel s ls cur labels,
  bytes l → open_ok ls cur → zlen cur + zlen l <= 63 → zlen (open_name ls cur) + zlen l <= 254 →
  (length (text_octets l ++ s) < fuel)%nat →
  ∃ fuel', (length s < fuel')%nat ∧
    from_text_loop fuel (text_octets l ++ s) (open_name ls cur) (zlen (enc_labels ls)) labels
    = from_text_loop fuel' s (open_name ls (cur ++ l)) (zlen (enc_labels ls)) labels.
Proof.
  induction l as [|c l IH]; intros fuel s ls cur labels Hb Ho Hz Hd Hf.
  { exists fuel. by rewrite app_nil_r. }
  apply Forall_cons_1 in Hb as [Hc Hb]. rewrite zlen_cons in *.
  pose proof (zlen_nonneg l). pose proof (text_char_nonempty c).
  rewrite text_octets_cons, <- app_assoc in *.
  destruct fuel as [|fuel]; [lia|].
  rewrite from_text_step by (done || lia).
  destruct (IH fuel s ls (cur ++ [c]) labels Hb) as (f' & ? & E).
  - apply open_push; (done || lia).
  - rewrite zlen_app. change (zlen [c]) with 1. lia.
  - rewrite zlen_open in *. rewrite zlen_app. change (zlen [c]) with 1. lia.
  - rewrite length_app in Hf. lia.
  - exists f'. split; [done|]. rewrite E, <- app_assoc. done.
Qed.

Lemma from_text_loop_text m : ∀ fuel l t ls labels,
  labels_ok (ls ++ m ++ [l]) → (t = [] ∨ t = [ch_dot]) → 0 <= labels <= zlen ls →
  (length (text_labels m ++ text_octets l ++ t) < fuel)%nat →
  from_text_loop fuel (text_labels m ++ text_octets l ++ t) (open_name ls []) (zlen (enc_labels ls)) labels
  = Ok (open_name (ls ++ m) l, zlen (enc_labels (ls ++ m))).
Proof.
  induction m as [|k m IH]; intros fuel l t ls labels Hok Ht Hlab Hf;
    pose proof (zlen_labels_of_ok _ Hok) as Hcount;
    pose proof (proj1 Hok) as Hfo; pose proof (proj2 Hok) as Hw;
    apply Forall_app in Hfo as [Hls Hfo].
  - cbn [app] in *. change (text_labels [] ++ ?x) with x in *.
    apply Forall_cons_1 in Hfo as [[Hl Hlb] _].
    rewrite zlen_wire, enc_labels_app, enc_labels_single, zlen_app, zlen_enc_label in Hw.
    destruct (from_text_octets l fuel t ls [] labels) as (f' & Hf' & ->); [done| | | |done|].
    + split_and!; [done|constructor|done|]. rewrite zlen_open. change (zlen (@nil Z)) with 0. lia.
    + change (zlen (@nil Z)) with 0. lia.
    + rewrite zlen_open. change (zlen (@nil Z)) with 0. lia.
    + rewrite !app_nil_r. cbn [app]. destruct f' as [|f']; [lia|]. cbn [from_text_loop].
      destruct Ht as [-> | ->]; [done|]. change (ch_dot =? ch_dot) with true. cbn iota.
      rewrite rd_open. bind_step. zfalse (zlen l =? 0). bind_step.
      unfold ELPIS_MAX_LABELS. rewrite zlen_app in Hcount.
      rewrite (proj2 (Z.ltb_ge _ _)); [done|]. change (zlen [l]) with 1 in Hcount. lia.
  - cbn [app] in Hfo. apply Forall_cons_1 in Hfo as [[Hl Hlb] _].
    change (text_labels (k :: m)) with (text_label k ++ text_labels m) in *.
    unfold text_label in *. rewrite <- !app_assoc in *.
    rewrite wire_app, zlen_app in Hw. cbn [app] in Hw. rewrite zlen_wire_cons in Hw.
    assert (Hw1 : 3 <= zlen (wire (m ++ [l]))).
    { destruct (labels_ok_app ls _ Hok) as [Hx _]. cbn [app] in Hx.
      apply Forall_cons_1 in Hx as [_ Hx]. apply Forall_app in Hx as [_ Hx].
      apply Forall_cons_1 in Hx as [[? _] _].
      rewrite wire_app, zlen_app, zlen_wire_cons. change (zlen (wire [])) with 1.
      pose proof (zlen_nonneg (enc_labels m)). lia. }
    set (rest := text_labels m ++ text_octets l ++ t) in *.
    destruct (from_text_octets k fuel ([ch_dot] ++ rest) ls [] labels) as (f' & Hf' & ->);
      [done| | | |done|].
    + split_and!; [done|constructor|done|]. rewrite zlen_open. change (zlen (@nil Z)) with 0. lia.
    + change (zlen (@nil Z)) with 0. lia.
    + rewrite zlen_open. change (zlen (@nil Z)) with 0. lia.
    + cbn [app] in *. destruct f' as [|f']; [cbn in Hf'; lia|]. cbn [from_text_loop].
      change (ch_dot =? ch_dot) with true. cbn iota.
      rewrite rd_open. bind_step. zfalse (zlen k =? 0). bind_step.
      rewrite !zlen_app, zlen_cons, zlen_app in Hcount. change (zlen [l]) with 1 in Hcount.
      pose proof (zlen_nonneg m). unfold ELPIS_MAX_LABELS.
      rewrite (proj2 (Z.ltb_ge _ _)) by lia. bind_step.
      assert (Hne : rest ≠ []).
      { unfold rest. intros Hnil. apply app_eq_nil in Hnil as [_ Hnil].
        apply app_eq_nil in Hnil as [Hnil _].
        assert (Hx : label_ok l).
        { destruct (labels_ok_app ls _ Hok) as [Hx _]. apply Forall_app with (l1 := k :: m) in Hx as [_ Hx].
          by apply Forall_cons_1 in Hx as [? _]. }
        destruct l as [|c l]; [destruct Hx; zl|]. pose proof (text_char_nonempty c).
        rewrite text_octets_cons in Hnil. apply app_eq_nil in Hnil as [Hnil _].
        rewrite Hnil in *. cbn in *. lia. }
      destruct rest as [|r0 rest'] eqn:Er; [done|].
      unfold ELPIS_MAX_NAME. rewrite zlen_open. rewrite (proj2 (Z.leb_gt _ _)) by lia. bind_step.
      rewrite open_name_nil, <- zlen_open.
      replace (zlen (open_name ls k)) with (zlen (enc_labels (ls ++ [k])))
        by (by rewrite enc_labels_app, enc_labels_single).
      rewrite <- Er. unfold rest. rewrite (IH f' l t (ls ++ [k]) (labels + 1)).
      * by rewrite <- app_assoc.
      * by rewrite <- app_assoc.
      * done.
      * rewrite zlen_app. change (zlen [k]) with 1. lia.
      * fold rest. rewrite Er. cbn in Hf' |- *. lia.
Qed.

Lemma name_from_text_text m l t :
  labels_ok (m ++ [l]) → t = [] ∨ t = [ch_dot] →
  elpis_name_from_text (Some (text_labels m ++ text_octets l ++ t)) = Ok (name_of (m ++ [l])).
Proof.
  intros Hok Ht.
  assert (Hl : label_ok l).
  { destruct Hok as [Hf _]. apply Forall_app in Hf as [_ Hf]. by apply Forall_cons_1 in Hf as [? _]. }
  assert (Hcur : zlen l ≠ 0) by (destruct Hl; lia).
  set (s := text_labels m ++ text_octets l ++ t).
  pose proof (from_text_loop_text m (S (length s)) l t [] 0 Hok Ht) as E.
  fold s in E. specialize (E ltac:(done) ltac:(lia)).
  change (open_name [] []) with [0] in E. change (zlen (enc_labels [])) with 0 in E. cbn [app] in E.
  assert (Ho : open_ok m l).
  { destruct Hok as [Hf Hw]. apply Forall_app in Hf as [Hf _]. split_and!; [done|apply Hl|apply Hl|].
    rewrite zlen_wire, enc_labels_app, enc_labels_single in Hw. unfold open_name. lia. }
  rewrite from_text_unfold.
  - rewrite E. bind_step. rewrite rd_open. bind_step. rewrite (proj2 (Z.eqb_neq _ _)) by done. bind_step.
    destruct (from_text_finish m l Ho Hcur) as (_ & -> & <-). bind_step.
    rewrite Z.eqb_refl. bind_step. destruct Ho as (_ & _ & _ & Ho).
    unfold ELPIS_MAX_NAME. by rewrite (proj2 (Z.ltb_ge _ _)) by lia.
  - intros Hs. rewrite Hs in E. cbn in E. injection E as E. 
    apply (f_equal zlen) in E. rewrite zlen_open in E. change (zlen [0]) with 1 in E.
    pose proof (zlen_nonneg (enc_labels m)). pose proof (zlen_nonneg l). lia.
  - intros Hs. rewrite Hs in E. cbn in E. done.
Qed.

Lemma text_labels_app a b : text_labels (a ++ b) = text_labels a ++ text_labels b.
Proof. unfold text_labels. by rewrite map_app, concat_app. Qed.

Lemma name_text_roundtrip ls :
  labels_ok ls → elpis_name_from_text (Some (text_of ls)) = Ok (name_of ls).
Proof.
  intros Hok. destruct ls as [|l0 ls0] eqn:El; [done|].
  assert (Ht : text_of (l0 :: ls0) = text_labels ls) by (by rewrite El).
  rewrite Ht, <- El in *. clear Ht.
  destruct (exists_last (l := ls)) as (m & l & ->); [by subst|].
  rewrite text_labels_app. unfold text_labels at 2. cbn [map concat]. rewrite app_nil_r.
  apply name_from_text_text; auto.
Qed.

(** ** Properties *)

(** Printing then reading: for every well-formed name and any buffer the
    text fits, [elpis_name_to_text] returns it, below the buffer size with its
    NUL, and [elpis_name_from_text] reads back the same name; when the text
    does not fit the answer is ETRUNC. *)
Theorem name_text_round_trip (ls : list (list Z)) (sz : Z) :
  labels_ok ls →
  match elpis_name_to_text (name_of ls) sz with
  | Ok s => zlen s < sz ∧ elpis_name_from_text (Some s) = Ok (name_of ls)
  | Err rc _ => rc = ELPIS_ETRUNC ∧ sz <= zlen (text_of ls)
  | Stuck _ => False
  end.
Proof.
  intros Hok. rewrite name_to_text_spec by done.
  destruct (Z.ltb_spec (zlen (text_of ls)) sz); [|done].
  split; [done|]. by apply name_text_roundtrip.
Qed.

Lemma name_text_round_trip_witness :
  match elpis_name_to_text (name_of [[97;46;0];[99]]) 64 with
  | Ok s => zlen s < 64 ∧ elpis_name_from_text (Some s) = Ok (name_of [[97;46;0];[99]])
  | Err rc _ => rc = ELPIS_ETRUNC ∧ 64 <= zlen (text_of [[97;46;0];[99]])
  | Stuck _ => False
  end.
Proof. apply (name_text_round_trip [[97;46;0];[99]] 64); by_compute. Defined.

(** Reading any text at all is safe: [elpis_name_from_text] ends, never
    indexes outside the name under construction, and a name it returns is well
    formed; the trailing dot is optional. *)
Theorem name_from_text_total (s : list Z) :
  bytes s →
  match elpis_name_from_text (Some s) with
  | Ok n => wf_name n
  | Err _ _ => True
  | Stuck _ => False
  end ∧
  ∀ m l, s = text_labels m ++ text_octets l → labels_ok (m ++ [l]) →
    elpis_name_from_text (Some s) = Ok (name_of (m ++ [l])) ∧
    elpis_name_from_text (Some (s ++ [ch_dot])) = Ok (name_of (m ++ [l])).
Proof.
  intros Hs. split; [exact (name_from_text_safe s Hs)|]. intros m l -> Hok. split.
  - rewrite <- (app_nil_r (text_octets l)). apply name_from_text_text; auto.
  - rewrite <- app_assoc. apply name_from_text_text; auto.
Qed.

Lemma name_from_text_total_witness :
  match elpis_name_from_text (Some [97;92;48;52;54;46;99]) with
  | Ok n => wf_name n
  | Err _ _ => True
  | Stuck _ => False
  end ∧
  ∀ m l, [97;92;48;52;54;46;99] = text_labels m ++ text_octets l → labels_ok (m ++ [l]) →
    elpis_name_from_text (Some [97;92;48;52;54;46;99]) = Ok (name_of (m ++ [l])) ∧
    elpis_name_from_text (Some ([97;92;48;52;54;46;99] ++ [ch_dot])) = Ok (name_of (m ++ [l])).
Proof. apply (name_from_text_total [97;92;48;52;54;46;99]); by_compute. Defined.
