(* ===== verification/Ecs.v ===== *)
(** EDNS Client Subnet (RFC 7871): include/elpis/ecs.h and src/dns/ecs.c.

    An address prefix is a list of octets; [addr_bit] numbers its bits from the
    most significant one, and the specifications speak of those bits. *)
From stdpp Require Import base list numbers.
From Stdlib Require Import ZArith Lia.
From S2P Require Import Prelude Bytes Simd Name.

(** ** Socket addresses (include/elpis/util.h) *)

(** [elpis_addr_t]: the union, tagged by [sa_family]; ports in host order. *)
Inductive elpis_addr_t :=
  | Addr4 (ip : list Z) (port : Z)
  | Addr6 (ip : list Z) (port : Z)
  | AddrOther.

#[export] Instance elpis_addr_t_eq_dec : EqDecision elpis_addr_t.
Proof. solve_decision. Defined.

(** ** Definitions *)

Definition ELPIS_ECS_IPV4 : Z := 1.
Definition ELPIS_ECS_IPV6 : Z := 2.

Definition ELPIS_ECS_ADDRLEN (bits : Z) : Z := (bits + 7) / 8.

Record elpis_ecs_t := mkEcs { ecs_family : Z; ecs_source : Z; ecs_scope : Z; ecs_addr : list Z }.

#[export] Instance elpis_ecs_t_eq_dec : EqDecision elpis_ecs_t.
Proof. solve_decision. Defined.

Definition ecs_zero : elpis_ecs_t := mkEcs 0 0 0 (zeros 16).

Definition family_bits (family : Z) : Z :=
  if family =? ELPIS_ECS_IPV4 then 32 else if family =? ELPIS_ECS_IPV6 then 128 else 0.

(** [for (i = 0; i < 16; i++)] over the octets of [addr]. *)
Fixpoint mask_addr (addr : list Z) (bits : Z) : list Z :=
  match addr with
  | [] => []
  | a :: addr' =>
    if 8 <=? bits then a :: mask_addr addr' (bits - 8)
    else Z.land a (u8 (Z.shiftl 0xFF (8 - bits))) :: mask_addr addr' 0
  end.

Definition elpis_ecs_parse (p : list Z) (len : Z) : res elpis_ecs_t :=
  _ ← guard_err (len <? 4) ELPIS_EFORMAT ELPIS_DROP_NONE;
  family ← elpis_get16 p 0;
  source ← rd p 2;
  scope ← rd p 3;
  let n := len - 4 in
  if family =? 0 then
    _ ← guard_err (negb (source =? 0) || negb (scope =? 0) || negb (n =? 0))
          ELPIS_EFORMAT ELPIS_DROP_NONE;
    Ok (mkEcs 0 source scope (zeros 16))
  else
    let width := family_bits family in
    _ ← guard_err ((width =? 0) || (width <? source) || (width <? scope)) ELPIS_EFORMAT ELPIS_DROP_NONE;
    _ ← guard_err (negb (n =? ELPIS_ECS_ADDRLEN source)) ELPIS_EFORMAT ELPIS_DROP_NONE;
    a ← rds p 4 n;
    addr ← blit (zeros 16) 0 a;
    _ ← guard_err (negb (bool_decide (mask_addr addr source = addr))) ELPIS_EFORMAT ELPIS_DROP_NONE;
    Ok (mkEcs (u8 family) source scope addr).

(** [out] has room for [cap] octets: the result is what was written, [[]] for
    the return value 0. *)
Definition elpis_ecs_encode (e : elpis_ecs_t) (cap : Z) : res (list Z) :=
  let n := ELPIS_ECS_ADDRLEN (ecs_source e) in
  if cap <? 4 + n then Ok []
  else
    a ← rds (ecs_addr e) 0 n;
    Ok (put16_bytes (u16 (if ecs_family e =? 0 then ELPIS_ECS_IPV4 else ecs_family e))
        ++ [ecs_source e; ecs_scope e] ++ a).

Definition v4_mapped : list Z := [0; 0; 0; 0; 0; 0; 0; 0; 0; 0; 0xFF; 0xFF].

(** [None] for the return value 0. *)
Definition elpis_ecs_from_addr (a : elpis_addr_t) (v4bits v6bits : Z) : res (option elpis_ecs_t) :=
  fa ← match a with
       | Addr4 ip _ => b ← rds ip 0 4; Ok (Some (ELPIS_ECS_IPV4, b))
       | Addr6 ip _ =>
         m ← rds ip 0 12;
         if bool_decide (m = v4_mapped) then b ← rds ip 12 4; Ok (Some (ELPIS_ECS_IPV4, b))
         else b ← rds ip 0 16; Ok (Some (ELPIS_ECS_IPV6, b))
       | AddrOther => Ok None
       end;
  match fa with
  | None => Ok None
  | Some (family, b) =>
    addr ← blit (zeros 16) 0 b;
    let source := u8 (if family =? ELPIS_ECS_IPV4
                      then (if 32 <? v4bits then 32 else v4bits)
                      else (if 128 <? v6bits then 128 else v6bits)) in
    Ok (Some (mkEcs family source 0 (mask_addr addr source)))
  end.

Definition elpis_ecs_truncate (e : elpis_ecs_t) (v4bits v6bits : Z) : elpis_ecs_t :=
  let cap := if ecs_family e =? ELPIS_ECS_IPV4 then v4bits else v6bits in
  let source := if cap <? ecs_source e then u8 cap else ecs_source e in
  mkEcs (ecs_family e) source 0 (mask_addr (ecs_addr e) source).

(** [for (i = 0; bits > 0; i++)], at most 32 turns for a one-octet [bits]. *)
Fixpoint in_range_loop (fuel : nat) (addr p : list Z) (i bits : Z) : res bool :=
  match fuel with
  | O => Stuck OutOfFuel
  | S f =>
    if 0 <? bits then
      let m := if 8 <=? bits then 0xFF else u8 (Z.shiftl 0xFF (8 - bits)) in
      a ← rd addr i;
      b ← rd p i;
      if negb (Z.land a m =? Z.land b m) then Ok false
      else in_range_loop f addr p (i + 1) (if 8 <=? bits then bits - 8 else 0)
    else Ok true
  end.
Definition in_range (addr p : list Z) (bits : Z) : res bool := in_range_loop 34 addr p 0 bits.

Definition ecs_v4_ranges : list (list Z * Z) :=
  [([0; 0; 0; 0], 8); ([10; 0; 0; 0], 8); ([100; 64; 0; 0], 10); ([127; 0; 0; 0], 8);
   ([169; 254; 0; 0], 16); ([172; 16; 0; 0], 12); ([192; 0; 0; 0], 24); ([192; 0; 2; 0], 24);
   ([192; 168; 0; 0], 16); ([198; 18; 0; 0], 15); ([198; 51; 100; 0], 24);
   ([203; 0; 113; 0], 24); ([224; 0; 0; 0], 3)].
Definition unicast6 : list Z := [0x20].
Definition doc6 : list Z := [0x20; 0x01; 0x0D; 0xB8].

Fixpoint none_in_range (source : Z) (addr : list Z) (ranges : list (list Z * Z)) : res bool :=
  match ranges with
  | [] => Ok true
  | (p, bits) :: rest =>
    hit ← (if bits <=? source then in_range addr p bits else Ok false);
    if (hit : bool) then Ok false else none_in_range source addr rest
  end.

Definition elpis_ecs_is_public (e : elpis_ecs_t) : res bool :=
  if ecs_source e =? 0 then Ok false
  else if ecs_family e =? ELPIS_ECS_IPV4 then none_in_range (ecs_source e) (ecs_addr e) ecs_v4_ranges
  else if ecs_family e =? ELPIS_ECS_IPV6 then
    if negb (3 <=? ecs_source e) then Ok false
    else
      u ← in_range (ecs_addr e) unicast6 3;
      if negb u then Ok false
      else if 32 <=? ecs_source e then d ← in_range (ecs_addr e) doc6 32; Ok (negb d)
      else Ok true
  else Ok false.

Definition elpis_ecs_same_subnet (a b : elpis_ecs_t) : res bool :=
  if negb (ecs_family a =? ecs_family b) then Ok false
  else if negb (ecs_source a =? ecs_source b) then Ok false
  else
    let n := ELPIS_ECS_ADDRLEN (ecs_source a) in
    x ← rds (ecs_addr a) 0 n;
    y ← rds (ecs_addr b) 0 n;
    Ok (bool_decide (x = y)).

(** ** Abstract view: the bits of an address *)

Definition addr_bit (a : list Z) (k : Z) : bool :=
  match a !! Z.to_nat (k / 8) with Some x => Z.testbit x (7 - k mod 8) | None => false end.

(** What [elpis_ecs_t] values satisfy: prefixes within the family, and no bit
    set past SOURCE. *)
Definition wf_ecs (e : elpis_ecs_t) : Prop :=
  (ecs_family e = ELPIS_ECS_IPV4 ∨ ecs_family e = ELPIS_ECS_IPV6) ∧
  0 <= ecs_source e <= family_bits (ecs_family e) ∧
  0 <= ecs_scope e <= family_bits (ecs_family e) ∧
  zlen (ecs_addr e) = 16 ∧ bytes (ecs_addr e) ∧
  ∀ k, ecs_source e <= k < 128 → addr_bit (ecs_addr e) k = false.

(** ** Bits of octets and of addresses *)

Lemma mask_octet_bit bits j :
  0 <= bits < 8 → 0 <= j < 8 → Z.testbit (u8 (Z.shiftl 0xFF (8 - bits))) (7 - j) = (j <? bits).
Proof.
  intros Hb Hj. unfold u8. rewrite Z.mod_pow2_bits_low, Z.shiftl_spec by lia.
  change 0xFF with (Z.ones 8). rewrite Z.testbit_ones by lia.
  destruct (Z.ltb_spec j bits); lia.
Qed.

Lemma byte_bit_high x n : byte x → 8 <= n → Z.testbit x n = false.
Proof. intros Hx Hn. rewrite <- (u8_id x) by done. apply Z.mod_pow2_bits_high. lia. Qed.

Lemma byte_bits_ext x y :
  byte x → byte y → (∀ j, 0 <= j < 8 → Z.testbit x (7 - j) = Z.testbit y (7 - j)) → x = y.
Proof.
  intros Hx Hy H. apply Z.bits_inj'. intros n Hn. destruct (Z.ltb_spec n 8).
  - replace n with (7 - (7 - n)) by lia. apply H. lia.
  - by rewrite !byte_bit_high.
Qed.

Lemma addr_bit_cons x a k :
  0 <= k → addr_bit (x :: a) k = if k <? 8 then Z.testbit x (7 - k) else addr_bit a (k - 8).
Proof.
  intros Hk. unfold addr_bit. destruct (Z.ltb_spec k 8).
  - rewrite Z.div_small, Z.mod_small by lia. done.
  - assert (k / 8 = (k - 8) / 8 + 1) as -> by zdiv. assert (k mod 8 = (k - 8) mod 8) as -> by zdiv.
    assert (0 <= (k - 8) / 8) by zdiv.
    by replace (Z.to_nat ((k - 8) / 8 + 1)) with (S (Z.to_nat ((k - 8) / 8))) by lia.
Qed.

Lemma addr_bit_nil k : addr_bit [] k = false.
Proof. done. Qed.

Lemma addr_bit_above a k : 8 * zlen a <= k → addr_bit a k = false.
Proof.
  intros Hk. unfold addr_bit. rewrite lookup_ge_None_2; [done|].
  assert (zlen a <= k / 8) by (apply Z.div_le_lower_bound; lia). zl.
Qed.

Lemma addr_bits_ext a b :
  bytes a → bytes b → zlen a = zlen b →
  (∀ k, 0 <= k < 8 * zlen a → addr_bit a k = addr_bit b k) → a = b.
Proof.
  intros Ha. revert b. induction Ha as [|x a Hx Ha IH]; intros b Hb Hl H.
  - destruct b; [done|zl].
  - destruct Hb as [|y b Hy Hb]; [zl|]. rewrite !zlen_cons in *.
    pose proof (zlen_nonneg a). f_equal.
    + apply byte_bits_ext; [done|done|]. intros j Hj. specialize (H j ltac:(lia)).
      rewrite !addr_bit_cons in H by lia. by destruct (Z.ltb_spec j 8); [|lia].
    + apply IH; [done|lia|]. intros k Hk. specialize (H (k + 8) ltac:(lia)).
      rewrite !addr_bit_cons in H by lia. destruct (Z.ltb_spec (k + 8) 8); [lia|].
      by replace (k + 8 - 8) with k in H by lia.
Qed.

Lemma addr_bit_app_l a b k : 0 <= k < 8 * zlen a → addr_bit (a ++ b) k = addr_bit a k.
Proof.
  intros Hk. unfold addr_bit. rewrite lookup_app_l; [done|].
  assert (k / 8 < zlen a) by (apply Z.div_lt_upper_bound; lia).
  pose proof (Z.div_pos k 8). zl.
Qed.

(** ** [mask_addr] *)

Lemma zlen_mask_addr a bits : zlen (mask_addr a bits) = zlen a.
Proof.
  revert bits. induction a as [|x a IH]; intros; cbn [mask_addr]; [done|].
  case_match; rewrite !zlen_cons, IH; done.
Qed.

Lemma land_byte x m : byte x → byte m → byte (Z.land x m).
Proof.
  intros Hx Hm. split; [apply Z.land_nonneg; left; zl|].
  destruct (Z.eq_dec (Z.land x m) 0) as [->|Hz]; [lia|].
  apply Z.log2_lt_cancel. eapply Z.le_lt_trans; [apply Z.log2_land; zl|].
  apply Z.min_lt_iff. left. apply Z.le_lt_trans with (Z.log2 255); [apply Z.log2_le_mono; zl|done].
Qed.

Lemma bytes_mask_addr a bits : bytes a → bytes (mask_addr a bits).
Proof.
  intros Ha. revert bits. induction Ha; intros; cbn [mask_addr]; [constructor|].
  case_match; constructor; auto. apply land_byte; [done|apply u8_byte].
Qed.

Lemma mask_addr_bit a bits k :
  0 <= bits → 0 <= k → addr_bit (mask_addr a bits) k = addr_bit a k && (k <? bits).
Proof.
  revert bits k. induction a as [|x a IH]; intros bits k Hb Hk; [done|]. cbn [mask_addr].
  destruct (Z.leb_spec 8 bits).
  - rewrite !addr_bit_cons by done. destruct (Z.ltb_spec k 8).
    + replace (k <? bits) with true by lia. by rewrite andb_true_r.
    + rewrite IH by lia. f_equal. lia.
  - rewrite !addr_bit_cons by done. destruct (Z.ltb_spec k 8).
    + rewrite Z.land_spec, mask_octet_bit by lia. done.
    + rewrite IH by lia. replace (k <? bits) with false by lia.
      by replace (k - 8 <? 0) with false by lia; rewrite !andb_false_r.
Qed.

Lemma mask_addr_fixed a bits :
  bytes a → 0 <= bits →
  mask_addr a bits = a ↔ ∀ k, bits <= k < 8 * zlen a → addr_bit a k = false.
Proof.
  intros Ha Hb. split.
  - intros <- k Hk. rewrite mask_addr_bit by lia. replace (k <? bits) with false by lia.
    apply andb_false_r.
  - intros H. apply addr_bits_ext; [by apply bytes_mask_addr|done|apply zlen_mask_addr|].
    rewrite zlen_mask_addr. intros k Hk. rewrite mask_addr_bit by lia.
    destruct (Z.ltb_spec k bits); [apply andb_true_r|]. rewrite H by lia. done.
Qed.

(** ** [in_range] *)

Lemma octet_range a b bits :
  byte a → byte b → 0 < bits →
  let m := if 8 <=? bits then 0xFF else u8 (Z.shiftl 0xFF (8 - bits)) in
  Z.land a m = Z.land b m ↔ ∀ j, 0 <= j < Z.min 8 bits → Z.testbit a (7 - j) = Z.testbit b (7 - j).
Proof.
  intros Ha Hb Hbits m.
  assert (Hm : ∀ j, 0 <= j < 8 → Z.testbit m (7 - j) = (j <? bits)).
  { intros j Hj. subst m. destruct (Z.leb_spec 8 bits).
    - change 0xFF with (Z.ones 8). rewrite Z.testbit_ones by lia. lia.
    - apply mask_octet_bit; lia. }
  assert (byte m) by (subst m; case_match; [done|apply u8_byte]).
  split.
  - intros H' j Hj. assert (Hj' := f_equal (fun z => Z.testbit z (7 - j)) H'). cbn in Hj'.
    rewrite !Z.land_spec, Hm in Hj' by lia. replace (j <? bits) with true in Hj' by lia.
    by rewrite !andb_true_r in Hj'.
  - intros H'. apply byte_bits_ext; [by apply land_byte..|]. intros j Hj.
    rewrite !Z.land_spec, Hm by lia. destruct (Z.ltb_spec j bits); [|by rewrite !andb_false_r].
    rewrite H' by lia. done.
Qed.

Lemma addr_bit_rd a i x j :
  rd a i = Ok x → 0 <= j < 8 → addr_bit a (8 * i + j) = Z.testbit x (7 - j).
Proof.
  intros [Hi Hx]%rd_Ok_inv Hj. unfold addr_bit.
  replace (8 * i + j) with (j + i * 8) by lia. rewrite Z.div_add, Z_mod_plus_full by lia.
  rewrite (Z.div_small j), (Z.mod_small j), Z.add_0_l by lia. by rewrite Hx.
Qed.

Lemma in_range_loop_spec fuel addr p i bits :
  bytes addr → bytes p → 0 <= i → 0 <= bits → bits < 8 * Z.of_nat fuel - 7 →
  8 * i + bits <= 8 * zlen addr → 8 * i + bits <= 8 * zlen p →
  ∃ r, in_range_loop fuel addr p i bits = Ok r ∧
  (r = true ↔ ∀ k, 8 * i <= k < 8 * i + bits → addr_bit addr k = addr_bit p k).
Proof.
  intros Ha Hp. revert i bits. induction fuel as [|fuel IH]; intros i bits Hi Hb Hf Hla Hlp; [lia|].
  cbn [in_range_loop]. destruct (Z.ltb_spec 0 bits); [|exists true; split; [done|]; split; [lia|done]].
  destruct (rd_in_range addr i) as (x & Hx & Lx); [lia|].
  destruct (rd_in_range p i) as (y & Hy & Ly); [lia|].
  pose proof (Forall_lookup_1 _ _ _ _ Ha Lx) as Bx. pose proof (Forall_lookup_1 _ _ _ _ Hp Ly) as By.
  rewrite Hx; bind_step. rewrite Hy; bind_step.
  set (m := if 8 <=? bits then 0xFF else _).
  pose proof (octet_range x y bits Bx By ltac:(lia)) as Hm. fold m in Hm. cbv zeta in Hm.
  destruct Hm as [Hm1 Hm2].
  destruct (Z.eqb_spec (Z.land x m) (Z.land y m)) as [He|He]; bind_step.
  - destruct (IH (i + 1) (if 8 <=? bits then bits - 8 else 0)) as (r & Hr & Hrt);
      [lia|case_match; lia|case_match; lia|case_match; lia|case_match; lia|].
    exists r. split; [done|]. rewrite Hrt. pose proof (Hm1 He). split; intros H' k Hk.
    + destruct (Z.ltb_spec k (8 * (i + 1))).
      * replace k with (8 * i + (k - 8 * i)) by lia.
        rewrite (addr_bit_rd addr i x), (addr_bit_rd p i y) by (done || lia). auto with lia.
      * apply H'. destruct (Z.leb_spec 8 bits); lia.
    + apply H'. destruct (Z.leb_spec 8 bits); lia.
  - exists false. split; [done|]. split; [done|]. intros H'. exfalso. apply He, Hm2.
    intros j Hj. rewrite <- (addr_bit_rd addr i x), <- (addr_bit_rd p i y) by (done || lia).
    apply H'. lia.
Qed.

Lemma in_range_spec addr p bits :
  bytes addr → bytes p → 0 <= bits <= 256 → bits <= 8 * zlen addr → bits <= 8 * zlen p →
  ∃ r, in_range addr p bits = Ok r ∧
  (r = true ↔ ∀ k, 0 <= k < bits → addr_bit addr k = addr_bit p k).
Proof. intros. apply (in_range_loop_spec 34 addr p 0 bits); try done; lia. Qed.

(** ** Parsing and encoding *)

Lemma bytes_zeros n : bytes (zeros n).
Proof. apply Forall_replicate. zl. Qed.

(** A prefix copied to the front of a zeroed address. *)
Lemma blit_zeros bs n :
  zlen bs <= n → blit (zeros n) 0 bs = Ok (bs ++ zeros (n - zlen bs)).
Proof.
  intros. pose proof (zlen_nonneg bs). rewrite blit_in_range by (rewrite ?zlen_zeros; lia).
  unfold splice, zeros. change (take (Z.to_nat 0) _) with (@nil Z). cbn [app].
  rewrite drop_replicate. do 3 f_equal. lia.
Qed.

Lemma addr_bit_zeros_tail a n k : 8 * zlen a <= k → addr_bit (a ++ zeros n) k = false.
Proof.
  intros Hk. unfold addr_bit. rewrite lookup_app_r by zdiv.
  destruct (zeros n !! _) eqn:E; [|done]. apply lookup_replicate in E as [-> _]. apply Z.bits_0.
Qed.

Lemma family_bits_cases f : family_bits f ≠ 0 → f = ELPIS_ECS_IPV4 ∨ f = ELPIS_ECS_IPV6.
Proof.
  unfold family_bits. destruct (Z.eqb_spec f ELPIS_ECS_IPV4); [by left|].
  destruct (Z.eqb_spec f ELPIS_ECS_IPV6); [by right|done].
Qed.

Lemma family_bits_le f s : 0 <= s <= family_bits f → 0 <= s <= 128.
Proof. unfold family_bits. repeat case_match; lia. Qed.

(** The prefix octets of a well-formed subnet, and the zeros after them. *)
Lemma wf_ecs_addr e :
  wf_ecs e →
  let n := ELPIS_ECS_ADDRLEN (ecs_source e) in
  0 <= n <= 16 ∧ ecs_addr e = slice (ecs_addr e) 0 n ++ zeros (16 - n).
Proof.
  intros (Hf & Hs & _ & Hl & Hb & Hz) n.
  assert (Hn : 0 <= n <= 16).
  { subst n. apply family_bits_le in Hs as ?. unfold ELPIS_ECS_ADDRLEN. zdiv. }
  split; [done|].
  assert (Hsl : zlen (slice (ecs_addr e) 0 n) = n) by (apply zlen_slice; lia).
  apply addr_bits_ext; [done| | |].
  - apply Forall_app. split; [by apply Forall_slice|apply bytes_zeros].
  - rewrite zlen_app, Hsl, zlen_zeros by lia. lia.
  - intros k Hk. destruct (Z.ltb_spec k (8 * n)).
    + rewrite addr_bit_app_l by lia. unfold addr_bit, slice.
      rewrite lookup_take_lt by zdiv. by rewrite lookup_drop.
    + rewrite Hz by (subst n; unfold ELPIS_ECS_ADDRLEN in *; zdiv).
      rewrite addr_bit_zeros_tail by lia. done.
Qed.

Definition ecs_wire (e : elpis_ecs_t) : list Z :=
  [0; ecs_family e; ecs_source e; ecs_scope e]
  ++ slice (ecs_addr e) 0 (ELPIS_ECS_ADDRLEN (ecs_source e)).

Lemma ecs_encode_wf e cap :
  wf_ecs e → 20 <= cap → elpis_ecs_encode e cap = Ok (ecs_wire e).
Proof.
  intros Hwf Hc. destruct (wf_ecs_addr e Hwf) as [Hn _]. destruct Hwf as (Hf & _ & _ & Hl & _).
  unfold elpis_ecs_encode. zfalse (cap <? 4 + ELPIS_ECS_ADDRLEN (ecs_source e)).
  rewrite rds_in_range by lia. bind_step. unfold ecs_wire. by destruct Hf as [-> | ->].
Qed.

Lemma zlen_ecs_wire e : wf_ecs e → zlen (ecs_wire e) = 4 + ELPIS_ECS_ADDRLEN (ecs_source e).
Proof.
  intros Hwf. destruct (wf_ecs_addr e Hwf) as [Hn _]. destruct Hwf as (_ & _ & _ & Hl & _).
  unfold ecs_wire. rewrite zlen_app, zlen_slice by lia. done.
Qed.

Lemma slice_four (p : list Z) len a b c d :
  4 <= len <= zlen p → rd p 0 = Ok a → rd p 1 = Ok b → rd p 2 = Ok c → rd p 3 = Ok d →
  slice p 0 len = [a; b; c; d] ++ slice p 4 (len - 4).
Proof.
  intros Hl Ha Hb Hc Hd.
  rewrite (slice_cons_rd p 0 len a) by (done || lia). change (0 + 1) with 1.
  rewrite (slice_cons_rd p 1 (len - 1) b) by (done || lia). change (1 + 1) with 2.
  rewrite (slice_cons_rd p 2 (len - 1 - 1) c) by (done || lia). change (2 + 1) with 3.
  rewrite (slice_cons_rd p 3 (len - 1 - 1 - 1) d) by (done || lia). change (3 + 1) with 4.
  by replace (len - 1 - 1 - 1 - 1) with (len - 4) by lia.
Qed.

(** What the parser promises of an option. *)
Definition ecs_parse_post (p : list Z) (len : Z) (r : res elpis_ecs_t) : Prop :=
  match r with
  | Ok e => (wf_ecs e ∧ slice p 0 len = ecs_wire e) ∨
            (e = ecs_zero ∧ slice p 0 len = [0; 0; 0; 0])
  | Err rc _ => rc = ELPIS_EFORMAT
  | Stuck _ => False
  end.

Lemma ecs_parse_spec p len :
  bytes p → len <= zlen p → ecs_parse_post p len (elpis_ecs_parse p len).
Proof.
  intros Hp Hl. unfold elpis_ecs_parse. destruct (Z.ltb_spec len 4); bind_step; [done|].
  destruct (rd_in_range p 0) as (a & Ha & La); [lia|]. destruct (rd_in_range p 1) as (b & Hb & Lb); [lia|].
  destruct (rd_in_range p 2) as (c & Hc & Lc); [lia|]. destruct (rd_in_range p 3) as (d & Hd & Ld); [lia|].
  pose proof (Forall_lookup_1 _ _ _ _ Hp La) as Ba. pose proof (Forall_lookup_1 _ _ _ _ Hp Lb) as Bb.
  pose proof (Forall_lookup_1 _ _ _ _ Hp Lc) as Bc. pose proof (Forall_lookup_1 _ _ _ _ Hp Ld) as Bd.
  cbv beta in *. rewrite (get16_value p 0 a b) by done. bind_step.
  rewrite Hc; bind_step. rewrite Hd; bind_step.
  pose proof (slice_four p len a b c d ltac:(lia) Ha Hb Hc Hd) as Hs.
  unfold be2. destruct (Z.eqb_spec (a * 256 + b) 0) as [H0|H0].
  { destruct (_ || _)%bool eqn:E; bind_step; [done|]. bool_to_prop. right.
    assert (a = 0 ∧ b = 0) as [-> ->] by zl. subst c d. split; [done|].
    rewrite Hs. by replace (len - 4) with 0 by lia. }
  destruct (_ || _)%bool eqn:E; bind_step; [done|]. bool_to_prop.
  destruct (Z.eqb_spec (len - 4) (ELPIS_ECS_ADDRLEN c)) as [Hn|]; bind_step; [|done].
  rewrite rds_in_range by lia. bind_step.
  pose proof (family_bits_cases (a * 256 + b) ltac:(lia)) as Hf.
  assert (a = 0 ∧ b <> 0) as [-> Hb0] by (unfold ELPIS_ECS_IPV4, ELPIS_ECS_IPV6 in Hf; zl).
  change (0 * 256 + b) with (0 + b) in *. rewrite Z.add_0_l in *.
  assert (Hsl : zlen (slice p 4 (len - 4)) = len - 4) by (apply zlen_slice; lia).
  assert (H16 : len - 4 <= 16).
  { rewrite Hn. pose proof (family_bits_le b c). unfold ELPIS_ECS_ADDRLEN. zdiv. }
  rewrite blit_zeros by lia. rewrite Hsl. bind_step.
  case_bool_decide as Hm; cbn [negb guard_err mbind res_bind]; [|done].
  assert (Hba : bytes (slice p 4 (len - 4) ++ zeros (16 - (len - 4))))
    by (apply Forall_app; split; [by apply Forall_slice|apply bytes_zeros]).
  pose proof (proj1 (mask_addr_fixed _ c Hba ltac:(zl)) Hm) as Hz. clear Hm. rename Hz into Hm.
  rewrite zlen_app, Hsl, zlen_zeros in Hm by lia.
  rewrite u8_id by done. left. split.
  - split_and!; cbn; try done; try zl.
    + rewrite zlen_app, Hsl, zlen_zeros by lia. lia.
    + intros k Hk. apply Hm. lia.
  - rewrite Hs. unfold ecs_wire. cbn [ecs_family ecs_source ecs_scope ecs_addr]. f_equal.
    rewrite <- Hn. rewrite slice_app_l by lia. symmetry. apply slice_0_all. lia.
Qed.

Lemma ecs_wire_inj e e' : wf_ecs e → wf_ecs e' → ecs_wire e = ecs_wire e' → e = e'.
Proof.
  intros H H' Hw. unfold ecs_wire in Hw. destruct (wf_ecs_addr e H) as [_ Ha].
  destruct (wf_ecs_addr e' H') as [_ Ha']. injection Hw as Hf Hs Hc Hsl.
  destruct e, e'; cbn in *. subst. f_equal. rewrite Ha, Ha'. by rewrite Hsl.
Qed.

Lemma ecs_parse_wire_app e rest :
  wf_ecs e → bytes rest → elpis_ecs_parse (ecs_wire e ++ rest) (zlen (ecs_wire e)) = Ok e.
Proof.
  intros Hwf Hr.
  pose proof Hwf as (Hf & Hs & Hsc & Hl & Hb & _). pose proof (zlen_ecs_wire e Hwf) as Hz.
  assert (Hbw : bytes (ecs_wire e)).
  { apply Forall_app. split; [|by apply Forall_slice].
    apply family_bits_le in Hs, Hsc. do 4 (constructor; [unfold ELPIS_ECS_IPV4, ELPIS_ECS_IPV6 in Hf; zl|]). constructor. }
  unshelve epose proof (ecs_parse_spec (ecs_wire e ++ rest) (zlen (ecs_wire e)) _ _) as H.
  { by apply Forall_app. }
  { rewrite zlen_app. pose proof (zlen_nonneg rest). lia. }
  revert H. unfold ecs_parse_post. rewrite slice_0_app.
  destruct (elpis_ecs_parse _ _) as [e'|rc d|f] eqn:E; [|intros ->; exfalso|done].
  - intros [[Hwf' Hw]|[_ Hw]]; [by rewrite (ecs_wire_inj e e')|].
    injection Hw as Hf0 _ _ _. rewrite Hf0 in Hf. by destruct Hf.
  - revert E. unfold elpis_ecs_parse. rewrite Hz.
    destruct (wf_ecs_addr e Hwf) as [Hn Ha]. zfalse (4 + ELPIS_ECS_ADDRLEN (ecs_source e) <? 4). bind_step.
    unfold ecs_wire. rewrite <- app_assoc.
    rewrite (get16_value _ 0 0 (ecs_family e)); [|done|done|done|by destruct Hf as [-> | ->]]. bind_step.
    change (rd _ 2) with (Ok (ecs_source e)). change (rd _ 3) with (Ok (ecs_scope e)). bind_step.
    change (be2 0 (ecs_family e)) with (0 + ecs_family e). rewrite Z.add_0_l.
    assert ((ecs_family e =? 0) = false) as -> by (by destruct Hf as [-> | ->]).
    assert ((family_bits (ecs_family e) =? 0) = false) as -> by (by destruct Hf as [-> | ->]).
    zfalse (family_bits (ecs_family e) <? ecs_source e). zfalse (family_bits (ecs_family e) <? ecs_scope e).
    bind_step. replace (4 + ELPIS_ECS_ADDRLEN (ecs_source e) - 4) with (ELPIS_ECS_ADDRLEN (ecs_source e)) by lia.
    rewrite Z.eqb_refl. bind_step. rewrite rds_app_r by (change (zlen _) with 4; lia).
    set (n := ELPIS_ECS_ADDRLEN (ecs_source e)) in *. set (a := slice _ _ _) in *.
    assert (Hla : zlen a = n) by (apply zlen_slice; lia).
    change (4 - zlen _) with 0. rewrite rds_in_range by (rewrite ?zlen_app; pose proof (zlen_nonneg rest); lia).
    rewrite slice_app_l, (slice_0_all a) by lia. bind_step. rewrite blit_zeros by lia. bind_step.
    rewrite Hla, <- Ha. rewrite bool_decide_true; [done|]. apply mask_addr_fixed; [done|lia|].
    rewrite Hl. intros k Hk. apply Hwf. lia.
Qed.

Lemma ecs_parse_wire e : wf_ecs e → elpis_ecs_parse (ecs_wire e) (zlen (ecs_wire e)) = Ok e.
Proof. intros. rewrite <- (app_nil_r (ecs_wire e)) at 1. by apply ecs_parse_wire_app. Qed.

(** ** Truncation, comparison and the public test *)

Definition within (addr p : list Z) (bits : Z) : Prop :=
  ∀ k, 0 <= k < bits → addr_bit addr k = addr_bit p k.

Lemma none_in_range_spec source addr ranges :
  bytes addr → zlen addr = 16 →
  Forall (fun '(p, b) => bytes p ∧ 0 <= b <= 8 * zlen p ∧ b <= 128) ranges →
  ∃ r, none_in_range source addr ranges = Ok r ∧
  (r = true ↔ Forall (fun '(p, b) => b <= source → ¬ within addr p b) ranges).
Proof.
  intros Ha Hl. induction 1 as [|[p b] ranges (Hp & Hb & Hb') _ (r & Hr & Hrt)]; [by exists true|].
  cbn [none_in_range]. destruct (Z.leb_spec b source).
  - destruct (in_range_spec addr p b) as (h & Hh & Hht); [done|done|lia..|].
    fold (within addr p b) in Hht. rewrite Hh. bind_step. destruct h.
    + exists false. split; [done|]. split; [done|].
      intros [Hw _]%Forall_cons_1. exfalso. apply Hw; [done|]. exact (proj1 Hht eq_refl).
    + exists r. split; [done|]. rewrite Hrt, Forall_cons_iff. split; [|by intros [_ ?]].
      intros H'. split; [|done]. intros _ Hw. apply (proj2 Hht) in Hw. done.
  - bind_step. exists r. split; [done|]. rewrite Hrt, Forall_cons_iff. split; [|by intros [_ ?]].
    intros H'. split; [lia|done].
Qed.

Lemma ecs_v4_ranges_ok :
  Forall (fun '(p, b) => bytes p ∧ 0 <= b <= 8 * zlen p ∧ b <= 128) ecs_v4_ranges.
Proof. unfold ecs_v4_ranges. repeat (constructor; [by_compute|]). constructor. Qed.

Lemma ecs_same_subnet_spec a b :
  wf_ecs a → wf_ecs b →
  ∃ r, elpis_ecs_same_subnet a b = Ok r ∧
  (r = true ↔ ecs_family a = ecs_family b ∧ ecs_source a = ecs_source b ∧ ecs_addr a = ecs_addr b).
Proof.
  intros Ha Hb. destruct (wf_ecs_addr a Ha) as [Hn Ea]. destruct (wf_ecs_addr b Hb) as [_ Eb].
  assert (zlen (ecs_addr a) = 16) by apply Ha. assert (zlen (ecs_addr b) = 16) by apply Hb.
  unfold elpis_ecs_same_subnet.
  destruct (Z.eqb_spec (ecs_family a) (ecs_family b)) as [Hf|Hf]; cbn [negb];
    [|exists false; split; [done|]; by split; [|intros [? _]]].
  destruct (Z.eqb_spec (ecs_source a) (ecs_source b)) as [Hs|Hs]; cbn [negb];
    [|exists false; split; [done|]; by split; [|intros (_ & ? & _)]].
  rewrite !rds_in_range by lia. bind_step. eexists. split; [done|].
  rewrite bool_decide_eq_true. rewrite <- Hs in Eb. split.
  - intros E. split_and!; [done..|]. by rewrite Ea, Eb, E.
  - by intros (_ & _ & ->).
Qed.

(** ** Properties *)

(** Round trip: a well-formed subnet, encoded into any buffer of at least
    20 octets and followed by anything, parses back to itself. *)
Theorem ecs_encode_parse (e : elpis_ecs_t) (cap : Z) (rest : list Z) :
  wf_ecs e → 20 <= cap → bytes rest →
  ∃ w, elpis_ecs_encode e cap = Ok w ∧ elpis_ecs_parse (w ++ rest) (zlen w) = Ok e.
Proof.
  intros Hwf Hc Hr. exists (ecs_wire e). split; [by apply ecs_encode_wf|by apply ecs_parse_wire_app].
Qed.

Lemma ecs_encode_parse_witness :
  ∃ w, elpis_ecs_encode (mkEcs 1 20 0 ([203; 0; 112] ++ zeros 13)) 20 = Ok w ∧
       elpis_ecs_parse (w ++ [7]) (zlen w) = Ok (mkEcs 1 20 0 ([203; 0; 112] ++ zeros 13)).
Proof.
  apply (ecs_encode_parse (mkEcs 1 20 0 ([203; 0; 112] ++ zeros 13)) 20 [7]); [|lia|by_compute].
  split_and!; [by left|by_compute..|].
  cbn [ecs_source ecs_addr]. intros k Hk. apply (mask_addr_fixed _ 20); [by_compute|lia|by vm_compute|].
  change (zlen _) with 16. lia.
Defined.

(** The option parser never reads outside the option, and what it accepts
    is either the "no subnet" option or a well-formed subnet whose encoding is
    exactly the octets it was given: no prefix longer than the family, no
    surplus address octets, no bit set past SOURCE. *)
Theorem ecs_parse_canonical (p : list Z) (len : Z) :
  bytes p → len <= zlen p →
  match elpis_ecs_parse p len with
  | Ok e => (wf_ecs e ∧ elpis_ecs_encode e 20 = Ok (slice p 0 len)) ∨
            (e = ecs_zero ∧ slice p 0 len = [0; 0; 0; 0])
  | Err rc _ => rc = ELPIS_EFORMAT
  | Stuck _ => False
  end.
Proof.
  intros Hp Hl. pose proof (ecs_parse_spec p len Hp Hl) as H.
  destruct (elpis_ecs_parse p len) as [e| |]; [|done|done].
  destruct H as [[Hwf ->]|?]; [left|by right]. split; [done|]. by apply ecs_encode_wf.
Qed.

Lemma ecs_parse_canonical_witness :
  match elpis_ecs_parse [0; 1; 24; 0; 203; 0; 113; 9] 7 with
  | Ok e => (wf_ecs e ∧ elpis_ecs_encode e 20 = Ok (slice [0; 1; 24; 0; 203; 0; 113; 9] 0 7)) ∨
            (e = ecs_zero ∧ slice [0; 1; 24; 0; 203; 0; 113; 9] 0 7 = [0; 0; 0; 0])
  | Err rc _ => rc = ELPIS_EFORMAT
  | Stuck _ => False
  end.
Proof. apply (ecs_parse_canonical [0; 1; 24; 0; 203; 0; 113; 9] 7); by_compute. Defined.

(** Truncation keeps exactly the leading bits it may: the result is a
    well-formed subnet of the same family with SCOPE 0, its prefix is the
    smaller of the old one and the cap, every bit below it is the client's and
    every bit past it is zero. *)
Theorem ecs_truncate_prefix (e : elpis_ecs_t) (v4bits v6bits : Z) :
  wf_ecs e → 0 <= v4bits → 0 <= v6bits →
  let t := elpis_ecs_truncate e v4bits v6bits in
  wf_ecs t ∧ ecs_family t = ecs_family e ∧ ecs_scope t = 0 ∧
  ecs_source t = Z.min (ecs_source e) (if ecs_family e =? ELPIS_ECS_IPV4 then v4bits else v6bits) ∧
  ∀ k, 0 <= k → addr_bit (ecs_addr t) k = addr_bit (ecs_addr e) k && (k <? ecs_source t).
Proof.
  intros (Hf & Hs & Hsc & Hl & Hb & Hz) H4 H6. cbv zeta. unfold elpis_ecs_truncate.
  set (cap := if ecs_family e =? ELPIS_ECS_IPV4 then _ else _).
  assert (Hcap : 0 <= cap) by (subst cap; case_match; done).
  assert (Hsrc : (if cap <? ecs_source e then u8 cap else ecs_source e) = Z.min (ecs_source e) cap).
  { pose proof (family_bits_le _ _ Hs). destruct (Z.ltb_spec cap (ecs_source e)); [|lia].
    rewrite u8_id by zl. lia. }
  rewrite Hsrc. cbn [ecs_family ecs_source ecs_scope ecs_addr]. unfold wf_ecs.
  cbn [ecs_family ecs_source ecs_scope ecs_addr].
  split_and!; try done; try lia.
  - by rewrite zlen_mask_addr.
  - by apply bytes_mask_addr.
  - intros k Hk. rewrite mask_addr_bit by lia.
    replace (k <? Z.min (ecs_source e) cap) with false by lia. apply andb_false_r.
  - intros k Hk. apply mask_addr_bit; lia.
Qed.

Lemma ecs_truncate_prefix_witness :
  let e := mkEcs 1 32 0 ([203; 0; 113; 77] ++ zeros 12) in
  let t := elpis_ecs_truncate e 24 56 in
  wf_ecs t ∧ ecs_family t = ecs_family e ∧ ecs_scope t = 0 ∧
  ecs_source t = Z.min (ecs_source e) (if ecs_family e =? ELPIS_ECS_IPV4 then 24 else 56) ∧
  ∀ k, 0 <= k → addr_bit (ecs_addr t) k = addr_bit (ecs_addr e) k && (k <? ecs_source t).
Proof.
  apply (ecs_truncate_prefix (mkEcs 1 32 0 ([203; 0; 113; 77] ++ zeros 12)) 24 56); [|lia|lia].
  split_and!; [by left|by_compute..|].
  cbn [ecs_source ecs_addr]. intros k Hk. apply (mask_addr_fixed _ 32); [by_compute|lia|by vm_compute|].
  change (zlen _) with 16. lia.
Defined.

(** The public test reads only the address and decides exactly this: a
    non-empty IPv4 prefix is public unless it lies inside one of the thirteen
    listed ranges, an IPv6 one if it lies in 2000::/3 but not in
    2001:db8::/32. *)
Theorem ecs_is_public_iff (e : elpis_ecs_t) :
  wf_ecs e →
  ∃ r, elpis_ecs_is_public e = Ok r ∧
  (r = true ↔ 0 < ecs_source e ∧
    if ecs_family e =? ELPIS_ECS_IPV4
    then Forall (fun '(p, b) => b <= ecs_source e → ¬ within (ecs_addr e) p b) ecs_v4_ranges
    else 3 <= ecs_source e ∧ within (ecs_addr e) unicast6 3 ∧
         (32 <= ecs_source e → ¬ within (ecs_addr e) doc6 32)).
Proof.
  intros (Hf & Hs & _ & Hl & Hb & _). unfold elpis_ecs_is_public.
  destruct (Z.eqb_spec (ecs_source e) 0) as [->|Hs0].
  { exists false. split; [done|]. split; [done|]. intros [? _]. lia. }
  assert (0 < ecs_source e) by lia.
  destruct Hf as [E|E]; rewrite E.
  - destruct (none_in_range_spec (ecs_source e) (ecs_addr e) ecs_v4_ranges Hb Hl ecs_v4_ranges_ok)
      as (r & Hr & Hrt). exists r. split; [done|]. rewrite Hrt. by split; [|intros [_ ?]].
  - change (ELPIS_ECS_IPV6 =? ELPIS_ECS_IPV4) with false. change (ELPIS_ECS_IPV6 =? ELPIS_ECS_IPV6) with true.
    cbv iota. destruct (Z.leb_spec 3 (ecs_source e)); cbn [negb].
    2: { exists false. split; [done|]. split; [done|]. intros (_ & ? & _). lia. }
    destruct (in_range_spec (ecs_addr e) unicast6 3) as (u & Hu & Hut); [done|by_compute|lia|lia|by_compute|].
    rewrite Hu. bind_step. fold (within (ecs_addr e) unicast6 3) in Hut. destruct u; cbn [negb].
    2: { exists false. split; [done|]. split; [done|]. intros (_ & _ & Hw & _). by apply (proj2 Hut) in Hw. }
    assert (Hw : within (ecs_addr e) unicast6 3) by exact (proj1 Hut eq_refl).
    destruct (Z.leb_spec 32 (ecs_source e)).
    + destruct (in_range_spec (ecs_addr e) doc6 32) as (d & Hd & Hdt); [done|by_compute|lia|lia|by_compute|].
      rewrite Hd. bind_step. fold (within (ecs_addr e) doc6 32) in Hdt.
      exists (negb d). split; [done|]. destruct d; cbn [negb]; split; try done.
      * intros (_ & _ & _ & H'). exfalso. apply H'; [done|]. exact (proj1 Hdt eq_refl).
      * intros _. split_and!; try done. intros _ Hw2. by apply (proj2 Hdt) in Hw2.
    + exists true. split; [done|]. split; [|done]. intros _. split_and!; try done. lia.
Qed.

Lemma ecs_is_public_iff_witness :
  let e := mkEcs 2 32 0 ([32; 1; 13; 184] ++ zeros 12) in
  ∃ r, elpis_ecs_is_public e = Ok r ∧
  (r = true ↔ 0 < ecs_source e ∧
    if ecs_family e =? ELPIS_ECS_IPV4
    then Forall (fun '(p, b) => b <= ecs_source e → ¬ within (ecs_addr e) p b) ecs_v4_ranges
    else 3 <= ecs_source e ∧ within (ecs_addr e) unicast6 3 ∧
         (32 <= ecs_source e → ¬ within (ecs_addr e) doc6 32)).
Proof.
  apply (ecs_is_public_iff (mkEcs 2 32 0 ([32; 1; 13; 184] ++ zeros 12))).
  split_and!; [by right|by_compute..|].
  cbn [ecs_source ecs_addr]. intros k Hk. apply (mask_addr_fixed _ 32); [by_compute|lia|by vm_compute|].
  change (zlen _) with 16. lia.
Defined.
