(* ===== verification/Msg.v ===== *)
(** DNS message parsing: include/elpis/msg.h and the first half of
    src/dns/msg.c.

    A parsed message points into the caller's buffer, so a record is a set of
    offsets; the buffer is the octet list [m_wire] and every read of it is
    checked.  Bit-fields of one bit are [bool]. *)
From stdpp Require Import base list numbers.
From Stdlib Require Import ZArith Lia.
From S2P Require Import Prelude Bytes Simd Name Ecs.

(** ** Protocol constants (include/elpis/dns.h) *)
Definition ELPIS_HDR_LEN : Z := 12.
Definition ELPIS_MAX_UDP_LEGACY : Z := 512.
Definition ELPIS_FLAG_QR : Z := 0x8000.
Definition ELPIS_RCODE_MASK : Z := 0x000F.
Definition ELPIS_OPCODE_MASK : Z := 0x7800.
Definition ELPIS_OPCODE_SHIFT : Z := 11.
Definition ELPIS_T_OPT : Z := 41.
Definition ELPIS_EDNS_DO : Z := 0x8000.
Definition ELPIS_OPT_ECS : Z := 8.
Definition ELPIS_OPT_COOKIE : Z := 10.

Definition ELPIS_PARSE_QUERY : Z := 0x01.
Definition ELPIS_PARSE_RESPONSE : Z := 0x02.
Definition ELPIS_PARSE_ANY : Z := 0x03.
Definition ELPIS_PARSE_NO_WALK : Z := 0x04.

(** [x & mask] used as a condition. *)
Definition has_bit (x mask : Z) : bool := negb (Z.land x mask =? 0).

(** ** Data *)

Record elpis_hdr_t := mkHdr {
  h_id : Z; h_flags : Z; h_qdcount : Z; h_ancount : Z; h_nscount : Z; h_arcount : Z }.

Record elpis_rr_t := mkRr {
  rr_name : elpis_name_t; rr_type : Z; rr_klass : Z; rr_ttl : Z;
  rr_rdlen : Z; rr_rdoff : Z; rr_rroff : Z; rr_next_off : Z }.

(** [elpis_rr_iter_t]. *)
Record elpis_rr_iter_t := mkIter { it_wire : list Z; it_len : Z; it_off : Z; it_remain : Z }.

(** The EDNS(0) members of [elpis_msg_t]. *)
Record elpis_msg_edns := mkMsgEdns {
  have_opt : bool; do_bit : bool; have_cookie : bool; have_ecs : bool; ecs_bad : bool;
  edns_bufsize : Z; edns_version : Z; edns_rcode_hi : Z; edns_flags : Z;
  opt_off : Z; opt_rdoff : Z; opt_rdlen : Z; m_cookie : list Z; m_cookie_len : Z;
  m_ecs : elpis_ecs_t }.

Record elpis_msg_t := mkMsg {
  m_wire : list Z; m_len : Z; m_hdr : elpis_hdr_t;
  m_qname : elpis_name_t; m_qtype : Z; m_qclass : Z; m_qend : Z;
  m_sec_off : list Z; m_sec_cnt : list Z; m_edns : elpis_msg_edns }.

Definition edns_zero : elpis_msg_edns :=
  mkMsgEdns false false false false false ELPIS_MAX_UDP_LEGACY 0 0 0 0 0 0 (zeros 40) 0 ecs_zero.

(** The zeroed [elpis_name_t]. *)
Definition name_zero : elpis_name_t := mkName 0 0 [].

Definition elpis_msg_rcode (m : elpis_msg_t) : Z :=
  Z.lor (Z.land (h_flags (m_hdr m)) ELPIS_RCODE_MASK) (Z.shiftl (edns_rcode_hi (m_edns m)) 4).
Definition elpis_msg_opcode (m : elpis_msg_t) : Z :=
  Z.shiftr (Z.land (h_flags (m_hdr m)) ELPIS_OPCODE_MASK) ELPIS_OPCODE_SHIFT.

(** ** Parsing *)

Definition elpis_hdr_parse (wire : list Z) (len : Z) : res elpis_hdr_t :=
  _ ← guard_err (len <? ELPIS_HDR_LEN) ELPIS_EFORMAT ELPIS_DROP_NONE;
  id ← elpis_get16 wire 0;
  flags ← elpis_get16 wire 2;
  qd ← elpis_get16 wire 4;
  an ← elpis_get16 wire 6;
  ns ← elpis_get16 wire 8;
  ar ← elpis_get16 wire 10;
  Ok (mkHdr id flags qd an ns ar).

Fixpoint skip_name_loop (fuel : nat) (w : list Z) (len off total labels : Z) : res Z :=
  match fuel with
  | O => Stuck OutOfFuel
  | S f =>
    _ ← guard_err (len <=? off) ELPIS_EFORMAT ELPIS_DROP_NAME;
    c ← rd w off;
    if Z.land c 0xC0 =? 0xC0 then
      _ ← guard_err (len <? off + 2) ELPIS_EFORMAT ELPIS_DROP_COMPRESS;
      c1 ← rd w (off + 1);
      let tgt := Z.lor (Z.shiftl (Z.land c 0x3F) 8) c1 in
      _ ← guard_err (off <=? tgt) ELPIS_EFORMAT ELPIS_DROP_COMPRESS;
      Ok (off + 2)
    else
      _ ← guard_err (negb (Z.land c 0xC0 =? 0)) ELPIS_EFORMAT ELPIS_DROP_NAME;
      if c =? 0 then
        _ ← guard_err (ELPIS_MAX_NAME <? total + 1) ELPIS_EFORMAT ELPIS_DROP_NAME;
        Ok (off + 1)
      else
        _ ← guard_err (ELPIS_MAX_LABEL <? c) ELPIS_EFORMAT ELPIS_DROP_NAME;
        _ ← guard_err (len <? off + 1 + c) ELPIS_EFORMAT ELPIS_DROP_NAME;
        let total := total + (1 + c) in
        _ ← guard_err (ELPIS_MAX_NAME <? total + 1) ELPIS_EFORMAT ELPIS_DROP_NAME;
        let labels := labels + 1 in
        _ ← guard_err (ELPIS_MAX_LABELS <? labels) ELPIS_EFORMAT ELPIS_DROP_NAME;
        skip_name_loop f w len (off + (1 + c)) total labels
  end.

(** Every label adds at least 2 to [total], which stops at 254. *)
Definition skip_name (w : list Z) (len off : Z) : res Z := skip_name_loop 200 w len off 0 0.

Definition skip_rr (w : list Z) (len off : Z) : res Z :=
  p ← skip_name w len off;
  _ ← guard_err (len <? p + 10) ELPIS_EFORMAT ELPIS_DROP_RDLEN;
  rdlen ← elpis_get16 w (p + 8);
  let p := p + 10 in
  _ ← guard_err (len <? p + rdlen) ELPIS_EFORMAT ELPIS_DROP_RDLEN;
  Ok (p + rdlen).

Definition elpis_rr_iter (m : elpis_msg_t) (s : nat) : res elpis_rr_iter_t :=
  off ← rd (m_sec_off m) (Z.of_nat s);
  cnt ← rd (m_sec_cnt m) (Z.of_nat s);
  Ok (mkIter (m_wire m) (m_len m) off cnt).

(** [None] is ELPIS_ENOTFOUND, the end of the section. *)
Definition elpis_rr_next (it : elpis_rr_iter_t) : res (option (elpis_rr_t * elpis_rr_iter_t)) :=
  if it_remain it =? 0 then Ok None
  else
    '(name, p) ← elpis_name_parse (it_wire it) (it_len it) (it_off it);
    _ ← guard_err (it_len it <? p + 10) ELPIS_EFORMAT ELPIS_DROP_RDLEN;
    type ← elpis_get16 (it_wire it) p;
    klass ← elpis_get16 (it_wire it) (p + 2);
    ttl ← elpis_get32 (it_wire it) (p + 4);
    rdlen ← elpis_get16 (it_wire it) (p + 8);
    let rdoff := p + 10 in
    _ ← guard_err (it_len it <? rdoff + rdlen) ELPIS_EFORMAT ELPIS_DROP_RDLEN;
    let next := rdoff + rdlen in
    Ok (Some (mkRr name type klass ttl rdlen rdoff (it_off it) next,
              mkIter (it_wire it) (it_len it) next (u16 (it_remain it - 1)))).

(** The body of [parse_opt]'s [switch]. *)
Definition parse_opt_one (wire : list Z) (m : elpis_msg_edns) (ocode olen p : Z)
    : res elpis_msg_edns :=
  if ocode =? ELPIS_OPT_COOKIE then
    _ ← guard_err (negb (olen =? 8) && ((olen <? 16) || (40 <? olen))) ELPIS_EFORMAT ELPIS_DROP_EDNS;
    bs ← rds wire p olen;
    cookie ← blit (m_cookie m) 0 bs;
    Ok (mkMsgEdns (have_opt m) (do_bit m) true (have_ecs m) (ecs_bad m) (edns_bufsize m)
          (edns_version m) (edns_rcode_hi m) (edns_flags m) (opt_off m) (opt_rdoff m)
          (opt_rdlen m) cookie (u8 olen) (m_ecs m))
  else if ocode =? ELPIS_OPT_ECS then
    _ ← guard_err (olen <? 4) ELPIS_EFORMAT ELPIS_DROP_EDNS;
    e ← try (bs ← rds wire p olen; elpis_ecs_parse bs olen);
    let '(bad, ecs) := match e with None => (true, m_ecs m) | Some e => (ecs_bad m, e) end in
    Ok (mkMsgEdns (have_opt m) (do_bit m) (have_cookie m) true bad (edns_bufsize m)
          (edns_version m) (edns_rcode_hi m) (edns_flags m) (opt_off m) (opt_rdoff m)
          (opt_rdlen m) (m_cookie m) (m_cookie_len m) ecs)
  else Ok m.

(** [while (p < stop)] *)
Fixpoint parse_opt_loop (fuel : nat) (wire : list Z) (stop p : Z) (m : elpis_msg_edns)
    : res elpis_msg_edns :=
  match fuel with
  | O => Stuck OutOfFuel
  | S f =>
    if p <? stop then
      _ ← guard_err (stop <? p + 4) ELPIS_EFORMAT ELPIS_DROP_EDNS;
      ocode ← elpis_get16 wire p;
      olen ← elpis_get16 wire (p + 2);
      let p := p + 4 in
      _ ← guard_err (stop <? p + olen) ELPIS_EFORMAT ELPIS_DROP_EDNS;
      m ← parse_opt_one wire m ocode olen p;
      parse_opt_loop f wire stop (p + olen) m
    else Ok m
  end.

Definition parse_opt (wire : list Z) (m : elpis_msg_edns) (rr : elpis_rr_t) (flags : Z)
    : res elpis_msg_edns :=
  _ ← guard_err (have_opt m) ELPIS_EFORMAT ELPIS_DROP_MULTI_OPT;
  _ ← guard_err (negb (n_len (rr_name rr) =? 1) && has_bit flags ELPIS_PARSE_QUERY)
        ELPIS_EFORMAT ELPIS_DROP_EDNS;
  let ef := u16 (Z.land (rr_ttl rr) 0xFFFF) in
  parse_opt_loop (S (Z.to_nat (rr_rdlen rr))) wire (rr_rdoff rr + rr_rdlen rr) (rr_rdoff rr)
    (mkMsgEdns true (has_bit ef ELPIS_EDNS_DO) (have_cookie m) (have_ecs m) (ecs_bad m)
       (rr_klass rr) (u8 (Z.shiftr (rr_ttl rr) 16)) (u8 (Z.shiftr (rr_ttl rr) 24)) ef
       (rr_rroff rr) (rr_rdoff rr) (rr_rdlen rr) (m_cookie m) (m_cookie_len m) (m_ecs m)).

(** [for (i = 0; i < m->sec_cnt[s]; i++)]: the offset past the section. *)
Fixpoint skip_rrs (cnt : nat) (w : list Z) (len off : Z) : res Z :=
  match cnt with
  | O => Ok off
  | S c => next ← skip_rr w len off; skip_rrs c w len next
  end.

(** The walk over the three sections: their offsets and the final one. *)
Fixpoint walk_sections (cnts : list Z) (w : list Z) (len off : Z) : res (list Z * Z) :=
  match cnts with
  | [] => Ok ([], off)
  | cnt :: rest =>
    off' ← skip_rrs (Z.to_nat cnt) w len off;
    '(offs, final) ← walk_sections rest w len off';
    Ok (off :: offs, final)
  end.

(** [while ((rc = elpis_rr_next(&it, &rr, &d)) == ELPIS_OK)] over the
    additional section; the loop ends with the section. *)
Fixpoint locate_opt (fuel : nat) (flags : Z) (it : elpis_rr_iter_t) (m : elpis_msg_edns)
    : res elpis_msg_edns :=
  match fuel with
  | O => Stuck OutOfFuel
  | S f =>
    r ← elpis_rr_next it;
    match r with
    | None => Ok m
    | Some (rr, it) =>
      m ← (if rr_type rr =? ELPIS_T_OPT then parse_opt (it_wire it) m rr flags else Ok m);
      locate_opt f flags it m
    end
  end.

(** The same loop over the answer or authority section, which ends silently at
    the first record that does not parse. *)
Fixpoint ban_opt (fuel : nat) (it : elpis_rr_iter_t) : res unit :=
  match fuel with
  | O => Stuck OutOfFuel
  | S f =>
    r ← try (elpis_rr_next it);
    match r with
    | Some (Some (rr, it)) =>
      _ ← guard_err (rr_type rr =? ELPIS_T_OPT) ELPIS_EFORMAT ELPIS_DROP_EDNS;
      ban_opt f it
    | _ => Ok tt
    end
  end.

(** A callee's failure reported with another drop reason. *)
Definition with_drop {A} (d : elpis_drop_t) (m : res A) : res A :=
  match m with Err rc _ => Err rc d | _ => m end.

(** The question: name, type, class and the offset past it. *)
Definition parse_question (wire : list Z) (len qdcount off : Z) : res (elpis_name_t * Z * Z * Z) :=
  if qdcount =? 1 then
    '(qname, qend) ← elpis_name_parse wire len off;
    _ ← guard_err (len <? qend + 4) ELPIS_EFORMAT ELPIS_DROP_SHORT;
    qtype ← elpis_get16 wire qend;
    qclass ← elpis_get16 wire (qend + 2);
    Ok (qname, qtype, qclass, qend + 4)
  else
    _ ← guard_err (negb (qdcount =? 0)) ELPIS_EFORMAT ELPIS_DROP_QDCOUNT;
    Ok (name_zero, 0, 0, off).

Definition set_edns (m : elpis_msg_t) (e : elpis_msg_edns) : elpis_msg_t :=
  mkMsg (m_wire m) (m_len m) (m_hdr m) (m_qname m) (m_qtype m) (m_qclass m) (m_qend m)
    (m_sec_off m) (m_sec_cnt m) e.

Definition set_bufsize (e : elpis_msg_edns) (v : Z) : elpis_msg_edns :=
  mkMsgEdns (have_opt e) (do_bit e) (have_cookie e) (have_ecs e) (ecs_bad e) v
    (edns_version e) (edns_rcode_hi e) (edns_flags e) (opt_off e) (opt_rdoff e)
    (opt_rdlen e) (m_cookie e) (m_cookie_len e) (m_ecs e).

Definition elpis_msg_parse (wire : list Z) (len flags : Z) : res elpis_msg_t :=
  h ← with_drop ELPIS_DROP_SHORT (elpis_hdr_parse wire len);
  let is_resp := has_bit (h_flags h) ELPIS_FLAG_QR in
  _ ← guard_err (is_resp && negb (has_bit flags ELPIS_PARSE_RESPONSE)) ELPIS_EFORMAT ELPIS_DROP_QR_SET;
  _ ← guard_err (negb is_resp && negb (has_bit flags ELPIS_PARSE_QUERY)) ELPIS_EFORMAT ELPIS_DROP_QR_SET;
  '(qname, qtype, qclass, off) ← parse_question wire len (h_qdcount h) ELPIS_HDR_LEN;
  let cnts := [h_ancount h; h_nscount h; h_arcount h] in
  let msg offs := mkMsg wire len h qname qtype qclass off offs cnts edns_zero in
  if has_bit flags ELPIS_PARSE_NO_WALK then Ok (msg [off; off; off])
  else
    '(offs, final) ← walk_sections cnts wire len off;
    _ ← guard_err (negb (final =? len)) ELPIS_EFORMAT ELPIS_DROP_TRAILING;
    let m := msg offs in
    ar ← elpis_rr_iter m 2;
    e ← locate_opt (S (Z.to_nat (h_arcount h))) flags ar (m_edns m);
    an ← elpis_rr_iter m 0;
    _ ← ban_opt (S (Z.to_nat (h_ancount h))) an;
    ns ← elpis_rr_iter m 1;
    _ ← ban_opt (S (Z.to_nat (h_nscount h))) ns;
    let e := if have_opt e && (edns_bufsize e <? 512) then set_bufsize e 512 else e in
    Ok (set_edns m e).

(** ** Abstract view: the frames a message is cut into *)

(** The octets a name takes in place; a pointer aims strictly below itself. *)
Inductive name_frame (w : list Z) (len : Z) : Z → Z → Prop :=
  | frame_root off : off < len → rd w off = Ok 0 → name_frame w len off (off + 1)
  | frame_ptr off c c1 :
      rd w off = Ok c → Z.land c 0xC0 = 0xC0 → off + 2 <= len → rd w (off + 1) = Ok c1 →
      Z.lor (Z.shiftl (Z.land c 0x3F) 8) c1 < off → name_frame w len off (off + 2)
  | frame_label off c e :
      rd w off = Ok c → 1 <= c <= 63 → off + 1 + c <= len →
      name_frame w len (off + 1 + c) e → name_frame w len off e.

(** A record: name, ten octets of fixed fields, RDLENGTH octets. *)
Inductive rr_frame (w : list Z) (len : Z) : Z → Z → Prop :=
  | rr_frame_intro off p rdlen :
      name_frame w len off p → elpis_get16 w (p + 8) = Ok rdlen → p + 10 + rdlen <= len →
      rr_frame w len off (p + 10 + rdlen).

Inductive rr_frames (w : list Z) (len : Z) : nat → Z → Z → Prop :=
  | rr_frames_nil off : rr_frames w len 0 off off
  | rr_frames_cons n off mid e :
      rr_frame w len off mid → rr_frames w len n mid e → rr_frames w len (S n) off e.

(** The records [elpis_rr_next] yields before the section ends or one fails. *)
Fixpoint materialise (cnt : nat) (it : elpis_rr_iter_t) : list elpis_rr_t :=
  match cnt with
  | O => []
  | S c =>
    match elpis_rr_next it with
    | Ok (Some (rr, it')) => rr :: materialise c it'
    | _ => []
    end
  end.

Definition is_opt (rr : elpis_rr_t) : bool := rr_type rr =? ELPIS_T_OPT.

(** What the octets of an accepted OPT leave in the message. *)
Definition opt_ok (e : elpis_msg_edns) : Prop :=
  zlen (m_cookie e) = 40 ∧ bytes (m_cookie e) ∧
  (m_cookie_len e = 8 ∨ 16 <= m_cookie_len e <= 40 ∨ have_cookie e = false ∧ m_cookie_len e = 0) ∧
  (wf_ecs (m_ecs e) ∨ m_ecs e = ecs_zero).

(** ** Skipping *)

Section parse.
Context (w : list Z) (len : Z) (Hw : bytes w) (Hlen : len <= zlen w).

Lemma rd_len i : 0 <= i < len → ∃ b, rd w i = Ok b ∧ byte b.
  Proof.
    intros Hi. destruct (rd_in_range w i) as (b & Hb & Lb); [lia|].
    exists b. split; [done|]. exact (Forall_lookup_1 _ _ _ _ Hw Lb).
  Qed.

Lemma get16_len i : 0 <= i → i + 2 <= len → ∃ v, elpis_get16 w i = Ok v ∧ 0 <= v < 65536.
  Proof.
    intros. pose proof (get16_safe w i Hw ltac:(lia) ltac:(lia)) as H'.
    destruct (elpis_get16 w i) as [v| |] eqn:E; [by exists v| |done].
    exfalso. revert E. unfold elpis_get16, rd. repeat (case_match; cbn; try done).
  Qed.

Lemma get32_len i : 0 <= i → i + 4 <= len → ∃ v, elpis_get32 w i = Ok v ∧ 0 <= v < 2 ^ 32.
  Proof.
    intros. destruct (rd_len i) as (a & Ha & ?); [lia|]. destruct (rd_len (i + 1)) as (b & Hb & ?); [lia|].
    destruct (rd_len (i + 2)) as (c & Hc & ?); [lia|]. destruct (rd_len (i + 3)) as (d & Hd & ?); [lia|].
    exists (be4 a b c d). split; [by apply get32_value|]. unfold be4. zl.
  Qed.

Lemma skip_name_loop_spec fuel : ∀ off total labels,
    0 <= off → 0 <= labels → 2 * labels <= total <= 254 → 254 - total < 2 * Z.of_nat fuel →
    safe (fun e => off < e <= len ∧ name_frame w len off e) (skip_name_loop fuel w len off total labels).
  Proof.
    induction fuel as [|fuel IH]; intros off total labels Ho Hlb Ht Hf; [lia|].
    cbn [skip_name_loop]. destruct (Z.leb_spec len off); bind_step; [done|].
    destruct (rd_len off) as (c & Hc & Bc); [lia|]. rewrite Hc; bind_step.
    destruct (Z.eqb_spec (Z.land c 192) 192) as [Hp|Hp].
    - destruct (Z.ltb_spec len (off + 2)); bind_step; [done|].
      destruct (rd_len (off + 1)) as (c1 & Hc1 & Bc1); [lia|]. rewrite Hc1; bind_step.
      destruct (Z.leb_spec off (Z.lor (Z.shiftl (Z.land c 63) 8) c1)); bind_step; [done|].
      split; [lia|]. by eapply frame_ptr.
    - rewrite land_C0_0 by done. destruct (Z.leb_spec c 63); bind_step; [|done].
      unfold ELPIS_MAX_NAME, ELPIS_MAX_LABEL, ELPIS_MAX_LABELS.
      destruct (Z.eqb_spec c 0) as [->|]; [zfalse (255 <? total + 1); bind_step; split; [lia|by apply frame_root]|].
      zfalse (63 <? c). bind_step. destruct (Z.ltb_spec len (off + 1 + c)); bind_step; [done|].
      destruct (Z.ltb_spec 255 (total + (1 + c) + 1)); bind_step; [done|].
      zfalse (128 <? labels + 1). bind_step.
      eapply safe_mono; [apply IH; zl|]. intros e [He Hfr]. split; [zl|].
      rewrite Z.add_assoc in Hfr. eapply frame_label; [done|zl|done|done].
  Qed.

Lemma skip_name_spec off :
    0 <= off → safe (fun e => off < e <= len ∧ name_frame w len off e) (skip_name w len off).
  Proof. intros. apply skip_name_loop_spec; lia. Qed.

Lemma skip_rr_spec off :
    0 <= off → safe (fun e => off < e <= len ∧ rr_frame w len off e) (skip_rr w len off).
  Proof.
    intros Ho. unfold skip_rr. eapply safe_bind; [by apply skip_name_spec|]. intros p [Hp Hfr].
    destruct (Z.ltb_spec len (p + 10)); bind_step; [done|].
    destruct (get16_len (p + 8)) as (rdlen & Hr & ?); [lia|lia|]. rewrite Hr; bind_step.
    destruct (Z.ltb_spec len (p + 10 + rdlen)); bind_step; [done|]. split; [lia|]. by apply rr_frame_intro.
  Qed.

Lemma skip_rrs_spec cnt off :
    0 <= off <= len →
    safe (fun e => off <= e <= len ∧ rr_frames w len cnt off e) (skip_rrs cnt w len off).
  Proof.
    revert off. induction cnt as [|cnt IH]; intros off Ho; cbn [skip_rrs].
    - split; [lia|constructor].
    - eapply safe_bind; [apply skip_rr_spec; lia|]. intros mid [? Hm].
      eapply safe_mono; [apply IH; lia|]. intros e [? ?]. split; [lia|]. by econstructor.
  Qed.

Lemma skip_name_loop_at fuel limit off ls e j total labels :
    name_at w len limit off ls e j → limit <= off →
    total + zlen (wire ls) <= 255 → labels + zlen ls <= 128 → zlen ls < Z.of_nat fuel →
    skip_name_loop fuel w len off total labels = Ok e.
  Proof.
    intros Hn. revert fuel total labels.
    induction Hn as [limit off ? H0|limit off l ls e j Hl Hr He Hs _ IH
      |limit off c c1 target ls e j Hr Hp Ho Hr1 -> Ht _ _];
      intros fuel total labels Hlim Ht' Hlb Hf; (destruct fuel as [|fuel]; [zl|]); cbn [skip_name_loop];
      unfold ELPIS_MAX_NAME, ELPIS_MAX_LABEL, ELPIS_MAX_LABELS.
    - zfalse (len <=? off). bind_step. rewrite H0. bind_step. cbn [Z.land Z.eqb negb].
      change (zlen (wire [])) with 1 in Ht'. by zfalse (255 <? total + 1).
    - zfalse (len <=? off). bind_step. rewrite Hr. bind_step.
      rewrite zlen_wire_cons, zlen_cons in *. pose proof (zlen_wire_pos ls). pose proof (zlen_nonneg ls).
      assert (Hb : byte (zlen l)) by zl.
      destruct (Z.eqb_spec (Z.land (zlen l) 192) 192) as [E|E]; [pose proof (land_C0_C0 _ Hb E); lia|].
      rewrite land_C0_0 by done. ztrue (zlen l <=? 63). zfalse (zlen l =? 0). zfalse (63 <? zlen l). bind_step.
      zfalse (len <? off + 1 + zlen l). zfalse (255 <? total + (1 + zlen l) + 1). zfalse (128 <? labels + 1).
      bind_step. rewrite Z.add_assoc. apply IH; lia.
    - zfalse (len <=? off). bind_step. rewrite Hr. bind_step. rewrite Hp. cbn [Z.eqb]. rewrite Pos.eqb_refl.
      zfalse (len <? off + 2). bind_step. rewrite Hr1. bind_step.
      by replace (off <=? Z.lor (Z.shiftl (Z.land c 63) 8) c1) with false by lia.
  Qed.

  (** The walk accepts every name the parser accepts, and stops where it does. *)
Lemma skip_name_of_parse off n e :
    0 <= off → elpis_name_parse w len off = Ok (n, e) → skip_name w len off = Ok e.
  Proof.
    intros Ho E. pose proof (name_parse_spec w len Hw Hlen off Ho) as H. rewrite E in H.
    destruct H as (ls & j & Hn & Hok & _ & _).
    pose proof (zlen_labels_of_ok _ Hok). destruct Hok as [_ ?].
    eapply skip_name_loop_at; [done|lia|lia|lia|lia].
  Qed.

  (** ** Records *)

  (** A record the iterator yields, and where it leaves the iterator. *)
Definition rr_ok (it : elpis_rr_iter_t) (rr : elpis_rr_t) (it' : elpis_rr_iter_t) : Prop :=
    wf_name (rr_name rr) ∧ rr_rroff rr = it_off it ∧ it_off it + 11 <= rr_rdoff rr ∧
    0 <= rr_type rr < 65536 ∧ 0 <= rr_klass rr < 65536 ∧ 0 <= rr_ttl rr < 2 ^ 32 ∧
    0 <= rr_rdlen rr < 65536 ∧ rr_next_off rr = rr_rdoff rr + rr_rdlen rr ∧ rr_next_off rr <= len ∧
    skip_rr w len (it_off it) = Ok (rr_next_off rr) ∧
    it' = mkIter w len (rr_next_off rr) (it_remain it - 1).

Definition iter_at (it : elpis_rr_iter_t) : Prop :=
    it_wire it = w ∧ it_len it = len ∧ 0 <= it_off it <= len ∧ 0 <= it_remain it < 65536.

Lemma rr_next_spec it :
    iter_at it →
    safe (fun r => match r with None => it_remain it = 0
                   | Some (rr, it') => 0 < it_remain it ∧ rr_ok it rr it' end) (elpis_rr_next it).
  Proof.
    destruct it as [w' len' off remain]. intros (Ew & El & Ho & Hr). cbn in Ew, El, Ho, Hr. subst w' len'.
    unfold elpis_rr_next. cbn [it_wire it_len it_off it_remain].
    destruct (Z.eqb_spec remain 0) as [|Hrem]; [done|].
    pose proof (name_parse_safe w len off Hw Hlen ltac:(lia)) as Hs.
    destruct (elpis_name_parse w len off) as [[n p]| |] eqn:En; [|done|done].
    destruct Hs as [Hwf Hp]. cbn [mbind res_bind].
    destruct (Z.ltb_spec len (p + 10)); bind_step; [done|].
    destruct (get16_len p) as (type & Et & ?); [lia|lia|]. rewrite Et; bind_step.
    destruct (get16_len (p + 2)) as (klass & Ek & ?); [lia|lia|]. rewrite Ek; bind_step.
    destruct (get32_len (p + 4)) as (ttl & El & ?); [lia|lia|]. rewrite El; bind_step.
    destruct (get16_len (p + 8)) as (rdlen & Er & ?); [lia|lia|]. rewrite Er; bind_step.
    destruct (Z.ltb_spec len (p + 10 + rdlen)); bind_step; [done|].
    split; [lia|]. unfold rr_ok.
    cbn [rr_name rr_type rr_klass rr_ttl rr_rdlen rr_rdoff rr_rroff rr_next_off it_off it_remain].
    rewrite u16_id by lia. split_and!; try done; try lia.
    unfold skip_rr. rewrite (skip_name_of_parse off n p) by (done || lia). bind_step.
    zfalse (len <? p + 10). bind_step. rewrite Er. bind_step. by zfalse (len <? p + 10 + rdlen).
  Qed.

Lemma rr_ok_iter it rr it' : iter_at it → rr_ok it rr it' → 0 < it_remain it → iter_at it'.
  Proof.
    intros (_ & _ & ? & ?) (_ & _ & ? & _ & _ & _ & ? & ? & ? & _ & ->) ?.
    split_and!; cbn; done || lia.
  Qed.

  (** ** The OPT record *)

Lemma opt_ok_zero : opt_ok edns_zero.
  Proof. split_and!; [done|by_compute| |by right]. right. right. done. Qed.

Lemma parse_opt_one_spec m ocode olen p :
    opt_ok m → 0 <= p → 0 <= olen < 65536 → p + olen <= len →
    safe (fun m' => opt_ok m' ∧ have_opt m' = have_opt m ∧ edns_bufsize m' = edns_bufsize m ∧
                    edns_version m' = edns_version m ∧ opt_off m' = opt_off m)
      (parse_opt_one w m ocode olen p).
  Proof.
    intros (Hc & Hb & Hcl & He) Hp Ho Hle. unfold parse_opt_one.
    destruct (ocode =? ELPIS_OPT_COOKIE).
    - destruct (_ && _)%bool eqn:E; bind_step; [done|].
      rewrite rds_in_range by lia. bind_step.
      assert (Hz : zlen (slice w p olen) = olen) by (apply zlen_slice; lia).
      assert (Hol : olen = 8 ∨ 16 <= olen <= 40) by lia.
      rewrite blit_in_range by (rewrite ?Hz; lia). bind_step.
      split; [|by split_and!]. unfold opt_ok. cbn [m_cookie m_cookie_len have_cookie m_ecs].
      split_and!; try done.
      + rewrite zlen_splice; [done|lia|rewrite Hz; lia].
      + unfold splice. repeat apply Forall_app_2; [by apply Forall_take|by apply Forall_slice|by apply Forall_drop].
      + rewrite u8_id by zl. lia.
    - destruct (ocode =? ELPIS_OPT_ECS); [|by split_and!].
      destruct (Z.ltb_spec olen 4); bind_step; [done|]. rewrite rds_in_range by lia. bind_step.
      pose proof (ecs_parse_spec (slice w p olen) olen ltac:(by apply Forall_slice)
        ltac:(rewrite zlen_slice; lia)) as Hs.
      destruct (elpis_ecs_parse _ _) as [e| |]; [| |done]; cbn [try mbind res_bind].
      + split; [|by split_and!]. split_and!; try done. cbn [m_ecs]. destruct Hs as [[? _]|[-> _]]; auto.
      + split; [|by split_and!]. by split_and!.
  Qed.

Lemma parse_opt_loop_spec fuel : ∀ stop p m,
    opt_ok m → 0 <= p <= stop → stop <= len → stop - p < Z.of_nat fuel →
    safe (fun m' => opt_ok m' ∧ have_opt m' = have_opt m ∧ edns_bufsize m' = edns_bufsize m ∧
                    edns_version m' = edns_version m ∧ opt_off m' = opt_off m)
      (parse_opt_loop fuel w stop p m).
  Proof.
    induction fuel as [|fuel IH]; intros stop p m Hm Hp Hs Hf; cbn [parse_opt_loop].
    { lia. }
    destruct (Z.ltb_spec p stop); [|done].
    destruct (Z.ltb_spec stop (p + 4)); bind_step; [done|].
    destruct (get16_len p) as (oc & E1 & ?); [lia|lia|]. rewrite E1; bind_step.
    destruct (get16_len (p + 2)) as (ol & E2 & ?); [lia|lia|]. rewrite E2; bind_step.
    destruct (Z.ltb_spec stop (p + 4 + ol)); bind_step; [done|].
    eapply safe_bind; [apply parse_opt_one_spec; (done || lia)|]. intros m' (Hm' & F1 & F2 & F3 & F4).
    eapply safe_mono; [apply IH; (done || lia)|]. cbn. intros m'' (? & ? & ? & ? & ?).
    rewrite <- F1, <- F2, <- F3, <- F4. by split_and!.
  Qed.

  (** The members [parse_opt] sets from the record itself. *)
Definition opt_from (rr : elpis_rr_t) (m : elpis_msg_edns) : Prop :=
    have_opt m = true ∧ edns_bufsize m = rr_klass rr ∧
    edns_version m = u8 (Z.shiftr (rr_ttl rr) 16) ∧ opt_off m = rr_rroff rr.

Lemma parse_opt_spec m rr flags it it' :
    opt_ok m → rr_ok it rr it' → 0 <= it_off it →
    safe (fun m' => opt_ok m' ∧ have_opt m = false ∧ opt_from rr m') (parse_opt w m rr flags).
  Proof.
    intros Hm (_ & _ & ? & _ & _ & _ & ? & ? & ? & _) Ho. unfold parse_opt.
    destruct (have_opt m) eqn:Eh; bind_step; [done|].
    destruct (_ && _)%bool; bind_step; [done|].
    eapply safe_mono; [apply parse_opt_loop_spec; [done|lia|lia|lia]|].
    cbn [have_opt edns_bufsize edns_version opt_off]. intros m' (? & ? & ? & ? & ?). by split_and!.
  Qed.

  (** What the scan of the additional section has established. *)
Definition located (e : elpis_msg_edns) (recs : list elpis_rr_t) (e' : elpis_msg_edns) : Prop :=
    opt_ok e' ∧
    match filter is_opt recs with
    | [] => e' = e
    | [rr] => have_opt e = false ∧ opt_from rr e'
    | _ => False
    end.

Lemma locate_opt_spec fuel flags : ∀ it e,
    iter_at it → opt_ok e → it_remain it < Z.of_nat fuel →
    let recs := materialise (Z.to_nat (it_remain it)) it in
    safe (fun e' => zlen recs = it_remain it ∧ located e recs e') (locate_opt fuel flags it e).
  Proof.
    induction fuel as [|fuel IH]; intros it e Hit He Hf; [destruct Hit as (_ & _ & _ & ?); lia|].
    cbn zeta. cbn [locate_opt]. pose proof (rr_next_spec it Hit) as Hn.
    destruct (elpis_rr_next it) as [[[rr it']|]| |] eqn:En; cbn [mbind res_bind safe] in *; try done.
    2: { rewrite Hn. by split; [|split]. }
    destruct Hn as [Hrem Hok]. pose proof (rr_ok_iter _ _ _ Hit Hok Hrem) as Hit'.
    pose proof (proj1 Hit) as Hwi. pose proof (proj1 Hit') as Hwi'.
    assert (Hr' : it_remain it' = it_remain it - 1) by (destruct Hok as (_&_&_&_&_&_&_&_&_&_& ->); done).
    replace (Z.to_nat (it_remain it)) with (S (Z.to_nat (it_remain it'))) by lia.
    cbn [materialise]. rewrite En.
    destruct (rr_type rr =? ELPIS_T_OPT) eqn:Et.
    - rewrite Hwi'. eapply safe_bind; [eapply parse_opt_spec; [done|done|destruct Hit as (_ & _ & ? & _); lia]|].
      intros e1 (He1 & Hh & Hfrom). eapply safe_mono; [apply (IH it' e1); (done || lia)|]. cbn zeta.
      intros e' [Hz [Ho Hl]]. split; [rewrite zlen_cons; lia|]. split; [done|].
      rewrite filter_cons_True by (unfold is_opt; by rewrite Et).
      destruct (filter is_opt _) as [|r1 [|]]; [by subst e'| |done].
      destruct Hl as [Hl _]. destruct Hfrom as [Hfrom _]. congruence.
    - cbn [mbind res_bind]. eapply safe_mono; [apply (IH it' e); (done || lia)|]. cbn zeta.
      intros e' [Hz [Ho Hl]]. split; [rewrite zlen_cons; lia|]. split; [done|].
      rewrite filter_cons_False by (unfold is_opt; rewrite Et; by intros []). done.
  Qed.

Lemma ban_opt_spec fuel : ∀ it,
    iter_at it → it_remain it < Z.of_nat fuel →
    safe (fun _ => Forall (fun rr => is_opt rr = false) (materialise (Z.to_nat (it_remain it)) it))
      (ban_opt fuel it).
  Proof.
    induction fuel as [|fuel IH]; intros it Hit Hf; [destruct Hit as (_ & _ & _ & ?); lia|].
    cbn [ban_opt]. pose proof (rr_next_spec it Hit) as Hn.
    destruct (elpis_rr_next it) as [[[rr it']|]| |] eqn:En; cbn [try mbind res_bind safe] in *; try done.
    - destruct Hn as [Hrem Hok]. pose proof (rr_ok_iter _ _ _ Hit Hok Hrem) as Hit'.
      assert (Hr' : it_remain it' = it_remain it - 1) by (destruct Hok as (_&_&_&_&_&_&_&_&_&_& ->); done).
      replace (Z.to_nat (it_remain it)) with (S (Z.to_nat (it_remain it'))) by lia.
      cbn [materialise]. rewrite En. apply safe_guard. intros Et.
      eapply safe_mono; [apply IH; (done || lia)|]. intros [] ?. by constructor.
    - by rewrite Hn.
    - destruct (Z.to_nat (it_remain it)); cbn [materialise]; rewrite ?En; constructor.
  Qed.
End parse.

(** ** Failures carry a reason *)

Definition malformed (rc : elpis_rc_t) (d : elpis_drop_t) : Prop :=
  rc = ELPIS_EFORMAT ∧ d ≠ ELPIS_DROP_NONE.
#[export] Hint Extern 1 (malformed ELPIS_EFORMAT _) => (split; [reflexivity|discriminate]) : errs.

Lemma errs_try {A} E (m : res A) : errs E (try m).
Proof. by destruct m. Qed.
#[export] Hint Resolve errs_try : errs.

Lemma errs_name_parse_loop fuel msg msglen off limit out labels jumps fe :
  errs malformed (name_parse_loop fuel msg msglen off limit out labels jumps fe).
Proof.
  revert off limit out labels jumps fe.
  induction fuel as [|fuel IH]; intros; cbn [name_parse_loop]; errs_auto.
Qed.
Lemma errs_name_parse msg msglen off : errs malformed (elpis_name_parse msg msglen off).
Proof. apply errs_name_parse_loop. Qed.
#[export] Hint Resolve errs_name_parse : errs.

Lemma errs_skip_name_loop fuel w len off total labels :
  errs malformed (skip_name_loop fuel w len off total labels).
Proof.
  revert off total labels. induction fuel as [|fuel IH]; intros; cbn [skip_name_loop]; errs_auto.
Qed.

Lemma errs_skip_rr w len off : errs malformed (skip_rr w len off).
Proof. unfold skip_rr, skip_name. errs_auto. apply errs_skip_name_loop. Qed.
#[export] Hint Resolve errs_skip_rr : errs.

Lemma errs_rr_next it : errs malformed (elpis_rr_next it).
Proof. unfold elpis_rr_next. errs_auto. Qed.
#[export] Hint Resolve errs_rr_next : errs.

Lemma errs_parse_opt_loop fuel w stop p m : errs malformed (parse_opt_loop fuel w stop p m).
Proof.
  revert p m. induction fuel as [|fuel IH]; intros; cbn [parse_opt_loop]; errs_auto.
  unfold parse_opt_one. errs_auto.
Qed.

Lemma errs_parse_opt w m rr flags : errs malformed (parse_opt w m rr flags).
Proof. unfold parse_opt. errs_auto. apply errs_parse_opt_loop. Qed.
#[export] Hint Resolve errs_parse_opt : errs.

Lemma errs_skip_rrs cnt w len off : errs malformed (skip_rrs cnt w len off).
Proof. revert off. induction cnt; intros; cbn [skip_rrs]; errs_auto. Qed.
#[export] Hint Resolve errs_skip_rrs : errs.

Lemma errs_walk cnts w len off : errs malformed (walk_sections cnts w len off).
Proof. revert off. induction cnts; intros; cbn [walk_sections]; errs_auto. Qed.

Lemma errs_locate fuel flags it m : errs malformed (locate_opt fuel flags it m).
Proof. revert it m. induction fuel; intros; cbn [locate_opt]; errs_auto. Qed.

Lemma errs_ban fuel it : errs malformed (ban_opt fuel it).
Proof. revert it. induction fuel; intros; cbn [ban_opt]; errs_auto. Qed.
#[export] Hint Resolve errs_walk errs_locate errs_ban : errs.

Lemma errs_iter E m s : errs E (elpis_rr_iter m s).
Proof. unfold elpis_rr_iter. errs_auto. Qed.
#[export] Hint Resolve errs_iter : errs.

Lemma errs_msg_parse w len flags : errs malformed (elpis_msg_parse w len flags).
Proof.
  unfold elpis_msg_parse, parse_question. apply errs_bind.
  - unfold elpis_hdr_parse. destruct (len <? ELPIS_HDR_LEN); [split; done|]. bind_step.
    assert (H : ∀ A (m : res A), errs (fun _ _ => False) m → errs malformed (with_drop ELPIS_DROP_SHORT m)).
    { by intros A [| |]. }
    apply H. errs_auto.
  - intros h. errs_auto.
Qed.

(** ** [elpis_msg_parse] *)

(** What a message that passed the full walk satisfies. *)
Definition msg_ok (w : list Z) (len flags : Z) (m : elpis_msg_t) : Prop :=
  m_wire m = w ∧ m_len m = len ∧ elpis_hdr_parse w len = Ok (m_hdr m) ∧
  (if has_bit (h_flags (m_hdr m)) ELPIS_FLAG_QR then has_bit flags ELPIS_PARSE_RESPONSE = true
   else has_bit flags ELPIS_PARSE_QUERY = true) ∧
  0 <= h_qdcount (m_hdr m) <= 1 ∧ 12 <= m_qend m <= len ∧
  m_sec_cnt m = [h_ancount (m_hdr m); h_nscount (m_hdr m); h_arcount (m_hdr m)].

Definition section_records (m : elpis_msg_t) (s : nat) : list elpis_rr_t :=
  match elpis_rr_iter m s with
  | Ok it => materialise (Z.to_nat (it_remain it)) it
  | _ => []
  end.

(** The section offsets cut the message into its records, exactly to its end. *)
Definition msg_tiled (w : list Z) (len : Z) (m : elpis_msg_t) : Prop :=
  ∃ o1 o2, m_sec_off m = [m_qend m; o1; o2] ∧
  rr_frames w len (Z.to_nat (h_ancount (m_hdr m))) (m_qend m) o1 ∧
  rr_frames w len (Z.to_nat (h_nscount (m_hdr m))) o1 o2 ∧
  rr_frames w len (Z.to_nat (h_arcount (m_hdr m))) o2 len.

Section parse.
Context (w : list Z) (len : Z) (Hw : bytes w) (Hlen : len <= zlen w).

Lemma hdr_parse_spec :
    safe (fun h => 12 <= len ∧ 0 <= h_qdcount h < 65536 ∧ 0 <= h_ancount h < 65536 ∧
                   0 <= h_nscount h < 65536 ∧ 0 <= h_arcount h < 65536) (elpis_hdr_parse w len).
  Proof.
    unfold elpis_hdr_parse, ELPIS_HDR_LEN. destruct (Z.ltb_spec len 12); bind_step; [done|].
    destruct (get16_len w len Hw Hlen 0) as (? & E0 & ?); [lia..|]. rewrite E0; bind_step.
    destruct (get16_len w len Hw Hlen 2) as (? & E2 & ?); [lia..|]. rewrite E2; bind_step.
    destruct (get16_len w len Hw Hlen 4) as (? & E4 & ?); [lia..|]. rewrite E4; bind_step.
    destruct (get16_len w len Hw Hlen 6) as (? & E6 & ?); [lia..|]. rewrite E6; bind_step.
    destruct (get16_len w len Hw Hlen 8) as (? & E8 & ?); [lia..|]. rewrite E8; bind_step.
    destruct (get16_len w len Hw Hlen 10) as (? & E10 & ?); [lia..|]. rewrite E10; bind_step.
    cbn. lia.
  Qed.

Lemma parse_question_spec qd off :
    0 <= qd < 65536 → 0 <= off <= len →
    safe (fun '(_, _, _, e) => 0 <= qd <= 1 ∧ off <= e <= len) (parse_question w len qd off).
  Proof.
    intros Hq Ho. unfold parse_question. destruct (Z.eqb_spec qd 1) as [->|].
    - eapply safe_bind; [apply (name_parse_safe w len off Hw Hlen); lia|]. intros [n e] [_ He].
      destruct (Z.ltb_spec len (e + 4)); bind_step; [done|].
      destruct (get16_len w len Hw Hlen e) as (? & E & ?); [lia..|]. rewrite E; bind_step.
      destruct (get16_len w len Hw Hlen (e + 2)) as (? & E' & ?); [lia..|]. rewrite E'; bind_step.
      cbn. lia.
    - destruct (Z.eqb_spec qd 0); bind_step; cbn; [lia|done].
  Qed.

Lemma walk_sections_spec a b c off :
    0 <= off <= len →
    safe (fun '(offs, e) => ∃ o1 o2, offs = [off; o1; o2] ∧ off <= o1 <= o2 ∧ o2 <= e <= len ∧
      rr_frames w len (Z.to_nat a) off o1 ∧ rr_frames w len (Z.to_nat b) o1 o2 ∧
      rr_frames w len (Z.to_nat c) o2 e) (walk_sections [a; b; c] w len off).
  Proof.
    intros Ho. cbn [walk_sections].
    pose proof (skip_rrs_spec w len Hw Hlen (Z.to_nat a) off Ho) as Ha.
    destruct (skip_rrs (Z.to_nat a) w len off) as [o1| |]; [|done|done]. destruct Ha as [Ho1 Ha]. bind_step.
    pose proof (skip_rrs_spec w len Hw Hlen (Z.to_nat b) o1 ltac:(lia)) as Hb.
    destruct (skip_rrs (Z.to_nat b) w len o1) as [o2| |]; [|done|done]. destruct Hb as [Ho2 Hb]. bind_step.
    pose proof (skip_rrs_spec w len Hw Hlen (Z.to_nat c) o2 ltac:(lia)) as Hc.
    destruct (skip_rrs (Z.to_nat c) w len o2) as [o3| |]; [|done|done]. destruct Hc as [Ho3 Hc]. bind_step.
    cbn. exists o1, o2. split_and!; (done || lia).
  Qed.

Definition opt_rules (m : elpis_msg_t) : Prop :=
    Forall (fun rr => is_opt rr = false) (section_records m 0) ∧
    Forall (fun rr => is_opt rr = false) (section_records m 1) ∧
    zlen (section_records m 2) = h_arcount (m_hdr m) ∧
    opt_ok (m_edns m) ∧
    match filter is_opt (section_records m 2) with
    | [] => m_edns m = edns_zero
    | [rr] => have_opt (m_edns m) = true ∧ edns_bufsize (m_edns m) = Z.max 512 (rr_klass rr) ∧
              edns_version (m_edns m) = u8 (Z.shiftr (rr_ttl rr) 16) ∧ opt_off (m_edns m) = rr_rroff rr
    | _ => False
    end.

  (** The part of the parser after the walk. *)
Lemma msg_scan_spec m flags a b c o0 o1 o2 :
    m_wire m = w → m_len m = len → m_edns m = edns_zero →
    m_sec_off m = [o0; o1; o2] → m_sec_cnt m = [a; b; c] →
    h_arcount (m_hdr m) = c → 0 <= o0 <= o1 → o1 <= o2 <= len →
    0 <= a < 65536 → 0 <= b < 65536 → 0 <= c < 65536 →
    safe (fun m' => opt_rules m' ∧ ∃ e, m' = set_edns m e)
      (ar ← elpis_rr_iter m 2;
       e ← locate_opt (S (Z.to_nat c)) flags ar (m_edns m);
       an ← elpis_rr_iter m 0;
       _ ← ban_opt (S (Z.to_nat a)) an;
       ns ← elpis_rr_iter m 1;
       _ ← ban_opt (S (Z.to_nat b)) ns;
       let e := if have_opt e && (edns_bufsize e <? 512) then set_bufsize e 512 else e in
       Ok (set_edns m e)).
  Proof.
    destruct m as [w' len' h qn qt qc qe so sc e0]. cbn [m_wire m_len m_edns m_sec_off m_sec_cnt m_hdr].
    intros -> -> -> -> -> Hc ? ? ? ? ?. unfold elpis_rr_iter. cbn [m_wire m_len m_sec_off m_sec_cnt m_edns].
    change (rd [o0; o1; o2] (Z.of_nat 2)) with (Ok o2). change (rd [a; b; c] (Z.of_nat 2)) with (Ok c).
    change (rd [o0; o1; o2] (Z.of_nat 0)) with (Ok o0). change (rd [a; b; c] (Z.of_nat 0)) with (Ok a).
    change (rd [o0; o1; o2] (Z.of_nat 1)) with (Ok o1). change (rd [a; b; c] (Z.of_nat 1)) with (Ok b).
    bind_step.
    eapply safe_bind; [apply (locate_opt_spec w len Hw Hlen);
      [by split_and!; cbn; try lia|apply opt_ok_zero|cbn; lia]|].
    cbn [it_remain]. intros e [Hz [Ho Hl]].
    eapply safe_bind; [apply (ban_opt_spec w len Hw Hlen); [by split_and!; cbn; try lia|cbn; lia]|].
    cbn [it_remain]. intros _ Hb0.
    eapply safe_bind; [apply (ban_opt_spec w len Hw Hlen); [by split_and!; cbn; try lia|cbn; lia]|].
    cbn [it_remain]. intros _ Hb1. cbv zeta. cbn [safe]. split; [|by eexists].
    set (e1 := if (have_opt e && (edns_bufsize e <? 512))%bool then set_bufsize e 512 else e). unfold opt_rules, set_edns, section_records, elpis_rr_iter.
    cbn [m_wire m_len m_sec_off m_sec_cnt m_edns m_hdr].
    change (rd [o0; o1; o2] (Z.of_nat 2)) with (Ok o2). change (rd [a; b; c] (Z.of_nat 2)) with (Ok c).
    change (rd [o0; o1; o2] (Z.of_nat 0)) with (Ok o0). change (rd [a; b; c] (Z.of_nat 0)) with (Ok a).
    change (rd [o0; o1; o2] (Z.of_nat 1)) with (Ok o1). change (rd [a; b; c] (Z.of_nat 1)) with (Ok b).
    cbn [mbind res_bind it_remain].
    split; [done|]. split; [done|]. split; [by rewrite Hz, Hc|]. split.
    - subst e1. by destruct (have_opt e && (edns_bufsize e <? 512))%bool.
    - destruct (filter is_opt _) as [|rr [|]]; [|destruct Hl as [_ (Hh & Hk & Hv & Hof)]|done].
      + subst e1. by rewrite Hl.
      + subst e1. rewrite Hh, Hk. cbn [andb]. destruct (Z.ltb_spec (rr_klass rr) 512);
          cbn [set_bufsize have_opt edns_bufsize edns_version opt_off]; split_and!; (done || lia).
  Qed.

Lemma msg_parse_spec flags :
    safe (fun m => msg_ok w len flags m ∧
      (has_bit flags ELPIS_PARSE_NO_WALK = false → msg_tiled w len m ∧ opt_rules m))
      (elpis_msg_parse w len flags).
  Proof.
    unfold elpis_msg_parse. pose proof hdr_parse_spec as Hh.
    destruct (elpis_hdr_parse w len) as [h| |] eqn:Eh; [|done|done].
    destruct Hh as (Hl12 & Hq & Ha & Hn & Hr). cbn [with_drop mbind res_bind].
    apply safe_guard. intros Hqr1. apply safe_guard. intros Hqr2.
    assert (Hqr : if has_bit (h_flags h) ELPIS_FLAG_QR then has_bit flags ELPIS_PARSE_RESPONSE = true
                  else has_bit flags ELPIS_PARSE_QUERY = true).
    { destruct (has_bit (h_flags h) ELPIS_FLAG_QR); cbn in Hqr1, Hqr2; by apply negb_false_iff. }
    eapply safe_bind; [apply parse_question_spec; unfold ELPIS_HDR_LEN; lia|].
    unfold ELPIS_HDR_LEN. intros [[[qn qt] qc] off] [Hqd Hoff]. cbv zeta.
    destruct (has_bit flags ELPIS_PARSE_NO_WALK) eqn:Ewalk.
    { cbn [safe]. split; [|done]. unfold msg_ok. cbn [m_wire m_len m_hdr m_qend m_sec_cnt]. split_and!; (done || lia). }
    eapply safe_bind; [apply walk_sections_spec; lia|].
    intros [offs final] (o1 & o2 & -> & Ho1 & Ho2 & F1 & F2 & F3).
    apply safe_guard. intros Hf. apply negb_false_iff, Z.eqb_eq in Hf as ->.
    eapply safe_mono; [apply (msg_scan_spec _ flags _ _ _ off o1 o2); (done || lia)|].
    intros m [Hrules [e ->]]. cbn [set_edns m_wire m_len m_hdr m_qend m_sec_cnt].
    split; [unfold msg_ok, set_edns; cbn [m_wire m_len m_hdr m_qend m_sec_cnt]; split_and!; (done || lia)|].
    intros _. split; [|done]. exists o1, o2. by split_and!.
  Qed.
End parse.

(** ** Properties *)

(** C3. Parsing is total: on any octets and any flags it reads nothing outside
    the message and terminates, every rejection is ELPIS_EFORMAT with a drop
    reason, and an accepted message has the QR bit the caller asked for, at
    most one question, and a question that ends inside it. *)
Theorem msg_parse_total (w : list Z) (len flags : Z) :
  bytes w → len <= zlen w →
  match elpis_msg_parse w len flags with
  | Ok m => msg_ok w len flags m
  | Err rc d => rc = ELPIS_EFORMAT ∧ d ≠ ELPIS_DROP_NONE
  | Stuck _ => False
  end.
Proof.
  intros Hw Hl. pose proof (msg_parse_spec w len Hw Hl flags) as Hs.
  pose proof (errs_msg_parse w len flags) as He.
  destruct (elpis_msg_parse w len flags) as [m|rc d|f]; [apply Hs|exact He|exact Hs].
Qed.

(** A query for "a." with an OPT of payload size 4096 that carries a cookie. *)
Definition sample_query : list Z :=
  [0x12; 0x34; 1; 0; 0; 1; 0; 0; 0; 0; 0; 1; 1; 97; 0; 0; 1; 0; 1;
   0; 0; 41; 0x10; 0; 0; 0; 0x80; 0; 0; 12; 0; 10; 0; 8; 1; 2; 3; 4; 5; 6; 7; 8].

Lemma msg_parse_total_witness :
  match elpis_msg_parse sample_query 42 ELPIS_PARSE_QUERY with
  | Ok m => msg_ok sample_query 42 ELPIS_PARSE_QUERY m
  | Err rc d => rc = ELPIS_EFORMAT ∧ d ≠ ELPIS_DROP_NONE
  | Stuck _ => False
  end.
Proof. apply (msg_parse_total sample_query 42 ELPIS_PARSE_QUERY); by_compute. Defined.

(** C4. The walk accounts for every octet: in a message accepted without
    ELPIS_PARSE_NO_WALK the three sections are, from the end of the question on
    and without gaps, exactly as many record frames as the header counts say,
    and the last one ends at the end of the message. *)
Theorem msg_sections_tile (w : list Z) (len flags : Z) (m : elpis_msg_t) :
  bytes w → len <= zlen w → has_bit flags ELPIS_PARSE_NO_WALK = false →
  elpis_msg_parse w len flags = Ok m → msg_tiled w len m.
Proof.
  intros Hw Hl Hf E. pose proof (safe_Ok _ _ _ (msg_parse_spec w len Hw Hl flags) E) as [_ H].
  by apply H.
Qed.

Definition sample_parsed : elpis_msg_t :=
  match elpis_msg_parse sample_query 42 ELPIS_PARSE_QUERY with
  | Ok m => m
  | _ => mkMsg [] 0 (mkHdr 0 0 0 0 0 0) name_zero 0 0 0 [] [] edns_zero
  end.

Lemma msg_sections_tile_witness : msg_tiled sample_query 42 sample_parsed.
Proof. apply (msg_sections_tile sample_query 42 ELPIS_PARSE_QUERY); [by_compute..|by vm_compute]. Defined.

(** OPT handling: every additional record of an accepted message parses,
    at most one is an OPT, and the EDNS members are exactly that record's (a
    payload size below 512 read as 512) or their defaults; no record that can be
    read from the answer or authority section is an OPT; and a stored cookie
    has 8 or 16 to 40 octets and a stored subnet is well formed. *)
Theorem msg_opt_unique (w : list Z) (len flags : Z) (m : elpis_msg_t) :
  bytes w → len <= zlen w → has_bit flags ELPIS_PARSE_NO_WALK = false →
  elpis_msg_parse w len flags = Ok m → opt_rules m.
Proof.
  intros Hw Hl Hf E. pose proof (safe_Ok _ _ _ (msg_parse_spec w len Hw Hl flags) E) as [_ H].
  by apply H.
Qed.

Lemma msg_opt_unique_witness : opt_rules sample_parsed.
Proof. apply (msg_opt_unique sample_query 42 ELPIS_PARSE_QUERY); [by_compute..|by vm_compute]. Defined.

(** The cheap walk never loses a message the parser could read: where the
    name parser accepts a name, [skip_name] accepts it too and stops at the same
    octet. *)
Theorem skip_name_agrees (w : list Z) (len off e : Z) (n : elpis_name_t) :
  bytes w → len <= zlen w → 0 <= off →
  elpis_name_parse w len off = Ok (n, e) → skip_name w len off = Ok e.
Proof. intros Hw Hl. by apply skip_name_of_parse. Qed.

Lemma skip_name_agrees_witness : skip_name [1; 97; 0; 1; 98; 192; 0] 7 3 = Ok 7.
Proof.
  apply (skip_name_agrees [1; 97; 0; 1; 98; 192; 0] 7 3 7 (name_of [[98]; [97]]));
    [by_compute|by_compute|lia|by vm_compute].
Defined.

(** A reply whose first answer is owned by "a" followed by a pointer into that
    same name, which the walk lets through and no reader accepts, and whose
    second answer is an OPT. *)
Definition hidden_opt : list Z :=
  [0; 1; 0x80; 0; 0; 0; 0; 2; 0; 0; 0; 0;
   1; 97; 192; 12; 0; 1; 0; 1; 0; 0; 0; 0; 0; 0;
   0; 0; 41; 16; 0; 0; 0; 0; 0; 0; 0].

(** The ban on an OPT in the answer section looks only at the records
    before the first one whose owner name does not parse: this reply is
    accepted, none of its answers can be read, and an OPT stands among them. *)
Theorem opt_ban_stops_early :
  ∃ m, elpis_msg_parse hidden_opt 37 ELPIS_PARSE_RESPONSE = Ok m ∧
       m_sec_cnt m = [2; 0; 0] ∧ section_records m 0 = [] ∧
       skip_rr hidden_opt 37 12 = Ok 26 ∧
       ∃ rr it, elpis_rr_next (mkIter hidden_opt 37 26 1) = Ok (Some (rr, it)) ∧ rr_type rr = ELPIS_T_OPT.
Proof.
  eexists. split; [vm_compute; reflexivity|]. split; [done|]. split; [by vm_compute|].
  split; [by vm_compute|]. eexists _, _. split; [vm_compute; reflexivity|done].
Qed.
