(* ===== verification/Builder.v ===== *)
(** DNS message construction: the second half of src/dns/msg.c.

    The builder writes into a caller's buffer of [b_cap] octets, all of which
    are in [b_buf]; [content] is the part written so far.  An operation
    returns the new builder together with its return code, since a failed write
    also changes it (the [overflow] bit). *)
From stdpp Require Import base list numbers.
From Stdlib Require Import ZArith Lia.
From S2P Require Import Prelude Bytes Simd Name NameOps Ecs Msg.

(** ** Data *)

Definition ELPIS_BLD_CTAB : Z := 64.

Record elpis_cslot_t := mkSlot { cs_off : Z; cs_name : elpis_name_t }.

Record elpis_bld_t := mkBld {
  b_buf : list Z; b_cap : Z; b_len : Z;
  b_compress : bool; b_overflow : bool; b_track_ttl : bool;
  b_counts : list Z;
  b_ttl_off : list Z; b_ttl_val : list Z; b_nttl : Z; b_ttl_cap : Z;
  b_ctab : list elpis_cslot_t; b_nctab : Z }.

Record elpis_bld_mark_t := mkMark {
  mk_len : Z; mk_counts : list Z; mk_nctab : Z; mk_nttl : Z }.

(** *** Member updates *)

Definition set_buf (b : elpis_bld_t) (buf : list Z) (len : Z) : elpis_bld_t :=
  mkBld buf (b_cap b) len (b_compress b) (b_overflow b) (b_track_ttl b) (b_counts b)
    (b_ttl_off b) (b_ttl_val b) (b_nttl b) (b_ttl_cap b) (b_ctab b) (b_nctab b).
Definition set_overflow (b : elpis_bld_t) (o : bool) : elpis_bld_t :=
  mkBld (b_buf b) (b_cap b) (b_len b) (b_compress b) o (b_track_ttl b) (b_counts b)
    (b_ttl_off b) (b_ttl_val b) (b_nttl b) (b_ttl_cap b) (b_ctab b) (b_nctab b).
Definition set_counts (b : elpis_bld_t) (c : list Z) : elpis_bld_t :=
  mkBld (b_buf b) (b_cap b) (b_len b) (b_compress b) (b_overflow b) (b_track_ttl b) c
    (b_ttl_off b) (b_ttl_val b) (b_nttl b) (b_ttl_cap b) (b_ctab b) (b_nctab b).
Definition set_ttl (b : elpis_bld_t) (off val : list Z) (n : Z) : elpis_bld_t :=
  mkBld (b_buf b) (b_cap b) (b_len b) (b_compress b) (b_overflow b) (b_track_ttl b) (b_counts b)
    off val n (b_ttl_cap b) (b_ctab b) (b_nctab b).
Definition set_ctab (b : elpis_bld_t) (t : list elpis_cslot_t) (n : Z) : elpis_bld_t :=
  mkBld (b_buf b) (b_cap b) (b_len b) (b_compress b) (b_overflow b) (b_track_ttl b) (b_counts b)
    (b_ttl_off b) (b_ttl_val b) (b_nttl b) (b_ttl_cap b) t n.

(** ** Operations *)

(** [ctab] is [None] for a null pointer. *)
Definition elpis_bld_init (buf : list Z) (cap : Z) (ctab : option (list elpis_cslot_t))
    (compress : bool) : elpis_bld_t :=
  mkBld buf cap 0 (compress && match ctab with Some _ => true | None => false end) false false
    [0; 0; 0; 0] [] [] 0 0 (match ctab with Some t => t | None => [] end) 0.

(** The arrays are [None] for null pointers. *)
Definition elpis_bld_track_ttl (b : elpis_bld_t) (off val : option (list Z)) (cap : Z) : elpis_bld_t :=
  let track := match off, val with Some _, Some _ => 0 <? cap | _, _ => false end in
  mkBld (b_buf b) (b_cap b) (b_len b) (b_compress b) (b_overflow b) track (b_counts b)
    (default [] off) (default [] val) 0 cap (b_ctab b) (b_nctab b).

Definition elpis_bld_mark (b : elpis_bld_t) : elpis_bld_mark_t :=
  mkMark (b_len b) (b_counts b) (b_nctab b) (b_nttl b).

Definition elpis_bld_rollback (b : elpis_bld_t) (m : elpis_bld_mark_t) : elpis_bld_t :=
  mkBld (b_buf b) (b_cap b) (mk_len m) (b_compress b) false (b_track_ttl b) (mk_counts m)
    (b_ttl_off b) (b_ttl_val b) (mk_nttl m) (b_ttl_cap b) (b_ctab b) (mk_nctab m).

(** What the operations return. *)
Abbreviation bres := (res (elpis_bld_t * elpis_rc_t)).

(** [if (op(b) != ELPIS_OK) return ELPIS_ETRUNC;] *)
Definition and_then (m : bres) (k : elpis_bld_t → bres) : bres :=
  '(b, rc) ← m;
  if bool_decide (rc = ELPIS_OK) then k b else Ok (b, ELPIS_ETRUNC).

(** Appends [bs] when it fits; the three writers differ only in what they
    store. *)
Definition elpis_bld_bytes (b : elpis_bld_t) (p : list Z) (n : Z) : bres :=
  if b_cap b <? b_len b + n then Ok (set_overflow b true, ELPIS_ETRUNC)
  else
    bs ← rds p 0 n;
    buf ← blit (b_buf b) (b_len b) bs;
    Ok (set_buf b buf (b_len b + n), ELPIS_OK).

Definition elpis_bld_u16 (b : elpis_bld_t) (v : Z) : bres :=
  if b_cap b <? b_len b + 2 then Ok (set_overflow b true, ELPIS_ETRUNC)
  else
    buf ← elpis_put16 (b_buf b) (b_len b) v;
    Ok (set_buf b buf (b_len b + 2), ELPIS_OK).

Definition elpis_bld_u32 (b : elpis_bld_t) (v : Z) : bres :=
  if b_cap b <? b_len b + 4 then Ok (set_overflow b true, ELPIS_ETRUNC)
  else
    buf ← elpis_put32 (b_buf b) (b_len b) v;
    Ok (set_buf b buf (b_len b + 4), ELPIS_OK).

Definition elpis_bld_header (b : elpis_bld_t) (id flags : Z) : bres :=
  h ← elpis_put16 (zeros ELPIS_HDR_LEN) 0 id;
  h ← elpis_put16 h 2 flags;
  elpis_bld_bytes (set_counts (set_buf b (b_buf b) 0) [0; 0; 0; 0]) h ELPIS_HDR_LEN.

(** The loop both registrations share: a slot for [cur] at [o] and for its
    parents at the offsets that follow, while [stop < cur.len]. *)
Fixpoint ctab_fill (fuel : nat) (b : elpis_bld_t) (cur : elpis_name_t) (o stop : Z) : res elpis_bld_t :=
  match fuel with
  | O => Stuck OutOfFuel
  | S f =>
    if stop <? n_len cur then
      if (ELPIS_BLD_CTAB <=? b_nctab b) || (0x4000 <=? o) then Ok b
      else
        t ← blit (b_ctab b) (b_nctab b) [mkSlot (u16 o) cur];
        let b := set_ctab b t (b_nctab b + 1) in
        l ← rd (n_d cur) 0;
        p ← try (elpis_name_parent cur);
        match p with
        | None => Ok b
        | Some cur => ctab_fill f b cur (o + (1 + l)) stop
        end
    else Ok b
  end.

Definition ctab_add (b : elpis_bld_t) (n : elpis_name_t) (off : Z) : res elpis_bld_t :=
  if negb (b_compress b) then Ok b else ctab_fill 256 b n off 1.

(** [for (i = 0; i < b->nctab; i++)]; the offset of the first match. *)
Fixpoint ctab_find_loop (cnt : nat) (b : elpis_bld_t) (n : elpis_name_t) (i : Z) : res (option Z) :=
  match cnt with
  | O => Ok None
  | S c =>
    s ← rd (b_ctab b) i;
    hit ← (if n_len (cs_name s) =? n_len n then elpis_eq_ci (n_d (cs_name s)) (n_d n) (n_len n)
           else Ok false);
    if (hit : bool) then Ok (Some (cs_off s)) else ctab_find_loop c b n (i + 1)
  end.
Definition ctab_find (b : elpis_bld_t) (n : elpis_name_t) : res (option Z) :=
  ctab_find_loop (Z.to_nat (b_nctab b)) b n 0.

Definition elpis_bld_name_raw (b : elpis_bld_t) (n : elpis_name_t) : bres :=
  elpis_bld_bytes b (n_d n) (n_len n).

(** The [for (;;)] over the suffixes of [n], longest first: the first one with
    a slot, and its target. *)
Fixpoint suffix_find (fuel : nat) (b : elpis_bld_t) (suffix : elpis_name_t)
    : res (option (elpis_name_t * Z)) :=
  match fuel with
  | O => Stuck OutOfFuel
  | S f =>
    if n_len suffix <=? 1 then Ok None
    else
      hit ← ctab_find b suffix;
      match hit with
      | Some target => Ok (Some (suffix, target))
      | None =>
        p ← try (elpis_name_parent suffix);
        match p with None => Ok None | Some suffix => suffix_find f b suffix end
      end
  end.

Definition elpis_bld_name (b : elpis_bld_t) (n : elpis_name_t) : bres :=
  let start := b_len b in
  if negb (b_compress b) then elpis_bld_name_raw b n
  else
    hit ← suffix_find 256 b n;
    match hit with
    | Some (suffix, target) =>
      let lit := n_len n - n_len suffix in
      if b_cap b <? b_len b + lit + 2 then Ok (set_overflow b true, ELPIS_ETRUNC)
      else
        bs ← rds (n_d n) 0 lit;
        buf ← blit (b_buf b) (b_len b) bs;
        buf ← blit buf (b_len b + lit) [u8 (Z.lor 0xC0 (Z.shiftr target 8))];
        buf ← blit buf (b_len b + lit + 1) [u8 (Z.land target 0xFF)];
        let b := set_buf b buf (b_len b + lit + 2) in
        b ← (if 0 <? lit then ctab_fill 256 b n start (n_len suffix) else Ok b);
        Ok (b, ELPIS_OK)
    | None =>
      and_then (elpis_bld_name_raw b n) (fun b =>
      b ← ctab_add b n start;
      Ok (b, ELPIS_OK))
    end.

(** [b->counts[0]++] *)
Definition bump_qd (b : elpis_bld_t) : res elpis_bld_t :=
  c ← rd (b_counts b) 0;
  cs ← blit (b_counts b) 0 [u16 (c + 1)];
  Ok (set_counts b cs).

Definition elpis_bld_question (b : elpis_bld_t) (n : elpis_name_t) (type klass : Z) : bres :=
  let start := b_len b in
  and_then (elpis_bld_name_raw b n) (fun b =>
  and_then (elpis_bld_u16 b type) (fun b =>
  and_then (elpis_bld_u16 b klass) (fun b =>
  b ← ctab_add b n start;
  b ← bump_qd b;
  Ok (b, ELPIS_OK)))).

Definition elpis_bld_question_raw (b : elpis_bld_t) (qname : list Z) (qlen type klass : Z) : bres :=
  let start := b_len b in
  if (qlen =? 0) || (ELPIS_MAX_NAME <? qlen) then Ok (b, ELPIS_EFORMAT)
  else
    and_then (elpis_bld_bytes b qname qlen) (fun b =>
    and_then (elpis_bld_u16 b type) (fun b =>
    and_then (elpis_bld_u16 b klass) (fun b =>
    b ← (if b_compress b then
           r ← try (elpis_name_parse_nocomp qname qlen);
           match r with
           | Some (n, used) => if used =? qlen then ctab_add b n start else Ok b
           | None => Ok b
           end
         else Ok b);
    b ← bump_qd b;
    Ok (b, ELPIS_OK)))).

(** Also yields [*rdlen_pos] (0 where the code leaves it unset). *)
Definition elpis_bld_rr_begin (b : elpis_bld_t) (owner : elpis_name_t) (type klass ttl : Z)
    : res (elpis_bld_t * elpis_rc_t * Z) :=
  '(b, rc) ← and_then (elpis_bld_name b owner) (fun b =>
             and_then (elpis_bld_u16 b type) (fun b =>
             and_then (elpis_bld_u16 b klass) (fun b =>
             b ← (if b_track_ttl b && (b_nttl b <? b_ttl_cap b) then
                    offs ← blit (b_ttl_off b) (b_nttl b) [u32 (b_len b)];
                    vals ← blit (b_ttl_val b) (b_nttl b) [ttl];
                    Ok (set_ttl b offs vals (b_nttl b + 1))
                  else Ok b);
             elpis_bld_u32 b ttl)));
  if bool_decide (rc = ELPIS_OK) then
    let rdlen_pos := b_len b in
    '(b, rc) ← elpis_bld_u16 b 0;
    Ok (b, if bool_decide (rc = ELPIS_OK) then ELPIS_OK else ELPIS_ETRUNC, rdlen_pos)
  else Ok (b, ELPIS_ETRUNC, 0).

Definition elpis_bld_rr_end (b : elpis_bld_t) (rdlen_pos : Z) : bres :=
  if b_overflow b then Ok (b, ELPIS_ETRUNC)
  else if b_len b <? rdlen_pos + 2 then Ok (b, ELPIS_ERR)
  else
    let rdlen := b_len b - (rdlen_pos + 2) in
    if 0xFFFF <? rdlen then Ok (b, ELPIS_ETRUNC)
    else
      buf ← elpis_put16 (b_buf b) rdlen_pos (u16 rdlen);
      Ok (set_buf b buf (b_len b), ELPIS_OK).

Definition elpis_bld_count (b : elpis_bld_t) (s : nat) (delta : Z) : bres :=
  let idx := Z.of_nat s + 1 in
  if 3 <? idx then Ok (b, ELPIS_ERR)
  else
    c ← rd (b_counts b) idx;
    let v := c + delta in
    if (v <? 0) || (0xFFFF <? v) then Ok (b, ELPIS_ERR)
    else
      cs ← blit (b_counts b) idx [u16 v];
      Ok (set_counts b cs, ELPIS_OK).

Definition elpis_bld_finish (b : elpis_bld_t) : res elpis_bld_t :=
  if b_len b <? ELPIS_HDR_LEN then Ok b
  else
    c0 ← rd (b_counts b) 0; buf ← elpis_put16 (b_buf b) 4 c0;
    c1 ← rd (b_counts b) 1; buf ← elpis_put16 buf 6 c1;
    c2 ← rd (b_counts b) 2; buf ← elpis_put16 buf 8 c2;
    c3 ← rd (b_counts b) 3; buf ← elpis_put16 buf 10 c3;
    Ok (set_buf b buf (b_len b)).

(** ** Abstract view *)

(** What has been written so far. *)
Definition content (b : elpis_bld_t) : list Z := slice (b_buf b) 0 (b_len b).
Definition slots (b : elpis_bld_t) : list elpis_cslot_t := slice (b_ctab b) 0 (b_nctab b).

(** The representation invariant: the buffer is [b_cap] octets and nothing lies
    past it, the tables have room for what their counters say. *)
Record wf_bld (b : elpis_bld_t) : Prop := {
  w_cap : zlen (b_buf b) = b_cap b;
  w_len : 0 <= b_len b <= b_cap b;
  w_bytes : bytes (b_buf b);
  w_counts : zlen (b_counts b) = 4 ∧ Forall (fun c => 0 <= c < 65536) (b_counts b);
  w_ctab : if b_compress b then zlen (b_ctab b) = 64 else b_nctab b = 0;
  w_nctab : 0 <= b_nctab b <= 64;
  w_ttl : if b_track_ttl b
    then 0 <= b_nttl b <= b_ttl_cap b ∧ b_ttl_cap b <= zlen (b_ttl_off b) ∧ b_ttl_cap b <= zlen (b_ttl_val b)
    else b_nttl b = 0 }.

(** The recorded TTL fields: their offsets and values. *)
Definition ttls (b : elpis_bld_t) : list (Z * Z) :=
  zip (slice (b_ttl_off b) 0 (b_nttl b)) (slice (b_ttl_val b) 0 (b_nttl b)).

(** A slot is good for contents [c]: it names some labels, and those labels can
    be read at its offset, up to case, with fewer pointers than labels. *)
Definition slot_ok (c : list Z) (s : elpis_cslot_t) : Prop :=
  ∃ ls ls' e j, labels_ok ls ∧ cs_name s = name_of ls ∧ 0 <= cs_off s < 0x4000 ∧
  name_at c (zlen c) (cs_off s) (cs_off s) ls' e j ∧ labels_eq ls' ls ∧ j < zlen ls.

Definition good (b : elpis_bld_t) : Prop := wf_bld b ∧ Forall (slot_ok (content b)) (slots b).

(** [b'] continues [b]: it only appended, to the message and to the table. *)
Definition extends (b b' : elpis_bld_t) : Prop :=
  b_cap b' = b_cap b ∧ b_compress b' = b_compress b ∧ b_len b <= b_len b' ∧
  (∃ bs, content b' = content b ++ bs) ∧ (∃ ss, slots b' = slots b ++ ss) ∧
  b_nctab b <= b_nctab b' ∧ b_track_ttl b' = b_track_ttl b ∧
  (∃ tt, ttls b' = ttls b ++ tt) ∧ b_nttl b <= b_nttl b'.

(** ** Lemmas *)

Lemma zlen_content b : wf_bld b → zlen (content b) = b_len b.
Proof. intros H. destruct H as [Hc Hl _ _ _ _ _]. apply zlen_slice; lia. Qed.

Lemma bytes_content b : wf_bld b → bytes (content b).
Proof. intros H. apply Forall_slice, H. Qed.

Lemma buf_split b : wf_bld b → b_buf b = content b ++ drop (Z.to_nat (b_len b)) (b_buf b).
Proof.
  intros H. unfold content, slice. change (Z.to_nat 0) with 0%nat. by rewrite drop_0, take_drop.
Qed.

Lemma slice_0_app_le {A} (l k : list A) n : n = zlen l → slice (l ++ k) 0 n = l.
Proof. intros ->. apply slice_0_app. Qed.

#[export] Instance extends_preorder : PreOrder extends.
Proof.
  split.
  - intros b. split_and!; try done; exists []; by rewrite app_nil_r.
  - intros a b c (? & ? & ? & (bs & Hbs) & (ss & Hss) & ? & ? & (tt & Htt) & ?)
      (? & ? & ? & (bs' & Hbs') & (ss' & Hss') & ? & ? & (tt' & Htt') & ?).
    split_and!; try congruence; try lia.
    + exists (bs ++ bs'). by rewrite Hbs', Hbs, app_assoc.
    + exists (ss ++ ss'). by rewrite Hss', Hss, app_assoc.
    + exists (tt ++ tt'). by rewrite Htt', Htt, app_assoc.
Qed.

(** *** Growing the message keeps what can be read from it *)

Lemma name_at_limit msg len limit limit' off ls e j :
  limit <= limit' → name_at msg len limit off ls e j → name_at msg len limit' off ls e j.
Proof.
  intros Hl H. revert limit' Hl. induction H; intros limit' Hl.
  - by apply name_at_root.
  - apply name_at_label; auto.
  - eapply name_at_ptr; try done. lia.
Qed.

Lemma slot_ok_app c k s : slot_ok c s → slot_ok (c ++ k) s.
Proof.
  intros (ls & ls' & e & j & ? & ? & ? & Hn & ? & ?).
  exists ls, ls', e, j. split_and!; try done; try lia. by eapply name_at_app.
Qed.

(** *** Appending *)

(** The common shape of the three writers. *)
Definition bld_write (b : elpis_bld_t) (bs : list Z) : bres :=
  if b_cap b <? b_len b + zlen bs then Ok (set_overflow b true, ELPIS_ETRUNC)
  else buf ← blit (b_buf b) (b_len b) bs; Ok (set_buf b buf (b_len b + zlen bs), ELPIS_OK).

Lemma bld_bytes_write b p n : 0 <= n <= zlen p → elpis_bld_bytes b p n = bld_write b (slice p 0 n).
Proof.
  intros. unfold elpis_bld_bytes, bld_write. rewrite rds_in_range by lia.
  rewrite zlen_slice by lia. done.
Qed.
Lemma bld_u16_write b v : elpis_bld_u16 b v = bld_write b (put16_bytes v).
Proof. done. Qed.
Lemma bld_u32_write b v : elpis_bld_u32 b v = bld_write b (put32_bytes v).
Proof. done. Qed.
Lemma bld_name_raw_write b ls :
  elpis_bld_name_raw b (name_of ls) = bld_write b (wire ls).
Proof.
  unfold elpis_bld_name_raw. name_fields. pose proof (zlen_nonneg (wire ls)).
  rewrite bld_bytes_write by lia. by rewrite slice_0_all by lia.
Qed.

(** [b'] is [b] with [bs] appended and nothing else changed. *)
Definition appended (b : elpis_bld_t) (bs : list Z) (b' : elpis_bld_t) : Prop :=
  wf_bld b' ∧ content b' = content b ++ bs ∧ ∃ buf, b' = set_buf b buf (b_len b + zlen bs).

Lemma blit_appended b bs buf :
  wf_bld b → bytes bs → b_len b + zlen bs <= b_cap b → blit (b_buf b) (b_len b) bs = Ok buf →
  appended b bs (set_buf b buf (b_len b + zlen bs)).
Proof.
  intros Hwf Hb Hc E. pose proof (zlen_content b Hwf) as Hz. pose proof (buf_split b Hwf) as Hs.
  pose proof Hwf as [Hcap Hlen Hby Hcnt Htab Hn Httl].
  rewrite Hs, blit_at in E; [|done|].
  2: { rewrite zlen_drop. lia. }
  injection E as <-. pose proof (zlen_nonneg bs).
  assert (Hc' : slice ((content b ++ bs) ++ drop (length bs) (drop (Z.to_nat (b_len b)) (b_buf b))) 0
    (b_len b + zlen bs) = content b ++ bs) by (apply slice_0_app_le; rewrite zlen_app; lia).
  split; [|split; [exact Hc'|by eexists]].
  constructor; cbn [set_buf b_buf b_cap b_len b_counts b_compress b_ctab b_nctab b_track_ttl b_ttl_cap
    b_ttl_off b_ttl_val b_nttl]; try done.
  - rewrite !zlen_app, !zlen_drop. zl.
  - lia.
  - repeat apply Forall_app_2; [by apply bytes_content|done|by do 2 apply Forall_drop].
Qed.

Lemma bld_write_spec b bs :
  wf_bld b → bytes bs →
  (b_len b + zlen bs <= b_cap b ∧ ∃ b', bld_write b bs = Ok (b', ELPIS_OK) ∧ appended b bs b') ∨
  (b_cap b < b_len b + zlen bs ∧ bld_write b bs = Ok (set_overflow b true, ELPIS_ETRUNC)).
Proof.
  intros Hwf Hb. unfold bld_write. destruct (Z.ltb_spec (b_cap b) (b_len b + zlen bs)); [by right|left].
  split; [done|]. pose proof Hwf as [Hcap Hlen _ _ _ _ _].
  destruct (blit (b_buf b) (b_len b) bs) as [buf| |] eqn:E;
    [|by rewrite blit_in_range in E by (rewrite ?Hcap; lia)..].
  eexists. split; [done|]. by apply blit_appended.
Qed.

Lemma wf_overflow b o : wf_bld b → wf_bld (set_overflow b o).
Proof. intros []. by constructor. Qed.

Lemma good_overflow b o : good b → good (set_overflow b o).
Proof. intros [? ?]. split; [by apply wf_overflow|done]. Qed.

Lemma extends_overflow b o : extends b (set_overflow b o).
Proof. split_and!; try done; exists []; by rewrite app_nil_r. Qed.

Lemma appended_extends b bs b' : appended b bs b' → extends b b'.
Proof.
  intros (_ & Hc & [buf ->]). pose proof (zlen_nonneg bs).
  split_and!; try done; cbn [set_buf b_len b_nctab]; [lia|by exists bs|exists []; by rewrite app_nil_r|exists []; by rewrite app_nil_r].
Qed.

Lemma appended_good b bs b' : good b → appended b bs b' → good b'.
Proof.
  intros [_ Hs] (Hwf & Hc & [buf ->]). split; [done|]. rewrite Hc.
  eapply Forall_impl; [|exact Hs]. intros s. apply slot_ok_app.
Qed.

Lemma appended_len b bs b' : appended b bs b' → b_len b' = b_len b + zlen bs.
Proof. by intros (_ & _ & [buf ->]). Qed.

(** *** The compression table *)

Lemma ctab_find_loop_spec cnt b ls i :
  wf_bld b → b_compress b = true → labels_ok ls → Forall (slot_ok (content b)) (slots b) →
  0 <= i → i + Z.of_nat cnt = b_nctab b →
  ∃ r, ctab_find_loop cnt b (name_of ls) i = Ok r ∧
  match r with
  | Some t => ∃ s, slot_ok (content b) s ∧ cs_off s = t ∧ ∃ k, labels_ok k ∧ cs_name s = name_of k ∧ labels_eq k ls
  | None => True
  end.
Proof.
  intros Hwf Hc Hls Hs. revert i. induction cnt as [|cnt IH]; intros i Hi Hn; [by exists None|].
  cbn [ctab_find_loop]. pose proof (w_ctab b Hwf) as Ht. rewrite Hc in Ht.
  pose proof (w_nctab b Hwf).
  destruct (rd_in_range (b_ctab b) i) as (s & Hr & Hl); [lia|]. rewrite Hr; bind_step.
  assert (Hin : slots b !! Z.to_nat i = Some s).
  { unfold slots, slice. rewrite lookup_take_lt by lia. by rewrite lookup_drop. }
  pose proof (Forall_lookup_1 _ _ _ _ Hs Hin) as Hok.
  pose proof Hok as (k & k' & e & j & Hk & En & _).
  assert (Heq : (if n_len (cs_name s) =? n_len (name_of ls)
                 then elpis_eq_ci (n_d (cs_name s)) (n_d (name_of ls)) (n_len (name_of ls)) else Ok false)
                = elpis_name_eq (cs_name s) (name_of ls)).
  { unfold elpis_name_eq. destruct (Z.eqb_spec (n_len (cs_name s)) (n_len (name_of ls))) as [->|]; done. }
  rewrite Heq, En, name_eq_spec by done. bind_step. case_bool_decide as He.
  - exists (Some (cs_off s)). split; [done|]. exists s. split_and!; try done. by exists k.
  - apply IH; lia.
Qed.

Lemma ctab_find_spec b ls :
  good b → b_compress b = true → labels_ok ls →
  ∃ r, ctab_find b (name_of ls) = Ok r ∧
  match r with
  | Some t => ∃ s, slot_ok (content b) s ∧ cs_off s = t ∧ ∃ k, labels_ok k ∧ cs_name s = name_of k ∧ labels_eq k ls
  | None => True
  end.
Proof.
  intros [Hwf Hs] Hc Hls. pose proof (w_nctab b Hwf). apply ctab_find_loop_spec; try done; lia.
Qed.

Lemma suffix_find_spec fuel b ls :
  good b → b_compress b = true → labels_ok ls → zlen ls < Z.of_nat fuel →
  ∃ r, suffix_find fuel b (name_of ls) = Ok r ∧
  match r with
  | Some (n, t) => ∃ lits tl, ls = lits ++ tl ∧ n = name_of tl ∧ tl ≠ [] ∧
      ∃ s, slot_ok (content b) s ∧ cs_off s = t ∧ ∃ k, labels_ok k ∧ cs_name s = name_of k ∧ labels_eq k tl
  | None => True
  end.
Proof.
  intros Hg Hc. revert ls. induction fuel as [|fuel IH]; intros ls Hok Hf; [zl|].
  cbn [suffix_find]. name_fields. destruct ls as [|l ls]; [by exists None|].
  rewrite zlen_wire_cons, zlen_cons in *. pose proof (zlen_wire_pos ls).
  pose proof (labels_ok_cons _ _ Hok) as [[? _] Hok'].
  zfalse (1 + zlen l + zlen (wire ls) <=? 1).
  destruct (ctab_find_spec b (l :: ls) Hg Hc Hok) as (r & -> & Hr). bind_step.
  destruct r as [t|].
  - eexists. split; [done|]. exists [], (l :: ls). split_and!; done.
  - rewrite name_parent_spec by done. cbn [try]. bind_step.
    destruct (IH ls Hok' ltac:(lia)) as (r & -> & Hr'). exists r. split; [done|].
    destruct r as [[n t]|]; [|done]. destruct Hr' as (lits & tl & -> & ? & ? & ?).
    exists (l :: lits), tl. split_and!; done.
Qed.

Lemma add_slot b s :
  good b → b_compress b = true → b_nctab b < 64 → slot_ok (content b) s →
  ∃ t, blit (b_ctab b) (b_nctab b) [s] = Ok t ∧
  let b' := set_ctab b t (b_nctab b + 1) in good b' ∧ extends b b'.
Proof.
  intros [Hwf Hs] Hc Hn Hok. pose proof Hwf as [? ? ? ? Ht ? ?]. rewrite Hc in Ht.
  assert (Hz : zlen (slots b) = b_nctab b) by (apply zlen_slice; lia).
  assert (Hsp : b_ctab b = slots b ++ drop (Z.to_nat (b_nctab b)) (b_ctab b)).
  { unfold slots, slice. change (Z.to_nat 0) with 0%nat. by rewrite drop_0, take_drop. }
  set (rest := drop (Z.to_nat (b_nctab b)) (b_ctab b)) in *.
  assert (Hzr : zlen rest = 64 - b_nctab b) by (subst rest; rewrite zlen_drop; lia).
  exists ((slots b ++ [s]) ++ drop 1 rest).
  split; [rewrite Hsp; apply blit_at; [done|change (zlen [s]) with 1; lia]|].
  cbv zeta. set (b' := set_ctab b _ _).
  assert (Hs' : slots b' = slots b ++ [s]).
  { unfold slots at 1. cbn [b' set_ctab b_ctab b_nctab]. apply slice_0_app_le.
    rewrite zlen_app. change (zlen [s]) with 1. lia. }
  split; [split|].
  - constructor; cbn [b' set_ctab b_buf b_cap b_len b_counts b_compress b_ctab b_nctab b_track_ttl
      b_ttl_cap b_ttl_off b_ttl_val b_nttl]; try done; [|lia].
    rewrite Hc. rewrite !zlen_app, zlen_drop. change (zlen [s]) with 1. lia.
  - rewrite Hs'. apply Forall_app_2; [done|]. by constructor.
  - split_and!; try done; cbn [b' set_ctab b_nctab]; [exists []; by rewrite app_nil_r|by exists [s]|lia|exists []; by rewrite app_nil_r].
Qed.

Lemma ctab_fill_spec fuel tl lits : ∀ b o,
  good b → b_compress b = true → labels_ok (lits ++ tl) → zlen lits < Z.of_nat fuel → 0 <= o →
  (∀ p q, lits = p ++ q → q ≠ [] →
     let at_ := o + zlen (enc_labels p) in
     ∃ ls' e j, name_at (content b) (zlen (content b)) at_ at_ ls' e j ∧
                labels_eq ls' (q ++ tl) ∧ j < zlen (q ++ tl)) →
  ∃ b', ctab_fill fuel b (name_of (lits ++ tl)) o (zlen (wire tl)) = Ok b' ∧ good b' ∧ extends b b' ∧
        ∃ t n, b' = set_ctab b t n.
Proof.
  revert lits. induction fuel as [|fuel IH]; intros lits b o Hg Hc Hok Hf Ho Hat; [zl|].
  assert (Hid : ∃ t n, b = set_ctab b t n) by (exists (b_ctab b), (b_nctab b); by destruct b).
  cbn [ctab_fill]. name_fields. destruct lits as [|l lits]; cbn [app] in *.
  { zfalse (zlen (wire tl) <? zlen (wire tl)). exists b. split_and!; done. }
  pose proof (labels_ok_cons _ _ Hok) as [[Hl _] Hok'].
  assert (Hw : zlen (wire tl) <= zlen (wire (lits ++ tl))).
  { rewrite wire_app, zlen_app. pose proof (zlen_nonneg (enc_labels lits)). lia. }
  rewrite zlen_wire_cons. ztrue (zlen (wire tl) <? 1 + zlen l + zlen (wire (lits ++ tl))).
  unfold ELPIS_BLD_CTAB. destruct (Z.leb_spec 64 (b_nctab b)) as [|Hn]; [exists b; by split_and!|].
  destruct (Z.leb_spec 0x4000 o) as [|Ho']; [exists b; by split_and!|]. cbn [orb].
  rewrite u16_id by lia. pose proof Hg as [Hwf Hsl].
  destruct (Hat [] (l :: lits) eq_refl ltac:(done)) as (ls' & e & j & Hna & Hle & Hj).
  change (zlen (enc_labels [])) with 0 in Hna. rewrite Z.add_0_r in Hna. cbn [app] in Hle, Hj.
  destruct (add_slot b (mkSlot o (name_of (l :: lits ++ tl))) Hg Hc Hn) as (t & -> & Hg' & He').
  { exists (l :: lits ++ tl), ls', e, j. split_and!; done. }
  bind_step. change (rd (wire (l :: lits ++ tl)) 0) with (Ok (zlen l)). bind_step.
  rewrite name_parent_spec by done. cbn [try]. bind_step. rewrite zlen_cons in Hf.
  destruct (IH lits (set_ctab b t (b_nctab b + 1)) (o + (1 + zlen l)) Hg' Hc Hok' ltac:(lia) ltac:(lia))
    as (b' & -> & Hgb & Heb & (t' & n' & ->)).
  - intros p q -> Hq. destruct (Hat (l :: p) q eq_refl Hq) as (ls1 & e1 & j1 & Hn1 & ? & ?).
    exists ls1, e1, j1. rewrite enc_labels_cons, zlen_app, zlen_enc_label, Z.add_assoc in Hn1.
    split_and!; done.
  - eexists. split; [done|]. split_and!; [done|by transitivity (set_ctab b t (b_nctab b + 1))|].
    by exists t', n'.
Qed.

(** Registration after a literal prefix [lits] that ends in something reading
    as [tl'] with [j0] pointers. *)
Lemma ctab_fill_literal b pre lits tl tl' post e0 j0 :
  good b → b_compress b = true → labels_ok (lits ++ tl) →
  content b = pre ++ enc_labels lits ++ post →
  name_at (content b) (zlen (content b)) (zlen pre) (zlen pre + zlen (enc_labels lits)) tl' e0 j0 →
  labels_eq tl' tl → j0 <= zlen tl →
  ∃ b', ctab_fill 256 b (name_of (lits ++ tl)) (zlen pre) (zlen (wire tl)) = Ok b' ∧ good b' ∧
        extends b b' ∧ ∃ t n, b' = set_ctab b t n.
Proof.
  intros Hg Hc Hok Hct Hna Hle Hj. pose proof (zlen_labels_of_ok _ Hok) as Hz.
  rewrite zlen_app in Hz. pose proof (zlen_nonneg tl). pose proof (zlen_nonneg pre).
  apply ctab_fill_spec; [done|done|done|lia|done|].
  intros p q -> Hq. cbn zeta. destruct Hok as [Hf _].
  apply Forall_app in Hf as [[Hp Hq']%Forall_app _].
  rewrite enc_labels_app in Hct, Hna. rewrite zlen_app in Hna.
  assert (E : content b = (pre ++ enc_labels p) ++ enc_labels q ++ post)
    by by rewrite Hct, <- !app_assoc.
  exists (q ++ tl'), e0, j0. split_and!.
  - rewrite <- zlen_app, E. apply name_at_literal; [done|lia| |].
    + rewrite !zlen_app. pose proof (zlen_nonneg post). lia.
    + rewrite <- E, zlen_app. replace (zlen pre + zlen (enc_labels p) + zlen (enc_labels q))
        with (zlen pre + (zlen (enc_labels p) + zlen (enc_labels q))) by lia.
      eapply name_at_limit; [|exact Hna]. pose proof (zlen_nonneg (enc_labels p)). lia.
  - unfold labels_eq, fold_labels in *. by rewrite !map_app, Hle.
  - rewrite zlen_app. destruct q; [done|]. rewrite zlen_cons. pose proof (zlen_nonneg q). lia.
Qed.

(** *** [elpis_bld_name] *)

(** The two octets of a pointer, and their reading. *)
Lemma pointer_octets t :
  0 <= t < 0x4000 →
  let c := u8 (Z.lor 0xC0 (Z.shiftr t 8)) in
  let c1 := u8 (Z.land t 0xFF) in
  Z.land c 0xC0 = 0xC0 ∧ Z.lor (Z.shiftl (Z.land c 0x3F) 8) c1 = t.
Proof.
  intros Ht c c1. assert (Hh : 0 <= Z.shiftr t 8 < 64) by (rewrite shiftr_div by lia; zdiv).
  assert (Hc : (Z.land c 0xC0 =? 0xC0) && (Z.land c 0x3F =? Z.shiftr t 8) = true).
  { subst c. assert (Hall : forallb (fun h => (Z.land (u8 (Z.lor 0xC0 h)) 0xC0 =? 0xC0) &&
      (Z.land (u8 (Z.lor 0xC0 h)) 0x3F =? h)) (seqZ 0 64) = true) by by vm_compute.
    rewrite forallb_forall in Hall. apply Hall. apply list_elem_of_In, elem_of_seqZ. lia. }
  bool_to_prop. split; [done|].
  match goal with H : Z.land c 0x3F = _ |- _ => rewrite H end. subst c1.
  change 0xFF with (Z.ones 8). rewrite Z.land_ones by lia. unfold u8. rewrite Zmod_mod.
  rewrite lor_shiftl_add by (try lia; apply Z.mod_pos_bound; lia).
  rewrite shiftr_div by lia. pose proof (Z.div_mod t (2 ^ 8)). lia.
Qed.

(** What writing the name [ls] at the end of [b] achieves. *)
Definition name_written (b : elpis_bld_t) (ls : list (list Z)) (b' : elpis_bld_t) : Prop :=
  (∃ buf t n, b' = set_ctab (set_buf b buf (b_len b')) t n) ∧
  b_len b < b_len b' <= b_len b + zlen (wire ls) ∧
  ∃ ls' j, name_at (content b') (b_len b') (b_len b) (b_len b) ls' (b_len b') j ∧
           labels_eq ls' ls ∧ j <= zlen ls.

Lemma appended2 b bs1 b1 bs2 b2 :
  appended b bs1 b1 → appended b1 bs2 b2 → appended b (bs1 ++ bs2) b2.
Proof.
  intros (W1 & C1 & [buf1 ->]) (W2 & C2 & [buf2 ->]). split_and!; [done|by rewrite C2, C1, app_assoc|].
  exists buf2. rewrite zlen_app, Z.add_assoc. done.
Qed.

Lemma bld_name_raw_spec b ls :
  good b → labels_ok ls →
  (∃ b', elpis_bld_name_raw b (name_of ls) = Ok (b', ELPIS_OK) ∧ good b' ∧ appended b (wire ls) b' ∧
         name_written b ls b') ∨
  (b_cap b < b_len b + zlen (wire ls) ∧
   elpis_bld_name_raw b (name_of ls) = Ok (set_overflow b true, ELPIS_ETRUNC)).
Proof.
  intros Hg Hok. rewrite bld_name_raw_write. pose proof Hg as [Hwf _].
  destruct (bld_write_spec b (wire ls) Hwf ltac:(apply bytes_wire, Hok)) as [[Hc (b' & E & Ha)]|[? ?]];
    [left|by right].
  exists b'. split; [done|]. split; [by eapply appended_good|]. split; [done|].
  pose proof (appended_len _ _ _ Ha) as Hl. pose proof (zlen_wire_pos ls).
  pose proof Ha as (Hwf' & Hct & [buf ->]). split_and!; [|cbn; lia|cbn; lia|].
  - exists buf, (b_ctab b), (b_nctab b). by destruct b.
  - exists ls, 0. split_and!; [|done|apply zlen_nonneg].
    pose proof (name_at_raw (content b) ls (proj1 Hok)) as Hn.
    rewrite <- Hct, (zlen_content _ Hwf'), (zlen_content b Hwf) in Hn. exact Hn.
Qed.

(** Writing a literal prefix and a pointer to a good slot. *)
Lemma bld_pointer_spec b lits tl s k :
  good b → b_compress b = true → labels_ok (lits ++ tl) → slot_ok (content b) s →
  labels_ok k → cs_name s = name_of k → labels_eq k tl → tl ≠ [] →
  let t := cs_off s in
  let n := name_of (lits ++ tl) in
  let lit := n_len n - n_len (name_of tl) in
  b_len b + lit + 2 <= b_cap b →
  ∃ b', (bs ← rds (n_d n) 0 lit;
         buf ← blit (b_buf b) (b_len b) bs;
         buf ← blit buf (b_len b + lit) [u8 (Z.lor 0xC0 (Z.shiftr t 8))];
         buf ← blit buf (b_len b + lit + 1) [u8 (Z.land t 0xFF)];
         let b1 := set_buf b buf (b_len b + lit + 2) in
         b2 ← (if 0 <? lit then ctab_fill 256 b1 n (b_len b) (n_len (name_of tl)) else Ok b1);
         Ok (b2, ELPIS_OK)) = Ok (b', ELPIS_OK) ∧ good b' ∧ extends b b' ∧ name_written b (lits ++ tl) b'.
Proof.
  intros Hg Hc Hok Hs Hk Hn Hkt Htl t n lit Hcap. pose proof Hg as [Hwf _].
  pose proof (zlen_content b Hwf) as Hz. pose proof (w_cap b Hwf). pose proof (w_len b Hwf).
  assert (Hlit : lit = zlen (enc_labels lits)).
  { subst lit n. name_fields. rewrite wire_app, zlen_app. lia. }
  pose proof (zlen_nonneg (enc_labels lits)) as Hp.
  assert (Hrd : rds (n_d n) 0 lit = Ok (enc_labels lits)).
  { subst n. name_fields. rewrite wire_app, Hlit.
    rewrite rds_in_range by (rewrite ?zlen_app; pose proof (zlen_nonneg (wire tl)); lia).
    by rewrite slice_0_app. }
  rewrite Hrd, Hlit in *. clear Hrd Hlit lit. bind_step.
  assert (Hblits : bytes (enc_labels lits)) by (apply bytes_enc_labels; destruct Hok as [[? ?]%Forall_app _]; done).
  set (c := u8 (Z.lor 0xC0 (Z.shiftr t 8))). set (c1 := u8 (Z.land t 0xFF)).
  destruct (blit (b_buf b) (b_len b) (enc_labels lits)) as [buf1| |] eqn:E1;
    [|by rewrite blit_in_range in E1 by lia..]. bind_step.
  apply blit_appended in E1; [|done|done|lia]. pose proof E1 as (W1 & _ & _).
  destruct (blit buf1 (b_len b + zlen (enc_labels lits)) [c]) as [buf2| |] eqn:E2;
    [|rewrite blit_in_range in E2 by (try (pose proof (w_cap _ W1) as W; cbn in W; rewrite W; change (zlen [c]) with 1); lia); done..].
  bind_step. apply (blit_appended (set_buf b buf1 (b_len b + zlen (enc_labels lits))) [c]) in E2; [|exact W1|repeat constructor; apply u8_byte|cbn; change (zlen [c]) with 1; lia].
  pose proof E2 as (W2 & _ & _).
  destruct (blit buf2 (b_len b + zlen (enc_labels lits) + 1) [c1]) as [buf3| |] eqn:E3;
    [|rewrite blit_in_range in E3 by (try (pose proof (w_cap _ W2) as W; cbn in W; rewrite W; change (zlen [c1]) with 1); lia); done..].
  bind_step. apply (blit_appended (set_buf b buf2 (b_len b + zlen (enc_labels lits) + 1)) [c1]) in E3; [|exact W2|repeat constructor; apply u8_byte|cbn; change (zlen [c1]) with 1; lia].
  pose proof (appended2 _ _ _ _ _ (appended2 _ _ _ _ _ E1 E2) E3) as Ha. clear E1 E2 E3.
  change (set_buf _ buf3 _) with (set_buf b buf3 (b_len b + zlen (enc_labels lits) + 1 + 1)) in Ha.
  replace (b_len b + zlen (enc_labels lits) + 1 + 1) with (b_len b + zlen (enc_labels lits) + 2) in Ha by lia.
  set (b1 := set_buf b buf3 _) in *. pose proof (appended_good _ _ _ Hg Ha) as Hg1.
  pose proof (appended_extends _ _ _ Ha) as He1. pose proof Ha as (Hwf1 & Hct & _).
  rewrite <- app_assoc in Hct. cbn [app] in Hct.
  assert (Hlen1 : b_len b1 = b_len b + zlen (enc_labels lits) + 2) by done.
  pose proof (zlen_content b1 Hwf1) as Hz1.
  (* the pointer, read back *)
  assert (Hptr : ∃ tl' j, name_at (content b1) (zlen (content b1)) (b_len b) (b_len b + zlen (enc_labels lits)) tl'
            (b_len b1) j ∧ labels_eq tl' tl ∧ j <= zlen tl).
  { destruct Hs as (k0 & tl' & e & j & Hk0 & En & Ht & Hna & Hle & Hj).
    assert (k0 = k) as ->.
    { rewrite Hn in En. injection En as _ _ E. apply wire_inj in E; [done|apply Hk|apply Hk0]. }
    destruct (pointer_octets t Ht) as [Hp1 Hp2]. fold c c1 in Hp1, Hp2.
    pose proof (name_at_end _ _ _ _ _ _ _ (proj1 Ht) Hna) as [? ?].
    assert (Hkz : zlen k = zlen tl).
    { unfold labels_eq, fold_labels in Hkt. by rewrite <- (zlen_map (map lower_byte) k), Hkt, zlen_map. }
    exists tl', (j + 1). split_and!; [|by rewrite Hle|lia].
    rewrite Hlen1. eapply name_at_ptr; [| |rewrite Hz1, Hlen1; lia| |symmetry; exact Hp2|lia|].
    - rewrite Hct, app_assoc, rd_app_r by (rewrite zlen_app; lia).
      rewrite zlen_app, Hz, Z.sub_diag. done.
    - done.
    - rewrite Hct, app_assoc, rd_app_r by (rewrite zlen_app; lia). rewrite zlen_app, Hz.
      by replace (b_len b + zlen (enc_labels lits) + 1 - (b_len b + zlen (enc_labels lits))) with 1 by lia.
    - rewrite Hct. apply (name_at_app _ _ (zlen (content b))); [lia|done]. }
  destruct Hptr as (tl' & j & Hna & Hle & Hj).
  assert (Hnw : ∀ t' n', name_written b (lits ++ tl) (set_ctab b1 t' n')).
  { intros t' n'. split_and!.
    - exists buf3, t', n'. done.
    - cbn. lia.
    - cbn [set_ctab b_len]. rewrite Hlen1, wire_app, zlen_app.
      destruct tl as [|x tl]; [done|]. rewrite zlen_wire_cons. pose proof (zlen_wire_pos tl).
      destruct Hok as [[_ [[? _] _]%Forall_cons_1]%Forall_app _]. lia.
    - exists (lits ++ tl'), j. split_and!.
      + change (content (set_ctab b1 t' n')) with (content b1). cbn [set_ctab b_len].
        pose proof (name_at_literal (content b) lits [c; c1] (zlen (content b1)) (b_len b) tl' (b_len b1) j) as Hl.
        rewrite <- Hct, Hz in Hl. rewrite Hz1 in Hl, Hna. apply Hl; [|lia|lia|done].
        by destruct Hok as [[? ?]%Forall_app _].
      + unfold labels_eq, fold_labels in *. by rewrite !map_app, Hle.
      + rewrite zlen_app. pose proof (zlen_nonneg lits). lia. }
  destruct (Z.ltb_spec 0 (zlen (enc_labels lits))).
  - destruct (ctab_fill_literal b1 (content b) lits tl tl' [c; c1] (b_len b1) j) as (b' & Hf & Hgb & Heb & (t' & n' & ->));
      [done|done|done|done|by rewrite Hz|done|done|].
    rewrite Hz in Hf. change (n_len (name_of tl)) with (zlen (wire tl)). subst n. rewrite Hf. bind_step.
    eexists. split; [done|]. split_and!; [done|by transitivity b1|done].
  - bind_step. exists b1. split_and!; [done|done|done|].
    replace b1 with (set_ctab b1 (b_ctab b1) (b_nctab b1)) by by destruct b1. done.
Qed.

(** What a name or a failed write leaves; every operation below refines it. *)
Lemma bld_name_spec b ls :
  good b → labels_ok ls →
  ∃ b' rc, elpis_bld_name b (name_of ls) = Ok (b', rc) ∧ good b' ∧ extends b b' ∧
  (rc = ELPIS_OK ∧ name_written b ls b' ∨
   rc = ELPIS_ETRUNC ∧ b' = set_overflow b true ∧ b_cap b < b_len b + zlen (wire ls)).
Proof.
  intros Hg Hok. unfold elpis_bld_name. destruct (b_compress b) eqn:Hc; cbn [negb].
  2: { destruct (bld_name_raw_spec b ls Hg Hok) as [(b' & -> & ? & ? & ?)|[? ->]].
       - exists b', ELPIS_OK. split_and!; try done; [by eapply appended_extends|by left].
       - eexists _, _. split; [done|]. split_and!; [by apply good_overflow|apply extends_overflow|by right]. }
  pose proof (zlen_labels_of_ok _ Hok).
  destruct (suffix_find_spec 256 b ls Hg Hc Hok ltac:(lia)) as (r & -> & Hr). bind_step.
  destruct r as [[n t]|].
  - destruct Hr as (lits & tl & -> & -> & Htl & s & Hs & <- & k & Hk & Hn & Hkt).
    set (lit := n_len (name_of (lits ++ tl)) - n_len (name_of tl)).
    assert (Hlit : lit + 2 <= zlen (wire (lits ++ tl))).
    { subst lit. name_fields. destruct tl as [|x tl]; [done|].
      rewrite (zlen_wire_cons x tl). pose proof (zlen_wire_pos tl).
      destruct Hok as [[_ [[? _] _]%Forall_cons_1]%Forall_app _]. lia. }
    destruct (Z.ltb_spec (b_cap b) (b_len b + lit + 2)).
    + eexists _, _. split; [done|]. split_and!; [by apply good_overflow|apply extends_overflow|].
      right. split_and!; [done|done|lia].
    + destruct (bld_pointer_spec b lits tl s k) as (b' & E & ? & ? & ?); try done.
      cbv zeta in E. fold lit in E. rewrite E. exists b', ELPIS_OK. split_and!; try done. by left.
  - destruct (bld_name_raw_spec b ls Hg Hok) as [(b1 & E & Hg1 & Ha & Hnw)|[? ->]].
    2: { cbn [and_then mbind res_bind]. rewrite bool_decide_false by done.
         eexists _, _. split; [done|]. split_and!; [by apply good_overflow|apply extends_overflow|by right]. }
    rewrite E. unfold and_then. bind_step. rewrite bool_decide_true by done.
    pose proof (appended_extends _ _ _ Ha) as He. pose proof Ha as (Hwf1 & Hct & _).
    pose proof (zlen_content b (proj1 Hg)) as Hz.
    unfold ctab_add. assert (b_compress b1 = true) as Hc1 by (destruct He as (_ & -> & _); done). rewrite Hc1. cbn [negb].
    assert (Hraw : name_at (content b1) (zlen (content b1)) (b_len b) (b_len b + zlen (enc_labels ls)) []
      (b_len b + zlen (enc_labels ls) + 1) 0).
    { pose proof (zlen_wire ls). pose proof (zlen_nonneg (enc_labels ls)).
      apply name_at_root; [rewrite Hct, zlen_app; lia|].
      rewrite Hct. unfold wire. rewrite app_assoc, rd_app_r by (rewrite zlen_app; lia).
      by rewrite zlen_app, Hz, Z.sub_diag. }
    rewrite <- (app_nil_r ls) in Hok. unfold wire in Hct. rewrite <- Hz in Hraw.
    destruct (ctab_fill_literal b1 (content b) ls [] [] [0] _ 0 Hg1 Hc1 Hok Hct Hraw eq_refl ltac:(done))
      as (b' & Hf & Hgb & Heb & (t' & n' & ->)).
    rewrite app_nil_r, Hz in Hf. change (zlen (wire [])) with 1 in Hf. rewrite Hf. bind_step.
    eexists _, _. split; [done|]. split_and!; [done|by transitivity b1|left; split; [done|]].
    destruct Hnw as ((buf & t & m & Eb) & Hl & Hn). split; [|split; [exact Hl|exact Hn]].
    exists buf, t', n'. transitivity (set_ctab (set_ctab (set_buf b buf (b_len b1)) t m) t' n');
      [by rewrite <- Eb|done].
Qed.

(** *** Operations preserve the invariant and only append *)

(** [m], started in [b], returns (whatever the code), keeps the invariant and
    only appends; on success it establishes [P]. *)
Definition runs (b : elpis_bld_t) (m : bres) (P : elpis_bld_t → Prop) : Prop :=
  ∃ b' rc, m = Ok (b', rc) ∧ good b' ∧ extends b b' ∧ (rc = ELPIS_OK → P b').

Lemma runs_then b m k P Q :
  runs b m P → (∀ b1, good b1 → extends b b1 → P b1 → runs b1 (k b1) Q) → runs b (and_then m k) Q.
Proof.
  intros (b1 & rc & -> & Hg & He & HP) Hk. unfold and_then. bind_step.
  case_bool_decide as Hrc.
  - destruct (Hk b1 Hg He (HP Hrc)) as (b2 & rc2 & -> & ? & ? & ?).
    exists b2, rc2. split_and!; try done. by transitivity b1.
  - exists b1, ELPIS_ETRUNC. by split_and!.
Qed.

Lemma runs_mono b m (P Q : elpis_bld_t → Prop) : runs b m P → (∀ b', P b' → Q b') → runs b m Q.
Proof. intros (b' & rc & E & Hg & He & HP) HPQ. exists b', rc. split_and!; auto. Qed.

Lemma runs_write b bs : good b → bytes bs → runs b (bld_write b bs) (appended b bs).
Proof.
  intros Hg Hb. destruct (bld_write_spec b bs (proj1 Hg) Hb) as [[_ (b' & -> & Ha)]|[_ ->]].
  - exists b', ELPIS_OK. split_and!; [done|by eapply appended_good|by eapply appended_extends|done].
  - eexists _, _. split; [done|]. split_and!; [by apply good_overflow|apply extends_overflow|done].
Qed.

Lemma runs_u16 b v : good b → runs b (elpis_bld_u16 b v) (appended b (put16_bytes v)).
Proof. intros. rewrite bld_u16_write. apply runs_write; [done|apply bytes_put16]. Qed.
Lemma runs_u32 b v : good b → runs b (elpis_bld_u32 b v) (appended b (put32_bytes v)).
Proof. intros. rewrite bld_u32_write. apply runs_write; [done|apply bytes_put32]. Qed.
Lemma runs_bytes b p n :
  good b → bytes p → 0 <= n <= zlen p → runs b (elpis_bld_bytes b p n) (appended b (slice p 0 n)).
Proof. intros. rewrite bld_bytes_write by done. apply runs_write; [done|by apply Forall_slice]. Qed.
Lemma runs_name b ls : good b → labels_ok ls → runs b (elpis_bld_name b (name_of ls)) (name_written b ls).
Proof.
  intros Hg Hok. destruct (bld_name_spec b ls Hg Hok) as (b' & rc & E & ? & ? & H).
  exists b', rc. split_and!; try done. by destruct H as [[-> ?]|[-> _]].
Qed.
Lemma runs_name_raw b ls :
  good b → labels_ok ls → runs b (elpis_bld_name_raw b (name_of ls)) (appended b (wire ls)).
Proof. intros Hg Hok. rewrite bld_name_raw_write. apply runs_write; [done|apply bytes_wire, Hok]. Qed.
#[export] Hint Resolve runs_u16 runs_u32 runs_bytes runs_name runs_name_raw : elpis.

(** A state change that touches neither message nor tables. *)
Lemma good_counts b cs :
  good b → zlen cs = 4 → Forall (fun c => 0 <= c < 65536) cs → good (set_counts b cs) ∧ extends b (set_counts b cs).
Proof.
  intros [[] Hs] ??. split; [split; [by constructor|done]|].
  split_and!; try done; exists []; by rewrite app_nil_r.
Qed.

Lemma bump_qd_spec b : good b → ∃ b', bump_qd b = Ok b' ∧ good b' ∧ extends b b' ∧
  ∃ c, rd (b_counts b) 0 = Ok c ∧ b' = set_counts b (splice (b_counts b) 0 [u16 (c + 1)]).
Proof.
  intros Hg. pose proof (w_counts b (proj1 Hg)) as [Hz Hf]. unfold bump_qd.
  destruct (rd_in_range (b_counts b) 0) as (c & Hc & _); [lia|]. rewrite Hc. bind_step.
  rewrite blit_in_range by (change (zlen [_]) with 1; lia). bind_step.
  destruct (good_counts b (splice (b_counts b) 0 [u16 (c + 1)]) Hg) as [? ?].
  - rewrite zlen_splice; [done|lia|change (zlen [_]) with 1; lia].
  - unfold splice. repeat apply Forall_app_2; [by apply Forall_take| |by apply Forall_drop].
    repeat constructor; apply u16_range.
  - eexists. split_and!; try done. by exists c.
Qed.

(** Registration of a name written out in full at [zlen pre]. *)
Lemma ctab_add_spec b pre ls post :
  good b → labels_ok ls → content b = pre ++ wire ls ++ post →
  ∃ b', ctab_add b (name_of ls) (zlen pre) = Ok b' ∧ good b' ∧ extends b b' ∧
        ∃ t n, b' = set_ctab b t n.
Proof.
  intros Hg Hok Hct. unfold ctab_add. destruct (b_compress b) eqn:Hc; cbn [negb].
  2: { exists b. split_and!; try done. exists (b_ctab b), (b_nctab b). by destruct b. }
  rewrite <- (app_nil_r ls) in Hok |- *. change 1 with (zlen (wire [])).
  unfold wire in Hct. rewrite <- app_assoc in Hct.
  apply (ctab_fill_literal b pre ls [] [] ([0] ++ post) (zlen pre + zlen (enc_labels ls) + 1) 0); try done.
  apply name_at_root; rewrite Hct.
  - rewrite !zlen_app. change (zlen [0]) with 1. pose proof (zlen_nonneg post). lia.
  - by rewrite app_assoc, rd_app_r, zlen_app, Z.sub_diag by (rewrite zlen_app; lia).
Qed.

(** The steps the two question writers share; [add] registers the name. *)
Lemma runs_question_gen b ls type klass (add : elpis_bld_t → res elpis_bld_t) :
  good b → labels_ok ls → (∀ b3, add b3 = ctab_add b3 (name_of ls) (b_len b)) →
  runs b (and_then (elpis_bld_name_raw b (name_of ls)) (fun b1 =>
          and_then (elpis_bld_u16 b1 type) (fun b1 =>
          and_then (elpis_bld_u16 b1 klass) (fun b1 =>
          b1 ← add b1;
          b1 ← bump_qd b1;
          Ok (b1, ELPIS_OK)))))
    (fun b' => content b' = content b ++ wire ls ++ put16_bytes type ++ put16_bytes klass ∧
       b_overflow b' = b_overflow b ∧
       ∃ c, rd (b_counts b) 0 = Ok c ∧ b_counts b' = splice (b_counts b) 0 [u16 (c + 1)]).
Proof.
  intros Hg Hok Hadd. eapply runs_then; [by apply runs_name_raw|]. intros b1 Hg1 _ A1.
  eapply runs_then; [by apply runs_u16|]. intros b2 Hg2 _ A2.
  eapply runs_then; [by apply runs_u16|]. intros b3 Hg3 _ A3.
  pose proof (appended2 _ _ _ _ _ (appended2 _ _ _ _ _ A1 A2) A3) as (_ & Hct & [buf E3]).
  rewrite <- !app_assoc in Hct. rewrite Hadd.
  destruct (ctab_add_spec b3 (content b) ls _ Hg3 Hok Hct) as (b4 & E4 & Hg4 & He4 & (t & n & Eb4)).
  rewrite (zlen_content b (proj1 Hg)) in E4. rewrite E4. bind_step.
  destruct (bump_qd_spec b4 Hg4) as (b5 & -> & Hg5 & He5 & (c & Hc & Eb5)). bind_step.
  exists b5, ELPIS_OK. split_and!; [done|done|by transitivity b4|]. intros _.
  assert (Hcnt : b_counts b4 = b_counts b) by by rewrite Eb4, E3.
  assert (Hct4 : content b4 = content b3) by by rewrite Eb4.
  split; [by rewrite Eb5; change (content (set_counts b4 _)) with (content b4); rewrite Hct4|].
  split; [by rewrite Eb5, Eb4, E3|].
  exists c. rewrite <- Hcnt. split; [done|]. by rewrite Eb5.
Qed.

Lemma runs_question b ls type klass :
  good b → labels_ok ls → runs b (elpis_bld_question b (name_of ls) type klass) (fun _ => True).
Proof.
  intros. eapply runs_mono; [by apply (runs_question_gen b ls type klass (fun b1 => ctab_add b1 (name_of ls) (b_len b)))|done].
Qed.

(** A question given as octets: those of a well-formed name. *)
Lemma runs_question_raw b ls type klass :
  good b → labels_ok ls →
  runs b (elpis_bld_question_raw b (wire ls) (zlen (wire ls)) type klass)
    (fun b' => content b' = content b ++ wire ls ++ put16_bytes type ++ put16_bytes klass ∧
       b_overflow b' = b_overflow b ∧
       ∃ c, rd (b_counts b) 0 = Ok c ∧ b_counts b' = splice (b_counts b) 0 [u16 (c + 1)]).
Proof.
  intros Hg Hok. unfold elpis_bld_question_raw. pose proof (zlen_wire_pos ls). pose proof Hok as [_ Hz].
  unfold ELPIS_MAX_NAME. zfalse (zlen (wire ls) =? 0). zfalse (255 <? zlen (wire ls)). cbn [orb].
  apply (runs_question_gen b ls type klass (fun b1 => if b_compress b1 then
    r ← try (elpis_name_parse_nocomp (wire ls) (zlen (wire ls)));
    match r with
    | Some (n, used) => if used =? zlen (wire ls) then ctab_add b1 n (b_len b) else Ok b1
    | None => Ok b1
    end else Ok b1)); [done|done|].
  intros b3. cbv beta. destruct (b_compress b3) eqn:Hc; [|unfold ctab_add; by rewrite Hc].
  pose proof (spelled_wire ls []) as Hsp. rewrite app_nil_r in Hsp.
  rewrite (name_parse_nocomp_complete _ _ ls); [|apply bytes_wire, Hok|lia|done|done].
  cbn [try mbind res_bind]. by rewrite Z.eqb_refl.
Qed.

(** Writers fail only for want of room. *)
Definition fits (b : elpis_bld_t) (m : bres) (need : Z) : Prop :=
  ∀ b' rc, m = Ok (b', rc) → rc ≠ ELPIS_OK → b_cap b < b_len b + need.

Lemma bld_write_len b bs b' :
  bld_write b bs = Ok (b', ELPIS_OK) → b_len b' = b_len b + zlen bs ∧ b_cap b' = b_cap b.
Proof.
  unfold bld_write. case_match; [done|]. destruct (blit _ _ _); cbn; [|done..].
  by intros [= <-].
Qed.

Lemma fits_write b bs : fits b (bld_write b bs) (zlen bs).
Proof.
  intros b' rc. unfold bld_write. destruct (Z.ltb_spec (b_cap b) (b_len b + zlen bs)); [done|].
  destruct (blit _ _ _); cbn; [|done..]. by intros [= <- <-].
Qed.

Lemma fits_then b bs k need :
  0 <= need → (∀ b1, bld_write b bs = Ok (b1, ELPIS_OK) → fits b1 (k b1) need) →
  fits b (and_then (bld_write b bs) k) (zlen bs + need).
Proof.
  intros Hn Hk b' rc. unfold and_then. destruct (bld_write b bs) as [[b1 rc1]| |] eqn:E; [|done|done].
  bind_step. case_bool_decide as Hrc.
  - subst rc1. intros E2 Hrc2. pose proof (bld_write_len _ _ _ E) as [Hl Hc].
    pose proof (Hk b1 eq_refl _ _ E2 Hrc2). lia.
  - intros _ _. pose proof (fits_write b bs _ _ E Hrc). lia.
Qed.

Lemma question_raw_fits b ls type klass :
  labels_ok ls → fits b (elpis_bld_question_raw b (wire ls) (zlen (wire ls)) type klass) (zlen (wire ls) + (2 + (2 + 0))).
Proof.
  intros Hok. unfold elpis_bld_question_raw. pose proof (zlen_wire_pos ls). pose proof Hok as [_ Hz].
  unfold ELPIS_MAX_NAME. zfalse (zlen (wire ls) =? 0). zfalse (255 <? zlen (wire ls)). cbn [orb].
  rewrite bld_bytes_write, slice_0_all by lia.
  apply fits_then; [lia|]. intros b1 _. apply (fits_then b1 (put16_bytes type)); [lia|].
  intros b2 _. apply (fits_then b2 (put16_bytes klass)); [lia|]. intros b3 _ b' rc E Hrc. exfalso.
  apply bind_Ok_inv in E as (b4 & _ & E). apply bind_Ok_inv in E as (b5 & _ & [= _ <-]). done.
Qed.

(** *** Records *)

Lemma record_ttl_spec b ttl :
  good b →
  ∃ b', (if b_track_ttl b && (b_nttl b <? b_ttl_cap b) then
           offs ← blit (b_ttl_off b) (b_nttl b) [u32 (b_len b)];
           vals ← blit (b_ttl_val b) (b_nttl b) [ttl];
           Ok (set_ttl b offs vals (b_nttl b + 1))
         else Ok b) = Ok b' ∧ good b' ∧ extends b b' ∧ content b' = content b ∧ b_len b' = b_len b.
Proof.
  intros Hg. destruct (b_track_ttl b) eqn:Et; cbn [andb]; [|exists b; by split_and!].
  destruct (Z.ltb_spec (b_nttl b) (b_ttl_cap b)); [|exists b; by split_and!].
  pose proof Hg as [Hwf Hs]. pose proof Hwf as [? ? ? ? ? ? Htt]. rewrite Et in Htt.
  destruct Htt as (? & ? & ?).
  assert (Hsplit : ∀ l : list Z, b_nttl b < zlen l → ∀ x,
    blit l (b_nttl b) [x] = Ok ((slice l 0 (b_nttl b) ++ [x]) ++ drop 1 (drop (Z.to_nat (b_nttl b)) l)) ∧
    zlen (slice l 0 (b_nttl b)) = b_nttl b).
  { intros l Hl x. assert (Hz : zlen (slice l 0 (b_nttl b)) = b_nttl b) by (apply zlen_slice; lia).
    split; [|done]. assert (El : l = slice l 0 (b_nttl b) ++ drop (Z.to_nat (b_nttl b)) l).
    { unfold slice. change (Z.to_nat 0) with 0%nat. by rewrite drop_0, take_drop. }
    rewrite El at 1. apply blit_at; [done|]. rewrite zlen_drop. change (zlen [x]) with 1. lia. }
  destruct (Hsplit (b_ttl_off b) ltac:(lia) (u32 (b_len b))) as [-> Ho].
  destruct (Hsplit (b_ttl_val b) ltac:(lia) ttl) as [-> Hv]. bind_step.
  eexists. split; [done|]. split_and!; try done.
  - split; [|done].
    constructor; cbn [set_ttl b_buf b_cap b_len b_counts b_compress b_ctab b_nctab b_track_ttl
      b_ttl_cap b_ttl_off b_ttl_val b_nttl]; [done..|].
    rewrite Et. rewrite !zlen_app, Ho, Hv, !zlen_drop. change (zlen [u32 (b_len b)]) with 1.
    change (zlen [ttl]) with 1. lia.
  - unfold extends. split_and!; try done.
    + exists []. by rewrite app_nil_r.
    + exists []. by rewrite app_nil_r.
    + exists [(u32 (b_len b), ttl)]. unfold ttls at 1. cbn [set_ttl b_ttl_off b_ttl_val b_nttl].
    rewrite (slice_0_app_le (slice (b_ttl_off b) 0 (b_nttl b) ++ [u32 (b_len b)])),
        (slice_0_app_le (slice (b_ttl_val b) 0 (b_nttl b) ++ [ttl]))
      by (rewrite zlen_app; change (zlen [_]) with 1; lia).
    rewrite zip_with_app by zl. done.
    + cbn [set_ttl b_nttl]. lia.
Qed.

(** The fixed fields of a record, as they are on the wire. *)
Definition rr_fixed (type klass ttl rdlen : Z) : list Z :=
  put16_bytes type ++ put16_bytes klass ++ put32_bytes ttl ++ put16_bytes rdlen.

Lemma rr_begin_spec b ls type klass ttl :
  good b → labels_ok ls →
  ∃ b' rc pos, elpis_bld_rr_begin b (name_of ls) type klass ttl = Ok (b', rc, pos) ∧
  good b' ∧ extends b b' ∧
  (rc = ELPIS_OK → ∃ b1, name_written b ls b1 ∧ pos = b_len b1 + 8 ∧ b_len b' = pos + 2 ∧
     content b' = content b1 ++ rr_fixed type klass ttl 0).
Proof.
  intros Hg Hok. unfold elpis_bld_rr_begin.
  match goal with |- context [mbind _ (and_then ?m ?k)] =>
    assert (Hr : runs b (and_then m k) (fun b' => ∃ b1, name_written b ls b1 ∧ b_len b' = b_len b1 + 8 ∧
      content b' = content b1 ++ put16_bytes type ++ put16_bytes klass ++ put32_bytes ttl)) end.
  { eapply runs_then; [by apply runs_name|]. intros b1 Hg1 _ Hn.
    eapply runs_then; [by apply runs_u16|]. intros b2 Hg2 _ A2.
    eapply runs_then; [by apply runs_u16|]. intros b3 Hg3 _ A3.
    destruct (record_ttl_spec b3 ttl Hg3) as (b4 & -> & Hg4 & He4 & Hc4 & Hl4). bind_step.
    destruct (runs_u32 b4 ttl Hg4) as (b5 & rc & -> & Hg5 & He5 & H5).
    exists b5, rc. split_and!; [done|done|by transitivity b4|]. intros Hrc. specialize (H5 Hrc).
    pose proof (appended2 _ _ _ _ _ A2 A3) as A. exists b1. split; [done|].
    rewrite (appended_len _ _ _ H5), Hl4, (appended_len _ _ _ A).
    destruct H5 as (_ & -> & _). rewrite Hc4. destruct A as (_ & -> & _).
    split; [rewrite zlen_app, !zlen_put16, zlen_put32; lia|by rewrite <- !app_assoc]. }
  destruct Hr as (b1 & rc & -> & Hg1 & He1 & HP). bind_step. case_bool_decide as Hrc.
  2: { exists b1, ELPIS_ETRUNC, 0. by split_and!. }
  destruct (HP Hrc) as (b0 & Hn & Hl & Hct).
  destruct (runs_u16 b1 0 Hg1) as (b2 & rc2 & -> & Hg2 & He2 & H2). bind_step.
  eexists b2, _, (b_len b1). split; [done|]. split_and!; [done|by transitivity b1|].
  case_bool_decide as Hrc2; [|done]. intros _. specialize (H2 Hrc2). exists b0.
  rewrite (appended_len _ _ _ H2). destruct H2 as (_ & -> & _). rewrite Hct, <- !app_assoc.
  split_and!; try done. 
Qed.

Lemma count_spec b s delta :
  good b → runs b (elpis_bld_count b s delta) (fun b' => (s <= 2)%nat ∧
    ∃ c, rd (b_counts b) (Z.of_nat s + 1) = Ok c ∧ 0 <= c + delta <= 0xFFFF ∧
         b' = set_counts b (splice (b_counts b) (Z.of_nat s + 1) [c + delta])).
Proof.
  intros Hg. unfold elpis_bld_count. pose proof (w_counts b (proj1 Hg)) as [Hz Hf].
  destruct (Z.ltb_spec 3 (Z.of_nat s + 1)); [exists b, ELPIS_ERR; by split_and!|].
  destruct (rd_in_range (b_counts b) (Z.of_nat s + 1)) as (c & Hc & _); [lia|]. rewrite Hc. bind_step.
  destruct (_ || _)%bool eqn:E; [exists b, ELPIS_ERR; by split_and!|]. bool_to_prop.
  rewrite u16_id by lia. rewrite blit_in_range by (change (zlen [_]) with 1; lia). bind_step.
  destruct (good_counts b (splice (b_counts b) (Z.of_nat s + 1) [c + delta]) Hg) as [? ?].
  - rewrite zlen_splice; [done|lia|change (zlen [_]) with 1; lia].
  - unfold splice. repeat apply Forall_app_2; [by apply Forall_take| |by apply Forall_drop].
    repeat constructor; lia.
  - eexists _, ELPIS_OK. split_and!; try done. intros _. split; [lia|]. exists c. split_and!; (done || lia).
Qed.

(** ** Sequences of operations *)

Inductive bld_op :=
  | OpBytes (p : list Z)
  | OpU16 (v : Z)
  | OpU32 (v : Z)
  | OpName (ls : list (list Z))
  | OpNameRaw (ls : list (list Z))
  | OpQuestion (ls : list (list Z)) (type klass : Z)
  | OpRrBegin (ls : list (list Z)) (type klass ttl : Z)
  | OpCount (s : nat) (delta : Z).

Definition op_ok (o : bld_op) : Prop :=
  match o with
  | OpBytes p => bytes p
  | OpName ls | OpNameRaw ls | OpQuestion ls _ _ | OpRrBegin ls _ _ _ => labels_ok ls
  | _ => True
  end.
#[export] Instance op_ok_dec o : Decision (op_ok o).
Proof. destruct o; cbn; apply _. Defined.

Definition run_op (b : elpis_bld_t) (o : bld_op) : bres :=
  match o with
  | OpBytes p => elpis_bld_bytes b p (zlen p)
  | OpU16 v => elpis_bld_u16 b v
  | OpU32 v => elpis_bld_u32 b v
  | OpName ls => elpis_bld_name b (name_of ls)
  | OpNameRaw ls => elpis_bld_name_raw b (name_of ls)
  | OpQuestion ls t k => elpis_bld_question b (name_of ls) t k
  | OpRrBegin ls t k ttl => '(b, rc, _) ← elpis_bld_rr_begin b (name_of ls) t k ttl; Ok (b, rc)
  | OpCount s d => elpis_bld_count b s d
  end.

(** The codes are collected, not acted upon: a caller that stops at the first
    failure runs a prefix of the list. *)
Fixpoint run_ops (b : elpis_bld_t) (os : list bld_op) : res (elpis_bld_t * list elpis_rc_t) :=
  match os with
  | [] => Ok (b, [])
  | o :: os =>
    '(b, rc) ← run_op b o;
    '(b, rcs) ← run_ops b os;
    Ok (b, rc :: rcs)
  end.

Lemma run_op_spec b o : good b → op_ok o → runs b (run_op b o) (fun _ => True).
Proof.
  intros Hg Ho. destruct o as [p|v|v|ls|ls|ls t k|ls t k ttl|s d]; cbn [run_op op_ok] in *.
  - eapply runs_mono; [apply runs_bytes; [done|done|pose proof (zlen_nonneg p); lia]|done].
  - eapply runs_mono; [by apply runs_u16|done].
  - eapply runs_mono; [by apply runs_u32|done].
  - eapply runs_mono; [by apply runs_name|done].
  - eapply runs_mono; [by apply runs_name_raw|done].
  - eapply runs_mono; [by apply runs_question|done].
  - destruct (rr_begin_spec b ls t k ttl Hg Ho) as (b' & rc & pos & -> & ? & ? & _). bind_step.
    exists b', rc. by split_and!.
  - eapply runs_mono; [by apply count_spec|done].
Qed.

Lemma run_ops_spec os : ∀ b, good b → Forall op_ok os →
  ∃ b' rcs, run_ops b os = Ok (b', rcs) ∧ good b' ∧ extends b b'.
Proof.
  induction os as [|o os IH]; intros b Hg Ho; [by exists b, []|].
  apply Forall_cons_1 in Ho as [Ho Hos]. cbn [run_ops].
  destruct (run_op_spec b o Hg Ho) as (b1 & rc & -> & Hg1 & He1 & _). bind_step.
  destruct (IH b1 Hg1 Hos) as (b2 & rcs & -> & Hg2 & He2). bind_step.
  exists b2, (rc :: rcs). split_and!; [done|done|by transitivity b1].
Qed.

(** ** Patching: [elpis_bld_rr_end] and [elpis_bld_finish] *)

Lemma splice_app_l {A} (l k bs : list A) o :
  0 <= o → o + zlen bs <= zlen l → splice (l ++ k) o bs = splice l o bs ++ k.
Proof.
  intros. unfold splice. rewrite take_app_le, drop_app_le by zl. by rewrite <- !app_assoc.
Qed.

Lemma splice_mid {A} (pre old post bs : list A) o :
  o = zlen pre → zlen bs = zlen old → splice (pre ++ old ++ post) o bs = pre ++ bs ++ post.
Proof.
  intros -> Hl. rewrite splice_at by (rewrite zlen_app; pose proof (zlen_nonneg post); lia).
  rewrite <- app_assoc. do 2 f_equal. rewrite drop_app_le by zl. rewrite drop_ge by zl. done.
Qed.

(** Overwriting octets already written. *)
Lemma patch_spec b o bs :
  wf_bld b → bytes bs → 0 <= o → o + zlen bs <= b_len b →
  ∃ buf, blit (b_buf b) o bs = Ok buf ∧ let b' := set_buf b buf (b_len b) in
  wf_bld b' ∧ content b' = splice (content b) o bs.
Proof.
  intros Hwf Hb Ho Hl. pose proof Hwf as [Hc Hlen Hby Hcnt Ht Hn Htt].
  pose proof (zlen_content b Hwf) as Hz. pose proof (buf_split b Hwf) as Hs.
  exists (splice (b_buf b) o bs). split; [apply blit_in_range; lia|]. cbv zeta. split.
  - constructor; cbn [set_buf b_buf b_cap b_len b_counts b_compress b_ctab b_nctab b_track_ttl b_ttl_cap
      b_ttl_off b_ttl_val b_nttl]; try done.
    + rewrite zlen_splice by lia. done.
    + unfold splice. repeat apply Forall_app_2; [by apply Forall_take|done|by apply Forall_drop].
  - unfold content at 1. cbn [set_buf b_buf b_len]. rewrite Hs, splice_app_l by lia.
    apply slice_0_app_le. rewrite zlen_splice by lia. done.
Qed.

Lemma rr_end_spec b pos :
  wf_bld b → b_overflow b = false → 0 <= pos → pos + 2 <= b_len b → b_len b - (pos + 2) <= 0xFFFF →
  ∃ b', elpis_bld_rr_end b pos = Ok (b', ELPIS_OK) ∧ wf_bld b' ∧ b_len b' = b_len b ∧
        content b' = splice (content b) pos (put16_bytes (b_len b - (pos + 2))).
Proof.
  intros Hwf Ho Hp Hl Hr. unfold elpis_bld_rr_end. rewrite Ho.
  zfalse (b_len b <? pos + 2). zfalse (0xFFFF <? b_len b - (pos + 2)).
  rewrite u16_id by lia. unfold elpis_put16.
  destruct (patch_spec b pos (put16_bytes (b_len b - (pos + 2))) Hwf) as (buf & -> & ? & ?);
    [apply bytes_put16|lia|rewrite zlen_put16; lia|].
  bind_step. eexists. by split_and!.
Qed.

Lemma rr_end_cases b pos :
  wf_bld b → 0 <= pos → pos + 2 <= b_len b →
  ∃ b' rc, elpis_bld_rr_end b pos = Ok (b', rc) ∧
  (rc ≠ ELPIS_OK → b' = b ∧ (b_overflow b = true ∨ 0xFFFF < b_len b - (pos + 2))) ∧
  (rc = ELPIS_OK → b_len b - (pos + 2) <= 0xFFFF ∧ wf_bld b' ∧ (∃ buf, b' = set_buf b buf (b_len b)) ∧
     content b' = splice (content b) pos (put16_bytes (b_len b - (pos + 2)))).
Proof.
  intros Hwf Hp Hl. unfold elpis_bld_rr_end. destruct (b_overflow b); [exists b, ELPIS_ETRUNC; split_and!; try done; auto|].
  zfalse (b_len b <? pos + 2).
  destruct (Z.ltb_spec 0xFFFF (b_len b - (pos + 2))); [exists b, ELPIS_ETRUNC; split_and!; try done; auto|].
  rewrite u16_id by lia. unfold elpis_put16.
  destruct (patch_spec b pos (put16_bytes (b_len b - (pos + 2))) Hwf) as (buf & -> & ? & ?);
    [apply bytes_put16|lia|rewrite zlen_put16; lia|].
  bind_step. eexists _, ELPIS_OK. split; [done|]. split; [done|]. intros _.
  split_and!; try done. by exists buf.
Qed.

(** ** Reading back *)

Lemma name_written_parse b ls b1 rest :
  good b → labels_ok ls → bytes (content b1) → bytes rest → zlen (content b1) = b_len b1 → name_written b ls b1 →
  ∃ ls', elpis_name_parse (content b1 ++ rest) (zlen (content b1 ++ rest)) (b_len b) = Ok (name_of ls', b_len b1) ∧
         labels_eq ls' ls.
Proof.
  intros Hg Hok Hb Hr Hz (_ & _ & ls' & j & Hna & Hle & Hj). exists ls'. split; [|done].
  pose proof (zlen_labels_of_ok _ Hok). destruct Hok as [_ Hw].
  apply (name_parse_complete _ _ _ _ _ j).
  - by apply Forall_app.
  - done.
  - apply (w_len b (proj1 Hg)).
  - eapply name_at_app; [|exact Hna]. lia.
  - by rewrite (labels_eq_zlen _ _ Hle).
  - lia.
Qed.

(** The fixed fields of a record, read where they were written. *)
Lemma rr_fixed_read pre post type klass ttl rdlen :
  0 <= type < 65536 → 0 <= klass < 65536 → 0 <= ttl < 2 ^ 32 → 0 <= rdlen < 65536 →
  let w := pre ++ rr_fixed type klass ttl rdlen ++ post in
  elpis_get16 w (zlen pre) = Ok type ∧ elpis_get16 w (zlen pre + 2) = Ok klass ∧
  elpis_get32 w (zlen pre + 4) = Ok ttl ∧ elpis_get16 w (zlen pre + 8) = Ok rdlen.
Proof.
  intros ? ? ? ? w. subst w. unfold rr_fixed. rewrite <- !app_assoc. split_and!.
  - by apply get16_put16.
  - rewrite app_assoc. replace (zlen pre + 2) with (zlen (pre ++ put16_bytes type))
      by (rewrite zlen_app, zlen_put16; lia). by apply get16_put16.
  - rewrite (app_assoc pre), (app_assoc (pre ++ _)).
    replace (zlen pre + 4) with (zlen ((pre ++ put16_bytes type) ++ put16_bytes klass))
      by (rewrite !zlen_app, !zlen_put16; lia). by apply get32_put32.
  - rewrite (app_assoc pre), (app_assoc (pre ++ _)), (app_assoc ((pre ++ _) ++ _)).
    replace (zlen pre + 8) with (zlen (((pre ++ put16_bytes type) ++ put16_bytes klass) ++ put32_bytes ttl))
      by (rewrite !zlen_app, !zlen_put16, zlen_put32; lia). by apply get16_put16.
Qed.

Lemma zlen_rr_fixed type klass ttl rdlen : zlen (rr_fixed type klass ttl rdlen) = 10.
Proof. done. Qed.

Lemma rr_end_ok_inv b pos b' :
  wf_bld b → 0 <= pos → elpis_bld_rr_end b pos = Ok (b', ELPIS_OK) →
  pos + 2 <= b_len b ∧ b_len b - (pos + 2) <= 0xFFFF ∧ wf_bld b' ∧ b_len b' = b_len b ∧
  content b' = splice (content b) pos (put16_bytes (b_len b - (pos + 2))).
Proof.
  intros Hwf Hp E. assert (b_overflow b = false ∧ pos + 2 <= b_len b ∧ b_len b - (pos + 2) <= 0xFFFF) as (Ho & Hl & Hr).
  { unfold elpis_bld_rr_end in E. destruct (b_overflow b); [done|]. split; [done|].
    destruct (Z.ltb_spec (b_len b) (pos + 2)); [done|].
    destruct (Z.ltb_spec 0xFFFF (b_len b - (pos + 2))); [done|]. lia. }
  destruct (rr_end_spec b pos Hwf Ho Hp Hl Hr) as (b1 & E1 & ? & ? & ?). rewrite E1 in E.
  injection E as <-. by split_and!.
Qed.

Lemma bytes_inv b p n b' rc :
  good b → bytes p → 0 <= n <= zlen p → elpis_bld_bytes b p n = Ok (b', rc) →
  good b' ∧ (rc = ELPIS_OK → appended b (slice p 0 n) b').
Proof.
  intros Hg Hp Hn E. destruct (runs_bytes b p n Hg Hp Hn) as (b1 & rc1 & E1 & ? & _ & ?).
  rewrite E1 in E. injection E as <- <-. done.
Qed.

(** ** Properties *)

(** C6. Compression is sound: when [elpis_bld_name] accepts a name, what it
    wrote, compressed or not, is read back by the parser as the same name up
    to ASCII case, ends exactly at the new length and takes no more octets
    than the uncompressed form; on overflow it writes nothing. *)
Theorem bld_name_reads_back (b b' : elpis_bld_t) (ls : list (list Z)) (rc : elpis_rc_t) :
  good b → labels_ok ls → elpis_bld_name b (name_of ls) = Ok (b', rc) →
  good b' ∧
  (rc = ELPIS_OK ∧ b_len b' <= b_len b + zlen (wire ls) ∧
   (∃ ls', elpis_name_parse (content b') (b_len b') (b_len b) = Ok (name_of ls', b_len b') ∧ labels_eq ls' ls) ∨
   rc = ELPIS_ETRUNC ∧ b' = set_overflow b true ∧ b_cap b < b_len b + zlen (wire ls)).
Proof.
  intros Hg Hok E. destruct (bld_name_spec b ls Hg Hok) as (b1 & rc1 & E1 & Hg1 & _ & H).
  rewrite E1 in E. injection E as <- <-. split; [done|].
  destruct H as [[-> Hn]|?]; [left|by right]. pose proof (zlen_content b1 (proj1 Hg1)) as Hz.
  split; [done|]. split; [apply Hn|].
  destruct (name_written_parse b ls b1 [] Hg Hok) as (ls' & Hp & Hle); try done;
    [apply bytes_content, Hg1|]. rewrite app_nil_r, Hz in Hp. by exists ls'.
Qed.

(** A builder that already holds "www.x." in full, and "x." at 16. *)
Definition sample_bld : elpis_bld_t :=
  mkBld ([3; 119; 119; 119; 1; 120; 0] ++ zeros 33) 40 7 true false false [0; 0; 0; 0] [] [] 0 0
    ([mkSlot 0 (name_of [[119; 119; 119]; [120]]); mkSlot 4 (name_of [[120]])]
     ++ replicate 62 (mkSlot 0 name_zero)) 2.

Lemma sample_bld_good : good sample_bld.
Proof.
  split.
  - constructor; try by_compute.
  - change (slots sample_bld) with
      [mkSlot 0 (name_of [[119; 119; 119]; [120]]); mkSlot 4 (name_of [[120]])].
    constructor; [|constructor; [|constructor]].
    + exists [[119; 119; 119]; [120]], [[119; 119; 119]; [120]], 7, 0. split_and!; try done; try by_compute.
      apply (name_at_raw [] [[119; 119; 119]; [120]]). by_compute.
    + exists [[120]], [[120]], 7, 0. split_and!; try done; try by_compute.
      apply (name_at_raw [3; 119; 119; 119] [[120]]). by_compute.
Qed.

Lemma bld_name_reads_back_witness :
  ∃ b', elpis_bld_name sample_bld (name_of [[121]; [88]]) = Ok (b', ELPIS_OK) ∧ good b'.
Proof.
  destruct (elpis_bld_name sample_bld (name_of [[121]; [88]])) as [[b' rc]| |] eqn:E; [| |].
  - pose proof (bld_name_reads_back sample_bld b' [[121]; [88]] rc sample_bld_good ltac:(by_compute) E) as [Hg _].
    exists b'. split; [|exact Hg]. revert E. vm_compute. congruence.
  - exfalso. revert E. vm_compute. discriminate.
  - exfalso. revert E. vm_compute. discriminate.
Defined.

(** No sequence of builder operations, whatever its arguments and however
    little room there is, writes outside the buffer or its tables or fails to
    return; every operation leaves the builder well formed with readable
    compression targets, and only ever appends. *)
Theorem bld_ops_safe (b : elpis_bld_t) (os : list bld_op) :
  good b → Forall op_ok os →
  ∃ b' rcs, run_ops b os = Ok (b', rcs) ∧ good b' ∧ extends b b'.
Proof. intros. by apply run_ops_spec. Qed.

Definition sample_ops : list bld_op :=
  [OpCount 0 1; OpRrBegin [[97]; [120]] 1 1 300; OpBytes [192; 0; 2; 1]; OpName [[120]]; OpU32 7; OpU32 8].

Lemma bld_ops_safe_witness :
  ∃ b' rcs, run_ops sample_bld sample_ops = Ok (b', rcs) ∧ good b' ∧ extends sample_bld b'.
Proof. apply (bld_ops_safe sample_bld sample_ops sample_bld_good). by_compute. Defined.

(** Rolling back undoes everything: after any operations, the builder is
    again the one that was marked (same contents, counts, compression table
    and TTL records, [overflow] cleared) and it is well formed. *)
Theorem bld_rollback_restores (b b' : elpis_bld_t) (os : list bld_op) (rcs : list elpis_rc_t) :
  good b → Forall op_ok os → run_ops b os = Ok (b', rcs) →
  let r := elpis_bld_rollback b' (elpis_bld_mark b) in
  good r ∧ content r = content b ∧ b_len r = b_len b ∧ b_counts r = b_counts b ∧
  slots r = slots b ∧ ttls r = ttls b ∧ b_overflow r = false.
Proof.
  intros Hg Hos E. destruct (run_ops_spec os b Hg Hos) as (b1 & rcs1 & E1 & Hg1 & He).
  rewrite E1 in E. injection E as <- <-.
  destruct He as (Hcap & Hco & Hl & [bs Hbs] & [ss Hss] & Hn & Htr & [tt Htt] & Hnt).
  pose proof Hg as [Hwf Hs]. pose proof Hg1 as [Hwf1 _].
  pose proof (zlen_content b Hwf). pose proof (zlen_content b1 Hwf1).
  assert (Hct : slice (b_buf b1) 0 (b_len b) = content b).
  { rewrite (buf_split b1 Hwf1), Hbs, <- app_assoc. by apply slice_0_app_le. }
  destruct Hwf as [Wc Wl Wb Wcn Wt Wn Wtt]. destruct Hwf1 as [Vc Vl Vb Vcn Vt Vn Vtt].
  rewrite Hco in Vt. rewrite Htr in Vtt.
  assert (Hsl : slice (b_ctab b1) 0 (b_nctab b) = slots b).
  { destruct (b_compress b) eqn:Ec.
    - assert (Hzs : zlen (slots b) = b_nctab b) by (apply zlen_slice; lia).
      assert (Hsp : slice (slots b1) 0 (b_nctab b) = slots b) by (rewrite Hss; by apply slice_0_app_le).
      rewrite <- Hsp. unfold slots, slice. change (Z.to_nat 0) with 0%nat. rewrite !drop_0, take_take. f_equal. lia.
    - unfold slots. by rewrite Wt. }
  cbv zeta. unfold elpis_bld_rollback, elpis_bld_mark. cbn [mk_len mk_counts mk_nctab mk_nttl].
  split.
  { split; [constructor; cbn [b_buf b_cap b_len b_counts b_compress b_ctab b_nctab b_track_ttl b_ttl_cap
      b_ttl_off b_ttl_val b_nttl]; try done|].
    - lia.
    - rewrite Hco. by destruct (b_compress b).
    - rewrite Htr. destruct (b_track_ttl b); [lia|done].
    - unfold content, slots. cbn [b_buf b_len b_ctab b_nctab]. by rewrite Hct, Hsl. }
  split_and!; try done. unfold ttls. cbn [b_ttl_off b_ttl_val b_nttl].
  destruct (b_track_ttl b) eqn:Et; [|by rewrite Wtt].
  assert (Htk : ∀ l : list Z, slice l 0 (b_nttl b) = take (Z.to_nat (b_nttl b)) (slice l 0 (b_nttl b1))).
  { intros l. unfold slice. change (Z.to_nat 0) with 0%nat. rewrite !drop_0, take_take. f_equal. lia. }
  rewrite (Htk (b_ttl_off b1)), (Htk (b_ttl_val b1)).
  change (zip ?x ?y) with (zip_with pair x y). rewrite <- zip_with_take.
  change (zip_with pair (slice (b_ttl_off b1) 0 (b_nttl b1)) (slice (b_ttl_val b1) 0 (b_nttl b1))) with (ttls b1).
  rewrite Htt. apply take_app_length'. unfold ttls. rewrite length_zip_with.
  unfold slice. rewrite !length_take, !length_drop. zl.
Qed.

Lemma bld_rollback_restores_witness :
  ∃ b' rcs, run_ops sample_bld sample_ops = Ok (b', rcs) ∧
  let r := elpis_bld_rollback b' (elpis_bld_mark sample_bld) in
  good r ∧ content r = content sample_bld ∧ b_len r = b_len sample_bld ∧ b_counts r = b_counts sample_bld ∧
  slots r = slots sample_bld ∧ ttls r = ttls sample_bld ∧ b_overflow r = false.
Proof.
  destruct (run_ops sample_bld sample_ops) as [[b' rcs]| |] eqn:E.
  - exists b', rcs. split; [done|].
    apply (bld_rollback_restores sample_bld b' sample_ops rcs); [apply sample_bld_good|by_compute|exact E].
  - exfalso. revert E. vm_compute. discriminate.
  - exfalso. revert E. vm_compute. discriminate.
Defined.

(** Round trip of a record: [elpis_bld_rr_begin], the rdata, and
    [elpis_bld_rr_end], when they all succeed, leave a message on which the
    iterator, started where the record began, yields exactly that record: the
    owner up to case, type, class, TTL, the length and place of the rdata, the
    same rdata octets, and the end of the message as the next record. *)
Theorem bld_record_round_trip (b b1 b2 b3 : elpis_bld_t) (ls : list (list Z))
    (type klass ttl pos : Z) (rdata : list Z) :
  good b → labels_ok ls → bytes rdata →
  0 <= type < 65536 → 0 <= klass < 65536 → 0 <= ttl < 2 ^ 32 →
  elpis_bld_rr_begin b (name_of ls) type klass ttl = Ok (b1, ELPIS_OK, pos) →
  elpis_bld_bytes b1 rdata (zlen rdata) = Ok (b2, ELPIS_OK) →
  elpis_bld_rr_end b2 pos = Ok (b3, ELPIS_OK) →
  ∃ ls', labels_eq ls' ls ∧
  elpis_rr_next (mkIter (content b3) (b_len b3) (b_len b) 1)
  = Ok (Some (mkRr (name_of ls') type klass ttl (zlen rdata) (pos + 2) (b_len b) (b_len b3),
              mkIter (content b3) (b_len b3) (b_len b3) 0)) ∧
  slice (content b3) (pos + 2) (zlen rdata) = rdata.
Proof.
  intros Hg Hok Hrd Hty Hk Httl E1 E2 E3.
  destruct (rr_begin_spec b ls type klass ttl Hg Hok) as (b1' & rc & pos' & E1' & Hg1 & _ & HP).
  rewrite E1' in E1. injection E1 as -> -> ->. destruct (HP eq_refl) as (b0 & Hn & Hpos & Hl1 & Hc1).
  pose proof (zlen_nonneg rdata). destruct (bytes_inv b1 rdata (zlen rdata) b2 _ Hg1 Hrd ltac:(lia) E2) as [Hg2 A2].
  specialize (A2 eq_refl). rewrite slice_0_all in A2 by lia. pose proof (appended_len _ _ _ A2) as Hl2.
  destruct A2 as (Hwf2 & Hc2 & _). pose proof (zlen_content b1 (proj1 Hg1)) as Hz1.
  pose proof (zlen_content b2 Hwf2) as Hz2. pose proof (w_len b (proj1 Hg)) as Hlb.
  assert (Hz0 : zlen (content b0) = b_len b0) by (rewrite Hc1, zlen_app, zlen_rr_fixed in Hz1; lia).
  destruct Hn as (Hfr & Hl0 & Hread).
  destruct (rr_end_ok_inv b2 pos b3 Hwf2 ltac:(lia) E3) as (_ & Hrl & Hwf3 & Hl3 & Hc3).
  replace (b_len b2 - (pos + 2)) with (zlen rdata) in Hc3, Hrl by lia.
  assert (Hcc : content b3 = content b0 ++ rr_fixed type klass ttl (zlen rdata) ++ rdata).
  { rewrite Hc3, Hc2, Hc1. unfold rr_fixed. rewrite <- !app_assoc.
    rewrite (app_assoc (content b0)), (app_assoc (content b0 ++ _)), (app_assoc ((content b0 ++ _) ++ _)).
    rewrite splice_mid; [by rewrite <- !app_assoc| |done].
    rewrite !zlen_app, !zlen_put16, zlen_put32. lia. }
  pose proof (bytes_content b3 Hwf3) as Hb3. rewrite Hcc in Hb3. apply Forall_app in Hb3 as [Hb0 Hbr].
  destruct (name_written_parse b ls b0 (rr_fixed type klass ttl (zlen rdata) ++ rdata) Hg Hok Hb0 Hbr Hz0)
    as (ls' & Hp & Hle); [exact (conj Hfr (conj Hl0 Hread))|]. rewrite <- Hcc in Hp. rewrite (zlen_content b3 Hwf3) in Hp.
  exists ls'. split; [done|]. split.
  - unfold elpis_rr_next. cbn [it_wire it_len it_off it_remain]. change (1 =? 0) with false. cbv iota.
    rewrite Hp. cbn [mbind res_bind].
    zfalse (b_len b3 <? b_len b0 + 10). bind_step.
    destruct (rr_fixed_read (content b0) rdata type klass ttl (zlen rdata)) as (F1 & F2 & F3 & F4); [done|done|done|lia|].
    rewrite <- Hcc, Hz0 in F1, F2, F3, F4. rewrite F1. bind_step. rewrite F2. bind_step. rewrite F3. bind_step.
    rewrite F4. bind_step. zfalse (b_len b3 <? b_len b0 + 10 + zlen rdata). bind_step.
    change (u16 (1 - 1)) with 0. replace (b_len b0 + 10 + zlen rdata) with (b_len b3) by lia.
    by replace (b_len b0 + 10) with (pos + 2) by lia.
  - rewrite Hcc, app_assoc, slice_app_r by (rewrite zlen_app, zlen_rr_fixed; lia).
    rewrite zlen_app, zlen_rr_fixed. replace (pos + 2 - _) with 0 by lia. apply slice_0_all. lia.
Qed.

Lemma bld_record_round_trip_witness :
  ∃ b1 pos b2 b3,
  elpis_bld_rr_begin sample_bld (name_of [[97]; [120]]) 1 1 300 = Ok (b1, ELPIS_OK, pos) ∧
  elpis_bld_bytes b1 [192; 0; 2; 1] 4 = Ok (b2, ELPIS_OK) ∧
  elpis_bld_rr_end b2 pos = Ok (b3, ELPIS_OK) ∧
  ∃ ls', labels_eq ls' [[97]; [120]] ∧
  elpis_rr_next (mkIter (content b3) (b_len b3) 7 1)
  = Ok (Some (mkRr (name_of ls') 1 1 300 4 (pos + 2) 7 (b_len b3), mkIter (content b3) (b_len b3) (b_len b3) 0)) ∧
  slice (content b3) (pos + 2) 4 = [192; 0; 2; 1].
Proof.
  eexists _, _, _, _. split; [vm_compute; reflexivity|]. split; [vm_compute; reflexivity|].
  split; [vm_compute; reflexivity|].
  eapply (bld_record_round_trip sample_bld _ _ _ [[97]; [120]] 1 1 300 _ [192; 0; 2; 1]
    sample_bld_good); [by_compute|by_compute|lia|lia|lia|..]; vm_compute; reflexivity.
Defined.
