(* ===== verification/Edns.v ===== *)
(** EDNS(0) assembly: include/elpis/edns.h and src/dns/edns.c.

    The OPT record is written option by option through the builder; the
    specification is the list of options it should carry, [opt_list], encoded by
    [opts_wire]. *)
From stdpp Require Import base list numbers.
From Stdlib Require Import ZArith Lia.
From S2P Require Import Prelude Bytes Simd Name NameOps Ecs Msg Builder.

(** ** Definitions *)

Definition ELPIS_EDNS_DEFAULT : Z := 1400.
Definition ELPIS_EDNS_VERSION : Z := 0.
Definition ELPIS_OPT_NSID : Z := 3.
Definition ELPIS_OPT_TCP_KEEPALIVE : Z := 11.
Definition ELPIS_OPT_PADDING : Z := 12.
Definition ELPIS_OPT_EDE : Z := 15.
Definition AF_INET : Z := 2.
Definition AF_INET6 : Z := 10.

(** Strings are their octets before the terminator; [None] is a null pointer. *)
Record elpis_edns_t := mkEdns {
  ed_bufsize : Z; ed_do_bit : bool; ed_want_nsid : bool; ed_have_cookie : bool;
  ed_have_keepalive : bool; ed_have_ecs : bool; ed_cookie : list Z; ed_cookie_len : Z;
  ed_ede_code : Z; ed_ede_text : option (list Z); ed_keepalive : Z; ed_pad_to : Z;
  ed_nsid : option (list Z); ed_ecs : elpis_ecs_t }.

Definition elpis_edns_init (bufsize : Z) (do_bit : bool) : elpis_edns_t :=
  mkEdns bufsize do_bit false false false false (zeros 40) 0 (-1) None 0 0 None ecs_zero.

Definition elpis_edns_for_mtu (mtu family : Z) : Z :=
  let hdr := if family =? AF_INET6 then 48 else 28 in
  if mtu <=? u32 (hdr + ELPIS_MAX_UDP_LEGACY) then ELPIS_MAX_UDP_LEGACY
  else
    let v := u32 (mtu - hdr) in
    let v := if ELPIS_EDNS_DEFAULT <? v then ELPIS_EDNS_DEFAULT else v in
    u16 v.

(** Code, length and data of one option. *)
Definition put_option (b : elpis_bld_t) (code n : Z) (data : list Z) : bres :=
  and_then (elpis_bld_u16 b code) (fun b =>
  and_then (elpis_bld_u16 b n) (fun b =>
  elpis_bld_bytes b data n)).

Definition write_cookie (b : elpis_bld_t) (e : elpis_edns_t) : bres :=
  if ed_have_cookie e && negb (ed_cookie_len e =? 0)
  then put_option b ELPIS_OPT_COOKIE (ed_cookie_len e) (ed_cookie e)
  else Ok (b, ELPIS_OK).

Definition write_ecs (b : elpis_bld_t) (e : elpis_edns_t) : bres :=
  if ed_have_ecs e then
    opt ← elpis_ecs_encode (ed_ecs e) 20;
    let n := zlen opt in
    if n =? 0 then Ok (b, ELPIS_ETRUNC) else put_option b ELPIS_OPT_ECS (u16 n) opt
  else Ok (b, ELPIS_OK).

Definition write_nsid (b : elpis_bld_t) (e : elpis_edns_t) : bres :=
  match ed_nsid e with
  | Some s =>
    if ed_want_nsid e then
      let n := if 255 <? zlen s then 255 else zlen s in put_option b ELPIS_OPT_NSID (u16 n) s
    else Ok (b, ELPIS_OK)
  | None => Ok (b, ELPIS_OK)
  end.

Definition write_keepalive (b : elpis_bld_t) (e : elpis_edns_t) : bres :=
  if ed_have_keepalive e then
    and_then (elpis_bld_u16 b ELPIS_OPT_TCP_KEEPALIVE) (fun b =>
    and_then (elpis_bld_u16 b 2) (fun b => elpis_bld_u16 b (ed_keepalive e)))
  else Ok (b, ELPIS_OK).

Definition write_ede (b : elpis_bld_t) (e : elpis_edns_t) : bres :=
  if 0 <=? ed_ede_code e then
    let text := default [] (ed_ede_text e) in
    let tlen := if 200 <? zlen text then 200 else zlen text in
    and_then (elpis_bld_u16 b ELPIS_OPT_EDE) (fun b =>
    and_then (elpis_bld_u16 b (u16 (2 + tlen))) (fun b =>
    and_then (elpis_bld_u16 b (u16 (ed_ede_code e))) (fun b =>
    if tlen =? 0 then Ok (b, ELPIS_OK) else elpis_bld_bytes b text tlen)))
  else Ok (b, ELPIS_OK).

Definition write_padding (b : elpis_bld_t) (e : elpis_edns_t) : bres :=
  if 1 <? ed_pad_to e then
    let cur := b_len b + 4 in
    let pad := (ed_pad_to e - cur mod ed_pad_to e) mod ed_pad_to e in
    if (0 <? pad) || (cur mod ed_pad_to e =? 0) then
      let pad := if 512 <? pad then 512 else pad in
      and_then (elpis_bld_u16 b ELPIS_OPT_PADDING) (fun b =>
      and_then (elpis_bld_u16 b (u16 pad)) (fun b =>
      if pad =? 0 then Ok (b, ELPIS_OK) else elpis_bld_bytes b (zeros 512) pad))
    else Ok (b, ELPIS_OK)
  else Ok (b, ELPIS_OK).

(** TTL field of OPT: extended rcode, version, flags. *)
Definition opt_ttl (e : elpis_edns_t) (rcode : Z) : Z :=
  Z.lor (Z.lor (u32 (Z.shiftl (Z.shiftr rcode 4) 24)) (u32 (Z.shiftl ELPIS_EDNS_VERSION 16)))
        (if ed_do_bit e then ELPIS_EDNS_DO else 0).

(** Everything up to the label [trunc]. *)
Definition edns_body (b : elpis_bld_t) (e : elpis_edns_t) (rcode : Z) : bres :=
  and_then (elpis_bld_name_raw b elpis_name_init_root) (fun b =>
  and_then (elpis_bld_u16 b ELPIS_T_OPT) (fun b =>
  and_then (elpis_bld_u16 b (ed_bufsize e)) (fun b =>
  and_then (elpis_bld_u32 b (opt_ttl e rcode)) (fun b =>
  let rdlen_pos := b_len b in
  and_then (elpis_bld_u16 b 0) (fun b =>
  and_then (write_cookie b e) (fun b =>
  and_then (write_ecs b e) (fun b =>
  and_then (write_nsid b e) (fun b =>
  and_then (write_keepalive b e) (fun b =>
  and_then (write_ede b e) (fun b =>
  and_then (write_padding b e) (fun b =>
  and_then (elpis_bld_rr_end b rdlen_pos) (fun b =>
  elpis_bld_count b 2 1)))))))))))).

Definition elpis_edns_write (b : elpis_bld_t) (e : elpis_edns_t) (rcode : Z) : bres :=
  let start := b_len b in
  '(b, rc) ← edns_body b e rcode;
  if bool_decide (rc = ELPIS_OK) then Ok (b, ELPIS_OK)
  else Ok (set_overflow (set_buf b (b_buf b) start) false, ELPIS_ETRUNC).

(** ** Abstract view: a list of options *)

Definition opt_wire (o : Z * list Z) : list Z :=
  put16_bytes (fst o) ++ put16_bytes (zlen (snd o)) ++ snd o.
Definition opts_wire (os : list (Z * list Z)) : list Z := concat (map opt_wire os).

(** The options asked for, in the order written; padding depends on what is
    before it, so it comes separately. *)
Definition opt_list (e : elpis_edns_t) : list (Z * list Z) :=
  (if ed_have_cookie e && negb (ed_cookie_len e =? 0)
   then [(ELPIS_OPT_COOKIE, slice (ed_cookie e) 0 (ed_cookie_len e))] else []) ++
  (if ed_have_ecs e then [(ELPIS_OPT_ECS, ecs_wire (ed_ecs e))] else []) ++
  (match ed_nsid e with
   | Some s => if ed_want_nsid e then [(ELPIS_OPT_NSID, slice s 0 (Z.min 255 (zlen s)))] else []
   | None => [] end) ++
  (if ed_have_keepalive e then [(ELPIS_OPT_TCP_KEEPALIVE, put16_bytes (ed_keepalive e))] else []) ++
  (if 0 <=? ed_ede_code e
   then [(ELPIS_OPT_EDE, put16_bytes (u16 (ed_ede_code e)) ++
          slice (default [] (ed_ede_text e)) 0 (Z.min 200 (zlen (default [] (ed_ede_text e)))))] else []).

Definition pad_list (e : elpis_edns_t) (len : Z) : list (Z * list Z) :=
  if 1 <? ed_pad_to e
  then [(ELPIS_OPT_PADDING, zeros (Z.min 512 ((- (len + 4)) mod ed_pad_to e)))] else [].

(** The requests a caller may make: what its fields' C types allow, the subnet
    a well-formed one. *)
Definition wf_edns (e : elpis_edns_t) : Prop :=
  0 <= ed_bufsize e < 65536 ∧ zlen (ed_cookie e) = 40 ∧ bytes (ed_cookie e) ∧
  0 <= ed_cookie_len e <= 40 ∧ 0 <= ed_keepalive e < 65536 ∧ 0 <= ed_pad_to e < 65536 ∧
  bytes (default [] (ed_ede_text e)) ∧ bytes (default [] (ed_nsid e)) ∧
  (ed_have_ecs e = true → wf_ecs (ed_ecs e)).

(** ** Writers that only append *)

(** [m], started in [b], returns; whatever the code, only the buffer, the
    length and the overflow bit changed and the old contents are a prefix; on
    success exactly [bs] was appended, and only want of room makes it fail. *)
Definition writes (b : elpis_bld_t) (m : bres) (bs : list Z) : Prop :=
  ∃ b' rc, m = Ok (b', rc) ∧ wf_bld b' ∧ (∃ x, content b' = content b ++ x) ∧
  (∃ buf len o, b' = set_overflow (set_buf b buf len) o) ∧ (rc = ELPIS_OK → appended b bs b') ∧
  (rc ≠ ELPIS_OK → b_cap b < b_len b + zlen bs).

Lemma appended_cap b bs b' : appended b bs b' → b_cap b' = b_cap b.
Proof. by intros (_ & _ & [buf ->]). Qed.

Lemma writes_nil b : wf_bld b → writes b (Ok (b, ELPIS_OK)) [].
Proof.
  intros Hwf. exists b, ELPIS_OK. split_and!; try done.
  - exists []. by rewrite app_nil_r.
  - exists (b_buf b), (b_len b), (b_overflow b). by destruct b.
  - intros _. split_and!; [done|by rewrite app_nil_r|]. exists (b_buf b).
    change (zlen (@nil Z)) with 0. rewrite Z.add_0_r. by destruct b.
Qed.

Lemma writes_write b bs : wf_bld b → bytes bs → writes b (bld_write b bs) bs.
Proof.
  intros Hwf Hb. destruct (bld_write_spec b bs Hwf Hb) as [[_ (b' & -> & Ha)]|[? ->]].
  - exists b', ELPIS_OK. pose proof Ha as (? & Hc & [buf E]). split_and!; try done; [by exists bs|].
    exists buf, (b_len b + zlen bs), (b_overflow b). by rewrite E.
  - eexists _, _. split; [done|]. split_and!; [by apply wf_overflow| | |done|done].
    + exists []. by rewrite app_nil_r.
    + exists (b_buf b), (b_len b), true. by destruct b.
Qed.

Lemma writes_then b m k bs1 bs2 :
  writes b m bs1 → (∀ b1, appended b bs1 b1 → writes b1 (k b1) bs2) →
  writes b (and_then m k) (bs1 ++ bs2).
Proof.
  intros (b1 & rc & -> & Hwf & [x Hx] & (buf & len & o & Eb) & HP & HF) Hk. unfold writes, and_then. bind_step.
  pose proof (zlen_nonneg bs1). pose proof (zlen_nonneg bs2). rewrite zlen_app. case_bool_decide as Hrc.
  - destruct (Hk b1 (HP Hrc)) as (b2 & rc2 & -> & ? & [y Hy] & (buf2 & len2 & o2 & Eb2) & HP2 & HF2).
    exists b2, rc2. split_and!; [done|done| | | |].
    + exists (x ++ y). by rewrite Hy, Hx, app_assoc.
    + exists buf2, len2, o2. by rewrite Eb2, Eb.
    + intros Hrc2. eapply appended2; [by apply HP|by apply HP2].
    + intros Hrc2. specialize (HF2 Hrc2). specialize (HP Hrc).
      rewrite (appended_len _ _ _ HP), (appended_cap _ _ _ HP) in HF2. lia.
  - exists b1, ELPIS_ETRUNC. split_and!; try done; [by exists x|by exists buf, len, o|].
    intros _. specialize (HF Hrc). lia.
Qed.

Lemma writes_u16 b v : wf_bld b → writes b (elpis_bld_u16 b v) (put16_bytes v).
Proof. intros. rewrite bld_u16_write. apply writes_write; [done|apply bytes_put16]. Qed.
Lemma writes_u32 b v : wf_bld b → writes b (elpis_bld_u32 b v) (put32_bytes v).
Proof. intros. rewrite bld_u32_write. apply writes_write; [done|apply bytes_put32]. Qed.
Lemma writes_bytes b p n :
  wf_bld b → bytes p → 0 <= n <= zlen p → writes b (elpis_bld_bytes b p n) (slice p 0 n).
Proof. intros. rewrite bld_bytes_write by done. apply writes_write; [done|by apply Forall_slice]. Qed.
Lemma writes_root b : wf_bld b → writes b (elpis_bld_name_raw b elpis_name_init_root) [0].
Proof. intros. apply (writes_bytes b [0] 1); [done|by_compute|by_compute]. Qed.

Lemma appended_wf b bs b' : appended b bs b' → wf_bld b'.
Proof. by intros [? _]. Qed.
#[local] Hint Resolve appended_wf : core.

(** Composes writers along [and_then]. *)
Ltac write_step :=
  eapply writes_then;
  [solve [eauto using writes_u16, writes_u32, writes_bytes, writes_root]|intros ? ?].

Lemma writes_eq b m bs bs' : writes b m bs → bs = bs' → writes b m bs'.
Proof. by intros ? <-. Qed.

Lemma writes_option b code n data :
  wf_bld b → bytes data → 0 <= n <= zlen data →
  writes b (put_option b code n data) (opt_wire (code, slice data 0 n)).
Proof.
  intros Hwf Hd Hn. unfold put_option, opt_wire. cbn [fst snd]. rewrite zlen_slice by lia.
  write_step. write_step. by eapply writes_bytes; eauto.
Qed.

Lemma opts_wire_app a b : opts_wire (a ++ b) = opts_wire a ++ opts_wire b.
Proof. unfold opts_wire. by rewrite map_app, concat_app. Qed.
Lemma opts_wire_one o : opts_wire [o] = opt_wire o.
Proof. unfold opts_wire. cbn [map concat]. apply app_nil_r. Qed.

Lemma bytes_ecs_wire e : wf_ecs e → bytes (ecs_wire e).
Proof.
  intros (Hf & Hs & Hsc & Hl & Hb & _). apply Forall_app. split; [|by apply Forall_slice].
  apply family_bits_le in Hs, Hsc.
  do 4 (constructor; [unfold ELPIS_ECS_IPV4, ELPIS_ECS_IPV6 in Hf; zl|]). constructor.
Qed.

Section options.
Context (e : elpis_edns_t) (He : wf_edns e).

Lemma writes_cookie b :
    wf_bld b → writes b (write_cookie b e)
      (opts_wire (if ed_have_cookie e && negb (ed_cookie_len e =? 0)
                  then [(ELPIS_OPT_COOKIE, slice (ed_cookie e) 0 (ed_cookie_len e))] else [])).
  Proof.
    intros Hwf. destruct He as (_ & Hc & Hb & Hl & _). unfold write_cookie.
    destruct (_ && _)%bool; [|by apply writes_nil]. rewrite opts_wire_one. apply writes_option; (done || lia).
  Qed.

Lemma writes_ecs b :
    wf_bld b → writes b (write_ecs b e) (opts_wire (if ed_have_ecs e then [(ELPIS_OPT_ECS, ecs_wire (ed_ecs e))] else [])).
  Proof.
    intros Hwf. destruct He as (_ & _ & _ & _ & _ & _ & _ & _ & Hecs). unfold write_ecs.
    destruct (ed_have_ecs e); [|by apply writes_nil]. specialize (Hecs eq_refl).
    destruct (wf_ecs_addr _ Hecs) as [Hn _]. pose proof (zlen_ecs_wire _ Hecs) as Hz.
    rewrite ecs_encode_wf by (done || lia). bind_step. zfalse (zlen (ecs_wire (ed_ecs e)) =? 0).
    rewrite u16_id by lia. rewrite opts_wire_one. eapply writes_eq; [apply writes_option|].
    - done.
    - by apply bytes_ecs_wire.
    - lia.
    - by rewrite slice_0_all by lia.
  Qed.

Lemma writes_nsid b :
    wf_bld b → writes b (write_nsid b e)
      (opts_wire (match ed_nsid e with
       | Some s => if ed_want_nsid e then [(ELPIS_OPT_NSID, slice s 0 (Z.min 255 (zlen s)))] else []
       | None => [] end)).
  Proof.
    intros Hwf. destruct He as (_ & _ & _ & _ & _ & _ & _ & Hb & _). unfold write_nsid.
    destruct (ed_nsid e) as [s|]; [|by apply writes_nil].
    destruct (ed_want_nsid e); [|by apply writes_nil]. cbn [default] in Hb. rewrite opts_wire_one.
    pose proof (zlen_nonneg s). cbv zeta. destruct (Z.ltb_spec 255 (zlen s)).
    - rewrite u16_id by lia. rewrite Z.min_l by lia. apply writes_option; (done || lia).
    - rewrite u16_id by lia. rewrite Z.min_r by lia. apply writes_option; (done || lia).
  Qed.

Lemma writes_keepalive b :
    wf_bld b → writes b (write_keepalive b e)
      (opts_wire (if ed_have_keepalive e then [(ELPIS_OPT_TCP_KEEPALIVE, put16_bytes (ed_keepalive e))] else [])).
  Proof.
    intros Hwf. unfold write_keepalive. destruct (ed_have_keepalive e); [|by apply writes_nil].
    rewrite opts_wire_one. write_step. write_step. eauto using writes_u16.
  Qed.

Lemma writes_ede b :
    wf_bld b → writes b (write_ede b e)
      (opts_wire (if 0 <=? ed_ede_code e
       then [(ELPIS_OPT_EDE, put16_bytes (u16 (ed_ede_code e)) ++
              slice (default [] (ed_ede_text e)) 0 (Z.min 200 (zlen (default [] (ed_ede_text e)))))] else [])).
  Proof.
    intros Hwf. destruct He as (_ & _ & _ & _ & _ & _ & Hb & _). unfold write_ede.
    destruct (0 <=? ed_ede_code e); [|by apply writes_nil]. set (t := default [] (ed_ede_text e)) in *.
    pose proof (zlen_nonneg t). cbv zeta.
    assert (Ht : (if 200 <? zlen t then 200 else zlen t) = Z.min 200 (zlen t))
      by (destruct (Z.ltb_spec 200 (zlen t)); lia).
    rewrite Ht. set (n := Z.min 200 (zlen t)) in *. rewrite opts_wire_one. unfold opt_wire. cbn [fst snd].
    rewrite zlen_app, zlen_put16, zlen_slice by lia. rewrite (u16_id (2 + n)) by lia.
    write_step. write_step. write_step.
    destruct (Z.eqb_spec n 0) as [->|]; [eauto using writes_nil|]. eapply writes_bytes; (eauto || lia).
  Qed.

Lemma writes_padding b :
    wf_bld b → writes b (write_padding b e) (opts_wire (pad_list e (b_len b))).
  Proof.
    intros Hwf. destruct He as (_ & _ & _ & _ & _ & Hp & _). unfold write_padding, pad_list.
    destruct (Z.ltb_spec 1 (ed_pad_to e)); [|by apply writes_nil]. cbv zeta.
    set (cur := b_len b + 4). set (p := ed_pad_to e) in *.
    assert (Hpad : (p - cur mod p) mod p = (- cur) mod p).
    { rewrite Zminus_mod_idemp_r. replace (p - cur) with (- cur + 1 * p) by lia. apply Z_mod_plus_full. }
    rewrite Hpad. set (pad := (- cur) mod p).
    assert (Hr : 0 <= pad < p) by (apply Z.mod_pos_bound; lia).
    replace ((0 <? pad) || (cur mod p =? 0))%bool with true.
    2: { symmetry. destruct (Z.eqb_spec pad 0) as [Hz|]; [|by ztrue (0 <? pad)].
         assert (cur mod p = 0) as -> by (rewrite <- (Z.opp_involutive cur); by apply Z_mod_zero_opp_full).
         by rewrite orb_true_r. }
    assert (Hm : (if 512 <? pad then 512 else pad) = Z.min 512 pad)
      by (destruct (Z.ltb_spec 512 pad); lia).
    rewrite Hm. set (n := Z.min 512 pad) in *. rewrite u16_id by lia.
    rewrite opts_wire_one. unfold opt_wire. cbn [fst snd]. rewrite zlen_zeros by lia.
    write_step. write_step. destruct (Z.eqb_spec n 0) as [->|]; [eauto using writes_nil|].
    eapply writes_eq; [eapply (writes_bytes _ (zeros 512) n)|].
    - eauto.
    - apply bytes_zeros.
    - rewrite zlen_zeros; lia.
    - unfold slice, zeros. change (Z.to_nat 0) with 0%nat. rewrite drop_0, take_replicate. f_equal. lia.
  Qed.
End options.

(** ** The whole record *)

(** Only the buffer, its length and the overflow bit differ, and the old
    contents are still there: what makes dropping a partial OPT possible. *)
Definition quiet (b b' : elpis_bld_t) : Prop :=
  wf_bld b' ∧ (∃ x, content b' = content b ++ x) ∧
  ∃ buf len o, b' = set_overflow (set_buf b buf len) o.

(** [R] is why it may fail. *)
Definition body (b0 : elpis_bld_t) (m : bres) (R : Prop) (P : elpis_bld_t → Prop) : Prop :=
  ∃ b' rc, m = Ok (b', rc) ∧ (rc ≠ ELPIS_OK → quiet b0 b' ∧ R) ∧ (rc = ELPIS_OK → P b').

Lemma body_then b0 b m k bs R P :
  quiet b0 b → writes b m bs → (b_cap b < b_len b + zlen bs → R) →
  (∀ b1, quiet b0 b1 → appended b bs b1 → body b0 (k b1) R P) → body b0 (and_then m k) R P.
Proof.
  intros (Hwf0 & [x0 Hx0] & (buf0 & len0 & o0 & E0))
    (b1 & rc & -> & Hwf & [x Hx] & (buf & len & o & Eb) & HP & HF) HR Hk.
  assert (Hq : quiet b0 b1).
  { split_and!; [done|exists (x0 ++ x); by rewrite Hx, Hx0, app_assoc|].
    exists buf, len, o. by rewrite Eb, E0. }
  unfold and_then. bind_step. case_bool_decide as Hrc; [by apply Hk, HP|].
  exists b1, ELPIS_ETRUNC. split; [done|]. split; [|done]. intros _. split; [done|]. by apply HR, HF.
Qed.

Definition opt_all (e : elpis_edns_t) (start : Z) : list (Z * list Z) :=
  opt_list e ++ pad_list e (start + 11 + zlen (opts_wire (opt_list e))).

(** The octets [elpis_edns_write] appends. *)
Definition opt_record (e : elpis_edns_t) (rcode start : Z) : list Z :=
  [0] ++ rr_fixed ELPIS_T_OPT (ed_bufsize e) (opt_ttl e rcode) (zlen (opts_wire (opt_all e start)))
  ++ opts_wire (opt_all e start).

Definition edns_done (b : elpis_bld_t) (e : elpis_edns_t) (rcode : Z) (b' : elpis_bld_t) : Prop :=
  wf_bld b' ∧ content b' = content b ++ opt_record e rcode (b_len b) ∧
  zlen (opts_wire (opt_all e (b_len b))) <= 0xFFFF ∧
  ∃ c buf, rd (b_counts b) 3 = Ok c ∧ c + 1 <= 0xFFFF ∧
  b' = set_counts (set_buf b buf (b_len b')) (splice (b_counts b) 3 [c + 1]).

(** Why an OPT may have to be dropped. *)
Definition opt_blocked (b : elpis_bld_t) (e : elpis_edns_t) (rcode : Z) : Prop :=
  b_overflow b = true ∨ b_cap b < b_len b + zlen (opt_record e rcode (b_len b)) ∨
  0xFFFF < zlen (opts_wire (opt_all e (b_len b))) ∨ rd (b_counts b) 3 = Ok 0xFFFF.

Lemma quiet_refl b : wf_bld b → quiet b b.
Proof.
  intros Hwf. split_and!; [done|exists []; by rewrite app_nil_r|].
  exists (b_buf b), (b_len b), (b_overflow b). by destruct b.
Qed.

Lemma opt_tail_spec b b1 e rcode :
  wf_bld b → quiet b b1 →
  b_len b1 = b_len b + 11 + zlen (opts_wire (opt_all e (b_len b))) →
  content b1 = content b ++ [0] ++ rr_fixed ELPIS_T_OPT (ed_bufsize e) (opt_ttl e rcode) 0
               ++ opts_wire (opt_all e (b_len b)) →
  b_overflow b1 = b_overflow b →
  body b (and_then (elpis_bld_rr_end b1 (b_len b + 9)) (fun b2 => elpis_bld_count b2 2 1))
    (opt_blocked b e rcode) (edns_done b e rcode).
Proof.
  intros Hwf Hq Hl Hc Hov. pose proof Hq as (Hwf1 & _ & (buf & len & o & E1)).
  set (od := opts_wire (opt_all e (b_len b))) in *.
  pose proof (zlen_nonneg od) as Hz. pose proof (w_len b Hwf). pose proof (zlen_content b Hwf) as Hzb.
  destruct (rr_end_cases b1 (b_len b + 9) Hwf1 ltac:(lia) ltac:(lia)) as (b2 & rc & -> & Hbad & Hgood).
  unfold and_then. bind_step. case_bool_decide as Hrc.
  2: { destruct (Hbad Hrc) as [-> Hwhy]. exists b1, ELPIS_ETRUNC. split; [done|]. split; [|done]. intros _.
       split; [done|]. unfold opt_blocked. fold od. rewrite Hov in Hwhy.
       destruct Hwhy as [?|?]; [by left|right; right; left; lia]. }
  destruct (Hgood Hrc) as (Hle & Hwf2 & [buf2 E2] & Hc2).
  replace (b_len b1 - (b_len b + 9 + 2)) with (zlen od) in Hle, Hc2 by lia.
  assert (Hcc : content b2 = content b ++ [0] ++ rr_fixed ELPIS_T_OPT (ed_bufsize e) (opt_ttl e rcode) (zlen od) ++ od).
  { rewrite Hc2, Hc. unfold rr_fixed. rewrite <- !app_assoc.
    rewrite (app_assoc (content b)), (app_assoc (content b ++ _)), (app_assoc ((content b ++ _) ++ _)),
      (app_assoc (((content b ++ _) ++ _) ++ _)).
    rewrite splice_mid; [by rewrite <- !app_assoc| |done].
    rewrite !zlen_app, !zlen_put16, zlen_put32. change (zlen [0]) with 1. lia. }
  assert (Hcnt : b_counts b2 = b_counts b) by by rewrite E2, E1.
  assert (Hq2 : quiet b b2).
  { split_and!; [done|by eexists|]. exists buf2, (b_len b1), o. by rewrite E2, E1. }
  pose proof (w_counts b2 Hwf2) as [Hz4 Hf]. unfold elpis_bld_count. change (3 <? Z.of_nat 2 + 1) with false. cbv iota.
  change (Z.of_nat 2 + 1) with 3.
  destruct (rd_in_range (b_counts b2) 3) as (c & Hrd & Hlk); [lia|]. rewrite Hrd. bind_step.
  pose proof (Forall_lookup_1 _ _ _ _ Hf Hlk) as Hcr. cbv beta in Hcr.
  zfalse (c + 1 <? 0). cbn [orb]. destruct (Z.ltb_spec 0xFFFF (c + 1)).
  { exists b2, ELPIS_ERR. split; [done|]. split; [|done]. intros _. split; [done|].
    right. right. right. rewrite <- Hcnt, Hrd. f_equal. lia. }
  rewrite u16_id, blit_in_range by (change (zlen [_]) with 1; lia). bind_step.
  eexists _, ELPIS_OK. split; [done|]. split; [done|]. intros _. split_and!.
  - destruct Hwf2. constructor; try done. cbn [set_counts b_counts]. split.
    + rewrite zlen_splice; [done|lia|change (zlen [_]) with 1; lia].
    + unfold splice. repeat apply Forall_app_2; [by apply Forall_take| |by apply Forall_drop]. repeat constructor; lia.
  - exact Hcc.
  - done.
  - exists c, buf2. rewrite <- Hcnt. split_and!; try done.
    unfold set_counts. cbn [b_buf b_len]. rewrite E2, E1. cbn in Hov |- *. rewrite E1 in Hov. cbn in Hov. by rewrite Hov.
Qed.

(** The parts of the record. *)
Lemma zlen_opt_record_parts e rcode start :
  zlen (opt_record e rcode start) = 11 + zlen (opts_wire (opt_list e))
    + zlen (opts_wire (pad_list e (start + 11 + zlen (opts_wire (opt_list e))))).
Proof.
  unfold opt_record, opt_all. rewrite opts_wire_app, !zlen_app, zlen_rr_fixed. change (zlen [0]) with 1. lia.
Qed.

(** A step that does not fit: the whole record does not. *)
Ltac no_room A :=
  let H := fresh in let HL := fresh in let HC := fresh in
  intros H; right; left; pose proof (appended_len _ _ _ A) as HL; pose proof (appended_cap _ _ _ A) as HC;
  rewrite zlen_opt_record_parts; unfold opt_list at 1; rewrite !opts_wire_app, !zlen_app;
  rewrite ?zlen_app, ?zlen_rr_fixed, ?zlen_put16, ?zlen_put32 in HL;
  rewrite ?zlen_put16, ?zlen_put32 in H;
  change (zlen [0]) with 1 in *; change (zlen (@nil Z)) with 0 in *;
  repeat match goal with |- context [zlen (opts_wire ?x)] =>
    lazymatch goal with _ : 0 <= zlen (opts_wire x) |- _ => fail | _ => pose proof (zlen_nonneg (opts_wire x)) end
  end; lia.

(** One more writer of the body, folded into what was appended so far. *)
Ltac body_step A :=
  let b' := fresh "b" in let Q' := fresh "Q" in let A' := fresh "A" in
  eapply body_then; [eassumption|solve [eauto using writes_u16, writes_u32, writes_root, writes_cookie,
    writes_ecs, writes_nsid, writes_keepalive, writes_ede, writes_padding]|no_room A|];
  intros b' Q' A'; pose proof (appended2 _ _ _ _ _ A A') as A''; clear A A'; rename A'' into A.

Lemma edns_body_spec b e rcode :
  wf_bld b → wf_edns e → body b (edns_body b e rcode) (opt_blocked b e rcode) (edns_done b e rcode).
Proof.
  intros Hwf He. pose proof (quiet_refl b Hwf) as Q. unfold edns_body.
  assert (A : appended b [] b).
  { split_and!; [done|by rewrite app_nil_r|]. exists (b_buf b). change (zlen (@nil Z)) with 0.
    rewrite Z.add_0_r. by destruct b. }
  body_step A. body_step A. body_step A. body_step A.
  cbv zeta. rewrite (appended_len _ _ _ A).
  body_step A. body_step A. body_step A. body_step A. body_step A. body_step A.
  match type of A with appended _ ?x _ =>
    assert (Hx : x = [0] ++ rr_fixed ELPIS_T_OPT (ed_bufsize e) (opt_ttl e rcode) 0 ++ opts_wire (opt_list e))
      by (unfold opt_list, rr_fixed; rewrite !opts_wire_app, <- !app_assoc; done) end.
  rewrite Hx in A. clear Hx. pose proof (appended_len _ _ _ A) as HL. pose proof (appended_cap _ _ _ A) as HC.
  rewrite !zlen_app, zlen_rr_fixed in HL. change (zlen [0]) with 1 in HL.
  eapply body_then; [eassumption|by apply writes_padding; eauto| |intros ? ? A'].
  { intros Hno. right. left. rewrite zlen_opt_record_parts. rewrite HL, HC in Hno.
    replace (b_len b + (1 + (10 + zlen (opts_wire (opt_list e)))))
      with (b_len b + 11 + zlen (opts_wire (opt_list e))) in Hno by lia. lia. }
  pose proof (appended2 _ _ _ _ _ A A') as A''. clear A A'. rename A'' into A. rewrite HL in A.
  rewrite !zlen_app, !zlen_put16, zlen_put32. change (zlen [0]) with 1. change (zlen (@nil Z)) with 0.
  rewrite <- !app_assoc, <- opts_wire_app in A.
  replace (b_len b + (1 + (10 + zlen (opts_wire (opt_list e)))))
    with (b_len b + 11 + zlen (opts_wire (opt_list e))) in A by lia.
  fold (opt_all e (b_len b)) in A.
  pose proof A as (_ & Hc & [buf E]).
  apply opt_tail_spec; [done|done| |done|by rewrite E].
  rewrite (appended_len _ _ _ A), !zlen_app, zlen_rr_fixed. change (zlen [0]) with 1. lia.
Qed.

Lemma edns_write_spec b e rcode :
  wf_bld b → wf_edns e →
  ∃ b' rc, elpis_edns_write b e rcode = Ok (b', rc) ∧
  (rc = ELPIS_OK ∧ edns_done b e rcode b' ∨
   rc = ELPIS_ETRUNC ∧ wf_bld b' ∧ content b' = content b ∧ opt_blocked b e rcode ∧
   ∃ buf, b' = set_overflow (set_buf b buf (b_len b)) false).
Proof.
  intros Hwf He. unfold elpis_edns_write.
  destruct (edns_body_spec b e rcode Hwf He) as (b1 & rc & -> & Hbad & Hgood). bind_step.
  case_bool_decide as Hrc.
  { exists b1, ELPIS_OK. split; [done|]. left. auto. }
  destruct (Hbad Hrc) as [(Hwf1 & [x Hx] & (buf & len & o & E)) Hblk].
  eexists _, _. split; [done|]. right. pose proof (zlen_content b Hwf) as Hz.
  pose proof (zlen_content b1 Hwf1) as Hz1. rewrite Hx, zlen_app in Hz1. pose proof (zlen_nonneg x).
  pose proof (w_len b Hwf). pose proof Hwf1 as [Wc Wl Wb Wcn Wt Wn Wtt].
  split_and!; [done| | |done|].
  - constructor; cbn [set_buf set_overflow b_buf b_cap b_len b_counts b_compress b_ctab b_nctab b_track_ttl b_ttl_cap
      b_ttl_off b_ttl_val b_nttl]; done || lia.
  - unfold content at 1. cbn [set_buf set_overflow b_buf b_len].
    rewrite (buf_split b1 Hwf1), Hx, <- app_assoc. by apply slice_0_app_le.
  - exists (b_buf b1). by rewrite E.
Qed.

(** ** Reading the options back *)

(** What [parse_opt_one] does with the data of one option. *)
Definition absorb (m : elpis_msg_edns) (o : Z * list Z) : res elpis_msg_edns :=
  parse_opt_one (snd o) m (fst o) (zlen (snd o)) 0.

Fixpoint absorb_all (m : elpis_msg_edns) (os : list (Z * list Z)) : res elpis_msg_edns :=
  match os with
  | [] => Ok m
  | o :: os => m ← absorb m o; absorb_all m os
  end.

Definition option_ok (o : Z * list Z) : Prop := 0 <= fst o < 65536 ∧ zlen (snd o) < 65536 ∧ bytes (snd o).

Lemma zlen_opt_wire o : zlen (opt_wire o) = 4 + zlen (snd o).
Proof. unfold opt_wire. rewrite !zlen_app, !zlen_put16. lia. Qed.

Lemma opts_wire_cons o os : opts_wire (o :: os) = opt_wire o ++ opts_wire os.
Proof. done. Qed.

Lemma parse_opt_one_at pre data post m code p :
  p = zlen pre →
  parse_opt_one (pre ++ data ++ post) m code (zlen data) p = parse_opt_one data m code (zlen data) 0.
Proof.
  intros ->. pose proof (zlen_nonneg data). pose proof (zlen_nonneg pre). pose proof (zlen_nonneg post).
  assert (Hr : rds (pre ++ data ++ post) (zlen pre) (zlen data) = Ok data).
  { rewrite rds_app_r, Z.sub_diag by lia. rewrite rds_in_range by (rewrite ?zlen_app; lia). by rewrite slice_0_app. }
  assert (Hr0 : rds data 0 (zlen data) = Ok data) by (rewrite rds_in_range, slice_0_all by lia; done).
  unfold parse_opt_one. by rewrite Hr, Hr0.
Qed.

Lemma parse_opt_loop_wire os : ∀ fuel pre post m stop p,
  Forall option_ok os → p = zlen pre → stop = p + zlen (opts_wire os) → zlen os < Z.of_nat fuel →
  parse_opt_loop fuel (pre ++ opts_wire os ++ post) stop p m = absorb_all m os.
Proof.
  induction os as [|o os IH]; intros fuel pre post m stop p Hos -> -> Hf; (destruct fuel as [|fuel]; [zl|]);
    cbn [parse_opt_loop].
  - change (zlen (opts_wire [])) with 0. by zfalse (zlen pre <? zlen pre + 0).
  - apply Forall_cons_1 in Hos as [(Hc & Hl & Hb) Hos]. destruct o as [code data]. cbn [fst snd] in *.
    rewrite opts_wire_cons, zlen_app, zlen_opt_wire, zlen_cons in *. cbn [snd].
    pose proof (zlen_nonneg data). pose proof (zlen_nonneg (opts_wire os)).
    ztrue (zlen pre <? zlen pre + (4 + zlen data + zlen (opts_wire os))).
    zfalse (zlen pre + (4 + zlen data + zlen (opts_wire os)) <? zlen pre + 4). bind_step.
    unfold opt_wire. cbn [fst snd]. rewrite <- !app_assoc.
    rewrite get16_put16 by lia. bind_step.
    rewrite app_assoc. replace (zlen pre + 2) with (zlen (pre ++ put16_bytes code)) by (rewrite zlen_app, zlen_put16; lia).
    rewrite get16_put16 by lia. bind_step.
    zfalse (zlen pre + (4 + zlen data + zlen (opts_wire os)) <? zlen pre + 4 + zlen data). bind_step.
    rewrite app_assoc. set (pre' := (pre ++ put16_bytes code) ++ put16_bytes (zlen data)).
    assert (Hpre : zlen pre' = zlen pre + 4) by (subst pre'; rewrite !zlen_app, !zlen_put16; lia).
    rewrite parse_opt_one_at by lia. cbn [absorb_all]. unfold absorb. cbn [fst snd].
    destruct (parse_opt_one data m code (zlen data) 0) as [m'| |]; [|done|done]. cbn [mbind res_bind].
    rewrite (app_assoc pre' data). apply IH; [done| |lia|lia]. rewrite zlen_app. lia.
Qed.

(** The members the options of [e] should leave in a parsed message. *)
Definition edns_read (e : elpis_edns_t) (m m' : elpis_msg_edns) : Prop :=
  have_opt m' = have_opt m ∧ do_bit m' = do_bit m ∧ edns_bufsize m' = edns_bufsize m ∧
  edns_version m' = edns_version m ∧ edns_rcode_hi m' = edns_rcode_hi m ∧ ecs_bad m' = ecs_bad m ∧
  (if ed_have_cookie e && negb (ed_cookie_len e =? 0)
   then have_cookie m' = true ∧ m_cookie_len m' = ed_cookie_len e ∧
        slice (m_cookie m') 0 (m_cookie_len m') = slice (ed_cookie e) 0 (ed_cookie_len e)
   else have_cookie m' = have_cookie m) ∧
  (if ed_have_ecs e then have_ecs m' = true ∧ m_ecs m' = ed_ecs e else have_ecs m' = have_ecs m).

(** A cookie the parser takes: 8 octets, or 16 to 40. *)
Definition cookie_sendable (e : elpis_edns_t) : Prop :=
  ed_have_cookie e = true → ed_cookie_len e = 0 ∨ ed_cookie_len e = 8 ∨ 16 <= ed_cookie_len e.

Lemma absorb_other m code data :
  code ≠ ELPIS_OPT_COOKIE → code ≠ ELPIS_OPT_ECS → absorb m (code, data) = Ok m.
Proof.
  intros Hc He. unfold absorb, parse_opt_one. cbn [fst snd].
  destruct (Z.eqb_spec code ELPIS_OPT_COOKIE); [done|]. by destruct (Z.eqb_spec code ELPIS_OPT_ECS).
Qed.

Lemma absorb_all_app m a b : absorb_all m (a ++ b) = m' ← absorb_all m a; absorb_all m' b.
Proof.
  revert m. induction a as [|o a IH]; intros m; [done|]. cbn [app absorb_all].
  destruct (absorb m o); cbn [mbind res_bind]; [apply IH|done|done].
Qed.

Lemma absorb_all_other m os :
  Forall (fun o => fst o ≠ ELPIS_OPT_COOKIE ∧ fst o ≠ ELPIS_OPT_ECS) os → absorb_all m os = Ok m.
Proof.
  induction 1 as [|[code data] os [? ?] _ IH]; [done|]. cbn [absorb_all fst] in *.
  rewrite absorb_other by done. bind_step. done.
Qed.

Lemma absorb_cookie m n data :
  zlen (m_cookie m) = 40 → zlen data = n → n = 8 ∨ 16 <= n <= 40 →
  ∃ m', absorb m (ELPIS_OPT_COOKIE, data) = Ok m' ∧ have_cookie m' = true ∧ m_cookie_len m' = n ∧
  slice (m_cookie m') 0 n = data ∧ zlen (m_cookie m') = 40 ∧
  have_opt m' = have_opt m ∧ do_bit m' = do_bit m ∧ edns_bufsize m' = edns_bufsize m ∧
  edns_version m' = edns_version m ∧ edns_rcode_hi m' = edns_rcode_hi m ∧ ecs_bad m' = ecs_bad m ∧
  have_ecs m' = have_ecs m.
Proof.
  intros Hm Hz Hn. unfold absorb, parse_opt_one. cbn [fst snd]. rewrite Z.eqb_refl, Hz.
  replace (negb (n =? 8) && ((n <? 16) || (40 <? n)))%bool with false by lia. bind_step.
  rewrite rds_in_range, slice_0_all by lia. bind_step. rewrite blit_in_range by lia. bind_step.
  eexists. split; [done|]. cbn [have_cookie m_cookie_len m_cookie have_opt do_bit edns_bufsize edns_version
    edns_rcode_hi ecs_bad have_ecs]. rewrite u8_id by zl. split_and!; try done.
  - unfold splice. change (take (Z.to_nat 0) _) with (@nil Z). cbn [app]. by apply slice_0_app_le.
  - rewrite zlen_splice; lia.
Qed.

Lemma absorb_ecs m e :
  wf_ecs e →
  ∃ m', absorb m (ELPIS_OPT_ECS, ecs_wire e) = Ok m' ∧ have_ecs m' = true ∧ m_ecs m' = e ∧
  have_opt m' = have_opt m ∧ do_bit m' = do_bit m ∧ edns_bufsize m' = edns_bufsize m ∧
  edns_version m' = edns_version m ∧ edns_rcode_hi m' = edns_rcode_hi m ∧ ecs_bad m' = ecs_bad m ∧
  have_cookie m' = have_cookie m ∧ m_cookie m' = m_cookie m ∧ m_cookie_len m' = m_cookie_len m.
Proof.
  intros Hwf. unfold absorb, parse_opt_one. cbn [fst snd].
  change (ELPIS_OPT_ECS =? ELPIS_OPT_COOKIE) with false. change (ELPIS_OPT_ECS =? ELPIS_OPT_ECS) with true. cbv iota.
  destruct (wf_ecs_addr e Hwf) as [? _]. pose proof (zlen_ecs_wire e Hwf) as Hz. zfalse (zlen (ecs_wire e) <? 4). bind_step.
  rewrite rds_in_range, slice_0_all by lia. bind_step.
  rewrite (ecs_parse_wire e Hwf). cbn [try mbind res_bind].
  eexists. split; [done|]. by split_and!.
Qed.

Lemma absorb_all_opt_off os : ∀ m m', absorb_all m os = Ok m' → opt_off m' = opt_off m.
Proof.
  induction os as [|o os IH]; intros m m'; cbn [absorb_all]; [by intros [= ->]|].
  intros (m1 & E1 & E2)%bind_Ok_inv. rewrite (IH _ _ E2). clear E2. revert E1. unfold absorb, parse_opt_one.
  destruct (_ =? ELPIS_OPT_COOKIE).
  - intros (_ & _ & E)%bind_Ok_inv. apply bind_Ok_inv in E as (? & _ & E).
    apply bind_Ok_inv in E as (? & _ & [= <-]). done.
  - destruct (_ =? ELPIS_OPT_ECS); [|by intros [= ->]].
    intros (_ & _ & E)%bind_Ok_inv. apply bind_Ok_inv in E as (r & _ & E). destruct r; by injection E as <-.
Qed.

Section read_back.
Context (e : elpis_edns_t) (He : wf_edns e) (Hck : cookie_sendable e).

Lemma opt_all_split start : ∃ os,
    opt_all e start =
      (if ed_have_cookie e && negb (ed_cookie_len e =? 0)
       then [(ELPIS_OPT_COOKIE, slice (ed_cookie e) 0 (ed_cookie_len e))] else []) ++
      (if ed_have_ecs e then [(ELPIS_OPT_ECS, ecs_wire (ed_ecs e))] else []) ++ os ∧
    Forall option_ok os ∧ Forall (fun o => fst o ≠ ELPIS_OPT_COOKIE ∧ fst o ≠ ELPIS_OPT_ECS) os.
  Proof.
    unfold opt_all, opt_list. rewrite <- !app_assoc. eexists. split; [done|].
    destruct He as (_ & _ & _ & _ & Hk & Hp & Ht & Hn & _).
    split; repeat apply Forall_app_2.
    - destruct (ed_nsid e) as [s|]; [|done]. destruct (ed_want_nsid e); [|done]. cbn [default] in Hn.
      pose proof (zlen_nonneg s). constructor; [|done]. split_and!; cbn [fst snd]; [done|done| |by apply Forall_slice].
      rewrite zlen_slice; lia.
    - destruct (ed_have_keepalive e); [|done]. constructor; [|done]. split_and!; [done|done|done|apply bytes_put16].
    - destruct (0 <=? ed_ede_code e); [|done]. constructor; [|done]. set (t := default [] _) in *.
      pose proof (zlen_nonneg t). split_and!; cbn [fst snd]; [done|done| |].
      + rewrite zlen_app, zlen_put16, zlen_slice; lia.
      + apply Forall_app_2; [apply bytes_put16|by apply Forall_slice].
    - unfold pad_list. case_match; bool_to_prop; [|done]. constructor; [|done].
      pose proof (Z.mod_pos_bound (- (start + 11 + zlen (opts_wire (opt_list e)) + 4)) (ed_pad_to e)).
      split_and!; cbn [fst snd]; [done|done| |apply bytes_zeros]. unfold opt_list in *. rewrite zlen_zeros; lia.
    - destruct (ed_nsid e); [|done]. destruct (ed_want_nsid e); [|done]. by repeat constructor.
    - destruct (ed_have_keepalive e); [|done]. by repeat constructor.
    - destruct (0 <=? ed_ede_code e); [|done]. by repeat constructor.
    - unfold pad_list. case_match; [|done]. by repeat constructor.
  Qed.

Lemma opt_all_ok start : Forall option_ok (opt_all e start).
  Proof.
    destruct (opt_all_split start) as (os & -> & Hos & _).
    destruct He as (_ & Hc & Hb & Hl & _ & _ & _ & _ & Hecs).
    repeat apply Forall_app_2; [| |done].
    - case_match; [|done]. constructor; [|done].
      split_and!; cbn [fst snd]; [done|done| |by apply Forall_slice]. rewrite zlen_slice; lia.
    - destruct (ed_have_ecs e); [|done]. specialize (Hecs eq_refl). constructor; [|done].
      destruct (wf_ecs_addr _ Hecs) as [? _].
      split_and!; cbn [fst snd]; [done|done| |by apply bytes_ecs_wire]. rewrite zlen_ecs_wire; [lia|done].
  Qed.

Lemma absorb_opt_all m start :
    zlen (m_cookie m) = 40 → ∃ m', absorb_all m (opt_all e start) = Ok m' ∧ edns_read e m m'.
  Proof.
    intros Hm. destruct (opt_all_split start) as (os & -> & _ & Hos).
    destruct He as (_ & Hc & Hb & Hl & _ & _ & _ & _ & Hecs).
    set (has := (ed_have_cookie e && negb (ed_cookie_len e =? 0))%bool).
    assert (H1 : ∃ m1, absorb_all m (if has then [(ELPIS_OPT_COOKIE, slice (ed_cookie e) 0 (ed_cookie_len e))] else []) = Ok m1 ∧
      have_opt m1 = have_opt m ∧ do_bit m1 = do_bit m ∧ edns_bufsize m1 = edns_bufsize m ∧
      edns_version m1 = edns_version m ∧ edns_rcode_hi m1 = edns_rcode_hi m ∧ ecs_bad m1 = ecs_bad m ∧
      have_ecs m1 = have_ecs m ∧
      if has then have_cookie m1 = true ∧ m_cookie_len m1 = ed_cookie_len e ∧
        slice (m_cookie m1) 0 (m_cookie_len m1) = slice (ed_cookie e) 0 (ed_cookie_len e)
      else have_cookie m1 = have_cookie m).
    { destruct has eqn:Eh; [|exists m; by split_and!]. subst has. bool_to_prop.
      destruct (Hck ltac:(done)) as [?|Hn]; [lia|].
      destruct (absorb_cookie m (ed_cookie_len e) (slice (ed_cookie e) 0 (ed_cookie_len e)) Hm)
        as (m1 & E & Hh & Hlen & Hs & _ & ? & ? & ? & ? & ? & ? & ?); [apply zlen_slice; lia|lia|].
      exists m1. cbn [absorb_all]. rewrite E. bind_step. split_and!; try done. by rewrite Hlen. }
    destruct H1 as (m1 & E1 & A1 & A2 & A3 & A4 & A5 & A6 & A7 & A8).
    rewrite absorb_all_app, E1. bind_step. rewrite absorb_all_app.
    destruct (ed_have_ecs e) eqn:Ee.
    - destruct (absorb_ecs m1 (ed_ecs e) (Hecs eq_refl)) as (m2 & E2 & B1 & B2 & B3 & B4 & B5 & B6 & B7 & B8 & B9 & B10 & B11).
      cbn [absorb_all]. rewrite E2. bind_step. rewrite absorb_all_other by done.
      exists m2. split; [done|]. unfold edns_read. fold has. rewrite Ee, B3, B4, B5, B6, B7, B8, B9, B10, B11.
      by split_and!.
    - cbn [absorb_all]. bind_step. rewrite absorb_all_other by done.
      exists m1. split; [done|]. unfold edns_read. fold has. rewrite Ee. by split_and!.
  Qed.
End read_back.

Lemma opt_ttl_value e rcode :
  0 <= rcode < 4096 →
  opt_ttl e rcode = rcode / 16 * 2 ^ 24 + (if ed_do_bit e then 0x8000 else 0).
Proof.
  intros Hr. unfold opt_ttl, ELPIS_EDNS_VERSION, ELPIS_EDNS_DO. rewrite shiftr_div by lia.
  change (2 ^ 4) with 16. assert (Hh : byte (rcode / 16)) by zdiv.
  change (u32 (Z.shiftl 0 16)) with 0. rewrite Z.lor_0_r.
  rewrite u32_id by (rewrite shiftl_mul by lia; zl).
  destruct (ed_do_bit e); [|by rewrite Z.lor_0_r, shiftl_mul, Z.add_0_r by lia].
  by rewrite lor_shiftl_add by lia.
Qed.

Lemma opt_ttl_fields e rcode :
  0 <= rcode < 4096 →
  0 <= opt_ttl e rcode < 2 ^ 32 ∧ u8 (Z.shiftr (opt_ttl e rcode) 24) = rcode / 16 ∧
  u8 (Z.shiftr (opt_ttl e rcode) 16) = 0 ∧
  has_bit (u16 (Z.land (opt_ttl e rcode) 0xFFFF)) ELPIS_EDNS_DO = ed_do_bit e.
Proof.
  intros Hr. rewrite opt_ttl_value by done. assert (Hh : 0 <= rcode / 16 < 256) by zdiv.
  rewrite !shiftr_div by lia. change 0xFFFF with (Z.ones 16). rewrite Z.land_ones by lia.
  unfold u8. split_and!; [destruct (ed_do_bit e); lia|destruct (ed_do_bit e); lia|
    destruct (ed_do_bit e); zdiv|destruct (ed_do_bit e); zdiv|].
  unfold has_bit, ELPIS_EDNS_DO. destruct (ed_do_bit e).
  - replace (rcode / 16 * 2 ^ 24 + 0x8000) with (0x8000 + rcode / 16 * 2 ^ 8 * 2 ^ 16) by lia.
    by rewrite Z_mod_plus_full.
  - replace (rcode / 16 * 2 ^ 24 + 0) with (0 + rcode / 16 * 2 ^ 8 * 2 ^ 16) by lia.
    by rewrite Z_mod_plus_full.
Qed.

Lemma bytes_opts_wire os : Forall option_ok os → bytes (opts_wire os).
Proof.
  induction 1 as [|o os (? & ? & ?) _ IH]; [constructor|].
  rewrite opts_wire_cons. apply Forall_app_2; [|exact IH].
  unfold opt_wire. repeat apply Forall_app_2; auto using bytes_put16.
Qed.

Lemma zlen_opts_wire_bound os : zlen os <= zlen (opts_wire os).
Proof.
  induction os as [|o os IH]; [done|].
  rewrite opts_wire_cons, zlen_app, zlen_opt_wire, zlen_cons. pose proof (zlen_nonneg (snd o)). lia.
Qed.

(** The record [opt_record] stands for, at [off] in a message of [len]. *)
Definition opt_rr (e : elpis_edns_t) (rcode start off len : Z) : elpis_rr_t :=
  mkRr (name_of []) ELPIS_T_OPT (ed_bufsize e) (opt_ttl e rcode) (zlen (opts_wire (opt_all e start)))
    (off + 11) off len.

(** What a parsed message says of a request [e]. *)
Definition edns_conveys (e : elpis_edns_t) (rcode : Z) (m : elpis_msg_edns) : Prop :=
  have_opt m = true ∧ do_bit m = ed_do_bit e ∧ edns_bufsize m = ed_bufsize e ∧
  edns_version m = 0 ∧ edns_rcode_hi m = rcode / 16 ∧ ecs_bad m = false ∧
  (if ed_have_cookie e && negb (ed_cookie_len e =? 0)
   then have_cookie m = true ∧ m_cookie_len m = ed_cookie_len e ∧
        slice (m_cookie m) 0 (m_cookie_len m) = slice (ed_cookie e) 0 (ed_cookie_len e)
   else have_cookie m = false) ∧
  (if ed_have_ecs e then have_ecs m = true ∧ m_ecs m = ed_ecs e else have_ecs m = false).

Section record.
Context (pre : list Z) (e : elpis_edns_t) (rcode start : Z).
Context (Hp : bytes pre) (He : wf_edns e) (Hr : 0 <= rcode < 4096).
Context (Hl : zlen (opts_wire (opt_all e start)) <= 0xFFFF).
Let w := pre ++ opt_record e rcode start.
Let od := opts_wire (opt_all e start).

Lemma opt_record_split :
    w = (pre ++ [0]) ++ rr_fixed ELPIS_T_OPT (ed_bufsize e) (opt_ttl e rcode) (zlen od) ++ od.
  Proof. subst w od. unfold opt_record. by rewrite <- app_assoc. Qed.

Lemma zlen_opt_record : zlen w = zlen pre + 11 + zlen od.
  Proof. rewrite opt_record_split, !zlen_app, zlen_rr_fixed. change (zlen [0]) with 1. lia. Qed.

Lemma bytes_opt_record : bytes w.
  Proof.
    assert (Hod : bytes od) by by apply bytes_opts_wire, opt_all_ok.
    rewrite opt_record_split. unfold rr_fixed.
    repeat apply Forall_app_2; try done; try apply bytes_put16; [by_compute|apply bytes_put32].
  Qed.

Lemma opt_record_next :
    elpis_rr_next (mkIter w (zlen w) (zlen pre) 1)
    = Ok (Some (opt_rr e rcode start (zlen pre) (zlen w), mkIter w (zlen w) (zlen w) 0)).
  Proof.
    pose proof (zlen_nonneg od). pose proof (zlen_nonneg pre). pose proof zlen_opt_record as Hz.
    pose proof (opt_ttl_fields e rcode Hr) as (Ht & _).
    unfold elpis_rr_next. cbn [it_wire it_len it_off it_remain]. change (1 =? 0) with false. cbv iota.
    rewrite (name_parse_complete w (zlen w) (zlen pre) [] (zlen pre + 1) 0);
      [|apply bytes_opt_record|lia|done| |done|done].
    2: { apply name_at_root; [lia|]. rewrite opt_record_split, <- app_assoc, rd_app_r, Z.sub_diag by lia. done. }
    cbn [mbind res_bind]. zfalse (zlen w <? zlen pre + 1 + 10). bind_step.
    destruct (rr_fixed_read (pre ++ [0]) od ELPIS_T_OPT (ed_bufsize e) (opt_ttl e rcode) (zlen od))
      as (F1 & F2 & F3 & F4); [done|apply He|done|subst od; lia|].
    rewrite <- opt_record_split, zlen_app in F1, F2, F3, F4. change (zlen [0]) with 1 in *.
    rewrite F1. bind_step. rewrite F2. bind_step. rewrite F3. bind_step. rewrite F4. bind_step.
    zfalse (zlen w <? zlen pre + 1 + 10 + zlen od). bind_step. change (u16 (1 - 1)) with 0.
    replace (zlen pre + 1 + 10 + zlen od) with (zlen w) by lia.
    by replace (zlen pre + 1 + 10) with (zlen pre + 11) by lia.
  Qed.

Lemma opt_record_parse flags :
    cookie_sendable e →
    ∃ m, parse_opt w edns_zero (opt_rr e rcode start (zlen pre) (zlen w)) flags = Ok m ∧
         edns_conveys e rcode m ∧ opt_off m = zlen pre.
  Proof.
    intros Hck. pose proof (opt_ttl_fields e rcode Hr) as (_ & Ht1 & Ht2 & Ht3).
    unfold parse_opt, opt_rr. cbn [rr_name rr_ttl rr_rdlen rr_rdoff rr_klass rr_rroff].
    change (have_opt edns_zero) with false. bind_step.
    change (n_len (name_of []) =? 1) with true. cbn [negb andb]. bind_step.
    set (m0 := mkMsgEdns true _ _ _ _ _ _ _ _ _ _ _ _ _ _). fold od.
    assert (Hloop : parse_opt_loop (S (Z.to_nat (zlen od))) w (zlen pre + 11 + zlen od) (zlen pre + 11) m0
              = absorb_all m0 (opt_all e start)).
    { rewrite opt_record_split, app_assoc. set (pre' := (pre ++ [0]) ++ _).
      pose proof (parse_opt_loop_wire (opt_all e start) (S (Z.to_nat (zlen od))) pre' [] m0
        (zlen pre + 11 + zlen od) (zlen pre + 11)) as Hlw. rewrite app_nil_r in Hlw. apply Hlw; subst pre'.
      - by apply opt_all_ok.
      - rewrite !zlen_app, zlen_rr_fixed. change (zlen [0]) with 1. lia.
      - done.
      - pose proof (zlen_opts_wire_bound (opt_all e start)). subst od. lia. }
    rewrite Hloop.
    destruct (absorb_opt_all e He Hck m0 start eq_refl) as (m & E & R1 & R2 & R3 & R4 & R5 & R6 & R7 & R8).
    assert (Hoff : opt_off m = zlen pre).
    { pose proof (absorb_all_opt_off _ _ _ E) as ->. done. }
    exists m. split; [done|]. split; [|done]. unfold edns_conveys. rewrite R1, R2, R3, R4, R5, R6. subst m0.
    cbn [have_opt do_bit edns_bufsize edns_version edns_rcode_hi ecs_bad have_cookie have_ecs] in *.
    split_and!; done.
  Qed.
End record.

(** ** Properties *)

(** C39. An OPT is written whole or not at all: on success exactly the record
    for the request was appended (name, fixed fields, every option asked for,
    RDLENGTH their total) and only the additional count changed; otherwise the
    message is octet for octet what it was, the overflow bit is clear, and there
    was a reason: no room, rdata past 65535 octets, a full count or an earlier
    overflow. *)
Theorem edns_write_all_or_nothing (b : elpis_bld_t) (e : elpis_edns_t) (rcode : Z) :
  wf_bld b → wf_edns e →
  ∃ b' rc, elpis_edns_write b e rcode = Ok (b', rc) ∧
  (rc = ELPIS_OK ∧ edns_done b e rcode b' ∨
   rc = ELPIS_ETRUNC ∧ opt_blocked b e rcode ∧ content b' = content b ∧
   ∃ buf, b' = set_overflow (set_buf b buf (b_len b)) false).
Proof.
  intros Hwf He. destruct (edns_write_spec b e rcode Hwf He) as (b' & rc & E & H).
  exists b', rc. split; [done|]. destruct H as [?|(? & _ & ? & ? & ?)]; [by left|by right].
Qed.

Definition sample_edns : elpis_edns_t :=
  mkEdns 1232 true false true false true ([1; 2; 3; 4; 5; 6; 7; 8] ++ zeros 32) 8 (-1) None 0 16 None
    (mkEcs 1 24 0 ([203; 0; 113] ++ zeros 13)).

Lemma sample_edns_ok : wf_edns sample_edns.
Proof.
  split_and!; try by_compute. intros _. split_and!; [by left|by_compute..|].
  cbn [sample_edns ed_ecs ecs_source ecs_addr]. intros k Hk.
  apply (mask_addr_fixed _ 24); [by_compute|lia|by vm_compute|]. change (zlen _) with 16. lia.
Qed.

Definition empty_bld : elpis_bld_t := elpis_bld_init (zeros 100) 100 None true.

Lemma empty_bld_ok : wf_bld empty_bld.
Proof. by constructor; try by_compute. Qed.

Lemma edns_write_all_or_nothing_witness :
  ∃ b' rc, elpis_edns_write empty_bld sample_edns 0 = Ok (b', rc) ∧
  (rc = ELPIS_OK ∧ edns_done empty_bld sample_edns 0 b' ∨
   rc = ELPIS_ETRUNC ∧ opt_blocked empty_bld sample_edns 0 ∧ content b' = content empty_bld ∧
   ∃ buf, b' = set_overflow (set_buf empty_bld buf (b_len empty_bld)) false).
Proof. apply (edns_write_all_or_nothing empty_bld sample_edns 0 empty_bld_ok sample_edns_ok). Defined.

(** Padding works: when an OPT with a padding block of 2 to 512 octets is
    written, the message ends on a multiple of the block. *)
Theorem edns_padding_aligns (b b' : elpis_bld_t) (e : elpis_edns_t) (rcode : Z) :
  wf_bld b → wf_edns e → 2 <= ed_pad_to e <= 512 →
  elpis_edns_write b e rcode = Ok (b', ELPIS_OK) → b_len b' mod ed_pad_to e = 0.
Proof.
  intros Hwf He Hp E. destruct (edns_write_spec b e rcode Hwf He) as (b1 & rc & E1 & H).
  rewrite E1 in E. injection E as -> ->. destruct H as [[_ (Hwf' & Hc & _)]|[? _]]; [|done].
  rewrite <- (zlen_content b' Hwf'), Hc. unfold opt_record, opt_all.
  rewrite opts_wire_app, !zlen_app, zlen_rr_fixed, (zlen_content b Hwf). change (zlen [0]) with 1.
  set (n := zlen (opts_wire (opt_list e))). unfold pad_list. ztrue (1 <? ed_pad_to e).
  rewrite opts_wire_one, zlen_opt_wire. cbn [snd]. set (x := b_len b + 11 + n + 4).
  pose proof (Z.mod_pos_bound (- x) (ed_pad_to e)). rewrite zlen_zeros by lia.
  rewrite Z.min_r by lia.
  replace (b_len b + (1 + (10 + (n + (4 + - x mod ed_pad_to e))))) with (x + - x mod ed_pad_to e) by lia.
  rewrite Zplus_mod_idemp_r. by rewrite Z.add_opp_diag_r.
Qed.

Lemma edns_padding_aligns_witness :
  ∃ b', elpis_edns_write empty_bld sample_edns 0 = Ok (b', ELPIS_OK) ∧ b_len b' mod 16 = 0.
Proof.
  eexists. split; [vm_compute; reflexivity|].
  eapply (edns_padding_aligns empty_bld _ sample_edns 0 empty_bld_ok sample_edns_ok); [by_compute|].
  vm_compute. reflexivity.
Defined.

(** The advertised buffer fits the route: between 512 and 1400, and with
    IP and UDP headers (28 octets, 48 for IPv6) within the MTU whenever the
    MTU admits the 512-octet minimum at all. *)
Theorem edns_for_mtu_fits (mtu family : Z) :
  0 <= mtu < 2 ^ 32 →
  let v := elpis_edns_for_mtu mtu family in
  let hdr := if family =? AF_INET6 then 48 else 28 in
  512 <= v <= 1400 ∧ (hdr + 512 <= mtu → v + hdr <= mtu) ∧ (v < 1400 → mtu <= hdr + v ∨ mtu <= hdr + 512).
Proof.
  intros Hm. cbv zeta. unfold elpis_edns_for_mtu, ELPIS_MAX_UDP_LEGACY, ELPIS_EDNS_DEFAULT.
  set (hdr := if family =? AF_INET6 then 48 else 28).
  assert (Hh : 28 <= hdr <= 48) by (subst hdr; case_match; lia). rewrite (u32_id (hdr + 512)) by lia.
  destruct (Z.leb_spec mtu (hdr + 512)); [lia|]. cbv zeta. rewrite u32_id by lia.
  destruct (Z.ltb_spec 1400 (mtu - hdr)); rewrite u16_id; lia.
Qed.

Lemma edns_for_mtu_fits_witness :
  let v := elpis_edns_for_mtu 1280 AF_INET6 in
  let hdr := if AF_INET6 =? AF_INET6 then 48 else 28 in
  512 <= v <= 1400 ∧ (hdr + 512 <= 1280 → v + hdr <= 1280) ∧ (v < 1400 → 1280 <= hdr + v ∨ 1280 <= hdr + 512).
Proof. apply (edns_for_mtu_fits 1280 AF_INET6). lia. Defined.
