(* ===== verification/Query.v ===== *)
(** An outgoing query, end to end: [build_query] of src/resolver/outbound.c
    against the parser of src/dns/msg.c.

    The decisions [build_query] takes from the infrastructure cache and the
    configuration (0x20 casing, whether and how to use EDNS) are arguments; what
    is modelled is the message made from them. *)
From stdpp Require Import base list numbers.
From Stdlib Require Import ZArith Lia.
From S2P Require Import Prelude Bytes Simd Name NameOps Ecs Msg Builder Edns.

(** ** Definitions *)

Definition ELPIS_FLAG_RD : Z := 0x0100.

(** The EDNS request: [cookie] is the client cookie and the server half to
    replay (empty for none), [ecs] the subnet to send. *)
Definition query_edns (bufsize : Z) (dnssec over_dot : bool) (cookie : option (list Z * list Z))
    (ecs : option elpis_ecs_t) : res elpis_edns_t :=
  let e := elpis_edns_init bufsize dnssec in
  let pad_to := if over_dot then 128 else ed_pad_to e in
  '(ck, ck_len, have) ←
    match cookie with
    | None => Ok (ed_cookie e, 0, false)
    | Some (cc, sc) =>
      c8 ← rds cc 0 8;
      ck ← blit (ed_cookie e) 0 c8;
      if (0 <? zlen sc) && (zlen sc + 8 <=? 40) then
        ck ← blit ck 8 sc; Ok (ck, u8 (8 + zlen sc), true)
      else Ok (ck, 8, true)
    end;
  Ok (mkEdns (ed_bufsize e) (ed_do_bit e) false have false
        (match ecs with Some _ => true | None => false end) ck ck_len (-1) None 0 pad_to None
        (default ecs_zero ecs)).

(** The message and the length [build_query] returns, 0 for failure.  [edns] is
    [None] towards a server known not to take EDNS. *)
Definition build_query (buf : list Z) (cap : Z) (ctab : list elpis_cslot_t) (id : Z) (forwarding : bool)
    (qname_wire : list Z) (qnamelen qtype qclass : Z) (edns : option elpis_edns_t)
    : res (elpis_bld_t * Z) :=
  let flags := if forwarding then ELPIS_FLAG_RD else 0 in
  let b := elpis_bld_init buf cap (Some ctab) true in
  '(b, rc) ← elpis_bld_header b id flags;
  if negb (bool_decide (rc = ELPIS_OK)) then Ok (b, 0)
  else
    '(b, rc) ← elpis_bld_question_raw b qname_wire qnamelen qtype qclass;
    if negb (bool_decide (rc = ELPIS_OK)) then Ok (b, 0)
    else
      b ← match edns with
          | None => Ok b
          | Some e => '(b, _) ← elpis_edns_write b e 0; Ok b
          end;
      b ← elpis_bld_finish b;
      if b_overflow b then Ok (b, 0) else Ok (b, b_len b).

(** ** The pieces of a message *)

Lemma elpis_bld_init_good buf cap ctab :
  bytes buf → zlen buf = cap → zlen ctab = 64 → good (elpis_bld_init buf cap (Some ctab) true).
Proof.
  intros Hb Hc Ht. pose proof (zlen_nonneg buf). split.
  - constructor; cbn; try done; try lia. by_compute.
  - unfold slots, slice. cbn. constructor.
Qed.

Lemma zlen_two {A} (l : list A) : zlen l = 2 → ∃ a b, l = [a; b].
Proof.
  destruct l as [|a [|b [|c l]]]; intros H; [zl|zl|by exists a, b|].
  rewrite !zlen_cons in H. pose proof (zlen_nonneg l). lia.
Qed.

Lemma patch_mid b pre old post bs o :
  wf_bld b → bytes bs → content b = pre ++ old ++ post → o = zlen pre → zlen bs = zlen old →
  ∃ buf, blit (b_buf b) o bs = Ok buf ∧ let b' := set_buf b buf (b_len b) in
  wf_bld b' ∧ content b' = pre ++ bs ++ post.
Proof.
  intros Hwf Hb Hc Ho Hl. pose proof (zlen_content b Hwf) as Hz. rewrite Hc, !zlen_app in Hz.
  pose proof (zlen_nonneg pre). pose proof (zlen_nonneg post).
  destruct (patch_spec b o bs Hwf Hb) as (buf & E & Hwf' & Hct); [lia|lia|].
  exists buf. split; [done|]. split; [done|]. rewrite Hct, Hc. by apply splice_mid.
Qed.

Lemma finish_spec b h z0 z1 z2 z3 rest c0 c1 c2 c3 :
  wf_bld b → b_counts b = [c0; c1; c2; c3] → content b = h ++ z0 ++ z1 ++ z2 ++ z3 ++ rest →
  zlen h = 4 → zlen z0 = 2 → zlen z1 = 2 → zlen z2 = 2 → zlen z3 = 2 →
  ∃ b', elpis_bld_finish b = Ok b' ∧ wf_bld b' ∧ b_overflow b' = b_overflow b ∧ b_len b' = b_len b ∧
  content b' = h ++ put16_bytes c0 ++ put16_bytes c1 ++ put16_bytes c2 ++ put16_bytes c3 ++ rest.
Proof.
  intros Hwf Hcs Hct Hh H0 H1 H2 H3. unfold elpis_bld_finish, ELPIS_HDR_LEN, elpis_put16.
  pose proof (zlen_content b Hwf) as Hz. rewrite Hct, !zlen_app in Hz. pose proof (zlen_nonneg rest).
  zfalse (b_len b <? 12). rewrite Hcs. change (rd [c0; c1; c2; c3] 0) with (Ok c0).
  change (rd [c0; c1; c2; c3] 1) with (Ok c1). change (rd [c0; c1; c2; c3] 2) with (Ok c2).
  change (rd [c0; c1; c2; c3] 3) with (Ok c3). bind_step.
  destruct (patch_mid b h z0 (z1 ++ z2 ++ z3 ++ rest) (put16_bytes c0) 4 Hwf) as (buf & -> & W0 & C0);
    [apply bytes_put16|done|lia|by rewrite zlen_put16|]. bind_step.
  destruct (patch_mid _ (h ++ put16_bytes c0) z1 (z2 ++ z3 ++ rest) (put16_bytes c1) 6 W0) as (buf1 & E1 & W1 & C1);
    [apply bytes_put16|by rewrite C0, <- !app_assoc|rewrite zlen_app, zlen_put16; lia|by rewrite zlen_put16|].
  cbn [set_buf b_buf] in E1. rewrite E1. bind_step.
  destruct (patch_mid _ ((h ++ put16_bytes c0) ++ put16_bytes c1) z2 (z3 ++ rest) (put16_bytes c2) 8 W1)
    as (buf2 & E2 & W2 & C2);
    [apply bytes_put16|by rewrite C1, <- !app_assoc|rewrite !zlen_app, !zlen_put16; lia|by rewrite zlen_put16|].
  cbn [set_buf b_buf] in E2. rewrite E2. bind_step.
  destruct (patch_mid _ (((h ++ put16_bytes c0) ++ put16_bytes c1) ++ put16_bytes c2) z3 rest (put16_bytes c3) 10 W2)
    as (buf3 & E3 & W3 & C3);
    [apply bytes_put16|by rewrite C2, <- !app_assoc|rewrite !zlen_app, !zlen_put16; lia|by rewrite zlen_put16|].
  cbn [set_buf b_buf] in E3. rewrite E3. bind_step.
  eexists. split; [done|]. split; [exact W3|]. split; [done|]. split; [done|].
  etransitivity; [exact C3|]. by rewrite <- !app_assoc.
Qed.

(** The header, read back. *)
Lemma hdr_read id flags qd an ns ar rest len :
  0 <= id < 65536 → 0 <= flags < 65536 → 0 <= qd < 65536 → 0 <= an < 65536 → 0 <= ns < 65536 →
  0 <= ar < 65536 → 12 <= len →
  elpis_hdr_parse (put16_bytes id ++ put16_bytes flags ++ put16_bytes qd ++ put16_bytes an
                   ++ put16_bytes ns ++ put16_bytes ar ++ rest) len
  = Ok (mkHdr id flags qd an ns ar).
Proof.
  intros. unfold elpis_hdr_parse, ELPIS_HDR_LEN. zfalse (len <? 12). bind_step.
  pose proof (get16_put16 [] (put16_bytes flags ++ put16_bytes qd ++ put16_bytes an ++ put16_bytes ns ++ put16_bytes ar ++ rest) id ltac:(done)) as E0.
  pose proof (get16_put16 (put16_bytes id) (put16_bytes qd ++ put16_bytes an ++ put16_bytes ns ++ put16_bytes ar ++ rest) flags ltac:(done)) as E1.
  pose proof (get16_put16 (put16_bytes id ++ put16_bytes flags) (put16_bytes an ++ put16_bytes ns ++ put16_bytes ar ++ rest) qd ltac:(done)) as E2.
  pose proof (get16_put16 (put16_bytes id ++ put16_bytes flags ++ put16_bytes qd) (put16_bytes ns ++ put16_bytes ar ++ rest) an ltac:(done)) as E3.
  pose proof (get16_put16 (put16_bytes id ++ put16_bytes flags ++ put16_bytes qd ++ put16_bytes an) (put16_bytes ar ++ rest) ns ltac:(done)) as E4.
  pose proof (get16_put16 (put16_bytes id ++ put16_bytes flags ++ put16_bytes qd ++ put16_bytes an ++ put16_bytes ns) rest ar ltac:(done)) as E5.
  rewrite <- !app_assoc in *. cbn [app] in E0.
  change (zlen (@nil Z)) with 0 in E0. rewrite E0. bind_step.
  change (elpis_get16 _ (zlen (put16_bytes id))) with (elpis_get16 (put16_bytes id ++ put16_bytes flags ++ put16_bytes qd ++ put16_bytes an ++ put16_bytes ns ++ put16_bytes ar ++ rest) 2) in E1. rewrite E1. bind_step.
  change (zlen (put16_bytes id ++ put16_bytes flags)) with 4 in E2. rewrite E2. bind_step.
  change (zlen (put16_bytes id ++ put16_bytes flags ++ put16_bytes qd)) with 6 in E3. rewrite E3. bind_step.
  change (zlen (put16_bytes id ++ put16_bytes flags ++ put16_bytes qd ++ put16_bytes an)) with 8 in E4. rewrite E4. bind_step.
  change (zlen (put16_bytes id ++ put16_bytes flags ++ put16_bytes qd ++ put16_bytes an ++ put16_bytes ns)) with 10 in E5.
  rewrite E5. done.
Qed.

(** ** Parsing what was built *)

Lemma guard_pass {A} c rc d (k : unit → res A) : c = false → (guard_err c rc d ≫= k) = k tt.
Proof. by intros ->. Qed.
Lemma no_walk_clear : has_bit ELPIS_PARSE_QUERY ELPIS_PARSE_NO_WALK = false.
Proof. done. Qed.
Lemma locate_none f flags w len off m : locate_opt (S f) flags (mkIter w len off 0) m = Ok m.
Proof. done. Qed.
Lemma ban_none f w len off : ban_opt (S f) (mkIter w len off 0) = Ok tt.
Proof. done. Qed.
Lemma locate_one f flags w len off rr e m m' :
  f = 2%nat →
  elpis_rr_next (mkIter w len off 1) = Ok (Some (rr, mkIter w len e 0)) →
  (rr_type rr =? ELPIS_T_OPT) = true → parse_opt w m rr flags = Ok m' →
  locate_opt f flags (mkIter w len off 1) m = Ok m'.
Proof.
  intros -> Hn Ht Hp. cbn [locate_opt]. rewrite Hn. cbn [mbind res_bind]. rewrite Ht.
  cbn [it_wire]. by rewrite Hp.
Qed.
Lemma walk_empty w len off : walk_sections [0; 0; 0] w len off = Ok ([off; off; off], off).
Proof. done. Qed.
Lemma walk_one w len off :
  walk_sections [0; 0; 1] w len off = off' ← skip_rr w len off; Ok ([off; off; off], off').
Proof. cbn [walk_sections]. change (Z.to_nat 0) with 0%nat. change (Z.to_nat 1) with 1%nat. cbn [skip_rrs].
  bind_step. by destruct (skip_rr w len off). Qed.
Lemma opt_rr_type e rcode start off len : (rr_type (opt_rr e rcode start off len) =? ELPIS_T_OPT) = true.
Proof. done. Qed.
Lemma rd_three_0 {A} (a b c : A) : rd [a; b; c] (Z.of_nat 0) = Ok a.
Proof. done. Qed.
Lemma rd_three_1 {A} (a b c : A) : rd [a; b; c] (Z.of_nat 1) = Ok b.
Proof. done. Qed.
Lemma rd_three_2 {A} (a b c : A) : rd [a; b; c] (Z.of_nat 2) = Ok c.
Proof. done. Qed.
Lemma rr_next_none w len off : elpis_rr_next (mkIter w len off 0) = Ok None.
Proof. done. Qed.

(** A query that is its question alone, or its question and one OPT. *)
Section shapes.
Context (w : list Z) (len id flags : Z) (qn : elpis_name_t) (qt qc off : Z).
Context (Hqr : has_bit flags ELPIS_FLAG_QR = false).

Lemma msg_parse_bare :
    elpis_hdr_parse w len = Ok (mkHdr id flags 1 0 0 0) →
    parse_question w len 1 ELPIS_HDR_LEN = Ok (qn, qt, qc, off) → off = len →
    elpis_msg_parse w len ELPIS_PARSE_QUERY
    = Ok (mkMsg w len (mkHdr id flags 1 0 0 0) qn qt qc off [off; off; off] [0; 0; 0] edns_zero).
  Proof.
    intros Hh Hq Hoff. unfold elpis_msg_parse. rewrite Hh. cbn [with_drop mbind res_bind].
    cbn [h_flags h_qdcount h_ancount h_nscount h_arcount]. rewrite Hqr. rewrite guard_pass by done. rewrite guard_pass by done.
    rewrite Hq. cbn [mbind res_bind]. rewrite no_walk_clear.
    rewrite walk_empty. cbn [mbind res_bind]. rewrite Hoff, Z.eqb_refl. rewrite guard_pass by done.
    unfold elpis_rr_iter. cbn [m_wire m_len m_sec_off m_sec_cnt m_edns].
    rewrite !rd_three_0, !rd_three_1, !rd_three_2. bind_step.
    rewrite locate_none. cbn [mbind res_bind]. rewrite !ban_none. cbn [mbind res_bind].
    unfold set_edns. done.
  Qed.

Lemma msg_parse_one_opt rr me :
    elpis_hdr_parse w len = Ok (mkHdr id flags 1 0 0 1) →
    parse_question w len 1 ELPIS_HDR_LEN = Ok (qn, qt, qc, off) →
    skip_rr w len off = Ok len →
    elpis_rr_next (mkIter w len off 1) = Ok (Some (rr, mkIter w len len 0)) →
    (rr_type rr =? ELPIS_T_OPT) = true →
    parse_opt w edns_zero rr ELPIS_PARSE_QUERY = Ok me → have_opt me = true →
    elpis_msg_parse w len ELPIS_PARSE_QUERY
    = Ok (mkMsg w len (mkHdr id flags 1 0 0 1) qn qt qc off [off; off; off] [0; 0; 1]
            (if edns_bufsize me <? 512 then set_bufsize me 512 else me)).
  Proof.
    intros Hh Hq Hskip Hnext Hty Hpo Hho. unfold elpis_msg_parse. rewrite Hh. cbn [with_drop mbind res_bind].
    cbn [h_flags h_qdcount h_ancount h_nscount h_arcount]. rewrite Hqr. rewrite guard_pass by done. rewrite guard_pass by done.
    rewrite Hq. cbn [mbind res_bind]. rewrite no_walk_clear.
    rewrite walk_one, Hskip. cbn [mbind res_bind]. rewrite Z.eqb_refl. rewrite guard_pass by done.
    unfold elpis_rr_iter. cbn [m_wire m_len m_sec_off m_sec_cnt m_edns].
    rewrite !rd_three_0, !rd_three_1, !rd_three_2. rewrite !bind_Ok.
    rewrite (locate_one (S (Z.to_nat 1)) _ w len off rr len edns_zero me eq_refl Hnext Hty Hpo).
    repeat (rewrite bind_Ok || rewrite ban_none).
    unfold set_edns. cbn [m_wire m_len m_hdr m_qname m_qtype m_qclass m_qend m_sec_off m_sec_cnt].
    rewrite Hho. done.
  Qed.
End shapes.

Section message.
Context (id flags type klass : Z) (ls : list (list Z)).
Context (Hid : 0 <= id < 65536) (Hfl : 0 <= flags < 65536) (Hty : 0 <= type < 65536)
    (Hkl : 0 <= klass < 65536) (Hok : labels_ok ls) (Hqr : has_bit flags ELPIS_FLAG_QR = false).

Definition header_octets (ar : Z) : list Z :=
    put16_bytes id ++ put16_bytes flags ++ put16_bytes 1 ++ put16_bytes 0 ++ put16_bytes 0 ++ put16_bytes ar.
Definition question_octets : list Z := wire ls ++ put16_bytes type ++ put16_bytes klass.
Definition message_octets (ar : Z) (rest : list Z) : list Z := header_octets ar ++ question_octets ++ rest.
Let qend := 12 + zlen (wire ls) + 4.

Lemma zlen_header ar : zlen (header_octets ar) = 12.
  Proof. done. Qed.
Lemma zlen_message ar rest : zlen (message_octets ar rest) = qend + zlen rest.
  Proof.
    unfold message_octets, question_octets. rewrite !zlen_app, zlen_header, !zlen_put16. subst qend. lia.
  Qed.
Lemma bytes_message ar rest : bytes rest → bytes (message_octets ar rest).
  Proof.
    intros. unfold message_octets, question_octets, header_octets.
    rewrite !Forall_app. split_and!; try apply bytes_put16; [apply bytes_wire, Hok|done].
  Qed.

Lemma hdr_of_message ar rest :
    0 <= ar < 65536 →
    elpis_hdr_parse (message_octets ar rest) (zlen (message_octets ar rest)) = Ok (mkHdr id flags 1 0 0 ar).
  Proof.
    intros. rewrite zlen_message. unfold message_octets, header_octets. rewrite <- !app_assoc.
    pose proof (zlen_nonneg rest). pose proof (zlen_wire_pos ls). apply hdr_read; lia.
  Qed.

Lemma question_of_message ar rest :
    bytes rest →
    parse_question (message_octets ar rest) (zlen (message_octets ar rest)) 1 ELPIS_HDR_LEN
    = Ok (name_of ls, type, klass, qend).
  Proof.
    intros Hr. unfold parse_question, ELPIS_HDR_LEN. change (1 =? 1) with true. cbv iota.
    pose proof (zlen_nonneg rest). pose proof (zlen_wire_pos ls). pose proof (zlen_message ar rest) as Hz.
    pose proof (name_at_raw (header_octets ar) ls (proj1 Hok)) as Hn.
    rewrite zlen_app, zlen_header in Hn.
    apply (name_at_app _ (put16_bytes type ++ put16_bytes klass ++ rest)) in Hn; [|rewrite zlen_app, zlen_header; lia].
    assert (Hm : (header_octets ar ++ wire ls) ++ put16_bytes type ++ put16_bytes klass ++ rest = message_octets ar rest)
      by (unfold message_octets, question_octets; by rewrite <- !app_assoc).
    rewrite Hm in Hn.
    rewrite (name_parse_complete _ _ _ ls (12 + zlen (wire ls)) 0); [|by apply bytes_message|lia|lia|exact Hn|apply Hok|lia].
    cbn [mbind res_bind]. rewrite Hz. subst qend. zfalse (12 + zlen (wire ls) + 4 + zlen rest <? 12 + zlen (wire ls) + 4).
    bind_step. rewrite <- Hm.
    replace (12 + zlen (wire ls)) with (zlen (header_octets ar ++ wire ls)) at 1 by (rewrite zlen_app, zlen_header; lia).
    rewrite get16_put16 by done. bind_step. rewrite app_assoc.
    replace (12 + zlen (wire ls) + 2) with (zlen ((header_octets ar ++ wire ls) ++ put16_bytes type))
      by (rewrite !zlen_app, zlen_header, zlen_put16; lia).
    rewrite get16_put16 by done. done.
  Qed.

Lemma parse_plain :
    let w := message_octets 0 [] in
    elpis_msg_parse w (zlen w) ELPIS_PARSE_QUERY
    = Ok (mkMsg w (zlen w) (mkHdr id flags 1 0 0 0) (name_of ls) type klass qend [qend; qend; qend] [0; 0; 0] edns_zero).
  Proof.
    cbv zeta. apply msg_parse_bare; [done|by apply hdr_of_message|by apply question_of_message|].
    rewrite zlen_message. change (zlen (@nil Z)) with 0. lia.
  Qed.

  Section with_opt.
Context (e : elpis_edns_t) (He : wf_edns e) (Hck : cookie_sendable e).
Let start := qend.
Context (Hl : zlen (opts_wire (opt_all e start)) <= 0xFFFF).
Let rest := opt_record e 0 start.
Let w := message_octets 1 rest.

Lemma message_is_record : w = message_octets 1 [] ++ rest.
    Proof. subst w. unfold message_octets. by rewrite app_nil_r, <- app_assoc. Qed.

Lemma parse_with_opt :
      ∃ m, elpis_msg_parse w (zlen w) ELPIS_PARSE_QUERY = Ok m ∧
      m_hdr m = mkHdr id flags 1 0 0 1 ∧ m_qname m = name_of ls ∧ m_qtype m = type ∧ m_qclass m = klass ∧
      ∃ me, edns_conveys e 0 me ∧
            m_edns m = if edns_bufsize me <? 512 then set_bufsize me 512 else me.
    Proof.
      pose proof (zlen_message 1 []) as Hzp. change (zlen (@nil Z)) with 0 in Hzp. rewrite Z.add_0_r in Hzp.
      assert (Hpre : bytes (message_octets 1 [])) by by apply bytes_message.
      pose proof (bytes_opt_record (message_octets 1 []) e 0 start Hpre He) as Hbw.
      pose proof (opt_record_next (message_octets 1 []) e 0 start Hpre He ltac:(lia) Hl) as Hnext.
      destruct (opt_record_parse (message_octets 1 []) e 0 start He ltac:(lia) ELPIS_PARSE_QUERY Hck)
        as (me & Hpo & Hcv & _).
      fold rest in Hbw, Hnext, Hpo. rewrite <- message_is_record, Hzp in *.
      assert (Hrest : bytes rest).
      { unfold w, message_octets in Hbw. by apply Forall_app in Hbw as [_ [_ ?]%Forall_app]. }
      assert (Hskip : skip_rr w (zlen w) qend = Ok (zlen w)).
      { pose proof (rr_next_spec w (zlen w) Hbw ltac:(lia) (mkIter w (zlen w) qend 1)) as Hs.
        rewrite Hnext in Hs. destruct Hs as [_ Hrr].
        - pose proof (zlen_message 1 rest) as Hzw. fold w in Hzw. pose proof (zlen_nonneg rest).
          pose proof (zlen_wire_pos ls). subst qend.
          split_and!; cbn [it_wire it_len it_off it_remain]; (done || lia).
        - destruct Hrr as (_&_&_&_&_&_&_&_&_& Hsk & _). exact Hsk. }
      pose proof Hcv as (Hho & _).
      rewrite (msg_parse_one_opt w (zlen w) id flags (name_of ls) type klass qend Hqr _ me
        (hdr_of_message 1 rest ltac:(lia)) (question_of_message 1 rest Hrest) Hskip Hnext (opt_rr_type _ _ _ _ _) Hpo Hho).
      eexists. split; [reflexivity|]. cbn [m_hdr m_qname m_qtype m_qclass m_edns].
      split_and!; try done. by exists me.
    Qed.
  End with_opt.
End message.

(** ** [build_query] *)

Section build.
Context (buf : list Z) (cap id : Z) (ctab : list elpis_cslot_t) (fwd : bool)
    (type klass : Z) (ls : list (list Z)).
Context (Hbuf : bytes buf) (Hcap : zlen buf = cap) (Hctab : zlen ctab = 64) (Hroom : 12 <= cap)
    (Hid : 0 <= id < 65536) (Hty : 0 <= type < 65536) (Hkl : 0 <= klass < 65536) (Hok : labels_ok ls).
Let flags := if fwd then ELPIS_FLAG_RD else 0.
Let qend := 12 + zlen (wire ls) + 4.

  (** The message before [elpis_bld_finish], counts still zero on the wire. *)
Definition draft (rest : list Z) : list Z :=
    (put16_bytes id ++ put16_bytes flags) ++ [0; 0] ++ [0; 0] ++ [0; 0] ++ [0; 0] ++
    question_octets type klass ls ++ rest.

Lemma header_written :
    ∃ b, elpis_bld_header (elpis_bld_init buf cap (Some ctab) true) id flags = Ok (b, ELPIS_OK) ∧ good b ∧
    content b = (put16_bytes id ++ put16_bytes flags) ++ [0; 0] ++ [0; 0] ++ [0; 0] ++ [0; 0] ∧
    b_len b = 12 ∧ b_cap b = cap ∧ b_overflow b = false ∧ b_counts b = [0; 0; 0; 0].
  Proof.
    pose proof (elpis_bld_init_good buf cap ctab Hbuf Hcap Hctab) as Hg.
    set (h := put16_bytes id ++ put16_bytes flags ++ [0; 0; 0; 0; 0; 0; 0; 0]).
    assert (Hh : elpis_bld_header (elpis_bld_init buf cap (Some ctab) true) id flags
                 = elpis_bld_bytes (elpis_bld_init buf cap (Some ctab) true) h 12) by done.
    assert (Hbh : bytes h) by (subst h; rewrite !Forall_app; split_and!; [apply bytes_put16..|by_compute]).
    rewrite Hh, bld_bytes_write by (change (zlen h) with 12; lia). rewrite slice_0_all by done.
    destruct (bld_write_spec _ h (proj1 Hg) Hbh) as [[_ (b & E & A)]|[Hc _]].
    - exists b. split; [done|]. split; [by eapply appended_good|].
      pose proof (appended_len _ _ _ A). pose proof A as (_ & Hc & [buf' ->]). by split_and!.
    - change (zlen h) with 12 in Hc. cbn in Hc. lia.
  Qed.

Lemma question_written :
    ∃ b rc, (∃ b0, elpis_bld_header (elpis_bld_init buf cap (Some ctab) true) id flags = Ok (b0, ELPIS_OK) ∧
                   elpis_bld_question_raw b0 (wire ls) (zlen (wire ls)) type klass = Ok (b, rc)) ∧
    (rc ≠ ELPIS_OK → cap < qend) ∧
    (rc = ELPIS_OK → good b ∧ content b = draft [] ∧ b_len b = qend ∧ b_cap b = cap ∧
                     b_overflow b = false ∧ b_counts b = [1; 0; 0; 0]).
  Proof.
    destruct header_written as (b0 & E0 & Hg0 & Hc0 & Hl0 & Hcap0 & Ho0 & Hn0).
    destruct (runs_question_raw b0 ls type klass Hg0 Hok) as (b & rc & E & Hg & He & HP).
    exists b, rc. split; [by exists b0|]. split.
    - intros Hrc. pose proof (question_raw_fits b0 ls type klass Hok b rc E Hrc) as Hf. subst qend. lia.
    - intros Hrc. destruct (HP Hrc) as (Hct & Ho & (c & Hrd & Hcs)). rewrite Hn0 in Hrd, Hcs.
      injection Hrd as <-. destruct He as (Hcap' & _).
      assert (Hd : content b = draft []).
      { rewrite Hct, Hc0. unfold draft, question_octets. rewrite app_nil_r. by rewrite <- !app_assoc. }
      split_and!; [done|done| |by rewrite Hcap'|by rewrite Ho|done].
      rewrite <- (zlen_content b (proj1 Hg)), Hd. unfold draft, question_octets.
      rewrite !zlen_app, !zlen_put16. change (zlen [0; 0]) with 2. change (zlen (@nil Z)) with 0. subst qend. lia.
  Qed.

  (** Finishing a draft that holds [ar] records after the question. *)
Lemma finish_draft b ar rest :
    wf_bld b → content b = draft rest → b_counts b = [1; 0; 0; ar] → 0 <= ar < 65536 →
    ∃ b', elpis_bld_finish b = Ok b' ∧ wf_bld b' ∧ b_overflow b' = b_overflow b ∧ b_len b' = b_len b ∧
          content b' = message_octets id flags type klass ls ar rest.
  Proof.
    intros Hwf Hc Hn Har.
    destruct (finish_spec b _ _ _ _ _ _ 1 0 0 ar Hwf Hn Hc) as (b' & E & ? & ? & ? & Hct); [done..|].
    exists b'. by split_and!.
  Qed.

Lemma flags_ok : 0 <= flags < 65536 ∧ has_bit flags ELPIS_FLAG_QR = false.
  Proof. subst flags. by destruct fwd. Qed.
End build.

(** ** Properties *)

(** What the peer must find in a query for [ls]. *)
Definition query_received (id : Z) (fwd : bool) (ls : list (list Z)) (type klass : Z) (m : elpis_msg_t) : Prop :=
  h_id (m_hdr m) = id ∧ h_flags (m_hdr m) = (if fwd then ELPIS_FLAG_RD else 0) ∧ h_qdcount (m_hdr m) = 1 ∧
  m_qname m = name_of ls ∧ m_qtype m = type ∧ m_qclass m = klass.

(** C5. An outgoing query says what was meant.  For a well-formed name,
    [build_query] fails only when header and question do not fit; otherwise the
    message it leaves parses as a query with the identifier, the RD flag and
    exactly the question given (its letter case included), and, unless the OPT
    does not fit, with an OPT that conveys the EDNS request: buffer size (at
    least 512), DO bit, cookie and client subnet. *)
Theorem query_round_trip (buf : list Z) (cap : Z) (ctab : list elpis_cslot_t) (id : Z) (fwd : bool)
    (ls : list (list Z)) (type klass : Z) (edns : option elpis_edns_t) :
  bytes buf → zlen buf = cap → zlen ctab = 64 → 12 <= cap → 0 <= id < 65536 → 0 <= type < 65536 → 0 <= klass < 65536 →
  labels_ok ls → (∀ e, edns = Some e → wf_edns e ∧ cookie_sendable e) →
  let qend := 12 + zlen (wire ls) + 4 in
  ∃ b n, build_query buf cap ctab id fwd (wire ls) (zlen (wire ls)) type klass edns = Ok (b, n) ∧
  (n = 0 ∧ cap < qend ∨
   ∃ m, elpis_msg_parse (content b) n ELPIS_PARSE_QUERY = Ok m ∧ query_received id fwd ls type klass m ∧
   match edns with
   | None => m_edns m = edns_zero
   | Some e =>
     (∃ me, edns_conveys e 0 me ∧ m_edns m = if edns_bufsize me <? 512 then set_bufsize me 512 else me) ∨
     m_edns m = edns_zero ∧ (cap < qend + zlen (opt_record e 0 qend) ∨ 0xFFFF < zlen (opts_wire (opt_all e qend)))
   end).
Proof.
  intros Hbuf Hcap Hctab Hroom Hid Hty Hkl Hok He qend.
  destruct (flags_ok fwd) as [Hfl Hqr]. set (flags := if fwd then ELPIS_FLAG_RD else 0) in *.
  destruct (question_written buf cap id ctab fwd type klass ls Hbuf Hcap Hctab Hroom Hok)
    as (b1 & rc & (b0 & E0 & E1) & Hbad & Hgood).
  unfold build_query. fold flags in E0 |- *. rewrite E0. cbn [mbind res_bind]. rewrite bool_decide_true by done.
  cbn [negb]. rewrite E1. cbn [mbind res_bind]. case_bool_decide as Hrc; cbn [negb].
  2: { exists b1, 0. split; [done|]. left. split; [done|]. by apply Hbad. }
  destruct (Hgood Hrc) as ([Hwf1 _] & Hc1 & Hl1 & Hcap1 & Ho1 & Hn1). fold qend in Hl1.
  assert (Hplain : ∀ b2, wf_bld b2 → content b2 = draft id fwd type klass ls [] → b_len b2 = qend →
    b_overflow b2 = false → b_counts b2 = [1; 0; 0; 0] →
    ∃ b3, elpis_bld_finish b2 = Ok b3 ∧ b_overflow b3 = false ∧ ∃ m,
      elpis_msg_parse (content b3) (b_len b3) ELPIS_PARSE_QUERY = Ok m ∧
      query_received id fwd ls type klass m ∧ m_edns m = edns_zero).
  { intros b2 Hwf2 Hc2 Hl2 Ho2 Hn2.
    destruct (finish_draft id fwd type klass ls b2 0 [] Hwf2 Hc2 Hn2 ltac:(lia)) as (b3 & E3 & Hwf3 & Ho3 & Hl3 & Hc3).
    exists b3. split; [done|]. split; [by rewrite Ho3|]. fold flags in Hc3.
    rewrite <- (zlen_content b3 Hwf3), Hc3. eexists.
    split; [by apply parse_plain|]. by split_and!. }
  destruct edns as [e|].
  - destruct (He e eq_refl) as [Hwe Hck].
    destruct (edns_write_spec b1 e 0 Hwf1 Hwe) as (b2 & rc2 & E2 & H2). rewrite E2. cbn [mbind res_bind].
    destruct H2 as [[_ (Hwf2 & Hc2 & Hle & (c & buf2 & Hrd & _ & Eb2))]|(_ & Hwf2 & Hc2 & Hblk & [buf2 Eb2])].
    + rewrite Hl1 in Hc2, Hle. rewrite Hc1 in Hc2. rewrite Hn1 in Hrd, Eb2. injection Hrd as <-.
      assert (Hd : content b2 = draft id fwd type klass ls (opt_record e 0 qend)).
      { rewrite Hc2. unfold draft. rewrite app_nil_r. by rewrite <- !app_assoc. }
      destruct (finish_draft id fwd type klass ls b2 1 _ Hwf2 Hd) as (b3 & -> & Hwf3 & Ho3 & Hl3 & Hc3);
        [by rewrite Eb2|lia|]. cbn [mbind res_bind]. fold flags in Hc3.
      rewrite Ho3. replace (b_overflow b2) with false by (rewrite Eb2; by rewrite <- Ho1).
      exists b3, (b_len b3). split; [done|]. right. rewrite <- (zlen_content b3 Hwf3), Hc3.
      destruct (parse_with_opt id flags type klass ls Hid Hfl Hty Hkl Hok Hqr e Hwe Hck Hle)
        as (m & Em & Hh & Hqn & Hqt & Hqc & Hme).
      exists m. split; [exact Em|]. split; [|by left]. unfold query_received. rewrite Hh. by split_and!.
    + destruct (Hplain b2) as (b3 & -> & Ho3 & m & Em & Hq & Hm); try (by rewrite Eb2).
      { done. } { by rewrite Hc2. }
      cbn [mbind res_bind]. rewrite Ho3. exists b3, (b_len b3). split; [done|]. right. exists m.
      split; [done|]. split; [done|]. right. split; [done|].
      unfold opt_blocked in Hblk. rewrite Ho1, Hn1, Hl1, Hcap1 in Hblk.
      destruct Hblk as [?|[?|[?|?]]]; [done|by left|by right|done].
  - cbn [mbind res_bind]. destruct (Hplain b1) as (b3 & -> & Ho3 & m & Em & Hq & Hm); try done.
    cbn [mbind res_bind]. rewrite Ho3. exists b3, (b_len b3). split; [done|]. right. by exists m.
Qed.

Lemma query_round_trip_witness :
  let qend := 12 + zlen (wire [[119; 87]; [99]]) + 4 in
  ∃ b n, build_query (zeros 80) 80 (replicate 64 (mkSlot 0 name_zero)) 7 true (wire [[119; 87]; [99]])
           (zlen (wire [[119; 87]; [99]])) 28 1 (Some sample_edns) = Ok (b, n) ∧
  (n = 0 ∧ 80 < qend ∨
   ∃ m, elpis_msg_parse (content b) n ELPIS_PARSE_QUERY = Ok m ∧ query_received 7 true [[119; 87]; [99]] 28 1 m ∧
   match Some sample_edns with
   | None => m_edns m = edns_zero
   | Some e =>
     (∃ me, edns_conveys e 0 me ∧ m_edns m = if edns_bufsize me <? 512 then set_bufsize me 512 else me) ∨
     m_edns m = edns_zero ∧ (80 < qend + zlen (opt_record e 0 qend) ∨ 0xFFFF < zlen (opts_wire (opt_all e qend)))
   end).
Proof.
  apply (query_round_trip (zeros 80) 80 (replicate 64 (mkSlot 0 name_zero)) 7 true [[119; 87]; [99]] 28 1 (Some sample_edns));
    try by_compute.
  intros e [= <-]. split; [apply sample_edns_ok|]. intros _. right. left. done.
Defined.
