(* ===== verification/Rrlist.v ===== *)
(** The record accumulator: src/dns/rrlist.c and include/elpis/rrlist.h.

    [l_rr] and [l_pool] hold the [n] entries and the [plen] octets in use;
    what lies between them and the capacities [l_cap] and [l_pcap] is
    indeterminate in the code, so here reading it is a fault. *)
From stdpp Require Import base list numbers.
From Stdlib Require Import ZArith Lia.
From S2P Require Import Prelude Bytes Simd Name NameOps.

(** ** Data *)

Definition RRLIST_RR_MIN : Z := 16.
Definition RRLIST_POOL_MIN : Z := 512.
Definition RRLIST_RR_MAX : Z := 512.
Definition RRLIST_POOL_MAX : Z := 256 * 1024.

Record elpis_trr_t := mkTrr {
  t_nameoff : Z; t_rdoff : Z; t_ttl : Z; t_type : Z; t_klass : Z; t_rdlen : Z;
  t_namelen : Z; t_section : Z; t_zone_labels : Z; t_tailored : Z }.

(** [sizeof(elpis_trr_t)]. *)
Definition trr_size : Z := 24.

Record elpis_rrlist_t := mkRrlist {
  l_rr : list elpis_trr_t; l_cap : Z;
  l_pool : list Z; l_pcap : Z;
  l_zone_labels : Z; l_tailored : Z }.

Definition ELPIS_ZONE_STAMP (zone : elpis_name_t) : Z := u8 (n_labels zone + 1).

(** ** Operations *)

Definition elpis_rrlist_init : elpis_rrlist_t := mkRrlist [] 0 [] 0 0 0.
Definition elpis_rrlist_clear (l : elpis_rrlist_t) : elpis_rrlist_t :=
  mkRrlist [] (l_cap l) [] (l_pcap l) 0 0.
Definition elpis_rrlist_free (l : elpis_rrlist_t) : elpis_rrlist_t := elpis_rrlist_init.

(** [while (want < l->plen + need)]; [None] is the [ELPIS_ENOMEM] return. *)
Fixpoint reserve_size (fuel : nat) (want target : Z) : res (option Z) :=
  match fuel with
  | O => Stuck OutOfFuel
  | S f =>
    if want <? target then
      if RRLIST_POOL_MAX <=? want then Ok None
      else reserve_size f (u32 (want * 2)) target
    else Ok (Some want)
  end.

Section Alloc.

(** Whether the allocator has this many octets. *)
Variable alloc : Z → bool.

Definition pool_reserve (l : elpis_rrlist_t) (need : Z) : res (elpis_rrlist_t * elpis_rc_t) :=
  let target := u32 (zlen (l_pool l) + need) in
  if target <=? l_pcap l then Ok (l, ELPIS_OK)
  else
    w ← reserve_size 16 (if l_pcap l =? 0 then RRLIST_POOL_MIN else l_pcap l) target;
    match w with
    | None => Ok (l, ELPIS_ENOMEM)
    | Some want =>
      if negb (alloc want) then Ok (l, ELPIS_ENOMEM)
      else Ok (mkRrlist (l_rr l) (l_cap l) (l_pool l) want (l_zone_labels l) (l_tailored l), ELPIS_OK)
    end.

(** [memcpy(l->pool + l->plen, src, n); l->plen += n;] *)
Definition pool_append (l : elpis_rrlist_t) (src : list Z) (n : Z) : res elpis_rrlist_t :=
  bs ← rds src 0 n;
  if zlen (l_pool l) + n <=? l_pcap l then
    Ok (mkRrlist (l_rr l) (l_cap l) (l_pool l ++ bs) (l_pcap l) (l_zone_labels l) (l_tailored l))
  else Stuck OutOfBounds.

(** [l->rr[l->n] = e; l->n++], and the stamps consumed. *)
Definition rr_append (l : elpis_rrlist_t) (e : elpis_trr_t) : res elpis_rrlist_t :=
  if zlen (l_rr l) <? l_cap l then
    Ok (mkRrlist (l_rr l ++ [e]) (l_cap l) (l_pool l) (l_pcap l) 0 0)
  else Stuck OutOfBounds.

Definition elpis_rrlist_add (l : elpis_rrlist_t) (sec : Z) (name : elpis_name_t)
    (type klass ttl : Z) (rdata : list Z) (rdlen : Z) : res (elpis_rrlist_t * elpis_rc_t) :=
  let n := zlen (l_rr l) in
  if RRLIST_RR_MAX <=? n then Ok (l, ELPIS_ENOMEM)
  else
    let want := if l_cap l =? 0 then RRLIST_RR_MIN else u32 (l_cap l * 2) in
    if (n =? l_cap l) && negb (alloc (want * trr_size)) then Ok (l, ELPIS_ENOMEM)
    else
      let l := if n =? l_cap l
               then mkRrlist (l_rr l) want (l_pool l) (l_pcap l) (l_zone_labels l) (l_tailored l)
               else l in
      '(l, rc) ← pool_reserve l (n_len name + rdlen);
      if negb (bool_decide (rc = ELPIS_OK)) then Ok (l, ELPIS_ENOMEM)
      else
        let nameoff := zlen (l_pool l) in
        l ← pool_append l (n_d name) (n_len name);
        let rdoff := zlen (l_pool l) in
        l ← (if rdlen =? 0 then Ok l else pool_append l rdata rdlen);
        l ← rr_append l (mkTrr nameoff rdoff ttl type klass rdlen (n_len name) (u8 sec)
                          (l_zone_labels l) (l_tailored l));
        Ok (l, ELPIS_OK).

End Alloc.

(** The loop of [elpis_rrlist_has] over the entries not yet looked at. *)
Fixpoint has_loop (pool : list Z) (es : list elpis_trr_t) (name : elpis_name_t) (type : Z)
    (rdata : list Z) (rdlen : Z) : res bool :=
  match es with
  | [] => Ok false
  | e :: es =>
    let continue := has_loop pool es name type rdata rdlen in
    if negb (t_type e =? type) || negb (t_rdlen e =? rdlen) then continue
    else if negb (t_namelen e =? n_len name) then continue
    else
      nm ← rds pool (t_nameoff e) (n_len name);
      same ← elpis_eq_ci nm (n_d name) (n_len name);
      if negb same then continue
      else
        mine ← rds pool (t_rdoff e) rdlen;
        theirs ← rds rdata 0 rdlen;
        if bool_decide (mine = theirs) then Ok true else continue
  end.

Definition elpis_rrlist_has (l : elpis_rrlist_t) (name : elpis_name_t) (type : Z)
    (rdata : list Z) (rdlen : Z) : res bool :=
  has_loop (l_pool l) (l_rr l) name type rdata rdlen.

Definition elpis_rrlist_min_ttl (l : elpis_rrlist_t) (dflt : Z) : Z :=
  match l_rr l with
  | [] => dflt
  | es => fold_left (fun m e => if t_ttl e <? m then t_ttl e else m) es 0xFFFFFFFF
  end.

Definition elpis_trr_get_name (l : elpis_rrlist_t) (i : Z) : res elpis_name_t :=
  if zlen (l_rr l) <=? i then Err ELPIS_ERR ELPIS_DROP_NONE
  else
    e ← rd (l_rr l) i;
    nm ← rds (l_pool l) (t_nameoff e) (t_namelen e);
    '(n, _) ← elpis_name_parse_nocomp nm (t_namelen e);
    Ok n.

(** ** What a list holds *)

Record trec := mkTrec {
  r_name : list (list Z); r_type : Z; r_klass : Z; r_ttl : Z; r_rdata : list Z;
  r_section : Z; r_zone_labels : Z; r_tailored : Z }.

(** Entry [e] stands for record [r] in [pool]. *)
Definition stands_for (pool : list Z) (e : elpis_trr_t) (r : trec) : Prop :=
  labels_ok (r_name r) ∧ t_namelen e = zlen (wire (r_name r)) ∧ t_rdlen e = zlen (r_rdata r) ∧
  rds pool (t_nameoff e) (t_namelen e) = Ok (wire (r_name r)) ∧
  rds pool (t_rdoff e) (t_rdlen e) = Ok (r_rdata r) ∧
  t_type e = r_type r ∧ t_klass e = r_klass r ∧ t_ttl e = r_ttl r ∧ t_section e = r_section r ∧
  t_zone_labels e = r_zone_labels r ∧ t_tailored e = r_tailored r.

(** The sizes the arrays can have. *)
Definition cap_ok (min max cap : Z) : Prop :=
  cap = 0 ∨ ∃ k, 0 <= k ∧ cap = min * 2 ^ k ∧ cap <= max.

Definition holds (l : elpis_rrlist_t) (rs : list trec) : Prop :=
  Forall2 (stands_for (l_pool l)) (l_rr l) rs ∧
  zlen (l_rr l) <= l_cap l ∧ cap_ok RRLIST_RR_MIN RRLIST_RR_MAX (l_cap l) ∧
  zlen (l_pool l) <= l_pcap l ∧ cap_ok RRLIST_POOL_MIN RRLIST_POOL_MAX (l_pcap l).

(** The record an add with these arguments stands for. *)
Definition new_rec (l : elpis_rrlist_t) (sec : Z) (ls : list (list Z)) (type klass ttl : Z)
    (rdata : list Z) : trec :=
  mkTrec ls type klass ttl rdata (u8 sec) (l_zone_labels l) (l_tailored l).

(** ** Lemmas *)

Lemma holds_init : holds elpis_rrlist_init [].
Proof. split; [constructor|]. repeat split; (done || (by left)). Qed.

Lemma holds_clear l rs : holds l rs → holds (elpis_rrlist_clear l) [].
Proof.
  intros (_ & ? & ? & ? & ?). repeat split; try done; try constructor; cbn;
    rewrite zlen_nil; pose proof (zlen_nonneg (l_rr l)); pose proof (zlen_nonneg (l_pool l)); lia.
Qed.

Lemma cap_ok_double min max c k :
  0 < min → max = min * 2 ^ k → 0 <= k → cap_ok min max c → c ≠ 0 → c < max →
  c * 2 <= max ∧ cap_ok min max (c * 2).
Proof.
  intros Hmin Hmax Hk [->|(j & Hj & -> & _)] Hc Hlt; [done|].
  assert (j < k) as Hjk.
  { destruct (Z_lt_le_dec j k) as [|Hge]; [done|].
    pose proof (Z.pow_le_mono_r 2 k j). nia. }
  assert (min * 2 ^ j * 2 = min * 2 ^ (j + 1)) as E by (rewrite Z.pow_add_r by lia; lia).
  assert (min * 2 ^ j * 2 <= max) as Hle.
  { rewrite E. pose proof (Z.pow_le_mono_r 2 (j + 1) k). nia. }
  split; [done|]. right. exists (j + 1). rewrite <- E. split_and!; (lia || done).
Qed.

Lemma cap_ok_max min max c : 0 <= max → cap_ok min max c → c <= max.
Proof. intros ? [->|(? & _ & _ & ?)]; lia. Qed.

(** The doubling loop stops at a size that fits, or says there is none. *)
Lemma reserve_size_spec fuel want target :
  cap_ok RRLIST_POOL_MIN RRLIST_POOL_MAX want → 0 < want → 262144 < want * 2 ^ Z.of_nat fuel →
  ∃ w, reserve_size fuel want target = Ok w ∧
    match w with
    | Some w => want <= w ∧ target <= w ∧ cap_ok RRLIST_POOL_MIN RRLIST_POOL_MAX w
    | None => RRLIST_POOL_MAX < target
    end.
Proof.
  revert want. induction fuel as [|f IH]; intros want Hok Hpos Hf.
  { apply cap_ok_max in Hok; unfold RRLIST_POOL_MAX in *; lia. }
  cbn [reserve_size]. destruct (Z.ltb_spec want target); [|eexists; split; [done|cbn; split_and!; (lia || done)]].
  destruct (Z.leb_spec RRLIST_POOL_MAX want) as [|Hlt]; [eexists; split; [done|cbn; lia]|].
  destruct (cap_ok_double RRLIST_POOL_MIN RRLIST_POOL_MAX want 9 ltac:(done) ltac:(done) ltac:(lia) Hok ltac:(lia) Hlt) as [Hm Hok2].
  rewrite u32_id by (unfold RRLIST_POOL_MAX in *; lia).
  destruct (IH (want * 2)) as (w & -> & Hw); [done|lia| |].
  { rewrite Nat2Z.inj_succ, Z.pow_succ_r in Hf by lia. nia. }
  exists w. split; [done|]. destruct w; [|done]. destruct Hw as (? & ? & ?). split_and!; (lia || done).
Qed.

Definition same_but_pcap (l l' : elpis_rrlist_t) : Prop :=
  l' = mkRrlist (l_rr l) (l_cap l) (l_pool l) (l_pcap l') (l_zone_labels l) (l_tailored l).

Lemma pool_reserve_spec alloc l need :
  zlen (l_pool l) <= l_pcap l → cap_ok RRLIST_POOL_MIN RRLIST_POOL_MAX (l_pcap l) →
  0 <= need < 70000 →
  ∃ l' rc, pool_reserve alloc l need = Ok (l', rc) ∧ same_but_pcap l l' ∧
    zlen (l_pool l) <= l_pcap l' ∧ cap_ok RRLIST_POOL_MIN RRLIST_POOL_MAX (l_pcap l') ∧
    (rc = ELPIS_OK → zlen (l_pool l) + need <= l_pcap l') ∧
    ((∀ k, alloc k = true) → rc = ELPIS_OK ↔ zlen (l_pool l) + need <= RRLIST_POOL_MAX).
Proof.
  intros Hle Hok Hneed. pose proof (zlen_nonneg (l_pool l)).
  pose proof (cap_ok_max RRLIST_POOL_MIN RRLIST_POOL_MAX _ ltac:(done) Hok) as Hmax. unfold RRLIST_POOL_MAX in Hmax.
  unfold pool_reserve. rewrite u32_id by lia. destruct (Z.leb_spec (zlen (l_pool l) + need) (l_pcap l)).
  { exists l, ELPIS_OK. split_and!; try done; [by destruct l|].
    intros _. split; [unfold RRLIST_POOL_MAX; lia|done]. }
  set (w0 := if _ =? 0 then _ else _).
  assert (cap_ok RRLIST_POOL_MIN RRLIST_POOL_MAX w0 ∧ 512 <= w0) as [Hw0 Hpos].
  { subst w0. destruct (Z.eqb_spec (l_pcap l) 0) as [|Hne].
    - split; [right; exists 0; split_and!|]; done.
    - split; [done|]. destruct Hok as [|(k & ? & -> & _)]; [done|].
      pose proof (Z.pow_pos_nonneg 2 k). unfold RRLIST_POOL_MIN. nia. }
  destruct (reserve_size_spec 16 w0 (zlen (l_pool l) + need)) as (w & -> & Hw);
    [done|lia|cbn; lia|].
  cbn [mbind res_bind]. destruct w as [w|].
  - destruct Hw as (? & ? & ?). destruct (alloc w) eqn:Ha; cbn [negb].
    + eexists _, _. split; [done|]. cbn. split_and!; try done; try lia.
      intros _. split; [|done]. intros _. apply cap_ok_max in H3; [lia|done].
    + exists l, ELPIS_ENOMEM. split_and!; try done; [by destruct l|].
      intros Hall. by rewrite Hall in Ha.
  - exists l, ELPIS_ENOMEM. split_and!; try done; [by destruct l|]. intros _. split; [done|lia].
Qed.

Lemma stands_for_app pool k e r : stands_for pool e r → stands_for (pool ++ k) e r.
Proof.
  unfold stands_for. intros Hs. destruct_and? Hs. split_and!; try done; by apply rds_app_mono.
Qed.

Lemma pool_append_spec l src n :
  n = zlen src → zlen (l_pool l) + n <= l_pcap l →
  pool_append l src n =
    Ok (mkRrlist (l_rr l) (l_cap l) (l_pool l ++ src) (l_pcap l) (l_zone_labels l) (l_tailored l)).
Proof. intros -> ?. unfold pool_append. rewrite rds_full by done. cbn. by ztrue (zlen (l_pool l) + zlen src <=? l_pcap l). Qed.

(** The optional rdata copy is an append either way. *)
Lemma pool_append_opt l src n :
  n = zlen src → zlen (l_pool l) + n <= l_pcap l →
  (if n =? 0 then Ok l else pool_append l src n) =
    Ok (mkRrlist (l_rr l) (l_cap l) (l_pool l ++ src) (l_pcap l) (l_zone_labels l) (l_tailored l)).
Proof.
  intros Hn ?. destruct (Z.eqb_spec n 0) as [->|]; [|by apply pool_append_spec].
  destruct src; [|by rewrite zlen_cons in Hn; pose proof (zlen_nonneg src); lia].
  rewrite app_nil_r. by destruct l.
Qed.

(** Growing the entry array, when it is full. *)
Lemma grow_rr_spec l :
  zlen (l_rr l) < RRLIST_RR_MAX → zlen (l_rr l) <= l_cap l →
  cap_ok RRLIST_RR_MIN RRLIST_RR_MAX (l_cap l) →
  let cap := if zlen (l_rr l) =? l_cap l
             then (if l_cap l =? 0 then RRLIST_RR_MIN else u32 (l_cap l * 2)) else l_cap l in
  zlen (l_rr l) < cap ∧ cap_ok RRLIST_RR_MIN RRLIST_RR_MAX cap.
Proof.
  intros Hn Hle Hok cap. subst cap. pose proof (zlen_nonneg (l_rr l)). unfold RRLIST_RR_MAX in Hn.
  destruct (Z.eqb_spec (zlen (l_rr l)) (l_cap l)) as [E|]; [|split; [lia|done]].
  destruct (Z.eqb_spec (l_cap l) 0) as [|Hne]; [split; [unfold RRLIST_RR_MIN; lia|]|].
  { right. exists 0. split_and!; done. }
  destruct (cap_ok_double RRLIST_RR_MIN RRLIST_RR_MAX (l_cap l) 5 ltac:(done) ltac:(done) ltac:(lia) Hok Hne)
    as [Hm Hd]; [unfold RRLIST_RR_MAX; lia|].
  unfold RRLIST_RR_MAX in Hm. rewrite u32_id by lia. split; [lia|done].
Qed.

Lemma same_but_pcap_fields l l' :
  same_but_pcap l l' →
  l_rr l' = l_rr l ∧ l_cap l' = l_cap l ∧ l_pool l' = l_pool l ∧
  l_zone_labels l' = l_zone_labels l ∧ l_tailored l' = l_tailored l.
Proof. intros ->. done. Qed.

(** A list in which only capacities changed holds the same records. *)
Lemma holds_caps l rs rr cap pool pcap z t :
  holds l rs → rr = l_rr l → pool = l_pool l →
  zlen rr <= cap → cap_ok RRLIST_RR_MIN RRLIST_RR_MAX cap →
  zlen pool <= pcap → cap_ok RRLIST_POOL_MIN RRLIST_POOL_MAX pcap →
  holds (mkRrlist rr cap pool pcap z t) rs.
Proof. intros (? & _) -> -> ????. by split. Qed.

(** What the three writes of an add leave behind, capacities permitting. *)
Lemma add_writes_spec l rs sec ls type klass ttl rdata :
  holds l rs → zlen (l_rr l) < l_cap l → labels_ok ls →
  zlen (l_pool l) + (zlen (wire ls) + zlen rdata) <= l_pcap l →
  ∃ l',
    (let nameoff := zlen (l_pool l) in
     l ← pool_append l (n_d (name_of ls)) (n_len (name_of ls));
     let rdoff := zlen (l_pool l) in
     l ← (if zlen rdata =? 0 then Ok l else pool_append l rdata (zlen rdata));
     l ← rr_append l (mkTrr nameoff rdoff ttl type klass (zlen rdata) (n_len (name_of ls)) (u8 sec)
                       (l_zone_labels l) (l_tailored l));
     Ok (l, ELPIS_OK)) = Ok (l', ELPIS_OK) ∧
    holds l' (rs ++ [new_rec l sec ls type klass ttl rdata]) ∧
    l_zone_labels l' = 0 ∧ l_tailored l' = 0.
Proof.
  intros (Hall & Hn & Hcap & Hp & Hpcap) Hroom Hls Hfit.
  pose proof (zlen_nonneg rdata). cbv zeta. rewrite n_d_of, n_len_of.
  rewrite pool_append_spec by (done || lia). cbn [mbind res_bind l_pool].
  rewrite pool_append_opt by (first [done | cbn [l_pool l_pcap]; rewrite ?zlen_app; lia]).
  cbn [mbind res_bind l_pool l_zone_labels l_tailored]. unfold rr_append. cbn [l_rr l_cap].
  ztrue (zlen (l_rr l) <? l_cap l). cbn [mbind res_bind l_pool l_pcap].
  eexists. split; [done|]. split; [|done].
  split; [|cbn [l_rr l_cap l_pool l_pcap]; rewrite !zlen_app, zlen_cons, zlen_nil; split_and!; (done || lia)].
  cbn [l_pool l_rr]. rewrite <- app_assoc. apply Forall2_app.
  { eapply Forall2_impl; [|exact Hall]. intros e r. apply stands_for_app. }
  constructor; [|constructor]. unfold stands_for, new_rec; cbn. split_and!; try done.
  - apply rds_at_end.
  - rewrite app_assoc. rewrite <- (app_nil_r rdata) at 1. apply rds_at_end.
Qed.

Lemma rrlist_add_spec alloc l rs sec ls type klass ttl rdata :
  holds l rs → labels_ok ls → zlen rdata < 65536 →
  ∃ l' rc, elpis_rrlist_add alloc l sec (name_of ls) type klass ttl rdata (zlen rdata) = Ok (l', rc) ∧
    (rc = ELPIS_OK → holds l' (rs ++ [new_rec l sec ls type klass ttl rdata]) ∧
                     l_zone_labels l' = 0 ∧ l_tailored l' = 0) ∧
    (rc ≠ ELPIS_OK → rc = ELPIS_ENOMEM ∧ holds l' rs ∧ l_pool l' = l_pool l ∧
                     l_zone_labels l' = l_zone_labels l ∧ l_tailored l' = l_tailored l) ∧
    ((∀ k, alloc k = true) →
     rc = ELPIS_OK ↔ zlen rs < RRLIST_RR_MAX ∧
                     zlen (l_pool l) + zlen (wire ls) + zlen rdata <= RRLIST_POOL_MAX).
Proof.
  intros Hh Hls Hrd. pose proof Hh as (Hall & Hn & Hcap & Hp & Hpcap).
  assert (zlen (l_rr l) = zlen rs) as Hlen by (apply Forall2_length in Hall; zl).
  pose proof (zlen_nonneg rdata). pose proof (zlen_wire_pos ls). pose proof (proj2 Hls).
  unfold elpis_rrlist_add. rewrite n_len_of.
  destruct (Z.leb_spec RRLIST_RR_MAX (zlen (l_rr l))) as [|Hlt].
  { exists l, ELPIS_ENOMEM. split_and!; try done. intros _. split; [done|lia]. }
  destruct (grow_rr_spec l Hlt Hn Hcap) as [Hroom Hcap'].
  set (want := if l_cap l =? 0 then RRLIST_RR_MIN else u32 (l_cap l * 2)) in *. cbv zeta in Hroom, Hcap'.
  destruct ((zlen (l_rr l) =? l_cap l) && negb (alloc (want * trr_size))) eqn:Hno.
  { bool_to_prop. exists l, ELPIS_ENOMEM. split_and!; try done. intros Ha. by rewrite Ha in H3. }
  clear Hno. set (l1 := if zlen (l_rr l) =? l_cap l then _ else l).
  assert (l1 = mkRrlist (l_rr l) (if zlen (l_rr l) =? l_cap l then want else l_cap l)
                 (l_pool l) (l_pcap l) (l_zone_labels l) (l_tailored l)) as ->.
  { subst l1. destruct (zlen (l_rr l) =? l_cap l); [done|by destruct l]. }
  set (cap := if _ =? _ then want else _) in *. clearbody cap.
  destruct (pool_reserve_spec alloc (mkRrlist (l_rr l) cap (l_pool l) (l_pcap l) (l_zone_labels l) (l_tailored l))
              (zlen (wire ls) + zlen rdata)) as (l2 & rc & -> & Hsame & Hp2 & Hpcap2 & Hok & Hiff);
    [done|done|lia|].
  cbn [l_pool] in *.
  assert (holds l2 rs) as Hh2 by (rewrite Hsame; apply (holds_caps l); (done || (cbn; lia))).
  apply same_but_pcap_fields in Hsame as (Hrr & Hc & Hpool & Hz & Ht). cbn in Hrr, Hc, Hpool, Hz, Ht.
  cbn [mbind res_bind]. destruct (decide (rc = ELPIS_OK)) as [->|Hrc].
  - rewrite bool_decide_true by done. cbn [negb].
    destruct (add_writes_spec l2 rs sec ls type klass ttl rdata) as (l3 & E & Hh3 & Hz3 & Ht3);
      [done|rewrite Hrr, Hc; lia|done|rewrite Hpool; auto|].
    exists l3, ELPIS_OK. split; [exact E|]. unfold new_rec in *. rewrite Hz, Ht in Hh3.
    split_and!; [done|done|]. intros Ha. split; [|done]. intros _. split; [lia|].
    destruct (Hiff Ha) as [Hiff1 _]. specialize (Hiff1 eq_refl). lia.
  - rewrite bool_decide_false by done. exists l2, ELPIS_ENOMEM.
    split_and!; try done. intros Ha. split; [done|]. intros [_ ?]. exfalso. apply Hrc, Hiff; [done|lia].
Qed.

(** ** Look-ups *)

(** Record [r] is the one a caller asks [elpis_rrlist_has] about. *)
Definition matches (ls : list (list Z)) (type : Z) (rdata : list Z) (r : trec) : Prop :=
  r_type r = type ∧ labels_eq (r_name r) ls ∧ r_rdata r = rdata.

Lemma eq_ci_wire a b :
  labels_ok a → labels_ok b → zlen (wire a) = zlen (wire b) →
  elpis_eq_ci (wire a) (wire b) (zlen (wire b)) = Ok (bool_decide (labels_eq a b)).
Proof.
  intros Ha Hb E. pose proof (name_eq_spec a b Ha Hb) as H. unfold elpis_name_eq in H.
  rewrite !n_len_of, !n_d_of, E in H. rewrite Z.eqb_refl in H. cbn [negb] in H. exact H.
Qed.

Lemma rrlist_has_spec l rs ls type rdata :
  holds l rs → labels_ok ls →
  ∃ b, elpis_rrlist_has l (name_of ls) type rdata (zlen rdata) = Ok b ∧
    (b = true ↔ Exists (matches ls type rdata) rs).
Proof.
  intros (Hall & _) Hls. unfold elpis_rrlist_has. induction Hall as [|e r es rs He Hes IH].
  { exists false. split; [done|]. by rewrite Exists_nil. }
  destruct IH as (b & Eb & Hb). destruct He as (Hok & Enl & Erl & Enm & Erd & Ety & _).
  cbn [has_loop]. cbv zeta. rewrite Eb. rewrite n_len_of, n_d_of, Ety, Erl, Enl.
  assert (¬ matches ls type rdata r → b = true ↔ Exists (matches ls type rdata) (r :: rs)) as Hskip.
  { intros Hn. rewrite Exists_cons, Hb. tauto. }
  destruct (Z.eqb_spec (r_type r) type); cbn [negb orb];
    [|exists b; split; [done|apply Hskip; intros (? & _); done]].
  destruct (Z.eqb_spec (zlen (r_rdata r)) (zlen rdata)) as [El|El]; cbn [negb];
    [|exists b; split; [done|apply Hskip; intros (_ & _ & ?); congruence]].
  destruct (Z.eqb_spec (zlen (wire (r_name r))) (zlen (wire ls))) as [Ew|Ew]; cbn [negb];
    [|exists b; split; [done|apply Hskip; intros (_ & ?%labels_eq_zlen & _); done]].
  rewrite <- Ew, <- Enl, Enm. cbn [mbind res_bind]. rewrite Enl, Ew, eq_ci_wire by done.
  cbn [mbind res_bind]. case_bool_decide as Heq; cbn [negb];
    [|exists b; split; [done|apply Hskip; intros (_ & ? & _); done]].
  rewrite <- El, <- Erl, Erd. cbn [mbind res_bind]. rewrite rds_full by congruence. cbn [mbind res_bind].
  case_bool_decide as Hrd; [exists true; split; [done|]|exists b; split; [done|apply Hskip; intros (_ & _ & ?); done]].
  split; [intros _; by left|done].
Qed.

Lemma trr_get_name_spec l rs i r :
  holds l rs → 0 <= i → rs !! Z.to_nat i = Some r → elpis_trr_get_name l i = Ok (name_of (r_name r)).
Proof.
  intros (Hall & _) Hi Hr. destruct (Forall2_lookup_r _ _ _ _ _ Hall Hr) as (e & He & Hs).
  apply lookup_lt_Some in He as Hlt. unfold elpis_trr_get_name. zfalse (zlen (l_rr l) <=? i).
  rewrite (rd_lookup _ _ e) by done. cbn [mbind res_bind].
  destruct Hs as (Hok & Enl & _ & -> & _). cbn [mbind res_bind]. rewrite Enl.
  pose proof (spelled_wire (r_name r) []) as Hsp. rewrite app_nil_r in Hsp.
  rewrite (name_parse_nocomp_complete _ _ (r_name r)); [done|apply bytes_wire, Hok|lia|done|done].
Qed.

(** The minimum loop. *)
Lemma min_ttl_fold es m :
  let r := fold_left (fun m e => if t_ttl e <? m then t_ttl e else m) es m in
  r <= m ∧ Forall (fun e => r <= t_ttl e) es ∧ (r = m ∨ r ∈ map t_ttl es).
Proof.
  revert m. induction es as [|e es IH]; intros m; cbn [fold_left map].
  { split; [lia|]. split; [constructor|by left]. }
  destruct (IH (if t_ttl e <? m then t_ttl e else m)) as (H1 & H2 & H3).
  destruct (Z.ltb_spec (t_ttl e) m); (split; [lia|]; split; [constructor; [lia|done]|]);
    (destruct H3 as [H3|H3]; [|right; by right]).
  - right. rewrite H3. left.
  - by left.
Qed.

Lemma holds_ttls l rs : holds l rs → map t_ttl (l_rr l) = map r_ttl rs.
Proof.
  intros (Hall & _). induction Hall as [|e r es rs He Hes IH]; [done|]. cbn. rewrite IH.
  by destruct He as (_ & _ & _ & _ & _ & _ & _ & -> & _).
Qed.

Lemma min_ttl_spec l rs dflt :
  holds l rs → rs ≠ [] → Forall (fun r => r_ttl r < 2 ^ 32) rs →
  elpis_rrlist_min_ttl l dflt ∈ map r_ttl rs ∧ Forall (Z.le (elpis_rrlist_min_ttl l dflt)) (map r_ttl rs).
Proof.
  intros Hh Hne Hb. rewrite <- (holds_ttls l rs) by done. apply holds_ttls in Hh as E.
  unfold elpis_rrlist_min_ttl.
  destruct (l_rr l) as [|e es] eqn:El; [destruct rs; [done|discriminate]|].
  destruct (min_ttl_fold (e :: es) 0xFFFFFFFF) as (Hm & Hall & Hin). cbv zeta in *.
  set (r := fold_left _ (e :: es) _) in *. split; [|by rewrite Forall_map].
  destruct Hin as [Hr|]; [|done]. apply Forall_cons_iff in Hall as [He _].
  destruct rs as [|x rs]; [done|]. cbn in E. apply Forall_cons_iff in Hb as [Hx _].
  assert (r = t_ttl e) as -> by (injection E; lia). left.
Qed.

(** ** Properties *)

(** Adding to a list that holds [rs] either succeeds, and then it holds
    [rs] and the new record with the stamps that were set, both consumed; or
    fails for memory with its records, octets and stamps untouched.  With an
    allocator that never refuses, it fails exactly when there are 512 records
    or the names and rdata would pass 256 KiB.  No write leaves the arrays and
    the doubling loop ends. *)
Theorem rrlist_add_keeps_records (alloc : Z → bool) (l : elpis_rrlist_t) (rs : list trec)
    (sec type klass ttl : Z) (ls : list (list Z)) (rdata : list Z) :
  holds l rs → labels_ok ls → zlen rdata < 65536 →
  ∃ l' rc, elpis_rrlist_add alloc l sec (name_of ls) type klass ttl rdata (zlen rdata) = Ok (l', rc) ∧
    (rc = ELPIS_OK → holds l' (rs ++ [new_rec l sec ls type klass ttl rdata]) ∧
                     l_zone_labels l' = 0 ∧ l_tailored l' = 0) ∧
    (rc ≠ ELPIS_OK → rc = ELPIS_ENOMEM ∧ holds l' rs ∧ l_pool l' = l_pool l ∧
                     l_zone_labels l' = l_zone_labels l ∧ l_tailored l' = l_tailored l) ∧
    ((∀ k, alloc k = true) →
     rc = ELPIS_OK ↔ zlen rs < RRLIST_RR_MAX ∧
                     zlen (l_pool l) + zlen (wire ls) + zlen rdata <= RRLIST_POOL_MAX).
Proof. apply rrlist_add_spec. Qed.

Lemma rrlist_add_keeps_records_witness :
  ∃ l' rc, elpis_rrlist_add (fun _ => true) elpis_rrlist_init 1 (name_of [[119];[99]]) 1 1 60 [10;0;0;1] 4
           = Ok (l', rc) ∧
    (rc = ELPIS_OK → holds l' ([] ++ [new_rec elpis_rrlist_init 1 [[119];[99]] 1 1 60 [10;0;0;1]]) ∧
                     l_zone_labels l' = 0 ∧ l_tailored l' = 0).
Proof.
  destruct (rrlist_add_keeps_records (fun _ => true) elpis_rrlist_init [] 1 1 1 60 [[119];[99]] [10;0;0;1])
    as (l' & rc & H & Hok & _); [exact holds_init|by_compute|by_compute|].
  exists l', rc. split; [exact H|exact Hok].
Defined.

(** The readers of a list that holds [rs]: [elpis_rrlist_has] answers
    whether some record has the type, the name in any case and the very octets
    asked for (the class is not part of the question);
    [elpis_trr_get_name] gives back the owner each record was added with;
    [elpis_rrlist_min_ttl] is the least TTL of all. *)
Theorem rrlist_reads_records (l : elpis_rrlist_t) (rs : list trec) (ls : list (list Z))
    (type : Z) (rdata : list Z) (dflt : Z) :
  holds l rs → labels_ok ls → Forall (fun r => r_ttl r < 2 ^ 32) rs →
  (∃ b, elpis_rrlist_has l (name_of ls) type rdata (zlen rdata) = Ok b ∧
     (b = true ↔ Exists (fun r => r_type r = type ∧ labels_eq (r_name r) ls ∧ r_rdata r = rdata) rs)) ∧
  (∀ i r, 0 <= i → rs !! Z.to_nat i = Some r → elpis_trr_get_name l i = Ok (name_of (r_name r))) ∧
  (rs ≠ [] → elpis_rrlist_min_ttl l dflt ∈ map r_ttl rs ∧
             Forall (Z.le (elpis_rrlist_min_ttl l dflt)) (map r_ttl rs)).
Proof.
  intros Hh Hls Ht. split; [by apply rrlist_has_spec|].
  split; [intros i r; by apply trr_get_name_spec|intros Hne; by apply min_ttl_spec].
Qed.

Definition one_rec : trec := mkTrec [[119];[99]] 1 1 60 [10;0;0;1] 1 0 0.
Definition one_list : elpis_rrlist_t :=
  mkRrlist [mkTrr 0 5 60 1 1 4 5 1 0 0] 16 [1;119;1;99;0;10;0;0;1] 512 0 0.

Lemma holds_one : holds one_list [one_rec].
Proof.
  split.
  - constructor; [|constructor]. unfold stands_for. split; [by_compute|]. split_and!; by vm_compute.
  - cbn. split; [by vm_compute|]. split; [right; exists 0; by vm_compute|].
    split; [by vm_compute|]. right. exists 0. by vm_compute.
Qed.

Lemma rrlist_reads_records_witness :
  (∃ b, elpis_rrlist_has one_list (name_of [[87];[67]]) 1 [10;0;0;1] 4 = Ok b ∧
     (b = true ↔ Exists (fun r => r_type r = 1 ∧ labels_eq (r_name r) [[87];[67]] ∧
                                  r_rdata r = [10;0;0;1]) [one_rec])).
Proof.
  destruct (rrlist_reads_records one_list [one_rec] [[87];[67]] 1 [10;0;0;1] 300) as [H _];
    [exact holds_one|by_compute|by_compute|exact H].
Defined.
