(* ===== verification/Nameset.v ===== *)
(** A fixed set of names and the deepest-suffix look-up: src/nameset.c and
    include/elpis/nameset.h, the table behind the blocklist and the forward
    list.

    A slot's [name] pointer is the offset of the name in [ns_wire], [None] for
    the null pointer; [ns_wire] holds the octets of the array in use. *)
From stdpp Require Import base list numbers.
From Stdlib Require Import ZArith Lia.
From S2P Require Import Prelude Bytes Simd Name NameOps NameText.

(** ** Data *)

Definition SEED : Z := 0xB10C4B10C4B10C4B.

Record elpis_nameset_slot_t := mkNSlot { ns_hash : Z; ns_name : option Z; ns_len : Z }.

Record elpis_nameset_t := mkNameset {
  ns_slot : list elpis_nameset_slot_t; ns_mask : Z; ns_wire : list Z;
  ns_count : Z; ns_min_labels : Z; ns_max_labels : Z }.

Definition empty_slot : elpis_nameset_slot_t := mkNSlot 0 None 0.
Definition empty_nameset : elpis_nameset_t := mkNameset [] 0 [] 0 0 0.

(** ** Operations *)

(** [for (j = h & mask; slot[j].name != NULL; j = (j + 1) & mask)]: the index
    of the slot [find] points to. *)
Fixpoint find_loop (fuel : nat) (s : elpis_nameset_t) (d : list Z) (len h j : Z) : res Z :=
  match fuel with
  | O => Stuck OutOfFuel
  | S f =>
    sl ← rd (ns_slot s) j;
    match ns_name sl with
    | None => Ok j
    | Some off =>
      hit ← (if (ns_hash sl =? h) && (ns_len sl =? len) then
               nm ← rds (ns_wire s) off len; elpis_eq_ci d nm len
             else Ok false);
      if (hit : bool) then Ok j else find_loop f s d len h (Z.land (j + 1) (ns_mask s))
    end
  end.
Definition find (s : elpis_nameset_t) (d : list Z) (len h : Z) : res Z :=
  find_loop (length (ns_slot s)) s d len h (Z.land h (ns_mask s)).

(** [while (slots < 2 * n) slots <<= 1;] *)
Fixpoint slots_loop (fuel : nat) (slots n : Z) : res Z :=
  match fuel with
  | O => Stuck OutOfFuel
  | S f => if slots <? 2 * n then slots_loop f (u64 (Z.shiftl slots 1)) n else Ok slots
  end.

(** One turn of the loop over the texts; [total] is the size of [s->wire]. *)
Definition build_step (total : Z) (s : elpis_nameset_t) (t : list Z) : res elpis_nameset_t :=
  m ← try (elpis_name_from_text (Some t));
  match m with
  | None => Ok s
  | Some nm =>
    if n_labels nm =? 0 then Ok s
    else
      nm ← elpis_name_lower nm;
      h ← elpis_simd_hash_ci (n_d nm) (n_len nm) SEED;
      j ← find s (n_d nm) (n_len nm) h;
      sl ← rd (ns_slot s) j;
      match ns_name sl with
      | Some _ => Ok s
      | None =>
        bs ← rds (n_d nm) 0 (n_len nm);
        let used := zlen (ns_wire s) in
        if total <? used + n_len nm then Stuck OutOfBounds
        else
          slot ← blit (ns_slot s) j [mkNSlot h (Some used) (n_len nm)];
          Ok (mkNameset slot (ns_mask s) (ns_wire s ++ bs) (ns_count s + 1)
                (if n_labels nm <? ns_min_labels s then n_labels nm else ns_min_labels s)
                (if ns_max_labels s <? n_labels nm then n_labels nm else ns_max_labels s))
      end
  end.

Fixpoint build_loop (total : Z) (s : elpis_nameset_t) (names : list (list Z)) : res elpis_nameset_t :=
  match names with
  | [] => Ok s
  | t :: names => s ← build_step total s t; build_loop total s names
  end.

(** [for (i = 0; i < n; i++) total += strlen(names[i]) + 2;] *)
Definition total_size (names : list (list Z)) : Z := foldr (fun t acc => zlen t + 2 + acc) 0 names.

(** [mem] is whether both allocations succeed. *)
Definition elpis_nameset_build (mem : bool) (names : list (list Z)) : res elpis_nameset_t :=
  let total := total_size names in
  slots ← slots_loop 64 4 (zlen names);
  if negb mem then Ok empty_nameset
  else build_loop total
         (mkNameset (replicate (Z.to_nat slots) empty_slot) (slots - 1) [] 0 ELPIS_MAX_LABELS 0) names.

(** [for (labels = qname->labels; labels >= s->min_labels; labels--)] *)
Fixpoint match_loop (fuel : nat) (s : elpis_nameset_t) (qname : elpis_name_t) (labels off : Z) : res Z :=
  match fuel with
  | O => Stuck OutOfFuel
  | S f =>
    if ns_min_labels s <=? labels then
      if n_len qname <=? off then Ok 0
      else
        c ← rd (n_d qname) off;
        if c =? 0 then Ok 0
        else
          hit ← (if labels <=? ns_max_labels s then
                   let len := n_len qname - off in
                   d ← rds (n_d qname) off len;
                   h ← elpis_simd_hash_ci d len SEED;
                   j ← find s d len h;
                   sl ← rd (ns_slot s) j;
                   Ok (match ns_name sl with Some _ => true | None => false end)
                 else Ok false);
          if (hit : bool) then Ok labels else match_loop f s qname (labels - 1) (off + (1 + c))
    else Ok 0
  end.

Definition elpis_nameset_match (s : elpis_nameset_t) (qname : elpis_name_t) : res Z :=
  if ns_count s =? 0 then Ok 0 else match_loop 256 s qname (n_labels qname) 0.

(** ** What a table holds *)

(** The names a list of texts stands for. *)
Definition listed (names : list (list Z)) (ls : list (list Z)) : Prop :=
  ∃ t, t ∈ names ∧ elpis_name_from_text (Some t) = Ok (name_of ls) ∧ labels_ok ls ∧ ls ≠ [].

Definition occupied (s : elpis_nameset_t) (j : Z) : Prop :=
  ∃ sl off, ns_slot s !! Z.to_nat j = Some sl ∧ ns_name sl = Some off.

(** Slot [j] holds the (folded) name [ls]. *)
Definition key_at (s : elpis_nameset_t) (j : Z) (ls : list (list Z)) : Prop :=
  ∃ sl off, ns_slot s !! Z.to_nat j = Some sl ∧ ns_name sl = Some off ∧
    ns_len sl = zlen (wire ls) ∧ rds (ns_wire s) off (zlen (wire ls)) = Ok (wire ls) ∧
    elpis_simd_hash_ci (wire ls) (zlen (wire ls)) SEED = Ok (ns_hash sl).

Definition nslots (s : elpis_nameset_t) : Z := zlen (ns_slot s).

(** [j] is reached from hash [h] through occupied slots only. *)
Definition chained (s : elpis_nameset_t) (h j : Z) : Prop :=
  ∃ k, 0 <= k < nslots s ∧ j = (h + k) mod nslots s ∧
    ∀ i, 0 <= i < k → occupied s ((h + i) mod nslots s).

Definition is_key (L : list (list (list Z))) (ls : list (list Z)) : Prop :=
  ls ∈ L ∧ labels_ok ls ∧ ls ≠ [] ∧ fold_labels ls = ls.

Record table_ok (s : elpis_nameset_t) (L : list (list (list Z))) : Prop := {
  to_size : ∃ k, 0 <= k <= 60 ∧ nslots s = 2 ^ k;
  to_mask : ns_mask s = nslots s - 1;
  to_keys : ∀ ls, ls ∈ L → is_key L ls;
  to_slots : ∀ j, 0 <= j → occupied s j → ∃ ls, ls ∈ L ∧ key_at s j ls;
  to_chain : ∀ ls, ls ∈ L → ∃ j h, elpis_simd_hash_ci (wire ls) (zlen (wire ls)) SEED = Ok h ∧
                              key_at s j ls ∧ chained s h j;
  to_room : Z.of_nat (length (filter (fun sl => is_Some (ns_name sl)) (ns_slot s))) = zlen L;
  to_count : ns_count s = zlen L;
  to_bounds : ∀ ls, ls ∈ L → ns_min_labels s <= zlen ls <= ns_max_labels s;
  to_min : 1 <= ns_min_labels s }.

(** ** Probing *)

Lemma land_mask x k n : 0 <= k → n = 2 ^ k → Z.land x (n - 1) = x mod n.
Proof. intros ? ->. rewrite <- Z.land_ones by done. f_equal. rewrite Z.ones_equiv. lia. Qed.

Lemma mod_step h i n : 0 < n → ((h + i) mod n + 1) mod n = (h + (i + 1)) mod n.
Proof. intros. rewrite Zplus_mod_idemp_l. f_equal. lia. Qed.

Lemma key_at_slot s j ls sl off :
  key_at s j ls → ns_slot s !! Z.to_nat j = Some sl → ns_name sl = Some off →
  ns_len sl = zlen (wire ls) ∧ rds (ns_wire s) off (zlen (wire ls)) = Ok (wire ls) ∧
  elpis_simd_hash_ci (wire ls) (zlen (wire ls)) SEED = Ok (ns_hash sl).
Proof. intros (sl' & off' & Hs & Hn & ?) Hs' Hn'. simplify_eq. done. Qed.

Lemma fold_eq_zlen a b : fold_eq a b → zlen a = zlen b.
Proof. unfold fold_eq. intros H. rewrite <- (zlen_map lower_byte a), H. apply zlen_map. Qed.

(** The comparison a probe makes of a slot that holds [ls]. *)
Lemma probe_hit s j ls d h sl off :
  bytes d → labels_ok ls → elpis_simd_hash_ci d (zlen d) SEED = Ok h →
  key_at s j ls → ns_slot s !! Z.to_nat j = Some sl → ns_name sl = Some off →
  (if (ns_hash sl =? h) && (ns_len sl =? zlen d) then
     nm ← rds (ns_wire s) off (zlen d); elpis_eq_ci d nm (zlen d)
   else Ok false) = Ok (bool_decide (fold_eq d (wire ls))).
Proof.
  intros Hd [Hls _] Hh Hk Hs Hn. destruct (key_at_slot _ _ _ _ _ Hk Hs Hn) as (El & Er & Eh).
  pose proof (zlen_nonneg d).
  destruct ((ns_hash sl =? h) && (ns_len sl =? zlen d)) eqn:E.
  - apply andb_true_iff in E as [_ E]. apply Z.eqb_eq in E. rewrite <- E, El, Er. cbn [mbind res_bind].
    rewrite eq_ci_spec; [|done|by apply bytes_wire|apply zlen_nonneg|lia|lia].
    rewrite (slice_0_all d) by lia. by rewrite (slice_0_all (wire ls)) by lia.
  - rewrite bool_decide_eq_false_2; [done|]. intros Hf. apply fold_eq_zlen in Hf as Hz.
    destruct (hash_ci_congr d (wire ls) (zlen d) SEED) as (h' & H1 & H2);
      [done|by apply bytes_wire|lia|lia|lia| |].
    { rewrite (slice_0_all d) by lia. by rewrite (slice_0_all (wire ls)) by lia. }
    rewrite Hz in H2. assert (ns_hash sl = h) as Ehash by congruence.
    rewrite El, Hz, Ehash, !Z.eqb_refl in E. done.
Qed.

Section Probe.

Context (s : elpis_nameset_t) (L : list (list (list Z))) (d : list Z) (h : Z).
Hypothesis (Hok : table_ok s L) (Hd : bytes d).
Hypothesis (Hh : elpis_simd_hash_ci d (zlen d) SEED = Ok h).

Let pos i := (h + i) mod nslots s.

Lemma nslots_pos : 0 < nslots s.
Proof. destruct (to_size _ _ Hok) as (k & ? & ->). apply Z.pow_pos_nonneg; lia. Qed.

Lemma pos_range i : 0 <= pos i < nslots s.
Proof. apply Z.mod_pos_bound, nslots_pos. Qed.

Lemma pos_mask i : Z.land (pos i + 1) (ns_mask s) = pos (i + 1).
Proof.
  destruct (to_size _ _ Hok) as (k & ? & Hk). rewrite (to_mask _ _ Hok), (land_mask _ k) by (done || lia).
  apply mod_step, nslots_pos.
Qed.

(** A free slot ends the walk. *)
Lemma find_loop_spec fuel i e :
  0 <= i <= e → e - i < Z.of_nat fuel → ¬ occupied s (pos e) →
  ∃ k, i <= k <= e ∧ find_loop fuel s d (zlen d) h (pos i) = Ok (pos k) ∧
    (∀ i', i <= i' < k → ∃ ls, ls ∈ L ∧ key_at s (pos i') ls ∧ ¬ fold_eq d (wire ls)) ∧
    (¬ occupied s (pos k) ∨ ∃ ls, ls ∈ L ∧ key_at s (pos k) ls ∧ fold_eq d (wire ls)).
Proof.
  revert i. induction fuel as [|f IH]; intros i Hi Hf He; [lia|]. cbn [find_loop].
  pose proof (pos_range i) as Hr.
  destruct (rd_in_range (ns_slot s) (pos i)) as (sl & -> & Hs); [exact Hr|]. cbn [mbind res_bind].
  destruct (ns_name sl) as [off|] eqn:Hn.
  - destruct (to_slots _ _ Hok (pos i)) as (ls & HL & Hk); [lia|by exists sl, off|].
    destruct (to_keys _ _ Hok ls HL) as (_ & Hlok & _).
    rewrite (probe_hit s (pos i) ls) by done. cbn [mbind res_bind].
    case_bool_decide as Hm.
    + exists i. split; [lia|]. split; [done|]. split; [lia|]. right. eauto.
    + rewrite pos_mask. assert (i ≠ e) by (intros ->; apply He; by exists sl, off).
      destruct (IH (i + 1)) as (k & ? & -> & Hall & Hend); [lia|lia|done|].
      exists k. split; [lia|]. split; [done|]. split; [|done].
      intros i' ?. destruct (decide (i' = i)) as [->|]; [by eauto|apply Hall; lia].
  - exists i. split; [lia|]. split; [done|]. split; [lia|]. left.
    intros (sl' & off & Hs' & Hn'). simplify_eq.
Qed.

End Probe.

(** ** Room *)

Lemma filter_lt_exists {A} (P : A → Prop) `{∀ x, Decision (P x)} (l : list A) :
  (length (filter P l) < length l)%nat → ∃ i x, l !! i = Some x ∧ ¬ P x.
Proof.
  induction l as [|x l IH]; [cbn; lia|]. rewrite filter_cons. destruct (decide (P x)) as [Hp|Hp].
  - cbn [length]. intros ?. destruct IH as (i & y & ? & ?); [lia|]. by exists (S i), y.
  - intros _. by exists O, x.
Qed.

Lemma filter_insert_length {A} (P : A → Prop) `{∀ x, Decision (P x)} (l : list A) i x y :
  l !! i = Some y → ¬ P y → P x → length (filter P (<[i:=x]> l)) = S (length (filter P l)).
Proof.
  revert i. induction l as [|z l IH]; intros [|i] Hl Hy Hx; try done; cbn [list_insert insert].
  - injection Hl as ->. change (<[0%nat:=x]> (y :: l)) with (x :: l).
    rewrite !filter_cons, decide_True, decide_False by done. done.
  - cbn in Hl. change (<[S i:=x]> (z :: l)) with (z :: <[i:=x]> l). rewrite !filter_cons.
    destruct (decide (P z)); [apply (f_equal S)|]; by apply IH.
Qed.

Lemma free_slot s L :
  table_ok s L → zlen L < nslots s → ∃ e, 0 <= e < nslots s ∧ ¬ occupied s e.
Proof.
  intros Hok Hlt. pose proof (to_room _ _ Hok) as Hr.
  destruct (filter_lt_exists (fun sl => is_Some (ns_name sl)) (ns_slot s)) as (i & x & Hi & Hx);
    [unfold nslots, zlen in Hlt; unfold zlen in Hr; lia|].
  exists (Z.of_nat i). apply lookup_lt_Some in Hi as ?. split; [unfold nslots; zl|].
  intros (sl & off & Hs & Hn). rewrite Nat2Z.id in Hs. simplify_eq. apply Hx. by eexists.
Qed.

Lemma chained_unique s L ls d h k :
  table_ok s L → ls ∈ L → fold_eq d (wire ls) → bytes d → elpis_simd_hash_ci d (zlen d) SEED = Ok h →
  0 <= k → ¬ occupied s ((h + k) mod nslots s) →
  ∃ k', 0 <= k' < k ∧ key_at s ((h + k') mod nslots s) ls.
Proof.
  intros Hok HL Hf Hd Hh Hk Hfree. destruct (to_keys _ _ Hok ls HL) as (_ & [Hls _] & _).
  destruct (to_chain _ _ Hok ls HL) as (j & h' & Hh' & Hkey & k' & ? & -> & Hocc).
  assert (h' = h) as ->.
  { apply fold_eq_zlen in Hf as Hz.
    destruct (hash_ci_congr d (wire ls) (zlen d) SEED) as (g & G1 & G2);
      [done|by apply bytes_wire|apply zlen_nonneg|lia|lia| |].
    { rewrite (slice_0_all d) by lia. by rewrite (slice_0_all (wire ls)) by lia. }
    rewrite Hz in G2. congruence. }
  exists k'. split; [|done]. destruct (Z_lt_le_dec k' k); [lia|]. exfalso. apply Hfree.
  destruct (Z.eq_dec k k') as [->|].
  - destruct Hkey as (sl & off & ? & ? & _). by exists sl, off.
  - apply Hocc. lia.
Qed.

(** What [find] returns: the slot of the name, or the free slot it would go
    in. *)
Lemma find_spec s L d h :
  table_ok s L → zlen L < nslots s → bytes d → elpis_simd_hash_ci d (zlen d) SEED = Ok h →
  ∃ j, find s d (zlen d) h = Ok j ∧ 0 <= j < nslots s ∧
    ((∃ ls, ls ∈ L ∧ key_at s j ls ∧ fold_eq d (wire ls)) ∨
     (¬ occupied s j ∧ chained s h j ∧ ∀ ls, ls ∈ L → ¬ fold_eq d (wire ls))).
Proof.
  intros Hok Hroom Hd Hh. destruct (free_slot s L Hok Hroom) as (e & He & Hfree).
  pose proof (nslots_pos s L Hok) as HN. set (N := nslots s) in *.
  assert (0 <= (e - h) mod N < N) as Hk by (by apply Z.mod_pos_bound).
  assert ((h + (e - h) mod N) mod N = e) as Epos.
  { rewrite Zplus_mod_idemp_r. replace (h + (e - h)) with e by lia. by apply Z.mod_small. }
  destruct (find_loop_spec s L d h Hok Hd Hh (length (ns_slot s)) 0 ((e - h) mod N))
    as (k & Hkr & Hf & Hbefore & Hend);
    [lia|subst N; unfold nslots, zlen in *; lia|by fold N; rewrite Epos|].
  fold N in Hf, Hbefore, Hend. exists ((h + k) mod N). split; [|split; [by apply Z.mod_pos_bound|]].
  { unfold find. destruct (to_size _ _ Hok) as (b & ? & Hb).
    rewrite (to_mask _ _ Hok), (land_mask _ b) by (done || lia). fold N. rewrite <- Hf.
    f_equal. by rewrite Z.add_0_r. }
  destruct Hend as [Hfree'|]; [|by left]. right. split; [done|]. split.
  - exists k. split; [lia|]. split; [done|]. intros i Hi.
    destruct (Hbefore i Hi) as (ls & _ & (sl & off & ? & ? & _) & _). by exists sl, off.
  - intros ls HL Hm.
    destruct (chained_unique s L ls d h k) as (k' & ? & Hkey'); [done..|lia|done|].
    destruct (Hbefore k') as (ls' & HL' & Hkey & Hne); [lia|]. apply Hne.
    destruct Hkey as (sl & off & Hs & Hn & El & Er & _).
    destruct (key_at_slot _ _ _ _ _ Hkey' Hs Hn) as (El' & Er' & _).
    assert (wire ls' = wire ls) as -> by congruence. done.
Qed.

(** ** Insertion *)

Definition insert_at (s : elpis_nameset_t) (j h mn mx : Z) (ls : list (list Z)) : elpis_nameset_t :=
  mkNameset (splice (ns_slot s) j [mkNSlot h (Some (zlen (ns_wire s))) (zlen (wire ls))])
    (ns_mask s) (ns_wire s ++ wire ls) (ns_count s + 1) mn mx.

Lemma splice_insert {A} (l : list A) j x :
  0 <= j < zlen l → splice l j [x] = <[Z.to_nat j := x]> l.
Proof.
  intros. unfold splice. rewrite insert_take_drop by zl.
  rewrite zlen_cons, zlen_nil. replace (Z.to_nat (j + (1 + 0))) with (S (Z.to_nat j)) by lia. done.
Qed.

Section Insert.

Context (s : elpis_nameset_t) (L : list (list (list Z))) (j h mn mx : Z) (ls : list (list Z)).
Hypothesis (Hok : table_ok s L) (Hj : 0 <= j < nslots s) (Hfree : ¬ occupied s j).
Hypothesis (Hls : labels_ok ls) (Hne : ls ≠ []) (Hfold : fold_labels ls = ls).
Hypothesis (Hhash : elpis_simd_hash_ci (wire ls) (zlen (wire ls)) SEED = Ok h).
Hypothesis (Hchain : chained s h j).

Let s' := insert_at s j h mn mx ls.

Lemma ins_slots : ns_slot s' = <[Z.to_nat j := mkNSlot h (Some (zlen (ns_wire s))) (zlen (wire ls))]> (ns_slot s).
Proof. unfold s', insert_at. cbn [ns_slot]. by apply splice_insert. Qed.

Lemma ins_nslots : nslots s' = nslots s.
Proof. unfold nslots. rewrite ins_slots. unfold zlen. by rewrite length_insert. Qed.

Lemma ins_lookup_ne i : 0 <= i → i ≠ j → ns_slot s' !! Z.to_nat i = ns_slot s !! Z.to_nat i.
Proof. intros. rewrite ins_slots. apply list_lookup_insert_ne. lia. Qed.

Lemma ins_lookup_eq : ns_slot s' !! Z.to_nat j = Some (mkNSlot h (Some (zlen (ns_wire s))) (zlen (wire ls))).
Proof. rewrite ins_slots. apply list_lookup_insert_eq. unfold nslots in Hj. zl. Qed.

Lemma ins_occupied i : 0 <= i → occupied s i → occupied s' i.
Proof.
  intros Hi Ho. destruct (decide (i = j)) as [->|]; [done|].
  destruct Ho as (sl & off & ? & ?). exists sl, off. by rewrite ins_lookup_ne.
Qed.

Lemma ins_key_new : key_at s' j ls.
Proof.
  eexists _, _. split; [exact ins_lookup_eq|]. split; [done|]. split; [done|]. split; [|done].
  cbn [ns_wire s' insert_at]. rewrite <- (app_nil_r (wire ls)) at 1. apply rds_at_end.
Qed.

Lemma ins_key_old i ls0 : 0 <= i → key_at s i ls0 → key_at s' i ls0.
Proof.
  intros Hi (sl & off & Hs & Hn & El & Er & Eh).
  assert (i ≠ j) by (intros ->; apply Hfree; by exists sl, off).
  exists sl, off. rewrite ins_lookup_ne by done. do 3 (split; [done|]). split; [|done].
  by apply rds_app_mono.
Qed.

Lemma ins_chained g i : chained s g i → chained s' g i.
Proof.
  intros (k & Hk & -> & Ho). exists k. rewrite ins_nslots. split; [done|]. split; [done|].
  intros i ?. apply ins_occupied; [|by apply Ho]. apply Z.mod_pos_bound, (nslots_pos s L Hok).
Qed.

Lemma insert_table_ok :
  mn <= ns_min_labels s → ns_max_labels s <= mx → 1 <= mn → mn <= zlen ls <= mx →
  table_ok s' (ls :: L).
Proof.
  intros Hmn Hmx H1 Hb. split.
  - rewrite ins_nslots. apply (to_size _ _ Hok).
  - rewrite ins_nslots. apply (to_mask _ _ Hok).
  - intros x Hx. split; [done|]. apply elem_of_cons in Hx as [->|Hx]; [done|].
    by destruct (to_keys _ _ Hok x Hx) as (_ & ?).
  - intros i Hi (sl & off & Hs & Hn). destruct (decide (i = j)) as [->|].
    + exists ls. split; [left|apply ins_key_new].
    + rewrite ins_lookup_ne in Hs by done.
      destruct (to_slots _ _ Hok i Hi) as (x & ? & ?); [by exists sl, off|].
      exists x. split; [by right|by apply ins_key_old].
  - intros x Hx. apply elem_of_cons in Hx as [->|Hx].
    + exists j, h. split; [done|]. split; [apply ins_key_new|by apply ins_chained].
    + destruct (to_chain _ _ Hok x Hx) as (i & g & Hg & Hk & Hc). exists i, g. split; [done|].
      split; [|by apply ins_chained]. apply ins_key_old; [|done].
      destruct Hc as (? & _ & -> & _). apply Z.mod_pos_bound, (nslots_pos s L Hok).
  - rewrite ins_slots, zlen_cons, <- (to_room _ _ Hok).
    destruct (lookup_lt_is_Some_2 (ns_slot s) (Z.to_nat j)) as [y Hy]; [unfold nslots in Hj; zl|].
    rewrite (filter_insert_length _ _ _ _ y); [lia|done| |by eexists].
    intros [off ?]. apply Hfree. by exists y, off.
  - cbn [ns_count s' insert_at]. rewrite zlen_cons, (to_count _ _ Hok). lia.
  - intros x Hx. cbn [ns_min_labels ns_max_labels s' insert_at].
    apply elem_of_cons in Hx as [->|Hx]; [lia|]. pose proof (to_bounds _ _ Hok x Hx). lia.
  - done.
Qed.

End Insert.

(** ** Building *)

Lemma from_text_escape_len s c s' : from_text_escape s = Ok (c, s') → zlen s' < zlen s.
Proof.
  unfold from_text_escape. destruct s as [|c0 s1]; [done|].
  destruct (is_digit c0); [|intros [= <- <-]; rewrite zlen_cons; lia].
  destruct s1 as [|c1 [|c2 s3]]; try done. destruct (_ && _); [|done].
  destruct (255 <? _); [done|]. intros [= <- <-]. rewrite !zlen_cons. lia.
Qed.

(** The wire form grows by at most one octet for each octet of text. *)
Lemma from_text_loop_len fuel s d lenpos labels d' lp :
  from_text_loop fuel s d lenpos labels = Ok (d', lp) → zlen d' <= zlen d + zlen s.
Proof.
  revert s d lenpos labels. induction fuel as [|f IH]; intros s d lenpos labels H; [done|].
  cbn [from_text_loop] in H. destruct s as [|ch s]; [injection H as <- <-; rewrite zlen_nil; lia|].
  rewrite zlen_cons. destruct (ch =? ch_dot).
  - apply bind_Ok_inv in H as (v & _ & H). apply bind_Ok_inv in H as (_ & _ & H). cbv zeta in H.
    apply bind_Ok_inv in H as (_ & _ & H). destruct s as [|x s]; [injection H as <- <-; rewrite zlen_nil; lia|].
    apply bind_Ok_inv in H as (_ & _ & H). apply IH in H. rewrite zlen_app, zlen_cons, zlen_nil in H. lia.
  - apply bind_Ok_inv in H as ([c s'] & Hc & H).
    assert (zlen s' <= zlen s).
    { destruct (ch =? ch_backslash); [apply from_text_escape_len in Hc; lia|by injection Hc as <- <-]. }
    apply bind_Ok_inv in H as (v & _ & H). apply bind_Ok_inv in H as (_ & _ & H).
    apply bind_Ok_inv in H as (_ & _ & H). apply bind_Ok_inv in H as (d2 & Hd2 & H). apply IH in H.
    unfold blit in Hd2. destruct (_ && _)%bool eqn:E; [|done]. injection Hd2 as <-. bool_to_prop.
    rewrite zlen_splice, zlen_app, zlen_cons, zlen_nil in H by done. lia.
Qed.

Lemma from_text_len t n : elpis_name_from_text (Some t) = Ok n → n_len n <= zlen t + 2.
Proof.
  pose proof (zlen_nonneg t). destruct (decide (t = [])) as [->|H1]; [done|].
  destruct (decide (t = [46])) as [->|H2]; [intros [= <-]; cbn; rewrite zlen_cons, zlen_nil; lia|].
  rewrite from_text_unfold by done. intros H0.
  apply bind_Ok_inv in H0 as ([d lenpos] & Hd & H0). apply bind_Ok_inv in H0 as (v & _ & H0).
  apply bind_Ok_inv in H0 as (_ & _ & H0). apply bind_Ok_inv in H0 as ([i labels] & _ & H0).
  apply bind_Ok_inv in H0 as (_ & _ & H0). apply bind_Ok_inv in H0 as (_ & _ & H0). injection H0 as <-.
  apply from_text_loop_len in Hd. rewrite zlen_cons, zlen_nil in Hd. cbn [n_len].
  pose proof (zlen_nonneg d). unfold u8. pose proof (Z.mod_le (zlen d + 1) (2 ^ 8)). lia.
Qed.

(** The names one text adds. *)
Definition added (t : list Z) (ls : list (list Z)) : Prop :=
  ∃ ls0, elpis_name_from_text (Some t) = Ok (name_of ls0) ∧ labels_ok ls0 ∧ ls0 ≠ [] ∧ ls = fold_labels ls0.

(** After a text, the table holds what it held and what the text adds. *)
Definition absorbed (s : elpis_nameset_t) (L : list (list (list Z))) (t : list Z)
    (s' : elpis_nameset_t) (L' : list (list (list Z))) : Prop :=
  table_ok s' L' ∧ nslots s' = nslots s ∧
  zlen (ns_wire s') <= zlen (ns_wire s) + (zlen t + 2) ∧ zlen L' <= zlen L + 1 ∧
  ∀ ls, ls ∈ L' ↔ ls ∈ L ∨ added t ls.

Lemma absorbed_nothing s L t :
  table_ok s L → (∀ ls, added t ls → ls ∈ L) → absorbed s L t s L.
Proof.
  intros Hok Ha. pose proof (zlen_nonneg t). split; [done|]. split; [done|]. split; [lia|]. split; [lia|].
  intros ls. split; [by left|]. intros [?|?]; auto.
Qed.

Lemma build_step_spec total s L t :
  table_ok s L → zlen L < nslots s → bytes t → zlen (ns_wire s) + (zlen t + 2) <= total →
  ∃ s' L', build_step total s t = Ok s' ∧ absorbed s L t s' L'.
Proof.
  intros Hok Hroom Ht Htot. unfold build_step. pose proof (name_from_text_safe t Ht) as Hsafe.
  destruct (elpis_name_from_text (Some t)) as [nm|rc dr|] eqn:Et; [| |done].
  2:{ exists s, L. split; [done|]. apply absorbed_nothing; [done|].
      intros ls (ls0 & H & _). rewrite Et in H. discriminate. }
  destruct Hsafe as (ls0 & Hls0 & ->). apply from_text_len in Et as Hlen. rewrite n_len_of in Hlen.
  assert (∀ ls, added t ls ↔ ls0 ≠ [] ∧ ls = fold_labels ls0) as Hadd.
  { intros ls. split.
    - intros (ls1 & H1 & Hok1 & Hne1 & ->). rewrite Et in H1.
      assert (ls0 = ls1) as <- by (apply name_of_inj; [done..|congruence]). done.
    - intros [? ->]. exists ls0. done. }
  cbn [try mbind res_bind]. rewrite n_labels_of. destruct (Z.eqb_spec (zlen ls0) 0) as [Hz|Hz].
  { exists s, L. split; [done|]. apply absorbed_nothing; [done|]. intros ls [Hne _]%Hadd.
    destruct ls0; [done|]. rewrite zlen_cons in Hz. pose proof (zlen_nonneg ls0). lia. }
  assert (ls0 ≠ []) as Hne by (by intros ->).
  rewrite name_lower_spec by done. cbn [mbind res_bind]. rewrite n_d_of, n_len_of, n_labels_of.
  pose proof (labels_ok_fold ls0 Hls0) as Hfl. set (fl := fold_labels ls0) in *.
  destruct (hash_ci_congr (wire fl) (wire fl) (zlen (wire fl)) SEED) as (h & Hh & _);
    [apply bytes_wire, Hfl|apply bytes_wire, Hfl|apply zlen_nonneg|lia|lia|done|].
  rewrite Hh. cbn [mbind res_bind].
  destruct (find_spec s L (wire fl) h) as (j & -> & Hj & Hcase); [done|done|apply bytes_wire, Hfl|done|].
  cbn [mbind res_bind]. destruct (rd_in_range (ns_slot s) j) as (sl & -> & Hsl); [exact Hj|].
  cbn [mbind res_bind]. destruct Hcase as [(ls & HL & Hk & Hf)|(Hfree & Hchain & Hnone)].
  - destruct Hk as (sl' & off & Hs' & Hn & _). assert (sl' = sl) as -> by congruence. rewrite Hn.
    exists s, L. split; [done|]. apply absorbed_nothing; [done|]. intros x [_ ->]%Hadd.
    destruct (to_keys _ _ Hok ls HL) as (_ & Hlok & _ & Hfold).
    unfold fold_eq in Hf. rewrite !fold_wire, Hfold in Hf by (apply Hlok || apply Hfl).
    unfold fl in Hf. rewrite fold_labels_idem in Hf.
    assert (fold_labels ls0 = ls) as E by (apply wire_inj; [apply Hfl|apply Hlok|done]). by rewrite <- E in HL.
  - destruct (ns_name sl) as [off|] eqn:Hn; [exfalso; apply Hfree; by exists sl, off|].
    rewrite rds_full by done. cbn [mbind res_bind].
    assert (zlen (wire fl) = zlen (wire ls0)) as Hwl by apply zlen_wire_fold.
    zfalse (total <? zlen (ns_wire s) + zlen (wire fl)).
    rewrite blit_in_range; [|lia|rewrite zlen_cons, zlen_nil; unfold nslots in Hj; lia]. cbn [mbind res_bind].
    set (mn := if zlen fl <? ns_min_labels s then _ else _).
    set (mx := if ns_max_labels s <? zlen fl then _ else _).
    assert (zlen fl = zlen ls0) as Hzl by (unfold fl, fold_labels; apply zlen_map).
    pose proof (to_min _ _ Hok). pose proof (zlen_nonneg ls0).
    eexists (insert_at s j h mn mx fl), (fl :: L). split; [done|]. split.
    { apply insert_table_ok; try done.
      - intros E. rewrite E, zlen_nil in Hzl. lia.
      - apply fold_labels_idem.
      - subst mn. case_match; lia.
      - subst mx. case_match; lia.
      - subst mn. case_match; lia.
      - subst mn mx. repeat case_match; lia. }
    split; [by apply ins_nslots|]. split; [cbn; rewrite zlen_app; lia|]. split; [rewrite zlen_cons; lia|].
    intros ls. rewrite elem_of_cons, Hadd. split; [intros [->|?]; auto|intros [?|[_ ->]]; auto].
Qed.

Lemma build_loop_spec total names : ∀ s L,
  table_ok s L → zlen L + zlen names < nslots s → Forall bytes names →
  zlen (ns_wire s) + total_size names <= total →
  ∃ s' L', build_loop total s names = Ok s' ∧ table_ok s' L' ∧ zlen L' < nslots s' ∧
    ∀ ls, ls ∈ L' ↔ ls ∈ L ∨ ∃ t, t ∈ names ∧ added t ls.
Proof.
  induction names as [|t names IH]; intros s L Hok Hroom Hb Htot.
  { rewrite zlen_nil in Hroom. exists s, L. split; [done|]. split; [done|]. split; [lia|]. intros ls. split; [by left|].
    intros [?|(t & Ht & _)]; [done|by apply not_elem_of_nil in Ht]. }
  apply Forall_cons_iff in Hb as [Ht Hb]. rewrite zlen_cons in Hroom. cbn [total_size foldr] in Htot.
  fold (total_size names) in Htot. pose proof (zlen_nonneg names).
  assert (0 <= total_size names) by (clear; induction names as [|t names IH]; cbn; [lia|]; pose proof (zlen_nonneg t); unfold total_size in IH; lia).
  destruct (build_step_spec total s L t) as (s1 & L1 & E & Hok1 & Hn1 & Hw1 & Hl1 & Hin1); [done|lia|done|lia|].
  cbn [build_loop]. rewrite E. cbn [mbind res_bind].
  destruct (IH s1 L1) as (s2 & L2 & E2 & Hok2 & Hroom2 & Hin2); [done|lia|done|lia|].
  exists s2, L2. split; [done|]. split; [done|]. split; [done|]. intros ls. rewrite Hin2, Hin1. split.
  - intros [[?|?]|(t' & ? & ?)]; [by left|right; exists t; split; [left|done]|right; exists t'; split; [by right|done]].
  - intros [?|(t' & [->|?]%elem_of_cons & ?)]; [by do 2 left|by left; right|right; by exists t'].
Qed.

Lemma slots_loop_spec n fuel k :
  0 <= k → 0 <= n < 2 ^ 40 → 2 ^ k < 2 ^ 41 * 2 → 2 ^ 41 * 2 <= 2 ^ k * 2 ^ Z.of_nat fuel →
  ∃ m, k <= m <= 60 ∧ slots_loop fuel (2 ^ k) n = Ok (2 ^ m) ∧ 2 * n <= 2 ^ m.
Proof.
  revert k. induction fuel as [|f IH]; intros k Hk Hn Hlt Hf; [cbn in Hf; lia|]. cbn [slots_loop].
  assert (k < 42) by (apply (Z.pow_lt_mono_r_iff 2); lia).
  destruct (Z.ltb_spec (2 ^ k) (2 * n)) as [Hl|].
  - rewrite Z.shiftl_mul_pow2 by lia. change (2 ^ 1) with 2.
    assert (2 ^ k * 2 = 2 ^ (k + 1)) as E by (rewrite Z.pow_add_r by lia; lia).
    rewrite E, u64_id by (split; [apply Z.pow_nonneg; lia|apply Z.pow_lt_mono_r; lia]).
    destruct (IH (k + 1)) as (m & ? & H1 & H2); [lia|done|lia| |].
    { rewrite <- E. rewrite Nat2Z.inj_succ, Z.pow_succ_r in Hf by lia. nia. }
    exists m. split; [lia|]. done.
  - exists k. split; [lia|]. split; [done|lia].
Qed.

Lemma empty_table_ok k :
  0 <= k <= 60 →
  table_ok (mkNameset (replicate (Z.to_nat (2 ^ k)) empty_slot) (2 ^ k - 1) [] 0 ELPIS_MAX_LABELS 0) [].
Proof.
  intros Hk. pose proof (Z.pow_pos_nonneg 2 k).
  assert (nslots (mkNameset (replicate (Z.to_nat (2 ^ k)) empty_slot) (2 ^ k - 1) [] 0 ELPIS_MAX_LABELS 0)
          = 2 ^ k) as En by (unfold nslots; cbn [ns_slot]; rewrite zlen_replicate; lia).
  split; rewrite ?En; try done; try (intros ? H'; by apply not_elem_of_nil in H').
  - by exists k.
  - intros j _ (sl & off & Hs & Hn). cbn [ns_slot] in Hs. apply lookup_replicate in Hs as [-> _]. done.
  - cbn [ns_slot]. rewrite zlen_nil. generalize (Z.to_nat (2 ^ k)) as n. intros n.
    assert (filter (fun sl => is_Some (ns_name sl)) (replicate n empty_slot) = []) as ->; [|done].
    induction n as [|n IH]; [done|]. cbn [replicate]. rewrite filter_cons, decide_False; [done|]. by intros [? ?].
Qed.

Lemma build_spec names :
  Forall bytes names → zlen names < 2 ^ 40 →
  ∃ s L, elpis_nameset_build true names = Ok s ∧ table_ok s L ∧ zlen L < nslots s ∧
    ∀ ls, ls ∈ L ↔ ∃ t, t ∈ names ∧ added t ls.
Proof.
  intros Hb Hn. pose proof (zlen_nonneg names). unfold elpis_nameset_build.
  destruct (slots_loop_spec (zlen names) 64 2) as (m & ? & E & Hm); [lia|lia|lia|lia|].
  change (2 ^ 2) with 4 in E. rewrite E. cbn [mbind res_bind negb].
  pose proof (Z.pow_le_mono_r 2 2 m ltac:(lia) ltac:(lia)).
  destruct (build_loop_spec (total_size names) names _ [] (empty_table_ok m ltac:(lia)))
    as (s & L & -> & Hok & Hroom & Hin).
  - unfold nslots. cbn [ns_slot]. rewrite zlen_replicate, zlen_nil. lia.
  - done.
  - cbn [ns_wire]. rewrite zlen_nil. lia.
  - exists s, L. split; [done|]. split; [done|]. split; [done|]. intros ls. rewrite Hin. split.
    + intros [Hx|?]; [by apply not_elem_of_nil in Hx|done].
    + by right.
Qed.

(** ** Matching *)

Section Match.

Context (s : elpis_nameset_t) (L : list (list (list Z))) (q : list (list Z)).
Hypothesis (Hok : table_ok s L) (Hroom : zlen L < nslots s) (Hq : labels_ok q).

(** The suffix without the first [i] labels is in the set. *)
Definition hits (i : nat) : Prop := ∃ ls, ls ∈ L ∧ labels_eq (drop i q) ls.

Lemma hits_labels i : hits i → ns_min_labels s <= zlen q - Z.of_nat i <= ns_max_labels s.
Proof.
  intros (ls & HL & He). pose proof (to_bounds _ _ Hok ls HL). pose proof (to_min _ _ Hok).
  apply labels_eq_length in He. rewrite length_drop in He. zl.
Qed.

Lemma lookup_suffix i :
  (i < length q)%nat →
  ∃ b, (let len := n_len (name_of q) - zlen (enc_labels (take i q)) in
        d ← rds (n_d (name_of q)) (zlen (enc_labels (take i q))) len;
        h ← elpis_simd_hash_ci d len SEED;
        j ← find s d len h;
        sl ← rd (ns_slot s) j;
        Ok (match ns_name sl with Some _ => true | None => false end)) = Ok b ∧
    (b = true ↔ hits i).
Proof.
  intros Hi. cbv zeta. rewrite n_len_of, n_d_of.
  pose proof (zlen_nonneg (enc_labels (take i q))).
  pose proof (zlen_wire_drop i q). pose proof (zlen_wire_pos (drop i q)).
  rewrite rds_in_range by lia. rewrite wire_drop. cbn [mbind res_bind].
  replace (zlen (wire q) - zlen (enc_labels (take i q))) with (zlen (wire (drop i q))) by lia.
  pose proof (labels_ok_drop i q Hq) as [Hd _]. pose proof (bytes_wire _ Hd) as Hdb.
  destruct (hash_ci_congr (wire (drop i q)) (wire (drop i q)) (zlen (wire (drop i q))) SEED) as (h & Hh & _);
    [done|done|lia|lia|lia|done|].
  rewrite Hh. cbn [mbind res_bind].
  destruct (find_spec s L (wire (drop i q)) h) as (j & -> & Hj & Hcase); [done..|].
  cbn [mbind res_bind]. destruct (rd_in_range (ns_slot s) j) as (sl & -> & Hsl); [exact Hj|].
  cbn [mbind res_bind]. eexists. split; [done|].
  assert (∀ ls, ls ∈ L → fold_eq (wire (drop i q)) (wire ls) ↔ labels_eq (drop i q) ls) as Heq.
  { intros ls HL. destruct (to_keys _ _ Hok ls HL) as (_ & [? _] & _). by apply labels_eq_wire. }
  destruct Hcase as [(ls & HL & (sl' & off & ? & Hn & _) & Hf)|(Hfree & _ & Hnone)].
  - assert (sl' = sl) as -> by congruence. rewrite Hn. split; [|done]. intros _. exists ls. split; [done|]. by apply Heq.
  - destruct (ns_name sl) as [off|] eqn:Hn; [exfalso; apply Hfree; by exists sl, off|].
    split; [done|]. intros (ls & HL & He). exfalso. apply (Hnone ls HL). by apply Heq.
Qed.

Lemma match_loop_spec fuel i :
  (i <= length q)%nat → (length q - i < fuel)%nat →
  ∃ r, match_loop fuel s (name_of q) (zlen q - Z.of_nat i) (zlen (enc_labels (take i q))) = Ok r ∧
    ((∃ k, (i <= k)%nat ∧ r = zlen q - Z.of_nat k ∧ hits k ∧ ∀ k', (i <= k' < k)%nat → ¬ hits k') ∨
     (r = 0 ∧ ∀ k, (i <= k)%nat → ¬ hits k)).
Proof.
  revert i. induction fuel as [|f IH]; intros i Hi Hf; [lia|]. cbn [match_loop].
  destruct (Z.leb_spec (ns_min_labels s) (zlen q - Z.of_nat i)).
  2:{ exists 0. split; [done|]. right. split; [done|]. intros k ? ?%hits_labels. lia. }
  rewrite n_len_of. pose proof (zlen_wire_drop i q). pose proof (zlen_wire_pos (drop i q)).
  zfalse (zlen (wire q) <=? zlen (enc_labels (take i q))). rewrite n_d_of.
  pose proof (to_min _ _ Hok).
  destruct (lookup_lt_is_Some_2 q i) as [l Hl]; [zl|]. apply lookup_lt_Some in Hl as Hlt.
  rewrite (rd_wire_at q i l Hl). cbn [mbind res_bind].
  assert (label_ok l) as [[? _] _] by (eapply Forall_lookup_1; [apply Hq|exact Hl]). zfalse (zlen l =? 0).
  destruct (lookup_suffix i Hlt) as (b & Eb & Hb). rewrite n_len_of, n_d_of in Eb. cbv zeta in *.
  assert (∃ b, (if zlen q - Z.of_nat i <=? ns_max_labels s then
           d ← rds (wire q) (zlen (enc_labels (take i q))) (zlen (wire q) - zlen (enc_labels (take i q)));
           h ← elpis_simd_hash_ci d (zlen (wire q) - zlen (enc_labels (take i q))) SEED;
           j ← find s d (zlen (wire q) - zlen (enc_labels (take i q))) h;
           sl ← rd (ns_slot s) j;
           Ok (match ns_name sl with Some _ => true | None => false end)
         else Ok false) = Ok b ∧ (b = true ↔ hits i)) as (b' & -> & Hb').
  { destruct (Z.leb_spec (zlen q - Z.of_nat i) (ns_max_labels s)); [by exists b|].
    exists false. split; [done|]. split; [done|]. intros ?%hits_labels. lia. }
  cbn [mbind res_bind]. destruct b'.
  { eexists. split; [done|]. left. exists i. split; [lia|]. split; [done|]. split; [by apply Hb'|lia]. }
  destruct (IH (S i)) as (r & E & Hr); [lia|lia|].
  rewrite (enc_take_S _ _ _ Hl), zlen_app, zlen_enc_label in E.
  replace (zlen q - Z.of_nat i - 1) with (zlen q - Z.of_nat (S i)) by lia. rewrite E.
  assert (¬ hits i) as Hni by (intros ?%Hb'; done).
  exists r. split; [done|]. destruct Hr as [(k & ? & -> & Hk & Hlow)|(-> & Hall)]; [left|right].
  - exists k. split; [lia|]. split; [done|]. split; [done|]. intros k' ?.
    destruct (decide (k' = i)) as [->|]; [done|apply Hlow; lia].
  - split; [done|]. intros k ?. destruct (decide (k = i)) as [->|]; [done|apply Hall; lia].
Qed.

Lemma match_spec :
  ∃ r, elpis_nameset_match s (name_of q) = Ok r ∧
    ((∃ k, r = zlen q - Z.of_nat k ∧ hits k ∧ ∀ k', (k' < k)%nat → ¬ hits k') ∨
     (r = 0 ∧ ∀ k, ¬ hits k)).
Proof.
  unfold elpis_nameset_match. destruct (Z.eqb_spec (ns_count s) 0) as [Hc|Hc].
  - exists 0. split; [done|]. right. split; [done|]. intros k (ls & HL & _).
    rewrite (to_count _ _ Hok) in Hc. destruct L as [|x L']; [by apply not_elem_of_nil in HL|].
    rewrite zlen_cons in Hc. pose proof (zlen_nonneg L'). lia.
  - pose proof (zlen_labels_of_ok q Hq). rewrite n_labels_of.
    destruct (match_loop_spec 256 0) as (r & E & Hr); [lia|unfold zlen in *; lia|].
    rewrite Z.sub_0_r in E. change (zlen (enc_labels (take 0 q))) with 0 in E. exists r. split; [exact E|].
    destruct Hr as [(k & ? & -> & ? & Hlow)|(-> & Hall)]; [left|right].
    + exists k. split; [done|]. split; [done|]. intros ??. apply Hlow. lia.
    + split; [done|]. intros ?. apply Hall. lia.
Qed.

End Match.

(** The table's folded keys, read as the listed names. *)
Lemma hits_listed L names q k :
  (∀ ls, ls ∈ L ↔ ∃ t, t ∈ names ∧ added t ls) →
  hits L q k ↔ ∃ ls, listed names ls ∧ labels_eq (drop k q) ls.
Proof.
  intros HL. split.
  - intros (ls & (t & Ht & ls0 & Hp & Hok & Hne & ->)%HL & He). exists ls0.
    split; [by exists t|]. unfold labels_eq in *. by rewrite fold_labels_idem in He.
  - intros (ls & (t & Ht & Hp & Hok & Hne) & He). exists (fold_labels ls).
    split; [apply HL; exists t; split; [done|by exists ls]|]. unfold labels_eq in *. by rewrite fold_labels_idem.
Qed.

Lemma listed_nonempty names ls : listed names ls → 0 < zlen ls.
Proof. intros (_ & _ & _ & _ & Hne). destruct ls; [done|]. rewrite zlen_cons. pose proof (zlen_nonneg ls). lia. Qed.

Lemma suffix_of_drop q ls k :
  0 < zlen ls → labels_eq (drop k q) ls → labels_suffix ls q ∧ zlen ls = zlen q - Z.of_nat k.
Proof.
  intros Hpos He. apply labels_eq_length in He as Hl. rewrite length_drop in Hl.
  split; [|zl]. split; [lia|]. by replace (length q - length ls)%nat with k by zl.
Qed.

(** ** Properties *)

(** C38. Build, then ask: for any list of texts the table is built without a
    fault, every probe sequence ends, and [elpis_nameset_match] returns the
    number of labels of the deepest listed name that the question is or is
    below, in any case, and 0 exactly when there is none.  Texts that are not
    names, the root and repeated names are skipped. *)
Theorem nameset_match_deepest (names : list (list Z)) (q : list (list Z)) :
  Forall bytes names → zlen names < 2 ^ 40 → labels_ok q →
  ∃ s r, elpis_nameset_build true names = Ok s ∧ elpis_nameset_match s (name_of q) = Ok r ∧
    ((∃ ls, listed names ls ∧ labels_suffix ls q ∧ r = zlen ls ∧
        ∀ ls', listed names ls' → labels_suffix ls' q → zlen ls' <= r) ∨
     (r = 0 ∧ ∀ ls, listed names ls → ¬ labels_suffix ls q)).
Proof.
  intros Hb Hn Hq. destruct (build_spec names Hb Hn) as (s & L & Hs & Hok & Hroom & HL).
  destruct (match_spec s L q Hok Hroom Hq) as (r & Hr & Hcase). exists s, r.
  split; [done|]. split; [done|]. destruct Hcase as [(k & -> & Hk & Hlow)|(-> & Hall)].
  - apply (hits_listed L names q k HL) in Hk as (ls & Hls & He). left. exists ls.
    apply listed_nonempty in Hls as Hpos. destruct (suffix_of_drop q ls k Hpos He) as [Hsuf Hz].
    split; [done|]. split; [done|]. split; [lia|]. intros ls' Hls' [Hle He'].
    destruct (Z_le_gt_dec (zlen ls') (zlen q - Z.of_nat k)) as [|Hgt]; [done|exfalso].
    apply (Hlow (length q - length ls')%nat); [zl|]. apply (hits_listed L names q _ HL). by exists ls'.
  - right. split; [done|]. intros ls Hls [_ He]. apply (Hall (length q - length ls)%nat).
    apply (hits_listed L names q _ HL). by exists ls.
Qed.

(** "c", "B.C.", an unreadable text; asked about a.b.c. *)
Lemma nameset_match_deepest_witness :
  ∃ s r, elpis_nameset_build true [[99]; [66;46;67;46]; [46;46]] = Ok s ∧
    elpis_nameset_match s (name_of [[97];[98];[99]]) = Ok r ∧
    ((∃ ls, listed [[99]; [66;46;67;46]; [46;46]] ls ∧ labels_suffix ls [[97];[98];[99]] ∧ r = zlen ls ∧
        ∀ ls', listed [[99]; [66;46;67;46]; [46;46]] ls' → labels_suffix ls' [[97];[98];[99]] → zlen ls' <= r) ∨
     (r = 0 ∧ ∀ ls, listed [[99]; [66;46;67;46]; [46;46]] ls → ¬ labels_suffix ls [[97];[98];[99]])).
Proof. apply (nameset_match_deepest [[99]; [66;46;67;46]; [46;46]] [[97];[98];[99]]); by_compute. Defined.

(** The same table and question, evaluated. *)
Example nameset_example :
  (s ← elpis_nameset_build true [[99]; [66;46;67;46]; [46;46]];
   elpis_nameset_match s (name_of [[97];[98];[99]])) = Ok 2.
Proof. by vm_compute. Qed.
