(* ===== verification/Text.v ===== *)
(** Text and numbers: the string half of src/util.c, with the decimal and
    hexadecimal conversions of the C library's printf it is used with.

    A C string is the list of its octets before the NUL; [None] is the null
    pointer.  A parser returns [None] for the code's -1. *)
From stdpp Require Import base list numbers.
From Stdlib Require Import ZArith Lia Ascii String.
From S2P Require Import Prelude Bytes Simd Name NameText.

#[local] Open Scope Z_scope.

(** A string literal of the source. *)
Fixpoint str (s : string) : list Z :=
  match s with
  | EmptyString => []
  | String c s => Z.of_nat (nat_of_ascii c) :: str s
  end.
Arguments str s%_string.

(** ** Definitions *)

(** [*s]: the NUL at the end. *)
Definition cur (s : list Z) : Z := match s with [] => 0 | c :: _ => c end.

(** [while ( *s == ' ' || *s == '\t') s++;] *)
Definition is_blank (c : Z) : bool := (c =? 32) || (c =? 9).
Fixpoint skip_blanks (s : list Z) : list Z :=
  match s with
  | c :: s' => if is_blank c then skip_blanks s' else s
  | [] => []
  end.

(** The loop advances both strings; a NUL ends it. *)
Fixpoint elpis_strcasecmp_ascii (a b : list Z) : Z :=
  match a, b with
  | [], [] => 0
  | [], c :: _ => 0 - lower_byte c
  | c :: _, [] => lower_byte c
  | ca :: a, cb :: b =>
    if negb (lower_byte ca =? lower_byte cb) then lower_byte ca - lower_byte cb
    else if lower_byte ca =? 0 then 0
    else elpis_strcasecmp_ascii a b
  end.

(** The digit loop [elpis_parse_u32] and [elpis_parse_duration] share: the
    value, the number of digits and the text left. *)
Fixpoint u32_digits (s : list Z) (v digits : Z) : option (Z * Z * list Z) :=
  match s with
  | c :: s' =>
    if is_digit c then
      let v := u64 (v * 10 + (c - ch_0)) in
      if 0xFFFFFFFF <? v then None else u32_digits s' v (digits + 1)
    else Some (v, digits, s)
  | [] => Some (v, digits, [])
  end.

Definition elpis_parse_u32 (s : option (list Z)) : option Z :=
  match s with
  | None => None
  | Some s =>
    '(v, digits, s) ← u32_digits (skip_blanks s) 0 0;
    let s := skip_blanks s in
    if (digits =? 0) || negb (cur s =? 0) then None else Some (u32 v)
  end.

Fixpoint size_digits (s : list Z) (v digits : Z) : option (Z * Z * list Z) :=
  match s with
  | c :: s' =>
    if is_digit c then
      let nv := u64 (v * 10 + (c - ch_0)) in
      if nv <? v then None else size_digits s' nv (digits + 1)
    else Some (v, digits, s)
  | [] => Some (v, digits, [])
  end.

(** The [switch ( *s)] of [elpis_parse_size]: the multiplier and the text
    after it. *)
Definition size_suffix (s : list Z) : Z * list Z :=
  let c := cur s in
  if (c =? 107) || (c =? 75) then (1024, tail s)
  else if (c =? 109) || (c =? 77) then (1024 * 1024, tail s)
  else if (c =? 103) || (c =? 71) then (1024 * 1024 * 1024, tail s)
  else if (c =? 116) || (c =? 84) then (1024 * 1024 * 1024 * 1024, tail s)
  else (1, s).

Definition elpis_parse_size (s : option (list Z)) : option Z :=
  match s with
  | None => None
  | Some s =>
    '(v, digits, s) ← size_digits (skip_blanks s) 0 0;
    if digits =? 0 then None
    else
      let '(mul, s) := size_suffix s in
      let s := if (cur s =? 98) || (cur s =? 66) then tail s else s in
      let s := skip_blanks s in
      if negb (cur s =? 0) then None
      else if 0xFFFFFFFFFFFFFFFF / mul <? v then None
      else Some (u64 (v * mul))
  end.

Definition duration_suffix (s : list Z) : Z * list Z :=
  let c := cur s in
  if (c =? 115) || (c =? 83) then (1, tail s)
  else if (c =? 109) || (c =? 77) then (60, tail s)
  else if (c =? 104) || (c =? 72) then (3600, tail s)
  else if (c =? 100) || (c =? 68) then (86400, tail s)
  else if (c =? 119) || (c =? 87) then (604800, tail s)
  else (1, s).

Definition elpis_parse_duration (s : option (list Z)) : option Z :=
  match s with
  | None => None
  | Some s =>
    '(v, digits, s) ← u32_digits (skip_blanks s) 0 0;
    if digits =? 0 then None
    else
      let '(mul, s) := duration_suffix s in
      let s := skip_blanks s in
      if negb (cur s =? 0) then None
      else
        let v := u64 (v * mul) in
        Some (u32 (if 0xFFFFFFFF <? v then 0xFFFFFFFF else v))
  end.

Definition elpis_parse_bool (s : option (list Z)) : option bool :=
  match s with
  | None => None
  | Some s =>
    let same t := elpis_strcasecmp_ascii s (str t) =? 0 in
    if same "yes"%string || same "true"%string || same "on"%string || bool_decide (s = str "1") then Some true
    else if same "no"%string || same "false"%string || same "off"%string || bool_decide (s = str "0") then Some false
    else None
  end.

(** [for (i = 0; i < n; i++) d |= x[i] ^ y[i];] *)
Fixpoint ct_loop (fuel : nat) (a b : list Z) (i n d : Z) : res Z :=
  match fuel with
  | O => Stuck OutOfFuel
  | S f =>
    if i <? n then
      x ← rd a i; y ← rd b i;
      ct_loop f a b (i + 1) n (u8 (Z.lor d (Z.lxor x y)))
    else Ok d
  end.
Definition elpis_ct_memcmp (a b : list Z) (n : Z) : res bool :=
  d ← ct_loop (S (Z.to_nat n)) a b 0 n 0; Ok (negb (d =? 0)).

(** *** printf's [%u] and [%x] *)

Definition digit_char (d : Z) : Z := if d <? 10 then ch_0 + d else 97 + (d - 10).

(** The digits of [v] in [base], most significant first. *)
Fixpoint digits_of (fuel : nat) (base v : Z) (acc : list Z) : list Z :=
  match fuel with
  | O => acc
  | S f =>
    let acc := digit_char (v mod base) :: acc in
    if v <? base then acc else digits_of f base (v / base) acc
  end.

(** 64 digits are enough for any 64-bit value. *)
Definition fmt_u (v : Z) : list Z := digits_of 64 10 v [].
Definition fmt_x (v : Z) : list Z := digits_of 64 16 v [].

(** ** The meaning of numerals *)

Definition all_digits (ds : list Z) : Prop := Forall (fun c => is_digit c = true) ds.
Definition all_blank (s : list Z) : Prop := Forall (fun c => is_blank c = true) s.
Definition dec_from (v : Z) (ds : list Z) : Z := fold_left (fun v c => v * 10 + (c - ch_0)) ds v.
Definition dec (ds : list Z) : Z := dec_from 0 ds.

(** A C string holds no NUL. *)
Definition c_string (s : list Z) : Prop := Forall (fun c => 1 <= c < 256) s.

#[export] Instance all_digits_dec ds : Decision (all_digits ds).
Proof. unfold all_digits. apply _. Defined.
#[export] Instance all_blank_dec s : Decision (all_blank s).
Proof. unfold all_blank. apply _. Defined.
#[export] Instance c_string_dec s : Decision (c_string s).
Proof. unfold c_string. apply _. Defined.

(** ** Scanning *)

Lemma blank_not_digit c : is_blank c = true → is_digit c = false.
Proof. unfold is_blank, is_digit, ch_0, ch_9. intros. bool_to_prop. apply andb_false_iff. rewrite !Z.leb_gt. lia. Qed.

Lemma skip_blanks_app b s : all_blank b → is_blank (cur s) = false → skip_blanks (b ++ s) = s.
Proof.
  intros Hb Hs. induction Hb as [|c b Hc _ IH]; cbn.
  - destruct s as [|c s]; [done|]. cbn in *. by rewrite Hs.
  - by rewrite Hc.
Qed.

Lemma skip_blanks_split s : ∃ b, s = b ++ skip_blanks s ∧ all_blank b ∧ is_blank (cur (skip_blanks s)) = false.
Proof.
  induction s as [|c s (b & E & Hb & Hs)]; [exists []; split_and!; [done|constructor|done]|]. cbn [skip_blanks]. destruct (is_blank c) eqn:Hc.
  - exists (c :: b). split; [cbn; by f_equal|]. split; [by constructor|done].
  - exists []. split_and!; [done|constructor|done].
Qed.

Lemma digits_split s : ∃ ds r, s = ds ++ r ∧ all_digits ds ∧ is_digit (cur r) = false.
Proof.
  induction s as [|c s (ds & r & -> & Hd & Hr)]; [exists [], []; split_and!; [done|constructor|done]|]. destruct (is_digit c) eqn:Hc.
  - exists (c :: ds), r. split; [done|]. split; [by constructor|done].
  - exists [], (c :: ds ++ r). split_and!; [done|constructor|done].
Qed.

Lemma dec_from_mono v ds : 0 <= v → all_digits ds → v <= dec_from v ds.
Proof.
  intros Hv Hd. revert v Hv. induction Hd as [|c ds Hc _ IH]; intros v Hv; cbn; [lia|].
  apply is_digit_range in Hc. unfold ch_0 in *. specialize (IH (v * 10 + (c - 48))). unfold dec_from, ch_0 in IH. lia.
Qed.

Lemma u32_digits_spec ds r v n :
  all_digits ds → is_digit (cur r) = false → 0 <= v <= 0xFFFFFFFF →
  u32_digits (ds ++ r) v n =
    if dec_from v ds <=? 0xFFFFFFFF then Some (dec_from v ds, n + zlen ds, r) else None.
Proof.
  intros Hd Hr. revert v n. induction Hd as [|c ds Hc Hd IH]; intros v n Hv.
  - cbn [app dec_from fold_left]. ztrue (v <=? 0xFFFFFFFF). rewrite zlen_nil, Z.add_0_r.
    destruct r as [|c r]; [done|]. cbn in Hr |- *. by rewrite Hr.
  - cbn [app u32_digits]. rewrite Hc. apply is_digit_range in Hc. cbv zeta.
    rewrite u64_id by (unfold ch_0; lia). change (dec_from v (c :: ds)) with (dec_from (v * 10 + (c - ch_0)) ds).
    destruct (Z.ltb_spec 0xFFFFFFFF (v * 10 + (c - ch_0))) as [Hlt|Hle].
    + pose proof (dec_from_mono (v * 10 + (c - ch_0)) ds ltac:(unfold ch_0 in *; lia) Hd). by zfalse (dec_from (v * 10 + (c - ch_0)) ds <=? 0xFFFFFFFF).
    + rewrite IH by (unfold ch_0 in *; lia). rewrite zlen_cons. by replace (n + 1 + zlen ds) with (n + (1 + zlen ds)) by lia.
Qed.

Lemma cur_nul s : c_string s → cur s = 0 → s = [].
Proof. destruct s as [|c s]; [done|]. intros Hs E. apply Forall_cons_iff in Hs as [Hc _]. cbn in E. lia. Qed.

Lemma digit_not_blank c : is_digit c = true → is_blank c = false.
Proof. intros Hd. destruct (is_blank c) eqn:E; [|done]. apply blank_not_digit in E. congruence. Qed.

Lemma cur_app_ne s r : s ≠ [] → cur (s ++ r) = cur s.
Proof. by destruct s. Qed.

Lemma all_blank_not_digit b : all_blank b → is_digit (cur b) = false.
Proof. destruct 1 as [|c b Hc]; [done|]. by apply blank_not_digit. Qed.

Lemma digits_head ds : all_digits ds → ds ≠ [] → is_digit (cur ds) = true.
Proof. by destruct 1. Qed.

Lemma skip_blanks_all b : all_blank b → skip_blanks b = [].
Proof. intros Hb. rewrite <- (app_nil_r b). by apply skip_blanks_app. Qed.

Lemma parse_u32_complete b1 ds b2 :
  all_blank b1 → all_digits ds → ds ≠ [] → all_blank b2 → dec ds < 2 ^ 32 →
  elpis_parse_u32 (Some (b1 ++ ds ++ b2)) = Some (dec ds).
Proof.
  intros Hb1 Hd Hne Hb2 Hv. unfold elpis_parse_u32. pose proof (dec_from_mono 0 ds ltac:(lia) Hd).
  rewrite skip_blanks_app; [|done|rewrite cur_app_ne by done; by apply digit_not_blank, digits_head].
  rewrite u32_digits_spec; [|done|by apply all_blank_not_digit|lia]. fold (dec ds) in *.
  ztrue (dec ds <=? 0xFFFFFFFF). cbn [mbind option_bind]. rewrite skip_blanks_all by done. cbn [cur].
  assert (0 < zlen ds) by (destruct ds; [done|rewrite zlen_cons; pose proof (zlen_nonneg ds); lia]).
  zfalse (0 + zlen ds =? 0). cbn. by rewrite u32_id by lia.
Qed.

Lemma parse_u32_sound s v :
  c_string s → elpis_parse_u32 (Some s) = Some v →
  ∃ b1 ds b2, s = b1 ++ ds ++ b2 ∧ all_blank b1 ∧ all_digits ds ∧ ds ≠ [] ∧ all_blank b2 ∧
    v = dec ds ∧ v < 2 ^ 32.
Proof.
  intros Hs. unfold elpis_parse_u32. destruct (skip_blanks_split s) as (b1 & E1 & Hb1 & _).
  destruct (digits_split (skip_blanks s)) as (ds & r & E2 & Hd & Hr).
  rewrite E2, u32_digits_spec by (done || lia). fold (dec ds).
  destruct (Z.leb_spec (dec ds) 0xFFFFFFFF); [|done]. cbn [mbind option_bind].
  destruct (skip_blanks_split r) as (b2 & E3 & Hb2 & _).
  destruct (0 + zlen ds =? 0) eqn:Hz; [done|]. destruct (negb (cur (skip_blanks r) =? 0)) eqn:Hc; [done|].
  cbn [orb]. intros [= <-]. bool_to_prop.
  assert (skip_blanks r = []) as E4.
  { apply cur_nul; [|done]. rewrite E1, E2 in Hs. apply Forall_app in Hs as [_ Hs].
    apply Forall_app in Hs as [_ Hs]. rewrite E3 in Hs. by apply Forall_app in Hs as [_ Hs]. }
  rewrite E4, app_nil_r in E3. subst b2. exists b1, ds, r.
  pose proof (dec_from_mono 0 ds ltac:(lia) Hd). fold (dec ds) in *.
  rewrite u32_id by lia. rewrite E1, E2. split; [done|]. split; [done|]. split; [done|].
  split; [intros ->; cbn in Hz; done|]. split; [done|]. split; [done|lia].
Qed.

(** ** Durations *)

(** The unit letters and their seconds. *)
Definition unit_of (c : Z) : option Z :=
  if bool_decide (c ∈ str "sS") then Some 1
  else if bool_decide (c ∈ str "mM") then Some 60
  else if bool_decide (c ∈ str "hH") then Some 3600
  else if bool_decide (c ∈ str "dD") then Some 86400
  else if bool_decide (c ∈ str "wW") then Some 604800
  else None.

(** [s] spells a suffix worth [mul]. *)
Definition unit_text (s : list Z) (mul : Z) : Prop :=
  (s = [] ∧ mul = 1) ∨ ∃ c, s = [c] ∧ unit_of c = Some mul.

Lemma in_two (c a b : Z) : bool_decide (c ∈ [a; b]) = (c =? a) || (c =? b).
Proof.
  apply eq_true_iff_eq. rewrite bool_decide_eq_true, orb_true_iff, !Z.eqb_eq.
  rewrite !elem_of_cons. split; [intros [|[|H]]; auto; by apply not_elem_of_nil in H|tauto].
Qed.

Lemma unit_of_eq c :
  unit_of c = if (c =? 115) || (c =? 83) then Some 1
              else if (c =? 109) || (c =? 77) then Some 60
              else if (c =? 104) || (c =? 72) then Some 3600
              else if (c =? 100) || (c =? 68) then Some 86400
              else if (c =? 119) || (c =? 87) then Some 604800 else None.
Proof. unfold unit_of. cbn [str]. by rewrite !in_two. Qed.

Lemma duration_suffix_spec s :
  ∃ u mul, unit_text u mul ∧ s = u ++ snd (duration_suffix s) ∧ fst (duration_suffix s) = mul ∧ 1 <= mul <= 604800.
Proof.
  unfold duration_suffix. destruct s as [|c s]; [exists [], 1; split_and!; (done || by left)|].
  cbn [cur tail]. pose proof (unit_of_eq c) as Hu.
  repeat match type of Hu with _ = (if ?b then _ else _) => destruct b end;
    try (eexists [c], _; split_and!; [right; by exists c|done|done|lia|lia]).
  exists [], 1. split_and!; (done || lia || by left).
Qed.

Lemma duration_suffix_unit u mul b :
  unit_text u mul → all_blank b → duration_suffix (u ++ b) = (mul, b) ∧ 1 <= mul <= 604800.
Proof.
  intros [[-> ->]|(c & -> & Hu)] Hb.
  - split; [|lia]. unfold duration_suffix. destruct Hb as [|c b Hc Hb]; [done|]. cbn [app cur tail].
    unfold is_blank in Hc. apply orb_true_iff in Hc. rewrite !Z.eqb_eq in Hc.
    repeat match goal with |- context [(c =? ?k)] => replace (c =? k) with false by (symmetry; apply Z.eqb_neq; lia) end.
    done.
  - rewrite unit_of_eq in Hu. unfold duration_suffix. cbn [app cur tail].
    repeat match type of Hu with (if ?b then _ else _) = _ => destruct b end; try done;
      injection Hu as <-; (split; [done|lia]).
Qed.

Lemma unit_not_digit u mul b : unit_text u mul → all_blank b → is_digit (cur (u ++ b)) = false.
Proof.
  intros [[-> ->]|(c & -> & Hu)] Hb; [by apply all_blank_not_digit|]. cbn [app cur].
  destruct (is_digit c) eqn:E; [|done]. apply is_digit_range in E. rewrite unit_of_eq in Hu.
  repeat match type of Hu with (if ?b then _ else _) = _ => destruct b eqn:?; [bool_to_prop; lia|] end. done.
Qed.

Lemma parse_duration_value v mul :
  0 <= v < 2 ^ 32 → 1 <= mul <= 604800 →
  u32 (if 0xFFFFFFFF <? u64 (v * mul) then 0xFFFFFFFF else u64 (v * mul)) = Z.min (v * mul) 0xFFFFFFFF.
Proof. intros. rewrite u64_id by nia. destruct (Z.ltb_spec 0xFFFFFFFF (v * mul)); rewrite u32_id by nia; lia. Qed.

Lemma parse_duration_complete b1 ds u mul b2 :
  all_blank b1 → all_digits ds → ds ≠ [] → unit_text u mul → all_blank b2 → dec ds < 2 ^ 32 →
  elpis_parse_duration (Some (b1 ++ ds ++ u ++ b2)) = Some (Z.min (dec ds * mul) 0xFFFFFFFF).
Proof.
  intros Hb1 Hd Hne Hu Hb2 Hv. unfold elpis_parse_duration. pose proof (dec_from_mono 0 ds ltac:(lia) Hd).
  rewrite skip_blanks_app; [|done|rewrite cur_app_ne by done; by apply digit_not_blank, digits_head].
  rewrite u32_digits_spec; [|done|by eapply unit_not_digit|lia]. fold (dec ds) in *.
  ztrue (dec ds <=? 0xFFFFFFFF). cbn [mbind option_bind].
  assert (0 < zlen ds) by (destruct ds; [done|rewrite zlen_cons; pose proof (zlen_nonneg ds); lia]).
  zfalse (0 + zlen ds =? 0). destruct (duration_suffix_unit u mul b2 Hu Hb2) as [-> Hm].
  cbn [cur]. rewrite skip_blanks_all by done. cbn [cur Z.eqb negb]. cbv zeta. by rewrite parse_duration_value.
Qed.

Lemma parse_duration_sound s d :
  c_string s → elpis_parse_duration (Some s) = Some d →
  ∃ b1 ds u mul b2, s = b1 ++ ds ++ u ++ b2 ∧ all_blank b1 ∧ all_digits ds ∧ ds ≠ [] ∧ unit_text u mul ∧
    all_blank b2 ∧ dec ds < 2 ^ 32 ∧ d = Z.min (dec ds * mul) 0xFFFFFFFF.
Proof.
  intros Hs. unfold elpis_parse_duration. destruct (skip_blanks_split s) as (b1 & E1 & Hb1 & _).
  destruct (digits_split (skip_blanks s)) as (ds & r & E2 & Hd & Hr).
  rewrite E2, u32_digits_spec by (done || lia). fold (dec ds).
  destruct (Z.leb_spec (dec ds) 0xFFFFFFFF); [|done]. cbn [mbind option_bind].
  destruct (Z.eqb_spec (0 + zlen ds) 0) as [|Hz]; [done|].
  destruct (duration_suffix_spec r) as (u & mul & Hu & E3 & Em & Hm).
  destruct (duration_suffix r) as [m t]. cbn [fst snd] in *. subst m.
  destruct (skip_blanks_split t) as (b2 & E4 & Hb2 & _).
  destruct (negb (cur (skip_blanks t) =? 0)) eqn:Hc; [done|]. bool_to_prop. cbv zeta.
  pose proof (dec_from_mono 0 ds ltac:(lia) Hd). fold (dec ds) in *.
  rewrite parse_duration_value by lia. intros [= <-].
  assert (skip_blanks t = []) as E5.
  { apply cur_nul; [|done]. rewrite E1, E2, E3, E4 in Hs. by repeat apply Forall_app in Hs as [_ Hs]. }
  rewrite E5, app_nil_r in E4. subst b2. exists b1, ds, u, mul, t.
  rewrite E1, E2, E3. split_and!; try done; [by intros ->|lia].
Qed.

(** ** Comparisons *)

Lemma strcasecmp_spec a b :
  c_string a → c_string b → elpis_strcasecmp_ascii a b = 0 ↔ map lower_byte a = map lower_byte b.
Proof.
  assert (∀ c, 1 <= c < 256 → 1 <= lower_byte c) as Hpos.
  { intros c ?. unfold lower_byte, ch_A, ch_Z. case_match; [|lia]. bool_to_prop. rewrite u8_id; zl. }
  intros Ha. revert b. induction Ha as [|x a Hx Ha IH]; intros [|y b] Hb; cbn [elpis_strcasecmp_ascii map].
  - done.
  - apply Forall_cons_iff in Hb as [Hy _]. specialize (Hpos y Hy). split; [lia|done].
  - specialize (Hpos x Hx). split; [lia|done].
  - apply Forall_cons_iff in Hb as [Hy Hb]. specialize (Hpos x Hx).
    destruct (Z.eqb_spec (lower_byte x) (lower_byte y)) as [E|E]; cbn [negb].
    + zfalse (lower_byte x =? 0). rewrite IH by done. rewrite E. split; [by intros ->|by intros [=]].
    + split; [lia|by intros [=]].
Qed.

Lemma ct_loop_spec fuel a b i n d :
  bytes a → bytes b → 0 <= i <= n → n <= zlen a → n <= zlen b → n - i < Z.of_nat fuel → byte d →
  ∃ r, ct_loop fuel a b i n d = Ok r ∧ byte r ∧
    (r = 0 ↔ d = 0 ∧ slice a i (n - i) = slice b i (n - i)).
Proof.
  intros Ha Hb. revert i d. induction fuel as [|f IH]; intros i d Hi Hna Hnb Hf Hd; [lia|]. cbn [ct_loop].
  destruct (Z.ltb_spec i n).
  - destruct (rd_in_range a i) as (x & Hx & Lx); [lia|]. destruct (rd_in_range b i) as (y & Hy & Ly); [lia|].
    rewrite Hx. cbn [mbind res_bind]. rewrite Hy. cbn [mbind res_bind].
    pose proof (Forall_lookup_1 _ _ _ _ Ha Lx) as Bx. pose proof (Forall_lookup_1 _ _ _ _ Hb Ly) as By.
    destruct (IH (i + 1) (u8 (Z.lor d (Z.lxor x y)))) as (r & -> & Br & Hr); [lia..|apply u8_byte|].
    exists r. split; [done|]. split; [done|]. rewrite Hr.
    assert (byte (Z.lxor x y)) as Bxy.
    { unfold byte in *. split; [apply Z.lxor_nonneg; lia|]. destruct (Z.eq_dec (Z.lxor x y) 0) as [->|]; [lia|].
      apply Z.log2_lt_cancel. change (Z.log2 256) with 8. pose proof (Z.log2_lxor x y).
      pose proof (Z.log2_le_mono x 255). pose proof (Z.log2_le_mono y 255). change (Z.log2 255) with 7 in *. lia. }
    rewrite u8_id by (apply byte_lor; done). rewrite Z.lor_eq_0_iff, Z.lxor_eq_0_iff.
    replace (n - i) with (1 + (n - (i + 1))) by lia. rewrite !(slice_split _ i 1) by lia.
    rewrite (slice_cons_rd a i 1 x), (slice_cons_rd b i 1 y) by (done || lia).
    replace (1 - 1) with 0 by lia. rewrite !slice_0. cbn [app].
    split; [by intros [[-> ->] ->]|intros [-> [= -> ->]]; done].
  - exists d. split; [done|]. split; [done|]. replace (n - i) with 0 by lia. rewrite !slice_0. tauto.
Qed.

Lemma ct_memcmp_spec a b n :
  bytes a → bytes b → 0 <= n → n <= zlen a → n <= zlen b →
  elpis_ct_memcmp a b n = Ok (bool_decide (slice a 0 n ≠ slice b 0 n)).
Proof.
  intros Ha Hb Hn Hna Hnb. unfold elpis_ct_memcmp.
  destruct (ct_loop_spec (S (Z.to_nat n)) a b 0 n 0) as (r & -> & _ & Hr); [done|done|lia|lia|lia|lia|by unfold byte|].
  cbn [mbind res_bind]. rewrite Z.sub_0_r in Hr. f_equal. apply eq_true_iff_eq.
  rewrite bool_decide_eq_true, negb_true_iff, Z.eqb_neq. tauto.
Qed.

(** ** printf *)

(** The value of [ds], most significant digit first. *)
Definition value (base : Z) (ds : list Z) : Z := fold_left (fun v d => v * base + d) ds 0.

Lemma value_snoc base ds d : value base (ds ++ [d]) = value base ds * base + d.
Proof. unfold value. by rewrite fold_left_app. Qed.

Lemma digits_of_spec fuel base v acc :
  2 <= base → 0 <= v < base ^ Z.of_nat fuel → (0 < fuel)%nat →
  ∃ ds, digits_of fuel base v acc = map digit_char ds ++ acc ∧ Forall (fun d => 0 <= d < base) ds ∧
    value base ds = v ∧ ds ≠ [] ∧ (v < base → ds = [v]) ∧
    (base <= v → ∃ d ds', ds = d :: ds' ∧ 0 < d) ∧
    ∀ k, 0 < k → v < base ^ k → zlen ds <= k.
Proof.
  revert v acc. induction fuel as [|f IH]; intros v acc Hb Hv Hf; [lia|]. cbn [digits_of].
  pose proof (Z.mod_pos_bound v base ltac:(lia)).
  destruct (Z.ltb_spec v base) as [Hlt|Hge].
  - exists [v mod base]. rewrite Z.mod_small by lia. split; [done|]. split; [repeat constructor; lia|].
    split; [unfold value; cbn [fold_left]; lia|]. split; [done|]. split; [done|]. split; [lia|].
    intros k Hk _. rewrite zlen_cons, zlen_nil. lia.
  - assert (0 <= v / base) by (apply Z.div_pos; lia).
    assert (f ≠ 0)%nat as Hf0 by (intros ->; cbn in Hv; lia).
    destruct (IH (v / base) (digit_char (v mod base) :: acc)) as (ds & -> & Hds & Hval & Hne & Hsmall & Hbig & Hlen);
      [done| |lia|].
    { rewrite Nat2Z.inj_succ, Z.pow_succ_r in Hv by lia. split; [lia|]. apply Z.div_lt_upper_bound; lia. }
    exists (ds ++ [v mod base]). split; [by rewrite map_app, <- app_assoc|].
    split; [apply Forall_app; split; [done|repeat constructor; lia]|].
    split; [rewrite value_snoc, Hval; pose proof (Z.div_mod v base); lia|].
    split; [by destruct ds|]. split; [lia|].
    assert (1 <= v / base) as Hq by (apply Z.div_le_lower_bound; lia).
    split.
    + intros _. destruct (Z_lt_le_dec (v / base) base) as [Hs|Hs].
      * rewrite (Hsmall Hs). exists (v / base), [v mod base]. split; [done|lia].
      * destruct (Hbig Hs) as (d & ds' & -> & ?). by exists d, (ds' ++ [v mod base]).
    + intros k Hk Hvk. rewrite zlen_app, zlen_cons, zlen_nil.
      assert (k ≠ 1) by (intros ->; rewrite Z.pow_1_r in Hvk; lia).
      assert (zlen ds <= k - 1); [|lia]. apply Hlen; [lia|].
      apply Z.div_lt_upper_bound; [lia|]. rewrite <- Z.pow_succ_r by lia. by replace (Z.succ (k - 1)) with k by lia.
Qed.

Lemma digit_char_10 d : 0 <= d < 10 → digit_char d = ch_0 + d.
Proof. intros. unfold digit_char. by ztrue (d <? 10). Qed.

Lemma dec_map ds : Forall (fun d => 0 <= d < 10) ds → dec (map digit_char ds) = value 10 ds.
Proof.
  intros Hd. unfold dec, dec_from, value. generalize 0. induction Hd as [|d ds Hd _ IH]; intros v; [done|].
  cbn [map fold_left]. rewrite digit_char_10 by done. rewrite IH. do 2 f_equal. lia.
Qed.

(** [%u]: the shortest decimal numeral. *)
Lemma fmt_u_spec v :
  0 <= v < 2 ^ 64 →
  all_digits (fmt_u v) ∧ fmt_u v ≠ [] ∧ dec (fmt_u v) = v ∧
  (cur (fmt_u v) = ch_0 → fmt_u v = [ch_0]) ∧ (∀ k, 0 < k → v < 10 ^ k → zlen (fmt_u v) <= k).
Proof.
  intros Hv. unfold fmt_u.
  destruct (digits_of_spec 64 10 v []) as (ds & -> & Hds & Hval & Hne & Hsmall & Hbig & Hlen); [lia|lia|lia|].
  rewrite app_nil_r. split_and!.
  - apply Forall_map. eapply Forall_impl; [|exact Hds]. intros d ?. cbv beta in *.
    rewrite digit_char_10 by done. unfold is_digit, ch_0, ch_9. apply andb_true_iff. rewrite !Z.leb_le. lia.
  - by destruct ds.
  - by rewrite dec_map.
  - intros Hc. destruct (Z_lt_le_dec v 10) as [Hs|Hs].
    + rewrite (Hsmall Hs) in Hc |- *. cbn in Hc |- *. by rewrite Hc.
    + destruct (Hbig Hs) as (d & ds' & -> & ?). apply Forall_cons_iff in Hds as [Hd _]. cbn in Hc.
      rewrite digit_char_10 in Hc by lia. unfold ch_0 in Hc. lia.
  - intros k ??. rewrite zlen_map. by apply Hlen.
Qed.

Lemma all_digits_c_string ds : all_digits ds → c_string ds.
Proof. apply Forall_impl. intros c Hc%is_digit_range. cbv beta. lia. Qed.

(** ** Properties *)

(** Reading a number: [elpis_parse_u32] accepts exactly the texts that are
    blanks, one or more decimal digits worth less than 2^32 and blanks, with
    their value, and [elpis_parse_duration] the same with at most one unit
    letter after the digits; it then gives the value in seconds, cut at 2^32 - 1. *)
Theorem parse_numbers_exact (s : list Z) :
  c_string s →
  (∀ v, elpis_parse_u32 (Some s) = Some v ↔
     ∃ b1 ds b2, s = b1 ++ ds ++ b2 ∧ all_blank b1 ∧ all_digits ds ∧ ds ≠ [] ∧ all_blank b2 ∧
       v = dec ds ∧ v < 2 ^ 32) ∧
  (∀ d, elpis_parse_duration (Some s) = Some d ↔
     ∃ b1 ds u mul b2, s = b1 ++ ds ++ u ++ b2 ∧ all_blank b1 ∧ all_digits ds ∧ ds ≠ [] ∧ unit_text u mul ∧
       all_blank b2 ∧ dec ds < 2 ^ 32 ∧ d = Z.min (dec ds * mul) 0xFFFFFFFF).
Proof.
  intros Hs. split; intros v; split.
  - by apply parse_u32_sound.
  - intros (b1 & ds & b2 & -> & ? & ? & ? & ? & -> & ?). by apply parse_u32_complete.
  - by apply parse_duration_sound.
  - intros (b1 & ds & u & mul & b2 & -> & ? & ? & ? & ? & ? & ? & ->). by apply parse_duration_complete.
Qed.

(** " 90m" as a number and as a duration. *)
Lemma parse_numbers_exact_witness :
  (∀ v, elpis_parse_u32 (Some (str " 90m")) = Some v ↔
     ∃ b1 ds b2, str " 90m" = b1 ++ ds ++ b2 ∧ all_blank b1 ∧ all_digits ds ∧ ds ≠ [] ∧ all_blank b2 ∧
       v = dec ds ∧ v < 2 ^ 32) ∧
  elpis_parse_duration (Some (str " 90m")) = Some 5400.
Proof.
  destruct (parse_numbers_exact (str " 90m")) as [Hu Hd]; [by_compute|]. split; [exact Hu|].
  apply Hd. exists [32], [57; 48], [109], 60, []. split; [done|]. split; [by_compute|]. split; [by_compute|].
  split; [done|]. split; [right; by exists 109|]. split; [by_compute|]. split; by vm_compute.
Defined.

(** A size of 2^64 octets or more should be refused.  The digit loop of
    [elpis_parse_size] looks for overflow with [nv < v], which a product that
    wraps past the old value escapes: thirty exa-octets are accepted, as
    11.5. *)
Theorem parse_size_wraps :
  elpis_parse_size (Some (str "30000000000000000000")) = Some 11553255926290448384 ∧
  dec (str "30000000000000000000") = 30000000000000000000 ∧ 2 ^ 64 <= 30000000000000000000.
Proof. split_and!; by vm_compute. Qed.

(** [elpis_ct_memcmp] returns 0 exactly when the first [n] octets agree,
    after reading exactly those octets whatever they are. *)
Theorem ct_memcmp_exact (a b : list Z) (n : Z) :
  bytes a → bytes b → 0 <= n → n <= zlen a → n <= zlen b →
  elpis_ct_memcmp a b n = Ok (bool_decide (slice a 0 n ≠ slice b 0 n)).
Proof. apply ct_memcmp_spec. Qed.

Lemma ct_memcmp_exact_witness :
  elpis_ct_memcmp [1; 2; 3] [1; 2; 7] 2 = Ok (bool_decide (slice [1; 2; 3] 0 2 ≠ slice [1; 2; 7] 0 2)).
Proof. apply (ct_memcmp_exact [1; 2; 3] [1; 2; 7] 2); by_compute. Defined.
