(* ===== verification/Addr.v ===== *)
(** Address literals and prefixes: the second half of src/util.c.

    Texts are C strings as in Text.v; [None] is the return value -1. *)
From Stdlib Require Import String.
From stdpp Require Import base list numbers.
From Stdlib Require Import ZArith Lia.
From S2P Require Import Prelude Bytes Simd Name NameText Ecs Text.

(** ** Definitions *)

Definition ch_colon : Z := 58.
Definition ch_lbrack : Z := 91.
Definition ch_rbrack : Z := 93.
Definition ch_at : Z := 64.
Definition ch_slash : Z := 47.

(** *** IPv4 *)

(** The [for (;;)] of [elpis_pton4]; the end of the list is the NUL. *)
Fixpoint pton4_loop (s : list Z) (octet val digits : Z) (tmp : list Z) : option (list Z) :=
  match s with
  | c :: s =>
    if is_digit c then
      if digits =? 3 then None
      else if (digits =? 1) && (val =? 0) then None
      else
        let val := val * 10 + (c - ch_0) in
        if 255 <? val then None else pton4_loop s octet val (digits + 1) tmp
    else if c =? ch_dot then
      if (digits =? 0) || (3 <? octet) then None
      else if octet + 1 =? 4 then None
      else pton4_loop s (octet + 1) 0 0 (tmp ++ [u8 val])
    else None
  | [] =>
    if (digits =? 0) || (3 <? octet) then None
    else if negb (octet + 1 =? 4) then None
    else Some (tmp ++ [u8 val])
  end.
Definition elpis_pton4 (s : list Z) : option (list Z) := pton4_loop s 0 0 0 [].

(** [snprintf(buf, sz, "%u.%u.%u.%u", ...)]. *)
Definition elpis_ntop4 (ip : list Z) (sz : Z) : res (option (list Z)) :=
  a ← rd ip 0; b ← rd ip 1; c ← rd ip 2; d ← rd ip 3;
  let t := fmt_u a ++ ch_dot :: fmt_u b ++ ch_dot :: fmt_u c ++ ch_dot :: fmt_u d in
  Ok (if (0 <? zlen t) && (zlen t <? sz) then Some t else None).

(** *** IPv6 *)

Definition is_xdigit (c : Z) : bool :=
  is_digit c || ((97 <=? c) && (c <=? 102)) || ((65 <=? c) && (c <=? 70)).
Definition xdigit_value (c : Z) : Z :=
  if is_digit c then c - ch_0 else if (97 <=? c) && (c <=? 102) then c - 97 + 10 else c - 65 + 10.

(** [while (isxdigit( *s))]; [None] for more than four digits. *)
Fixpoint hex_group (s : list Z) (group digits : Z) : option (Z * Z * list Z) :=
  match s with
  | c :: s' =>
    if is_xdigit c then
      let group := Z.lor (u32 (Z.shiftl group 4)) (xdigit_value c) in
      if 4 <? digits + 1 then None else hex_group s' group (digits + 1)
    else Some (group, digits, s)
  | [] => Some (group, digits, [])
  end.

(** From the label [done]: [have] octets before the gap, [after] behind it. *)
Definition pton6_done (have : list Z) (gap : bool) (after : list Z) : option (list Z) :=
  if negb gap then (if negb (zlen have =? 16) then None else Some have)
  else if 14 <? zlen have + zlen after then None
  else Some (have ++ zeros (16 - zlen have - zlen after) ++ after).

(** The [for (;;)]; [dst] and [cnt] select [after] once the gap is seen. *)
Fixpoint pton6_loop (fuel : nat) (s have : list Z) (gap : bool) (after : list Z) : res (option (list Z)) :=
  match fuel with
  | O => Stuck OutOfFuel
  | S f =>
    let cnt := zlen (if gap then after else have) in
    match hex_group s 0 0 with
    | None => Ok None
    | Some (group, digits, s') =>
      if (cur s' =? ch_dot) && (0 <? digits) then
        if 16 <? cnt + 4 then Ok None
        else match elpis_pton4 s with
             | None => Ok None
             | Some v4 =>
               Ok (if gap then pton6_done have gap (after ++ v4) else pton6_done (have ++ v4) gap after)
             end
      else if digits =? 0 then Ok None
      else if 16 <? cnt + 2 then Ok None
      else
        let two := [u8 (Z.shiftr group 8); u8 group] in
        let have := if gap then have else have ++ two in
        let after := if gap then after ++ two else after in
        if cur s' =? 0 then Ok (pton6_done have gap after)
        else if negb (cur s' =? ch_colon) then Ok None
        else
          let s := tail s' in
          if cur s =? ch_colon then
            if gap then Ok None
            else
              let s := tail s in
              if cur s =? 0 then Ok (pton6_done have true after)
              else pton6_loop f s have true after
          else pton6_loop f s have gap after
    end
  end.

Definition elpis_pton6 (s : list Z) : res (option (list Z)) :=
  if cur s =? ch_colon then
    if negb (cur (tail s) =? ch_colon) then Ok None
    else
      let s := tail (tail s) in
      if cur s =? 0 then Ok (pton6_done [] true [])
      else pton6_loop (S (length s)) s [] true []
  else pton6_loop (S (length s)) s [] false [].

(** [for (i = 0; i < 8; i++) g[i] = ...] *)
Definition groups_of (ip : list Z) : res (list Z) :=
  let g i := a ← rd ip (i * 2); b ← rd ip (i * 2 + 1); Ok (u16 (Z.lor (Z.shiftl a 8) b)) in
  g0 ← g 0; g1 ← g 1; g2 ← g 2; g3 ← g 3; g4 ← g 4; g5 ← g 5; g6 ← g 6; g7 ← g 7;
  Ok [g0; g1; g2; g3; g4; g5; g6; g7].

(** The search for the longest run of zero groups, from group [i] on. *)
Fixpoint zero_run (g : list Z) (i best bestlen cur curlen : Z) : Z * Z :=
  match g with
  | [] => (best, bestlen)
  | x :: g =>
    if x =? 0 then
      let '(cur, curlen) := if cur <? 0 then (i, 1) else (cur, curlen + 1) in
      if bestlen <? curlen then zero_run g (i + 1) cur curlen cur curlen
      else zero_run g (i + 1) best bestlen cur curlen
    else zero_run g (i + 1) best bestlen (-1) 0
  end.

(** The printing loop; a [snprintf] that does not fit returns -1. *)
Fixpoint ntop6_loop (fuel : nat) (g : list Z) (i best bestlen : Z) (buf : list Z) (sz : Z) : res (option (list Z)) :=
  match fuel with
  | O => Stuck OutOfFuel
  | S f =>
    if i <? 8 then
      if (0 <=? best) && (i =? best) then
        if sz - zlen buf <=? 2 then Ok None
        else ntop6_loop f g (i + (bestlen - 1) + 1) best bestlen (buf ++ [ch_colon; ch_colon]) sz
      else
        x ← rd g i;
        let t := (if (0 <? i) && negb ((0 <=? best) && (i =? best + bestlen)) then [ch_colon] else [])
                 ++ fmt_x x in
        if sz - zlen buf <=? zlen t then Ok None
        else ntop6_loop f g (i + 1) best bestlen (buf ++ t) sz
    else Ok (Some (if (zlen buf =? 0) && (1 <? sz) then [ch_colon; ch_colon] else buf))
  end.

Definition elpis_ntop6 (ip : list Z) (sz : Z) : res (option (list Z)) :=
  g ← groups_of ip;
  let '(best, bestlen) := zero_run g 0 (-1) 0 (-1) 0 in
  ntop6_loop 9 g 0 (if bestlen <? 2 then -1 else best) bestlen [] sz.

(** *** Socket addresses *)

Definition elpis_addr_from4 (ip : list Z) (port : Z) : elpis_addr_t := Addr4 ip port.
Definition elpis_addr_from6 (ip : list Z) (port : Z) : elpis_addr_t := Addr6 ip port.

(** [strchr]: the index of the first [c], [strrchr]: of the last. *)
Fixpoint strchr (s : list Z) (c : Z) : option Z :=
  match s with
  | [] => None
  | x :: s => if x =? c then Some 0 else option_map (Z.add 1) (strchr s c)
  end.
Fixpoint strrchr (s : list Z) (c : Z) : option Z :=
  match s with
  | [] => None
  | x :: s =>
    match strrchr s c with
    | Some i => Some (1 + i)
    | None => if x =? c then Some 0 else None
    end
  end.

Definition sub_from (s : list Z) (i : Z) : list Z := drop (Z.to_nat i) s.
Definition sub_to (s : list Z) (i : Z) : list Z := take (Z.to_nat i) s.

(** The split into host and port text. *)
Definition addr_split (s : list Z) : option (list Z * option (list Z)) :=
  if cur s =? ch_lbrack then
    e ← strchr s ch_rbrack;
    let hl := e - 1 in
    if 128 <=? hl then None
    else
      let host := sub_to (sub_from s 1) hl in
      let c := cur (sub_from s (e + 1)) in
      if (c =? ch_colon) || (c =? ch_at) then Some (host, Some (sub_from s (e + 2)))
      else if negb (c =? 0) then None
      else Some (host, None)
  else
    let at_ := strchr s ch_at in
    let colon := strrchr s ch_colon in
    let sep := match at_ with
               | Some _ => at_
               | None => match colon with
                         | Some _ => if bool_decide (strchr s ch_colon = colon) then colon else None
                         | None => None
                         end
               end in
    let '(hl, pstr) := match sep with
                       | Some i => (i, Some (sub_from s (i + 1)))
                       | None => (zlen s, None)
                       end in
    if 128 <=? hl then None else Some (sub_to s hl, pstr).

(** [None] for -1. *)
Definition elpis_addr_parse (s : option (list Z)) (defport : Z) : res (option elpis_addr_t) :=
  match s with
  | None => Ok None
  | Some [] => Ok None
  | Some s =>
    match addr_split s with
    | None => Ok None
    | Some (host, pstr) =>
      let port := match pstr with
                  | None => Some defport
                  | Some p => match elpis_parse_u32 (Some p) with
                              | Some v => if (v =? 0) || (65535 <? v) then None else Some (u16 v)
                              | None => None
                              end
                  end in
      match port with
      | None => Ok None
      | Some port =>
        match elpis_pton4 host with
        | Some ip4 => Ok (Some (elpis_addr_from4 ip4 port))
        | None =>
          r ← elpis_pton6 host;
          Ok (option_map (fun ip6 => elpis_addr_from6 ip6 port) r)
        end
      end
    end
  end.

(** What [snprintf] leaves in a buffer of [sz] octets. *)
Definition snprintf (sz : Z) (t : list Z) : list Z := sub_to t (sz - 1).

Definition elpis_addr_str (a : option elpis_addr_t) (sz : Z) : res (list Z) :=
  match a with
  | None => Ok (snprintf sz (str "(null)"))
  | Some (Addr4 ip port) =>
    raw ← rds ip 0 4;
    t ← elpis_ntop4 raw 64;
    Ok (snprintf sz (default (str "?") t ++ ch_colon :: fmt_u port))
  | Some (Addr6 ip port) =>
    raw ← rds ip 0 16;
    t ← elpis_ntop6 raw 64;
    Ok (snprintf sz (ch_lbrack :: default (str "?") t ++ [ch_rbrack; ch_colon] ++ fmt_u port))
  | Some AddrOther => Ok (snprintf sz (str "(unspec)"))
  end.

Definition elpis_addr_port (a : elpis_addr_t) : Z :=
  match a with Addr4 _ p | Addr6 _ p => p | AddrOther => 0 end.

Definition elpis_addr_eq_ip (a b : elpis_addr_t) : res bool :=
  match a, b with
  | Addr4 x _, Addr4 y _ => x ← rds x 0 4; y ← rds y 0 4; Ok (bool_decide (x = y))
  | Addr6 x _, Addr6 y _ => x ← rds x 0 16; y ← rds y 0 16; Ok (bool_decide (x = y))
  | _, _ => Ok false
  end.

Definition elpis_addr_eq (a b : elpis_addr_t) : res bool :=
  e ← elpis_addr_eq_ip a b;
  Ok (e && (elpis_addr_port a =? elpis_addr_port b)).

(** FNV-1a over the address and the port. *)
Definition fnv_step (h x : Z) : Z := u64 (Z.lxor h x * 0x100000001b3).
Definition elpis_addr_hash (a : elpis_addr_t) : res Z :=
  let h := 0xcbf29ce484222325 in
  match a with
  | Addr4 ip p => b ← rds ip 0 4; Ok (fnv_step (fold_left fnv_step b h) p)
  | Addr6 ip p => b ← rds ip 0 16; Ok (fnv_step (fold_left fnv_step b h) p)
  | AddrOther => Ok h
  end.

(** *** Prefixes *)

(** [px_v6]: AF_INET6 rather than AF_INET. *)
Record elpis_prefix_t := mkPrefix { px_ip : list Z; px_bits : Z; px_v6 : bool }.

#[export] Instance elpis_prefix_t_eq_dec : EqDecision elpis_prefix_t.
Proof. solve_decision. Defined.

(** [if (slash && (elpis_parse_u32(slash + 1, &bits) != 0 || bits > width))] *)
Definition prefix_bits (slash : option (list Z)) (width : Z) : option Z :=
  match slash with
  | None => Some width
  | Some t => match elpis_parse_u32 (Some t) with
              | Some bits => if width <? bits then None else Some (u8 bits)
              | None => None
              end
  end.

Definition elpis_prefix_parse (s : list Z) : res (option elpis_prefix_t) :=
  let slash := strchr s ch_slash in
  let hl := default (zlen s) slash in
  if 128 <=? hl then Ok None
  else
    let host := sub_to s hl in
    let rest := option_map (fun i => sub_from s (i + 1)) slash in
    match elpis_pton4 host with
    | Some ip4 => Ok (option_map (fun b => mkPrefix (ip4 ++ zeros 12) b false) (prefix_bits rest 32))
    | None =>
      r ← elpis_pton6 host;
      Ok (match r with
          | Some ip6 => option_map (fun b => mkPrefix ip6 b true) (prefix_bits rest 128)
          | None => None
          end)
    end.

Definition elpis_prefix_match (p : elpis_prefix_t) (a : elpis_addr_t) : res bool :=
  let go addr :=
    let bytes := px_bits p / 8 in
    let rem := px_bits p mod 8 in
    x ← rds addr 0 bytes; y ← rds (px_ip p) 0 bytes;
    if negb (bytes =? 0) && negb (bool_decide (x = y)) then Ok false
    else if negb (rem =? 0) then
      let mask := u8 (Z.shiftl 0xFF (8 - rem)) in
      u ← rd addr bytes; v ← rd (px_ip p) bytes;
      Ok (Z.land (Z.lxor u v) mask =? 0)
    else Ok true in
  match a, px_v6 p with
  | Addr4 ip _, false => go ip
  | Addr6 ip _, true => go ip
  | _, _ => Ok false
  end.

(** ** Texts of addresses *)

Fixpoint join (sep : Z) (l : list (list Z)) : list Z :=
  match l with
  | [] => []
  | [x] => x
  | x :: l => x ++ sep :: join sep l
  end.

(** Dotted quad without leading zeros. *)
Definition quad (ip : list Z) : list Z := join ch_dot (map fmt_u ip).

Lemma join_cons sep x l : l ≠ [] → join sep (x :: l) = x ++ sep :: join sep l.
Proof. by destruct l. Qed.

(** A boolean test about quotients and remainders, decided. *)
Ltac zdtrue c := replace c with true by (symmetry; rewrite ?andb_true_iff; zdiv).
Ltac zdfalse c := replace c with false by (symmetry; rewrite ?andb_false_iff; zdiv).

(** The numerals of at most three digits. *)
Lemma fmt_u_small v :
  0 <= v < 1000 →
  fmt_u v = if v <? 10 then [ch_0 + v]
            else if v <? 100 then [ch_0 + v / 10; ch_0 + v mod 10]
            else [ch_0 + v / 100; ch_0 + v / 10 mod 10; ch_0 + v mod 10].
Proof.
  intros Hv. unfold fmt_u. cbn [digits_of].
  assert (0 <= v mod 10 < 10) by (apply Z.mod_pos_bound; lia).
  assert (0 <= v / 10 mod 10 < 10) by (apply Z.mod_pos_bound; lia).
  destruct (Z.ltb_spec v 10).
  { rewrite Z.mod_small by lia. by rewrite digit_char_10 by lia. }
  destruct (Z.ltb_spec v 100).
  { zdtrue (v / 10 <? 10). rewrite !digit_char_10 by lia.
    rewrite (Z.mod_small (v / 10)) by (Z.div_mod_to_equations; lia). done. }
  zdfalse (v / 10 <? 10).
  rewrite Z.div_div by lia. change (10 * 10) with 100.
  zdtrue (v / 100 <? 10).
  rewrite (Z.mod_small (v / 100)) by (Z.div_mod_to_equations; lia).
  rewrite !digit_char_10 by (lia || (Z.div_mod_to_equations; lia)). done.
Qed.

Lemma is_digit_num d : 0 <= d < 10 → is_digit (ch_0 + d) = true.
Proof. intros. unfold is_digit, ch_0, ch_9. apply andb_true_iff. rewrite !Z.leb_le. lia. Qed.

Lemma fmt_u_step v d : 0 < v → 0 <= d < 10 → v * 10 + d < 1000 → fmt_u (v * 10 + d) = fmt_u v ++ [ch_0 + d].
Proof.
  intros Hv Hd Hlt. rewrite !fmt_u_small by lia.
  assert ((v * 10 + d) / 10 = v) as Ed by (Z.div_mod_to_equations; lia).
  assert ((v * 10 + d) mod 10 = d) as Em by (Z.div_mod_to_equations; lia).
  assert ((v * 10 + d) / 100 = v / 10) as Eh by (Z.div_mod_to_equations; lia).
  rewrite Ed, Em, Eh. zfalse (v * 10 + d <? 10).
  destruct (Z.ltb_spec v 10).
  - ztrue (v * 10 + d <? 100). done.
  - zfalse (v * 10 + d <? 100). ztrue (v <? 100). done.
Qed.

Lemma fmt_u_digit d : 0 <= d < 10 → fmt_u d = [ch_0 + d].
Proof. intros. rewrite fmt_u_small by lia. by ztrue (d <? 10). Qed.

Lemma zlen_fmt_u_pos v : 0 <= v < 2 ^ 64 → 1 <= zlen (fmt_u v).
Proof.
  intros Hv. destruct (fmt_u_spec v Hv) as (_ & Hne & _). destruct (fmt_u v); [done|].
  rewrite zlen_cons. pose proof (zlen_nonneg l). lia.
Qed.

(** A numeral read by [elpis_pton4]. *)
Lemma pton4_numeral v rest octet tmp :
  0 <= v <= 255 →
  pton4_loop (fmt_u v ++ rest) octet 0 0 tmp = pton4_loop rest octet v (zlen (fmt_u v)) tmp.
Proof.
  intros Hv. rewrite fmt_u_small by lia.
  assert (0 <= v mod 10 < 10) by (apply Z.mod_pos_bound; lia).
  assert (0 <= v / 10 mod 10 < 10) by (apply Z.mod_pos_bound; lia).
  destruct (Z.ltb_spec v 10); [|destruct (Z.ltb_spec v 100)]; cbn [app pton4_loop]; cbv zeta.
  - rewrite is_digit_num by lia. cbn [Z.eqb andb]. replace (0 * 10 + (ch_0 + v - ch_0)) with v by lia.
    zfalse (255 <? v). done.
  - assert (v / 10 * 10 + v mod 10 = v) by (Z.div_mod_to_equations; lia).
    assert (1 <= v / 10 < 10) by (Z.div_mod_to_equations; lia).
    rewrite !is_digit_num by lia. cbn [Z.eqb andb].
    replace (0 * 10 + (ch_0 + v / 10 - ch_0)) with (v / 10) by lia.
    replace (v / 10 * 10 + (ch_0 + v mod 10 - ch_0)) with v by lia.
    zfalse (255 <? v / 10). zfalse (255 <? v). change (0 + 1 =? 3) with false. cbn [Z.eqb].
    zfalse (v / 10 =? 0). rewrite andb_false_r. done.
  - assert (v / 10 * 10 + v mod 10 = v) by (Z.div_mod_to_equations; lia).
    assert (v / 100 * 10 + v / 10 mod 10 = v / 10) by (Z.div_mod_to_equations; lia).
    assert (1 <= v / 100 < 10) by (Z.div_mod_to_equations; lia).
    assert (v / 10 <= 255) by (Z.div_mod_to_equations; lia).
    rewrite !is_digit_num by lia. cbn [Z.eqb andb].
    replace (0 * 10 + (ch_0 + v / 100 - ch_0)) with (v / 100) by lia.
    replace (v / 100 * 10 + (ch_0 + v / 10 mod 10 - ch_0)) with (v / 10) by lia.
    replace (v / 10 * 10 + (ch_0 + v mod 10 - ch_0)) with v by lia.
    zfalse (255 <? v / 100). zfalse (255 <? v / 10). zfalse (255 <? v).
    zfalse (v / 100 =? 0). rewrite andb_false_r. done.
Qed.

Lemma pton4_field v rest octet tmp :
  0 <= v <= 255 → 0 <= octet < 3 →
  pton4_loop (fmt_u v ++ ch_dot :: rest) octet 0 0 tmp = pton4_loop rest (octet + 1) 0 0 (tmp ++ [v]).
Proof.
  intros Hv Ho. rewrite pton4_numeral by done. cbn [pton4_loop]. change (is_digit ch_dot) with false.
  change (ch_dot =? ch_dot) with true. cbv iota zeta. pose proof (zlen_fmt_u_pos v ltac:(lia)).
  zfalse (zlen (fmt_u v) =? 0). zfalse (3 <? octet). zfalse (octet + 1 =? 4). cbn [orb].
  by rewrite u8_id by (unfold byte; lia).
Qed.

Lemma pton4_last v tmp :
  0 <= v <= 255 → pton4_loop (fmt_u v) 3 0 0 tmp = Some (tmp ++ [v]).
Proof.
  intros Hv. rewrite <- (app_nil_r (fmt_u v)), pton4_numeral by done. cbn [pton4_loop].
  pose proof (zlen_fmt_u_pos v ltac:(lia)). zfalse (zlen (fmt_u v) =? 0). cbn [Z.ltb Z.compare orb negb].
  by rewrite u8_id by (unfold byte; lia).
Qed.

Lemma four_octets (ip : list Z) : zlen ip = 4 → ∃ a b c d, ip = [a; b; c; d].
Proof.
  intros Hl. destruct ip as [|a [|b [|c [|d [|e l]]]]]; rewrite ?zlen_cons, ?zlen_nil in Hl; try lia; [|pose proof (zlen_nonneg l); lia].
  by exists a, b, c, d.
Qed.

Lemma pton4_complete ip : bytes ip → zlen ip = 4 → elpis_pton4 (quad ip) = Some ip.
Proof.
  intros Hb (a & b & c & d & ->)%four_octets. repeat (apply Forall_cons_iff in Hb as [? Hb]). unfold byte in *.
  unfold elpis_pton4, quad. cbn [map join]. rewrite !pton4_field by lia. by rewrite pton4_last by lia.
Qed.

(** What is left to read is the rest of a quad, from inside a numeral on. *)
Lemma pton4_sound_loop s : ∀ octet val digits tmp out,
  pton4_loop s octet val digits tmp = Some out → bytes tmp → zlen tmp = octet →
  (digits = 0 ∧ val = 0) ∨ (0 <= val <= 255 ∧ digits = zlen (fmt_u val)) →
  ∃ vs, out = tmp ++ vs ∧ zlen out = 4 ∧ bytes vs ∧ vs ≠ [] ∧
    (if digits =? 0 then s else fmt_u val ++ s) = quad vs.
Proof.
  induction s as [|c s IH]; intros octet val digits tmp out H Hb Hl Hd; cbn [pton4_loop] in H.
  - destruct (digits =? 0) eqn:Hz; [done|]. cbn [orb] in H. destruct (3 <? octet); [done|].
    destruct (Z.eqb_spec (octet + 1) 4); [|done]. injection H as <-. bool_to_prop.
    destruct Hd as [[? _]|[Hv _]]; [done|]. exists [val]. rewrite u8_id by (unfold byte; lia).
    split; [done|]. split; [rewrite zlen_app, zlen_cons, zlen_nil; lia|]. split; [repeat constructor; lia|].
    split; [done|]. rewrite app_nil_r. done.
  - destruct (is_digit c) eqn:Hc.
    + apply is_digit_range in Hc. destruct (Z.eqb_spec digits 3); [done|].
      destruct ((digits =? 1) && (val =? 0)) eqn:Hlead; [done|]. cbv zeta in H.
      destruct (Z.ltb_spec 255 (val * 10 + (c - ch_0))); [done|]. unfold ch_0 in *.
      assert ((if digits =? 0 then c :: s else fmt_u val ++ c :: s) = fmt_u (val * 10 + (c - 48)) ++ s ∧
              digits + 1 = zlen (fmt_u (val * 10 + (c - 48))) ∧ 0 <= val * 10 + (c - 48)) as (Et & Ed & Hpos).
      { destruct Hd as [[-> ->]|[Hv ->]].
        - cbn [Z.eqb]. rewrite fmt_u_digit by lia. unfold ch_0. split; [cbn; do 2 f_equal; lia|].
          split; [done|lia].
        - pose proof (zlen_fmt_u_pos val ltac:(lia)). zfalse (zlen (fmt_u val) =? 0).
          assert (val ≠ 0) as Hnz.
          { intros ->. cbn in Hlead. done. }
          rewrite fmt_u_step by lia. unfold ch_0. replace (48 + (c - 48)) with c by lia.
          rewrite <- app_assoc, zlen_app. split; [done|]. split; [done|lia]. }
      destruct (IH _ _ _ _ _ H Hb Hl) as (vs & ? & ? & ? & ? & Eq); [right; lia|].
      exists vs. do 4 (split; [done|]). rewrite Et.
      assert (digits + 1 ≠ 0) by (rewrite Ed; pose proof (zlen_fmt_u_pos (val * 10 + (c - 48)) ltac:(lia)); lia).
      by rewrite (proj2 (Z.eqb_neq _ _)) in Eq by done.
    + destruct (Z.eqb_spec c ch_dot) as [->|]; [|done].
      destruct (digits =? 0) eqn:Hz; [done|]. cbn [orb] in H. destruct (Z.ltb_spec 3 octet); [done|].
      destruct (octet + 1 =? 4); [done|]. bool_to_prop. destruct Hd as [[? _]|[Hv _]]; [done|].
      rewrite u8_id in H by (unfold byte; lia).
      destruct (IH _ _ _ _ _ H) as (vs & -> & ? & ? & Hne & Eq).
      { apply Forall_app. split; [done|repeat constructor; lia]. }
      { rewrite zlen_app, zlen_cons, zlen_nil. lia. }
      { by left. }
      cbn [Z.eqb] in Eq. exists (val :: vs). rewrite <- app_assoc in *. split; [done|]. split; [done|].
      split; [constructor; [unfold byte; lia|done]|]. split; [done|]. rewrite Eq. unfold quad. cbn [map].
      by rewrite join_cons by (by destruct vs).
Qed.

Lemma pton4_sound s ip : elpis_pton4 s = Some ip → bytes ip ∧ zlen ip = 4 ∧ s = quad ip.
Proof.
  intros H. destruct (pton4_sound_loop s 0 0 0 [] ip H) as (vs & -> & Hl & Hb & _ & E);
    [constructor|done|by left|]. cbn [app Z.eqb] in *. done.
Qed.

(** ** Hexadecimal groups *)

(** The two octets of a group. *)
Definition two (g : Z) : list Z := [u8 (Z.shiftr g 8); u8 g].
Definition flat (gs : list Z) : list Z := concat (map two gs).
Definition group (g : Z) : Prop := 0 <= g < 65536.

Lemma xdigit_char d : 0 <= d < 16 → is_xdigit (digit_char d) = true ∧ xdigit_value (digit_char d) = d.
Proof.
  intros Hd. unfold digit_char. destruct (Z.ltb_spec d 10).
  - unfold is_xdigit, xdigit_value. rewrite is_digit_num by lia. split; [done|lia].
  - assert (is_digit (97 + (d - 10)) = false) as E.
    { unfold is_digit, ch_0, ch_9. apply andb_false_iff. rewrite !Z.leb_gt. lia. }
    unfold is_xdigit, xdigit_value. rewrite E. cbn [orb].
    ztrue ((97 <=? 97 + (d - 10)) && (97 + (d - 10) <=? 102)). split; [done|lia].
Qed.

Lemma hex_group_digits ds r v n :
  Forall (fun d => 0 <= d < 16) ds → is_xdigit (cur r) = false → 0 <= n → n + zlen ds <= 4 →
  0 <= v < 16 ^ n →
  hex_group (map digit_char ds ++ r) v n = Some (fold_left (fun v d => v * 16 + d) ds v, n + zlen ds, r).
Proof.
  intros Hd Hr. revert v n. induction Hd as [|d ds Hd Hds IH]; intros v n Hn Hl Hv.
  - cbn [map app fold_left]. rewrite zlen_nil, Z.add_0_r. destruct r as [|c r]; [done|]. cbn in Hr |- *. by rewrite Hr.
  - destruct (xdigit_char d Hd) as [Hx Hval]. cbn [map app hex_group]. rewrite Hx, Hval. cbv zeta.
    rewrite zlen_cons in Hl. pose proof (zlen_nonneg ds). zfalse (4 <? n + 1).
    assert (16 ^ n <= 16 ^ 3) by (apply Z.pow_le_mono_r; lia).
    rewrite u32_id by (rewrite shiftl_mul by lia; change (16 ^ 3) with 4096 in *; lia).
    rewrite lor_shiftl_add by (lia || (change (2 ^ 4) with 16; lia)). change (2 ^ 4) with 16.
    rewrite IH; [|lia|lia|rewrite Z.pow_add_r by lia; change (16 ^ 1) with 16; lia].
    cbn [fold_left]. rewrite zlen_cons. do 3 f_equal. lia.
Qed.

Lemma fmt_x_spec g :
  group g →
  (∀ r, is_xdigit (cur r) = false → hex_group (fmt_x g ++ r) 0 0 = Some (g, zlen (fmt_x g), r)) ∧
  1 <= zlen (fmt_x g) <= 4 ∧ Forall (fun c => is_xdigit c = true) (fmt_x g).
Proof.
  intros Hg. unfold group, fmt_x in *.
  destruct (digits_of_spec 64 16 g []) as (ds & -> & Hds & Hval & Hne & _ & _ & Hlen); [lia|lia|lia|].
  rewrite app_nil_r, zlen_map. specialize (Hlen 4 ltac:(lia) ltac:(lia)).
  assert (1 <= zlen ds) by (destruct ds as [|d ds]; [done|rewrite zlen_cons; pose proof (zlen_nonneg ds); lia]).
  split; [|split; [lia|]].
  - intros r Hr. rewrite hex_group_digits by (done || lia). unfold value in Hval. by rewrite Hval.
  - apply Forall_map. eapply Forall_impl; [|exact Hds]. intros d Hd. cbv beta in *. by apply xdigit_char.
Qed.

Lemma fmt_x_nonempty g : group g → fmt_x g ≠ [].
Proof. intros Hg. destruct (fmt_x_spec g Hg) as (_ & ? & _). intros E. assert (zlen (fmt_x g) = 0) by (by rewrite E). lia. Qed.

Lemma zlen_flat gs : zlen (flat gs) = 2 * zlen gs.
Proof. induction gs as [|g gs IH]; [done|]. unfold flat in *. cbn [map concat]. rewrite zlen_app, IH, zlen_cons. unfold two. rewrite !zlen_cons, zlen_nil. lia. Qed.

Lemma flat_cons g gs : flat (g :: gs) = two g ++ flat gs.
Proof. done. Qed.

Lemma flat_app a b : flat (a ++ b) = flat a ++ flat b.
Proof. unfold flat. by rewrite map_app, concat_app. Qed.

(** Groups joined by colons. *)
Definition hextext (gs : list Z) : list Z := join ch_colon (map fmt_x gs).

Lemma hextext_cons g gs : gs ≠ [] → hextext (g :: gs) = fmt_x g ++ ch_colon :: hextext gs.
Proof. intros Hne. unfold hextext. cbn [map]. apply join_cons. by destruct gs. Qed.

Lemma cur_hextext gs r : Forall group gs → gs ≠ [] → is_xdigit (cur (hextext gs ++ r)) = true.
Proof.
  intros Hg Hne. destruct gs as [|g gs]; [done|]. apply Forall_cons_iff in Hg as [Hg _].
  destruct (fmt_x_spec g Hg) as (_ & _ & Hx). pose proof (fmt_x_nonempty g Hg).
  destruct (fmt_x g) as [|c t] eqn:E; [done|]. apply Forall_cons_iff in Hx as [Hx _].
  unfold hextext. cbn [map join]. rewrite E. by destruct (map fmt_x gs).
Qed.

Lemma xdigit_not_special c : is_xdigit c = true → c ≠ ch_colon ∧ c ≠ 0 ∧ c ≠ ch_dot ∧ c ≠ ch_rbrack ∧ c ≠ ch_lbrack.
Proof.
  unfold is_xdigit, is_digit, ch_0, ch_9, ch_colon, ch_dot, ch_rbrack, ch_lbrack. intros H.
  rewrite !orb_true_iff, !andb_true_iff, !Z.leb_le in H. lia.
Qed.

(** One group and what follows it. *)
Lemma pton6_loop_group f g r have (gap : bool) after :
  group g → is_xdigit (cur r) = false → cur r ≠ ch_dot → zlen (if gap then after else have) <= 14 →
  pton6_loop (S f) (fmt_x g ++ r) have gap after =
    (let have := if gap then have else have ++ two g in
     let after := if gap then after ++ two g else after in
     if cur r =? 0 then Ok (pton6_done have gap after)
     else if negb (cur r =? ch_colon) then Ok None
     else
       let s := tail r in
       if cur s =? ch_colon then
         if gap then Ok None
         else
           let s := tail s in
           if cur s =? 0 then Ok (pton6_done have true after)
           else pton6_loop f s have true after
       else pton6_loop f s have gap after).
Proof.
  intros Hg Hr Hdot Hc. destruct (fmt_x_spec g Hg) as (Hh & Hl & _). cbn [pton6_loop]. cbv zeta.
  rewrite Hh by done. zfalse (cur r =? ch_dot). cbn [andb]. zfalse (zlen (fmt_x g) =? 0).
  zfalse (16 <? zlen (if gap then after else have) + 2). done.
Qed.

Lemma pton6_loop_last gs : ∀ fuel have (gap : bool) after,
  Forall group gs → gs ≠ [] → zlen gs <= Z.of_nat fuel →
  zlen (if gap then after else have) + 2 * zlen gs <= 16 →
  pton6_loop fuel (hextext gs) have gap after =
    Ok (pton6_done (if gap then have else have ++ flat gs) gap (if gap then after ++ flat gs else after)).
Proof.
  induction gs as [|g gs IH]; intros fuel have gap after Hg Hne Hf Hc; [done|].
  apply Forall_cons_iff in Hg as [Hg Hgs]. rewrite zlen_cons in *. pose proof (zlen_nonneg gs).
  destruct fuel as [|f]; [lia|]. destruct (decide (gs = [])) as [->|Hn].
  - unfold hextext. cbn [map join]. rewrite <- (app_nil_r (fmt_x g)).
    rewrite pton6_loop_group by (done || lia). cbv zeta. cbn [cur]. change (0 =? 0) with true. cbv iota.
    unfold flat. cbn [map concat]. by rewrite app_nil_r.
  - rewrite hextext_cons by done. rewrite pton6_loop_group by (done || lia). cbv zeta. cbn [cur tail].
    change (ch_colon =? 0) with false. change (ch_colon =? ch_colon) with true. cbn [negb].
    pose proof (cur_hextext gs [] Hgs Hn) as Hx. rewrite app_nil_r in Hx. apply xdigit_not_special in Hx as (Hx & _).
    zfalse (cur (hextext gs) =? ch_colon). rewrite IH; [|done|done|lia|].
    + rewrite flat_cons. f_equal. destruct gap; by rewrite <- app_assoc.
    + destruct gap; rewrite zlen_app; unfold two; rewrite !zlen_cons, zlen_nil; lia.
Qed.

Lemma pton6_loop_gap gs : ∀ fuel r have,
  Forall group gs → gs ≠ [] → zlen gs <= Z.of_nat fuel → zlen have + 2 * zlen gs <= 16 →
  pton6_loop fuel (hextext gs ++ ch_colon :: ch_colon :: r) have false [] =
    if cur r =? 0 then Ok (pton6_done (have ++ flat gs) true [])
    else pton6_loop (fuel - length gs) r (have ++ flat gs) true [].
Proof.
  induction gs as [|g gs IH]; intros fuel r have Hg Hne Hf Hc; [done|].
  apply Forall_cons_iff in Hg as [Hg Hgs]. rewrite zlen_cons in *. pose proof (zlen_nonneg gs).
  destruct fuel as [|f]; [lia|]. destruct (decide (gs = [])) as [->|Hn].
  - unfold hextext. cbn [map join]. rewrite pton6_loop_group by (done || lia). cbv zeta. cbn [cur tail].
    change (ch_colon =? 0) with false. change (ch_colon =? ch_colon) with true. cbn [negb].
    unfold flat. cbn [map concat length]. rewrite app_nil_r. by rewrite Nat.sub_succ, Nat.sub_0_r.
  - rewrite hextext_cons by done. rewrite <- app_assoc. cbn [app].
    rewrite pton6_loop_group by (done || lia). cbv zeta. cbn [cur tail].
    change (ch_colon =? 0) with false. change (ch_colon =? ch_colon) with true. cbn [negb].
    pose proof (cur_hextext gs (ch_colon :: ch_colon :: r) Hgs Hn) as Hx. apply xdigit_not_special in Hx as (Hx & _).
    zfalse (cur (hextext gs ++ ch_colon :: ch_colon :: r) =? ch_colon).
    rewrite IH; [|done|done|lia|rewrite zlen_app; unfold two; rewrite !zlen_cons, zlen_nil; lia].
    rewrite flat_cons, <- app_assoc. by destruct (cur r =? 0).
Qed.

(** ** Printing IPv6 *)

(** What the printing loop has yet to write. *)
Fixpoint text6 (fuel : nat) (g : list Z) (i best bestlen : Z) : list Z :=
  match fuel with
  | O => []
  | S f =>
    if i <? 8 then
      if (0 <=? best) && (i =? best) then
        [ch_colon; ch_colon] ++ text6 f g (i + (bestlen - 1) + 1) best bestlen
      else
        ((if (0 <? i) && negb ((0 <=? best) && (i =? best + bestlen)) then [ch_colon] else [])
         ++ fmt_x (default 0 (g !! Z.to_nat i))) ++ text6 f g (i + 1) best bestlen
    else []
  end.

Lemma ntop6_loop_spec g best bestlen sz : ∀ fuel i buf,
  zlen g = 8 → Forall group g → 0 <= i <= 8 → (best < 0 ∨ 1 <= bestlen ∧ best + bestlen <= 8) →
  8 - i < Z.of_nat fuel → zlen buf < sz → (i = 0 ∨ 0 < zlen buf) →
  let t := buf ++ text6 fuel g i best bestlen in
  ntop6_loop fuel g i best bestlen buf sz = Ok (if zlen t <? sz then Some t else None).
Proof.
  induction fuel as [|f IH]; intros i buf Hl Hg Hi Hb Hf Hsz Hbuf; [lia|]. cbv zeta. cbn [ntop6_loop text6].
  destruct (Z.ltb_spec i 8).
  2:{ rewrite app_nil_r. ztrue (zlen buf <? sz). zfalse (zlen buf =? 0). done. }
  destruct ((0 <=? best) && (i =? best)) eqn:Hhit.
  - bool_to_prop. destruct Hb as [|Hb]; [lia|].
    set (r := text6 f g (i + (bestlen - 1) + 1) best bestlen).
    pose proof (zlen_nonneg r). pose proof (zlen_nonneg buf).
    assert (zlen (buf ++ [ch_colon; ch_colon]) = zlen buf + 2) as E2 by (rewrite zlen_app; done).
    assert (zlen (buf ++ [ch_colon; ch_colon] ++ r) = zlen buf + 2 + zlen r) as Er by (rewrite app_assoc, zlen_app; lia).
    destruct (Z.leb_spec (sz - zlen buf) 2).
    + by zfalse (zlen (buf ++ [ch_colon; ch_colon] ++ r) <? sz).
    + rewrite IH by (done || lia). fold r. by rewrite <- app_assoc.
  - destruct (rd_in_range g i) as (x & -> & Hx); [lia|]. cbn [mbind res_bind]. rewrite Hx. change (default 0 (Some x)) with x.
    set (t := (if (0 <? i) && negb ((0 <=? best) && (i =? best + bestlen)) then [ch_colon] else []) ++ fmt_x x).
    assert (1 <= zlen t) as Ht.
    { destruct (fmt_x_spec x) as (_ & ? & _); [by eapply (Forall_lookup_1 _ _ _ _ Hg)|].
      subst t. rewrite zlen_app. case_match; rewrite ?zlen_cons, ?zlen_nil; lia. }
    set (r := text6 f g (i + 1) best bestlen). pose proof (zlen_nonneg r). pose proof (zlen_nonneg buf).
    assert (zlen (buf ++ t ++ r) = zlen buf + zlen t + zlen r) as Er by (rewrite !zlen_app; lia).
    destruct (Z.leb_spec (sz - zlen buf) (zlen t)).
    + by zfalse (zlen (buf ++ t ++ r) <? sz).
    + assert (zlen (buf ++ t) = zlen buf + zlen t) as Et by apply zlen_app.
      rewrite IH by (done || lia). fold r. by rewrite <- app_assoc.
Qed.

(** The run the search returns is a run of zeros. *)
Lemma zero_run_spec g0 : ∀ g i best bestlen cur curlen,
  0 <= i → zlen g0 = i + zlen g → (∀ j, 0 <= j < zlen g → g !! Z.to_nat j = g0 !! Z.to_nat (i + j)) →
  ((bestlen = 0 ∨ 0 <= best ∧ 0 < bestlen ∧ best + bestlen <= i ∧
     ∀ j, best <= j < best + bestlen → g0 !! Z.to_nat j = Some 0)) →
  (cur < 0 ∧ curlen = 0 ∨ 0 <= cur ∧ 0 < curlen ∧ cur + curlen = i ∧
     ∀ j, cur <= j < i → g0 !! Z.to_nat j = Some 0) →
  let '(b, l) := zero_run g i best bestlen cur curlen in
  l = 0 ∨ 0 <= b ∧ 0 < l ∧ b + l <= zlen g0 ∧ ∀ j, b <= j < b + l → g0 !! Z.to_nat j = Some 0.
Proof.
  induction g as [|x g IH]; intros i best bestlen c cl Hi Hl Heq Hbest Hcur; cbn [zero_run].
  { rewrite zlen_nil in Hl. destruct Hbest as [?|(? & ? & ? & ?)]; [by left|right]. split_and!; (lia || done). }
  rewrite zlen_cons in Hl. pose proof (zlen_nonneg g).
  assert (g0 !! Z.to_nat i = Some x) as Hx.
  { specialize (Heq 0). rewrite zlen_cons in Heq. rewrite Z.add_0_r in Heq. rewrite <- Heq by lia. done. }
  assert (∀ j, 0 <= j < zlen g → g !! Z.to_nat j = g0 !! Z.to_nat (i + 1 + j)) as Heq'.
  { intros j Hj. specialize (Heq (j + 1)). rewrite zlen_cons in Heq.
    replace (i + 1 + j) with (i + (j + 1)) by lia. rewrite <- Heq by lia.
    replace (Z.to_nat (j + 1)) with (S (Z.to_nat j)) by lia. done. }
  assert (bestlen = 0 ∨ 0 <= best ∧ 0 < bestlen ∧ best + bestlen <= i + 1 ∧
     (∀ j, best <= j < best + bestlen → g0 !! Z.to_nat j = Some 0)) as Hbest'.
  { destruct Hbest as [?|(? & ? & ? & ?)]; [by left|right; split_and!; (lia || done)]. }
  destruct (Z.eqb_spec x 0) as [->|Hne]; [|apply IH; try done; try lia].
  destruct (Z.ltb_spec c 0).
  - assert (0 <= i ∧ 0 < 1 ∧ i + 1 = i + 1 ∧ ∀ j, i <= j < i + 1 → g0 !! Z.to_nat j = Some 0) as Hc.
    { split_and!; try lia. intros j ?. by replace j with i by lia. }
    destruct (Z.ltb_spec bestlen 1); apply IH; try done; try lia; right; try done.
    split_and!; try lia. intros j ?. by replace j with i by lia.
  - destruct Hcur as [[? _]|(? & ? & ? & Hz)]; [lia|].
    assert (∀ j, c <= j < i + 1 → g0 !! Z.to_nat j = Some 0) as Hz'.
    { intros j ?. destruct (decide (j = i)) as [->|]; [done|apply Hz; lia]. }
    destruct (Z.ltb_spec bestlen (cl + 1)); apply IH; try done; try lia; right; split_and!; try lia; try done.
    intros j ?. apply Hz'. lia.
Qed.

(** The text as groups around the gap. *)
Definition shape6 (g : list Z) (best bestlen : Z) : list Z :=
  if best <? 0 then hextext g
  else hextext (take (Z.to_nat best) g) ++ ch_colon :: ch_colon :: hextext (drop (Z.to_nat (best + bestlen)) g).

Lemma eight_groups (g : list Z) : zlen g = 8 → ∃ a b c d e f h i, g = [a; b; c; d; e; f; h; i].
Proof.
  intros Hl. destruct g as [|a [|b [|c [|d [|e [|f [|h [|i [|j l]]]]]]]]]; rewrite ?zlen_cons, ?zlen_nil in Hl;
    try lia; [|pose proof (zlen_nonneg l); lia]. by exists a, b, c, d, e, f, h, i.
Qed.

#[local] Opaque fmt_x.

(** The 22 places the gap can take, each by evaluation. *)
Definition gaps : list (Z * Z) :=
  (-1, 0) :: concat (map (fun b => map (fun l => (b, l)) (seqZ 2 (7 - b))) (seqZ 0 7)).

Lemma gaps_complete best bestlen :
  (best = -1 ∧ bestlen = 0) ∨ (0 <= best ∧ 2 <= bestlen ∧ best + bestlen <= 8) → (best, bestlen) ∈ gaps.
Proof.
  intros [[-> ->]|Hb]; [left|right]. apply list_elem_of_In, in_concat.
  exists (map (fun l => (best, l)) (seqZ 2 (7 - best))). split; apply in_map_iff.
  - exists best. split; [done|]. apply list_elem_of_In, elem_of_seqZ. lia.
  - exists bestlen. split; [done|]. apply list_elem_of_In, elem_of_seqZ. lia.
Qed.

Lemma text6_best g bestlen bestlen' fuel i :
  text6 fuel g i (-1) bestlen = text6 fuel g i (-1) bestlen'.
Proof.
  revert i. induction fuel as [|f IH]; intros i; [done|]. cbn [text6]. cbn [Z.leb Z.compare andb negb].
  by rewrite (IH (i + 1)).
Qed.

Lemma text6_shape g best bestlen :
  zlen g = 8 → best = -1 ∨ (0 <= best ∧ 2 <= bestlen ∧ best + bestlen <= 8) →
  text6 9 g 0 best bestlen = shape6 g best bestlen.
Proof.
  intros (a & b & c & d & e & f & h & i & ->)%eight_groups Hb.
  assert (Forall (fun p => text6 9 [a; b; c; d; e; f; h; i] 0 p.1 p.2 = shape6 [a; b; c; d; e; f; h; i] p.1 p.2) gaps) as Hall.
  { unfold shape6, hextext. let t := eval vm_compute in gaps in change gaps with t.
    repeat (apply Forall_cons_2; [lazy -[fmt_x app]; repeat (rewrite <- app_assoc || rewrite <- app_comm_cons);
      rewrite ?app_nil_r; reflexivity|]). constructor. }
  rewrite Forall_forall in Hall. destruct Hb as [->|Hb].
  - rewrite (text6_best _ bestlen 0). apply (Hall (-1, 0)), list_elem_of_In, gaps_complete. by left.
  - apply (Hall (best, bestlen)), list_elem_of_In, gaps_complete. by right.
Qed.

Lemma zlen_hextext g : Forall group g → zlen (hextext g) <= 5 * zlen g.
Proof.
  induction 1 as [|x g Hx Hg IH]; [done|]. destruct (fmt_x_spec x Hx) as (_ & ? & _). rewrite zlen_cons.
  destruct (decide (g = [])) as [->|]; [unfold hextext; cbn [map join]; rewrite zlen_nil; lia|].
  rewrite hextext_cons by done. rewrite zlen_app, zlen_cons. lia.
Qed.

Lemma zlen_shape6 g best bestlen :
  zlen g = 8 → Forall group g → best = -1 ∨ (0 <= best ∧ 2 <= bestlen ∧ best + bestlen <= 8) →
  zlen (shape6 g best bestlen) <= 40.
Proof.
  intros Hl Hg Hb. unfold shape6. destruct (Z.ltb_spec best 0); [pose proof (zlen_hextext g Hg); lia|].
  pose proof (zlen_hextext _ (Forall_take _ (Z.to_nat best) _ Hg)).
  pose proof (zlen_hextext _ (Forall_drop _ (Z.to_nat (best + bestlen)) _ Hg)).
  rewrite zlen_take in H0. rewrite zlen_drop in H1. rewrite zlen_app, !zlen_cons. lia.
Qed.

(** The octets of a group, and back. *)
Lemma two_group a b : byte a → byte b → group (u16 (Z.lor (Z.shiftl a 8) b)) ∧ two (u16 (Z.lor (Z.shiftl a 8) b)) = [a; b].
Proof.
  intros Ha Hb. unfold byte in *. rewrite lor_shiftl_add by (lia || (change (2 ^ 8) with 256; lia)).
  change (2 ^ 8) with 256. rewrite u16_id by lia. split; [unfold group; lia|].
  unfold two. rewrite shiftr_div by lia. change (2 ^ 8) with 256. unfold u8. change (2 ^ 8) with 256.
  f_equal; [|f_equal]; Z.div_mod_to_equations; lia.
Qed.

Lemma groups_of_spec ip :
  bytes ip → zlen ip = 16 → ∃ g, groups_of ip = Ok g ∧ zlen g = 8 ∧ Forall group g ∧ flat g = ip.
Proof.
  intros Hb Hl. do 16 (destruct ip as [|? ip]; [rewrite ?zlen_cons, ?zlen_nil in Hl; lia|]).
  destruct ip as [|? ip]; [|rewrite !zlen_cons in Hl; pose proof (zlen_nonneg ip); lia].
  repeat (apply Forall_cons_iff in Hb as [? Hb]).
  eexists. split; [by cbn|]. split; [done|]. split; [repeat constructor; by apply two_group|].
  unfold flat. cbn [map concat]. by rewrite !(fun a b Ha Hb => proj2 (two_group a b Ha Hb)) by done.
Qed.

(** Eight groups with the gap cut out, and put back. *)
Lemma flat_gap g best bestlen :
  zlen g = 8 → 0 <= best → 0 <= bestlen → best + bestlen <= 8 →
  (∀ j, best <= j < best + bestlen → g !! Z.to_nat j = Some 0) →
  flat g = flat (take (Z.to_nat best) g) ++ zeros (2 * bestlen) ++ flat (drop (Z.to_nat (best + bestlen)) g).
Proof.
  intros Hl H0 Hbl H8 Hz. rewrite <- (take_drop (Z.to_nat best) g) at 1. rewrite flat_app. f_equal.
  rewrite <- (take_drop (Z.to_nat bestlen) (drop (Z.to_nat best) g)). rewrite flat_app, drop_drop.
  replace (Z.to_nat best + Z.to_nat bestlen)%nat with (Z.to_nat (best + bestlen)) by lia. f_equal.
  replace (take (Z.to_nat bestlen) (drop (Z.to_nat best) g)) with (replicate (Z.to_nat bestlen) 0).
  - unfold zeros. replace (Z.to_nat (2 * bestlen)) with (2 * Z.to_nat bestlen)%nat by lia.
    generalize (Z.to_nat bestlen) as n. intros n. induction n as [|n IH]; [done|].
    replace (2 * S n)%nat with (S (S (2 * n))) by lia. cbn [replicate]. rewrite flat_cons, IH. done.
  - apply list_eq_same_length with (Z.to_nat bestlen);
      [rewrite ?length_replicate, ?length_take, ?length_drop; zl..|].
    intros i x y Hi Hx Hy. apply lookup_replicate in Hx as [-> _].
    rewrite lookup_take_lt, lookup_drop in Hy by lia. specialize (Hz (Z.of_nat (Z.to_nat best + i))).
    rewrite Nat2Z.id in Hz. rewrite Hz in Hy by lia. congruence.
Qed.

Lemma cur_hextext_colon gs r : Forall group gs → gs ≠ [] → cur (hextext gs ++ r) ≠ ch_colon ∧ cur (hextext gs ++ r) ≠ 0.
Proof. intros Hg Hne. pose proof (xdigit_not_special _ (cur_hextext gs r Hg Hne)). tauto. Qed.

Lemma hextext_length gs : Forall group gs → (length gs <= length (hextext gs))%nat.
Proof.
  induction 1 as [|x g Hx Hg IH]; [done|]. destruct (fmt_x_spec x Hx) as (_ & ? & _).
  destruct (decide (g = [])) as [->|]; [unfold hextext; cbn [map join length]; zl|].
  rewrite hextext_cons by done. rewrite length_app. cbn [length]. unfold zlen in *. lia.
Qed.

(** Groups after the gap. *)
Lemma pton6_after fuel have post :
  Forall group post → zlen post <= Z.of_nat fuel → 2 * zlen post <= 16 →
  (if cur (hextext post) =? 0 then Ok (pton6_done have true [])
   else pton6_loop fuel (hextext post) have true []) = Ok (pton6_done have true (flat post)).
Proof.
  intros Hg Hf Hl. destruct (decide (post = [])) as [->|Hne]; [done|].
  destruct (cur_hextext_colon post [] Hg Hne) as [_ H0]. rewrite app_nil_r in H0.
  zfalse (cur (hextext post) =? 0). rewrite pton6_loop_last by (done || (rewrite ?zlen_nil; lia)). done.
Qed.

Lemma pton6_shape g best bestlen :
  zlen g = 8 → Forall group g →
  best = -1 ∨ (0 <= best ∧ 2 <= bestlen ∧ best + bestlen <= 8 ∧
               ∀ j, best <= j < best + bestlen → g !! Z.to_nat j = Some 0) →
  elpis_pton6 (shape6 g best bestlen) = Ok (Some (flat g)).
Proof.
  intros Hl Hg Hb. unfold shape6, elpis_pton6. destruct Hb as [->|(H0 & H2 & H8 & Hz)].
  { cbn [Z.ltb Z.compare]. assert (g ≠ []) as Hne by (by intros ->).
    destruct (cur_hextext_colon g [] Hg Hne) as [Hc _]. rewrite app_nil_r in Hc.
    zfalse (cur (hextext g) =? ch_colon). pose proof (hextext_length g Hg).
    rewrite pton6_loop_last by (done || (rewrite ?zlen_nil; zl)). unfold pton6_done. cbn [negb app].
    rewrite zlen_flat, Hl. done. }
  zfalse (best <? 0). set (pre := take (Z.to_nat best) g). set (post := drop (Z.to_nat (best + bestlen)) g).
  assert (Forall group pre ∧ Forall group post) as [Hgp Hgq] by (split; [by apply Forall_take|by apply Forall_drop]).
  assert (zlen pre = best) as Hlp by (unfold pre; rewrite zlen_take; lia).
  assert (zlen post = 8 - best - bestlen) as Hlq by (unfold post; rewrite zlen_drop; lia).
  pose proof (hextext_length post Hgq) as Hpl.
  assert (pton6_done (flat pre) true (flat post) = Some (flat g)) as Hdone.
  { unfold pton6_done. cbn [negb]. rewrite !zlen_flat. zfalse (14 <? 2 * zlen pre + 2 * zlen post).
    f_equal. rewrite (flat_gap g best bestlen) by (done || lia). fold pre post. do 3 f_equal. lia. }
  destruct (decide (pre = [])) as [Ep|Hne].
  - assert (flat pre = []) as Ef by (by rewrite Ep). rewrite Ef in Hdone. rewrite Ep.
    change (hextext []) with (@nil Z). cbn [app cur tail]. change (ch_colon =? ch_colon) with true. cbn [negb].
    rewrite pton6_after by (done || zl). by rewrite Hdone.
  - destruct (cur_hextext_colon pre (ch_colon :: ch_colon :: hextext post) Hgp Hne) as [Hc _].
    zfalse (cur (hextext pre ++ ch_colon :: ch_colon :: hextext post) =? ch_colon).
    pose proof (hextext_length pre Hgp).
    rewrite pton6_loop_gap; [|done|done|rewrite length_app; zl|rewrite zlen_nil; lia]. cbn [app].
    rewrite pton6_after by (done || (rewrite ?length_app; cbn [length]; zl)). by rewrite Hdone.
Qed.

(** ** What the parsers return *)

Definition octets16 (r : option (list Z)) : Prop :=
  match r with Some ip => zlen ip = 16 ∧ bytes ip | None => True end.

Lemma pton6_done_ok have gap after :
  bytes have → bytes after → octets16 (pton6_done have gap after).
Proof.
  intros Hh Ha. unfold pton6_done. pose proof (zlen_nonneg have). pose proof (zlen_nonneg after).
  destruct (negb gap).
  - destruct (Z.eqb_spec (zlen have) 16); done.
  - destruct (Z.ltb_spec 14 (zlen have + zlen after)); [done|]. split.
    + rewrite !zlen_app, zlen_zeros by lia. lia.
    + rewrite !Forall_app. split; [done|]. split; [apply bytes_zeros|done].
Qed.

Lemma hex_group_length s v n g d r : hex_group s v n = Some (g, d, r) → (length r <= length s)%nat.
Proof.
  revert v n. induction s as [|c s IH]; intros v n; cbn [hex_group]; [by intros [= <- <- <-]|].
  destruct (is_xdigit c); [|by intros [= <- <- <-]]. cbv zeta. destruct (4 <? n + 1); [done|].
  intros H%IH. cbn. lia.
Qed.

Lemma bytes_two g : bytes [u8 (Z.shiftr g 8); u8 g].
Proof. repeat constructor; apply u8_byte. Qed.

Lemma cur_not_nul s c : cur s = c → c ≠ 0 → (length (tail s) < length s)%nat.
Proof. destruct s; cbn; [congruence|lia]. Qed.

Lemma pton6_loop_total fuel : ∀ s have (gap : bool) after,
  (length s < fuel)%nat → bytes have → bytes after →
  ∃ r, pton6_loop fuel s have gap after = Ok r ∧ octets16 r.
Proof.
  induction fuel as [|f IH]; intros s have gap after Hf Hh Ha; [lia|]. cbn [pton6_loop]. cbv zeta.
  destruct (hex_group s 0 0) as [[[g d] s']|] eqn:Hg; [|by exists None].
  apply hex_group_length in Hg. destruct ((cur s' =? ch_dot) && (0 <? d)).
  { destruct (16 <? _); [by exists None|]. destruct (elpis_pton4 s) as [v4|] eqn:E4; [|by exists None].
    apply pton4_sound in E4 as (Hb4 & _). eexists. split; [done|].
    destruct gap; apply pton6_done_ok; rewrite ?Forall_app; done. }
  destruct (d =? 0); [by exists None|]. destruct (16 <? _); [by exists None|].
  set (have' := if gap then have else have ++ _). set (after' := if gap then after ++ _ else after).
  assert (bytes have' ∧ bytes after') as [Hh' Ha'].
  { pose proof (bytes_two g). subst have' after'. destruct gap; rewrite ?Forall_app; done. }
  destruct (cur s' =? 0); [eexists; split; [done|by apply pton6_done_ok]|].
  destruct (Z.eqb_spec (cur s') ch_colon) as [Hc|]; cbn [negb]; [|by exists None].
  apply cur_not_nul in Hc; [|done]. destruct (Z.eqb_spec (cur (tail s')) ch_colon) as [Hc2|].
  - destruct gap; [by exists None|]. apply cur_not_nul in Hc2; [|done].
    destruct (cur (tail (tail s')) =? 0); [eexists; split; [done|by apply pton6_done_ok]|].
    apply IH; (done || lia).
  - apply IH; (done || lia).
Qed.

Lemma pton6_total s : ∃ r, elpis_pton6 s = Ok r ∧ octets16 r.
Proof.
  unfold elpis_pton6. destruct (cur s =? ch_colon); [|apply pton6_loop_total; (constructor || lia)].
  destruct (negb _); [by exists None|].
  destruct (cur (tail (tail s)) =? 0); [eexists; split; [done|by apply pton6_done_ok]|].
  apply pton6_loop_total; (constructor || lia).
Qed.

Lemma ntop6_spec ip sz :
  bytes ip → zlen ip = 16 → 0 < sz →
  ∃ t, elpis_ntop6 ip sz = Ok (if zlen t <? sz then Some t else None) ∧ zlen t <= 40 ∧
    elpis_pton6 t = Ok (Some ip) ∧ Forall (fun c => is_xdigit c = true ∨ c = ch_colon) t ∧ ch_colon ∈ t.
Proof.
  intros Hb Hl Hsz. destruct (groups_of_spec ip Hb Hl) as (g & Eg & Hgl & Hg & Hflat).
  unfold elpis_ntop6. rewrite Eg. cbn [mbind res_bind].
  pose proof (zero_run_spec g g 0 (-1) 0 (-1) 0) as Hrun.
  destruct (zero_run g 0 (-1) 0 (-1) 0) as [best bestlen].
  assert (bestlen = 0 ∨ 0 <= best ∧ 0 < bestlen ∧ best + bestlen <= 8 ∧
          (∀ j, best <= j < best + bestlen → g !! Z.to_nat j = Some 0)) as Hr.
  { rewrite <- Hgl. apply Hrun; [done|lia|done|by left|by left]. }
  clear Hrun. set (b := if bestlen <? 2 then -1 else best).
  assert (b = -1 ∨ (0 <= b ∧ 2 <= bestlen ∧ b + bestlen <= 8 ∧
            ∀ j, b <= j < b + bestlen → g !! Z.to_nat j = Some 0)) as Hcase.
  { subst b. destruct (Z.ltb_spec bestlen 2); [by left|right]. destruct Hr as [|(? & ? & ? & ?)]; [lia|done]. }
  assert (b = -1 ∨ 0 <= b ∧ 2 <= bestlen ∧ b + bestlen <= 8) as Hcase' by tauto.
  exists (shape6 g b bestlen). rewrite ntop6_loop_spec by (done || lia || (rewrite ?zlen_nil; lia)).
  rewrite text6_shape by done. cbn [app]. split; [done|]. split; [by apply zlen_shape6|].
  split; [rewrite <- Hflat; by apply pton6_shape|].
  assert (∀ gs, Forall group gs → Forall (fun c => is_xdigit c = true ∨ c = ch_colon) (hextext gs)) as Hch.
  { induction 1 as [|x gs Hx Hgs IH]; [constructor|]. destruct (fmt_x_spec x Hx) as (_ & _ & Hd).
    assert (Forall (fun c => is_xdigit c = true ∨ c = ch_colon) (fmt_x x)) by (eapply Forall_impl; [|exact Hd]; by left).
    destruct (decide (gs = [])) as [->|]; [done|]. rewrite hextext_cons by done.
    apply Forall_app. split; [done|]. constructor; [by right|done]. }
  unfold shape6. destruct (b <? 0).
  - split; [by apply Hch|]. destruct (eight_groups g Hgl) as (x1 & x2 & x3 & x4 & x5 & x6 & x7 & x8 & ->).
    rewrite hextext_cons by done. apply elem_of_app. right. left.
  - split; [|apply elem_of_app; right; left]. apply Forall_app. split; [by apply Hch, Forall_take|].
    constructor; [by right|]. constructor; [by right|]. by apply Hch, Forall_drop.
Qed.

Lemma quad_chars ip : bytes ip → Forall (fun c => is_digit c = true ∨ c = ch_dot) (quad ip).
Proof.
  induction 1 as [|x ip Hx Hip IH]; [constructor|]. unfold byte in Hx.
  destruct (fmt_u_spec x) as (Hd & _); [lia|].
  assert (Forall (fun c => is_digit c = true ∨ c = ch_dot) (fmt_u x)) by (eapply Forall_impl; [|exact Hd]; by left).
  destruct (decide (ip = [])) as [->|]; [done|]. unfold quad in *. cbn [map]. rewrite join_cons by (by destruct ip).
  apply Forall_app. split; [done|]. constructor; [by right|done].
Qed.

Lemma pton4_no_colon t : ch_colon ∈ t → elpis_pton4 t = None.
Proof.
  intros Hin. destruct (elpis_pton4 t) as [ip|] eqn:E; [|done]. apply pton4_sound in E as (Hb & _ & ->).
  pose proof (quad_chars ip Hb) as Hq. rewrite Forall_forall in Hq. apply list_elem_of_In in Hin.
  destruct (Hq _ Hin) as [H|H]; [apply is_digit_range in H; unfold ch_colon in H; lia|done].
Qed.

Lemma ntop4_spec ip sz :
  bytes ip → zlen ip = 4 →
  elpis_ntop4 ip sz = Ok (if zlen (quad ip) <? sz then Some (quad ip) else None) ∧ 7 <= zlen (quad ip) <= 15.
Proof.
  intros Hb (a & b & c & d & ->)%four_octets. repeat (apply Forall_cons_iff in Hb as [? Hb]). unfold byte in *.
  assert (∀ v, 0 <= v < 256 → 1 <= zlen (fmt_u v) <= 3) as Hlen.
  { intros v Hv. destruct (fmt_u_spec v) as (_ & _ & _ & _ & Hk); [lia|]. specialize (Hk 3).
    pose proof (zlen_fmt_u_pos v). lia. }
  pose proof (Hlen a). pose proof (Hlen b). pose proof (Hlen c). pose proof (Hlen d).
  assert (zlen (quad [a; b; c; d]) = zlen (fmt_u a) + zlen (fmt_u b) + zlen (fmt_u c) + zlen (fmt_u d) + 3).
  { unfold quad. cbn [map join]. rewrite !zlen_app, !zlen_cons, !zlen_app, !zlen_cons, !zlen_app, !zlen_cons. lia. }
  split; [|lia].
  change (elpis_ntop4 [a; b; c; d] sz) with
    (@Ok (option (list Z)) (if (0 <? zlen (quad [a; b; c; d])) && (zlen (quad [a; b; c; d]) <? sz)
                            then Some (quad [a; b; c; d]) else None)).
  by ztrue (0 <? zlen (quad [a; b; c; d])).
Qed.

(** ** Host and port *)

Lemma strchr_app s c t : c ∉ s → strchr (s ++ c :: t) c = Some (zlen s).
Proof.
  induction s as [|x s IH]; intros Hn; cbn [app strchr]; [by rewrite Z.eqb_refl|].
  apply not_elem_of_cons in Hn as [? Hn]. zfalse (x =? c). rewrite IH by done. cbn. by rewrite zlen_cons.
Qed.

Lemma strchr_none s c : c ∉ s → strchr s c = None.
Proof.
  induction s as [|x s IH]; intros Hn; cbn [strchr]; [done|].
  apply not_elem_of_cons in Hn as [? Hn]. zfalse (x =? c). by rewrite IH.
Qed.

Lemma strrchr_none s c : c ∉ s → strrchr s c = None.
Proof.
  induction s as [|x s IH]; intros Hn; cbn [strrchr]; [done|].
  apply not_elem_of_cons in Hn as [? Hn]. rewrite IH by done. by zfalse (x =? c).
Qed.

Lemma strrchr_app s c t : c ∉ t → strrchr (s ++ c :: t) c = Some (zlen s).
Proof.
  intros Hn. induction s as [|x s IH]; cbn [app strrchr].
  - rewrite strrchr_none by done. by rewrite Z.eqb_refl.
  - rewrite IH. by rewrite zlen_cons.
Qed.

Lemma sub_to_app (s t : list Z) : sub_to (s ++ t) (zlen s) = s.
Proof. unfold sub_to. apply take_app_length'. zl. Qed.

Lemma sub_from_app (s t : list Z) n : 0 <= n → sub_from (s ++ t) (zlen s + n) = sub_from t n.
Proof. intros. unfold sub_from. rewrite drop_app_ge by zl. f_equal. zl. Qed.

Lemma not_in_Forall (P : Z → Prop) s c : Forall P s → ¬ P c → c ∉ s.
Proof. intros Hf Hn Hin. rewrite Forall_forall in Hf. by apply Hn, Hf, list_elem_of_In. Qed.

Lemma port_text port :
  0 <= port <= 65535 →
  all_digits (fmt_u port) ∧ 1 <= zlen (fmt_u port) <= 5 ∧ elpis_parse_u32 (Some (fmt_u port)) = Some port.
Proof.
  intros Hp. destruct (fmt_u_spec port) as (Hd & Hne & Hv & _ & Hk); [lia|]. split; [done|].
  split; [split; [apply zlen_fmt_u_pos; lia|apply Hk; lia]|].
  pose proof (parse_u32_complete [] (fmt_u port) []) as H. rewrite Hv, app_nil_r in H. apply H; (done || constructor || lia).
Qed.

Lemma digit_not c s : all_digits s → is_digit c = false → c ∉ s.
Proof. intros Hd Hc. apply (not_in_Forall (fun c => is_digit c = true)); [done|]. by rewrite Hc. Qed.

Definition wf_addr (a : elpis_addr_t) : Prop :=
  match a with
  | Addr4 ip port => bytes ip ∧ zlen ip = 4 ∧ 0 <= port <= 65535
  | Addr6 ip port => bytes ip ∧ zlen ip = 16 ∧ 0 <= port <= 65535
  | AddrOther => False
  end.

#[export] Instance wf_addr_dec a : Decision (wf_addr a).
Proof. destruct a; cbn; apply _. Defined.

Lemma addr_split4 host p :
  Forall (fun c => is_digit c = true ∨ c = ch_dot) host → host ≠ [] → zlen host < 128 → all_digits p →
  addr_split (host ++ ch_colon :: p) = Some (host, Some p).
Proof.
  intros Hh Hne Hl Hp. unfold addr_split.
  assert (∀ c, is_digit c = false → c ≠ ch_dot → c ∉ host) as Hnot.
  { intros c ??. eapply not_in_Forall; [exact Hh|]. cbn. intros [|]; congruence. }
  assert (cur (host ++ ch_colon :: p) ≠ ch_lbrack) as Hc.
  { rewrite cur_app_ne by done. intros E. apply (Hnot ch_lbrack); [done..|]. destruct host; [done|]. cbn in E. subst. left. }
  zfalse (cur (host ++ ch_colon :: p) =? ch_lbrack).
  rewrite (strchr_none _ ch_at).
  2:{ rewrite elem_of_app, elem_of_cons. intros [H|[H|H]]; [by apply Hnot in H|done|by apply digit_not in H]. }
  rewrite strrchr_app by (by apply digit_not). rewrite strchr_app by (by apply Hnot).
  rewrite bool_decide_true by done. zfalse (128 <=? zlen host).
  rewrite sub_to_app. do 3 f_equal. rewrite sub_from_app by lia. done.
Qed.

Lemma addr_split6 host p :
  ch_rbrack ∉ host → zlen host < 128 →
  addr_split (ch_lbrack :: host ++ ch_rbrack :: ch_colon :: p) = Some (host, Some p).
Proof.
  intros Hh Hl. unfold addr_split. cbn [cur]. change (ch_lbrack =? ch_lbrack) with true. cbv iota.
  change (ch_lbrack :: host ++ ch_rbrack :: ch_colon :: p) with ((ch_lbrack :: host) ++ ch_rbrack :: ch_colon :: p).
  rewrite strchr_app by (by apply not_elem_of_cons). cbn [mbind option_bind].
  rewrite zlen_cons. pose proof (zlen_nonneg host). zfalse (128 <=? 1 + zlen host - 1).
  replace (1 + zlen host + 1) with (zlen (ch_lbrack :: host) + 1) by (rewrite zlen_cons; lia).
  replace (1 + zlen host + 2) with (zlen (ch_lbrack :: host) + 2) by (rewrite zlen_cons; lia).
  rewrite !sub_from_app by lia. cbn [sub_from app]. change (sub_from (ch_rbrack :: ch_colon :: p) 1) with (ch_colon :: p).
  change (sub_from (ch_rbrack :: ch_colon :: p) 2) with p. cbn [cur]. change (ch_colon =? ch_colon) with true. cbn [orb].
  change (sub_from (ch_lbrack :: host ++ ch_rbrack :: ch_colon :: p) 1) with (host ++ ch_rbrack :: ch_colon :: p).
  replace (1 + zlen host - 1) with (zlen host) by lia. by rewrite sub_to_app.
Qed.

Lemma snprintf_fits t sz : zlen t < sz → snprintf sz t = t.
Proof. intros. unfold snprintf, sub_to. apply take_ge. zl. Qed.

Lemma addr_str_spec a sz :
  wf_addr a → 64 <= sz →
  ∃ t host p, elpis_addr_str (Some a) sz = Ok t ∧ addr_split t = Some (host, Some p) ∧ t ≠ [] ∧
    elpis_parse_u32 (Some p) = Some (elpis_addr_port a) ∧
    match a with
    | Addr4 ip _ => elpis_pton4 host = Some ip
    | Addr6 ip _ => elpis_pton4 host = None ∧ elpis_pton6 host = Ok (Some ip)
    | AddrOther => False
    end.
Proof.
  intros Ha Hsz. destruct a as [ip port|ip port|]; [..|done]; destruct Ha as (Hb & Hl & Hp);
    destruct (port_text port Hp) as (Hd & Hpl & Hpv).
  - destruct (ntop4_spec ip 64 Hb Hl) as [En Hq]. exists (quad ip ++ ch_colon :: fmt_u port), (quad ip), (fmt_u port).
    split.
    { cbn [elpis_addr_str]. rewrite rds_full by done. cbn [mbind res_bind]. rewrite En. ztrue (zlen (quad ip) <? 64).
      cbn [mbind res_bind]. change (default (str "?") (Some (quad ip))) with (quad ip).
      rewrite snprintf_fits by (rewrite zlen_app, zlen_cons; lia). done. }
    assert (quad ip ≠ []) by (intros E; assert (zlen (quad ip) = 0) by (by rewrite E); lia).
    split; [apply addr_split4; (done || lia || by apply quad_chars)|].
    split; [by destruct (quad ip)|]. split; [done|]. by apply pton4_complete.
  - destruct (ntop6_spec ip 64 Hb Hl ltac:(lia)) as (t & En & Ht & H6 & Hch & Hcol).
    exists (ch_lbrack :: t ++ [ch_rbrack; ch_colon] ++ fmt_u port), t, (fmt_u port). split.
    { cbn [elpis_addr_str]. rewrite rds_full by done. cbn [mbind res_bind]. rewrite En. ztrue (zlen t <? 64).
      cbn [mbind res_bind]. change (default (str "?") (Some t)) with t.
      rewrite snprintf_fits by (rewrite zlen_cons, zlen_app; cbn [app]; rewrite !zlen_cons; lia). done. }
    split.
    { cbn [app]. apply addr_split6; [|lia]. eapply not_in_Forall; [exact Hch|]. cbn.
      intros [H|H]; done. }
    split; [done|]. split; [done|]. split; [by apply pton4_no_colon|done].
Qed.

(** ** Prefixes *)

Definition wf_prefix (p : elpis_prefix_t) : Prop :=
  bytes (px_ip p) ∧ zlen (px_ip p) = 16 ∧ 0 <= px_bits p <= if px_v6 p then 128 else 32.

#[export] Instance wf_prefix_dec p : Decision (wf_prefix p).
Proof. unfold wf_prefix. apply _. Defined.

Lemma prefix_bits_ok r w b : 0 <= w <= 128 → prefix_bits r w = Some b → 0 <= b <= w.
Proof.
  intros Hw. unfold prefix_bits. destruct r as [t|]; [|intros [= <-]; lia].
  destruct (elpis_parse_u32 (Some t)) as [v|] eqn:E; [|done]. destruct (Z.ltb_spec w v); [done|]. intros [= <-].
  assert (0 <= v).
  { unfold elpis_parse_u32 in E. destruct (u32_digits _ _ _) as [[[? ?] ?]|]; [|done]. cbn in E.
    destruct (_ || _); [done|]. injection E as <-. apply u32_range. }
  rewrite u8_id; unfold byte; lia.
Qed.

Lemma prefix_parse_ok s :
  ∃ r, elpis_prefix_parse s = Ok r ∧ match r with Some p => wf_prefix p | None => True end.
Proof.
  unfold elpis_prefix_parse. destruct (128 <=? _); [by exists None|].
  destruct (elpis_pton4 _) as [ip|] eqn:E4.
  - eexists. split; [done|]. destruct (prefix_bits _ 32) as [b|] eqn:Eb; [|done]. cbn.
    apply pton4_sound in E4 as (Hb & Hl & _). apply prefix_bits_ok in Eb; [|lia].
    split; [apply Forall_app; split; [done|apply bytes_zeros]|]. cbn [px_ip px_bits px_v6]. rewrite zlen_app, zlen_zeros; lia.
  - destruct (pton6_total (sub_to s (default (zlen s) (strchr s ch_slash)))) as (r & -> & Hr). cbn [mbind res_bind].
    eexists. split; [done|]. destruct r as [ip|]; [|done].
    destruct (prefix_bits _ 128) as [b|] eqn:Eb; [|done]. cbn. apply prefix_bits_ok in Eb; [|lia].
    destruct Hr. by split.
Qed.

Lemma addr_bit_slice a n k : 0 <= k < 8 * n → n <= zlen a → addr_bit (slice a 0 n) k = addr_bit a k.
Proof.
  intros Hk Hn. pose proof (zlen_nonneg a). assert (0 <= n) by lia.
  replace a with (slice a 0 n ++ drop (Z.to_nat n) a) at 2
    by (unfold slice; change (Z.to_nat 0) with 0%nat; rewrite drop_0; apply take_drop).
  symmetry. apply addr_bit_app_l. by rewrite zlen_slice by lia.
Qed.

Lemma slices_eq_bits a b n :
  bytes a → bytes b → 0 <= n → n <= zlen a → n <= zlen b →
  slice a 0 n = slice b 0 n ↔ ∀ k, 0 <= k < 8 * n → addr_bit a k = addr_bit b k.
Proof.
  intros Ha Hb Hn Hna Hnb. split.
  - intros E k Hk. rewrite <- (addr_bit_slice a n), <- (addr_bit_slice b n) by (done || lia). by rewrite E.
  - intros H. apply addr_bits_ext; [by apply Forall_slice|by apply Forall_slice|by rewrite !zlen_slice by lia|].
    intros k. rewrite zlen_slice by lia. intros Hk. rewrite !addr_bit_slice by (done || lia). by apply H.
Qed.

Lemma land_lxor_distr u v m : Z.land (Z.lxor u v) m = Z.lxor (Z.land u m) (Z.land v m).
Proof.
  apply Z.bits_inj'. intros i _. rewrite Z.lxor_spec, !Z.land_spec, Z.lxor_spec.
  by destruct (Z.testbit u i), (Z.testbit v i), (Z.testbit m i).
Qed.

(** The octet compared under a mask. *)
Lemma masked_octet u v rem :
  byte u → byte v → 0 < rem < 8 →
  Z.land (Z.lxor u v) (u8 (Z.shiftl 0xFF (8 - rem))) = 0 ↔
  ∀ j, 0 <= j < rem → Z.testbit u (7 - j) = Z.testbit v (7 - j).
Proof.
  intros Hu Hv Hr. pose proof (octet_range u v rem Hu Hv ltac:(lia)) as H. cbv zeta in H.
  replace (8 <=? rem) with false in H by (symmetry; apply Z.leb_gt; lia).
  rewrite Z.min_r in H by lia. rewrite <- H.
  by rewrite land_lxor_distr, Z.lxor_eq_0_iff.
Qed.

Lemma prefix_match_go ip0 bits ip :
  bytes ip0 → bytes ip → 0 <= bits → bits <= 8 * zlen ip0 → bits <= 8 * zlen ip →
  ∃ r, (let bytes := bits / 8 in
        let rem := bits mod 8 in
        x ← rds ip 0 bytes; y ← rds ip0 0 bytes;
        if negb (bytes =? 0) && negb (bool_decide (x = y)) then Ok false
        else if negb (rem =? 0) then
          let mask := u8 (Z.shiftl 0xFF (8 - rem)) in
          u ← rd ip bytes; v ← rd ip0 bytes;
          Ok (Z.land (Z.lxor u v) mask =? 0)
        else Ok true) = Ok r ∧ (r = true ↔ ∀ k, 0 <= k < bits → addr_bit ip k = addr_bit ip0 k).
Proof.
  intros H0 H1 Hb Hl0 Hl1. cbv zeta. pose proof (Z.div_mod bits 8 ltac:(lia)) as Ed.
  pose proof (Z.mod_pos_bound bits 8 ltac:(lia)) as Hr. set (n := bits / 8) in *. set (rem := bits mod 8) in *.
  assert (0 <= n) by lia.
  rewrite !rds_in_range by lia. cbn [mbind res_bind].
  pose proof (slices_eq_bits ip ip0 n H1 H0 ltac:(lia) ltac:(lia) ltac:(lia)) as Hs.
  destruct (decide (slice ip 0 n = slice ip0 0 n)) as [E|E].
  - rewrite bool_decide_true by done. rewrite andb_false_r. pose proof (proj1 Hs E) as Hlow.
    destruct (Z.eqb_spec rem 0) as [Hz|Hz]; cbn [negb].
    + exists true. split; [done|]. split; [|done]. intros _ k Hk. apply Hlow. lia.
    + destruct (rd_in_range ip n) as (u & Hu & Lu); [lia|]. destruct (rd_in_range ip0 n) as (v & Hv & Lv); [lia|].
      rewrite Hu. cbn [mbind res_bind]. rewrite Hv. cbn [mbind res_bind]. eexists. split; [done|].
      rewrite Z.eqb_eq, masked_octet;
        [|by eapply (Forall_lookup_1 _ _ _ _ H1)|by eapply (Forall_lookup_1 _ _ _ _ H0)|lia].
      split.
      * intros Hm k Hk. destruct (Z_lt_le_dec k (8 * n)); [apply Hlow; lia|].
        replace k with (8 * n + (k - 8 * n)) by lia.
        rewrite (addr_bit_rd ip n u), (addr_bit_rd ip0 n v) by (done || lia). apply Hm. lia.
      * intros Hk j Hj. rewrite <- (addr_bit_rd ip n u), <- (addr_bit_rd ip0 n v) by (done || lia). apply Hk. lia.
  - rewrite bool_decide_false by done.
    assert (n ≠ 0) by (intros En; apply E; by rewrite En, !slice_0). zfalse (n =? 0). cbn [negb andb].
    exists false. split; [done|]. split; [done|]. intros Hk. exfalso. apply E, Hs. intros k ?. apply Hk. lia.
Qed.

Definition addr_ip (a : elpis_addr_t) : list Z :=
  match a with Addr4 ip _ | Addr6 ip _ => ip | AddrOther => [] end.
Definition same_family (p : elpis_prefix_t) (a : elpis_addr_t) : Prop :=
  match a with Addr4 _ _ => px_v6 p = false | Addr6 _ _ => px_v6 p = true | AddrOther => False end.

Lemma prefix_match_spec p a :
  wf_prefix p → wf_addr a →
  ∃ b, elpis_prefix_match p a = Ok b ∧
    (b = true ↔ same_family p a ∧ ∀ k, 0 <= k < px_bits p → addr_bit (addr_ip a) k = addr_bit (px_ip p) k).
Proof.
  intros (Hb & Hl & Hbits) Ha. unfold elpis_prefix_match.
  destruct a as [ip port|ip port|]; [destruct Ha as (Ha & Hal & _)..|by exists false]; cbn [addr_ip same_family];
    (destruct (px_v6 p) eqn:Ev; [|]; try by (exists false; split; [done|]; split; [done|intros [? _]]));
    (destruct (prefix_match_go (px_ip p) (px_bits p) ip) as (b & Eb & Hiff); [done|done|lia|lia|lia|]);
    exists b; (split; [exact Eb|]); rewrite Hiff; tauto.
Qed.

(** ** Properties *)

(** [elpis_pton4] accepts exactly the dotted quads that [elpis_ntop4]
    prints: four decimal numbers up to 255 without leading zeros, with their
    octets as the result. *)
Theorem pton4_exact (s ip : list Z) :
  elpis_pton4 s = Some ip ↔
  bytes ip ∧ zlen ip = 4 ∧ ∀ sz, 16 <= sz → elpis_ntop4 ip sz = Ok (Some s).
Proof.
  split.
  - intros (Hb & Hl & ->)%pton4_sound. split; [done|]. split; [done|]. intros sz Hsz.
    destruct (ntop4_spec ip sz Hb Hl) as [-> ?]. by ztrue (zlen (quad ip) <? sz).
  - intros (Hb & Hl & Hp). destruct (ntop4_spec ip 16 Hb Hl) as [En ?]. rewrite Hp in En by lia.
    replace (zlen (quad ip) <? 16) with true in En by (symmetry; apply Z.ltb_lt; lia). injection En as ->.
    by apply pton4_complete.
Qed.

(** Every IPv6 address survives printing and reading: [elpis_ntop6] writes
    at most 40 characters, fails only when the buffer is too small, and
    [elpis_pton6] reads the address back, whichever run of zero groups was
    cut. *)
Theorem pton6_ntop6 (ip : list Z) (sz : Z) :
  bytes ip → zlen ip = 16 → 0 < sz →
  ∃ t, elpis_ntop6 ip sz = Ok (if zlen t <? sz then Some t else None) ∧ zlen t <= 40 ∧
    elpis_pton6 t = Ok (Some ip).
Proof. intros Hb Hl Hsz. destruct (ntop6_spec ip sz Hb Hl Hsz) as (t & ? & ? & ? & _). by exists t. Qed.

(** 2001:db8:0:0:1:0:0:1 *)
Lemma pton6_ntop6_witness :
  ∃ t, elpis_ntop6 [32;1;13;184;0;0;0;0;0;1;0;0;0;0;0;1] 46 = Ok (if zlen t <? 46 then Some t else None) ∧
    zlen t <= 40 ∧ elpis_pton6 t = Ok (Some [32;1;13;184;0;0;0;0;0;1;0;0;0;0;0;1]).
Proof. apply (pton6_ntop6 [32;1;13;184;0;0;0;0;0;1;0;0;0;0;0;1] 46); by_compute. Defined.

(** A socket address written by [elpis_addr_str] is read back by
    [elpis_addr_parse], port and family included, unless the port is 0, which
    the parser refuses. *)
Theorem addr_text_round_trip (a : elpis_addr_t) (sz defport : Z) :
  wf_addr a → 64 <= sz →
  ∃ t, elpis_addr_str (Some a) sz = Ok t ∧
    elpis_addr_parse (Some t) defport = Ok (if elpis_addr_port a =? 0 then None else Some a).
Proof.
  intros Ha Hsz. destruct (addr_str_spec a sz Ha Hsz) as (t & host & p & Et & Es & Hne & Hp & Hhost).
  exists t. split; [done|]. destruct t as [|c t]; [done|]. unfold elpis_addr_parse. rewrite Es, Hp.
  assert (0 <= elpis_addr_port a <= 65535) by (destruct a; [apply Ha|apply Ha|done]).
  zfalse (65535 <? elpis_addr_port a). rewrite orb_false_r.
  destruct (Z.eqb_spec (elpis_addr_port a) 0); [done|]. rewrite u16_id by lia.
  destruct a as [ip port|ip port|]; [by rewrite Hhost| |done].
  destruct Hhost as [-> ->]. done.
Qed.

Lemma addr_text_round_trip_witness :
  ∃ t, elpis_addr_str (Some (Addr6 [0;0;0;0;0;0;0;0;0;0;0;0;0;0;0;1] 53)) 64 = Ok t ∧
    elpis_addr_parse (Some t) 5353 = Ok (Some (Addr6 [0;0;0;0;0;0;0;0;0;0;0;0;0;0;0;1] 53)).
Proof. apply (addr_text_round_trip (Addr6 [0;0;0;0;0;0;0;0;0;0;0;0;0;0;0;1] 53) 64 5353); by_compute. Defined.

(** Access control by prefix: [elpis_prefix_parse] ends on every text and
    gives a prefix no longer than its family is wide; [elpis_prefix_match]
    then reads nothing outside the addresses and holds exactly for the
    addresses of the same family that agree with the prefix on each of its
    leading bits. *)
Theorem prefix_match_bits (s : list Z) (a : elpis_addr_t) :
  wf_addr a →
  ∃ r, elpis_prefix_parse s = Ok r ∧
    ∀ p, r = Some p → wf_prefix p ∧
      ∃ b, elpis_prefix_match p a = Ok b ∧
        (b = true ↔ same_family p a ∧ ∀ k, 0 <= k < px_bits p → addr_bit (addr_ip a) k = addr_bit (px_ip p) k).
Proof.
  intros Ha. destruct (prefix_parse_ok s) as (r & Er & Hr). exists r. split; [done|]. intros p ->.
  split; [done|]. by apply prefix_match_spec.
Qed.

Lemma prefix_match_bits_witness :
  ∃ r, elpis_prefix_parse (str "10.0.0.0/9") = Ok r ∧
    ∀ p, r = Some p → wf_prefix p ∧
      ∃ b, elpis_prefix_match p (Addr4 [10; 127; 0; 1] 53) = Ok b ∧
        (b = true ↔ same_family p (Addr4 [10; 127; 0; 1] 53) ∧
           ∀ k, 0 <= k < px_bits p → addr_bit [10; 127; 0; 1] k = addr_bit (px_ip p) k).
Proof. apply (prefix_match_bits (str "10.0.0.0/9") (Addr4 [10; 127; 0; 1] 53)). by_compute. Defined.
