(* ===== verification/Rdesc.v ===== *)
(** The record-type descriptors of src/dns/rdata.c: field codes, the table
    and its binary search. *)
From Stdlib Require Import String.
From stdpp Require Import base list numbers.
From Stdlib Require Import ZArith Lia.
From S2P Require Import Prelude Bytes Simd Name NameText Ecs Msg Text Addr.

#[local] Open Scope Z_scope.

(** ** Numbers of include/elpis/dns.h the tables use *)

Definition ELPIS_T_A : Z := 1.
Definition ELPIS_T_NS : Z := 2.
Definition ELPIS_T_MD : Z := 3.
Definition ELPIS_T_MF : Z := 4.
Definition ELPIS_T_CNAME : Z := 5.
Definition ELPIS_T_SOA : Z := 6.
Definition ELPIS_T_MB : Z := 7.
Definition ELPIS_T_MG : Z := 8.
Definition ELPIS_T_MR : Z := 9.
Definition ELPIS_T_NULL : Z := 10.
Definition ELPIS_T_WKS : Z := 11.
Definition ELPIS_T_PTR : Z := 12.
Definition ELPIS_T_HINFO : Z := 13.
Definition ELPIS_T_MINFO : Z := 14.
Definition ELPIS_T_MX : Z := 15.
Definition ELPIS_T_TXT : Z := 16.
Definition ELPIS_T_RP : Z := 17.
Definition ELPIS_T_AFSDB : Z := 18.
Definition ELPIS_T_X25 : Z := 19.
Definition ELPIS_T_ISDN : Z := 20.
Definition ELPIS_T_RT : Z := 21.
Definition ELPIS_T_NSAP : Z := 22.
Definition ELPIS_T_NSAP_PTR : Z := 23.
Definition ELPIS_T_SIG : Z := 24.
Definition ELPIS_T_KEY : Z := 25.
Definition ELPIS_T_PX : Z := 26.
Definition ELPIS_T_GPOS : Z := 27.
Definition ELPIS_T_AAAA : Z := 28.
Definition ELPIS_T_LOC : Z := 29.
Definition ELPIS_T_NXT : Z := 30.
Definition ELPIS_T_SRV : Z := 33.
Definition ELPIS_T_NAPTR : Z := 35.
Definition ELPIS_T_KX : Z := 36.
Definition ELPIS_T_CERT : Z := 37.
Definition ELPIS_T_A6 : Z := 38.
Definition ELPIS_T_DNAME : Z := 39.
Definition ELPIS_T_APL : Z := 42.
Definition ELPIS_T_DS : Z := 43.
Definition ELPIS_T_SSHFP : Z := 44.
Definition ELPIS_T_IPSECKEY : Z := 45.
Definition ELPIS_T_RRSIG : Z := 46.
Definition ELPIS_T_NSEC : Z := 47.
Definition ELPIS_T_DNSKEY : Z := 48.
Definition ELPIS_T_DHCID : Z := 49.
Definition ELPIS_T_NSEC3 : Z := 50.
Definition ELPIS_T_NSEC3PARAM : Z := 51.
Definition ELPIS_T_TLSA : Z := 52.
Definition ELPIS_T_SMIMEA : Z := 53.
Definition ELPIS_T_HIP : Z := 55.
Definition ELPIS_T_NINFO : Z := 56.
Definition ELPIS_T_RKEY : Z := 57.
Definition ELPIS_T_TALINK : Z := 58.
Definition ELPIS_T_CDS : Z := 59.
Definition ELPIS_T_CDNSKEY : Z := 60.
Definition ELPIS_T_OPENPGPKEY : Z := 61.
Definition ELPIS_T_CSYNC : Z := 62.
Definition ELPIS_T_ZONEMD : Z := 63.
Definition ELPIS_T_SVCB : Z := 64.
Definition ELPIS_T_HTTPS : Z := 65.
Definition ELPIS_T_DSYNC : Z := 66.
Definition ELPIS_T_SPF : Z := 99.
Definition ELPIS_T_NID : Z := 104.
Definition ELPIS_T_L32 : Z := 105.
Definition ELPIS_T_L64 : Z := 106.
Definition ELPIS_T_LP : Z := 107.
Definition ELPIS_T_EUI48 : Z := 108.
Definition ELPIS_T_EUI64 : Z := 109.
Definition ELPIS_T_TKEY : Z := 249.
Definition ELPIS_T_TSIG : Z := 250.
Definition ELPIS_T_IXFR : Z := 251.
Definition ELPIS_T_AXFR : Z := 252.
Definition ELPIS_T_MAILB : Z := 253.
Definition ELPIS_T_MAILA : Z := 254.
Definition ELPIS_T_ANY : Z := 255.
Definition ELPIS_T_URI : Z := 256.
Definition ELPIS_T_CAA : Z := 257.
Definition ELPIS_T_AVC : Z := 258.
Definition ELPIS_T_AMTRELAY : Z := 260.
Definition ELPIS_T_RESINFO : Z := 261.
Definition ELPIS_T_TA : Z := 32768.
Definition ELPIS_T_DLV : Z := 32769.

(** ** Field codes (include/elpis/rdata.h) *)

Inductive rdf :=
  | RDF_END | RDF_U8 | RDF_U16 | RDF_U32 | RDF_U48 | RDF_U64 | RDF_A | RDF_AAAA
  | RDF_NAME | RDF_NAME_UNC | RDF_STR | RDF_STRS | RDF_BLOB | RDF_BLOB1
  | RDF_BITMAP | RDF_NSEC3_SALT | RDF_NSEC3_HASH | RDF_SVCPARAMS | RDF_IPSECKEY
  | RDF_HIP | RDF_APL | RDF_LOC | RDF_WKS | RDF_AMTRELAY.

#[export] Instance rdf_eq_dec : EqDecision rdf.
Proof. solve_decision. Defined.

Record rr_desc_t := mkDesc { ds_type : Z; ds_name : list Z; ds_f : list rdf; ds_downcase : bool }.

(** The macro [F]: a field array with its terminator. *)
Definition F (l : list rdf) : list rdf := l ++ [RDF_END].

Definition f_a := F [RDF_A].
Definition f_aaaa := F [RDF_AAAA].
Definition f_name := F [RDF_NAME].
Definition f_name_unc := F [RDF_NAME_UNC].
Definition f_soa := F [RDF_NAME; RDF_NAME; RDF_U32; RDF_U32; RDF_U32; RDF_U32; RDF_U32].
Definition f_wks := F [RDF_WKS].
Definition f_hinfo := F [RDF_STR; RDF_STR].
Definition f_minfo := F [RDF_NAME; RDF_NAME].
Definition f_mx := F [RDF_U16; RDF_NAME].
Definition f_txt := F [RDF_STR; RDF_STRS].
Definition f_afsdb := F [RDF_U16; RDF_NAME].
Definition f_x25 := F [RDF_STR].
Definition f_isdn := F [RDF_STR; RDF_STRS].
Definition f_nsap := F [RDF_BLOB1].
Definition f_px := F [RDF_U16; RDF_NAME; RDF_NAME].
Definition f_gpos := F [RDF_STR; RDF_STR; RDF_STR].
Definition f_loc := F [RDF_LOC].
Definition f_nxt := F [RDF_NAME; RDF_BLOB].
Definition f_srv := F [RDF_U16; RDF_U16; RDF_U16; RDF_NAME_UNC].
Definition f_naptr := F [RDF_U16; RDF_U16; RDF_STR; RDF_STR; RDF_STR; RDF_NAME_UNC].
Definition f_kx := F [RDF_U16; RDF_NAME_UNC].
Definition f_cert := F [RDF_U16; RDF_U16; RDF_U8; RDF_BLOB].
Definition f_ds := F [RDF_U16; RDF_U8; RDF_U8; RDF_BLOB1].
Definition f_sshfp := F [RDF_U8; RDF_U8; RDF_BLOB1].
Definition f_ipseckey := F [RDF_IPSECKEY].
Definition f_rrsig := F [RDF_U16; RDF_U8; RDF_U8; RDF_U32; RDF_U32; RDF_U32; RDF_U16; RDF_NAME_UNC; RDF_BLOB1].
Definition f_nsec := F [RDF_NAME_UNC; RDF_BITMAP].
Definition f_dnskey := F [RDF_U16; RDF_U8; RDF_U8; RDF_BLOB1].
Definition f_dhcid := F [RDF_BLOB1].
Definition f_nsec3 := F [RDF_U8; RDF_U8; RDF_U16; RDF_NSEC3_SALT; RDF_NSEC3_HASH; RDF_BITMAP].
Definition f_nsec3param := F [RDF_U8; RDF_U8; RDF_U16; RDF_NSEC3_SALT].
Definition f_tlsa := F [RDF_U8; RDF_U8; RDF_U8; RDF_BLOB1].
Definition f_hip := F [RDF_HIP].
Definition f_csync := F [RDF_U32; RDF_U16; RDF_BITMAP].
Definition f_zonemd := F [RDF_U32; RDF_U8; RDF_U8; RDF_BLOB1].
Definition f_svcb := F [RDF_U16; RDF_NAME_UNC; RDF_SVCPARAMS].
Definition f_openpgpkey := F [RDF_BLOB1].
Definition f_nid := F [RDF_U16; RDF_U64].
Definition f_l32 := F [RDF_U16; RDF_U32].
Definition f_l64 := F [RDF_U16; RDF_U64].
Definition f_lp := F [RDF_U16; RDF_NAME_UNC].
Definition f_eui48 := F [RDF_U48].
Definition f_eui64 := F [RDF_U64].
Definition f_uri := F [RDF_U16; RDF_U16; RDF_BLOB1].
Definition f_caa := F [RDF_U8; RDF_STR; RDF_BLOB].
Definition f_apl := F [RDF_APL].
Definition f_amtrelay := F [RDF_AMTRELAY].
Definition f_dsync := F [RDF_U16; RDF_U8; RDF_U16; RDF_NAME_UNC].
Definition f_blob := F [RDF_BLOB].

(** ** The tables *)

Definition k_desc : list rr_desc_t :=
  [ mkDesc ELPIS_T_A (str "A") f_a false
  ; mkDesc ELPIS_T_NS (str "NS") f_name true
  ; mkDesc ELPIS_T_MD (str "MD") f_name true
  ; mkDesc ELPIS_T_MF (str "MF") f_name true
  ; mkDesc ELPIS_T_CNAME (str "CNAME") f_name true
  ; mkDesc ELPIS_T_SOA (str "SOA") f_soa true
  ; mkDesc ELPIS_T_MB (str "MB") f_name true
  ; mkDesc ELPIS_T_MG (str "MG") f_name true
  ; mkDesc ELPIS_T_MR (str "MR") f_name true
  ; mkDesc ELPIS_T_NULL (str "NULL") f_blob false
  ; mkDesc ELPIS_T_WKS (str "WKS") f_wks false
  ; mkDesc ELPIS_T_PTR (str "PTR") f_name true
  ; mkDesc ELPIS_T_HINFO (str "HINFO") f_hinfo false
  ; mkDesc ELPIS_T_MINFO (str "MINFO") f_minfo true
  ; mkDesc ELPIS_T_MX (str "MX") f_mx true
  ; mkDesc ELPIS_T_TXT (str "TXT") f_txt false
  ; mkDesc ELPIS_T_RP (str "RP") f_minfo true
  ; mkDesc ELPIS_T_AFSDB (str "AFSDB") f_afsdb true
  ; mkDesc ELPIS_T_X25 (str "X25") f_x25 false
  ; mkDesc ELPIS_T_ISDN (str "ISDN") f_isdn false
  ; mkDesc ELPIS_T_RT (str "RT") f_afsdb true
  ; mkDesc ELPIS_T_NSAP (str "NSAP") f_nsap false
  ; mkDesc ELPIS_T_NSAP_PTR (str "NSAP-PTR") f_name true
  ; mkDesc ELPIS_T_SIG (str "SIG") f_rrsig true
  ; mkDesc ELPIS_T_KEY (str "KEY") f_dnskey false
  ; mkDesc ELPIS_T_PX (str "PX") f_px true
  ; mkDesc ELPIS_T_GPOS (str "GPOS") f_gpos false
  ; mkDesc ELPIS_T_AAAA (str "AAAA") f_aaaa false
  ; mkDesc ELPIS_T_LOC (str "LOC") f_loc false
  ; mkDesc ELPIS_T_NXT (str "NXT") f_nxt true
  ; mkDesc ELPIS_T_SRV (str "SRV") f_srv true
  ; mkDesc ELPIS_T_NAPTR (str "NAPTR") f_naptr true
  ; mkDesc ELPIS_T_KX (str "KX") f_kx true
  ; mkDesc ELPIS_T_CERT (str "CERT") f_cert false
  ; mkDesc ELPIS_T_A6 (str "A6") f_blob false
  ; mkDesc ELPIS_T_DNAME (str "DNAME") f_name_unc true
  ; mkDesc ELPIS_T_APL (str "APL") f_apl false
  ; mkDesc ELPIS_T_DS (str "DS") f_ds false
  ; mkDesc ELPIS_T_SSHFP (str "SSHFP") f_sshfp false
  ; mkDesc ELPIS_T_IPSECKEY (str "IPSECKEY") f_ipseckey false
  ; mkDesc ELPIS_T_RRSIG (str "RRSIG") f_rrsig true
  ; mkDesc ELPIS_T_NSEC (str "NSEC") f_nsec false
  ; mkDesc ELPIS_T_DNSKEY (str "DNSKEY") f_dnskey false
  ; mkDesc ELPIS_T_DHCID (str "DHCID") f_dhcid false
  ; mkDesc ELPIS_T_NSEC3 (str "NSEC3") f_nsec3 false
  ; mkDesc ELPIS_T_NSEC3PARAM (str "NSEC3PARAM") f_nsec3param false
  ; mkDesc ELPIS_T_TLSA (str "TLSA") f_tlsa false
  ; mkDesc ELPIS_T_SMIMEA (str "SMIMEA") f_tlsa false
  ; mkDesc ELPIS_T_HIP (str "HIP") f_hip false
  ; mkDesc ELPIS_T_NINFO (str "NINFO") f_txt false
  ; mkDesc ELPIS_T_RKEY (str "RKEY") f_dnskey false
  ; mkDesc ELPIS_T_TALINK (str "TALINK") f_minfo false
  ; mkDesc ELPIS_T_CDS (str "CDS") f_ds false
  ; mkDesc ELPIS_T_CDNSKEY (str "CDNSKEY") f_dnskey false
  ; mkDesc ELPIS_T_OPENPGPKEY (str "OPENPGPKEY") f_openpgpkey false
  ; mkDesc ELPIS_T_CSYNC (str "CSYNC") f_csync false
  ; mkDesc ELPIS_T_ZONEMD (str "ZONEMD") f_zonemd false
  ; mkDesc ELPIS_T_SVCB (str "SVCB") f_svcb false
  ; mkDesc ELPIS_T_HTTPS (str "HTTPS") f_svcb false
  ; mkDesc ELPIS_T_DSYNC (str "DSYNC") f_dsync false
  ; mkDesc ELPIS_T_SPF (str "SPF") f_txt false
  ; mkDesc ELPIS_T_NID (str "NID") f_nid false
  ; mkDesc ELPIS_T_L32 (str "L32") f_l32 false
  ; mkDesc ELPIS_T_L64 (str "L64") f_l64 false
  ; mkDesc ELPIS_T_LP (str "LP") f_lp false
  ; mkDesc ELPIS_T_EUI48 (str "EUI48") f_eui48 false
  ; mkDesc ELPIS_T_EUI64 (str "EUI64") f_eui64 false
  ; mkDesc ELPIS_T_URI (str "URI") f_uri false
  ; mkDesc ELPIS_T_CAA (str "CAA") f_caa false
  ; mkDesc ELPIS_T_AVC (str "AVC") f_txt false
  ; mkDesc ELPIS_T_AMTRELAY (str "AMTRELAY") f_amtrelay false
  ; mkDesc ELPIS_T_RESINFO (str "RESINFO") f_txt false ].

Definition k_meta : list (Z * list Z) :=
  [ (ELPIS_T_OPT, str "OPT")
  ; (ELPIS_T_TKEY, str "TKEY")
  ; (ELPIS_T_TSIG, str "TSIG")
  ; (ELPIS_T_IXFR, str "IXFR")
  ; (ELPIS_T_AXFR, str "AXFR")
  ; (ELPIS_T_MAILB, str "MAILB")
  ; (ELPIS_T_MAILA, str "MAILA")
  ; (ELPIS_T_ANY, str "ANY")
  ; (ELPIS_T_TA, str "TA")
  ; (ELPIS_T_DLV, str "DLV") ].
(** ** Lookups *)

(** The binary search of [desc_of]. *)
Fixpoint desc_loop (fuel : nat) (tab : list rr_desc_t) (type lo hi : Z) : res (option rr_desc_t) :=
  match fuel with
  | O => Stuck OutOfFuel
  | S f =>
    if lo <? hi then
      let mid := lo + (hi - lo) / 2 in
      d ← rd tab mid;
      if ds_type d =? type then Ok (Some d)
      else if ds_type d <? type then desc_loop f tab type (mid + 1) hi
      else desc_loop f tab type lo mid
    else Ok None
  end.

(** The interval shrinks at every turn. *)
Definition desc_of (type : Z) : res (option rr_desc_t) :=
  desc_loop (S (length k_desc)) k_desc type 0 (zlen k_desc).

Definition elpis_rdata_downcase (type : Z) : res bool :=
  d ← desc_of type;
  Ok match d with Some d => ds_downcase d | None => false end.

(** ** The binary search is a search *)

Definition sorted_by_type (tab : list rr_desc_t) : Prop :=
  ∀ i j a b, (i < j)%nat → tab !! i = Some a → tab !! j = Some b → ds_type a < ds_type b.

(** A comparison of neighbours decides it. *)
Fixpoint ascending (tab : list rr_desc_t) : bool :=
  match tab with
  | a :: (b :: _) as tab' => (ds_type a <? ds_type b) && ascending tab'
  | _ => true
  end.

Lemma ascending_head a tab : ascending (a :: tab) = true → Forall (fun b => ds_type a < ds_type b) tab.
Proof.
  revert a. induction tab as [|b tab IH]; intros a H; [constructor|].
  cbn in H. apply andb_true_iff in H as [Hab H]. bool_to_prop. constructor; [done|].
  eapply Forall_impl; [|exact (IH b H)]. cbv beta. intros; lia.
Qed.

Lemma ascending_sorted tab : ascending tab = true → sorted_by_type tab.
Proof.
  induction tab as [|c tab IH]; intros H i j a b Hij Ha Hb; [done|].
  destruct j as [|j]; [lia|]. destruct i as [|i].
  - injection Ha as <-. by eapply (Forall_lookup_1 _ _ _ _ (ascending_head c tab H)).
  - apply (IH ltac:(destruct tab; [done|by apply andb_true_iff in H as [_ ?]]) i j); [lia|done|done].
Qed.

Lemma desc_loop_spec tab t fuel : ∀ lo hi,
  sorted_by_type tab → 0 <= lo <= hi → hi <= zlen tab → hi - lo < Z.of_nat fuel →
  (∀ i d, tab !! i = Some d → ds_type d = t → lo <= Z.of_nat i < hi) →
  ∃ r, desc_loop fuel tab t lo hi = Ok r ∧
    match r with
    | Some d => d ∈ tab ∧ ds_type d = t
    | None => ∀ d, d ∈ tab → ds_type d ≠ t
    end.
Proof.
  induction fuel as [|f IH]; intros lo hi Hs Hlo Hhi Hf Hin; cbn [desc_loop]; [lia|].
  destruct (Z.ltb_spec lo hi) as [Hlt|Hge].
  2:{ exists None. split; [done|]. intros d [i Hi]%list_elem_of_lookup Ht.
      pose proof (Hin i d Hi Ht). lia. }
  set (mid := lo + (hi - lo) / 2).
  assert (lo <= mid < hi) as Hmid by (unfold mid; zdiv).
  destruct (rd_in_range tab mid) as (d & Hrd & Hd); [lia|]. rewrite Hrd. bind_step.
  destruct (Z.eqb_spec (ds_type d) t) as [He|Hne].
  { exists (Some d). split; [done|]. split; [|done]. by eapply list_elem_of_lookup_2. }
  destruct (Z.ltb_spec (ds_type d) t) as [Hl|Hg]; apply IH; try done; try lia.
  - intros i b Hi Hb. specialize (Hin i b Hi Hb).
    destruct (decide (i < Z.to_nat mid)%nat) as [Hi'|?].
    { specialize (Hs i (Z.to_nat mid) b d Hi' Hi Hd). lia. }
    destruct (decide (i = Z.to_nat mid)) as [->|?]; [|lia]. congruence.
  - intros i b Hi Hb. specialize (Hin i b Hi Hb).
    destruct (decide (Z.to_nat mid < i)%nat) as [Hi'|?].
    { specialize (Hs (Z.to_nat mid) i d b Hi' Hd Hi). lia. }
    destruct (decide (i = Z.to_nat mid)) as [->|?]; [|lia]. congruence.
Qed.

Lemma k_desc_sorted : sorted_by_type k_desc.
Proof. apply ascending_sorted. by vm_compute. Qed.

Lemma sorted_unique tab a b : sorted_by_type tab → a ∈ tab → b ∈ tab → ds_type a = ds_type b → a = b.
Proof.
  intros Hs [i Hi]%list_elem_of_lookup [j Hj]%list_elem_of_lookup Ht.
  destruct (lt_eq_lt_dec i j) as [[Hij|<-]|Hij]; [|congruence|].
  - specialize (Hs i j a b Hij Hi Hj). lia.
  - specialize (Hs j i b a Hij Hj Hi). lia.
Qed.

Lemma desc_of_spec t : desc_of t = Ok (List.find (fun d => ds_type d =? t) k_desc).
Proof.
  unfold desc_of. destruct (desc_loop_spec k_desc t (S (List.length k_desc)) 0 (zlen k_desc)) as (r & -> & Hr).
  - apply k_desc_sorted.
  - pose proof (zlen_nonneg k_desc). lia.
  - lia.
  - zl.
  - intros i d Hi%lookup_lt_Some _. zl.
  - f_equal. destruct (List.find _ k_desc) as [d|] eqn:Hf.
    + apply List.find_some in Hf as [Hin%list_elem_of_In Ht]. bool_to_prop. destruct r as [d'|]; [|by destruct (Hr d)].
      destruct Hr as [Hin' Ht']. f_equal. apply (sorted_unique k_desc); [apply k_desc_sorted|done|done|congruence].
    + destruct r as [d|]; [|done]. destruct Hr as [Hin Ht].
      pose proof (List.find_none _ _ Hf d (proj1 (list_elem_of_In _ _) Hin)) as Hn. cbv beta in Hn. bool_to_prop. done.
Qed.

(** ** Properties *)

(** The binary search over the descriptor table finds what a linear search
    finds, for every number: the table is sorted, and the search stays inside
    it and ends. *)
Theorem desc_of_linear (t : Z) :
  desc_of t = Ok (List.find (fun d => ds_type d =? t) k_desc).
Proof. apply desc_of_spec. Qed.
