(* ===== verification/Bitmap.v ===== *)
(** NSEC type bitmaps: [elpis_bitmap_validate] and [elpis_bitmap_has] of
    src/dns/rdata.c, against the window grammar of RFC 4034 section 4.1.2. *)
From stdpp Require Import base list numbers.
From Stdlib Require Import ZArith Lia.
From S2P Require Import Prelude Bytes Simd Name.

(** ** Definitions *)

(** Both loops advance by at least two octets a turn. *)
Fixpoint bitmap_validate_loop (fuel : nat) (bm : list Z) (bmlen i last : Z) : res unit :=
  match fuel with
  | O => Stuck OutOfFuel
  | S f =>
    if i <? bmlen then
      _ ← guard_err (bmlen <? i + 2) ELPIS_EFORMAT ELPIS_DROP_NONE;
      win ← rd bm i;
      len ← rd bm (i + 1);
      _ ← guard_err ((len =? 0) || (32 <? len)) ELPIS_EFORMAT ELPIS_DROP_NONE;
      _ ← guard_err (win <=? last) ELPIS_EFORMAT ELPIS_DROP_NONE;
      _ ← guard_err (bmlen <? i + 2 + len) ELPIS_EFORMAT ELPIS_DROP_NONE;
      bitmap_validate_loop f bm bmlen (i + (2 + len)) win
    else Ok tt
  end.
Definition elpis_bitmap_validate (bm : list Z) (bmlen : Z) : res unit :=
  bitmap_validate_loop (S (Z.to_nat bmlen)) bm bmlen 0 (-1).

Fixpoint bitmap_has_loop (fuel : nat) (bm : list Z) (bmlen want_win bit i : Z) : res bool :=
  match fuel with
  | O => Stuck OutOfFuel
  | S f =>
    if i + 2 <=? bmlen then
      win ← rd bm i;
      len ← rd bm (i + 1);
      if (len =? 0) || (32 <? len) || (bmlen <? i + 2 + len) then Ok false
      else if win =? want_win then
        let octet := bit / 8 in
        if len <=? octet then Ok false
        else
          b ← rd bm (i + 2 + octet);
          Ok (negb (Z.land (Z.shiftr b (7 - bit mod 8)) 1 =? 0))
      else if want_win <? win then Ok false
      else bitmap_has_loop f bm bmlen want_win bit (i + (2 + len))
    else Ok false
  end.
Definition elpis_bitmap_has (bm : list Z) (bmlen type : Z) : res bool :=
  bitmap_has_loop (S (Z.to_nat bmlen)) bm bmlen (Z.shiftr type 8) (Z.land type 0xFF) 0.

(** ** The grammar *)

(** A bitmap is a list of windows, each a number and its 1 to 32 octets, the
    numbers strictly increasing. *)
Definition window : Type := Z * list Z.
Definition enc_window (w : window) : list Z := fst w :: zlen (snd w) :: snd w.
Definition enc_windows (ws : list window) : list Z := concat (map enc_window ws).

Fixpoint windows_above (last : Z) (ws : list window) : Prop :=
  match ws with
  | [] => True
  | (w, bs) :: ws => last < w ∧ 1 <= zlen bs <= 32 ∧ windows_above w ws
  end.
Definition windows_ok (ws : list window) : Prop := windows_above (-1) ws.

(** Type [t] is in the bitmap: its bit is set in its window. *)
Definition in_windows (ws : list window) (t : Z) : Prop :=
  ∃ bs b, (t / 256, bs) ∈ ws ∧ bs !! Z.to_nat (t mod 256 / 8) = Some b ∧
    Z.testbit b (7 - t mod 8) = true.

#[export] Instance windows_above_dec last ws : Decision (windows_above last ws).
Proof. revert last. induction ws as [|[w bs] ws IH]; intros last; cbn; apply _. Defined.
#[export] Instance windows_ok_dec ws : Decision (windows_ok ws).
Proof. unfold windows_ok. apply _. Defined.

(** ** Lemmas *)

Lemma enc_windows_cons w bs ws : enc_windows ((w, bs) :: ws) = w :: zlen bs :: bs ++ enc_windows ws.
Proof. done. Qed.

(** A window read at [i] of a bitmap that ends at [e]. *)
Lemma slice_window (bm : list Z) i e w bs ws :
  0 <= i <= e → e <= zlen bm →
  slice bm i (e - i) = enc_windows ((w, bs) :: ws) ↔
  i + 2 + zlen bs <= e ∧ rd bm i = Ok w ∧ rd bm (i + 1) = Ok (zlen bs) ∧
  slice bm (i + 2) (zlen bs) = bs ∧
  slice bm (i + (2 + zlen bs)) (e - (i + (2 + zlen bs))) = enc_windows ws.
Proof.
  intros Hi He. pose proof (zlen_nonneg bs) as Hb. rewrite enc_windows_cons. split.
  - intros Hs. assert (i + 2 + zlen bs <= e) as Hle.
    { apply (f_equal zlen) in Hs. rewrite zlen_slice in Hs by lia. rewrite !zlen_cons, zlen_app in Hs.
      pose proof (zlen_nonneg (enc_windows ws)). lia. }
    split; [done|]. replace (e - i) with (1 + (1 + (e - i - 2))) in Hs by lia.
    destruct (slice_cons_inv bm i (1 + (e - i - 2)) w (zlen bs :: bs ++ enc_windows ws)) as [H0 Hs1]; [lia|lia|lia|done|].
    destruct (slice_cons_inv bm (i + 1) (e - i - 2) (zlen bs) (bs ++ enc_windows ws)) as [H1 Hs2]; [lia|lia|lia|done|].
    split; [done|]. split; [done|].
    replace (e - i - 2) with (zlen bs + (e - (i + (2 + zlen bs)))) in Hs2 by lia.
    rewrite slice_split in Hs2 by lia.
    apply app_inj_1 in Hs2 as [Ha Hc]; [|apply Nat2Z.inj; fold (zlen (slice bm (i + 1 + 1) (zlen bs))); rewrite zlen_slice by lia; done].
    replace (i + 2) with (i + 1 + 1) by lia. split; [done|].
    by replace (i + (2 + zlen bs)) with (i + 1 + 1 + zlen bs) at 1 by lia.
  - intros (Hle & H0 & H1 & Ha & Hc).
    rewrite (slice_cons_rd bm i (e - i) w) by (lia || done).
    rewrite (slice_cons_rd bm (i + 1) _ (zlen bs)) by (lia || done). f_equal. f_equal.
    replace (e - i - 1 - 1) with (zlen bs + (e - (i + (2 + zlen bs)))) by lia.
    rewrite slice_split by lia. replace (i + 1 + 1) with (i + 2) by lia. rewrite Ha. f_equal.
    by replace (i + 2 + zlen bs) with (i + (2 + zlen bs)) by lia.
Qed.

Lemma windows_above_lt last ws w bs : windows_above last ws → (w, bs) ∈ ws → last < w ∧ 1 <= zlen bs <= 32.
Proof.
  revert last. induction ws as [|[w' bs'] ws IH]; intros last Ha Hin; [by apply not_elem_of_nil in Hin|].
  destruct Ha as (? & ? & Ha). apply elem_of_cons in Hin as [[= -> ->]|Hin]; [done|].
  destruct (IH w' Ha Hin). lia.
Qed.

Lemma slice_no_window (bm : list Z) i e ws :
  0 <= i <= e → e <= zlen bm → slice bm i (e - i) = enc_windows ws → ws = [] ↔ i = e.
Proof.
  intros Hi He Hs. apply (f_equal zlen) in Hs. rewrite zlen_slice in Hs by lia.
  destruct ws as [|[w bs] ws]; [split; [|done]; cbn in Hs; rewrite zlen_nil in Hs; lia|].
  split; [done|]. rewrite enc_windows_cons, !zlen_cons in Hs.
  pose proof (zlen_nonneg (bs ++ enc_windows ws)). lia.
Qed.

(** [(b >> k) & 1u] *)
Lemma land_1_testbit b k : 0 <= k → negb (Z.land (Z.shiftr b k) 1 =? 0) = Z.testbit b k.
Proof.
  intros. change 1 with (Z.ones 1). rewrite Z.land_ones, shiftr_div by lia.
  rewrite <- Z.testbit_spec' by lia. by destruct (Z.testbit b k).
Qed.

Section loops.
Context (bm : list Z) (bmlen : Z) (Hbm : bytes bm) (Hlen : bmlen <= zlen bm).

Lemma bm_octet i : 0 <= i < bmlen → ∃ b, rd bm i = Ok b ∧ byte b.
Proof.
  intros. destruct (rd_in_range bm i) as (b & Hb & Hl); [lia|]. exists b. split; [done|].
  exact (Forall_lookup_1 _ _ _ _ Hbm Hl).
Qed.

(** A list of windows spelled at [i], given its first two octets. *)
Lemma window_inv i win len ws :
  0 <= i → i < bmlen → rd bm i = Ok win → (i + 1 < bmlen → rd bm (i + 1) = Ok len) →
  slice bm i (bmlen - i) = enc_windows ws →
  ∃ bs ws', ws = (win, bs) :: ws' ∧ zlen bs = len ∧ i + 2 + len <= bmlen ∧ slice bm (i + 2) len = bs ∧
    slice bm (i + (2 + len)) (bmlen - (i + (2 + len))) = enc_windows ws'.
Proof.
  intros Hi Hlt H0 H1 Hs. pose proof (slice_no_window bm i bmlen ws ltac:(lia) Hlen Hs) as Hn.
  destruct ws as [|[w bs] ws]; [destruct Hn as [Hn _]; specialize (Hn eq_refl); lia|].
  apply slice_window in Hs as (? & H0' & H1' & Ha & Hc); [|lia|lia].
  pose proof (zlen_nonneg bs). specialize (H1 ltac:(lia)).
  assert (win = w) as -> by congruence. assert (len = zlen bs) as -> by congruence.
  exists bs, ws. split_and!; (done || lia).
Qed.

Lemma bitmap_validate_loop_spec fuel : ∀ i last,
  0 <= i <= bmlen → bmlen - i < Z.of_nat fuel →
  match bitmap_validate_loop fuel bm bmlen i last with
  | Ok _ => ∃ ws, windows_above last ws ∧ slice bm i (bmlen - i) = enc_windows ws
  | Err rc _ => rc = ELPIS_EFORMAT ∧
      ∀ ws, windows_above last ws → slice bm i (bmlen - i) ≠ enc_windows ws
  | Stuck _ => False
  end.
Proof.
  induction fuel as [|f IH]; intros i last Hi Hf; cbn [bitmap_validate_loop]; [lia|].
  destruct (Z.ltb_spec i bmlen) as [Hlt|Hge].
  2:{ exists []. split; [done|]. replace (bmlen - i) with 0 by lia. done. }
  destruct (bm_octet i) as (win & H0 & Hwin); [lia|].
  assert (∃ len, (i + 1 < bmlen → rd bm (i + 1) = Ok len ∧ byte len)) as [len H1].
  { destruct (decide (i + 1 < bmlen)); [|by exists 0]. destruct (bm_octet (i + 1)) as (b & ? & ?); [lia|]. by exists b. }
  pose proof (fun ws => window_inv i win len ws ltac:(lia) Hlt H0 (fun H => proj1 (H1 H))) as Hinv.
  destruct (Z.ltb_spec bmlen (i + 2)) as [Hs|Hs]; bind_step.
  { split; [done|]. intros ws Ha Hsl. destruct (Hinv ws Hsl) as (bs & ws' & -> & <- & ? & _). pose proof (zlen_nonneg bs). lia. }
  destruct (H1 ltac:(lia)) as [H1' Hlenb]. rewrite H0, H1'. bind_step.
  destruct ((len =? 0) || (32 <? len)) eqn:E1; bind_step.
  { split; [done|]. intros ws Ha Hsl. destruct (Hinv ws Hsl) as (bs & ws' & -> & <- & _). destruct Ha as (_ & ? & _).
    apply orb_true_iff in E1 as [?|?]; bool_to_prop; lia. }
  destruct (Z.leb_spec win last); bind_step.
  { split; [done|]. intros ws Ha Hsl. destruct (Hinv ws Hsl) as (bs & ws' & -> & _). destruct Ha as [? _]. lia. }
  destruct (Z.ltb_spec bmlen (i + 2 + len)); bind_step.
  { split; [done|]. intros ws Ha Hsl. destruct (Hinv ws Hsl) as (bs & ws' & -> & _ & ? & _). lia. }
  bool_to_prop. unfold byte in *.
  specialize (IH (i + (2 + len)) win ltac:(lia) ltac:(lia)).
  destruct (bitmap_validate_loop f bm bmlen (i + (2 + len)) win) as [u|rc d|]; [|split; [apply IH|]|done].
  - destruct IH as (ws & Ha & Hs'). exists ((win, slice bm (i + 2) len) :: ws).
    assert (zlen (slice bm (i + 2) len) = len) as Hz by (apply zlen_slice; lia).
    split; [cbn; rewrite Hz; split_and!; (done || lia)|].
    apply slice_window; [lia|lia|]. rewrite Hz. split_and!; (done || lia).
  - intros ws Ha Hsl. destruct (Hinv ws Hsl) as (bs & ws' & -> & _ & _ & _ & Hr). destruct Ha as (_ & _ & Ha).
    by apply (proj2 IH ws').
Qed.

Lemma bitmap_has_loop_spec want bit fuel : ∀ i,
  0 <= bit < 256 → 0 <= i <= bmlen → bmlen - i < Z.of_nat fuel →
  ∃ r, bitmap_has_loop fuel bm bmlen want bit i = Ok r ∧
    ∀ last ws, windows_above last ws → slice bm i (bmlen - i) = enc_windows ws →
      (r = true ↔ ∃ bs b, (want, bs) ∈ ws ∧ bs !! Z.to_nat (bit / 8) = Some b ∧
                          Z.testbit b (7 - bit mod 8) = true).
Proof.
  intros i Hbit. revert i. induction fuel as [|f IH]; intros i Hi Hf; cbn [bitmap_has_loop]; [lia|].
  destruct (Z.leb_spec (i + 2) bmlen) as [Hle|Hgt].
  2:{ exists false. split; [done|]. intros last ws Ha Hs. destruct ws as [|[w bs] ws].
      - split; [done|]. intros (? & ? & Hin & _). by apply not_elem_of_nil in Hin.
      - apply slice_window in Hs as (? & _); [|lia|lia]. pose proof (zlen_nonneg bs). lia. }
  destruct (bm_octet i) as (win & H0 & Hwin); [lia|]. destruct (bm_octet (i + 1)) as (len & H1 & Hlenb); [lia|].
  pose proof (fun ws => window_inv i win len ws ltac:(lia) ltac:(lia) H0 (fun _ => H1)) as Hinv.
  rewrite H0, H1. bind_step.
  destruct ((len =? 0) || (32 <? len) || (bmlen <? i + 2 + len)) eqn:E1.
  { exists false. split; [done|]. intros last ws Ha Hs. exfalso. destruct (Hinv ws Hs) as (bs & ws' & -> & <- & ? & _).
    destruct Ha as (_ & ? & _). apply orb_true_iff in E1 as [[?|?]%orb_true_iff|?]; bool_to_prop; lia. }
  bool_to_prop. unfold byte in *.
  destruct (Z.eqb_spec win want) as [->|Hne].
  - assert (∀ last ws bs, windows_above last ws → slice bm i (bmlen - i) = enc_windows ws → (want, bs) ∈ ws →
              bs = slice bm (i + 2) len) as Huniq.
    { intros last ws bs Ha Hs Hin. destruct (Hinv ws Hs) as (bs' & ws' & -> & _ & _ & <- & _). destruct Ha as (_ & _ & Ha).
      apply elem_of_cons in Hin as [[= ->]|Hin]; [done|]. pose proof (windows_above_lt _ _ _ _ Ha Hin). lia. }
    destruct (Z.leb_spec len (bit / 8)) as [Hge|Hlt8].
    + exists false. split; [done|]. intros last ws Ha Hs. split; [done|]. intros (bs & b & Hin & Hb & _).
      rewrite (Huniq last ws bs Ha Hs Hin) in Hb. apply lookup_lt_Some in Hb.
      assert (zlen (slice bm (i + 2) len) = len) by (apply zlen_slice; lia). zl.
    + assert (0 <= bit / 8) as H8 by (apply Z.div_pos; lia).
      destruct (bm_octet (i + 2 + bit / 8)) as (b & Hb & Hbb); [lia|]. rewrite Hb. bind_step.
      eexists. split; [done|]. intros last ws Ha Hs.
      assert (slice bm (i + 2) len !! Z.to_nat (bit / 8) = Some b) as Hlook.
      { unfold slice. rewrite lookup_take_lt by lia. rewrite lookup_drop. apply rd_Ok_inv in Hb as [_ Hb]. rewrite <- Hb. f_equal. lia. }
      rewrite (land_1_testbit b (7 - bit mod 8)) by (pose proof (Z.mod_pos_bound bit 8); lia). split.
      * intros Ht. destruct (Hinv ws Hs) as (bs & ws' & -> & _ & _ & <- & _).
        exists (slice bm (i + 2) len), b. split; [by left|]. done.
      * intros (bs & b' & Hin & Hl & Ht). rewrite (Huniq last ws bs Ha Hs Hin) in Hl. congruence.
  - destruct (Z.ltb_spec want win) as [Hlt|Hgt].
    + exists false. split; [done|]. intros last ws Ha Hs. split; [done|]. intros (bs & b & Hin & _).
      destruct (Hinv ws Hs) as (bs' & ws' & -> & _). destruct Ha as (_ & _ & Ha).
      apply elem_of_cons in Hin as [[= -> ->]|Hin]; [done|]. pose proof (windows_above_lt _ _ _ _ Ha Hin). lia.
    + destruct (IH (i + (2 + len))) as (r & Hr & Hspec); [lia|lia|]. exists r. split; [done|].
      intros last ws Ha Hs. destruct (Hinv ws Hs) as (bs' & ws' & -> & _ & _ & _ & Hs'). destruct Ha as (_ & _ & Ha).
      rewrite (Hspec win ws' Ha Hs'). split; intros (bs & b & Hin & ?); exists bs, b; (split; [|done]).
      * by right.
      * apply elem_of_cons in Hin as [[= ? ?]|Hin]; [congruence|done].
Qed.

Lemma bitmap_validate_spec :
  0 <= bmlen →
  match elpis_bitmap_validate bm bmlen with
  | Ok _ => ∃ ws, windows_ok ws ∧ slice bm 0 bmlen = enc_windows ws
  | Err rc _ => rc = ELPIS_EFORMAT ∧ ∀ ws, windows_ok ws → slice bm 0 bmlen ≠ enc_windows ws
  | Stuck _ => False
  end.
Proof.
  intros H0. pose proof (bitmap_validate_loop_spec (S (Z.to_nat bmlen)) 0 (-1) ltac:(lia) ltac:(lia)) as H.
  by rewrite Z.sub_0_r in H.
Qed.

Lemma bitmap_has_spec t :
  0 <= bmlen → 0 <= t < 65536 →
  ∃ r, elpis_bitmap_has bm bmlen t = Ok r ∧
    ∀ ws, windows_ok ws → slice bm 0 bmlen = enc_windows ws → (r = true ↔ in_windows ws t).
Proof.
  intros H0 Ht. unfold elpis_bitmap_has. change 0xFF with (Z.ones 8). rewrite Z.land_ones, shiftr_div by lia.
  change (2 ^ 8) with 256. pose proof (Z.mod_pos_bound t 256 ltac:(lia)).
  destruct (bitmap_has_loop_spec (t / 256) (t mod 256) (S (Z.to_nat bmlen)) 0) as (r & Hr & Hs); [lia|lia|lia|].
  exists r. split; [done|]. intros ws Hok Hsl. rewrite Z.sub_0_r in Hs. rewrite (Hs (-1) ws Hok Hsl).
  unfold in_windows. replace (t mod 256 mod 8) with (t mod 8); [done|].
  symmetry. apply Z.mod_mod_divide. by exists 32.
Qed.
End loops.

(** ** Properties *)

(** [elpis_bitmap_validate] accepts exactly the bitmaps of the grammar, and on
    those [elpis_bitmap_has] answers membership, for all 65536 types; on any
    other octets both still end inside the bitmap. *)
Theorem bitmap_has_exact (bm : list Z) (t : Z) :
  bytes bm → 0 <= t < 65536 →
  (elpis_bitmap_validate bm (zlen bm) = Ok tt ↔ ∃ ws, windows_ok ws ∧ bm = enc_windows ws) ∧
  (∀ f, elpis_bitmap_validate bm (zlen bm) ≠ Stuck f) ∧
  ∃ r, elpis_bitmap_has bm (zlen bm) t = Ok r ∧
    ∀ ws, windows_ok ws → bm = enc_windows ws → (r = true ↔ in_windows ws t).
Proof.
  intros Hb Ht. pose proof (zlen_nonneg bm).
  pose proof (bitmap_validate_spec bm (zlen bm) Hb ltac:(lia) ltac:(lia)) as Hv.
  destruct (bitmap_has_spec bm (zlen bm) Hb ltac:(lia) t ltac:(lia) Ht) as (r & Hr & Hs).
  rewrite slice_0_all in Hv, Hs by lia.
  split_and!; [|by intros f E; rewrite E in Hv|by exists r].
  destruct (elpis_bitmap_validate bm (zlen bm)) as [[]| |]; [done| |done].
  split; [done|]. intros (ws & Hok & E). by destruct (proj2 Hv ws Hok).
Qed.

Lemma bitmap_has_exact_witness :
  bytes [0;1;64] ∧
  (elpis_bitmap_validate [0;1;64] 3 = Ok tt ↔ ∃ ws, windows_ok ws ∧ [0;1;64] = enc_windows ws) ∧
  (∀ f, elpis_bitmap_validate [0;1;64] 3 ≠ Stuck f) ∧
  ∃ r, elpis_bitmap_has [0;1;64] 3 1 = Ok r ∧
    ∀ ws, windows_ok ws → [0;1;64] = enc_windows ws → (r = true ↔ in_windows ws 1).
Proof. split; [by_compute|]. apply (bitmap_has_exact [0;1;64] 1); [by_compute|lia]. Defined.
