(* ===== verification/Rdata.v ===== *)
(** Record data: the descriptor walk that validates and expands
    rdata, and the name it carries (src/dns/rdata.c). *)
From stdpp Require Import base list numbers.
From Stdlib Require Import ZArith Lia.
From S2P Require Import Prelude Bytes Simd Name NameOps Rdesc Bitmap.

(** ** The walker *)

(** [walk_t].  [w_out] is [None] for a null [out], and otherwise the octets
    written so far, so that [olen] is their number.  The field [drop] is the
    drop reason of the [Err] the walk ends with. *)
Record walk_t := mkWalk {
  w_wire : list Z; w_wlen : Z; w_p : Z; w_stop : Z;
  w_out : option (list Z); w_osz : Z; w_downcase : bool }.

Definition with_p (w : walk_t) (p : Z) : walk_t :=
  mkWalk (w_wire w) (w_wlen w) p (w_stop w) (w_out w) (w_osz w) (w_downcase w).
Definition with_out (w : walk_t) (o : option (list Z)) : walk_t :=
  mkWalk (w_wire w) (w_wlen w) (w_p w) (w_stop w) o (w_osz w) (w_downcase w).

(** A failure that finds, or sets, [drop] to ELPIS_DROP_RDATA. *)
Abbreviation bad_rdata := (Err ELPIS_EFORMAT ELPIS_DROP_RDATA).

Definition w_need (w : walk_t) (n : Z) : res unit :=
  guard_err (w_stop w <? w_p w + n) ELPIS_EFORMAT ELPIS_DROP_RDATA.

(** [memcpy(w->out + w->olen, src, n)] behind its size check. *)
Definition w_emit (w : walk_t) (bs : res (list Z)) (n : Z) : res walk_t :=
  match w_out w with
  | Some o =>
    _ ← guard_err (w_osz w <? zlen o + n) ELPIS_ETRUNC ELPIS_DROP_RDATA;
    bs ← bs;
    Ok (with_out w (Some (o ++ bs)))
  | None => Ok w
  end.

Definition w_copy (w : walk_t) (n : Z) : res walk_t :=
  _ ← w_need w n;
  w ← w_emit w (rds (w_wire w) (w_p w) n) n;
  Ok (with_p w (w_p w + n)).

Definition w_name (w : walk_t) (fold : bool) : res walk_t :=
  '(n, end_) ← elpis_name_parse (w_wire w) (w_wlen w) (w_p w);
  _ ← guard_err (w_stop w <? end_) ELPIS_EFORMAT ELPIS_DROP_RDATA;
  n ← (if fold && w_downcase w then elpis_name_lower n else Ok n);
  w ← w_emit w (rds (n_d n) 0 (n_len n)) (n_len n);
  Ok (with_p w end_).

Definition w_str (w : walk_t) : res walk_t :=
  _ ← w_need w 1;
  l ← rd (w_wire w) (w_p w);
  w_copy w (1 + l).

(** A loop [while (w->p < w->stop && rc == ELPIS_OK)]; every body advances the
    cursor, so the octets left bound the turns. *)
Fixpoint w_while (fuel : nat) (body : walk_t → res walk_t) (w : walk_t) : res walk_t :=
  match fuel with
  | O => Stuck OutOfFuel
  | S f =>
    if w_p w <? w_stop w then w ← body w; w_while f body w
    else Ok w
  end.
Definition w_turns (w : walk_t) : nat := S (Z.to_nat (w_stop w - w_p w)).

Definition w_apl_item (w : walk_t) : res walk_t :=
  _ ← w_need w 4;
  b3 ← rd (w_wire w) (w_p w + 3);
  let n := Z.land b3 0x7F in
  b2 ← rd (w_wire w) (w_p w + 2);
  _ ← guard_err (128 <? b2) ELPIS_EFORMAT ELPIS_DROP_RDATA;
  w_copy w (4 + n).

(** The parameter loop carries the last key. *)
Fixpoint w_params (fuel : nat) (w : walk_t) (last : Z) : res walk_t :=
  match fuel with
  | O => Stuck OutOfFuel
  | S f =>
    if w_p w <? w_stop w then
      _ ← w_need w 4;
      key ← elpis_get16 (w_wire w) (w_p w);
      vlen ← elpis_get16 (w_wire w) (w_p w + 2);
      _ ← guard_err (key <=? last) ELPIS_EFORMAT ELPIS_DROP_RDATA;
      w ← w_copy w (4 + vlen);
      w_params f w key
    else Ok w
  end.

(** The gateway of IPSECKEY and the relay of AMTRELAY. *)
Definition w_gateway (w : walk_t) (gwtype : Z) : res walk_t :=
  if gwtype =? 0 then Ok w
  else if gwtype =? 1 then w_copy w 4
  else if gwtype =? 2 then w_copy w 16
  else if gwtype =? 3 then w_name w false
  else bad_rdata.

(** One turn of [walk]: the [switch] on the field code. *)
Definition walk_field (w : walk_t) (f : rdf) : res walk_t :=
  match f with
  | RDF_U8 => w_copy w 1
  | RDF_U16 => w_copy w 2
  | RDF_U32 => w_copy w 4
  | RDF_U48 => w_copy w 6
  | RDF_U64 => w_copy w 8
  | RDF_A => w_copy w 4
  | RDF_AAAA => w_copy w 16
  | RDF_NAME | RDF_NAME_UNC => w_name w true
  | RDF_STR => w_str w
  | RDF_STRS => w_while (w_turns w) w_str w
  | RDF_BLOB => w_copy w (w_stop w - w_p w)
  | RDF_BLOB1 =>
    _ ← guard_err (w_stop w <=? w_p w) ELPIS_EFORMAT ELPIS_DROP_RDATA;
    w_copy w (w_stop w - w_p w)
  | RDF_BITMAP =>
    match elpis_bitmap_validate (drop (Z.to_nat (w_p w)) (w_wire w)) (w_stop w - w_p w) with
    | Ok _ => w_copy w (w_stop w - w_p w)
    | Err _ _ => bad_rdata
    | Stuck x => Stuck x
    end
  | RDF_NSEC3_SALT | RDF_NSEC3_HASH =>
    _ ← w_need w 1;
    l ← rd (w_wire w) (w_p w);
    _ ← guard_err (bool_decide (f = RDF_NSEC3_HASH) && (l =? 0)) ELPIS_EFORMAT ELPIS_DROP_RDATA;
    w_copy w (1 + l)
  | RDF_LOC =>
    let rem := w_stop w - w_p w in
    _ ← guard_err (rem <? 1) ELPIS_EFORMAT ELPIS_DROP_RDATA;
    v ← rd (w_wire w) (w_p w);
    _ ← guard_err ((v =? 0) && negb (rem =? 16)) ELPIS_EFORMAT ELPIS_DROP_RDATA;
    w_copy w rem
  | RDF_WKS =>
    _ ← guard_err (w_stop w - w_p w <? 5) ELPIS_EFORMAT ELPIS_DROP_RDATA;
    w_copy w (w_stop w - w_p w)
  | RDF_IPSECKEY =>
    _ ← w_need w 3;
    gwtype ← rd (w_wire w) (w_p w + 1);
    w ← w_copy w 3;
    w ← w_gateway w gwtype;
    if w_p w <? w_stop w then w_copy w (w_stop w - w_p w) else Ok w
  | RDF_HIP =>
    _ ← w_need w 4;
    hitlen ← rd (w_wire w) (w_p w);
    pklen ← elpis_get16 (w_wire w) (w_p w + 2);
    _ ← guard_err ((hitlen =? 0) || (pklen =? 0)) ELPIS_EFORMAT ELPIS_DROP_RDATA;
    w ← w_copy w (4 + hitlen + pklen);
    w_while (w_turns w) (fun w => w_name w false) w
  | RDF_APL => w_while (w_turns w) w_apl_item w
  | RDF_AMTRELAY =>
    _ ← w_need w 2;
    b ← rd (w_wire w) (w_p w + 1);
    let rtype := Z.land b 0x7F in
    w ← w_copy w 2;
    w_gateway w rtype
  | RDF_SVCPARAMS => w_params (w_turns w) w (-1)
  | RDF_END => bad_rdata
  end.

Fixpoint walk (w : walk_t) (f : list rdf) : res walk_t :=
  match f with
  | [] => Stuck OutOfBounds
  | RDF_END :: _ =>
    _ ← guard_err (negb (w_p w =? w_stop w)) ELPIS_EFORMAT ELPIS_DROP_RDATA;
    Ok w
  | c :: f => w ← walk_field w c; walk w f
  end.

Definition elpis_rdata_validate (type : Z) (wire : list Z) (len rdoff rdlen : Z) : res unit :=
  d ← desc_of type;
  _ ← guard_err (len <? rdoff + rdlen) ELPIS_EFORMAT ELPIS_DROP_RDLEN;
  match d with
  | None => Ok tt
  | Some d =>
    match walk (mkWalk wire len rdoff (rdoff + rdlen) None 0 false) (ds_f d) with
    | Ok _ => Ok tt
    | Err _ drop => Err ELPIS_EFORMAT drop
    | Stuck x => Stuck x
    end
  end.

(** The result is [out[0 .. *outlen)]. *)
Definition elpis_rdata_canonical (type : Z) (wire : list Z) (len rdoff rdlen outsz : Z)
    (downcase : bool) : res (list Z) :=
  d ← desc_of type;
  _ ← guard_err (len <? rdoff + rdlen) ELPIS_EFORMAT ELPIS_DROP_NONE;
  match d with
  | None =>
    _ ← guard_err (outsz <? rdlen) ELPIS_ETRUNC ELPIS_DROP_NONE;
    rds wire rdoff rdlen
  | Some d =>
    match walk (mkWalk wire len rdoff (rdoff + rdlen) (Some []) outsz (downcase && ds_downcase d)) (ds_f d) with
    | Ok w => Ok (default [] (w_out w))
    | Err rc _ => Err rc ELPIS_DROP_NONE
    | Stuck x => Stuck x
    end
  end.

(** ** The target name *)

(** [for (i = 0; i < 3; i++)] over the strings of NAPTR. *)
Fixpoint naptr_off (n : nat) (rd_ : list Z) (rdlen p : Z) : res Z :=
  match n with
  | O => Ok p
  | S n =>
    _ ← guard_err (rdlen <=? p) ELPIS_EFORMAT ELPIS_DROP_NONE;
    l ← rd rd_ p;
    naptr_off n rd_ rdlen (p + (1 + l))
  end.

Definition target_off (type : Z) (rd_ : list Z) (rdlen : Z) : res Z :=
  if bool_decide (type ∈ [ELPIS_T_NS; ELPIS_T_CNAME; ELPIS_T_DNAME; ELPIS_T_PTR; ELPIS_T_MB; ELPIS_T_MD;
                          ELPIS_T_MF; ELPIS_T_MG; ELPIS_T_MR; ELPIS_T_NSAP_PTR; ELPIS_T_SOA]) then Ok 0
  else if bool_decide (type ∈ [ELPIS_T_MX; ELPIS_T_AFSDB; ELPIS_T_RT; ELPIS_T_KX; ELPIS_T_LP]) then Ok 2
  else if type =? ELPIS_T_SRV then Ok 6
  else if bool_decide (type ∈ [ELPIS_T_SVCB; ELPIS_T_HTTPS]) then Ok 2
  else if type =? ELPIS_T_NAPTR then naptr_off 3 rd_ rdlen 4
  else Err ELPIS_ENOTFOUND ELPIS_DROP_NONE.

Definition elpis_rdata_target (type : Z) (rd_ : list Z) (rdlen : Z) : res elpis_name_t :=
  off ← target_off type rd_ rdlen;
  _ ← guard_err (rdlen <? off) ELPIS_EFORMAT ELPIS_DROP_NONE;
  '(n, _) ← elpis_name_parse_nocomp (drop (Z.to_nat off) rd_) (rdlen - off);
  Ok n.

(** ** Small lemmas *)

Lemma slice_of_drop {A} (l : list A) p n : slice (drop (Z.to_nat p) l) 0 n = slice l p n.
Proof. done. Qed.

(** ** The grammar of rdata

    [emits]: a field at offset [p] of the message ends at [e] and puts the
    octets [o] into the expanded copy. *)

Definition emits : Type := Z → Z → list Z → Prop.

Section grammar.
Context (msg : list Z) (msglen stop : Z) (dc : bool).

(** [n] octets as they are. *)
Definition copied (n : Z) : emits := fun p e o =>
  p + n <= stop ∧ e = p + n ∧ o = slice msg p n.
(** Everything up to the end of the rdata. *)
Definition rest : emits := fun p e o => copied (stop - p) p e o.
(** A name, read as [elpis_name_parse] reads it, in wire form. *)
Definition named (fold : bool) : emits := fun p e o =>
  ∃ ls j, name_at msg msglen p p ls e j ∧ zlen (wire ls) <= 255 ∧ j <= 128 ∧ e <= stop ∧
    o = wire (if fold then fold_labels ls else ls).
(** A length octet and what it counts. *)
Definition string_at : emits := fun p e o =>
  ∃ l, p < stop ∧ rd msg p = Ok l ∧ copied (1 + l) p e o.
(** An address prefix: family, prefix length, length, address. *)
Definition apl_item : emits := fun p e o =>
  ∃ b2 b3, p + 4 <= stop ∧ rd msg (p + 2) = Ok b2 ∧ rd msg (p + 3) = Ok b3 ∧ b2 <= 128 ∧
    copied (4 + Z.land b3 0x7F) p e o.

Definition seq (R1 R2 : emits) : emits := fun p e o =>
  ∃ m o1 o2, R1 p m o1 ∧ R2 m e o2 ∧ o = o1 ++ o2.

(** One after another to the end of the rdata. *)
Inductive many (R : emits) : emits :=
  | many_nil : many R stop stop []
  | many_cons p m e o1 o2 : p < stop → R p m o1 → many R m e o2 → many R p e (o1 ++ o2).

(** Service parameters, their keys strictly increasing. *)
Inductive params : Z → emits :=
  | params_nil last : params last stop stop []
  | params_cons last p key vlen m e o1 o2 :
      p < stop → p + 4 <= stop → elpis_get16 msg p = Ok key → elpis_get16 msg (p + 2) = Ok vlen →
      last < key → copied (4 + vlen) p m o1 → params key m e o2 → params last p e (o1 ++ o2).

Definition gateway (t : Z) : emits := fun p e o =>
  if t =? 0 then e = p ∧ o = []
  else if t =? 1 then copied 4 p e o
  else if t =? 2 then copied 16 p e o
  else if t =? 3 then named false p e o
  else False.

Definition field_at (f : rdf) : emits := fun p e o =>
  match f with
  | RDF_END => False
  | RDF_U8 => copied 1 p e o
  | RDF_U16 => copied 2 p e o
  | RDF_U32 | RDF_A => copied 4 p e o
  | RDF_U48 => copied 6 p e o
  | RDF_U64 => copied 8 p e o
  | RDF_AAAA => copied 16 p e o
  | RDF_NAME | RDF_NAME_UNC => named dc p e o
  | RDF_STR | RDF_NSEC3_SALT => string_at p e o
  | RDF_STRS => many string_at p e o
  | RDF_BLOB => rest p e o
  | RDF_BLOB1 => p < stop ∧ rest p e o
  | RDF_BITMAP => (∃ ws, windows_ok ws ∧ slice msg p (stop - p) = enc_windows ws) ∧ rest p e o
  | RDF_NSEC3_HASH => string_at p e o ∧ rd msg p ≠ Ok 0
  | RDF_SVCPARAMS => params (-1) p e o
  | RDF_IPSECKEY => ∃ g, p + 3 <= stop ∧ rd msg (p + 1) = Ok g ∧ seq (copied 3) (seq (gateway g) rest) p e o
  | RDF_HIP => ∃ h k, p + 4 <= stop ∧ rd msg p = Ok h ∧ elpis_get16 msg (p + 2) = Ok k ∧ h ≠ 0 ∧ k ≠ 0 ∧
      seq (copied (4 + h + k)) (many (named false)) p e o
  | RDF_APL => many apl_item p e o
  | RDF_LOC => p < stop ∧ (rd msg p = Ok 0 → stop - p = 16) ∧ rest p e o
  | RDF_WKS => p + 5 <= stop ∧ rest p e o
  | RDF_AMTRELAY => ∃ b, p + 2 <= stop ∧ rd msg (p + 1) = Ok b ∧ seq (copied 2) (gateway (Z.land b 0x7F)) p e o
  end.

(** The fields in order, ending exactly where the rdata ends. *)
Fixpoint fields_at (f : list rdf) : emits := fun p e o =>
  match f with
  | [] => False
  | RDF_END :: _ => p = stop ∧ e = p ∧ o = []
  | c :: f => seq (field_at c) (fields_at f) p e o
  end.

(** ** The walk implements the grammar *)

Context (osz : Z).
Definition st (p : Z) (out : option (list Z)) : walk_t := mkWalk msg msglen p stop out osz dc.
Definition push (out : option (list Z)) (o : list Z) : option (list Z) := option_map (fun x => x ++ o) out.
Definition fits (out : option (list Z)) (o : list Z) : Prop :=
  match out with Some x => zlen x + zlen o <= osz | None => True end.

(** What a step from cursor [p] and output [out] promises of the relation it
    implements: the one result there is, or a failure because there is none or
    because it does not fit. *)
Definition step_post (p : Z) (out : option (list Z)) (R : Z → list Z → Prop) (m : res walk_t) : Prop :=
  match m with
  | Ok w => ∃ e o, w = st e (push out o) ∧ p <= e <= stop ∧ fits out o ∧
      ∀ e' o', R e' o' ↔ e' = e ∧ o' = o
  | Err rc _ => (rc = ELPIS_EFORMAT ∧ ∀ e o, ¬ R e o) ∨
      (rc = ELPIS_ETRUNC ∧ out ≠ None ∧ ∀ e o, R e o → ¬ fits out o)
  | Stuck _ => False
  end.

Lemma push_nil out : push out [] = out.
Proof. destruct out; [|done]. cbn. by rewrite app_nil_r. Qed.
Lemma push_app out a b : push (push out a) b = push out (a ++ b).
Proof. destruct out; [|done]. cbn. by rewrite app_assoc. Qed.
Lemma fits_app out a b : fits (push out a) b ↔ fits out (a ++ b).
Proof. destruct out; [|done]. cbn. rewrite !zlen_app. lia. Qed.
Lemma fits_app_l out a b : fits out (a ++ b) → fits out a.
Proof. destruct out; [|done]. cbn. rewrite !zlen_app. pose proof (zlen_nonneg b). lia. Qed.
Lemma fits_nil out a : fits out a → fits out [].
Proof. destruct out; [|done]. cbn. pose proof (zlen_nonneg a). rewrite zlen_nil. lia. Qed.

Lemma step_ext p out R R' m : step_post p out R m → (∀ e o, R e o ↔ R' e o) → step_post p out R' m.
Proof.
  intros H E. destruct m as [w|rc d|]; cbn in *; [|destruct H as [[-> H]|(-> & Hn & H)]|done].
  - destruct H as (e & o & -> & Hp & Hf & H). exists e, o. split; [done|]. split; [done|]. split; [done|].
    intros. by rewrite <- E.
  - left. split; [done|]. intros e o. by rewrite <- E.
  - right. split; [done|]. split; [done|]. intros e o Hr. apply (H e o). by apply E.
Qed.

Lemma step_bad p out (R : Z → list Z → Prop) d : (∀ e o, ¬ R e o) → step_post p out R (Err ELPIS_EFORMAT d).
Proof. by left. Qed.

Lemma fits_push out o : fits out o → fits (push out o) [].
Proof. intros. apply fits_app. by rewrite app_nil_r. Qed.

Lemma step_bind p out (R1 : Z → list Z → Prop) (R2 : emits) m k :
  step_post p out R1 m →
  (∀ e o, R1 e o → p <= e <= stop → fits (push out o) [] → step_post e (push out o) (R2 e) (k (st e (push out o)))) →
  step_post p out (fun e o => ∃ m o1 o2, R1 m o1 ∧ R2 m e o2 ∧ o = o1 ++ o2) (m ≫= k).
Proof.
  intros H Hk. destruct m as [w|rc d|]; bind_step; [|destruct H as [[-> H]|(-> & Hn & H)]|done].
  - destruct H as (e & o & -> & Hp & Hf & H). specialize (Hk e o (proj2 (H e o) (conj eq_refl eq_refl)) Hp (fits_push _ _ Hf)).
    destruct (k (st e (push out o))) as [w|rc d|]; cbn in *;
      [destruct Hk as (e2 & o2 & -> & Hp2 & Hf2 & H2)|destruct Hk as [[-> H2]|(-> & Hn2 & H2)]|done].
    + exists e2, (o ++ o2). rewrite push_app. rewrite fits_app in Hf2. split; [done|]. split; [lia|]. split; [done|].
      intros e' o'. split.
      * intros (m & a & b & [-> ->]%H & [-> ->]%H2 & ->). done.
      * intros [-> ->]. exists e, o, o2. split; [by apply H|]. split; [by apply H2|done].
    + left. split; [done|]. intros e' o' (m & a & b & [-> ->]%H & Hr & ->). by apply H2 in Hr.
    + right. split; [done|]. split; [by destruct out|]. intros e' o' (m & a & b & [-> ->]%H & Hr & ->) Hf'.
      apply (H2 e' b Hr). by apply fits_app.
  - left. split; [done|]. intros e o (m & a & b & Ha & _). by apply (H m a).
  - right. split; [done|]. split; [done|]. intros e o (m & a & b & Ha & _ & ->) Hf.
    apply (H m a Ha). by eapply fits_app_l.
Qed.

Context (Hmsg : bytes msg) (Hlen : msglen <= zlen msg) (Hstop : stop <= msglen).

Lemma octet_at i : 0 <= i < stop → ∃ b, rd msg i = Ok b ∧ byte b.
Proof.
  intros. destruct (rd_in_range msg i) as (b & Hb & Hl); [lia|]. exists b. split; [done|].
  exact (Forall_lookup_1 _ _ _ _ Hmsg Hl).
Qed.

Lemma word_at i : 0 <= i → i + 2 <= stop → ∃ v, elpis_get16 msg i = Ok v ∧ 0 <= v < 65536.
Proof.
  intros. pose proof (get16_safe msg i Hmsg ltac:(lia) ltac:(lia)) as H1.
  destruct (elpis_get16 msg i) eqn:E; [by eexists|..]; [|done].
  pose proof (errs_get16 (fun _ _ => False) msg i) as H2. by rewrite E in H2.
Qed.

Lemma step_done p out : 0 <= p <= stop → fits out [] → step_post p out (fun e o => e = p ∧ o = []) (Ok (st p out)).
Proof. intros. exists p, []. rewrite push_nil. split; [done|]. split; [lia|]. done. Qed.

#[local] Instance fits_dec out o : Decision (fits out o).
Proof. destruct out; cbn; apply _. Defined.

Lemma emit_spec p out bs n :
  n = zlen bs → w_emit (st p out) (Ok bs) n = guard_err (bool_decide (¬ fits out bs)) ELPIS_ETRUNC ELPIS_DROP_RDATA ≫= fun _ => Ok (st p (push out bs)).
Proof.
  intros ->. unfold w_emit. cbn. destruct out as [x|]; cbn [fits].
  - destruct (Z.ltb_spec osz (zlen x + zlen bs)).
    + by rewrite bool_decide_eq_true_2 by lia.
    + by rewrite bool_decide_eq_false_2 by lia.
  - by rewrite bool_decide_eq_false_2 by (intros H; apply H; exact I).
Qed.

(** Emitting [bs] and moving the cursor to [e]. *)
Lemma step_emit p out (g : walk_t → Z) e bs n (R : Z → list Z → Prop) :
  n = zlen bs → (∀ out', g (st p out') = e) → p <= e <= stop → (∀ e' o', R e' o' ↔ e' = e ∧ o' = bs) →
  step_post p out R (w ← w_emit (st p out) (Ok bs) n; Ok (with_p w (g w))).
Proof.
  intros Hn Hg Hp HR. rewrite emit_spec by done. case_bool_decide as Hf; bind_step.
  - right. split; [done|]. split; [intros ->; by apply Hf|]. by intros e' o' [-> ->]%HR.
  - rewrite Hg. exists e, bs. split; [done|]. split; [done|]. split; [|done]. destruct (decide (fits out bs)); tauto.
Qed.

Lemma copy_step n p out :
  0 <= p <= stop → 0 <= n → step_post p out (copied n p) (w_copy (st p out) n).
Proof.
  intros Hp Hn. unfold w_copy, w_need. cbn [w_stop w_p w_wire st].
  destruct (Z.ltb_spec stop (p + n)); bind_step.
  - apply step_bad. intros e o (? & _). lia.
  - rewrite rds_in_range by lia. apply (step_emit p out (fun w => w_p w + n) (p + n)); [by rewrite zlen_slice by lia|done|lia|].
    intros e o. unfold copied. split; [by intros (_ & -> & ->)|]. intros [-> ->]. done.
Qed.

Lemma rest_step p out : 0 <= p <= stop → step_post p out (rest p) (w_copy (st p out) (stop - p)).
Proof. intros. apply copy_step; lia. Qed.

Lemma name_step fold p out :
  0 <= p <= stop → step_post p out (named (fold && dc) p) (w_name (st p out) fold).
Proof.
  intros Hp. unfold w_name. cbn [w_stop w_p w_wire w_wlen w_downcase st].
  pose proof (name_parse_spec msg msglen Hmsg Hlen p ltac:(lia)) as Hn.
  destruct (elpis_name_parse msg msglen p) as [[n e]|rc d|] eqn:E; bind_step; [|apply name_parse_err in E as ->|done].
  2:{ apply step_bad. intros e o (ls & j & Hna & Hz & Hj & _). by apply (Hn ls e j). }
  destruct Hn as (ls & j & Hna & Hok & Hj & ->).
  pose proof (name_at_end msg msglen p p ls e j ltac:(lia) Hna) as He.
  destruct (Z.ltb_spec stop e); bind_step.
  { apply step_bad. intros e' o (ls' & j' & Hna' & _ & _ & ? & _).
    destruct (name_at_det msg msglen p p ls e j ls' e' j' Hmsg Hna Hna') as (-> & -> & ->). lia. }
  set (ls1 := if fold && dc then fold_labels ls else ls).
  assert ((if fold && dc then elpis_name_lower (name_of ls) else Ok (name_of ls)) = Ok (name_of ls1)) as ->.
  { unfold ls1. destruct (fold && dc); [by apply name_lower_spec|done]. }
  bind_step. rewrite n_len_of, n_d_of, rds_full by done.
  apply (step_emit p out (fun _ => e) e); [done|done|lia|]. intros e' o'. split.
  - intros (ls' & j' & Hna' & _ & _ & ? & ->).
    by destruct (name_at_det msg msglen p p ls e j ls' e' j' Hmsg Hna Hna') as (-> & -> & ->).
  - intros [-> ->]. exists ls, j. split; [done|]. split; [apply Hok|done].
Qed.

Lemma name_step_plain p out : 0 <= p <= stop → step_post p out (named false p) (w_name (st p out) false).
Proof. apply name_step. Qed.

Lemma str_step p out : 0 <= p <= stop → step_post p out (string_at p) (w_str (st p out)).
Proof.
  intros Hp. unfold w_str, w_need. cbn [w_stop w_p w_wire st].
  destruct (Z.ltb_spec stop (p + 1)); bind_step.
  { apply step_bad. intros e o (l & ? & _). lia. }
  destruct (octet_at p) as (l & Hl & Hb); [lia|]. rewrite Hl. bind_step. unfold byte in *.
  eapply step_ext; [apply copy_step; lia|]. intros e o. split.
  - intros Hc. exists l. split; [lia|done].
  - intros (l0 & _ & Hl0 & Hc). congruence.
Qed.

Lemma apl_step p out : 0 <= p < stop → step_post p out (apl_item p) (w_apl_item (st p out)).
Proof.
  intros Hp. unfold w_apl_item, w_need. cbn [w_stop w_p w_wire st].
  destruct (Z.ltb_spec stop (p + 4)); bind_step.
  { apply step_bad. intros e o (? & ? & ? & _). lia. }
  destruct (octet_at (p + 3)) as (b3 & H3 & ?); [lia|]. destruct (octet_at (p + 2)) as (b2 & H2 & ?); [lia|].
  rewrite H3, H2. bind_step. destruct (Z.ltb_spec 128 b2); bind_step.
  { apply step_bad. intros e o (b & ? & _ & ? & _ & ? & _). assert (b = b2) by congruence. lia. }
  assert (0 <= Z.land b3 0x7F) by (apply Z.land_nonneg; lia).
  eapply step_ext; [apply copy_step; lia|]. intros e o. split.
  - intros Hc. exists b2, b3. split_and!; (done || lia).
  - intros (b2' & b3' & _ & _ & H3' & _ & Hc). congruence.
Qed.

(** Loops: the item advances, and the octets left pay for the turns. *)
Lemma while_step (R : emits) body fuel :
  (∀ p out, 0 <= p < stop → step_post p out (R p) (body (st p out))) →
  (∀ p e o, 0 <= p → R p e o → p < e) →
  ∀ p out, 0 <= p <= stop → fits out [] → stop - p < Z.of_nat fuel →
  step_post p out (many R p) (w_while fuel body (st p out)).
Proof.
  intros Hbody Hadv. induction fuel as [|f IH]; intros p out Hp Hfit Hf; cbn [w_while]; [lia|].
  cbn [w_stop w_p st]. destruct (Z.ltb_spec p stop).
  - eapply step_ext; [eapply (step_bind _ _ _ (many R)); [by apply Hbody; lia|]|].
    + intros e o HR He Hfit'. apply Hadv in HR; [|lia]. apply IH; [lia|done|lia].
    + intros e o. split.
      * intros (m & o1 & o2 & Hr1 & Hr2 & ->). by eapply many_cons.
      * inversion 1; subst; [lia|]. by eexists _, _, _.
  - eapply step_ext; [by apply step_done|]. intros e o. split.
    + intros [-> ->]. replace p with stop by lia. constructor.
    + inversion 1; subst; [done|lia].
Qed.

Lemma params_step fuel : ∀ last p out,
  0 <= p <= stop → fits out [] → stop - p < Z.of_nat fuel →
  step_post p out (params last p) (w_params fuel (st p out) last).
Proof.
  induction fuel as [|f IH]; intros last p out Hp Hfit Hf; cbn [w_params]; [lia|].
  unfold w_need. cbn [w_stop w_p w_wire st]. destruct (Z.ltb_spec p stop).
  2:{ eapply step_ext; [by apply step_done|]. intros e o. split.
      - intros [-> ->]. replace p with stop by lia. constructor.
      - inversion 1; subst; [done|lia]. }
  destruct (Z.ltb_spec stop (p + 4)); bind_step.
  { apply step_bad. intros e o. inversion 1; subst; lia. }
  destruct (word_at p) as (key & Hk & ?); [lia|lia|]. destruct (word_at (p + 2)) as (vlen & Hv & ?); [lia|lia|].
  rewrite Hk, Hv. bind_step. destruct (Z.leb_spec key last); bind_step.
  { apply step_bad. intros e o. inversion 1; subst; [lia|]. assert (key0 = key) by congruence. lia. }
  eapply step_ext; [eapply (step_bind _ _ _ (params key)); [apply (copy_step (4 + vlen)); lia|]|].
  - intros e o (_ & -> & _) He Hfit'. apply IH; [lia|done|lia].
  - intros e o. split.
    + intros (m & o1 & o2 & Hr1 & Hr2 & ->). by eapply params_cons.
    + inversion 1; subst; [lia|]. assert (key0 = key) as -> by congruence. assert (vlen0 = vlen) as -> by congruence.
      by eexists _, _, _.
Qed.

Lemma gateway_step t p out :
  0 <= p <= stop → fits out [] → step_post p out (gateway t p) (w_gateway (st p out) t).
Proof.
  intros Hp Hf. unfold w_gateway, gateway.
  destruct (t =? 0); [by apply step_done|]. destruct (t =? 1); [apply copy_step; lia|].
  destruct (t =? 2); [apply copy_step; lia|]. destruct (t =? 3); [by apply name_step_plain|].
  apply step_bad. intros e o [].
Qed.

(** ** Advancing *)

Lemma named_advances fold p e o : 0 <= p → named fold p e o → p < e.
Proof. intros Hp (ls & j & H & _). apply (name_at_end msg msglen p p ls e j Hp H). Qed.
Lemma copied_advances n p e o : 0 < n → copied n p e o → p < e.
Proof. intros ? (_ & -> & _). lia. Qed.
Lemma string_advances p e o : 0 <= p → string_at p e o → p < e.
Proof.
  intros Hp (l & ? & Hl & Hc). destruct (octet_at p) as (l' & Hl' & ?); [lia|].
  assert (l' = l) as -> by congruence. eapply copied_advances; [|exact Hc]. unfold byte in *. lia.
Qed.
Lemma apl_advances p e o : apl_item p e o → p < e.
Proof.
  intros (b2 & b3 & Hle & _ & H3 & _ & Hc). eapply copied_advances; [|exact Hc].
  apply rd_Ok_inv in H3 as [_ H3]. pose proof (Forall_lookup_1 _ _ _ _ Hmsg H3) as [? ?].
  pose proof (proj2 (Z.land_nonneg b3 0x7F) ltac:(lia)). lia.
Qed.

Lemma many_step (R : emits) body p out :
  (∀ p out, 0 <= p < stop → step_post p out (R p) (body (st p out))) →
  (∀ p e o, 0 <= p → R p e o → p < e) →
  0 <= p <= stop → fits out [] →
  step_post p out (many R p) (w_while (w_turns (st p out)) body (st p out)).
Proof. intros. apply while_step; try done. unfold w_turns. cbn. lia. Qed.

(** The tail of an IPSECKEY record: the key, if there is one. *)
Lemma key_step p out :
  0 <= p <= stop → fits out [] →
  step_post p out (rest p) (if w_p (st p out) <? w_stop (st p out) then w_copy (st p out) (stop - p) else Ok (st p out)).
Proof.
  intros Hp Hf. cbn [w_p w_stop st]. destruct (Z.ltb_spec p stop); [by apply rest_step|].
  eapply step_ext; [by apply step_done|]. intros e o. unfold rest, copied.
  replace (stop - p) with 0 by lia. rewrite slice_0. intuition lia.
Qed.

Ltac need_step := unfold w_need; cbn [w_stop w_p w_wire st];
  match goal with |- context [stop <? ?x] => destruct (Z.ltb_spec stop x) end; bind_step;
  [apply step_bad; intros e o Hr|].

Lemma salt_step p out (c : Z → bool) :
  0 <= p <= stop →
  step_post p out (fun e o => string_at p e o ∧ ∀ l, rd msg p = Ok l → c l = false)
    (_ ← w_need (st p out) 1; l ← rd msg p;
     _ ← guard_err (c l) ELPIS_EFORMAT ELPIS_DROP_RDATA; w_copy (st p out) (1 + l)).
Proof.
  intros Hp. need_step; [by destruct Hr as ((? & ? & _) & _); lia|].
  destruct (octet_at p) as (l & Hl & Hb); [lia|]. rewrite Hl. bind_step. unfold byte in *.
  destruct (c l) eqn:Hc; bind_step.
  - apply step_bad. intros e o [_ Hl']. specialize (Hl' l eq_refl). congruence.
  - eapply step_ext; [apply copy_step; lia|]. intros e o. split.
    + intros Hr. split; [exists l; split; [lia|done]|]. by intros l0 [= <-].
    + intros [(l0 & _ & Hl0 & Hr) _]. congruence.
Qed.

Lemma field_step f p out :
  f ≠ RDF_END → 0 <= p <= stop → fits out [] → step_post p out (field_at f p) (walk_field (st p out) f).
Proof.
  intros Hend Hp Hf. destruct f; cbn [walk_field field_at].
  - by destruct Hend.
  - apply copy_step; lia.
  - apply copy_step; lia.
  - apply copy_step; lia.
  - apply copy_step; lia.
  - apply copy_step; lia.
  - apply copy_step; lia.
  - apply copy_step; lia.
  - by apply (name_step true).
  - by apply (name_step true).
  - by apply str_step.
  - (* STRS *) apply many_step; try done; [intros; apply str_step; lia|apply string_advances].
  - (* BLOB *) by apply rest_step.
  - (* BLOB1 *) cbn [w_stop w_p st]. destruct (Z.leb_spec stop p); bind_step.
    + apply step_bad. intros e o [? _]. lia.
    + eapply step_ext; [by apply rest_step|]. intros e o. split; [by intros|by intros []].
  - (* BITMAP *) cbn [w_stop w_p w_wire st].
    pose proof (bitmap_validate_spec (drop (Z.to_nat p) msg) (stop - p)) as Hv.
    rewrite slice_of_drop, zlen_drop in Hv. specialize (Hv (Forall_drop _ _ _ Hmsg) ltac:(lia) ltac:(lia)).
    destruct (elpis_bitmap_validate _ _); [| |done].
    + eapply step_ext; [by apply rest_step|]. intros e o. split; [by intros|by intros []].
    + apply step_bad. intros e o [(ws & Hok & Hs) _]. by apply (proj2 Hv ws).
  - (* SALT *) eapply step_ext; [apply (salt_step p out (fun l => false && (l =? 0))); done|].
    intros e o. split; [tauto|]. done.
  - (* HASH *) eapply step_ext; [apply (salt_step p out (fun l => true && (l =? 0))); done|].
    intros e o. cbn [andb]. split; intros [Hs Hl]; (split; [done|]).
    + intros E. by specialize (Hl 0 E).
    + intros l E. apply Z.eqb_neq. intros ->. done.
  - (* SVCPARAMS *) apply params_step; try done. unfold w_turns. cbn. lia.
  - (* IPSECKEY *) need_step; [destruct Hr as (? & ? & _); lia|].
    destruct (octet_at (p + 1)) as (g & Hg & _); [lia|]. rewrite Hg. bind_step.
    eapply step_ext; [eapply (step_bind _ _ _ (seq (gateway g) rest)); [apply (copy_step 3); lia|]|].
    + intros e o _ He Hf1. apply step_bind; [by apply gateway_step; [lia|]|].
      intros e2 o2 _ He2 Hf2. apply key_step; [lia|done].
    + intros e o. split; [by exists g|]. intros (g' & _ & Hg' & Hr). assert (g' = g) as -> by congruence. done.
  - (* HIP *) need_step; [destruct Hr as (? & ? & ? & _); lia|].
    destruct (octet_at p) as (h & Hh & Hhb); [lia|]. destruct (word_at (p + 2)) as (k & Hk & ?); [lia|lia|].
    rewrite Hh, Hk. bind_step. unfold byte in *. destruct ((h =? 0) || (k =? 0)) eqn:Ez; bind_step.
    { apply step_bad. intros e o (h' & k' & _ & Hh' & Hk' & ? & ? & _). assert (h' = h) by congruence. assert (k' = k) by congruence.
      apply orb_true_iff in Ez as [?|?]; bool_to_prop; lia. }
    bool_to_prop. eapply step_ext; [eapply (step_bind _ _ _ (many (named false))); [apply (copy_step (4 + h + k)); lia|]|].
    + intros e o _ He Hf1. apply many_step; [intros; apply name_step_plain; lia| |lia|done].
      intros p0 e0 o0 ?. by apply named_advances.
    + intros e o. split; [by exists h, k|]. intros (h' & k' & _ & Hh' & Hk' & _ & _ & Hr).
      assert (h' = h) as -> by congruence. assert (k' = k) as -> by congruence. done.
  - (* APL *) apply many_step; try done; [intros; by apply apl_step|]. intros p0 e o _. apply apl_advances.
  - (* LOC *) cbn [w_stop w_p w_wire st]. destruct (Z.ltb_spec (stop - p) 1); bind_step.
    { apply step_bad. intros e o [? _]. lia. }
    destruct (octet_at p) as (v & Hv & _); [lia|]. rewrite Hv. bind_step.
    destruct ((v =? 0) && negb (stop - p =? 16)) eqn:Ez; bind_step.
    + bool_to_prop. apply step_bad. subst v. intros e o (_ & H16 & _). by specialize (H16 ltac:(done)).
    + eapply step_ext; [by apply rest_step|]. intros e o. split; [|by intros (_ & _ & ?)].
      intros Hr. split; [lia|]. split; [|done]. intros Hv0. assert (v = 0) as -> by congruence. cbn in Ez. bool_to_prop. done.
  - (* WKS *) cbn [w_stop w_p w_wire st]. destruct (Z.ltb_spec (stop - p) 5); bind_step.
    + apply step_bad. intros e o [? _]. lia.
    + eapply step_ext; [by apply rest_step|]. intros e o. split; [split; [lia|done]|by intros []].
  - (* AMTRELAY *) need_step; [destruct Hr as (? & ? & _); lia|].
    destruct (octet_at (p + 1)) as (b & Hb & _); [lia|]. rewrite Hb. bind_step.
    eapply step_ext; [eapply (step_bind _ _ _ (gateway (Z.land b 0x7F))); [apply (copy_step 2); lia|]|].
    + intros e o _ He Hf1. by apply gateway_step; [lia|].
    + intros e o. split; [by exists b|]. intros (b' & _ & Hb' & Hr). assert (b' = b) as -> by congruence. done.
Qed.

Lemma walk_step f : ∀ p out,
  RDF_END ∈ f → 0 <= p <= stop → fits out [] → step_post p out (fields_at f p) (walk (st p out) f).
Proof.
  induction f as [|c f IH]; intros p out Hin Hp Hf; [by apply not_elem_of_nil in Hin|].
  destruct (decide (c = RDF_END)) as [->|Hc].
  - cbn [walk fields_at]. cbn [w_p w_stop st]. destruct (Z.eqb_spec p stop); bind_step.
    + eapply step_ext; [by apply step_done|]. intros ? ?. tauto.
    + apply step_bad. by intros ? ? [? _].
  - assert (walk (st p out) (c :: f) = (w ← walk_field (st p out) c; walk w f)) as -> by (by destruct c).
    apply elem_of_cons in Hin as [?|Hin]; [congruence|].
    eapply step_ext; [eapply (step_bind _ _ _ (fields_at f)); [by apply field_step|]|].
    + intros e o _ He Hf1. apply IH; [done|lia|done].
    + intros e o. by destruct c.
Qed.
End grammar.

(** ** Whole rdata *)

(** [rdata_at type msg len off rdlen dc o]: the [rdlen] octets at [off] are
    rdata of [type], whose expanded copy is [o]; [dc] asks for case folding,
    which the type must also call for. *)
Definition rdata_at (type : Z) (msg : list Z) (len off rdlen : Z) (dc : bool) (o : list Z) : Prop :=
  off + rdlen <= len ∧
  match List.find (fun d => ds_type d =? type) k_desc with
  | None => o = slice msg off rdlen
  | Some d => ∃ e, fields_at msg len (off + rdlen) (dc && ds_downcase d) (ds_f d) off e o
  end.

Lemma descs_end : Forall (fun d => RDF_END ∈ ds_f d) k_desc.
Proof. by_compute. Qed.

Lemma find_desc type d : List.find (fun d => ds_type d =? type) k_desc = Some d → RDF_END ∈ ds_f d.
Proof.
  intros [Hin _]%List.find_some.
  exact (proj1 (Forall_forall _ _) descs_end d Hin).
Qed.

(** Folding only changes the letters. *)
Lemma named_fold msg len stop b b' p e o :
  named msg len stop b p e o → ∃ o', named msg len stop b' p e o' ∧ zlen o' = zlen o.
Proof.
  intros (ls & j & Hn & Hz & Hj & He & ->). exists (wire (if b' then fold_labels ls else ls)). split.
  - exists ls, j. done.
  - destruct b, b'; rewrite ?zlen_wire_fold; done.
Qed.

Lemma field_fold msg len stop b b' f p e o :
  field_at msg len stop b f p e o → ∃ o', field_at msg len stop b' f p e o' ∧ zlen o' = zlen o.
Proof. destruct f; try (by exists o); apply named_fold. Qed.

Lemma fields_cons msg len stop b c f p e o :
  c ≠ RDF_END →
  fields_at msg len stop b (c :: f) p e o ↔ seq (field_at msg len stop b c) (fields_at msg len stop b f) p e o.
Proof. by destruct c. Qed.

Lemma fields_fold msg len stop b b' f : ∀ p e o,
  fields_at msg len stop b f p e o → ∃ o', fields_at msg len stop b' f p e o' ∧ zlen o' = zlen o.
Proof.
  induction f as [|c f IH]; intros p e o; [done|]. destruct (decide (c = RDF_END)) as [->|Hc]; [by exists o|].
  rewrite fields_cons by done. intros (m & o1 & o2 & (o1' & H1 & Hz1)%(field_fold _ _ _ b b') & (o2' & H2 & Hz2)%IH & ->).
  exists (o1' ++ o2'). rewrite fields_cons, !zlen_app by done; rewrite ?zlen_app, Hz1, Hz2. split; [|done]. by exists m, o1', o2'.
Qed.

Lemma rdata_fold type msg len off rdlen b b' o :
  rdata_at type msg len off rdlen b o → ∃ o', rdata_at type msg len off rdlen b' o' ∧ zlen o' = zlen o.
Proof.
  unfold rdata_at. intros [Hle H]. destruct (List.find _ _) as [d|]; [|by exists o].
  destruct H as (e & H). apply (fields_fold _ _ _ _ (b' && ds_downcase d)) in H as (o' & H & Hz).
  exists o'. split; [|done]. split; [done|]. by exists e.
Qed.

Section whole.
Context (msg : list Z) (len off rdlen : Z) (Hmsg : bytes msg) (Hlen : len <= zlen msg) (Hoff : 0 <= off) (Hrd : 0 <= rdlen).

Lemma rdata_walk d dc osz out :
  RDF_END ∈ ds_f d → off + rdlen <= len → fits osz out [] →
  step_post msg len (off + rdlen) dc osz off out (fields_at msg len (off + rdlen) dc (ds_f d) off)
    (walk (mkWalk msg len off (off + rdlen) out osz dc) (ds_f d)).
Proof. intros. apply walk_step; done || lia. Qed.

Lemma rdata_validate_spec type :
  match elpis_rdata_validate type msg len off rdlen with
  | Ok _ => ∃ o, rdata_at type msg len off rdlen false o
  | Err rc _ => rc = ELPIS_EFORMAT ∧ ∀ b o, ¬ rdata_at type msg len off rdlen b o
  | Stuck _ => False
  end.
Proof.
  unfold elpis_rdata_validate. rewrite desc_of_spec. bind_step.
  destruct (Z.ltb_spec len (off + rdlen)); bind_step.
  { split; [done|]. intros b o [? _]. lia. }
  destruct (List.find _ _) as [d|] eqn:Hd.
  2:{ exists (slice msg off rdlen). unfold rdata_at. by rewrite Hd. }
  pose proof (rdata_walk d false 0 None (find_desc _ _ Hd) ltac:(lia) I) as H1.
  destruct (walk _ _) as [w|rc dr|]; [| |done].
  - destruct H1 as (e & o & _ & _ & _ & H1). exists o. unfold rdata_at. rewrite Hd. split; [lia|].
    exists e. by apply H1.
  - split; [done|]. intros b o (o' & Hr & _)%(rdata_fold _ _ _ _ _ _ false). unfold rdata_at in Hr. rewrite Hd in Hr.
    destruct Hr as (_ & e & Hr). destruct H1 as [[_ H1]|(_ & ? & _)]; [|done]. by apply (H1 e o').
Qed.

Lemma rdata_canonical_spec type outsz dc :
  0 <= outsz →
  match elpis_rdata_canonical type msg len off rdlen outsz dc with
  | Ok o => zlen o <= outsz ∧ ∀ o', rdata_at type msg len off rdlen dc o' ↔ o' = o
  | Err rc _ => (rc = ELPIS_EFORMAT ∧ ∀ o, ¬ rdata_at type msg len off rdlen dc o) ∨
      (rc = ELPIS_ETRUNC ∧ ∀ o, rdata_at type msg len off rdlen dc o → outsz < zlen o)
  | Stuck _ => False
  end.
Proof.
  intros Hsz. unfold elpis_rdata_canonical. rewrite desc_of_spec. bind_step.
  destruct (Z.ltb_spec len (off + rdlen)); bind_step.
  { left. split; [done|]. intros o [? _]. lia. }
  destruct (List.find _ _) as [d|] eqn:Hd.
  2:{ assert (zlen (slice msg off rdlen) = rdlen) as Hz by (apply zlen_slice; lia).
      destruct (Z.ltb_spec outsz rdlen); bind_step.
      - right. split; [done|]. unfold rdata_at. rewrite Hd. intros o [_ ->]. lia.
      - rewrite rds_in_range by lia. split; [lia|]. unfold rdata_at. rewrite Hd. intros o. split; [by intros [_ ?]|].
        intros ->. split; [lia|done]. }
  pose proof (rdata_walk d (dc && ds_downcase d) outsz (Some []) (find_desc _ _ Hd) ltac:(lia)) as H1.
  cbn [fits] in H1. rewrite (@zlen_nil Z) in H1. specialize (H1 ltac:(lia)).
  assert (∀ o, rdata_at type msg len off rdlen dc o ↔ ∃ e, fields_at msg len (off + rdlen) (dc && ds_downcase d) (ds_f d) off e o) as E.
  { intros o. unfold rdata_at. rewrite Hd. split; [by intros [_ ?]|]. intros. split; [lia|done]. }
  destruct (walk _ _) as [w|rc dr|]; [| |done].
  - destruct H1 as (e & o & -> & _ & Hf & H1). cbn in Hf |- *. rewrite (@zlen_nil Z) in Hf. split; [lia|].
    intros o'. rewrite E. split.
    + by intros (e' & [_ ?]%H1).
    + intros ->. exists e. by apply H1.
  - destruct H1 as [[-> H1]|(-> & _ & H1)]; [left|right]; (split; [done|]); intros o (e & Ho)%E.
    + by apply (H1 e o).
    + specialize (H1 e o Ho). cbn in H1. rewrite (@zlen_nil Z) in H1. lia.
Qed.
End whole.

(** ** The copy stands on its own *)

Lemma rd_slice {A} (l : list A) p n i : 0 <= p → 0 <= i < n → rd (slice l p n) i = rd l (p + i).
Proof.
  intros. unfold rd, slice. ztrue (0 <=? i). ztrue (0 <=? p + i).
  rewrite lookup_take_lt by lia. rewrite lookup_drop. by replace (Z.to_nat p + Z.to_nat i)%nat with (Z.to_nat (p + i)) by lia.
Qed.

(** What a field of the message emits, reads the same where it is copied to. *)
Section copy.
Context (msg : list Z) (len stop : Z) (b b' : bool).
Context (Hmsg : bytes msg) (Hlen : len <= zlen msg) (Hstop : stop <= len) (Hbb : b' = true → b = true).

Lemma copied_len n p e o : copied msg stop n p e o → 0 <= p → 0 <= n → zlen o = n.
Proof. intros (? & _ & ->) ??. apply zlen_slice; lia. Qed.

Lemma copied_rd n p e o pre post i :
  copied msg stop n p e o → 0 <= p → 0 <= i < n → rd (pre ++ o ++ post) (zlen pre + i) = rd msg (p + i).
Proof.
  intros Hc ??. pose proof (copied_len _ _ _ _ Hc ltac:(lia) ltac:(lia)) as Hz. destruct Hc as (_ & _ & ->).
  rewrite rd_mid by lia. rewrite <- (rd_slice msg p n i) by lia. f_equal. lia.
Qed.

Lemma copied_get16 n p e o pre post i :
  copied msg stop n p e o → 0 <= p → 0 <= i → i + 2 <= n →
  elpis_get16 (pre ++ o ++ post) (zlen pre + i) = elpis_get16 msg (p + i).
Proof.
  intros. unfold elpis_get16. rewrite <- !Z.add_assoc. by rewrite !(copied_rd n p e o) by (done || lia).
Qed.

Lemma copied_moves n p e o pre post :
  copied msg stop n p e o → 0 <= p → 0 <= n →
  let m := pre ++ o ++ post in copied m (zlen m) n (zlen pre) (zlen pre + zlen o) o.
Proof.
  intros Hc ?? m. pose proof (copied_len _ _ _ _ Hc ltac:(lia) ltac:(lia)) as Hz.
  pose proof (zlen_nonneg post). unfold m. split; [rewrite !zlen_app; lia|]. split; [by rewrite Hz|].
  rewrite slice_app_r by lia. by rewrite Z.sub_diag, <- Hz, slice_0_app.
Qed.

Lemma rest_moves p e o pre :
  0 <= p <= stop → rest msg stop p e o →
  e = stop ∧ let m := pre ++ o ++ [] in rest m (zlen m) (zlen pre) (zlen pre + zlen o) o.
Proof.
  intros Hp Hr.
  pose proof (copied_len (stop - p) p e o Hr ltac:(lia) ltac:(lia)) as Hz. split; [destruct Hr as (_ & -> & _); lia|].
  intros m. unfold rest. replace (zlen m - zlen pre) with (stop - p); [by apply (copied_moves (stop - p) p e); [|lia|lia]|].
  unfold m. rewrite !zlen_app, (@zlen_nil Z). lia.
Qed.

Lemma named_moves f f' p e o pre post :
  0 <= p → (f' = true → f = true) → named msg len stop f p e o →
  let m := pre ++ o ++ post in named m (zlen m) (zlen m) f' (zlen pre) (zlen pre + zlen o) o.
Proof.
  intros Hp Hff (ls & j & Hna & Hz & Hj & He & ->) m.
  pose proof (name_at_labels msg len Hmsg _ _ _ _ _ Hna) as Hok.
  set (ls' := if f then fold_labels ls else ls).
  assert (labels_ok ls') as [Hok' Hz'].
  { unfold ls'. destruct f; [apply labels_ok_fold|]; done. }
  exists ls', 0. split.
  - unfold m. rewrite app_assoc. replace (zlen pre + zlen (wire ls')) with (zlen (pre ++ wire ls')) by apply zlen_app.
    eapply name_at_app; [reflexivity|]. by apply name_at_raw.
  - split; [done|]. split; [lia|]. split; [unfold m; fold ls'; rewrite !zlen_app; pose proof (zlen_nonneg post); lia|].
    unfold ls'. destruct f'; [|done]. rewrite Hff by done. by rewrite fold_labels_idem.
Qed.

Lemma string_moves p e o pre post :
  0 <= p → string_at msg stop p e o →
  let m := pre ++ o ++ post in string_at m (zlen m) (zlen pre) (zlen pre + zlen o) o ∧ rd m (zlen pre) = rd msg p.
Proof.
  intros Hp (l & ? & Hl & Hc) m. pose proof (rd_Ok_inv _ _ _ Hl) as [_ Hl']. pose proof (Forall_lookup_1 _ _ _ _ Hmsg Hl') as [? ?].
  pose proof (copied_len _ _ _ _ Hc Hp ltac:(lia)) as Hz.
  assert (rd m (zlen pre) = rd msg p) as Hrd.
  { pose proof (copied_rd _ _ _ _ pre post 0 Hc Hp ltac:(lia)) as E. by rewrite !Z.add_0_r in E. }
  split; [|done]. exists l. split; [unfold m; rewrite !zlen_app; pose proof (zlen_nonneg post); lia|].
  split; [by rewrite Hrd|]. apply (copied_moves (1 + l) p e); (done || lia).
Qed.

Lemma apl_moves p e o pre post :
  0 <= p → apl_item msg stop p e o →
  let m := pre ++ o ++ post in apl_item m (zlen m) (zlen pre) (zlen pre + zlen o) o.
Proof.
  intros Hp (b2 & b3 & Hle & H2 & H3 & Hb2 & Hc) m. pose proof (rd_Ok_inv _ _ _ H3) as [_ Hl'].
  pose proof (Forall_lookup_1 _ _ _ _ Hmsg Hl') as [? ?]. pose proof (proj2 (Z.land_nonneg b3 0x7F) ltac:(lia)).
  pose proof (copied_len _ _ _ _ Hc Hp ltac:(lia)) as Hz.
  exists b2, b3. split; [unfold m; rewrite !zlen_app; pose proof (zlen_nonneg post); lia|].
  unfold m. rewrite (copied_rd _ _ _ _ pre post 2 Hc Hp ltac:(lia)), (copied_rd _ _ _ _ pre post 3 Hc Hp ltac:(lia)).
  split; [done|]. split; [done|]. split; [done|]. apply (copied_moves (4 + Z.land b3 127) p e); (done || lia).
Qed.

(** A relation whose items move, moves to the end of a buffer. *)
Lemma many_moves (R : emits) (R' : list Z → emits) p e o pre :
  (∀ p e o pre post, 0 <= p → R p e o → p < e ∧ 0 < zlen o ∧ R' (pre ++ o ++ post) (zlen pre) (zlen pre + zlen o) o) →
  0 <= p → many stop R p e o →
  let m := pre ++ o ++ [] in many (zlen m) (R' m) (zlen pre) (zlen pre + zlen o) o.
Proof.
  intros Hitem Hp H. revert pre Hp. induction H as [|p m e o1 o2 Hlt Hr _ IH]; intros pre Hp; cbv zeta.
  - rewrite !app_nil_r, (@zlen_nil Z), Z.add_0_r. constructor.
  - destruct (Hitem p m o1 pre (o2 ++ []) Hp Hr) as (? & Hz & HR). specialize (IH (pre ++ o1) ltac:(lia)). cbv zeta in IH.
    replace (pre ++ (o1 ++ o2) ++ []) with (pre ++ o1 ++ o2 ++ []) by by rewrite <- !app_assoc.
    rewrite <- app_assoc, (zlen_app pre o1) in IH.
    rewrite (zlen_app o1 o2), Z.add_assoc. eapply many_cons; [|exact HR|exact IH].
    rewrite !zlen_app. pose proof (zlen_nonneg o2). pose proof (zlen_nonneg (@nil Z)). lia.
Qed.

Lemma params_moves last p e o pre :
  0 <= p → params msg stop last p e o →
  let m := pre ++ o ++ [] in params m (zlen m) last (zlen pre) (zlen pre + zlen o) o.
Proof.
  intros Hp H. revert pre Hp. induction H as [last|last p key vlen m e o1 o2 Hlt Hle Hk Hv Hlast Hc _ IH]; intros pre Hp; cbv zeta.
  - rewrite !app_nil_r, (@zlen_nil Z), Z.add_0_r. constructor.
  - destruct (word_at msg len stop Hmsg Hlen Hstop (p + 2)) as (v & Hv' & ?); [lia|lia|]. assert (v = vlen) as -> by congruence.
    pose proof (copied_len _ _ _ _ Hc Hp ltac:(lia)) as Hz.
    pose proof (copied_moves _ _ _ _ pre (o2 ++ []) Hc Hp ltac:(lia)) as Hm.
    pose proof (copied_get16 _ _ _ _ pre (o2 ++ []) 0 Hc Hp ltac:(lia) ltac:(lia)) as Hk'.
    pose proof (copied_get16 _ _ _ _ pre (o2 ++ []) 2 Hc Hp ltac:(lia) ltac:(lia)) as Hv''.
    rewrite !Z.add_0_r in Hk'. assert (p <= m) by (destruct Hc as (_ & -> & _); lia).
    specialize (IH (pre ++ o1) ltac:(lia)). cbv zeta in IH, Hm.
    replace (pre ++ (o1 ++ o2) ++ []) with (pre ++ o1 ++ o2 ++ []) by by rewrite <- !app_assoc.
    rewrite <- app_assoc, (zlen_app pre o1) in IH.
    assert (zlen pre + zlen o1 <= zlen (pre ++ o1 ++ o2 ++ [])) by (rewrite !zlen_app; pose proof (zlen_nonneg o2); pose proof (zlen_nonneg (@nil Z)); lia).
    rewrite (zlen_app o1 o2), Z.add_assoc. eapply (params_cons _ _ _ _ key vlen); try done; try lia; congruence.
Qed.

Lemma field_bounds f p e o :
  f ≠ RDF_END → 0 <= p <= stop → field_at msg len stop b f p e o → p <= e <= stop.
Proof.
  intros Hf Hp Hr. pose proof (field_step msg len stop b 0 Hmsg Hlen Hstop f p None Hf Hp I) as H.
  destruct (walk_field _ f) as [w|rc d|]; [| |done].
  - destruct H as (e' & o' & _ & ? & _ & H). by apply H in Hr as [-> ->].
  - destruct H as [[_ H]|(_ & ? & _)]; [|done]. by destruct (H e o).
Qed.

Lemma many_end (R : emits) e o : many stop R stop e o → o = [].
Proof. inversion 1; subst; [done|lia]. Qed.
Lemma params_end last e o : params msg stop last stop e o → o = [].
Proof. inversion 1; subst; [done|lia]. Qed.
Lemma rest_end e o : rest msg stop stop e o → o = [].
Proof. intros (_ & _ & ->). by rewrite Z.sub_diag. Qed.

(** Nothing is left to emit at the end. *)
Lemma field_end f e o : f ≠ RDF_END → 0 <= stop → field_at msg len stop b f stop e o → o = [].
Proof.
  intros Hf Hs Hr. pose proof (field_bounds f stop e o Hf ltac:(lia) Hr) as He.
  assert (∀ n, 0 < n → ¬ copied msg stop n stop e o) as Hc by (intros n ? (? & _); lia).
  assert (∀ b, ¬ named msg len stop b stop e o) as Hn.
  { intros b0 H. apply named_advances in H; lia. }
  assert (¬ string_at msg stop stop e o) as Hst by (intros (? & ? & _); lia).
  destruct f; cbn [field_at] in Hr; try done;
    try (by apply Hc in Hr; [|lia]); try (by apply Hn in Hr); try (by apply Hst in Hr).
  - by apply many_end in Hr.
  - by apply rest_end in Hr.
  - by destruct Hr as [_ ?%rest_end].
  - by destruct Hr as [_ ?%rest_end].
  - by destruct Hr.
  - by apply params_end in Hr.
  - destruct Hr as (? & ? & _). lia.
  - destruct Hr as (? & ? & ? & _). lia.
  - by apply many_end in Hr.
  - by destruct Hr as (_ & _ & ?%rest_end).
  - by destruct Hr as [_ ?%rest_end].
  - destruct Hr as (? & ? & _). lia.
Qed.

Lemma gateway_moves t p e o pre post :
  0 <= p → gateway msg len stop t p e o →
  let m := pre ++ o ++ post in gateway m (zlen m) (zlen m) t (zlen pre) (zlen pre + zlen o) o.
Proof.
  intros Hp. unfold gateway. cbv zeta. destruct (t =? 0); [intros [-> ->]; by rewrite (@zlen_nil Z), Z.add_0_r|].
  destruct (t =? 1); [intros Hc; by apply (copied_moves 4 p e); [|lia|lia]|].
  destruct (t =? 2); [intros Hc; by apply (copied_moves 16 p e); [|lia|lia]|].
  destruct (t =? 3); [|done]. by apply named_moves.
Qed.

Lemma gateway_bounds t p e o : 0 <= p <= stop → gateway msg len stop t p e o → p <= e <= stop.
Proof.
  intros Hp. unfold gateway. destruct (t =? 0); [intros [-> ->]; lia|].
  destruct (t =? 1); [intros (? & -> & _); lia|]. destruct (t =? 2); [intros (? & -> & _); lia|].
  destruct (t =? 3); [|done]. intros H. pose proof (named_advances msg len stop false p e o ltac:(lia) H).
  destruct H as (ls & j & _ & _ & _ & ? & _). lia.
Qed.

(** Sequences move piece by piece; the second starts where the first ends. *)
Lemma seq_moves (R1 R2 : emits) (R1' R2' : list Z → emits) p e o pre post :
  (∀ m o1 o2, R1 p m o1 → R2 m e o2 →
    R1' (pre ++ o1 ++ o2 ++ post) (zlen pre) (zlen pre + zlen o1) o1 ∧
    R2' ((pre ++ o1) ++ o2 ++ post) (zlen (pre ++ o1)) (zlen (pre ++ o1) + zlen o2) o2) →
  seq R1 R2 p e o →
  let m := pre ++ o ++ post in seq (R1' m) (R2' m) (zlen pre) (zlen pre + zlen o) o.
Proof.
  intros H (m & o1 & o2 & Ha & Hb & ->). destruct (H m o1 o2 Ha Hb) as [H1 H2]. cbv zeta.
  rewrite <- !app_assoc in H2 |- *. rewrite (zlen_app pre o1) in H2. rewrite (zlen_app o1 o2), Z.add_assoc.
  by exists (zlen pre + zlen o1), o1, o2.
Qed.

Lemma many_stop (R : emits) p e o : many stop R p e o → e = stop.
Proof. induction 1; done. Qed.
Lemma params_stop last p e o : params msg stop last p e o → e = stop.
Proof. induction 1; done. Qed.

Lemma string_pos p e o : 0 <= p → string_at msg stop p e o → 0 < zlen o.
Proof.
  intros Hp (l & _ & Hl & Hc). apply rd_Ok_inv in Hl as [_ Hl]. pose proof (Forall_lookup_1 _ _ _ _ Hmsg Hl) as [? ?].
  rewrite (copied_len _ _ _ _ Hc) by lia. lia.
Qed.
Lemma apl_pos p e o : 0 <= p → apl_item msg stop p e o → 0 < zlen o.
Proof.
  intros Hp (b2 & b3 & _ & _ & Hl & _ & Hc). apply rd_Ok_inv in Hl as [_ Hl]. pose proof (Forall_lookup_1 _ _ _ _ Hmsg Hl) as [? ?].
  pose proof (proj2 (Z.land_nonneg b3 0x7F) ltac:(lia)). rewrite (copied_len _ _ _ _ Hc) by lia. lia.
Qed.
Lemma named_pos f p e o : named msg len stop f p e o → 0 < zlen o.
Proof. intros (ls & j & _ & _ & _ & _ & ->). destruct f; rewrite ?zlen_wire_fold; pose proof (zlen_wire_pos ls); lia. Qed.

Lemma ipseckey_stop g p e o :
  seq (copied msg stop 3) (seq (gateway msg len stop g) (rest msg stop)) p e o → e = stop.
Proof. intros (m & o1 & o2 & _ & (m2 & o3 & o4 & _ & (_ & -> & _) & _) & _). lia. Qed.

(** The fixed octets at the head of a field. *)
Lemma head_moves n p m o1 o2 pre post :
  copied msg stop n p m o1 → 0 <= p → 0 <= n →
  let buf := pre ++ (o1 ++ o2) ++ post in
  zlen pre + n <= zlen buf ∧
  (∀ i, 0 <= i < n → rd buf (zlen pre + i) = rd msg (p + i)) ∧
  (∀ i, 0 <= i → i + 2 <= n → elpis_get16 buf (zlen pre + i) = elpis_get16 msg (p + i)).
Proof.
  intros Hc ?? buf. unfold buf. rewrite <- app_assoc. pose proof (copied_len _ _ _ _ Hc ltac:(lia) ltac:(lia)) as Hz.
  split; [rewrite !zlen_app; pose proof (zlen_nonneg o2); pose proof (zlen_nonneg post); lia|].
  split; intros; [by apply (copied_rd n p m)|by apply (copied_get16 n p m)].
Qed.

Lemma field_moves f p e o pre post :
  f ≠ RDF_END → 0 <= p <= stop → (e = stop → post = []) → field_at msg len stop b f p e o →
  let m := pre ++ o ++ post in field_at m (zlen m) (zlen m) b' f (zlen pre) (zlen pre + zlen o) o.
Proof.
  intros Hf Hp Hpost Hr. cbv zeta.
  assert (∀ n, 0 <= n → copied msg stop n p e o →
    let m := pre ++ o ++ post in copied m (zlen m) n (zlen pre) (zlen pre + zlen o) o) as Hcopy.
  { intros n ? Hc. apply (copied_moves n p e); (done || lia). }
  assert (rest msg stop p e o → post = [] ∧ let m := pre ++ o ++ post in
    rest m (zlen m) (zlen pre) (zlen pre + zlen o) o) as Hrest.
  { intros H. destruct (rest_moves p e o pre Hp H) as [He Hm]. by rewrite (Hpost He). }
  assert (∀ n, 0 <= n → copied msg stop n p e o → zlen pre + n <= zlen (pre ++ o ++ post)) as Hroom.
  { intros n ? Hc. apply (Hcopy n); done. }
  destruct f; cbn [field_at] in Hr |- *; try done; try (apply Hcopy; [lia|done]).
  - by apply (named_moves b b' p e); [lia| |].
  - by apply (named_moves b b' p e); [lia| |].
  - by apply (string_moves p e); [lia|].
  - (* STRS *) rewrite (Hpost (many_stop _ _ _ _ Hr)). apply (many_moves (string_at msg stop) (fun m => string_at m (zlen m)) p e); [|lia|done].
    intros p0 e0 o0 pre0 post0 ? Hs. split; [by eapply string_advances|]. split; [by eapply string_pos|].
    by apply (string_moves p0 e0).
  - by apply Hrest.
  - (* BLOB1 *) destruct Hr as [Hlt Hr]. split; [|by apply Hrest].
    pose proof (Hroom (stop - p) ltac:(lia) Hr). lia.
  - (* BITMAP *) destruct Hr as [(ws & Hok & Hs) Hr]. destruct (Hrest Hr) as [-> Hm]. split; [|done].
    exists ws. split; [done|]. rewrite <- Hs. destruct Hm as (_ & _ & Hm). rewrite <- Hm. by destruct Hr as (_ & _ & ->).
  - by apply (string_moves p e); [lia|].
  - (* HASH *) destruct Hr as [Hs Hl]. destruct (string_moves p e o pre post ltac:(lia) Hs) as [Hs' Hrd].
    split; [done|]. by rewrite Hrd.
  - (* SVCPARAMS *) rewrite (Hpost (params_stop _ _ _ _ Hr)). apply (params_moves (-1) p e); [lia|done].
  - (* IPSECKEY *) destruct Hr as (g & Hle & Hg & Hs). exists g.
    assert (e = stop) as He by (by apply ipseckey_stop in Hs). rewrite (Hpost He).
    destruct Hs as (m & o1 & o2 & Hr1 & Hr2 & ->). destruct (head_moves 3 p m o1 o2 pre [] Hr1) as (Hroom3 & Hrd & _); [lia|lia|].
    split; [done|]. split; [by rewrite Hrd by lia|].
    apply (seq_moves (copied msg stop 3) (seq (gateway msg len stop g) (rest msg stop)) (fun m => copied m (zlen m) 3)
             (fun m => seq (gateway m (zlen m) (zlen m) g) (rest m (zlen m))) p e); [|by exists m, o1, o2].
    intros m0 a0 b0 Ha Hb. split; [apply (copied_moves 3 p m0); (done || lia)|].
    assert (m0 = p + 3) as -> by apply Ha.
    apply (seq_moves (gateway msg len stop g) (rest msg stop) (fun m => gateway m (zlen m) (zlen m) g) (fun m => rest m (zlen m)) (p + 3) e); [|done].
    intros m1 c0 d0 Hc Hd. pose proof (gateway_bounds g (p + 3) m1 c0 ltac:(lia) Hc).
    split; [apply (gateway_moves g (p + 3) m1); (done || lia)|]. apply (rest_moves m1 e); [lia|done].
  - (* HIP *) destruct Hr as (h & k & Hle & Hh & Hk & Hh0 & Hk0 & Hs). exists h, k.
    assert (e = stop) as He by (destruct Hs as (? & ? & ? & _ & ?%many_stop & _); done). rewrite (Hpost He).
    apply rd_Ok_inv in Hh as Hhb. destruct Hhb as [_ Hhb]. pose proof (Forall_lookup_1 _ _ _ _ Hmsg Hhb) as [? ?].
    destruct (word_at msg len stop Hmsg Hlen Hstop (p + 2)) as (k' & Hk' & ?); [lia|lia|]. assert (k' = k) as -> by congruence.
    destruct Hs as (m & o1 & o2 & Hr1 & Hr2 & ->).
    destruct (head_moves (4 + h + k) p m o1 o2 pre [] Hr1) as (Hroom4 & Hrd & Hget); [lia|lia|].
    split; [lia|]. specialize (Hrd 0 ltac:(lia)). rewrite !Z.add_0_r in Hrd.
    split; [by rewrite Hrd|]. split; [by rewrite Hget by lia|]. split; [done|]. split; [done|].
    apply (seq_moves (copied msg stop (4 + h + k)) (many stop (named msg len stop false)) (fun m => copied m (zlen m) (4 + h + k))
             (fun m => many (zlen m) (named m (zlen m) (zlen m) false)) p e); [|by exists m, o1, o2].
    intros m0 a0 b0 Ha Hb. split; [apply (copied_moves (4 + h + k) p m0); (done || lia)|].
    assert (m0 = p + (4 + h + k)) as -> by apply Ha.
    apply (many_moves (named msg len stop false) (fun m => named m (zlen m) (zlen m) false) (p + (4 + h + k)) e); [|lia|done].
    intros p0 e0 o0 pre0 post0 ? Hn. split; [by eapply named_advances|]. split; [by eapply named_pos|].
    by apply (named_moves false false p0 e0).
  - (* APL *) rewrite (Hpost (many_stop _ _ _ _ Hr)). apply (many_moves (apl_item msg stop) (fun m => apl_item m (zlen m)) p e); [|lia|done].
    intros p0 e0 o0 pre0 post0 ? Hs. split; [by eapply apl_advances|]. split; [by eapply apl_pos|].
    by apply (apl_moves p0 e0).
  - (* LOC *) destruct Hr as (Hlt & H16 & Hr). destruct (Hrest Hr) as [Hnil Hm]. split; [|split; [|done]].
    + pose proof (Hroom (stop - p) ltac:(lia) Hr). lia.
    + pose proof (copied_rd (stop - p) p e o pre post 0 Hr ltac:(lia) ltac:(lia)) as Hrd. rewrite !Z.add_0_r in Hrd. rewrite Hrd.
      intros E. specialize (H16 E). subst post. rewrite !zlen_app, (@zlen_nil Z).
      pose proof (copied_len (stop - p) p e o Hr ltac:(lia) ltac:(lia)). lia.
  - (* WKS *) destruct Hr as [Hlt Hr]. split; [|by apply Hrest]. pose proof (Hroom (stop - p) ltac:(lia) Hr). lia.
  - (* AMTRELAY *) destruct Hr as (g & Hle & Hg & Hs). exists g.
    destruct Hs as (m & o1 & o2 & Hr1 & Hr2 & ->). destruct (head_moves 2 p m o1 o2 pre post Hr1) as (Hroom2 & Hrd & _); [lia|lia|].
    split; [done|]. split; [by rewrite Hrd by lia|].
    apply (seq_moves (copied msg stop 2) (gateway msg len stop (Z.land g 0x7F)) (fun m => copied m (zlen m) 2)
             (fun m => gateway m (zlen m) (zlen m) (Z.land g 0x7F)) p e); [|by exists m, o1, o2].
    intros m0 a0 b0 Ha Hb. split; [apply (copied_moves 2 p m0); (done || lia)|].
    assert (m0 = p + 2) as -> by apply Ha. apply (gateway_moves _ (p + 2) e); (done || lia).
Qed.

Lemma fields_end f e o : 0 <= stop → fields_at msg len stop b f stop e o → o = [].
Proof.
  intros Hs. revert e o. induction f as [|c f IH]; intros e o; [done|]. destruct (decide (c = RDF_END)) as [->|Hc].
  - by intros (_ & _ & ->).
  - rewrite fields_cons by done. intros (m & o1 & o2 & H1 & H2 & ->).
    pose proof (field_bounds c stop m o1 Hc ltac:(lia) H1). assert (m = stop) as -> by lia.
    by rewrite (field_end c stop o1 Hc Hs H1), (IH e o2 H2).
Qed.

Lemma fields_move f : ∀ p e o pre,
  0 <= p <= stop → fields_at msg len stop b f p e o →
  let m := pre ++ o in fields_at m (zlen m) (zlen m) b' f (zlen pre) (zlen pre + zlen o) o.
Proof.
  induction f as [|c f IH]; intros p e o pre Hp; [done|]. destruct (decide (c = RDF_END)) as [->|Hc].
  - intros (_ & _ & ->). cbv zeta. rewrite app_nil_r, (@zlen_nil Z), Z.add_0_r. done.
  - cbv zeta. rewrite !fields_cons by done. intros (m & o1 & o2 & H1 & H2 & ->).
    pose proof (field_bounds c p m o1 Hc Hp H1) as Hm.
    exists (zlen pre + zlen o1), o1, o2. split; [|split; [|done]].
    + apply (field_moves c p m o1 pre o2); [done|done| |done]. intros ->. by apply (fields_end f e); [lia|].
    + pose proof (IH m e o2 (pre ++ o1) ltac:(lia) H2) as IH'. cbv zeta in IH'.
      by rewrite <- app_assoc, (zlen_app pre o1), <- Z.add_assoc, <- (zlen_app o1 o2) in IH'.
Qed.
End copy.

(** The copy of rdata is rdata of the same type, and its own copy. *)
Lemma rdata_at_copy type msg len off rdlen b b' o :
  bytes msg → len <= zlen msg → 0 <= off → 0 <= rdlen → (b' = true → b = true) →
  rdata_at type msg len off rdlen b o → rdata_at type o (zlen o) 0 (zlen o) b' o.
Proof.
  intros Hm Hl Ho Hr Hb [Hle H]. unfold rdata_at. split; [lia|].
  destruct (List.find _ _) as [d|] eqn:Hd; [|by rewrite slice_0_all by lia].
  destruct H as (e & H). exists (0 + zlen o).
  apply (fields_move msg len (off + rdlen) _ (b' && ds_downcase d) Hm Hl ltac:(lia)) with (pre := []) in H; [exact H| |lia].
  rewrite !andb_true_iff. intros [? ?]. auto.
Qed.

Section octets.
Context (msg : list Z) (len stop : Z) (b : bool) (Hmsg : bytes msg) (Hlen : len <= zlen msg).

Lemma copied_bytes n p e o : copied msg stop n p e o → bytes o.
Proof. intros (_ & _ & ->). by apply Forall_slice. Qed.
Lemma named_bytes f p e o : named msg len stop f p e o → bytes o.
Proof.
  intros (ls & j & Hna & _ & _ & _ & ->). apply bytes_wire. pose proof (name_at_labels _ _ Hmsg _ _ _ _ _ Hna).
  destruct f; [by apply labels_fold_Forall|done].
Qed.
Lemma many_bytes (R : emits) p e o : (∀ p e o, R p e o → bytes o) → many stop R p e o → bytes o.
Proof. intros HR. induction 1; [constructor|]. apply Forall_app. eauto. Qed.
Lemma params_bytes last p e o : params msg stop last p e o → bytes o.
Proof. induction 1; [constructor|]. apply Forall_app. split; [by eapply copied_bytes|done]. Qed.
Lemma gateway_bytes t p e o : gateway msg len stop t p e o → bytes o.
Proof.
  unfold gateway. destruct (t =? 0); [by intros [_ ->]|]. destruct (t =? 1); [apply copied_bytes|].
  destruct (t =? 2); [apply copied_bytes|]. destruct (t =? 3); [apply named_bytes|done].
Qed.
Lemma string_bytes p e o : string_at msg stop p e o → bytes o.
Proof. intros (l & _ & _ & H). by eapply copied_bytes. Qed.
Lemma seq_bytes (R1 R2 : emits) p e o :
  (∀ p e o, R1 p e o → bytes o) → (∀ p e o, R2 p e o → bytes o) → seq R1 R2 p e o → bytes o.
Proof. intros H1 H2 (m & o1 & o2 & Ha & Hb & ->). apply Forall_app. eauto. Qed.

Lemma field_bytes f p e o : field_at msg len stop b f p e o → bytes o.
Proof.
  destruct f; cbn [field_at]; try done; try apply copied_bytes; try apply named_bytes; try apply string_bytes.
  - apply many_bytes, string_bytes.
  - intros [_ H]. by eapply copied_bytes.
  - intros [_ H]. by eapply copied_bytes.
  - intros [H _]. by eapply string_bytes.
  - apply params_bytes.
  - intros (g & _ & _ & H). apply seq_bytes in H; [done|apply copied_bytes|]. intros p0 e0 o0.
    apply seq_bytes; [apply gateway_bytes|intros ???; apply copied_bytes].
  - intros (h & k & _ & _ & _ & _ & _ & H). apply seq_bytes in H; [done|apply copied_bytes|].
    intros p0 e0 o0. apply many_bytes, named_bytes.
  - apply many_bytes. intros p0 e0 o0 (? & ? & _ & _ & _ & _ & H). by eapply copied_bytes.
  - intros (_ & _ & H). by eapply copied_bytes.
  - intros [_ H]. by eapply copied_bytes.
  - intros (g & _ & _ & H). apply seq_bytes in H; [done|apply copied_bytes|apply gateway_bytes].
Qed.

Lemma fields_bytes f : ∀ p e o, fields_at msg len stop b f p e o → bytes o.
Proof.
  induction f as [|c f IH]; intros p e o; [done|]. destruct (decide (c = RDF_END)) as [->|Hc].
  - intros (_ & _ & ->). constructor.
  - rewrite fields_cons by done. apply seq_bytes; [apply field_bytes|done].
Qed.
End octets.

Lemma rdata_bytes type msg len off rdlen b o :
  bytes msg → len <= zlen msg → rdata_at type msg len off rdlen b o → bytes o.
Proof.
  intros Hm Hl [_ H]. destruct (List.find _ _) as [d|]; [|subst; by apply Forall_slice].
  destruct H as (e & H). by eapply fields_bytes.
Qed.

(** ** The target name in a copy *)

(** The rdata of [type] begins with [k] 16-bit fields and a name. *)
Definition has_shape (k : nat) (type : Z) : bool :=
  match List.find (fun d => ds_type d =? type) k_desc with
  | Some d =>
    bool_decide (take k (ds_f d) = replicate k RDF_U16) &&
    match drop k (ds_f d) with RDF_NAME :: _ | RDF_NAME_UNC :: _ => true | _ => false end
  | None => false
  end.

Lemma has_shape_inv k type :
  has_shape k type = true →
  ∃ d c f, List.find (fun d => ds_type d =? type) k_desc = Some d ∧
    ds_f d = replicate k RDF_U16 ++ c :: f ∧ (c = RDF_NAME ∨ c = RDF_NAME_UNC).
Proof.
  unfold has_shape. destruct (List.find _ _) as [d|]; [|done]. intros [Ht%bool_decide_eq_true Hd]%andb_true_iff.
  exists d. destruct (drop k (ds_f d)) as [|c f] eqn:E; [done|]. exists c, f. split; [done|].
  split; [by rewrite <- (take_drop k (ds_f d)), Ht, E|]. destruct c; first [discriminate Hd|by left|by right].
Qed.

(** The types [target_off] knows, by the shape of their rdata. *)
Lemma target_off_shape type rd_ rdlen :
  match target_off type rd_ rdlen with
  | Err ELPIS_ENOTFOUND _ => True
  | r => (∃ k, has_shape k type = true ∧ r = Ok (2 * Z.of_nat k)) ∨
         (type = ELPIS_T_NAPTR ∧ r = naptr_off 3 rd_ rdlen 4)
  end.
Proof.
  assert (∀ k (l : list Z), forallb (has_shape k) l = true → type ∈ l → has_shape k type = true) as Hl.
  { intros k l Hf Hin. rewrite forallb_forall in Hf. by apply Hf, list_elem_of_In. }
  unfold target_off. case_bool_decide as H; [left; exists 0%nat; split; [apply (fun Hf => Hl 0%nat _ Hf H); by vm_compute|done]|].
  clear H. case_bool_decide as H; [left; exists 1%nat; split; [apply (fun Hf => Hl 1%nat _ Hf H); by vm_compute|done]|]. clear H.
  destruct (Z.eqb_spec type ELPIS_T_SRV) as [->|_]; [left; exists 3%nat; by split; vm_compute|].
  case_bool_decide as H; [left; exists 1%nat; split; [apply (fun Hf => Hl 1%nat _ Hf H); by vm_compute|done]|]. clear H.
  destruct (Z.eqb_spec type ELPIS_T_NAPTR) as [->|_]; [|done].
  destruct (naptr_off 3 rd_ rdlen 4) as [|rc d|]; [by right| |by right]. destruct rc; first [exact I|by right].
Qed.

Section target.
Context (msg : list Z) (len stop : Z) (b : bool) (Hmsg : bytes msg) (Hlen : len <= zlen msg) (Hstop : stop <= len).

(** A name emitted after [pre] is found again behind it. *)
Lemma target_name p e o1 pre post :
  0 <= p → named msg len stop b p e o1 → bytes (pre ++ o1 ++ post) →
  ∃ ls j, name_at msg len p p ls e j ∧ e <= stop ∧
    (let o := pre ++ o1 ++ post in
     (_ ← guard_err (zlen o <? zlen pre) ELPIS_EFORMAT ELPIS_DROP_NONE;
      '(n, _) ← elpis_name_parse_nocomp (drop (Z.to_nat (zlen pre)) o) (zlen o - zlen pre); Ok n))
    = Ok (name_of (if b then fold_labels ls else ls)).
Proof.
  intros Hp (ls & j & Hna & Hz & Hj & He & ->) Hb. exists ls, j. split; [done|]. split; [done|]. cbv zeta.
  set (ls' := if b then fold_labels ls else ls) in *.
  pose proof (name_at_labels msg len Hmsg _ _ _ _ _ Hna) as Hok.
  assert (labels_ok ls') as Hok' by (unfold ls'; destruct b; [apply labels_ok_fold|]; done).
  pose proof (zlen_nonneg (wire ls')). pose proof (zlen_nonneg post). rewrite !zlen_app.
  zfalse (zlen pre + (zlen (wire ls') + zlen post) <? zlen pre). bind_step.
  assert (drop (Z.to_nat (zlen pre)) (pre ++ wire ls' ++ post) = wire ls' ++ post) as ->.
  { apply drop_app_length'. zl. }
  rewrite (name_parse_nocomp_complete _ _ ls'); [done| | |done|].
  - apply Forall_app in Hb as [_ Hb]. done.
  - rewrite zlen_app. lia.
  - split; [lia|]. by rewrite slice_0_app.
Qed.

(** Behind 16-bit fields. *)
Lemma target_u16s k c f p e o pre post :
  0 <= p <= stop → (c = RDF_NAME ∨ c = RDF_NAME_UNC) →
  fields_at msg len stop b (replicate k RDF_U16 ++ c :: f) p e o → bytes (pre ++ o ++ post) →
  ∃ m q o1 post', named msg len stop b m q o1 ∧ p <= m ∧
    pre ++ o ++ post = (pre ++ slice msg p (2 * Z.of_nat k)) ++ o1 ++ post' ∧
    zlen (slice msg p (2 * Z.of_nat k)) = 2 * Z.of_nat k.
Proof.
  intros Hp Hc. revert p o pre Hp. induction k as [|k IH]; intros p o pre Hp; cbn [replicate app].
  - rewrite fields_cons by (by destruct Hc as [-> | ->]). intros (m & o1 & o2 & H1 & _ & ->) _.
    exists p, m, o1, (o2 ++ post). split; [by destruct Hc as [-> | ->]|]. split; [lia|].
    rewrite app_nil_r. by rewrite <- app_assoc.
  - rewrite fields_cons by done. intros (m & o1 & o2 & H1 & H2 & ->) Hb. cbn [field_at] in H1.
    pose proof (copied_len msg len stop Hlen Hstop 2 p m o1 H1 ltac:(lia) ltac:(lia)) as Hz.
    destruct H1 as (? & -> & Ho1).
    destruct (IH (p + 2) o2 (pre ++ o1) ltac:(lia) H2) as (m' & q & o3 & post' & Hn & ? & E & Hz'); [by rewrite <- !app_assoc in Hb |- *|].
    assert (slice msg p (2 * Z.of_nat (S k)) = o1 ++ slice msg (p + 2) (2 * Z.of_nat k)) as ->.
    { replace (2 * Z.of_nat (S k)) with (2 + 2 * Z.of_nat k) by lia. rewrite slice_split by lia. by rewrite Ho1. }
    exists m', q, o3, post'. split; [done|]. split; [lia|]. rewrite <- !app_assoc in E |- *. split; [done|].
    rewrite zlen_app, Hz, Hz'. lia.
Qed.

(** A string is skipped by [naptr_off]. *)
Lemma naptr_off_string n p e o1 pre post :
  0 <= p → string_at msg stop p e o1 →
  naptr_off (S n) (pre ++ o1 ++ post) (zlen (pre ++ o1 ++ post)) (zlen pre)
  = naptr_off n (pre ++ o1 ++ post) (zlen (pre ++ o1 ++ post)) (zlen (pre ++ o1)).
Proof.
  intros Hp Hs. pose proof (string_pos msg len stop Hmsg Hlen Hstop p e o1 Hp Hs) as Hpos.
  destruct Hs as (l & Hlt & Hl & Hc). apply rd_Ok_inv in Hl as Hl'. destruct Hl' as [_ Hl'].
  pose proof (Forall_lookup_1 _ _ _ _ Hmsg Hl') as [? ?].
  pose proof (copied_len msg len stop Hlen Hstop _ _ _ _ Hc ltac:(lia) ltac:(lia)) as Hz.
  pose proof (copied_rd msg len stop Hlen Hstop _ _ _ _ pre post 0 Hc Hp ltac:(lia)) as Hrd. rewrite !Z.add_0_r in Hrd.
  cbn [naptr_off]. pose proof (zlen_nonneg post). rewrite (zlen_app pre (o1 ++ post)), (zlen_app o1 post).
  zfalse (zlen pre + (zlen o1 + zlen post) <=? zlen pre). bind_step. rewrite Hrd, Hl. bind_step.
  by rewrite zlen_app, Hz.
Qed.

Lemma naptr_off_strings p0 p1 p2 p3 s1 s2 s3 pre post :
  0 <= p0 → 0 <= p1 → 0 <= p2 →
  string_at msg stop p0 p1 s1 → string_at msg stop p1 p2 s2 → string_at msg stop p2 p3 s3 →
  let o := pre ++ s1 ++ s2 ++ s3 ++ post in
  naptr_off 3 o (zlen o) (zlen pre) = Ok (zlen (pre ++ s1 ++ s2 ++ s3)).
Proof.
  intros ??? H1 H2 H3. cbv zeta. rewrite (naptr_off_string 2 p0 p1) by done.
  pose proof (naptr_off_string 1 p1 p2 s2 (pre ++ s1) (s3 ++ post) ltac:(done) H2) as E2.
  pose proof (naptr_off_string 0 p2 p3 s3 ((pre ++ s1) ++ s2) post ltac:(done) H3) as E3.
  rewrite <- !app_assoc in E2. rewrite E2. rewrite <- !app_assoc in E3. by rewrite E3.
Qed.
End target.

Lemma naptr_desc :
  ∃ d, List.find (fun d => ds_type d =? ELPIS_T_NAPTR) k_desc = Some d ∧ ds_f d = f_naptr ∧ ds_downcase d = true.
Proof. eexists. split; [vm_compute; reflexivity|]. split; reflexivity. Qed.

Lemma target_off_notfound type rd_ rdlen rc d : target_off type rd_ rdlen = Err rc d → d = ELPIS_DROP_NONE.
Proof.
  intros E. assert (errs (fun _ d => d = ELPIS_DROP_NONE) (target_off type rd_ rdlen)) as H; [|by rewrite E in H].
  assert (∀ n p, errs (fun _ d => d = ELPIS_DROP_NONE) (naptr_off n rd_ rdlen p)) as Hn.
  { induction n as [|n IH]; intros p; cbn [naptr_off]; [exact I|]. errs_auto. }
  unfold target_off. repeat case_match; try exact I; [apply Hn|done].
Qed.

(** A known type's target, in the expanded copy of its rdata. *)
Lemma rdata_target_spec type msg len off rdlen b o :
  bytes msg → len <= zlen msg → 0 <= off → 0 <= rdlen →
  rdata_at type msg len off rdlen b o →
  elpis_rdata_target type o (zlen o) ≠ Err ELPIS_ENOTFOUND ELPIS_DROP_NONE →
  ∃ dwn p ls e j, elpis_rdata_downcase type = Ok dwn ∧ off <= p ∧ e <= off + rdlen ∧
    name_at msg len p p ls e j ∧
    elpis_rdata_target type o (zlen o) = Ok (name_of (if b && dwn then fold_labels ls else ls)).
Proof.
  intros Hm Hl Ho Hr [Hle H] Hne. unfold elpis_rdata_downcase. rewrite desc_of_spec. bind_step.
  pose proof (target_off_shape type o (zlen o)) as Hs. unfold elpis_rdata_target in *.
  assert ((∃ k, has_shape k type = true ∧ target_off type o (zlen o) = Ok (2 * Z.of_nat k)) ∨
          (type = ELPIS_T_NAPTR ∧ target_off type o (zlen o) = naptr_off 3 o (zlen o) 4)) as Hs'.
  { destruct (target_off type o (zlen o)) as [|rc d|] eqn:E; [done| |done]. destruct rc; try done.
    exfalso. apply Hne. bind_step. f_equal. by eapply target_off_notfound. }
  clear Hs. destruct Hs' as [(k & Hk & E)|[-> E]]; rewrite E; bind_step.
  - destruct (has_shape_inv k type Hk) as (d & c & f & Hd & Hf & Hc). rewrite Hd in H |- *. destruct H as (e & H).
    rewrite Hf in H. pose proof (fields_bytes msg len _ _ Hm _ _ _ _ H) as Hb.
    destruct (target_u16s msg len (off + rdlen) _ Hl Hle k c f off e o [] [] ltac:(lia) Hc H)
      as (m & q & o1 & post & Hn & Hmm & Eo & Hz); [by rewrite app_nil_r|].
    cbn [app] in Eo. rewrite app_nil_r in Eo.
    destruct (target_name msg len (off + rdlen) _ Hm m q o1 (slice msg off (2 * Z.of_nat k)) post ltac:(lia) Hn) as (ls & j & Hna & He & Ht);
      [by rewrite <- Eo|].
    cbv zeta in Ht. rewrite <- Eo, Hz in Ht. exists (ds_downcase d), m, ls, q, j. split_and!; (done || lia).
  - destruct naptr_desc as (d & Hd & Hf & Hdw). rewrite Hd in H |- *. destruct H as (e & H).
    rewrite Hf in H. rewrite Hdw in H |- *. cbn [f_naptr F app] in H.
    pose proof (fields_bytes msg len _ _ Hm _ _ _ _ H) as Hb.
    unfold f_naptr, F in H. cbn [app] in H. rewrite !fields_cons in H by done.
    destruct H as (m1 & o1 & ? & H1 & (m2 & o2 & ? & H2 & (m3 & s1 & ? & H3 & (m4 & s2 & ? & H4 & (m5 & s3 & ? & H5 &
      (m6 & nm & post & H6 & _ & ->) & ->) & ->) & ->) & ->) & ->).
    cbn [field_at] in H1, H2, H3, H4, H5, H6.
    pose proof (copied_len msg len (off + rdlen) Hl Hle 2 off m1 o1 H1 ltac:(lia) ltac:(lia)) as Hz1.
    assert (m1 = off + 2) as -> by apply H1.
    pose proof (copied_len msg len (off + rdlen) Hl Hle 2 _ m2 o2 H2 ltac:(lia) ltac:(lia)) as Hz2.
    assert (m2 = off + 2 + 2) as -> by apply H2.
    pose proof (string_advances msg len (off + rdlen) Hm Hl Hle (off + 2 + 2) m3 s1 ltac:(lia) H3).
    pose proof (string_advances msg len (off + rdlen) Hm Hl Hle m3 m4 s2 ltac:(lia) H4).
    pose proof (string_advances msg len (off + rdlen) Hm Hl Hle m4 m5 s3 ltac:(lia) H5).
    destruct (target_name msg len (off + rdlen) _ Hm m5 m6 nm (o1 ++ o2 ++ s1 ++ s2 ++ s3) post ltac:(lia) H6) as (ls & j & Hna & He & Ht);
      [by rewrite <- !app_assoc|].
    exists true, m5, ls, m6, j. split; [done|]. split; [lia|]. split; [done|]. split; [done|].
    rewrite <- Ht. cbv zeta.
    pose proof (naptr_off_strings msg len (off + rdlen) Hm Hl Hle (off + 2 + 2) m3 m4 m5 s1 s2 s3 (o1 ++ o2) (nm ++ post)
      ltac:(lia) ltac:(lia) ltac:(lia) H3 H4 H5) as En.
    assert (zlen (o1 ++ o2) = 4) as E4 by (rewrite zlen_app; lia). cbv zeta in En. rewrite E4 in En.
    rewrite <- !app_assoc in En. repeat rewrite <- app_assoc. rewrite En. bind_step. done.
Qed.

(** ** Properties *)

(** C28. [elpis_rdata_validate] accepts exactly the rdata of the grammar, and
    [elpis_rdata_canonical] returns exactly its expanded copy when that fits in
    the buffer; neither leaves the message, and every loop ends.  Rdata that
    validates is never malformed to the copier: it only fails for want of
    room. *)
Theorem rdata_walk_exact (type : Z) (msg : list Z) (len off rdlen outsz : Z) (dc : bool) :
  bytes msg → len <= zlen msg → 0 <= off → 0 <= rdlen → 0 <= outsz →
  (elpis_rdata_validate type msg len off rdlen = Ok tt ↔ ∃ o, rdata_at type msg len off rdlen false o) ∧
  (∀ f, elpis_rdata_validate type msg len off rdlen ≠ Stuck f) ∧
  (∀ o, elpis_rdata_canonical type msg len off rdlen outsz dc = Ok o ↔
        rdata_at type msg len off rdlen dc o ∧ zlen o <= outsz) ∧
  (∀ f, elpis_rdata_canonical type msg len off rdlen outsz dc ≠ Stuck f) ∧
  (elpis_rdata_validate type msg len off rdlen = Ok tt →
   ∀ rc d, elpis_rdata_canonical type msg len off rdlen outsz dc = Err rc d →
     rc = ELPIS_ETRUNC ∧ ∃ o, rdata_at type msg len off rdlen dc o ∧ outsz < zlen o).
Proof.
  intros Hm Hl Ho Hr Hsz.
  pose proof (rdata_validate_spec msg len off rdlen Hm Hl Ho Hr type) as Hv.
  pose proof (rdata_canonical_spec msg len off rdlen Hm Hl Ho Hr type outsz dc Hsz) as Hc.
  split; [|split; [intros f E; by rewrite E in Hv|split; [|split; [intros f E; by rewrite E in Hc|]]]].
  - destruct (elpis_rdata_validate _ _ _ _ _) as [[]|rc d|]; [done| |done].
    split; [done|]. intros [o H]. by destruct (proj2 Hv false o).
  - intros o. destruct (elpis_rdata_canonical _ _ _ _ _ _ _) as [o'|rc d|]; [| |done].
    + destruct Hc as [Hz Hc]. split; [by intros [= <-]; split; [by apply Hc|]|]. by intros [->%Hc _].
    + split; [done|]. intros [Hr' Hz]. destruct Hc as [[_ Hc]|[_ Hc]]; [by destruct (Hc o)|]. specialize (Hc o Hr'). lia.
  - intros E rc d Ec. rewrite E in Hv. rewrite Ec in Hc. destruct Hv as (o & (o' & Hr' & _)%(rdata_fold _ _ _ _ _ _ dc)).
    destruct Hc as [[_ Hc]|[-> Hc]]; [by destruct (Hc o')|]. split; [done|]. exists o'. split; [done|]. by apply Hc.
Qed.

Lemma rdata_walk_exact_witness :
  bytes [192;4;0;0;1;87;0] ∧
  (elpis_rdata_validate 2 [192;4;0;0;1;87;0] 7 4 3 = Ok tt ↔ ∃ o, rdata_at 2 [192;4;0;0;1;87;0] 7 4 3 false o) ∧
  (∀ f, elpis_rdata_validate 2 [192;4;0;0;1;87;0] 7 4 3 ≠ Stuck f) ∧
  (∀ o, elpis_rdata_canonical 2 [192;4;0;0;1;87;0] 7 4 3 9 true = Ok o ↔
        rdata_at 2 [192;4;0;0;1;87;0] 7 4 3 true o ∧ zlen o <= 9) ∧
  (∀ f, elpis_rdata_canonical 2 [192;4;0;0;1;87;0] 7 4 3 9 true ≠ Stuck f) ∧
  (elpis_rdata_validate 2 [192;4;0;0;1;87;0] 7 4 3 = Ok tt →
   ∀ rc d, elpis_rdata_canonical 2 [192;4;0;0;1;87;0] 7 4 3 9 true = Err rc d →
     rc = ELPIS_ETRUNC ∧ ∃ o, rdata_at 2 [192;4;0;0;1;87;0] 7 4 3 true o ∧ 9 < zlen o).
Proof. split; [by_compute|]. apply (rdata_walk_exact 2 [192;4;0;0;1;87;0] 7 4 3 9 true); by_compute. Defined.

(** What [elpis_rdata_canonical] writes stands on its own: it validates as
    rdata of the same type in a message of its own, and copying it again, with
    or without folding (if it was folded before), gives it back unchanged. *)
Theorem rdata_canonical_stable (type : Z) (msg : list Z) (len off rdlen outsz outsz' : Z) (dc dc' : bool) (o : list Z) :
  bytes msg → len <= zlen msg → 0 <= off → 0 <= rdlen → 0 <= outsz → (dc' = true → dc = true) → zlen o <= outsz' →
  elpis_rdata_canonical type msg len off rdlen outsz dc = Ok o →
  bytes o ∧ elpis_rdata_validate type o (zlen o) 0 (zlen o) = Ok tt ∧
  elpis_rdata_canonical type o (zlen o) 0 (zlen o) outsz' dc' = Ok o.
Proof.
  intros Hm Hl Ho Hr Hsz Hdc Hz E. pose proof (zlen_nonneg o).
  pose proof (rdata_canonical_spec msg len off rdlen Hm Hl Ho Hr type outsz dc Hsz) as Hc. rewrite E in Hc.
  destruct Hc as [_ Hc]. pose proof (proj2 (Hc o) eq_refl) as Hat. clear Hc E.
  pose proof (rdata_bytes _ _ _ _ _ _ _ Hm Hl Hat) as Hb.
  pose proof (rdata_at_copy type msg len off rdlen dc dc' o Hm Hl Ho Hr Hdc Hat) as Hcp.
  split; [done|]. split.
  - pose proof (rdata_validate_spec o (zlen o) 0 (zlen o) Hb ltac:(lia) ltac:(lia) ltac:(lia) type) as Hv.
    destruct (elpis_rdata_validate _ _ _ _ _) as [[]|rc d|]; [done| |done]. by destruct (proj2 Hv dc' o).
  - pose proof (rdata_canonical_spec o (zlen o) 0 (zlen o) Hb ltac:(lia) ltac:(lia) ltac:(lia) type outsz' dc' ltac:(lia)) as Hv.
    destruct (elpis_rdata_canonical _ _ _ _ _ _ _) as [o'|rc d|]; [| |done].
    + destruct Hv as [_ Hv]. f_equal. symmetry. by apply (Hv o).
    + destruct Hv as [[_ Hv]|[_ Hv]]; [by destruct (Hv o)|]. specialize (Hv o Hcp). lia.
Qed.

Lemma rdata_canonical_stable_witness :
  elpis_rdata_canonical 15 [1;87;0;0;10;1;88;192;0] 9 3 6 20 true = Ok [0;10;1;120;1;119;0] ∧
  bytes [0;10;1;120;1;119;0] ∧
  elpis_rdata_validate 15 [0;10;1;120;1;119;0] 7 0 7 = Ok tt ∧
  elpis_rdata_canonical 15 [0;10;1;120;1;119;0] 7 0 7 7 false = Ok [0;10;1;120;1;119;0].
Proof.
  split; [by vm_compute|].
  apply (rdata_canonical_stable 15 [1;87;0;0;10;1;88;192;0] 9 3 6 20 7 true false [0;10;1;120;1;119;0]); by_compute || by vm_compute.
Defined.

(** Of the types [elpis_rdata_target] knows, the name it finds in the expanded
    copy of rdata is a name spelled inside that rdata in the message, folded
    when the copy was asked to fold and the type calls for it. *)
Theorem rdata_target_found (type : Z) (msg : list Z) (len off rdlen outsz : Z) (dc : bool) (o : list Z) :
  bytes msg → len <= zlen msg → 0 <= off → 0 <= rdlen → 0 <= outsz →
  elpis_rdata_canonical type msg len off rdlen outsz dc = Ok o →
  elpis_rdata_target type o (zlen o) ≠ Err ELPIS_ENOTFOUND ELPIS_DROP_NONE →
  ∃ dwn p ls e j, elpis_rdata_downcase type = Ok dwn ∧ off <= p ∧ e <= off + rdlen ∧
    name_at msg len p p ls e j ∧
    elpis_rdata_target type o (zlen o) = Ok (name_of (if dc && dwn then fold_labels ls else ls)).
Proof.
  intros Hm Hl Ho Hr Hsz E. pose proof (rdata_canonical_spec msg len off rdlen Hm Hl Ho Hr type outsz dc Hsz) as Hc.
  rewrite E in Hc. destruct Hc as [_ Hc]. apply (rdata_target_spec type msg len off rdlen dc o); try done. by apply Hc.
Qed.

Lemma rdata_target_found_witness :
  elpis_rdata_target 15 [0;10;1;120;1;119;0] 7 = Ok (mkName 5 2 [1;120;1;119;0]) ∧
  ∃ dwn p ls e j, elpis_rdata_downcase 15 = Ok dwn ∧ 3 <= p ∧ e <= 3 + 6 ∧
    name_at [1;87;0;0;10;1;88;192;0] 9 p p ls e j ∧
    elpis_rdata_target 15 [0;10;1;120;1;119;0] 7 = Ok (name_of (if true && dwn then fold_labels ls else ls)).
Proof.
  split; [by vm_compute|].
  apply (rdata_target_found 15 [1;87;0;0;10;1;88;192;0] 9 3 6 20 true [0;10;1;120;1;119;0]); by_compute || by vm_compute.
Defined.
