(* ===== verification/Rnames.v ===== *)
(** The names of record types, classes, return codes, opcodes, security states
    and algorithms, and the parsers of type and class mnemonics
    (src/dns/rdata.c).

    A text a function returns is the C string itself; the per-thread ring of
    scratch buffers that keeps the generated ones alive is not modelled. *)
From Stdlib Require Import String.
From stdpp Require Import base list numbers.
From Stdlib Require Import ZArith Lia.
From S2P Require Import Prelude Bytes Simd Name NameText Ecs Msg Text Addr Rdesc.

#[local] Open Scope Z_scope.

(** ** Numbers of include/elpis/dns.h *)

Definition ELPIS_CLASS_IN : Z := 1.
Definition ELPIS_CLASS_CH : Z := 3.
Definition ELPIS_CLASS_HS : Z := 4.
Definition ELPIS_CLASS_NONE : Z := 254.
Definition ELPIS_CLASS_ANY : Z := 255.
Definition ELPIS_RC_BADVERS : Z := 16.
Definition ELPIS_RC_BADKEY : Z := 17.
Definition ELPIS_RC_BADTIME : Z := 18.
Definition ELPIS_RC_BADMODE : Z := 19.
Definition ELPIS_RC_BADNAME : Z := 20.
Definition ELPIS_RC_BADALG : Z := 21.
Definition ELPIS_RC_BADTRUNC : Z := 22.
Definition ELPIS_RC_BADCOOKIE : Z := 23.
Definition ELPIS_OP_QUERY : Z := 0.
Definition ELPIS_OP_IQUERY : Z := 1.
Definition ELPIS_OP_STATUS : Z := 2.
Definition ELPIS_OP_NOTIFY : Z := 4.
Definition ELPIS_OP_UPDATE : Z := 5.
Definition ELPIS_OP_DSO : Z := 6.
Definition ELPIS_ALG_RSAMD5 : Z := 1.
Definition ELPIS_ALG_DSA : Z := 3.
Definition ELPIS_ALG_RSASHA1 : Z := 5.
Definition ELPIS_ALG_DSA_NSEC3_SHA1 : Z := 6.
Definition ELPIS_ALG_RSASHA1_NSEC3_SHA1 : Z := 7.
Definition ELPIS_ALG_RSASHA256 : Z := 8.
Definition ELPIS_ALG_RSASHA512 : Z := 10.
Definition ELPIS_ALG_ECDSAP256SHA256 : Z := 13.
Definition ELPIS_ALG_ECDSAP384SHA384 : Z := 14.
Definition ELPIS_ALG_ED25519 : Z := 15.
Definition ELPIS_ALG_ED448 : Z := 16.

(** ** Definitions *)

Definition SCRATCH_SIZE : Z := 24.

(** [for (i...) if (k_meta[i].t == t) return k_meta[i].n;] *)
Fixpoint meta_name (tab : list (Z * list Z)) (t : Z) : option (list Z) :=
  match tab with
  | [] => None
  | (k, n) :: tab => if k =? t then Some n else meta_name tab t
  end.

Definition elpis_type_name (t : Z) : res (list Z) :=
  d ← desc_of t;
  match d with
  | Some d => Ok (ds_name d)
  | None =>
    Ok match meta_name k_meta t with
       | Some n => n
       | None => snprintf SCRATCH_SIZE (str "TYPE" ++ fmt_u t)
       end
  end.

Definition elpis_class_name (c : Z) : list Z :=
  if c =? ELPIS_CLASS_IN then str "IN"
  else if c =? ELPIS_CLASS_CH then str "CH"
  else if c =? ELPIS_CLASS_HS then str "HS"
  else if c =? ELPIS_CLASS_NONE then str "NONE"
  else if c =? ELPIS_CLASS_ANY then str "ANY"
  else snprintf SCRATCH_SIZE (str "CLASS" ++ fmt_u c).

Definition rcode_names : list (list Z) :=
  [str "NOERROR"; str "FORMERR"; str "SERVFAIL"; str "NXDOMAIN"; str "NOTIMP"; str "REFUSED";
   str "YXDOMAIN"; str "YXRRSET"; str "NXRRSET"; str "NOTAUTH"; str "NOTZONE"; str "DSOTYPENI"].

Definition elpis_rcode_name (rcode : Z) : res (list Z) :=
  if rcode <? zlen rcode_names then rd rcode_names rcode
  else Ok (if rcode =? ELPIS_RC_BADVERS then str "BADVERS"
           else if rcode =? ELPIS_RC_BADKEY then str "BADKEY"
           else if rcode =? ELPIS_RC_BADTIME then str "BADTIME"
           else if rcode =? ELPIS_RC_BADMODE then str "BADMODE"
           else if rcode =? ELPIS_RC_BADNAME then str "BADNAME"
           else if rcode =? ELPIS_RC_BADALG then str "BADALG"
           else if rcode =? ELPIS_RC_BADTRUNC then str "BADTRUNC"
           else if rcode =? ELPIS_RC_BADCOOKIE then str "BADCOOKIE"
           else snprintf SCRATCH_SIZE (str "RCODE" ++ fmt_u rcode)).

Definition elpis_opcode_name (op : Z) : list Z :=
  if op =? ELPIS_OP_QUERY then str "QUERY"
  else if op =? ELPIS_OP_IQUERY then str "IQUERY"
  else if op =? ELPIS_OP_STATUS then str "STATUS"
  else if op =? ELPIS_OP_NOTIFY then str "NOTIFY"
  else if op =? ELPIS_OP_UPDATE then str "UPDATE"
  else if op =? ELPIS_OP_DSO then str "DSO"
  else snprintf SCRATCH_SIZE (str "OPCODE" ++ fmt_u op).

(** [elpis_sec_t]: the DNSSEC status of data. *)
Inductive elpis_sec_t :=
  | ELPIS_SEC_UNCHECKED | ELPIS_SEC_INDETERMINATE | ELPIS_SEC_INSECURE
  | ELPIS_SEC_SECURE | ELPIS_SEC_BOGUS.

#[export] Instance elpis_sec_t_eq_dec : EqDecision elpis_sec_t.
Proof. solve_decision. Defined.

Definition elpis_sec_name (s : elpis_sec_t) : list Z :=
  match s with
  | ELPIS_SEC_UNCHECKED => str "unchecked"
  | ELPIS_SEC_INDETERMINATE => str "indeterminate"
  | ELPIS_SEC_INSECURE => str "insecure"
  | ELPIS_SEC_SECURE => str "secure"
  | ELPIS_SEC_BOGUS => str "bogus"
  end.

Definition elpis_alg_name (alg : Z) : list Z :=
  if alg =? ELPIS_ALG_RSAMD5 then str "RSAMD5"
  else if alg =? ELPIS_ALG_DSA then str "DSA"
  else if alg =? ELPIS_ALG_RSASHA1 then str "RSASHA1"
  else if alg =? ELPIS_ALG_DSA_NSEC3_SHA1 then str "DSA-NSEC3-SHA1"
  else if alg =? ELPIS_ALG_RSASHA1_NSEC3_SHA1 then str "RSASHA1-NSEC3-SHA1"
  else if alg =? ELPIS_ALG_RSASHA256 then str "RSASHA256"
  else if alg =? ELPIS_ALG_RSASHA512 then str "RSASHA512"
  else if alg =? ELPIS_ALG_ECDSAP256SHA256 then str "ECDSAP256SHA256"
  else if alg =? ELPIS_ALG_ECDSAP384SHA384 then str "ECDSAP384SHA384"
  else if alg =? ELPIS_ALG_ED25519 then str "ED25519"
  else if alg =? ELPIS_ALG_ED448 then str "ED448"
  else snprintf SCRATCH_SIZE (str "ALG" ++ fmt_u alg).

(** The two table loops of [elpis_type_parse]. *)
Fixpoint desc_parse (tab : list rr_desc_t) (s : list Z) : option Z :=
  match tab with
  | [] => None
  | d :: tab => if elpis_strcasecmp_ascii s (ds_name d) =? 0 then Some (ds_type d) else desc_parse tab s
  end.
Fixpoint meta_parse (tab : list (Z * list Z)) (s : list Z) : option Z :=
  match tab with
  | [] => None
  | (t, n) :: tab => if elpis_strcasecmp_ascii s n =? 0 then Some t else meta_parse tab s
  end.

(** The test [(s[0] == 'T' || s[0] == 't') && ...]: the letters of the generic
    form, either case; the pattern is in capitals. *)
Fixpoint letters (pat s : list Z) : bool :=
  match pat, s with
  | [], _ => true
  | p :: pat, c :: s => ((c =? p) || (c =? p + 32)) && letters pat s
  | _ :: _, [] => false
  end.

(** [elpis_parse_u32(s, &v) == 0 && v <= 0xFFFF]. *)
Definition parse_u16 (s : list Z) : option Z :=
  match elpis_parse_u32 (Some s) with
  | Some v => if v <=? 0xFFFF then Some (u16 v) else None
  | None => None
  end.

Definition elpis_type_parse (s : list Z) : option Z :=
  match desc_parse k_desc s with
  | Some t => Some t
  | None =>
    match meta_parse k_meta s with
    | Some t => Some t
    | None => if (4 <? zlen s) && letters (str "TYPE") s then parse_u16 (drop 4 s) else None
    end
  end.

Definition elpis_class_parse (s : list Z) : option Z :=
  if elpis_strcasecmp_ascii s (str "IN") =? 0 then Some ELPIS_CLASS_IN
  else if elpis_strcasecmp_ascii s (str "CH") =? 0 then Some ELPIS_CLASS_CH
  else if elpis_strcasecmp_ascii s (str "HS") =? 0 then Some ELPIS_CLASS_HS
  else if elpis_strcasecmp_ascii s (str "NONE") =? 0 then Some ELPIS_CLASS_NONE
  else if elpis_strcasecmp_ascii s (str "ANY") =? 0 then Some ELPIS_CLASS_ANY
  else if (5 <? zlen s) && letters (str "CLASS") s then parse_u16 (drop 5 s) else None.

Definition elpis_type_is_singleton (t : Z) : bool :=
  (t =? ELPIS_T_CNAME) || (t =? ELPIS_T_DNAME) || (t =? ELPIS_T_SOA).

Definition elpis_type_is_meta (t : Z) : bool :=
  (t =? ELPIS_T_OPT) || (t =? ELPIS_T_TSIG) || (t =? ELPIS_T_TKEY) || (t =? ELPIS_T_IXFR)
  || (t =? ELPIS_T_AXFR) || (t =? ELPIS_T_ANY) || (t =? ELPIS_T_MAILA) || (t =? ELPIS_T_MAILB).

(** ** Texts *)

Lemma letters_app pat s : letters pat (pat ++ s) = true.
Proof. induction pat as [|p pat IH]; [done|]. cbn. by rewrite Z.eqb_refl. Qed.

(** A table name that does not begin like [pat] is not the generic form. *)
Definition not_generic (pat n : list Z) : bool :=
  bool_decide (c_string n) && negb (bool_decide (take (List.length pat) (map lower_byte n) = map lower_byte pat)).

Lemma not_generic_cmp pat n s :
  c_string pat → c_string s → not_generic pat n = true → (elpis_strcasecmp_ascii (pat ++ s) n =? 0) = false.
Proof.
  intros Hp Hs Hn. unfold not_generic in Hn. apply andb_true_iff in Hn as [Hc%bool_decide_eq_true Hn].
  apply negb_true_iff, bool_decide_eq_false in Hn. apply Z.eqb_neq. intros E. apply Hn.
  apply strcasecmp_spec in E; [|by apply Forall_app|done]. rewrite <- E, map_app.
  by rewrite take_app_length' by (symmetry; apply length_map).
Qed.

Lemma desc_parse_none tab pat s :
  c_string pat → c_string s → forallb (fun d => not_generic pat (ds_name d)) tab = true →
  desc_parse tab (pat ++ s) = None.
Proof.
  intros Hp Hs. induction tab as [|d tab IH]; [done|]. cbn [forallb desc_parse]. intros [Hd Ht]%andb_true_iff.
  rewrite not_generic_cmp by done. by apply IH.
Qed.

Lemma meta_parse_none tab pat s :
  c_string pat → c_string s → forallb (fun d => not_generic pat (snd d)) tab = true →
  meta_parse tab (pat ++ s) = None.
Proof.
  intros Hp Hs. induction tab as [|[t n] tab IH]; [done|]. cbn [forallb meta_parse snd]. intros [Hd Ht]%andb_true_iff.
  rewrite not_generic_cmp by done. by apply IH.
Qed.

(** The generic form of a 16-bit number is printed whole and read back. *)
Lemma generic_text pat v :
  0 <= v < 65536 → zlen pat <= 5 → snprintf SCRATCH_SIZE (pat ++ fmt_u v) = pat ++ fmt_u v.
Proof.
  intros Hv Hp. destruct (fmt_u_spec v) as (_ & _ & _ & _ & Hk); [lia|].
  apply snprintf_fits. rewrite zlen_app. specialize (Hk 5 ltac:(lia) ltac:(lia)). unfold SCRATCH_SIZE. lia.
Qed.

Lemma parse_u16_fmt v : 0 <= v < 65536 → parse_u16 (fmt_u v) = Some v.
Proof.
  intros Hv. destruct (fmt_u_spec v) as (Hd & Hne & Hval & _); [lia|]. unfold parse_u16.
  pose proof (parse_u32_complete [] (fmt_u v) [] ltac:(constructor) Hd Hne ltac:(constructor) ltac:(lia)) as Hp.
  cbn [app] in Hp. rewrite app_nil_r, Hval in Hp. rewrite Hp. ztrue (v <=? 0xFFFF). by rewrite u16_id by lia.
Qed.

Lemma zlen_fmt_u_ge1 v : 0 <= v < 65536 → 1 <= zlen (fmt_u v).
Proof. intros. apply zlen_fmt_u_pos. lia. Qed.

Lemma c_string_fmt_u v : 0 <= v < 65536 → c_string (fmt_u v).
Proof. intros. apply all_digits_c_string. apply fmt_u_spec. lia. Qed.

(** Every name of the tables is read back as its own number. *)
Lemma table_names_parse :
  forallb (fun d => bool_decide (elpis_type_parse (ds_name d) = Some (ds_type d))) k_desc = true ∧
  forallb (fun d => bool_decide (elpis_type_parse (snd d) = Some (fst d))) k_meta = true.
Proof. split; by vm_compute. Qed.

Lemma tables_not_generic :
  forallb (fun d => not_generic (str "TYPE") (ds_name d)) k_desc = true ∧
  forallb (fun d => not_generic (str "TYPE") (snd d)) k_meta = true.
Proof. split; by vm_compute. Qed.

Lemma meta_name_in tab t n : meta_name tab t = Some n → (t, n) ∈ tab.
Proof.
  induction tab as [|[k m] tab IH]; [done|]. cbn. destruct (Z.eqb_spec k t) as [->|].
  - intros [= ->]. by left.
  - intros ?. right. by apply IH.
Qed.

(** ** Property *)

(** The mnemonic [elpis_type_name] prints for a type, and the one
    [elpis_class_name] prints for a class, are read back as that type and that
    class, for all 65536 of them, the generic forms TYPEn and CLASSn
    included. *)
Theorem type_class_names_parse (t : Z) :
  0 <= t < 65536 →
  (∃ s, elpis_type_name t = Ok s ∧ elpis_type_parse s = Some t) ∧
  elpis_class_parse (elpis_class_name t) = Some t.
Proof.
  intros Ht. destruct table_names_parse as [Hd Hm]. split.
  - unfold elpis_type_name. rewrite desc_of_spec. bind_step.
    destruct (List.find _ k_desc) as [d|] eqn:Hf.
    { apply List.find_some in Hf as [Hin Hdt]. bool_to_prop. exists (ds_name d). split; [done|].
      rewrite forallb_forall in Hd. specialize (Hd d Hin). apply bool_decide_eq_true in Hd. congruence. }
    destruct (meta_name k_meta t) as [n|] eqn:Hn.
    { apply meta_name_in, list_elem_of_In in Hn. exists n. split; [done|].
      rewrite forallb_forall in Hm. specialize (Hm _ Hn). by apply bool_decide_eq_true in Hm. }
    exists (str "TYPE" ++ fmt_u t). rewrite generic_text by (done || lia). split; [done|].
    unfold elpis_type_parse. pose proof (c_string_fmt_u t Ht) as H.
    assert (c_string (str "TYPE")) as Hp by by_compute.
    rewrite (desc_parse_none k_desc (str "TYPE") (fmt_u t) Hp H (proj1 tables_not_generic)).
    rewrite (meta_parse_none k_meta (str "TYPE") (fmt_u t) Hp H (proj2 tables_not_generic)).
    rewrite letters_app, zlen_app. pose proof (zlen_fmt_u_ge1 t Ht).
    assert (zlen (str "TYPE") = 4) as -> by done. ztrue (4 <? 4 + zlen (fmt_u t)). by apply parse_u16_fmt.
  - unfold elpis_class_name, ELPIS_CLASS_IN, ELPIS_CLASS_CH, ELPIS_CLASS_HS, ELPIS_CLASS_NONE, ELPIS_CLASS_ANY.
    repeat match goal with |- context [t =? ?k] => destruct (Z.eqb_spec t k) as [->|]; [by vm_compute|] end.
    rewrite generic_text by (done || lia). unfold elpis_class_parse. pose proof (c_string_fmt_u t Ht) as H.
    assert (c_string (str "CLASS")) as Hp by by_compute.
    rewrite !(not_generic_cmp (str "CLASS") _ (fmt_u t) Hp H) by by vm_compute. rewrite letters_app, zlen_app. pose proof (zlen_fmt_u_ge1 t Ht).
    assert (zlen (str "CLASS") = 5) as -> by done. ztrue (5 <? 5 + zlen (fmt_u t)). by apply parse_u16_fmt.
Qed.

Lemma type_class_names_parse_witness :
  0 <= 65280 < 65536 ∧
  (∃ s, elpis_type_name 65280 = Ok s ∧ elpis_type_parse s = Some 65280) ∧
  elpis_class_parse (elpis_class_name 65280) = Some 65280.
Proof. split; [lia|]. apply (type_class_names_parse 65280). lia. Defined.
