(* ===== verification/Nsec.v ===== *)
(** NSEC denial of existence: src/dnssec/nsec.c.

    The code works on a flat array of already verified NSEC records.  The
    specification is a zone: its names with their types, a genuine record being
    one a correct signer of that zone would publish. *)
From stdpp Require Import base list numbers.
From Stdlib Require Import ZArith Lia.
From S2P Require Import Prelude Bytes Simd Name NameOps NameOrder Rdesc Bitmap.

(** ** Definitions *)

(** [elpis_denial_rr_t] (include/elpis/dnssec.h). *)
Record elpis_denial_rr_t := mkDenial { dn_owner : elpis_name_t; dn_rd : list Z; dn_rdlen : Z }.

(** [None]: the code's 0. *)
Definition nsec_next (r : elpis_denial_rr_t) : res (option elpis_name_t) :=
  if dn_rdlen r <? 1 then Ok None
  else
    p ← try (elpis_name_parse_nocomp (dn_rd r) (dn_rdlen r));
    Ok match p with Some (next, _) => Some next | None => None end.

(** [None]: the null pointer; otherwise the octets from the bitmap on and the
    bitmap's length. *)
Definition nsec_bitmap (r : elpis_denial_rr_t) : res (option (list Z * Z)) :=
  p ← try (elpis_name_parse_nocomp (dn_rd r) (dn_rdlen r));
  Ok match p with
     | Some (_, used) =>
       if dn_rdlen r <? used then None
       else Some (drop (Z.to_nat used) (dn_rd r), dn_rdlen r - used)
     | None => None
     end.

Definition elpis_nsec_covers (r : elpis_denial_rr_t) (name : elpis_name_t) : res bool :=
  nx ← nsec_next r;
  match nx with
  | None => Ok false
  | Some next =>
    c_owner ← elpis_name_canon_cmp (dn_owner r) name;
    c_next ← elpis_name_canon_cmp name next;
    c ← elpis_name_canon_cmp (dn_owner r) next;
    Ok (if c <? 0 then (c_owner <? 0) && (c_next <? 0)
        else (c_owner <? 0) || (c_next <? 0))
  end.

Definition nsec_matches (r : elpis_denial_rr_t) (name : elpis_name_t) : res bool :=
  elpis_name_eq (dn_owner r) name.

Definition bitmap_has (r : elpis_denial_rr_t) (type : Z) : res bool :=
  bm ← nsec_bitmap r;
  match bm with
  | None => Ok false
  | Some (bm, blen) => elpis_bitmap_has bm blen type
  end.

Fixpoint encloser_loop (rrs : list elpis_denial_rr_t) (qname : elpis_name_t) (best : Z) : res Z :=
  match rrs with
  | [] => Ok best
  | r :: rrs =>
    a ← elpis_name_common_labels (dn_owner r) qname;
    let best := if best <? a then a else best in
    nx ← nsec_next r;
    match nx with
    | Some next =>
      b ← elpis_name_common_labels next qname;
      encloser_loop rrs qname (if best <? b then b else best)
    | None => encloser_loop rrs qname best
    end
  end.
Definition closest_encloser_labels (rrs : list elpis_denial_rr_t) (qname : elpis_name_t) : res Z :=
  encloser_loop rrs qname 0.

(** The loop over the records for a name to deny: [None] when one of them
    matches it, otherwise whether one covers it. *)
Fixpoint deny_loop (rrs : list elpis_denial_rr_t) (name : elpis_name_t) (covered : bool) : res (option bool) :=
  match rrs with
  | [] => Ok (Some covered)
  | r :: rrs =>
    m ← nsec_matches r name;
    if (m : bool) then Ok None
    else
      c ← elpis_nsec_covers r name;
      deny_loop rrs name ((c : bool) || covered)
  end.

Definition elpis_nsec_proves_nxdomain (rrs : list elpis_denial_rr_t) (qname : elpis_name_t) : res bool :=
  if zlen rrs =? 0 then Ok false
  else
    covered ← deny_loop rrs qname false;
    match covered with
    | Some true =>
      ce_labels ← closest_encloser_labels rrs qname;
      ce ← try (elpis_name_suffix qname ce_labels);
      match ce with
      | None => Ok false
      | Some ce =>
        wc ← try (elpis_name_prepend [42] 1 ce);
        match wc with
        | None => Ok false
        | Some wc =>
          denied ← deny_loop rrs wc false;
          Ok (default false denied)
        end
      end
    | _ => Ok false
    end.

Fixpoint elpis_nsec_proves_nodata (rrs : list elpis_denial_rr_t) (qname : elpis_name_t) (qtype : Z) : res bool :=
  match rrs with
  | [] => Ok false
  | r :: rrs =>
    m ← nsec_matches r qname;
    if negb m then elpis_nsec_proves_nodata rrs qname qtype
    else
      q ← bitmap_has r qtype;
      if (q : bool) then Ok false
      else
        c ← (if negb (qtype =? ELPIS_T_CNAME) then bitmap_has r ELPIS_T_CNAME else Ok false);
        if (c : bool) then Ok false
        else
          ns ← bitmap_has r ELPIS_T_NS;
          soa ← (if (ns : bool) then bitmap_has r ELPIS_T_SOA else Ok false);
          if ns && negb soa && negb (qtype =? ELPIS_T_DS) then Ok false
          else Ok true
  end.

Fixpoint elpis_nsec_proves_insecure_deleg (rrs : list elpis_denial_rr_t) (qname : elpis_name_t) : res bool :=
  match rrs with
  | [] => Ok false
  | r :: rrs =>
    m ← nsec_matches r qname;
    if negb m then elpis_nsec_proves_insecure_deleg rrs qname
    else
      ds ← bitmap_has r ELPIS_T_DS;
      if (ds : bool) then Ok false
      else
        soa ← bitmap_has r ELPIS_T_SOA;
        if (soa : bool) then Ok false else bitmap_has r ELPIS_T_NS
  end.

(** The loop of [elpis_nsec_proves_no_ds]: [None] when no record matches. *)
Fixpoint no_ds_loop (rrs : list elpis_denial_rr_t) (qname : elpis_name_t) : res (option bool) :=
  match rrs with
  | [] => Ok None
  | r :: rrs =>
    m ← nsec_matches r qname;
    if negb m then no_ds_loop rrs qname
    else
      ds ← bitmap_has r ELPIS_T_DS;
      if (ds : bool) then Ok (Some false)
      else
        soa ← bitmap_has r ELPIS_T_SOA;
        Ok (Some (negb soa))
  end.
Definition elpis_nsec_proves_no_ds (rrs : list elpis_denial_rr_t) (qname : elpis_name_t) : res bool :=
  r ← no_ds_loop rrs qname;
  match r with
  | Some b => Ok b
  | None => elpis_nsec_proves_nxdomain rrs qname
  end.

(** ** What the records mean *)

(** A record the code may be handed. *)
Definition wf_denial (r : elpis_denial_rr_t) : Prop :=
  wf_name (dn_owner r) ∧ bytes (dn_rd r) ∧ 0 <= dn_rdlen r <= zlen (dn_rd r).

(** An NSEC record with owner [o], next name [nx] and type bitmap [bm]. *)
Definition nsec_rr (r : elpis_denial_rr_t) (o nx : list (list Z)) (bm : list Z) : Prop :=
  dn_owner r = name_of o ∧ labels_ok o ∧ labels_ok nx ∧
  slice (dn_rd r) 0 (dn_rdlen r) = wire nx ++ bm.

(** Strictly between [o] and [nx] in the canonical order, which wraps after
    the last name of the zone. *)
Definition spans (o nx z : list (list Z)) : Prop :=
  if canon_spec o nx <? 0 then canon_spec o z < 0 ∧ canon_spec z nx < 0
  else canon_spec o z < 0 ∨ canon_spec z nx < 0.

#[export] Instance spans_dec o nx z : Decision (spans o nx z).
Proof. unfold spans. case_match; apply _. Defined.

(** A zone: the names that own records, with their types. *)
Definition zone : Type := list (list (list Z) * list Z).
Definition owns (zn : zone) (n : list (list Z)) : Prop := ∃ z ts, (z, ts) ∈ zn ∧ labels_eq z n.
Definition has_type (zn : zone) (n : list (list Z)) (t : Z) : Prop :=
  ∃ z ts, (z, ts) ∈ zn ∧ labels_eq z n ∧ t ∈ ts.

(** A record a correct signer of the zone publishes: its owner and its next
    name are neighbours in the zone, and its bitmap lists the owner's types. *)
Definition genuine (zn : zone) (r : elpis_denial_rr_t) : Prop :=
  ∃ o nx ws, nsec_rr r o nx (enc_windows ws) ∧ windows_ok ws ∧ owns zn o ∧ owns zn nx ∧
    (∀ z ts, (z, ts) ∈ zn → ¬ spans o nx z) ∧
    (∀ t, 0 <= t < 65536 → in_windows ws t ↔ has_type zn o t).

(** ** Lemmas on the order *)

(** Names that share a suffix are contiguous in the canonical order. *)
Lemma lcp_between (a b c : list (list Z)) :
  lexcmp octets_cmp a b <= 0 → lexcmp octets_cmp b c <= 0 →
  (lcp a c <= lcp a b)%nat ∧ (lcp a c <= lcp b c)%nat.
Proof.
  revert b c. induction a as [|x a IH]; intros b c; [cbn; lia|].
  destruct c as [|z c]; [cbn; destruct (lcp b []); lia|]. destruct b as [|y b]; [cbn; lia|].
  cbn [lexcmp lcp]. destruct (decide (x = z)) as [<-|]; [|destruct (decide (x = y)); destruct (decide (y = z)); lia].
  destruct (Z.eqb_spec (octets_cmp x y) 0) as [E|E].
  - apply cmp_eq in E as ->. rewrite (cmp_refl octets_cmp y). rewrite !decide_True by done. cbn [Z.eqb].
    intros H1 H2. destruct (IH b c H1 H2). lia.
  - rewrite (cmp_opp (cmp := octets_cmp) x y). destruct (Z.eqb_spec (- octets_cmp x y) 0) as [E'|E']; [lia|]. intros H1 H2.
    destruct (cmp_range (cmp := octets_cmp) x y) as [|[]]; lia.
Qed.

Lemma shared_comm a b : shared_labels a b = shared_labels b a.
Proof.
  unfold shared_labels. generalize (rev (fold_labels a)) (rev (fold_labels b)). clear.
  induction l as [|x l IH]; intros [|y k]; cbn; try done.
  destruct (decide (x = y)) as [->|]; [rewrite decide_True by done; by rewrite IH|by rewrite decide_False by congruence].
Qed.

Lemma shared_between a b c :
  canon_spec a b <= 0 → canon_spec b c <= 0 →
  (shared_labels a c <= shared_labels a b)%nat ∧ (shared_labels a c <= shared_labels b c)%nat.
Proof. apply lcp_between. Qed.

Lemma shared_eq_r a b c : labels_eq b c → shared_labels a b = shared_labels a c.
Proof. unfold shared_labels, labels_eq. by intros ->. Qed.

Lemma canon_eq_l a b c : labels_eq a b → canon_spec a c = canon_spec b c.
Proof. unfold canon_spec, labels_eq. by intros ->. Qed.
Lemma canon_eq_r a b c : labels_eq b c → canon_spec a b = canon_spec a c.
Proof. unfold canon_spec, labels_eq. by intros ->. Qed.

Lemma spans_eq o nx z z' : labels_eq z z' → spans o nx z ↔ spans o nx z'.
Proof. intros E. unfold spans. by rewrite (canon_eq_r o z z' E), (canon_eq_l z z' nx E). Qed.

Lemma canon_le_total a b : canon_spec a b <= 0 ∨ canon_spec b a < 0.
Proof. rewrite (canon_spec_opp a b). lia. Qed.

(** If [q] is spanned and [z] is not, [z] is on the far side of [o] or of
    [nx]: it shares no more of [q]'s labels than one of the two does. *)
Lemma spans_shared o nx q z :
  spans o nx q → ¬ spans o nx z →
  (shared_labels z q <= shared_labels o q)%nat ∨ (shared_labels z q <= shared_labels nx q)%nat.
Proof.
  intros Hq Hz.
  assert (canon_spec z o <= 0 ∧ canon_spec o q <= 0 ∨ canon_spec q nx <= 0 ∧ canon_spec nx z <= 0) as [[H1 H2]|[H1 H2]].
  { unfold spans in *. pose proof (canon_spec_opp o z). pose proof (canon_spec_opp z nx).
    pose proof (canon_spec_opp o q). pose proof (canon_spec_opp q nx). pose proof (canon_spec_opp q z).
    destruct (canon_spec o nx <? 0) eqn:E; bool_to_prop.
    - destruct (decide (canon_spec o z < 0)); [right|left]; lia.
    - destruct (decide (canon_spec o q < 0)); [left|right]; lia. }
  - left. by apply (shared_between z o q).
  - right. rewrite (shared_comm z q), (shared_comm nx q). by apply (shared_between q nx z).
Qed.

(** ** The code on a record *)

(** What the code sees of a record: the owner, and the next name and bitmap
    when the rdata begins with a name. *)
Definition view (r : elpis_denial_rr_t) (o : list (list Z)) (v : option (list (list Z) * list Z)) : Prop :=
  dn_owner r = name_of o ∧ labels_ok o ∧ bytes (dn_rd r) ∧ 0 <= dn_rdlen r <= zlen (dn_rd r) ∧
  match v with
  | Some (nx, bm) => labels_ok nx ∧ slice (dn_rd r) 0 (dn_rdlen r) = wire nx ++ bm ∧
      elpis_name_parse_nocomp (dn_rd r) (dn_rdlen r) = Ok (name_of nx, zlen (wire nx))
  | None => ∃ rc d, elpis_name_parse_nocomp (dn_rd r) (dn_rdlen r) = Err rc d
  end.

Lemma view_total r : wf_denial r → ∃ o v, view r o v.
Proof.
  intros ((o & Ho & E) & Hb & Hl). pose proof (name_parse_nocomp_spec (dn_rd r) (dn_rdlen r) Hb ltac:(lia)) as H.
  exists o. destruct (elpis_name_parse_nocomp (dn_rd r) (dn_rdlen r)) as [[n e]|rc d|] eqn:Ep; [|by exists None; split_and!; eauto; lia|done].
  destruct H as (nx & [Hle Hs] & Hok & -> & ->). exists (Some (nx, slice (dn_rd r) (zlen (wire nx)) (dn_rdlen r - zlen (wire nx)))).
  split; [done|]. split; [done|]. split; [done|]. split; [lia|]. split; [done|]. split; [|done].
  pose proof (zlen_nonneg (wire nx)).
  replace (dn_rdlen r) with (zlen (wire nx) + (dn_rdlen r - zlen (wire nx))) at 1 by lia.
  by rewrite slice_split, Z.add_0_l, Hs by lia.
Qed.

Lemma view_nsec r o nx bm : wf_denial r → nsec_rr r o nx bm → view r o (Some (nx, bm)).
Proof.
  intros (_ & Hb & Hl) (Ho & Hok & Hnx & Hs). split; [done|]. split; [done|]. split; [done|]. split; [done|].
  split; [done|]. split; [done|]. apply name_parse_nocomp_complete; [done|lia|done|].
  assert (zlen (wire nx) <= dn_rdlen r) as Hle.
  { pose proof (zlen_slice (dn_rd r) 0 (dn_rdlen r) ltac:(lia) ltac:(lia) ltac:(lia)) as E.
    rewrite Hs, zlen_app in E. pose proof (zlen_nonneg bm). lia. }
  pose proof (zlen_nonneg (wire nx)). split; [lia|].
  replace (dn_rdlen r) with (zlen (wire nx) + (dn_rdlen r - zlen (wire nx))) in Hs by lia.
  rewrite slice_split, Z.add_0_l in Hs by lia. apply app_inj_1 in Hs as [Hs _]; [done|].
  apply Nat2Z.inj. fold (zlen (slice (dn_rd r) 0 (zlen (wire nx)))). rewrite zlen_slice by lia. done.
Qed.

Lemma nsec_next_spec r o v : view r o v → nsec_next r = Ok (option_map (fun x => name_of (fst x)) v).
Proof.
  intros (_ & _ & _ & Hl & Hv). unfold nsec_next. destruct (Z.ltb_spec (dn_rdlen r) 1) as [H0|H0].
  - destruct v as [[nx bm]|]; [|done]. destruct Hv as (_ & Hs & _). exfalso.
    apply (f_equal zlen) in Hs. rewrite zlen_slice, zlen_app in Hs by lia.
    pose proof (zlen_wire_pos nx). pose proof (zlen_nonneg bm). lia.
  - destruct v as [[nx bm]|]; [destruct Hv as (_ & _ & ->)|destruct Hv as (rc & d & ->)]; done.
Qed.

Lemma covers_spec r o v q :
  view r o v → labels_ok q →
  elpis_nsec_covers r (name_of q) = Ok match v with Some (nx, _) => bool_decide (spans o nx q) | None => false end.
Proof.
  intros Hv Hq. unfold elpis_nsec_covers. rewrite (nsec_next_spec r o v Hv). bind_step. destruct Hv as (Ho & Hok & _ & _ & Hv).
  destruct v as [[nx bm]|]; [|done]. cbn [option_map fst]. destruct Hv as (Hnx & _). rewrite Ho.
  rewrite !name_canon_cmp_spec by done. bind_step. f_equal. unfold spans.
  apply eq_true_iff_eq. rewrite bool_decide_eq_true. destruct (canon_spec o nx <? 0).
  - by rewrite andb_true_iff, !Z.ltb_lt.
  - by rewrite orb_true_iff, !Z.ltb_lt.
Qed.

Lemma matches_spec r o v q :
  view r o v → labels_ok q → nsec_matches r (name_of q) = Ok (bool_decide (labels_eq o q)).
Proof. intros (Ho & Hok & _) Hq. unfold nsec_matches. rewrite Ho. by apply name_eq_spec. Qed.

Lemma nsec_bitmap_has_spec r o v t :
  view r o v → 0 <= t < 65536 →
  ∃ b, bitmap_has r t = Ok b ∧
    ∀ nx ws, v = Some (nx, enc_windows ws) → windows_ok ws → (b = true ↔ in_windows ws t).
Proof.
  intros (_ & _ & Hb & Hl & Hv) Ht. unfold bitmap_has, nsec_bitmap.
  destruct v as [[nx bm]|]; [|destruct Hv as (rc & d & ->); exists false; by split].
  destruct Hv as (_ & Hs & ->). cbn [try]. bind_step.
  assert (zlen (wire nx) <= dn_rdlen r ∧ bm = slice (dn_rd r) (zlen (wire nx)) (dn_rdlen r - zlen (wire nx))) as [Hle Hbm].
  { pose proof (zlen_nonneg (wire nx)). assert (zlen (wire nx) <= dn_rdlen r) as Hle.
    { apply (f_equal zlen) in Hs. rewrite zlen_slice, zlen_app in Hs by lia. pose proof (zlen_nonneg bm). lia. }
    split; [done|]. replace (dn_rdlen r) with (zlen (wire nx) + (dn_rdlen r - zlen (wire nx))) in Hs by lia.
    rewrite slice_split, Z.add_0_l in Hs by lia. apply app_inj_1 in Hs as [_ Hs]; [done|].
    apply Nat2Z.inj. fold (zlen (slice (dn_rd r) 0 (zlen (wire nx)))). rewrite zlen_slice by lia. done. }
  zfalse (dn_rdlen r <? zlen (wire nx)).
  destruct (bitmap_has_spec (drop (Z.to_nat (zlen (wire nx))) (dn_rd r)) (dn_rdlen r - zlen (wire nx)) (Forall_drop _ _ _ Hb)
    ltac:(rewrite zlen_drop; pose proof (zlen_nonneg (wire nx)); lia) t ltac:(lia) Ht) as (b & Hb' & Hw).
  exists b. split; [done|]. intros nx' ws [= <- Ews] Hok. apply Hw; [done|]. by rewrite <- Ews, Hbm.
Qed.

(** ** The loops *)

Lemma deny_loop_spec rrs q cov :
  Forall wf_denial rrs → labels_ok q →
  ∃ x, deny_loop rrs (name_of q) cov = Ok x ∧
    ∀ b, x = Some b →
      (∀ r o v, r ∈ rrs → view r o v → ¬ labels_eq o q) ∧
      (b = true → cov = true ∨ ∃ r o nx bm, r ∈ rrs ∧ view r o (Some (nx, bm)) ∧ spans o nx q).
Proof.
  intros Hwf Hq. revert cov. induction Hwf as [|r rrs Hr _ IH]; intros cov; cbn [deny_loop].
  - exists (Some cov). split; [done|]. intros b [= <-]. split; [|by left]. intros ??? Hin. by apply not_elem_of_nil in Hin.
  - destruct (view_total r Hr) as (o & v & Hv). rewrite (matches_spec r o v q Hv Hq). bind_step.
    case_bool_decide as Heq; [by exists None|]. rewrite (covers_spec r o v q Hv Hq). bind_step.
    destruct (IH (match v with Some (nx, _) => bool_decide (spans o nx q) | None => false end || cov)) as (x & Hx & Hs).
    exists x. split; [done|]. intros b Hb. destruct (Hs b Hb) as [Hno Hcov]. split.
    + intros r' o' v' Hin Hv'. apply elem_of_cons in Hin as [->|Hin]; [|by eapply Hno].
      destruct Hv as (Ho & Hok & _). destruct Hv' as (Ho' & Hok' & _).
      assert (o' = o) as -> by (apply name_of_inj; [done|done|congruence]). done.
    + intros Ht. destruct (Hcov Ht) as [Hc|(r' & o' & nx & bm & Hin & Hrest)].
      * apply orb_true_iff in Hc as [Hc|Hc]; [|by left]. right. destruct v as [[nx bm]|]; [|done].
        apply bool_decide_eq_true in Hc. exists r, o, nx, bm. split; [by left|done].
      * right. exists r', o', nx, bm. split; [by right|done].
Qed.

Lemma encloser_loop_spec rrs q best :
  Forall wf_denial rrs → labels_ok q → 0 <= best →
  ∃ k, encloser_loop rrs (name_of q) best = Ok k ∧ best <= k ∧
    (∀ r o v, r ∈ rrs → view r o v → Z.of_nat (shared_labels o q) <= k) ∧
    (∀ r o nx bm, r ∈ rrs → view r o (Some (nx, bm)) → Z.of_nat (shared_labels nx q) <= k) ∧
    (k = best ∨ ∃ r o v, r ∈ rrs ∧ view r o v ∧
       (k = Z.of_nat (shared_labels o q) ∨ ∃ nx bm, v = Some (nx, bm) ∧ k = Z.of_nat (shared_labels nx q))).
Proof.
  intros Hwf Hq. revert best. induction Hwf as [|r rrs Hr _ IH]; intros best Hb; cbn [encloser_loop].
  - exists best. split; [done|]. split; [lia|]. split; [intros ??? Hin; by apply not_elem_of_nil in Hin|].
    split; [intros ???? Hin; by apply not_elem_of_nil in Hin|by left].
  - destruct (view_total r Hr) as (o & v & Hv). pose proof Hv as (Ho & Hok & _ & _ & Hv').
    rewrite Ho, name_common_labels_spec by done. bind_step. rewrite (nsec_next_spec r o v Hv). bind_step.
    set (a := Z.of_nat (shared_labels o q)) in *. set (best1 := if best <? a then a else best).
    assert (best <= best1 ∧ a <= best1 ∧ (best1 = best ∨ best1 = a)) as (B1 & B2 & B3) by (unfold best1; destruct (Z.ltb_spec best a); lia).
    assert (∃ best2, match option_map (fun x => name_of (fst x)) v with
              | Some next => b ← elpis_name_common_labels next (name_of q);
                             encloser_loop rrs (name_of q) (if best1 <? b then b else best1)
              | None => encloser_loop rrs (name_of q) best1 end = encloser_loop rrs (name_of q) best2 ∧
              best1 <= best2 ∧ (∀ nx bm, v = Some (nx, bm) → Z.of_nat (shared_labels nx q) <= best2) ∧
              (best2 = best1 ∨ ∃ nx bm, v = Some (nx, bm) ∧ best2 = Z.of_nat (shared_labels nx q))) as (best2 & -> & C1 & C2 & C3).
    { destruct v as [[nx bm]|]; cbn [option_map fst].
      - destruct Hv' as (Hnx & _). rewrite name_common_labels_spec by done. bind_step. eexists. split; [done|].
        destruct (Z.ltb_spec best1 (Z.of_nat (shared_labels nx q))); (split; [lia|]); (split; [intros nx' bm' [= <- <-]; lia|]);
          [right; by exists nx, bm|by left].
      - exists best1. split; [done|]. split; [lia|]. split; [done|by left]. }
    destruct (IH best2 ltac:(lia)) as (k & Hk & Hge & Ho' & Hn' & Hatt). exists k. split; [done|]. split; [lia|].
    assert (∀ o' v', view r o' v' → o' = o) as Huniq.
    { intros o' v' (Ho2 & Hok2 & _). apply name_of_inj; [done|done|congruence]. }
    split; [|split].
    + intros r' o' v' Hin Hvw. apply elem_of_cons in Hin as [->|Hin]; [|by eapply Ho'].
      rewrite (Huniq _ _ Hvw). fold a. lia.
    + intros r' o' nx bm Hin Hvw. apply elem_of_cons in Hin as [->|Hin]; [|by eapply Hn'].
      destruct Hvw as (_ & _ & _ & _ & Hnx & _ & Hp). destruct v as [[nx2 bm2]|].
      * destruct Hv' as (Hnx2 & _ & Hp2). rewrite Hp in Hp2. assert (name_of nx = name_of nx2) as E by congruence.
        apply name_of_inj in E as ->; [|done|done]. specialize (C2 nx2 bm2 eq_refl). lia.
      * destruct Hv' as (rc & d & Hp2). congruence.
    + destruct Hatt as [->|(r' & o' & v' & Hin & Hrest)]; [|right; exists r', o', v'; split; [by right|done]].
      destruct C3 as [->|(nx & bm & -> & ->)].
      * destruct B3 as [-> | ->]; [by left|]. right. exists r, o, v. split; [by left|]. split; [done|by left].
      * right. exists r, o, (Some (nx, bm)). split; [by left|]. split; [done|]. right. by exists nx, bm.
Qed.

(** ** What the proofs prove *)

(** [q] is denied by the zone: it owns nothing, and neither does the wildcard
    below the longest suffix of it the zone has names under. *)
Definition denied (zn : zone) (q : list (list Z)) : Prop :=
  ¬ owns zn q ∧
  ∃ k : nat, (k <= length q)%nat ∧
    (∀ z ts, (z, ts) ∈ zn → (shared_labels z q <= k)%nat) ∧
    (∃ z ts, (z, ts) ∈ zn ∧ shared_labels z q = k) ∧
    ¬ owns zn ([42] :: drop (length q - k) q).

Lemma genuine_view zn r :
  wf_denial r → genuine zn r →
  ∃ o nx ws, view r o (Some (nx, enc_windows ws)) ∧ windows_ok ws ∧ owns zn o ∧ owns zn nx ∧
    (∀ z ts, (z, ts) ∈ zn → ¬ spans o nx z) ∧
    (∀ t, 0 <= t < 65536 → in_windows ws t ↔ has_type zn o t).
Proof.
  intros Hwf (o & nx & ws & Hr & Hok & Ho & Hn & Hg & Ht). exists o, nx, ws. split; [by apply view_nsec|done].
Qed.

Lemma view_det r o v o' v' : view r o v → view r o' v' → o' = o ∧ v' = v.
Proof.
  intros (Ho & Hok & Hb & Hl & Hv) (Ho' & Hok' & _ & _ & Hv').
  assert (o' = o) as -> by (apply name_of_inj; [done|done|congruence]). split; [done|].
  destruct v as [[nx bm]|], v' as [[nx' bm']|]; [| | |done].
  - destruct Hv as (Hx & Hs & Hp), Hv' as (Hx' & Hs' & Hp'). rewrite Hp in Hp'.
    assert (nx' = nx) as -> by (apply name_of_inj; [done|done|congruence]). rewrite Hs in Hs'.
    apply app_inv_head in Hs'. by rewrite Hs'.
  - destruct Hv as (_ & _ & Hp), Hv' as (rc & d & Hp'). congruence.
  - destruct Hv' as (_ & _ & Hp), Hv as (rc & d & Hp'). congruence.
Qed.

(** A spanned name owns nothing. *)
Lemma spanned_not_owned zn r o nx bm q :
  wf_denial r → genuine zn r → view r o (Some (nx, bm)) → spans o nx q → ¬ owns zn q.
Proof.
  intros Hwf Hg Hv Hs (z & ts & Hin & E). destruct (genuine_view zn r Hwf Hg) as (o' & nx' & ws & Hv' & _ & _ & _ & Hno & _).
  destruct (view_det _ _ _ _ _ Hv Hv') as (-> & [= -> _]). apply (Hno z ts Hin). by apply (spans_eq o nx z q E).
Qed.

Lemma owns_shared zn n q : owns zn n → ∃ z ts, (z, ts) ∈ zn ∧ shared_labels z q = shared_labels n q.
Proof. intros (z & ts & Hin & E). exists z, ts. split; [done|]. rewrite (shared_comm z q), (shared_comm n q). by apply shared_eq_r. Qed.

Lemma prepend_star k q : labels_ok q → 
  elpis_name_prepend [42] 1 (name_of (drop k q))
  = if decide (labels_ok ([42] :: drop k q)) then Ok (name_of ([42] :: drop k q)) else fail ELPIS_EFORMAT.
Proof.
  intros Hq. apply (name_prepend_spec [42]); [|by_compute]. rewrite <- (take_drop k q) in Hq. by apply labels_ok_app in Hq.
Qed.

Lemma nsec_nxdomain_spec rrs q :
  Forall wf_denial rrs → labels_ok q →
  ∃ b, elpis_nsec_proves_nxdomain rrs (name_of q) = Ok b ∧
    ∀ zn, b = true → Forall (genuine zn) rrs → denied zn q.
Proof.
  intros Hwf Hq. unfold elpis_nsec_proves_nxdomain. destruct (zlen rrs =? 0); [by exists false|].
  destruct (deny_loop_spec rrs q false Hwf Hq) as (x & -> & Hx). bind_step.
  destruct x as [[]|]; [|by exists false|by exists false].
  destruct (encloser_loop_spec rrs q 0 Hwf Hq ltac:(lia)) as (k & Hk & Hk0 & Hko & Hkn & Hatt).
  unfold closest_encloser_labels. rewrite Hk. bind_step.
  rewrite name_suffix_spec by done. cbn [try]. bind_step. rewrite prepend_star by done.
  destruct (decide _) as [Hwc|_]; cbn [try]; bind_step; [|by exists false].
  destruct (deny_loop_spec rrs _ false Hwf Hwc) as (y & -> & Hy). bind_step.
  exists (default false y). split; [done|]. intros zn Hb Hg. destruct y as [b|]; [|done]. cbn in Hb. subst b.
  pose proof (fun r => Forall_elem _ _ r Hwf) as Hwf'. pose proof (fun r => Forall_elem _ _ r Hg) as Hg'.
  clear Hwf Hg. rename Hwf' into Hwf, Hg' into Hg.
  destruct (Hx true eq_refl) as [_ Hc]. destruct (Hc eq_refl) as [?|(r & o & nx & bm & Hin & Hv & Hs)]; [done|].
  destruct (Hy true eq_refl) as [_ Hc2]. destruct (Hc2 eq_refl) as [?|(r2 & o2 & nx2 & bm2 & Hin2 & Hv2 & Hs2)]; [done|].
  split; [apply (spanned_not_owned zn r o nx bm); [by apply Hwf|by apply Hg|done|done]|].
  assert (∀ z ts, (z, ts) ∈ zn → Z.of_nat (shared_labels z q) <= k) as Hmax.
  { intros z ts Hz. destruct (genuine_view zn r (Hwf r Hin) (Hg r Hin)) as (o' & nx' & ws & Hv' & _ & _ & _ & Hno & _).
    destruct (view_det _ _ _ _ _ Hv Hv') as (-> & [= -> _]).
    destruct (spans_shared o nx q z Hs (Hno z ts Hz)).
    - specialize (Hko r o _ Hin Hv). lia.
    - specialize (Hkn r o nx bm Hin Hv). lia. }
  assert (∃ z ts, (z, ts) ∈ zn ∧ Z.of_nat (shared_labels z q) = k) as (z & ts & Hz & Ez).
  { destruct Hatt as [->|(r' & o' & v' & Hin' & Hv' & Hk')].
    - destruct (genuine_view zn r (Hwf r Hin) (Hg r Hin)) as (o' & nx' & ws & _ & _ & (z & ts & Hz & _) & _).
      exists z, ts. split; [done|]. specialize (Hmax z ts Hz). lia.
    - destruct (genuine_view zn r' (Hwf r' Hin') (Hg r' Hin')) as (o3 & nx3 & ws & Hv3 & _ & Ho3 & Hn3 & _).
      destruct (view_det _ _ _ _ _ Hv3 Hv') as (-> & ->). destruct Hk' as [->|(nx' & bm' & [= <- _] & ->)].
      + destruct (owns_shared zn o3 q Ho3) as (z & ts & Hz & E). exists z, ts. split; [done|]. by rewrite E.
      + destruct (owns_shared zn nx3 q Hn3) as (z & ts & Hz & E). exists z, ts. split; [done|]. by rewrite E. }
  exists (Z.to_nat k). split; [pose proof (shared_labels_longest z q) as [_ [? _]]; lia|].
  split; [intros z' ts' Hz'; specialize (Hmax z' ts' Hz'); lia|]. split; [exists z, ts; split; [done|lia]|].
  apply (spanned_not_owned zn r2 o2 nx2 bm2); [by apply Hwf|by apply Hg|done|done].
Qed.

(** The type tests of a record that matches. *)
Lemma genuine_types zn r q t :
  wf_denial r → labels_ok q → 0 <= t < 65536 →
  ∃ b, bitmap_has r t = Ok b ∧
    (genuine zn r → nsec_matches r (name_of q) = Ok true → b = true ↔ has_type zn q t).
Proof.
  intros Hwf Hq Ht. destruct (view_total r Hwf) as (o & v & Hv).
  destruct (nsec_bitmap_has_spec r o v t Hv Ht) as (b & Hb & Hw). exists b. split; [done|]. intros Hg Hm.
  destruct (genuine_view zn r Hwf Hg) as (o' & nx & ws & Hv' & Hok & _ & _ & _ & Hty).
  destruct (view_det _ _ _ _ _ Hv Hv') as (-> & <-). rewrite (Hw nx ws eq_refl Hok), (Hty t Ht).
  rewrite (matches_spec r o _ q Hv Hq) in Hm. injection Hm as Hm%bool_decide_eq_true.
  unfold has_type. split; intros (z & ts & Hin & E & Hts); exists z, ts; (split; [done|]); (split; [|done]).
  - by rewrite E.
  - by rewrite E, Hm.
Qed.

Lemma matches_total r q : wf_denial r → labels_ok q → ∃ b, nsec_matches r (name_of q) = Ok b.
Proof. intros Hwf Hq. destruct (view_total r Hwf) as (o & v & Hv). rewrite (matches_spec r o v q Hv Hq). by eexists. Qed.

Lemma matches_owns zn r q :
  wf_denial r → labels_ok q → genuine zn r → nsec_matches r (name_of q) = Ok true → owns zn q.
Proof.
  intros Hwf Hq Hg Hm. destruct (genuine_view zn r Hwf Hg) as (o & nx & ws & Hv & _ & (z & ts & Hin & E) & _).
  rewrite (matches_spec r o _ q Hv Hq) in Hm. injection Hm as Hm%bool_decide_eq_true.
  exists z, ts. split; [done|]. by rewrite E.
Qed.

(** Decides a type test: names its outcome and what it says of the zone. *)
Ltac type_test zn r q t b H :=
  destruct (genuine_types zn r q t) as (b & -> & H);
  [assumption|assumption|vm_compute; split; congruence || lia|bind_step].

Lemma type_numbers :
  0 <= ELPIS_T_CNAME < 65536 ∧ 0 <= ELPIS_T_NS < 65536 ∧ 0 <= ELPIS_T_SOA < 65536 ∧ 0 <= ELPIS_T_DS < 65536.
Proof. by_compute. Qed.

Lemma nsec_nodata_spec zn rrs q qtype :
  Forall wf_denial rrs → labels_ok q → 0 <= qtype < 65536 →
  ∃ b, elpis_nsec_proves_nodata rrs (name_of q) qtype = Ok b ∧
    (b = true → Forall (genuine zn) rrs →
     owns zn q ∧ ¬ has_type zn q qtype ∧ ¬ has_type zn q ELPIS_T_CNAME ∧
     (has_type zn q ELPIS_T_NS → has_type zn q ELPIS_T_SOA ∨ qtype = ELPIS_T_DS)).
Proof.
  intros Hwf Hq Ht. destruct type_numbers as (Tc & Tn & Ts & Td).
  induction Hwf as [|r rrs Hr _ IH]; cbn [elpis_nsec_proves_nodata]; [by exists false|].
  destruct (matches_total r q Hr Hq) as (m & Hm). rewrite Hm. bind_step. destruct m; cbn [negb].
  2:{ destruct IH as (b & Hb & H). exists b. split; [done|]. intros ? [_ ?]%Forall_cons_1. by apply H. }
  destruct (genuine_types zn r q qtype Hr Hq Ht) as (bq & Eq & Hbq). rewrite Eq. bind_step. destruct bq; [by exists false|].
  destruct (genuine_types zn r q ELPIS_T_CNAME Hr Hq Tc) as (bc & Ec & Hbc).
  destruct (genuine_types zn r q ELPIS_T_NS Hr Hq Tn) as (bn & En & Hbn).
  destruct (genuine_types zn r q ELPIS_T_SOA Hr Hq Ts) as (bs & Es & Hbs).
  assert ((if negb (qtype =? ELPIS_T_CNAME) then bitmap_has r ELPIS_T_CNAME else Ok false) = Ok bc) as ->.
  { destruct (Z.eqb_spec qtype ELPIS_T_CNAME) as [->|]; cbn [negb]; [congruence|done]. }
  bind_step. destruct bc; [by exists false|]. rewrite En. bind_step.
  assert ((if bn then bitmap_has r ELPIS_T_SOA else Ok false) = Ok (bn && bs)) as -> by (by destruct bn).
  bind_step. exists (negb (bn && negb (bn && bs) && negb (qtype =? ELPIS_T_DS))). split; [by destruct (_ && _ && _)|].
  intros Hb [Hg _]%Forall_cons_1. specialize (Hbq Hg Hm). specialize (Hbc Hg Hm). specialize (Hbn Hg Hm). specialize (Hbs Hg Hm).
  split; [by apply (matches_owns zn r)|]. split; [by rewrite <- Hbq|]. split; [by rewrite <- Hbc|].
  intros ->%Hbn. rewrite <- Hbs. destruct bs; [by left|]. cbn in Hb. apply negb_true_iff, negb_false_iff in Hb. bool_to_prop. by right.
Qed.

Lemma nsec_insecure_spec zn rrs q :
  Forall wf_denial rrs → labels_ok q →
  ∃ b, elpis_nsec_proves_insecure_deleg rrs (name_of q) = Ok b ∧
    (b = true → Forall (genuine zn) rrs →
     has_type zn q ELPIS_T_NS ∧ ¬ has_type zn q ELPIS_T_DS ∧ ¬ has_type zn q ELPIS_T_SOA).
Proof.
  intros Hwf Hq. destruct type_numbers as (_ & Tn & Ts & Td).
  induction Hwf as [|r rrs Hr _ IH]; cbn [elpis_nsec_proves_insecure_deleg]; [by exists false|].
  destruct (matches_total r q Hr Hq) as (m & Hm). rewrite Hm. bind_step. destruct m; cbn [negb].
  2:{ destruct IH as (b & Hb & H). exists b. split; [done|]. intros ? [_ ?]%Forall_cons_1. by apply H. }
  destruct (genuine_types zn r q ELPIS_T_DS Hr Hq Td) as (bd & -> & Hbd). bind_step. destruct bd; [by exists false|].
  destruct (genuine_types zn r q ELPIS_T_SOA Hr Hq Ts) as (bs & -> & Hbs). bind_step. destruct bs; [by exists false|].
  destruct (genuine_types zn r q ELPIS_T_NS Hr Hq Tn) as (bn & -> & Hbn). exists bn. split; [done|].
  intros -> [Hg _]%Forall_cons_1. split; [by apply Hbn|]. split; [by rewrite <- Hbd|by rewrite <- Hbs].
Qed.

Lemma no_ds_loop_spec zn rrs q :
  Forall wf_denial rrs → labels_ok q →
  ∃ x, no_ds_loop rrs (name_of q) = Ok x ∧
    (x = Some true → Forall (genuine zn) rrs →
     owns zn q ∧ ¬ has_type zn q ELPIS_T_DS ∧ ¬ has_type zn q ELPIS_T_SOA).
Proof.
  intros Hwf Hq. destruct type_numbers as (_ & _ & Ts & Td).
  induction Hwf as [|r rrs Hr _ IH]; cbn [no_ds_loop]; [by exists None|].
  destruct (matches_total r q Hr Hq) as (m & Hm). rewrite Hm. bind_step. destruct m; cbn [negb].
  2:{ destruct IH as (b & Hb & H). exists b. split; [done|]. intros ? [_ ?]%Forall_cons_1. by apply H. }
  destruct (genuine_types zn r q ELPIS_T_DS Hr Hq Td) as (bd & -> & Hbd). bind_step. destruct bd; [by exists (Some false)|].
  destruct (genuine_types zn r q ELPIS_T_SOA Hr Hq Ts) as (bs & -> & Hbs). bind_step. exists (Some (negb bs)). split; [done|].
  intros [= ->%negb_true_iff] [Hg _]%Forall_cons_1. split; [by apply (matches_owns zn r)|].
  split; [by rewrite <- Hbd|by rewrite <- Hbs].
Qed.

(** ** Properties *)

(** The zone of the examples: [e.] with its SOA, [a.b.e.] and [c.e.]. *)
Definition ex_zone : zone :=
  [([[101]], [ELPIS_T_NS; ELPIS_T_SOA]); ([[97];[98];[101]], [1]); ([[99];[101]], [1])].
Definition ex_nsec (o nx : list (list Z)) (bm : list Z) : elpis_denial_rr_t :=
  mkDenial (name_of o) (wire nx ++ bm) (zlen (wire nx ++ bm)).
Definition ex_apex := ex_nsec [[101]] [[97];[98];[101]] [0; 1; 34].
Definition ex_ab := ex_nsec [[97];[98];[101]] [[99];[101]] [0; 1; 64].
Definition ex_c := ex_nsec [[99];[101]] [[101]] [0; 1; 64].

Lemma ex_wf : Forall wf_denial [ex_apex; ex_ab; ex_c].
Proof.
  repeat constructor; try by_compute.
  - exists [[101]]. by_compute.
  - exists [[97];[98];[101]]. by_compute.
  - exists [[99];[101]]. by_compute.
Defined.

(** A decision procedure for [genuine] on concrete records. *)
Definition owns_b (zn : zone) (n : list (list Z)) : bool := existsb (fun zt => bool_decide (labels_eq (fst zt) n)) zn.
Definition has_type_b (zn : zone) (n : list (list Z)) (t : Z) : bool :=
  existsb (fun zt => bool_decide (labels_eq (fst zt) n) && bool_decide (t ∈ snd zt)) zn.

Lemma owns_b_spec zn n : owns_b zn n = true → owns zn n.
Proof.
  unfold owns_b. rewrite existsb_exists. intros ([z ts] & Hin & E%bool_decide_eq_true). exists z, ts.
  split; [by apply list_elem_of_In|done].
Qed.

Lemma has_type_b_spec zn n t : has_type_b zn n t = true ↔ has_type zn n t.
Proof.
  unfold has_type_b. rewrite existsb_exists. split.
  - intros ([z ts] & Hin & [E%bool_decide_eq_true Ht%bool_decide_eq_true]%andb_true_iff). exists z, ts.
    split; [by apply list_elem_of_In|done].
  - intros (z & ts & Hin & E & Ht). exists (z, ts). split; [by apply list_elem_of_In|].
    apply andb_true_iff. by split; apply bool_decide_eq_true.
Qed.

(** [f] on the [n] numbers from [t]. *)
Fixpoint check_from (f : Z → bool) (n : nat) (t : Z) : bool :=
  match n with O => true | S n => f t && check_from f n (t + 1) end.

Lemma check_from_spec f n t : check_from f n t = true → ∀ i, t <= i < t + Z.of_nat n → f i = true.
Proof.
  revert t. induction n as [|n IH]; intros t; cbn [check_from]; [lia|]. intros [H0 H]%andb_true_iff i Hi.
  destruct (decide (i = t)) as [->|]; [done|]. apply (IH (t + 1) H). lia.
Qed.

Definition genuine_b (zn : zone) (o nx : list (list Z)) (ws : list window) : bool :=
  bool_decide (labels_ok o) && bool_decide (labels_ok nx) && bool_decide (windows_ok ws) && bool_decide (bytes (enc_windows ws)) &&
  owns_b zn o && owns_b zn nx && forallb (fun zt => negb (bool_decide (spans o nx (fst zt)))) zn &&
  check_from (fun t => match elpis_bitmap_has (enc_windows ws) (zlen (enc_windows ws)) t with
                    | Ok b => eqb b (has_type_b zn o t) | _ => false end) (Z.to_nat 65536) 0.

Lemma genuine_check zn o nx ws :
  genuine_b zn o nx ws = true → genuine zn (ex_nsec o nx (enc_windows ws)).
Proof.
  unfold genuine_b. rewrite !andb_true_iff.
  intros [[[[[[[Ho%bool_decide_eq_true Hn%bool_decide_eq_true] Hok%bool_decide_eq_true] Hb%bool_decide_eq_true] Hoo%owns_b_spec] Hon%owns_b_spec] Hs] Ht].
  rewrite forallb_forall in Hs. exists o, nx, ws. split; [|split; [done|split; [done|split; [done|split]]]].
  - split; [done|]. split; [done|]. split; [done|]. by rewrite slice_0_all by (cbn; lia).
  - intros z ts Hin Hsp. apply list_elem_of_In, Hs in Hin. cbn in Hin. apply negb_true_iff, bool_decide_eq_false in Hin. done.
  - intros t Hr. pose proof (check_from_spec _ _ _ Ht t ltac:(lia)) as Ht'. cbv beta in Ht'. clear Ht. rename Ht' into Ht.
    destruct (bitmap_has_spec (enc_windows ws) (zlen (enc_windows ws)) Hb ltac:(lia) t ltac:(apply zlen_nonneg) Hr) as (b & Eb & Hw).
    rewrite Eb in Ht. apply eqb_prop in Ht. rewrite <- (Hw ws Hok), Ht, has_type_b_spec; [done|]. by apply slice_0_all.
Qed.

Lemma ex_genuine : Forall (genuine ex_zone) [ex_apex; ex_ab; ex_c].
Proof.
  repeat constructor.
  - apply (genuine_check ex_zone [[101]] [[97];[98];[101]] [(0, [34])]). by vm_compute.
  - apply (genuine_check ex_zone [[97];[98];[101]] [[99];[101]] [(0, [64])]). by vm_compute.
  - apply (genuine_check ex_zone [[99];[101]] [[101]] [(0, [64])]). by vm_compute.
Qed.

(** C26. When [elpis_nsec_proves_nxdomain] says yes on genuine records of a zone,
    the question owns nothing in the zone, and the wildcard at its closest
    encloser, the longest suffix of the question under which the zone has
    names, owns nothing either: no synthesis was suppressed.  It answers on any
    records and never reads outside them. *)
Theorem nsec_nxdomain_sound (rrs : list elpis_denial_rr_t) (q : list (list Z)) :
  Forall wf_denial rrs → labels_ok q →
  ∃ b, elpis_nsec_proves_nxdomain rrs (name_of q) = Ok b ∧
    ∀ zn, b = true → Forall (genuine zn) rrs → denied zn q.
Proof. apply nsec_nxdomain_spec. Qed.

Lemma nsec_nxdomain_sound_witness :
  elpis_nsec_proves_nxdomain [ex_apex; ex_ab; ex_c] (name_of [[98;98];[101]]) = Ok true ∧
  Forall (genuine ex_zone) [ex_apex; ex_ab; ex_c] ∧
  ∃ b, elpis_nsec_proves_nxdomain [ex_apex; ex_ab; ex_c] (name_of [[98;98];[101]]) = Ok b ∧
    ∀ zn, b = true → Forall (genuine zn) [ex_apex; ex_ab; ex_c] → denied zn [[98;98];[101]].
Proof.
  split; [by vm_compute|]. split; [exact ex_genuine|].
  apply (nsec_nxdomain_sound [ex_apex; ex_ab; ex_c] [[98;98];[101]]); [exact ex_wf|by_compute].
Defined.

(** C29. When [elpis_nsec_proves_nodata] says yes on genuine records, the question
    is a name of the zone that owns neither the type asked for nor a CNAME, and
    a delegation (NS without SOA) only when DS was asked for. *)
Theorem nsec_nodata_sound (zn : zone) (rrs : list elpis_denial_rr_t) (q : list (list Z)) (qtype : Z) :
  Forall wf_denial rrs → labels_ok q → 0 <= qtype < 65536 →
  ∃ b, elpis_nsec_proves_nodata rrs (name_of q) qtype = Ok b ∧
    (b = true → Forall (genuine zn) rrs →
     owns zn q ∧ ¬ has_type zn q qtype ∧ ¬ has_type zn q ELPIS_T_CNAME ∧
     (has_type zn q ELPIS_T_NS → has_type zn q ELPIS_T_SOA ∨ qtype = ELPIS_T_DS)).
Proof. apply nsec_nodata_spec. Qed.

Lemma nsec_nodata_sound_witness :
  elpis_nsec_proves_nodata [ex_apex] (name_of [[69]]) 28 = Ok true ∧ Forall (genuine ex_zone) [ex_apex; ex_ab; ex_c] ∧
  ∃ b, elpis_nsec_proves_nodata [ex_apex; ex_ab; ex_c] (name_of [[69]]) 28 = Ok b ∧
    (b = true → Forall (genuine ex_zone) [ex_apex; ex_ab; ex_c] →
     owns ex_zone [[69]] ∧ ¬ has_type ex_zone [[69]] 28 ∧ ¬ has_type ex_zone [[69]] ELPIS_T_CNAME ∧
     (has_type ex_zone [[69]] ELPIS_T_NS → has_type ex_zone [[69]] ELPIS_T_SOA ∨ 28 = ELPIS_T_DS)).
Proof.
  split; [by vm_compute|]. split; [exact ex_genuine|].
  apply (nsec_nodata_sound ex_zone [ex_apex; ex_ab; ex_c] [[69]] 28); [exact ex_wf|by_compute|lia].
Defined.

(** A name the proofs take for an unsigned delegation is one: the zone has NS
    and neither DS nor SOA there; and where they prove the absence of DS, the
    name owns records without DS and SOA or is denied altogether. *)
Theorem nsec_delegation_sound (zn : zone) (rrs : list elpis_denial_rr_t) (q : list (list Z)) :
  Forall wf_denial rrs → labels_ok q →
  ∃ b c, elpis_nsec_proves_insecure_deleg rrs (name_of q) = Ok b ∧
    elpis_nsec_proves_no_ds rrs (name_of q) = Ok c ∧
    (b = true → Forall (genuine zn) rrs →
     has_type zn q ELPIS_T_NS ∧ ¬ has_type zn q ELPIS_T_DS ∧ ¬ has_type zn q ELPIS_T_SOA) ∧
    (c = true → Forall (genuine zn) rrs →
     (owns zn q ∧ ¬ has_type zn q ELPIS_T_DS ∧ ¬ has_type zn q ELPIS_T_SOA) ∨ denied zn q).
Proof.
  intros Hwf Hq. destruct (nsec_insecure_spec zn rrs q Hwf Hq) as (b & Hb & Hbs).
  destruct (no_ds_loop_spec zn rrs q Hwf Hq) as (x & Hx & Hxs).
  destruct (nsec_nxdomain_spec rrs q Hwf Hq) as (y & Hy & Hys).
  exists b, (match x with Some c => c | None => y end). split; [done|]. unfold elpis_nsec_proves_no_ds. rewrite Hx. bind_step.
  split; [by destruct x|]. split; [done|]. destruct x as [c|]; intros -> Hg; [left; by apply Hxs|right; by apply Hys].
Qed.

Lemma nsec_delegation_sound_witness :
  Forall (genuine ex_zone) [ex_apex; ex_ab; ex_c] ∧
  ∃ b c, elpis_nsec_proves_insecure_deleg [ex_apex; ex_ab; ex_c] (name_of [[99];[101]]) = Ok b ∧
    elpis_nsec_proves_no_ds [ex_apex; ex_ab; ex_c] (name_of [[99];[101]]) = Ok c ∧
    (b = true → Forall (genuine ex_zone) [ex_apex; ex_ab; ex_c] →
     has_type ex_zone [[99];[101]] ELPIS_T_NS ∧ ¬ has_type ex_zone [[99];[101]] ELPIS_T_DS ∧
     ¬ has_type ex_zone [[99];[101]] ELPIS_T_SOA) ∧
    (c = true → Forall (genuine ex_zone) [ex_apex; ex_ab; ex_c] →
     (owns ex_zone [[99];[101]] ∧ ¬ has_type ex_zone [[99];[101]] ELPIS_T_DS ∧
      ¬ has_type ex_zone [[99];[101]] ELPIS_T_SOA) ∨ denied ex_zone [[99];[101]]).
Proof.
  split; [exact ex_genuine|].
  apply (nsec_delegation_sound ex_zone [ex_apex; ex_ab; ex_c] [[99];[101]]); [exact ex_wf|by_compute].
Defined.

(** A name with records only below it (an empty non-terminal) owns nothing but
    exists; [elpis_nsec_proves_nxdomain] proves it away all the same, from
    genuine records, where the right answer is that it has no data. *)
Theorem nsec_nxdomain_empty_nonterminal :
  ∃ zn rrs q z ts, Forall (genuine zn) rrs ∧
    elpis_nsec_proves_nxdomain rrs (name_of q) = Ok true ∧
    (z, ts) ∈ zn ∧ labels_suffix q z.
Proof.
  exists ex_zone, [ex_apex; ex_ab; ex_c], [[98];[101]], [[97];[98];[101]], [1].
  split; [exact ex_genuine|]. split; [by vm_compute|]. split; [right; by left|by_compute].
Qed.
