(* ===== verification/Mdhash.v ===== *)
(** What the streaming hashes of src/crypto/sha1.c and src/crypto/sha2.c
    share: each update function gathers octets into whole blocks and each final
    function pads, with the same text around another compression function and
    another block length.  Here that text is modelled once, and shown to hash
    the message as a whole. *)
From stdpp Require Import base list numbers.
From Stdlib Require Import ZArith Lia.
From S2P Require Import Prelude.

Section md.
Context {H : Type} (block : H → list Z → H) (B L : Z).

(** ** Definitions *)

(** [while (n >= B)]: the chaining value after the whole blocks, and the octets
    left. *)
Fixpoint md_whole (fuel : nat) (h : H) (s : list Z) : res (H * list Z) :=
  match fuel with
  | O => Stuck OutOfFuel
  | S f =>
    if B <=? zlen s then
      b ← rds s 0 B;
      md_whole f (block h b) (drop (Z.to_nat B) s)
    else Ok (h, s)
  end.

(** An update after the length is counted: the chaining value and [buf[0 .. n)]. *)
Definition md_absorb (h : H) (buf s : list Z) : res (H * list Z) :=
  let '(h, buf, s) :=
    if zlen buf =? 0 then (h, [], s)
    else
      let t := Z.min (B - zlen buf) (zlen s) in
      let buf := buf ++ slice s 0 t in
      let s := drop (Z.to_nat t) s in
      if zlen buf =? B then (block h buf, [], s) else (h, buf, s) in
  '(h, s) ← md_whole (S (length s)) h s;
  Ok (h, if zlen s =? 0 then buf else s).

(** The padding of a final function, [len] being the [L] octets of the length. *)
Definition md_finish (h : H) (buf len : list Z) : res H :=
  _ ← (if B <=? zlen buf then Stuck OutOfBounds else Ok tt);
  let buf := buf ++ [0x80] in
  let '(h, buf) :=
    if B - L <? zlen buf then (block h (buf ++ zeros (B - zlen buf)), []) else (h, buf) in
  Ok (block h (buf ++ zeros (B - L - zlen buf) ++ len)).

(** ** The specification *)

(** FIPS 180-4 section 5.1: a one bit, zeros, and the length. *)
Definition md_padding (n : Z) (len : list Z) : list Z :=
  0x80 :: zeros ((B - L - 1 - n) mod B) ++ len.

(** Every whole block of a message. *)
Fixpoint chain (fuel : nat) (h : H) (m : list Z) : H :=
  match fuel with
  | O => h
  | S f => if B <=? zlen m then chain f (block h (slice m 0 B)) (drop (Z.to_nat B) m) else h
  end.

Definition ch (h : H) (m : list Z) : H := chain (length m) h m.
Definition md_spec (iv : H) (m len : list Z) : H := ch iv (m ++ md_padding (zlen m) len).
Definition left_over (m : list Z) : list Z := drop (Z.to_nat (B * (zlen m / B))) m.

(** ** Whole blocks and what is left *)
Hypotheses (HB : 0 < B).

Lemma chain_fuel f : ∀ g h m, (length m <= f)%nat → (length m <= g)%nat → chain f h m = chain g h m.
Proof using HB.
  induction f as [|f IH]; intros [|g] h m Hf Hg; cbn [chain]; try done.
  - destruct (Z.leb_spec B (zlen m)); [zl|done].
  - destruct (Z.leb_spec B (zlen m)); [zl|done].
  - destruct (Z.leb_spec B (zlen m)); [|done]. apply IH; rewrite length_drop; zl.
Qed.

Lemma ch_step h m : B <= zlen m → ch h m = ch (block h (slice m 0 B)) (drop (Z.to_nat B) m).
Proof using HB.
  intros Hm. unfold ch. destruct (length m) as [|f] eqn:E; [zl|]. cbn [chain].
  destruct (Z.leb_spec B (zlen m)); [|lia]. apply chain_fuel; rewrite length_drop; lia.
Qed.

Lemma ch_short h m : zlen m < B → ch h m = h.
Proof using. intros Hm. unfold ch. destruct (length m); cbn [chain]; [done|]. by zfalse (B <=? zlen m). Qed.

Lemma left_over_step m : B <= zlen m → left_over m = left_over (drop (Z.to_nat B) m).
Proof using HB.
  intros Hm. unfold left_over. rewrite zlen_drop, drop_drop. f_equal.
  replace (Z.max 0 (zlen m - Z.of_nat (Z.to_nat B))) with (zlen m + (-1) * B) by lia. rewrite Z.div_add by lia.
  assert (1 <= zlen m / B) by (apply Z.div_le_lower_bound; lia). nia.
Qed.

Lemma left_over_short m : zlen m < B → left_over m = m.
Proof using. intros. unfold left_over. rewrite Z.div_small by (pose proof (zlen_nonneg m); lia). by rewrite Z.mul_0_r. Qed.

Lemma zlen_left_over m : zlen (left_over m) = zlen m mod B.
Proof using HB.
  unfold left_over. rewrite zlen_drop. pose proof (zlen_nonneg m). pose proof (Z.div_mod (zlen m) B).
  pose proof (Z.mod_pos_bound (zlen m) B). pose proof (Z.div_pos (zlen m) B). nia.
Qed.

(** Octets left over from [m] come first in what follows. *)
Lemma absorb_app n : ∀ m s h, (length m <= n)%nat →
  ch h (m ++ s) = ch (ch h m) (left_over m ++ s) ∧ left_over (m ++ s) = left_over (left_over m ++ s).
Proof using HB.
  induction n as [|n IH]; intros m s h Hn.
  - destruct m; [|cbn in Hn; lia]. by rewrite (ch_short h []), (left_over_short []) by done.
  - destruct (Z_lt_le_dec (zlen m) B) as [Hm|Hm]; [by rewrite (ch_short h m), (left_over_short m) by done|].
    rewrite (ch_step h m), (left_over_step m) by done.
    rewrite (ch_step h (m ++ s)), (left_over_step (m ++ s)) by (rewrite zlen_app; pose proof (zlen_nonneg s); lia).
    rewrite slice_app_l by lia. rewrite drop_app_le by zl. apply IH. rewrite length_drop. zl.
Qed.

Lemma md_whole_spec fuel : ∀ h s, (length s < fuel)%nat → md_whole fuel h s = Ok (ch h s, left_over s).
Proof using HB.
  induction fuel as [|f IH]; intros h s Hf; [lia|]. cbn [md_whole].
  destruct (Z.leb_spec B (zlen s)).
  - rewrite rds_in_range by lia. bind_step. rewrite (ch_step h s), (left_over_step s) by done. apply IH.
    rewrite length_drop. zl.
  - by rewrite ch_short, left_over_short by done.
Qed.

Lemma md_absorb_spec h buf s :
  zlen buf < B → md_absorb h buf s = Ok (ch h (buf ++ s), left_over (buf ++ s)).
Proof using HB.
  intros Hb. unfold md_absorb. pose proof (zlen_nonneg buf). pose proof (zlen_nonneg s).
  assert (∀ l : list Z, (if zlen l =? 0 then [] else l) = l) as Hif.
  { intros l. destruct (Z.eqb_spec (zlen l) 0) as [E|]; [|done]. by rewrite (zlen_0_nil l E). }
  destruct (Z.eqb_spec (zlen buf) 0) as [E|E].
  - rewrite (zlen_0_nil _ E). cbn [app]. rewrite md_whole_spec by lia. bind_step. by rewrite Hif.
  - destruct (Z_lt_le_dec (zlen buf + zlen s) B) as [Hlt|Hge].
    + rewrite Z.min_r by lia. rewrite slice_0_all by lia.
      assert ((zlen (buf ++ s) =? B) = false) as -> by (apply Z.eqb_neq; rewrite zlen_app; lia).
      rewrite drop_ge by zl. rewrite md_whole_spec by (cbn; lia). bind_step.
      rewrite (ch_short _ []), (left_over_short []) by done. by rewrite ch_short, left_over_short by (rewrite zlen_app; lia).
    + rewrite Z.min_l by lia. set (t := B - zlen buf).
      assert (zlen (buf ++ slice s 0 t) = B) as -> by (rewrite zlen_app, zlen_slice; lia).
      rewrite Z.eqb_refl. rewrite md_whole_spec by lia. bind_step. rewrite Hif.
      assert (slice (buf ++ s) 0 B = buf ++ slice s 0 t) as Es.
      { replace B with (zlen buf + t) at 1 by lia. rewrite slice_split by lia.
        rewrite slice_0_app. f_equal. rewrite slice_app_r by lia. f_equal. lia. }
      assert (drop (Z.to_nat B) (buf ++ s) = drop (Z.to_nat t) s) as Ed by (rewrite drop_app_ge by zl; f_equal; zl).
      rewrite (ch_step _ (buf ++ s)), (left_over_step (buf ++ s)) by (rewrite zlen_app; lia).
      by rewrite Es, Ed.
Qed.

(** Absorbing more of a message. *)
Lemma md_absorb_more iv m s : md_absorb (ch iv m) (left_over m) s = Ok (ch iv (m ++ s), left_over (m ++ s)).
Proof using HB.
  rewrite md_absorb_spec by (rewrite zlen_left_over; apply Z.mod_pos_bound; lia).
  by destruct (absorb_app (length m) m s iv (le_n _)) as [-> ->].
Qed.

(** The number of zeros, from the number of octets left. *)
Lemma padding_zeros n r :
  0 < L < B → r = n mod B →
  (B - L - 1 - n) mod B = if B - L <? r + 1 then (B - (r + 1)) + (B - L) else B - L - (r + 1).
Proof using HB.
  intros HL ->. pose proof (Z.mod_pos_bound n B HB). pose proof (Z.div_mod n B ltac:(lia)).
  destruct (Z.ltb_spec (B - L) (n mod B + 1)); symmetry; apply Z.mod_unique with (- (n / B) + (if B - L <? n mod B + 1 then -1 else 0));
    destruct (Z.ltb_spec (B - L) (n mod B + 1)); lia.
Qed.

Lemma md_finish_spec iv m len :
  0 < L < B → zlen len = L → md_finish (ch iv m) (left_over m) len = Ok (md_spec iv m len).
Proof using HB.
  intros HL Hlen. unfold md_finish, md_spec. pose proof (zlen_left_over m) as Hz.
  pose proof (Z.mod_pos_bound (zlen m) B HB) as Hr.
  assert ((B <=? zlen (left_over m)) = false) as -> by (apply Z.leb_gt; lia). bind_step.
  destruct (absorb_app (length m) m (md_padding (zlen m) len) iv (le_n _)) as [-> _].
  set (h := ch iv m). set (b := left_over m) in *. unfold md_padding. rewrite (padding_zeros (zlen m) (zlen b) HL Hz).
  assert (zlen (b ++ [0x80]) = zlen b + 1) as Hb1 by (rewrite zlen_app; done). rewrite Hb1.
  destruct (Z.ltb_spec (B - L) (zlen b + 1)) as [Hlt|Hge].
  - rewrite (zeros_add (B - (zlen b + 1)) (B - L)) by lia. set (z1 := zeros (B - (zlen b + 1))).
    assert (zlen ((b ++ [0x80]) ++ z1) = B) as H64 by (rewrite zlen_app, Hb1; unfold z1; rewrite zlen_zeros by lia; lia).
    assert (b ++ 0x80 :: (z1 ++ zeros (B - L)) ++ len = ((b ++ [0x80]) ++ z1) ++ zeros (B - L) ++ len) as ->
      by (by rewrite <- !app_assoc).
    rewrite ch_step by (rewrite zlen_app, H64; pose proof (zlen_nonneg (zeros (B - L) ++ len)); lia).
    assert (∀ X Y : list Z, zlen X = B → slice (X ++ Y) 0 B = X ∧ drop (Z.to_nat B) (X ++ Y) = Y) as Hcut.
    { intros X Y <-. rewrite slice_0_app. split; [done|]. apply drop_app_length'. zl. }
    destruct (Hcut _ (zeros (B - L) ++ len) H64) as [-> ->].
    cbn [app]. rewrite (@zlen_nil Z), Z.sub_0_r.
    assert (zlen (zeros (B - L) ++ len) = B) as Hlast by (rewrite zlen_app, zlen_zeros; lia).
    rewrite ch_step by lia. rewrite slice_0_all by lia. rewrite ch_short; [done|]. rewrite zlen_drop. lia.
  - set (z1 := zeros (B - L - (zlen b + 1))).
    assert (b ++ 0x80 :: z1 ++ len = (b ++ [0x80]) ++ z1 ++ len) as -> by (by rewrite <- !app_assoc).
    assert (zlen ((b ++ [0x80]) ++ z1 ++ len) = B) as H64
      by (rewrite zlen_app, Hb1, zlen_app; unfold z1; rewrite zlen_zeros by lia; lia).
    rewrite ch_step by lia. rewrite slice_0_all by lia. rewrite ch_short; [by rewrite Hb1|rewrite zlen_drop; lia].
Qed.
End md.
