(* ===== verification/Sha1.v ===== *)
(** SHA-1: src/crypto/sha1.c, and that the streaming interface computes the
    padded hash of FIPS 180-4 whatever the pieces the message comes in. *)
From stdpp Require Import base list numbers.
From Stdlib Require Import ZArith Lia.
From S2P Require Import Prelude Bytes Mdhash.

(** ** Definitions *)

Definition ROL (x n : Z) : Z := u32 (Z.lor (Z.shiftl x n) (Z.shiftr x (32 - n))).

(** The five chaining words. *)
Record sha1_h := mkH { h0 : Z; h1 : Z; h2 : Z; h3 : Z; h4 : Z }.

(** [w[i]] for [i < 16]: the words of a 64-octet block. *)
Fixpoint block_words (p : list Z) : list Z :=
  match p with
  | p0 :: p1 :: p2 :: p3 :: p =>
    Z.lor (Z.lor (Z.lor (u32 (Z.shiftl p0 24)) (Z.shiftl p1 16)) (Z.shiftl p2 8)) p3 :: block_words p
  | _ => []
  end.

(** [w[i]] for [16 <= i < 80].  [w] is kept latest word first, so that
    [w[i - k]] is its element [k - 1]. *)
Fixpoint extend_words (n : nat) (w : list Z) : list Z :=
  match n with
  | O => w
  | S n =>
    extend_words n
      (ROL (Z.lxor (Z.lxor (Z.lxor (nth 2 w 0) (nth 7 w 0)) (nth 13 w 0)) (nth 15 w 0)) 1 :: w)
  end.

Definition sha1_f (i b c d : Z) : Z :=
  if i <? 20 then Z.lor (Z.land b c) (Z.land (Z.lxor b 0xFFFFFFFF) d)
  else if i <? 40 then Z.lxor (Z.lxor b c) d
  else if i <? 60 then Z.lor (Z.lor (Z.land b c) (Z.land b d)) (Z.land c d)
  else Z.lxor (Z.lxor b c) d.
Definition sha1_k (i : Z) : Z :=
  if i <? 20 then 0x5A827999 else if i <? 40 then 0x6ED9EBA1
  else if i <? 60 then 0x8F1BBCDC else 0xCA62C1D6.

(** The 80 rounds, one per word. *)
Fixpoint sha1_rounds (w : list Z) (i : Z) (s : sha1_h) : sha1_h :=
  match w with
  | [] => s
  | wi :: w =>
    let 'mkH a b c d e := s in
    let t := u32 (ROL a 5 + sha1_f i b c d + e + sha1_k i + wi) in
    sha1_rounds w (i + 1) (mkH t a (ROL b 30) c d)
  end.

Definition sha1_block (h : sha1_h) (p : list Z) : sha1_h :=
  let w := rev (extend_words 64 (rev (block_words p))) in
  let s := sha1_rounds w 0 h in
  mkH (u32 (h0 h + h0 s)) (u32 (h1 h + h1 s)) (u32 (h2 h + h2 s)) (u32 (h3 h + h3 s)) (u32 (h4 h + h4 s)).

(** [elpis_sha1_t]; [s_buf] is [buf[0 .. n)], so that [n] is its length. *)
Record elpis_sha1_t := mkSha1 { s_h : sha1_h; s_len : Z; s_buf : list Z }.

Definition elpis_sha1_init : elpis_sha1_t :=
  mkSha1 (mkH 0x67452301 0xEFCDAB89 0x98BADCFE 0x10325476 0xC3D2E1F0) 0 [].

Definition elpis_sha1_update (c : elpis_sha1_t) (s : list Z) : res elpis_sha1_t :=
  let len := u64 (s_len c + zlen s) in
  '(h, buf) ← md_absorb sha1_block 64 (s_h c) (s_buf c) s;
  Ok (mkSha1 h len buf).

(** [for (i = 0; i < 5; i++) elpis_put32(out + i * 4, c->h[i]);] *)
Definition sha1_out (h : sha1_h) : list Z :=
  put32_bytes (h0 h) ++ put32_bytes (h1 h) ++ put32_bytes (h2 h) ++ put32_bytes (h3 h) ++ put32_bytes (h4 h).

Definition elpis_sha1_final (c : elpis_sha1_t) : res (list Z) :=
  let bits := u64 (s_len c * 8) in
  h ← md_finish sha1_block 64 8 (s_h c) (s_buf c) (put64_bytes bits);
  Ok (sha1_out h).

Definition elpis_sha1 (p : list Z) : res (list Z) :=
  c ← elpis_sha1_update elpis_sha1_init p;
  elpis_sha1_final c.

(** ** The specification *)

(** FIPS 180-4 sections 5.1.1 and 6.1: the blocks of the padded message, whose
    length in bits is taken modulo 2^64. *)
Definition sha1_spec (m : list Z) : list Z :=
  sha1_out (md_spec sha1_block 64 8 (s_h elpis_sha1_init) m (put64_bytes (u64 (8 * zlen m)))).

(** Feeding the pieces one after another. *)
Fixpoint update_all (c : elpis_sha1_t) (ps : list (list Z)) : res elpis_sha1_t :=
  match ps with
  | [] => Ok c
  | p :: ps => c ← elpis_sha1_update c p; update_all c ps
  end.

(** The FIPS 180-4 example "abc". *)
Example sha1_abc : elpis_sha1 [97; 98; 99]
  = Ok [0xA9;0x99;0x3E;0x36; 0x47;0x06;0x81;0x6A; 0xBA;0x3E;0x25;0x71; 0x78;0x50;0xC2;0x6C; 0x9C;0xD0;0xD8;0x9D].
Proof. by vm_compute. Qed.

(** ** The state stands for the message so far *)

#[local] Opaque sha1_block put64_bytes.

Definition sha1_holds (c : elpis_sha1_t) (m : list Z) : Prop :=
  c = mkSha1 (ch sha1_block 64 (s_h elpis_sha1_init) m) (u64 (zlen m)) (left_over 64 m).

Lemma sha1_update_holds c m s :
  sha1_holds c m → ∃ c', elpis_sha1_update c s = Ok c' ∧ sha1_holds c' (m ++ s).
Proof.
  intros ->. unfold elpis_sha1_update. cbn [s_h s_buf s_len]. rewrite md_absorb_more by lia. bind_step.
  eexists. split; [done|]. unfold sha1_holds. rewrite zlen_app. f_equal. unfold u64. by rewrite Zplus_mod_idemp_l.
Qed.

Lemma sha1_update_all_holds ps : ∀ c m,
  sha1_holds c m → ∃ c', update_all c ps = Ok c' ∧ sha1_holds c' (m ++ concat ps).
Proof.
  induction ps as [|p ps IH]; intros c m Hc; cbn [update_all concat].
  - exists c. by rewrite app_nil_r.
  - destruct (sha1_update_holds c m p Hc) as (c1 & -> & H1). bind_step. rewrite app_assoc. by apply IH.
Qed.

Lemma sha1_final_holds c m : sha1_holds c m → elpis_sha1_final c = Ok (sha1_spec m).
Proof.
  intros ->. unfold elpis_sha1_final, sha1_spec. cbn [s_h s_buf s_len].
  replace (u64 (u64 (zlen m) * 8)) with (u64 (8 * zlen m)) by (unfold u64; by rewrite Z.mul_mod_idemp_l, Z.mul_comm).
  by rewrite md_finish_spec.
Qed.

Lemma sha1_once p : elpis_sha1 p = Ok (sha1_spec p).
Proof.
  unfold elpis_sha1. destruct (sha1_update_holds elpis_sha1_init [] p eq_refl) as (c & -> & Hc). bind_step.
  by apply sha1_final_holds.
Qed.

(** ** Properties *)

(** A message hashed in pieces, of any sizes, is hashed as a whole: whatever
    the pieces, initialising, feeding them and finishing gives the FIPS 180-4
    padding of their concatenation run through the compression function, the
    length taken modulo 2^64 bits, and no buffer is overrun. *)
Theorem sha1_streaming (ps : list (list Z)) :
  ∃ c, update_all elpis_sha1_init ps = Ok c ∧ zlen (s_buf c) < 64 ∧
    elpis_sha1_final c = Ok (sha1_spec (concat ps)).
Proof.
  destruct (sha1_update_all_holds ps elpis_sha1_init []) as (c & Hc & Hh); [done|]. exists c. split; [done|].
  split; [|by apply sha1_final_holds]. rewrite Hh. cbn [s_buf]. rewrite zlen_left_over by lia. apply Z.mod_pos_bound. lia.
Qed.
