(* ===== verification/Sha2.v ===== *)
(** SHA-256, SHA-384, SHA-512, HMAC-SHA-256 and PBKDF2: src/crypto/sha2.c. *)
From stdpp Require Import base list numbers.
From Stdlib Require Import ZArith Lia.
From S2P Require Import Prelude Bytes Mdhash Sha1.

(** The eight chaining words of either width. *)
Record sha2_h := mkH8 { a0 : Z; a1 : Z; a2 : Z; a3 : Z; a4 : Z; a5 : Z; a6 : Z; a7 : Z }.

(** [f] on the words of two states in turn. *)
Definition h_add (wrap : Z → Z) (h s : sha2_h) : sha2_h :=
  mkH8 (wrap (a0 h + a0 s)) (wrap (a1 h + a1 s)) (wrap (a2 h + a2 s)) (wrap (a3 h + a3 s))
       (wrap (a4 h + a4 s)) (wrap (a5 h + a5 s)) (wrap (a6 h + a6 s)) (wrap (a7 h + a7 s)).

Definition h_words (h : sha2_h) : list Z := [a0 h; a1 h; a2 h; a3 h; a4 h; a5 h; a6 h; a7 h].

(** ** SHA-256 *)

(** A row of a table of [w]-bit words, written as one numeral with the words
    one after the other, the first at the top. *)
Fixpoint row (w : Z) (n : nat) (x : Z) : list Z :=
  match n with O => [] | S n => Z.shiftr x (w * Z.of_nat n) mod 2 ^ w :: row w n x end.

Definition K256 : list Z := concat (map (row 32 8)
  [0x428a2f98_71374491_b5c0fbcf_e9b5dba5_3956c25b_59f111f1_923f82a4_ab1c5ed5;
   0xd807aa98_12835b01_243185be_550c7dc3_72be5d74_80deb1fe_9bdc06a7_c19bf174;
   0xe49b69c1_efbe4786_0fc19dc6_240ca1cc_2de92c6f_4a7484aa_5cb0a9dc_76f988da;
   0x983e5152_a831c66d_b00327c8_bf597fc7_c6e00bf3_d5a79147_06ca6351_14292967;
   0x27b70a85_2e1b2138_4d2c6dfc_53380d13_650a7354_766a0abb_81c2c92e_92722c85;
   0xa2bfe8a1_a81a664b_c24b8b70_c76c51a3_d192e819_d6990624_f40e3585_106aa070;
   0x19a4c116_1e376c08_2748774c_34b0bcb5_391c0cb3_4ed8aa4a_5b9cca4f_682e6ff3;
   0x748f82ee_78a5636f_84c87814_8cc70208_90befffa_a4506ceb_bef9a3f7_c67178f2]).

Definition S0 (x : Z) : Z := Z.lxor (Z.lxor (elpis_rotr32 x 2) (elpis_rotr32 x 13)) (elpis_rotr32 x 22).
Definition S1 (x : Z) : Z := Z.lxor (Z.lxor (elpis_rotr32 x 6) (elpis_rotr32 x 11)) (elpis_rotr32 x 25).
Definition s0 (x : Z) : Z := Z.lxor (Z.lxor (elpis_rotr32 x 7) (elpis_rotr32 x 18)) (Z.shiftr x 3).
Definition s1 (x : Z) : Z := Z.lxor (Z.lxor (elpis_rotr32 x 17) (elpis_rotr32 x 19)) (Z.shiftr x 10).

(** [w[i] = elpis_get32(p + i * 4)] for the words of a block. *)
Fixpoint words32 (p : list Z) : list Z :=
  match p with
  | p0 :: p1 :: p2 :: p3 :: p =>
    Z.lor (Z.lor (Z.lor (u32 (Z.shiftl p0 24)) (u32 (Z.shiftl p1 16))) (u32 (Z.shiftl p2 8))) p3 :: words32 p
  | _ => []
  end.

(** [w[i]] for [16 <= i < 64]; [w] is kept latest word first. *)
Fixpoint extend256 (n : nat) (w : list Z) : list Z :=
  match n with
  | O => w
  | S n => extend256 n (u32 (s1 (nth 1 w 0) + nth 6 w 0 + s0 (nth 14 w 0) + nth 15 w 0) :: w)
  end.

(** The rounds, one per constant and word. *)
Fixpoint rounds256 (ks ws : list Z) (s : sha2_h) : sha2_h :=
  match ks, ws with
  | k :: ks, w :: ws =>
    let 'mkH8 a b c d e f g hh := s in
    let t1 := u32 (hh + S1 e + Z.lxor (Z.land e f) (Z.land (Z.lxor e 0xFFFFFFFF) g) + k + w) in
    let t2 := u32 (S0 a + Z.lxor (Z.lxor (Z.land a b) (Z.land a c)) (Z.land b c)) in
    rounds256 ks ws (mkH8 (u32 (t1 + t2)) a b c (u32 (d + t1)) e f g)
  | _, _ => s
  end.

Definition sha256_block (h : sha2_h) (p : list Z) : sha2_h :=
  h_add u32 h (rounds256 K256 (rev (extend256 48 (rev (words32 p)))) h).

(** [elpis_sha256_t]; [c_buf] is [buf[0 .. n)]. *)
Record elpis_sha256_t := mkSha256 { c_h : sha2_h; c_len : Z; c_buf : list Z; c_outlen : Z }.

Definition elpis_sha256_init : elpis_sha256_t :=
  mkSha256
    (mkH8 0x6a09e667 0xbb67ae85 0x3c6ef372 0xa54ff53a
        0x510e527f 0x9b05688c 0x1f83d9ab 0x5be0cd19) 0 [] 32.

Definition elpis_sha256_update (c : elpis_sha256_t) (s : list Z) : res elpis_sha256_t :=
  let len := u64 (c_len c + zlen s) in
  '(h, buf) ← md_absorb sha256_block 64 (c_h c) (c_buf c) s;
  Ok (mkSha256 h len buf (c_outlen c)).

Definition elpis_sha256_final (c : elpis_sha256_t) : res (list Z) :=
  let bits := u64 (c_len c * 8) in
  h ← md_finish sha256_block 64 8 (c_h c) (c_buf c) (put64_bytes bits);
  let words := c_outlen c / 4 in
  ws ← rds (h_words h) 0 words;
  Ok (concat (map put32_bytes ws)).

Definition elpis_sha256 (p : list Z) : res (list Z) :=
  c ← elpis_sha256_update elpis_sha256_init p;
  elpis_sha256_final c.

(** ** SHA-512 and SHA-384 *)

Definition K512 : list Z := concat (map (row 64 4)
  [0x428a2f98d728ae22_7137449123ef65cd_b5c0fbcfec4d3b2f_e9b5dba58189dbbc;
   0x3956c25bf348b538_59f111f1b605d019_923f82a4af194f9b_ab1c5ed5da6d8118;
   0xd807aa98a3030242_12835b0145706fbe_243185be4ee4b28c_550c7dc3d5ffb4e2;
   0x72be5d74f27b896f_80deb1fe3b1696b1_9bdc06a725c71235_c19bf174cf692694;
   0xe49b69c19ef14ad2_efbe4786384f25e3_0fc19dc68b8cd5b5_240ca1cc77ac9c65;
   0x2de92c6f592b0275_4a7484aa6ea6e483_5cb0a9dcbd41fbd4_76f988da831153b5;
   0x983e5152ee66dfab_a831c66d2db43210_b00327c898fb213f_bf597fc7beef0ee4;
   0xc6e00bf33da88fc2_d5a79147930aa725_06ca6351e003826f_142929670a0e6e70;
   0x27b70a8546d22ffc_2e1b21385c26c926_4d2c6dfc5ac42aed_53380d139d95b3df;
   0x650a73548baf63de_766a0abb3c77b2a8_81c2c92e47edaee6_92722c851482353b;
   0xa2bfe8a14cf10364_a81a664bbc423001_c24b8b70d0f89791_c76c51a30654be30;
   0xd192e819d6ef5218_d69906245565a910_f40e35855771202a_106aa07032bbd1b8;
   0x19a4c116b8d2d0c8_1e376c085141ab53_2748774cdf8eeb99_34b0bcb5e19b48a8;
   0x391c0cb3c5c95a63_4ed8aa4ae3418acb_5b9cca4f7763e373_682e6ff3d6b2b8a3;
   0x748f82ee5defb2fc_78a5636f43172f60_84c87814a1f0ab72_8cc702081a6439ec;
   0x90befffa23631e28_a4506cebde82bde9_bef9a3f7b2c67915_c67178f2e372532b;
   0xca273eceea26619c_d186b8c721c0c207_eada7dd6cde0eb1e_f57d4f7fee6ed178;
   0x06f067aa72176fba_0a637dc5a2c898a6_113f9804bef90dae_1b710b35131c471b;
   0x28db77f523047d84_32caab7b40c72493_3c9ebe0a15c9bebc_431d67c49c100d4c;
   0x4cc5d4becb3e42b6_597f299cfc657e2a_5fcb6fab3ad6faec_6c44198c4a475817]).

Definition T0 (x : Z) : Z := Z.lxor (Z.lxor (elpis_rotr64 x 28) (elpis_rotr64 x 34)) (elpis_rotr64 x 39).
Definition T1 (x : Z) : Z := Z.lxor (Z.lxor (elpis_rotr64 x 14) (elpis_rotr64 x 18)) (elpis_rotr64 x 41).
Definition t0 (x : Z) : Z := Z.lxor (Z.lxor (elpis_rotr64 x 1) (elpis_rotr64 x 8)) (Z.shiftr x 7).
Definition t1 (x : Z) : Z := Z.lxor (Z.lxor (elpis_rotr64 x 19) (elpis_rotr64 x 61)) (Z.shiftr x 6).

(** [w[i] = elpis_get64(p + i * 8)]: pairs of 32-bit words. *)
Fixpoint pair_words (ws : list Z) : list Z :=
  match ws with
  | hi :: lo :: ws => Z.lor (u64 (Z.shiftl hi 32)) lo :: pair_words ws
  | _ => []
  end.
Definition words64 (p : list Z) : list Z := pair_words (words32 p).

Fixpoint extend512 (n : nat) (w : list Z) : list Z :=
  match n with
  | O => w
  | S n => extend512 n (u64 (t1 (nth 1 w 0) + nth 6 w 0 + t0 (nth 14 w 0) + nth 15 w 0) :: w)
  end.

Fixpoint rounds512 (ks ws : list Z) (s : sha2_h) : sha2_h :=
  match ks, ws with
  | k :: ks, w :: ws =>
    let 'mkH8 a b c d e f g hh := s in
    let x1 := u64 (hh + T1 e + Z.lxor (Z.land e f) (Z.land (Z.lxor e 0xFFFFFFFFFFFFFFFF) g) + k + w) in
    let x2 := u64 (T0 a + Z.lxor (Z.lxor (Z.land a b) (Z.land a c)) (Z.land b c)) in
    rounds512 ks ws (mkH8 (u64 (x1 + x2)) a b c (u64 (d + x1)) e f g)
  | _, _ => s
  end.

Definition sha512_block (h : sha2_h) (p : list Z) : sha2_h :=
  h_add u64 h (rounds512 K512 (rev (extend512 64 (rev (words64 p)))) h).

Record elpis_sha512_t := mkSha512 { d_h : sha2_h; d_lenlo : Z; d_lenhi : Z; d_buf : list Z; d_outlen : Z }.

Definition elpis_sha512_init : elpis_sha512_t :=
  mkSha512
    (mkH8 0x6a09e667f3bcc908 0xbb67ae8584caa73b 0x3c6ef372fe94f82b 0xa54ff53a5f1d36f1
        0x510e527fade682d1 0x9b05688c2b3e6c1f 0x1f83d9abfb41bd6b 0x5be0cd19137e2179) 0 0 [] 64.
Definition elpis_sha384_init : elpis_sha512_t :=
  mkSha512
    (mkH8 0xcbbb9d5dc1059ed8 0x629a292a367cd507 0x9159015a3070dd17 0x152fecd8f70e5939
        0x67332667ffc00b31 0x8eb44a8768581511 0xdb0c2e0d64f98fa7 0x47b5481dbefa4fa4) 0 0 [] 48.

Definition elpis_sha512_update (c : elpis_sha512_t) (s : list Z) : res elpis_sha512_t :=
  let prev := d_lenlo c in
  let lo := u64 (d_lenlo c + zlen s) in
  let hi := if lo <? prev then u64 (d_lenhi c + 1) else d_lenhi c in
  '(h, buf) ← md_absorb sha512_block 128 (d_h c) (d_buf c) s;
  Ok (mkSha512 h lo hi buf (d_outlen c)).

Definition elpis_sha512_final (c : elpis_sha512_t) : res (list Z) :=
  let lo := u64 (Z.shiftl (d_lenlo c) 3) in
  let hi := Z.lor (u64 (Z.shiftl (d_lenhi c) 3)) (Z.shiftr (d_lenlo c) 61) in
  h ← md_finish sha512_block 128 16 (d_h c) (d_buf c) (put64_bytes hi ++ put64_bytes lo);
  let words := d_outlen c / 8 in
  ws ← rds (h_words h) 0 words;
  Ok (concat (map put64_bytes ws)).

Definition elpis_sha512 (p : list Z) : res (list Z) :=
  c ← elpis_sha512_update elpis_sha512_init p;
  elpis_sha512_final c.
Definition elpis_sha384 (p : list Z) : res (list Z) :=
  c ← elpis_sha512_update elpis_sha384_init p;
  full ← elpis_sha512_final c;
  rds full 0 48.

(** ** Dispatch *)

Definition ELPIS_HASH_SHA1 : Z := 1.
Definition ELPIS_HASH_SHA256 : Z := 2.
Definition ELPIS_HASH_SHA384 : Z := 3.
Definition ELPIS_HASH_SHA512 : Z := 4.

Definition elpis_hash_len (alg : Z) : Z :=
  if alg =? ELPIS_HASH_SHA1 then 20
  else if alg =? ELPIS_HASH_SHA256 then 32
  else if alg =? ELPIS_HASH_SHA384 then 48
  else if alg =? ELPIS_HASH_SHA512 then 64
  else 0.

Definition elpis_hash (alg : Z) (p : list Z) : res (list Z) :=
  if alg =? ELPIS_HASH_SHA1 then elpis_sha1 p
  else if alg =? ELPIS_HASH_SHA256 then elpis_sha256 p
  else if alg =? ELPIS_HASH_SHA384 then elpis_sha384 p
  else if alg =? ELPIS_HASH_SHA512 then elpis_sha512 p
  else Err ELPIS_ERR ELPIS_DROP_NONE.

(** ** HMAC and PBKDF2 *)

(** [pad[i] = (uint8_t)(k[i] ^ x)] *)
Definition xor_pad (x : Z) (k : list Z) : list Z := map (fun b => u8 (Z.lxor b x)) k.

Definition elpis_hmac_sha256 (key msg : list Z) : res (list Z) :=
  k ← (if 64 <? zlen key then d ← elpis_sha256 key; Ok (d ++ zeros 32)
       else Ok (key ++ zeros (64 - zlen key)));
  c ← elpis_sha256_update elpis_sha256_init (xor_pad 0x36 k);
  c ← elpis_sha256_update c msg;
  inner ← elpis_sha256_final c;
  c ← elpis_sha256_update elpis_sha256_init (xor_pad 0x5C k);
  c ← elpis_sha256_update c inner;
  elpis_sha256_final c.

(** [block[i] ^= u[i]] *)
Definition xor_block (a b : list Z) : list Z := zip_with Z.lxor a b.

(** [for (it = 1; it < iters; it++)] *)
Fixpoint pbkdf2_inner (n : nat) (pass u block : list Z) : res (list Z) :=
  match n with
  | O => Ok block
  | S n =>
    u ← elpis_hmac_sha256 pass u;
    pbkdf2_inner n pass u (xor_block block u)
  end.

(** [while (done < outlen)]; [out] holds the [done] octets written. *)
Fixpoint pbkdf2_loop (fuel : nat) (pass salt : list Z) (iters counter outlen : Z) (out : list Z) : res (list Z) :=
  match fuel with
  | O => Stuck OutOfFuel
  | S f =>
    if zlen out <? outlen then
      let take := if outlen - zlen out <? 32 then outlen - zlen out else 32 in
      let inp := salt ++ put32_bytes counter in
      u ← elpis_hmac_sha256 pass inp;
      block ← pbkdf2_inner (Z.to_nat (iters - 1)) pass u u;
      b ← rds block 0 take;
      pbkdf2_loop f pass salt iters (u32 (counter + 1)) outlen (out ++ b)
    else Ok out
  end.

Definition elpis_pbkdf2_sha256 (pass salt : list Z) (iters outlen : Z) : res (list Z) :=
  let saltlen := if 64 <? zlen salt then 64 else zlen salt in
  salt ← rds salt 0 saltlen;
  pbkdf2_loop (S (Z.to_nat outlen)) pass salt iters 1 outlen [].

(** ** Test vectors (FIPS 180-4, RFC 4231, RFC 7914) *)

Example sha256_abc : elpis_sha256 [97; 98; 99] = Ok
  [0xba;0x78;0x16;0xbf;0x8f;0x01;0xcf;0xea;0x41;0x41;0x40;0xde;0x5d;0xae;0x22;0x23;
   0xb0;0x03;0x61;0xa3;0x96;0x17;0x7a;0x9c;0xb4;0x10;0xff;0x61;0xf2;0x00;0x15;0xad].
Proof. by vm_compute. Qed.
Example sha512_abc : (d ← elpis_sha512 [97; 98; 99]; rds d 0 8) = Ok [0xdd;0xaf;0x35;0xa1;0x93;0x61;0x7a;0xba].
Proof. by vm_compute. Qed.
Example sha384_abc : (d ← elpis_sha384 [97; 98; 99]; rds d 0 8) = Ok [0xcb;0x00;0x75;0x3f;0x45;0xa3;0x5e;0x8b].
Proof. by vm_compute. Qed.
Example hmac_jefe :
  (d ← elpis_hmac_sha256 [74;101;102;101] (map Z.of_nat [119;104;97;116;32;100;111;32;121;97;32;119;97;110;116;32;
     102;111;114;32;110;111;116;104;105;110;103;63]%nat); rds d 0 8) = Ok [0x5b;0xdc;0xc1;0x46;0xbf;0x60;0x75;0x4e].
Proof. by vm_compute. Qed.

(** ** The words of a block are the code's loads *)

Lemma words32_get32 p : ∀ i w, words32 p !! i = Some w → elpis_get32 p (4 * Z.of_nat i) = Ok w.
Proof.
  assert (∀ n p, (length p <= n)%nat → ∀ i w, words32 p !! i = Some w → elpis_get32 p (4 * Z.of_nat i) = Ok w) as H; [|by eapply H].
  clear p. induction n as [|n IH]; intros p Hn i w Hw; [by destruct p; [|cbn in Hn; lia]|].
  destruct p as [|p0 [|p1 [|p2 [|p3 p]]]]; try done. cbn [words32] in Hw. destruct i as [|i]; [by injection Hw as <-|].
  cbn in Hn. specialize (IH p ltac:(lia) i w Hw). unfold elpis_get32 in *.
  assert (∀ k, 0 <= k → rd (p0 :: p1 :: p2 :: p3 :: p) (4 * Z.of_nat (S i) + k) = rd p (4 * Z.of_nat i + k)) as E.
  { intros k Hk. change (p0 :: p1 :: p2 :: p3 :: p) with ([p0; p1; p2; p3] ++ p). 
    rewrite rd_app_r; change (zlen [p0; p1; p2; p3]) with 4; [f_equal; lia|lia]. }
  pose proof (E 0 ltac:(lia)) as E0. rewrite !Z.add_0_r in E0. by rewrite E0, !E by lia.
Qed.

Lemma words64_get64 p i w : words64 p !! i = Some w → elpis_get64 p (8 * Z.of_nat i) = Ok w.
Proof.
  unfold words64, elpis_get64. assert (∀ n ws, (length ws <= n)%nat → ∀ i w, pair_words ws !! i = Some w →
    ∃ hi lo, ws !! (2 * i)%nat = Some hi ∧ ws !! (2 * i + 1)%nat = Some lo ∧ w = Z.lor (u64 (Z.shiftl hi 32)) lo) as H.
  { induction n as [|n IH]; intros ws Hn j x Hx; [by destruct ws; [|cbn in Hn; lia]|].
    destruct ws as [|hi [|lo ws]]; try done. cbn [pair_words] in Hx. destruct j as [|j]; [injection Hx as <-; by exists hi, lo|].
    cbn in Hn. destruct (IH ws ltac:(lia) j x Hx) as (h & l & ? & ? & ?). exists h, l.
    replace (2 * S j)%nat with (S (S (2 * j))) by lia. by cbn. }
  intros Hw. destruct (H _ _ (le_n _) _ _ Hw) as (hi & lo & Hhi & Hlo & ->).
  apply words32_get32 in Hhi, Hlo. replace (8 * Z.of_nat i) with (4 * Z.of_nat (2 * i)) by lia. rewrite Hhi. bind_step.
  replace (4 * Z.of_nat (2 * i) + 4) with (4 * Z.of_nat (2 * i + 1)) by lia. by rewrite Hlo.
Qed.

(** ** The specification *)

Definition sha256_spec (m : list Z) : list Z :=
  concat (map put32_bytes (h_words (md_spec sha256_block 64 8 (c_h elpis_sha256_init) m (put64_bytes (u64 (8 * zlen m)))))).

(** The length in bits, in 128 bits. *)
Definition len128 (x : Z) : list Z := put64_bytes (u64 (x / 2 ^ 64)) ++ put64_bytes (u64 x).

Definition sha512_spec (iv : elpis_sha512_t) (m : list Z) : list Z :=
  concat (map put64_bytes (take (Z.to_nat (d_outlen iv / 8))
    (h_words (md_spec sha512_block 128 16 (d_h iv) m (len128 (8 * zlen m)))))).

(** RFC 2104. *)
Definition hmac_spec (key msg : list Z) : list Z :=
  let k := if 64 <? zlen key then sha256_spec key else key in
  let k := k ++ zeros (64 - zlen k) in
  sha256_spec (xor_pad 0x5C k ++ sha256_spec (xor_pad 0x36 k ++ msg)).

(** RFC 8018 section 5.2: block [i] of the key, from [c] iterations. *)
Fixpoint pbkdf2_us (pass : list Z) (n : nat) (u : list Z) : list (list Z) :=
  match n with O => [] | S n => let u' := hmac_spec pass u in u' :: pbkdf2_us pass n u' end.
Definition pbkdf2_T (pass salt : list Z) (c i : Z) : list Z :=
  let u := hmac_spec pass (salt ++ put32_bytes i) in
  fold_left xor_block (pbkdf2_us pass (Z.to_nat (c - 1)) u) u.
Definition pbkdf2_spec (pass salt : list Z) (c outlen : Z) : list Z :=
  take (Z.to_nat outlen) (concat (map (pbkdf2_T pass salt c) (seqZ 1 ((outlen + 31) / 32)))).

#[local] Opaque sha256_block sha512_block put64_bytes put32_bytes.

(** ** The states stand for the message so far *)

Definition sha256_holds (c : elpis_sha256_t) (m : list Z) : Prop :=
  c = mkSha256 (ch sha256_block 64 (c_h elpis_sha256_init) m) (u64 (zlen m)) (left_over 64 m) 32.

Lemma sha256_update_holds c m s :
  sha256_holds c m → ∃ c', elpis_sha256_update c s = Ok c' ∧ sha256_holds c' (m ++ s).
Proof.
  intros ->. unfold elpis_sha256_update. cbn [c_h c_buf c_len c_outlen]. rewrite md_absorb_more by lia. bind_step.
  eexists. split; [done|]. unfold sha256_holds. rewrite zlen_app. f_equal. unfold u64. by rewrite Zplus_mod_idemp_l.
Qed.

Lemma sha256_final_holds c m : sha256_holds c m → elpis_sha256_final c = Ok (sha256_spec m).
Proof.
  intros ->. unfold elpis_sha256_final, sha256_spec. cbn [c_h c_buf c_len c_outlen].
  replace (u64 (u64 (zlen m) * 8)) with (u64 (8 * zlen m)) by (unfold u64; by rewrite Z.mul_mod_idemp_l, Z.mul_comm).
  rewrite md_finish_spec by (first [done|lia]). bind_step. by rewrite rds_full.
Qed.

Lemma sha256_once p : elpis_sha256 p = Ok (sha256_spec p).
Proof.
  unfold elpis_sha256. destruct (sha256_update_holds elpis_sha256_init [] p eq_refl) as (c & -> & Hc). bind_step.
  by apply sha256_final_holds.
Qed.

(** Two pieces, as HMAC and the DS digest hash them. *)
Lemma sha256_two a b :
  (c ← elpis_sha256_update elpis_sha256_init a; c ← elpis_sha256_update c b; elpis_sha256_final c) = Ok (sha256_spec (a ++ b)).
Proof.
  destruct (sha256_update_holds elpis_sha256_init [] a eq_refl) as (c & -> & Hc). bind_step.
  destruct (sha256_update_holds c _ b Hc) as (c' & -> & Hc'). bind_step. by apply sha256_final_holds.
Qed.

Definition sha512_holds (iv c : elpis_sha512_t) (m : list Z) : Prop :=
  c = mkSha512 (ch sha512_block 128 (d_h iv) m) (u64 (zlen m)) (u64 (zlen m / 2 ^ 64)) (left_over 128 m) (d_outlen iv).

(** The 128-bit counter: one carry at most, as a piece has under 2^64 octets. *)
Lemma count_carry x n : 0 <= x → 0 <= n < 2 ^ 64 →
  (if u64 (u64 x + n) <? u64 x then u64 (u64 (x / 2 ^ 64) + 1) else u64 (x / 2 ^ 64)) = u64 ((x + n) / 2 ^ 64).
Proof.
  intros Hx Hn. unfold u64. pose proof (Z.div_mod x (2 ^ 64) ltac:(lia)) as E. pose proof (Z.mod_pos_bound x (2 ^ 64) ltac:(lia)) as Hr.
  set (q := x / 2 ^ 64) in *. set (r := x mod 2 ^ 64) in *.
  destruct (Z_lt_le_dec (r + n) (2 ^ 64)) as [Hlt|Hge].
  - rewrite (Z.mod_small (r + n)) by lia. destruct (Z.ltb_spec (r + n) r); [lia|]. f_equal. apply Z.div_unique with (r + n); lia.
  - replace ((r + n) mod 2 ^ 64) with (r + n - 2 ^ 64) by (apply Z.mod_unique with 1; lia).
    destruct (Z.ltb_spec (r + n - 2 ^ 64) r); [|lia]. rewrite Zplus_mod_idemp_l. f_equal. apply Z.div_unique with (r + n - 2 ^ 64); lia.
Qed.

Lemma sha512_update_holds iv c m s :
  zlen s < 2 ^ 64 → sha512_holds iv c m → ∃ c', elpis_sha512_update c s = Ok c' ∧ sha512_holds iv c' (m ++ s).
Proof.
  intros Hs ->. unfold elpis_sha512_update. cbn [d_h d_buf d_lenlo d_lenhi d_outlen]. rewrite md_absorb_more by lia. bind_step.
  eexists. split; [done|]. unfold sha512_holds. pose proof (zlen_nonneg m). pose proof (zlen_nonneg s).
  rewrite count_carry by lia. rewrite zlen_app. f_equal. unfold u64. by rewrite Zplus_mod_idemp_l.
Qed.

Lemma count_bits x : 0 <= x →
  u64 (Z.shiftl (u64 x) 3) = u64 (8 * x) ∧
  Z.lor (u64 (Z.shiftl (u64 (x / 2 ^ 64)) 3)) (Z.shiftr (u64 x) 61) = u64 (8 * x / 2 ^ 64).
Proof.
  intros Hx. rewrite !shiftl_mul, shiftr_div by lia. change (2 ^ 3) with 8. split.
  { unfold u64. by rewrite Z.mul_mod_idemp_l, Z.mul_comm. }
  pose proof (Z.div_mod x (2 ^ 64) ltac:(lia)) as E. pose proof (Z.mod_pos_bound x (2 ^ 64) ltac:(lia)) as Hr.
  unfold u64 at 2 3. set (q := x / 2 ^ 64) in *. set (r := x mod 2 ^ 64) in *.
  assert (0 <= r / 2 ^ 61 < 8) as Hlo by (split; [apply Z.div_pos; lia|apply Z.div_lt_upper_bound; lia]).
  assert (8 * x / 2 ^ 64 = 8 * q + r / 2 ^ 61) as ->.
  { rewrite E. replace (8 * (2 ^ 64 * q + r)) with (8 * r + (8 * q) * 2 ^ 64) by lia. rewrite Z.div_add by lia.
    change (2 ^ 64) with (8 * 2 ^ 61). rewrite Z.div_mul_cancel_l by lia. lia. }
  unfold u64. rewrite Z.mul_mod_idemp_l by lia. rewrite (Z.mul_comm q 8). change (2 ^ 64) with (8 * 2 ^ 61).
  rewrite Z.mul_mod_distr_l by lia. set (q' := q mod 2 ^ 61). pose proof (Z.mod_pos_bound q (2 ^ 61) ltac:(lia)). fold q' in H.
  rewrite (Z.mul_comm 8 q'). change (q' * 8) with (q' * 2 ^ 3). rewrite <- (shiftl_mul q' 3) by lia.
  rewrite lor_shiftl_add by lia. change (2 ^ 3) with 8. apply Z.mod_unique with (q / 2 ^ 61); [lia|].
  pose proof (Z.div_mod q (2 ^ 61) ltac:(lia)). unfold q'. lia.
Qed.

Lemma zlen_h_words h : zlen (h_words h) = 8.
Proof. done. Qed.

Lemma sha512_final_holds iv c m :
  0 <= d_outlen iv / 8 <= 8 → sha512_holds iv c m → elpis_sha512_final c = Ok (sha512_spec iv m).
Proof.
  intros Ho ->. unfold elpis_sha512_final, sha512_spec. cbn [d_h d_buf d_lenlo d_lenhi d_outlen].
  destruct (count_bits (zlen m) (zlen_nonneg m)) as [-> ->]. rewrite md_finish_spec by (first [done|lia]). bind_step.
  rewrite rds_in_range by (rewrite ?zlen_h_words; lia). done.
Qed.

Lemma hmac_rfc2104_spec key msg : elpis_hmac_sha256 key msg = Ok (hmac_spec key msg).
Proof.
  unfold elpis_hmac_sha256, hmac_spec. set (k := if 64 <? zlen key then sha256_spec key else key).
  assert ((if 64 <? zlen key then d ← elpis_sha256 key; Ok (d ++ zeros 32) else Ok (key ++ zeros (64 - zlen key)))
    = Ok (k ++ zeros (64 - zlen k))) as ->.
  { unfold k. destruct (64 <? zlen key); [|done]. rewrite sha256_once. bind_step. done. }
  bind_step. set (k0 := k ++ _).
  destruct (sha256_update_holds elpis_sha256_init [] (xor_pad 54 k0) eq_refl) as (c1 & -> & H1). bind_step.
  destruct (sha256_update_holds c1 _ msg H1) as (c2 & -> & H2). bind_step. rewrite (sha256_final_holds c2 _ H2). bind_step.
  apply sha256_two.
Qed.

Lemma pbkdf2_inner_spec n : ∀ pass u block,
  pbkdf2_inner n pass u block = Ok (fold_left xor_block (pbkdf2_us pass n u) block).
Proof.
  induction n as [|n IH]; intros pass u block; cbn [pbkdf2_inner pbkdf2_us]; [done|].
  rewrite hmac_rfc2104_spec. bind_step. rewrite IH. done.
Qed.

Lemma zlen_words32 (h : list Z) : zlen (concat (map put32_bytes h)) = 4 * zlen h.
Proof. induction h as [|w h IH]; [done|]. cbn [map concat]. rewrite zlen_app, zlen_put32, IH, zlen_cons. lia. Qed.

Lemma zlen_sha256 m : zlen (sha256_spec m) = 32.
Proof. unfold sha256_spec. by rewrite zlen_words32. Qed.

Lemma zlen_pbkdf2_T pass salt c i : zlen (pbkdf2_T pass salt c i) = 32.
Proof.
  unfold pbkdf2_T. set (u := hmac_spec _ _). assert (zlen u = 32) as Hu by apply zlen_sha256. clearbody u.
  assert (∀ n u b, zlen b = 32 → zlen (fold_left xor_block (pbkdf2_us pass n u) b) = 32) as H; [|by apply H].
  clear. induction n as [|n IH]; intros u b Hb; cbn [pbkdf2_us fold_left]; [done|]. apply IH.
  unfold xor_block, zlen in *. rewrite length_zip_with. pose proof (zlen_sha256 (xor_pad 0x5C ((if 64 <? zlen pass then sha256_spec pass else pass) ++
    zeros (64 - zlen (if 64 <? zlen pass then sha256_spec pass else pass))) ++ sha256_spec (xor_pad 0x36 ((if 64 <? zlen pass then sha256_spec pass else pass) ++
    zeros (64 - zlen (if 64 <? zlen pass then sha256_spec pass else pass))) ++ u))) as Hh. unfold zlen in Hh at 1. unfold hmac_spec. lia.
Qed.

Lemma pbkdf2_loop_spec fuel : ∀ pass salt c i outlen out,
  let r := outlen - zlen out in
  0 <= r < Z.of_nat fuel → 0 <= i → i + (r + 31) / 32 < 2 ^ 32 →
  pbkdf2_loop fuel pass salt c i outlen out
    = Ok (out ++ take (Z.to_nat r) (concat (map (pbkdf2_T pass salt c) (seqZ i ((r + 31) / 32))))).
Proof.
  induction fuel as [|f IH]; intros pass salt c i outlen out r Hr Hi Hc; [lia|]. cbn [pbkdf2_loop]. subst r.
  destruct (Z.ltb_spec (zlen out) outlen) as [Hlt|Hge].
  2:{ replace (outlen - zlen out) with 0 by lia. change (Z.to_nat 0) with 0%nat. by rewrite take_0, app_nil_r. }
  rewrite hmac_rfc2104_spec. bind_step. rewrite pbkdf2_inner_spec. bind_step. fold (pbkdf2_T pass salt c i).
  pose proof (zlen_pbkdf2_T pass salt c i) as Ht.
  assert (1 <= (outlen - zlen out + 31) / 32) by (apply Z.div_le_lower_bound; lia).
  rewrite (seqZ_cons i) by lia. cbn [map concat].
  destruct (Z.ltb_spec (outlen - zlen out) 32) as [Hs|Hb].
  - rewrite rds_in_range by lia. bind_step. set (T := pbkdf2_T pass salt c i) in *.
    assert (zlen (slice T 0 (outlen - zlen out)) = outlen - zlen out) as Hz by (rewrite zlen_slice; lia).
    destruct f as [|f]; [lia|]. cbn [pbkdf2_loop].
    assert ((zlen (out ++ slice T 0 (outlen - zlen out)) <? outlen) = false) as -> by (apply Z.ltb_ge; rewrite zlen_app; lia).
    do 2 f_equal. rewrite take_app_le by zl. done.
  - rewrite rds_in_range, slice_0_all by lia. bind_step. set (T := pbkdf2_T pass salt c i) in *.
    assert (0 <= (outlen - zlen out - 32 + 31) / 32) by (apply Z.div_pos; lia).
    assert ((outlen - zlen out + 31) / 32 = (outlen - zlen out - 32 + 31) / 32 + 1) as Hd by
      (replace (outlen - zlen out + 31) with (outlen - zlen out - 32 + 31 + 1 * 32) by lia; rewrite Z.div_add by lia; lia).
    rewrite (u32_id (i + 1)) by lia.
    rewrite IH; rewrite ?zlen_app; [|lia|lia|].
    + rewrite <- app_assoc. do 2 f_equal. rewrite take_app_ge by zl. f_equal.
      replace (outlen - (zlen out + zlen T) + 31) with (outlen - zlen out + 31 + (-1) * 32) by lia. rewrite Z.div_add by lia.
      replace (Z.pred ((outlen - zlen out + 31) / 32)) with ((outlen - zlen out + 31) / 32 + -1) by lia. f_equal. zl.
    + replace (outlen - (zlen out + zlen T) + 31) with (outlen - zlen out + 31 + (-1) * 32) by lia. rewrite Z.div_add by lia.
      lia.
Qed.

(** ** The dispatch, for any message under 2^64 octets *)

Definition hash_spec (alg : Z) (m : list Z) : list Z :=
  if alg =? ELPIS_HASH_SHA1 then sha1_spec m
  else if alg =? ELPIS_HASH_SHA256 then sha256_spec m
  else if alg =? ELPIS_HASH_SHA384 then sha512_spec elpis_sha384_init m
  else sha512_spec elpis_sha512_init m.

Lemma sha1_two a b :
  (c ← elpis_sha1_update elpis_sha1_init a; c ← elpis_sha1_update c b; elpis_sha1_final c) = Ok (sha1_spec (a ++ b)).
Proof.
  destruct (sha1_update_holds elpis_sha1_init [] a eq_refl) as (c & -> & Hc). bind_step.
  destruct (sha1_update_holds c _ b Hc) as (c' & -> & Hc'). bind_step. by apply sha1_final_holds.
Qed.

Lemma sha512_two iv a b : iv = elpis_sha512_init ∨ iv = elpis_sha384_init → zlen a < 2 ^ 64 → zlen b < 2 ^ 64 →
  (c ← elpis_sha512_update iv a; c ← elpis_sha512_update c b; elpis_sha512_final c) = Ok (sha512_spec iv (a ++ b)).
Proof.
  intros Hiv Ha Hb. assert (sha512_holds iv iv []) as H0 by (by destruct Hiv as [-> | ->]).
  destruct (sha512_update_holds iv iv [] a Ha H0) as (c & -> & Hc). bind_step.
  destruct (sha512_update_holds iv c _ b Hb Hc) as (c' & -> & Hc'). bind_step. apply sha512_final_holds; [|done].
  by destruct Hiv as [-> | ->].
Qed.

Lemma zlen_words64 (h : list Z) : zlen (concat (map put64_bytes h)) = 8 * zlen h.
Proof.
  induction h as [|w h IH]; [done|]. cbn [map concat]. rewrite zlen_app, IH, zlen_cons.
  rewrite zlen_put64. lia.
Qed.

Lemma zlen_hash alg m : 1 <= alg <= 4 → zlen (hash_spec alg m) = elpis_hash_len alg.
Proof.
  intros H. assert (alg = 1 ∨ alg = 2 ∨ alg = 3 ∨ alg = 4) as [-> | [-> | [-> | ->]]] by lia; unfold hash_spec;
    cbn [Z.eqb Pos.eqb ELPIS_HASH_SHA1 ELPIS_HASH_SHA256 ELPIS_HASH_SHA384]; [done|apply zlen_sha256|..]; unfold sha512_spec; by rewrite zlen_words64.
Qed.

Lemma bytes_concat_map f (h : list Z) : (∀ w, bytes (f w)) → bytes (concat (map f h)).
Proof. intros Hf. induction h as [|w h IH]; cbn [map concat]; [constructor|]. by apply Forall_app. Qed.

Lemma bytes_hash alg m : bytes (hash_spec alg m).
Proof.
  unfold hash_spec. repeat case_match.
  - unfold sha1_spec, sha1_out. rewrite !Forall_app. split_and!; apply bytes_put32.
  - apply bytes_concat_map, bytes_put32.
  - apply bytes_concat_map, bytes_put64.
  - apply bytes_concat_map, bytes_put64.
Qed.

Lemma hash_once alg p : 1 <= alg <= 4 → zlen p < 2 ^ 64 → elpis_hash alg p = Ok (hash_spec alg p).
Proof.
  intros H Hp. assert (alg = 1 ∨ alg = 2 ∨ alg = 3 ∨ alg = 4) as [-> | [-> | [-> | ->]]] by lia; unfold elpis_hash, hash_spec;
    cbn [Z.eqb Pos.eqb ELPIS_HASH_SHA1 ELPIS_HASH_SHA256 ELPIS_HASH_SHA384 ELPIS_HASH_SHA512].
  - apply sha1_once.
  - apply sha256_once.
  - unfold elpis_sha384. destruct (sha512_update_holds elpis_sha384_init elpis_sha384_init [] p Hp eq_refl) as (c & -> & Hc). bind_step.
    rewrite (sha512_final_holds elpis_sha384_init c _) by done. bind_step. apply rds_full. unfold sha512_spec. by rewrite zlen_words64.
  - unfold elpis_sha512. destruct (sha512_update_holds elpis_sha512_init elpis_sha512_init [] p Hp eq_refl) as (c & -> & Hc). bind_step.
    by apply sha512_final_holds.
Qed.

(** ** Properties *)

Fixpoint update256_all (c : elpis_sha256_t) (ps : list (list Z)) : res elpis_sha256_t :=
  match ps with [] => Ok c | p :: ps => c ← elpis_sha256_update c p; update256_all c ps end.
Fixpoint update512_all (c : elpis_sha512_t) (ps : list (list Z)) : res elpis_sha512_t :=
  match ps with [] => Ok c | p :: ps => c ← elpis_sha512_update c p; update512_all c ps end.

Lemma update256_all_holds ps : ∀ c m,
  sha256_holds c m → ∃ c', update256_all c ps = Ok c' ∧ sha256_holds c' (m ++ concat ps).
Proof.
  induction ps as [|p ps IH]; intros c m Hc; cbn [update256_all concat]; [exists c; by rewrite app_nil_r|].
  destruct (sha256_update_holds c m p Hc) as (c1 & -> & H1). bind_step. rewrite app_assoc. by apply IH.
Qed.

Lemma update512_all_holds iv ps : ∀ c m, Forall (fun p => zlen p < 2 ^ 64) ps →
  sha512_holds iv c m → ∃ c', update512_all c ps = Ok c' ∧ sha512_holds iv c' (m ++ concat ps).
Proof.
  induction ps as [|p ps IH]; intros c m Hps Hc; cbn [update512_all concat]; [exists c; by rewrite app_nil_r|].
  apply Forall_cons_1 in Hps as [Hp Hps].
  destruct (sha512_update_holds iv c m p Hp Hc) as (c1 & -> & H1). bind_step. rewrite app_assoc. by apply IH.
Qed.

(** C33. SHA-256, SHA-384 and SHA-512 hash a message given in pieces, of any sizes,
    as a whole: the FIPS 180-4 padding of the concatenation, with its 64-bit or
    128-bit length and the carry between the counter's halves, through the
    compression function; no buffer is overrun. *)
Theorem sha2_streaming (ps : list (list Z)) :
  Forall (fun p => zlen p < 2 ^ 64) ps →
  (c ← update256_all elpis_sha256_init ps; elpis_sha256_final c) = Ok (sha256_spec (concat ps)) ∧
  (c ← update512_all elpis_sha512_init ps; elpis_sha512_final c) = Ok (sha512_spec elpis_sha512_init (concat ps)) ∧
  (c ← update512_all elpis_sha384_init ps; elpis_sha512_final c) = Ok (sha512_spec elpis_sha384_init (concat ps)).
Proof.
  intros Hps. split; [|split].
  - destruct (update256_all_holds ps elpis_sha256_init [] eq_refl) as (c & -> & Hc). bind_step. by apply sha256_final_holds.
  - destruct (update512_all_holds elpis_sha512_init ps elpis_sha512_init [] Hps eq_refl) as (c & -> & Hc). bind_step.
    by apply sha512_final_holds.
  - destruct (update512_all_holds elpis_sha384_init ps elpis_sha384_init [] Hps eq_refl) as (c & -> & Hc). bind_step.
    by apply sha512_final_holds.
Qed.

Lemma sha2_streaming_witness :
  Forall (fun p => zlen p < 2 ^ 64) [[97]; [98; 99]] ∧
  (c ← update256_all elpis_sha256_init [[97]; [98; 99]]; elpis_sha256_final c) = Ok (sha256_spec [97; 98; 99]) ∧
  (c ← update512_all elpis_sha512_init [[97]; [98; 99]]; elpis_sha512_final c) = Ok (sha512_spec elpis_sha512_init [97; 98; 99]) ∧
  (c ← update512_all elpis_sha384_init [[97]; [98; 99]]; elpis_sha512_final c) = Ok (sha512_spec elpis_sha384_init [97; 98; 99]).
Proof. split; [by_compute|]. apply (sha2_streaming [[97]; [98; 99]]). by_compute. Defined.

(** C34. HMAC is that of RFC 2104 for keys of every length, and PBKDF2 that of RFC
    8018 for salts up to 64 octets: the key is cut from the blocks T_1, T_2,
    ..., each the exclusive or of its iterations. *)
Theorem pbkdf2_rfc8018 (pass salt msg : list Z) (iters outlen : Z) :
  zlen salt <= 64 → 0 <= outlen <= 2 ^ 32 →
  elpis_hmac_sha256 pass msg = Ok (hmac_spec pass msg) ∧
  elpis_pbkdf2_sha256 pass salt iters outlen = Ok (pbkdf2_spec pass salt iters outlen).
Proof.
  intros Hs Ho. split; [apply hmac_rfc2104_spec|]. unfold elpis_pbkdf2_sha256, pbkdf2_spec.
  assert ((64 <? zlen salt) = false) as -> by (apply Z.ltb_ge; lia). rewrite rds_full by done. bind_step.
  rewrite pbkdf2_loop_spec; rewrite ?(@zlen_nil Z), ?Z.sub_0_r; [done|lia|lia|].
  assert ((outlen + 31) / 32 < 2 ^ 32 - 1) by (apply Z.div_lt_upper_bound; lia). lia.
Qed.

Lemma pbkdf2_rfc8018_witness :
  elpis_hmac_sha256 [112] [1] = Ok (hmac_spec [112] [1]) ∧
  elpis_pbkdf2_sha256 [112] [115; 97] 2 40 = Ok (pbkdf2_spec [112] [115; 97] 2 40).
Proof. apply (pbkdf2_rfc8018 [112] [115; 97] [1] 2 40); by_compute. Defined.
