(* ===== verification/Rrset.v ===== *)
(** RRset buffers: [elpis_rrset_buf_t] of include/elpis/store.h and the buffer
    helpers of src/cache/rcache.c.

    The buffer keeps records and signatures end to end in one data area, found
    through two index arrays; [rrset_holds] is its abstract view, the lists of
    the records and of the signatures. *)
From stdpp Require Import base list numbers.
From Stdlib Require Import ZArith Lia.
From S2P Require Import Prelude Bytes Simd Name Rdesc Rnames.

(** ** Definitions *)

Definition ELPIS_RRSET_MAX_RR : Z := 96.
Definition ELPIS_RRSET_BUF : Z := 20480.

Record elpis_rrset_buf_t := mkRrset {
  rs_name : elpis_name_t; rs_type : Z; rs_klass : Z; rs_ttl : Z; rs_orig_ttl : Z;
  rs_sec : elpis_sec_t; rs_count : Z; rs_sigcount : Z; rs_flags : Z; rs_zone_labels : Z;
  rs_len : list Z; rs_off : list Z; rs_used : Z; rs_data : list Z }.

Definition ELPIS_RRF_NXDOMAIN : Z := 0x08.
Definition ELPIS_RRF_NODATA : Z := 0x10.

(** The arrays keep what they held. *)
Definition elpis_rrset_buf_init (b : elpis_rrset_buf_t) (name : elpis_name_t) (type klass ttl : Z) : elpis_rrset_buf_t :=
  mkRrset name type klass ttl ttl ELPIS_SEC_UNCHECKED 0 0 0 0 (rs_len b) (rs_off b) 0 (rs_data b).

(** The body the two adders share: record [idx] is put after the octets in use. *)
Definition rrset_put (b : elpis_rrset_buf_t) (idx : Z) (r : list Z) (count sigcount : Z) : res elpis_rrset_buf_t :=
  off ← wr (rs_off b) idx (rs_used b);
  len ← wr (rs_len b) idx (zlen r);
  data ← blit (rs_data b) (rs_used b) r;
  Ok (mkRrset (rs_name b) (rs_type b) (rs_klass b) (rs_ttl b) (rs_orig_ttl b) (rs_sec b) count sigcount
        (rs_flags b) (rs_zone_labels b) len off (u32 (rs_used b + zlen r)) data).

Definition elpis_rrset_buf_add (b : elpis_rrset_buf_t) (r : list Z) : res elpis_rrset_buf_t :=
  _ ← guard_err (negb (rs_sigcount b =? 0)) ELPIS_ERR ELPIS_DROP_NONE;
  _ ← guard_err (ELPIS_RRSET_MAX_RR <=? rs_count b) ELPIS_ETRUNC ELPIS_DROP_NONE;
  _ ← guard_err (ELPIS_RRSET_BUF <? u32 (rs_used b + zlen r)) ELPIS_ETRUNC ELPIS_DROP_NONE;
  rrset_put b (rs_count b) r (u8 (rs_count b + 1)) (rs_sigcount b).

Definition elpis_rrset_buf_add_sig (b : elpis_rrset_buf_t) (r : list Z) : res elpis_rrset_buf_t :=
  let idx := rs_count b + rs_sigcount b in
  _ ← guard_err (ELPIS_RRSET_MAX_RR <=? idx) ELPIS_ETRUNC ELPIS_DROP_NONE;
  _ ← guard_err (ELPIS_RRSET_BUF <? u32 (rs_used b + zlen r)) ELPIS_ETRUNC ELPIS_DROP_NONE;
  rrset_put b idx r (rs_count b) (u8 (rs_sigcount b + 1)).

(** For distinct buffers; a copy onto itself is nothing in the code. *)
Definition elpis_rrset_buf_copy (dst src : elpis_rrset_buf_t) : res elpis_rrset_buf_t :=
  d ← rds (n_d (rs_name src)) 0 (n_len (rs_name src));
  let n := Z.min (rs_count src + rs_sigcount src) ELPIS_RRSET_MAX_RR in
  sl ← rds (rs_len src) 0 n; len ← blit (rs_len dst) 0 sl;
  so ← rds (rs_off src) 0 n; off ← blit (rs_off dst) 0 so;
  let used := Z.min (rs_used src) ELPIS_RRSET_BUF in
  sd ← rds (rs_data src) 0 used; data ← blit (rs_data dst) 0 sd;
  Ok (mkRrset (mkName (n_len (rs_name src)) (n_labels (rs_name src)) d) (rs_type src) (rs_klass src) (rs_ttl src)
        (rs_orig_ttl src) (rs_sec src) (rs_count src) (rs_sigcount src) (rs_flags src) (rs_zone_labels src)
        len off used data).

(** Record [i]: the [len[i]] octets at [b->data + b->off[i]]. *)
Definition elpis_rrset_rd (b : elpis_rrset_buf_t) (i : Z) : res (list Z) :=
  o ← rd (rs_off b) i; n ← rd (rs_len b) i; rds (rs_data b) o n.

(** The [k] records from [i] on. *)
Fixpoint rrset_recs (b : elpis_rrset_buf_t) (k : nat) (i : Z) : res (list (list Z)) :=
  match k with
  | O => Ok []
  | S k => r ← elpis_rrset_rd b i; rs ← rrset_recs b k (i + 1); Ok (r :: rs)
  end.

(** ** The abstract view *)

(** Entry [i] of the index arrays finds [r], inside the octets in use. *)
Definition idx_rec (data : list Z) (used : Z) (off len : list Z) (i : nat) (r : list Z) : Prop :=
  len !! i = Some (zlen r) ∧
  ∃ o, off !! i = Some o ∧ 0 <= o ∧ o + zlen r <= used ∧ slice data o (zlen r) = r.

(** Record [i] is [r]. *)
Definition rec_at (b : elpis_rrset_buf_t) : nat → list Z → Prop :=
  idx_rec (rs_data b) (rs_used b) (rs_off b) (rs_len b).

Record rrset_holds (b : elpis_rrset_buf_t) (rs sgs : list (list Z)) : Prop := {
  rh_len : zlen (rs_len b) = ELPIS_RRSET_MAX_RR;
  rh_off : zlen (rs_off b) = ELPIS_RRSET_MAX_RR;
  rh_data : zlen (rs_data b) = ELPIS_RRSET_BUF;
  rh_used : 0 <= rs_used b <= ELPIS_RRSET_BUF;
  rh_count : rs_count b = zlen rs;
  rh_sigcount : rs_sigcount b = zlen sgs;
  rh_max : zlen rs + zlen sgs <= ELPIS_RRSET_MAX_RR;
  rh_bytes : Forall bytes (rs ++ sgs);
  rh_rec : ∀ i r, (rs ++ sgs) !! i = Some r → rec_at b i r }.

(** The arrays have the sizes they are declared with. *)
Definition rrset_sized (b : elpis_rrset_buf_t) : Prop :=
  zlen (rs_len b) = ELPIS_RRSET_MAX_RR ∧ zlen (rs_off b) = ELPIS_RRSET_MAX_RR ∧ zlen (rs_data b) = ELPIS_RRSET_BUF.

#[export] Instance rrset_sized_dec b : Decision (rrset_sized b).
Proof. unfold rrset_sized. apply _. Defined.

Lemma rrset_holds_sized b rs sgs : rrset_holds b rs sgs → rrset_sized b.
Proof. intros []. done. Qed.

(** ** Reading *)

Lemma rec_at_rd b i r : rec_at b i r → zlen (rs_data b) = ELPIS_RRSET_BUF → rs_used b <= ELPIS_RRSET_BUF →
  rd (rs_len b) (Z.of_nat i) = Ok (zlen r) ∧ elpis_rrset_rd b (Z.of_nat i) = Ok r.
Proof.
  intros (Hl & o & Ho & H0 & Hb & Hs) Hd Hu. pose proof (zlen_nonneg r).
  assert (rd (rs_len b) (Z.of_nat i) = Ok (zlen r)) as Hr by (apply rd_lookup; [lia|by rewrite Nat2Z.id]).
  split; [done|]. unfold elpis_rrset_rd. rewrite (rd_lookup (rs_off b) _ o) by (rewrite ?Nat2Z.id; done || lia). bind_step.
  rewrite Hr. bind_step. rewrite rds_in_range by lia. by rewrite Hs.
Qed.

Lemma rrset_rd_spec b rs sgs i r : rrset_holds b rs sgs → (rs ++ sgs) !! i = Some r →
  rd (rs_len b) (Z.of_nat i) = Ok (zlen r) ∧ elpis_rrset_rd b (Z.of_nat i) = Ok r.
Proof. intros H Hi. apply rec_at_rd; [by eapply rh_rec|by eapply rh_data|by eapply rh_used]. Qed.

Lemma rrset_data_rd b rs sgs i r : rrset_holds b rs sgs → rs !! i = Some r →
  rd (rs_len b) (Z.of_nat i) = Ok (zlen r) ∧ elpis_rrset_rd b (Z.of_nat i) = Ok r.
Proof. intros H Hi. eapply rrset_rd_spec; [done|]. by apply lookup_app_l_Some. Qed.

Lemma rrset_sig_rd b rs sgs i r : rrset_holds b rs sgs → sgs !! i = Some r →
  rd (rs_len b) (rs_count b + Z.of_nat i) = Ok (zlen r) ∧ elpis_rrset_rd b (rs_count b + Z.of_nat i) = Ok r.
Proof.
  intros H Hi. rewrite (rh_count _ _ _ H). replace (zlen rs + Z.of_nat i) with (Z.of_nat (length rs + i)) by zl. eapply rrset_rd_spec; [done|].
  rewrite lookup_app_r by lia. by replace (length rs + i - length rs)%nat with i by lia.
Qed.

Lemma rrset_rec_size b rs sgs r : rrset_holds b rs sgs → r ∈ rs ++ sgs → bytes r ∧ zlen r <= ELPIS_RRSET_BUF.
Proof.
  intros H Hr. split; [apply (Forall_elem bytes (rs ++ sgs)); [by eapply rh_bytes|done]|].
  apply list_elem_of_lookup in Hr as [i Hi]. destruct (rh_rec _ _ _ H i r Hi) as (_ & o & _ & ? & ? & _).
  pose proof (rh_used _ _ _ H). lia.
Qed.

Lemma rrset_recs_spec b rs sgs : rrset_holds b rs sgs → ∀ i,
  (i <= length rs)%nat → rrset_recs b (length rs - i) (Z.of_nat i) = Ok (drop i rs).
Proof.
  intros H i Hi. remember (length rs - i)%nat as k eqn:Hk. revert i Hi Hk.
  induction k as [|k IH]; intros i Hi Hk; cbn [rrset_recs].
  - by rewrite drop_ge by lia.
  - destruct (lookup_lt_is_Some_2 rs i) as [r Hr]; [lia|]. destruct (rrset_data_rd _ _ _ _ _ H Hr) as [_ ->]. bind_step.
    replace (Z.of_nat i + 1) with (Z.of_nat (S i)) by lia. rewrite IH by lia. bind_step. by rewrite (drop_S _ _ _ Hr).
Qed.

(** ** Writing *)

Lemma rrset_init_holds b name type klass ttl :
  rrset_sized b → rrset_holds (elpis_rrset_buf_init b name type klass ttl) [] [].
Proof. intros (? & ? & ?). split; cbn; rewrite ?(@zlen_nil (list Z)); unfold ELPIS_RRSET_MAX_RR, ELPIS_RRSET_BUF in *; try done || lia. Qed.

(** Writing past the octets in use moves no record that is there. *)
Lemma slice_splice_before {A} (l : list A) o n p bs :
  0 <= o → 0 <= n → o + n <= p → p + zlen bs <= zlen l → slice (splice l p bs) o n = slice l o n.
Proof.
  intros. pose proof (zlen_nonneg bs). unfold splice, slice.
  rewrite drop_app_le by (rewrite length_take; zl). rewrite take_app_le by (rewrite length_drop, length_take; zl).
  rewrite skipn_firstn_comm, take_take. f_equal. lia.
Qed.

Lemma slice_splice_at {A} (l : list A) p bs : 0 <= p → p + zlen bs <= zlen l → slice (splice l p bs) p (zlen bs) = bs.
Proof.
  intros. unfold splice, slice. rewrite drop_app_ge by (rewrite length_take; zl). rewrite length_take.
  replace (Z.to_nat p - _)%nat with 0%nat by zl. rewrite drop_0, take_app_le by zl. apply take_ge. zl.
Qed.

Lemma rrset_put_spec b rs sgs r rs' sgs' c s :
  rrset_holds b rs sgs → bytes r → rs_used b + zlen r <= ELPIS_RRSET_BUF → zlen rs + zlen sgs < ELPIS_RRSET_MAX_RR →
  rs' ++ sgs' = (rs ++ sgs) ++ [r] → c = zlen rs' → s = zlen sgs' →
  ∃ b', rrset_put b (zlen rs + zlen sgs) r c s = Ok b' ∧ rrset_holds b' rs' sgs' ∧
    rs_used b' = rs_used b + zlen r ∧ rs_name b' = rs_name b ∧ rs_type b' = rs_type b ∧ rs_klass b' = rs_klass b ∧
    rs_flags b' = rs_flags b.
Proof.
  intros [Hl Ho Hd Hu Hc Hsc Hm Hb Hr] Hbr Hfit Hroom Heq -> ->. unfold rrset_put.
  pose proof (zlen_nonneg rs). pose proof (zlen_nonneg sgs). pose proof (zlen_nonneg r).
  rewrite !wr_in_range by lia. bind_step. rewrite blit_in_range by lia. bind_step.
  eexists. split; [done|]. split; [|cbn; rewrite u32_id by (unfold ELPIS_RRSET_BUF in *; lia); done].
  assert (zlen rs' + zlen sgs' = zlen rs + zlen sgs + 1) as Hn by (rewrite <- !zlen_app, Heq, zlen_app, zlen_cons, (@zlen_nil (list Z)); lia).
  assert (Z.to_nat (zlen rs + zlen sgs) = length (rs ++ sgs)) as Hi by (rewrite length_app; zl).
  split; cbn [rs_len rs_off rs_data rs_used rs_count rs_sigcount]; rewrite ?zlen_insert; try done || lia.
  - by rewrite zlen_splice by lia.
  - rewrite u32_id by (unfold ELPIS_RRSET_BUF in *; lia). lia.
  - rewrite Heq. apply Forall_app. split; [done|]. by repeat constructor.
  - rewrite Heq, Hi. intros i x Hx. unfold rec_at, idx_rec. cbn [rs_len rs_off rs_data rs_used]. rewrite u32_id by (unfold ELPIS_RRSET_BUF in *; lia).
    apply lookup_app_Some in Hx as [Hx|[Hge Hx]].
    + destruct (Hr i x Hx) as (E1 & o & E2 & ? & ? & E3). apply lookup_lt_Some in Hx as Hlt.
      rewrite !list_lookup_insert_ne by lia. split; [done|]. exists o. split_and!; [done|lia|lia|].
      pose proof (zlen_nonneg x). by rewrite slice_splice_before by lia.
    + apply list_lookup_singleton_Some in Hx as [Hz <-]. assert (i = length (rs ++ sgs)) as -> by lia.
      rewrite !list_lookup_insert_eq by (unfold zlen in *; rewrite length_app; unfold ELPIS_RRSET_MAX_RR in *; lia).
      split; [done|]. exists (rs_used b). split_and!; [done|lia|lia|]. apply slice_splice_at; lia.
Qed.

Definition rrset_room (b : elpis_rrset_buf_t) (rs sgs : list (list Z)) (r : list Z) : Prop :=
  zlen rs + zlen sgs < ELPIS_RRSET_MAX_RR ∧ rs_used b + zlen r <= ELPIS_RRSET_BUF.

Lemma rrset_add_spec b rs sgs r : rrset_holds b rs sgs → bytes r → zlen r < 2 ^ 16 →
  if decide (sgs = [] ∧ rrset_room b rs sgs r) then
    ∃ b', elpis_rrset_buf_add b r = Ok b' ∧ rrset_holds b' (rs ++ [r]) [] ∧
      rs_used b' = rs_used b + zlen r ∧ rs_name b' = rs_name b ∧ rs_type b' = rs_type b
  else elpis_rrset_buf_add b r = Err (if decide (sgs = []) then ELPIS_ETRUNC else ELPIS_ERR) ELPIS_DROP_NONE.
Proof.
  intros H Hb Hlen. pose proof (rh_used _ _ _ H) as Hu. pose proof (rh_max _ _ _ H) as Hm. pose proof (zlen_nonneg r). pose proof (zlen_nonneg rs).
  unfold elpis_rrset_buf_add, rrset_room. rewrite (rh_sigcount _ _ _ H), (rh_count _ _ _ H).
  rewrite (u32_id (rs_used b + zlen r)) by (unfold ELPIS_RRSET_BUF in *; lia).
  destruct sgs as [|g sgs].
  2:{ rewrite zlen_cons. pose proof (zlen_nonneg sgs). rewrite !decide_False by (by intros [[=] _] || done).
      replace (negb (1 + zlen sgs =? 0)) with true by (symmetry; apply negb_true_iff, Z.eqb_neq; lia). done. }
  rewrite !(@zlen_nil (list Z)), !Z.add_0_r. rewrite (@zlen_nil (list Z)) in Hm. cbn [Z.eqb negb]. bind_step.
  destruct (Z.leb_spec ELPIS_RRSET_MAX_RR (zlen rs)); bind_step.
  { rewrite (decide_False (P := _ ∧ _)) by lia. by rewrite decide_True. }
  destruct (Z.ltb_spec ELPIS_RRSET_BUF (rs_used b + zlen r)); bind_step.
  { rewrite (decide_False (P := _ ∧ _)) by lia. by rewrite decide_True. }
  rewrite decide_True by (split; [done|lia]). 
  destruct (rrset_put_spec b rs [] r (rs ++ [r]) [] (u8 (zlen rs + 1)) 0) as (b' & He & Hb' & ? & ? & ? & _); try done.
  - rewrite (@zlen_nil (list Z)). lia.
  - by rewrite !app_nil_r.
  - rewrite zlen_app, zlen_cons, (@zlen_nil (list Z)), u8_id by (unfold byte, ELPIS_RRSET_MAX_RR in *; lia). lia.
  - rewrite (@zlen_nil (list Z)), Z.add_0_r in He. rewrite He. by exists b'.
Qed.

Lemma rrset_add_sig_spec b rs sgs r : rrset_holds b rs sgs → bytes r → zlen r < 2 ^ 16 →
  if decide (rrset_room b rs sgs r) then
    ∃ b', elpis_rrset_buf_add_sig b r = Ok b' ∧ rrset_holds b' rs (sgs ++ [r]) ∧
      rs_used b' = rs_used b + zlen r ∧ rs_name b' = rs_name b ∧ rs_type b' = rs_type b
  else elpis_rrset_buf_add_sig b r = Err ELPIS_ETRUNC ELPIS_DROP_NONE.
Proof.
  intros H Hb Hlen. pose proof (rh_used _ _ _ H) as Hu. pose proof (rh_max _ _ _ H) as Hm. pose proof (zlen_nonneg r).
  pose proof (zlen_nonneg rs). pose proof (zlen_nonneg sgs).
  unfold elpis_rrset_buf_add_sig, rrset_room. rewrite (rh_sigcount _ _ _ H), (rh_count _ _ _ H).
  rewrite (u32_id (rs_used b + zlen r)) by (unfold ELPIS_RRSET_BUF in *; lia).
  destruct (Z.leb_spec ELPIS_RRSET_MAX_RR (zlen rs + zlen sgs)); bind_step; [by rewrite decide_False by lia|].
  destruct (Z.ltb_spec ELPIS_RRSET_BUF (rs_used b + zlen r)); bind_step; [by rewrite decide_False by lia|].
  rewrite decide_True by lia.
  destruct (rrset_put_spec b rs sgs r rs (sgs ++ [r]) (zlen rs) (u8 (zlen sgs + 1))) as (b' & -> & Hb' & ? & ? & ? & _); try done.
  - by rewrite app_assoc.
  - rewrite zlen_app, zlen_cons, (@zlen_nil (list Z)), u8_id by (unfold byte, ELPIS_RRSET_MAX_RR in *; lia). lia.
  - by exists b'.
Qed.

Lemma splice_0_take {A} (l bs : list A) i x : bs !! i = Some x → zlen bs <= zlen l → splice l 0 bs !! i = Some x.
Proof. intros Hi Hl. unfold splice. change (Z.to_nat 0) with 0%nat. rewrite take_0. cbn [app]. apply lookup_app_l_Some, Hi. Qed.

Lemma slice_0_lookup {A} (l : list A) n i x : l !! i = Some x → Z.of_nat i < n → slice l 0 n !! i = Some x.
Proof. intros Hi Hn. unfold slice. cbn [Z.to_nat drop]. rewrite lookup_take_lt by lia. done. Qed.

Lemma rrset_copy_spec dst src rs sgs : rrset_sized dst → rrset_holds src rs sgs → wf_name (rs_name src) →
  ∃ b, elpis_rrset_buf_copy dst src = Ok b ∧ rrset_holds b rs sgs ∧ rs_name b = rs_name src ∧ rs_type b = rs_type src ∧
    rs_klass b = rs_klass src ∧ rs_ttl b = rs_ttl src ∧ rs_orig_ttl b = rs_orig_ttl src ∧ rs_sec b = rs_sec src ∧
    rs_flags b = rs_flags src ∧ rs_zone_labels b = rs_zone_labels src.
Proof.
  intros (Dl & Do & Dd) [Hl Ho Hd Hu Hc Hsc Hm Hb Hr] (ls & Hls & Hn). unfold elpis_rrset_buf_copy.
  pose proof (zlen_nonneg rs). pose proof (zlen_nonneg sgs).
  rewrite (rds_full (n_d (rs_name src))) by (by rewrite Hn). bind_step. rewrite Hc, Hsc.
  replace (Z.min (zlen rs + zlen sgs) ELPIS_RRSET_MAX_RR) with (zlen rs + zlen sgs) by lia.
  replace (Z.min (rs_used src) ELPIS_RRSET_BUF) with (rs_used src) by lia.
  rewrite (rds_in_range (rs_len src)) by lia. bind_step. rewrite blit_in_range by (rewrite ?zlen_slice; lia). bind_step.
  rewrite (rds_in_range (rs_off src)) by lia. bind_step. rewrite blit_in_range by (rewrite ?zlen_slice; lia). bind_step.
  rewrite (rds_in_range (rs_data src)) by lia. bind_step. rewrite blit_in_range by (rewrite ?zlen_slice; lia). bind_step.
  eexists. split; [done|]. cbn. split; [|by rewrite Hn].
  split; cbn; rewrite ?zlen_splice by (rewrite ?zlen_slice; lia); try done.
  intros i r Hi. destruct (Hr i r Hi) as (E1 & o & E2 & ? & ? & E3). apply lookup_lt_Some in Hi. rewrite length_app in Hi.
  unfold rec_at, idx_rec. cbn. pose proof (zlen_nonneg r). split.
  - apply splice_0_take; [apply slice_0_lookup; [done|zl]|rewrite zlen_slice; lia].
  - exists o. split_and!; [|lia|lia|].
    + apply splice_0_take; [apply slice_0_lookup; [done|zl]|rewrite zlen_slice; lia].
    + unfold splice. change (Z.to_nat 0) with 0%nat. rewrite take_0. cbn [app].
      rewrite slice_app_l by (rewrite ?zlen_slice; lia). by rewrite slice_slice by lia.
Qed.

(** ** A buffer for given lists *)

Definition rrset_of (name : elpis_name_t) (type klass ttl flags : Z) (rs sgs : list (list Z)) : elpis_rrset_buf_t :=
  let all := rs ++ sgs in
  mkRrset name type klass ttl ttl ELPIS_SEC_UNCHECKED (zlen rs) (zlen sgs) flags 0
    (map zlen all ++ zeros (ELPIS_RRSET_MAX_RR - zlen all))
    (map (fun i => zlen (concat (take i all))) (seq 0 (length all)) ++ zeros (ELPIS_RRSET_MAX_RR - zlen all))
    (zlen (concat all)) (concat all ++ zeros (ELPIS_RRSET_BUF - zlen (concat all))).

Definition rrset_fits (rs sgs : list (list Z)) : Prop :=
  zlen rs + zlen sgs <= ELPIS_RRSET_MAX_RR ∧ zlen (concat (rs ++ sgs)) <= ELPIS_RRSET_BUF ∧ Forall bytes (rs ++ sgs).
#[export] Instance rrset_fits_dec rs sgs : Decision (rrset_fits rs sgs).
Proof. unfold rrset_fits. apply _. Defined.

Lemma rrset_of_holds name type klass ttl flags rs sgs :
  rrset_fits rs sgs → rrset_holds (rrset_of name type klass ttl flags rs sgs) rs sgs.
Proof.
  intros (Hm & Hu & Hb). pose proof (zlen_nonneg (concat (rs ++ sgs))). assert (zlen (rs ++ sgs) <= ELPIS_RRSET_MAX_RR) by (rewrite zlen_app; lia).
  split; cbn [rrset_of rs_len rs_off rs_data rs_used rs_count rs_sigcount]; try done.
  - rewrite zlen_app, zlen_map, zlen_zeros by lia. lia.
  - rewrite zlen_app, zlen_map, zlen_zeros by lia. unfold zlen at 1. rewrite length_seq. fold (zlen (rs ++ sgs)). lia.
  - rewrite zlen_app, zlen_zeros by lia. lia.
  - intros i r Hi. apply lookup_lt_Some in Hi as Hlt. unfold rec_at, idx_rec.
    cbn [rrset_of rs_len rs_off rs_data rs_used]. split.
    { apply lookup_app_l_Some. by rewrite list_lookup_fmap, Hi. }
    exists (zlen (concat (take i (rs ++ sgs)))). split.
    { apply lookup_app_l_Some. rewrite list_lookup_fmap, lookup_seq_lt by done. done. }
    assert (concat (rs ++ sgs) = concat (take i (rs ++ sgs)) ++ r ++ concat (drop (S i) (rs ++ sgs))) as E.
    { pose proof (take_drop_middle _ _ _ Hi) as E. rewrite <- E at 1. by rewrite concat_app. }
    set (l1 := concat (take i (rs ++ sgs))) in *. set (l2 := concat (drop (S i) (rs ++ sgs))) in *. rewrite !E.
    pose proof (zlen_nonneg l1). pose proof (zlen_nonneg l2). rewrite !zlen_app. split_and!; [lia|lia|].
    rewrite <- app_assoc, slice_app_r by lia. rewrite Z.sub_diag, <- app_assoc. apply slice_0_app.
Qed.
