(* ===== verification/Dnskey.v ===== *)
(** Keys: the algorithm policy, key tags, DS matching and the choice of signers
    of src/dnssec/dnssec.c (lines 25 to 254).

    A DNSKEY, DS or RRSIG record is its rdata, a list of octets. *)
From stdpp Require Import base list numbers.
From Stdlib Require Import ZArith Lia.
From S2P Require Import Prelude Bytes Simd Name NameOps Text Rnames Mdhash Sha1 Sha2 Rrset.

(** ** Data *)

Definition ELPIS_DS_SHA1 : Z := 1.
Definition ELPIS_DS_SHA256 : Z := 2.
Definition ELPIS_DS_SHA384 : Z := 4.

(** The part of [elpis_conf_t] the validator's primitives read. *)
Record sec_conf_t := mkSecConf {
  harden_pq_downgrade : bool; alg_mldsa44 : Z; alg_mldsa65 : Z; alg_mldsa87 : Z; sig_skew : Z }.

Definition is_mldsa (c : sec_conf_t) (alg : Z) : bool :=
  (alg =? alg_mldsa44 c) || (alg =? alg_mldsa65 c) || (alg =? alg_mldsa87 c).

(** ** Algorithm policy *)

Definition elpis_alg_hash (c : sec_conf_t) (alg : Z) : Z :=
  if is_mldsa c alg then 0
  else if (alg =? ELPIS_ALG_RSASHA1) || (alg =? ELPIS_ALG_RSASHA1_NSEC3_SHA1) then ELPIS_HASH_SHA1
  else if alg =? ELPIS_ALG_RSASHA256 then ELPIS_HASH_SHA256
  else if alg =? ELPIS_ALG_RSASHA512 then ELPIS_HASH_SHA512
  else if alg =? ELPIS_ALG_ECDSAP256SHA256 then ELPIS_HASH_SHA256
  else if alg =? ELPIS_ALG_ECDSAP384SHA384 then ELPIS_HASH_SHA384
  else if alg =? ELPIS_ALG_ED25519 then 0
  else -1.

Definition elpis_alg_supported (c : sec_conf_t) (alg : Z) : bool :=
  if is_mldsa c alg then true
  else (alg =? ELPIS_ALG_RSASHA1) || (alg =? ELPIS_ALG_RSASHA1_NSEC3_SHA1) || (alg =? ELPIS_ALG_RSASHA256)
    || (alg =? ELPIS_ALG_RSASHA512) || (alg =? ELPIS_ALG_ECDSAP256SHA256) || (alg =? ELPIS_ALG_ECDSAP384SHA384)
    || (alg =? ELPIS_ALG_ED25519).

Definition elpis_digest_supported (digest_type : Z) : bool :=
  (digest_type =? ELPIS_DS_SHA256) || (digest_type =? ELPIS_DS_SHA384) || (digest_type =? ELPIS_DS_SHA1).

Definition alg_is_pq (c : sec_conf_t) (alg : Z) : bool := negb (alg =? 0) && is_mldsa c alg.

(** [ds->flags & (ELPIS_RRF_NXDOMAIN | ELPIS_RRF_NODATA)] *)
Definition rrset_denied (b : elpis_rrset_buf_t) : bool :=
  negb (Z.land (rs_flags b) (Z.lor ELPIS_RRF_NXDOMAIN ELPIS_RRF_NODATA) =? 0).

(** The loop over the DS records, [k] turns left. *)
Fixpoint ds_pq_loop (c : sec_conf_t) (ds : elpis_rrset_buf_t) (k : nat) (i : Z) : res bool :=
  match k with
  | O => Ok false
  | S k =>
    len ← rd (rs_len ds) i;
    d ← elpis_rrset_rd ds i;
    if 5 <=? len then
      alg ← rd d 2; dt ← rd d 3;
      if alg_is_pq c alg && elpis_digest_supported dt then Ok true else ds_pq_loop c ds k (i + 1)
    else ds_pq_loop c ds k (i + 1)
  end.

Definition ds_wants_pq (c : sec_conf_t) (ds : elpis_rrset_buf_t) : res bool :=
  if negb (harden_pq_downgrade c) || rrset_denied ds then Ok false
  else ds_pq_loop c ds (Z.to_nat (rs_count ds)) 0.

(** ** Trimming a set in place *)

(** [off[n] = off[i]; len[n] = len[i];] *)
Definition index_move (off len : list Z) (n i : Z) : res (list Z * list Z) :=
  o ← rd off i; off ← wr off n o; l ← rd len i; len ← wr len n l; Ok (off, len).

(** Keeps the records whose length is at least [min] and whose octet [at_]
    names a post-quantum algorithm: the loop body of both filters. *)
Fixpoint pq_loop (c : sec_conf_t) (data : list Z) (min at_ : Z) (k : nat) (i n : Z) (off len : list Z)
    : res (Z * list Z * list Z) :=
  match k with
  | O => Ok (n, off, len)
  | S k =>
    l ← rd len i;
    keep ← (if l <? min then Ok false else o ← rd off i; a ← rd data (o + at_); Ok (alg_is_pq c a));
    if (keep : bool) then
      '(off, len) ← index_move off len n i;
      pq_loop c data min at_ k (i + 1) (n + 1) off len
    else pq_loop c data min at_ k (i + 1) n off len
  end.

(** [off[n + i - count] = off[i]] for the signatures. *)
Fixpoint gap_loop (k : nat) (i to : Z) (off len : list Z) : res (list Z * list Z) :=
  match k with
  | O => Ok (off, len)
  | S k => '(off, len) ← index_move off len to i; gap_loop k (i + 1) (to + 1) off len
  end.

Definition rrset_index (b : elpis_rrset_buf_t) (count sigcount : Z) (off len : list Z) : elpis_rrset_buf_t :=
  mkRrset (rs_name b) (rs_type b) (rs_klass b) (rs_ttl b) (rs_orig_ttl b) (rs_sec b) count sigcount
    (rs_flags b) (rs_zone_labels b) len off (rs_used b) (rs_data b).

Definition elpis_dnskey_signers (c : sec_conf_t) (keys ds : elpis_rrset_buf_t) : res (bool * elpis_rrset_buf_t) :=
  pq ← ds_wants_pq c ds;
  if negb pq then Ok (false, keys)
  else
    '(n, off, len) ← pq_loop c (rs_data keys) 4 3 (Z.to_nat (rs_count keys)) 0 0 (rs_off keys) (rs_len keys);
    '(off, len) ← gap_loop (Z.to_nat (rs_sigcount keys)) (rs_count keys) n off len;
    Ok (true, rrset_index keys (u8 n) (rs_sigcount keys) off len).

Definition sigs_pq_only (c : sec_conf_t) (set : elpis_rrset_buf_t) : res elpis_rrset_buf_t :=
  '(n, off, len) ← pq_loop c (rs_data set) 3 2 (Z.to_nat (rs_sigcount set)) (rs_count set) (rs_count set) (rs_off set) (rs_len set);
  Ok (rrset_index set (rs_count set) (u8 (n - rs_count set)) off len).

(** ** Key tags and DS matching *)

Definition ds_hash_alg (digest_type : Z) : Z :=
  if digest_type =? ELPIS_DS_SHA1 then ELPIS_HASH_SHA1
  else if digest_type =? ELPIS_DS_SHA256 then ELPIS_HASH_SHA256
  else if digest_type =? ELPIS_DS_SHA384 then ELPIS_HASH_SHA384
  else -1.

(** [ac += (i & 1u) ? rdata[i] : ((uint32_t)rdata[i] << 8)], [odd] being [i & 1u]. *)
Fixpoint tag_loop (rdata : list Z) (odd : bool) (ac : Z) : Z :=
  match rdata with
  | [] => ac
  | b :: rdata => tag_loop rdata (negb odd) (u32 (ac + (if odd then b else Z.shiftl b 8)))
  end.

Definition elpis_dnskey_tag (rdata : list Z) : res Z :=
  let len := zlen rdata in
  alg ← (if 4 <=? len then rd rdata 3 else Ok 0);
  if (4 <=? len) && (alg =? ELPIS_ALG_RSAMD5) then
    if len <? 7 then Ok 0
    else a ← rd rdata (len - 3); b ← rd rdata (len - 2); Ok (u16 (Z.lor (Z.shiftl a 8) b))
  else
    let ac := tag_loop rdata false 0 in
    let ac := u32 (ac + Z.land (Z.shiftr ac 16) 0xFFFF) in
    Ok (u16 (Z.land ac 0xFFFF)).

(** The digest of the owner name and the key, by the three hash contexts. *)
Definition ds_digest (halg : Z) (canon : elpis_name_t) (dnskey : list Z) : res (option (list Z)) :=
  name ← rds (n_d canon) 0 (n_len canon);
  if halg =? ELPIS_HASH_SHA1 then
    c ← elpis_sha1_update elpis_sha1_init name; c ← elpis_sha1_update c dnskey; d ← elpis_sha1_final c; Ok (Some d)
  else if halg =? ELPIS_HASH_SHA256 then
    c ← elpis_sha256_update elpis_sha256_init name; c ← elpis_sha256_update c dnskey; d ← elpis_sha256_final c; Ok (Some d)
  else if halg =? ELPIS_HASH_SHA384 then
    c ← elpis_sha512_update elpis_sha384_init name; c ← elpis_sha512_update c dnskey; d ← elpis_sha512_final c; Ok (Some d)
  else Ok None.

Definition elpis_ds_matches (owner : elpis_name_t) (dnskey ds : list Z) : res bool :=
  if (zlen ds <? 5) || (zlen dnskey <? 4) then Ok false
  else
    ds_tag ← elpis_get16 ds 0;
    ds_alg ← rd ds 2;
    ds_dt ← rd ds 3;
    alg ← rd dnskey 3;
    if negb (ds_alg =? alg) then Ok false
    else
      tag ← elpis_dnskey_tag dnskey;
      if negb (tag =? ds_tag) then Ok false
      else
        let halg := ds_hash_alg ds_dt in
        if halg <? 0 then Ok false
        else
          let hlen := elpis_hash_len halg in
          if negb (zlen ds - 4 =? hlen) then Ok false
          else
            canon ← elpis_name_lower owner;
            digest ← ds_digest halg canon dnskey;
            match digest with
            | None => Ok false
            | Some digest => differ ← elpis_ct_memcmp digest (drop 4 ds) hlen; Ok (negb differ)
            end.

(** ** Specifications *)

(** RFC 4034 appendix B: the sum of the rdata's 16-bit words, an odd octet at
    the end being the high half of one. *)
Fixpoint word_sum (k : list Z) : Z :=
  match k with
  | a :: b :: k => be2 a b + word_sum k
  | [a] => be2 a 0
  | [] => 0
  end.

Definition key_tag (k : list Z) : Z :=
  if (4 <=? zlen k) && (octet k 3 =? ELPIS_ALG_RSAMD5) then
    if zlen k <? 7 then 0 else be2 (octet k (zlen k - 3)) (octet k (zlen k - 2))
  else (word_sum k + word_sum k / 2 ^ 16) mod 2 ^ 16.

(** RFC 4034 section 5.1.4: the DS record of a key, by digest type. *)
Definition ds_record (owner : list (list Z)) (dnskey : list Z) (dt : Z) : list Z :=
  put16_bytes (key_tag dnskey) ++ [octet dnskey 3; dt] ++
  hash_spec (ds_hash_alg dt) (wire (fold_labels owner) ++ dnskey).

Definition ds_types : list Z := [ELPIS_DS_SHA1; ELPIS_DS_SHA256; ELPIS_DS_SHA384].

(** ** Key tags *)

Fixpoint half_sum (odd : bool) (k : list Z) : Z :=
  match k with [] => 0 | b :: k => (if odd then b else 256 * b) + half_sum (negb odd) k end.

Lemma half_sum_words n : ∀ k, (length k <= n)%nat → half_sum false k = word_sum k.
Proof.
  induction n as [|n IH]; intros [|a [|b k]] Hk; cbn [length] in Hk; cbn [half_sum word_sum negb]; try done || lia.
  - unfold be2. lia.
  - rewrite IH by lia. unfold be2. lia.
Qed.

Lemma half_sum_bound k : bytes k → ∀ odd, 0 <= half_sum odd k <= 65280 * zlen k.
Proof.
  induction 1 as [|b k Hb Hk IH]; intros odd; cbn [half_sum]; [rewrite (@zlen_nil Z); lia|].
  rewrite zlen_cons. specialize (IH (negb odd)). unfold byte in Hb. destruct odd; lia.
Qed.

Lemma tag_loop_spec k : bytes k → ∀ odd ac,
  0 <= ac → ac + half_sum odd k < 2 ^ 32 → tag_loop k odd ac = ac + half_sum odd k.
Proof.
  induction 1 as [|b k Hb Hk IH]; intros odd ac Ha Hs; cbn [tag_loop half_sum] in *; [lia|].
  pose proof (half_sum_bound k Hk (negb odd)) as Hn. rewrite shiftl_mul by lia. change (2 ^ 8) with 256.
  rewrite u32_id by (unfold byte in Hb; destruct odd; lia). rewrite IH; unfold byte in Hb; destruct odd; lia.
Qed.

Lemma land_ffff x : Z.land x 0xFFFF = x mod 2 ^ 16.
Proof. change 0xFFFF with (Z.ones 16). apply Z.land_ones. lia. Qed.

Lemma be2_lor a b : byte a → byte b → Z.lor (Z.shiftl a 8) b = be2 a b.
Proof. unfold byte. intros. rewrite lor_shiftl_add by lia. unfold be2. lia. Qed.

Lemma dnskey_tag_spec k : bytes k → zlen k < 2 ^ 16 → elpis_dnskey_tag k = Ok (key_tag k).
Proof.
  intros Hk Hl. unfold elpis_dnskey_tag, key_tag.
  assert ((if 4 <=? zlen k then rd k 3 else Ok 0) = Ok (if 4 <=? zlen k then octet k 3 else 0)) as ->.
  { destruct (Z.leb_spec 4 (zlen k)); [apply rd_octet; lia|done]. }
  bind_step. replace ((4 <=? zlen k) && ((if 4 <=? zlen k then octet k 3 else 0) =? ELPIS_ALG_RSAMD5))
    with ((4 <=? zlen k) && (octet k 3 =? ELPIS_ALG_RSAMD5)) by (by destruct (4 <=? zlen k)).
  destruct ((4 <=? zlen k) && _) eqn:E; bool_to_prop.
  - destruct (Z.ltb_spec (zlen k) 7); [done|]. rewrite !rd_octet by lia. bind_step.
    pose proof (octet_byte k (zlen k - 3) Hk) as Ha. pose proof (octet_byte k (zlen k - 2) Hk) as Hb.
    rewrite be2_lor by done. rewrite u16_id; [done|]. unfold be2, byte in *. lia.
  - pose proof (half_sum_bound k Hk false) as Hs. rewrite (half_sum_words (length k)) in Hs by lia. pose proof (zlen_nonneg k).
    rewrite tag_loop_spec; rewrite ?(half_sum_words (length k)) by lia; [|done|lia|lia].
    rewrite !land_ffff, shiftr_div by lia. rewrite Z.add_0_l. set (S := word_sum k) in *.
    assert (0 <= S / 2 ^ 16 < 2 ^ 16) as Hd by (split; [apply Z.div_pos; lia|apply Z.div_lt_upper_bound; lia]).
    rewrite (Z.mod_small (S / 2 ^ 16)) by lia. rewrite u32_id by lia. f_equal. unfold u16. by rewrite Zmod_mod.
Qed.

Lemma key_tag_range k : bytes k → 0 <= key_tag k < 2 ^ 16.
Proof.
  intros Hk. unfold key_tag. repeat case_match; [lia| |apply Z.mod_pos_bound; lia].
  pose proof (octet_byte k (zlen k - 3) Hk). pose proof (octet_byte k (zlen k - 2) Hk). unfold be2, byte in *. lia.
Qed.

(** ** DS matching *)

Lemma put16_be2 a b : byte a → byte b → put16_bytes (be2 a b) = [a; b].
Proof.
  unfold byte, put16_bytes, be2, u8. intros Ha Hb. rewrite shiftr_div by lia. change (2 ^ 8) with 256.
  rewrite Z.div_add_l, (Z.div_small b), Z.add_0_r, Z.mod_small by lia. f_equal. f_equal.
  rewrite Z.add_comm, Z.mod_add, Z.mod_small by lia. done.
Qed.

Lemma ds_hash_known dt : 0 <= ds_hash_alg dt → dt ∈ ds_types ∧ 1 <= ds_hash_alg dt <= 3.
Proof.
  unfold ds_hash_alg, ds_types. repeat case_match; bool_to_prop; subst; intros Hd;
    (split; [by_compute|done]) || (cbn in Hd; lia).
Qed.

Lemma ds_digest_spec owner k h : labels_ok owner → 1 <= h <= 3 → zlen k < 2 ^ 16 →
  ds_digest h (name_of owner) k = Ok (Some (hash_spec h (wire owner ++ k))).
Proof.
  intros Ho Hh Hk. unfold ds_digest. rewrite n_len_of, n_d_of, (rds_full (wire owner)) by done. bind_step.
  pose proof (proj2 Ho). assert (h = 1 ∨ h = 2 ∨ h = 3) as [-> | [-> | ->]] by lia;
    unfold hash_spec; cbn [Z.eqb Pos.eqb ELPIS_HASH_SHA1 ELPIS_HASH_SHA256 ELPIS_HASH_SHA384].
  - pose proof (sha1_two (wire owner) k) as E. destruct (elpis_sha1_update _ _); try done. bind_step. cbn [mbind res_bind] in E.
    destruct (elpis_sha1_update _ _); try done. bind_step. cbn [mbind res_bind] in E. by rewrite E.
  - pose proof (sha256_two (wire owner) k) as E. destruct (elpis_sha256_update _ _); try done. bind_step. cbn [mbind res_bind] in E.
    destruct (elpis_sha256_update _ _); try done. bind_step. cbn [mbind res_bind] in E. by rewrite E.
  - pose proof (sha512_two elpis_sha384_init (wire owner) k) as E. specialize (E (or_intror eq_refl)). specialize (E ltac:(lia) ltac:(lia)).
    destruct (elpis_sha512_update _ _); try done. bind_step. cbn [mbind res_bind] in E.
    destruct (elpis_sha512_update _ _); try done. bind_step. cbn [mbind res_bind] in E. by rewrite E.
Qed.

(** What a DS record says, once taken apart. *)
Lemma ds_record_parts owner k a b al dt dg : byte a → byte b → bytes k →
  a :: b :: al :: dt :: dg = ds_record owner k dt ↔
  be2 a b = key_tag k ∧ al = octet k 3 ∧ dg = hash_spec (ds_hash_alg dt) (wire (fold_labels owner) ++ k).
Proof.
  intros Ha Hb Hk. unfold ds_record. pose proof (key_tag_range k Hk).
  change (a :: b :: al :: dt :: dg) with ([a; b] ++ al :: dt :: dg). split.
  - intros E. apply app_inj_1 in E as [E1 E2]; [|done]. injection E2 as -> ->. split; [|done].
    unfold put16_bytes in E1. injection E1 as -> ->. unfold be2, u8. rewrite shiftr_div by lia. change (2 ^ 8) with 256.
    rewrite (Z.mod_small (key_tag k / 256)) by (split; [apply Z.div_pos; lia|apply Z.div_lt_upper_bound; lia]).
    pose proof (Z.div_mod (key_tag k) 256). lia.
  - intros (<- & -> & ->). by rewrite put16_be2.
Qed.

Lemma ds_types_hash dt : dt ∈ ds_types → 1 <= ds_hash_alg dt <= 3.
Proof. intros H. apply list_elem_of_In in H. cbn in H. by destruct H as [<- | [<- | [<- | []]]]. Qed.

Lemma ds_matches_spec owner k ds : labels_ok owner → bytes k → zlen k < 2 ^ 16 → bytes ds →
  elpis_ds_matches (name_of owner) k ds
    = Ok (bool_decide (4 <= zlen k ∧ Exists (fun dt => ds = ds_record owner k dt) ds_types)).
Proof.
  intros Ho Hk Hl Hds. unfold elpis_ds_matches.
  destruct ((zlen ds <? 5) || (zlen k <? 4)) eqn:E; [apply orb_true_iff in E|apply orb_false_iff in E as [E1 E2]; bool_to_prop].
  { rewrite bool_decide_eq_false_2; [done|]. intros [Hk4 Hex]. destruct E as [E|E]; [|bool_to_prop; lia]. bool_to_prop.
    apply Exists_exists in Hex as (dt & Hdt & ->). apply list_elem_of_In, ds_types_hash in Hdt as Hh. revert E. unfold ds_record.
    rewrite !zlen_app, zlen_put16, zlen_hash by lia. rewrite !zlen_cons, (@zlen_nil Z).
    assert (ds_hash_alg dt = 1 ∨ ds_hash_alg dt = 2 ∨ ds_hash_alg dt = 3) as [-> | [-> | ->]] by lia; done. }
  destruct ds as [|a [|b [|al [|dt [|g dg']]]]]; try (cbn in E1; unfold zlen in E1; cbn in E1; lia).
  set (dg := g :: dg') in *. do 4 (apply Forall_cons_1 in Hds as [? Hds]).
  rewrite (get16_value _ 0 a b) by done. bind_step. change (rd (a :: b :: al :: dt :: dg) 2) with (Ok al).
  change (rd (a :: b :: al :: dt :: dg) 3) with (Ok dt). bind_step. rewrite rd_octet by lia. bind_step.
  assert (Exists (fun d => a :: b :: al :: dt :: dg = ds_record owner k d) ds_types ↔
    be2 a b = key_tag k ∧ al = octet k 3 ∧ dt ∈ ds_types ∧ dg = hash_spec (ds_hash_alg dt) (wire (fold_labels owner) ++ k)) as Hex.
  { rewrite Exists_exists. split.
    - intros (d & Hd & Heq). assert (d = dt) as -> by (by injection Heq).
      apply ds_record_parts in Heq as (? & ? & ?); [|done..]. split_and!; try done. by apply list_elem_of_In.
    - intros (? & ? & ? & ?). exists dt. split; [by apply list_elem_of_In|]. by apply ds_record_parts. }
  destruct (Z.eqb_spec al (octet k 3)) as [->|Hne]; cbn [negb].
  2:{ rewrite bool_decide_eq_false_2; [done|]. rewrite Hex. tauto. }
  rewrite dnskey_tag_spec by done. bind_step. destruct (Z.eqb_spec (key_tag k) (be2 a b)) as [Htag|Hne]; cbn [negb].
  2:{ rewrite bool_decide_eq_false_2; [done|]. rewrite Hex. intros (_ & ? & _). congruence. }
  destruct (Z.ltb_spec (ds_hash_alg dt) 0) as [Hneg|Hpos].
  { rewrite bool_decide_eq_false_2; [done|]. rewrite Hex. intros (_ & _ & _ & Hty & _). apply ds_types_hash in Hty. lia. }
  apply ds_hash_known in Hpos as [Hty Hh]. rewrite <- zlen_hash with (m := wire (fold_labels owner) ++ k) by lia.
  set (hs := hash_spec _ _) in *.
  replace (zlen (a :: b :: octet k 3 :: dt :: dg) - 4) with (zlen dg) by (rewrite !zlen_cons; lia).
  destruct (Z.eqb_spec (zlen dg) (zlen hs)) as [Hlen|Hne]; cbn [negb].
  2:{ rewrite bool_decide_eq_false_2; [done|]. rewrite Hex. intros (_ & _ & _ & _ & ->). done. }
  rewrite name_lower_spec by done. bind_step. rewrite ds_digest_spec by (done || by apply labels_ok_fold). bind_step. fold hs.
  change (drop 4 (a :: b :: octet k 3 :: dt :: dg)) with dg.
  rewrite ct_memcmp_spec by (first [apply bytes_hash|done|apply zlen_nonneg|lia]). bind_step. f_equal.
  rewrite !slice_0_all by lia. rewrite bool_decide_not, negb_involutive. apply bool_decide_ext. rewrite Hex. split; [intros Heq; by split_and!|by intros (_ & _ & _ & _ & ?)].
Qed.

(** ** Trimming in place *)

Section trim.
Context (c : sec_conf_t) (data : list Z) (used : Z).
Hypothesis Hused : used <= zlen data.
#[local] Abbreviation at_idx := (idx_rec data used).

(** Two pairs of index arrays agree at [j]. *)
Definition same_idx (off len off' len' : list Z) (j : nat) : Prop := off' !! j = off !! j ∧ len' !! j = len !! j.

Lemma idx_rec_same off len off' len' j r : same_idx off len off' len' j → at_idx off len j r → at_idx off' len' j r.
Proof. intros [E1 E2] [H1 H2]. unfold idx_rec. by rewrite E1, E2. Qed.

Lemma index_move_spec off len (n i : nat) r : zlen off = zlen len → (n <= i)%nat → at_idx off len i r →
  ∃ off' len', index_move off len (Z.of_nat n) (Z.of_nat i) = Ok (off', len') ∧
    zlen off' = zlen off ∧ zlen len' = zlen len ∧ at_idx off' len' n r ∧ (∀ j, j ≠ n → same_idx off len off' len' j).
Proof.
  intros Hlen Hni (Hl & o & Ho & Hr). unfold index_move. apply lookup_lt_Some in Hl as Hl', Ho as Ho'.
  rewrite (rd_lookup off _ o) by (rewrite ?Nat2Z.id; done || lia). bind_step. rewrite wr_in_range by zl. bind_step.
  rewrite (rd_lookup len _ (zlen r)) by (rewrite ?Nat2Z.id; done || lia). bind_step. rewrite wr_in_range by zl. bind_step.
  rewrite Nat2Z.id. eexists _, _. split; [done|]. rewrite !zlen_insert. split_and!; [done|done|..].
  - unfold idx_rec. rewrite !list_lookup_insert_eq by lia. split; [done|]. by exists o.
  - intros j Hj. unfold same_idx. by rewrite !list_lookup_insert_ne by done.
Qed.

Definition pq_rec (min at_ : Z) (r : list Z) : Prop := min <= zlen r ∧ alg_is_pq c (octet r at_) = true.
#[export] Instance pq_rec_dec min at_ r : Decision (pq_rec min at_ r).
Proof. unfold pq_rec. apply _. Defined.

Lemma idx_rec_octet off len i r at_ : at_idx off len i r → 0 <= at_ < zlen r →
  (o ← rd off (Z.of_nat i); a ← rd data (o + at_); Ok (alg_is_pq c a)) = Ok (alg_is_pq c (octet r at_)).
Proof.
  intros (Hl & o & Ho & H0 & Hu & Hs) Hat. rewrite (rd_lookup off _ o) by (rewrite ?Nat2Z.id; done || lia). bind_step.
  destruct (rd_in_range data (o + at_)) as (x & -> & Hx); [lia|]. bind_step. unfold octet.
  rewrite <- Hs. unfold slice. rewrite lookup_take_lt, lookup_drop by lia.
  replace (Z.to_nat o + Z.to_nat at_)%nat with (Z.to_nat (o + at_)) by lia. by rewrite Hx.
Qed.

Lemma pq_loop_spec min at_ todo : 0 <= at_ < min → ∀ (i n : nat) off len,
  zlen off = zlen len → (n <= i)%nat → (∀ j r, todo !! j = Some r → at_idx off len (i + j) r) →
  ∃ off' len', pq_loop c data min at_ (length todo) (Z.of_nat i) (Z.of_nat n) off len
      = Ok (Z.of_nat n + zlen (filter (pq_rec min at_) todo), off', len') ∧
    zlen off' = zlen off ∧ zlen len' = zlen len ∧
    (∀ j r, filter (pq_rec min at_) todo !! j = Some r → at_idx off' len' (n + j) r) ∧
    (∀ j, (j < n ∨ i + length todo <= j)%nat → same_idx off len off' len' j).
Proof.
  intros Hat. induction todo as [|r todo IH]; intros i n off len Hlen Hni Hrec; cbn [length pq_loop].
  { exists off, len. rewrite filter_nil, (@zlen_nil (list Z)), Z.add_0_r. by split_and!. }
  pose proof (Hrec 0%nat r eq_refl) as Hr. rewrite Nat.add_0_r in Hr. pose proof (proj1 Hr) as Hl.
  assert (∀ off' len', (∀ j, j ≠ n → same_idx off len off' len' j) →
    ∀ j x, todo !! j = Some x → at_idx off' len' (S i + j) x) as Hnext.
  { intros off' len' Hs j x Hx. apply (idx_rec_same off len); [apply Hs; lia|]. replace (S i + j)%nat with (i + S j)%nat by lia. by apply Hrec. }
  rewrite (rd_lookup len _ (zlen r)) by (rewrite ?Nat2Z.id; done || lia). bind_step.
  replace (Z.of_nat i + 1) with (Z.of_nat (S i)) by lia.
  rewrite filter_cons. destruct (decide (pq_rec min at_ r)) as [[Hm Ha]|Hno].
  - assert ((zlen r <? min) = false) as -> by lia. rewrite (idx_rec_octet off len i r at_ Hr) by lia. rewrite Ha. bind_step.
    destruct (index_move_spec off len n i r Hlen Hni Hr) as (off1 & len1 & -> & L1 & L2 & Hn & Hs). bind_step.
    replace (Z.of_nat n + 1) with (Z.of_nat (S n)) by lia.
    destruct (IH (S i) (S n) off1 len1) as (off2 & len2 & -> & L3 & L4 & Hk & Hs2); [congruence|lia|by apply Hnext|].
    exists off2, len2. rewrite zlen_cons. split; [do 3 f_equal; lia|]. split_and!; [congruence|congruence|..].
    + intros [|j] x Hx; [injection Hx as <-; rewrite Nat.add_0_r|replace (n + S j)%nat with (S n + j)%nat by lia; by apply Hk].
      apply (idx_rec_same off1 len1); [apply Hs2; lia|done].
    + intros j Hj. destruct (Hs j) as [E1 E2]; [lia|]. destruct (Hs2 j) as [E3 E4]; [lia|]. split; congruence.
  - assert ((if zlen r <? min then Ok false else o ← rd off (Z.of_nat i); a ← rd data (o + at_); Ok (alg_is_pq c a)) = Ok false) as ->.
    { destruct (Z.ltb_spec (zlen r) min); [done|]. rewrite (idx_rec_octet off len i r at_ Hr) by lia. f_equal.
      apply not_true_is_false. intros Ht. by apply Hno. }
    bind_step. destruct (IH (S i) n off len) as (off2 & len2 & -> & L3 & L4 & Hk & Hs2); [done|lia|apply Hnext; by split|].
    exists off2, len2. split_and!; try done. intros j Hj. apply Hs2. lia.
Qed.

Lemma gap_loop_spec todo : ∀ (i to : nat) off len,
  zlen off = zlen len → (to <= i)%nat → (∀ j r, todo !! j = Some r → at_idx off len (i + j) r) →
  ∃ off' len', gap_loop (length todo) (Z.of_nat i) (Z.of_nat to) off len = Ok (off', len') ∧
    zlen off' = zlen off ∧ zlen len' = zlen len ∧ (∀ j r, todo !! j = Some r → at_idx off' len' (to + j) r) ∧
    (∀ j, (j < to)%nat → same_idx off len off' len' j).
Proof.
  induction todo as [|r todo IH]; intros i to off len Hlen Hti Hrec; cbn [length gap_loop].
  { exists off, len. split_and!; try done. }
  pose proof (Hrec 0%nat r eq_refl) as Hr. rewrite Nat.add_0_r in Hr.
  destruct (index_move_spec off len to i r Hlen Hti Hr) as (off1 & len1 & -> & L1 & L2 & Hn & Hs). bind_step.
  replace (Z.of_nat i + 1) with (Z.of_nat (S i)) by lia. replace (Z.of_nat to + 1) with (Z.of_nat (S to)) by lia.
  destruct (IH (S i) (S to) off1 len1) as (off2 & len2 & -> & L3 & L4 & Hk & Hs2); [congruence|lia|..].
  { intros j x Hx. apply (idx_rec_same off len); [apply Hs; lia|]. replace (S i + j)%nat with (i + S j)%nat by lia. by apply Hrec. }
  exists off2, len2. split; [done|]. split_and!; [congruence|congruence|..].
  - intros [|j] x Hx; [injection Hx as <-; rewrite Nat.add_0_r|replace (to + S j)%nat with (S to + j)%nat by lia; by apply Hk].
    apply (idx_rec_same off1 len1); [apply Hs2; lia|done].
  - intros j Hj. destruct (Hs j) as [E1 E2]; [lia|]. destruct (Hs2 j) as [E3 E4]; [lia|]. split; congruence.
Qed.
End trim.

(** A DS record that names a post-quantum algorithm with a digest in use. *)
Definition ds_pq (c : sec_conf_t) (d : list Z) : Prop :=
  5 <= zlen d ∧ alg_is_pq c (octet d 2) = true ∧ elpis_digest_supported (octet d 3) = true.
#[export] Instance ds_pq_dec c d : Decision (ds_pq c d).
Proof. unfold ds_pq. apply _. Defined.

Definition wants_pq (c : sec_conf_t) (ds : elpis_rrset_buf_t) (dss : list (list Z)) : Prop :=
  harden_pq_downgrade c = true ∧ rrset_denied ds = false ∧ Exists (ds_pq c) dss.
#[export] Instance wants_pq_dec c ds dss : Decision (wants_pq c ds dss).
Proof. unfold wants_pq. apply _. Defined.

Lemma ds_pq_loop_spec c ds dss dgs : rrset_holds ds dss dgs → ∀ k i, dss = take i dss ++ k →
  ds_pq_loop c ds (length k) (Z.of_nat i) = Ok (bool_decide (Exists (ds_pq c) k)).
Proof.
  intros H k. induction k as [|d k IH]; intros i Hi; cbn [length ds_pq_loop].
  { rewrite bool_decide_eq_false_2; [done|]. intros Hx. inversion Hx. }
  assert (dss !! i = Some d) as Hd.
  { pose proof (f_equal length Hi) as Hl. rewrite length_app, length_take in Hl. cbn [length] in Hl.
    rewrite Hi, lookup_app_r by (rewrite length_take; lia). rewrite length_take. by replace (i - _)%nat with 0%nat by lia. }
  destruct (rrset_data_rd _ _ _ _ _ H Hd) as [-> ->]. bind_step.
  assert (dss = take (S i) dss ++ k) as Hi' by (rewrite (take_S_r _ _ _ Hd), <- app_assoc; done).
  replace (Z.of_nat i + 1) with (Z.of_nat (S i)) by lia. rewrite IH by done.
  assert (bool_decide (Exists (ds_pq c) (d :: k)) = bool_decide (ds_pq c d) || bool_decide (Exists (ds_pq c) k)) as ->.
  { rewrite <- bool_decide_or. apply bool_decide_ext, Exists_cons. }
  destruct (Z.leb_spec 5 (zlen d)); [|by rewrite (bool_decide_eq_false_2 (ds_pq c d)) by (intros (? & _); lia)].
  rewrite !rd_octet by lia. bind_step.
  destruct (alg_is_pq c (octet d 2) && elpis_digest_supported (octet d 3)) eqn:E.
  - apply andb_true_iff in E as [? ?]. by rewrite (bool_decide_eq_true_2 (ds_pq c d)).
  - apply andb_false_iff in E. rewrite (bool_decide_eq_false_2 (ds_pq c d)); [done|]. intros (_ & ? & ?). destruct E; congruence.
Qed.

Lemma ds_wants_pq_spec c ds dss dgs : rrset_holds ds dss dgs → ds_wants_pq c ds = Ok (bool_decide (wants_pq c ds dss)).
Proof.
  intros H. unfold ds_wants_pq. destruct (negb (harden_pq_downgrade c) || rrset_denied ds) eqn:E.
  - rewrite bool_decide_eq_false_2; [done|]. intros (H1 & H2 & _). by rewrite H1, H2 in E.
  - apply orb_false_iff in E as [E1%negb_false_iff E2]. rewrite (rh_count _ _ _ H).
    replace (Z.to_nat (zlen dss)) with (length dss) by zl.
    rewrite (ds_pq_loop_spec _ _ _ _ H dss 0) by done. f_equal. apply bool_decide_ext. unfold wants_pq. tauto.
Qed.

Lemma rrset_index_holds b rs sgs off len rs' sgs' c s : rrset_holds b rs sgs →
  zlen off = ELPIS_RRSET_MAX_RR → zlen len = ELPIS_RRSET_MAX_RR → c = zlen rs' → s = zlen sgs' →
  zlen rs' + zlen sgs' <= ELPIS_RRSET_MAX_RR → Forall bytes (rs' ++ sgs') →
  (∀ j r, (rs' ++ sgs') !! j = Some r → idx_rec (rs_data b) (rs_used b) off len j r) →
  rrset_holds (rrset_index b c s off len) rs' sgs'.
Proof. intros [] ? ? -> -> ? ? ?. by split. Qed.

Lemma dnskey_signers_spec c keys ds ks sgs dss dgs : rrset_holds keys ks sgs → rrset_holds ds dss dgs →
  if decide (wants_pq c ds dss) then
    ∃ off len, elpis_dnskey_signers c keys ds
        = Ok (true, rrset_index keys (zlen (filter (pq_rec c 4 3) ks)) (zlen sgs) off len) ∧
      rrset_holds (rrset_index keys (zlen (filter (pq_rec c 4 3) ks)) (zlen sgs) off len) (filter (pq_rec c 4 3) ks) sgs
  else elpis_dnskey_signers c keys ds = Ok (false, keys).
Proof.
  intros H Hd. unfold elpis_dnskey_signers. rewrite (ds_wants_pq_spec _ _ _ _ Hd). bind_step.
  destruct (decide _) as [Hw|Hw]; [rewrite bool_decide_eq_true_2 by done|by rewrite bool_decide_eq_false_2]. cbn [negb].
  rewrite (rh_count _ _ _ H), (rh_sigcount _ _ _ H). pose proof (rh_max _ _ _ H) as Hmax.
  pose proof (rh_len _ _ _ H) as HL. pose proof (rh_off _ _ _ H) as HO. pose proof (rh_used _ _ _ H) as Hu. pose proof (rh_data _ _ _ H) as HD.
  replace (Z.to_nat (zlen ks)) with (length ks) by zl. replace (Z.to_nat (zlen sgs)) with (length sgs) by zl.
  destruct (pq_loop_spec c (rs_data keys) (rs_used keys) ltac:(lia) 4 3 ks ltac:(lia) 0 0 (rs_off keys) (rs_len keys))
    as (off1 & len1 & Hp & L1 & L2 & Hk & Hs); [congruence|lia|..].
  { intros j r Hj. apply (rh_rec _ _ _ H). by apply lookup_app_l_Some. }
  change (Z.of_nat 0) with 0 in Hp. rewrite Hp, Z.add_0_l. clear Hp. bind_step. set (kept := filter (pq_rec c 4 3) ks) in *.
  pose proof (length_filter (pq_rec c 4 3) ks) as Hle. fold kept in Hle.
  replace (zlen ks) with (Z.of_nat (length ks)) by zl. replace (zlen kept) with (Z.of_nat (length kept)) by zl.
  destruct (gap_loop_spec (rs_data keys) (rs_used keys) sgs (length ks) (length kept) off1 len1)
    as (off2 & len2 & -> & L3 & L4 & Hg & Hs2); [congruence|lia|..].
  { intros j r Hj. apply (idx_rec_same _ _ (rs_off keys) (rs_len keys)); [apply Hs; lia|].
    apply (rh_rec _ _ _ H). rewrite lookup_app_r by lia. by replace (length ks + j - length ks)%nat with j by lia. }
  bind_step. rewrite u8_id by (unfold byte, ELPIS_RRSET_MAX_RR in *; zl).
  exists off2, len2. split; [done|]. pose proof (rh_bytes _ _ _ H) as Hb. apply Forall_app in Hb as [Hb1 Hb2].
  eapply rrset_index_holds; [done|congruence|congruence|zl|done|zl|..].
  - apply Forall_app. split; [|done]. by apply Forall_filter.
  - intros j r Hj. apply lookup_app_Some in Hj as [Hj|[Hge Hj]].
    + apply lookup_lt_Some in Hj as Hlt. apply (idx_rec_same _ _ off1 len1); [apply Hs2; lia|]. by apply (Hk j).
    + replace j with (length kept + (j - length kept))%nat by lia. by apply Hg.
Qed.

Lemma sigs_pq_only_spec c set rs sgs : rrset_holds set rs sgs →
  ∃ set', sigs_pq_only c set = Ok set' ∧ rrset_holds set' rs (filter (pq_rec c 3 2) sgs) ∧ rs_name set' = rs_name set ∧
    rs_type set' = rs_type set ∧ rs_klass set' = rs_klass set.
Proof.
  intros H. unfold sigs_pq_only. rewrite (rh_count _ _ _ H), (rh_sigcount _ _ _ H). pose proof (rh_max _ _ _ H) as Hmax.
  pose proof (rh_len _ _ _ H) as HL. pose proof (rh_off _ _ _ H) as HO. pose proof (rh_used _ _ _ H) as Hu. pose proof (rh_data _ _ _ H) as HD.
  replace (Z.to_nat (zlen sgs)) with (length sgs) by zl. replace (zlen rs) with (Z.of_nat (length rs)) by zl.
  destruct (pq_loop_spec c (rs_data set) (rs_used set) ltac:(lia) 3 2 sgs ltac:(lia) (length rs) (length rs) (rs_off set) (rs_len set))
    as (off1 & len1 & -> & L1 & L2 & Hk & Hs); [congruence|lia|..].
  { intros j r Hj. apply (rh_rec _ _ _ H). rewrite lookup_app_r by lia. by replace (length rs + j - length rs)%nat with j by lia. }
  bind_step. eexists. split; [done|]. split; [|done]. set (kept := filter (pq_rec c 3 2) sgs) in *.
  pose proof (length_filter (pq_rec c 3 2) sgs) as Hle. fold kept in Hle. pose proof (rh_bytes _ _ _ H) as Hb. apply Forall_app in Hb as [Hb1 Hb2].
  eapply rrset_index_holds; [done|congruence|congruence|zl|rewrite u8_id; unfold byte, ELPIS_RRSET_MAX_RR in *; zl|zl|..].
  - apply Forall_app. split; [done|]. by apply Forall_filter.
  - intros j r Hj. apply lookup_app_Some in Hj as [Hj|[Hge Hj]].
    + apply lookup_lt_Some in Hj as Hlt. apply (idx_rec_same _ _ (rs_off set) (rs_len set)); [apply Hs; lia|].
      apply (rh_rec _ _ _ H). by apply lookup_app_l_Some.
    + replace j with (length rs + (j - length rs))%nat by lia. by apply Hk.
Qed.

(** ** Properties *)

(** C16. A DS record matches a key exactly when it is the DS record RFC 4034 makes
    of that key at that owner, whatever its letter case, with one of the three
    digest types; the test is total and reads nothing outside the two records. *)
Theorem ds_matches_exact (owner : list (list Z)) (dnskey ds : list Z) :
  labels_ok owner → bytes dnskey → zlen dnskey < 2 ^ 16 → bytes ds →
  ∃ r, elpis_ds_matches (name_of owner) dnskey ds = Ok r ∧
    (r = true ↔ 4 <= zlen dnskey ∧ ∃ dt, dt ∈ ds_types ∧ ds = ds_record owner dnskey dt).
Proof.
  intros Ho Hk Hl Hd. eexists. split; [by apply ds_matches_spec|]. rewrite bool_decide_eq_true, Exists_exists.
  split; intros (? & dt & Hdt & ?); (split; [done|]); exists dt; (split; [by apply list_elem_of_In|done]).
Qed.

Lemma ds_matches_exact_witness :
  let owner := [[69; 120]] in let key := [1; 1; 3; 13; 7; 7; 7] in let ds := ds_record owner key 2 in
  ∃ r, elpis_ds_matches (name_of owner) key ds = Ok r ∧
    (r = true ↔ 4 <= zlen key ∧ ∃ dt, dt ∈ ds_types ∧ ds = ds_record owner key dt).
Proof. intros owner key ds. apply (ds_matches_exact owner key ds); by_compute. Defined.

(** The trimming to post-quantum keys and signatures, in place in the index
    arrays, keeps exactly the records that name such an algorithm, in their
    order, leaves the other half of the set alone, and happens exactly when the
    DS set asks for it. *)
Theorem pq_trim_exact (c : sec_conf_t) (keys ds : elpis_rrset_buf_t) (ks sgs dss dgs : list (list Z)) :
  rrset_holds keys ks sgs → rrset_holds ds dss dgs →
  (∃ keys', elpis_dnskey_signers c keys ds = Ok (bool_decide (wants_pq c ds dss), keys') ∧
     rrset_holds keys' (if decide (wants_pq c ds dss) then filter (pq_rec c 4 3) ks else ks) sgs) ∧
  (∃ keys', sigs_pq_only c keys = Ok keys' ∧ rrset_holds keys' ks (filter (pq_rec c 3 2) sgs)).
Proof.
  intros Hk Hd. split.
  - pose proof (dnskey_signers_spec c keys ds ks sgs dss dgs Hk Hd) as H.
    destruct (decide (wants_pq c ds dss)) as [Hw|Hw]; [rewrite bool_decide_eq_true_2 by done|rewrite bool_decide_eq_false_2 by done].
    + destruct H as (off & len & -> & Hh). by eexists.
    + rewrite H. by eexists.
  - destruct (sigs_pq_only_spec c keys ks sgs Hk) as (k' & -> & Hh & _). by exists k'.
Qed.

Lemma pq_trim_exact_witness :
  let c := mkSecConf true 18 25 26 0 in
  let ks := [[1; 0; 3; 13; 9]; [1; 0; 3; 18; 9]] in let sgs := [[0; 48; 13]; [0; 48; 18]] in let dss := [[0; 1; 18; 2; 5]] in
  let keys := rrset_of elpis_name_root 48 1 60 0 ks sgs in let ds := rrset_of elpis_name_root 43 1 60 0 dss [] in
  (∃ keys', elpis_dnskey_signers c keys ds = Ok (bool_decide (wants_pq c ds dss), keys') ∧
     rrset_holds keys' (if decide (wants_pq c ds dss) then filter (pq_rec c 4 3) ks else ks) sgs) ∧
  (∃ keys', sigs_pq_only c keys = Ok keys' ∧ rrset_holds keys' ks (filter (pq_rec c 3 2) sgs)).
Proof.
  intros c ks sgs dss keys ds.
  apply (pq_trim_exact c keys ds ks sgs dss []); apply rrset_of_holds; by_compute.
Defined.
