(* ===== verification/Rrsig.v ===== *)
(** Signatures: the canonical RRset, the signed data and its verification, of
    src/dnssec/dnssec.c (lines 256 to 578).

    The public-key algorithms, in other files of src/crypto/, are operations of
    the class [SigPrims]; what this file shows of a signature is which octets
    they are asked about.  Two counters of the thread, [g_verifies] and
    [*g_val_spent], are state passed along. *)
From stdpp Require Import base list numbers.
From Stdlib Require Import ZArith Lia.
From stdpp Require Import sorting.
From S2P Require Import Prelude Bytes Simd Name NameOps NameOrder Rdesc Rnames Mdhash Sha1 Sha2 Rrset Dnskey.

(** ** The public-key operations *)

Definition ELPIS_MLDSA_44 : Z := 44.
Definition ELPIS_MLDSA_65 : Z := 65.
Definition ELPIS_MLDSA_87 : Z := 87.
Definition ELPIS_CURVE_P256 : Z := 1.
Definition ELPIS_CURVE_P384 : Z := 2.

Class SigPrims := {
  elpis_mldsa_verify : Z → list Z → list Z → list Z → bool;      (* level, key, data, signature *)
  elpis_ed25519_verify : list Z → list Z → list Z → bool;        (* key, data, signature *)
  elpis_rsa_verify : list Z → list Z → list Z → Z → bool;        (* key, signature, digest, hash *)
  elpis_ecdsa_verify : Z → list Z → list Z → list Z → bool }.    (* curve, key, signature, digest *)

(** ** Canonical RRset serialisation *)

Definition SIGNBUF_MAX : Z := 512 * 1024.

Definition rd_cmp (a b : list Z) : res Z := memcmp_then_len a (zlen a) b (zlen b).

(** [while (j > 0 && rd_cmp(&v[j - 1], &t) > 0)], then [v[j] = t]. *)
Fixpoint rd_shift (j : nat) (t : list Z) (v : list (list Z)) : res (list (list Z)) :=
  match j with
  | O => wr v 0 t
  | S k =>
    x ← rd v (Z.of_nat k);
    c ← rd_cmp x t;
    if 0 <? c then v ← wr v (Z.of_nat j) x; rd_shift k t v else wr v (Z.of_nat j) t
  end.

(** The outer loop, [k] turns from [i]. *)
Fixpoint rd_sort_loop (k i : nat) (v : list (list Z)) : res (list (list Z)) :=
  match k with
  | O => Ok v
  | S k => t ← rd v (Z.of_nat i); v ← rd_shift i t v; rd_sort_loop k (S i) v
  end.
Definition rd_sort (v : list (list Z)) : res (list (list Z)) := rd_sort_loop (length v - 1) 1 v.

(** The name that was signed, or [None] where the label count makes none. *)
Definition signed_name (owner : elpis_name_t) (labels : Z) : res (option elpis_name_t) :=
  canon ← elpis_name_lower owner;
  if labels <? n_labels canon then
    suffix ← try (elpis_name_suffix canon labels);
    match suffix with
    | None => Ok None
    | Some suffix => try (elpis_name_prepend [42] 1 suffix)
    end
  else if n_labels canon <? labels then Ok None
  else Ok (Some canon).

(** The loop over the sorted records; [prev] is [items[i - 1]], [out] the octets
    written so far.  [None] when the buffer is full. *)
Fixpoint emit_loop (canon : elpis_name_t) (type klass orig_ttl cap : Z) (prev : option (list Z)) (items : list (list Z))
    (out : list Z) : res (option (list Z)) :=
  match items with
  | [] => Ok (Some out)
  | r :: items =>
    dup ← (match prev with Some p => c ← rd_cmp p r; Ok (c =? 0) | None => Ok false end);
    if (dup : bool) then emit_loop canon type klass orig_ttl cap (Some r) items out
    else if cap <? zlen out + (n_len canon + 10 + zlen r) then Ok None
    else
      name ← rds (n_d canon) 0 (n_len canon);
      emit_loop canon type klass orig_ttl cap (Some r) items
        (out ++ name ++ put16_bytes type ++ put16_bytes klass ++ put32_bytes orig_ttl ++ put16_bytes (zlen r) ++ r)
  end.

(** The octets signed; [] for the code's 0. *)
Definition build_signed_data (owner : elpis_name_t) (type klass : Z) (rds_ : list (list Z)) (sig : list Z)
    (signer_len cap : Z) : res (list Z) :=
  if zlen sig <? 18 + signer_len then Ok []
  else if cap <? 18 + signer_len then Ok []
  else
    out ← rds sig 0 (18 + signer_len);
    raw ← rds sig 18 signer_len;
    sn ← try (elpis_name_parse_nocomp raw signer_len);
    match sn with
    | None => Ok []
    | Some (sn, _) =>
      sn ← elpis_name_lower sn;
      name ← rds (n_d sn) 0 (n_len sn);
      out ← blit out 18 name;
      orig_ttl ← elpis_get32 sig 4;
      labels ← rd sig 3;
      canon ← signed_name owner labels;
      match canon with
      | None => Ok []
      | Some canon =>
        items ← rd_sort (take (Z.to_nat ELPIS_RRSET_MAX_RR) rds_);
        r ← emit_loop canon type klass orig_ttl cap None items out;
        Ok (default [] r)
      end
    end.

(** ** Verification *)

Record counters := mkCounters { g_verifies : Z; g_val_spent : option Z }.

Definition elpis_dnssec_take_verifies (s : counters) : Z * counters := (g_verifies s, mkCounters 0 (g_val_spent s)).

Definition VAL_MAX_VERIFIES : Z := 64.

Definition ELPIS_EDE_UNSUPPORTED_DNSKEY : Z := 1.
Definition ELPIS_EDE_DNSSEC_BOGUS : Z := 6.
Definition ELPIS_EDE_SIGNATURE_EXPIRED : Z := 7.
Definition ELPIS_EDE_SIGNATURE_NOT_YET : Z := 8.
Definition ELPIS_EDE_NO_ZONE_KEY_BIT : Z := 11.
Definition ELPIS_DNSKEY_ZONE : Z := 0x0100.
Definition ELPIS_DNSKEY_REVOKE : Z := 0x0080.

(** [( *g_val_spent)++; g_verifies++;], or [None] when the budget is spent. *)
Definition spend (s : counters) : option counters :=
  match g_val_spent s with
  | None => Some (mkCounters (u64 (g_verifies s + 1)) None)
  | Some n =>
    if VAL_MAX_VERIFIES <=? n then None
    else Some (mkCounters (u64 (g_verifies s + 1)) (Some (u32 (n + 1))))
  end.

(** [if (ede) *ede = v;]: [None] is the null pointer. *)
Definition set_ede (ede : option Z) (v : Z) : option Z := match ede with None => None | Some _ => Some v end.

Section Verify.
Context `{SigPrims} (conf : sec_conf_t).

(** The algorithm's own check, after the budget. *)
Definition sig_checks (alg : Z) (key data sig : list Z) : res bool :=
  let halg := elpis_alg_hash conf alg in
  if alg =? alg_mldsa44 conf then Ok (elpis_mldsa_verify ELPIS_MLDSA_44 key data sig)
  else if alg =? alg_mldsa65 conf then Ok (elpis_mldsa_verify ELPIS_MLDSA_65 key data sig)
  else if alg =? alg_mldsa87 conf then Ok (elpis_mldsa_verify ELPIS_MLDSA_87 key data sig)
  else if alg =? ELPIS_ALG_ED25519 then
    if negb (zlen key =? 32) || negb (zlen sig =? 64) then Ok false
    else Ok (elpis_ed25519_verify key data sig)
  else if halg <=? 0 then Ok false
  else
    d ← try (elpis_hash halg data);
    match d with
    | None => Ok false
    | Some digest =>
      if (alg =? ELPIS_ALG_RSASHA1) || (alg =? ELPIS_ALG_RSASHA1_NSEC3_SHA1) || (alg =? ELPIS_ALG_RSASHA256)
        || (alg =? ELPIS_ALG_RSASHA512) then Ok (elpis_rsa_verify key sig digest halg)
      else if alg =? ELPIS_ALG_ECDSAP256SHA256 then Ok (elpis_ecdsa_verify ELPIS_CURVE_P256 key sig digest)
      else if alg =? ELPIS_ALG_ECDSAP384SHA384 then Ok (elpis_ecdsa_verify ELPIS_CURVE_P384 key sig digest)
      else Ok false
    end.

Definition verify_with_key (s : counters) (alg : Z) (key data sig : list Z) : res (bool * counters) :=
  match spend s with
  | None => Ok (false, s)
  | Some s => b ← sig_checks alg key data sig; Ok (b, s)
  end.

(** [(int32_t)x] and a sum of two [int32_t], which may not overflow. *)
Definition i32 (x : Z) : Z := (x + 2 ^ 31) mod 2 ^ 32 - 2 ^ 31.
Definition add32 (a b : Z) : res Z :=
  if (- 2 ^ 31 <=? a + b) && (a + b <? 2 ^ 31) then Ok (a + b) else Stuck SignedOverflow.

(** The signature window: [Some] EDE code when [now] is outside. *)
Definition sig_dates (expire incep now : Z) : res (option Z) :=
  let d_exp := i32 (u32 (u32 expire - u32 now)) in
  let d_inc := i32 (u32 (u32 now - u32 incep)) in
  e ← add32 d_exp (i32 (sig_skew conf));
  if e <? 0 then Ok (Some ELPIS_EDE_SIGNATURE_EXPIRED)
  else
    i ← add32 d_inc (i32 (sig_skew conf));
    if i <? 0 then Ok (Some ELPIS_EDE_SIGNATURE_NOT_YET) else Ok None.

(** [mem] says whether the signing buffer is there or can be allocated. *)
Definition elpis_rrsig_verify (mem : bool) (s : counters) (owner : elpis_name_t) (type klass : Z) (rds_ : list (list Z))
    (sig key : list Z) (now : Z) (ede : option Z) : res (elpis_rc_t * option Z * counters) :=
  if (zlen sig <? 19) || (zlen key <? 5) then Ok (ELPIS_ENOTFOUND, ede, s)
  else
    covered ← elpis_get16 sig 0;
    alg ← rd sig 2;
    expire ← elpis_get32 sig 8;
    incep ← elpis_get32 sig 12;
    keytag ← elpis_get16 sig 16;
    if negb (covered =? type) then Ok (ELPIS_ENOTFOUND, ede, s)
    else
      kalg ← rd key 3;
      if negb (alg =? kalg) then Ok (ELPIS_ENOTFOUND, ede, s)
      else
        tag ← elpis_dnskey_tag key;
        if negb (tag =? keytag) then Ok (ELPIS_ENOTFOUND, ede, s)
        else
          flags ← elpis_get16 key 0;
          if Z.land flags ELPIS_DNSKEY_ZONE =? 0 then Ok (ELPIS_ENOTFOUND, set_ede ede ELPIS_EDE_NO_ZONE_KEY_BIT, s)
          else if negb (Z.land flags ELPIS_DNSKEY_REVOKE =? 0) then Ok (ELPIS_ENOTFOUND, ede, s)
          else
            proto ← rd key 2;
            if negb (proto =? 3) then Ok (ELPIS_ENOTFOUND, ede, s)
            else if negb (elpis_alg_supported conf alg) then Ok (ELPIS_ENOTFOUND, set_ede ede ELPIS_EDE_UNSUPPORTED_DNSKEY, s)
            else
              signer ← try (elpis_name_parse_nocomp (drop 18 sig) (zlen sig - 18));
              match signer with
              | None => Ok (ELPIS_EBOGUS, ede, s)
              | Some (_, signer_len) =>
                out ← sig_dates expire incep now;
                match out with
                | Some e => Ok (ELPIS_EBOGUS, set_ede ede e, s)
                | None =>
                  if negb mem then Ok (ELPIS_ENOMEM, ede, s)
                  else
                    data ← build_signed_data owner type klass rds_ sig signer_len SIGNBUF_MAX;
                    if zlen data =? 0 then Ok (ELPIS_EBOGUS, ede, s)
                    else
                      '(ok, s) ← verify_with_key s alg (drop 4 key) data (drop (Z.to_nat (18 + signer_len)) sig);
                      if (ok : bool) then Ok (ELPIS_OK, ede, s)
                      else Ok (ELPIS_EBOGUS, set_ede ede ELPIS_EDE_DNSSEC_BOGUS, s)
                end
              end.
End Verify.

(** ** Specifications *)

Definition rd_le (x y : list Z) : Prop := octets_cmp x y <= 0.
Definition rd_lt (x y : list Z) : Prop := octets_cmp x y < 0.

(** The canonical form of a set of records, RFC 4034 section 6.3: in strictly
    ascending order, so without duplicates. *)
Definition canonical (rs cs : list (list Z)) : Prop := StronglySorted rd_lt cs ∧ ∀ r, r ∈ cs ↔ r ∈ rs.

(** The labels signed: RFC 4035 section 5.3.2. *)
Definition signed_labels (owner : list (list Z)) (labels : Z) : option (list (list Z)) :=
  if labels <? zlen owner then Some ([42] :: drop (Z.to_nat (zlen owner - labels)) (fold_labels owner))
  else if zlen owner <? labels then None
  else Some (fold_labels owner).

(** One record as signed. *)
Definition signed_rr (nm : list (list Z)) (type klass ttl : Z) (r : list Z) : list Z :=
  wire nm ++ put16_bytes type ++ put16_bytes klass ++ put32_bytes ttl ++ put16_bytes (zlen r) ++ r.

(** RFC 4034 section 3.1.8.1: the RRSIG rdata without its signature, the signer
    in lower case, and the canonical records. *)
Definition signed_data (nm : list (list Z)) (type klass : Z) (cs : list (list Z)) (sig : list Z) (signer : list (list Z)) : list Z :=
  slice sig 0 18 ++ wire (fold_labels signer) ++
  concat (map (signed_rr nm type klass (oct32 sig 4)) cs).

(** ** Order *)

Lemma rd_cmp_spec a b : rd_cmp a b = Ok (octets_cmp a b).
Proof.
  unfold rd_cmp. pose proof (zlen_nonneg a). pose proof (zlen_nonneg b).
  rewrite memcmp_then_len_spec by lia. by rewrite !slice_0_all by lia.
Qed.

#[export] Instance rd_le_trans : Transitive rd_le.
Proof.
  intros x y z. unfold rd_le. intros H1 H2.
  destruct (decide (x = y)) as [->|Hxy]; [done|]. destruct (decide (y = z)) as [->|Hyz]; [done|].
  pose proof (proj1 (cmp_eq (cmp := octets_cmp) x y)). pose proof (proj1 (cmp_eq (cmp := octets_cmp) y z)).
  pose proof (cmp_trans (cmp := octets_cmp) x y z). assert (octets_cmp x y ≠ 0) by auto. assert (octets_cmp y z ≠ 0) by auto. lia.
Qed.
#[export] Instance rd_lt_trans : Transitive rd_lt.
Proof. intros x y z. apply (cmp_trans (cmp := octets_cmp)). Qed.
Lemma rd_lt_irrefl x : ¬ rd_lt x x.
Proof. unfold rd_lt. rewrite (proj2 (cmp_eq (cmp := octets_cmp) x x) eq_refl). lia. Qed.
Lemma rd_lt_le x y : rd_lt x y ↔ rd_le x y ∧ x ≠ y.
Proof.
  unfold rd_lt, rd_le. rewrite <- (cmp_eq (cmp := octets_cmp) x y). lia.
Qed.

Lemma StronglySorted_snoc {A} (R : A → A → Prop) l x :
  StronglySorted R l → (∀ y, y ∈ l → R y x) → StronglySorted R (l ++ [x]).
Proof.
  induction 1 as [|y l Hs IH Hf]; intros Hx; cbn [app]; [by repeat constructor|].
  constructor; [apply IH; intros; apply Hx; by right|]. apply Forall_app. split; [done|].
  repeat constructor. apply Hx. by left.
Qed.

Lemma sorted_lt_unique cs : ∀ cs', StronglySorted rd_lt cs → StronglySorted rd_lt cs' →
  (∀ r, r ∈ cs ↔ r ∈ cs') → cs = cs'.
Proof.
  induction cs as [|x cs IH]; intros [|y cs'] Hc Hc' Heq; [done|..].
  - destruct (not_elem_of_nil y). apply Heq. by left.
  - destruct (not_elem_of_nil x). apply Heq. by left.
  - apply StronglySorted_inv in Hc as [Hc Hx], Hc' as [Hc' Hy].
    assert (x = y) as ->.
    { assert (x ∈ y :: cs') as [->|Hxc]%elem_of_cons by (apply Heq; by left); [done|].
      assert (y ∈ x :: cs) as [->|Hyc]%elem_of_cons by (apply Heq; by left); [done|].
      destruct (rd_lt_irrefl x). transitivity y; [by apply (Forall_elem (rd_lt x) cs)|by apply (Forall_elem (rd_lt y) cs')]. }
    f_equal. apply IH; [done|done|]. intros r. split; intros Hr.
    + assert (r ∈ y :: cs') as [->|]%elem_of_cons by (apply Heq; by right); [|done]. destruct (rd_lt_irrefl y). by apply (Forall_elem (rd_lt y) cs).
    + assert (r ∈ y :: cs) as [->|]%elem_of_cons by (apply Heq; by right); [|done]. destruct (rd_lt_irrefl y). by apply (Forall_elem (rd_lt y) cs').
Qed.

Lemma canonical_unique rs cs cs' : canonical rs cs → canonical rs cs' → cs = cs'.
Proof. intros [H1 H2] [H3 H4]. apply sorted_lt_unique; [done|done|]. intros r. by rewrite H2, H4. Qed.

(** ** The insertion sort *)

Lemma rd_middle {A} (l : list A) x k : rd (l ++ x :: k) (zlen l) = Ok x.
Proof. apply rd_lookup; [apply zlen_nonneg|]. unfold zlen. rewrite Nat2Z.id. by apply list_lookup_middle. Qed.
Lemma wr_middle {A} (l : list A) x y k : wr (l ++ x :: k) (zlen l) y = Ok (l ++ y :: k).
Proof.
  pose proof (zlen_nonneg l). pose proof (zlen_nonneg k). rewrite wr_in_range by (rewrite zlen_app, zlen_cons; lia).
  f_equal. unfold zlen. rewrite Nat2Z.id. rewrite <- (Nat.add_0_r (length l)), insert_app_r. done.
Qed.

Lemma rd_shift_spec t pre : ∀ h post, ∃ out, rd_shift (length pre) t (pre ++ h :: post) = Ok (out ++ post) ∧
  out ≡ₚ t :: pre ∧ (StronglySorted rd_le pre → StronglySorted rd_le out).
Proof.
  induction pre as [|x pre IH] using rev_ind; intros h post.
  - exists [t]. cbn [length rd_shift app]. rewrite (wr_middle [] h t post : wr (h :: post) 0 t = _). split_and!; [done|done|by repeat constructor].
  - rewrite length_app, Nat.add_1_r. cbn [rd_shift]. rewrite <- app_assoc. cbn [app]. fold (zlen pre). rewrite rd_middle. bind_step.
    rewrite rd_cmp_spec. bind_step.
    replace (Z.of_nat (S (length pre))) with (zlen (pre ++ [x])) by (unfold zlen; rewrite length_app; cbn; lia).
    change (pre ++ x :: h :: post) with (pre ++ [x] ++ h :: post). rewrite app_assoc.
    destruct (Z.ltb_spec 0 (octets_cmp x t)) as [Hgt|Hle]; rewrite wr_middle; bind_step.
    + rewrite <- app_assoc. cbn [app]. destruct (IH x (x :: post)) as (out & -> & Hp & Hs). exists (out ++ [x]).
      rewrite <- app_assoc. split; [done|]. split; [rewrite Hp; done|]. intros Hso.
      apply StronglySorted_snoc; [apply Hs; by eapply StronglySorted_app_1_l|]. intros y Hy. rewrite Hp in Hy.
      apply elem_of_cons in Hy as [->|Hy]; [unfold rd_le; rewrite (cmp_opp (cmp := octets_cmp)); lia|].
      eapply StronglySorted_app_1_elem_of; [done|done|by left].
    + exists ((pre ++ [x]) ++ [t]). rewrite <- !app_assoc. split; [done|]. split; [by rewrite app_assoc, (Permutation_app_comm (pre ++ [x]))|].
      rewrite app_assoc. intros Hso. apply StronglySorted_snoc; [done|]. intros y [Hy|Hy]%elem_of_app.
      * transitivity x; [|done]. eapply StronglySorted_app_1_elem_of; [done|done|by left].
      * apply list_elem_of_singleton in Hy as ->. done.
Qed.

Lemma rd_sort_loop_spec rest : ∀ pre, StronglySorted rd_le pre →
  ∃ out, rd_sort_loop (length rest) (length pre) (pre ++ rest) = Ok out ∧ out ≡ₚ pre ++ rest ∧ StronglySorted rd_le out.
Proof.
  induction rest as [|t rest IH]; intros pre Hs; cbn [length rd_sort_loop].
  - exists pre. by rewrite app_nil_r.
  - fold (zlen pre). rewrite rd_middle. bind_step. destruct (rd_shift_spec t pre t rest) as (out & -> & Hp & Ho). bind_step.
    assert (length out = S (length pre)) as Hl by (by rewrite Hp). rewrite <- Hl.
    destruct (IH out (Ho Hs)) as (o & -> & Hpo & Hso). exists o. split; [done|]. split; [|done].
    rewrite Hpo, Hp. apply Permutation_middle.
Qed.

Lemma rd_sort_spec v : ∃ out, rd_sort v = Ok out ∧ out ≡ₚ v ∧ StronglySorted rd_le out.
Proof.
  unfold rd_sort. destruct v as [|x v]; [exists []; by repeat constructor|]. cbn [length].
  replace (S (length v) - 1)%nat with (length v) by lia. apply (rd_sort_loop_spec v [x]). by repeat constructor.
Qed.

(** ** Duplicates *)

Fixpoint undup (prev : option (list Z)) (items : list (list Z)) : list (list Z) :=
  match items with
  | [] => []
  | r :: items => if decide (prev = Some r) then undup (Some r) items else r :: undup (Some r) items
  end.

Lemma undup_elem items : ∀ prev r, r ∈ undup prev items → r ∈ items.
Proof.
  induction items as [|x items IH]; intros prev r Hr; [done|]. cbn [undup] in Hr. case_decide; [right; by eapply IH|].
  apply elem_of_cons in Hr as [->|Hr]; [by left|right; by eapply IH].
Qed.

Lemma elem_undup items : ∀ prev r, r ∈ items → prev = Some r ∨ r ∈ undup prev items.
Proof.
  induction items as [|x items IH]; intros prev r Hr; [by apply not_elem_of_nil in Hr|]. cbn [undup].
  apply elem_of_cons in Hr as [->|Hr]; [case_decide; [by left|right; by left]|].
  destruct (IH (Some x) r Hr) as [[= ->]|Hi]; case_decide; try (by left); right; try done; [by left|by right].
Qed.

Lemma undup_sorted items : ∀ prev, StronglySorted rd_le items → (∀ p, prev = Some p → Forall (rd_le p) items) →
  StronglySorted rd_lt (undup prev items) ∧ (∀ p, prev = Some p → Forall (rd_lt p) (undup prev items)).
Proof.
  induction items as [|x items IH]; intros prev Hs Hp; cbn [undup]; [by repeat constructor|].
  apply StronglySorted_inv in Hs as [Hs Hx]. destruct (IH (Some x) Hs) as [H1 H2]; [by intros ? [= <-]|].
  specialize (H2 x eq_refl). case_decide as Hd; [subst; split; [done|by intros ? [= <-]]|].
  split; [by constructor|]. intros p ->. specialize (Hp p eq_refl). apply Forall_cons_1 in Hp as [Hpx Hpi].
  assert (rd_lt p x) as Hlt by (apply rd_lt_le; split; [done|congruence]).
  constructor; [done|]. eapply (Forall_impl _ _ _ H2). intros y Hy. by transitivity x.
Qed.

Lemma undup_canonical v out : out ≡ₚ v → StronglySorted rd_le out → canonical v (undup None out).
Proof.
  intros Hp Hs. destruct (undup_sorted out None Hs) as [Hu _]; [done|]. split; [done|]. intros r. rewrite <- Hp. split.
  - apply undup_elem.
  - intros Hr. by destruct (elem_undup out None r Hr).
Qed.

(** ** Emission *)

Definition rrs_octets (nm : list (list Z)) (type klass ttl : Z) (cs : list (list Z)) : list Z :=
  concat (map (signed_rr nm type klass ttl) cs).

Lemma zlen_signed_rr nm type klass ttl r : zlen (signed_rr nm type klass ttl r) = zlen (wire nm) + 10 + zlen r.
Proof. unfold signed_rr. rewrite !zlen_app, !zlen_put16, zlen_put32. lia. Qed.

Lemma emit_loop_spec nm type klass ttl cap items : ∀ prev out, zlen out <= cap →
  let all := out ++ rrs_octets nm type klass ttl (undup prev items) in
  emit_loop (name_of nm) type klass ttl cap prev items out = Ok (if zlen all <=? cap then Some all else None).
Proof.
  induction items as [|r items IH]; intros prev out Hout; cbn [emit_loop undup].
  { unfold rrs_octets. cbn [map concat]. rewrite app_nil_r. by assert ((zlen out <=? cap) = true) as -> by lia. }
  assert ((match prev with Some p => c ← rd_cmp p r; Ok (c =? 0) | None => Ok false end) = Ok (bool_decide (prev = Some r))) as ->.
  { destruct prev as [p|]; [|done]. rewrite rd_cmp_spec. bind_step. f_equal. apply eq_true_iff_eq.
    rewrite Z.eqb_eq, bool_decide_eq_true, (cmp_eq (cmp := octets_cmp)). naive_solver. }
  bind_step. destruct (decide (prev = Some r)) as [Hd|Hd];
    [rewrite bool_decide_eq_true_2 by done; by apply IH|rewrite bool_decide_eq_false_2 by done].
  rewrite n_len_of, n_d_of. set (rest := undup (Some r) items). pose proof (zlen_nonneg (rrs_octets nm type klass ttl rest)) as Hr.
  assert (rrs_octets nm type klass ttl (r :: rest) = signed_rr nm type klass ttl r ++ rrs_octets nm type klass ttl rest) as -> by done.
  cbn zeta. rewrite (app_assoc out (signed_rr nm type klass ttl r)). destruct (Z.ltb_spec cap (zlen out + (zlen (wire nm) + 10 + zlen r))) as [Hno|Hfit].
  - destruct (Z.leb_spec (zlen ((out ++ signed_rr nm type klass ttl r) ++ rrs_octets nm type klass ttl rest)) cap)
      as [Hle|]; [|done]. rewrite !zlen_app, zlen_signed_rr in Hle. lia.
  - rewrite (rds_full (wire nm)) by done. bind_step. fold (signed_rr nm type klass ttl r). apply IH. rewrite zlen_app, zlen_signed_rr. lia.
Qed.

(** ** The signed data *)

(** A wildcard in the place of one label or more. *)
Lemma star_ok owner labels : labels_ok owner → 0 <= labels < zlen owner →
  labels_ok ([42] :: drop (Z.to_nat (zlen owner - labels)) owner).
Proof.
  intros Ho Hl. set (k := Z.to_nat (zlen owner - labels)). destruct (labels_ok_drop k _ Ho) as [Hd _].
  split; [constructor; [|done]; by split; [|repeat constructor]|].
  rewrite zlen_wire_cons, zlen_wire_drop. destruct Ho as [Hf Hw].
  pose proof (labels_bound (take k owner) (Forall_take _ _ _ Hf)) as Hb. rewrite zlen_take in Hb. unfold zlen in *. cbn [length]. lia.
Qed.

Lemma signed_labels_ok owner labels nm : labels_ok owner → 0 <= labels → signed_labels owner labels = Some nm → labels_ok nm.
Proof.
  intros Ho Hl. apply labels_ok_fold in Ho as Hf. unfold signed_labels. destruct (Z.ltb_spec labels (zlen owner)) as [Hlt|].
  2:{ destruct (zlen owner <? labels); [done|]. by intros [= <-]. }
  intros [= <-]. assert (zlen (fold_labels owner) = zlen owner) as E by (unfold zlen; by rewrite length_fold_labels).
  rewrite <- E. apply star_ok; [done|lia].
Qed.

Lemma signed_name_spec owner labels : labels_ok owner → 0 <= labels →
  signed_name (name_of owner) labels = Ok (name_of <$> signed_labels owner labels).
Proof.
  intros Ho Hl. unfold signed_name. rewrite name_lower_spec by done. bind_step. rewrite n_labels_of.
  assert (zlen (fold_labels owner) = zlen owner) as -> by (unfold zlen; by rewrite length_fold_labels).
  pose proof (signed_labels_ok owner labels) as Hok. unfold signed_labels in *.
  destruct (Z.ltb_spec labels (zlen owner)) as [Hlt|]; [|by destruct (zlen owner <? labels)].
  specialize (Hok _ Ho Hl eq_refl). rewrite name_suffix_spec by (done || by apply labels_ok_fold). cbn [try]. bind_step.
  rewrite length_fold_labels. replace (length owner - Z.to_nat labels)%nat with (Z.to_nat (zlen owner - labels)) by zl.
  change 1 with (zlen [42]). rewrite name_prepend_spec; [|by apply labels_ok_drop, labels_ok_fold|by repeat constructor].
  by rewrite decide_True.
Qed.

(** The rdata of an RRSIG: fixed part, signer, signature. *)
Definition rrsig_form (sig : list Z) (signer : list (list Z)) (rest : list Z) : Prop :=
  labels_ok signer ∧ zlen (slice sig 0 18) = 18 ∧ sig = slice sig 0 18 ++ wire signer ++ rest.

Lemma build_signed_data_spec owner type klass rs sig signer rest cap cs :
  labels_ok owner → bytes sig → rrsig_form sig signer rest → 18 + zlen (wire signer) <= cap →
  canonical (take 96 rs) cs →
  build_signed_data (name_of owner) type klass rs sig (zlen (wire signer)) cap
    = Ok (match signed_labels owner (octet sig 3) with
          | None => []
          | Some nm => let d := signed_data nm type klass cs sig signer in if zlen d <=? cap then d else []
          end).
Proof.
  intros Ho Hb (Hs & Hl & Hsig) Hcap Hcs. unfold build_signed_data. pose proof (zlen_nonneg (wire signer)). pose proof (zlen_nonneg rest).
  assert (zlen sig = 18 + zlen (wire signer) + zlen rest) as Hz by (rewrite Hsig at 1; rewrite !zlen_app; lia).
  assert ((zlen sig <? 18 + zlen (wire signer)) = false) as -> by lia. assert ((cap <? 18 + zlen (wire signer)) = false) as -> by lia.
  rewrite !rds_in_range by lia. bind_step.
  assert (slice sig 18 (zlen (wire signer)) = wire signer) as Hraw.
  { rewrite Hsig. rewrite slice_app_r by lia. rewrite Hl. apply slice_0_app. }
  rewrite Hraw. rewrite (name_parse_nocomp_complete _ _ signer); [|by apply bytes_wire, Hs|lia|done|split; [lia|by apply slice_0_all]].
  cbn [try]. bind_step. rewrite name_lower_spec by done. bind_step. rewrite n_len_of, n_d_of, (rds_full (wire _)) by done. bind_step.
  assert (slice sig 0 (18 + zlen (wire signer)) = slice sig 0 18 ++ wire signer) as ->.
  { rewrite slice_split by lia. by rewrite Z.add_0_l, Hraw. }
  rewrite blit_in_range by (rewrite ?zlen_app, ?zlen_wire_fold; lia). bind_step.
  assert (splice (slice sig 0 18 ++ wire signer) 18 (wire (fold_labels signer)) = slice sig 0 18 ++ wire (fold_labels signer)) as ->.
  { rewrite <- Hl at 2. rewrite <- (app_nil_r (wire signer)) at 1. rewrite splice_app by (by rewrite zlen_wire_fold). by rewrite app_nil_r. }
  rewrite get32_oct by (done || lia). bind_step. rewrite rd_octet by lia. bind_step.
  rewrite signed_name_spec by (done || apply octet_byte, Hb). bind_step.
  pose proof (signed_labels_ok owner (octet sig 3)) as Hnm. destruct (signed_labels owner (octet sig 3)) as [nm|]; [|done].
  cbn [fmap option_fmap option_map]. change (Z.to_nat ELPIS_RRSET_MAX_RR) with 96%nat.
  destruct (rd_sort_spec (take 96 rs)) as (out & -> & Hp & Hso). bind_step.
  rewrite (canonical_unique _ _ _ Hcs (undup_canonical _ _ Hp Hso)).
  rewrite emit_loop_spec by (rewrite zlen_app, zlen_wire_fold; lia). bind_step. cbn zeta.
  unfold signed_data. fold (rrs_octets nm type klass (oct32 sig 4) (undup None out)). rewrite <- app_assoc. by destruct (_ <=? _).
Qed.

(** ** The parts of an RRSIG *)

Lemma rrsig_form_spelled sig signer rest : 18 <= zlen sig →
  rrsig_form sig signer rest ↔
  labels_ok signer ∧ spelled (drop 18 sig) (zlen sig - 18) 0 signer ∧ rest = drop (Z.to_nat (18 + zlen (wire signer))) sig.
Proof.
  intros Hz. pose proof (zlen_nonneg (wire signer)). unfold rrsig_form, spelled. split.
  - intros (Hs & Hl & E). split; [done|]. assert (drop 18 sig = wire signer ++ rest) as Hd.
    { rewrite E at 1. rewrite drop_app_ge by zl. replace (18 - _)%nat with 0%nat by zl. by rewrite drop_0. }
    split; [split|].
    + assert (zlen sig = 18 + zlen (wire signer) + zlen rest) by (rewrite E at 1; rewrite !zlen_app; lia). pose proof (zlen_nonneg rest). lia.
    + rewrite Hd. apply slice_0_app.
    + replace (Z.to_nat (18 + zlen (wire signer))) with (18 + length (wire signer))%nat by zl.
      rewrite <- drop_drop, Hd. by rewrite drop_app_length.
  - intros (Hs & [Hl Hsl] & ->). split; [done|]. split; [by rewrite zlen_slice by lia|].
    replace (Z.to_nat (18 + zlen (wire signer))) with (18 + length (wire signer))%nat by zl. rewrite <- drop_drop.
    unfold slice in *. change (Z.to_nat 0) with 0%nat in *. rewrite drop_0 in *. change (Z.to_nat 18) with 18%nat.
    rewrite <- (take_drop 18 sig) at 1. f_equal. rewrite <- Hsl at 1. unfold zlen. rewrite Nat2Z.id. by rewrite take_drop.
Qed.

Lemma rrsig_form_det sig s1 r1 s2 r2 : rrsig_form sig s1 r1 → rrsig_form sig s2 r2 → s1 = s2 ∧ r1 = r2.
Proof.
  intros H1 H2. assert (18 <= zlen sig) as Hz.
  { destruct H1 as (_ & Hl & E). rewrite E, zlen_app. pose proof (zlen_nonneg (wire s1 ++ r1)). lia. }
  apply (rrsig_form_spelled _ _ _ Hz) in H1 as ([Hf1 _] & Hs1 & ->), H2 as ([Hf2 _] & Hs2 & ->).
  assert (s1 = s2) as ->; [|done]. eapply spelled_det; [..|exact Hs1|exact Hs2]; try done. rewrite zlen_drop. lia.
Qed.

Lemma signer_parse sig : bytes sig → 18 <= zlen sig →
  (∃ signer rest, rrsig_form sig signer rest ∧
     elpis_name_parse_nocomp (drop 18 sig) (zlen sig - 18) = Ok (name_of signer, zlen (wire signer))) ∨
  ((∃ rc d, elpis_name_parse_nocomp (drop 18 sig) (zlen sig - 18) = Err rc d) ∧ ∀ signer rest, ¬ rrsig_form sig signer rest).
Proof.
  intros Hb Hz. pose proof (name_parse_nocomp_spec (drop 18 sig) (zlen sig - 18) (Forall_drop _ _ _ Hb)) as H.
  specialize (H ltac:(rewrite zlen_drop; lia)). destruct (elpis_name_parse_nocomp _ _) as [[n e]|rc d|]; [left|right|done].
  - destruct H as (ls & Hs & Hok & -> & ->). eexists ls, _. split; [by apply rrsig_form_spelled|done].
  - split; [by eexists _, _|]. intros signer rest Hf. apply (rrsig_form_spelled _ _ _ Hz) in Hf as (Hok & Hs & _). by eapply H.
Qed.

(** ** Verification *)

Section Exact.
Context `{SigPrims} (conf : sec_conf_t).

Definition sig_applies (type : Z) (sig key : list Z) : Prop :=
  19 <= zlen sig ∧ 5 <= zlen key ∧ oct16 sig 0 = type ∧ octet sig 2 = octet key 3 ∧ key_tag key = oct16 sig 16 ∧
  Z.land (oct16 key 0) ELPIS_DNSKEY_ZONE ≠ 0 ∧ Z.land (oct16 key 0) ELPIS_DNSKEY_REVOKE = 0 ∧ octet key 2 = 3 ∧
  elpis_alg_supported conf (octet sig 2) = true.

#[export] Instance sig_applies_dec type sig key : Decision (sig_applies type sig key).
Proof. unfold sig_applies. apply _. Defined.

(** The signature over the set is one its algorithm accepts. *)
Definition sig_good (owner : list (list Z)) (type klass : Z) (rs : list (list Z)) (sig key : list Z) : Prop :=
  ∃ signer rest nm cs,
    rrsig_form sig signer rest ∧ signed_labels owner (octet sig 3) = Some nm ∧ canonical (take 96 rs) cs ∧
    zlen (signed_data nm type klass cs sig signer) <= SIGNBUF_MAX ∧
    sig_checks conf (octet sig 2) (drop 4 key) (signed_data nm type klass cs sig signer) rest = Ok true.

Lemma sig_checks_total alg key data sig : zlen data < 2 ^ 64 → ∃ b, sig_checks conf alg key data sig = Ok b.
Proof.
  intros Hd. unfold sig_checks. destruct (Z.leb_spec (elpis_alg_hash conf alg) 0); [repeat case_match; by eexists|].
  assert (1 <= elpis_alg_hash conf alg <= 4) as Hr.
  { split; [lia|]. unfold elpis_alg_hash. repeat case_match; unfold ELPIS_HASH_SHA1, ELPIS_HASH_SHA256, ELPIS_HASH_SHA384, ELPIS_HASH_SHA512; lia. }
  rewrite hash_once by done. cbn [try]. bind_step. repeat case_match; by eexists.
Qed.

Definition budget_step (s s' : counters) : Prop := s' = s ∨ spend s = Some s'.

Lemma verify_with_key_spec s alg key data sig b : sig_checks conf alg key data sig = Ok b →
  ∃ ok s', verify_with_key conf s alg key data sig = Ok (ok, s') ∧ budget_step s s' ∧
    (ok = true ↔ b = true ∧ is_Some (spend s)) ∧ (ok = true → spend s = Some s').
Proof.
  intros Hc. unfold verify_with_key. destruct (spend s) as [s'|] eqn:Hs.
  - rewrite Hc. bind_step. exists b, s'. split_and!; [done|by right| |done]. split; [intros ->; by eauto|tauto].
  - exists false, s. split_and!; [done|by left| |done]. split; [done|]. by intros [_ [? [=]]].
Qed.

Lemma rrsig_verify_skips mem s owner type klass rs sig key now ede :
  bytes sig → bytes key → zlen key < 2 ^ 16 → ¬ sig_applies type sig key →
  ∃ ede', elpis_rrsig_verify conf mem s owner type klass rs sig key now ede = Ok (ELPIS_ENOTFOUND, ede', s).
Proof.
  intros Hs Hk Hkl Hno. unfold elpis_rrsig_verify. destruct ((zlen sig <? 19) || (zlen key <? 5)) eqn:E; [by eexists|].
  apply orb_false_iff in E as [E1%Z.ltb_ge E2%Z.ltb_ge].
  rewrite !get16_oct, !get32_oct, !rd_octet, dnskey_tag_spec by (done || lia). bind_step.
  destruct (Z.eqb_spec (oct16 sig 0) type) as [Ht|]; [|by eexists]. cbn [negb].
  destruct (Z.eqb_spec (octet sig 2) (octet key 3)) as [Ha|]; [|by eexists]. cbn [negb].
  destruct (Z.eqb_spec (key_tag key) (oct16 sig 16)) as [Hg|]; [|by eexists]. cbn [negb].
  destruct (Z.eqb_spec (Z.land (oct16 key 0) ELPIS_DNSKEY_ZONE) 0) as [|Hz]; [by eexists|].
  destruct (Z.eqb_spec (Z.land (oct16 key 0) ELPIS_DNSKEY_REVOKE) 0) as [Hr|]; [|by eexists]. cbn [negb].
  destruct (Z.eqb_spec (octet key 2) 3) as [Hp|]; [|by eexists]. cbn [negb].
  destruct (elpis_alg_supported conf (octet sig 2)) eqn:Hal; [|by eexists]. cbn [negb].
  destruct Hno. unfold sig_applies. by split_and!.
Qed.

Lemma rrsig_verify_applies mem s owner type klass rs sig key now ede late :
  labels_ok owner → bytes sig → bytes key → zlen key < 2 ^ 16 → sig_applies type sig key →
  sig_dates conf (oct32 sig 8) (oct32 sig 12) now = Ok late →
  ∃ rc ede' s', elpis_rrsig_verify conf mem s (name_of owner) type klass rs sig key now ede = Ok (rc, ede', s') ∧
    budget_step s s' ∧
    (rc = ELPIS_OK ∨ rc = ELPIS_EBOGUS ∨ rc = ELPIS_ENOMEM ∧ mem = false ∧ s' = s) ∧
    (rc = ELPIS_OK ↔ late = None ∧ mem = true ∧ sig_good owner type klass rs sig key ∧ is_Some (spend s)) ∧
    (rc = ELPIS_OK → spend s = Some s').
Proof.
  intros Ho Hs Hk Hkl (H1 & H2 & H3 & H4 & H5 & H6 & H7 & H8 & H9) Hlate. unfold elpis_rrsig_verify.
  assert ((zlen sig <? 19) || (zlen key <? 5) = false) as -> by lia.
  rewrite !get16_oct, !get32_oct, !rd_octet, dnskey_tag_spec by (done || lia). bind_step.
  rewrite H3, H4, H5, H8, H7, !Z.eqb_refl. cbn [negb].
  apply Z.eqb_neq in H6. rewrite H6. rewrite <- H4, H9. cbn [negb Z.eqb Pos.eqb].
  destruct (signer_parse sig Hs ltac:(lia)) as [(signer & rest & Hf & ->)|[(rc & d & ->) Hno]]; cbn [try]; bind_step.
  2:{ eexists _, ede, s. split_and!; [done|by left|by right; left| |done]. split; [done|]. intros (_ & _ & Hg & _).
      destruct Hg as (signer & rest & _ & _ & Hf & _). by destruct (Hno signer rest). }
  rewrite Hlate. bind_step. destruct late as [e|].
  { eexists _, _, s. split_and!; [done|by left|by right; left| |done]. split; [done|]. by intros ([=] & _). }
  destruct mem; cbn [negb].
  2:{ eexists _, _, s. split_and!; [done|by left|by right; right| |done]. split; [done|]. by intros (_ & [=] & _). }
  destruct (rd_sort_spec (take 96 rs)) as (srt & _ & Hp & Hso). pose proof (undup_canonical _ _ Hp Hso) as Hcs.
  set (cs := undup None srt) in *. pose proof Hf as (Hok & _). pose proof (proj2 Hok).
  rewrite (build_signed_data_spec owner type klass rs sig signer rest SIGNBUF_MAX cs) by (done || (unfold SIGNBUF_MAX; lia)). bind_step.
  assert (∀ d', match signed_labels owner (octet sig 3) with
      | Some nm => let d := signed_data nm type klass cs sig signer in if zlen d <=? SIGNBUF_MAX then d else [] | None => [] end = d' →
    (sig_good owner type klass rs sig key ↔ zlen d' ≠ 0 ∧ sig_checks conf (octet sig 2) (drop 4 key) d' rest = Ok true) ∧ zlen d' <= SIGNBUF_MAX)
    as Hgood.
  { intros d' Hd. assert (0 <= zlen (@nil Z) <= SIGNBUF_MAX) as Hnil by (by vm_compute). split.
    - split.
      + intros (signer' & rest' & nm & cs' & Hf' & Hnm & Hcs' & Hfit & Hc). destruct (rrsig_form_det _ _ _ _ _ Hf Hf') as [<- <-].
        rewrite Hnm in Hd. rewrite (canonical_unique _ _ _ Hcs Hcs') in Hd. cbn zeta in Hd.
        assert ((zlen (signed_data nm type klass cs' sig signer) <=? SIGNBUF_MAX) = true) as E by lia. rewrite E in Hd. subst d'.
        split; [|done]. unfold signed_data. destruct Hf as (_ & Hl & _). rewrite zlen_app, Hl.
        pose proof (zlen_nonneg (wire (fold_labels signer) ++ concat (map (signed_rr nm type klass (oct32 sig 4)) cs'))). lia.
      + intros [Hne Hc]. destruct (signed_labels owner (octet sig 3)) as [nm|] eqn:Hnm; [|by subst d']. cbn zeta in Hd.
        destruct (Z.leb_spec (zlen (signed_data nm type klass cs sig signer)) SIGNBUF_MAX); [|by subst d']. subst d'.
        by exists signer, rest, nm, cs.
    - destruct (signed_labels owner (octet sig 3)) as [nm|]; [|subst d'; lia]. cbn zeta in Hd.
      destruct (Z.leb_spec (zlen (signed_data nm type klass cs sig signer)) SIGNBUF_MAX); subst d'; lia. }
  set (d' := match signed_labels owner (octet sig 3) with Some _ => _ | None => _ end) in *.
  destruct (Hgood d' eq_refl) as [Hiff Hlen]. clearbody d'. clear Hgood.
  destruct (Z.eqb_spec (zlen d') 0) as [Hz|Hz].
  { eexists _, _, s. split_and!; [done|by left|by right; left| |done]. split; [done|]. intros (_ & _ & Hg & _). by apply Hiff in Hg as [? _]. }
  destruct (sig_checks_total (octet sig 2) (drop 4 key) d' rest) as [b Hb]; [unfold SIGNBUF_MAX in *; lia|].
  assert (rest = drop (Z.to_nat (18 + zlen (wire signer))) sig) as Hrest by (apply (rrsig_form_spelled sig signer rest) in Hf; [tauto|lia]).
  rewrite <- Hrest. destruct (verify_with_key_spec s _ _ _ _ _ Hb) as (ok & s' & -> & Hst & Hokb & Hsp). bind_step.
  assert (sig_good owner type klass rs sig key ↔ b = true) as Hgb by (rewrite Hiff, Hb; split; [intros [_ ?]; congruence|by intros ->]).
  destruct ok; eexists _, _, s'; (split; [done|]); (split; [done|]).
  - split; [by left|]. split; [|by intros _; apply Hsp]. split; [intros _|done]. split_and!; tauto.
  - split; [by right; left|]. split; [|done]. split; [done|]. intros (_ & _ & Hg & Hbud). assert (false = true) by tauto. done.
Qed.
End Exact.

(** ** Dates *)

Lemma i32_diff a b : - 2 ^ 31 <= a - b < 2 ^ 31 → i32 (u32 (u32 a - u32 b)) = a - b.
Proof.
  intros Hd. unfold i32, u32. rewrite Zplus_mod_idemp_l.
  replace ((a mod 2 ^ 32 - b mod 2 ^ 32 + 2 ^ 31) mod 2 ^ 32) with ((a - b + 2 ^ 31) mod 2 ^ 32).
  - rewrite Z.mod_small by lia. lia.
  - rewrite <- (Zplus_mod_idemp_l (a - b)), (Zminus_mod a b), Zplus_mod_idemp_l. done.
Qed.

Lemma i32_small x : - 2 ^ 31 <= x < 2 ^ 31 → i32 x = x.
Proof. intros. unfold i32. rewrite Z.mod_small by lia. lia. Qed.

Lemma u32_u32 x : u32 (u32 x) = u32 x.
Proof. unfold u32. apply Zmod_mod. Qed.

(** ** Properties *)

(** C14. A signature is accepted exactly when it applies to the key (type, algorithm,
    tag, a zone key that is not revoked), its dates hold, the buffer and the
    budget are there, and its algorithm accepts it over the RFC 4034 signed data;
    it is no verdict at all exactly when it does not apply.  The call is total,
    memory safe, and does at most one public-key operation. *)
Theorem rrsig_verify_exact `{SigPrims} (conf : sec_conf_t) (mem : bool) (s : counters) (owner : list (list Z))
    (type klass : Z) (rs : list (list Z)) (sig key : list Z) (now : Z) (ede late : option Z) :
  labels_ok owner → bytes sig → bytes key → zlen key < 2 ^ 16 →
  sig_dates conf (oct32 sig 8) (oct32 sig 12) now = Ok late →
  ∃ rc ede' s', elpis_rrsig_verify conf mem s (name_of owner) type klass rs sig key now ede = Ok (rc, ede', s') ∧
    budget_step s s' ∧
    (rc = ELPIS_ENOTFOUND ↔ ¬ sig_applies conf type sig key) ∧
    (rc = ELPIS_OK ↔ sig_applies conf type sig key ∧ late = None ∧ mem = true ∧
       sig_good conf owner type klass rs sig key ∧ is_Some (spend s)) ∧
    (rc = ELPIS_OK → spend s = Some s').
Proof.
  intros Ho Hs Hk Hl Hd. destruct (decide (sig_applies conf type sig key)) as [Ha|Hna].
  - destruct (rrsig_verify_applies conf mem s owner type klass rs sig key now ede late) as (rc & ede' & s' & -> & Hb & Hrc & Hok & Hsp); [done..|].
    exists rc, ede', s'. split_and!; try done; [|tauto]. split; [intros ->|done]. destruct Hrc as [|[|[? _]]]; done.
  - destruct (rrsig_verify_skips conf mem s (name_of owner) type klass rs sig key now ede) as (ede' & ->); [done..|].
    exists ELPIS_ENOTFOUND, ede', s. split_and!; [done|by left|done| |done]. split; [done|]. by intros (? & _).
Qed.

Definition accept_all : SigPrims := {|
  elpis_mldsa_verify _ _ _ _ := true; elpis_ed25519_verify _ _ _ := true;
  elpis_rsa_verify _ _ _ _ := true; elpis_ecdsa_verify _ _ _ _ := true |}.

(** An Ed25519 key and an RRSIG over an A record that carries its tag. *)
Definition key_ex : list Z := [1; 0; 3; 15] ++ replicate 32 7.
Definition sig_ex (key : list Z) : list Z :=
  [0; 1; 15; 1; 0; 0; 0; 60; 0; 0; 2; 0; 0; 0; 1; 0] ++ put16_bytes (key_tag key) ++ wire [[120]] ++ replicate 64 1.

Lemma rrsig_verify_exact_witness :
  let conf := mkSecConf true 18 25 26 0 in let key := key_ex in let sig := sig_ex key in
  let s := mkCounters 0 (Some 0) in
  ∃ rc ede' s', @elpis_rrsig_verify accept_all conf true s (name_of [[88]]) 1 1 [[1; 2; 3; 4]] sig key 300 None = Ok (rc, ede', s') ∧
    budget_step s s' ∧
    (rc = ELPIS_ENOTFOUND ↔ ¬ sig_applies conf 1 sig key) ∧
    (rc = ELPIS_OK ↔ sig_applies conf 1 sig key ∧ @None Z = None ∧ true = true ∧
       @sig_good accept_all conf [[88]] 1 1 [[1; 2; 3; 4]] sig key ∧ is_Some (spend s)) ∧
    (rc = ELPIS_OK → spend s = Some s').
Proof.
  intros conf key sig s. apply (@rrsig_verify_exact accept_all conf true s [[88]] 1 1 [[1; 2; 3; 4]] sig key 300 None None);
    [by_compute|by_compute|by_compute|by_compute|by vm_compute].
Defined.

(** That signature is in fact accepted. *)
Example rrsig_accepted :
  @elpis_rrsig_verify accept_all (mkSecConf true 18 25 26 0) true (mkCounters 0 (Some 0)) (name_of [[88]]) 1 1 [[1; 2; 3; 4]]
    (sig_ex key_ex) key_ex 300 None = Ok (ELPIS_OK, None, mkCounters 1 (Some 1)).
Proof. by vm_compute. Qed.

(** C15. The signed data is RFC 4034's: the fixed part of the RRSIG, the signer in
    lower case, and the records of the set in canonical order, each once, under
    the owner or the wildcard it was made from, with the original TTL; so the
    order and repetition of the records as they arrived do not matter. *)
Theorem signed_data_rfc4034 (owner : list (list Z)) (type klass : Z) (rs rs' : list (list Z)) (sig : list Z)
    (signer : list (list Z)) (rest : list Z) :
  labels_ok owner → bytes sig → rrsig_form sig signer rest → zlen rs <= 96 → zlen rs' <= 96 →
  (∀ r, r ∈ rs ↔ r ∈ rs') →
  ∃ cs, canonical rs cs ∧
    build_signed_data (name_of owner) type klass rs sig (zlen (wire signer)) SIGNBUF_MAX
      = Ok (match signed_labels owner (octet sig 3) with
            | None => []
            | Some nm => let d := signed_data nm type klass cs sig signer in if zlen d <=? SIGNBUF_MAX then d else []
            end) ∧
    build_signed_data (name_of owner) type klass rs' sig (zlen (wire signer)) SIGNBUF_MAX
      = build_signed_data (name_of owner) type klass rs sig (zlen (wire signer)) SIGNBUF_MAX.
Proof.
  intros Ho Hs Hf Hl Hl' Heq. destruct (rd_sort_spec rs) as (srt & _ & Hp & Hso). pose proof (undup_canonical _ _ Hp Hso) as Hcs.
  exists (undup None srt). set (cs := undup None srt) in *. split; [done|]. pose proof (proj2 (proj1 Hf)).
  assert (canonical rs' cs) as Hcs' by (split; [apply Hcs|intros r; by rewrite (proj2 Hcs r)]).
  rewrite !(build_signed_data_spec owner type klass _ sig signer rest SIGNBUF_MAX cs); try done;
    try (rewrite take_ge by zl; done); unfold SIGNBUF_MAX; lia.
Qed.

Lemma signed_data_rfc4034_witness :
  let sig := sig_ex key_ex in
  ∃ cs, canonical [[9; 9]; [1]; [9; 9]] cs ∧
    build_signed_data (name_of [[87]; [88]]) 1 1 [[9; 9]; [1]; [9; 9]] sig (zlen (wire [[120]])) SIGNBUF_MAX
      = Ok (match signed_labels [[87]; [88]] (octet sig 3) with
            | None => []
            | Some nm => let d := signed_data nm 1 1 cs sig [[120]] in if zlen d <=? SIGNBUF_MAX then d else []
            end) ∧
    build_signed_data (name_of [[87]; [88]]) 1 1 [[1]; [9; 9]] sig (zlen (wire [[120]])) SIGNBUF_MAX
      = build_signed_data (name_of [[87]; [88]]) 1 1 [[9; 9]; [1]; [9; 9]] sig (zlen (wire [[120]])) SIGNBUF_MAX.
Proof.
  intros sig. apply (signed_data_rfc4034 [[87]; [88]] 1 1 [[9; 9]; [1]; [9; 9]] [[1]; [9; 9]] sig [[120]] (replicate 64 1));
    [by_compute|by_compute|split_and!; by_compute|by_compute|by_compute|].
  intros r. rewrite !elem_of_cons. tauto.
Defined.

(** The dates of a signature are compared as serial numbers, so that they mean
    what they say in 2038 and in 2106: for instants less than 2^31 seconds apart
    the window is the one between inception and expiration with the tolerated
    skew.  A skew makes the sum overflow for a signature that expires late
    enough, which the C standard does not define. *)
Theorem sig_dates_serial (conf : sec_conf_t) (expire incep now : Z) :
  - 2 ^ 31 <= expire - now < 2 ^ 31 → - 2 ^ 31 <= now - incep < 2 ^ 31 → 0 <= sig_skew conf < 2 ^ 31 →
  sig_dates conf (u32 expire) (u32 incep) now =
    if 2 ^ 31 <=? expire - now + sig_skew conf then Stuck SignedOverflow
    else if expire + sig_skew conf <? now then Ok (Some ELPIS_EDE_SIGNATURE_EXPIRED)
    else if 2 ^ 31 <=? now - incep + sig_skew conf then Stuck SignedOverflow
    else if now <? incep - sig_skew conf then Ok (Some ELPIS_EDE_SIGNATURE_NOT_YET)
    else Ok None.
Proof.
  intros He Hi Hk. unfold sig_dates. rewrite !u32_u32, !i32_diff, i32_small by lia. unfold add32.
  destruct (Z.leb_spec (2 ^ 31) (expire - now + sig_skew conf)).
  { by assert ((- 2 ^ 31 <=? expire - now + sig_skew conf) && (expire - now + sig_skew conf <? 2 ^ 31) = false) as -> by lia. }
  assert ((- 2 ^ 31 <=? expire - now + sig_skew conf) && (expire - now + sig_skew conf <? 2 ^ 31) = true) as -> by lia. bind_step.
  destruct (Z.ltb_spec (expire + sig_skew conf) now).
  { by assert ((expire - now + sig_skew conf <? 0) = true) as -> by lia. }
  assert ((expire - now + sig_skew conf <? 0) = false) as -> by lia.
  destruct (Z.leb_spec (2 ^ 31) (now - incep + sig_skew conf)).
  { by assert ((- 2 ^ 31 <=? now - incep + sig_skew conf) && (now - incep + sig_skew conf <? 2 ^ 31) = false) as -> by lia. }
  assert ((- 2 ^ 31 <=? now - incep + sig_skew conf) && (now - incep + sig_skew conf <? 2 ^ 31) = true) as -> by lia. bind_step.
  destruct (Z.ltb_spec now (incep - sig_skew conf)).
  { by assert ((now - incep + sig_skew conf <? 0) = true) as -> by lia. }
  by assert ((now - incep + sig_skew conf <? 0) = false) as -> by lia.
Qed.

Lemma sig_dates_serial_witness :
  let conf := mkSecConf true 18 25 26 300 in
  sig_dates conf (u32 4294967396) (u32 4294967000) 4294967290 =
    if 2 ^ 31 <=? 4294967396 - 4294967290 + sig_skew conf then Stuck SignedOverflow
    else if 4294967396 + sig_skew conf <? 4294967290 then Ok (Some ELPIS_EDE_SIGNATURE_EXPIRED)
    else if 2 ^ 31 <=? 4294967290 - 4294967000 + sig_skew conf then Stuck SignedOverflow
    else if 4294967290 <? 4294967000 - sig_skew conf then Ok (Some ELPIS_EDE_SIGNATURE_NOT_YET)
    else Ok None.
Proof. intros conf. apply (sig_dates_serial conf 4294967396 4294967000 4294967290); cbn; lia. Defined.
