(* ===== verification/Rrvalid.v ===== *)
(** Validating an RRset: src/dnssec/dnssec.c, lines 580 to 692 and 829 to 965;
    every signature against every key, under the KeyTrap bounds, and DNSKEY sets
    against DS records and trust anchors (the anchors' look-up is that of
    src/dnssec/trustanchor.c). *)
From stdpp Require Import base list numbers.
From Stdlib Require Import ZArith Lia.
From S2P Require Import Prelude Bytes Simd Name NameOps NameOrder Rdesc Rnames Mdhash Sha1 Sha2 Rrset Dnskey Rrsig.

(** ** Definitions *)

Definition VAL_SIG_TRIES : Z := 8.
Definition VAL_TAG_COLLIDE : Z := 4.
Definition VAL_DS_TRIES : Z := 4.

Definition ELPIS_EDE_UNSUPPORTED_DS_DIGEST : Z := 2.
Definition ELPIS_EDE_DNSKEY_MISSING : Z := 9.
Definition ELPIS_EDE_RRSIGS_MISSING : Z := 10.

(** [if (ede && *ede < 0) *ede = v;] *)
Definition default_ede (ede : option Z) (v : Z) : option Z :=
  match ede with Some e => Some (if e <? 0 then v else e) | None => None end.

(** A trust anchor. *)
Record elpis_ta_t := mkTa {
  ta_name : elpis_name_t; ta_keytag : Z; ta_alg : Z; ta_digest_type : Z; ta_digest : list Z }.

(** The anchors for exactly [zone], [max] at most. *)
Fixpoint elpis_ta_for (tas : list elpis_ta_t) (zone : elpis_name_t) (max : nat) : res (list elpis_ta_t) :=
  match max, tas with
  | S max', ta :: tas =>
    e ← elpis_name_eq (ta_name ta) zone;
    if (e : bool) then out ← elpis_ta_for tas zone max'; Ok (ta :: out) else elpis_ta_for tas zone max
  | _, _ => Ok []
  end.

(** The anchor as a DS record. *)
Definition ta_ds (ta : elpis_ta_t) : list Z :=
  put16_bytes (ta_keytag ta) ++ [ta_alg ta; ta_digest_type ta] ++ ta_digest ta.

(** The set of one key that a match is checked with, in the thread's scratch
    buffer. *)
Definition one_key (scratch keys : elpis_rrset_buf_t) (key : list Z) : res elpis_rrset_buf_t :=
  off ← wr (rs_off scratch) 0 0;
  len ← wr (rs_len scratch) 0 (zlen key);
  data ← blit (rs_data scratch) 0 key;
  Ok (mkRrset (rs_name keys) ELPIS_T_DNSKEY (rs_klass keys) (rs_ttl keys) (rs_orig_ttl keys) ELPIS_SEC_UNCHECKED 1 0 0 0
        len off (zlen key) data).

Section Validate.
Context `{SigPrims} (conf : sec_conf_t) (mem : bool).

(** The quick test on a key before it is counted. *)
Definition tag_mismatch (key : list Z) (keylen : Z) (sig : list Z) : res bool :=
  if keylen <? 5 then Ok true
  else
    k3 ← rd key 3; s2 ← rd sig 2;
    if negb (k3 =? s2) then Ok true
    else tag ← elpis_dnskey_tag key; st ← elpis_get16 sig 16; Ok (negb (tag =? st)).

(** The loop over the keys, [k] turns from [j]: whether one verified, and the
    failures so far. *)
Fixpoint key_loop (set keys : elpis_rrset_buf_t) (recs : list (list Z)) (sig : list Z) (now : Z)
    (k : nat) (j tagged fails : Z) (ede : option Z) (s : counters) : res (bool * Z * option Z * counters) :=
  match k with
  | O => Ok (false, fails, ede, s)
  | S k =>
    if fails <? VAL_SIG_TRIES then
      keylen ← rd (rs_len keys) j;
      key ← elpis_rrset_rd keys j;
      skip ← tag_mismatch key keylen sig;
      if (skip : bool) then key_loop set keys recs sig now k (j + 1) tagged fails ede s
      else
        let tagged := tagged + 1 in
        if VAL_TAG_COLLIDE <? tagged then Ok (false, fails, ede, s)
        else
          '(rc, ede, s) ← elpis_rrsig_verify conf mem s (rs_name set) (rs_type set) (rs_klass set) recs sig key now ede;
          let fails := if decide (rc = ELPIS_EBOGUS) then fails + 1 else fails in
          if decide (rc = ELPIS_OK) then Ok (true, fails, ede, s)
          else key_loop set keys recs sig now k (j + 1) tagged fails ede s
    else Ok (false, fails, ede, s)
  end.

(** The loop over the signatures: the one that verified, and whether any was
    long enough to be looked at. *)
Fixpoint sig_loop (set keys : elpis_rrset_buf_t) (recs : list (list Z)) (now : Z)
    (k : nat) (i fails : Z) (saw : bool) (ede : option Z) (s : counters) : res (option (list Z) * bool * option Z * counters) :=
  match k with
  | O => Ok (None, saw, ede, s)
  | S k =>
    if fails <? VAL_SIG_TRIES then
      siglen ← rd (rs_len set) (rs_count set + i);
      sig ← elpis_rrset_rd set (rs_count set + i);
      if siglen <? 19 then sig_loop set keys recs now k (i + 1) fails saw ede s
      else
        '(found, fails, ede, s) ← key_loop set keys recs sig now (Z.to_nat (rs_count keys)) 0 0 fails ede s;
        if (found : bool) then Ok (Some sig, true, ede, s)
        else sig_loop set keys recs now k (i + 1) fails true ede s
    else Ok (None, saw, ede, s)
  end.

(** What [*wildcard_out] holds after a signature verified. *)
Definition wildcard_of (name : elpis_name_t) (sig : list Z) (wild : elpis_name_t) : res elpis_name_t :=
  labels ← rd sig 3;
  if labels <? n_labels name then
    suffix ← try (elpis_name_suffix name labels);
    match suffix with
    | None => Ok wild
    | Some suffix => w ← try (elpis_name_prepend [42] 1 suffix); Ok (default wild w)
    end
  else Ok (mkName 0 (n_labels wild) (n_d wild)).

Definition elpis_rrset_validate (s : counters) (set keys : elpis_rrset_buf_t) (now : Z) (wildcard_out : option elpis_name_t)
    (ede : option Z) : res (elpis_rc_t * option elpis_name_t * option Z * counters) :=
  if rs_count set =? 0 then Ok (ELPIS_EBOGUS, wildcard_out, ede, s)
  else if rs_sigcount set =? 0 then Ok (ELPIS_ENOTFOUND, wildcard_out, set_ede ede ELPIS_EDE_RRSIGS_MISSING, s)
  else
    recs ← rrset_recs set (Z.to_nat (rs_count set)) 0;
    '(good, saw, ede, s) ← sig_loop set keys recs now (Z.to_nat (rs_sigcount set)) 0 0 false ede s;
    match good with
    | Some sig =>
      w ← (match wildcard_out with
           | Some wild => w ← wildcard_of (rs_name set) sig wild; Ok (Some w)
           | None => Ok None
           end);
      Ok (ELPIS_OK, w, ede, s)
    | None =>
      Ok (ELPIS_EBOGUS, wildcard_out,
          default_ede ede (if (saw : bool) then ELPIS_EDE_DNSSEC_BOGUS else ELPIS_EDE_RRSIGS_MISSING), s)
    end.

(** ** Lapsed signatures *)

Definition sig_in_window (sig : list Z) (now : Z) : res bool :=
  e ← elpis_get32 sig 8;
  i ← elpis_get32 sig 12;
  let d_exp := i32 (u32 (e - u32 now)) in
  let d_inc := i32 (u32 (u32 now - i)) in
  let skew := i32 (sig_skew conf) in
  a ← add32 d_exp skew;
  if 0 <=? a then b ← add32 d_inc skew; Ok (0 <=? b) else Ok false.

(** The signatures a denial is stored with: type, owner length, owner, rdata. *)
Fixpoint lapsed_denial (set : elpis_rrset_buf_t) (now : Z) (k : nat) (i seen : Z) : res bool :=
  match k with
  | O => Ok (0 <? seen)
  | S k =>
    len ← rd (rs_len set) i;
    p ← elpis_rrset_rd set i;
    sig ← (if len <? 3 then Ok None
           else
             t ← elpis_get16 p 0;
             if negb (t =? ELPIS_T_RRSIG) then Ok None
             else olen ← rd p 2; Ok (if len <? 3 + olen + 19 then None else Some (drop (Z.to_nat (3 + olen)) p)));
    match sig with
    | None => lapsed_denial set now k (i + 1) seen
    | Some sig => w ← sig_in_window sig now; if (w : bool) then Ok false else lapsed_denial set now k (i + 1) (seen + 1)
    end
  end.

Fixpoint lapsed_sigs (set : elpis_rrset_buf_t) (now : Z) (k : nat) (i seen : Z) : res bool :=
  match k with
  | O => Ok (0 <? seen)
  | S k =>
    len ← rd (rs_len set) (rs_count set + i);
    if len <? 19 then lapsed_sigs set now k (i + 1) seen
    else
      sig ← elpis_rrset_rd set (rs_count set + i);
      w ← sig_in_window sig now;
      if (w : bool) then Ok false else lapsed_sigs set now k (i + 1) (seen + 1)
  end.

Definition elpis_rrset_sigs_lapsed (set : elpis_rrset_buf_t) (now : Z) : res bool :=
  if rrset_denied set then lapsed_denial set now (Z.to_nat (rs_count set - 1)) 1 0
  else lapsed_sigs set now (Z.to_nat (rs_sigcount set)) 0 0.

(** ** DNSKEY sets *)

(** The loop over the keys for one DS record: whether the set verified. *)
Fixpoint ds_key_loop (scratch keys : elpis_rrset_buf_t) (dsr : list Z) (now : Z) (k : nat) (j tried : Z) (ede : option Z)
    (s : counters) : res (bool * Z * option Z * counters) :=
  match k with
  | O => Ok (false, tried, ede, s)
  | S k =>
    if tried <? VAL_DS_TRIES then
      key ← elpis_rrset_rd keys j;
      m ← elpis_ds_matches (rs_name keys) key dsr;
      if negb m then ds_key_loop scratch keys dsr now k (j + 1) tried ede s
      else
        one ← one_key scratch keys key;
        '(rc, _, ede, s) ← elpis_rrset_validate s keys one now None ede;
        if decide (rc = ELPIS_OK) then Ok (true, tried + 1, ede, s)
        else ds_key_loop scratch keys dsr now k (j + 1) (tried + 1) ede s
    else Ok (false, tried, ede, s)
  end.

(** The loop over the DS records, given as their rdata; whether one verified,
    and whether one was of a supported kind.  The lengths of DS records are
    tested, those of anchors are not. *)
Fixpoint ds_loop (scratch keys : elpis_rrset_buf_t) (len_test pq : bool) (now : Z) (dss : list (list Z)) (tried : Z) (any : bool)
    (ede : option Z) (s : counters) : res (bool * bool * option Z * counters) :=
  match dss with
  | [] => Ok (false, any, ede, s)
  | dsr :: dss =>
    if tried <? VAL_DS_TRIES then
      usable ← (if len_test && (zlen dsr <? 5) then Ok false
                else
                  dt ← rd dsr 3;
                  if negb (elpis_digest_supported dt) then Ok false
                  else
                    alg ← rd dsr 2;
                    if negb (elpis_alg_supported conf alg) then Ok false
                    else Ok (negb (pq && negb (alg_is_pq conf alg))));
      if negb usable then ds_loop scratch keys len_test pq now dss tried any ede s
      else
        '(ok, tried, ede, s) ← ds_key_loop scratch keys dsr now (Z.to_nat (rs_count keys)) 0 tried ede s;
        if (ok : bool) then Ok (true, true, ede, s)
        else ds_loop scratch keys len_test pq now dss tried true ede s
    else Ok (false, any, ede, s)
  end.

Definition ds_verdict (r : bool * bool * option Z * counters) : elpis_rc_t * option Z * counters :=
  let '(ok, any, ede, s) := r in
  if ok then (ELPIS_OK, ede, s)
  else if negb any then (ELPIS_ENOTFOUND, set_ede ede ELPIS_EDE_UNSUPPORTED_DS_DIGEST, s)
  else (ELPIS_EBOGUS, default_ede ede ELPIS_EDE_DNSKEY_MISSING, s).

Definition elpis_dnskey_validate_ds (scratch : elpis_rrset_buf_t) (s : counters) (keys ds : elpis_rrset_buf_t) (now : Z)
    (ede : option Z) : res (elpis_rc_t * option Z * counters) :=
  pq ← ds_wants_pq conf ds;
  dss ← rrset_recs ds (Z.to_nat (rs_count ds)) 0;
  r ← ds_loop scratch keys true pq now dss 0 false ede s;
  Ok (ds_verdict r).

(** The anchors as DS records. *)
Definition elpis_dnskey_validate_ta (scratch : elpis_rrset_buf_t) (s : counters) (store : list elpis_ta_t)
    (keys : elpis_rrset_buf_t) (now : Z) (ede : option Z) : res (elpis_rc_t * option Z * counters) :=
  tas ← elpis_ta_for store (rs_name keys) 16;
  if zlen tas =? 0 then Ok (ELPIS_ENOTFOUND, set_ede ede ELPIS_EDE_DNSKEY_MISSING, s)
  else
    r ← ds_loop scratch keys false false now (map ta_ds tas) 0 false ede s;
    Ok (ds_verdict r).
End Validate.

(** ** The work budget *)

(** [n] public-key operations were counted. *)
Fixpoint spends (n : nat) (s s' : counters) : Prop :=
  match n with O => s' = s | S n => ∃ s1, spend s = Some s1 ∧ spends n s1 s' end.

(** [m] more operations are in the budget. *)
Definition budget (s : counters) (m : Z) : Prop :=
  match g_val_spent s with None => True | Some n => 0 <= n ∧ n + m <= VAL_MAX_VERIFIES end.

Lemma spends_trans n m s1 s2 s3 : spends n s1 s2 → spends m s2 s3 → spends (n + m) s1 s3.
Proof.
  revert s1. induction n as [|n IH]; intros s1 H12 H23; cbn [spends Nat.add] in *; [by subst|].
  destruct H12 as (s & Hs & H12). exists s. split; [done|by apply IH].
Qed.

Lemma spends_one s s' : spend s = Some s' → spends 1 s s'.
Proof. intros Hs. by exists s'. Qed.

Lemma spend_budget s m : budget s m → 1 <= m → ∃ s', spend s = Some s' ∧ budget s' (m - 1).
Proof.
  unfold budget, spend, VAL_MAX_VERIFIES. destruct (g_val_spent s) as [n|]; intros Hb Hm; [|by eexists].
  assert ((64 <=? n) = false) as -> by lia. eexists. split; [done|]. cbn [g_val_spent]. rewrite u32_id by lia. lia.
Qed.

Lemma budget_mono s m m' : budget s m → m' <= m → budget s m'.
Proof. unfold budget. destruct (g_val_spent s); [lia|done]. Qed.

Lemma spends_budget n : ∀ s s' m, spends n s s' → budget s m → Z.of_nat n <= m → budget s' (m - Z.of_nat n).
Proof.
  induction n as [|n IH]; intros s s' m Hn Hb Hm; cbn [spends] in Hn.
  - subst. by rewrite Z.sub_0_r.
  - destruct Hn as (s1 & Hs & Hn). destruct (spend_budget s m Hb) as (s2 & Hs2 & Hb2); [lia|].
    assert (s2 = s1) as -> by congruence. replace (m - Z.of_nat (S n)) with (m - 1 - Z.of_nat n) by lia. apply (IH s1); [done|done|lia].
Qed.

(** The budget's counter is counted up to 64 and no further. *)
Lemma spends_capped n : ∀ s s' b, spends n s s' → g_val_spent s = Some b → 0 <= b <= VAL_MAX_VERIFIES →
  g_val_spent s' = Some (b + Z.of_nat n) ∧ b + Z.of_nat n <= VAL_MAX_VERIFIES.
Proof.
  induction n as [|n IH]; intros s s' b Hn Hb Hr; cbn [spends] in Hn.
  - subst. rewrite Hb, Z.add_0_r. split; [done|lia].
  - destruct Hn as (s1 & Hs & Hn). unfold spend in Hs. rewrite Hb in Hs. destruct (Z.leb_spec VAL_MAX_VERIFIES b); [done|].
    injection Hs as <-. unfold VAL_MAX_VERIFIES in *. specialize (IH _ _ (b + 1) Hn). cbn [g_val_spent] in IH. rewrite u32_id in IH by lia.
    destruct IH as [-> ?]; [done|lia|]. split; [f_equal; lia|lia].
Qed.

(** ** The two loops *)

Section Loops.
Context `{SigPrims} (conf : sec_conf_t) (mem : bool).
Variables (set : elpis_rrset_buf_t) (owner : list (list Z)) (rs : list (list Z)) (now : Z).
Hypotheses (Howner : labels_ok owner) (Hset : rs_name set = name_of owner).

(** The signature is valid for the set under that key, now. *)
Definition accepted (sig key : list Z) : Prop :=
  sig_applies conf (rs_type set) sig key ∧ sig_dates conf (oct32 sig 8) (oct32 sig 12) now = Ok None ∧
  sig_good conf owner (rs_type set) (rs_klass set) rs sig key.

(** The window of the signature is one the code can compute. *)
Definition dates_defined (sig : list Z) : Prop :=
  ∃ late, sig_dates conf (oct32 sig 8) (oct32 sig 12) now = Ok late.

(** The key has the algorithm and the tag the signature names. *)
Definition tag_shared (sig key : list Z) : Prop :=
  5 <= zlen key ∧ octet key 3 = octet sig 2 ∧ key_tag key = oct16 sig 16.
#[export] Instance tag_shared_dec sig key : Decision (tag_shared sig key).
Proof. unfold tag_shared. apply _. Defined.

(** The keys of [ks] that share the tag of one signature, and of several. *)
Definition sharers (ks : list (list Z)) (sig : list Z) : Z := zlen (filter (tag_shared sig) ks).
Fixpoint tag_pairs (ks sgs : list (list Z)) : Z :=
  match sgs with [] => 0 | sig :: sgs => sharers ks sig + tag_pairs ks sgs end.

Lemma sharers_nonneg ks sig : 0 <= sharers ks sig.
Proof. apply zlen_nonneg. Qed.
Lemma tag_pairs_nonneg ks sgs : 0 <= tag_pairs ks sgs.
Proof. induction sgs as [|sig sgs IH]; cbn [tag_pairs]; [lia|]. pose proof (sharers_nonneg ks sig). lia. Qed.
Lemma sharers_cons key ks sig : sharers (key :: ks) sig = (if decide (tag_shared sig key) then 1 else 0) + sharers ks sig.
Proof. unfold sharers. rewrite filter_cons. case_decide; [by rewrite zlen_cons|done]. Qed.
Lemma sharers_pos key ks sig : key ∈ ks → tag_shared sig key → 1 <= sharers ks sig.
Proof.
  intros Hk Hs. induction ks as [|x ks IH]; [by apply not_elem_of_nil in Hk|]. rewrite sharers_cons. pose proof (sharers_nonneg ks sig).
  apply elem_of_cons in Hk as [<-|Hk]; [rewrite decide_True by done; lia|]. specialize (IH Hk). case_decide; lia.
Qed.

Lemma tag_pairs_pos ks sig key sgs : sig ∈ sgs → key ∈ ks → tag_shared sig key → 1 <= tag_pairs ks sgs.
Proof.
  intros Hs Hk Hsh. induction sgs as [|x sgs IH]; [by apply not_elem_of_nil in Hs|]. cbn [tag_pairs].
  pose proof (tag_pairs_nonneg ks sgs). pose proof (sharers_nonneg ks x).
  apply elem_of_cons in Hs as [<-|Hs]; [pose proof (sharers_pos key ks sig Hk Hsh); lia|]. specialize (IH Hs). lia.
Qed.

Lemma applies_shared type sig key : sig_applies conf type sig key → tag_shared sig key.
Proof. by intros (_ & ? & _ & ? & ? & _). Qed.

Lemma tag_mismatch_spec key sig : bytes key → zlen key < 2 ^ 16 → bytes sig → 19 <= zlen sig →
  tag_mismatch key (zlen key) sig = Ok (negb (bool_decide (tag_shared sig key))).
Proof.
  intros Hk Hl Hs Hz. unfold tag_mismatch. destruct (Z.ltb_spec (zlen key) 5).
  { rewrite bool_decide_eq_false_2; [done|]. intros (? & _). lia. }
  rewrite !rd_octet by lia. bind_step. destruct (Z.eqb_spec (octet key 3) (octet sig 2)) as [Ha|Ha]; cbn [negb].
  2:{ rewrite bool_decide_eq_false_2; [done|]. by intros (_ & ? & _). }
  rewrite dnskey_tag_spec, get16_oct by (done || lia). bind_step. do 2 f_equal. apply eq_true_iff_eq.
  rewrite Z.eqb_eq, bool_decide_eq_true. unfold tag_shared. intuition lia.
Qed.

(** What one call of [elpis_rrsig_verify] can do to the loop. *)
Lemma verify_once sig key s ede : bytes sig → bytes key → zlen key < 2 ^ 16 → dates_defined sig →
  ∃ rc ede' s', elpis_rrsig_verify conf mem s (rs_name set) (rs_type set) (rs_klass set) rs sig key now ede = Ok (rc, ede', s') ∧
    ((rc = ELPIS_EBOGUS ∧ budget_step s s') ∨ (rc = ELPIS_OK ∧ spend s = Some s' ∧ accepted sig key)
     ∨ (rc ≠ ELPIS_OK ∧ rc ≠ ELPIS_EBOGUS ∧ s' = s)) ∧
    (rc ≠ ELPIS_OK → mem = true → is_Some (spend s) → ¬ accepted sig key).
Proof.
  intros Hs Hk Hl [late Hd]. rewrite Hset. unfold accepted. destruct (decide (sig_applies conf (rs_type set) sig key)) as [Ha|Hna].
  - destruct (rrsig_verify_applies conf mem s owner (rs_type set) (rs_klass set) rs sig key now ede late)
      as (rc & ede' & s' & -> & Hb & Hrc & Hok & Hsp); [done..|]. exists rc, ede', s'. split; [done|]. split.
    + destruct Hrc as [->|[->|(-> & _ & ->)]]; [|by left|by right; right].
      right; left. destruct (proj1 Hok eq_refl) as (-> & _ & ? & _). split_and!; try done. by apply Hsp.
    + intros Hno Hm Hbud (_ & Hd' & Hg). apply Hno, Hok. rewrite Hd in Hd'. injection Hd' as ->. done.
  - destruct (rrsig_verify_skips conf mem s (name_of owner) (rs_type set) (rs_klass set) rs sig key now ede) as (ede' & ->); [done..|].
    exists ELPIS_ENOTFOUND, ede', s. split; [done|]. split; [by right; right|]. by intros _ _ _ (? & _).
Qed.

Section Keys.
Variables (keys : elpis_rrset_buf_t) (ks kgs : list (list Z)).
Hypothesis (Hkeys : rrset_holds keys ks kgs).

Lemma key_at (k : list (list Z)) key i : ks = take i ks ++ key :: k →
  rd (rs_len keys) (Z.of_nat i) = Ok (zlen key) ∧ elpis_rrset_rd keys (Z.of_nat i) = Ok key ∧ bytes key ∧ zlen key < 2 ^ 16 ∧
  ks = take (S i) ks ++ k.
Proof.
  intros Hi. assert (ks !! i = Some key) as Hk.
  { pose proof (f_equal length Hi) as Hl. rewrite length_app, length_take in Hl. cbn [length] in Hl.
    rewrite Hi, lookup_app_r by (rewrite length_take; lia). rewrite length_take. by replace (i - _)%nat with 0%nat by lia. }
  destruct (rrset_data_rd _ _ _ _ _ Hkeys Hk) as [-> ->].
  destruct (rrset_rec_size _ _ _ key Hkeys) as [? ?]; [apply elem_of_app; left; by eapply list_elem_of_lookup_2|].
  unfold ELPIS_RRSET_BUF in *. split_and!; [done|done|done|lia|]. by rewrite (take_S_r _ _ _ Hk), <- app_assoc.
Qed.

(** The keys left, [k]: what is spent is bounded by the failures and by the
    keys that share the tag; a key found is one the signature is valid under,
    and when neither bound can be met none is missed. *)
Lemma key_loop_spec sig : bytes sig → 19 <= zlen sig → dates_defined sig → ∀ k i tagged fails ede s,
  ks = take i ks ++ k → 0 <= tagged <= VAL_TAG_COLLIDE → 0 <= fails <= VAL_SIG_TRIES →
  ∃ found fails' ede' s' n,
    key_loop conf mem set keys rs sig now (length k) (Z.of_nat i) tagged fails ede s = Ok (found, fails', ede', s') ∧
    spends n s s' ∧ fails <= fails' ∧ fails' + Z.b2z found <= VAL_SIG_TRIES ∧ fails' - fails <= sharers k sig ∧
    Z.of_nat n <= fails' - fails + Z.b2z found ∧
    (found = true → ∃ key, key ∈ k ∧ accepted sig key) ∧
    (found = false → mem = true → tagged + sharers k sig <= VAL_TAG_COLLIDE → fails + sharers k sig <= VAL_SIG_TRIES →
       budget s (sharers k sig) → ∀ key, key ∈ k → ¬ accepted sig key).
Proof.
  intros Hs Hz Hd k. induction k as [|key k IH]; intros i tagged fails ede s Hi Ht Hf; cbn [length key_loop].
  { exists false, fails, ede, s, 0%nat. cbn [Z.b2z Z.of_nat]. pose proof (sharers_nonneg [] sig).
    split_and!; try done || lia. intros _ _ _ _ _ key Hk. by apply not_elem_of_nil in Hk. }
  pose proof (sharers_nonneg k sig) as H0. pose proof (sharers_nonneg (key :: k) sig). destruct (Z.ltb_spec fails VAL_SIG_TRIES).
  2:{ exists false, fails, ede, s, 0%nat. cbn [Z.b2z Z.of_nat]. split_and!; try done || lia.
      intros _ _ _ ? _ x Hx (Ha & _). pose proof (sharers_pos x _ sig Hx (applies_shared _ _ _ Ha)). lia. }
  destruct (key_at k key i Hi) as (-> & -> & Hkb & Hkl & Hi'). bind_step.
  rewrite tag_mismatch_spec by done. bind_step. rewrite sharers_cons in *.
  replace (Z.of_nat i + 1) with (Z.of_nat (S i)) by lia. destruct (decide (tag_shared sig key)) as [Hsh|Hsh].
  2:{ rewrite bool_decide_eq_false_2 by done. cbn [negb].
    destruct (IH (S i) tagged fails ede s) as (found & fails' & ede' & s' & n & -> & ? & ? & ? & ? & ? & Hyes & Hno); [done..|].
    exists found, fails', ede', s', n. split_and!; try done || lia.
    + intros Hfd. destruct (Hyes Hfd) as (x & ? & ?). exists x. split; [by right|done].
    + intros Hfd Hm ? ? Hb x [->|Hx]%elem_of_cons; [intros (Ha & _); by apply Hsh, (applies_shared (rs_type set))|by apply Hno]. }
  rewrite bool_decide_eq_true_2 by done. cbn [negb]. destruct (Z.ltb_spec VAL_TAG_COLLIDE (tagged + 1)).
  { exists false, fails, ede, s, 0%nat. cbn [Z.b2z Z.of_nat]. split_and!; try done || lia. }
  destruct (verify_once sig key s ede) as (rc & ede1 & s1 & -> & Hcase & Hmiss); [done..|]. bind_step.
  destruct (decide (rc = ELPIS_OK)) as [->|Hne].
  - rewrite (decide_False (P := ELPIS_OK = ELPIS_EBOGUS)) by done.
    destruct Hcase as [[? _]|[(_ & Hsp & Hacc)|(? & _)]]; [done| |done].
    exists true, fails, ede1, s1, 1%nat. cbn [Z.b2z]. split_and!; try done || lia; [by exists s1|]. exists key. split; [by left|done].
  - set (f1 := if decide (rc = ELPIS_EBOGUS) then fails + 1 else fails).
    assert (∃ m, spends m s s1 ∧ Z.of_nat m <= f1 - fails <= 1) as (m & Hm1 & ?).
    { unfold f1. destruct Hcase as [[-> [->|Hst]]|[(? & _)|(_ & ? & ->)]]; [..|done|].
      - exists 0%nat. rewrite decide_True by done. split; [done|lia].
      - exists 1%nat. rewrite decide_True by done. split; [by apply spends_one|lia].
      - exists 0%nat. rewrite decide_False by done. split; [done|lia]. }
    destruct (IH (S i) (tagged + 1) f1 ede1 s1) as (found & fails' & ede' & s' & n & -> & ? & ? & ? & ? & ? & Hyes & Hno); [done|lia|lia|].
    exists found, fails', ede', s', (m + n)%nat. split_and!; try done || lia.
    + by eapply spends_trans.
    + intros Hfd. destruct (Hyes Hfd) as (x & ? & ?). exists x. split; [by right|done].
    + intros Hfd Hm ? ? Hb x Hx. apply elem_of_cons in Hx as [->|Hx].
      { apply Hmiss; [done|done|]. destruct (spend_budget s _ Hb) as (? & -> & _); [lia|done]. }
      apply Hno; [done|done|lia|lia| |done]. apply (budget_mono s1 (1 + sharers k sig - Z.of_nat m)); [apply (spends_budget m s); [done|done|lia]|lia].
Qed.

Variable sgs : list (list Z).
Hypothesis (Hsigs : rrset_holds set rs sgs) (Hdates : ∀ sig, sig ∈ sgs → 19 <= zlen sig → dates_defined sig).

Lemma sig_at (k : list (list Z)) sig i : sgs = take i sgs ++ sig :: k →
  rd (rs_len set) (rs_count set + Z.of_nat i) = Ok (zlen sig) ∧ elpis_rrset_rd set (rs_count set + Z.of_nat i) = Ok sig ∧
  bytes sig ∧ sig ∈ sgs ∧ sgs = take (S i) sgs ++ k.
Proof.
  intros Hi. assert (sgs !! i = Some sig) as Hk.
  { pose proof (f_equal length Hi) as Hl. rewrite length_app, length_take in Hl. cbn [length] in Hl.
    rewrite Hi, lookup_app_r by (rewrite length_take; lia). rewrite length_take. by replace (i - _)%nat with 0%nat by lia. }
  destruct (rrset_sig_rd _ _ _ _ _ Hsigs Hk) as [-> ->]. pose proof (list_elem_of_lookup_2 _ _ _ Hk).
  destruct (rrset_rec_size _ _ _ sig Hsigs) as [? _]; [apply elem_of_app; by right|].
  split_and!; [done|done|done|done|]. by rewrite (take_S_r _ _ _ Hk), <- app_assoc.
Qed.

Lemma sig_loop_spec k : ∀ i fails saw ede s, sgs = take i sgs ++ k → 0 <= fails <= VAL_SIG_TRIES →
  ∃ good saw' ede' s' n,
    sig_loop conf mem set keys rs now (length k) (Z.of_nat i) fails saw ede s = Ok (good, saw', ede', s') ∧
    spends n s s' ∧ Z.of_nat n <= VAL_SIG_TRIES - fails ∧
    (∀ sig, good = Some sig → sig ∈ sgs ∧ 19 <= zlen sig ∧ ∃ key, key ∈ ks ∧ accepted sig key) ∧
    (good = None → mem = true → Forall (fun sig => sharers ks sig <= VAL_TAG_COLLIDE) k → fails + tag_pairs ks k <= VAL_SIG_TRIES →
       budget s (tag_pairs ks k) → ∀ sig key, sig ∈ k → key ∈ ks → ¬ accepted sig key).
Proof.
  induction k as [|sig k IH]; intros i fails saw ede s Hi Hf; cbn [length sig_loop].
  { exists None, saw, ede, s, 0%nat. split_and!; try done || lia. intros _ _ _ _ _ sig key Hk. by apply not_elem_of_nil in Hk. }
  pose proof (tag_pairs_nonneg ks k). pose proof (sharers_nonneg ks sig). cbn [tag_pairs]. destruct (Z.ltb_spec fails VAL_SIG_TRIES).
  2:{ exists None, saw, ede, s, 0%nat. split_and!; try done || lia. intros _ _ _ Hle _ x key Hx Hk (Ha & _).
      pose proof (tag_pairs_pos ks x key (sig :: k) Hx Hk (applies_shared _ _ _ Ha)) as Hp. cbn [tag_pairs] in Hp. lia. }
  destruct (sig_at k sig i Hi) as (-> & -> & Hsb & Hin & Hi'). bind_step.
  replace (Z.of_nat i + 1) with (Z.of_nat (S i)) by lia. destruct (Z.ltb_spec (zlen sig) 19) as [Hshort|Hlong].
  - destruct (IH (S i) fails saw ede s) as (good & saw' & ede' & s' & n & -> & ? & ? & Hyes & Hno); [done..|].
    exists good, saw', ede', s', n. split_and!; try done.
    intros Hg Hm [? Hf2]%Forall_cons_1 ? Hb x key [->|Hx]%elem_of_cons Hk; [intros ((? & _) & _); lia|].
    apply Hno; [done|done|done|lia|apply (budget_mono _ _ _ Hb); lia|done|done].
  - rewrite (rh_count _ _ _ Hkeys). replace (Z.to_nat (zlen ks)) with (length ks) by zl.
    destruct (key_loop_spec sig Hsb Hlong (Hdates sig Hin Hlong) ks 0 0 fails ede s)
      as (found & fails' & ede1 & s1 & m & E & Hm1 & ? & ? & ? & ? & Hfound & Hmiss); [done|unfold VAL_TAG_COLLIDE; lia|done|].
    change (Z.of_nat 0) with 0 in E. rewrite E. bind_step. destruct found.
    + exists (Some sig), true, ede1, s1, m. cbn [Z.b2z] in *. split_and!; try done || lia. intros x [= <-]. split_and!; try done. by apply Hfound.
    + cbn [Z.b2z] in *. destruct (IH (S i) fails' true ede1 s1) as (good & saw' & ede' & s' & n & -> & ? & ? & Hyes & Hno); [done|lia|].
      exists good, saw', ede', s', (m + n)%nat. split_and!; try done || lia; [by eapply spends_trans|].
      intros Hg Hm [? Hf2]%Forall_cons_1 ? Hb x key Hx Hk. apply elem_of_cons in Hx as [->|Hx].
      * apply Hmiss; [done|done|lia|lia|apply (budget_mono _ _ _ Hb); lia|done].
      * apply Hno; [done|done|done|lia| |done|done]. apply (budget_mono s1 (sharers ks sig + tag_pairs ks k - Z.of_nat m)); [|lia].
        apply (spends_budget m s); [done|done|lia].
Qed.

(** The wildcard a signature with few labels was expanded from. *)
Definition source_wildcard (labels : Z) : option (list (list Z)) :=
  if labels <? zlen owner then Some ([42] :: drop (Z.to_nat (zlen owner - labels)) owner) else None.

Definition wildcard_report (sig : list Z) (wild : elpis_name_t) : elpis_name_t :=
  match source_wildcard (octet sig 3) with Some w => name_of w | None => mkName 0 (n_labels wild) (n_d wild) end.

Lemma wildcard_of_spec sig wild : bytes sig → 19 <= zlen sig →
  wildcard_of (rs_name set) sig wild = Ok (wildcard_report sig wild).
Proof.
  intros Hs Hz. unfold wildcard_of, wildcard_report, source_wildcard. rewrite rd_octet by lia. bind_step. rewrite Hset, n_labels_of.
  pose proof (octet_byte sig 3 Hs) as Hb. unfold byte in Hb. destruct (Z.ltb_spec (octet sig 3) (zlen owner)); [|done].
  rewrite name_suffix_spec by (done || lia). cbn [try]. bind_step.
  replace (length owner - Z.to_nat (octet sig 3))%nat with (Z.to_nat (zlen owner - octet sig 3)) by zl.
  change 1 with (zlen [42]). rewrite name_prepend_spec; [|by apply labels_ok_drop|by repeat constructor].
  by rewrite decide_True by (apply star_ok; [done|lia]).
Qed.

(** The signatures and keys come within the limits. *)
Definition within_limits : Prop :=
  Forall (fun sig => sharers ks sig <= VAL_TAG_COLLIDE) sgs ∧ tag_pairs ks sgs <= VAL_SIG_TRIES.

Lemma rrset_validate_spec wild ede s :
  ∃ rc wild' ede' s' n, elpis_rrset_validate conf mem s set keys now wild ede = Ok (rc, wild', ede', s') ∧
    spends n s s' ∧ Z.of_nat n <= VAL_SIG_TRIES ∧
    (rc = ELPIS_OK ∨ rc = ELPIS_EBOGUS ∨ rc = ELPIS_ENOTFOUND) ∧
    (rc = ELPIS_ENOTFOUND ↔ rs ≠ [] ∧ sgs = []) ∧
    (rc = ELPIS_OK → rs ≠ [] ∧ ∃ sig key, sig ∈ sgs ∧ key ∈ ks ∧ accepted sig key ∧ wild' = wildcard_report sig <$> wild) ∧
    (mem = true → within_limits → budget s (tag_pairs ks sgs) → rs ≠ [] →
       ∀ sig key, sig ∈ sgs → key ∈ ks → accepted sig key → rc = ELPIS_OK).
Proof.
  unfold elpis_rrset_validate. rewrite (rh_count _ _ _ Hsigs), (rh_sigcount _ _ _ Hsigs).
  destruct (Z.eqb_spec (zlen rs) 0) as [Hz|Hz].
  { apply zlen_0_nil in Hz.
    eexists _, _, _, _, 0%nat. split; [done|]. split_and!; try done; [tauto..|]. split; [done|]. tauto. }
  assert (rs ≠ []) by (intros E; by rewrite E in Hz).
  destruct (Z.eqb_spec (zlen sgs) 0) as [Hz2|Hz2].
  { apply zlen_0_nil in Hz2.
    eexists _, _, _, _, 0%nat. split; [done|]. split_and!; try done; [tauto..|].
    intros _ _ _ _ sig key Hs. rewrite Hz2 in Hs. by apply not_elem_of_nil in Hs. }
  assert (sgs ≠ []) by (intros E; by rewrite E in Hz2). replace (Z.to_nat (zlen rs)) with (length rs) by zl. replace (Z.to_nat (zlen sgs)) with (length sgs) by zl.
  pose proof (rrset_recs_spec _ _ _ Hsigs 0 ltac:(lia)) as Hrecs. rewrite Nat.sub_0_r, drop_0 in Hrecs. change (Z.of_nat 0) with 0 in Hrecs.
  rewrite Hrecs. bind_step.
  destruct (sig_loop_spec sgs 0 0 false ede s) as (good & saw & ede1 & s1 & n & E & Hn & ? & Hyes & Hno); [done|unfold VAL_SIG_TRIES; lia|].
  change (Z.of_nat 0) with 0 in E. rewrite E. bind_step. destruct good as [sig|].
  - destruct (Hyes sig eq_refl) as (Hin & Hlong & key & Hk & Hacc).
    assert (match wild with Some w => r ← wildcard_of (rs_name set) sig w; Ok (Some r) | None => Ok None end
      = Ok (wildcard_report sig <$> wild)) as ->.
    { destruct wild as [w|]; [|done]. rewrite wildcard_of_spec; [done| |done]. apply (rrset_rec_size _ _ _ sig Hsigs), elem_of_app. by right. }
    bind_step. eexists _, _, _, _, n. split; [done|]. split_and!; try done || lia; [by left|split; [done|tauto]|].
    intros _. split; [done|]. by exists sig, key.
  - eexists _, _, _, _, n. split; [done|]. split_and!; try done || lia; [by right; left|split; [done|tauto]|].
    intros Hm [? ?] Hb _ sig key Hs Hk Ha. exfalso. by apply (Hno eq_refl Hm) with (sig := sig) (key := key).
Qed.
End Keys.
End Loops.

(** ** DS records and anchors *)

Lemma one_key_spec scratch keys key : rrset_sized scratch → bytes key → zlen key <= ELPIS_RRSET_BUF →
  ∃ one, one_key scratch keys key = Ok one ∧ rrset_holds one [key] [].
Proof.
  intros (Hl & Ho & Hd) Hk Hz. unfold one_key. pose proof (zlen_nonneg key).
  rewrite !wr_in_range by (rewrite ?Ho, ?Hl; unfold ELPIS_RRSET_MAX_RR; lia). bind_step. rewrite blit_in_range by lia. bind_step.
  eexists. split; [done|]. split; cbn [rs_len rs_off rs_data rs_used rs_count rs_sigcount app]; rewrite ?zlen_insert; try done.
  - rewrite zlen_splice by lia. done.
  - by repeat constructor.
  - intros [|i] r; [|done]. intros [= <-]. unfold rec_at, idx_rec. cbn [rs_len rs_off rs_data rs_used].
    change (Z.to_nat 0) with 0%nat. unfold zlen, ELPIS_RRSET_MAX_RR in Hl, Ho.
    rewrite !list_lookup_insert_eq by lia. split; [done|]. exists 0. split_and!; [done|lia|lia|]. apply slice_splice_at; lia.
Qed.

Section Ds.
Context `{SigPrims} (conf : sec_conf_t) (mem : bool).
Variables (scratch keys : elpis_rrset_buf_t) (owner : list (list Z)) (ks kgs : list (list Z)) (now : Z).
Hypotheses (Hscratch : rrset_sized scratch) (Howner : labels_ok owner) (Hname : rs_name keys = name_of owner)
  (Hkeys : rrset_holds keys ks kgs) (Hdates : ∀ sig, sig ∈ kgs → 19 <= zlen sig → dates_defined conf now sig).

(** [d] is the DS record of [key]. *)
Definition ds_of (d key : list Z) : Prop := 4 <= zlen key ∧ Exists (fun dt => d = ds_record owner key dt) ds_types.
#[export] Instance ds_of_dec d key : Decision (ds_of d key).
Proof. unfold ds_of. apply _. Defined.

(** [key] has a DS record [d] and signs the whole set. *)
Definition anchored (d key : list Z) : Prop :=
  ds_of d key ∧ ks ≠ [] ∧ ∃ sig, sig ∈ kgs ∧ accepted conf keys owner ks now sig key.

(** The keys that match one DS record, and several. *)
Definition matches (k : list (list Z)) (d : list Z) : Z := zlen (filter (ds_of d) k).
Fixpoint ds_pairs (dss : list (list Z)) : Z :=
  match dss with [] => 0 | d :: dss => matches ks d + ds_pairs dss end.

Lemma matches_nonneg k d : 0 <= matches k d.
Proof. apply zlen_nonneg. Qed.
Lemma ds_pairs_nonneg dss : 0 <= ds_pairs dss.
Proof. induction dss as [|d dss IH]; cbn [ds_pairs]; [lia|]. pose proof (matches_nonneg ks d). lia. Qed.
Lemma matches_cons key k d : matches (key :: k) d = (if decide (ds_of d key) then 1 else 0) + matches k d.
Proof. unfold matches. rewrite filter_cons. case_decide; [by rewrite zlen_cons|done]. Qed.
Lemma matches_pos key k d : key ∈ k → ds_of d key → 1 <= matches k d.
Proof.
  intros Hk Hs. induction k as [|x k IH]; [by apply not_elem_of_nil in Hk|]. rewrite matches_cons. pose proof (matches_nonneg k d).
  apply elem_of_cons in Hk as [<-|Hk]; [rewrite decide_True by done; lia|]. specialize (IH Hk). case_decide; lia.
Qed.
Lemma ds_pairs_pos d key dss : d ∈ dss → key ∈ ks → ds_of d key → 1 <= ds_pairs dss.
Proof.
  intros Hs Hk Hsh. induction dss as [|x dss IH]; [by apply not_elem_of_nil in Hs|]. cbn [ds_pairs].
  pose proof (ds_pairs_nonneg dss). pose proof (matches_nonneg ks x).
  apply elem_of_cons in Hs as [<-|Hs]; [pose proof (matches_pos key ks d Hk Hsh); lia|]. specialize (IH Hs). lia.
Qed.

Lemma one_within_limits key : zlen kgs <= VAL_SIG_TRIES → within_limits [key] kgs ∧ tag_pairs [key] kgs <= VAL_SIG_TRIES.
Proof.
  assert (∀ sig, sharers [key] sig <= 1) as H1.
  { intros sig. rewrite sharers_cons. change (sharers [] sig) with 0. case_decide; lia. }
  assert (∀ sgs, tag_pairs [key] sgs <= zlen sgs) as Hp.
  { induction sgs as [|sig sgs IH]; [done|]. cbn [tag_pairs]. rewrite zlen_cons. pose proof (H1 sig). lia. }
  intros Hl. pose proof (Hp kgs). split; [split|]; [|lia|lia].
  apply Forall_true. intros sig. pose proof (H1 sig). unfold VAL_TAG_COLLIDE. lia.
Qed.

(** The set against one key. *)
Lemma one_key_validate key ede s : bytes key → zlen key <= ELPIS_RRSET_BUF →
  ∃ one rc w ede' s' n, one_key scratch keys key = Ok one ∧
    elpis_rrset_validate conf mem s keys one now None ede = Ok (rc, w, ede', s') ∧ spends n s s' ∧ Z.of_nat n <= VAL_SIG_TRIES ∧
    (rc = ELPIS_OK → ks ≠ [] ∧ ∃ sig, sig ∈ kgs ∧ accepted conf keys owner ks now sig key) ∧
    (mem = true → zlen kgs <= VAL_SIG_TRIES → budget s VAL_SIG_TRIES → ks ≠ [] →
       ∀ sig, sig ∈ kgs → accepted conf keys owner ks now sig key → rc = ELPIS_OK).
Proof.
  intros Hk Hz. destruct (one_key_spec scratch keys key) as (one & Ho & Hone); [done..|].
  destruct (rrset_validate_spec conf mem keys owner ks now Howner Hname one [key] [] Hone kgs Hkeys Hdates None ede s)
    as (rc & w & ede' & s' & n & Hv & Hn & ? & _ & _ & Hok & Hall).
  exists one, rc, w, ede', s', n. split_and!; try done.
  - intros Hrc. destruct (Hok Hrc) as (? & sig & key' & ? & Hin & ? & _). split; [done|]. exists sig. split; [done|].
    apply elem_of_cons in Hin as [->|Hin]; [done|by apply not_elem_of_nil in Hin].
  - intros Hm Hl Hb Hne sig Hs Ha. destruct (one_within_limits key Hl) as [? ?].
    apply (Hall Hm) with (sig := sig) (key := key); try done; [|by left]. by apply (budget_mono _ _ _ Hb).
Qed.

Lemma ds_key_loop_spec d : bytes d → ∀ k i tried ede s, ks = take i ks ++ k → 0 <= tried <= VAL_DS_TRIES →
  ∃ ok tried' ede' s' n,
    ds_key_loop conf mem scratch keys d now (length k) (Z.of_nat i) tried ede s = Ok (ok, tried', ede', s') ∧
    spends n s s' ∧ tried <= tried' <= VAL_DS_TRIES ∧ tried' - tried <= matches k d ∧ Z.of_nat n <= VAL_SIG_TRIES * (tried' - tried) ∧
    (ok = true → ∃ key, key ∈ ks ∧ anchored d key) ∧
    (ok = false → mem = true → tried + matches k d <= VAL_DS_TRIES → zlen kgs <= VAL_SIG_TRIES →
       budget s (VAL_SIG_TRIES * matches k d) → ∀ key, key ∈ k → ¬ anchored d key).
Proof.
  intros Hd k. induction k as [|key k IH]; intros i tried ede s Hi Ht; cbn [length ds_key_loop].
  { exists false, tried, ede, s, 0%nat. pose proof (matches_nonneg [] d).
    split_and!; try done || lia. intros _ _ _ _ _ key Hk. by apply not_elem_of_nil in Hk. }
  pose proof (matches_nonneg k d). pose proof (matches_nonneg (key :: k) d). destruct (Z.ltb_spec tried VAL_DS_TRIES).
  2:{ exists false, tried, ede, s, 0%nat. split_and!; try done || lia.
      intros _ _ ? _ _ x Hx (Ha & _). pose proof (matches_pos x _ d Hx Ha). lia. }
  destruct (key_at keys ks kgs Hkeys k key i Hi) as (_ & -> & Hkb & Hkl & Hi'). bind_step. rewrite Hname, ds_matches_spec by done. bind_step.
  replace (Z.of_nat i + 1) with (Z.of_nat (S i)) by lia. rewrite matches_cons in *. fold (ds_of d key).
  destruct (decide (ds_of d key)) as [Hds|Hds]; [rewrite bool_decide_eq_true_2 by done|rewrite bool_decide_eq_false_2 by done]; cbn [negb].
  2:{ destruct (IH (S i) tried ede s) as (ok & tried' & ede' & s' & n & -> & ? & ? & ? & ? & Hyes & Hno); [done..|].
      exists ok, tried', ede', s', n. split_and!; try done || lia.
      intros Hok Hm ? ? Hb x [->|Hx]%elem_of_cons; [by intros [? _]|by apply Hno]. }
  assert (key ∈ ks) as Hin by (rewrite Hi; apply elem_of_app; right; by left).
  destruct (one_key_validate key ede s) as (one & rc & w & ede1 & s1 & m & -> & Hv & Hm1 & ? & Hyes1 & Hno1);
    [done|apply (rrset_rec_size _ _ _ key Hkeys), elem_of_app; by left|]. bind_step. rewrite Hv. bind_step.
  destruct (decide (rc = ELPIS_OK)) as [Hrc|Hrc].
  - exists true, (tried + 1), ede1, s1, m. split_and!; try done || lia. intros _. destruct (Hyes1 Hrc) as (? & sig & ? & ?).
    exists key. split; [done|]. split; [done|]. split; [done|]. by exists sig.
  - destruct (IH (S i) (tried + 1) ede1 s1) as (ok & tried' & ede' & s' & n & -> & ? & ? & ? & ? & Hyes & Hno); [done|lia|].
    exists ok, tried', ede', s', (m + n)%nat. split_and!; try done || lia; [by eapply spends_trans|].
    intros Hok Hm ? ? Hb x Hx. unfold VAL_SIG_TRIES in *. apply elem_of_cons in Hx as [->|Hx].
    + intros (_ & ? & sig & ? & ?). apply Hrc, (Hno1 Hm) with (sig := sig); try done. apply (budget_mono _ _ _ Hb). lia.
    + apply Hno; [done|done|lia|lia| |done]. apply (budget_mono s1 (8 * (1 + matches k d) - Z.of_nat m)); [apply (spends_budget m s); [done|done|lia]|lia].
Qed.

(** A DS record that counts: long enough, a digest and an algorithm in use, and
    a post-quantum one where the set has any. *)
Definition ds_usable (len_test pq : bool) (d : list Z) : Prop :=
  (len_test = true → 5 <= zlen d) ∧ elpis_digest_supported (octet d 3) = true ∧ elpis_alg_supported conf (octet d 2) = true ∧
  (pq = true → alg_is_pq conf (octet d 2) = true).
#[export] Instance ds_usable_dec len_test pq d : Decision (ds_usable len_test pq d).
Proof. unfold ds_usable. apply _. Defined.

(** The list of DS records is one the loop can read. *)
Definition ds_readable (len_test : bool) (dss : list (list Z)) : Prop :=
  Forall (fun d => bytes d ∧ (len_test = false → 4 <= zlen d)) dss.

Lemma ds_usable_spec (len_test pq : bool) d : (len_test = false → 4 <= zlen d) →
  (if len_test && (zlen d <? 5) then Ok false
   else
     dt ← rd d 3;
     if negb (elpis_digest_supported dt) then Ok false
     else
       alg ← rd d 2;
       if negb (elpis_alg_supported conf alg) then Ok false
       else Ok (negb (pq && negb (alg_is_pq conf alg)))) = Ok (bool_decide (ds_usable len_test pq d)).
Proof.
  intros Hlt. destruct (len_test && (zlen d <? 5)) eqn:E.
  { apply andb_true_iff in E as [-> ?%Z.ltb_lt]. rewrite bool_decide_eq_false_2; [done|]. intros (Hx & _). specialize (Hx eq_refl). lia. }
  assert (4 <= zlen d ∧ (len_test = true → 5 <= zlen d)) as [Hz Hlen].
  { destruct len_test; cbn [andb] in E; [apply Z.ltb_ge in E; lia|]. split; [by apply Hlt|done]. }
  rewrite !rd_octet by lia. bind_step. destruct (elpis_digest_supported (octet d 3)) eqn:Edg; cbn [negb].
  2:{ rewrite bool_decide_eq_false_2; [done|]. intros (_ & ? & _). congruence. }
  destruct (elpis_alg_supported conf (octet d 2)) eqn:Eal; cbn [negb]; [|rewrite bool_decide_eq_false_2; [done|]; intros (_ & _ & ? & _); congruence].
  f_equal. apply eq_true_iff_eq. rewrite bool_decide_eq_true. unfold ds_usable. destruct pq, (alg_is_pq conf (octet d 2)); cbn; intuition congruence.
Qed.

Lemma ds_loop_spec (len_test pq : bool) dss : ds_readable len_test dss → ∀ tried any ede s,
  0 <= tried <= VAL_DS_TRIES → (0 < tried → any = true) →
  ∃ ok any' ede' s' n,
    ds_loop conf mem scratch keys len_test pq now dss tried any ede s = Ok (ok, any', ede', s') ∧
    spends n s s' ∧ Z.of_nat n <= VAL_SIG_TRIES * (VAL_DS_TRIES - tried) ∧
    (any' = true ↔ any = true ∨ ∃ d, d ∈ dss ∧ ds_usable len_test pq d) ∧
    (ok = true → ∃ d key, d ∈ dss ∧ ds_usable len_test pq d ∧ key ∈ ks ∧ anchored d key) ∧
    (ok = false → mem = true → tried + ds_pairs dss <= VAL_DS_TRIES → zlen kgs <= VAL_SIG_TRIES →
       budget s (VAL_SIG_TRIES * ds_pairs dss) →
       ∀ d key, d ∈ dss → ds_usable len_test pq d → key ∈ ks → ¬ anchored d key).
Proof.
  induction 1 as [|d dss [Hdb Hdl] Hr IH]; intros tried any ede s Ht Hany; cbn [ds_loop].
  { exists false, any, ede, s, 0%nat. unfold VAL_SIG_TRIES. split_and!; try done || lia.
    - split; [by left|]. intros [|(d & Hd & _)]; [done|by apply not_elem_of_nil in Hd].
    - intros _ _ _ _ _ d key Hd. by apply not_elem_of_nil in Hd. }
  pose proof (ds_pairs_nonneg dss). pose proof (matches_nonneg ks d). cbn [ds_pairs]. destruct (Z.ltb_spec tried VAL_DS_TRIES) as [Hlt|Hge].
  2:{ exists false, any, ede, s, 0%nat. unfold VAL_SIG_TRIES. split_and!; try done || lia.
      - rewrite Hany by (unfold VAL_DS_TRIES in *; lia). tauto.
      - intros _ _ ? _ _ x key Hx _ Hk (Ha & _). pose proof (ds_pairs_pos x key (d :: dss) Hx Hk Ha) as Hp. cbn [ds_pairs] in Hp. lia. }
  rewrite ds_usable_spec by done. bind_step. destruct (decide (ds_usable len_test pq d)) as [Hu|Hu];
    [rewrite bool_decide_eq_true_2 by done|rewrite bool_decide_eq_false_2 by done]; cbn [negb].
  2:{ destruct (IH tried any ede s) as (ok & any' & ede' & s' & n & -> & ? & ? & Ha & Hyes & Hno); [done..|].
      exists ok, any', ede', s', n. split_and!; try done.
      - rewrite Ha. split; (intros [|(x & Hx & ?)]; [by left|right; exists x]); [split; [by right|done]|].
        apply elem_of_cons in Hx as [->|]; [done|by split].
      - intros Hok. destruct (Hyes Hok) as (x & key & ? & ?). exists x, key. split; [by right|done].
      - intros Hok Hm ? ? Hb x key [->|Hx]%elem_of_cons; [done|]. apply Hno; try done; [lia|]. apply (budget_mono _ _ _ Hb).
        unfold VAL_SIG_TRIES. lia. }
  rewrite (rh_count _ _ _ Hkeys). replace (Z.to_nat (zlen ks)) with (length ks) by zl.
  destruct (ds_key_loop_spec d Hdb ks 0 tried ede s) as (ok1 & tried1 & ede1 & s1 & m & E & Hm1 & ? & ? & ? & Hyes1 & Hno1); [done|lia|].
  change (Z.of_nat 0) with 0 in E. rewrite E. bind_step. unfold VAL_SIG_TRIES in *. destruct ok1.
  - exists true, true, ede1, s1, m. split_and!; try done || lia.
    + split; [|done]. intros _. right. exists d. split; [by left|done].
    + intros _. destruct (Hyes1 eq_refl) as (key & ? & ?). exists d, key. split; [by left|done].
  - destruct (IH tried1 true ede1 s1) as (ok & any' & ede' & s' & n & -> & ? & ? & Ha & Hyes & Hno); [lia|done|].
    exists ok, any', ede', s', (m + n)%nat. split_and!; try done || lia.
    + by eapply spends_trans.
    + rewrite Ha. split; [|by left]. intros _. right. exists d. split; [by left|done].
    + intros Hok. destruct (Hyes Hok) as (x & key & ? & ?). exists x, key. split; [by right|done].
    + intros Hok Hm ? ? Hb x key Hx Hux Hk. apply elem_of_cons in Hx as [->|Hx].
      * apply Hno1; [done|done|lia|done|apply (budget_mono _ _ _ Hb); lia|done].
      * apply Hno; [done|done|lia|done| |done|done|done].
        apply (budget_mono s1 (8 * (matches ks d + ds_pairs dss) - Z.of_nat m)); [apply (spends_budget m s); [done|done|lia]|lia].
Qed.

(** What both validations of a DNSKEY set come to, for the records [dss]. *)
Definition ds_outcome (len_test pq : bool) (dss : list (list Z)) (s : counters) (r : elpis_rc_t * option Z * counters) : Prop :=
  let '(rc, ede', s') := r in
  (∃ n, spends n s s' ∧ Z.of_nat n <= VAL_SIG_TRIES * VAL_DS_TRIES) ∧
  (rc = ELPIS_OK ∨ rc = ELPIS_EBOGUS ∨ rc = ELPIS_ENOTFOUND) ∧
  (rc = ELPIS_ENOTFOUND ↔ ¬ ∃ d, d ∈ dss ∧ ds_usable len_test pq d) ∧
  (rc = ELPIS_OK → ∃ d key, d ∈ dss ∧ ds_usable len_test pq d ∧ key ∈ ks ∧ anchored d key) ∧
  (mem = true → ds_pairs dss <= VAL_DS_TRIES → zlen kgs <= VAL_SIG_TRIES → budget s (VAL_SIG_TRIES * ds_pairs dss) →
     (∃ d key, d ∈ dss ∧ ds_usable len_test pq d ∧ key ∈ ks ∧ anchored d key) → rc = ELPIS_OK).

Lemma ds_loop_outcome (len_test pq : bool) dss ede s : ds_readable len_test dss →
  ∃ r, ds_loop conf mem scratch keys len_test pq now dss 0 false ede s = Ok r ∧ ds_outcome len_test pq dss s (ds_verdict r).
Proof.
  intros Hr. destruct (ds_loop_spec len_test pq dss Hr 0 false ede s) as (ok & any & ede' & s' & n & -> & Hn & ? & Ha & Hyes & Hno);
    [unfold VAL_DS_TRIES; lia|lia|]. eexists. split; [done|]. unfold ds_verdict, ds_outcome.
  assert (any = true ↔ ∃ d, d ∈ dss ∧ ds_usable len_test pq d) as Ha'.
  { rewrite Ha. split; [by intros [|]|by right]. }
  assert (∃ n, spends n s s' ∧ Z.of_nat n <= VAL_SIG_TRIES * VAL_DS_TRIES) as Hs by (exists n; unfold VAL_SIG_TRIES in *; split; [done|lia]).
  destruct ok; [|destruct any]; cbn [negb].
  - destruct (Hyes eq_refl) as (d & key & Hd & Hu & Hk & Hx). split_and!; try done; [by left| |intros _; by exists d, key].
    split; [done|]. intros Hno'. destruct Hno'. by exists d.
  - split_and!; try done; [by right; left| |].
    + split; [done|]. intros Hno'. destruct Hno'. by apply Ha'.
    + intros Hm ? ? Hb (d & key & ? & ? & ? & ?). exfalso. by apply (Hno eq_refl Hm) with (d := d) (key := key).
  - split_and!; try done; [by right; right| |].
    + split; [|done]. intros _ Hex. by apply Ha' in Hex.
    + intros Hm ? ? Hb (d & key & ? & ? & _). exfalso. assert (false = true) by (apply Ha'; by exists d). done.
Qed.
End Ds.

(** The anchors at one owner. *)
Definition ta_at (owner : list (list Z)) (ta : elpis_ta_t) : bool :=
  match elpis_name_eq (ta_name ta) (name_of owner) with Ok b => b | _ => false end.

Lemma ta_for_spec owner tas : labels_ok owner → Forall (fun ta => wf_name (ta_name ta)) tas →
  ∀ max, elpis_ta_for tas (name_of owner) max = Ok (take max (filter (fun ta => ta_at owner ta = true) tas)).
Proof.
  intros Ho. induction 1 as [|ta tas (ls & Hls & Hn) Hw IH]; intros [|max]; cbn [elpis_ta_for]; [done..|].
  assert (elpis_name_eq (ta_name ta) (name_of owner) = Ok (ta_at owner ta)) as E by (unfold ta_at; by rewrite Hn, name_eq_spec).
  rewrite E. bind_step. rewrite filter_cons. destruct (ta_at owner ta); [rewrite decide_True by done|rewrite decide_False by done]; by rewrite IH.
Qed.

Lemma dates_defined_no_skew conf now sig : sig_skew conf = 0 → dates_defined conf now sig.
Proof.
  intros Hk. unfold dates_defined, sig_dates. rewrite Hk. change (i32 0) with 0.
  assert (∀ x, add32 (i32 x) 0 = Ok (i32 x)) as Ha.
  { intros x. unfold add32, i32. pose proof (Z.mod_pos_bound (x + 2 ^ 31) (2 ^ 32)). rewrite Z.add_0_r.
    by assert ((- 2 ^ 31 <=? (x + 2 ^ 31) mod 2 ^ 32 - 2 ^ 31) && ((x + 2 ^ 31) mod 2 ^ 32 - 2 ^ 31 <? 2 ^ 31) = true) as -> by lia. }
  rewrite !Ha. bind_step. destruct (_ <? 0); [by eexists|]. bind_step. destruct (_ <? 0); by eexists.
Qed.

(** The two calls on the sets as they are. *)
Lemma dnskey_validate_ds_spec `{SigPrims} (conf : sec_conf_t) (mem : bool) (scratch keys ds : elpis_rrset_buf_t)
    (owner : list (list Z)) (ks kgs dss dgs : list (list Z)) (now : Z) (ede : option Z) (s : counters) :
  rrset_sized scratch → labels_ok owner → rs_name keys = name_of owner → rrset_holds keys ks kgs → rrset_holds ds dss dgs →
  Forall (dates_defined conf now) kgs →
  ∃ r, elpis_dnskey_validate_ds conf mem scratch s keys ds now ede = Ok r ∧
    ds_outcome conf mem keys owner ks kgs now true (bool_decide (wants_pq conf ds dss)) dss s r.
Proof.
  intros Hsc Ho Hn Hk Hds Hd. unfold elpis_dnskey_validate_ds. rewrite (ds_wants_pq_spec conf ds dss dgs Hds). bind_step.
  rewrite (rh_count _ _ _ Hds). replace (Z.to_nat (zlen dss)) with (length dss) by zl.
  pose proof (rrset_recs_spec _ _ _ Hds 0 ltac:(lia)) as Hrecs. rewrite Nat.sub_0_r, drop_0 in Hrecs. change (Z.of_nat 0) with 0 in Hrecs.
  rewrite Hrecs. bind_step.
  destruct (ds_loop_outcome conf mem scratch keys owner ks kgs now Hsc Ho Hn Hk) with (len_test := true)
    (pq := bool_decide (wants_pq conf ds dss)) (dss := dss) (ede := ede) (s := s) as (r & -> & Hr).
  - intros sig Hin _. by apply (Forall_elem (dates_defined conf now) kgs).
  - apply Forall_forall. intros d Hin. apply list_elem_of_In in Hin. split; [|done].
    apply (rrset_rec_size _ _ _ d Hds), elem_of_app. by left.
  - by eexists.
Qed.

Lemma dnskey_validate_ta_spec `{SigPrims} (conf : sec_conf_t) (mem : bool) (scratch keys : elpis_rrset_buf_t)
    (store : list elpis_ta_t) (owner : list (list Z)) (ks kgs : list (list Z)) (now : Z) (ede : option Z) (s : counters) :
  rrset_sized scratch → labels_ok owner → rs_name keys = name_of owner → rrset_holds keys ks kgs →
  Forall (dates_defined conf now) kgs →
  Forall (fun ta => wf_name (ta_name ta) ∧ byte (ta_alg ta) ∧ byte (ta_digest_type ta) ∧ bytes (ta_digest ta)) store →
  let tas := take 16 (filter (fun ta => ta_at owner ta = true) store) in
  ∃ r, elpis_dnskey_validate_ta conf mem scratch s store keys now ede = Ok r ∧
    ds_outcome conf mem keys owner ks kgs now false false (map ta_ds tas) s r.
Proof.
  intros Hsc Ho Hn Hk Hd Hta tas. unfold elpis_dnskey_validate_ta. rewrite Hn, ta_for_spec; [|done|eapply Forall_impl; [|exact Hta]; by intros ta (? & _)].
  bind_step. fold tas. destruct (Z.eqb_spec (zlen tas) 0) as [Hz|Hz].
  - apply zlen_0_nil in Hz. rewrite Hz. eexists. split; [done|]. unfold ds_outcome. split_and!; try done.
    + by exists 0%nat.
    + by right; right.
    + split; [|done]. intros _ (d & Hin & _). by apply not_elem_of_nil in Hin.
    + intros _ _ _ _ (d & key & Hin & _). by apply not_elem_of_nil in Hin.
  - destruct (ds_loop_outcome conf mem scratch keys owner ks kgs now Hsc Ho Hn Hk) with (len_test := false)
      (pq := false) (dss := map ta_ds tas) (ede := ede) (s := s) as (r & -> & Hr); [..|by eexists].
    + intros sig Hin _. by apply (Forall_elem (dates_defined conf now) kgs).
    + apply Forall_map, Forall_take, Forall_filter. eapply Forall_impl; [|exact Hta]. intros ta (_ & ? & ? & ?). unfold ta_ds. split.
      * apply Forall_app. split; [apply bytes_put16|]. by do 2 (constructor; [done|]).
      * intros _. rewrite zlen_app, zlen_put16. cbn [app]. rewrite !zlen_cons. pose proof (zlen_nonneg (ta_digest ta)). lia.
Qed.

(** ** Lapsed signatures *)

(** The window is the one signatures are verified with. *)
Lemma sig_in_window_spec conf sig now : bytes sig → 19 <= zlen sig →
  sig_in_window conf sig now = late ← sig_dates conf (oct32 sig 8) (oct32 sig 12) now; Ok (bool_decide (late = None)).
Proof.
  intros Hs Hz. unfold sig_in_window, sig_dates. rewrite !get32_oct by (done || lia). bind_step.
  pose proof (oct32_range sig 8 Hs). pose proof (oct32_range sig 12 Hs). rewrite !(u32_id (oct32 sig _)) by lia.
  set (A := add32 (i32 (u32 (oct32 sig 8 - u32 now))) _). set (B := add32 _ _).
  destruct A as [x|rc d|f]; cbn [mbind res_bind]; [|done..]. rewrite Z.leb_antisym. destruct (x <? 0); cbn [negb mbind res_bind]; [done|].
  destruct B as [y|rc d|f]; cbn [mbind res_bind]; [|done..]. rewrite Z.leb_antisym. by destruct (y <? 0).
Qed.

(** ** Properties *)

(** C11. An RRset is called valid only when one of its signatures is accepted under
    one of the keys given, its wildcard is then the one the signature was made
    from, and it is called unsigned exactly when it has records and no
    signature.  Whatever is in the two sets, the call returns and counts no more
    than eight public-key operations, and the budget of a validation is never
    counted past 64. *)
Theorem rrset_validate_sound `{SigPrims} (conf : sec_conf_t) (mem : bool) (set keys : elpis_rrset_buf_t)
    (owner : list (list Z)) (rs sgs ks kgs : list (list Z)) (now : Z) (wild : option elpis_name_t) (ede : option Z) (s : counters) :
  labels_ok owner → rs_name set = name_of owner → rrset_holds set rs sgs → rrset_holds keys ks kgs →
  Forall (dates_defined conf now) sgs →
  ∃ rc wild' ede' s' n, elpis_rrset_validate conf mem s set keys now wild ede = Ok (rc, wild', ede', s') ∧
    spends n s s' ∧ Z.of_nat n <= VAL_SIG_TRIES ∧
    (∀ b, g_val_spent s = Some b → 0 <= b <= VAL_MAX_VERIFIES → ∃ b', g_val_spent s' = Some b' ∧ b <= b' <= VAL_MAX_VERIFIES) ∧
    (rc = ELPIS_ENOTFOUND ↔ rs ≠ [] ∧ sgs = []) ∧
    (rc = ELPIS_OK → rs ≠ [] ∧ ∃ sig key, sig ∈ sgs ∧ key ∈ ks ∧ accepted conf set owner rs now sig key ∧
       wild' = wildcard_report owner sig <$> wild).
Proof.
  intros Ho Hn Hs Hk Hd.
  destruct (rrset_validate_spec conf mem set owner rs now Ho Hn keys ks kgs Hk sgs Hs) with (wild := wild) (ede := ede) (s := s)
    as (rc & wild' & ede' & s' & n & Hv & Hsp & Hle & _ & Hnf & Hok & _).
  { intros sig Hin _. by apply (Forall_elem (dates_defined conf now) sgs). }
  exists rc, wild', ede', s', n. split_and!; try done. intros b Hb Hr. destruct (spends_capped n s s' b Hsp Hb Hr) as [? ?].
  eexists. split; [done|]. lia.
Qed.

Lemma rrset_validate_sound_witness :
  let conf := mkSecConf true 18 25 26 0 in let s := mkCounters 0 (Some 0) in
  let rs := [[1; 2; 3; 4]] in let sgs := [sig_ex key_ex] in let ks := [key_ex] in
  let set := rrset_of (name_of [[88]]) 1 1 60 0 rs sgs in let keys := rrset_of (name_of [[120]]) 48 1 60 0 ks [] in
  ∃ rc wild' ede' s' n, @elpis_rrset_validate accept_all conf true s set keys 300 (Some elpis_name_root) None = Ok (rc, wild', ede', s') ∧
    spends n s s' ∧ Z.of_nat n <= VAL_SIG_TRIES ∧
    (∀ b, g_val_spent s = Some b → 0 <= b <= VAL_MAX_VERIFIES → ∃ b', g_val_spent s' = Some b' ∧ b <= b' <= VAL_MAX_VERIFIES) ∧
    (rc = ELPIS_ENOTFOUND ↔ rs ≠ [] ∧ sgs = []) ∧
    (rc = ELPIS_OK → rs ≠ [] ∧ ∃ sig key, sig ∈ sgs ∧ key ∈ ks ∧ @accepted accept_all conf set [[88]] rs 300 sig key ∧
       wild' = wildcard_report [[88]] sig <$> Some elpis_name_root).
Proof.
  intros conf s rs sgs ks set keys.
  apply (@rrset_validate_sound accept_all conf true set keys [[88]] rs sgs ks [] 300 (Some elpis_name_root) None s);
    [by_compute|done|apply rrset_of_holds; by_compute|apply rrset_of_holds; by_compute|].
  repeat constructor. by apply dates_defined_no_skew.
Defined.

(** C12. Nothing valid is refused within the limits: when no signature names a tag
    that more than four keys share, no more than eight pairs of a signature and
    a key share one, and the buffer and the budget are there, the set is called
    valid exactly when one of its signatures is accepted under one of the keys. *)
Theorem rrset_validate_complete `{SigPrims} (conf : sec_conf_t) (set keys : elpis_rrset_buf_t)
    (owner : list (list Z)) (rs sgs ks kgs : list (list Z)) (now : Z) (wild : option elpis_name_t) (ede : option Z) (s : counters) :
  labels_ok owner → rs_name set = name_of owner → rrset_holds set rs sgs → rrset_holds keys ks kgs →
  Forall (dates_defined conf now) sgs → within_limits ks sgs → budget s (tag_pairs ks sgs) → rs ≠ [] →
  ∃ rc wild' ede' s', elpis_rrset_validate conf true s set keys now wild ede = Ok (rc, wild', ede', s') ∧
    (rc = ELPIS_OK ↔ ∃ sig key, sig ∈ sgs ∧ key ∈ ks ∧ accepted conf set owner rs now sig key).
Proof.
  intros Ho Hn Hs Hk Hd Hw Hb Hne.
  destruct (rrset_validate_spec conf true set owner rs now Ho Hn keys ks kgs Hk sgs Hs) with (wild := wild) (ede := ede) (s := s)
    as (rc & wild' & ede' & s' & n & Hv & _ & _ & _ & _ & Hok & Hall).
  { intros sig Hin _. by apply (Forall_elem (dates_defined conf now) sgs). }
  exists rc, wild', ede', s'. split; [done|]. split.
  - intros Hrc. destruct (Hok Hrc) as (_ & sig & key & ? & ? & ? & _). by exists sig, key.
  - intros (sig & key & ? & ? & ?). by apply (Hall eq_refl Hw Hb Hne sig key).
Qed.

Lemma rrset_validate_complete_witness :
  let conf := mkSecConf true 18 25 26 0 in let s := mkCounters 0 (Some 60) in
  let rs := [[1; 2; 3; 4]] in let sgs := [sig_ex key_ex] in let ks := [key_ex] in
  let set := rrset_of (name_of [[88]]) 1 1 60 0 rs sgs in let keys := rrset_of (name_of [[120]]) 48 1 60 0 ks [] in
  ∃ rc wild' ede' s', @elpis_rrset_validate accept_all conf true s set keys 300 None None = Ok (rc, wild', ede', s') ∧
    (rc = ELPIS_OK ↔ ∃ sig key, sig ∈ sgs ∧ key ∈ ks ∧ @accepted accept_all conf set [[88]] rs 300 sig key).
Proof.
  intros conf s rs sgs ks set keys.
  apply (@rrset_validate_complete accept_all conf set keys [[88]] rs sgs ks [] 300 None None s);
    [by_compute|done|apply rrset_of_holds; by_compute|apply rrset_of_holds; by_compute| |split; by_compute|by_compute|done].
  repeat constructor. by apply dates_defined_no_skew.
Defined.

(** C13. A DNSKEY set is called authentic only when a DS record that counts is the DS
    record of one of its keys and that key signs the whole set; the delegation is
    insecure exactly when no DS record counts.  The call returns after 32
    public-key operations at most, and within the limits (four matching pairs,
    eight signatures, the budget) no authentic set is refused. *)
Theorem dnskey_validate_ds_exact `{SigPrims} (conf : sec_conf_t) (mem : bool) (scratch keys ds : elpis_rrset_buf_t)
    (owner : list (list Z)) (ks kgs dss dgs : list (list Z)) (now : Z) (ede : option Z) (s : counters) :
  rrset_sized scratch → labels_ok owner → rs_name keys = name_of owner → rrset_holds keys ks kgs → rrset_holds ds dss dgs →
  Forall (dates_defined conf now) kgs →
  ∃ r, elpis_dnskey_validate_ds conf mem scratch s keys ds now ede = Ok r ∧
    ds_outcome conf mem keys owner ks kgs now true (bool_decide (wants_pq conf ds dss)) dss s r.
Proof. exact (dnskey_validate_ds_spec conf mem scratch keys ds owner ks kgs dss dgs now ede s). Qed.

(** The same against the trust anchors at the set's own name, up to sixteen of
    them; with no anchor there the answer is that there is none. *)
Theorem dnskey_validate_ta_exact `{SigPrims} (conf : sec_conf_t) (mem : bool) (scratch keys : elpis_rrset_buf_t)
    (store : list elpis_ta_t) (owner : list (list Z)) (ks kgs : list (list Z)) (now : Z) (ede : option Z) (s : counters) :
  rrset_sized scratch → labels_ok owner → rs_name keys = name_of owner → rrset_holds keys ks kgs →
  Forall (dates_defined conf now) kgs →
  Forall (fun ta => wf_name (ta_name ta) ∧ byte (ta_alg ta) ∧ byte (ta_digest_type ta) ∧ bytes (ta_digest ta)) store →
  let tas := take 16 (filter (fun ta => ta_at owner ta = true) store) in
  ∃ r, elpis_dnskey_validate_ta conf mem scratch s store keys now ede = Ok r ∧
    ds_outcome conf mem keys owner ks kgs now false false (map ta_ds tas) s r.
Proof. exact (dnskey_validate_ta_spec conf mem scratch keys store owner ks kgs now ede s). Qed.

(** The examples of both: a set with one key, its DS record and its signature. *)
Definition dnskey_sig_ex : list Z :=
  [0; 48; 15; 1; 0; 0; 0; 60; 0; 0; 2; 0; 0; 0; 1; 0] ++ put16_bytes (key_tag key_ex) ++ wire [[120]] ++ replicate 64 1.

Lemma dnskey_validate_ds_exact_witness :
  let conf := mkSecConf true 18 25 26 0 in let s := mkCounters 0 (Some 0) in let owner := [[120]] in
  let ks := [key_ex] in let kgs := [dnskey_sig_ex] in let dss := [ds_record owner key_ex 2] in
  let keys := rrset_of (name_of owner) 48 1 60 0 ks kgs in let ds := rrset_of (name_of owner) 43 1 60 0 dss [] in
  ∃ r, @elpis_dnskey_validate_ds accept_all conf true keys s keys ds 300 None = Ok r ∧
    @ds_outcome accept_all conf true keys owner ks kgs 300 true (bool_decide (wants_pq conf ds dss)) dss s r.
Proof.
  intros conf s owner ks kgs dss keys ds.
  apply (@dnskey_validate_ds_exact accept_all conf true keys keys ds owner ks kgs dss [] 300 None s);
    [by_compute|by_compute|done|apply rrset_of_holds; by_compute|apply rrset_of_holds; by_compute|].
  repeat constructor. by apply dates_defined_no_skew.
Defined.

Lemma dnskey_validate_ta_exact_witness :
  let conf := mkSecConf true 18 25 26 0 in let s := mkCounters 0 (Some 0) in let owner := [[120]] in
  let ks := [key_ex] in let kgs := [dnskey_sig_ex] in
  let keys := rrset_of (name_of owner) 48 1 60 0 ks kgs in
  let store := [mkTa (name_of owner) (key_tag key_ex) 15 2 (hash_spec 2 (wire owner ++ key_ex))] in
  let tas := take 16 (filter (fun ta => ta_at owner ta = true) store) in
  ∃ r, @elpis_dnskey_validate_ta accept_all conf true keys s store keys 300 None = Ok r ∧
    @ds_outcome accept_all conf true keys owner ks kgs 300 false false (map ta_ds tas) s r.
Proof.
  intros conf s owner ks kgs keys store.
  apply (@dnskey_validate_ta_exact accept_all conf true keys keys store owner ks kgs 300 None s);
    [by_compute|by_compute|done|apply rrset_of_holds; by_compute| |].
  - repeat constructor. by apply dates_defined_no_skew.
  - constructor; [|done]. split; [by exists owner; split; [by_compute|]|by_compute].
Defined.

(** The chain from the DS record and from the anchor does accept that set. *)
Example chain_accepted :
  let conf := mkSecConf true 18 25 26 0 in let s := mkCounters 0 (Some 0) in let owner := [[120]] in
  let keys := rrset_of (name_of owner) 48 1 60 0 [key_ex] [dnskey_sig_ex] in
  let ds := rrset_of (name_of owner) 43 1 60 0 [ds_record owner key_ex 2] [] in
  @elpis_dnskey_validate_ds accept_all conf true keys s keys ds 300 None = Ok (ELPIS_OK, None, mkCounters 1 (Some 1)) ∧
  @elpis_dnskey_validate_ta accept_all conf true keys s
    [mkTa (name_of [[88]]) (key_tag key_ex) 15 2 (hash_spec 2 (wire owner ++ key_ex))] keys 300 None
    = Ok (ELPIS_OK, None, mkCounters 1 (Some 1)).
Proof. split; by vm_compute. Qed.
