(* ===== verification/Group.v ===== *)
(** The control-byte groups of the cache: include/elpis/simd.h, lines 193 to
    300, in the portable form every vector backend must agree with; and the
    loops over the set bits of the masks they return. *)
From stdpp Require Import base list numbers.
From Stdlib Require Import ZArith Lia.
From S2P Require Import Prelude Bytes.

(** ** Definitions *)

Definition ELPIS_GROUP : Z := 16.

(** [for (i = 0; i < ELPIS_GROUP; i++) r |= (uint32_t)(test(ctrl[i])) << i], at
    [ctrl + g]. *)
Fixpoint group_bits (test : Z → bool) (ctrl : list Z) (g : Z) (k : nat) (i r : Z) : res Z :=
  match k with
  | O => Ok r
  | S k => c ← rd ctrl (g + i); group_bits test ctrl g k (i + 1) (Z.lor r (Z.shiftl (Z.b2z (test c)) i))
  end.

Definition elpis_group_match (ctrl : list Z) (g tag : Z) : res Z :=
  group_bits (fun c => c =? tag) ctrl g (Z.to_nat ELPIS_GROUP) 0 0.

Definition elpis_group_special (ctrl : list Z) (g : Z) : res Z :=
  group_bits (fun c => negb (Z.land c 0x80 =? 0)) ctrl g (Z.to_nat ELPIS_GROUP) 0 0.

(** [while ((m & 1) == 0) { m >>= 1; n++; }]; a 32-bit mask has at most 32 turns. *)
Fixpoint ctz_loop (fuel : nat) (m n : Z) : res Z :=
  match fuel with
  | O => Stuck OutOfFuel
  | S fuel => if Z.land m 1 =? 0 then ctz_loop fuel (Z.shiftr m 1) (n + 1) else Ok n
  end.
Definition elpis_ctz32 (m : Z) : res Z := ctz_loop 32 m 0.

(** ** Masks *)

(** The number whose bits are [bs], lowest first. *)
Fixpoint mask_of (bs : list bool) : Z :=
  match bs with [] => 0 | b :: bs => Z.b2z b + 2 * mask_of bs end.

Lemma mask_of_nonneg bs : 0 <= mask_of bs.
Proof. induction bs as [|b bs IH]; cbn [mask_of]; [lia|]. destruct b; cbn [Z.b2z]; lia. Qed.

Lemma mask_of_zero bs : mask_of bs = 0 ↔ Forall (fun b => b = false) bs.
Proof.
  induction bs as [|b bs IH]; cbn [mask_of]; [done|]. pose proof (mask_of_nonneg bs). split.
  - intros Hz. destruct b; cbn [Z.b2z] in Hz; [lia|]. constructor; [done|]. apply IH. lia.
  - intros [-> Hf]%Forall_cons_1. apply IH in Hf. cbn [Z.b2z]. lia.
Qed.

Lemma mask_of_bound bs : mask_of bs < 2 ^ zlen bs.
Proof.
  induction bs as [|b bs IH]; [done|]. cbn [mask_of]. rewrite zlen_cons, Z.pow_add_r by (apply zlen_nonneg || lia).
  pose proof (mask_of_nonneg bs). destruct b; cbn [Z.b2z]; lia.
Qed.

Lemma mask_of_app bs cs : mask_of (bs ++ cs) = mask_of bs + 2 ^ zlen bs * mask_of cs.
Proof.
  induction bs as [|b bs IH]; cbn [app mask_of]; [change (zlen (@nil bool)) with 0; lia|].
  rewrite IH, zlen_cons, Z.pow_add_r by (apply zlen_nonneg || lia). lia.
Qed.

Lemma lor_bit_top r i b : 0 <= i → 0 <= r < 2 ^ i → Z.lor r (Z.shiftl (Z.b2z b) i) = r + 2 ^ i * Z.b2z b.
Proof. intros. rewrite Z.lor_comm, lor_shiftl_add by lia. lia. Qed.

Lemma group_bits_spec (test : Z → bool) ctrl g : ∀ k seen, 0 <= g →
  g + zlen seen + Z.of_nat k <= zlen ctrl →
  group_bits test ctrl g k (zlen seen) (mask_of seen)
    = Ok (mask_of (seen ++ map test (slice ctrl (g + zlen seen) (Z.of_nat k)))).
Proof.
  induction k as [|k IH]; intros dn Hg Hl; cbn [group_bits].
  { change (Z.of_nat 0) with 0. unfold slice at 1. cbn [Z.to_nat take map]. by rewrite app_nil_r. }
  pose proof (zlen_nonneg dn). destruct (rd_in_range ctrl (g + zlen dn)) as (c & -> & Hc); [lia|]. bind_step.
  pose proof (mask_of_nonneg dn). pose proof (mask_of_bound dn). rewrite lor_bit_top by lia.
  assert (mask_of dn + 2 ^ zlen dn * Z.b2z (test c) = mask_of (dn ++ [test c])) as -> by (rewrite mask_of_app; cbn [mask_of]; lia).
  assert (zlen (dn ++ [test c]) = zlen dn + 1) as E by (rewrite zlen_app, zlen_cons, zlen_nil; lia).
  rewrite <- E, IH by lia. rewrite E, <- app_assoc. do 2 f_equal. cbn [app]. do 2 f_equal.
  unfold slice. replace (Z.to_nat (Z.of_nat (S k))) with (S k) by lia. replace (Z.to_nat (Z.of_nat k)) with k by lia.
  rewrite (drop_S _ _ _ Hc). cbn [take map]. do 4 f_equal. lia.
Qed.

Lemma group_match_spec ctrl g tag : 0 <= g → g + ELPIS_GROUP <= zlen ctrl →
  elpis_group_match ctrl g tag = Ok (mask_of (map (fun c => c =? tag) (slice ctrl g ELPIS_GROUP))).
Proof.
  intros Hg Hl. unfold elpis_group_match, ELPIS_GROUP in *.
  rewrite (group_bits_spec _ ctrl g (Z.to_nat 16) []) by (rewrite ?(@zlen_nil bool); lia). by rewrite Z.add_0_r.
Qed.

(** A control byte with its high bit set marks a slot that is not full. *)
Definition special (c : Z) : bool := negb (Z.land c 0x80 =? 0).

Lemma group_special_spec ctrl g : 0 <= g → g + ELPIS_GROUP <= zlen ctrl →
  elpis_group_special ctrl g = Ok (mask_of (map special (slice ctrl g ELPIS_GROUP))).
Proof.
  intros Hg Hl. unfold elpis_group_special, ELPIS_GROUP in *.
  rewrite (group_bits_spec _ ctrl g (Z.to_nat 16) []) by (rewrite ?(@zlen_nil bool); lia). by rewrite Z.add_0_r.
Qed.

(** ** The lowest bit *)

Lemma land_double a b : Z.land (2 * a) (2 * b + 1) = 2 * Z.land a b.
Proof.
  apply Z.bits_inj'. intros n Hn. rewrite Z.land_spec. destruct (Z.eq_dec n 0) as [->|].
  - by rewrite !Z.testbit_even_0.
  - replace n with (Z.succ (n - 1)) by lia. rewrite !Z.testbit_even_succ, Z.testbit_odd_succ by lia. by rewrite Z.land_spec.
Qed.

(** The loops [while (m) { b = ctz(m); ...; m &= m - 1; }] visit the set bits
    from the lowest up: [i] clear bits, then [bs]. *)
Definition mask_at (i : nat) (bs : list bool) : Z := 2 ^ Z.of_nat i * mask_of bs.

Lemma mask_at_0 bs : mask_at 0 bs = mask_of bs.
Proof. unfold mask_at. change (2 ^ Z.of_nat 0) with 1. lia. Qed.

Lemma mask_at_false i bs : mask_at i (false :: bs) = mask_at (S i) bs.
Proof. unfold mask_at. rewrite Nat2Z.inj_succ, Z.pow_succ_r by lia. cbn [mask_of Z.b2z]. lia. Qed.

Lemma mask_at_zero i bs : mask_at i bs = 0 ↔ Forall (fun b => b = false) bs.
Proof. rewrite <- mask_of_zero. unfold mask_at. pose proof (Z.pow_pos_nonneg 2 (Z.of_nat i)). nia. Qed.

Lemma mask_at_true i bs : mask_at i (true :: bs) = 2 ^ Z.of_nat i * (2 * mask_of bs + 1).
Proof. unfold mask_at. cbn [mask_of Z.b2z]. lia. Qed.

Lemma clear_lowest i bs : Z.land (mask_at i (true :: bs)) (mask_at i (true :: bs) - 1) = mask_at (S i) bs.
Proof.
  rewrite mask_at_true. unfold mask_at. induction i as [|i IH].
  - change (2 ^ Z.of_nat 0) with 1. change (2 ^ Z.of_nat 1) with 2. rewrite Z.mul_1_l. set (M := mask_of bs).
    replace (2 * M + 1 - 1) with (2 * M) by lia. rewrite Z.land_comm, land_double. f_equal. apply Z.land_diag.
  - rewrite !Nat2Z.inj_succ, !Z.pow_succ_r in * by lia. set (x := 2 ^ Z.of_nat i * (2 * mask_of bs + 1)) in *.
    replace (2 * 2 ^ Z.of_nat i * (2 * mask_of bs + 1)) with (2 * x) by (unfold x; lia).
    replace (2 * x - 1) with (2 * (x - 1) + 1) by lia. rewrite land_double, IH. lia.
Qed.

Lemma ctz_loop_spec i bs : ∀ fuel n, (i < fuel)%nat →
  ctz_loop fuel (mask_at i (true :: bs)) n = Ok (n + Z.of_nat i).
Proof.
  rewrite mask_at_true. induction i as [|i IH]; intros [|fuel] n Hf; try lia; cbn [ctz_loop].
  - change (2 ^ Z.of_nat 0) with 1. rewrite Z.mul_1_l. change 1 with (Z.ones 1) at 2. rewrite Z.land_ones by lia.
    replace (2 * mask_of bs + 1) with (1 + mask_of bs * 2 ^ 1) by lia. rewrite Z.mod_add by lia. cbn. f_equal. lia.
  - rewrite Nat2Z.inj_succ, Z.pow_succ_r by lia. set (x := 2 ^ Z.of_nat i * (2 * mask_of bs + 1)) in *.
    replace (2 * 2 ^ Z.of_nat i * (2 * mask_of bs + 1)) with (x * 2 ^ 1) by (unfold x; lia).
    change 1 with (Z.ones 1) at 2. rewrite Z.land_ones by lia. rewrite Z.mod_mul by lia. cbn [Z.eqb].
    rewrite <- Z.shiftl_mul_pow2, Z.shiftr_shiftl_l, Z.sub_diag, Z.shiftl_0_r by lia. rewrite IH by lia. f_equal. lia.
Qed.

Lemma ctz_spec i bs : (i < 32)%nat → elpis_ctz32 (mask_at i (true :: bs)) = Ok (Z.of_nat i).
Proof. intros Hi. unfold elpis_ctz32. rewrite ctz_loop_spec by done. by f_equal. Qed.

Lemma mask_at_nonzero i bs : mask_at i (true :: bs) ≠ 0.
Proof. intros H. apply mask_at_zero in H. by apply Forall_cons_1 in H as [? _]. Qed.

(** A mask that is not zero has a lowest bit. *)
Lemma mask_first bs : ∀ i, mask_at i bs ≠ 0 →
  ∃ b rest, bs = replicate b false ++ true :: rest ∧ mask_at i bs = mask_at (i + b) (true :: rest).
Proof.
  induction bs as [|[] bs IH]; intros i Hz.
  - unfold mask_at in Hz. cbn [mask_of] in Hz. lia.
  - exists 0%nat, bs. by rewrite Nat.add_0_r.
  - rewrite mask_at_false in *. destruct (IH (S i) Hz) as (b & rest & -> & ->). exists (S b), rest.
    by replace (i + S b)%nat with (S i + b)%nat by lia.
Qed.
