(* ===== verification/Cache.v ===== *)
(** The shard of the cache: src/cache/cache.c, an open-addressing table probed
    in groups of sixteen control bytes, with CLOCK eviction.

    Every operation takes the shard lock, so it is one step on the shard; the
    entries an operation frees are returned with its result.  What an entry
    holds, what a key is and the callback that compares them are parameters;
    [alloc] says whether the arrays
    of a table of that size can be allocated. *)
From stdpp Require Import base list numbers.
From Stdlib Require Import ZArith Lia.
From S2P Require Import Prelude Bytes Group.

(** ** Data *)

Definition CTRL_EMPTY : Z := 0x80.
Definition CTRL_DELETED : Z := 0xFE.
Definition IS_FULL (c : Z) : bool := Z.land c 0x80 =? 0.

Definition LOAD_NUM : Z := 7.
Definition LOAD_DEN : Z := 8.
Definition MIN_CAP : Z := 64.

(** The header every cached object starts with. *)
Record elpis_chdr_t := mkHdr { h_hash : Z; h_expiry : Z; h_size : Z; h_ref : Z; h_pinned : Z }.

(** An object: its header and the rest of it. *)
Record centry (P : Type) := mkEntry { hdr_of : elpis_chdr_t; e_body : P }.
Arguments mkEntry {P}.
Arguments hdr_of {P}.
Arguments e_body {P}.

(** The counters of a shard. *)
Record shard_stats := mkStats { s_hits : Z; s_misses : Z; s_inserts : Z; s_evictions : Z; s_expired : Z; s_collisions : Z }.

Record shard_t (P : Type) := mkShard {
  s_ctrl : list Z; s_slots : list (option (centry P)); s_cap : Z; s_used : Z; s_tomb : Z; s_hand : Z;
  s_bytes : Z; s_bytes_max : Z; s_pinned_entries : Z; s_pinned_bytes : Z; s_stats : shard_stats }.
Arguments mkShard {P}.
Arguments s_ctrl {P}.
Arguments s_slots {P}.
Arguments s_cap {P}.
Arguments s_used {P}.
Arguments s_tomb {P}.
Arguments s_hand {P}.
Arguments s_bytes {P}.
Arguments s_bytes_max {P}.
Arguments s_pinned_entries {P}.
Arguments s_pinned_bytes {P}.
Arguments s_stats {P}.

(** Split the hash: the low 7 bits are the tag, the rest picks the group. *)
Definition h2 (h : Z) : Z := u8 (Z.land h 0x7F).
Definition h1 (h : Z) : Z := Z.shiftr h 7.

Definition count_hit (t : shard_stats) := mkStats (u64 (s_hits t + 1)) (s_misses t) (s_inserts t) (s_evictions t) (s_expired t) (s_collisions t).
Definition count_miss (t : shard_stats) := mkStats (s_hits t) (u64 (s_misses t + 1)) (s_inserts t) (s_evictions t) (s_expired t) (s_collisions t).
Definition count_insert (t : shard_stats) := mkStats (s_hits t) (s_misses t) (u64 (s_inserts t + 1)) (s_evictions t) (s_expired t) (s_collisions t).
Definition count_evict (t : shard_stats) := mkStats (s_hits t) (s_misses t) (s_inserts t) (u64 (s_evictions t + 1)) (s_expired t) (s_collisions t).
Definition count_expired (t : shard_stats) := mkStats (s_hits t) (s_misses t) (s_inserts t) (s_evictions t) (u64 (s_expired t + 1)) (s_collisions t).

Section Shard.
Context {P K : Type} (eqfn : P → K → res bool).
Implicit Types s : shard_t P.

(** ** Changes of one field or of a few *)

Definition with_stats s (f : shard_stats → shard_stats) : shard_t P :=
  mkShard (s_ctrl s) (s_slots s) (s_cap s) (s_used s) (s_tomb s) (s_hand s) (s_bytes s) (s_bytes_max s)
    (s_pinned_entries s) (s_pinned_bytes s) (f (s_stats s)).
Definition with_hand s (h : Z) : shard_t P :=
  mkShard (s_ctrl s) (s_slots s) (s_cap s) (s_used s) (s_tomb s) h (s_bytes s) (s_bytes_max s)
    (s_pinned_entries s) (s_pinned_bytes s) (s_stats s).
Definition with_table s ctrl slots used tomb : shard_t P :=
  mkShard ctrl slots (s_cap s) used tomb (s_hand s) (s_bytes s) (s_bytes_max s)
    (s_pinned_entries s) (s_pinned_bytes s) (s_stats s).

(** [s->bytes += h->size; if (h->pinned) ...] and its opposite. *)
Definition charge s (h : elpis_chdr_t) : shard_t P :=
  let pin := negb (h_pinned h =? 0) in
  mkShard (s_ctrl s) (s_slots s) (s_cap s) (s_used s) (s_tomb s) (s_hand s) (u64 (s_bytes s + h_size h)) (s_bytes_max s)
    (if pin then u32 (s_pinned_entries s + 1) else s_pinned_entries s)
    (if pin then u64 (s_pinned_bytes s + h_size h) else s_pinned_bytes s) (s_stats s).
Definition discharge s (h : elpis_chdr_t) : shard_t P :=
  let pin := negb (h_pinned h =? 0) in
  mkShard (s_ctrl s) (s_slots s) (s_cap s) (s_used s) (s_tomb s) (s_hand s) (u64 (s_bytes s - h_size h)) (s_bytes_max s)
    (if pin then u32 (s_pinned_entries s - 1) else s_pinned_entries s)
    (if pin then u64 (s_pinned_bytes s - h_size h) else s_pinned_bytes s) (s_stats s).

(** [h->ref = v] *)
Definition with_ref (e : centry P) (v : Z) : centry P :=
  let h := hdr_of e in mkEntry (mkHdr (h_hash h) (h_expiry h) (h_size h) v (h_pinned h)) (e_body e).

(** ** Table primitives *)

(** A fresh table in place of the old one. *)
Definition shard_alloc (alloc : Z → bool) s (cap : Z) : option (shard_t P) :=
  if alloc cap then
    Some (mkShard (replicate (Z.to_nat (cap + ELPIS_GROUP)) CTRL_EMPTY) (replicate (Z.to_nat cap) None) cap 0 0 0
            (s_bytes s) (s_bytes_max s) (s_pinned_entries s) (s_pinned_bytes s) (s_stats s))
  else None.

Definition ctrl_set (ctrl : list Z) (cap i v : Z) : res (list Z) :=
  ctrl ← wr ctrl i v;
  if i <? ELPIS_GROUP then wr ctrl (u32 (cap + i)) v else Ok ctrl.

(** The loop over the tag matches of a group: the entry found, with its slot. *)
Fixpoint probe_matches (fuel : nat) s (mask g hash : Z) (key : K) (m : Z) : res (option (Z * centry P)) :=
  if m =? 0 then Ok None
  else
    match fuel with
    | O => Stuck OutOfFuel
    | S fuel =>
      b ← elpis_ctz32 m;
      let i := Z.land (g + b) mask in
      e ← rd (s_slots s) i;
      match e with
      | Some e =>
        same ← (if h_hash (hdr_of e) =? hash then eqfn (e_body e) key else Ok false);
        if (same : bool) then Ok (Some (i, e))
        else probe_matches fuel s mask g hash key (Z.land m (m - 1))
      | None => probe_matches fuel s mask g hash key (Z.land m (m - 1))
      end
    end.

(** The loop that looks for an empty control byte among the special ones. *)
Fixpoint emptyish_loop (fuel : nat) s (g sp emptyish : Z) : res Z :=
  if sp =? 0 then Ok emptyish
  else
    match fuel with
    | O => Stuck OutOfFuel
    | S fuel =>
      b ← elpis_ctz32 sp;
      c ← rd (s_ctrl s) (g + b);
      emptyish_loop fuel s g (Z.land sp (sp - 1)) (if c =? CTRL_EMPTY then Z.lor emptyish (Z.shiftl 1 b) else emptyish)
    end.

(** The probe loop; [step] ends it after one round of the table. *)
Fixpoint find_slot_loop (fuel : nat) s (mask hash : Z) (key : K) (pos step : Z) : res (option (Z * centry P)) :=
  match fuel with
  | O => Stuck OutOfFuel
  | S fuel =>
    let g := Z.land pos mask in
    m ← elpis_group_match (s_ctrl s) g (h2 hash);
    r ← probe_matches 32 s mask g hash key m;
    match r with
    | Some r => Ok (Some r)
    | None =>
      sp ← elpis_group_special (s_ctrl s) g;
      emptyish ← emptyish_loop 32 s g sp 0;
      if negb (emptyish =? 0) then Ok None
      else
        let step := u32 (step + ELPIS_GROUP) in
        if s_cap s <? step then Ok None
        else find_slot_loop fuel s mask hash key (Z.land (u32 (g + ELPIS_GROUP)) mask) step
    end
  end.

(** One turn for each group of the table and one to spare. *)
Definition probe_fuel s : nat := Z.to_nat (s_cap s / ELPIS_GROUP + 2).

Definition find_slot s (hash : Z) (key : K) : res (option (Z * centry P)) :=
  let mask := u32 (s_cap s - 1) in
  find_slot_loop (probe_fuel s) s mask hash key (u32 (Z.land (h1 hash) mask)) 0.

Fixpoint find_free_loop (fuel : nat) s (mask pos step : Z) : res (option Z) :=
  match fuel with
  | O => Stuck OutOfFuel
  | S fuel =>
    let g := Z.land pos mask in
    sp ← elpis_group_special (s_ctrl s) g;
    if negb (sp =? 0) then b ← elpis_ctz32 sp; Ok (Some (Z.land (g + b) mask))
    else
      let step := u32 (step + ELPIS_GROUP) in
      if s_cap s <? step then Ok None
      else find_free_loop fuel s mask (Z.land (u32 (g + ELPIS_GROUP)) mask) step
  end.

(** The first empty or deleted slot on the probe path, or [None]. *)
Definition find_free s (hash : Z) : res (option Z) :=
  let mask := u32 (s_cap s - 1) in
  find_free_loop (probe_fuel s) s mask (u32 (Z.land (h1 hash) mask)) 0.

(** The entries of the old table, from slot [i] on, into the new one. *)
Fixpoint rehash_loop (octrl : list Z) (oslots : list (option (centry P))) (k : nat) (i : Z) s : res (shard_t P) :=
  match k with
  | O => Ok s
  | S k =>
    c ← rd octrl i;
    if negb (IS_FULL c) then rehash_loop octrl oslots k (i + 1) s
    else
      e ← rd oslots i;
      match e with
      | None => rehash_loop octrl oslots k (i + 1) s
      | Some e =>
        slot ← find_free s (h_hash (hdr_of e));
        match slot with
        | None => rehash_loop octrl oslots k (i + 1) s
        | Some slot =>
          slots ← wr (s_slots s) slot (Some e);
          ctrl ← ctrl_set (s_ctrl s) (s_cap s) slot (h2 (h_hash (hdr_of e)));
          rehash_loop octrl oslots k (i + 1) (with_table s ctrl slots (u32 (s_used s + 1)) (s_tomb s))
        end
      end
  end.

Definition shard_rehash (alloc : Z → bool) s (newcap : Z) : res (option (shard_t P)) :=
  match shard_alloc alloc s newcap with
  | None => Ok None
  | Some new => s ← rehash_loop (s_ctrl s) (s_slots s) (Z.to_nat (s_cap s)) 0 new; Ok (Some s)
  end.

(** The entry of a slot is freed: it is the second result. *)
Definition slot_drop s (i : Z) : res (shard_t P * list (centry P)) :=
  e ← rd (s_slots s) i;
  match e with
  | None => Ok (s, [])
  | Some e =>
    let s := discharge s (hdr_of e) in
    slots ← wr (s_slots s) i None;
    ctrl ← ctrl_set (s_ctrl s) (s_cap s) i CTRL_DELETED;
    Ok (with_table s ctrl slots (u32 (s_used s - 1)) (u32 (s_tomb s + 1)), [e])
  end.

(** [h->expiry != 0 && h->expiry <= now] *)
Definition is_expired (h : elpis_chdr_t) (now : Z) : bool := negb (h_expiry h =? 0) && (h_expiry h <=? now).

(** The CLOCK sweep, [k] turns; whether an entry was taken. *)
Fixpoint evict_loop (k : nat) s (now : Z) : res (bool * shard_t P * list (centry P)) :=
  match k with
  | O => Ok (false, s, [])
  | S k =>
    let i := s_hand s in
    let s := with_hand s (Z.land (u32 (s_hand s + 1)) (u32 (s_cap s - 1))) in
    c ← rd (s_ctrl s) i;
    if negb (IS_FULL c) then evict_loop k s now
    else
      e ← rd (s_slots s) i;
      match e with
      | None => evict_loop k s now
      | Some e =>
        let h := hdr_of e in
        if is_expired h now then '(s, f) ← slot_drop s i; Ok (true, with_stats s count_expired, f)
        else if negb (h_pinned h =? 0) then evict_loop k s now
        else if negb (h_ref h =? 0) then
          slots ← wr (s_slots s) i (Some (with_ref e 0));
          evict_loop k (with_table s (s_ctrl s) slots (s_used s) (s_tomb s)) now
        else '(s, f) ← slot_drop s i; Ok (true, with_stats s count_evict, f)
      end
  end.

Definition shard_evict_one s (now : Z) : res (bool * shard_t P * list (centry P)) :=
  evict_loop (Z.to_nat (u32 (s_cap s * 2))) s now.

(** ** Operations on one shard *)

(** A look-up: the entry with its reference bit set. *)
Definition shard_read s (hash : Z) (key : K) : res (option (centry P) * shard_t P) :=
  r ← find_slot s hash key;
  match r with
  | None => Ok (None, with_stats s count_miss)
  | Some (i, e) =>
    let e := with_ref e 1 in
    slots ← wr (s_slots s) i (Some e);
    Ok (Some e, with_stats (with_table s (s_ctrl s) slots (s_used s) (s_tomb s)) count_hit)
  end.

(** [while (s->bytes + h->size > s->bytes_max) if (evict fails) break]; every
    turn frees an entry. *)
Fixpoint make_room (fuel : nat) s (size now : Z) : res (shard_t P * list (centry P)) :=
  if s_bytes_max s <? u64 (s_bytes s + size) then
    match fuel with
    | O => Stuck OutOfFuel
    | S fuel =>
      '(ok, s, f) ← shard_evict_one s now;
      if (ok : bool) then '(s, f') ← make_room fuel s size now; Ok (s, f ++ f') else Ok (s, f)
    end
  else Ok (s, []).

(** The load factor, and the table it asks for. *)
Definition grow_if_loaded (alloc : Z → bool) s : res (option (shard_t P)) :=
  if s_cap s * LOAD_NUM <? u32 (s_used s + s_tomb s + 1) * LOAD_DEN then
    let newcap := if s_cap s <? u32 (u32 (s_used s + 1) * 2) then u32 (s_cap s * 2) else s_cap s in
    shard_rehash alloc s (if newcap <? MIN_CAP then MIN_CAP else newcap)
  else Ok (Some s).

Definition shard_insert (alloc : Z → bool) s (entry : centry P) (key : K) (now : Z)
    : res (elpis_rc_t * shard_t P * list (centry P)) :=
  let h := hdr_of entry in
  old ← find_slot s (h_hash h) key;
  match old with
  | Some (idx, old) =>
    let s := discharge s (hdr_of old) in
    slots ← wr (s_slots s) idx (Some entry);
    let s := charge (with_table s (s_ctrl s) slots (s_used s) (s_tomb s)) h in
    Ok (ELPIS_OK, with_stats s count_insert, [old])
  | None =>
    '(s, f) ← make_room (S (Z.to_nat (s_used s))) s (h_size h) now;
    if (s_bytes_max s <? u64 (s_bytes s + h_size h)) && (h_pinned h =? 0) then Ok (ELPIS_ENOMEM, s, f ++ [entry])
    else
      grown ← grow_if_loaded alloc s;
      match grown with
      | None => Ok (ELPIS_ENOMEM, s, f ++ [entry])
      | Some s =>
        idx ← find_free s (h_hash h);
        match idx with
        | None => Ok (ELPIS_ENOMEM, s, f ++ [entry])
        | Some idx =>
          c ← rd (s_ctrl s) idx;
          let tomb := if (c =? CTRL_DELETED) && (0 <? s_tomb s) then u32 (s_tomb s - 1) else s_tomb s in
          slots ← wr (s_slots s) idx (Some entry);
          ctrl ← ctrl_set (s_ctrl s) (s_cap s) idx (h2 (h_hash h));
          let s := charge (with_table s ctrl slots (u32 (s_used s + 1)) tomb) h in
          Ok (ELPIS_OK, with_stats s count_insert, f)
        end
      end
  end.

Definition shard_remove s (hash : Z) (key : K) : res (elpis_rc_t * shard_t P * list (centry P)) :=
  r ← find_slot s hash key;
  match r with
  | None => Ok (ELPIS_ENOTFOUND, s, [])
  | Some (i, _) => '(s, f) ← slot_drop s i; Ok (ELPIS_OK, s, f)
  end.

Fixpoint flush_loop (k : nat) (j : Z) s : res (shard_t P * list (centry P)) :=
  match k with
  | O => Ok (s, [])
  | S k =>
    c ← rd (s_ctrl s) j;
    if IS_FULL c then
      '(s, f) ← slot_drop s j; '(s, f') ← flush_loop k (j + 1) s; Ok (s, f ++ f')
    else flush_loop k (j + 1) s
  end.

Definition shard_flush s : res (shard_t P * list (centry P)) :=
  '(s, f) ← flush_loop (Z.to_nat (s_cap s)) 0 s;
  Ok (with_table s (replicate (Z.to_nat (s_cap s + ELPIS_GROUP)) CTRL_EMPTY) (s_slots s) (s_used s) 0, f).

(** [per] turns of the expiry sweep. *)
Fixpoint expire_loop (k : nat) s (now : Z) : res (shard_t P * list (centry P)) :=
  match k with
  | O => Ok (s, [])
  | S k =>
    let j := s_hand s in
    let s := with_hand s (Z.land (u32 (s_hand s + 1)) (u32 (s_cap s - 1))) in
    c ← rd (s_ctrl s) j;
    if negb (IS_FULL c) then expire_loop k s now
    else
      e ← rd (s_slots s) j;
      match e with
      | None => expire_loop k s now
      | Some e =>
        if is_expired (hdr_of e) now then
          '(s, f) ← slot_drop s j;
          '(s, f') ← expire_loop k (with_stats s count_expired) now; Ok (s, f ++ f')
        else expire_loop k s now
      end
  end.

(** ** The whole cache *)

Record elpis_cache := mkCache { c_nshards : Z; c_sh : list (shard_t P); c_bytes_max : Z }.

Definition shard_of (c : elpis_cache) (hash : Z) : Z := u32 (Z.land (Z.shiftr hash 48) (c_nshards c - 1)).

Definition set_shard (c : elpis_cache) (i : Z) s : res elpis_cache :=
  sh ← wr (c_sh c) i s; Ok (mkCache (c_nshards c) sh (c_bytes_max c)).

(** [while (p < v && p < (1u << 20)) p <<= 1]: 20 turns at most. *)
Fixpoint pow2_loop (k : nat) (v p : Z) : Z :=
  match k with O => p | S k => if (p <? v) && (p <? 2 ^ 20) then pow2_loop k v (p * 2) else p end.
Definition round_pow2 (v : Z) : Z := pow2_loop 21 v 1.

Definition fresh_shard (bytes_max : Z) : shard_t P :=
  mkShard (replicate (Z.to_nat (MIN_CAP + ELPIS_GROUP)) CTRL_EMPTY) (replicate (Z.to_nat MIN_CAP) None) MIN_CAP 0 0 0
    0 bytes_max 0 0 (mkStats 0 0 0 0 0 0).

(** [ok] says whether every allocation succeeds; what was made is given back when one fails. *)
Definition elpis_cache_new (ok : bool) (bytes_max shards : Z) : option elpis_cache :=
  let shards := if shards =? 0 then 16 else shards in
  let shards := round_pow2 shards in
  let shards := if 4096 <? shards then 4096 else shards in
  let per := bytes_max / shards in
  if ok then
    Some (mkCache shards (replicate (Z.to_nat shards) (fresh_shard (if per <? 64 * 1024 then 64 * 1024 else per))) bytes_max)
  else None.

(** The entries freed with the cache. *)
Definition elpis_cache_free (c : elpis_cache) : list (centry P) := concat (map (fun s => omap id (s_slots s)) (c_sh c)).

Definition elpis_cache_read_begin (c : elpis_cache) (hash : Z) (key : K) : res (option (centry P) * elpis_cache) :=
  let si := shard_of c hash in
  s ← rd (c_sh c) si; '(e, s) ← shard_read s hash key; c ← set_shard c si s; Ok (e, c).

Definition elpis_cache_insert (alloc : Z → bool) (c : elpis_cache) (entry : centry P) (key : K) (now : Z)
    : res (elpis_rc_t * elpis_cache * list (centry P)) :=
  let si := shard_of c (h_hash (hdr_of entry)) in
  s ← rd (c_sh c) si; '(rc, s, f) ← shard_insert alloc s entry key now; c ← set_shard c si s; Ok (rc, c, f).

Definition elpis_cache_remove (c : elpis_cache) (hash : Z) (key : K) : res (elpis_rc_t * elpis_cache * list (centry P)) :=
  let si := shard_of c hash in
  s ← rd (c_sh c) si; '(rc, s, f) ← shard_remove s hash key; c ← set_shard c si s; Ok (rc, c, f).

Fixpoint flush_shards (k : nat) (i : Z) (c : elpis_cache) : res (elpis_cache * list (centry P)) :=
  match k with
  | O => Ok (c, [])
  | S k =>
    s ← rd (c_sh c) i; '(s, f) ← shard_flush s; c ← set_shard c i s;
    '(c, f') ← flush_shards k (i + 1) c; Ok (c, f ++ f')
  end.
Definition elpis_cache_flush (c : elpis_cache) : res (elpis_cache * list (centry P)) :=
  flush_shards (Z.to_nat (c_nshards c)) 0 c.

(** [busy] says which shards' locks are taken. *)
Fixpoint expire_shards (k : nat) (i per : Z) (busy : Z → bool) (c : elpis_cache) (now : Z) : res (elpis_cache * list (centry P)) :=
  match k with
  | O => Ok (c, [])
  | S k =>
    if busy i then expire_shards k (i + 1) per busy c now
    else
      s ← rd (c_sh c) i; '(s, f) ← expire_loop (Z.to_nat per) s now; c ← set_shard c i s;
      '(c, f') ← expire_shards k (i + 1) per busy c now; Ok (c, f ++ f')
  end.

(** The number of entries expired is that of the entries freed. *)
Definition elpis_cache_expire (busy : Z → bool) (c : elpis_cache) (now budget : Z) : res (Z * elpis_cache * list (centry P)) :=
  let per := budget / (if c_nshards c =? 0 then 1 else c_nshards c) in
  let per := if per =? 0 then 16 else per in
  '(c, f) ← expire_shards (Z.to_nat (c_nshards c)) 0 per busy c now; Ok (zlen f, c, f).

(** ** Statistics *)

Record elpis_cache_stats_t := mkCacheStats {
  st_hits : Z; st_misses : Z; st_inserts : Z; st_evictions : Z; st_expired : Z; st_collisions : Z;
  st_entries : Z; st_bytes : Z; st_bytes_max : Z; st_pinned_entries : Z; st_pinned_bytes : Z; st_capacity : Z }.

Definition add_stats (out : elpis_cache_stats_t) s : elpis_cache_stats_t :=
  let t := s_stats s in
  mkCacheStats (u64 (st_hits out + s_hits t)) (u64 (st_misses out + s_misses t)) (u64 (st_inserts out + s_inserts t))
    (u64 (st_evictions out + s_evictions t)) (u64 (st_expired out + s_expired t)) (u64 (st_collisions out + s_collisions t))
    (u64 (st_entries out + s_used s)) (u64 (st_bytes out + s_bytes s)) (u64 (st_bytes_max out + s_bytes_max s))
    (u64 (st_pinned_entries out + s_pinned_entries s)) (u64 (st_pinned_bytes out + s_pinned_bytes s)) (u64 (st_capacity out + s_cap s)).

Definition elpis_cache_stats (c : elpis_cache) : elpis_cache_stats_t :=
  foldl add_stats (mkCacheStats 0 0 0 0 0 0 0 0 0 0 0 0) (c_sh c).
End Shard.
Arguments elpis_cache P : clear implicits.

(** ** Automatic sizing *)

Record elpis_cache_plan_t := mkPlan {
  ram_total : Z; budget_total : Z; msg_bytes : Z; rrset_bytes : Z; infra_bytes : Z; deleg_bytes : Z; plan_shards : Z }.

Definition MB : Z := 1024 * 1024.
Definition GB : Z := 1024 * MB.

(** [ram] is what [elpis_physical_ram] found. *)
Definition elpis_cache_plan (ram override_total cpus : Z) : elpis_cache_plan_t :=
  let budget :=
    if negb (override_total =? 0) then override_total
    else if ram =? 0 then 64 * MB
    else if ram <? 512 * MB then (if ram / 8 <? 16 * MB then 16 * MB else ram / 8)
    else if ram <? 2 * GB then ram / 6
    else if ram <? 8 * GB then ram / 5
    else if ram <? 64 * GB then ram / 4
    else 16 * GB in
  let budget := if 32 * GB <? budget then 32 * GB else budget in
  let budget := if budget <? 8 * MB then 8 * MB else budget in
  let msg := budget / 2 in
  let rrset := budget / 100 * 32 in
  let deleg := budget / 100 * 12 in
  let infra := u64 (budget - msg - rrset - deleg) in
  let deleg := if deleg <? 8 * MB then 8 * MB else deleg in
  let infra := if infra <? 2 * MB then 2 * MB else infra in
  let shards := round_pow2 (if cpus =? 0 then 16 else u32 (cpus * 8)) in
  let shards := if shards <? 16 then 16 else shards in
  let shards := if 512 <? shards then 512 else shards in
  mkPlan ram budget msg rrset infra deleg shards.
