(* ===== verification/Cachemap.v ===== *)
(** The cache as a map: the probe-chain invariant of the table of
    src/cache/cache.c, and the operations of Cache.v refined to those of a
    finite map of keys to entries. *)
From stdpp Require Import base list numbers gmap.
From Stdlib Require Import ZArith Lia.
From S2P Require Import Prelude Bytes Group Cache.

(** ** Control bytes *)

Lemma h2_range h : 0 <= h2 h < 128.
Proof.
  unfold h2, u8. change 0x7F with (Z.ones 7). rewrite Z.land_ones by lia.
  pose proof (Z.mod_pos_bound h (2 ^ 7)). rewrite Z.mod_small by lia. lia.
Qed.

Lemma full_h2 h : IS_FULL (h2 h) = true.
Proof.
  pose proof (h2_range h) as Hr. unfold IS_FULL. apply Z.eqb_eq. apply Z.bits_inj'. intros n Hn. rewrite Z.land_spec, Z.bits_0.
  change 0x80 with (2 ^ 7). rewrite Z.pow2_bits_eqb by lia. destruct (Z.eqb_spec 7 n) as [<-|]; [|by rewrite andb_false_r].
  rewrite <- (Z.mod_small (h2 h) (2 ^ 7)) by lia. by rewrite Z.mod_pow2_bits_high by lia.
Qed.

Lemma special_full c : special c = negb (IS_FULL c).
Proof. done. Qed.

Lemma h2_not_free h : h2 h ≠ CTRL_EMPTY ∧ h2 h ≠ CTRL_DELETED.
Proof. pose proof (h2_range h). unfold CTRL_EMPTY, CTRL_DELETED. lia. Qed.

(** ** The probe path *)

Definition start (cap h : Z) : Z := h1 h mod cap.
Definition probe_at (cap h d : Z) : Z := (start cap h + d) mod cap.
Definition dist (cap h i : Z) : Z := (i - start cap h) mod cap.

Lemma probe_at_dist cap h i : 0 <= i < cap → probe_at cap h (dist cap h i) = i.
Proof.
  intros Hi. unfold probe_at, dist. rewrite Zplus_mod_idemp_r. replace (start cap h + (i - start cap h)) with i by lia.
  by apply Z.mod_small.
Qed.

Lemma dist_probe_at cap h d : 0 <= d < cap → dist cap h (probe_at cap h d) = d.
Proof.
  intros Hd. unfold probe_at, dist. rewrite Zminus_mod_idemp_l. replace (start cap h + d - start cap h) with d by lia.
  by apply Z.mod_small.
Qed.

Lemma dist_range cap h i : 0 < cap → 0 <= dist cap h i < cap.
Proof. intros. by apply Z.mod_pos_bound. Qed.

Lemma probe_at_range cap h d : 0 < cap → 0 <= probe_at cap h d < cap.
Proof. intros. by apply Z.mod_pos_bound. Qed.

(** The table sizes in use. *)
Definition cap_ok (cap : Z) : Prop := ∃ k, 6 <= k <= 30 ∧ cap = 2 ^ k.

Lemma cap_ok_range cap : cap_ok cap → 64 <= cap <= 2 ^ 30.
Proof.
  intros (k & Hk & ->). split; [change 64 with (2 ^ 6)|]; apply Z.pow_le_mono_r; lia.
Qed.

Lemma land_cap cap x : cap_ok cap → Z.land x (cap - 1) = x mod cap.
Proof. intros (k & Hk & ->). rewrite <- Z.land_ones by lia. f_equal. rewrite Z.ones_equiv. lia. Qed.

Lemma cap_ok_16 cap : cap_ok cap → cap mod 16 = 0 ∧ cap / 16 * 16 = cap.
Proof.
  intros (k & Hk & ->). assert (2 ^ k = 2 ^ (k - 4) * 16) as E by (change 16 with (2 ^ 4); rewrite <- Z.pow_add_r by lia; f_equal; lia).
  rewrite E. rewrite Z.mod_mul, Z.div_mul by lia. done.
Qed.

Section Map.
Context {P K : Type} (eqfn : P → K → res bool) {Q : Type} `{Countable Q} (key_of : P → Q) (canon : K → Q) (hash_of : Q → Z).
(** What the callers keep true of the entries and of the keys. *)
Context (body_ok : P → Prop) (key_ok : K → Prop).
Hypothesis eqfn_spec : ∀ p k, body_ok p → key_ok k → eqfn p k = Ok (bool_decide (key_of p = canon k)).
Implicit Types s : shard_t P.
Implicit Types slots : list (option (centry P)).

Definition e_key (e : centry P) : Q := key_of (e_body e).
Definition e_hash (e : centry P) : Z := h_hash (hdr_of e).

(** What the callers promise of an entry. *)
Definition entry_ok (e : centry P) : Prop :=
  e_hash e = hash_of (e_key e) ∧ 0 <= e_hash e ∧ 0 <= h_size (hdr_of e) < 2 ^ 32 ∧ body_ok (e_body e).

(** The entries of a table, in the order of their slots. *)
Definition ents (slots : list (option (centry P))) : list (centry P) := omap id slots.

(** The control bytes agree with the slots, the tail mirrors the head, and no
    empty byte lies on the probe path before an entry. *)
Record layout (cap : Z) (ctrl : list Z) (slots : list (option (centry P))) : Prop := {
  l_cap : cap_ok cap;
  l_ctrl : zlen ctrl = cap + ELPIS_GROUP;
  l_slots : zlen slots = cap;
  l_mirror : ∀ i : nat, Z.of_nat i < ELPIS_GROUP → ctrl !! (Z.to_nat cap + i)%nat = ctrl !! i;
  l_full : ∀ i e, slots !! i = Some (Some e) → ctrl !! i = Some (h2 (e_hash e));
  l_free : ∀ i, slots !! i = Some None → ctrl !! i = Some CTRL_EMPTY ∨ ctrl !! i = Some CTRL_DELETED;
  l_probe : ∀ i e d, slots !! i = Some (Some e) → 0 <= d < dist cap (e_hash e) (Z.of_nat i) →
    ctrl !! Z.to_nat (probe_at cap (e_hash e) d) ≠ Some CTRL_EMPTY;
  l_ents : Forall entry_ok (ents slots);
  l_keys : NoDup (map e_key (ents slots)) }.

(** ** Groups *)

Lemma ctrl_wrap cap ctrl slots g b : layout cap ctrl slots → 0 <= g < cap → 0 <= b < ELPIS_GROUP →
  ctrl !! Z.to_nat (g + b) = ctrl !! Z.to_nat ((g + b) mod cap).
Proof.
  intros Hl Hg Hb. pose proof (cap_ok_range _ (l_cap _ _ _ Hl)). unfold ELPIS_GROUP in *.
  destruct (Z.lt_ge_cases (g + b) cap); [by rewrite Z.mod_small by lia|].
  replace ((g + b) mod cap) with (g + b - cap) by (symmetry; rewrite <- (Z.mod_add _ (-1)) by lia; apply Z.mod_small; lia).
  rewrite <- (l_mirror _ _ _ Hl (Z.to_nat (g + b - cap))) by (unfold ELPIS_GROUP; lia). f_equal. lia.
Qed.

Lemma group_lookup (ctrl : list Z) g b : 0 <= g → 0 <= b < ELPIS_GROUP →
  slice ctrl g ELPIS_GROUP !! Z.to_nat b = ctrl !! Z.to_nat (g + b).
Proof.
  intros Hg Hb. unfold slice, ELPIS_GROUP in *. rewrite lookup_take_lt by lia. rewrite lookup_drop. f_equal. lia.
Qed.

(** The byte of the group at [g], [b] places on. *)
Lemma group_at cap ctrl slots g (b : nat) : layout cap ctrl slots → 0 <= g < cap → (b < 16)%nat →
  slice ctrl g ELPIS_GROUP !! b = ctrl !! Z.to_nat ((g + Z.of_nat b) mod cap).
Proof.
  intros Hl Hg Hb. rewrite <- (ctrl_wrap cap ctrl slots) by (done || unfold ELPIS_GROUP; lia).
  rewrite <- group_lookup by (unfold ELPIS_GROUP; lia). f_equal. lia.
Qed.

Lemma group_length cap ctrl slots g : layout cap ctrl slots → 0 <= g < cap → length (slice ctrl g ELPIS_GROUP) = 16%nat.
Proof.
  intros Hl Hg. pose proof (l_ctrl _ _ _ Hl). assert (zlen (slice ctrl g ELPIS_GROUP) = ELPIS_GROUP) as E by (apply zlen_slice; unfold ELPIS_GROUP in *; lia).
  unfold zlen, ELPIS_GROUP in *. lia.
Qed.

(** The entry sought. *)
Definition hit (hash : Z) (key : K) (e : centry P) : Prop := h_hash (hdr_of e) = hash ∧ eqfn (e_body e) key = Ok true.

Lemma ents_lookup slots e : e ∈ ents slots ↔ ∃ i, slots !! i = Some (Some e).
Proof.
  unfold ents. rewrite list_elem_of_omap. split.
  - intros (o & Ho & He). cbn in He. subst o. by apply list_elem_of_lookup in Ho.
  - intros [i Hi]. exists (Some e). split; [by eapply list_elem_of_lookup_2|done].
Qed.

(** The callback answers for every entry of a table. *)
Lemma eqfn_slot s i e key : layout (s_cap s) (s_ctrl s) (s_slots s) → key_ok key → s_slots s !! i = Some (Some e) →
  eqfn (e_body e) key = Ok (bool_decide (e_key e = canon key)).
Proof.
  intros Hl Hkey Hi. apply eqfn_spec; [|done]. assert (e ∈ ents (s_slots s)) as Hin by (apply ents_lookup; by exists i).
  by apply (Forall_elem entry_ok _ _ (l_ents _ _ _ Hl)) in Hin as (_ & _ & _ & ?).
Qed.

Lemma probe_matches_spec s g hash key bs : layout (s_cap s) (s_ctrl s) (s_slots s) → key_ok key → 0 <= g < s_cap s → ∀ i fuel,
  (length bs <= fuel)%nat → (i + length bs <= 16)%nat →
  ∃ r, probe_matches eqfn fuel s (s_cap s - 1) g hash key (mask_at i bs) = Ok r ∧
    match r with
    | Some (j, e) => 0 <= j < s_cap s ∧ s_slots s !! Z.to_nat j = Some (Some e) ∧ hit hash key e
    | None => ∀ b e, bs !! b = Some true → s_slots s !! Z.to_nat ((g + Z.of_nat (i + b)) mod s_cap s) = Some (Some e) → ¬ hit hash key e
    end.
Proof.
  intros Hl Hkey Hg. pose proof (l_cap _ _ _ Hl) as Hcap. pose proof (cap_ok_range _ Hcap).
  induction bs as [|b bs IH]; intros i fuel Hf Hi; cbn [length] in *.
  - exists None. split; [|done]. unfold mask_at. cbn [mask_of]. rewrite Z.mul_0_r. by destruct fuel.
  - destruct b.
    + destruct fuel as [|fuel]; [lia|]. cbn [probe_matches]. destruct (Z.eqb_spec (mask_at i (true :: bs)) 0) as [E|_]; [by apply mask_at_nonzero in E|].
      rewrite ctz_spec by lia. bind_step. rewrite land_cap by done. rewrite clear_lowest. set (j := (g + Z.of_nat i) mod s_cap s).
      assert (0 <= j < s_cap s) as Hj by (apply Z.mod_pos_bound; lia).
      destruct (rd_in_range (s_slots s) j) as (o & -> & Ho); [rewrite (l_slots _ _ _ Hl); lia|]. bind_step.
      destruct (IH (S i) fuel) as (r & Hr & Hspec); [lia|lia|].
      assert (¬ (∃ e, o = Some e ∧ hit hash key e) → match r with
        | Some (j, e) => 0 <= j < s_cap s ∧ s_slots s !! Z.to_nat j = Some (Some e) ∧ hit hash key e
        | None => ∀ b e, (true :: bs) !! b = Some true →
            s_slots s !! Z.to_nat ((g + Z.of_nat (i + b)) mod s_cap s) = Some (Some e) → ¬ hit hash key e
        end) as Hstep.
      { intros Hno. destruct r as [[j' e']|]; [done|]. intros [|b] e Hb He.
        - rewrite Nat.add_0_r in He. fold j in He. rewrite Ho in He. injection He as ->. intros Hh. destruct Hno. by exists e.
        - apply (Hspec b e Hb). by replace (S i + b)%nat with (i + S b)%nat by lia. }
      destruct o as [e|]; [|exists r; split; [done|]; apply Hstep; by intros (? & ? & _)].
      pose proof (eqfn_slot s _ e key Hl Hkey Ho) as Heq. destruct (Z.eqb_spec (h_hash (hdr_of e)) hash) as [Eh|Hne].
      * rewrite Heq. bind_step. case_bool_decide as Ek; [exists (Some (j, e)); do 3 (split; [done|]); by split|].
        exists r. split; [done|]. apply Hstep. intros (e' & [= <-] & _ & Hh2). by rewrite Heq in Hh2.
      * bind_step. exists r. split; [done|]. apply Hstep. intros (e' & [= <-] & Hh1 & _). done.
    + rewrite mask_at_false. destruct (IH (S i) fuel) as (r & Hr & Hspec); [lia|lia|]. exists r. split; [done|].
      destruct r as [[j' e']|]; [done|]. intros [|b] e Hb He; [done|]. apply (Hspec b e Hb).
      by replace (S i + b)%nat with (i + S b)%nat by lia.
Qed.

Lemma emptyish_loop_spec (s : shard_t P) g bs : zlen (s_ctrl s) = s_cap s + ELPIS_GROUP → 0 <= g < s_cap s → ∀ i fuel acc,
  (length bs <= fuel)%nat → (i + length bs <= 16)%nat → 0 <= acc →
  ∃ v, emptyish_loop fuel s g (mask_at i bs) acc = Ok v ∧ 0 <= v ∧
    (v ≠ 0 ↔ acc ≠ 0 ∨ ∃ b, bs !! b = Some true ∧ s_ctrl s !! Z.to_nat (g + Z.of_nat (i + b)) = Some CTRL_EMPTY).
Proof.
  intros Hl Hg. induction bs as [|b bs IH]; intros i fuel acc Hf Hi Ha; cbn [length] in *.
  - exists acc. unfold mask_at. cbn [mask_of]. rewrite Z.mul_0_r. split; [by destruct fuel|]. split; [done|].
    split; [by left|]. intros [|(b & Hb & _)]; done.
  - destruct b.
    + destruct fuel as [|fuel]; [lia|]. cbn [emptyish_loop].
      destruct (Z.eqb_spec (mask_at i (true :: bs)) 0) as [E|_]; [by apply mask_at_nonzero in E|].
      rewrite ctz_spec by lia. bind_step. rewrite clear_lowest.
      destruct (rd_in_range (s_ctrl s) (g + Z.of_nat i)) as (c & -> & Hc); [unfold ELPIS_GROUP in *; lia|]. bind_step.
      set (acc' := if c =? CTRL_EMPTY then Z.lor acc (Z.shiftl 1 (Z.of_nat i)) else acc).
      assert (0 <= Z.shiftl 1 (Z.of_nat i)) as Hs by (apply Z.shiftl_nonneg; lia).
      assert (0 <= acc' ∧ (acc' ≠ 0 ↔ acc ≠ 0 ∨ c = CTRL_EMPTY)) as [Ha' Hz].
      { unfold acc'. destruct (Z.eqb_spec c CTRL_EMPTY) as [->|Hne].
        - split; [by apply Z.lor_nonneg|]. split; [by right|]. intros _ Hz. apply Z.lor_eq_0_iff in Hz as [_ Hz].
          rewrite Z.shiftl_1_l in Hz. pose proof (Z.pow_pos_nonneg 2 (Z.of_nat i)). lia.
        - split; [done|]. split; [by left|]. by intros [|]. }
      destruct (IH (S i) fuel acc') as (v & Hv & Hv0 & Hiff); [lia|lia|done|]. exists v. split; [done|]. split; [done|].
      rewrite Hiff, Hz. split.
      * intros [[|Hce]|(b & Hb & He)]; [by left|..]; right.
        { exists 0%nat. rewrite Nat.add_0_r, Hc, Hce. done. }
        exists (S b). replace (i + S b)%nat with (S i + b)%nat by lia. done.
      * intros [|([|b] & Hb & He)]; [by left; left|left; right|right].
        { rewrite Nat.add_0_r, Hc in He. by injection He. }
        exists b. replace (S i + b)%nat with (i + S b)%nat by lia. done.
    + rewrite mask_at_false. destruct (IH (S i) fuel acc) as (v & Hv & Hv0 & Hiff); [lia|lia|done|]. exists v. split; [done|]. split; [done|].
      rewrite Hiff. split; (intros [|(b & Hb & He)]; [by left|right]).
      * exists (S b). replace (i + S b)%nat with (S i + b)%nat by lia. done.
      * destruct b as [|b]; [done|]. exists b. replace (S i + b)%nat with (i + S b)%nat by lia. done.
Qed.

(** ** The probe loops *)

Lemma probe_at_add cap h d x : (probe_at cap h d + x) mod cap = probe_at cap h (d + x).
Proof. unfold probe_at. rewrite Zplus_mod_idemp_l. f_equal. lia. Qed.

Lemma probe_at_round cap h d : probe_at cap h (d + cap) = probe_at cap h d.
Proof.
  unfold probe_at. destruct (Z.eq_dec cap 0) as [->|]; [by rewrite Z.add_0_r|].
  replace (start cap h + (d + cap)) with (start cap h + d + 1 * cap) by lia. by rewrite Z.mod_add.
Qed.

(** Every slot is on the path. *)
Lemma on_path cap h (i : nat) : Z.of_nat i < cap →
  0 <= dist cap h (Z.of_nat i) < cap ∧ Z.to_nat (probe_at cap h (dist cap h (Z.of_nat i))) = i.
Proof. intros Hi. split; [apply dist_range; lia|]. rewrite probe_at_dist by lia. lia. Qed.

Section Probe.
Variable s : shard_t P.
Hypothesis Hl : layout (s_cap s) (s_ctrl s) (s_slots s).

Lemma slot_in_range i o : s_slots s !! i = Some o → Z.of_nat i < s_cap s.
Proof. intros Hi. apply lookup_lt_Some in Hi. pose proof (l_slots _ _ _ Hl). zl. Qed.

Lemma find_slot_loop_spec hash key : key_ok key → ∀ fuel t, 0 <= hash → 0 <= t → 16 * t <= s_cap s → s_cap s / 16 + 2 <= Z.of_nat fuel + t →
  (∀ d e, 0 <= d < 16 * t → s_slots s !! Z.to_nat (probe_at (s_cap s) hash d) = Some (Some e) → ¬ hit hash key e) →
  ∃ r, find_slot_loop eqfn fuel s (s_cap s - 1) hash key (probe_at (s_cap s) hash (16 * t)) (16 * t) = Ok r ∧
    match r with
    | Some (j, e) => 0 <= j < s_cap s ∧ s_slots s !! Z.to_nat j = Some (Some e) ∧ hit hash key e
    | None => ∀ i e, s_slots s !! i = Some (Some e) → ¬ hit hash key e
    end.
Proof.
  intros Hkey. pose proof (l_cap _ _ _ Hl) as Hcap. pose proof (cap_ok_range _ Hcap) as Hr. destruct (cap_ok_16 _ Hcap) as [_ H16].
  induction fuel as [|fuel IH]; intros t Hh Ht Hts Hf Hseen; [lia|]. cbn [find_slot_loop].
  set (g := probe_at (s_cap s) hash (16 * t)). assert (0 <= g < (s_cap s)) as Hg by (apply probe_at_range; lia).
  rewrite !(land_cap (s_cap s) g), (Z.mod_small g) by done.
  rewrite group_match_spec by (try (rewrite (l_ctrl _ _ _ Hl)); unfold ELPIS_GROUP; lia). bind_ok. rewrite <- mask_at_0.
  pose proof (group_length _ _ _ g Hl Hg) as Hlen. set (bs := map (fun c => c =? h2 hash) (slice (s_ctrl s) g ELPIS_GROUP)).
  destruct (probe_matches_spec s g hash key bs Hl Hkey Hg 0 32) as (r & -> & Hspec); [unfold bs; rewrite length_map; lia..|]. bind_ok.
  destruct r as [[j e]|]; [exists (Some (j, e)); by split|].
  assert (∀ d e, 0 <= d < 16 * (t + 1) → s_slots s !! Z.to_nat (probe_at (s_cap s) hash d) = Some (Some e) → ¬ hit hash key e) as Hseen'.
  { intros d e Hd He. destruct (Z.lt_ge_cases d (16 * t)); [apply (Hseen d); [lia|done]|]. intros [Hh1 Hh2].
    set (b := Z.to_nat (d - 16 * t)). assert ((g + Z.of_nat (0 + b)) mod (s_cap s) = probe_at (s_cap s) hash d) as Ep
      by (unfold g; rewrite probe_at_add; f_equal; lia).
    apply (Hspec b e); [|by rewrite Ep|by split]. unfold bs. rewrite list_lookup_fmap, (group_at _ _ _ g b Hl Hg) by lia.
    change (g + Z.of_nat b) with (g + Z.of_nat (0 + b)). rewrite Ep. rewrite (l_full _ _ _ Hl _ e He). cbn.
    unfold e_hash. by rewrite Hh1, Z.eqb_refl. }
  rewrite group_special_spec by (try (rewrite (l_ctrl _ _ _ Hl)); unfold ELPIS_GROUP; lia). bind_ok. rewrite <- mask_at_0.
  destruct (emptyish_loop_spec s g (map special (slice (s_ctrl s) g ELPIS_GROUP)) (l_ctrl _ _ _ Hl) Hg 0 32 0) as (v & -> & Hv0 & Hv);
    [rewrite length_map; lia..|lia|]. bind_ok.
  destruct (Z.eqb_spec v 0) as [Hz|Hz]; cbn [negb].
  2:{ exists None. split; [done|]. intros i e Hi [Hh1 Hh2]. apply Hv in Hz as [|(b & Hb & He)]; [done|]. cbn [Nat.add] in He.
      apply lookup_lt_Some in Hb. rewrite length_map, Hlen in Hb. rewrite (ctrl_wrap (s_cap s) _ (s_slots s)) in He by (done || unfold ELPIS_GROUP; lia).
      unfold g in He. rewrite probe_at_add in He. destruct (on_path (s_cap s) hash i (slot_in_range _ _ Hi)) as [Hd Hp].
      destruct (Z.lt_ge_cases (dist (s_cap s) hash (Z.of_nat i)) (16 * (t + 1))) as [Hlt|Hge].
      - apply (Hseen' (dist (s_cap s) hash (Z.of_nat i)) e); [lia|by rewrite Hp|by split].
      - apply (l_probe _ _ _ Hl i e (16 * t + Z.of_nat b) Hi); unfold e_hash; rewrite Hh1; [lia|]. exact He. }
  unfold ELPIS_GROUP. rewrite u32_id by lia. destruct (Z.ltb_spec (s_cap s) (16 * t + 16)).
  - exists None. split; [done|]. intros i e Hi. destruct (on_path (s_cap s) hash i (slot_in_range _ _ Hi)) as [Hd Hp].
    apply (Hseen' (dist (s_cap s) hash (Z.of_nat i)) e); [lia|by rewrite Hp].
  - rewrite land_cap by done. rewrite u32_id by lia. unfold g. rewrite probe_at_add.
    replace (16 * t + 16) with (16 * (t + 1)) by lia. apply IH; try done || lia.
Qed.

Lemma h1_start hash : 0 <= hash → u32 (Z.land (h1 hash) (u32 (s_cap s - 1))) = probe_at (s_cap s) hash (16 * 0) ∧ u32 (s_cap s - 1) = s_cap s - 1.
Proof.
  pose proof (l_cap _ _ _ Hl) as Hcap. pose proof (cap_ok_range _ Hcap) as Hr. intros Hh.
  rewrite (u32_id (s_cap s - 1)) by lia. split; [|done]. rewrite land_cap by done. fold (start (s_cap s) hash).
  assert (0 <= start (s_cap s) hash < s_cap s) by (apply Z.mod_pos_bound; lia). rewrite u32_id by lia.
  unfold probe_at. rewrite Z.mul_0_r, Z.add_0_r, Z.mod_small by done. done.
Qed.

Lemma find_slot_spec hash key : key_ok key → 0 <= hash → ∃ r, find_slot eqfn s hash key = Ok r ∧
  match r with
  | Some (j, e) => 0 <= j < s_cap s ∧ s_slots s !! Z.to_nat j = Some (Some e) ∧ hit hash key e
  | None => ∀ i e, s_slots s !! i = Some (Some e) → ¬ hit hash key e
  end.
Proof.
  intros Hkey Hh. unfold find_slot. destruct (h1_start hash Hh) as [-> ->]. pose proof (cap_ok_range _ (l_cap _ _ _ Hl)).
  pose proof (Z.div_pos (s_cap s) 16). apply (find_slot_loop_spec hash key Hkey _ 0); try lia.
  unfold probe_fuel, ELPIS_GROUP. lia.
Qed.

Lemma find_free_loop_spec hash : ∀ fuel t, 0 <= t → 16 * t <= s_cap s → s_cap s / 16 + 2 <= Z.of_nat fuel + t →
  (∀ d c, 0 <= d < 16 * t → s_ctrl s !! Z.to_nat (probe_at (s_cap s) hash d) = Some c → special c = false) →
  ∃ r, find_free_loop fuel s (s_cap s - 1) (probe_at (s_cap s) hash (16 * t)) (16 * t) = Ok r ∧
    match r with
    | Some j => 0 <= j < s_cap s ∧ (∃ c, s_ctrl s !! Z.to_nat j = Some c ∧ special c = true) ∧
        ∀ d c, 0 <= d < dist (s_cap s) hash j → s_ctrl s !! Z.to_nat (probe_at (s_cap s) hash d) = Some c → special c = false
    | None => ∀ i c, Z.of_nat i < s_cap s → s_ctrl s !! i = Some c → special c = false
    end.
Proof.
  pose proof (l_cap _ _ _ Hl) as Hcap. pose proof (cap_ok_range _ Hcap) as Hr. destruct (cap_ok_16 _ Hcap) as [_ H16].
  induction fuel as [|fuel IH]; intros t Ht Hts Hf Hseen; [lia|]. cbn [find_free_loop].
  set (g := probe_at (s_cap s) hash (16 * t)). assert (0 <= g < (s_cap s)) as Hg by (apply probe_at_range; lia).
  rewrite !(land_cap (s_cap s) g), (Z.mod_small g) by done. pose proof (group_length _ _ _ g Hl Hg) as Hlen.
  rewrite group_special_spec by (try (rewrite (l_ctrl _ _ _ Hl)); unfold ELPIS_GROUP; lia). bind_step. rewrite <- mask_at_0.
  set (bs := map special (slice (s_ctrl s) g ELPIS_GROUP)). assert (length bs = 16%nat) as Hbl by (unfold bs; by rewrite length_map).
  assert (∀ (b : nat) c, (b < 16)%nat → s_ctrl s !! Z.to_nat (probe_at (s_cap s) hash (16 * t + Z.of_nat b)) = Some c → bs !! b = Some (special c)) as Hbs.
  { intros b c Hb Hc. unfold bs. rewrite list_lookup_fmap, (group_at _ _ _ g b Hl Hg) by lia. unfold g. rewrite probe_at_add, Hc. done. }
  destruct (Z.eqb_spec (mask_at 0 bs) 0) as [Hz|Hz]; cbn [negb].
  - assert (∀ d c, 0 <= d < 16 * (t + 1) → s_ctrl s !! Z.to_nat (probe_at (s_cap s) hash d) = Some c → special c = false) as Hseen'.
    { intros d c Hd Hc. destruct (Z.lt_ge_cases d (16 * t)); [apply (Hseen d); [lia|done]|].
      apply mask_at_zero in Hz. apply (Forall_elem _ _ _ Hz). apply (list_elem_of_lookup_2 _ (Z.to_nat (d - 16 * t))).
      apply Hbs; [lia|]. by replace (16 * t + Z.of_nat (Z.to_nat (d - 16 * t))) with d by lia. }
    unfold ELPIS_GROUP. rewrite u32_id by lia. destruct (Z.ltb_spec (s_cap s) (16 * t + 16)).
    + exists None. split; [done|]. intros i c Hi. destruct (on_path (s_cap s) hash i Hi) as [Hd Hp]. rewrite <- Hp. apply Hseen'. lia.
    + rewrite land_cap by done. rewrite u32_id by lia. unfold g. rewrite probe_at_add.
      replace (16 * t + 16) with (16 * (t + 1)) by lia. apply IH; try done || lia.
  - destruct (mask_first bs 0 Hz) as (b & rest & Ebs & ->). cbn [Nat.add].
    assert (b < 16)%nat as Hb by (rewrite Ebs, length_app, length_replicate in Hbl; cbn in Hbl; lia).
    rewrite ctz_spec by lia. bind_step. rewrite land_cap by done. unfold g at 1. rewrite probe_at_add. eexists. split; [done|].
    pose proof (probe_at_range (s_cap s) hash (16 * t + Z.of_nat b) ltac:(lia)) as Hj. split; [done|].
    destruct (lookup_lt_is_Some_2 (s_ctrl s) (Z.to_nat (probe_at (s_cap s) hash (16 * t + Z.of_nat b)))) as [c Hc].
    { pose proof (l_ctrl _ _ _ Hl). unfold ELPIS_GROUP in *. zl. }
    assert (special c = true) as Hsp.
    { pose proof (Hbs b c Hb Hc) as E. rewrite Ebs, lookup_app_r in E by (rewrite length_replicate; lia).
      rewrite length_replicate, Nat.sub_diag in E. by injection E. }
    split; [by exists c|].
    assert (16 * t + Z.of_nat b < (s_cap s)) as Hlt.
    { apply Z.lt_nge. intros Hge. pose proof (probe_at_round (s_cap s) hash (16 * t + Z.of_nat b - (s_cap s))) as Hpr.
      replace (16 * t + Z.of_nat b - (s_cap s) + (s_cap s)) with (16 * t + Z.of_nat b) in Hpr by lia. rewrite Hpr in Hc.
      apply Hseen in Hc; [congruence|lia]. }
    rewrite dist_probe_at by lia. intros d c' Hd Hc'. destruct (Z.lt_ge_cases d (16 * t)); [apply (Hseen d); [lia|done]|].
    assert (bs !! Z.to_nat (d - 16 * t) = Some (special c')) as E
      by (apply Hbs; [lia|]; by replace (16 * t + Z.of_nat (Z.to_nat (d - 16 * t))) with d by lia).
    rewrite Ebs, lookup_app_l in E by (rewrite length_replicate; lia). by apply lookup_replicate in E as [-> _].
Qed.

Lemma find_free_spec hash : 0 <= hash → ∃ r, find_free s hash = Ok r ∧
  match r with
  | Some j => 0 <= j < s_cap s ∧ (∃ c, s_ctrl s !! Z.to_nat j = Some c ∧ special c = true) ∧
      ∀ d c, 0 <= d < dist (s_cap s) hash j → s_ctrl s !! Z.to_nat (probe_at (s_cap s) hash d) = Some c → special c = false
  | None => ∀ i c, Z.of_nat i < s_cap s → s_ctrl s !! i = Some c → special c = false
  end.
Proof.
  intros Hh. unfold find_free. destruct (h1_start hash Hh) as [-> ->]. pose proof (cap_ok_range _ (l_cap _ _ _ Hl)).
  pose proof (Z.div_pos (s_cap s) 16). apply (find_free_loop_spec hash _ 0); try lia.
  unfold probe_fuel, ELPIS_GROUP. lia.
Qed.
End Probe.

(** ** Changing a slot *)

Lemma ents_fill slots i e : slots !! i = Some None → ents (<[i := Some e]> slots) ≡ₚ e :: ents slots.
Proof.
  intros Hi. pose proof (lookup_lt_Some _ _ _ Hi). rewrite insert_take_drop by done.
  unfold ents. rewrite omap_app. cbn [omap list_omap id].
  rewrite <- (take_drop_middle _ _ _ Hi) at 3. rewrite omap_app. cbn [omap list_omap id]. by rewrite <- Permutation_middle.
Qed.

Lemma ents_clear slots i e : slots !! i = Some (Some e) → ents slots ≡ₚ e :: ents (<[i := None]> slots).
Proof.
  intros Hi. pose proof (lookup_lt_Some _ _ _ Hi) as Hlt. rewrite <- (ents_fill (<[i := None]> slots) i e).
  - rewrite list_insert_insert_eq. by rewrite list_insert_id.
  - by rewrite list_lookup_insert_eq.
Qed.

Lemma ents_swap slots i e e' : slots !! i = Some (Some e) →
  ∃ rest, ents slots ≡ₚ e :: rest ∧ ents (<[i := Some e']> slots) ≡ₚ e' :: rest.
Proof.
  intros Hi. pose proof (lookup_lt_Some _ _ _ Hi). exists (ents (<[i := None]> slots)). split; [by apply ents_clear|].
  rewrite <- (list_insert_insert_eq slots i (Some e') None). apply ents_fill. by rewrite list_lookup_insert_eq.
Qed.

Lemma length_ents (slots : list (option (centry P))) : (length (ents slots) <= length slots)%nat.
Proof. unfold ents. induction slots as [|[e|] slots IH]; cbn; lia. Qed.

Lemma free_cell slots : (length (ents slots) < length slots)%nat → ∃ i, slots !! i = Some None.
Proof.
  unfold ents. induction slots as [|[e|] slots IH]; cbn [omap list_omap id length]; intros Hl; [lia|..].
  - destruct IH as [i Hi]; [lia|]. by exists (S i).
  - by exists 0%nat.
Qed.

(** [ctrl_set] on a table. *)
Definition ctrl_upd (ctrl : list Z) (cap : Z) (i : nat) (v : Z) : list Z :=
  if decide (i < 16)%nat then <[(Z.to_nat cap + i)%nat := v]> (<[i := v]> ctrl) else <[i := v]> ctrl.

Lemma ctrl_set_spec ctrl cap i v : cap_ok cap → zlen ctrl = cap + ELPIS_GROUP → 0 <= i < cap →
  ctrl_set ctrl cap i v = Ok (ctrl_upd ctrl cap (Z.to_nat i) v).
Proof.
  intros Hc Hl Hi. pose proof (cap_ok_range _ Hc). unfold ctrl_set, ctrl_upd, ELPIS_GROUP in *.
  rewrite wr_in_range by lia. bind_step. destruct (Z.ltb_spec i 16); [rewrite decide_True by lia|by rewrite decide_False by lia].
  rewrite u32_id by lia. rewrite wr_in_range by (rewrite zlen_insert; lia). do 2 f_equal. lia.
Qed.

Lemma ctrl_upd_lookup ctrl cap i v j : zlen ctrl = cap + ELPIS_GROUP → Z.of_nat i < cap → Z.of_nat j < cap →
  ctrl_upd ctrl cap i v !! j = if decide (i = j) then Some v else ctrl !! j.
Proof.
  intros Hl Hi Hj. unfold ctrl_upd, ELPIS_GROUP in *.
  assert ((<[i := v]> ctrl : list Z) !! j = if decide (i = j) then Some v else ctrl !! j) as E.
  { case_decide as Hij; [subst; apply list_lookup_insert_eq; zl|by apply list_lookup_insert_ne]. }
  destruct (decide (i < 16)%nat); [rewrite list_lookup_insert_ne by lia|]; exact E.
Qed.

Lemma ctrl_upd_zlen ctrl cap i v : zlen (ctrl_upd ctrl cap i v) = zlen ctrl.
Proof. unfold ctrl_upd. case_decide; by rewrite ?zlen_insert. Qed.

Lemma ctrl_upd_mirror ctrl cap i v : 16 <= cap → zlen ctrl = cap + ELPIS_GROUP → Z.of_nat i < cap →
  (∀ j : nat, Z.of_nat j < ELPIS_GROUP → ctrl !! (Z.to_nat cap + j)%nat = ctrl !! j) →
  ∀ j : nat, Z.of_nat j < ELPIS_GROUP → ctrl_upd ctrl cap i v !! (Z.to_nat cap + j)%nat = ctrl_upd ctrl cap i v !! j.
Proof.
  intros Hc Hl Hi Hm j Hj. rewrite (ctrl_upd_lookup _ _ _ _ j) by (done || unfold ELPIS_GROUP in *; lia).
  unfold ctrl_upd, ELPIS_GROUP in *. destruct (decide (i = j)) as [->|Hij].
  - rewrite decide_True by lia. apply list_lookup_insert_eq. rewrite length_insert. zl.
  - case_decide; rewrite ?list_lookup_insert_ne by lia; by apply Hm.
Qed.

Lemma layout_fill cap ctrl slots (i : nat) e : layout cap ctrl slots → slots !! i = Some None →
  entry_ok e → e_key e ∉ map e_key (ents slots) →
  (∀ d, 0 <= d < dist cap (e_hash e) (Z.of_nat i) → ctrl !! Z.to_nat (probe_at cap (e_hash e) d) ≠ Some CTRL_EMPTY) →
  layout cap (ctrl_upd ctrl cap i (h2 (e_hash e))) (<[i := Some e]> slots).
Proof.
  intros Hl Hi He Hk Hp. pose proof (cap_ok_range _ (l_cap _ _ _ Hl)). pose proof (lookup_lt_Some _ _ _ Hi) as Hlt.
  pose proof (l_slots _ _ _ Hl) as Hsl. assert (Z.of_nat i < cap) as Hic by zl.
  assert (∀ d h, ctrl !! Z.to_nat (probe_at cap h d) ≠ Some CTRL_EMPTY →
    ctrl_upd ctrl cap i (h2 (e_hash e)) !! Z.to_nat (probe_at cap h d) ≠ Some CTRL_EMPTY) as Hkeep.
  { intros d h Hne. pose proof (probe_at_range cap h d ltac:(lia)).
    rewrite ctrl_upd_lookup by (try apply (l_ctrl _ _ _ Hl); lia). case_decide; [|done]. intros [= E]. by destruct (h2_not_free (e_hash e)). }
  split.
  - apply Hl.
  - rewrite ctrl_upd_zlen. apply Hl.
  - by rewrite zlen_insert.
  - apply ctrl_upd_mirror; [lia|apply Hl|done|apply Hl].
  - intros j x Hx. assert (Z.of_nat j < cap) by (apply lookup_lt_Some in Hx; rewrite length_insert in Hx; zl).
    rewrite ctrl_upd_lookup by (try apply (l_ctrl _ _ _ Hl); lia). apply list_lookup_insert_Some in Hx as [(-> & [= ->] & _)|[Hne Hx]].
    + by rewrite decide_True.
    + rewrite decide_False by done. by apply (l_full _ _ _ Hl).
  - intros j Hx. apply list_lookup_insert_Some in Hx as [(_ & [=] & _)|[Hne Hx]].
    rewrite ctrl_upd_lookup by (try apply (l_ctrl _ _ _ Hl); apply lookup_lt_Some in Hx; zl). rewrite decide_False by done. by apply (l_free _ _ _ Hl).
  - intros j x d Hx Hd. apply Hkeep. apply list_lookup_insert_Some in Hx as [(-> & [= ->] & _)|[Hne Hx]]; [by apply Hp|by apply (l_probe _ _ _ Hl j)].
  - rewrite ents_fill by done. constructor; [done|apply Hl].
  - rewrite ents_fill by done. cbn [map]. constructor; [done|apply Hl].
Qed.

Lemma layout_clear cap ctrl slots (i : nat) e : layout cap ctrl slots → slots !! i = Some (Some e) →
  layout cap (ctrl_upd ctrl cap i CTRL_DELETED) (<[i := None]> slots).
Proof.
  intros Hl Hi. pose proof (cap_ok_range _ (l_cap _ _ _ Hl)). pose proof (lookup_lt_Some _ _ _ Hi) as Hlt.
  pose proof (l_slots _ _ _ Hl) as Hsl. assert (Z.of_nat i < cap) as Hic by zl. pose proof (ents_clear _ _ _ Hi) as Hperm.
  split.
  - apply Hl.
  - rewrite ctrl_upd_zlen. apply Hl.
  - by rewrite zlen_insert.
  - apply ctrl_upd_mirror; [lia|apply Hl|done|apply Hl].
  - intros j x Hx. apply list_lookup_insert_Some in Hx as [(_ & [=] & _)|[Hne Hx]].
    rewrite ctrl_upd_lookup by (try apply (l_ctrl _ _ _ Hl); apply lookup_lt_Some in Hx; zl). rewrite decide_False by done. by apply (l_full _ _ _ Hl).
  - intros j Hx. assert (Z.of_nat j < cap) by (apply lookup_lt_Some in Hx; rewrite length_insert in Hx; zl).
    rewrite ctrl_upd_lookup by (try apply (l_ctrl _ _ _ Hl); lia). apply list_lookup_insert_Some in Hx as [(-> & _ & _)|[Hne Hx]].
    + rewrite decide_True by done. by right.
    + rewrite decide_False by done. by apply (l_free _ _ _ Hl).
  - intros j x d Hx Hd. apply list_lookup_insert_Some in Hx as [(_ & [=] & _)|[Hne Hx]].
    pose proof (probe_at_range cap (e_hash x) d ltac:(lia)). rewrite ctrl_upd_lookup by (try apply (l_ctrl _ _ _ Hl); lia).
    case_decide; [by intros [=]|]. by apply (l_probe _ _ _ Hl j).
  - pose proof (l_ents _ _ _ Hl) as He. rewrite Hperm in He. by apply Forall_cons_1 in He as [_ ?].
  - pose proof (l_keys _ _ _ Hl) as Hk. rewrite Hperm in Hk. cbn [map] in Hk. by apply NoDup_cons in Hk as [_ ?].
Qed.

(** The same key and hash in the place of an entry. *)
Lemma layout_swap cap ctrl slots (i : nat) e e' : layout cap ctrl slots → slots !! i = Some (Some e) →
  e_hash e' = e_hash e → e_key e' = e_key e → entry_ok e' → layout cap ctrl (<[i := Some e']> slots).
Proof.
  intros Hl Hi Hh Hke He'. destruct (ents_swap slots i e e' Hi) as (rest & Hp & Hp'). split.
  - apply Hl.
  - apply Hl.
  - rewrite zlen_insert. apply Hl.
  - apply Hl.
  - intros j x Hx. apply list_lookup_insert_Some in Hx as [(-> & [= ->] & _)|[Hne Hx]]; [rewrite Hh|]; by apply (l_full _ _ _ Hl).
  - intros j Hx. apply list_lookup_insert_Some in Hx as [(_ & [=] & _)|[Hne Hx]]. by apply (l_free _ _ _ Hl).
  - intros j x d Hx Hd. apply list_lookup_insert_Some in Hx as [(-> & [= ->] & _)|[Hne Hx]]; [rewrite Hh in *|]; by apply (l_probe _ _ _ Hl j).
  - pose proof (l_ents _ _ _ Hl) as He. rewrite Hp in He. rewrite Hp'. apply Forall_cons_1 in He as [_ ?]. by constructor.
  - pose proof (l_keys _ _ _ Hl) as Hk. rewrite Hp in Hk. rewrite Hp'. cbn [map] in *. by rewrite Hke.
Qed.

(** ** The invariant of a shard *)

Definition sizes (l : list (centry P)) : Z := foldr (fun e n => h_size (hdr_of e) + n) 0 l.
Definition pinned (e : centry P) : Prop := h_pinned (hdr_of e) ≠ 0.
Definition tombs (cap : Z) (ctrl : list Z) : Z := zlen (filter (fun c => c = CTRL_DELETED) (take (Z.to_nat cap) ctrl)).

Record shard_ok (s : shard_t P) : Prop := {
  k_layout : layout (s_cap s) (s_ctrl s) (s_slots s);
  k_hand : 0 <= s_hand s < s_cap s;
  k_used : s_used s = zlen (ents (s_slots s));
  k_tomb : s_tomb s = tombs (s_cap s) (s_ctrl s);
  k_bytes : s_bytes s = sizes (ents (s_slots s));
  k_pins : s_pinned_entries s = zlen (filter pinned (ents (s_slots s)));
  k_pinned : s_pinned_bytes s = sizes (filter pinned (ents (s_slots s)));
  k_max : 0 <= s_bytes_max s < 2 ^ 63 }.

#[export] Instance sizes_perm : Proper ((≡ₚ) ==> (=)) sizes.
Proof. intros l l' Hp. unfold sizes. induction Hp; cbn; lia. Qed.

Lemma sizes_range l : Forall entry_ok l → 0 <= sizes l <= zlen l * 2 ^ 32.
Proof.
  induction 1 as [|e l (_ & _ & He) _ IH]; [done|]. rewrite zlen_cons. cbn [sizes foldr]. fold (sizes l). lia.
Qed.

Lemma filter_pinned_cons e l : filter pinned (e :: l) = if decide (pinned e) then e :: filter pinned l else filter pinned l.
Proof. by rewrite filter_cons. Qed.

Lemma tombs_upd cap ctrl i v c : 0 <= cap → zlen ctrl = cap + ELPIS_GROUP → Z.of_nat i < cap → ctrl !! i = Some c →
  tombs cap (ctrl_upd ctrl cap i v) + (if decide (c = CTRL_DELETED) then 1 else 0) = tombs cap ctrl + (if decide (v = CTRL_DELETED) then 1 else 0).
Proof.
  intros Hcap Hl Hi Hc. unfold tombs, ELPIS_GROUP in *.
  assert (take (Z.to_nat cap) (ctrl_upd ctrl cap i v) = <[i := v]> (take (Z.to_nat cap) ctrl)) as ->.
  { apply list_eq. intros j. destruct (decide (j < Z.to_nat cap)%nat) as [Hj|Hj].
    - rewrite lookup_take_lt, ctrl_upd_lookup by (unfold ELPIS_GROUP; lia). case_decide as Hij.
      + subst j. symmetry. apply list_lookup_insert_eq. rewrite length_take. zl.
      + by rewrite list_lookup_insert_ne, lookup_take_lt by lia.
    - rewrite !lookup_ge_None_2; [done|..]; rewrite ?length_insert, length_take; lia. }
  assert (take (Z.to_nat cap) ctrl !! i = Some c) as Ht by (rewrite lookup_take_lt by lia; done).
  set (l := take (Z.to_nat cap) ctrl) in *. pose proof (lookup_lt_Some _ _ _ Ht). rewrite insert_take_drop by done.
  rewrite <- (take_drop_middle _ _ _ Ht) at 3. rewrite !filter_app, !filter_cons, !zlen_app.
  repeat case_decide; rewrite ?zlen_cons; lia.
Qed.

(** The bookkeeping, with the numbers in range. *)
Lemma shard_counts s : shard_ok s → 64 <= s_cap s <= 2 ^ 30 ∧ 0 <= s_used s <= s_cap s ∧ 0 <= s_tomb s <= s_cap s ∧
  0 <= s_bytes s <= s_used s * 2 ^ 32 ∧ 0 <= s_pinned_entries s <= s_used s ∧ 0 <= s_pinned_bytes s <= s_bytes s.
Proof.
  intros Hk. pose proof (cap_ok_range _ (l_cap _ _ _ (k_layout _ Hk))) as Hr. pose proof (l_ents _ _ _ (k_layout _ Hk)) as He.
  assert (length (ents (s_slots s)) <= length (s_slots s))%nat as Hlen by apply length_ents.
  pose proof (l_slots _ _ _ (k_layout _ Hk)). pose proof (sizes_range _ He).
  rewrite (k_used _ Hk), (k_tomb _ Hk), (k_bytes _ Hk), (k_pins _ Hk), (k_pinned _ Hk).
  split; [done|]. split; [zl|]. split.
  { unfold tombs. pose proof (length_filter (fun c => c = CTRL_DELETED) (take (Z.to_nat (s_cap s)) (s_ctrl s))) as Hf. rewrite length_take in Hf. zl. }
  split; [done|]. clear -He. induction He as [|e l (_ & _ & He) _ IH]; [done|]. rewrite filter_pinned_cons. cbn [sizes foldr]. fold (sizes l).
  rewrite zlen_cons. case_decide; rewrite ?zlen_cons; cbn [sizes foldr]; fold (sizes (filter pinned l)); lia.
Qed.

(** Charging an entry that is put in, discharging one that is taken out. *)
Lemma charge_counts s e l : 0 <= s_bytes s < 2 ^ 63 → 0 <= s_pinned_entries s < 2 ^ 31 → 0 <= s_pinned_bytes s < 2 ^ 63 → entry_ok e →
  s_bytes s = sizes l → s_pinned_entries s = zlen (filter pinned l) → s_pinned_bytes s = sizes (filter pinned l) →
  s_bytes (charge s (hdr_of e)) = sizes (e :: l) ∧ s_pinned_entries (charge s (hdr_of e)) = zlen (filter pinned (e :: l)) ∧
  s_pinned_bytes (charge s (hdr_of e)) = sizes (filter pinned (e :: l)).
Proof.
  intros Hb Hp Hpb (_ & _ & Hz) E1 E2 E3. rewrite filter_pinned_cons. unfold charge. cbn [s_bytes s_pinned_entries s_pinned_bytes sizes foldr]. fold (sizes l).
  destruct (Z.eqb_spec (h_pinned (hdr_of e)) 0) as [Hz0|Hz0]; cbn [negb]; [rewrite decide_False by (unfold pinned; lia)|rewrite decide_True by done];
    rewrite ?zlen_cons; cbn [sizes foldr]; fold (sizes (filter pinned l)); rewrite ?u64_id, ?u32_id by lia; lia.
Qed.

Lemma discharge_counts s e l : 0 <= s_bytes s < 2 ^ 63 → 0 <= s_pinned_entries s < 2 ^ 31 → 0 <= s_pinned_bytes s < 2 ^ 63 → entry_ok e → Forall entry_ok l →
  s_bytes s = sizes (e :: l) → s_pinned_entries s = zlen (filter pinned (e :: l)) → s_pinned_bytes s = sizes (filter pinned (e :: l)) →
  s_bytes (discharge s (hdr_of e)) = sizes l ∧ s_pinned_entries (discharge s (hdr_of e)) = zlen (filter pinned l) ∧
  s_pinned_bytes (discharge s (hdr_of e)) = sizes (filter pinned l).
Proof.
  intros Hb Hp Hpb (_ & _ & Hz) Hl E1 E2 E3. rewrite filter_pinned_cons in *. unfold discharge. cbn [s_bytes s_pinned_entries s_pinned_bytes sizes foldr] in *. fold (sizes l) in *.
  pose proof (sizes_range _ Hl) as H0. assert (Forall entry_ok (filter pinned l)) as Hfl by (by apply Forall_filter).
  pose proof (sizes_range _ Hfl) as H1. pose proof (zlen_nonneg (filter pinned l)).
  destruct (Z.eqb_spec (h_pinned (hdr_of e)) 0) as [Hz0|Hz0]; cbn [negb]; [rewrite decide_False in * by (unfold pinned; lia)|rewrite decide_True in * by done];
    rewrite ?zlen_cons in *; cbn [sizes foldr] in *; fold (sizes (filter pinned l)) in *; rewrite ?u64_id, ?u32_id by lia; lia.
Qed.

Lemma shard_sizes s : shard_ok s →
  0 <= s_bytes s < 2 ^ 63 ∧ 0 <= s_pinned_entries s < 2 ^ 31 ∧ 0 <= s_pinned_bytes s < 2 ^ 63 ∧ Forall entry_ok (ents (s_slots s)).
Proof.
  intros Hk. destruct (shard_counts s Hk) as (? & ? & ? & ? & ? & ?). assert (s_used s * 2 ^ 32 <= 2 ^ 30 * 2 ^ 32) by lia.
  change (2 ^ 30 * 2 ^ 32) with (2 ^ 62) in *. split_and!; try lia. apply Hk.
Qed.

(** Fields that a change leaves alone. *)
Definition same_frame (s s' : shard_t P) : Prop := s_cap s' = s_cap s ∧ s_bytes_max s' = s_bytes_max s.

(** A slot is taken out of the table. *)
Lemma slot_drop_spec s i e : shard_ok s → 0 <= i → s_slots s !! Z.to_nat i = Some (Some e) →
  ∃ s', slot_drop s i = Ok (s', [e]) ∧ shard_ok s' ∧ same_frame s s' ∧ s_hand s' = s_hand s ∧ ents (s_slots s) ≡ₚ e :: ents (s_slots s').
Proof.
  intros Hk Hi He. pose proof (k_layout _ Hk) as Hl. destruct (shard_counts s Hk) as (Hc & Hu & Ht & _). destruct (shard_sizes s Hk) as (Hb & Hp & Hpb & Hents).
  unfold slot_drop. rewrite (rd_lookup _ _ _ Hi He). bind_step.
  assert (i < s_cap s) as Hlt by (apply lookup_lt_Some in He; pose proof (l_slots _ _ _ Hl); zl).
  pose proof (l_slots _ _ _ Hl). rewrite wr_in_range by (cbn [discharge s_slots]; lia). bind_step.
  cbn [discharge s_slots s_ctrl s_cap s_used s_tomb]. rewrite ctrl_set_spec by (first [apply Hl|lia]). bind_step.
  pose proof (ents_clear _ _ _ He) as Hperm. pose proof (layout_clear _ _ _ _ _ Hl He) as Hl'.
  rewrite Hperm in Hents. apply Forall_cons_1 in Hents as [Hee Hrest].
  destruct (discharge_counts s e (ents (<[Z.to_nat i := None]> (s_slots s)))) as (E1 & E2 & E3); try done;
    [rewrite <- Hperm; apply Hk..|].
  eexists. split; [done|]. split; [|by split_and!]. unfold with_table. split; cbn [s_cap s_ctrl s_slots s_hand s_used s_tomb s_bytes s_pinned_entries s_pinned_bytes s_bytes_max discharge].
  - done.
  - apply Hk.
  - pose proof (k_used _ Hk) as Eu. rewrite Hperm, zlen_cons in Eu.
    pose proof (zlen_nonneg (ents (<[Z.to_nat i := None]> (s_slots s)))). rewrite u32_id by lia. lia.
  - pose proof (l_full _ _ _ Hl _ _ He) as Hc2.
    pose proof (tombs_upd (s_cap s) (s_ctrl s) (Z.to_nat i) CTRL_DELETED (h2 (e_hash e)) ltac:(lia) (l_ctrl _ _ _ Hl) ltac:(lia) Hc2) as Htm.
    rewrite decide_False in Htm by (apply (h2_not_free (e_hash e))). rewrite decide_True in Htm by done.
    pose proof (k_tomb _ Hk) as Et. rewrite u32_id by lia. lia.
  - done.
  - done.
  - done.
  - apply Hk.
Qed.

(** ** The abstract map *)

(** An entry but for its reference bit. *)
Definition strip (e : centry P) : centry P := with_ref e 0.

Lemma strip_ref e v : strip (with_ref e v) = strip e.
Proof. done. Qed.

(** The shard as a map of keys to entries. *)
Definition mapof (l : list (centry P)) : gmap Q (centry P) := list_to_map (map (fun e => (e_key e, strip e)) l).
Definition shard_map s : gmap Q (centry P) := mapof (ents (s_slots s)).

Lemma mapof_keys l : (map (fun e => (e_key e, strip e)) l).*1 = map e_key l.
Proof. induction l; cbn; congruence. Qed.

Lemma mapof_perm l l' : NoDup (map e_key l) → l ≡ₚ l' → mapof l = mapof l'.
Proof. intros Hn Hp. apply list_to_map_proper; [by rewrite mapof_keys|by rewrite Hp]. Qed.

Lemma mapof_strip_perm l l' : NoDup (map e_key l) → map strip l ≡ₚ map strip l' → mapof l = mapof l'.
Proof.
  intros Hn Hp. assert (∀ l, map (fun e => (e_key e, strip e)) l = map (fun e => (e_key e, e)) (map strip l)) as E.
  { intros k. rewrite map_map. done. }
  apply list_to_map_proper; [by rewrite mapof_keys|]. by rewrite !E, Hp.
Qed.

Lemma keys_strip_perm l l' : map strip l ≡ₚ map strip l' → map e_key l ≡ₚ map e_key l'.
Proof.
  intros Hp. assert (∀ l, map e_key l = map e_key (map strip l)) as E by (intros; rewrite map_map; done). by rewrite (E l), (E l'), Hp.
Qed.

Lemma mapof_cons e l : mapof (e :: l) = <[e_key e := strip e]> (mapof l).
Proof. done. Qed.

Lemma mapof_none l k : k ∉ map e_key l → mapof l !! k = None.
Proof. intros Hk. apply not_elem_of_list_to_map_1. by rewrite mapof_keys. Qed.

Lemma mapof_lookup l k x : NoDup (map e_key l) → mapof l !! k = Some x ↔ ∃ e, e ∈ l ∧ e_key e = k ∧ x = strip e.
Proof.
  intros Hn. unfold mapof. rewrite <- elem_of_list_to_map by (by rewrite mapof_keys). split.
  - intros Hin. apply list_elem_of_fmap in Hin as (e & [= -> ->] & Hin). by exists e.
  - intros (e & Hin & <- & ->). apply list_elem_of_fmap. by exists e.
Qed.

(** Without the entries that were freed. *)
Lemma mapof_app_minus f l : NoDup (map e_key (f ++ l)) → mapof l = mapof (f ++ l) ∖ mapof f.
Proof.
  induction f as [|e f IH]; cbn [app map]; intros Hn.
  - unfold mapof at 3. cbn. by rewrite map_difference_empty.
  - apply NoDup_cons in Hn as [Hn1 Hn2]. rewrite (IH Hn2). rewrite !mapof_cons. apply map_eq. intros k. apply option_eq. intros x.
    rewrite !lookup_difference_Some. destruct (decide (k = e_key e)) as [->|Hne].
    + rewrite !lookup_insert_eq. rewrite (mapof_none (f ++ l)) by done. split; [by intros [[=] _]|by intros [_ [=]]].
    + by rewrite !lookup_insert_ne by done.
Qed.

(** The entries that left: what was in the shard is what is in it now and what
    was freed. *)
Definition freed s (f : list (centry P)) s' : Prop :=
  map strip (ents (s_slots s)) ≡ₚ map strip (f ++ ents (s_slots s')).

Lemma freed_nil s : freed s [] s.
Proof. unfold freed. done. Qed.
Lemma freed_trans s1 f s2 f' s3 : freed s1 f s2 → freed s2 f' s3 → freed s1 (f ++ f') s3.
Proof. unfold freed. intros H12 H23. rewrite H12, map_app, H23, <- map_app. by rewrite app_assoc. Qed.

Lemma freed_map s f s' : shard_ok s → freed s f s' → shard_map s' = shard_map s ∖ mapof f.
Proof.
  intros Hk Hf. pose proof (l_keys _ _ _ (k_layout _ Hk)) as Hn. unfold shard_map. rewrite (mapof_strip_perm _ _ Hn Hf).
  apply mapof_app_minus. by rewrite <- (keys_strip_perm _ _ Hf).
Qed.

Lemma freed_keys s f s' k : freed s f s' → k ∉ map e_key (ents (s_slots s)) → k ∉ map e_key (ents (s_slots s')).
Proof.
  intros Hf Hk Hin. apply Hk. rewrite (keys_strip_perm _ _ Hf), map_app. apply elem_of_app. by right.
Qed.

Lemma freed_count s f s' : freed s f s' → zlen (ents (s_slots s)) = zlen f + zlen (ents (s_slots s')).
Proof.
  intros Hf. apply Permutation_length in Hf. rewrite !length_map, length_app in Hf. zl.
Qed.

(** ** Eviction *)

Lemma with_hand_ok s h : shard_ok s → 0 <= h < s_cap s → shard_ok (with_hand s h).
Proof. intros [] Hh. by split. Qed.

Lemma with_stats_ok s f : shard_ok s → shard_ok (with_stats s f).
Proof. intros []. by split. Qed.

Lemma hand_next s : shard_ok s →
  Z.land (u32 (s_hand s + 1)) (u32 (s_cap s - 1)) = (s_hand s + 1) mod s_cap s ∧ 0 <= (s_hand s + 1) mod s_cap s < s_cap s.
Proof.
  intros Hk. destruct (shard_counts s Hk) as (Hc & _). pose proof (k_hand _ Hk). rewrite !u32_id by lia.
  rewrite land_cap by apply Hk. split; [done|]. apply Z.mod_pos_bound. lia.
Qed.

(** The control byte and the slot at one place. *)
Lemma cell_cases cap ctrl slots i : layout cap ctrl slots → 0 <= i < cap →
  (∃ c, rd ctrl i = Ok c ∧ IS_FULL c = false ∧ slots !! Z.to_nat i = Some None ∧ (c = CTRL_EMPTY ∨ c = CTRL_DELETED)) ∨
  (∃ c e, rd ctrl i = Ok c ∧ IS_FULL c = true ∧ slots !! Z.to_nat i = Some (Some e) ∧ rd slots i = Ok (Some e) ∧ c = h2 (e_hash e)).
Proof.
  intros Hl Hi. pose proof (l_slots _ _ _ Hl).
  destruct (rd_in_range slots i) as ([e|] & Hr & Ho); [lia|..]; [right|left].
  - pose proof (l_full _ _ _ Hl _ _ Ho) as Hc. exists (h2 (e_hash e)), e. split_and!; try done; [apply rd_lookup; [lia|done]|apply full_h2].
  - destruct (l_free _ _ _ Hl _ Ho) as [Hc|Hc]; eexists; (split; [apply rd_lookup; [lia|done]|]); split_and!; try done; [by left|by right].
Qed.

(** A reference bit is all that changes. *)
Lemma set_ref_ok s i e v : shard_ok s → s_slots s !! Z.to_nat i = Some (Some e) →
  let s' := with_table s (s_ctrl s) (<[Z.to_nat i := Some (with_ref e v)]> (s_slots s)) (s_used s) (s_tomb s) in
  shard_ok s' ∧ freed s [] s'.
Proof.
  intros Hk Hi s'. destruct (ents_swap (s_slots s) (Z.to_nat i) e (with_ref e v) Hi) as (rest & Hp & Hp').
  assert (entry_ok e) as He.
  { pose proof (l_ents _ _ _ (k_layout _ Hk)) as Hf. rewrite Hp in Hf. by apply Forall_cons_1 in Hf as [? _]. }
  assert (sizes (e :: rest) = sizes (with_ref e v :: rest)) as E1 by done.
  assert (filter pinned (with_ref e v :: rest) = if decide (pinned e) then with_ref e v :: filter pinned rest else filter pinned rest) as E2
    by (by rewrite filter_cons).
  split.
  - split; cbn [s' with_table s_cap s_ctrl s_slots s_hand s_used s_tomb s_bytes s_pinned_entries s_pinned_bytes s_bytes_max]; try apply Hk.
    + by apply (layout_swap _ _ _ _ e); [apply Hk|..].
    + rewrite (k_used _ Hk), Hp, Hp', !zlen_cons. done.
    + rewrite (k_bytes _ Hk), Hp, Hp'. done.
    + rewrite (k_pins _ Hk), Hp, Hp', E2, filter_pinned_cons. by case_decide; rewrite ?zlen_cons.
    + rewrite (k_pinned _ Hk), Hp, Hp', E2, filter_pinned_cons. by case_decide.
  - unfold freed. cbn [s' with_table s_slots app]. by rewrite Hp, Hp'.
Qed.

Definition takeable (now : Z) (e : centry P) : Prop := is_expired (hdr_of e) now = true ∨ ¬ pinned e.

Lemma freed_one s e s' : ents (s_slots s) ≡ₚ e :: ents (s_slots s') → freed s [e] s'.
Proof. intros Hp. unfold freed. by rewrite Hp. Qed.

(** What a sweep of [k] turns that takes nothing has seen of an entry [d] turns
    ahead. *)
Definition swept (now cap : Z) (k : Z) (d : Z) (e : centry P) : Prop :=
  (d < k → is_expired (hdr_of e) now = false ∧ (pinned e ∨ h_ref (hdr_of e) ≠ 0)) ∧
  (d + cap < k → is_expired (hdr_of e) now = false ∧ pinned e).

Lemma next_turn cap i h : 0 <= i < cap → 0 <= h < cap → i ≠ h → (i - h) mod cap = (i - (h + 1) mod cap) mod cap + 1.
Proof.
  intros Hi Hh Hne. rewrite Zminus_mod_idemp_r. set (x := (i - h) mod cap).
  assert (0 <= x < cap) as Hx by (apply Z.mod_pos_bound; lia).
  assert (x ≠ 0) as Hx0.
  { intros Hz. unfold x in Hz. apply Hne. destruct (Z.le_gt_cases h i).
    - rewrite Z.mod_small in Hz by lia. lia.
    - rewrite <- (Z.mod_add _ 1), Z.mod_small in Hz by lia. lia. }
  replace (i - (h + 1)) with (i - h - 1) by lia. rewrite <- Zminus_mod_idemp_l. fold x. rewrite Z.mod_small by lia. lia.
Qed.

Lemma turn_last cap h : 0 < cap → (h - (h + 1) mod cap) mod cap = cap - 1.
Proof.
  intros Hc. rewrite Zminus_mod_idemp_r. replace (h - (h + 1)) with (-1) by lia.
  rewrite <- (Z.mod_add _ 1), Z.mod_small by lia. lia.
Qed.

Lemma evict_loop_spec now k : ∀ s, shard_ok s →
  ∃ ok s' f, evict_loop k s now = Ok (ok, s', f) ∧ shard_ok s' ∧ same_frame s s' ∧ freed s f s' ∧
    (ok = true → ∃ e, f = [e] ∧ takeable now e) ∧
    (ok = false → f = [] ∧ ∀ i e, s_slots s !! i = Some (Some e) →
       swept now (s_cap s) (Z.of_nat k) ((Z.of_nat i - s_hand s) mod s_cap s) e).
Proof.
  induction k as [|k IH]; intros s Hk; cbn [evict_loop].
  { exists false, s, []. split_and!; try done; [by apply freed_nil|]. intros _. split; [done|]. intros i e Hi.
    pose proof (slot_in_range s (k_layout _ Hk) _ _ Hi). pose proof (Z.mod_pos_bound (Z.of_nat i - s_hand s) (s_cap s)). split; lia. }
  destruct (hand_next s Hk) as [-> Hh]. set (h' := (s_hand s + 1) mod s_cap s) in *. pose proof (k_hand _ Hk) as Hhand.
  pose proof (with_hand_ok s h' Hk Hh) as Hk1. set (s1 := with_hand s h') in *.
  assert (∀ s2 ok s' f, shard_ok s2 → same_frame s s2 → s_hand s2 = h' → freed s [] s2 →
    evict_loop k s2 now = Ok (ok, s', f) → 
    (∀ i, i ≠ Z.to_nat (s_hand s) → s_slots s2 !! i = s_slots s !! i) →
    (∀ e, s_slots s !! Z.to_nat (s_hand s) = Some (Some e) → is_expired (hdr_of e) now = false ∧
       ∃ v, s_slots s2 !! Z.to_nat (s_hand s) = Some (Some (with_ref e v)) ∧ (pinned e ∨ h_ref (hdr_of e) ≠ 0 ∧ v = 0)) →
    shard_ok s' ∧ same_frame s s' ∧ freed s f s' ∧
    (ok = true → ∃ e, f = [e] ∧ takeable now e) ∧
    (ok = false → f = [] ∧ ∀ i e, s_slots s !! i = Some (Some e) →
       swept now (s_cap s) (Z.of_nat (S k)) ((Z.of_nat i - s_hand s) mod s_cap s) e)) as Hgo.
  { intros s2 ok s' f Hk2 [Hc2 Hm2] Hh2 Hf2 He2 Hsame Hat.
    destruct (IH s2 Hk2) as (ok0 & s0 & f0 & E & ? & [? ?] & Hf & Hyes & Hno). rewrite E in He2. injection He2 as -> -> ->.
    split_and!; try done; [split; congruence|by apply (freed_trans s [] s2)|].
    intros Hok. destruct (Hno Hok) as [-> Hall]. split; [done|]. intros i e Hi. rewrite Hc2, Hh2 in Hall.
    pose proof (slot_in_range s (k_layout _ Hk) _ _ Hi) as Hic. destruct (decide (i = Z.to_nat (s_hand s))) as [->|Hne].
    - destruct (Hat e Hi) as (Hex & v & Hv & Hpin). rewrite Z2Nat.id by lia. rewrite Z.sub_diag, Zmod_0_l.
      destruct (Hall _ _ Hv) as [Ha _]. rewrite Z2Nat.id in Ha by lia. unfold h' in Ha. rewrite turn_last in Ha by lia. split.
      + intros _. split; [done|]. destruct Hpin as [|[? _]]; [by left|by right].
      + intros Hlt. split; [done|]. destruct Hpin as [|[_ ->]]; [done|]. destruct Ha as [_ [Hp|Hr]]; [lia|done|]. cbn in Hr. done.
    - assert (s_slots s2 !! i = Some (Some e)) as Hi2 by (by rewrite Hsame). destruct (Hall i e Hi2) as [Ha Hb].
      rewrite next_turn by lia. fold h'. split; intros Hlt; [apply Ha|apply Hb]; lia. }
  destruct (cell_cases _ _ _ (s_hand s) (k_layout _ Hk) Hhand) as [(c & Hrc & Hfull & Hslot & _)|(c & e & Hrc & Hfull & Hslot & Hrs & _)].
  - cbn [s1 with_hand s_ctrl]. rewrite Hrc. bind_step. rewrite Hfull. cbn [negb].
    destruct (IH s1 Hk1) as (ok & s' & f & E & _). exists ok, s', f. split; [done|].
    apply (Hgo s1 ok s' f); try done; [exact (freed_nil s)|]. intros e He. congruence.
  - cbn [s1 with_hand s_ctrl s_slots]. rewrite Hrc. bind_step. rewrite Hfull. cbn [negb]. rewrite Hrs. bind_step.
    destruct (is_expired (hdr_of e) now) eqn:Hex.
    { destruct (slot_drop_spec s1 (s_hand s) e Hk1) as (s' & E & Hk' & Hfr & _ & Hp); [lia|done|]. rewrite E. bind_step.
      exists true, (with_stats s' count_expired), [e]. split_and!; try done; [by apply with_stats_ok|by apply freed_one|].
      intros _. exists e. split; [done|by left]. }
    destruct (Z.eqb_spec (h_pinned (hdr_of e)) 0) as [Hp0|Hp0]; cbn [negb].
    2:{ destruct (IH s1 Hk1) as (ok & s' & f & E & _). exists ok, s', f. split; [done|]. apply (Hgo s1 ok s' f); try done; [exact (freed_nil s)|].
        intros e' He'. assert (e' = e) as -> by congruence. split; [done|]. exists (h_ref (hdr_of e)). split; [|by left].
        cbn [s1 with_hand s_slots]. rewrite Hslot. by destruct e as [[] ?]. }
    destruct (Z.eqb_spec (h_ref (hdr_of e)) 0) as [Hr0|Hr0]; cbn [negb].
    { destruct (slot_drop_spec s1 (s_hand s) e Hk1) as (s' & E & Hk' & Hfr & _ & Hp); [lia|done|]. rewrite E. bind_step.
      exists true, (with_stats s' count_evict), [e]. split_and!; try done; [by apply with_stats_ok|by apply freed_one|].
      intros _. exists e. split; [done|right; intros Hn; by apply Hn]. }
    pose proof (l_slots _ _ _ (k_layout _ Hk)). rewrite wr_in_range by lia. bind_step.
    destruct (set_ref_ok s1 (s_hand s) e 0 Hk1 Hslot) as [Hk2 Hf2]. cbn zeta in Hk2, Hf2. cbn [s1 with_hand s_slots s_ctrl s_used s_tomb] in Hk2, Hf2.
    set (s2 := with_table _ _ _ _ _) in *. destruct (IH s2 Hk2) as (ok & s' & f & E & _). exists ok, s', f. split; [done|].
    apply (Hgo s2 ok s' f); try done.
    + intros i Hi. unfold s2. cbn [with_table s_slots]. by apply list_lookup_insert_ne.
    + intros e' He'. assert (e' = e) as -> by congruence. split; [done|]. exists 0. split; [|by right].
      unfold s2. cbn [with_table s_slots]. apply list_lookup_insert_eq. by eapply lookup_lt_Some.
Qed.

(** Nothing can be taken: every entry is pinned and has not expired. *)
Definition all_held (now : Z) s : Prop := Forall (fun e => pinned e ∧ is_expired (hdr_of e) now = false) (ents (s_slots s)).

Lemma evict_one_spec now s : shard_ok s →
  ∃ ok s' f, shard_evict_one s now = Ok (ok, s', f) ∧ shard_ok s' ∧ same_frame s s' ∧ freed s f s' ∧
    (ok = true → ∃ e, f = [e] ∧ takeable now e) ∧ (ok = false → f = [] ∧ all_held now s').
Proof.
  intros Hk. destruct (shard_counts s Hk) as (Hc & _). unfold shard_evict_one. rewrite u32_id by lia.
  destruct (evict_loop_spec now (Z.to_nat (s_cap s * 2)) s Hk) as (ok & s' & f & -> & Hk' & Hfr & Hf & Hyes & Hno).
  exists ok, s', f. split_and!; try done. intros Hok. destruct (Hno Hok) as [-> Hall]. split; [done|].
  assert (Forall (fun e => pinned e ∧ is_expired (hdr_of e) now = false) (ents (s_slots s))) as Hold.
  { apply Forall_forall. intros e He. apply ents_lookup in He as [i Hi].
    destruct (Hall i e Hi) as [_ Hb]. pose proof (Z.mod_pos_bound (Z.of_nat i - s_hand s) (s_cap s)). destruct Hb; [lia|done]. }
  unfold all_held. unfold freed in Hf. cbn [app] in Hf.
  assert (∀ l, Forall (fun e => pinned e ∧ is_expired (hdr_of e) now = false) l ↔
               Forall (fun e => pinned e ∧ is_expired (hdr_of e) now = false) (map strip l)) as Es.
  { intros l. by rewrite Forall_map. }
  rewrite Es, <- Hf, <- Es. done.
Qed.

Lemma make_room_spec now size : 0 <= size < 2 ^ 32 → ∀ fuel s, shard_ok s → s_used s < Z.of_nat fuel →
  ∃ s' f, make_room fuel s size now = Ok (s', f) ∧ shard_ok s' ∧ same_frame s s' ∧ freed s f s' ∧ Forall (takeable now) f ∧
    (s_bytes s' + size <= s_bytes_max s' ∨ all_held now s') ∧ (s_bytes s + size <= s_bytes_max s → f = []).
Proof.
  intros Hz. induction fuel as [|fuel IH]; intros s Hk Hf; destruct (shard_counts s Hk) as (_ & Hu & _); [lia|].
  cbn [make_room]. destruct (shard_sizes s Hk) as (Hb & _). rewrite u64_id by lia.
  destruct (Z.ltb_spec (s_bytes_max s) (s_bytes s + size)) as [Hover|Hfit].
  2:{ exists s, []. split_and!; try done; [by apply freed_nil|by left]. }
  destruct (evict_one_spec now s Hk) as (ok & s1 & f1 & -> & Hk1 & [Hc1 Hm1] & Hf1 & Hyes & Hno). bind_step. destruct ok.
  - destruct (Hyes eq_refl) as (e & -> & Ht). pose proof (freed_count _ _ _ Hf1) as Hcnt. rewrite zlen_cons, (@zlen_nil (centry P)) in Hcnt.
    rewrite <- (k_used _ Hk), <- (k_used _ Hk1) in Hcnt.
    destruct (IH s1 Hk1) as (s' & f & -> & Hk' & [Hc' Hm'] & Hf' & Hall & Hend & _); [lia|]. bind_step.
    exists s', ([e] ++ f). split_and!; try done; [split; congruence|by eapply freed_trans|by constructor|intros; lia].
  - destruct (Hno eq_refl) as [-> Hheld]. exists s1, []. split_and!; try done. by right.
Qed.

(** ** Placing an entry *)

Lemma place_spec s e : layout (s_cap s) (s_ctrl s) (s_slots s) → zlen (ents (s_slots s)) < s_cap s → entry_ok e →
  e_key e ∉ map e_key (ents (s_slots s)) →
  ∃ j c, find_free s (e_hash e) = Ok (Some j) ∧ 0 <= j < s_cap s ∧ s_slots s !! Z.to_nat j = Some None ∧
    s_ctrl s !! Z.to_nat j = Some c ∧ (c = CTRL_EMPTY ∨ c = CTRL_DELETED) ∧
    layout (s_cap s) (ctrl_upd (s_ctrl s) (s_cap s) (Z.to_nat j) (h2 (e_hash e))) (<[Z.to_nat j := Some e]> (s_slots s)).
Proof.
  intros Hl Hroom He Hk. pose proof (l_slots _ _ _ Hl) as Hsl. pose proof (l_ctrl _ _ _ Hl) as Hcl.
  destruct (find_free_spec s Hl (e_hash e)) as (r & -> & Hr); [apply He|]. destruct r as [j|].
  - destruct Hr as (Hj & (c & Hc & Hsp) & Hpath). exists j, c.
    destruct (rd_in_range (s_slots s) j) as ([x|] & _ & Hx); [lia| |].
    { pose proof (l_full _ _ _ Hl _ _ Hx) as E. rewrite Hc in E. injection E as ->. rewrite special_full, full_h2 in Hsp. done. }
    split_and!; try done || lia.
    + destruct (l_free _ _ _ Hl _ Hx) as [E|E]; rewrite Hc in E; injection E as E; rewrite E; [by left|by right].
    + apply layout_fill; try done. rewrite Z2Nat.id by lia. intros d Hd Hemp. by apply Hpath in Hemp.
  - destruct (free_cell (s_slots s)) as [i Hi]; [zl|]. pose proof (lookup_lt_Some _ _ _ Hi).
    destruct (l_free _ _ _ Hl _ Hi) as [E|E]; apply Hr in E; try done; zl.
Qed.

Lemma fresh_layout cap : cap_ok cap →
  layout cap (replicate (Z.to_nat (cap + ELPIS_GROUP)) CTRL_EMPTY) (replicate (Z.to_nat cap) None).
Proof.
  intros Hc. pose proof (cap_ok_range _ Hc). assert (∀ n, ents (replicate n None) = []) as He by (induction n; done).
  unfold ELPIS_GROUP in *. split.
  - done.
  - unfold zlen. rewrite length_replicate. unfold ELPIS_GROUP. lia.
  - unfold zlen. rewrite length_replicate. lia.
  - intros i Hi. unfold ELPIS_GROUP in *. rewrite !lookup_replicate_2 by lia. done.
  - intros i e Hi. by apply lookup_replicate in Hi as [? _].
  - intros i Hi. apply lookup_replicate in Hi as [_ Hi]. left. apply lookup_replicate_2. lia.
  - intros i e d Hi. by apply lookup_replicate in Hi as [? _].
  - by rewrite He.
  - rewrite He. constructor.
Qed.

Lemma fresh_tombs cap : tombs cap (replicate (Z.to_nat (cap + ELPIS_GROUP)) CTRL_EMPTY) = 0.
Proof.
  unfold tombs. rewrite take_replicate. generalize (Z.to_nat cap `min` Z.to_nat (cap + ELPIS_GROUP))%nat as n.
  induction n as [|n IH]; [done|]. cbn [replicate]. by rewrite filter_cons, decide_False.
Qed.

(** ** Growing *)

Lemma rehash_loop_spec ocap octrl oslots : layout ocap octrl oslots → ∀ k s, (k <= length oslots)%nat →
  let i := (length oslots - k)%nat in
  layout (s_cap s) (s_ctrl s) (s_slots s) → ents (s_slots s) ≡ₚ ents (take i oslots) → s_used s = zlen (ents (s_slots s)) →
  tombs (s_cap s) (s_ctrl s) = 0 → zlen (ents oslots) <= s_cap s →
  ∃ ctrl slots used, rehash_loop octrl oslots k (Z.of_nat i) s = Ok (with_table s ctrl slots used (s_tomb s)) ∧
    layout (s_cap s) ctrl slots ∧ ents slots ≡ₚ ents oslots ∧ used = zlen (ents slots) ∧ tombs (s_cap s) ctrl = 0.
Proof.
  intros Ho. pose proof (l_slots _ _ _ Ho) as Hos. induction k as [|k IH]; intros s Hk i Hl Hp Hu Ht Hroom; cbn [rehash_loop].
  { exists (s_ctrl s), (s_slots s), (s_used s). split; [by destruct s|]. split; [done|]. split; [|done].
    rewrite Hp. unfold i. by rewrite take_ge by lia. }
  assert (Z.of_nat i + 1 = Z.of_nat (length oslots - k)) as Hi1 by (unfold i; lia). rewrite Hi1.
  destruct (cell_cases _ _ _ (Z.of_nat i) Ho) as [(c & -> & Hfull & Hslot & _)|(c & e & -> & Hfull & Hslot & -> & _)]; [unfold i; zl|..];
    rewrite Nat2Z.id in Hslot; bind_step; rewrite Hfull; cbn [negb];
    (assert (ents (take (length oslots - k) oslots) = ents (take i oslots) ++ ents (match oslots !! i with Some o => [o] | None => [] end)) as Et
      by (rewrite Hslot; replace (length oslots - k)%nat with (S i) by (unfold i; lia); rewrite (take_S_r _ _ _ Hslot); unfold ents; by rewrite omap_app));
    rewrite Hslot in Et; cbn [ents omap list_omap id] in Et.
  - apply IH; try done; [lia|]. rewrite Et, app_nil_r. done.
  - bind_step.
    pose proof (ents_clear _ _ _ Hslot) as Hpo. pose proof (l_ents _ _ _ Ho) as Heo. rewrite Hpo in Heo. apply Forall_cons_1 in Heo as [He _].
    pose proof (l_keys _ _ _ Ho) as Hko.
    assert (ents oslots = ents (take i oslots) ++ e :: ents (drop (S i) oslots)) as Esplit.
    { rewrite <- (take_drop_middle _ _ _ Hslot) at 1. unfold ents. by rewrite omap_app. }
    assert (zlen (ents (s_slots s)) < s_cap s) as Hlt.
    { rewrite Hp. rewrite Esplit, zlen_app, zlen_cons in Hroom. pose proof (zlen_nonneg (ents (drop (S i) oslots))). lia. }
    assert (e_key e ∉ map e_key (ents (s_slots s))) as Hnew.
    { rewrite Hp. rewrite Esplit, map_app in Hko. apply NoDup_app in Hko as (_ & Hdis & _). intros Hin. apply (Hdis _ Hin). by left. }
    destruct (place_spec s e Hl Hlt He Hnew) as (j & c' & Hff & Hj & Hsl & Hc' & Hcc & Hl'). unfold e_hash in Hff. rewrite Hff. bind_step.
    pose proof (l_slots _ _ _ Hl) as Hss. rewrite wr_in_range by lia. bind_step. rewrite ctrl_set_spec by (first [apply Hl|lia]). bind_step.
    pose proof (ents_fill _ _ e Hsl) as Hpf. pose proof (cap_ok_range _ (l_cap _ _ _ Hl)).
    set (s1 := with_table s _ _ _ _). destruct (IH s1) as (ctrl & slots & used & E & Hl2 & Hp2 & Hu2 & Ht2).
    + lia.
    + exact Hl'.
    + cbn [s1 with_table s_slots]. rewrite Hpf, Hp, Et. by rewrite Permutation_app_comm.
    + cbn [s1 with_table s_slots s_used]. rewrite Hpf, zlen_cons. pose proof (zlen_nonneg (ents (s_slots s))). rewrite Hu, u32_id by lia. lia.
    + cbn [s1 with_table s_cap s_ctrl].
      pose proof (tombs_upd (s_cap s) (s_ctrl s) (Z.to_nat j) (h2 (e_hash e)) c' ltac:(lia) (l_ctrl _ _ _ Hl) ltac:(lia) Hc') as Htm.
      rewrite (decide_False (P := h2 _ = _)) in Htm by (apply (h2_not_free (e_hash e))).
      pose proof (zlen_nonneg (filter (fun c => c = CTRL_DELETED) (take (Z.to_nat (s_cap s)) (ctrl_upd (s_ctrl s) (s_cap s) (Z.to_nat j) (h2 (e_hash e)))))) as Htn.
      fold (tombs (s_cap s) (ctrl_upd (s_ctrl s) (s_cap s) (Z.to_nat j) (h2 (e_hash e)))) in Htn. unfold e_hash in *. case_decide; lia.
    + done.
    + exists ctrl, slots, used. split; [|by split_and!]. rewrite E. done.
Qed.

(** A table of the same or a larger size, without tombstones. *)
Lemma rehash_spec alloc s newcap : shard_ok s → cap_ok newcap → s_used s <= newcap →
  ∃ r, shard_rehash alloc s newcap = Ok r ∧
    match r with
    | None => alloc newcap = false
    | Some s' => shard_ok s' ∧ s_cap s' = newcap ∧ s_bytes_max s' = s_bytes_max s ∧ s_tomb s' = 0 ∧
        ents (s_slots s') ≡ₚ ents (s_slots s) ∧ s_bytes s' = s_bytes s
    end.
Proof.
  intros Hk Hc Hu. pose proof (k_layout _ Hk) as Hl. pose proof (l_slots _ _ _ Hl) as Hsl. unfold shard_rehash, shard_alloc.
  destruct (alloc newcap); [|by exists None]. set (s0 := mkShard _ _ _ _ _ _ _ _ _ _ _).
  pose proof (fresh_layout newcap Hc) as Hfl. pose proof (cap_ok_range _ Hc).
  assert (ents (replicate (Z.to_nat newcap) (@None (centry P))) = []) as He0 by (generalize (Z.to_nat newcap); intros n; induction n; done).
  destruct (rehash_loop_spec (s_cap s) (s_ctrl s) (s_slots s) Hl (length (s_slots s)) s0) as (ctrl & slots & used & E & Hl' & Hp & Hu' & Ht).
  - done.
  - exact Hfl.
  - cbn [s0 s_slots]. rewrite He0, Nat.sub_diag. done.
  - cbn [s0 s_slots s_used]. by rewrite He0.
  - apply fresh_tombs.
  - cbn [s0 s_cap]. rewrite <- (k_used _ Hk). done.
  - rewrite Nat.sub_diag in E. change (Z.of_nat 0) with 0 in E. replace (Z.to_nat (s_cap s)) with (length (s_slots s)) by zl. rewrite E. bind_step.
    eexists. split; [done|]. cbn [with_table s0 s_cap s_ctrl s_slots s_bytes_max s_tomb s_bytes] in *. split; [|by split_and!].
    split; cbn [with_table s0 s_cap s_ctrl s_slots s_bytes_max s_tomb s_bytes s_used s_hand s_pinned_entries s_pinned_bytes]; try done.
    + lia.
    + rewrite Hp. apply Hk.
    + rewrite Hp. apply Hk.
    + rewrite Hp. apply Hk.
    + apply Hk.
Qed.

(** The load test, with memory for tables up to 2^30 slots and no more. *)
Lemma grow_spec alloc s : shard_ok s → (∀ cap, alloc cap = true → cap <= 2 ^ 30) →
  ∃ r, grow_if_loaded alloc s = Ok r ∧
    match r with
    | None => alloc (s_cap s) = false ∨ alloc (s_cap s * 2) = false
    | Some s' => shard_ok s' ∧ s_bytes_max s' = s_bytes_max s ∧ s_used s' < s_cap s' ∧
        ents (s_slots s') ≡ₚ ents (s_slots s) ∧ s_bytes s' = s_bytes s ∧ s_cap s <= s_cap s' <= 2 * s_cap s
    end.
Proof.
  intros Hk Ha. destruct (shard_counts s Hk) as (Hc & Hu & Ht & _). unfold grow_if_loaded, LOAD_NUM, LOAD_DEN, MIN_CAP.
  rewrite (u32_id (s_used s + s_tomb s + 1)), (u32_id (s_used s + 1)), (u32_id ((s_used s + 1) * 2)), (u32_id (s_cap s * 2)) by lia.
  destruct (Z.ltb_spec (s_cap s * 7) ((s_used s + s_tomb s + 1) * 8)) as [Hload|Hfine].
  2:{ exists (Some s). split; [done|]. split_and!; try done || lia. }
  set (newcap := if s_cap s <? (s_used s + 1) * 2 then s_cap s * 2 else s_cap s).
  assert (s_cap s <= newcap <= 2 * s_cap s ∧ s_used s < newcap ∧ (newcap = s_cap s ∨ newcap = s_cap s * 2)) as (Hn1 & Hn2 & Hn3).
  { unfold newcap. destruct (Z.ltb_spec (s_cap s) ((s_used s + 1) * 2)); split_and!; lia || (by left) || (by right). }
  assert ((newcap <? 64) = false) as -> by lia.
  destruct (alloc newcap) eqn:Hal.
  2:{ exists None. unfold shard_rehash, shard_alloc. rewrite Hal. split; [done|]. destruct Hn3 as [-> | ->]; [by left|by right]. }
  assert (cap_ok newcap) as Hcn.
  { destruct (l_cap _ _ _ (k_layout _ Hk)) as (k & Hkr & Ek). destruct Hn3 as [-> | E]; [by exists k|].
    exists (k + 1). rewrite E, Ek, Z.pow_add_r by lia. split; [|done]. split; [lia|]. apply Z.lt_succ_r.
    apply (Z.pow_lt_mono_r_iff 2); [lia|lia|]. apply Ha in Hal. rewrite E, Ek in Hal. rewrite Z.pow_add_r by lia. change (2 ^ 1) with 2.
    change (2 ^ Z.succ 30) with (2 ^ 30 * 2). lia. }
  destruct (rehash_spec alloc s newcap Hk Hcn ltac:(lia)) as ([s'|] & -> & Hr); [|congruence].
  destruct Hr as (Hk' & Hc' & Hm & Ht' & Hp & Hb). exists (Some s'). split; [done|]. split_and!; try done || lia.
  rewrite (k_used _ Hk'), Hp, <- (k_used _ Hk). lia.
Qed.

(** ** The operations of a shard on its map *)

Lemma shard_nodup s : shard_ok s → NoDup (map e_key (ents (s_slots s))).
Proof. intros Hk. apply Hk. Qed.

Lemma ents_key s e : e ∈ ents (s_slots s) → e_key e ∈ map e_key (ents (s_slots s)).
Proof. intros. by apply list_elem_of_fmap_2. Qed.

Lemma shard_map_none s k : shard_ok s → shard_map s !! k = None ↔ k ∉ map e_key (ents (s_slots s)).
Proof.
  intros Hk. split; [|apply mapof_none]. intros Hn Hin. apply list_elem_of_fmap in Hin as (e & -> & Hin).
  assert (shard_map s !! e_key e = Some (strip e)) as E by (apply mapof_lookup; [by apply shard_nodup|by exists e]). congruence.
Qed.

Lemma find_slot_map s key : shard_ok s → key_ok key → 0 <= hash_of (canon key) →
  ∃ r, find_slot eqfn s (hash_of (canon key)) key = Ok r ∧
    match r with
    | Some (j, e) => 0 <= j < s_cap s ∧ s_slots s !! Z.to_nat j = Some (Some e) ∧ e_key e = canon key ∧ shard_map s !! canon key = Some (strip e)
    | None => (canon key ∉ map e_key (ents (s_slots s))) ∧ shard_map s !! canon key = None
    end.
Proof.
  intros Hk Hkey Hh. destruct (find_slot_spec s (k_layout _ Hk) (hash_of (canon key)) key Hkey Hh) as (r & -> & Hr). exists r. split; [done|].
  destruct r as [[j e]|].
  - destruct Hr as (? & Hj & _ & Heq). rewrite (eqfn_slot s _ e key (k_layout _ Hk) Hkey Hj) in Heq.
    injection Heq as Heq. apply bool_decide_eq_true in Heq.
    split_and!; try done || lia. apply mapof_lookup; [by apply shard_nodup|]. exists e. split_and!; try done. apply ents_lookup. by eexists.
  - assert (canon key ∉ map e_key (ents (s_slots s))) as Hno; [|by split; [|apply shard_map_none]].
    intros Hin. apply list_elem_of_fmap in Hin as (e & Hke & Hin). apply ents_lookup in Hin as He. destruct He as [i Hi].
    pose proof (Forall_elem entry_ok _ _ (l_ents _ _ _ (k_layout _ Hk)) Hin) as (He & _). apply (Hr i e Hi). split.
    + fold (e_hash e). by rewrite He, Hke.
    + rewrite (eqfn_slot s i e key (k_layout _ Hk) Hkey Hi). f_equal. by apply bool_decide_eq_true.
Qed.

(** A look-up answers from the map and changes nothing in it. *)
Lemma shard_read_spec s key : shard_ok s → key_ok key → 0 <= hash_of (canon key) →
  ∃ r s', shard_read eqfn s (hash_of (canon key)) key = Ok (r, s') ∧ shard_ok s' ∧ same_frame s s' ∧
    shard_map s' = shard_map s ∧ strip <$> r = shard_map s !! canon key ∧ freed s [] s'.
Proof.
  intros Hk Hkey Hh. unfold shard_read. destruct (find_slot_map s key Hk Hkey Hh) as ([[j e]|] & -> & Hr); bind_step.
  - destruct Hr as (Hj & He & _ & Hm). pose proof (l_slots _ _ _ (k_layout _ Hk)). rewrite wr_in_range by lia. bind_step.
    destruct (set_ref_ok s j e 1 Hk He) as [Hk' Hf]. cbn zeta in Hk', Hf. set (s1 := with_table _ _ _ _ _) in *.
    exists (Some (with_ref e 1)), (with_stats s1 count_hit). split; [done|]. split; [by apply with_stats_ok|]. split; [by split|].
    split; [|by rewrite Hm]. pose proof (freed_map s [] s1 Hk Hf) as E. change (mapof []) with (∅ : gmap Q (centry P)) in E.
    rewrite map_difference_empty in E. exact E.
  - exists None, (with_stats s count_miss). destruct Hr as [_ Hr]. split_and!; try done; [by apply with_stats_ok|exact (freed_nil s)].
Qed.

(** What is freed was in the map. *)
Lemma freed_sub s f s' : shard_ok s → freed s f s' → mapof f ⊆ shard_map s.
Proof.
  intros Hk Hf. pose proof (shard_nodup s Hk) as Hn. assert (NoDup (map e_key (f ++ ents (s_slots s')))) as Hn'
    by (by rewrite <- (keys_strip_perm _ _ Hf)).
  unfold shard_map. rewrite (mapof_strip_perm _ _ Hn Hf). apply map_subseteq_spec. intros k x.
  rewrite !mapof_lookup; [|done|rewrite map_app in Hn'; by apply NoDup_app in Hn' as [? _]].
  intros (e & ? & ? & ?). exists e. split_and!; try done. apply elem_of_app. by left.
Qed.

Lemma ents_perm_map s s' : shard_ok s → ents (s_slots s') ≡ₚ ents (s_slots s) → shard_map s' = shard_map s.
Proof. intros Hk Hp. symmetry. apply mapof_perm; [by apply shard_nodup|done]. Qed.

(** An entry in a free place. *)
Lemma fill_ok s e j c : shard_ok s → entry_ok e → 0 <= j < s_cap s → s_slots s !! Z.to_nat j = Some None → s_ctrl s !! Z.to_nat j = Some c →
  s_used s < s_cap s →
  layout (s_cap s) (ctrl_upd (s_ctrl s) (s_cap s) (Z.to_nat j) (h2 (e_hash e))) (<[Z.to_nat j := Some e]> (s_slots s)) →
  let tomb := if (c =? CTRL_DELETED) && (0 <? s_tomb s) then u32 (s_tomb s - 1) else s_tomb s in
  let s' := charge (with_table s (ctrl_upd (s_ctrl s) (s_cap s) (Z.to_nat j) (h2 (e_hash e))) (<[Z.to_nat j := Some e]> (s_slots s)) (u32 (s_used s + 1)) tomb) (hdr_of e) in
  shard_ok s' ∧ ents (s_slots s') ≡ₚ e :: ents (s_slots s).
Proof.
  intros Hk He Hj Hs Hc Hroom Hl tomb s'. destruct (shard_counts s Hk) as (Hcr & Hu & Ht & _). destruct (shard_sizes s Hk) as (Hb & Hp & Hpb & Hents).
  pose proof (ents_fill _ _ e Hs) as Hperm.
  set (s1 := with_table s (ctrl_upd (s_ctrl s) (s_cap s) (Z.to_nat j) (h2 (e_hash e))) (<[Z.to_nat j := Some e]> (s_slots s)) (u32 (s_used s + 1)) tomb) in *.
  destruct (charge_counts s1 e (ents (s_slots s)) Hb Hp Hpb He (k_bytes _ Hk) (k_pins _ Hk) (k_pinned _ Hk)) as (E1 & E2 & E3).
  assert (ents (s_slots s') ≡ₚ e :: ents (s_slots s)) as Hperm' by exact Hperm. split; [|done]. split.
  - exact Hl.
  - apply Hk.
  - rewrite Hperm', zlen_cons. cbn [s' charge s1 with_table s_used]. rewrite (k_used _ Hk) in *. rewrite u32_id by lia. lia.
  - cbn [s' charge s1 with_table s_tomb s_cap s_ctrl].
    pose proof (tombs_upd (s_cap s) (s_ctrl s) (Z.to_nat j) (h2 (e_hash e)) c ltac:(lia) (l_ctrl _ _ _ (k_layout _ Hk)) ltac:(lia) Hc) as Htm.
    rewrite (decide_False (P := h2 _ = _)) in Htm by (apply (h2_not_free (e_hash e))). rewrite <- (k_tomb _ Hk) in Htm.
    pose proof (zlen_nonneg (filter (fun c => c = CTRL_DELETED) (take (Z.to_nat (s_cap s)) (ctrl_upd (s_ctrl s) (s_cap s) (Z.to_nat j) (h2 (e_hash e)))))) as Htn.
    fold (tombs (s_cap s) (ctrl_upd (s_ctrl s) (s_cap s) (Z.to_nat j) (h2 (e_hash e)))) in Htn. unfold tomb.
    destruct (Z.eqb_spec c CTRL_DELETED) as [Hcd|Hcd]; [rewrite decide_True in Htm by done|rewrite decide_False in Htm by done]; cbn [andb]; [|lia].
    assert ((0 <? s_tomb s) = true) as -> by lia. rewrite u32_id by lia. lia.
  - rewrite Hperm'. exact E1.
  - rewrite Hperm'. exact E2.
  - rewrite Hperm'. exact E3.
  - apply Hk.
Qed.

(** The replacement of an entry. *)
Lemma replace_ok s i e e' : shard_ok s → s_slots s !! Z.to_nat i = Some (Some e) → e_key e' = e_key e → entry_ok e' →
  let s' := charge (with_table (discharge s (hdr_of e)) (s_ctrl s) (<[Z.to_nat i := Some e']> (s_slots s)) (s_used s) (s_tomb s)) (hdr_of e') in
  shard_ok s' ∧ shard_map s' = <[e_key e := strip e']> (shard_map s) ∧ freed s [e] (with_table s (s_ctrl s) (<[Z.to_nat i := None]> (s_slots s)) 0 0).
Proof.
  intros Hk Hi Hke He' s'. destruct (shard_counts s Hk) as (Hcr & Hu & Ht & _). destruct (shard_sizes s Hk) as (Hb & Hp & Hpb & Hents).
  pose proof (ents_clear _ _ _ Hi) as Hperm. set (rest := ents (<[Z.to_nat i := None]> (s_slots s))) in *.
  destruct (ents_swap (s_slots s) (Z.to_nat i) e e' Hi) as (rest' & Hpa & Hpb').
  assert (rest' ≡ₚ rest) as Hrr by (apply (Permutation_cons_inv (a := e)); by rewrite <- Hpa, <- Hperm). rewrite Hrr in Hpb'.
  pose proof Hents as Hents'. rewrite Hperm in Hents'. apply Forall_cons_1 in Hents' as [He Hrest].
  assert (e_hash e' = e_hash e) as Hh by (rewrite (proj1 He), (proj1 He'), Hke; done).
  destruct (discharge_counts s e rest Hb Hp Hpb He Hrest) as (D1 & D2 & D3); [rewrite <- Hperm; apply Hk..|].
  assert (0 <= s_bytes (discharge s (hdr_of e)) < 2 ^ 63 ∧ 0 <= s_pinned_entries (discharge s (hdr_of e)) < 2 ^ 31 ∧
    0 <= s_pinned_bytes (discharge s (hdr_of e)) < 2 ^ 63) as (R1 & R2 & R3).
  { rewrite D1, D2, D3. pose proof (k_bytes _ Hk) as Eb. pose proof (k_pins _ Hk) as Ep. pose proof (k_pinned _ Hk) as Epb.
    rewrite Hperm in Eb, Ep, Epb. rewrite filter_pinned_cons in Ep, Epb. cbn [sizes foldr] in Eb. fold (sizes rest) in Eb.
    assert (Forall entry_ok (filter pinned rest)) as Hfr by (by apply Forall_filter).
    pose proof (sizes_range _ Hrest). pose proof (sizes_range _ Hfr). pose proof (zlen_nonneg (filter pinned rest)). destruct He as (_ & _ & Hz).
    split_and!; try lia; case_decide; rewrite ?zlen_cons in *; cbn [sizes foldr] in *; fold (sizes (filter pinned rest)) in *; lia. }
  set (s1 := with_table (discharge s (hdr_of e)) (s_ctrl s) (<[Z.to_nat i := Some e']> (s_slots s)) (s_used s) (s_tomb s)) in *.
  destruct (charge_counts s1 e' rest R1 R2 R3 He' D1 D2 D3) as (E1 & E2 & E3).
  assert (ents (s_slots s') ≡ₚ e' :: rest) as Hperm' by exact Hpb'.
  assert (shard_ok s') as Hok.
  { split.
    - exact (layout_swap _ _ _ _ _ _ (k_layout _ Hk) Hi Hh Hke He').
    - apply Hk.
    - rewrite Hperm'. cbn [s' charge s1 with_table s_used]. rewrite (k_used _ Hk), Hperm, !zlen_cons. done.
    - apply Hk.
    - rewrite Hperm'. exact E1.
    - rewrite Hperm'. exact E2.
    - rewrite Hperm'. exact E3.
    - apply Hk. }
  split; [done|]. split; [|unfold freed; by rewrite Hperm].
  unfold shard_map. rewrite (mapof_perm _ _ (shard_nodup s' Hok) Hperm'), (mapof_perm _ _ (shard_nodup s Hk) Hperm), !mapof_cons, Hke.
  by rewrite insert_insert_eq.
Qed.

(** Insertion.  A key that is there has its entry replaced, and nothing else
    happens; otherwise entries are evicted until there is room, and the entry
    goes in, or is refused when what is left is all pinned or memory is short. *)
Lemma shard_insert_spec alloc s entry key now : shard_ok s → (∀ cap, alloc cap = true → cap <= 2 ^ 30) →
  entry_ok entry → key_ok key → e_key entry = canon key →
  ∃ rc s' f, shard_insert eqfn alloc s entry key now = Ok (rc, s', f) ∧ shard_ok s' ∧ s_bytes_max s' = s_bytes_max s ∧
    match shard_map s !! canon key with
    | Some old => rc = ELPIS_OK ∧ shard_map s' = <[canon key := strip entry]> (shard_map s) ∧ map strip f = [old]
    | None => ∃ g, Forall (takeable now) g ∧ mapof g ⊆ shard_map s ∧
        (s_bytes s + h_size (hdr_of entry) <= s_bytes_max s → g = []) ∧
        ((rc = ELPIS_OK ∧ f = g ∧ shard_map s' = <[canon key := strip entry]> (shard_map s ∖ mapof g) ∧
            (pinned entry ∨ s_bytes s' <= s_bytes_max s)) ∨
         (rc = ELPIS_ENOMEM ∧ f = g ++ [entry] ∧ shard_map s' = shard_map s ∖ mapof g ∧
            (¬ pinned entry ∧ all_held now s' ∧ s_bytes_max s < s_bytes s' + h_size (hdr_of entry) ∨ ∃ cap, alloc cap = false)))
    end.
Proof.
  intros Hk Ha He Hkey Hke. pose proof He as (Hh & Hh0 & Hz & _). unfold shard_insert. fold (e_hash entry). rewrite Hh, Hke.
  assert (0 <= hash_of (canon key)) as Hch by (by rewrite <- Hke, <- Hh).
  destruct (find_slot_map s key Hk Hkey Hch) as ([[j old]|] & -> & Hr); bind_step.
  { destruct Hr as (Hj & Hold & Hko & ->). pose proof (l_slots _ _ _ (k_layout _ Hk)).
    rewrite wr_in_range by (cbn [discharge s_slots]; lia). bind_step.
    destruct (replace_ok s j old entry Hk Hold) as (Hk' & Hm & _); [by rewrite Hke, Hko|done|].
    eexists _, _, _. split; [done|]. split; [by apply with_stats_ok|]. split; [done|]. split; [done|]. split; [|done].
    rewrite Hko in Hm. exact Hm. }
  destruct Hr as [Hno ->].
  destruct (make_room_spec now (h_size (hdr_of entry)) Hz (S (Z.to_nat (s_used s))) s Hk) as (s1 & g & -> & Hk1 & [Hc1 Hm1] & Hf & Hall & Hend & Hnil); [lia|].
  bind_step. pose proof (freed_map s g s1 Hk Hf) as Em. pose proof (freed_sub s g s1 Hk Hf) as Hsub.
  pose proof (freed_keys s g s1 (canon key) Hf Hno) as Hno1. destruct (shard_sizes s1 Hk1) as (Hb1 & _). rewrite u64_id by lia.
  destruct ((s_bytes_max s1 <? s_bytes s1 + h_size (hdr_of entry)) && (h_pinned (hdr_of entry) =? 0)) eqn:Eover.
  { apply andb_true_iff in Eover as [Ho%Z.ltb_lt Hp%Z.eqb_eq]. eexists _, _, _. split; [done|]. split; [done|]. split; [done|]. exists g.
    split_and!; try done. right. split_and!; try done. left. split_and!; [intros Hpin; by apply Hpin|by destruct Hend; [lia|]|lia]. }
  assert (pinned entry ∨ s_bytes s1 + h_size (hdr_of entry) <= s_bytes_max s) as Hfit.
  { apply andb_false_iff in Eover as [Ho%Z.ltb_ge|Hp%Z.eqb_neq]; [right; lia|by left]. }
  destruct (grow_spec alloc s1 Hk1 Ha) as ([s2|] & -> & Hg); bind_step.
  2:{ eexists _, _, _. split; [done|]. split; [done|]. split; [done|]. exists g. split_and!; try done. right. split_and!; try done. right.
      destruct Hg; by eexists. }
  destruct Hg as (Hk2 & Hm2 & Hroom & Hp2 & Hb2 & _).
  destruct (place_spec s2 entry (k_layout _ Hk2)) as (j & c & Hff & Hj & Hsl & Hc & Hcc & Hl'); [by rewrite <- (k_used _ Hk2)|done|by rewrite Hke, Hp2|].
  rewrite Hh, Hke in Hff. rewrite Hff. bind_step. rewrite (rd_lookup (s_ctrl s2) j c) by (done || lia). bind_step.
  pose proof (l_slots _ _ _ (k_layout _ Hk2)). rewrite wr_in_range by lia. bind_step.
  rewrite ctrl_set_spec by (first [apply (k_layout _ Hk2)|lia]). bind_step.
  destruct (fill_ok s2 entry j c Hk2 He Hj Hsl Hc Hroom Hl') as [Hk3 Hp3]. cbn zeta in Hk3, Hp3.
  unfold e_hash in Hk3, Hp3, Hh. rewrite Hh, Hke in Hk3, Hp3.
  eexists _, _, _. split; [done|]. split; [by apply with_stats_ok|]. split; [exact (eq_trans Hm2 Hm1)|]. exists g. split_and!; try done. left.
  split; [done|]. split; [done|]. split.
  - rewrite <- Em, <- (ents_perm_map s1 s2 Hk1 Hp2), <- Hke. unfold shard_map. rewrite <- mapof_cons. apply mapof_perm; [exact (shard_nodup _ Hk3)|exact Hp3].
  - destruct Hfit as [|Hfit]; [by left|right]. cbn [with_stats charge with_table s_bytes]. rewrite Hb2, u64_id by lia. done.
Qed.

Lemma shard_remove_spec s key : shard_ok s → key_ok key → 0 <= hash_of (canon key) →
  ∃ rc s' f, shard_remove eqfn s (hash_of (canon key)) key = Ok (rc, s', f) ∧ shard_ok s' ∧ same_frame s s' ∧
    shard_map s' = delete (canon key) (shard_map s) ∧ rc = match shard_map s !! canon key with Some _ => ELPIS_OK | None => ELPIS_ENOTFOUND end ∧
    map strip f = option_list (shard_map s !! canon key).
Proof.
  intros Hk Hkey Hh. unfold shard_remove. destruct (find_slot_map s key Hk Hkey Hh) as ([[j e]|] & -> & Hr); bind_step.
  - destruct Hr as (Hj & He & Hke & Hm). destruct (slot_drop_spec s j e Hk) as (s' & -> & Hk' & Hfr & _ & Hp); [lia|done|]. bind_step.
    exists ELPIS_OK, s', [e]. rewrite Hm. split_and!; try done.
    assert (NoDup (map e_key (e :: ents (s_slots s')))) as Hn by (rewrite <- Hp; by apply shard_nodup).
    unfold shard_map at 2. rewrite (mapof_perm _ _ (shard_nodup s Hk) Hp), mapof_cons, Hke, delete_insert_eq.
    cbn [map] in Hn. apply NoDup_cons in Hn as [Hn _]. rewrite Hke in Hn. by rewrite delete_id by (by apply mapof_none).
  - destruct Hr as [Hno Hm]. exists ELPIS_ENOTFOUND, s, []. rewrite Hm. split_and!; try done. by rewrite delete_id.
Qed.

Lemma expire_loop_spec now k : ∀ s, shard_ok s →
  ∃ s' f, expire_loop k s now = Ok (s', f) ∧ shard_ok s' ∧ same_frame s s' ∧ freed s f s' ∧
    Forall (fun e => is_expired (hdr_of e) now = true) f.
Proof.
  induction k as [|k IH]; intros s Hk; cbn [expire_loop]; [exists s, []; split_and!; try done; by apply freed_nil|].
  destruct (hand_next s Hk) as [-> Hh]. pose proof (k_hand _ Hk) as Hhand. pose proof (with_hand_ok s _ Hk Hh) as Hk1.
  set (s1 := with_hand s _) in *. destruct (IH s1 Hk1) as (s' & f & E & Hk' & Hfr & Hf & Hall).
  destruct (cell_cases _ _ _ (s_hand s) (k_layout _ Hk) Hhand) as [(c & Hrc & Hfull & Hslot & _)|(c & e & Hrc & Hfull & Hslot & Hrs & _)];
    cbn [s1 with_hand s_ctrl s_slots]; rewrite Hrc; bind_step; rewrite Hfull; cbn [negb]; [by exists s', f|].
  rewrite Hrs. bind_step. destruct (is_expired (hdr_of e) now) eqn:Hex; [|by exists s', f].
  destruct (slot_drop_spec s1 (s_hand s) e Hk1) as (s2 & E2 & Hk2 & [Hc2 Hm2] & _ & Hp); [lia|done|]. rewrite E2. bind_step.
  destruct (IH (with_stats s2 count_expired) (with_stats_ok _ _ Hk2)) as (s3 & f3 & -> & Hk3 & [Hc3 Hm3] & Hf3 & Hall3). bind_step.
  exists s3, ([e] ++ f3). split_and!; try done; [split; [rewrite Hc3; exact Hc2|rewrite Hm3; exact Hm2]| |by constructor].
  apply (freed_trans _ _ (with_stats s2 count_expired)); [by apply freed_one|done].
Qed.

Lemma flush_loop_spec k : ∀ s, shard_ok s → (k <= length (s_slots s))%nat → 
  (∀ i o, s_slots s !! i = Some o → (i < length (s_slots s) - k)%nat → o = None) →
  ∃ s' f, flush_loop k (Z.of_nat (length (s_slots s) - k)) s = Ok (s', f) ∧ shard_ok s' ∧ same_frame s s' ∧ freed s f s' ∧
    ents (s_slots s') = [] ∧ s_hand s' = s_hand s.
Proof.
  induction k as [|k IH]; intros s Hk Hkl Hdone; cbn [flush_loop].
  { exists s, []. split_and!; try done; [by apply freed_nil|]. destruct (ents (s_slots s)) as [|e l] eqn:E; [done|].
    assert (e ∈ ents (s_slots s)) as Hin by (rewrite E; by left). apply ents_lookup in Hin as [i Hi].
    pose proof (lookup_lt_Some _ _ _ Hi). apply Hdone in Hi; [done|lia]. }
  pose proof (l_slots _ _ _ (k_layout _ Hk)) as Hsl. set (i := (length (s_slots s) - S k)%nat).
  destruct (cell_cases _ _ _ (Z.of_nat i) (k_layout _ Hk)) as [(c & -> & Hfull & Hslot & _)|(c & e & -> & Hfull & Hslot & Hrs & _)]; [zl|..];
    rewrite Nat2Z.id in Hslot; bind_step; rewrite Hfull; replace (Z.of_nat i + 1) with (Z.of_nat (length (s_slots s) - k)) by (unfold i; lia).
  - apply IH; [done|lia|]. intros j o Hj Hlt. destruct (decide (j = i)) as [->|]; [congruence|]. apply (Hdone j o Hj). unfold i in *. lia.
  - destruct (slot_drop_spec s (Z.of_nat i) e Hk) as (s1 & E1 & Hk1 & [Hc1 Hm1] & Hh1 & Hp); [lia|by rewrite Nat2Z.id|]. rewrite E1. bind_step.
    assert (s_slots s1 = <[i := None]> (s_slots s)) as Es.
    { unfold slot_drop in E1. rewrite Hrs in E1. cbn [mbind res_bind] in E1. rewrite wr_in_range in E1 by (cbn [discharge s_slots]; unfold i; zl).
      cbn [mbind res_bind] in E1. cbn [discharge s_ctrl s_cap] in E1.
      rewrite ctrl_set_spec in E1 by (first [apply (k_layout _ Hk)|unfold i; zl]). cbn [mbind res_bind] in E1. injection E1 as <-.
      cbn [with_table s_slots]. by rewrite Nat2Z.id. }
    assert (length (s_slots s1) = length (s_slots s)) as El by (by rewrite Es, length_insert).
    rewrite <- El. destruct (IH s1 Hk1) as (s' & f & -> & Hk' & [Hc' Hm'] & Hf & He & Hh'); [lia| |].
    { intros j o Hj Hlt. rewrite Es in Hj. apply list_lookup_insert_Some in Hj as [(_ & <- & _)|[Hne Hj]]; [done|].
      apply (Hdone j o Hj). unfold i in *. lia. }
    bind_step. exists s', ([e] ++ f). split_and!; try done; [split; congruence|by eapply freed_trans; [apply freed_one|]|congruence].
Qed.

Lemma flush_layout cap slots : cap_ok cap → zlen slots = cap → ents slots = [] →
  layout cap (replicate (Z.to_nat (cap + ELPIS_GROUP)) CTRL_EMPTY) slots.
Proof.
  intros Hc Hl He. assert (slots = replicate (Z.to_nat cap) None) as ->; [|by apply fresh_layout].
  apply list_eq. intros i. destruct (slots !! i) as [[e|]|] eqn:Hi.
  - assert (e ∈ ents slots) as Hin by (apply ents_lookup; by exists i). rewrite He in Hin. by apply not_elem_of_nil in Hin.
  - symmetry. apply lookup_replicate_2. apply lookup_lt_Some in Hi. zl.
  - symmetry. apply lookup_ge_None_2. rewrite length_replicate. apply lookup_ge_None in Hi. zl.
Qed.

Lemma shard_flush_spec s : shard_ok s →
  ∃ s' f, shard_flush s = Ok (s', f) ∧ shard_ok s' ∧ same_frame s s' ∧ shard_map s' = ∅ ∧ map strip f ≡ₚ map strip (ents (s_slots s)).
Proof.
  intros Hk. pose proof (l_slots _ _ _ (k_layout _ Hk)) as Hsl. unfold shard_flush.
  destruct (flush_loop_spec (length (s_slots s)) s Hk) as (s' & f & E & Hk' & [Hc Hm] & Hf & He & Hh); [done|lia|].
  rewrite Nat.sub_diag in E. change (Z.of_nat 0) with 0 in E. replace (Z.to_nat (s_cap s)) with (length (s_slots s)) by zl. rewrite E. bind_step.
  eexists _, f. split; [done|]. destruct (shard_counts s' Hk') as (Hcr & _). split; [|split; [by split|split; [|]]].
  - split; cbn [with_table s_cap s_ctrl s_slots s_hand s_used s_tomb s_bytes s_pinned_entries s_pinned_bytes s_bytes_max]; try apply Hk'.
    + apply flush_layout; [apply Hk'|apply Hk'|done].
    + by rewrite fresh_tombs.
  - unfold shard_map. cbn [with_table s_slots]. by rewrite He.
  - unfold freed in Hf. rewrite He, app_nil_r in Hf. by rewrite Hf.
Qed.

(** ** The whole cache *)

Definition cache_ents (sh : list (shard_t P)) : list (centry P) := concat (map (fun s => ents (s_slots s)) sh).
Definition cache_map (c : elpis_cache P) : gmap Q (centry P) := mapof (cache_ents (c_sh c)).

(** Every shard is in order and holds only entries whose hash selects it. *)
Record cache_ok (c : elpis_cache P) : Prop := {
  c_pow2 : ∃ m, 0 <= m <= 12 ∧ c_nshards c = 2 ^ m;
  c_len : zlen (c_sh c) = c_nshards c;
  c_shards : ∀ i s, c_sh c !! i = Some s → shard_ok s;
  c_home : ∀ i s e, c_sh c !! i = Some s → e ∈ ents (s_slots s) → shard_of c (e_hash e) = Z.of_nat i }.

Lemma shard_of_range c h : cache_ok c → 0 <= shard_of c h < c_nshards c.
Proof.
  intros Hc. destruct (c_pow2 _ Hc) as (m & Hm & E). unfold shard_of. rewrite E.
  assert (1 <= 2 ^ m <= 2 ^ 12) by (split; [change 1 with (2 ^ 0)|]; apply Z.pow_le_mono_r; lia).
  assert (Z.land (Z.shiftr h 48) (2 ^ m - 1) = Z.shiftr h 48 mod 2 ^ m) as ->.
  { rewrite <- Z.land_ones by lia. f_equal. rewrite Z.ones_equiv. lia. }
  pose proof (Z.mod_pos_bound (Z.shiftr h 48) (2 ^ m)). rewrite u32_id by lia. lia.
Qed.

Lemma shard_at c h : cache_ok c → ∃ s, rd (c_sh c) (shard_of c h) = Ok s ∧ c_sh c !! Z.to_nat (shard_of c h) = Some s ∧ shard_ok s.
Proof.
  intros Hc. pose proof (shard_of_range c h Hc). pose proof (c_len _ Hc).
  destruct (rd_in_range (c_sh c) (shard_of c h)) as (s & Hr & Hs); [lia|]. exists s. split_and!; try done. by apply (c_shards _ Hc _ _ Hs).
Qed.

Lemma mapof_app_lookup l l' k : mapof (l ++ l') !! k = match mapof l !! k with Some x => Some x | None => mapof l' !! k end.
Proof.
  induction l as [|e l IH]; cbn [app]; [done|]. rewrite !mapof_cons. destruct (decide (k = e_key e)) as [->|].
  - by rewrite !lookup_insert_eq.
  - by rewrite !lookup_insert_ne by done.
Qed.

Lemma concat_lookup k (sh : list (shard_t P)) : ∀ i s, sh !! i = Some s →
  (∀ j s', sh !! j = Some s' → j ≠ i → mapof (ents (s_slots s')) !! k = None) →
  mapof (cache_ents sh) !! k = mapof (ents (s_slots s)) !! k.
Proof.
  induction sh as [|s0 sh IH]; intros i s Hi Hno; [done|]. unfold cache_ents. cbn [map concat]. rewrite mapof_app_lookup. fold (cache_ents sh).
  destruct i as [|i]; cbn [lookup list_lookup] in Hi.
  - injection Hi as ->. destruct (mapof (ents (s_slots s)) !! k) eqn:E; [done|].
    assert (∀ sh', (∀ j s', sh' !! j = Some s' → mapof (ents (s_slots s')) !! k = None) → mapof (cache_ents sh') !! k = None) as Hall.
    { induction sh' as [|x sh' IH']; intros Hx; [done|]. unfold cache_ents. cbn [map concat]. rewrite mapof_app_lookup.
      rewrite (Hx 0%nat x eq_refl). apply IH'. intros j s' Hj. by apply (Hx (S j)). }
    apply Hall. intros j s' Hj. by apply (Hno (S j)).
  - rewrite (Hno 0%nat s0 eq_refl) by done. apply (IH i s Hi). intros j s' Hj Hne. by apply (Hno (S j)); [|lia].
Qed.

(** A key is looked up in the shard its hash selects. *)
Lemma cache_lookup c k s : cache_ok c → c_sh c !! Z.to_nat (shard_of c (hash_of k)) = Some s →
  cache_map c !! k = shard_map s !! k.
Proof.
  intros Hc Hs. apply (concat_lookup k (c_sh c) _ s Hs). intros j s' Hj Hne. apply mapof_none. intros Hin.
  apply list_elem_of_fmap in Hin as (e & -> & Hin). pose proof (c_home _ Hc j s' e Hj Hin) as Hhome.
  pose proof (Forall_elem entry_ok _ _ (l_ents _ _ _ (k_layout _ (c_shards _ Hc j s' Hj))) Hin) as (He & _).
  rewrite He in Hhome. rewrite Hhome, Nat2Z.id in Hne. done.
Qed.

Lemma cache_lookup_other c k i s : cache_ok c → c_sh c !! i = Some s → shard_of c (hash_of k) ≠ Z.of_nat i → shard_map s !! k = None.
Proof.
  intros Hc Hs Hne. apply mapof_none. intros Hin. apply list_elem_of_fmap in Hin as (e & -> & Hin).
  pose proof (c_home _ Hc i s e Hs Hin) as Hhome.
  pose proof (Forall_elem entry_ok _ _ (l_ents _ _ _ (k_layout _ (c_shards _ Hc i s Hs))) Hin) as (He & _). rewrite He in Hhome. done.
Qed.

(** Every entry of a shard is an entry of the cache. *)
Lemma shard_sub c i s : cache_ok c → c_sh c !! i = Some s → shard_map s ⊆ cache_map c.
Proof.
  intros Hc Hs. apply map_subseteq_spec. intros k x Hk. destruct (decide (shard_of c (hash_of k) = Z.of_nat i)) as [E|Hne].
  - rewrite (cache_lookup c k s Hc); [done|]. by rewrite E, Nat2Z.id.
  - by rewrite (cache_lookup_other c k i s Hc Hs Hne) in Hk.
Qed.

Lemma shard_map_elem s e : shard_ok s → e ∈ ents (s_slots s) → shard_map s !! e_key e = Some (strip e).
Proof. intros Hk He. apply mapof_lookup; [by apply shard_nodup|by exists e]. Qed.

(** A new state of one shard. *)
Lemma set_shard_spec c i s' : cache_ok c → 0 <= i < c_nshards c → shard_ok s' →
  (∀ k, is_Some (shard_map s' !! k) → shard_of c (hash_of k) = i) →
  ∃ c', set_shard c i s' = Ok c' ∧ cache_ok c' ∧ c_nshards c' = c_nshards c ∧
    ∀ k, cache_map c' !! k = if decide (shard_of c (hash_of k) = i) then shard_map s' !! k else cache_map c !! k.
Proof.
  intros Hc Hi Hk' Hhome. pose proof (c_len _ Hc) as Hlen. unfold set_shard.
  rewrite wr_in_range by lia. bind_ok. set (c' := mkCache _ _ _). exists c'. split; [done|].
  assert (∀ h, shard_of c' h = shard_of c h) as Hsh by done.
  assert (cache_ok c') as Hc'.
  { split; cbn [c' c_nshards c_sh].
    - apply Hc.
    - by rewrite zlen_insert.
    - intros j x Hx. apply list_lookup_insert_Some in Hx as [(_ & <- & _)|[_ Hx]]; [done|by apply (c_shards _ Hc j)].
    - intros j x e Hx He. rewrite Hsh. apply list_lookup_insert_Some in Hx as [(<- & <- & _)|[_ Hx]]; [|by apply (c_home _ Hc j x)].
      pose proof (Forall_elem entry_ok _ _ (l_ents _ _ _ (k_layout _ Hk')) He) as (Hh & _). rewrite Hh, (Hhome (e_key e)); [lia|].
      rewrite (shard_map_elem _ _ Hk' He). by eexists. }
  split; [done|]. split; [done|]. intros k. destruct (decide (shard_of c (hash_of k) = i)) as [E|Hne].
  - apply cache_lookup; [done|]. rewrite Hsh, E. apply list_lookup_insert_eq. zl.
  - destruct (shard_at c (hash_of k) Hc) as (x & _ & Hx & _). rewrite (cache_lookup c k x Hc Hx). apply cache_lookup; [done|].
    pose proof (shard_of_range c (hash_of k) Hc). rewrite Hsh. cbn [c' c_sh]. rewrite list_lookup_insert_ne by lia. done.
Qed.

(** One key changed and some entries taken out, in a shard and in the cache. *)
Lemma set_shard_alter c k s s' v g : cache_ok c → c_sh c !! Z.to_nat (shard_of c (hash_of k)) = Some s → shard_ok s' →
  mapof g ⊆ shard_map s → shard_map s' = partial_alter (fun _ => v) k (shard_map s ∖ mapof g) →
  ∃ c', set_shard c (shard_of c (hash_of k)) s' = Ok c' ∧ cache_ok c' ∧ mapof g ⊆ cache_map c ∧
    cache_map c' = partial_alter (fun _ => v) k (cache_map c ∖ mapof g).
Proof.
  intros Hc Hs Hk' Hg Hm. pose proof (shard_of_range c (hash_of k) Hc) as Hr. set (i := shard_of c (hash_of k)) in *.
  assert (∀ k', shard_of c (hash_of k') ≠ i → shard_map s !! k' = None) as Hout.
  { intros k' Hne. apply (cache_lookup_other c k' _ s Hc Hs). rewrite Z2Nat.id by lia. done. }
  assert (∀ k', shard_of c (hash_of k') ≠ i → mapof g !! k' = None) as Hgout.
  { intros k' Hne. by apply (lookup_weaken_None _ _ _ (Hout k' Hne)). }
  destruct (set_shard_spec c i s' Hc Hr Hk') as (c' & E & Hc' & _ & Hl).
  { intros k' [x Hx]. destruct (decide (shard_of c (hash_of k') = i)) as [|Hne]; [done|]. rewrite Hm in Hx.
    destruct (decide (k = k')) as [<-|Hkk]; [done|]. rewrite lookup_partial_alter_ne in Hx by done.
    apply lookup_difference_Some in Hx as [Hx _]. by rewrite Hout in Hx. }
  exists c'. split; [done|]. split; [done|]. split; [by etrans; [exact Hg|by eapply shard_sub]|].
  apply map_eq. intros k'. rewrite Hl. destruct (decide (shard_of c (hash_of k') = i)) as [Ei|Hne].
  - assert (cache_map c !! k' = shard_map s !! k') as Es by (apply cache_lookup; [done|by rewrite Ei]).
    rewrite Hm. destruct (decide (k = k')) as [<-|Hkk]; [by rewrite !lookup_partial_alter_eq|].
    rewrite !lookup_partial_alter_ne by done. by rewrite !lookup_difference, Es.
  - rewrite lookup_partial_alter_ne by (by intros ->). rewrite lookup_difference, (Hgout k' Hne). done.
Qed.

(** ** Operations on the whole cache *)

Lemma alter_same (m : gmap Q (centry P)) k : partial_alter (fun _ => m !! k) k m = m.
Proof.
  apply map_eq. intros k'. destruct (decide (k = k')) as [<-|Hne]; [by rewrite lookup_partial_alter_eq|].
  by rewrite lookup_partial_alter_ne.
Qed.

Lemma alter_none (m : gmap Q (centry P)) k : m !! k = None → partial_alter (fun _ => None) k m = m.
Proof. intros <-. apply alter_same. Qed.

Lemma minus_none (m m' : gmap Q (centry P)) k : m !! k = None → (m ∖ m') !! k = None.
Proof. intros Hk. by rewrite lookup_difference, Hk; case_match. Qed.

Lemma cache_insert_spec alloc c entry key now : cache_ok c → (∀ cap, alloc cap = true → cap <= 2 ^ 30) →
  entry_ok entry → key_ok key → e_key entry = canon key →
  ∃ rc c' f, elpis_cache_insert eqfn alloc c entry key now = Ok (rc, c', f) ∧ cache_ok c' ∧
    match cache_map c !! canon key with
    | Some old => rc = ELPIS_OK ∧ cache_map c' = <[canon key := strip entry]> (cache_map c) ∧ map strip f = [old]
    | None => ∃ g, Forall (takeable now) g ∧ mapof g ⊆ cache_map c ∧
        ((rc = ELPIS_OK ∧ f = g ∧ cache_map c' = <[canon key := strip entry]> (cache_map c ∖ mapof g)) ∨
         (rc = ELPIS_ENOMEM ∧ f = g ++ [entry] ∧ cache_map c' = cache_map c ∖ mapof g ∧ (¬ pinned entry ∨ ∃ cap, alloc cap = false)))
    end.
Proof.
  intros Hc Ha He Hkey Hke. pose proof He as (Hh & _). unfold elpis_cache_insert. fold (e_hash entry). rewrite Hh, Hke.
  destruct (shard_at c (hash_of (canon key)) Hc) as (s & -> & Hs & Hk). bind_ok.
  destruct (shard_insert_spec alloc s entry key now Hk Ha He Hkey Hke) as (rc & s' & f & -> & Hk' & _ & Hcase). bind_ok.
  rewrite (cache_lookup c _ s Hc Hs). destruct (shard_map s !! canon key) as [old|] eqn:Em.
  - destruct Hcase as (-> & Hm & Hf). destruct (set_shard_alter c (canon key) s s' (Some (strip entry)) [] Hc Hs Hk') as (c' & -> & Hc' & _ & Hm').
    { by apply map_empty_subseteq. }
    { rewrite Hm. change (mapof []) with (∅ : gmap Q (centry P)). by rewrite map_difference_empty. }
    change (mapof []) with (∅ : gmap Q (centry P)) in Hm'. rewrite map_difference_empty in Hm'. bind_ok. by exists ELPIS_OK, c', f.
  - destruct Hcase as (g & Ht & Hg & _ & [(-> & -> & Hm & _)|(-> & -> & Hm & Hwhy)]).
    + destruct (set_shard_alter c (canon key) s s' (Some (strip entry)) g Hc Hs Hk' Hg Hm) as (c' & -> & Hc' & Hgc & Hm'). bind_ok.
      exists ELPIS_OK, c', g. split; [done|]. split; [done|]. exists g. split; [done|]. split; [done|]. by left.
    + destruct (set_shard_alter c (canon key) s s' None g Hc Hs Hk' Hg) as (c' & -> & Hc' & Hgc & Hm').
      { by rewrite Hm, alter_none by (by apply minus_none). }
      rewrite alter_none in Hm' by (by apply minus_none; rewrite (cache_lookup c _ s Hc Hs)).
      bind_ok. exists ELPIS_ENOMEM, c', (g ++ [entry]). split; [done|]. split; [done|]. exists g. split; [done|]. split; [done|].
      right. split_and!; try done. destruct Hwhy as [(Hp & _)|Hw]; [by left|by right].
Qed.

Lemma cache_read_spec c key : cache_ok c → key_ok key → 0 <= hash_of (canon key) →
  ∃ r c', elpis_cache_read_begin eqfn c (hash_of (canon key)) key = Ok (r, c') ∧ cache_ok c' ∧
    cache_map c' = cache_map c ∧ strip <$> r = cache_map c !! canon key.
Proof.
  intros Hc Hkey Hh. unfold elpis_cache_read_begin. destruct (shard_at c (hash_of (canon key)) Hc) as (s & -> & Hs & Hk). bind_ok.
  destruct (shard_read_spec s key Hk Hkey Hh) as (r & s' & -> & Hk' & _ & Hm & Hr & _). bind_ok.
  destruct (set_shard_alter c (canon key) s s' (shard_map s !! canon key) [] Hc Hs Hk') as (c' & -> & Hc' & _ & Hm').
  - by apply map_empty_subseteq.
  - rewrite Hm. change (mapof []) with (∅ : gmap Q (centry P)). by rewrite map_difference_empty, alter_same.
  - bind_ok. exists r, c'. split; [done|]. split; [done|]. rewrite (cache_lookup c _ s Hc Hs). split; [|done].
    change (mapof []) with (∅ : gmap Q (centry P)) in Hm'. rewrite map_difference_empty in Hm'. rewrite Hm'.
    rewrite <- (cache_lookup c _ s Hc Hs). apply alter_same.
Qed.

Lemma cache_remove_spec c key : cache_ok c → key_ok key → 0 <= hash_of (canon key) →
  ∃ rc c' f, elpis_cache_remove eqfn c (hash_of (canon key)) key = Ok (rc, c', f) ∧ cache_ok c' ∧
    cache_map c' = delete (canon key) (cache_map c) ∧ map strip f = option_list (cache_map c !! canon key) ∧
    rc = match cache_map c !! canon key with Some _ => ELPIS_OK | None => ELPIS_ENOTFOUND end.
Proof.
  intros Hc Hkey Hh. unfold elpis_cache_remove. destruct (shard_at c (hash_of (canon key)) Hc) as (s & -> & Hs & Hk). bind_ok.
  destruct (shard_remove_spec s key Hk Hkey Hh) as (rc & s' & f & -> & Hk' & _ & Hm & Hrc & Hf). bind_ok.
  destruct (set_shard_alter c (canon key) s s' None [] Hc Hs Hk') as (c' & -> & Hc' & _ & Hm').
  - by apply map_empty_subseteq.
  - rewrite Hm. change (mapof []) with (∅ : gmap Q (centry P)). by rewrite map_difference_empty.
  - bind_ok. exists rc, c', f. split; [done|]. split; [done|]. rewrite (cache_lookup c _ s Hc Hs). split; [|done].
    change (mapof []) with (∅ : gmap Q (centry P)) in Hm'. by rewrite map_difference_empty in Hm'.
Qed.

(** The shards from [i] on. *)
Lemma flush_shards_spec k : ∀ i c, cache_ok c → 0 <= i → i + Z.of_nat k = c_nshards c →
  ∃ c' f, flush_shards k i c = Ok (c', f) ∧ cache_ok c' ∧ c_nshards c' = c_nshards c ∧
    ∀ q, cache_map c' !! q = if decide (i <= shard_of c (hash_of q)) then None else cache_map c !! q.
Proof.
  induction k as [|k IH]; intros i c Hc Hi Hk; cbn [flush_shards].
  { exists c, []. split_and!; try done. intros q. pose proof (shard_of_range c (hash_of q) Hc). rewrite decide_False by lia. done. }
  pose proof (c_len _ Hc) as Hlen. destruct (rd_in_range (c_sh c) i) as (s & -> & Hs); [lia|]. bind_ok.
  destruct (shard_flush_spec s (c_shards _ Hc _ _ Hs)) as (s' & f & -> & Hk' & _ & Hm & _). bind_ok.
  destruct (set_shard_spec c i s' Hc) as (c1 & -> & Hc1 & Hn1 & Hl1); [lia|done|intros q; rewrite Hm, lookup_empty; by intros []|]. bind_ok.
  destruct (IH (i + 1) c1 Hc1) as (c' & f' & -> & Hc' & Hn' & Hl'); [lia..|]. bind_ok.
  exists c', (f ++ f'). split_and!; try done; [congruence|]. intros q. rewrite Hl', Hl1, Hm, lookup_empty.
  unfold shard_of. rewrite Hn1. fold (shard_of c (hash_of q)). repeat case_decide; try done; lia.
Qed.

Lemma cache_flush_spec c : cache_ok c → ∃ c' f, elpis_cache_flush c = Ok (c', f) ∧ cache_ok c' ∧ cache_map c' = ∅.
Proof.
  intros Hc. unfold elpis_cache_flush. destruct (flush_shards_spec (Z.to_nat (c_nshards c)) 0 c Hc) as (c' & f & -> & Hc' & _ & Hl); [lia| |].
  { pose proof (shard_of_range c 0 Hc). lia. }
  exists c', f. split_and!; try done. apply map_empty. intros q. rewrite Hl.
  pose proof (shard_of_range c (hash_of q) Hc). by rewrite decide_True by lia.
Qed.

Lemma mapof_minus_app f f' (m : gmap Q (centry P)) : m ∖ mapof f ∖ mapof f' = m ∖ mapof (f ++ f').
Proof.
  apply map_eq. intros q. rewrite !lookup_difference, mapof_app_lookup.
  destruct (mapof f !! q), (mapof f' !! q), (m !! q); done.
Qed.

Lemma expire_shards_spec per busy now k : ∀ i c, cache_ok c → 0 <= i → i + Z.of_nat k = c_nshards c →
  ∃ c' f, expire_shards k i per busy c now = Ok (c', f) ∧ cache_ok c' ∧ cache_map c' = cache_map c ∖ mapof f ∧ mapof f ⊆ cache_map c ∧
    Forall (fun e => is_expired (hdr_of e) now = true) f.
Proof.
  induction k as [|k IH]; intros i c Hc Hi Hk; cbn [expire_shards].
  { exists c, []. split_and!; try done; [|by apply map_empty_subseteq]. change (mapof []) with (∅ : gmap Q (centry P)). by rewrite map_difference_empty. }
  destruct (busy i); [apply IH; [done|lia..]|].
  pose proof (c_len _ Hc) as Hlen. destruct (rd_in_range (c_sh c) i) as (s & -> & Hs); [lia|]. bind_ok.
  pose proof (c_shards _ Hc _ _ Hs) as Hk1. destruct (expire_loop_spec now (Z.to_nat per) s Hk1) as (s' & f & -> & Hk' & _ & Hf & Hex). bind_ok.
  assert (∀ q x, shard_map s !! q = Some x → shard_of c (hash_of q) = i) as Hhome.
  { intros q x Hq. destruct (decide (shard_of c (hash_of q) = i)) as [|Hne]; [done|].
    by rewrite (cache_lookup_other c q _ s Hc Hs) in Hq by lia. }
  pose proof (freed_map s f s' Hk1 Hf) as Hm. pose proof (freed_sub s f s' Hk1 Hf) as Hsub.
  destruct (set_shard_spec c i s' Hc) as (c1 & -> & Hc1 & Hn1 & Hl1); [lia|done| |].
  { intros q [x Hq]. rewrite Hm in Hq. apply lookup_difference_Some in Hq as [Hq _]. by eapply Hhome. }
  bind_ok. destruct (IH (i + 1) c1 Hc1) as (c' & f' & -> & Hc' & Hm' & Hsub' & Hex'); [lia..|]. bind_ok.
  exists c', (f ++ f'). assert (cache_map c1 = cache_map c ∖ mapof f) as E1; [|split_and!; try done; [by rewrite Hm', <- mapof_minus_app, E1| |by apply Forall_app]].
  2:{ apply map_subseteq_spec. intros q x. rewrite mapof_app_lookup. destruct (mapof f !! q) as [y|] eqn:Eq.
      - intros [= <-]. apply (lookup_weaken _ _ _ _ Eq). by etrans; [exact Hsub|by eapply shard_sub].
      - intros Eq'. pose proof (lookup_weaken _ _ _ _ Eq' Hsub') as Ex. rewrite E1 in Ex. by apply lookup_difference_Some in Ex as [Ex _]. }
  apply map_eq. intros q. rewrite Hl1, lookup_difference.
  case_decide as E; [rewrite Hm, lookup_difference; by rewrite (cache_lookup c q s Hc) by (by rewrite E)|].
  destruct (mapof f !! q) as [x|] eqn:Eq; [|done]. apply (lookup_weaken _ _ _ _ Eq) in Hsub. by apply Hhome in Hsub.
Qed.

Lemma cache_expire_spec busy c now budget : cache_ok c →
  ∃ n c' f, elpis_cache_expire busy c now budget = Ok (n, c', f) ∧ cache_ok c' ∧ n = zlen f ∧
    cache_map c' = cache_map c ∖ mapof f ∧ mapof f ⊆ cache_map c ∧ Forall (fun e => is_expired (hdr_of e) now = true) f.
Proof.
  intros Hc. unfold elpis_cache_expire. set (per := if _ =? 0 then _ else _).
  destruct (expire_shards_spec per busy now (Z.to_nat (c_nshards c)) 0 c Hc) as (c' & f & -> & Hc' & Hm & Hsub & Hex); [lia| |].
  { pose proof (shard_of_range c 0 Hc). lia. }
  bind_ok. by exists (zlen f), c', f.
Qed.

(** A new cache is empty. *)
Lemma pow2_loop_spec k v : ∀ j, 0 <= j <= 20 → ∃ m, 0 <= m <= 20 ∧ pow2_loop k v (2 ^ j) = 2 ^ m.
Proof.
  induction k as [|k IH]; intros j Hj; cbn [pow2_loop]; [by exists j|].
  destruct (Z.ltb_spec (2 ^ j) v), (Z.ltb_spec (2 ^ j) (2 ^ 20)) as [Hlt|]; cbn [andb]; try by exists j.
  apply Z.pow_lt_mono_r_iff in Hlt; [|lia..]. replace (2 ^ j * 2) with (2 ^ (j + 1)) by (rewrite Z.pow_add_r by lia; lia). apply IH. lia.
Qed.

Lemma fresh_shard_ok b : 0 <= b < 2 ^ 63 → shard_ok (fresh_shard (P := P) b).
Proof.
  intros Hb. assert (cap_ok MIN_CAP) as Hc by (by exists 6). assert (∀ n, ents (replicate n None) = []) as He by (induction n; done).
  split; cbn [fresh_shard s_cap s_ctrl s_slots s_hand s_used s_tomb s_bytes s_pinned_entries s_pinned_bytes s_bytes_max]; rewrite ?He; try done.
  - by apply fresh_layout.
Qed.

Lemma cache_new_spec bytes_max shards c : 0 <= bytes_max < 2 ^ 63 → 0 <= shards →
  elpis_cache_new (P := P) true bytes_max shards = Some c → cache_ok c ∧ cache_map c = ∅.
Proof.
  intros Hb Hs [= <-]. set (v := if shards =? 0 then 16 else shards). unfold round_pow2.
  destruct (pow2_loop_spec 21 v 0) as (m & Hm & E); [lia|]. change (2 ^ 0) with 1 in E. rewrite E.
  assert (∃ m', 0 <= m' <= 12 ∧ (if 4096 <? 2 ^ m then 4096 else 2 ^ m) = 2 ^ m') as (m' & Hm' & ->).
  { destruct (Z.ltb_spec 4096 (2 ^ m)) as [|Hle]; [by exists 12|]. exists m. split; [|done].
    change 4096 with (2 ^ 12) in Hle. apply Z.pow_le_mono_r_iff in Hle; lia. }
  assert (1 <= 2 ^ m') as Hpow by (change 1 with (2 ^ 0); apply Z.pow_le_mono_r; lia).
  set (per := if bytes_max / 2 ^ m' <? 64 * 1024 then 64 * 1024 else bytes_max / 2 ^ m').
  assert (0 <= per < 2 ^ 63) as Hper.
  { unfold per. case_match; [lia|]. split; [apply Z.div_pos; lia|]. apply (Z.le_lt_trans _ bytes_max); [|lia]. apply Z.div_le_upper_bound; nia. }
  assert (∀ n, cache_ents (replicate n (fresh_shard (P := P) per)) = []) as He by (induction n; done).
  split; [|unfold cache_map; cbn [c_sh]; by rewrite He].
  split; cbn [c_nshards c_sh].
  - by exists m'.
  - unfold zlen. rewrite length_replicate. lia.
  - intros i s [-> _]%lookup_replicate. by apply fresh_shard_ok.
  - intros i s e [-> _]%lookup_replicate Hin. by apply not_elem_of_nil in Hin.
Qed.

(** What the map holds is in order. *)
Lemma cache_map_ok c k e : cache_ok c → cache_map c !! k = Some e → entry_ok e ∧ e_key e = k.
Proof.
  intros Hc Hk. apply elem_of_list_to_map_2 in Hk. apply list_elem_of_fmap in Hk as (x & [= -> ->] & Hx). split; [|done].
  unfold cache_ents in Hx. apply list_elem_of_In, in_concat in Hx as (l & Hl%list_elem_of_In & Hx%list_elem_of_In).
  apply list_elem_of_fmap in Hl as (s & -> & Hs).
  apply list_elem_of_lookup in Hs as [i Hs]. pose proof (c_shards _ Hc i s Hs) as Hk.
  exact (Forall_elem entry_ok _ _ (l_ents _ _ _ (k_layout _ Hk)) Hx).
Qed.
End Map.
