(* ===== verification/Cachecoh.v ===== *)
(** The cache of src/cache/cache.c as its callers see it: a map of keys to the
    entries last accepted under them, of which it may forget what the CLOCK
    sweep may take, and the exact effect of an insertion and of a sweep. *)
From stdpp Require Import base list numbers gmap.
From Stdlib Require Import ZArith Lia.
From S2P Require Import Prelude Bytes Group Cache Cachemap.

Section Cohere.
Context {P K : Type} (eqfn : P → K → res bool) {Q : Type} `{Countable Q} (key_of : P → Q) (canon : K → Q) (hash_of : Q → Z).
Context (body_ok : P → Prop) (key_ok : K → Prop).
Hypothesis eqfn_spec : ∀ p k, body_ok p → key_ok k → eqfn p k = Ok (bool_decide (key_of p = canon k)).
Variable alloc : Z → bool.
Hypothesis alloc_bound : ∀ cap, alloc cap = true → cap <= 2 ^ 30.
Implicit Types c : elpis_cache P.
Implicit Types m : gmap Q (centry P).

(** ** Sequences of operations *)

Inductive cache_op :=
| Insert (e : centry P) (key : K) (now : Z)
| Read (key : K)
| Remove (key : K)
| Flush
| Expire (busy : Z → bool) (now budget : Z).

Inductive cache_ans :=
| Rc (rc : elpis_rc_t)
| Found (r : option (centry P))
| Flushed
| Count (n : Z).

Definition cache_step c (op : cache_op) : res (cache_ans * elpis_cache P) :=
  match op with
  | Insert e key now => '(rc, c, _) ← elpis_cache_insert eqfn alloc c e key now; Ok (Rc rc, c)
  | Read key => '(r, c) ← elpis_cache_read_begin eqfn c (hash_of (canon key)) key; Ok (Found r, c)
  | Remove key => '(rc, c, _) ← elpis_cache_remove eqfn c (hash_of (canon key)) key; Ok (Rc rc, c)
  | Flush => '(c, _) ← elpis_cache_flush c; Ok (Flushed, c)
  | Expire busy now budget => '(n, c, _) ← elpis_cache_expire busy c now budget; Ok (Count n, c)
  end.

Fixpoint cache_run c (ops : list cache_op) : res (list cache_ans * elpis_cache P) :=
  match ops with
  | [] => Ok ([], c)
  | op :: ops => '(a, c) ← cache_step c op; '(l, c) ← cache_run c ops; Ok (a :: l, c)
  end.

(** What the callers promise of an operation. *)
Definition op_ok (op : cache_op) : Prop :=
  match op with
  | Insert e key _ => entry_ok key_of hash_of body_ok e ∧ key_ok key ∧ e_key key_of e = canon key
  | Read key | Remove key => key_ok key ∧ 0 <= hash_of (canon key)
  | Flush | Expire _ _ _ => True
  end.

(** ** The map the cache stands for *)

(** The entries last accepted and neither removed nor flushed since. *)
Definition spec_step m (op : cache_op) (a : cache_ans) : gmap Q (centry P) :=
  match op, a with
  | Insert e key _, Rc ELPIS_OK => <[canon key := strip e]> m
  | Remove key, _ => delete (canon key) m
  | Flush, _ => ∅
  | _, _ => m
  end.

(** An entry the sweeps may never take. *)
Definition kept (e : centry P) : Prop := pinned e ∧ h_expiry (hdr_of e) = 0.

(** A look-up finds the entry of the map or nothing, and nothing only when the
    map has no entry that is to be kept; an insertion of a pinned entry fails
    only for want of memory; a removal finds what a look-up would find. *)
Definition ans_ok m (op : cache_op) (a : cache_ans) : Prop :=
  match op, a with
  | Insert e _ _, Rc rc => rc = ELPIS_OK ∨ rc = ELPIS_ENOMEM ∧ (¬ pinned e ∨ ∃ cap, alloc cap = false)
  | Read key, Found (Some e) => m !! canon key = Some (strip e)
  | Read key, Found None => ∀ e, m !! canon key = Some e → ¬ kept e
  | Remove key, Rc rc => (rc = ELPIS_OK ∧ is_Some (m !! canon key)) ∨
      (rc = ELPIS_ENOTFOUND ∧ ∀ e, m !! canon key = Some e → ¬ kept e)
  | Flush, Flushed => True
  | Expire _ _ _, Count n => 0 <= n
  | _, _ => False
  end.

Fixpoint run_ok m (ops : list cache_op) (l : list cache_ans) : Prop :=
  match ops, l with
  | [], [] => True
  | op :: ops, a :: l => ans_ok m op a ∧ run_ok (spec_step m op a) ops l
  | _, _ => False
  end.

(** The cache holds nothing but entries of the map, and all those to be kept. *)
Definition reflects c m : Prop :=
  cache_ok key_of hash_of body_ok c ∧ cache_map key_of c ⊆ m ∧ ∀ k e, m !! k = Some e → kept e → cache_map key_of c !! k = Some e.

Lemma kept_strip e : kept (strip e) ↔ kept e.
Proof. done. Qed.

Lemma not_takeable now e : kept e → ¬ takeable now e.
Proof. intros [Hp Hx] [He|Hn]; [|done]. unfold is_expired in He. by rewrite Hx in He. Qed.

(** What is taken leaves the entries to be kept. *)
Lemma minus_reflects (M m : gmap Q (centry P)) now g : M ⊆ m → mapof key_of g ⊆ M → Forall (takeable now) g →
  (∀ k e, m !! k = Some e → kept e → M !! k = Some e) →
  M ∖ mapof key_of g ⊆ m ∧ ∀ k e, m !! k = Some e → kept e → (M ∖ mapof key_of g) !! k = Some e.
Proof.
  intros HM Hg Ht Hkept. split; [by etrans; [apply map_subseteq_difference_l|]|]. intros k e Hk He.
  pose proof (Hkept k e Hk He) as HMk. apply lookup_difference_Some. split; [done|].
  destruct (mapof key_of g !! k) as [x|] eqn:Eg; [|done]. exfalso.
  pose proof (lookup_weaken _ _ _ _ Eg Hg) as Ex. rewrite HMk in Ex. injection Ex as ->.
  unfold mapof in Eg. apply elem_of_list_to_map_2 in Eg. apply list_elem_of_fmap in Eg as (y & [= -> ->] & Hy).
  pose proof (Forall_elem (takeable now) _ _ Ht Hy) as Hty. by apply (not_takeable now y).
Qed.

Lemma insert_reflects (M m : gmap Q (centry P)) k e : M ⊆ m →
  (∀ k e, m !! k = Some e → kept e → M !! k = Some e) →
  <[k := e]> M ⊆ <[k := e]> m ∧ ∀ k' e', <[k := e]> m !! k' = Some e' → kept e' → <[k := e]> M !! k' = Some e'.
Proof.
  intros HM Hk. split; [by apply insert_mono|]. intros k' e' Hl He'. destruct (decide (k = k')) as [<-|Hne].
  - by rewrite lookup_insert_eq in *.
  - rewrite lookup_insert_ne in * by done. by apply Hk.
Qed.

Lemma delete_reflects (M m : gmap Q (centry P)) k : M ⊆ m →
  (∀ k e, m !! k = Some e → kept e → M !! k = Some e) →
  delete k M ⊆ delete k m ∧ ∀ k' e', delete k m !! k' = Some e' → kept e' → delete k M !! k' = Some e'.
Proof.
  intros HM Hk. split; [by apply delete_mono|]. intros k' e' [Hne Hl]%lookup_delete_Some He'.
  apply lookup_delete_Some. split; [done|by apply Hk].
Qed.

Lemma cache_step_spec c m op : reflects c m → op_ok op →
  ∃ a c', cache_step c op = Ok (a, c') ∧ ans_ok m op a ∧ reflects c' (spec_step m op a).
Proof.
  intros (Hc & HM & Hkept) Hop. destruct op as [e key now|key|key| |busy now budget]; cbn [cache_step op_ok] in *.
  - destruct Hop as (He & Hkey & Hke).
    destruct (cache_insert_spec eqfn key_of canon hash_of body_ok key_ok eqfn_spec alloc c e key now Hc alloc_bound He Hkey Hke) as (rc & c' & f & -> & Hc' & Hcase).
    bind_ok. exists (Rc rc), c'. split; [done|]. destruct (cache_map key_of c !! canon key) as [old|] eqn:Em.
    + destruct Hcase as (-> & Hm & _). split; [by left|]. split; [done|]. rewrite Hm. by apply insert_reflects.
    + destruct Hcase as (g & Ht & Hg & Hcase). destruct (minus_reflects _ m now g HM Hg Ht Hkept) as [HM' Hkept'].
      destruct Hcase as [(-> & _ & Hm)|(-> & _ & Hm & Hwhy)].
      * split; [by left|]. split; [done|]. rewrite Hm. by apply insert_reflects.
      * split; [by right|]. split; [done|]. rewrite Hm. done.
  - destruct Hop as [Hkey Hh]. destruct (cache_read_spec eqfn key_of canon hash_of body_ok key_ok eqfn_spec c key Hc Hkey Hh) as (r & c' & -> & Hc' & Hm & Hr).
    bind_ok. exists (Found r), c'. split; [done|]. split; [|by split; [|rewrite Hm]]. destruct r as [e|]; cbn in Hr |- *.
    + symmetry in Hr. by apply (lookup_weaken _ _ _ _ Hr).
    + intros e He Hk. rewrite (Hkept _ _ He Hk) in Hr. done.
  - destruct Hop as [Hkey Hh]. destruct (cache_remove_spec eqfn key_of canon hash_of body_ok key_ok eqfn_spec c key Hc Hkey Hh) as (rc & c' & f & -> & Hc' & Hm & _ & Hrc).
    bind_ok. exists (Rc rc), c'. split; [done|]. split.
    + cbn. destruct (cache_map key_of c !! canon key) as [old|] eqn:Em; [left|right]; (split; [done|]).
      * rewrite (lookup_weaken _ _ _ _ Em HM). by eexists.
      * intros e He Hk. rewrite (Hkept _ _ He Hk) in Em. done.
    + split; [done|]. rewrite Hm. by apply delete_reflects.
  - destruct (cache_flush_spec key_of hash_of body_ok c Hc) as (c' & f & -> & Hc' & Hm).
    bind_ok. exists Flushed, c'. split; [done|]. split; [done|]. split; [done|]. by rewrite Hm.
  - destruct (cache_expire_spec key_of hash_of body_ok busy c now budget Hc) as (n & c' & f & -> & Hc' & -> & Hm & Hsub & Hex).
    bind_ok. exists (Count (zlen f)), c'. split; [done|]. split; [apply zlen_nonneg|]. split; [done|]. rewrite Hm.
    apply (minus_reflects _ m now f HM Hsub); [|done]. eapply Forall_impl; [exact Hex|]. intros e He. by left.
Qed.

Lemma cache_run_spec ops : ∀ c m, reflects c m → Forall op_ok ops →
  ∃ l c', cache_run c ops = Ok (l, c') ∧ run_ok m ops l ∧ cache_ok key_of hash_of body_ok c'.
Proof.
  induction ops as [|op ops IH]; intros c m Hr Hops; cbn [cache_run].
  { exists [], c. split; [done|]. split; [done|]. apply Hr. }
  apply Forall_cons_1 in Hops as [Hop Hops]. destruct (cache_step_spec c m op Hr Hop) as (a & c1 & -> & Ha & Hr1). bind_ok.
  destruct (IH c1 _ Hr1 Hops) as (l & c' & -> & Hl & Hc'). bind_ok. by exists (a :: l), c'.
Qed.

(** C19. A cache serves what was last put in it: from a new cache, every
    sequence of insertions, look-ups, removals, flushes and expiry sweeps runs
    to its end, in whatever order and with whatever entries; every look-up
    that finds an entry finds the one last accepted under that very key and
    not removed or flushed since, so an entry is never returned for another
    key nor after it was replaced; and an entry that is pinned and does not
    expire is found until it is replaced, removed or flushed. *)
Theorem cache_coherent bytes_max shards c ops : 0 <= bytes_max < 2 ^ 63 → 0 <= shards →
  elpis_cache_new true bytes_max shards = Some c → Forall op_ok ops →
  ∃ l c', cache_run c ops = Ok (l, c') ∧ run_ok ∅ ops l ∧ cache_ok key_of hash_of body_ok c'.
Proof.
  intros Hb Hs Hnew Hops. destruct (cache_new_spec key_of hash_of body_ok bytes_max shards c Hb Hs Hnew) as [Hc Hm].
  apply (cache_run_spec ops c ∅); [|done]. split; [done|]. by rewrite Hm.
Qed.

(** C23. The exact effect of an insertion on its shard: an entry under the
    same key is replaced and freed, and nothing else changes; otherwise what
    is evicted is expired or not pinned, nothing is evicted when the entry
    fits in the budget, and then the entry is added, within the budget unless
    it is pinned, or refused and freed: because every entry left is pinned and
    not expired and there is still no room, or for want of memory. *)
Theorem shard_insert_exact (s : shard_t P) entry key now : shard_ok key_of hash_of body_ok s →
  entry_ok key_of hash_of body_ok entry → key_ok key → e_key key_of entry = canon key →
  ∃ rc s' f, shard_insert eqfn alloc s entry key now = Ok (rc, s', f) ∧ shard_ok key_of hash_of body_ok s' ∧
    let m := shard_map key_of s in let k := canon key in
    match m !! k with
    | Some old => rc = ELPIS_OK ∧ shard_map key_of s' = <[k := strip entry]> m ∧ map strip f = [old]
    | None => ∃ g, Forall (takeable now) g ∧ mapof key_of g ⊆ m ∧
        (s_bytes s + h_size (hdr_of entry) <= s_bytes_max s → g = []) ∧
        (rc = ELPIS_OK ∧ f = g ∧ shard_map key_of s' = <[k := strip entry]> (m ∖ mapof key_of g) ∧
           (pinned entry ∨ s_bytes s' <= s_bytes_max s) ∨
         rc = ELPIS_ENOMEM ∧ f = g ++ [entry] ∧ shard_map key_of s' = m ∖ mapof key_of g ∧
           (¬ pinned entry ∧ all_held now s' ∧ s_bytes_max s < s_bytes s' + h_size (hdr_of entry) ∨ ∃ cap, alloc cap = false))
    end.
Proof.
  intros Hk He Hkey Hke. destruct (shard_insert_spec eqfn key_of canon hash_of body_ok key_ok eqfn_spec alloc s entry key now Hk alloc_bound He Hkey Hke)
    as (rc & s' & f & E & Hk' & _ & Hcase). by exists rc, s', f.
Qed.
End Cohere.

(** C24. The CLOCK sweep frees exactly one entry, expired or not pinned, in
    two turns of the table at most; it fails only when every entry of the
    shard is pinned and not expired, and then frees none. *)
Theorem clock_evicts_unless_held {P Q} `{Countable Q} (key_of : P → Q) (hash_of : Q → Z) (body_ok : P → Prop) (s : shard_t P) now :
  shard_ok key_of hash_of body_ok s →
  ∃ ok s' f, shard_evict_one s now = Ok (ok, s', f) ∧ shard_ok key_of hash_of body_ok s' ∧
    shard_map key_of s' = shard_map key_of s ∖ mapof key_of f ∧ mapof key_of f ⊆ shard_map key_of s ∧
    if (ok : bool) then ∃ e, f = [e] ∧ takeable now e ∧ s_bytes s' = s_bytes s - h_size (hdr_of e)
    else f = [] ∧ all_held now s'.
Proof.
  intros Hk. destruct (evict_one_spec key_of hash_of body_ok now s Hk) as (ok & s' & f & E & Hk' & _ & Hf & Hyes & Hno).
  exists ok, s', f. split; [done|]. split; [done|]. split; [by apply (freed_map key_of hash_of body_ok)|]. split; [by apply (freed_sub key_of hash_of body_ok _ _ s')|].
  destruct ok; [|by apply Hno]. destruct (Hyes eq_refl) as (e & -> & Ht). exists e. split; [done|]. split; [done|].
  rewrite (k_bytes _ _ _ _ Hk), (k_bytes _ _ _ _ Hk'). unfold freed in Hf.
  assert (∀ l : list (centry P), sizes (map strip l) = sizes l) as Es by (intros l; unfold sizes; induction l as [|x l IH]; cbn in *; lia).
  rewrite <- (Es (ents (s_slots s))), Hf, Es. cbn [app sizes foldr]. fold (sizes (ents (s_slots s'))). lia.
Qed.

(** ** A concrete cache *)

(** Payloads that are their own key, with the key for hash. *)
Module Toy.
Definition eqfn (p k : Z) : res bool := Ok (p =? k).
Definition any (x : Z) : Prop := True.
Definition hash_of (k : Z) : Z := Z.abs k * 2 ^ 40.
Definition alloc (cap : Z) : bool := cap <=? 2 ^ 30.
Definition entry (k size expiry pin : Z) : centry Z := mkEntry (mkHdr (hash_of k) expiry size 0 pin) k.

Definition ops : list (cache_op (P := Z) (K := Z)) :=
  [Insert (entry 1 40000 0 1) 1 0; Insert (entry 2 20000 0 0) 2 0; Insert (entry 3 25000 50 0) 3 0; Read 1; Read 2; Read 3;
   Expire (fun _ => false) 60 100000; Read 3; Remove 1; Read 1].

Definition answers : list (cache_ans (P := Z)) :=
  [Rc ELPIS_OK; Rc ELPIS_OK; Rc ELPIS_OK; Found (Some (with_ref (entry 1 40000 0 1) 1)); Found None;
   Found (Some (with_ref (entry 3 25000 50 0) 1)); Count 1; Found None; Rc ELPIS_OK; Found None].

Lemma eqfn_spec p k : any p → any k → eqfn p k = Ok (bool_decide (id p = id k)).
Proof. intros _ _. unfold eqfn. f_equal. by destruct (Z.eqb_spec p k); case_bool_decide. Qed.
Lemma alloc_bound cap : alloc cap = true → cap <= 2 ^ 30.
Proof. apply Z.leb_le. Qed.

Lemma entry_ok k size expiry pin : 0 <= size < 2 ^ 32 → entry_ok id hash_of any (entry k size expiry pin).
Proof. intros Hz. split; [done|]. split; [|by split]. unfold e_hash, entry, hash_of. cbn. lia. Qed.

Definition one_shard : elpis_cache Z := mkCache 1 [fresh_shard 65536] 65536.
Definition answers_of (r : res (list (cache_ans (P := Z)) * elpis_cache Z)) : option (list (cache_ans (P := Z))) :=
  match r with Ok (l, _) => Some l | _ => None end.
Definition outcome : option (list (cache_ans (P := Z))) :=
  answers_of (cache_run eqfn (Q := Z) (id : Z → Z) hash_of alloc one_shard ops).
End Toy.

Lemma cache_coherent_witness :
  (∃ c l c', elpis_cache_new true 65536 1 = Some c ∧ cache_run Toy.eqfn id Toy.hash_of Toy.alloc c Toy.ops = Ok (l, c') ∧
    run_ok id Toy.alloc ∅ Toy.ops l) ∧
  Toy.outcome = Some Toy.answers.
Proof.
  split; [|by vm_compute].
  destruct (cache_coherent Toy.eqfn id id Toy.hash_of Toy.any Toy.any Toy.eqfn_spec Toy.alloc Toy.alloc_bound 65536 1 Toy.one_shard Toy.ops)
    as (l & c' & E & Hl & _).
  - lia.
  - lia.
  - done.
  - repeat (apply Forall_cons_2 || apply Forall_nil_2); cbn [op_ok]; try done; split; try done; try (apply Toy.entry_ok; lia).
  - exists Toy.one_shard, l, c'. split; [reflexivity|]. split; [exact E|exact Hl].
Defined.

(** A shard of 64 KiB that holds a pinned entry and two that are not. *)
Module Held.
Definition held0 : shard_t Z := fresh_shard 65536.
Definition put (s : shard_t Z) (e : centry Z) : shard_t Z :=
  match shard_insert Toy.eqfn Toy.alloc s e (e_body e) 0 with Ok (_, s', _) => s' | _ => s end.
Definition held1 : shard_t Z := put held0 (Toy.entry 1 40000 0 1).

Lemma put_ok s k size expiry pin : shard_ok id Toy.hash_of Toy.any s → 0 <= size < 2 ^ 32 → shard_ok id Toy.hash_of Toy.any (put s (Toy.entry k size expiry pin)).
Proof.
  intros Hk Hz. unfold put.
  destruct (shard_insert_spec Toy.eqfn id id Toy.hash_of Toy.any Toy.any Toy.eqfn_spec Toy.alloc s (Toy.entry k size expiry pin) k 0 Hk Toy.alloc_bound)
    as (rc & s' & f & E & Hk' & _); [by apply Toy.entry_ok|done|done|].
  change (e_body (Toy.entry k size expiry pin)) with k. by rewrite E.
Qed.

Lemma held1_ok : shard_ok id Toy.hash_of Toy.any held1.
Proof. apply put_ok; [|lia]. by apply fresh_shard_ok. Qed.
End Held.

(** An entry for which there is no room, since the one held is pinned. *)
Lemma shard_insert_exact_witness :
  ∃ s' f, shard_insert Toy.eqfn Toy.alloc Held.held1 (Toy.entry 2 30000 0 0) 2 0 = Ok (ELPIS_ENOMEM, s', f) ∧
    shard_ok id Toy.hash_of Toy.any s' ∧ f = [Toy.entry 2 30000 0 0].
Proof.
  destruct (shard_insert_exact Toy.eqfn id id Toy.hash_of Toy.any Toy.any Toy.eqfn_spec Toy.alloc Toy.alloc_bound Held.held1 (Toy.entry 2 30000 0 0) 2 0)
    as (rc & s' & f & E & Hk' & Hcase).
  - exact Held.held1_ok.
  - apply Toy.entry_ok. lia.
  - done.
  - done.
  - assert ((match shard_insert Toy.eqfn Toy.alloc Held.held1 (Toy.entry 2 30000 0 0) 2 0 with Ok (rc, _, f) => Some (rc, f) | _ => None end)
      = Some (ELPIS_ENOMEM, [Toy.entry 2 30000 0 0])) as Ev by (by vm_compute).
    rewrite E in Ev. injection Ev as -> ->.
    exists s', [Toy.entry 2 30000 0 0]. split; [exact E|]. split; [exact Hk'|reflexivity].
Defined.

Lemma clock_evicts_unless_held_witness :
  (∃ s', shard_evict_one (Held.put Held.held1 (Toy.entry 2 20000 0 0)) 0 = Ok (true, s', [Toy.entry 2 20000 0 0]) ∧ shard_ok id Toy.hash_of Toy.any s') ∧
  ∃ s', shard_evict_one Held.held1 0 = Ok (false, s', []) ∧ all_held 0 s'.
Proof.
  split.
  - destruct (clock_evicts_unless_held id Toy.hash_of Toy.any (Held.put Held.held1 (Toy.entry 2 20000 0 0)) 0) as (ok & s' & f & E & Hk' & _).
    { apply Held.put_ok; [exact Held.held1_ok|lia]. }
    assert ((match shard_evict_one (Held.put Held.held1 (Toy.entry 2 20000 0 0)) 0 with Ok (ok, _, f) => Some (ok, f) | _ => None end)
      = Some (true, [Toy.entry 2 20000 0 0])) as Ev by (by vm_compute).
    rewrite E in Ev. injection Ev as -> ->. exists s'. split; [exact E|exact Hk'].
  - destruct (clock_evicts_unless_held id Toy.hash_of Toy.any Held.held1 0 Held.held1_ok) as (ok & s' & f & E & _ & _ & _ & Hcase).
    assert ((match shard_evict_one Held.held1 0 with Ok (ok, _, _) => Some ok | _ => None end) = Some false) as Ev by (by vm_compute).
    rewrite E in Ev. injection Ev as ->. destruct Hcase as [-> Hall]. exists s'. split; [exact E|exact Hall].
Defined.
