(* ===== verification/Rcache.v ===== *)
(** The RRset cache: src/cache/rcache.c over the table of Cache.v.

    An entry is the object the code allocates: its fields and the area after
    them, which holds the folded owner name, padded to a multiple of four, and
    the records, each with its length before it.  [mem] is elpis_malloc: the
    area it gives for an object of that size, whatever it holds, or nothing.
    The time of the cached clock is an argument. *)
From stdpp Require Import base list numbers gmap.
From Stdlib Require Import ZArith Lia.
From S2P Require Import Prelude Bytes Simd Name NameOps Rnames Rrset Group Cache Cachemap.

(** ** Definitions *)

Record rent_t := mkRent {
  r_type : Z; r_klass : Z; r_namelen : Z; r_sec : elpis_sec_t; r_count : Z; r_sigcount : Z; r_flags : Z;
  r_zone_labels : Z; r_stored : Z; r_ttl : Z; r_datalen : Z; r_area : list Z }.

Record rkey_t := mkRkey { k_name : elpis_name_t; k_type : Z; k_klass : Z; k_hash : Z }.

(** [(n + 3u) & ~3u] *)
Definition pad4 (n : Z) : Z := u32 (Z.land (n + 3) (Z.lnot 3)).

(** Where the records begin in the area. *)
Definition rent_data (e : rent_t) : Z := pad4 (r_namelen e).

Definition rent_eq (e : rent_t) (k : rkey_t) : res bool :=
  if (r_type e =? k_type k) && (r_klass e =? k_klass k) && (r_namelen e =? n_len (k_name k)) then
    elpis_eq_ci (r_area e) (n_d (k_name k)) (r_namelen e)
  else Ok false.

Definition rkey_seed (type klass : Z) : Z :=
  Z.lxor (Z.lxor 0x2545F4914F6CDD1D (Z.shiftl type 32)) (Z.shiftl klass 16).

Definition rkey_init (name : elpis_name_t) (type klass : Z) : res rkey_t :=
  h ← elpis_simd_hash_ci (n_d name) (n_len name) (rkey_seed type klass);
  Ok (mkRkey name type klass h).

Definition rcache_t := elpis_cache rent_t.

(** [ok]: every allocation succeeds. *)
Definition elpis_rcache_new (ok : bool) (bytes shards : Z) : option rcache_t := elpis_cache_new ok bytes shards.

(** Record [i] and the [k - 1] after it, from [p] on, into the buffer. *)
Fixpoint get_loop (area : list Z) (k : nat) (i p : Z) (out : elpis_rrset_buf_t) : res (elpis_rc_t * elpis_rrset_buf_t) :=
  match k with
  | O => Ok (ELPIS_OK, out)
  | S k =>
    l ← elpis_get16 area p;
    let p := p + 2 in
    if ELPIS_RRSET_BUF <? u32 (rs_used out + l) then Ok (ELPIS_ETRUNC, out)
    else
      r ← rds area p l;
      out ← rrset_put out i r (rs_count out) (rs_sigcount out);
      get_loop area k (i + 1) (p + l) out
  end.

(** The fields of [out] a hit sets. *)
Definition get_header (out : elpis_rrset_buf_t) (name : elpis_name_t) (e : rent_t) (elapsed : Z) : elpis_rrset_buf_t :=
  mkRrset name (r_type e) (r_klass e) (if r_ttl e <=? elapsed then 0 else r_ttl e - elapsed) (r_ttl e) (r_sec e)
    (r_count e) (r_sigcount e) (r_flags e) (r_zone_labels e) (rs_len out) (rs_off out) 0 (rs_data out).

Definition elpis_rcache_get (c : rcache_t) (name : elpis_name_t) (type klass now serve_stale : Z) (out : elpis_rrset_buf_t)
    : res (elpis_rc_t * elpis_rrset_buf_t * rcache_t) :=
  k ← rkey_init name type klass;
  '(e, c) ← elpis_cache_read_begin rent_eq c (k_hash k) k;
  match e with
  | None => Ok (ELPIS_ENOTFOUND, out, c)
  | Some e =>
    let e := e_body e in
    let elapsed := u32 (now - r_stored e) in
    if (r_ttl e <? elapsed) && (u32 (r_ttl e + serve_stale) <? elapsed) then Ok (ELPIS_ENOTFOUND, out, c)
    else
      '(rc, out) ← get_loop (r_area e) (Z.to_nat (r_count e + r_sigcount e)) 0 (rent_data e) (get_header out name e elapsed);
      Ok (rc, out, c)
  end.

(** [elpis_put16(p, rdlen[i]); memcpy(p + 2, rd[i], rdlen[i])] for each record. *)
Fixpoint put_recs (area : list Z) (p : Z) (rs : list (list Z)) : res (list Z * Z) :=
  match rs with
  | [] => Ok (area, p)
  | r :: rs => area ← elpis_put16 area p (zlen r); area ← blit area (p + 2) r; put_recs area (p + 2 + zlen r) rs
  end.

(** [sizeof(rent_t)] with 64-bit alignment. *)
Definition RENT_SIZE : Z := 48.

(** The octets the records take. *)
Definition rec_bytes (rs : list (list Z)) : Z := foldl (fun n r => n + (2 + zlen r)) 0 rs.

Definition rcache_put (alloc : Z → bool) (mem : Z → option (list Z)) (clock : Z) (c : rcache_t) (name : elpis_name_t)
    (type klass ttl : Z) (sec : elpis_sec_t) (flags zone_labels : Z) (rd sig : list (list Z)) (max_stale : Z) (pinned : bool)
    : res (elpis_rc_t * rcache_t * list (centry rent_t)) :=
  let rd := take (Z.to_nat ELPIS_RRSET_MAX_RR) rd in
  let sig := take (Z.to_nat (ELPIS_RRSET_MAX_RR - zlen rd)) sig in
  if (zlen rd =? 0) && (zlen sig =? 0) then Ok (ELPIS_ERR, c, [])
  else if (ttl =? 0) && negb pinned then Ok (ELPIS_OK, c, [])
  else
    let datalen := rec_bytes (rd ++ sig) in
    if 512 * 1024 <? datalen then Ok (ELPIS_ERR, c, [])
    else
      let sz := RENT_SIZE + pad4 (n_len name) + datalen in
      match mem sz with
      | None => Ok (ELPIS_ENOMEM, c, [])
      | Some area =>
        k ← rkey_init name type klass;
        let hdr := mkHdr (k_hash k) (if pinned then 0 else u32 (clock + ttl + max_stale)) (u32 (sz + 64)) 1 (Z.b2z pinned) in
        nm ← rds (n_d name) 0 (n_len name);
        area ← blit area 0 nm;
        area ← elpis_scalar_lower area area (n_len name);
        '(area, p) ← put_recs area (pad4 (n_len name)) rd;
        '(area, _) ← put_recs area p sig;
        let e := mkRent type klass (n_len name) sec (u8 (zlen rd)) (u8 (zlen sig)) flags zone_labels clock ttl (u32 datalen) area in
        elpis_cache_insert rent_eq alloc c (mkEntry hdr e) k clock
      end.

Definition elpis_rcache_put (alloc : Z → bool) (mem : Z → option (list Z)) (clock : Z) (c : rcache_t) (name : elpis_name_t)
    (type klass ttl : Z) (sec : elpis_sec_t) (flags : Z) (rd sig : list (list Z)) (max_stale : Z) (pinned : bool) :=
  rcache_put alloc mem clock c name type klass ttl sec flags 0 rd sig max_stale pinned.

(** The records of a buffer are those its index arrays find. *)
Definition elpis_rcache_put_buf (alloc : Z → bool) (mem : Z → option (list Z)) (clock : Z) (c : rcache_t) (b : elpis_rrset_buf_t)
    (max_stale : Z) (pinned : bool) : res (elpis_rc_t * rcache_t * list (centry rent_t)) :=
  rd ← rrset_recs b (Z.to_nat (rs_count b)) 0;
  sg ← rrset_recs b (Z.to_nat (rs_sigcount b)) (rs_count b);
  rcache_put alloc mem clock c (rs_name b) (rs_type b) (rs_klass b) (rs_ttl b) (rs_sec b) (rs_flags b) (rs_zone_labels b)
    rd sg max_stale pinned.

(** The security status and the flags of an entry that is not past its TTL. *)
Definition elpis_rcache_state (c : rcache_t) (name : elpis_name_t) (type klass now : Z)
    : res (option (elpis_sec_t * Z) * rcache_t) :=
  k ← rkey_init name type klass;
  '(e, c) ← elpis_cache_read_begin rent_eq c (k_hash k) k;
  match e with
  | None => Ok (None, c)
  | Some e =>
    let e := e_body e in
    if u32 (now - r_stored e) <? r_ttl e then Ok (Some (r_sec e, r_flags e), c) else Ok (None, c)
  end.

Definition elpis_rcache_del (c : rcache_t) (name : elpis_name_t) (type klass : Z)
    : res (elpis_rc_t * rcache_t * list (centry rent_t)) :=
  k ← rkey_init name type klass; elpis_cache_remove rent_eq c (k_hash k) k.

(** ** Keys *)

(** What makes two entries the same: the owner up to case, type and class. *)
Abbreviation rkey := (list Z * Z * Z)%type.

Definition rent_key (e : rent_t) : rkey := (map lower_byte (slice (r_area e) 0 (r_namelen e)), r_type e, r_klass e).
Definition rkey_canon (k : rkey_t) : rkey := (map lower_byte (slice (n_d (k_name k)) 0 (n_len (k_name k))), k_type k, k_klass k).
Definition rkey_ok (k : rkey_t) : Prop := wf_name (k_name k).

(** The key of a name, as labels. *)
Definition rkey_of (ls : list (list Z)) (type klass : Z) : rkey := (map lower_byte (wire ls), type, klass).

Definition rkey_hash (q : rkey) : Z :=
  let '(w, type, klass) := q in match elpis_simd_hash_ci w (zlen w) (rkey_seed type klass) with Ok h => h | _ => 0 end.

Lemma shiftr_nonneg a n : 0 <= a → 0 <= Z.shiftr a n.
Proof. apply Z.shiftr_nonneg. Qed.

Lemma mix64_nonneg x : 0 <= elpis_mix64 x.
Proof.
  assert (∀ y, 0 <= u64 y) as Hu by (intros y; apply u64_range). unfold elpis_mix64.
  apply Z.lxor_nonneg. split; intros _; [apply shiftr_nonneg, Hu|apply Hu].
Qed.

Lemma rkey_hash_nonneg q : 0 <= rkey_hash q.
Proof.
  destruct q as [[w t] k]. unfold rkey_hash. destruct (elpis_simd_hash_ci _ _ _) as [h| |] eqn:E; try done.
  unfold elpis_simd_hash_ci, elpis_scalar_hash_ci in E. apply bind_Ok_inv in E as (h0 & _ & E).
  apply bind_Ok_inv in E as ([a b] & _ & [= <-]). apply mix64_nonneg.
Qed.

Lemma rkey_canon_of ls type klass h : rkey_canon (mkRkey (name_of ls) type klass h) = rkey_of ls type klass.
Proof. unfold rkey_canon, rkey_of. cbn [k_name k_type k_klass n_d n_len name_of]. by rewrite slice_0_all by lia. Qed.

Lemma map_lower_idem l : map lower_byte (map lower_byte l) = map lower_byte l.
Proof. rewrite map_map. apply map_ext. apply lower_byte_idem. Qed.

Lemma rkey_init_spec ls type klass : labels_ok ls →
  rkey_init (name_of ls) type klass = Ok (mkRkey (name_of ls) type klass (rkey_hash (rkey_of ls type klass))).
Proof.
  intros [Hl Hz]. unfold rkey_init, rkey_hash, rkey_of. cbn [n_d n_len name_of].
  pose proof (bytes_wire ls Hl) as Hb. pose proof (zlen_nonneg (wire ls)).
  destruct (hash_ci_congr (wire ls) (map lower_byte (wire ls)) (zlen (wire ls)) (rkey_seed type klass)) as (h & -> & E).
  - done.
  - by apply bytes_lower.
  - lia.
  - lia.
  - rewrite zlen_map. lia.
  - rewrite !slice_0_all by (rewrite ?zlen_map; lia). unfold fold_eq. by rewrite map_lower_idem.
  - by rewrite zlen_map, E.
Qed.

Lemma rkey_init_key ls type klass : labels_ok ls →
  ∃ k, rkey_init (name_of ls) type klass = Ok k ∧ rkey_ok k ∧ rkey_canon k = rkey_of ls type klass ∧
    k_hash k = rkey_hash (rkey_canon k) ∧ 0 <= rkey_hash (rkey_canon k).
Proof.
  intros Hls. eexists. split; [by apply rkey_init_spec|]. rewrite rkey_canon_of. split_and!; try done; [by exists ls|apply rkey_hash_nonneg].
Qed.

(** ** What an entry holds *)

Definition enc_rec (r : list Z) : list Z := put16_bytes (zlen r) ++ r.
Definition rec_ok (r : list Z) : Prop := bytes r ∧ zlen r < 2 ^ 16.

Record rent_holds (e : rent_t) (ls : list (list Z)) (rs sgs : list (list Z)) : Prop := {
  re_labels : labels_ok ls;
  re_namelen : r_namelen e = zlen (wire ls);
  re_bytes : bytes (r_area e);
  re_area : ∃ fill, r_area e = map lower_byte (wire ls) ++ fill ++ concat (map enc_rec (rs ++ sgs)) ∧
    zlen (wire ls) + zlen fill = rent_data e;
  re_count : r_count e = zlen rs;
  re_sigcount : r_sigcount e = zlen sgs;
  re_max : zlen rs + zlen sgs <= ELPIS_RRSET_MAX_RR;
  re_ok : Forall rec_ok (rs ++ sgs) }.

Definition rent_ok (e : rent_t) : Prop := ∃ ls rs sgs, rent_holds e ls rs sgs.

Lemma re_name e ls rs sgs : rent_holds e ls rs sgs → slice (r_area e) 0 (r_namelen e) = map lower_byte (wire ls).
Proof.
  intros Hh. destruct (re_area _ _ _ _ Hh) as (fill & -> & _). rewrite (re_namelen _ _ _ _ Hh).
  rewrite <- (zlen_map lower_byte (wire ls)). apply slice_0_app.
Qed.

Lemma rent_key_holds e ls rs sgs : rent_holds e ls rs sgs → rent_key e = rkey_of ls (r_type e) (r_klass e).
Proof. intros Hh. unfold rent_key, rkey_of. by rewrite (re_name _ _ _ _ Hh), map_lower_idem. Qed.

Lemma pad4_bound n : 0 <= n < 2 ^ 31 → n <= pad4 n <= n + 3.
Proof.
  intros Hn. unfold pad4. assert (Z.land (n + 3) (Z.lnot 3) = (n + 3) / 4 * 4) as ->.
  { change (Z.lnot 3) with (Z.lnot (Z.ones 2)). rewrite <- Z.ldiff_land. rewrite Z.ldiff_ones_r by lia.
    rewrite shiftr_div, shiftl_mul by lia. done. }
  pose proof (Z.div_mod (n + 3) 4). pose proof (Z.mod_pos_bound (n + 3) 4). rewrite u32_id by lia. lia.
Qed.

Lemma area_size e ls rs sgs : rent_holds e ls rs sgs → r_namelen e <= zlen (r_area e) ∧ 1 <= r_namelen e <= 255.
Proof.
  intros Hh. pose proof (re_namelen _ _ _ _ Hh) as Hn. destruct (re_labels _ _ _ _ Hh) as [_ Hz]. pose proof (zlen_wire_pos ls).
  destruct (re_area _ _ _ _ Hh) as (fill & -> & _). rewrite zlen_app, zlen_map. pose proof (zlen_nonneg (fill ++ concat (map enc_rec (rs ++ sgs)))). lia.
Qed.

(** The callback compares keys. *)
Lemma rent_eq_spec e k : rent_ok e → rkey_ok k → rent_eq e k = Ok (bool_decide (rent_key e = rkey_canon k)).
Proof.
  intros (ls & rs & sgs & Hh) (ls' & [Hl' Hz'] & Hn). rewrite (rent_key_holds _ _ _ _ Hh). destruct k as [n t kl h]. cbn in Hn. subst n.
  rewrite rkey_canon_of. unfold rent_eq, rkey_of. cbn [k_name k_type k_klass n_d n_len name_of].
  destruct (re_labels _ _ _ _ Hh) as [Hl Hz]. pose proof (re_namelen _ _ _ _ Hh) as Hnl.
  destruct (Z.eqb_spec (r_type e) t) as [Et|]; cbn [andb]; [|by rewrite bool_decide_eq_false_2 by congruence].
  destruct (Z.eqb_spec (r_klass e) kl) as [Ek|]; cbn [andb]; [|by rewrite bool_decide_eq_false_2 by congruence].
  destruct (Z.eqb_spec (r_namelen e) (zlen (wire ls'))) as [En|Hne].
  - destruct (area_size _ _ _ _ Hh) as (? & ?).
    rewrite eq_ci_spec by first [by eapply re_bytes|by apply bytes_wire|lia]. f_equal. apply bool_decide_ext.
    rewrite (slice_0_all (wire ls')) by lia. rewrite (re_name _ _ _ _ Hh). unfold fold_eq. rewrite map_lower_idem. split; congruence.
  - rewrite bool_decide_eq_false_2; [done|]. intros [= E _ _]. apply (f_equal zlen) in E. rewrite !zlen_map in E. lia.
Qed.

(** ** Writing the records *)

Lemma zlen_enc_rec r : zlen (enc_rec r) = 2 + zlen r.
Proof. unfold enc_rec. by rewrite zlen_app, zlen_put16. Qed.

Lemma rec_bytes_concat rs : rec_bytes rs = zlen (concat (map enc_rec rs)).
Proof.
  unfold rec_bytes. assert (∀ n, foldl (fun n r => n + (2 + zlen r)) n rs = n + zlen (concat (map enc_rec rs))) as ->; [|lia].
  induction rs as [|r rs IH]; intros n; cbn [foldl map concat]; [rewrite (@zlen_nil Z); lia|].
  rewrite IH, zlen_app, zlen_enc_rec. lia.
Qed.

Lemma put_recs_spec rs : ∀ pre rest, zlen (concat (map enc_rec rs)) <= zlen rest →
  put_recs (pre ++ rest) (zlen pre) rs =
    Ok ((pre ++ concat (map enc_rec rs)) ++ drop (length (concat (map enc_rec rs))) rest, zlen (pre ++ concat (map enc_rec rs))).
Proof.
  induction rs as [|r rs IH]; intros pre rest Hl; cbn [put_recs map concat] in *; [by rewrite app_nil_r|].
  rewrite zlen_app, zlen_enc_rec in Hl. pose proof (zlen_nonneg (concat (map enc_rec rs))). pose proof (zlen_nonneg r).
  unfold elpis_put16. rewrite blit_at by (rewrite ?zlen_put16; lia). bind_step.
  rewrite blit_at by (rewrite ?zlen_app, ?zlen_put16, ?zlen_drop; change (length (put16_bytes (zlen r))) with 2%nat; lia). bind_step.
  replace (zlen pre + 2 + zlen r) with (zlen ((pre ++ put16_bytes (zlen r)) ++ r)) by (rewrite !zlen_app, zlen_put16; lia).
  rewrite IH by (rewrite !zlen_drop; change (length (put16_bytes (zlen r))) with 2%nat; zl).
  rewrite !drop_drop, <- !app_assoc. unfold enc_rec. rewrite !length_app, <- !app_assoc. repeat f_equal.
Qed.

(** ** Reading them back *)

Definition with_counts (b : elpis_rrset_buf_t) (count sigcount : Z) : elpis_rrset_buf_t :=
  mkRrset (rs_name b) (rs_type b) (rs_klass b) (rs_ttl b) (rs_orig_ttl b) (rs_sec b) count sigcount
    (rs_flags b) (rs_zone_labels b) (rs_len b) (rs_off b) (rs_used b) (rs_data b).

Lemma rrset_put_counts b i r c s c' s' b' : rrset_put b i r c' s' = Ok b' →
  rrset_put (with_counts b c s) i r c s = Ok (with_counts b' c s).
Proof.
  unfold rrset_put. intros E. apply bind_Ok_inv in E as (off & E1 & E). apply bind_Ok_inv in E as (len & E2 & E).
  apply bind_Ok_inv in E as (data & E3 & [= <-]). cbn [with_counts rs_off rs_len rs_data rs_used].
  rewrite E1. bind_step. rewrite E2. bind_step. rewrite E3. by bind_step.
Qed.

(** The octets of records. *)
Definition total (rs : list (list Z)) : Z := zlen (concat rs).

Lemma total_cons r rs : total (r :: rs) = zlen r + total rs.
Proof. apply zlen_app. Qed.

(** The records lie end to end, as the adders put them; the index of a set that
    was trimmed does not say so. *)
Definition packed (b : elpis_rrset_buf_t) (rs sgs : list (list Z)) : Prop := slice (rs_data b) 0 (rs_used b) = concat (rs ++ sgs).

Lemma put_packed b rs r c s b' : rrset_put b (zlen rs) r c s = Ok b' → rrset_holds b rs [] → rs_used b + zlen r <= ELPIS_RRSET_BUF →
  rs_used b' = rs_used b + zlen r → packed b rs [] → packed b' (rs ++ [r]) [].
Proof.
  intros E Hh Hfit Hu Hp. pose proof (rh_used _ _ _ Hh). pose proof (rh_data _ _ _ Hh). pose proof (zlen_nonneg r). unfold rrset_put in E.
  apply bind_Ok_inv in E as (off & _ & E). apply bind_Ok_inv in E as (len & _ & E). apply bind_Ok_inv in E as (data & Ed & [= <-]).
  rewrite blit_in_range in Ed by lia. injection Ed as <-. cbn [rs_used] in Hu. unfold packed in *. cbn [rs_data rs_used].
  rewrite Hu, !app_nil_r in *. rewrite concat_app, <- Hp. cbn [concat]. rewrite app_nil_r.
  replace (slice (splice (rs_data b) (rs_used b) r) 0 (rs_used b + zlen r)) with (slice (rs_data b) 0 (rs_used b) ++ r); [done|].
  unfold slice, splice. rewrite !drop_0, app_assoc. rewrite take_app_le by (rewrite length_app, length_take; zl).
  symmetry. apply take_ge. rewrite length_app, length_take. zl.
Qed.

Lemma get_loop_spec rest c s : ∀ todo pre dn b, rrset_holds b dn [] → packed b dn [] → Forall rec_ok todo →
  zlen dn + zlen todo <= ELPIS_RRSET_MAX_RR →
  ∃ rc b', get_loop (pre ++ concat (map enc_rec todo) ++ rest) (length todo) (zlen dn) (zlen pre) (with_counts b c s)
      = Ok (rc, with_counts b' c s) ∧ rrset_sized b' ∧
    if rs_used b + total todo <=? ELPIS_RRSET_BUF then
      rc = ELPIS_OK ∧ rrset_holds b' (dn ++ todo) [] ∧ packed b' (dn ++ todo) [] ∧
        (rs_name b', rs_type b', rs_klass b', rs_ttl b', rs_orig_ttl b', rs_sec b', rs_flags b', rs_zone_labels b') =
        (rs_name b, rs_type b, rs_klass b, rs_ttl b, rs_orig_ttl b, rs_sec b, rs_flags b, rs_zone_labels b)
    else rc = ELPIS_ETRUNC.
Proof.
  induction todo as [|r todo IH]; intros pre dn b Hh Hpk Hok Hmax; cbn [length get_loop map concat].
  { exists ELPIS_OK, b. split; [done|]. split; [by eapply rrset_holds_sized|]. pose proof (rh_used _ _ _ Hh).
    unfold total. cbn [concat]. rewrite (@zlen_nil Z). destruct (Z.leb_spec (rs_used b + 0) ELPIS_RRSET_BUF); [|lia]. by rewrite app_nil_r. }
  apply Forall_cons_1 in Hok as [[Hb Hr] Hok]. rewrite zlen_cons in Hmax. pose proof (zlen_nonneg r). pose proof (zlen_nonneg todo).
  pose proof (rh_used _ _ _ Hh) as Hu. set (C := concat (map enc_rec todo)) in *. set (buf := pre ++ (enc_rec r ++ C) ++ rest).
  assert (buf = pre ++ put16_bytes (zlen r) ++ r ++ C ++ rest) as E1 by (unfold buf, enc_rec; by rewrite <- !app_assoc).
  assert (elpis_get16 buf (zlen pre) = Ok (zlen r)) as -> by (rewrite E1; apply get16_put16; lia). bind_step.
  change (rs_used (with_counts b c s)) with (rs_used b). change (rs_count (with_counts b c s)) with c. change (rs_sigcount (with_counts b c s)) with s.
  rewrite u32_id by (unfold ELPIS_RRSET_BUF in *; lia). rewrite total_cons. pose proof (zlen_nonneg (concat todo)) as Ht. fold (total todo) in Ht.
  destruct (Z.ltb_spec ELPIS_RRSET_BUF (rs_used b + zlen r)) as [Hbig|Hfit].
  { exists ELPIS_ETRUNC, b. split; [done|]. split; [by eapply rrset_holds_sized|].
    by destruct (Z.leb_spec (rs_used b + (zlen r + total todo)) ELPIS_RRSET_BUF); [lia|]. }
  assert (zlen (pre ++ put16_bytes (zlen r)) = zlen pre + 2) as Ep by (by rewrite zlen_app, zlen_put16).
  assert (rds buf (zlen pre + 2) (zlen r) = Ok r) as -> by (rewrite E1, app_assoc, <- Ep; apply rds_at_end). bind_step.
  destruct (rrset_put_spec b dn [] r (dn ++ [r]) [] (zlen (dn ++ [r])) 0 Hh Hb Hfit) as (b1 & Eb & Hh1 & Hu1 & En & Et & Ek & Ef); try done.
  { rewrite (@zlen_nil (list Z)). lia. }
  { by rewrite !app_nil_r. }
  rewrite (@zlen_nil (list Z)), Z.add_0_r in Eb. rewrite (rrset_put_counts _ _ _ _ _ _ _ _ Eb). bind_step.
  assert ((rs_ttl b1, rs_orig_ttl b1, rs_sec b1, rs_zone_labels b1) = (rs_ttl b, rs_orig_ttl b, rs_sec b, rs_zone_labels b)) as Ers.
  { unfold rrset_put in Eb. apply bind_Ok_inv in Eb as (off & _ & Eb). apply bind_Ok_inv in Eb as (len & _ & Eb).
    by apply bind_Ok_inv in Eb as (data & _ & [= <-]). }
  destruct (IH ((pre ++ put16_bytes (zlen r)) ++ r) (dn ++ [r]) b1 Hh1 (put_packed _ _ _ _ _ _ Eb Hh Hfit Hu1 Hpk) Hok) as (rc & b' & E & Hsz & Hcase).
  { rewrite zlen_app, zlen_cons, (@zlen_nil (list Z)). lia. }
  rewrite (zlen_app _ r), Ep, (zlen_app dn), zlen_cons, (@zlen_nil (list Z)), Z.add_0_r in E.
  assert (buf = ((pre ++ put16_bytes (zlen r)) ++ r) ++ C ++ rest) as E2 by (rewrite E1; by rewrite <- !app_assoc).
  exists rc, b'. rewrite E2. split; [exact E|]. split; [done|]. rewrite Hu1, <- Z.add_assoc in Hcase.
  destruct (Z.leb_spec (rs_used b + (zlen r + total todo)) ELPIS_RRSET_BUF); [|done].
  destruct Hcase as (-> & Hh' & Hp' & Efs). rewrite <- app_assoc in Hh', Hp'. split; [done|]. split; [done|]. split; [done|]. rewrite Efs. congruence.
Qed.

(** ** Look-ups *)

Abbreviation rcache_ok := (cache_ok rent_key rkey_hash rent_ok).
Abbreviation rcache_map := (cache_map rent_key).

(** Too old, even to be served stale. *)
Definition too_old (e : rent_t) (now serve_stale : Z) : bool :=
  let elapsed := u32 (now - r_stored e) in (r_ttl e <? elapsed) && (u32 (r_ttl e + serve_stale) <? elapsed).

(** The fields of a buffer, apart from its records. *)
Definition rrset_meta (b : elpis_rrset_buf_t) := (rs_name b, rs_type b, rs_klass b, rs_ttl b, rs_orig_ttl b, rs_sec b, rs_flags b, rs_zone_labels b).

(** What a look-up of an entry gives. *)
Definition served (e : rent_t) (name : elpis_name_t) (now serve_stale : Z) (out : elpis_rrset_buf_t) (rs sgs : list (list Z))
    (rc : elpis_rc_t) (out' : elpis_rrset_buf_t) : Prop :=
  if too_old e now serve_stale then rc = ELPIS_ENOTFOUND ∧ out' = out
  else if total (rs ++ sgs) <=? ELPIS_RRSET_BUF then
    rc = ELPIS_OK ∧ rrset_holds out' rs sgs ∧
    rrset_meta out' = (name, r_type e, r_klass e, Z.max 0 (r_ttl e - u32 (now - r_stored e)), r_ttl e, r_sec e, r_flags e, r_zone_labels e)
  else rc = ELPIS_ETRUNC.

Lemma with_counts_holds b rs sgs : rrset_holds b (rs ++ sgs) [] → rrset_holds (with_counts b (zlen rs) (zlen sgs)) rs sgs.
Proof.
  intros [Hl Ho Hd Hu Hc Hs Hm Hb Hr]. rewrite app_nil_r in *. rewrite zlen_app, (@zlen_nil (list Z)) in Hm. split; try done. lia.
Qed.

Lemma get_loop_entry e ls rs sgs out name elapsed : rent_holds e ls rs sgs → rrset_sized out →
  ∃ rc out', get_loop (r_area e) (Z.to_nat (r_count e + r_sigcount e)) 0 (rent_data e) (get_header out name e elapsed) = Ok (rc, out') ∧ rrset_sized out' ∧
    if total (rs ++ sgs) <=? ELPIS_RRSET_BUF then
      rc = ELPIS_OK ∧ rrset_holds out' rs sgs ∧ packed out' rs sgs ∧ rrset_meta out' = rrset_meta (get_header out name e elapsed)
    else rc = ELPIS_ETRUNC.
Proof.
  intros Hh (Hs1 & Hs2 & Hs3). destruct (re_area _ _ _ _ Hh) as (fill & Ea & Ep). rewrite Ea, app_assoc, <- Ep.
  rewrite (re_count _ _ _ _ Hh), (re_sigcount _ _ _ _ Hh). pose proof (re_max _ _ _ _ Hh).
  replace (Z.to_nat (zlen rs + zlen sgs)) with (length (rs ++ sgs)) by (rewrite length_app; zl).
  replace (zlen (wire ls) + zlen fill) with (zlen (map lower_byte (wire ls) ++ fill)) by (by rewrite zlen_app, zlen_map).
  set (b := with_counts (get_header out name e elapsed) 0 0).
  assert (rrset_holds b [] []) as Hb by (split; cbn; rewrite ?(@zlen_nil (list Z)); unfold ELPIS_RRSET_MAX_RR, ELPIS_RRSET_BUF in *; done || lia).
  destruct (get_loop_spec [] (zlen rs) (zlen sgs) (rs ++ sgs) (map lower_byte (wire ls) ++ fill) [] b Hb eq_refl (re_ok _ _ _ _ Hh)) as (rc & b' & E & Hsz & Hcase).
  { rewrite zlen_app, (@zlen_nil (list Z)). lia. }
  rewrite app_nil_r in E. assert (with_counts b (zlen rs) (zlen sgs) = get_header out name e elapsed) as Eb.
  { unfold b, get_header, with_counts. cbn. by rewrite (re_count _ _ _ _ Hh), (re_sigcount _ _ _ _ Hh). }
  rewrite Eb in E. exists rc, (with_counts b' (zlen rs) (zlen sgs)). split; [exact E|]. split; [exact Hsz|].
  change (rs_used b) with 0 in Hcase. rewrite Z.add_0_l in Hcase. destruct (Z.leb_spec (total (rs ++ sgs)) ELPIS_RRSET_BUF); [|done].
  destruct Hcase as (-> & Hh' & Hp' & Em). split; [done|]. split; [by apply with_counts_holds|]. split; [|exact Em].
  unfold packed in *. cbn [app] in Hp'. by rewrite app_nil_r in Hp'.
Qed.

Lemma rcache_get_spec c ls type klass now serve_stale out : rcache_ok c → labels_ok ls → rrset_sized out →
  ∃ rc out' c', elpis_rcache_get c (name_of ls) type klass now serve_stale out = Ok (rc, out', c') ∧ rcache_ok c' ∧
    rcache_map c' = rcache_map c ∧ rrset_sized out' ∧
    (rc = ELPIS_OK → ∃ e, rcache_map c !! rkey_of ls type klass = Some e ∧ ∀ ls' rs sgs, rent_holds (e_body e) ls' rs sgs → packed out' rs sgs) ∧
    match rcache_map c !! rkey_of ls type klass with
    | None => rc = ELPIS_ENOTFOUND ∧ out' = out
    | Some e => ∀ ls' rs sgs, rent_holds (e_body e) ls' rs sgs → served (e_body e) (name_of ls) now serve_stale out rs sgs rc out'
    end.
Proof.
  intros Hc Hls Hout. unfold elpis_rcache_get. destruct (rkey_init_key ls type klass Hls) as (k & -> & Hk & Eq & Eh & Hn). bind_ok.
  rewrite Eh, <- Eq. destruct (cache_read_spec rent_eq rent_key rkey_canon rkey_hash rent_ok rkey_ok rent_eq_spec c k Hc Hk Hn)
    as (r & c' & -> & Hc' & Hm & Hr). bind_ok.
  destruct r as [e|]; cbn in Hr; [|rewrite <- Hr; by exists ELPIS_ENOTFOUND, out, c'].
  symmetry in Hr. rewrite Hr. destruct (cache_map_ok _ _ _ _ _ _ Hc Hr) as [(_ & _ & _ & ls' & rs & sgs & Hh) _].
  change (e_body (strip e)) with (e_body e) in *. unfold served, too_old. cbv zeta.
  set (elapsed := u32 (now - r_stored (e_body e))).
  destruct ((r_ttl (e_body e) <? elapsed) && (u32 (r_ttl (e_body e) + serve_stale) <? elapsed)) eqn:Eold.
  { by exists ELPIS_ENOTFOUND, out, c'. }
  destruct (get_loop_entry (e_body e) ls' rs sgs out (name_of ls) elapsed Hh Hout) as (rc & out' & E & Hsz & _). rewrite E. bind_ok.
  exists rc, out', c'. clear ls' rs sgs Hh. assert (∀ ls' rs sgs, rent_holds (e_body e) ls' rs sgs → if total (rs ++ sgs) <=? ELPIS_RRSET_BUF then
    rc = ELPIS_OK ∧ rrset_holds out' rs sgs ∧ packed out' rs sgs ∧ rrset_meta out' = rrset_meta (get_header out (name_of ls) (e_body e) elapsed)
    else rc = ELPIS_ETRUNC) as Hall.
  { intros ls' rs sgs Hh. destruct (get_loop_entry (e_body e) ls' rs sgs out (name_of ls) elapsed Hh Hout) as (rc2 & out2 & E2 & _ & Hcase).
    rewrite E in E2. by injection E2 as <- <-. }
  split_and!; try done.
  { intros ->. exists (strip e). split; [done|]. intros ls' rs sgs Hh. specialize (Hall ls' rs sgs Hh).
    destruct (total (rs ++ sgs) <=? ELPIS_RRSET_BUF); [by destruct Hall as (_ & _ & ? & _)|done]. }
  intros ls' rs sgs Hh. specialize (Hall ls' rs sgs Hh). destruct (total (rs ++ sgs) <=? ELPIS_RRSET_BUF); [|done].
  destruct Hall as (-> & Hh' & _ & Emeta). split; [done|]. split; [done|].
  rewrite Emeta. unfold rrset_meta, get_header. cbn. do 5 f_equal. destruct (Z.leb_spec (r_ttl (e_body e)) elapsed); lia.
Qed.

(** ** Storing *)

(** elpis_malloc gives an object of the size asked for. *)
Definition mem_ok (mem : Z → option (list Z)) : Prop := ∀ sz a, mem sz = Some a → zlen a = sz - RENT_SIZE ∧ bytes a.

Lemma bytes_enc_recs rs : Forall rec_ok rs → bytes (concat (map enc_rec rs)).
Proof.
  induction 1 as [|r rs [Hb _] _ IH]; cbn [map concat]; [constructor|]. apply Forall_app. split; [|done].
  apply Forall_app. split; [apply bytes_put16|done].
Qed.

(** The area of a new entry, as the code fills it. *)
Lemma fill_area area ls rs sgs : labels_ok ls → bytes area →
  zlen area = pad4 (zlen (wire ls)) + zlen (concat (map enc_rec (rs ++ sgs))) →
  ∃ a1 a2 a3 a4 p q fill,
    rds (wire ls) 0 (zlen (wire ls)) = Ok (wire ls) ∧ blit area 0 (wire ls) = Ok a1 ∧
    elpis_scalar_lower a1 a1 (zlen (wire ls)) = Ok a2 ∧ put_recs a2 (pad4 (zlen (wire ls))) rs = Ok (a3, p) ∧
    put_recs a3 p sgs = Ok (a4, q) ∧ a4 = map lower_byte (wire ls) ++ fill ++ concat (map enc_rec (rs ++ sgs)) ∧
    zlen (wire ls) + zlen fill = pad4 (zlen (wire ls)) ∧ bytes fill.
Proof.
  intros [Hl Hz] Hb Hlen. pose proof (zlen_wire_pos ls). pose proof (pad4_bound (zlen (wire ls))) as Hp. set (n := zlen (wire ls)) in *.
  rewrite map_app, concat_app, zlen_app in Hlen. set (R := concat (map enc_rec rs)) in *. set (G := concat (map enc_rec sgs)) in *.
  pose proof (zlen_nonneg R). pose proof (zlen_nonneg G).
  set (rest := drop (length (wire ls)) area). assert (zlen rest = zlen area - n) as Hrest by (unfold rest; rewrite zlen_drop; fold n; zl).
  set (fill := take (Z.to_nat (pad4 n - n)) rest). set (rest' := drop (Z.to_nat (pad4 n - n)) rest).
  assert (zlen fill = pad4 n - n) as Hfill by (unfold fill; rewrite zlen_take; lia).
  assert (zlen rest' = zlen R + zlen G) as Hr' by (unfold rest'; rewrite zlen_drop; lia).
  set (pre := map lower_byte (wire ls) ++ fill). assert (zlen pre = pad4 n) as Hpre by (unfold pre; rewrite zlen_app, zlen_map; lia).
  exists (wire ls ++ rest), (pre ++ rest'), ((pre ++ R) ++ drop (length R) rest'), (((pre ++ R) ++ G) ++ drop (length G) (drop (length R) rest')),
    (zlen (pre ++ R)), (zlen ((pre ++ R) ++ G)), fill. split_and!.
  - apply rds_full. done.
  - rewrite <- (app_nil_l area) at 1. rewrite blit_at by (rewrite ?(@zlen_nil Z); lia). done.
  - change elpis_scalar_lower with elpis_lower_pad16. rewrite lower_pad16_spec.
    + unfold n. rewrite slice_0_app. f_equal. unfold pre, rest', fill. rewrite <- app_assoc, take_drop. f_equal.
      rewrite drop_app_length'; [done|zl].
    + apply Forall_app. split; [by apply bytes_wire|by apply Forall_drop].
    + lia.
    + rewrite zlen_app. lia.
    + rewrite zlen_app. lia.
  - rewrite <- Hpre. apply put_recs_spec. fold R. lia.
  - apply put_recs_spec. fold G. rewrite zlen_drop. zl.
  - rewrite (drop_ge (drop _ _)) by (rewrite length_drop; zl). rewrite map_app, concat_app. fold R G. unfold pre. by rewrite app_nil_r, <- !app_assoc.
  - lia.
  - by apply Forall_take, Forall_drop.
Qed.

(** What a call keeps of the records it is given. *)
Definition kept_rd (rd : list (list Z)) : list (list Z) := take (Z.to_nat ELPIS_RRSET_MAX_RR) rd.
Definition kept_sig (rd sig : list (list Z)) : list (list Z) := take (Z.to_nat (ELPIS_RRSET_MAX_RR - zlen (kept_rd rd))) sig.

(** A call stores nothing, or inserts the entry it is to. *)
Lemma rcache_put_spec alloc mem clock c ls type klass ttl sec flags zl rd sig max_stale pinned :
  mem_ok mem → labels_ok ls → Forall rec_ok (rd ++ sig) → 
  let put := rcache_put alloc mem clock c (name_of ls) type klass ttl sec flags zl rd sig max_stale pinned in
  let rs := kept_rd rd in let sgs := kept_sig rd sig in
  (∃ rc, put = Ok (rc, c, []) ∧ (rc = ELPIS_OK → ttl = 0 ∧ pinned = false)) ∨
  ∃ e k, put = elpis_cache_insert rent_eq alloc c e k clock ∧
    entry_ok rent_key rkey_hash rent_ok e ∧ rkey_ok k ∧ e_key rent_key e = rkey_canon k ∧ rkey_canon k = rkey_of ls type klass ∧
    rent_holds (e_body e) ls rs sgs ∧ r_type (e_body e) = type ∧ r_klass (e_body e) = klass ∧ r_sec (e_body e) = sec ∧
    r_flags (e_body e) = flags ∧ r_zone_labels (e_body e) = zl ∧ r_stored (e_body e) = clock ∧ r_ttl (e_body e) = ttl ∧
    hdr_of e = mkHdr (rkey_hash (rkey_of ls type klass)) (if pinned then 0 else u32 (clock + ttl + max_stale)) (h_size (hdr_of e)) 1 (Z.b2z pinned).
Proof.
  intros Hmem Hls Hok put rs sgs. unfold put, rcache_put. fold (kept_rd rd). fold (kept_sig rd sig). fold rs sgs.
  assert (zlen rs + zlen sgs <= ELPIS_RRSET_MAX_RR) as Hmax.
  { unfold sgs, kept_sig, rs, kept_rd. rewrite !zlen_take. pose proof (zlen_nonneg rd). unfold ELPIS_RRSET_MAX_RR in *. lia. }
  assert (Forall rec_ok (rs ++ sgs)) as Hrok.
  { apply Forall_app in Hok as [Hrd Hsig]. apply Forall_app. split; by apply Forall_take. }
  destruct ((zlen rs =? 0) && (zlen sgs =? 0)); [left; exists ELPIS_ERR; split; [reflexivity|intros [=]]|].
  destruct ((ttl =? 0) && negb pinned) eqn:Ettl.
  { left. exists ELPIS_OK. split; [done|]. intros _. apply andb_true_iff in Ettl as [?%Z.eqb_eq ?%negb_true_iff]. done. }
  rewrite rec_bytes_concat. set (R := concat (map enc_rec (rs ++ sgs))). destruct (Z.ltb_spec (512 * 1024) (zlen R)) as [|Hsz]; [left; exists ELPIS_ERR; split; [reflexivity|intros [=]]|].
  cbn [n_len n_d name_of]. destruct (mem _) as [area|] eqn:Em; [|left; exists ELPIS_ENOMEM; by split; [|intros [=]]]. right.
  apply Hmem in Em as [Hlen Hb]. destruct (rkey_init_key ls type klass Hls) as (k & -> & Hk & Eq & Eh & Hn). bind_ok.
  destruct (fill_area area ls rs sgs Hls Hb) as (a1 & a2 & a3 & a4 & p & q & fill & -> & E1 & E2 & E3 & E4 & -> & Hfill & Hbf).
  { fold R. unfold RENT_SIZE in *. lia. }
  fold R. bind_ok. rewrite E1. bind_ok. rewrite E2. bind_ok. rewrite E3. bind_ok. rewrite E4. bind_ok. fold R.
  destruct Hls as [Hl Hz]. pose proof (zlen_wire_pos ls). pose proof (pad4_bound (zlen (wire ls))). pose proof (zlen_nonneg R).
  pose proof (zlen_nonneg rs). pose proof (zlen_nonneg sgs).
  eexists _, k. split; [reflexivity|]. cbn [hdr_of e_body r_type r_klass r_sec r_flags r_zone_labels r_stored r_ttl h_size].
  set (e := mkRent _ _ _ _ _ _ _ _ _ _ _ _). assert (rent_holds e ls rs sgs) as Hh.
  { split; cbn [e r_namelen r_area r_count r_sigcount]; try done.
    - apply Forall_app. split; [by apply bytes_lower, bytes_wire|]. apply Forall_app. split; [done|by apply bytes_enc_recs].
    - by exists fill.
    - rewrite u8_id; [done|]. unfold byte, ELPIS_RRSET_MAX_RR in *. lia.
    - rewrite u8_id; [done|]. unfold byte, ELPIS_RRSET_MAX_RR in *. lia. }
  assert (rent_key e = rkey_canon k) as Ekey by (rewrite (rent_key_holds _ _ _ _ Hh), Eq; done).
  split_and!; try done; [|by rewrite <- Eq, <- Eh].
  split; [|split; [|split; [|by exists ls, rs, sgs]]].
  - unfold e_hash, e_key. cbn [hdr_of e_body h_hash]. by rewrite Ekey.
  - unfold e_hash. cbn [hdr_of h_hash]. by rewrite Eh.
  - cbn [hdr_of h_size]. unfold RENT_SIZE in *. rewrite u32_id by lia. lia.
Qed.

Lemma rkey_of_eq a b type klass : labels_ok a → labels_ok b → labels_eq a b → rkey_of a type klass = rkey_of b type klass.
Proof. intros [Ha _] [Hb _] E. unfold rkey_of. do 2 f_equal. by apply labels_eq_wire. Qed.

Lemma rrset_recs_list b l : ∀ i, (∀ (j : nat) r, l !! j = Some r → elpis_rrset_rd b (i + Z.of_nat j) = Ok r) →
  rrset_recs b (length l) i = Ok l.
Proof.
  induction l as [|r l IH]; intros i Hl; cbn [length rrset_recs]; [done|].
  pose proof (Hl 0%nat r eq_refl) as E. rewrite Z.add_0_r in E. rewrite E. bind_step. rewrite IH; [by bind_step|].
  intros j x Hj. rewrite <- (Hl (S j) x Hj). f_equal. lia.
Qed.

Lemma put_buf_recs b rd sg : rrset_holds b rd sg →
  rrset_recs b (Z.to_nat (rs_count b)) 0 = Ok rd ∧ rrset_recs b (Z.to_nat (rs_sigcount b)) (rs_count b) = Ok sg.
Proof.
  intros Hh. rewrite (rh_count _ _ _ Hh) at 1. rewrite (rh_sigcount _ _ _ Hh). split.
  - replace (Z.to_nat (zlen rd)) with (length rd) by zl. apply rrset_recs_list. intros j r Hj. rewrite Z.add_0_l. by apply (rrset_data_rd _ _ _ _ _ Hh).
  - replace (Z.to_nat (zlen sg)) with (length sg) by zl. apply rrset_recs_list. intros j r Hj. by apply (rrset_sig_rd _ _ _ _ _ Hh).
Qed.

(** The security status of an entry is given only while it is live. *)
Lemma rcache_state_spec c ls type klass now : rcache_ok c → labels_ok ls →
  ∃ r c', elpis_rcache_state c (name_of ls) type klass now = Ok (r, c') ∧ rcache_ok c' ∧ rcache_map c' = rcache_map c ∧
    r = match rcache_map c !! rkey_of ls type klass with
        | Some e => if u32 (now - r_stored (e_body e)) <? r_ttl (e_body e) then Some (r_sec (e_body e), r_flags (e_body e)) else None
        | None => None
        end.
Proof.
  intros Hc Hls. unfold elpis_rcache_state. destruct (rkey_init_key ls type klass Hls) as (k & -> & Hk & Eq & Eh & Hn). bind_ok.
  rewrite Eh, <- Eq. destruct (cache_read_spec rent_eq rent_key rkey_canon rkey_hash rent_ok rkey_ok rent_eq_spec c k Hc Hk Hn)
    as (r & c' & -> & Hc' & Hm & Hr). bind_ok. rewrite <- Hr. destruct r as [e|]; cbn; [|by exists None, c'].
  destruct (_ <? _); by eexists _, c'.
Qed.

Lemma rcache_del_spec c ls type klass : rcache_ok c → labels_ok ls →
  ∃ rc c' f, elpis_rcache_del c (name_of ls) type klass = Ok (rc, c', f) ∧ rcache_ok c' ∧
    rcache_map c' = delete (rkey_of ls type klass) (rcache_map c).
Proof.
  intros Hc Hls. unfold elpis_rcache_del. destruct (rkey_init_key ls type klass Hls) as (k & -> & Hk & Eq & Eh & Hn). bind_ok.
  rewrite Eh, <- Eq. destruct (cache_remove_spec rent_eq rent_key rkey_canon rkey_hash rent_ok rkey_ok rent_eq_spec c k Hc Hk Hn)
    as (rc & c' & f & E & Hc' & Hm & _). by exists rc, c', f.
Qed.

(** C25. An RRset stored is the RRset found: what elpis_rcache_put_buf accepts
    is found under its owner in any letter case, type and class, with the same
    records and signatures in the same order, its security status, flags and
    zone, and the TTL less the seconds since; past the TTL it is found with
    TTL 0 while stale answers are allowed and then no more; an RRset over the
    size of a buffer is reported as truncated. *)
Theorem rcache_store_fetch alloc mem clock c b ls rd sg max_stale pinned :
  (∀ cap, alloc cap = true → cap <= 2 ^ 30) → mem_ok mem → rcache_ok c →
  labels_ok ls → rs_name b = name_of ls → rrset_holds b rd sg → (0 < rs_ttl b ∨ pinned = true) →
  ∃ rc c' f, elpis_rcache_put_buf alloc mem clock c b max_stale pinned = Ok (rc, c', f) ∧ rcache_ok c' ∧
    (rc = ELPIS_OK → ∀ ls' now serve_stale out, labels_ok ls' → labels_eq ls' ls → rrset_sized out →
      ∃ rc' out' c'', elpis_rcache_get c' (name_of ls') (rs_type b) (rs_klass b) now serve_stale out = Ok (rc', out', c'') ∧ rcache_ok c'' ∧
        let elapsed := u32 (now - clock) in
        if (rs_ttl b <? elapsed) && (u32 (rs_ttl b + serve_stale) <? elapsed) then rc' = ELPIS_ENOTFOUND ∧ out' = out
        else if total (rd ++ sg) <=? ELPIS_RRSET_BUF then
          rc' = ELPIS_OK ∧ rrset_holds out' rd sg ∧
          rrset_meta out' = (name_of ls', rs_type b, rs_klass b, Z.max 0 (rs_ttl b - elapsed), rs_ttl b, rs_sec b, rs_flags b, rs_zone_labels b)
        else rc' = ELPIS_ETRUNC).
Proof.
  intros Ha Hmem Hc Hls Hname Hb Hlive. unfold elpis_rcache_put_buf. destruct (put_buf_recs _ _ _ Hb) as [-> ->]. do 2 bind_ok. rewrite Hname.
  assert (Forall rec_ok (rd ++ sg)) as Hok.
  { apply Forall_forall. intros r Hr. destruct (rrset_rec_size _ _ _ r Hb) as [Hbr Hz]; [exact Hr|].
    split; [done|]. unfold ELPIS_RRSET_BUF in *. lia. }
  pose proof (rh_max _ _ _ Hb) as Hmax. pose proof (zlen_nonneg rd). pose proof (zlen_nonneg sg).
  assert (kept_rd rd = rd) as Erd by (apply take_ge; zl). assert (kept_sig rd sg = sg) as Esg by (unfold kept_sig; rewrite Erd; apply take_ge; zl).
  destruct (rcache_put_spec alloc mem clock c ls (rs_type b) (rs_klass b) (rs_ttl b) (rs_sec b) (rs_flags b) (rs_zone_labels b) rd sg max_stale pinned Hmem Hls Hok)
    as [(rc & E & Hrc)|(e & k & E & He & Hk & Eke & Eq & Hh & Et & Ekl & Es & Ef & Ez & Est & Ettl & _)].
  { exists rc, c, []. split; [exact E|]. split; [done|]. intros Hrok. destruct (Hrc Hrok) as [Hz Hp]. destruct Hlive; [lia|congruence]. }
  rewrite Erd, Esg in Hh. rewrite E.
  destruct (cache_insert_spec rent_eq rent_key rkey_canon rkey_hash rent_ok rkey_ok rent_eq_spec alloc c e k clock Hc Ha He Hk Eke)
    as (rc & c' & f & -> & Hc' & Hcase). exists rc, c', f. split; [done|]. split; [done|]. intros -> ls' now serve_stale out Hls' Heq Hout.
  destruct (rcache_get_spec c' ls' (rs_type b) (rs_klass b) now serve_stale out Hc' Hls' Hout) as (rc' & out' & c'' & Eg & Hc'' & _ & _ & _ & Hg).
  exists rc', out', c''. split; [exact Eg|]. split; [done|].
  assert (rcache_map c' !! rkey_canon k = Some (strip e)) as Em.
  { destruct (rcache_map c !! rkey_canon k) as [old|]; [destruct Hcase as (_ & -> & _); apply lookup_insert_eq|].
    destruct Hcase as (g & _ & _ & [(_ & _ & ->)|([=] & _)]). apply lookup_insert_eq. }
  rewrite (rkey_of_eq ls' ls) in Hg by done. rewrite <- Eq, Em in Hg. specialize (Hg ls rd sg Hh).
  change (e_body (strip e)) with (e_body e) in Hg. unfold served, too_old in Hg. rewrite Est, Ettl, Et, Ekl, Es, Ef, Ez in Hg. exact Hg.
Qed.

Module Stored.
(** "A.b", an address and a signature over it, in an empty cache. *)
Definition ls : list (list Z) := [[65]; [98]].
Definition ls' : list (list Z) := [[97]; [98]].
Definition rd : list (list Z) := [[192; 0; 2; 1]].
Definition sg : list (list Z) := [[0; 1; 8; 2]].
Definition buf : elpis_rrset_buf_t := rrset_of (name_of ls) 1 1 300 0 rd sg.
Definition out : elpis_rrset_buf_t := rrset_of (name_of []) 0 0 0 0 [] [].
Definition alloc (cap : Z) : bool := cap <=? 2 ^ 30.
Definition mem (sz : Z) : option (list Z) := if sz <? RENT_SIZE then None else Some (replicate (Z.to_nat (sz - RENT_SIZE)) 170).
Definition c0 : rcache_t := mkCache 1 [fresh_shard 65536] 65536.

Lemma tables_fit cap : alloc cap = true → cap <= 2 ^ 30.
Proof. apply Z.leb_le. Qed.

Lemma mem_spec : mem_ok mem.
Proof.
  intros sz a. unfold mem. destruct (Z.ltb_spec sz RENT_SIZE); [done|]. intros [= <-]. rewrite zlen_replicate. split; [lia|].
  by apply Forall_replicate.
Qed.

Lemma c0_ok : rcache_ok c0.
Proof. by apply (cache_new_spec rent_key rkey_hash rent_ok 65536 1). Qed.

Lemma ls_ok : labels_ok ls.
Proof. by_compute. Qed.
Lemma ls'_ok : labels_ok ls'.
Proof. by_compute. Qed.

Definition put := elpis_rcache_put_buf alloc mem 100 c0 buf 3600 false.
Definition rc_of (r : res (elpis_rc_t * rcache_t * list (centry rent_t))) : option elpis_rc_t :=
  match r with Ok (rc, _, _) => Some rc | _ => None end.
End Stored.

(** Stored at second 100 with a TTL of 300, found at second 150. *)
Lemma rcache_store_fetch_witness :
  ∃ c' f out' c'', Stored.put = Ok (ELPIS_OK, c', f) ∧
    elpis_rcache_get c' (name_of Stored.ls') 1 1 150 0 Stored.out = Ok (ELPIS_OK, out', c'') ∧
    rrset_holds out' Stored.rd Stored.sg ∧ rs_ttl out' = 250.
Proof.
  destruct (rcache_store_fetch Stored.alloc Stored.mem 100 Stored.c0 Stored.buf Stored.ls Stored.rd Stored.sg 3600 false
    Stored.tables_fit Stored.mem_spec Stored.c0_ok Stored.ls_ok eq_refl) as (rc & c' & f & E & _ & Hget).
  - apply rrset_of_holds. by_compute.
  - by left.
  - assert (Stored.rc_of Stored.put = Some ELPIS_OK) as Ev by (by vm_compute).
    unfold Stored.put in Ev. rewrite E in Ev. injection Ev as ->.
    destruct (Hget eq_refl Stored.ls' 150 0 Stored.out Stored.ls'_ok) as (rc' & out' & c'' & Eg & _ & Hcase).
    + by_compute.
    + by_compute.
    + cbn zeta in Hcase. destruct Hcase as (-> & Hh & Em).
      exists c', f, out', c''. split; [exact E|]. split; [exact Eg|]. split; [exact Hh|].
      unfold rrset_meta in Em. by injection Em.
Defined.
