(* ===== verification/Cookie.v ===== *)
(** DNS cookies: src/dns/cookie.c, SipHash-2-4 and the server cookies of
    RFC 9018.

    The module's globals are a record; the random octets drawn and the wall
    clock are arguments.  Each lock is held for one copy, which is one step. *)
From stdpp Require Import base list numbers.
From Stdlib Require Import ZArith Lia.
From S2P Require Import Prelude Bytes Simd Name Ecs Text Addr.

(** ** SipHash-2-4 *)

Record sip_t := mkSip { v0 : Z; v1 : Z; v2 : Z; v3 : Z }.

Definition SIPROUND (s : sip_t) : sip_t :=
  let '(mkSip v0 v1 v2 v3) := s in
  let v0 := u64 (v0 + v1) in let v1 := elpis_rotl64 v1 13 in let v1 := Z.lxor v1 v0 in let v0 := elpis_rotl64 v0 32 in
  let v2 := u64 (v2 + v3) in let v3 := elpis_rotl64 v3 16 in let v3 := Z.lxor v3 v2 in
  let v0 := u64 (v0 + v3) in let v3 := elpis_rotl64 v3 21 in let v3 := Z.lxor v3 v0 in
  let v2 := u64 (v2 + v1) in let v1 := elpis_rotl64 v1 17 in let v1 := Z.lxor v1 v2 in let v2 := elpis_rotl64 v2 32 in
  mkSip v0 v1 v2 v3.

(** Octets [o] to [o + 7], least significant first. *)
Definition le64 (p : list Z) (o : Z) : res Z :=
  p0 ← rd p o; p1 ← rd p (o + 1); p2 ← rd p (o + 2); p3 ← rd p (o + 3);
  p4 ← rd p (o + 4); p5 ← rd p (o + 5); p6 ← rd p (o + 6); p7 ← rd p (o + 7);
  Ok (Z.lor (Z.lor (Z.lor (Z.lor (Z.lor (Z.lor (Z.lor p0 (Z.shiftl p1 8)) (Z.shiftl p2 16)) (Z.shiftl p3 24))
        (Z.shiftl p4 32)) (Z.shiftl p5 40)) (Z.shiftl p6 48)) (Z.shiftl p7 56)).

(** [v3 ^= mi; SIPROUND; SIPROUND; v0 ^= mi] *)
Definition sip_compress (s : sip_t) (mi : Z) : sip_t :=
  let s := mkSip (v0 s) (v1 s) (v2 s) (Z.lxor (v3 s) mi) in
  let s := SIPROUND (SIPROUND s) in
  mkSip (Z.lxor (v0 s) mi) (v1 s) (v2 s) (v3 s).

(** The whole words, [k] of them from [o] on. *)
Fixpoint sip_loop (m : list Z) (k : nat) (o : Z) (s : sip_t) : res sip_t :=
  match k with
  | O => Ok s
  | S k => mi ← le64 m o; sip_loop m k (o + 8) (sip_compress s mi)
  end.

(** [case k: b |= (uint64_t)m[k - 1] << 8 * (k - 1)], falling through to case 0. *)
Fixpoint sip_tail (m : list Z) (o : Z) (k : nat) (b : Z) : res Z :=
  match k with
  | O => Ok b
  | S k => c ← rd m (o + Z.of_nat k); sip_tail m o k (Z.lor b (Z.shiftl c (8 * Z.of_nat k)))
  end.

Definition sip_init (k0 k1 : Z) : sip_t :=
  mkSip (Z.lxor 0x736f6d6570736575 k0) (Z.lxor 0x646f72616e646f6d k1) (Z.lxor 0x6c7967656e657261 k0) (Z.lxor 0x7465646279746573 k1).

Definition sip_finish (s : sip_t) : Z :=
  let s := mkSip (v0 s) (v1 s) (Z.lxor (v2 s) 0xff) (v3 s) in
  let s := SIPROUND (SIPROUND (SIPROUND (SIPROUND s))) in
  Z.lxor (Z.lxor (Z.lxor (v0 s) (v1 s)) (v2 s)) (v3 s).

Definition elpis_siphash24 (key m : list Z) (n : Z) : res Z :=
  k0 ← le64 key 0; k1 ← le64 key 8;
  let b := u64 (Z.shiftl n 56) in
  let left := Z.land n 7 in
  s ← sip_loop m (Z.to_nat ((n - left) / 8)) 0 (sip_init k0 k1);
  b ← sip_tail m (n - left) (Z.to_nat left) b;
  Ok (sip_finish (sip_compress s b)).

(** ** Server secrets *)

Definition ELPIS_COOKIE_SECRET_LEN : Z := 16.

Record cookie_state := mkCookies { g_secret : list Z; g_secret_old : list Z; g_client_secret : list Z; g_ready : bool }.

(** [r] and [rc] are the octets elpis_random_bytes gives. *)
Definition elpis_cookie_init (st : cookie_state) (r rc : list Z) : cookie_state :=
  if g_ready st then st else mkCookies r r rc true.

Definition elpis_cookie_rotate (st : cookie_state) (r : list Z) : cookie_state :=
  mkCookies r (g_secret st) (g_client_secret st) (g_ready st).

(** The address octets and how many they are. *)
Definition addr_bytes (a : elpis_addr_t) : list Z * Z :=
  match a with
  | Addr4 ip _ => (ip, 4)
  | Addr6 ip _ => (ip, 16)
  | AddrOther => (zeros 16, 0)
  end.

Definition server_cookie_with (secret cc : list Z) (client : elpis_addr_t) (ts : Z) (out : list Z) : res (list Z) :=
  let '(ip, iplen) := addr_bytes client in
  c ← rds cc 0 8;
  out ← blit out 0 c;
  out ← wr out 8 1; out ← wr out 9 0; out ← wr out 10 0; out ← wr out 11 0;
  out ← elpis_put32 out 12 ts;
  v ← rds out 8 8;
  a ← rds ip 0 iplen;
  let msg := c ++ v ++ a in
  h ← elpis_siphash24 secret msg (zlen msg);
  elpis_put64 out 16 h.

(** [now] is elpis_wall_s(); [r] and [rc] as in [elpis_cookie_init]. *)
Definition elpis_cookie_server (st : cookie_state) (r rc : list Z) (now : Z) (cc : list Z) (client : elpis_addr_t) (out : list Z)
    : res (list Z * cookie_state) :=
  let st := elpis_cookie_init st r rc in
  out ← server_cookie_with (g_secret st) cc client (u32 now) out; Ok (out, st).

Definition COOKIE_MAX_AGE : Z := 3600.
Definition COOKIE_MAX_SKEW : Z := 300.

(** The two secrets in turn. *)
Fixpoint verify_loop (secrets : list (list Z)) (cookie : list Z) (client : elpis_addr_t) (ts : Z) (want : list Z) : res bool :=
  match secrets with
  | [] => Ok false
  | s :: secrets =>
    want ← server_cookie_with s cookie client ts want;
    w ← rds want 16 8; c ← rds cookie 16 8;
    d ← elpis_ct_memcmp w c 8;
    if (d : bool) then verify_loop secrets cookie client ts want else Ok true
  end.

Definition elpis_cookie_verify (st : cookie_state) (r rc : list Z) (now : Z) (cookie : list Z) (len : Z) (client : elpis_addr_t)
    : res (bool * cookie_state) :=
  if negb (len =? 24) then Ok (false, st)
  else
    ver ← rd cookie 8;
    if negb (ver =? 1) then Ok (false, st)
    else
      ts ← elpis_get32 cookie 12;
      let age := now - ts in
      if (COOKIE_MAX_AGE <? age) || (age <? - COOKIE_MAX_SKEW) then Ok (false, st)
      else
        let st := elpis_cookie_init st r rc in
        ok ← verify_loop [g_secret st; g_secret_old st] cookie client ts (zeros 24);
        Ok (ok, st).

Definition elpis_cookie_client (st : cookie_state) (r rc : list Z) (server : elpis_addr_t) (out : list Z) : res (list Z * cookie_state) :=
  let st := elpis_cookie_init st r rc in
  let '(ip, iplen) := addr_bytes server in
  h ← elpis_siphash24 (g_client_secret st) ip iplen;
  out ← elpis_put64 out 0 h; Ok (out, st).

(** The reference's vector: key 00 to 0f, message 00 to 0e. *)
Example siphash_vector :
  elpis_siphash24 (map Z.of_nat (seq 0 16)) (map Z.of_nat (seq 0 15)) 15 = Ok 0xa129ca6149be45e5.
Proof. by vm_compute. Qed.

(** ** The function the code computes *)

(** [k] little-endian words. *)
Fixpoint le_words (k : nat) (l : list Z) : list Z :=
  match k with O => [] | S k => le_combine (take 8 l) :: le_words k (drop 8 l) end.

(** The message, zeros up to the last octet of a word, and the length there. *)
Definition sip_padded (m : list Z) : list Z := m ++ zeros (7 - zlen m mod 8) ++ [zlen m mod 256].

(** SipHash-2-4 as its authors define it, over the words of the padded message. *)
Definition sip_spec (key m : list Z) : Z :=
  sip_finish (foldl sip_compress (sip_init (le_combine (take 8 key)) (le_combine (take 8 (drop 8 key))))
    (le_words (Z.to_nat (zlen m / 8 + 1)) (sip_padded m))).

Lemma le_words_app k : ∀ l x, (8 * k <= length l)%nat → le_words k (l ++ x) = le_words k l.
Proof.
  induction k as [|k IH]; intros l x Hl; cbn [le_words]; [done|].
  rewrite take_app_le, drop_app_le by lia. f_equal. apply IH. rewrite length_drop. lia.
Qed.

Lemma le_words_snoc k : ∀ l, le_words (k + 1) l = le_words k l ++ [le_combine (take 8 (drop (8 * k) l))].
Proof.
  induction k as [|k IH]; intros l; [done|]. cbn [Nat.add le_words app]. f_equal. rewrite IH. do 3 f_equal.
  rewrite drop_drop. do 2 f_equal. lia.
Qed.

Lemma le64_spec p o : bytes p → 0 <= o → o + 8 <= zlen p → le64 p o = Ok (le_combine (slice p o 8)).
Proof.
  intros Hp Ho Hl. assert (∀ i, 0 <= i < 8 → ∃ b, rd p (o + i) = Ok b ∧ byte b) as Hb.
  { intros i Hi. destruct (rd_in_range p (o + i)) as (b & Hr & Hlk); [lia|]. exists b. split; [done|]. exact (Forall_lookup_1 _ _ _ _ Hp Hlk). }
  destruct (Hb 0) as (b0 & R0 & B0), (Hb 1) as (b1 & R1 & B1), (Hb 2) as (b2 & R2 & B2), (Hb 3) as (b3 & R3 & B3),
    (Hb 4) as (b4 & R4 & B4), (Hb 5) as (b5 & R5 & B5), (Hb 6) as (b6 & R6 & B6), (Hb 7) as (b7 & R7 & B7); try lia.
  rewrite Z.add_0_r in R0. unfold le64. rewrite R0, R1, R2, R3, R4, R5, R6, R7. do 8 bind_ok. f_equal.
  assert (slice p o 8 = [b0; b1; b2; b3; b4; b5; b6; b7]) as ->.
  { rewrite (slice_cons_rd p o 8 b0), (slice_cons_rd p (o + 1) _ b1), (slice_cons_rd p (o + 1 + 1) _ b2), (slice_cons_rd p (o + 1 + 1 + 1) _ b3),
      (slice_cons_rd p (o + 1 + 1 + 1 + 1) _ b4), (slice_cons_rd p (o + 1 + 1 + 1 + 1 + 1) _ b5), (slice_cons_rd p (o + 1 + 1 + 1 + 1 + 1 + 1) _ b6),
      (slice_cons_rd p (o + 1 + 1 + 1 + 1 + 1 + 1 + 1) _ b7); try lia; rewrite <- ?Z.add_assoc; try done. }
  clear -B0 B1 B2 B3 B4 B5 B6 B7. unfold byte in *.
  rewrite (lor_add_shiftl b0 b1 8), (lor_add_shiftl _ b2 16), (lor_add_shiftl _ b3 24), (lor_add_shiftl _ b4 32),
    (lor_add_shiftl _ b5 40), (lor_add_shiftl _ b6 48), (lor_add_shiftl _ b7 56) by lia.
  cbn [le_combine foldr]. unfold pk. lia.
Qed.

Lemma sip_loop_spec m k : ∀ o s, bytes m → 0 <= o → o + 8 * Z.of_nat k <= zlen m →
  sip_loop m k o s = Ok (foldl sip_compress s (le_words k (drop (Z.to_nat o) m))).
Proof.
  induction k as [|k IH]; intros o s Hm Ho Hl; cbn [sip_loop le_words foldl]; [done|].
  rewrite le64_spec by (done || lia). bind_ok. rewrite IH by (done || lia). unfold slice. rewrite drop_drop. do 4 f_equal. lia.
Qed.

Lemma sip_tail_spec m o k : ∀ a, bytes m → 0 <= o → o + Z.of_nat k <= zlen m → 0 <= a →
  sip_tail m o k (a * 2 ^ (8 * Z.of_nat k)) = Ok (a * 2 ^ (8 * Z.of_nat k) + le_combine (slice m o (Z.of_nat k))).
Proof.
  induction k as [|k IH]; intros a Hm Ho Hl Ha; cbn [sip_tail].
  { change (Z.of_nat 0) with 0. rewrite slice_0. change (le_combine []) with 0. f_equal. lia. }
  destruct (rd_in_range m (o + Z.of_nat k)) as (c & Hr & Hc); [lia|]. rewrite Hr. bind_ok.
  pose proof (Forall_lookup_1 _ _ _ _ Hm Hc) as Hbc. cbv beta in Hbc. unfold byte in Hbc.
  assert (2 ^ (8 * Z.of_nat (S k)) = 256 * 2 ^ (8 * Z.of_nat k)) as E.
  { replace (8 * Z.of_nat (S k)) with (8 + 8 * Z.of_nat k) by lia. rewrite Z.pow_add_r by lia. lia. }
  assert (0 < 2 ^ (8 * Z.of_nat k)) as Hpos by (apply Z.pow_pos_nonneg; lia).
  rewrite <- (shiftl_mul a) by lia. rewrite lor_shiftl_add by (rewrite ?shiftl_mul by lia; nia). rewrite shiftl_mul by lia.
  replace (a * 2 ^ (8 * Z.of_nat (S k)) + c * 2 ^ (8 * Z.of_nat k)) with ((a * 256 + c) * 2 ^ (8 * Z.of_nat k)) by lia.
  rewrite IH by (done || lia). f_equal.
  replace (slice m o (Z.of_nat (S k))) with (slice m o (Z.of_nat k + 1)) by (f_equal; lia).
  rewrite (slice_snoc m o (Z.of_nat k) c) by (done || lia). rewrite le_combine_app, zlen_slice by lia.
  change (le_combine [c]) with (pk c 0). unfold pk.
  replace (256 ^ Z.of_nat k) with (2 ^ (8 * Z.of_nat k)) by (rewrite Z.pow_mul_r by lia; done). rewrite shiftl_mul, E by lia. lia.
Qed.

(** The code computes SipHash-2-4 and reads nothing else. *)
Lemma siphash_spec key m n : bytes key → zlen key = 16 → bytes m → 0 <= n <= zlen m →
  elpis_siphash24 key m n = Ok (sip_spec key (slice m 0 n)).
Proof.
  intros Hk Hk16 Hm Hn. unfold elpis_siphash24. rewrite !le64_spec by (done || lia). do 2 bind_ok.
  assert (Z.land n 7 = n mod 8) as -> by (change 7 with (Z.ones 3); by rewrite Z.land_ones by lia).
  pose proof (Z.div_mod n 8). pose proof (Z.mod_pos_bound n 8). set (q := n / 8) in *. set (left := n mod 8) in *.
  assert (0 <= q) by (apply Z.div_pos; lia).
  replace ((n - left) / 8) with q by (replace (n - left) with (q * 8) by lia; by rewrite Z.div_mul).
  rewrite sip_loop_spec by (done || lia). bind_ok. unfold u64. rewrite shiftl_mul by lia.
  assert (n * 2 ^ 56 mod 2 ^ 64 = (n mod 256 * 2 ^ (56 - 8 * left)) * 2 ^ (8 * Z.of_nat (Z.to_nat left))) as ->.
  { rewrite Z2Nat.id by lia. rewrite <- Z.mul_assoc, <- Z.pow_add_r by lia. replace (56 - 8 * left + 8 * left) with 56 by lia.
    change (2 ^ 64) with (256 * 2 ^ 56). by rewrite Z.mul_mod_distr_r. }
  assert (0 <= n mod 256 * 2 ^ (56 - 8 * left)) by (apply Z.mul_nonneg_nonneg; [apply Z.mod_pos_bound; lia|apply Z.pow_nonneg; lia]).
  rewrite sip_tail_spec by first [done | lia]. bind_ok.
  unfold sip_spec. set (M := slice m 0 n). assert (zlen M = n) as HM by (apply zlen_slice; lia). rewrite HM. fold q. f_equal.
  replace (Z.to_nat (q + 1)) with (Z.to_nat q + 1)%nat by lia. rewrite le_words_snoc, foldl_app. cbn [foldl]. do 2 f_equal.
  - change (slice key 0 8) with (take 8 key). change (slice key 8 8) with (take 8 (drop 8 key)). f_equal.
    unfold sip_padded. rewrite le_words_app by zl. change (drop (Z.to_nat 0) m) with m.
    assert (m = M ++ drop (Z.to_nat n) m) as Em by (symmetry; apply take_drop). rewrite Em at 1. apply le_words_app. zl.
  - unfold sip_padded. rewrite HM. fold left. rewrite drop_app_le by zl.
    assert (drop (8 * Z.to_nat q) M = slice m (n - left) left) as ->.
    { unfold M, slice. rewrite skipn_firstn_comm, drop_drop. f_equal; [lia|]. f_equal. lia. }
    rewrite take_ge by (rewrite !length_app; cbn; rewrite length_slice by lia; unfold zeros; rewrite length_replicate; lia).
    rewrite !le_combine_app, zlen_slice, zlen_zeros by lia. unfold zeros. rewrite le_combine_zeros. change (le_combine [n mod 256]) with (pk (n mod 256) 0). unfold pk.
    rewrite Z.mul_0_r, Z.add_0_l, Z.add_0_r. rewrite Z2Nat.id by lia. rewrite <- Z.mul_assoc, <- Z.pow_add_r by lia. rewrite Z.mul_assoc, <- Z.pow_add_r by lia.
    replace (left + (7 - left)) with 7 by lia. replace (56 - 8 * left + 8 * left) with 56 by lia. change (256 ^ 7) with (2 ^ 56). lia.
Qed.

(** ** Cookies *)

(** The octets RFC 9018 hashes, with the reserved octets zero, and the cookie
    a server with [secret] mints at [ts]. *)
Definition cookie_hash (secret cc : list Z) (ts : Z) (ip : list Z) : list Z :=
  put64_bytes (sip_spec secret ((cc ++ [1; 0; 0; 0] ++ put32_bytes ts) ++ ip)).
Definition minted (secret cc : list Z) (ts : Z) (ip : list Z) : list Z :=
  cc ++ [1; 0; 0; 0] ++ put32_bytes ts ++ cookie_hash secret cc ts ip.

Definition secret_ok (s : list Z) : Prop := bytes s ∧ zlen s = ELPIS_COOKIE_SECRET_LEN.
Definition cookies_ok (st : cookie_state) : Prop := secret_ok (g_secret st) ∧ secret_ok (g_secret_old st) ∧ secret_ok (g_client_secret st).

Lemma init_ok st r rc : cookies_ok st → secret_ok r → secret_ok rc → cookies_ok (elpis_cookie_init st r rc).
Proof. intros. unfold elpis_cookie_init. by destruct (g_ready st). Qed.

Lemma addr_bytes_spec a : wf_addr a → ∃ n, addr_bytes a = (addr_ip a, n) ∧ n = zlen (addr_ip a) ∧ bytes (addr_ip a).
Proof. destruct a as [ip p|ip p|]; cbn; [| |done]; intros (Hb & Hl & _); eexists; split; [done|done|done|done]. Qed.

(** Eight octets and the rest. *)
Lemma split8 (l : list Z) : 8 <= zlen l →
  ∃ a b c d e f g h r, l = a :: b :: c :: d :: e :: f :: g :: h :: r ∧ zlen r = zlen l - 8.
Proof.
  intros Hl. do 8 (destruct l as [|? l]; [by vm_compute in Hl|]). repeat eexists. rewrite !zlen_cons. lia.
Qed.

Lemma server_cookie_spec secret cc client ts out : secret_ok secret → bytes cc → 8 <= zlen cc → wf_addr client → zlen out = 24 →
  server_cookie_with secret cc client ts out = Ok (minted secret (take 8 cc) ts (addr_ip client)).
Proof.
  intros [Hs Hs16] Hcc Hlen Ha Hout. unfold server_cookie_with. destruct (addr_bytes_spec client Ha) as (n & -> & -> & Hip).
  rewrite (rds_in_range cc 0 8) by lia. bind_ok. change (slice cc 0 8) with (take 8 cc). unfold minted, cookie_hash.
  assert (zlen (take 8 cc) = 8) as Hc by (rewrite zlen_take; lia). assert (bytes (take 8 cc)) as Hbc by (by apply Forall_take).
  generalize dependent (take 8 cc). intros c Hc Hbc.
  destruct (split8 c) as (a0 & a1 & a2 & a3 & a4 & a5 & a6 & a7 & r & -> & Hr); [lia|].
  assert (r = []) as -> by (apply zlen_0_nil; lia).
  destruct (split8 out) as (b0 & b1 & b2 & b3 & b4 & b5 & b6 & b7 & r & -> & Hr1); [lia|].
  destruct (split8 r) as (d0 & d1 & d2 & d3 & d4 & d5 & d6 & d7 & r2 & -> & Hr2); [lia|].
  destruct (split8 r2) as (e0 & e1 & e2 & e3 & e4 & e5 & e6 & e7 & r3 & -> & Hr3); [lia|].
  assert (r3 = []) as -> by (apply zlen_0_nil; lia). clear Hr Hr1 Hr2 Hr3.
  set (C := [a0; a1; a2; a3; a4; a5; a6; a7]) in *. set (E := [e0; e1; e2; e3; e4; e5; e6; e7]).
  change (blit _ 0 C) with (Ok (C ++ [d0; d1; d2; d3; d4; d5; d6; d7] ++ E)). bind_ok.
  change (wr (C ++ [d0; d1; d2; d3; d4; d5; d6; d7] ++ E) 8 1) with (Ok (C ++ [1; d1; d2; d3; d4; d5; d6; d7] ++ E)). bind_ok.
  change (wr (C ++ [1; d1; d2; d3; d4; d5; d6; d7] ++ E) 9 0) with (Ok (C ++ [1; 0; d2; d3; d4; d5; d6; d7] ++ E)). bind_ok.
  change (wr (C ++ [1; 0; d2; d3; d4; d5; d6; d7] ++ E) 10 0) with (Ok (C ++ [1; 0; 0; d3; d4; d5; d6; d7] ++ E)). bind_ok.
  change (wr (C ++ [1; 0; 0; d3; d4; d5; d6; d7] ++ E) 11 0) with (Ok (C ++ [1; 0; 0; 0; d4; d5; d6; d7] ++ E)). bind_ok.
  change (elpis_put32 (C ++ [1; 0; 0; 0; d4; d5; d6; d7] ++ E) 12 ts) with (Ok (C ++ ([1; 0; 0; 0] ++ put32_bytes ts) ++ E)). bind_ok.
  set (V := [1; 0; 0; 0] ++ put32_bytes ts). change (rds (C ++ V ++ E) 8 8) with (Ok V). bind_ok.
  rewrite rds_full by done. bind_ok.
  rewrite siphash_spec; [|done|done| |split; [apply zlen_nonneg|lia]].
  2:{ apply Forall_app. split; [done|]. apply Forall_app. split; [|done]. apply Forall_app. split; [by repeat constructor|apply bytes_put32]. }
  bind_ok. rewrite slice_0_all by lia. rewrite <- app_assoc.
  change (elpis_put64 (C ++ V ++ E) 16 ?h) with (Ok (C ++ V ++ put64_bytes h)). unfold V. by rewrite <- !app_assoc.
Qed.

Lemma cookie_hash_length secret cc ts ip : zlen (cookie_hash secret cc ts ip) = 8.
Proof. apply zlen_put64. Qed.

Lemma minted_hash secret cc ts ip : zlen cc = 8 → slice (minted secret cc ts ip) 16 8 = cookie_hash secret cc ts ip.
Proof.
  intros Hc. unfold minted. rewrite !app_assoc. assert (zlen ((cc ++ [1; 0; 0; 0]) ++ put32_bytes ts) = 16) as Hp.
  { rewrite !zlen_app, zlen_put32, Hc. done. }
  rewrite slice_app_r by lia. rewrite Hp. apply slice_0_all. rewrite cookie_hash_length. lia.
Qed.

Lemma minted_shape secret cc ts ip : bytes cc → zlen cc = 8 → bytes (minted secret cc ts ip) ∧ zlen (minted secret cc ts ip) = 24.
Proof.
  intros Hb Hc. unfold minted. rewrite !zlen_app, zlen_put32, cookie_hash_length, Hc. split; [|done].
  apply Forall_app. split; [done|]. apply Forall_app. split; [by repeat constructor|]. apply Forall_app. split; [apply bytes_put32|apply bytes_put64].
Qed.

Lemma verify_loop_spec cookie client ts : ∀ secrets want, Forall secret_ok secrets → bytes cookie → zlen cookie = 24 → wf_addr client →
  zlen want = 24 →
  verify_loop secrets cookie client ts want =
    Ok (existsb (fun s => bool_decide (slice cookie 16 8 = cookie_hash s (take 8 cookie) ts (addr_ip client))) secrets).
Proof.
  intros secrets want Hs Hb Hl Ha. revert want. induction Hs as [|s secrets Hs _ IH]; intros want Hw; cbn [verify_loop existsb]; [done|].
  rewrite server_cookie_spec by (done || lia). bind_ok. assert (zlen (take 8 cookie) = 8) as H8 by (rewrite zlen_take; lia).
  assert (bytes (take 8 cookie)) as Hb8 by (by apply Forall_take).
  destruct (minted_shape s (take 8 cookie) ts (addr_ip client) Hb8 H8) as [Hbm Hlm].
  rewrite (rds_in_range (minted _ _ _ _)) by lia. bind_ok. rewrite minted_hash by done. rewrite (rds_in_range cookie) by lia. bind_ok.
  set (h := cookie_hash _ _ _ _). assert (zlen h = 8) as Hh by apply cookie_hash_length.
  assert (zlen (slice cookie 16 8) = 8) as Hh' by (apply zlen_slice; lia).
  rewrite ct_memcmp_spec; [|apply bytes_put64|by apply Forall_slice|lia|lia|lia]. bind_ok. rewrite (slice_0_all h), (slice_0_all (slice cookie 16 8)) by lia.
  destruct (decide (slice cookie 16 8 = h)) as [E|Hne].
  - rewrite (bool_decide_eq_false_2 (h ≠ _)) by (intros Hn; by apply Hn). by rewrite (bool_decide_eq_true_2 (_ = h)).
  - rewrite (bool_decide_eq_true_2 (h ≠ _)) by done. rewrite (bool_decide_eq_false_2 (_ = h)) by done. cbn [orb]. by apply IH.
Qed.

(** A cookie that verifies: the length and version the code mints, a time in
    the window, and the hash under one of the two secrets. *)
Definition cookie_good (st : cookie_state) (now : Z) (cookie : list Z) (client : elpis_addr_t) : Prop :=
  ∃ cc reserved ts, cookie = cc ++ [1] ++ reserved ++ put32_bytes ts ++ slice cookie 16 8 ∧ zlen cc = 8 ∧ zlen reserved = 3 ∧ 0 <= ts < 2 ^ 32 ∧
    - COOKIE_MAX_SKEW <= now - ts <= COOKIE_MAX_AGE ∧
    (slice cookie 16 8 = cookie_hash (g_secret st) cc ts (addr_ip client) ∨ slice cookie 16 8 = cookie_hash (g_secret_old st) cc ts (addr_ip client)).

Lemma put32_be4 a b c d : byte a → byte b → byte c → byte d → put32_bytes (be4 a b c d) = [a; b; c; d] ∧ 0 <= be4 a b c d < 2 ^ 32.
Proof.
  unfold byte, be4. intros Ha Hb Hc Hd. split; [|lia]. unfold put32_bytes, u8. rewrite !shiftr_div by lia.
  f_equal; [|f_equal; [|f_equal; [|f_equal]]]; Z.div_mod_to_equations; lia.
Qed.

(** A cookie in its three words. *)
Lemma cookie_words (cookie : list Z) : bytes cookie → zlen cookie = 24 → ∃ cc d0 d1 d2 d3 d4 d5 d6 d7 h,
  cookie = cc ++ [d0; d1; d2; d3; d4; d5; d6; d7] ++ h ∧ zlen cc = 8 ∧ zlen h = 8 ∧ slice cookie 16 8 = h ∧ take 8 cookie = cc ∧
  rd cookie 8 = Ok d0 ∧ elpis_get32 cookie 12 = Ok (be4 d4 d5 d6 d7) ∧ byte d4 ∧ byte d5 ∧ byte d6 ∧ byte d7.
Proof.
  intros Hb Hl. destruct (split8 cookie) as (a0 & a1 & a2 & a3 & a4 & a5 & a6 & a7 & r & -> & Hr); [lia|].
  destruct (split8 r) as (d0 & d1 & d2 & d3 & d4 & d5 & d6 & d7 & r2 & -> & Hr2); [lia|].
  destruct (split8 r2) as (e0 & e1 & e2 & e3 & e4 & e5 & e6 & e7 & r3 & -> & Hr3); [lia|].
  assert (r3 = []) as -> by (apply zlen_0_nil; lia). do 16 apply Forall_cons_1 in Hb as [? Hb].
  exists [a0; a1; a2; a3; a4; a5; a6; a7], d0, d1, d2, d3, d4, d5, d6, d7, [e0; e1; e2; e3; e4; e5; e6; e7].
  split_and!; try done. by apply get32_value.
Qed.

Lemma cookie_verify_spec st r rc now cookie client : cookies_ok st → secret_ok r → secret_ok rc → bytes cookie → wf_addr client →
  ∃ b st', elpis_cookie_verify st r rc now cookie (zlen cookie) client = Ok (b, st') ∧
    (b = true ↔ zlen cookie = 24 ∧ cookie_good (elpis_cookie_init st r rc) now cookie client).
Proof.
  intros Hst Hr Hrc Hb Ha. unfold elpis_cookie_verify. destruct (Z.eqb_spec (zlen cookie) 24) as [Hl|Hne]; cbn [negb].
  2:{ exists false, st. split; [done|]. by split; [|intros [? _]]. }
  destruct (cookie_words cookie Hb Hl) as (cc & d0 & d1 & d2 & d3 & d4 & d5 & d6 & d7 & h & E & Hcc & Hh & Hsl & Htk & -> & Hts & B4 & B5 & B6 & B7).
  bind_ok. destruct (put32_be4 d4 d5 d6 d7 B4 B5 B6 B7) as [Hp32 Hrange]. set (ts := be4 d4 d5 d6 d7) in *.
  assert (cookie_good (elpis_cookie_init st r rc) now cookie client ↔ d0 = 1 ∧ - COOKIE_MAX_SKEW <= now - ts <= COOKIE_MAX_AGE ∧
    (h = cookie_hash (g_secret (elpis_cookie_init st r rc)) cc ts (addr_ip client) ∨
     h = cookie_hash (g_secret_old (elpis_cookie_init st r rc)) cc ts (addr_ip client))) as Hg.
  { unfold cookie_good. rewrite Hsl. split.
    - intros (cc' & rs & ts' & E' & Hcc' & Hrs & Hts' & Hw & Hor). rewrite E in E'.
      assert (cc = cc' ∧ [d0; d1; d2; d3; d4; d5; d6; d7] ++ h = [1] ++ rs ++ put32_bytes ts' ++ h) as [<- E2] by (apply app_inj_1; [zl|done]).
      destruct rs as [|r0 [|r1 [|r2 [|? rs]]]]; try done; [|rewrite !zlen_cons in Hrs; pose proof (zlen_nonneg rs); lia].
      unfold put32_bytes in E2. cbn [app] in E2. injection E2 as E0 _ _ _ E4 E5 E6 E7.
      assert (ts = ts') as <-; [|done]. unfold ts. rewrite E4, E5, E6, E7. by apply be4_digits.
    - intros (-> & Hw & Hor). exists cc, [d1; d2; d3], ts. rewrite E at 1. rewrite Hp32. done. }
  destruct (Z.eqb_spec d0 1) as [->|Hd]; cbn [negb]; [|exists false, st; split; [done|]; rewrite Hg; by split; [|intros (_ & ? & _)]].
  rewrite Hts. bind_ok. destruct ((COOKIE_MAX_AGE <? now - ts) || (now - ts <? - COOKIE_MAX_SKEW)) eqn:Ew.
  { exists false, st. split; [done|]. rewrite Hg. split; [done|]. intros (_ & _ & Hw & _). apply orb_true_iff in Ew as [Ew%Z.ltb_lt|Ew%Z.ltb_lt]; lia. }
  apply orb_false_iff in Ew as [Ew1%Z.ltb_ge Ew2%Z.ltb_ge]. pose proof (init_ok st r rc Hst Hr Hrc) as (Hs1 & Hs2 & _).
  set (st' := elpis_cookie_init st r rc) in *. rewrite verify_loop_spec by first [done | apply Forall_cons_2; [done|]; apply Forall_cons_2; [done|]; by apply Forall_nil_2]. bind_ok.
  rewrite Hsl, Htk. eexists _, st'. split; [done|]. rewrite Hg. cbn [existsb]. rewrite orb_false_r, orb_true_iff, !bool_decide_eq_true.
  split; [intros Hor; split; [done|]; split; [done|]; split; [lia|done]|by intros (_ & _ & _ & Hor)].
Qed.

(** ** Theorems *)

(** The code computes SipHash-2-4 of the octets it is given, for every
    length, and reads no other octet. *)
Theorem siphash_exact key m n : bytes key → zlen key = 16 → bytes m → 0 <= n <= zlen m →
  elpis_siphash24 key m n = Ok (sip_spec key (slice m 0 n)).
Proof. apply siphash_spec. Qed.

Lemma siphash_exact_witness :
  elpis_siphash24 (map Z.of_nat (seq 0 16)) [1; 2; 3; 4; 5; 6; 7; 8; 9; 10] 9 = Ok (sip_spec (map Z.of_nat (seq 0 16)) [1; 2; 3; 4; 5; 6; 7; 8; 9]).
Proof. apply (siphash_exact (map Z.of_nat (seq 0 16)) [1; 2; 3; 4; 5; 6; 7; 8; 9; 10] 9); by_compute. Defined.

(** The secrets after at most one rotation. *)
Definition rotated (st st' : cookie_state) : Prop := st' = st ∨ ∃ r, secret_ok r ∧ st' = elpis_cookie_rotate st r.

(** A cookie but for its reserved octets, 9 to 11. *)
Definition unreserved (cookie : list Z) : list Z := take 9 cookie ++ [0; 0; 0] ++ drop 12 cookie.

(** One of the two secrets made it for the client, reserved octets apart, at a
    32-bit time in the window of the clock. *)
Definition cookie_made (st : cookie_state) (now : Z) (cookie : list Z) (client : elpis_addr_t) : Prop :=
  ∃ secret cc ts, (secret = g_secret st ∨ secret = g_secret_old st) ∧ zlen cc = 8 ∧ 0 <= ts < 2 ^ 32 ∧
    - COOKIE_MAX_SKEW <= now - ts <= COOKIE_MAX_AGE ∧ unreserved cookie = minted secret cc ts (addr_ip client).

Lemma unreserved_words cc r ts h : zlen cc = 8 → zlen r = 3 →
  unreserved (cc ++ [1] ++ r ++ put32_bytes ts ++ h) = cc ++ [1; 0; 0; 0] ++ put32_bytes ts ++ h.
Proof.
  intros Hc Hr. unfold unreserved. generalize (put32_bytes ts ++ h). intros q.
  assert (take 9 (cc ++ [1] ++ r ++ q) = cc ++ [1]) as -> by (rewrite app_assoc; apply take_app_length'; rewrite length_app; zl).
  assert (drop 12 (cc ++ [1] ++ r ++ q) = q) as -> by (rewrite !app_assoc; apply drop_app_length'; rewrite !length_app; zl).
  by rewrite <- !app_assoc.
Qed.

Lemma cookie_good_made st now cookie client : zlen cookie = 24 → cookie_good st now cookie client ↔ cookie_made st now cookie client.
Proof.
  intros Hl. split.
  - intros (cc & r & ts & E & Hcc & Hr & Hts & Hw & Hor).
    assert (∃ secret, (secret = g_secret st ∨ secret = g_secret_old st) ∧ slice cookie 16 8 = cookie_hash secret cc ts (addr_ip client)) as (secret & Hs & Eh)
      by (destruct Hor as [Hor|Hor]; eexists; (split; [|exact Hor]); [by left|by right]).
    exists secret, cc, ts. split; [done|]. split; [done|]. split; [done|]. split; [done|]. rewrite E, unreserved_words by done. unfold minted. by rewrite Eh.
  - intros (secret & cc & ts & Hs & Hcc & Hts & Hw & E). unfold unreserved, minted in E.
    destruct (app_inj_1 (take 8 cookie) cc (drop 8 (take 9 cookie) ++ [0; 0; 0] ++ drop 12 cookie) ([1; 0; 0; 0] ++ put32_bytes ts ++ cookie_hash secret cc ts (addr_ip client))) as [E1 E2].
    { rewrite length_take. zl. }
    { rewrite <- E, app_assoc. f_equal. rewrite <- (take_drop 8 (take 9 cookie)) at 2. by rewrite take_take. }
    destruct (drop 8 (take 9 cookie)) as [|d0 [|]] eqn:Ed; [apply (f_equal length) in Ed; rewrite length_drop, length_take in Ed; cbn [length] in Ed; zl| |
      apply (f_equal length) in Ed; rewrite length_drop, length_take in Ed; cbn [length] in Ed; zl].
    injection E2 as -> E2. assert (slice cookie 16 8 = cookie_hash secret cc ts (addr_ip client)) as Eh.
    { unfold slice. change (Z.to_nat 16) with (12 + 4)%nat. rewrite <- drop_drop, E2. cbn [drop].
      apply take_ge. pose proof (cookie_hash_length secret cc ts (addr_ip client)). zl. }
    exists cc, (slice cookie 9 3), ts. split; [|split; [done|]; split; [unfold slice; rewrite zlen_take, zlen_drop; lia|]; split; [done|]; split; [done|]].
    + assert (cookie = take 9 cookie ++ slice cookie 9 3 ++ drop 12 cookie) as Esp.
      { unfold slice. rewrite <- (take_drop 9 cookie) at 1. f_equal. rewrite <- (take_drop 3 (drop 9 cookie)) at 1. by rewrite drop_drop. }
      assert (take 9 cookie = cc ++ [1]) as E9 by (rewrite <- (take_drop 8 (take 9 cookie)), Ed, take_take; f_equal; exact E1).
      rewrite Esp at 1. rewrite E9, E2, Eh. by rewrite <- app_assoc.
    + rewrite Eh. destruct Hs as [->| ->]; [by left|by right].
Qed.

(** C36. A server cookie is accepted exactly when it is 24 octets long and, its
    three reserved octets apart, which are not looked at, it is the cookie one of
    the two secrets, the one in use or the one before it, makes for that client
    address at a 32-bit time at most an hour before the 64-bit clock and five
    minutes after it; so the cookie minted for a client below second 2^32 is
    accepted from that client within the hour, before and after a rotation of
    the secret, and any from 2^32 + 3600 on is refused. *)
Theorem cookie_verify_exact st r rc now cookie client : cookies_ok st → secret_ok r → secret_ok rc → bytes cookie → wf_addr client →
  (∃ b st', elpis_cookie_verify st r rc now cookie (zlen cookie) client = Ok (b, st') ∧ cookies_ok st' ∧
    (b = true ↔ zlen cookie = 24 ∧ cookie_made (elpis_cookie_init st r rc) now cookie client) ∧
    (2 ^ 32 + COOKIE_MAX_AGE <= now → b = false)) ∧
  ∀ cc t0 out st', bytes cc → zlen cc = 8 → zlen out = 24 → 0 <= t0 < 2 ^ 32 → - COOKIE_MAX_SKEW <= now - t0 <= COOKIE_MAX_AGE →
    rotated (elpis_cookie_init st r rc) st' →
    ∃ m, elpis_cookie_server st r rc t0 cc client out = Ok (m, elpis_cookie_init st r rc) ∧
      ∃ st2, elpis_cookie_verify st' r rc now m (zlen m) client = Ok (true, st2).
Proof.
  intros Hst Hr Hrc Hb Ha. split.
  - destruct (cookie_verify_spec st r rc now cookie client Hst Hr Hrc Hb Ha) as (b & st' & E & Hiff). exists b, st'. split; [done|].
    assert (b = true ↔ zlen cookie = 24 ∧ cookie_made (elpis_cookie_init st r rc) now cookie client) as Hmade.
    { rewrite Hiff. split; intros [Hl H]; (split; [done|]); [by apply cookie_good_made|by apply (cookie_good_made _ _ _ _ Hl)]. }
    split; [|split; [exact Hmade|]].
    2:{ intros Hnow. destruct b; [|done]. destruct (proj1 Hmade eq_refl) as (_ & secret & cc & ts & _ & _ & Hts & Hw & _). lia. }
    clear Hiff Hmade. unfold elpis_cookie_verify in E. pose proof (init_ok st r rc Hst Hr Hrc).
    repeat (case_match; [by injection E as _ <-|]). apply bind_Ok_inv in E as (v & _ & E). case_match; [by injection E as ? <-|].
    apply bind_Ok_inv in E as (ts & _ & E). case_match; [by injection E as ? <-|]. apply bind_Ok_inv in E as (ok & _ & E). by injection E as ? <-.
  - intros cc t0 out st' Hcc Hl Hout Ht0 Hw Hrot. pose proof (init_ok st r rc Hst Hr Hrc) as Hi. set (i := elpis_cookie_init st r rc) in *.
    unfold elpis_cookie_server. fold i. rewrite server_cookie_spec by (try done; try lia; apply Hi). bind_ok.
    rewrite take_ge by zl. rewrite u32_id by lia. eexists. split; [done|]. destruct (minted_shape (g_secret i) cc t0 (addr_ip client) Hcc Hl) as [Hbm Hlm].
    assert (cookies_ok st' ∧ (g_secret st' = g_secret i ∨ g_secret_old st' = g_secret i) ∧ g_ready st' = true) as (Hst' & Hsec & Hready).
    { assert (g_ready i = true) as Hri by (unfold i, elpis_cookie_init; destruct (g_ready st) eqn:E; [exact E|done]).
      destruct Hi as (K1 & K2 & K3). destruct Hrot as [->|(r' & Hr' & ->)]; split_and!; try done; [by left|by right]. }
    destruct (cookie_verify_spec st' r rc now (minted (g_secret i) cc t0 (addr_ip client)) client Hst' Hr Hrc Hbm Ha) as (b & st2 & E & Hiff).
    exists st2. assert (b = true) as ->; [|exact E]. apply Hiff. split; [done|].
    assert (elpis_cookie_init st' r rc = st') as -> by (unfold elpis_cookie_init; by rewrite Hready).
    exists cc, [0; 0; 0], t0. rewrite minted_hash by done. split_and!; try done; try lia. destruct Hsec as [-> | ->]; [by left|by right].
Qed.

Module Jar.
Definition st : cookie_state := mkCookies (repeat 1 16) (repeat 2 16) (repeat 3 16) true.
Definition client : elpis_addr_t := Addr4 [192; 0; 2; 7] 53.
Definition cookie : list Z := minted (repeat 2 16) [1; 2; 3; 4; 5; 6; 7; 8] 1000 [192; 0; 2; 7].
End Jar.

(** A cookie under the secret before, an hour and a second later and earlier. *)
Lemma cookie_verify_exact_witness :
  elpis_cookie_verify Jar.st (repeat 4 16) (repeat 5 16) 4601 Jar.cookie 24 Jar.client = Ok (false, Jar.st) ∧
  (∃ b st', elpis_cookie_verify Jar.st (repeat 4 16) (repeat 5 16) 4600 Jar.cookie (zlen Jar.cookie) Jar.client = Ok (b, st') ∧ b = true).
Proof.
  split; [by vm_compute|].
  destruct (cookie_verify_exact Jar.st (repeat 4 16) (repeat 5 16) 4600 Jar.cookie Jar.client) as [(b & st' & E & _ & Hiff & _) _].
  - by_compute.
  - by_compute.
  - by_compute.
  - by_compute.
  - by_compute.
  - exists b, st'. split; [exact E|]. apply Hiff. split; [reflexivity|]. exists (repeat 2 16), [1; 2; 3; 4; 5; 6; 7; 8], 1000.
    split; [right; reflexivity|]. split; [by_compute|]. split; [by_compute|]. split; [by_compute|]. vm_compute. reflexivity.
Defined.

(** The same cookie with other reserved octets, which no secret makes, passes too. *)
Example reserved_ignored :
  elpis_cookie_verify Jar.st (repeat 4 16) (repeat 5 16) 4600 (take 9 Jar.cookie ++ [7; 8; 9] ++ drop 12 Jar.cookie) 24 Jar.client = Ok (true, Jar.st).
Proof. by vm_compute. Qed.
