(* ===== verification/Bn.v ===== *)
(** Big integers: src/crypto/bn.h and bn.c.

    A [bn_t] is the list of its significant limbs, least first: the code says
    of the rest of the array that it is unspecified, never read and never
    cleared.  The array has [BN_MAX_LIMBS] limbs; a write past it is stuck. *)
From stdpp Require Import base list numbers.
From Stdlib Require Import ZArith Lia.
From S2P Require Import Prelude Bytes.

(** ** Definitions *)

Definition BN_MAX_LIMBS : Z := 144.

(** The result fits the array. *)
Definition bn_fits (r : list Z) : res (list Z) := if zlen r <=? BN_MAX_LIMBS then Ok r else Stuck OutOfBounds.

(** [(i < a->n) ? a->d[i] : 0u] *)
Definition limb (a : list Z) (i : nat) : Z := default 0 (a !! i).

Definition bn_zero : list Z := [].
Definition bn_set_u32 (v : Z) : list Z := if v =? 0 then [] else [v].
Definition bn_copy (a : list Z) : list Z := a.

(** [while (n > 0 && d[n - 1] == 0) n--] *)
Fixpoint trim_loop (a : list Z) (n : nat) : nat :=
  match n with O => O | S k => if limb a k =? 0 then trim_loop a k else n end.
Definition bn_trim (a : list Z) : list Z := take (trim_loop a (length a)) a.

Definition bn_is_zero (a : list Z) : bool := forallb (fun x => x =? 0) a.

Fixpoint cmp_loop (a b : list Z) (i : nat) : Z :=
  match i with
  | O => 0
  | S i => let x := limb a i in let y := limb b i in if negb (x =? y) then (if x <? y then -1 else 1) else cmp_loop a b i
  end.
Definition bn_cmp (a b : list Z) : Z := cmp_loop a b (Nat.max (length a) (length b)).

(** [while (v) { b++; v >>= 1; }]: 32 turns at most. *)
Fixpoint bits_loop (fuel : nat) (v b : Z) : Z :=
  match fuel with O => b | S fuel => if v =? 0 then b else bits_loop fuel (Z.shiftr v 1) (b + 1) end.
Definition bn_bits (a : list Z) : Z :=
  match trim_loop a (length a) with
  | O => 0
  | S i => Z.of_nat i * 32 + bits_loop 32 (limb a i) 0
  end.

Definition bn_bit (a : list Z) (i : nat) : Z := Z.land (Z.shiftr (limb a (i / 32)) (Z.of_nat (i mod 32))) 1.

(** [while (n > 0 && *p == 0) { p++; n--; }] *)
Fixpoint skip_zeros (p : list Z) : list Z :=
  match p with c :: p' => if c =? 0 then skip_zeros p' else p | [] => [] end.

(** The octets from [i] on, each into its limb. *)
Fixpoint from_bytes_loop (p : list Z) (n i : Z) (d : list Z) : res (list Z) :=
  match p with
  | [] => Ok d
  | c :: p =>
    let rev := n - 1 - i in
    x ← rd d (rev / 4);
    d ← wr d (rev / 4) (Z.lor x (u32 (Z.shiftl c (rev mod 4 * 8))));
    from_bytes_loop p n (i + 1) d
  end.

(** The octets [p], most significant first. *)
Definition bn_from_bytes (p : list Z) : res (list Z) :=
  let p := skip_zeros p in
  let n := zlen p in
  if BN_MAX_LIMBS <? (n + 3) / 4 then Err ELPIS_ERR ELPIS_DROP_NONE
  else d ← from_bytes_loop p n 0 (zeros ((n + 3) / 4)); Ok (bn_trim d).

(** Octet [rev] of [a], counted from the least significant. *)
Definition bn_octet (a : list Z) (rev : nat) : Z := u8 (Z.shiftr (limb a (rev / 4)) (Z.of_nat (rev mod 4) * 8)).

(** The [k] octets from [n - k] down. *)
Fixpoint to_bytes_loop (a : list Z) (k : nat) : list Z :=
  match k with O => [] | S k => bn_octet a k :: to_bytes_loop a k end.

Definition bn_to_bytes (a : list Z) (n : Z) : res (list Z) :=
  if n * 8 <? bn_bits a then Err ELPIS_ERR ELPIS_DROP_NONE else Ok (to_bytes_loop a (Z.to_nat n)).

(** Limbs [i] and up of the sum, and the carry left. *)
Fixpoint add_loop (a b : list Z) (k i : nat) (carry : Z) : list Z * Z :=
  match k with
  | O => ([], carry)
  | S k =>
    let s := u64 (u64 (carry + limb a i) + limb b i) in
    let '(r, c) := add_loop a b k (S i) (Z.shiftr s 32) in (u32 s :: r, c)
  end.
Definition bn_add (a b : list Z) : res (list Z) :=
  let n := Z.max (zlen a) (zlen b) in
  let n := if BN_MAX_LIMBS <=? n then BN_MAX_LIMBS - 1 else n in
  let '(r, carry) := add_loop a b (Z.to_nat n) 0 0 in
  r ← bn_fits (if carry =? 0 then r else r ++ [u32 carry]);
  Ok (bn_trim r).

Fixpoint sub_loop (a b : list Z) (k i : nat) (borrow : Z) : list Z :=
  match k with
  | O => []
  | S k =>
    let d := u64 (u64 (limb a i - limb b i) - borrow) in
    u32 d :: sub_loop a b k (S i) (u32 (Z.shiftr d 63))
  end.
Definition bn_sub (a b : list Z) : list Z := bn_trim (sub_loop a b (Nat.max (length a) (length b)) 0 0).

(** The limbs from [i] on doubled, and the carry left. *)
Fixpoint shl1_loop (a : list Z) (carry : Z) : list Z * Z :=
  match a with
  | [] => ([], carry)
  | x :: a => let '(r, c) := shl1_loop a (Z.shiftr x 31) in (Z.lor (u32 (Z.shiftl x 1)) carry :: r, c)
  end.
Definition bn_shl1 (a : list Z) : list Z :=
  let '(r, carry) := shl1_loop a 0 in
  if negb (carry =? 0) && (zlen a <? BN_MAX_LIMBS) then r ++ [carry] else r.

(** [rem.d[0] |= 1] *)
Definition bn_or1 (a : list Z) : list Z := match a with [] => [1] | x :: a => Z.lor x 1 :: a end.

(** [if (bn_cmp(r, m) >= 0) bn_sub(r, r, m)] *)
Definition bn_reduce (r m : list Z) : list Z := if 0 <=? bn_cmp r m then bn_sub r m else r.

(** Bits [i - 1] down to 0 of [a]. *)
Fixpoint mod_loop (a m : list Z) (i : nat) (rem : list Z) : list Z :=
  match i with
  | O => rem
  | S i =>
    let rem := bn_shl1 rem in
    let rem := if negb (bn_bit a i =? 0) then bn_or1 rem else rem in
    mod_loop a m i (bn_reduce rem m)
  end.
Definition bn_mod (a m : list Z) : list Z :=
  if bn_cmp a m <? 0 then bn_copy a else bn_copy (bn_trim (mod_loop a m (Z.to_nat (bn_bits a)) bn_zero)).

Definition bn_addmod (a b m : list Z) : res (list Z) := r ← bn_add a b; Ok (bn_reduce r m).
Definition bn_submod (a b m : list Z) : res (list Z) :=
  if 0 <=? bn_cmp a b then Ok (bn_sub a b)
  else r ← bn_add a (bn_sub m b); Ok (bn_reduce r m).

(** ** Products *)

(** [p = x * b[j] + t[j] + carry; t[j] = low; carry = high] along a row of
    [w]-bit limbs, with a double-width product. *)
Fixpoint mul_row (w x : Z) (b t : list Z) (carry : Z) : list Z * Z :=
  match b, t with
  | y :: b, z :: t =>
    let p := (x * y + z + carry) mod 2 ^ (2 * w) in
    let '(r, c) := mul_row w x b t (Z.shiftr p w) in (p mod 2 ^ w :: r, c)
  | _, _ => ([], carry)
  end.

(** Row [i] and those after it, into [t] from limb [i] on. *)
Fixpoint mul_loop (a b : list Z) (i : Z) (t : list Z) : res (list Z) :=
  match a with
  | [] => Ok t
  | x :: a =>
    if x =? 0 then mul_loop a b (i + 1) t
    else
      let '(r, carry) := mul_row 32 x b (drop (Z.to_nat i) t) 0 in
      t ← blit t i r;
      t ← (if i + zlen b <? BN_MAX_LIMBS then y ← rd t (i + zlen b); wr t (i + zlen b) (u32 (y + carry)) else Ok t);
      mul_loop a b (i + 1) t
  end.
Definition bn_mul (a b : list Z) : res (list Z) :=
  let tn := Z.min (zlen a + zlen b) BN_MAX_LIMBS in
  t ← mul_loop a b 0 (zeros tn); Ok (bn_copy (bn_trim t)).

(** ** Values *)

(** The number a list of [w]-bit limbs stands for. *)
Definition val (w : Z) (l : list Z) : Z := foldr (fun x v => x + 2 ^ w * v) 0 l.
Definition limb_ok (w x : Z) : Prop := 0 <= x < 2 ^ w.
Abbreviation limbs w := (Forall (limb_ok w)).
Abbreviation bn_val := (val 32).

Lemma val_cons w x l : val w (x :: l) = x + 2 ^ w * val w l.
Proof. done. Qed.

Lemma pow_mul_len w n : 0 <= w → 0 <= n → 2 ^ (w * (1 + n)) = 2 ^ w * 2 ^ (w * n).
Proof. intros. rewrite <- Z.pow_add_r by nia. f_equal. lia. Qed.

Lemma val_range w l : 0 <= w → limbs w l → 0 <= val w l < 2 ^ (w * zlen l).
Proof.
  intros Hw. induction 1 as [|x l Hx _ IH]; [rewrite (@zlen_nil Z), Z.mul_0_r; done|].
  rewrite val_cons, zlen_cons, pow_mul_len by (try apply zlen_nonneg; lia). unfold limb_ok in Hx. nia.
Qed.

Lemma val_app w l k : 0 <= w → val w (l ++ k) = val w l + 2 ^ (w * zlen l) * val w k.
Proof.
  intros Hw. induction l as [|x l IH]; [cbn [app]; rewrite (@zlen_nil Z), Z.mul_0_r; change (val w []) with 0; lia|].
  cbn [app]. rewrite !val_cons, zlen_cons, IH, pow_mul_len by (try apply zlen_nonneg; lia). ring.
Qed.

Lemma val_zeros w n : val w (replicate n 0) = 0.
Proof. induction n as [|n IH]; [done|]. cbn [replicate]. rewrite val_cons, IH. lia. Qed.

Lemma limb_range a i : limbs 32 a → limb_ok 32 (limb a i).
Proof.
  intros Ha. unfold limb. destruct (a !! i) as [x|] eqn:E; cbn [default from_option id]; [exact (Forall_lookup_1 _ _ _ _ Ha E)|]. by unfold limb_ok.
Qed.

Lemma limb_take a n i : limb (take n a) i = if decide (i < n)%nat then limb a i else 0.
Proof.
  unfold limb. case_decide; [by rewrite lookup_take_lt|]. by rewrite lookup_take_ge by lia.
Qed.

Lemma limbs_take w n a : limbs w a → limbs w (take n a).
Proof. apply Forall_take. Qed.

(** The first [n] limbs, past the end of the list too. *)
Definition low (a : list Z) (n : nat) : Z := bn_val (take n a).

Lemma low_S a i : limbs 32 a → low a (S i) = low a i + 2 ^ (32 * Z.of_nat i) * limb a i.
Proof.
  intros Ha. unfold low, limb. destruct (a !! i) as [x|] eqn:E; cbn [default from_option id].
  - rewrite (take_S_r _ _ _ E), val_app by lia. pose proof (lookup_lt_Some _ _ _ E).
    assert (zlen (take i a) = Z.of_nat i) as -> by (rewrite zlen_take; zl). change (bn_val [x]) with (x + 2 ^ 32 * 0). lia.
  - apply lookup_ge_None in E. rewrite !take_ge, Z.mul_0_r by lia. lia.
Qed.

Lemma low_all a n : (length a <= n)%nat → low a n = bn_val a.
Proof. intros Hn. unfold low. by rewrite take_ge. Qed.

Lemma low_range a n : limbs 32 a → 0 <= low a n < 2 ^ (32 * Z.of_nat n).
Proof.
  intros Ha. pose proof (val_range 32 (take n a) ltac:(lia) (limbs_take _ n _ Ha)) as Hr. unfold low. rewrite zlen_take in Hr.
  assert (2 ^ (32 * Z.min (Z.of_nat n) (zlen a)) <= 2 ^ (32 * Z.of_nat n)) by (apply Z.pow_le_mono_r; lia). lia.
Qed.

Lemma trim_loop_le a n : (trim_loop a n <= n)%nat.
Proof. induction n as [|n IH]; cbn [trim_loop]; [done|]. case_match; lia. Qed.

Lemma trim_loop_low a n : limbs 32 a → low a (trim_loop a n) = low a n.
Proof.
  intros Ha. induction n as [|n IH]; cbn [trim_loop]; [done|]. destruct (Z.eqb_spec (limb a n) 0) as [E|]; [|done].
  rewrite IH, low_S by done. lia.
Qed.

Lemma trim_loop_top a n k : trim_loop a n = S k → limb a k ≠ 0.
Proof.
  induction n as [|n IH]; cbn [trim_loop]; [done|]. destruct (Z.eqb_spec (limb a n) 0); [by apply IH|]. by intros [= <-].
Qed.

(** No leading zero limb. *)
Definition normal (a : list Z) : Prop := limbs 32 a ∧ ∀ k, length a = S k → limb a k ≠ 0.

Lemma trim_spec a : limbs 32 a → bn_val (bn_trim a) = bn_val a ∧ normal (bn_trim a) ∧ (length (bn_trim a) <= length a)%nat.
Proof.
  intros Ha. unfold bn_trim. pose proof (trim_loop_le a (length a)) as Hle.
  split; [fold (low a (trim_loop a (length a))); by rewrite trim_loop_low, low_all|]. split; [|rewrite length_take; lia].
  split; [by apply limbs_take|]. intros k Hk. rewrite length_take, Nat.min_l in Hk by done. rewrite limb_take, decide_True by lia.
  by eapply trim_loop_top.
Qed.

Lemma trim_val a : limbs 32 a → bn_val (bn_trim a) = bn_val a.
Proof. intros Ha. by apply trim_spec. Qed.

Lemma trim_limbs a : limbs 32 a → limbs 32 (bn_trim a).
Proof. intros Ha. by apply limbs_take. Qed.

Lemma trim_zlen a : zlen (bn_trim a) <= zlen a.
Proof. unfold bn_trim. rewrite zlen_take. lia. Qed.

(** A normal number has as many limbs as its value needs. *)
Lemma normal_low a n : normal a → bn_val a < 2 ^ (32 * Z.of_nat n) → (length a <= n)%nat.
Proof.
  intros [Ha Hn] Hv. destruct (decide (length a <= n)%nat) as [|Hgt]; [done|]. exfalso.
  destruct (length a) as [|k] eqn:El; [lia|]. pose proof (Hn k eq_refl) as Ht. pose proof (limb_range a k Ha) as Hr. unfold limb_ok in Hr.
  rewrite <- (low_all a (S k)), low_S in Hv by (done || lia). pose proof (low_range a k Ha).
  assert (2 ^ (32 * Z.of_nat n) <= 2 ^ (32 * Z.of_nat k)) by (apply Z.pow_le_mono_r; lia). nia.
Qed.

Lemma is_zero_spec a : limbs 32 a → bn_is_zero a = (bn_val a =? 0).
Proof.
  induction 1 as [|x a Hx Ha IH]; [done|]. cbn [bn_is_zero forallb]. fold (bn_is_zero a). rewrite IH, val_cons.
  pose proof (val_range 32 a ltac:(lia) Ha). unfold limb_ok in Hx.
  destruct (Z.eqb_spec x 0), (Z.eqb_spec (bn_val a) 0), (Z.eqb_spec (x + 2 ^ 32 * bn_val a) 0); cbn [andb]; try done; lia.
Qed.

Lemma cmp_loop_spec a b n : limbs 32 a → limbs 32 b →
  cmp_loop a b n = if low a n <? low b n then -1 else if low a n =? low b n then 0 else 1.
Proof.
  intros Ha Hb. induction n as [|n IH]; cbn [cmp_loop]; [done|]. rewrite !low_S by done.
  pose proof (low_range a n Ha). pose proof (low_range b n Hb). set (P := 2 ^ (32 * Z.of_nat n)) in *.
  destruct (Z.eqb_spec (limb a n) (limb b n)) as [->|Hne]; cbn [negb].
  - rewrite IH. destruct (Z.ltb_spec (low a n) (low b n)), (Z.eqb_spec (low a n) (low b n)),
      (Z.ltb_spec (low a n + P * limb b n) (low b n + P * limb b n)), (Z.eqb_spec (low a n + P * limb b n) (low b n + P * limb b n)); lia.
  - destruct (Z.ltb_spec (limb a n) (limb b n)), (Z.ltb_spec (low a n + P * limb a n) (low b n + P * limb b n)),
      (Z.eqb_spec (low a n + P * limb a n) (low b n + P * limb b n)); nia.
Qed.

Lemma cmp_spec a b : limbs 32 a → limbs 32 b →
  bn_cmp a b = if bn_val a <? bn_val b then -1 else if bn_val a =? bn_val b then 0 else 1.
Proof. intros Ha Hb. unfold bn_cmp. rewrite cmp_loop_spec by done. by rewrite !low_all by lia. Qed.

(** ** Bits and octets *)

Lemma bits_loop_spec fuel : ∀ v b, 0 <= v < 2 ^ Z.of_nat fuel → bits_loop fuel v b = b + (if v =? 0 then 0 else Z.log2 v + 1).
Proof.
  induction fuel as [|fuel IH]; intros v b Hv; cbn [bits_loop].
  - change (2 ^ Z.of_nat 0) with 1 in Hv. assert (v = 0) as -> by lia. cbn. lia.
  - destruct (Z.eqb_spec v 0) as [|Hv0]; [lia|]. rewrite Nat2Z.inj_succ, Z.pow_succ_r in Hv by lia. rewrite shiftr_div by lia.
    change (2 ^ 1) with 2. rewrite IH by (split; [apply Z.div_pos; lia|apply Z.div_lt_upper_bound; lia]).
    destruct (Z.eqb_spec (v / 2) 0) as [E|E].
    + assert (v = 1) as -> by (Z.div_mod_to_equations; lia). cbn. lia.
    + assert (Z.log2 v = Z.log2 (v / 2) + 1) as ->; [|lia].
      replace (v / 2) with (Z.shiftr v 1) by (by rewrite Z.shiftr_div_pow2). rewrite Z.log2_shiftr by lia. assert (1 <= Z.log2 v); [|lia].
      apply (Z.log2_le_mono 2). Z.div_mod_to_equations; lia.
Qed.

(** The number of bits of the value. *)
Lemma bits_spec a : limbs 32 a → bn_bits a = if bn_val a =? 0 then 0 else Z.log2 (bn_val a) + 1.
Proof.
  intros Ha. unfold bn_bits. rewrite <- (low_all a (length a)) by done. rewrite <- trim_loop_low by done.
  destruct (trim_loop a (length a)) as [|k] eqn:Ek; [done|]. pose proof (trim_loop_top _ _ _ Ek) as Ht.
  pose proof (limb_range a k Ha) as Hr. unfold limb_ok in Hr. pose proof (low_range a k Ha) as Hl. rewrite low_S by done.
  rewrite bits_loop_spec by exact Hr. destruct (Z.eqb_spec (limb a k) 0); [done|].
  assert (0 < 2 ^ (32 * Z.of_nat k)) as Hp by (apply Z.pow_pos_nonneg; lia).
  destruct (Z.eqb_spec (low a k + 2 ^ (32 * Z.of_nat k) * limb a k) 0); [nia|].
  assert (Z.log2 (low a k + 2 ^ (32 * Z.of_nat k) * limb a k) = 32 * Z.of_nat k + Z.log2 (limb a k)) as ->; [|lia].
  apply Z.log2_unique; [pose proof (Z.log2_nonneg (limb a k)); lia|].
  rewrite <- Z.add_succ_r, !Z.pow_add_r by (pose proof (Z.log2_nonneg (limb a k)); lia).
  pose proof (Z.log2_spec (limb a k)). nia.
Qed.

Lemma bits_bound a n : limbs 32 a → 0 <= n → bn_bits a <= n ↔ bn_val a < 2 ^ n.
Proof.
  intros Ha Hn. rewrite bits_spec by done. pose proof (val_range 32 a ltac:(lia) Ha).
  destruct (Z.eqb_spec (bn_val a) 0) as [->|]; [pose proof (Z.pow_pos_nonneg 2 n); lia|]. rewrite Z.log2_lt_pow2 by lia. lia.
Qed.

(** Limb [k] in the value. *)
Lemma limb_val a k : limbs 32 a → limb a k = (bn_val a / 2 ^ (32 * Z.of_nat k)) mod 2 ^ 32.
Proof.
  intros Ha. rewrite <- (low_all a (S k + length a)) by lia.
  assert (∀ j, ∃ q, low a (S k + j) = low a k + 2 ^ (32 * Z.of_nat k) * (limb a k + 2 ^ 32 * q)) as Hq.
  { induction j as [|j [q IH]].
    - exists 0. rewrite Nat.add_0_r, low_S by done. lia.
    - replace (S k + S j)%nat with (S (S k + j)) by lia. rewrite low_S, IH by done.
      exists (q + 2 ^ (32 * Z.of_nat j) * limb a (S k + j)). replace (32 * Z.of_nat (S k + j)) with (32 * Z.of_nat k + (32 + 32 * Z.of_nat j)) by lia.
      rewrite !Z.pow_add_r by lia. ring. }
  destruct (Hq (length a)) as [q ->]. pose proof (low_range a k Ha). pose proof (limb_range a k Ha) as Hr. unfold limb_ok in Hr.
  assert (0 < 2 ^ (32 * Z.of_nat k)) by (apply Z.pow_pos_nonneg; lia).
  rewrite (Z.mul_comm (2 ^ (32 * Z.of_nat k))), Z.div_add, Z.div_small by lia. rewrite Z.add_0_l, (Z.mul_comm (2 ^ 32)), Z.mod_add by lia.
  by rewrite Z.mod_small.
Qed.

Lemma bit_spec a i : limbs 32 a → bn_bit a i = Z.b2z (Z.testbit (bn_val a) (Z.of_nat i)).
Proof.
  intros Ha. unfold bn_bit. rewrite limb_val by done. change 1 with (Z.ones 1). rewrite Z.land_ones by lia.
  rewrite <- Z.bit0_mod, Z.shiftr_spec, Z.add_0_l by lia. f_equal. pose proof (Nat.mod_upper_bound i 32).
  rewrite Z.mod_pow2_bits_low by lia. rewrite Z.div_pow2_bits by lia. f_equal.
  pose proof (Nat.div_mod_eq i 32). lia.
Qed.

Lemma octet_val a rev : limbs 32 a → bn_octet a rev = (bn_val a / 256 ^ Z.of_nat rev) mod 256.
Proof.
  intros Ha. unfold bn_octet, u8. rewrite limb_val by done. pose proof (Nat.mod_upper_bound rev 4). pose proof (Nat.div_mod_eq rev 4).
  apply Z.bits_inj'. intros n Hn. change 256 with (2 ^ 8). rewrite <- Z.pow_mul_r by lia.
  destruct (Z.lt_ge_cases n 8); [|by rewrite !Z.mod_pow2_bits_high by lia].
  rewrite !Z.mod_pow2_bits_low by lia. rewrite Z.shiftr_spec, Z.mod_pow2_bits_low by lia. rewrite !Z.div_pow2_bits by lia. f_equal. lia.
Qed.

(** The number octets stand for, most significant first. *)
Definition os2ip (p : list Z) : Z := foldl (fun v c => v * 256 + c) 0 p.

Lemma os2ip_from v p : foldl (fun v c => v * 256 + c) v p = v * 256 ^ zlen p + os2ip p.
Proof.
  unfold os2ip. revert v. induction p as [|c p IH]; intros v; cbn [foldl]; [rewrite (@zlen_nil Z); lia|].
  rewrite IH, (IH (0 * 256 + c)), zlen_cons, Z.pow_add_r by (try apply zlen_nonneg; lia). change (256 ^ 1) with 256. ring.
Qed.

Lemma os2ip_cons c p : os2ip (c :: p) = c * 256 ^ zlen p + os2ip p.
Proof. unfold os2ip at 1. cbn [foldl]. by rewrite os2ip_from. Qed.

Lemma os2ip_app p q : os2ip (p ++ q) = os2ip p * 256 ^ zlen q + os2ip q.
Proof. unfold os2ip at 1. rewrite foldl_app. apply os2ip_from. Qed.

Lemma os2ip_range p : bytes p → 0 <= os2ip p < 256 ^ zlen p.
Proof.
  induction 1 as [|c p Hc _ IH]; [done|]. rewrite os2ip_cons, zlen_cons, Z.pow_add_r by (try apply zlen_nonneg; lia).
  unfold byte in Hc. change (256 ^ 1) with 256. nia.
Qed.

Lemma os2ip_inj p q : bytes p → bytes q → zlen p = zlen q → os2ip p = os2ip q → p = q.
Proof.
  intros Hp. revert q. induction Hp as [|c p Hc Hp IH]; intros q Hq Hl He.
  - symmetry. apply zlen_0_nil. by rewrite <- Hl.
  - destruct Hq as [|d q Hd Hq]; [rewrite zlen_cons in Hl; pose proof (zlen_nonneg p); rewrite (@zlen_nil Z) in Hl; lia|].
    rewrite !zlen_cons in Hl. rewrite !os2ip_cons in He. assert (zlen p = zlen q) as E by lia. rewrite E in He.
    pose proof (os2ip_range p Hp) as Rp. pose proof (os2ip_range q Hq) as Rq. rewrite E in Rp. set (B := 256 ^ zlen q) in *.
    assert (c = d) as -> by nia. f_equal. apply IH; [done|done|nia].
Qed.

Lemma skip_zeros_val p : os2ip (skip_zeros p) = os2ip p.
Proof.
  induction p as [|c p IH]; [done|]. cbn [skip_zeros]. destruct (Z.eqb_spec c 0) as [->|]; [|done].
  rewrite IH, os2ip_cons. lia.
Qed.

Lemma skip_zeros_bytes p : bytes p → bytes (skip_zeros p) ∧ zlen (skip_zeros p) <= zlen p.
Proof.
  induction 1 as [|c p Hc Hp IH]; [done|]. cbn [skip_zeros]. destruct (c =? 0); [|split; [by constructor|lia]].
  rewrite zlen_cons. split; [apply IH|destruct IH; lia].
Qed.

Lemma to_bytes_spec a k : limbs 32 a → bytes (to_bytes_loop a k) ∧ zlen (to_bytes_loop a k) = Z.of_nat k ∧
  os2ip (to_bytes_loop a k) = bn_val a mod 256 ^ Z.of_nat k.
Proof.
  intros Ha. induction k as [|k (IHb & IHl & IHv)]; cbn [to_bytes_loop].
  { split_and!; [constructor|done|]. change (256 ^ Z.of_nat 0) with 1. by rewrite Z.mod_1_r. }
  rewrite os2ip_cons, zlen_cons, IHl, IHv. split; [constructor; [apply u8_byte|done]|]. split; [lia|].
  rewrite octet_val by done. rewrite Nat2Z.inj_succ, Z.pow_succ_r by lia. set (B := 256 ^ Z.of_nat k).
  assert (0 < B) by (apply Z.pow_pos_nonneg; lia). rewrite (Z.mul_comm 256), Z.rem_mul_r by lia. lia.
Qed.

Lemma low_insert a k x n : limbs 32 a → limb_ok 32 x → (k < length a)%nat → (k < n)%nat →
  low (<[k := x]> a) n = low a n + 2 ^ (32 * Z.of_nat k) * (x - limb a k).
Proof.
  intros Ha Hx Hk Hn. assert (limbs 32 (<[k := x]> a)) as Hi by (by apply Forall_insert).
  assert (∀ j, limb (<[k := x]> a) j = if decide (j = k) then x else limb a j) as Hl.
  { intros j. unfold limb. case_decide as E; [subst; by rewrite list_lookup_insert_eq|by rewrite list_lookup_insert_ne]. }
  assert (∀ j, low (<[k := x]> a) (k + j) = low a (k + j) + if decide (j = 0%nat) then 0 else 2 ^ (32 * Z.of_nat k) * (x - limb a k)) as Hj.
  { assert (low (<[k := x]> a) k = low a k) as E0 by (unfold low; by rewrite take_insert_ge).
    induction j as [|j IH]; [rewrite Nat.add_0_r, E0, decide_True by done; lia|]. replace (k + S j)%nat with (S (k + j)) by lia.
    rewrite !low_S, IH, Hl by done. destruct (decide (j = 0%nat)) as [->|Hne].
    - rewrite Nat.add_0_r, !decide_True by done. rewrite decide_False by done. lia.
    - rewrite (decide_False (P := k + j = k)%nat) by lia. rewrite decide_False by done. lia. }
  replace n with (k + (n - k))%nat by lia. rewrite Hj, decide_False by lia. done.
Qed.

Lemma val_insert a k x : limbs 32 a → limb_ok 32 x → (k < length a)%nat →
  bn_val (<[k := x]> a) = bn_val a + 2 ^ (32 * Z.of_nat k) * (x - limb a k).
Proof.
  intros Ha Hx Hk. rewrite <- (low_all a (length a)) by lia. rewrite <- low_insert by done. symmetry. apply low_all. by rewrite length_insert.
Qed.

Lemma rd_limb a k : 0 <= k < zlen a → rd a k = Ok (limb a (Z.to_nat k)).
Proof. intros Hk. destruct (rd_in_range a k Hk) as (x & -> & E). unfold limb. by rewrite E. Qed.

(** One more octet: the octets below it in the number are still zero. *)
Lemma octet_step d k r V c : limbs 32 d → 0 <= r < 4 → 0 <= k < zlen d → byte c →
  bn_val d = V * 256 ^ (4 * k + r + 1) → 0 <= V →
  let x := Z.lor (limb d (Z.to_nat k)) (u32 (Z.shiftl c (r * 8))) in
  limb_ok 32 x ∧ bn_val (<[Z.to_nat k := x]> d) = (V * 256 + c) * 256 ^ (4 * k + r).
Proof.
  intros Hd Hr Hk Hc Hv HV x. unfold byte in Hc. pose proof (limb_range d (Z.to_nat k) Hd) as Hlr. unfold limb_ok in Hlr.
  assert (0 < 2 ^ (r * 8) /\ 2 ^ (r * 8) <= 2 ^ 24) as [Hp1 Hp2] by (split; [apply Z.pow_pos_nonneg; lia|apply Z.pow_le_mono_r; lia]).
  assert (∃ y, limb d (Z.to_nat k) = y * 2 ^ (8 * (r + 1)) ∧ 0 <= y) as (y & Ey & Hy0).
  { rewrite limb_val, Z2Nat.id, Hv by (done || lia). replace (4 * k + r + 1) with (4 * k + (r + 1)) by lia. rewrite Z.pow_add_r by lia.
    change 256 with (2 ^ 8). rewrite <- !Z.pow_mul_r by lia. replace (8 * (4 * k)) with (32 * k) by lia.
    assert (0 < 2 ^ (32 * k)) by (apply Z.pow_pos_nonneg; lia).
    replace (V * (2 ^ (32 * k) * 2 ^ (8 * (r + 1)))) with (V * 2 ^ (8 * (r + 1)) * 2 ^ (32 * k)) by ring. rewrite Z.div_mul by lia.
    exists (V mod 2 ^ (32 - 8 * (r + 1))). assert (0 < 2 ^ (32 - 8 * (r + 1))) by (apply Z.pow_pos_nonneg; lia). split; [|apply Z.mod_pos_bound; lia].
    replace (2 ^ 32) with (2 ^ (32 - 8 * (r + 1)) * 2 ^ (8 * (r + 1))) by (rewrite <- Z.pow_add_r by lia; f_equal; lia).
    rewrite Z.mul_mod_distr_r; [done|lia|]. pose proof (Z.pow_pos_nonneg 2 (8 * (r + 1))). lia. }
  assert (2 ^ (8 * (r + 1)) = 256 * 2 ^ (r * 8)) as E8 by (replace (8 * (r + 1)) with (8 + r * 8) by lia; rewrite Z.pow_add_r by lia; done).
  assert (x = limb d (Z.to_nat k) + c * 2 ^ (r * 8)) as Ex.
  { unfold x. rewrite Ey, <- shiftl_mul by lia. rewrite u32_id by (rewrite shiftl_mul by lia; nia).
    rewrite lor_shiftl_add by (rewrite ?shiftl_mul by lia; lia || nia). rewrite !shiftl_mul by lia. done. }
  assert (limb_ok 32 x) as Hx.
  { unfold limb_ok. rewrite Ex, Ey, E8 in *. split; [nia|].
    assert (2 ^ 32 = 2 ^ (24 - r * 8) * (256 * 2 ^ (r * 8))) as E32 by (change 256 with (2 ^ 8); rewrite <- !Z.pow_add_r by lia; f_equal; lia).
    assert (y < 2 ^ (24 - r * 8)) by nia. nia. }
  split; [done|]. rewrite val_insert by (try done; zl). rewrite Ex, Hv, Z2Nat.id by lia.
  assert (256 ^ (4 * k + r) = 2 ^ (32 * k) * 2 ^ (r * 8)) as -> by (change 256 with (2 ^ 8); rewrite <- Z.pow_mul_r, <- Z.pow_add_r by lia; f_equal; lia).
  assert (256 ^ (4 * k + r + 1) = 256 * (2 ^ (32 * k) * 2 ^ (r * 8))) as ->; [|ring].
  change 256 with (2 ^ 8). rewrite <- Z.pow_mul_r, <- !Z.pow_add_r by lia. f_equal. lia.
Qed.

Lemma from_bytes_loop_spec n q : ∀ p i d, bytes p → limbs 32 d → zlen d = q → n <= 4 * q → i + zlen p = n → 0 <= i →
  ∀ V, 0 <= V → bn_val d = V * 256 ^ zlen p →
  ∃ d', from_bytes_loop p n i d = Ok d' ∧ limbs 32 d' ∧ zlen d' = q ∧ bn_val d' = V * 256 ^ zlen p + os2ip p.
Proof.
  induction p as [|c p IH]; intros i d Hp Hd Hl Hq Hn Hi V HV Hv; cbn [from_bytes_loop].
  { exists d. rewrite (@zlen_nil Z) in *. split_and!; try done. unfold os2ip. cbn. lia. }
  apply Forall_cons_1 in Hp as [Hc Hp]. rewrite zlen_cons in Hn. pose proof (zlen_nonneg p).
  set (rev := n - 1 - i). assert (rev = zlen p) as Erev by (unfold rev; lia).
  pose proof (Z.div_mod rev 4). pose proof (Z.mod_pos_bound rev 4).
  rewrite rd_limb by lia. bind_ok. rewrite wr_in_range by lia. bind_ok.
  destruct (octet_step d (rev / 4) (rev mod 4) V c) as [Hx Hv']; try done; try lia.
  { rewrite Hv, zlen_cons. do 2 f_equal. lia. }
  cbn zeta in Hv'. replace (4 * (rev / 4) + rev mod 4) with (zlen p) in Hv' by lia.
  destruct (IH (i + 1) _ Hp (Forall_insert _ _ _ _ Hd Hx) ltac:(rewrite zlen_insert; exact Hl) Hq ltac:(lia) ltac:(lia) (V * 256 + c) ltac:(unfold byte in Hc; lia) Hv')
    as (d' & E & Hd' & Hl' & Hv2). exists d'. split_and!; try done. rewrite Hv2, os2ip_cons, zlen_cons, Z.pow_add_r by lia.
  change (256 ^ 1) with 256. ring.
Qed.

(** Octets read as a number, most significant first; refused past 576 octets. *)
Lemma from_bytes_spec p : bytes p →
  if decide (zlen (skip_zeros p) <= 4 * BN_MAX_LIMBS) then
    ∃ a, bn_from_bytes p = Ok a ∧ normal a ∧ zlen a <= BN_MAX_LIMBS ∧ bn_val a = os2ip p
  else bn_from_bytes p = Err ELPIS_ERR ELPIS_DROP_NONE.
Proof.
  intros Hp. unfold bn_from_bytes. destruct (skip_zeros_bytes p Hp) as [Hb Hz]. set (s := skip_zeros p) in *. pose proof (zlen_nonneg s).
  pose proof (Z.div_mod (zlen s + 3) 4). pose proof (Z.mod_pos_bound (zlen s + 3) 4). set (q := (zlen s + 3) / 4) in *.
  unfold BN_MAX_LIMBS in *. case_decide as Hc; destruct (Z.ltb_spec 144 q); try lia; [|done].
  assert (limbs 32 (zeros q)) as Hzl by (apply Forall_replicate; by unfold limb_ok).
  destruct (from_bytes_loop_spec (zlen s) q s 0 (zeros q) Hb Hzl) with (V := 0) as (d & -> & Hd & Hl & Hv); try lia.
  { apply zlen_zeros. lia. }
  { unfold zeros. rewrite val_zeros. lia. }
  bind_ok. destruct (trim_spec d Hd) as (Ev & Hn & _). exists (bn_trim d). split_and!; try done; [pose proof (trim_zlen d); lia|].
  rewrite Ev, Hv. unfold s. rewrite skip_zeros_val. lia.
Qed.

(** The octets of a number, when they are enough for it. *)
Lemma bn_to_bytes_spec a n : limbs 32 a → 0 <= n →
  if decide (bn_val a < 256 ^ n) then
    ∃ p, bn_to_bytes a n = Ok p ∧ bytes p ∧ zlen p = n ∧ os2ip p = bn_val a
  else bn_to_bytes a n = Err ELPIS_ERR ELPIS_DROP_NONE.
Proof.
  intros Ha Hn. unfold bn_to_bytes. pose proof (bits_bound a (n * 8) Ha ltac:(lia)) as Hb.
  assert (2 ^ (n * 8) = 256 ^ n) as E by (change 256 with (2 ^ 8); rewrite <- Z.pow_mul_r by lia; f_equal; lia). rewrite E in Hb.
  case_decide as Hv; destruct (Z.ltb_spec (n * 8) (bn_bits a)); try (exfalso; apply Hb in Hv; lia); [|done|].
  - destruct (to_bytes_spec a (Z.to_nat n) Ha) as (Hp & Hl & Hval). eexists. split; [done|]. rewrite Z2Nat.id in * by lia.
    split_and!; try done. rewrite Hval. apply Z.mod_small. pose proof (val_range 32 a ltac:(lia) Ha). lia.
  - exfalso. apply Hv, Hb. lia.
Qed.

(** ** Sums and differences *)

Lemma pow32_S i : 2 ^ (32 * Z.of_nat (S i)) = 2 ^ 32 * 2 ^ (32 * Z.of_nat i).
Proof. rewrite <- Z.pow_add_r by lia. f_equal. lia. Qed.

Lemma u32_split s : u32 s + 2 ^ 32 * Z.shiftr s 32 = s.
Proof. unfold u32. rewrite shiftr_div by lia. pose proof (Z.div_mod s (2 ^ 32)). lia. Qed.

Lemma add_loop_spec a b k : limbs 32 a → limbs 32 b → ∀ i carry, 0 <= carry <= 1 →
  let '(r, c) := add_loop a b k i carry in
  limbs 32 r ∧ length r = k ∧ 0 <= c <= 1 ∧
  2 ^ (32 * Z.of_nat i) * (bn_val r + 2 ^ (32 * Z.of_nat k) * c) =
    low a (i + k) - low a i + (low b (i + k) - low b i) + 2 ^ (32 * Z.of_nat i) * carry.
Proof.
  intros Ha Hb. induction k as [|k IH]; intros i carry Hc; cbn [add_loop].
  { rewrite Nat.add_0_r. split; [constructor|]. split; [done|]. split; [done|]. change (2 ^ (32 * Z.of_nat 0)) with 1. change (bn_val []) with 0. lia. }
  pose proof (limb_range a i Ha) as Hx. pose proof (limb_range b i Hb) as Hy. unfold limb_ok in Hx, Hy.
  rewrite (u64_id (carry + limb a i)), u64_id by (rewrite ?u64_id; lia). set (s := carry + limb a i + limb b i).
  assert (0 <= Z.shiftr s 32 <= 1) as Hs by (rewrite shiftr_div by lia; split; [apply Z.div_pos; lia|apply Z.lt_succ_r, Z.div_lt_upper_bound; lia]).
  specialize (IH (S i) (Z.shiftr s 32) Hs). destruct (add_loop a b k (S i) (Z.shiftr s 32)) as [r c]. destruct IH as (Hr & Hl & Hc' & Hv).
  split; [by constructor; [apply u32_range|]|]. split; [cbn [length]; lia|]. split; [done|].
  rewrite val_cons, !pow32_S in *. replace (S i + k)%nat with (i + S k)%nat in Hv by lia. rewrite !low_S in Hv by done.
  pose proof (u32_split s). set (P := 2 ^ (32 * Z.of_nat i)) in *. set (W := 2 ^ (32 * Z.of_nat k)) in *.
  transitivity (P * u32 s + 2 ^ 32 * P * (bn_val r + W * c)); [ring|]. rewrite Hv.
  transitivity (P * (u32 s + 2 ^ 32 * Z.shiftr s 32) + (low a (i + S k) - low a i + (low b (i + S k) - low b i)) - P * limb a i - P * limb b i); [ring|].
  rewrite H. unfold s. ring.
Qed.

(** A sum that fits is exact. *)
Lemma add_spec a b : limbs 32 a → limbs 32 b → zlen a < BN_MAX_LIMBS → zlen b < BN_MAX_LIMBS →
  ∃ r, bn_add a b = Ok r ∧ normal r ∧ bn_val r = bn_val a + bn_val b ∧ zlen r <= Z.max (zlen a) (zlen b) + 1.
Proof.
  intros Ha Hb Hla Hlb. unfold bn_add. destruct (Z.leb_spec BN_MAX_LIMBS (Z.max (zlen a) (zlen b))); [lia|].
  set (n := Z.max (zlen a) (zlen b)) in *. assert (0 <= n) by (unfold n; pose proof (zlen_nonneg a); lia).
  pose proof (add_loop_spec a b (Z.to_nat n) Ha Hb 0%nat 0 ltac:(lia)) as Hs. destruct (add_loop a b (Z.to_nat n) 0 0) as [r c].
  destruct Hs as (Hr & Hl & Hc & Hv). cbn [Nat.add] in Hv. rewrite (low_all a), (low_all b) in Hv by (unfold n; zl).
  change (low a 0) with 0 in Hv. change (low b 0) with 0 in Hv. change (2 ^ (32 * Z.of_nat 0)) with 1 in Hv.
  set (r' := if c =? 0 then r else r ++ [u32 c]).
  assert (limbs 32 r' ∧ bn_val r' = bn_val a + bn_val b ∧ zlen r' <= n + 1) as (Hr' & Hv' & Hl').
  { unfold r'. destruct (Z.eqb_spec c 0) as [->|]; [split; [done|]; split; [lia|zl]|]. rewrite u32_id by lia. split; [|split].
    - apply Forall_app. split; [done|]. constructor; [unfold limb_ok; lia|constructor].
    - rewrite val_app by lia. assert (zlen r = Z.of_nat (Z.to_nat n)) as -> by zl. rewrite val_cons. change (bn_val []) with 0. lia.
    - rewrite zlen_app, zlen_cons, (@zlen_nil Z). zl. }
  unfold bn_fits. destruct (Z.leb_spec (zlen r') BN_MAX_LIMBS); [|unfold BN_MAX_LIMBS in *; lia]. bind_ok.
  destruct (trim_spec r' Hr') as (Ev & Hn & _). exists (bn_trim r'). split_and!; try done; [lia|]. pose proof (trim_zlen r'). lia.
Qed.

Lemma sub_loop_spec a b k : limbs 32 a → limbs 32 b → ∀ i borrow, 0 <= borrow <= 1 →
  limbs 32 (sub_loop a b k i borrow) ∧ length (sub_loop a b k i borrow) = k ∧ ∃ c, 0 <= c <= 1 ∧
  2 ^ (32 * Z.of_nat i) * (bn_val (sub_loop a b k i borrow) - 2 ^ (32 * Z.of_nat k) * c) =
    low a (i + k) - low a i - (low b (i + k) - low b i) - 2 ^ (32 * Z.of_nat i) * borrow.
Proof.
  intros Ha Hb. induction k as [|k IH]; intros i borrow Hc; cbn [sub_loop].
  { rewrite Nat.add_0_r. split; [constructor|]. split; [done|]. exists borrow. split; [done|].
    change (2 ^ (32 * Z.of_nat 0)) with 1. change (bn_val []) with 0. lia. }
  pose proof (limb_range a i Ha) as Hx. pose proof (limb_range b i Hb) as Hy. unfold limb_ok in Hx, Hy.
  set (x := limb a i) in *. set (y := limb b i) in *. set (d := u64 (u64 (x - y) - borrow)). set (e := x - y - borrow).
  assert (∃ c, 0 <= c <= 1 ∧ u32 (Z.shiftr d 63) = c ∧ u32 d - 2 ^ 32 * c = e) as (c & Hc1 & Ec & Ed).
  { assert (d = e mod 2 ^ 64) as Edm by (unfold d, u64, e; by rewrite Zminus_mod_idemp_l). rewrite shiftr_div by lia.
    destruct (Z.lt_ge_cases e 0).
    - assert (d = e + 2 ^ 64) as -> by (rewrite Edm; symmetry; apply (Z.mod_unique_pos _ _ (-1)); unfold e; lia).
      exists 1. split; [lia|]. split; [replace ((e + 2 ^ 64) / 2 ^ 63) with 1 by (apply (Z.div_unique_pos _ _ _ (e + 2 ^ 63)); unfold e in *; lia); by apply u32_id|].
      unfold u32. replace ((e + 2 ^ 64) mod 2 ^ 32) with (e + 2 ^ 32); [lia|]. apply (Z.mod_unique_pos _ _ (2 ^ 32 - 1)); unfold e in *; lia.
    - assert (d = e) as -> by (rewrite Edm; apply Z.mod_small; unfold e in *; lia). exists 0. split; [lia|].
      rewrite Z.div_small by (unfold e in *; lia). split; [done|]. rewrite u32_id by (unfold e in *; lia). lia. }
  rewrite Ec. destruct (IH (S i) c Hc1) as (Hr & Hl & c' & Hc' & Hv). split; [by constructor; [apply u32_range|]|]. split; [cbn [length]; lia|].
  exists c'. split; [done|]. rewrite val_cons, !pow32_S in *. replace (S i + k)%nat with (i + S k)%nat in Hv by lia. rewrite !low_S in Hv by done. fold x y in Hv.
  set (P := 2 ^ (32 * Z.of_nat i)) in *. set (W := 2 ^ (32 * Z.of_nat k)) in *. set (v := bn_val _) in *.
  transitivity (P * (u32 d - 2 ^ 32 * c) + (2 ^ 32 * P * (v - W * c') + 2 ^ 32 * P * c)); [ring|]. rewrite Ed, Hv. unfold e. ring.
Qed.

Lemma sub_spec a b : limbs 32 a → limbs 32 b → bn_val b <= bn_val a →
  normal (bn_sub a b) ∧ bn_val (bn_sub a b) = bn_val a - bn_val b.
Proof.
  intros Ha Hb Hle. unfold bn_sub. set (n := Nat.max (length a) (length b)).
  destruct (sub_loop_spec a b n Ha Hb 0%nat 0 ltac:(lia)) as (Hr & Hl & c & Hc & Hv). cbn [Nat.add] in Hv.
  rewrite (low_all a), (low_all b) in Hv by (unfold n; lia). change (low a 0) with 0 in Hv. change (low b 0) with 0 in Hv. change (2 ^ (32 * Z.of_nat 0)) with 1 in Hv.
  pose proof (val_range 32 _ ltac:(lia) Hr) as Hvr. assert (zlen (sub_loop a b n 0 0) = Z.of_nat n) as El by zl. rewrite El in Hvr.
  assert (c = 0) as -> by nia. destruct (trim_spec _ Hr) as (Ev & Hn & _). split; [done|]. rewrite Ev. lia.
Qed.

Lemma shl1_loop_spec a : limbs 32 a → ∀ carry, 0 <= carry <= 1 →
  let '(r, c) := shl1_loop a carry in
  limbs 32 r ∧ zlen r = zlen a ∧ 0 <= c <= 1 ∧ bn_val r + 2 ^ (32 * zlen a) * c = 2 * bn_val a + carry.
Proof.
  induction 1 as [|x a Hx Ha IH]; intros carry Hc; cbn [shl1_loop].
  { split; [constructor|]. split; [done|]. split; [done|]. rewrite (@zlen_nil Z). change (bn_val []) with 0. lia. }
  unfold limb_ok in Hx. assert (0 <= Z.shiftr x 31 <= 1) as Hs by (rewrite shiftr_div by lia; split; [apply Z.div_pos; lia|apply Z.lt_succ_r, Z.div_lt_upper_bound; lia]).
  specialize (IH _ Hs). destruct (shl1_loop a (Z.shiftr x 31)) as [r c]. destruct IH as (Hr & Hl & Hc' & Hv).
  assert (u32 (Z.shiftl x 1) = 2 * (x mod 2 ^ 31)) as E.
  { unfold u32. rewrite shiftl_mul by lia. change (2 ^ 32) with (2 ^ 31 * 2 ^ 1). rewrite Z.mul_mod_distr_r by lia. lia. }
  assert (Z.lor (u32 (Z.shiftl x 1)) carry = 2 * (x mod 2 ^ 31) + carry) as El.
  { assert (u32 (Z.shiftl x 1) = Z.shiftl (x mod 2 ^ 31) 1) as -> by (rewrite E, shiftl_mul by lia; lia).
    rewrite lor_shiftl_add by (try change (2 ^ 1) with 2; lia). rewrite Z.pow_1_r. lia. }
  rewrite El. pose proof (Z.mod_pos_bound x (2 ^ 31) ltac:(lia)). rewrite shiftr_div in * by lia. pose proof (Z.div_mod x (2 ^ 31) ltac:(lia)).
  split; [constructor; [unfold limb_ok; lia|done]|]. rewrite !zlen_cons, Hl. split; [done|]. split; [done|].
  rewrite !val_cons, pow_mul_len by (try apply zlen_nonneg; lia). set (W := 2 ^ (32 * zlen a)) in *.
  transitivity (2 * (x mod 2 ^ 31) + carry + 2 ^ 32 * (bn_val r + W * c)); [ring|]. rewrite Hv. lia.
Qed.

(** A double that fits is exact. *)
Lemma shl1_spec a : limbs 32 a → zlen a < BN_MAX_LIMBS ∨ (zlen a <= BN_MAX_LIMBS ∧ 2 * bn_val a < 2 ^ (32 * zlen a)) →
  limbs 32 (bn_shl1 a) ∧ bn_val (bn_shl1 a) = 2 * bn_val a ∧ zlen (bn_shl1 a) <= zlen a + 1.
Proof.
  intros Ha Hl. unfold bn_shl1. pose proof (shl1_loop_spec a Ha 0 ltac:(lia)) as Hs. destruct (shl1_loop a 0) as [r c].
  destruct Hs as (Hr & Hlr & Hc & Hv). destruct (Z.eqb_spec c 0) as [->|Hne]; cbn [negb andb]; [split; [done|]; split; lia|].
  pose proof (val_range 32 r ltac:(lia) Hr) as Hvr. rewrite Hlr in Hvr.
  destruct (Z.ltb_spec (zlen a) BN_MAX_LIMBS); [|assert (c = 1) by lia; subst; lia].
  split; [|split].
  - apply Forall_app. split; [done|]. constructor; [unfold limb_ok; lia|constructor].
  - rewrite val_app, Hlr, val_cons by lia. change (bn_val []) with 0. lia.
  - rewrite zlen_app, zlen_cons, (@zlen_nil Z). lia.
Qed.

Lemma reduce_spec r m : limbs 32 r → limbs 32 m → 0 < bn_val m → bn_val r < 2 * bn_val m →
  limbs 32 (bn_reduce r m) ∧ bn_val (bn_reduce r m) = bn_val r mod bn_val m.
Proof.
  intros Hr Hm Hpos Hlt. unfold bn_reduce. rewrite cmp_spec by done. pose proof (val_range 32 r ltac:(lia) Hr).
  destruct (Z.ltb_spec (bn_val r) (bn_val m)).
  - change (0 <=? -1) with false. split; [done|]. symmetry. apply Z.mod_small. lia.
  - assert ((0 <=? (if bn_val r =? bn_val m then 0 else 1)) = true) as -> by (by destruct (_ =? _)).
    destruct (sub_spec r m Hr Hm) as [[Hs _] Hv]; [lia|]. split; [done|]. rewrite Hv. apply (Z.mod_unique_pos _ _ 1); lia.
Qed.

(** ** Remainders *)

(** Normality by value: no shorter list holds it. *)
Lemma normal_iff a : limbs 32 a → normal a ↔ ∀ k, length a = S k → 2 ^ (32 * Z.of_nat k) <= bn_val a.
Proof.
  intros Ha. split.
  - intros Hn k Hk. destruct (Z.lt_ge_cases (bn_val a) (2 ^ (32 * Z.of_nat k))) as [Hlt|]; [|done].
    pose proof (normal_low a k Hn Hlt). lia.
  - intros Hv. split; [done|]. intros k Hk E. specialize (Hv k Hk). rewrite <- (low_all a (S k)), low_S, E in Hv by (done || lia).
    pose proof (low_range a k Ha). lia.
Qed.

Lemma normal_nil : normal [].
Proof. by split; [constructor|]. Qed.

Lemma normal_le a m : normal a → limbs 32 m → bn_val a <= bn_val m → (length a <= length m)%nat.
Proof.
  intros Ha Hm Hv. apply normal_low; [done|]. pose proof (val_range 32 m ltac:(lia) Hm) as Hr. unfold zlen in Hr. lia.
Qed.

Lemma shl1_normal a : normal a → zlen a < BN_MAX_LIMBS → normal (bn_shl1 a).
Proof.
  intros Hn Hl. destruct Hn as [Ha Hn]. pose proof (shl1_spec a Ha (or_introl Hl)) as (Hs & Hv & _). apply normal_iff; [done|].
  intros k Hk. rewrite Hv. unfold bn_shl1 in Hk. pose proof (shl1_loop_spec a Ha 0 ltac:(lia)) as H1.
  assert (normal a) as Hna by done. rewrite normal_iff in Hna by done. unfold bn_shl1 in Hv.
  destruct (shl1_loop a 0) as [r c]. destruct H1 as (Hr & Hlr & Hc & Hvr). destruct (Z.eqb_spec c 0) as [Hc0|Hc0]; cbn [negb andb] in *.
  - specialize (Hna k ltac:(zl)). pose proof (val_range 32 a ltac:(lia) Ha). lia.
  - destruct (Z.ltb_spec (zlen a) BN_MAX_LIMBS); [|lia]. rewrite length_app in Hk. assert (Z.of_nat k = zlen a) as -> by zl.
    assert (c = 1) by lia. subst c. pose proof (val_range 32 r ltac:(lia) Hr). lia.
Qed.

Lemma or1_spec a : normal a → bn_val a mod 2 = 0 → normal (bn_or1 a) ∧ bn_val (bn_or1 a) = bn_val a + 1.
Proof.
  intros Hn Hev. destruct a as [|x a]; cbn [bn_or1].
  { split; [|done]. apply normal_iff; [constructor; [unfold limb_ok; lia|constructor]|]. intros k Hk. assert (k = 0%nat) as -> by (cbn in Hk; lia). done. }
  assert (limbs 32 (x :: a)) as Hl by apply Hn. inversion Hl as [|? ? Hx Ha]; subst. unfold limb_ok in Hx.
  assert (x mod 2 = 0) as Hx2.
  { rewrite val_cons in Hev. change (2 ^ 32) with (2 ^ 31 * 2) in Hev. rewrite <- Z.mul_assoc, (Z.mul_comm (2 ^ 31)), <- Z.mul_assoc in Hev.
    rewrite (Z.mul_comm 2), Z.mod_add in Hev by lia. done. }
  assert (Z.lor x 1 = x + 1) as ->.
  { assert (x = Z.shiftl (x / 2) 1) as Ex by (rewrite shiftl_mul by lia; change (2 ^ 1) with 2; Z.div_mod_to_equations; lia).
    rewrite Ex at 1. rewrite lor_shiftl_add by (try change (2 ^ 1) with 2; lia). change (2 ^ 1) with 2. Z.div_mod_to_equations; lia. }
  assert (x + 1 < 2 ^ 32) by (Z.div_mod_to_equations; lia).
  assert (limbs 32 (x + 1 :: a)) as Hl' by (constructor; [unfold limb_ok; lia|done]).
  assert (bn_val (x + 1 :: a) = bn_val (x :: a) + 1) as Hv by (rewrite !val_cons; lia).
  split; [|done]. apply normal_iff; [done|]. intros k Hk. rewrite Hv. rewrite normal_iff in Hn by done. specialize (Hn k Hk). lia.
Qed.

Lemma reduce_normal r m : normal r → limbs 32 m → normal (bn_reduce r m).
Proof.
  intros Hr Hm. unfold bn_reduce. destruct Hr as [Hl Hn]. rewrite cmp_spec by done.
  destruct (Z.ltb_spec (bn_val r) (bn_val m)); [done|]. assert ((0 <=? (if bn_val r =? bn_val m then 0 else 1)) = true) as -> by (by destruct (_ =? _)).
  by apply sub_spec.
Qed.

Lemma reduce_low r m : limbs 32 r → limbs 32 m → bn_val r < bn_val m → bn_reduce r m = r.
Proof.
  intros Hr Hm Hlt. unfold bn_reduce. rewrite cmp_spec by done. by destruct (Z.ltb_spec (bn_val r) (bn_val m)); [|lia].
Qed.

(** Doubling and reducing a remainder. *)
Lemma double_step rem m b : normal rem → limbs 32 m → zlen m < BN_MAX_LIMBS → bn_val rem < bn_val m →
  let rem1 := bn_shl1 rem in let rem2 := if b : bool then bn_or1 rem1 else rem1 in
  normal (bn_reduce rem2 m) ∧ bn_val (bn_reduce rem2 m) = (2 * bn_val rem + Z.b2z b) mod bn_val m.
Proof.
  intros Hn Hm Hl Hlt rem1 rem2. pose proof (val_range 32 rem ltac:(lia) (proj1 Hn)).
  assert (zlen rem < BN_MAX_LIMBS) as Hlr by (pose proof (normal_le rem m Hn Hm); unfold zlen in *; lia).
  destruct (shl1_spec rem (proj1 Hn) (or_introl Hlr)) as (H1 & V1 & _). pose proof (shl1_normal rem Hn Hlr) as N1.
  assert (normal rem2 ∧ bn_val rem2 = 2 * bn_val rem + Z.b2z b) as [N2 V2].
  { unfold rem2. destruct b; cbn [Z.b2z]; [|split; [done|]; fold rem1 in V1; lia].
    destruct (or1_spec rem1) as [? E]; [done|unfold rem1; rewrite V1, Z.mul_comm; apply Z.mod_mul; lia|]. split; [done|]. rewrite E. unfold rem1. lia. }
  split; [by apply reduce_normal|]. rewrite <- V2. apply reduce_spec; [apply N2|done|lia|]. rewrite V2. destruct b; cbn [Z.b2z]; lia.
Qed.

Lemma mod_S v i : 0 <= v → v mod 2 ^ Z.of_nat (S i) = Z.b2z (Z.testbit v (Z.of_nat i)) * 2 ^ Z.of_nat i + v mod 2 ^ Z.of_nat i.
Proof.
  intros Hv. rewrite Nat2Z.inj_succ, Z.pow_succ_r by lia. rewrite (Z.mul_comm 2).
  rewrite Z.rem_mul_r by (try apply Z.pow_nonzero; lia). rewrite <- Z.testbit_spec' by lia. ring.
Qed.

Lemma mod_loop_spec a m i : limbs 32 a → limbs 32 m → zlen m < BN_MAX_LIMBS → ∀ rem, normal rem → bn_val rem < bn_val m →
  normal (mod_loop a m i rem) ∧
  bn_val (mod_loop a m i rem) = (bn_val rem * 2 ^ Z.of_nat i + bn_val a mod 2 ^ Z.of_nat i) mod bn_val m.
Proof.
  intros Ha Hm Hl. pose proof (val_range 32 a ltac:(lia) Ha). induction i as [|i IH]; intros rem Hn Hlt; cbn [mod_loop].
  { split; [done|]. change (2 ^ Z.of_nat 0) with 1. rewrite Z.mod_1_r, Z.mul_1_r, Z.add_0_r. symmetry. apply Z.mod_small.
    pose proof (val_range 32 rem ltac:(lia) (proj1 Hn)). lia. }
  pose proof (val_range 32 rem ltac:(lia) (proj1 Hn)).
  rewrite bit_spec by done. set (b := Z.testbit (bn_val a) (Z.of_nat i)).
  assert (negb (Z.b2z b =? 0) = b) as -> by (by destruct b). destruct (double_step rem m b Hn Hm Hl Hlt) as [N V].
  specialize (IH _ N). rewrite V in IH. destruct IH as [N' V']; [apply Z.mod_pos_bound; lia|]. split; [done|]. rewrite V'.
  rewrite mod_S by lia. fold b. rewrite Zplus_mod, Zmult_mod_idemp_l, <- Zplus_mod. f_equal.
  rewrite Nat2Z.inj_succ, Z.pow_succ_r by lia. ring.
Qed.

Lemma normal_trim a : normal a → bn_trim a = a.
Proof.
  intros [Ha Hn]. unfold bn_trim. apply take_ge. destruct (length a) as [|k] eqn:E; [lia|]. cbn [trim_loop].
  destruct (Z.eqb_spec (limb a k) 0) as [E0|]; [by apply Hn in E0|]. lia.
Qed.

(** The remainder, whatever the operands: shift and subtract. *)
Lemma mod_spec a m : normal a → limbs 32 m → zlen m < BN_MAX_LIMBS → 0 < bn_val m →
  normal (bn_mod a m) ∧ bn_val (bn_mod a m) = bn_val a mod bn_val m.
Proof.
  intros Hn Hm Hl Hpos. pose proof (val_range 32 a ltac:(lia) (proj1 Hn)) as Hr. unfold bn_mod, bn_copy. rewrite cmp_spec by (done || apply Hn).
  destruct (Z.ltb_spec (bn_val a) (bn_val m)).
  { change (-1 <? 0) with true. split; [done|]. symmetry. apply Z.mod_small. lia. }
  assert (((if bn_val a =? bn_val m then 0 else 1) <? 0) = false) as -> by (by destruct (_ =? _)).
  destruct (mod_loop_spec a m (Z.to_nat (bn_bits a)) (proj1 Hn) Hm Hl bn_zero normal_nil) as [N V]; [done|].
  rewrite (normal_trim _ N). split; [done|]. rewrite V. change (bn_val bn_zero) with 0. rewrite Z.mul_0_l, Z.add_0_l. f_equal.
  assert (0 <= bn_bits a) as Hb by (rewrite bits_spec by apply Hn; destruct (_ =? _); [lia|]; pose proof (Z.log2_nonneg (bn_val a)); lia).
  rewrite Z2Nat.id by done. apply Z.mod_small. split; [lia|]. apply (bits_bound a (bn_bits a) (proj1 Hn) Hb). lia.
Qed.

(** ** Modular sums and differences *)

Lemma addmod_spec a b m : limbs 32 a → limbs 32 b → limbs 32 m → zlen a < BN_MAX_LIMBS → zlen b < BN_MAX_LIMBS →
  bn_val a < bn_val m → bn_val b < bn_val m →
  ∃ r, bn_addmod a b m = Ok r ∧ normal r ∧ bn_val r = (bn_val a + bn_val b) mod bn_val m.
Proof.
  intros Ha Hb Hm Hla Hlb Hva Hvb. unfold bn_addmod. destruct (add_spec a b) as (r & -> & Hn & Hv & _); [done..|]. bind_ok.
  pose proof (val_range 32 a ltac:(lia) Ha). eexists. split; [done|]. split; [by apply reduce_normal|].
  rewrite <- Hv. apply reduce_spec; [apply Hn|done|lia|lia].
Qed.

Lemma submod_spec a b m : limbs 32 a → limbs 32 b → limbs 32 m → zlen a < BN_MAX_LIMBS → zlen m < BN_MAX_LIMBS →
  bn_val a < bn_val m → bn_val b < bn_val m →
  ∃ r, bn_submod a b m = Ok r ∧ normal r ∧ bn_val r = (bn_val a - bn_val b) mod bn_val m.
Proof.
  intros Ha Hb Hm Hla Hlm Hva Hvb. pose proof (val_range 32 a ltac:(lia) Ha). pose proof (val_range 32 b ltac:(lia) Hb).
  unfold bn_submod. rewrite cmp_spec by done. destruct (Z.ltb_spec (bn_val a) (bn_val b)).
  - change (0 <=? -1) with false. destruct (sub_spec m b) as [Hns Hvs]; [done..|lia|].
    assert (zlen (bn_sub m b) < BN_MAX_LIMBS) as Hls by (pose proof (normal_le _ m Hns Hm); unfold zlen in *; lia).
    destruct (add_spec a (bn_sub m b)) as (r & -> & Hn & Hv & _); [done|apply Hns|done..|]. bind_ok.
    eexists. split; [done|]. split; [by apply reduce_normal|]. destruct (reduce_spec r m) as [_ ->]; [apply Hn|done|lia|lia|].
    rewrite Hv, Hvs. replace (bn_val a + (bn_val m - bn_val b)) with (bn_val a - bn_val b + 1 * bn_val m) by ring. apply Z.mod_add. lia.
  - assert ((0 <=? (if bn_val a =? bn_val b then 0 else 1)) = true) as -> by (by destruct (_ =? _)).
    destruct (sub_spec a b) as [Hns Hvs]; [done..|]. eexists. split; [done|]. split; [done|]. rewrite Hvs. symmetry. apply Z.mod_small. lia.
Qed.

(** ** Products *)

Lemma val_nil w : val w [] = 0.
Proof. done. Qed.

Lemma mul_row_spec w x : 0 < w → limb_ok w x → ∀ b t carry, limbs w b → limbs w t → length b = length t → limb_ok w carry →
  let '(r, c) := mul_row w x b t carry in
  limbs w r ∧ length r = length b ∧ limb_ok w c ∧ val w r + 2 ^ (w * zlen b) * c = x * val w b + val w t + carry.
Proof.
  intros Hw Hx. unfold limb_ok in *. assert (0 < 2 ^ w) as HW by (apply Z.pow_pos_nonneg; lia).
  induction b as [|y b IH]; intros [|z t] carry Hb Ht Hl Hc; cbn [length] in Hl; try lia; cbn [mul_row].
  { split; [constructor|]. split; [done|]. split; [done|]. rewrite (@zlen_nil Z), Z.mul_0_r, !val_nil, Z.pow_0_r. lia. }
  apply Forall_cons_1 in Hb as [Hy Hb]. apply Forall_cons_1 in Ht as [Hz Ht]. unfold limb_ok in Hy, Hz.
  assert (0 <= x * y + z + carry < 2 ^ w * 2 ^ w) as Hp by nia.
  replace (2 * w) with (w + w) by lia. rewrite Z.pow_add_r, Z.mod_small by lia. set (p := x * y + z + carry) in *.
  rewrite shiftr_div by lia. assert (0 <= p / 2 ^ w < 2 ^ w) as Hq by (split; [apply Z.div_pos; lia|apply Z.div_lt_upper_bound; lia]).
  specialize (IH t (p / 2 ^ w) Hb Ht ltac:(lia) Hq). destruct (mul_row w x b t (p / 2 ^ w)) as [r c]. destruct IH as (Hr & Hlr & Hc' & Hv).
  split; [constructor; [apply Z.mod_pos_bound; lia|done]|]. split; [cbn [length]; lia|]. split; [done|].
  rewrite !val_cons, zlen_cons, pow_mul_len by (try apply zlen_nonneg; lia).
  transitivity (p mod 2 ^ w + 2 ^ w * (val w r + 2 ^ (w * zlen b) * c)); [ring|]. rewrite Hv.
  pose proof (Z.div_mod p (2 ^ w) ltac:(lia)) as E. transitivity (p mod 2 ^ w + 2 ^ w * (p / 2 ^ w) + 2 ^ w * (x * val w b + val w t)); [ring|].
  replace (p mod 2 ^ w + 2 ^ w * (p / 2 ^ w)) with p by lia. unfold p. ring.
Qed.

(** Zero has only zero limbs. *)
Lemma val_pos_zero w l : 0 <= w → limbs w l → val w l = 0 → Forall (eq 0) l.
Proof.
  intros Hw. induction 1 as [|x l Hx Hl IH]; intros E; [constructor|]. rewrite val_cons in E. unfold limb_ok in Hx.
  pose proof (val_range w l Hw Hl). assert (0 < 2 ^ w) by (apply Z.pow_pos_nonneg; lia).
  pose proof (Z.mul_nonneg_nonneg (2 ^ w) (val w l) ltac:(lia) ltac:(lia)). constructor; [lia|]. apply IH.
  assert (2 ^ w * val w l = 0) as [?|?]%Z.mul_eq_0 by lia; lia.
Qed.

Lemma mul_row_take w x b t carry : mul_row w x b t carry = mul_row w x b (take (length b) t) carry.
Proof.
  revert t carry. induction b as [|y b IH]; intros [|z t] carry; try done. cbn [mul_row length take]. by rewrite IH.
Qed.

(** One row of the product: what is written is the row's sum, the carry included. *)
Lemma mul_step x b i t : limb_ok 32 x → limbs 32 b → limbs 32 t → 0 <= i → i + zlen b < zlen t → zlen t <= BN_MAX_LIMBS →
  bn_val t < 2 ^ (32 * (i + zlen b)) →
  let '(r, carry) := mul_row 32 x b (drop (Z.to_nat i) t) 0 in
  ∃ t', (t1 ← blit t i r; if i + zlen b <? BN_MAX_LIMBS then y ← rd t1 (i + zlen b); wr t1 (i + zlen b) (u32 (y + carry)) else Ok t1) = Ok t' ∧
  limbs 32 t' ∧ zlen t' = zlen t ∧ bn_val t' = bn_val t + 2 ^ (32 * i) * (x * bn_val b) ∧ bn_val t' < 2 ^ (32 * (i + 1 + zlen b)).
Proof.
  intros Hx Hb Ht Hi Hlt Hmax Hv. pose proof (zlen_nonneg b) as Hlb. rewrite mul_row_take.
  set (mid := take (length b) (drop (Z.to_nat i) t)). assert (limbs 32 mid) as Hmid by (by apply Forall_take, Forall_drop).
  assert (length b = length mid) as Hlm by (unfold mid; rewrite length_take, length_drop; zl).
  pose proof (mul_row_spec 32 x ltac:(lia) Hx b mid 0 Hb Hmid Hlm ltac:(unfold limb_ok; lia)) as Hs.
  destruct (mul_row 32 x b mid 0) as [r c]. destruct Hs as (Hr & Hlr & Hc & Hvr).
  assert (zlen r = zlen b) as Ezr by zl. set (pre := take (Z.to_nat i) t). set (post := drop (Z.to_nat (i + zlen b)) t).
  assert (zlen pre = i) as Epre by (unfold pre; rewrite zlen_take; lia).
  assert (t = pre ++ mid ++ post) as Et.
  { unfold pre, mid, post. rewrite <- (take_drop (Z.to_nat i) t) at 1. f_equal. rewrite <- (take_drop (length b) (drop (Z.to_nat i) t)) at 1.
    f_equal. rewrite drop_drop. f_equal. zl. }
  assert (limbs 32 pre ∧ limbs 32 post) as [Hpre Hpost] by (split; [by apply Forall_take|by apply Forall_drop]).
  assert (bn_val t = bn_val pre + 2 ^ (32 * i) * (bn_val mid + 2 ^ (32 * zlen b) * bn_val post)) as Evt.
  { rewrite Et at 1. rewrite !val_app, Epre by lia. assert (zlen mid = zlen b) as -> by zl. done. }
  pose proof (val_range 32 pre ltac:(lia) Hpre) as Rpre. pose proof (val_range 32 mid ltac:(lia) Hmid) as Rmid. pose proof (val_range 32 post ltac:(lia) Hpost) as Rpost.
  replace (32 * (i + zlen b)) with (32 * i + 32 * zlen b) in Hv by lia. rewrite Z.pow_add_r in Hv by lia.
  assert (0 < 2 ^ (32 * i)) as HP by (apply Z.pow_pos_nonneg; lia). assert (0 < 2 ^ (32 * zlen b)) as HQ by (apply Z.pow_pos_nonneg; lia).
  set (P := 2 ^ (32 * i)) in *. set (Q := 2 ^ (32 * zlen b)) in *.
  assert (bn_val post = 0) as Ep0.
  { destruct (Z.eq_dec (bn_val post) 0) as [|Hne]; [done|]. exfalso. assert (Q <= Q * bn_val post) by nia.
    assert (P * Q <= P * (bn_val mid + Q * bn_val post)) by (apply Z.mul_le_mono_nonneg_l; lia). lia. }
  pose proof (val_pos_zero 32 post ltac:(lia) Hpost Ep0) as Hz. assert (0 < zlen post) as Hlp by (unfold post; rewrite zlen_drop; lia).
  clearbody pre mid. assert (drop (Z.to_nat (i + zlen b)) t = post) as Epost by done. clearbody post. destruct post as [|z post]; [zl|]. apply Forall_cons_1 in Hz as [<- Hz].
  rewrite blit_in_range by lia. bind_ok. assert (splice t i r = pre ++ r ++ 0 :: post) as ->.
  { unfold splice. rewrite Ezr, Epost. f_equal. rewrite Et, take_app_le by zl. apply take_ge. zl. }
  destruct (Z.ltb_spec (i + zlen b) BN_MAX_LIMBS); [|lia].
  assert (zlen (pre ++ r ++ 0 :: post) = zlen t) as El by (rewrite Et, !zlen_app; zl).
  assert (pre ++ r ++ 0 :: post = (pre ++ r) ++ 0 :: post) as Ea by (by rewrite <- app_assoc).
  assert (zlen (pre ++ r) = i + zlen b) as Epr by (rewrite zlen_app; lia).
  rewrite Ea, rd_app_r, Epr, Z.sub_diag by lia. change (rd (0 :: post) 0) with (Ok 0). bind_ok. rewrite Z.add_0_l, u32_id by apply Hc.
  rewrite wr_in_range by (rewrite <- Ea, El; lia). rewrite insert_app_r_alt by zl.
  assert (Z.to_nat (i + zlen b) - length (pre ++ r) = 0)%nat as -> by zl. cbn [list_insert insert]. eexists. split; [done|].
  assert (limbs 32 ((pre ++ r) ++ c :: post)) as Hl'.
  { apply Forall_app. split; [apply Forall_app; done|]. constructor; [done|]. by apply Forall_cons_1 in Hpost as [_ ?]. }
  split; [done|]. split; [rewrite <- El, Ea, !zlen_app, !zlen_cons; done|].
  assert (bn_val ((pre ++ r) ++ c :: post) = bn_val t + P * (x * bn_val b)) as Ev.
  { rewrite !val_app, Epr, val_cons by lia. rewrite val_cons in Ep0. assert (bn_val post = 0) as -> by lia.
    rewrite Evt, val_cons, Epre. fold P. assert (2 ^ (32 * (i + zlen b)) = P * Q) as -> by (unfold P, Q; rewrite <- Z.pow_add_r by lia; f_equal; lia).
    transitivity (bn_val pre + P * (bn_val r + Q * c)); [ring|]. rewrite Hvr. rewrite Ep0, !Z.mul_0_r. ring. }
  split; [exact Ev|]. rewrite val_app, Epr, val_cons by lia. rewrite val_cons in Ep0. assert (bn_val post = 0) as -> by lia.
  assert (limbs 32 (pre ++ r)) as Hpr by (by apply Forall_app).
  pose proof (val_range 32 (pre ++ r) ltac:(lia) Hpr) as R. rewrite Epr in R. unfold limb_ok in Hc.
  replace (32 * (i + 1 + zlen b)) with (32 * (i + zlen b) + 32) by lia. rewrite Z.pow_add_r by lia. nia.
Qed.

(** A product that fits is exact. *)
Lemma mul_loop_spec b : limbs 32 b → ∀ a i t, limbs 32 a → limbs 32 t → 0 <= i → i + zlen a + zlen b = zlen t → zlen t <= BN_MAX_LIMBS →
  bn_val t < 2 ^ (32 * (i + zlen b)) →
  ∃ t', mul_loop a b i t = Ok t' ∧ limbs 32 t' ∧ zlen t' = zlen t ∧ bn_val t' = bn_val t + 2 ^ (32 * i) * (bn_val a * bn_val b).
Proof.
  intros Hb. pose proof (zlen_nonneg b) as Hlb. induction a as [|x a IH]; intros i t Ha Ht Hi Hl Hmax Hv; cbn [mul_loop].
  { exists t. rewrite val_nil. split_and!; try done. ring. }
  apply Forall_cons_1 in Ha as [Hx Ha]. rewrite zlen_cons in Hl. pose proof (zlen_nonneg a).
  assert (2 ^ (32 * (i + 1)) = 2 ^ (32 * i) * 2 ^ 32) as EP by (rewrite <- Z.pow_add_r by lia; f_equal; lia).
  destruct (Z.eqb_spec x 0) as [->|Hx0].
  - assert (2 ^ (32 * (i + zlen b)) <= 2 ^ (32 * (i + 1 + zlen b))) by (apply Z.pow_le_mono_r; lia).
    destruct (IH (i + 1) t) as (t' & -> & Ht' & Hl' & Hv'); [done|done|lia..|]. exists t'. split; [done|]. split; [done|]. split; [done|]. rewrite Hv', EP, val_cons. ring.
  - pose proof (mul_step x b i t Hx Hb Ht Hi ltac:(lia) Hmax Hv) as Hs. destruct (mul_row 32 x b (drop (Z.to_nat i) t) 0) as [r c].
    destruct Hs as (t1 & E1 & Ht1 & Hl1 & Hv1 & Hb1). destruct (blit t i r) as [t0|? ?|?]; try done. bind_ok. change (mbind ?f (Ok t0)) with (f t0) in E1. cbv beta in E1.
    rewrite E1. bind_ok. destruct (IH (i + 1) t1) as (t' & -> & Ht' & Hl' & Hv'); [done|done|lia..|]. exists t'. split; [done|]. split; [done|]. split; [lia|].
    rewrite Hv', Hv1, EP, val_cons. ring.
Qed.

Lemma mul_spec a b : limbs 32 a → limbs 32 b → zlen a + zlen b <= BN_MAX_LIMBS →
  ∃ r, bn_mul a b = Ok r ∧ normal r ∧ bn_val r = bn_val a * bn_val b.
Proof.
  intros Ha Hb Hl. unfold bn_mul, bn_copy. rewrite Z.min_l by done. pose proof (zlen_nonneg a). pose proof (zlen_nonneg b).
  assert (zlen (zeros (zlen a + zlen b)) = zlen a + zlen b) as Ez by (rewrite zlen_zeros; lia).
  assert (limbs 32 (zeros (zlen a + zlen b))) as Hz by (apply Forall_replicate; unfold limb_ok; lia).
  destruct (mul_loop_spec b Hb a 0 (zeros (zlen a + zlen b))) as (t & -> & Ht & _ & Hv); [done|done|lia|lia|lia|unfold zeros; rewrite val_zeros; apply Z.pow_pos_nonneg; lia|].
  bind_ok. destruct (trim_spec t Ht) as (Ev & Hn & _). eexists. split; [done|]. split; [done|]. rewrite Ev, Hv. unfold zeros. rewrite val_zeros, Z.mul_0_r, Z.pow_0_r. lia.
Qed.

(** ** Properties *)

(** A normal number is determined by its value. *)
Lemma normal_inj a : ∀ b, normal a → normal b → bn_val a = bn_val b → a = b.
Proof.
  intros b Ha Hb E. assert (length a = length b) as El.
  { pose proof (normal_le a b Ha (proj1 Hb)). pose proof (normal_le b a Hb (proj1 Ha)). lia. }
  apply list_eq_same_length with (length a); [done|done|]. intros i x y Hi Hx Hy.
  pose proof (limb_val a i (proj1 Ha)) as H1. pose proof (limb_val b i (proj1 Hb)) as H2. unfold limb in H1, H2. rewrite Hx in H1. rewrite Hy in H2.
  cbn in H1, H2. rewrite E in H1. congruence.
Qed.

(** Reading octets into a big number and writing it back: up to 576 octets after the leading zeros
    [bn_from_bytes] succeeds, the number it makes has no leading zero limb and the value of the
    octets, most significant first, and [bn_to_bytes] into as many octets gives them back.
    Anything longer is refused. *)
Theorem bn_bytes_round_trip p : bytes p →
  if decide (zlen (skip_zeros p) <= 4 * BN_MAX_LIMBS) then
    ∃ a, bn_from_bytes p = Ok a ∧ normal a ∧ bn_val a = os2ip p ∧ bn_to_bytes a (zlen p) = Ok p
  else bn_from_bytes p = Err ELPIS_ERR ELPIS_DROP_NONE.
Proof.
  intros Hp. pose proof (from_bytes_spec p Hp) as Hf. case_decide; [|done]. destruct Hf as (a & Ha & Hn & _ & Hv).
  exists a. split; [done|]. split; [done|]. split; [done|]. pose proof (bn_to_bytes_spec a (zlen p) (proj1 Hn) (zlen_nonneg p)) as Ht.
  rewrite decide_True in Ht by (rewrite Hv; by apply os2ip_range). destruct Ht as (q & -> & Hq & Hl & Hvq).
  f_equal. apply os2ip_inj; try done. congruence.
Qed.

Lemma bn_bytes_round_trip_witness : bytes [0; 1; 35; 69; 103; 137] ∧
  ∃ a, bn_from_bytes [0; 1; 35; 69; 103; 137] = Ok a ∧ normal a ∧ bn_val a = 4886718345 ∧ bn_to_bytes a 6 = Ok [0; 1; 35; 69; 103; 137].
Proof.
  assert (bytes [0; 1; 35; 69; 103; 137]) as Hb by (repeat apply Forall_cons_2; try (unfold byte; lia); constructor).
  split; [exact Hb|]. exact (bn_bytes_round_trip [0; 1; 35; 69; 103; 137] Hb).
Defined.

(** The arithmetic is that of the integers: on numbers of 32-bit limbs that leave room in the
    array, comparison, sum, product and remainder are exact, a difference is exact where the
    subtrahend is not the larger, the modular sum and difference of remainders are the remainders
    of the sum and the difference, and every result is without leading zero limbs. *)
Theorem bn_arith_exact a b m : normal a → normal b → limbs 32 m → zlen a < BN_MAX_LIMBS → zlen b < BN_MAX_LIMBS → zlen m < BN_MAX_LIMBS →
  0 < bn_val m →
  bn_cmp a b = (if bn_val a <? bn_val b then -1 else if bn_val a =? bn_val b then 0 else 1) ∧
  (∃ r, bn_add a b = Ok r ∧ normal r ∧ bn_val r = bn_val a + bn_val b) ∧
  (bn_val b <= bn_val a → normal (bn_sub a b) ∧ bn_val (bn_sub a b) = bn_val a - bn_val b) ∧
  (zlen a + zlen b <= BN_MAX_LIMBS → ∃ r, bn_mul a b = Ok r ∧ normal r ∧ bn_val r = bn_val a * bn_val b) ∧
  (normal (bn_mod a m) ∧ bn_val (bn_mod a m) = bn_val a mod bn_val m) ∧
  (bn_val a < bn_val m → bn_val b < bn_val m →
    (∃ r, bn_addmod a b m = Ok r ∧ normal r ∧ bn_val r = (bn_val a + bn_val b) mod bn_val m) ∧
    (∃ r, bn_submod a b m = Ok r ∧ normal r ∧ bn_val r = (bn_val a - bn_val b) mod bn_val m)).
Proof.
  intros Ha Hb Hm Hla Hlb Hlm Hpos. pose proof (proj1 Ha) as La. pose proof (proj1 Hb) as Lb.
  split; [by apply cmp_spec|]. split; [destruct (add_spec a b) as (r & ? & ? & ? & _); eauto|].
  split; [by apply sub_spec|]. split; [by apply mul_spec|]. split; [by apply mod_spec|].
  intros Hva Hvb. split; [by apply addmod_spec|by apply submod_spec].
Qed.

Lemma bn_arith_exact_witness : bn_cmp [5; 7; 9] [1; 2; 3] = 1 ∧ bn_val (bn_mod [5; 7; 9] [11; 13]) = 10241845098.
Proof.
  assert (∀ x y z, 0 <= x < 2 ^ 32 → 0 <= y < 2 ^ 32 → 0 < z < 2 ^ 32 → normal [x; y; z]) as N3.
  { intros x y z Hx Hy Hz. split; [repeat apply Forall_cons_2; try (unfold limb_ok; lia); constructor|].
    intros k Hk. assert (k = 2%nat) as -> by (cbn in Hk; lia). cbn. lia. }
  assert (limbs 32 [11; 13]) as Hm by (repeat apply Forall_cons_2; try (unfold limb_ok; lia); constructor).
  destruct (bn_arith_exact [5; 7; 9] [1; 2; 3] [11; 13]) as (E & _ & _ & _ & [Hn Hv] & _);
    [apply N3; lia|apply N3; lia|exact Hm|reflexivity..|]. split; [exact E|]. rewrite Hv. vm_compute. reflexivity.
Defined.
