(* ===== verification/Mont.v ===== *)
(** Montgomery arithmetic: the second half of src/crypto/bn.c.

    The multiplication has two bodies, over 32-bit and over 64-bit limbs: one
    loop, of the limb's width, is both.  [u128] says whether the build has the
    128-bit product that selects the second; every theorem is for both. *)
From stdpp Require Import base list numbers.
From Stdlib Require Import ZArith Lia Zdivisibility.
From Stdlib Require ZmodInv.
From S2P Require Import Prelude Bytes Bn.

(** ** Definitions *)

(** What [mont_init] leaves.  [m_m64] and [m_m0inv64] are set for an even
    number of limbs only, and read for no other. *)
Record mont_t := mkMont {
  m_m : list Z; m_rr : list Z; m_m0inv : Z; m_k : nat; m_m64 : list Z; m_m0inv64 : Z }.

(** [inv *= 2u - m0 * inv], in [w]-bit words. *)
Fixpoint newton (w m0 : Z) (n : nat) (inv : Z) : Z :=
  match n with O => inv | S n => newton w m0 n ((inv * ((2 - (m0 * inv) mod 2 ^ w) mod 2 ^ w)) mod 2 ^ w) end.

(** [(uint64_t)A[2i] | ((uint64_t)A[2i + 1] << 32)], for each pair. *)
Fixpoint pair64 (a : list Z) : list Z :=
  match a with x :: y :: a => Z.lor x (u64 (Z.shiftl y 32)) :: pair64 a | _ => [] end.

(** [bn_shl1(&t); if (bn_cmp(&t, m) >= 0) bn_sub(&t, &t, m)], [n] times. *)
Fixpoint rr_loop (n : nat) (t m : list Z) : list Z :=
  match n with O => t | S n => rr_loop n (bn_reduce (bn_shl1 t) m) m end.

(** The total of the multiplication over [w]-bit limbs has [k + 2] limbs.
    [t += ai * b]: the [k] lower limbs and the two upper ones.  The last is
    written before it is read. *)
Definition cios_mul (w : Z) (b : list Z) (ai : Z) (t : list Z * Z) : list Z * Z * Z :=
  let '(lo, tk) := t in
  let '(lo, carry) := mul_row w ai b lo 0 in
  let p := (tk + carry) mod 2 ^ (2 * w) in
  (lo, p mod 2 ^ w, Z.shiftr p w mod 2 ^ w).

(** [t = (t + mi * m) / 2^w], each limb written one place down. *)
Definition cios_red (w minv : Z) (m : list Z) (t : list Z * Z * Z) : list Z * Z :=
  let '(lo, tk, tk1) := t in
  let mi := (limb lo 0 * minv) mod 2 ^ w in
  let p := (mi * limb m 0 + limb lo 0) mod 2 ^ (2 * w) in
  let '(r, carry) := mul_row w mi (tail m) (tail lo) (Z.shiftr p w) in
  let p := (tk + carry) mod 2 ^ (2 * w) in
  (r ++ [p mod 2 ^ w], (tk1 + Z.shiftr p w mod 2 ^ w) mod 2 ^ w).

Definition cios_step (w minv : Z) (m b : list Z) (ai : Z) (t : list Z * Z) : list Z * Z :=
  cios_red w minv m (cios_mul w b ai t).

Fixpoint cios_loop (w minv : Z) (m b a : list Z) (t : list Z * Z) : list Z * Z :=
  match a with [] => t | ai :: a => cios_loop w minv m b a (cios_step w minv m b ai t) end.

(** [r->d[2i] = (uint32_t)t[i]; r->d[2i + 1] = (uint32_t)(t[i] >> 32)] *)
Fixpoint split64 (t : list Z) : list Z :=
  match t with [] => [] | x :: t => u32 x :: u32 (Z.shiftr x 32) :: split64 t end.

Definition mont_mul64 (A B : list Z) (c : mont_t) : list Z :=
  let k := (m_k c / 2)%nat in
  let '(t, tk) := cios_loop 64 (m_m0inv64 c) (m_m64 c) (pair64 B) (pair64 A) (replicate k 0, 0) in
  let r := split64 t in
  let r := if negb (tk =? 0) && (2 * Z.of_nat k + 2 <=? BN_MAX_LIMBS) then r ++ split64 [tk] else r in
  bn_reduce (bn_trim r) (m_m c).

(** [memcpy(A, a->d, min(n, k)); memset(A + n, 0, k - n)] *)
Definition pad_limbs (a : list Z) (k : nat) : list Z := take k a ++ replicate (k - length a) 0.

Section Build.
Context (u128 : bool).

Definition mont_mul (a b : list Z) (c : mont_t) : list Z :=
  let k := m_k c in
  let A := pad_limbs a k in
  let B := pad_limbs b k in
  if u128 && Nat.even k then mont_mul64 A B c
  else
    let '(t, tk) := cios_loop 32 (m_m0inv c) (m_m c) B A (replicate k 0, 0) in
    let r := if (Z.of_nat k <? BN_MAX_LIMBS) && negb (tk =? 0) then t ++ [tk] else t in
    bn_reduce (bn_trim r) (m_m c).

Definition mont_to (a : list Z) (c : mont_t) : list Z := mont_mul a (m_rr c) c.
Definition mont_from (a : list Z) (c : mont_t) : list Z := mont_mul a (bn_set_u32 1) c.

Definition mont_init (m : list Z) : res mont_t :=
  if (zlen m =? 0) || (Z.land (limb m 0) 1 =? 0) then Err ELPIS_ERR ELPIS_DROP_NONE
  else if BN_MAX_LIMBS <? zlen m + 2 then Err ELPIS_ERR ELPIS_DROP_NONE
  else
    let cm := bn_trim m in
    let k := length cm in
    let m0inv := u32 (0 - newton 32 (limb cm 0) 5 1) in
    let m64 := if u128 && Nat.even k then pair64 cm else [] in
    let m0inv64 := if u128 && Nat.even k then u64 (0 - newton 64 (limb m64 0) 6 1) else 0 in
    Ok (mkMont cm (rr_loop (k * 64) (bn_set_u32 1) cm) m0inv k m64 m0inv64).

(** Bits [i - 1] down to 0 of [e]. *)
Fixpoint modexp_loop (i : nat) (e base acc : list Z) (c : mont_t) : list Z :=
  match i with
  | O => acc
  | S i =>
    let acc := mont_mul acc acc c in
    let acc := if negb (bn_bit e i =? 0) then mont_mul acc base c else acc in
    modexp_loop i e base acc c
  end.

Definition bn_modexp (a e : list Z) (c : mont_t) : list Z :=
  let am := bn_mod a (m_m c) in
  let base := mont_to am c in
  let acc := mont_to (bn_set_u32 1) c in
  let bits := bn_bits e in
  if bits =? 0 then mont_from acc c
  else mont_from (modexp_loop (Z.to_nat bits) e base acc c) c.

Definition bn_modinv_prime (a : list Z) (c : mont_t) : list Z :=
  bn_modexp a (bn_sub (m_m c) (bn_set_u32 2)) c.
End Build.

(** ** The inverse of the lowest limb *)

(** Congruence. *)
Lemma cong_divide W a b : W ≠ 0 → a mod W = b mod W ↔ (W | a - b).
Proof.
  intros HW. split.
  - intros E. exists (a / W - b / W). pose proof (Z.div_mod a W HW). pose proof (Z.div_mod b W HW). lia.
  - intros [q Hq]. replace a with (b + q * W) by lia. by apply Z.mod_add.
Qed.

(** Each step of Newton's iteration doubles the correct bits. *)
Lemma newton_step w m0 inv e : 0 <= e → e + e <= w → (2 ^ e | m0 * inv - 1) →
  (2 ^ (e + e) | m0 * ((inv * ((2 - (m0 * inv) mod 2 ^ w) mod 2 ^ w)) mod 2 ^ w) - 1).
Proof.
  intros He Hw [q Hq]. assert ((2 ^ (e + e) | 2 ^ w)) as Hd by (exists (2 ^ (w - (e + e))); rewrite <- Z.pow_add_r by lia; f_equal; lia).
  assert (2 ^ w ≠ 0) as HW by (apply Z.pow_nonzero; lia). set (W := 2 ^ w) in *. set (x := m0 * inv) in *. set (z := inv * ((2 - x mod W) mod W)).
  assert ((W | m0 * (z mod W) - x * (2 - x))) as Hc.
  { apply cong_divide; [done|]. rewrite Zmult_mod_idemp_r. unfold z. rewrite Z.mul_assoc. fold x.
    by rewrite Zmult_mod_idemp_r, <- Zmult_mod_idemp_r, Zminus_mod_idemp_r, Zmult_mod_idemp_r. }
  assert (2 ^ (e + e) = 2 ^ e * 2 ^ e) as Ep by (by rewrite Z.pow_add_r).
  replace (m0 * (z mod W) - 1) with ((m0 * (z mod W) - x * (2 - x)) - (x - 1) * (x - 1)) by ring.
  apply Z.divide_sub_r; [by etransitivity|]. exists (q * q). rewrite Hq, Ep. ring.
Qed.

Lemma newton_range w m0 n : 0 < w → ∀ inv, 0 <= inv < 2 ^ w → 0 <= newton w m0 n inv < 2 ^ w.
Proof.
  intros Hw. induction n as [|n IH]; intros inv Hi; cbn [newton]; [done|]. apply IH, Z.mod_pos_bound, Z.pow_pos_nonneg; lia.
Qed.

Lemma newton_spec w m0 n : ∀ inv e, 0 <= e → e * 2 ^ Z.of_nat n <= w → (2 ^ e | m0 * inv - 1) →
  (2 ^ (e * 2 ^ Z.of_nat n) | m0 * newton w m0 n inv - 1).
Proof.
  induction n as [|n IH]; intros inv e He Hw Hd; cbn [newton]; [by rewrite Z.mul_1_r|].
  rewrite Nat2Z.inj_succ, Z.pow_succ_r in * by lia. replace (e * (2 * 2 ^ Z.of_nat n)) with ((e + e) * 2 ^ Z.of_nat n) in * by ring.
  pose proof (Z.pow_pos_nonneg 2 (Z.of_nat n)). apply IH; [lia|done|]. apply newton_step; [done|nia|done].
Qed.

(** [- m0^-1] modulo the word. *)
Lemma minv_spec w m0 n : 0 < w → 2 ^ Z.of_nat n = w → m0 mod 2 = 1 →
  let minv := (0 - newton w m0 n 1) mod 2 ^ w in 0 <= minv < 2 ^ w ∧ (2 ^ w | m0 * minv + 1).
Proof.
  intros Hw Hn Hodd minv. split; [apply Z.mod_pos_bound, Z.pow_pos_nonneg; lia|].
  pose proof (newton_spec w m0 n 1 1 ltac:(lia) ltac:(lia)) as Hd. rewrite Z.mul_1_l, Hn in Hd.
  assert ((2 ^ w | m0 * newton w m0 n 1 - 1)) as [q Hq] by (apply Hd; exists (m0 / 2); rewrite Z.pow_1_r; pose proof (Z.div_mod m0 2); lia).
  assert (2 ^ w ≠ 0) as HW by (apply Z.pow_nonzero; lia). replace (m0 * minv + 1) with (m0 * minv - -1) by lia. apply cong_divide; [done|].
  unfold minv. rewrite Zmult_mod_idemp_r. apply cong_divide; [done|]. exists (- q). lia.
Qed.

(** ** The multiplication loop *)

Lemma pow_w_pos w : 0 < w → 2 <= 2 ^ w.
Proof. intros Hw. change 2 with (2 ^ 1) at 1. apply Z.pow_le_mono_r; lia. Qed.

Lemma word_split w p : 0 < w → 0 <= p < 2 ^ w * 2 ^ w →
  p mod 2 ^ (2 * w) = p ∧ limb_ok w (Z.shiftr p w) ∧ limb_ok w (p mod 2 ^ w) ∧ p = p mod 2 ^ w + 2 ^ w * Z.shiftr p w.
Proof.
  intros Hw Hp. pose proof (pow_w_pos w Hw). replace (2 * w) with (w + w) by lia. rewrite Z.pow_add_r, Z.mod_small by lia. split; [done|].
  rewrite shiftr_div by lia. split; [split; [apply Z.div_pos; lia|apply Z.div_lt_upper_bound; lia]|]. split; [apply Z.mod_pos_bound; lia|].
  pose proof (Z.div_mod p (2 ^ w)). lia.
Qed.

Lemma cios_mul_spec w b ai lo tk : 0 < w → limbs w b → limbs w lo → length b = length lo → limb_ok w ai → limb_ok w tk →
  let '(lo', tk', tk1) := cios_mul w b ai (lo, tk) in
  limbs w lo' ∧ length lo' = length lo ∧ limb_ok w tk' ∧ limb_ok w tk1 ∧
  val w lo' + 2 ^ (w * zlen lo) * (tk' + 2 ^ w * tk1) = val w lo + 2 ^ (w * zlen lo) * tk + ai * val w b.
Proof.
  intros Hw Hb Hlo Hl Hai Htk. unfold cios_mul. pose proof (pow_w_pos w Hw).
  pose proof (mul_row_spec w ai Hw Hai b lo 0 Hb Hlo Hl ltac:(unfold limb_ok; lia)) as H1.
  destruct (mul_row w ai b lo 0) as [r c]. destruct H1 as (Hr & Hlr & Hc & V). unfold limb_ok in Htk, Hc.
  destruct (word_split w (tk + c) Hw) as (-> & Hh & Hm & E); [nia|]. rewrite (Z.mod_small (Z.shiftr _ _)) by exact Hh.
  split; [done|]. split; [lia|]. split; [done|]. split; [done|]. rewrite <- E. assert (zlen b = zlen lo) as Eb by zl. rewrite Eb in V.
  transitivity (val w r + 2 ^ (w * zlen lo) * c + 2 ^ (w * zlen lo) * tk); [ring|]. rewrite V. ring.
Qed.

(** The reduction divides exactly; [hi] is its top before it is cut to a word. *)
Lemma cios_red_spec w minv m lo tk tk1 : 0 < w → limbs w m → limbs w lo → length m = length lo → (0 < length m)%nat →
  limb_ok w tk → limb_ok w tk1 → 0 <= minv < 2 ^ w → (2 ^ w | limb m 0 * minv + 1) →
  ∃ r hi q, cios_red w minv m (lo, tk, tk1) = (r, hi mod 2 ^ w) ∧ limbs w r ∧ length r = length m ∧ 0 <= hi ∧ 0 <= q < 2 ^ w ∧
  2 ^ w * (val w r + 2 ^ (w * zlen m) * hi) = val w lo + 2 ^ (w * zlen m) * (tk + 2 ^ w * tk1) + q * val w m.
Proof.
  intros Hw Hm Hlo Hl Hne Htk Htk1 Hminv Hdiv. pose proof (pow_w_pos w Hw) as HW. unfold cios_red.
  destruct m as [|m0 ms], lo as [|x0 xs]; cbn [length] in Hl, Hne; try lia. change (limb (x0 :: xs) 0) with x0. change (limb (m0 :: ms) 0) with m0 in *. cbn [tail].
  apply Forall_cons_1 in Hm as [Hm0 Hms]. apply Forall_cons_1 in Hlo as [Hx0 Hxs]. unfold limb_ok in *. set (W := 2 ^ w) in *.
  set (mi := (x0 * minv) mod W). assert (0 <= mi < W) as Hmi by (apply Z.mod_pos_bound; lia).
  destruct (word_split w (mi * m0 + x0) Hw) as (-> & Hh2 & _ & E2); [fold W; nia|]. fold W in E2.
  assert ((mi * m0 + x0) mod W = 0) as Ez.
  { destruct Hdiv as [q Hq]. unfold mi. rewrite Zplus_mod, Zmult_mod_idemp_l, <- Zplus_mod.
    replace (x0 * minv * m0 + x0) with (x0 * (m0 * minv + 1)) by ring. rewrite Hq, Z.mul_assoc. apply Z.mod_mul. lia. }
  rewrite Ez, Z.add_0_l in E2. set (c2 := Z.shiftr (mi * m0 + x0) w) in *.
  pose proof (mul_row_spec w mi Hw Hmi ms xs c2 Hms Hxs ltac:(lia) Hh2) as H2.
  destruct (mul_row w mi ms xs c2) as [r2 c3]. destruct H2 as (Hr2 & Hl2 & Hc3 & V2). unfold limb_ok in Hc3. fold W in Hc3.
  destruct (word_split w (tk + c3) Hw) as (-> & Hh3 & Hl3 & E3); [fold W; nia|]. fold W in E3, Hl3. set (hi := Z.shiftr (tk + c3) w) in *.
  unfold limb_ok in Hh3, Hl3. fold W in Hh3, Hl3. rewrite (Z.mod_small hi) by lia. set (lo3 := (tk + c3) mod W) in *.
  exists (r2 ++ [lo3]), (tk1 + hi), mi. split; [done|]. split; [apply Forall_app; split; [done|]; constructor; [done|constructor]|].
  split; [rewrite length_app; cbn; lia|]. split; [lia|]. split; [done|].
  pose proof (zlen_nonneg ms). rewrite zlen_cons, pow_mul_len, val_app by lia. fold W. assert (zlen r2 = zlen ms) as -> by zl.
  rewrite !val_cons, val_nil. fold W. set (P := 2 ^ (w * zlen ms)) in *. rewrite Z.mul_0_r, Z.add_0_r.
  transitivity (W * (val w r2 + P * c3) - W * P * c3 + W * P * (lo3 + W * hi) + W * P * (W * tk1)); [ring|].
  rewrite V2, <- E3. transitivity (W * mi * val w ms + W * val w xs + W * c2 + W * P * (tk + W * tk1)); [ring|]. rewrite <- E2. ring.
Qed.

Section Cios.
Context (w minv : Z) (m b : list Z).
Context (Hw : 0 < w) (Hm : limbs w m) (Hb : limbs w b) (Hk : length b = length m) (Hne : (0 < length m)%nat).
Context (Hminv : 0 <= minv < 2 ^ w) (Hdiv : (2 ^ w | limb m 0 * minv + 1)).

(** The running total, under the sum of [b] and the modulus. *)
Definition total (t : list Z * Z) : Z := val w t.1 + 2 ^ (w * zlen m) * t.2.
Definition wf_total (t : list Z * Z) : Prop :=
  limbs w t.1 ∧ length t.1 = length m ∧ limb_ok w t.2 ∧ total t < val w b + val w m.

Lemma cios_step_spec ai t : limb_ok w ai → wf_total t →
  wf_total (cios_step w minv m b ai t) ∧
  ∃ q, 2 ^ w * total (cios_step w minv m b ai t) = total t + ai * val w b + q * val w m.
Proof.
  intros Hai (Hlo & Hll & Htk & Hlt). destruct t as [lo tk]. unfold total in *. cbn [fst snd] in *. pose proof (pow_w_pos w Hw) as HW. unfold cios_step.
  pose proof (cios_mul_spec w b ai lo tk Hw Hb Hlo ltac:(lia) Hai Htk) as H1. destruct (cios_mul w b ai (lo, tk)) as [[lo' tk'] tk1].
  destruct H1 as (Hlo' & Hll' & Htk' & Htk1 & E1). assert (zlen lo = zlen m) as El by zl. rewrite El in E1.
  destruct (cios_red_spec w minv m lo' tk' tk1) as (r & hi & q & -> & Hr & Hlr & Hhi & Hq & E2); [done..|lia|done|done|done|done|done|].
  rewrite E1 in E2. pose proof (val_range w b ltac:(lia) Hb) as Rb. pose proof (val_range w m ltac:(lia) Hm) as Rm. pose proof (val_range w r ltac:(lia) Hr) as Rr.
  assert (zlen b = zlen m) as Eb by zl. rewrite Eb in Rb. unfold limb_ok in Hai. set (S1 := val w r + 2 ^ (w * zlen m) * hi) in *.
  assert (S1 < val w b + val w m) as HS by (apply (Z.mul_lt_mono_pos_l (2 ^ w)); [lia|]; rewrite E2; nia).
  assert (hi < 2) as H2 by (unfold S1 in HS; nia). rewrite (Z.mod_small hi) by lia. split.
  - split_and!; try done; [unfold limb_ok; cbn [snd]; lia].
  - exists q. cbn [fst snd]. lia.
Qed.

(** All the turns: the product times the inverse of the radix, under twice the modulus. *)
Lemma cios_loop_spec a : limbs w a → ∀ t, wf_total t →
  wf_total (cios_loop w minv m b a t) ∧
  ∃ q, 2 ^ (w * zlen a) * total (cios_loop w minv m b a t) = total t + val w a * val w b + q * val w m.
Proof.
  induction 1 as [|ai a Hai Ha IH]; intros t Ht; cbn [cios_loop].
  { split; [done|]. exists 0. rewrite (@zlen_nil Z), Z.mul_0_r, Z.pow_0_r, val_nil. lia. }
  destruct (cios_step_spec ai t Hai Ht) as [Ht' [q Hq]]. destruct (IH _ Ht') as [Hf [q' Hq']]. split; [done|]. exists (q + 2 ^ w * q').
  rewrite zlen_cons, pow_mul_len, val_cons by (try apply zlen_nonneg; lia). rewrite <- Z.mul_assoc, Hq'.
  transitivity (2 ^ w * total (cios_step w minv m b ai t) + 2 ^ w * (val w a * val w b + q' * val w m)); [ring|]. rewrite Hq. ring.
Qed.
End Cios.

(** ** Limbs of either width *)

Lemma pair64_spec n : ∀ a, length a = (2 * n)%nat → limbs 32 a →
  limbs 64 (pair64 a) ∧ length (pair64 a) = n ∧ val 64 (pair64 a) = bn_val a.
Proof.
  induction n as [|n IH]; intros a Hl Ha; [destruct a; [split; [constructor|]; done|cbn in Hl; lia]|].
  destruct a as [|x [|y a]]; cbn [length] in Hl; try lia. apply Forall_cons_1 in Ha as [Hx Ha]. apply Forall_cons_1 in Ha as [Hy Ha].
  destruct (IH a ltac:(lia) Ha) as (H1 & H2 & H3). cbn [pair64 length]. unfold limb_ok in *.
  assert (Z.lor x (u64 (Z.shiftl y 32)) = y * 2 ^ 32 + x) as ->.
  { rewrite u64_id by (rewrite shiftl_mul by lia; lia). rewrite Z.lor_comm. apply lor_shiftl_add; lia. }
  split; [constructor; [unfold limb_ok; lia|done]|]. split; [lia|]. rewrite !val_cons, H3. change (2 ^ 64) with (2 ^ 32 * 2 ^ 32). ring.
Qed.

Lemma split64_spec t : limbs 64 t →
  limbs 32 (split64 t) ∧ length (split64 t) = (2 * length t)%nat ∧ bn_val (split64 t) = val 64 t.
Proof.
  induction 1 as [|x t Hx Ht (H1 & H2 & H3)]; [split; [constructor|]; done|]. cbn [split64 length]. unfold limb_ok in Hx.
  assert (0 <= Z.shiftr x 32 < 2 ^ 32) as Hs by (rewrite shiftr_div by lia; split; [apply Z.div_pos; lia|apply Z.div_lt_upper_bound; lia]).
  rewrite (u32_id (Z.shiftr x 32)) by done. split; [constructor; [apply u32_range|]; by constructor|]. split; [lia|].
  rewrite !val_cons, H3. change (2 ^ 64) with (2 ^ 32 * 2 ^ 32). pose proof (u32_split x).
  transitivity (u32 x + 2 ^ 32 * Z.shiftr x 32 + 2 ^ 32 * 2 ^ 32 * val 64 t); [ring|]. lia.
Qed.

Lemma pad_spec a m : normal a → limbs 32 m → bn_val a < bn_val m →
  limbs 32 (pad_limbs a (length m)) ∧ length (pad_limbs a (length m)) = length m ∧ bn_val (pad_limbs a (length m)) = bn_val a.
Proof.
  intros Ha Hm Hv. pose proof (normal_le a m Ha Hm ltac:(lia)) as Hl. unfold pad_limbs. rewrite take_ge by done.
  split; [apply Forall_app; split; [apply Ha|apply Forall_replicate; unfold limb_ok; lia]|].
  split; [rewrite length_app, length_replicate; lia|]. rewrite val_app, val_zeros by lia. lia.
Qed.

Lemma reduce_trim r m : limbs 32 r → limbs 32 m → bn_val r < 2 * bn_val m → 0 < bn_val m →
  normal (bn_reduce (bn_trim r) m) ∧ bn_val (bn_reduce (bn_trim r) m) = bn_val r mod bn_val m.
Proof.
  intros Hr Hm Hv Hpos. destruct (trim_spec r Hr) as (E & Hn & _). split; [by apply reduce_normal|].
  destruct (reduce_spec (bn_trim r) m) as [_ ->]; [apply Hn|done..|lia|]. by rewrite E.
Qed.

(** ** Montgomery contexts *)

Section Build.
Context (u128 : bool).

(** What [mont_init] establishes. *)
Record wf_mont (c : mont_t) : Prop := {
  wm_norm : normal (m_m c);
  wm_one : 1 < bn_val (m_m c);
  wm_odd : bn_val (m_m c) mod 2 = 1;
  wm_k : m_k c = length (m_m c);
  wm_len : zlen (m_m c) + 2 <= BN_MAX_LIMBS;
  wm_inv : 0 <= m_m0inv c < 2 ^ 32 ∧ (2 ^ 32 | limb (m_m c) 0 * m_m0inv c + 1);
  wm_64 : u128 && Nat.even (m_k c) = true → m_m64 c = pair64 (m_m c) ∧
    0 <= m_m0inv64 c < 2 ^ 64 ∧ (2 ^ 64 | limb (m_m64 c) 0 * m_m0inv64 c + 1);
  wm_rrn : normal (m_rr c);
  wm_rr : bn_val (m_rr c) = 2 ^ (32 * zlen (m_m c) + 32 * zlen (m_m c)) mod bn_val (m_m c) }.

(** [R] *)
Definition radix (c : mont_t) : Z := 2 ^ (32 * zlen (m_m c)).

(** One run of the loop over [w]-bit limbs, from zero. *)
Lemma cios_run w minv m b a : 0 < w → limbs w m → limbs w b → limbs w a → length b = length m → length a = length m → (0 < length m)%nat →
  0 <= minv < 2 ^ w → (2 ^ w | limb m 0 * minv + 1) → 0 < val w m → val w b < val w m →
  let '(t, tk) := cios_loop w minv m b a (replicate (length m) 0, 0) in
  limbs w t ∧ length t = length m ∧ 0 <= tk <= 1 ∧ val w t + 2 ^ (w * zlen m) * tk < 2 * val w m ∧
  (val w m | (val w t + 2 ^ (w * zlen m) * tk) * 2 ^ (w * zlen m) - val w a * val w b).
Proof.
  intros Hw Hm Hb Ha Hlb Hla Hne Hmi Hd Hpos Hbm.
  assert (limbs w (replicate (length m) 0)) as Hz by (apply Forall_replicate; unfold limb_ok; pose proof (pow_w_pos w Hw); lia).
  pose proof (val_range w b ltac:(lia) Hb) as Rb. pose proof (pow_w_pos w Hw).
  destruct (cios_loop_spec w minv m b Hw Hm Hb Hlb Hne Hmi Hd a Ha (replicate (length m) 0, 0)) as [(Hl & Hll & Htk & Ht) [q Hq]].
  { split; [done|]. split; [cbn [fst]; by rewrite length_replicate|]. split; [unfold limb_ok; cbn [snd]; lia|]. unfold total. cbn [fst snd]. rewrite val_zeros, Z.mul_0_r. lia. }
  destruct (cios_loop w minv m b a (replicate (length m) 0, 0)) as [t tk]. unfold total in *. cbn [fst snd] in *. rewrite val_zeros, Z.mul_0_r, !Z.add_0_l in Hq.
  pose proof (val_range w t ltac:(lia) Hl). pose proof (val_range w m ltac:(lia) Hm). unfold limb_ok in Htk.
  split; [done|]. split; [done|]. split; [nia|]. split; [lia|]. exists q. assert (zlen a = zlen m) as Ea by zl. rewrite Ea in Hq. lia.
Qed.

Lemma odd_limb m : limbs 32 m → limb m 0 mod 2 = bn_val m mod 2.
Proof.
  intros Hm. destruct m as [|x m]; [done|]. change (limb (x :: m) 0) with x. rewrite val_cons. change (2 ^ 32) with (2 * 2 ^ 31).
  rewrite <- Z.mul_assoc, Z.add_mod, (Z.mul_comm 2), Z.mod_mul, Z.add_0_r, Z.mod_mod by lia. done.
Qed.

Lemma mont_len c : wf_mont c → (0 < length (m_m c))%nat.
Proof. intros Hc. pose proof (wm_one _ Hc). destruct (m_m c); [done|cbn; lia]. Qed.

(** The product, the radix divided out, below the modulus. *)
Lemma mont_mul_spec a b c : wf_mont c → normal a → normal b → bn_val a < bn_val (m_m c) → bn_val b < bn_val (m_m c) →
  let r := mont_mul u128 a b c in
  normal r ∧ bn_val r < bn_val (m_m c) ∧ (bn_val (m_m c) | bn_val r * radix c - bn_val a * bn_val b).
Proof.
  intros Hc Ha Hb Hva Hvb. pose proof (wm_norm _ Hc) as [Hm _]. pose proof (wm_one _ Hc) as H1. pose proof (mont_len c Hc) as Hne. pose proof (wm_len _ Hc) as Hlen.
  assert (∀ t v, limbs 32 t → bn_val t = v → v < 2 * bn_val (m_m c) → (bn_val (m_m c) | v * radix c - bn_val a * bn_val b) →
    let r := bn_reduce (bn_trim t) (m_m c) in normal r ∧ bn_val r < bn_val (m_m c) ∧ (bn_val (m_m c) | bn_val r * radix c - bn_val a * bn_val b)) as Hfin.
  { intros t v Ht <- Hv2 Hd. destruct (reduce_trim t (m_m c) Ht Hm Hv2 ltac:(lia)) as [Hn E]. split; [done|]. rewrite E. split; [apply Z.mod_pos_bound; lia|].
    apply cong_divide; [lia|]. rewrite Zmult_mod_idemp_l. apply cong_divide; [lia|done]. }
  destruct (pad_spec a (m_m c) Ha Hm Hva) as (HA & HlA & VA). destruct (pad_spec b (m_m c) Hb Hm Hvb) as (HB & HlB & VB).
  cbn beta zeta. unfold mont_mul. rewrite (wm_k _ Hc) in *. destruct (u128 && Nat.even (length (m_m c))) eqn:E64.
  - destruct (wm_64 _ Hc) as (Em64 & Hi64 & Hd64); [by rewrite (wm_k _ Hc)|]. apply andb_true_iff in E64 as [_ Hev]. apply Nat.even_spec in Hev as [n En].
    destruct (pair64_spec n (m_m c) ltac:(lia) Hm) as (HM6 & HlM6 & VM6). destruct (pair64_spec n (pad_limbs a (length (m_m c))) ltac:(lia) HA) as (HA6 & HlA6 & VA6).
    destruct (pair64_spec n (pad_limbs b (length (m_m c))) ltac:(lia) HB) as (HB6 & HlB6 & VB6). unfold mont_mul64. rewrite (wm_k _ Hc), En in *.
    replace (2 * n / 2)%nat with n by (rewrite Nat.mul_comm, Nat.div_mul; lia). rewrite <- Em64 in *.
    pose proof (cios_run 64 (m_m0inv64 c) (m_m64 c) (pair64 (pad_limbs b (2 * n))) (pair64 (pad_limbs a (2 * n))) ltac:(lia) HM6 HB6 HA6 ltac:(lia) ltac:(lia) ltac:(lia) Hi64 Hd64 ltac:(lia) ltac:(lia)) as Hr.
    rewrite HlM6 in Hr. destruct (cios_loop 64 _ _ _ _ _) as [t tk]. destruct Hr as (Ht & Hlt & Htk & Hv2 & Hdv).
    assert (2 ^ (64 * zlen (m_m64 c)) = radix c) as ER by (unfold radix; f_equal; zl). rewrite ER, VM6, VA6, VB6, VA, VB in *.
    destruct (split64_spec t Ht) as (Hs & Hls & Vs). eapply (Hfin _ (val 64 t + radix c * tk)); [| |done|done].
    + case_match; [|done]. apply Forall_app. split; [done|]. apply split64_spec. constructor; [unfold limb_ok; lia|constructor].
    + destruct (Z.eqb_spec tk 0) as [->|]; cbn [negb andb]; [rewrite Vs; lia|]. destruct (Z.leb_spec (2 * Z.of_nat n + 2) BN_MAX_LIMBS); [|zl].
      rewrite val_app by lia. destruct (split64_spec [tk]) as (_ & _ & ->); [constructor; [unfold limb_ok; lia|constructor]|]. rewrite Vs, val_cons, val_nil.
      assert (2 ^ (32 * zlen (split64 t)) = radix c) as -> by (unfold radix; f_equal; zl). lia.
  - pose proof (cios_run 32 (m_m0inv c) (m_m c) (pad_limbs b (length (m_m c))) (pad_limbs a (length (m_m c))) ltac:(lia) Hm HB HA HlB HlA Hne
      (proj1 (wm_inv _ Hc)) (proj2 (wm_inv _ Hc)) ltac:(lia) ltac:(lia)) as Hr. fold (radix c) in Hr.
    destruct (cios_loop 32 _ _ _ _ _) as [t tk]. destruct Hr as (Ht & Hlt & Htk & Hv2 & Hdv). rewrite VA, VB in Hdv.
    eapply (Hfin _ (bn_val t + radix c * tk)); [| |done|done].
    + case_match; [|done]. apply Forall_app. split; [done|]. constructor; [unfold limb_ok; lia|constructor].
    + destruct (Z.ltb_spec (Z.of_nat (length (m_m c))) BN_MAX_LIMBS); [|zl]. destruct (Z.eqb_spec tk 0) as [->|]; cbn [negb andb]; [lia|].
      rewrite val_app, val_cons, val_nil by lia. assert (2 ^ (32 * zlen t) = radix c) as -> by (unfold radix; f_equal; zl). lia.
Qed.

(** ** Preparing a modulus *)

Lemma rr_loop_spec m n : limbs 32 m → zlen m < BN_MAX_LIMBS → ∀ t, normal t → bn_val t < bn_val m →
  normal (rr_loop n t m) ∧ bn_val (rr_loop n t m) = (2 ^ Z.of_nat n * bn_val t) mod bn_val m.
Proof.
  intros Hm Hl. induction n as [|n IH]; intros t Hn Hlt; cbn [rr_loop].
  - split; [done|]. rewrite Z.pow_0_r, Z.mul_1_l. symmetry. apply Z.mod_small. pose proof (val_range 32 t ltac:(lia) (proj1 Hn)). lia.
  - destruct (double_step t m false Hn Hm Hl Hlt) as [N V]. cbn [Z.b2z] in V. pose proof (val_range 32 t ltac:(lia) (proj1 Hn)).
    destruct (IH _ N) as [N' V']; [rewrite V; apply Z.mod_pos_bound; lia|]. split; [done|]. rewrite V', V, Zmult_mod_idemp_r, Nat2Z.inj_succ, Z.pow_succ_r by lia.
    f_equal. ring.
Qed.

Lemma set_u32_spec v : 0 <= v < 2 ^ 32 → normal (bn_set_u32 v) ∧ bn_val (bn_set_u32 v) = v.
Proof.
  intros Hv. unfold bn_set_u32. destruct (Z.eqb_spec v 0) as [->|]; [by split; [apply normal_nil|]|]. rewrite val_cons, val_nil. split; [|lia].
  split; [constructor; [done|constructor]|]. intros k Hk. cbn in Hk. assert (k = 0%nat) as -> by lia. done.
Qed.

(** The context of a modulus: an odd number above one with two limbs to spare. *)
Lemma mont_init_spec m : normal m → bn_val m mod 2 = 1 → 1 < bn_val m → zlen m + 2 <= BN_MAX_LIMBS →
  ∃ c, mont_init u128 m = Ok c ∧ wf_mont c ∧ m_m c = m.
Proof.
  intros Hn Hodd H1 Hl. pose proof Hn as [Hm _]. unfold mont_init. pose proof (odd_limb m Hm) as Ho.
  destruct (Z.eqb_spec (zlen m) 0) as [E|]; [destruct m; [done|rewrite zlen_cons in E; pose proof (zlen_nonneg m); lia]|].
  change 1 with (Z.ones 1) at 1. rewrite Z.land_ones, Z.pow_1_r by lia. rewrite Ho, Hodd. cbn [Z.eqb orb].
  destruct (Z.ltb_spec BN_MAX_LIMBS (zlen m + 2)); [lia|]. rewrite (normal_trim m Hn). eexists. split; [done|]. split; [|done].
  destruct (set_u32_spec 1 ltac:(lia)) as [N1 V1].
  assert (zlen m < BN_MAX_LIMBS) as Hl' by lia. destruct (rr_loop_spec m (length m * 64) Hm Hl' _ N1) as [Nr Vr]; [lia|].
  constructor; cbn [m_m m_rr m_m0inv m_k m_m64 m_m0inv64]; try done.
  - apply (minv_spec 32 _ 5); [lia|done|]. by rewrite Ho.
  - intros E64. rewrite E64. split; [done|]. apply andb_true_iff in E64 as [_ [h En]%Nat.even_spec].
    apply (minv_spec 64 _ 6); [lia|done|]. destruct m as [|x [|y m']]; [done|cbn in En; lia|]. change (limb (pair64 (x :: y :: m')) 0) with (Z.lor x (u64 (Z.shiftl y 32))).
    assert (limb (x :: y :: m') 0 = x) as Ex by done. rewrite Ex in Ho.
    rewrite <- (Z.bit0_mod x) in Ho. rewrite <- Z.bit0_mod, Z.lor_spec. rewrite Hodd in Ho. destruct (Z.testbit x 0); [done|]. done.
  - rewrite Vr, V1, Z.mul_1_r. f_equal. f_equal. zl.
Qed.

(** A modulus it refuses. *)
Lemma mont_init_err m : limbs 32 m → bn_val m mod 2 = 0 ∨ BN_MAX_LIMBS < zlen m + 2 → mont_init u128 m = Err ELPIS_ERR ELPIS_DROP_NONE.
Proof.
  intros Hm [He|Hl]; unfold mont_init.
  - change 1 with (Z.ones 1) at 1. rewrite Z.land_ones, Z.pow_1_r, odd_limb, He by (lia || done). by rewrite orb_true_r.
  - case_match; [done|]. by destruct (Z.ltb_spec BN_MAX_LIMBS (zlen m + 2)); [|lia].
Qed.

(** ** Montgomery form *)

(** [x] is [v] in Montgomery form. *)
Definition mform (c : mont_t) (x : list Z) (v : Z) : Prop :=
  normal x ∧ bn_val x < bn_val (m_m c) ∧ (bn_val (m_m c) | bn_val x - v * radix c).

(** The radix cancels: the modulus is odd. *)
Lemma radix_cancel c x : wf_mont c → (bn_val (m_m c) | x * radix c) → (bn_val (m_m c) | x).
Proof.
  intros Hc Hd. rewrite Z.mul_comm in Hd. apply (Z.gauss _ _ _ Hd). unfold radix. apply Z.coprime_pow_r; [pose proof (zlen_nonneg (m_m c)); lia|].
  symmetry. apply Z.coprime_mod_r_iff. rewrite (wm_odd _ Hc). apply Z.coprime_1_r.
Qed.

Lemma mform_ext c x v v' : mform c x v → (bn_val (m_m c) | v - v') → mform c x v'.
Proof.
  intros (Hn & Hlt & Hd) Hv. split; [done|]. split; [done|].
  replace (bn_val x - v' * radix c) with (bn_val x - v * radix c + (v - v') * radix c) by ring.
  apply Z.divide_add_r; [done|]. by apply Z.divide_mul_l.
Qed.

Lemma mform_mul c a b va vb : wf_mont c → mform c a va → mform c b vb → mform c (mont_mul u128 a b c) (va * vb).
Proof.
  intros Hc (Ha & Hla & [qa Ea]) (Hb & Hlb & [qb Eb]). destruct (mont_mul_spec a b c Hc Ha Hb Hla Hlb) as (Hn & Hlt & [q Eq]).
  split; [done|]. split; [done|]. apply (radix_cancel c _ Hc).
  exists (q + qa * bn_val b + va * radix c * qb). set (r := bn_val (mont_mul u128 a b c)) in *. set (M := bn_val (m_m c)) in *.
  transitivity (r * radix c - bn_val a * bn_val b + (bn_val a - va * radix c) * bn_val b + va * radix c * (bn_val b - vb * radix c)); [ring|].
  rewrite Eq, Ea, Eb. ring.
Qed.

Lemma mont_to_spec c a : wf_mont c → normal a → bn_val a < bn_val (m_m c) → mform c (mont_to u128 a c) (bn_val a).
Proof.
  intros Hc Ha Hlt. pose proof (wm_one _ Hc). unfold mont_to.
  destruct (mont_mul_spec a (m_rr c) c Hc Ha (wm_rrn _ Hc) Hlt) as (Hn & Hl & Hd); [rewrite (wm_rr _ Hc); apply Z.mod_pos_bound; lia|].
  split; [done|]. split; [done|]. apply (radix_cancel c _ Hc). rewrite (wm_rr _ Hc) in Hd. set (M := bn_val (m_m c)) in *. set (r := bn_val (mont_mul u128 a (m_rr c) c)) in *.
  apply cong_divide in Hd; [|lia]. rewrite Zmult_mod_idemp_r in Hd. apply cong_divide in Hd; [|lia].
  rewrite Z.pow_add_r in Hd by (pose proof (zlen_nonneg (m_m c)); lia). fold (radix c) in Hd.
  replace ((r - bn_val a * radix c) * radix c) with (r * radix c - bn_val a * (radix c * radix c)) by ring. done.
Qed.

Lemma mont_from_spec c x v : wf_mont c → mform c x v → normal (mont_from u128 x c) ∧ bn_val (mont_from u128 x c) = v mod bn_val (m_m c).
Proof.
  intros Hc (Hx & Hlt & [q Eq]). pose proof (wm_one _ Hc) as H1. destruct (set_u32_spec 1 ltac:(lia)) as [N1 V1]. unfold mont_from.
  destruct (mont_mul_spec x (bn_set_u32 1) c Hc Hx N1 Hlt ltac:(lia)) as (Hn & Hl & [q2 Eq2]). split; [done|]. set (r := bn_val (mont_mul u128 x (bn_set_u32 1) c)) in *.
  assert ((bn_val (m_m c) | r - v)) as Hd.
  { apply (radix_cancel c _ Hc). exists (q2 + q). rewrite V1 in Eq2. transitivity (r * radix c - bn_val x * 1 + (bn_val x - v * radix c)); [ring|]. rewrite Eq2, Eq. ring. }
  apply cong_divide in Hd; [|lia]. rewrite <- Hd. symmetry. apply Z.mod_small.
  split; [|done]. apply (val_range 32 (mont_mul u128 x (bn_set_u32 1) c) ltac:(lia) (proj1 Hn)).
Qed.

Lemma modexp_loop_spec c e base g i : wf_mont c → limbs 32 e → mform c base g → ∀ acc v, mform c acc v →
  mform c (modexp_loop u128 i e base acc c) (v ^ 2 ^ Z.of_nat i * g ^ (bn_val e mod 2 ^ Z.of_nat i)).
Proof.
  intros Hc He Hb. induction i as [|i IH]; intros acc v Ha; cbn [modexp_loop].
  { rewrite Z.pow_0_r, Z.mod_1_r, Z.pow_0_r, Z.pow_1_r, Z.mul_1_r. done. }
  pose proof (mform_mul c acc acc v v Hc Ha Ha) as Hs. rewrite bit_spec by done.
  pose proof (val_range 32 e ltac:(lia) He). rewrite mod_S by lia. set (b := Z.testbit (bn_val e) (Z.of_nat i)).
  assert (negb (Z.b2z b =? 0) = b) as -> by (by destruct b). pose proof (Z.mod_pos_bound (bn_val e) (2 ^ Z.of_nat i) ltac:(apply Z.pow_pos_nonneg; lia)).
  pose proof (Z.pow_pos_nonneg 2 (Z.of_nat i) ltac:(lia) ltac:(lia)).
  assert ((v * v) ^ 2 ^ Z.of_nat i = v ^ 2 ^ Z.of_nat (S i)) as Ev by (rewrite Nat2Z.inj_succ, Z.pow_succ_r, <- Z.pow_2_r, <- Z.pow_mul_r by lia; done).
  destruct b; cbn [Z.b2z].
  - pose proof (IH _ _ (mform_mul c _ base (v * v) g Hc Hs Hb)) as Hr. rewrite Z.mul_1_l, Z.pow_add_r by lia.
    rewrite <- Ev. by rewrite Z.mul_assoc, <- Z.pow_mul_l.
  - pose proof (IH _ _ Hs) as Hr. rewrite Z.mul_0_l, Z.add_0_l, <- Ev. done.
Qed.

(** The power, whatever the operands. *)
Lemma modexp_spec c a e : wf_mont c → normal a → limbs 32 e →
  normal (bn_modexp u128 a e c) ∧ bn_val (bn_modexp u128 a e c) = bn_val a ^ bn_val e mod bn_val (m_m c).
Proof.
  intros Hc Ha He. pose proof (wm_one _ Hc) as H1. pose proof (wm_len _ Hc). pose proof (proj1 (wm_norm _ Hc)) as Hm. unfold bn_modexp.
  destruct (mod_spec a (m_m c) Ha Hm ltac:(lia) ltac:(lia)) as [Nm Vm]. destruct (set_u32_spec 1 ltac:(lia)) as [N1 V1].
  pose proof (mont_to_spec c _ Hc N1 ltac:(lia)) as H1f. rewrite V1 in H1f.
  assert (bn_val (bn_mod a (m_m c)) < bn_val (m_m c)) as Hlt by (rewrite Vm; apply Z.mod_pos_bound; lia).
  assert (mform c (mont_to u128 (bn_mod a (m_m c)) c) (bn_val a)) as Hbf.
  { eapply mform_ext; [by apply mont_to_spec|]. rewrite Vm. apply cong_divide; [lia|]. apply Z.mod_mod. lia. }
  pose proof (val_range 32 e ltac:(lia) He) as Re. rewrite bits_spec by done.
  destruct (Z.eqb_spec (bn_val e) 0) as [->|Hne]; [rewrite Z.pow_0_r; by apply mont_from_spec|].
  pose proof (Z.log2_nonneg (bn_val e)). destruct (Z.eqb_spec (Z.log2 (bn_val e) + 1) 0); [lia|].
  apply mont_from_spec; [done|]. pose proof (modexp_loop_spec c e _ _ (Z.to_nat (Z.log2 (bn_val e) + 1)) Hc He Hbf _ _ H1f) as Hr.
  rewrite Z2Nat.id, Z.pow_1_l, Z.mul_1_l, Z.mod_small in Hr by (try apply Z.pow_nonneg; try lia; pose proof (Z.log2_spec (bn_val e)); lia). done.
Qed.
End Build.

(** ** Properties *)

(** C18. [bn_modexp] is the modular power: for an odd modulus above one of at most 142 limbs,
    [mont_init] succeeds, and with the context it builds the result is [a ^ e mod m] exactly, with
    no leading zero limb, for every base and exponent, zero ones and a base above the modulus
    included; by the 32-bit and by the 64-bit loop alike. *)
Theorem modexp_exact u128 m a e : normal m → bn_val m mod 2 = 1 → 1 < bn_val m → zlen m + 2 <= BN_MAX_LIMBS → normal a → limbs 32 e →
  ∃ c, mont_init u128 m = Ok c ∧ normal (bn_modexp u128 a e c) ∧ bn_val (bn_modexp u128 a e c) = bn_val a ^ bn_val e mod bn_val m.
Proof.
  intros Hm Ho H1 Hl Ha He. destruct (mont_init_spec u128 m Hm Ho H1 Hl) as (c & Ec & Hc & <-). exists c. split; [exact Ec|].
  by apply modexp_spec.
Qed.

Lemma modexp_exact_witness : ∃ c, mont_init true [4294967197; 1] = Ok c ∧
  normal (bn_modexp true [123456789; 987654321] [5] c) ∧ bn_val (bn_modexp true [123456789; 987654321] [5] c) = 5445222173.
Proof.
  assert (∀ x y, 0 <= x < 2 ^ 32 → 0 < y < 2 ^ 32 → normal [x; y]) as N2.
  { intros x y Hx Hy. split; [repeat apply Forall_cons_2; try (unfold limb_ok; lia); constructor|].
    intros k Hk. assert (k = 1%nat) as -> by (cbn in Hk; lia). cbn. lia. }
  assert (limbs 32 [5]) as He by (repeat apply Forall_cons_2; try (unfold limb_ok; lia); constructor).
  destruct (modexp_exact true [4294967197; 1] [123456789; 987654321] [5]) as (c & Hc & Hn & Hv);
    [apply N2; lia|reflexivity|reflexivity|reflexivity || discriminate|apply N2; lia|exact He|].
  exists c. split; [exact Hc|]. split; [exact Hn|]. rewrite Hv. vm_compute. reflexivity.
Defined.

(** [bn_modinv_prime] is the inverse modulo a prime: whatever [a] not divisible by the odd
    prime [m], the product of [a] and the result is one modulo [m]. *)
Theorem modinv_prime_exact u128 m a : normal m → Z.prime (bn_val m) → 2 < bn_val m → zlen m + 2 <= BN_MAX_LIMBS → normal a → bn_val a mod bn_val m ≠ 0 →
  ∃ c, mont_init u128 m = Ok c ∧ normal (bn_modinv_prime u128 a c) ∧
  (bn_val a * bn_val (bn_modinv_prime u128 a c)) mod bn_val m = 1.
Proof.
  intros Hm Hp H2 Hl Ha Ha0. assert (bn_val m mod 2 = 1) as Ho.
  { destruct Hp as [_ Hp]. specialize (Hp 2 ltac:(lia)). pose proof (Z.mod_pos_bound (bn_val m) 2 ltac:(lia)).
    destruct (Z.eq_dec (bn_val m mod 2) 0) as [E|]; [|lia]. destruct Hp. by apply Z.mod_divide. }
  destruct (mont_init_spec u128 m Hm Ho ltac:(lia) Hl) as (c & Ec & Hc & Emc). exists c. split; [exact Ec|]. unfold bn_modinv_prime. rewrite Emc.
  destruct (set_u32_spec 2 ltac:(lia)) as [N2 V2]. destruct (sub_spec m (bn_set_u32 2) (proj1 Hm) (proj1 N2)) as [Ne Ve]; [lia|].
  destruct (modexp_spec u128 c a (bn_sub m (bn_set_u32 2)) Hc Ha (proj1 Ne)) as [Nr Vr]. split; [done|].
  rewrite Vr, Emc, Ve, V2, Zmult_mod_idemp_r. rewrite <- (ZmodInv.Z.fermat_nz (bn_val m) (bn_val a) Hp Ha0). f_equal.
  replace (bn_val m - 1) with (Z.succ (bn_val m - 2)) by lia. rewrite Z.pow_succ_r by lia. done.
Qed.

Lemma modinv_prime_exact_witness : ∃ c, mont_init false [3] = Ok c ∧ normal (bn_modinv_prime false [5] c) ∧ (5 * bn_val (bn_modinv_prime false [5] c)) mod 3 = 1.
Proof.
  assert (∀ x, 0 < x < 2 ^ 32 → normal [x]) as N1.
  { intros x Hx. split; [repeat apply Forall_cons_2; try (unfold limb_ok; lia); constructor|].
    intros k Hk. assert (k = 0%nat) as -> by (cbn in Hk; lia). cbn. lia. }
  exact (modinv_prime_exact false [3] [5] (N1 3 ltac:(lia)) Z.prime_3 ltac:(reflexivity) ltac:(discriminate) (N1 5 ltac:(lia)) ltac:(discriminate)).
Defined.
