(* ===== verification/Rsa.v ===== *)
(** RSASSA-PKCS1-v1_5 verification: src/crypto/rsa.c.

    A verification reads and writes the thread's table of Montgomery contexts;
    the table is the state of the model.  The theorem of the file says what is
    accepted, in terms of integers and octet strings alone, whatever the table
    holds: the table is only a saving. *)
From stdpp Require Import base list numbers.
From Stdlib Require Import ZArith Lia.
From S2P Require Import Prelude Bytes Text NameOrder Sha2 Bn Mont.

(** ** Definitions *)

(** *** The key *)

(** [while (elen > 0 && key[off] == 0) { off++; elen--; }]; [k] is [elen]. *)
Fixpoint strip_zeros (key : list Z) (k : nat) (off : Z) : res (Z * Z) :=
  match k with
  | O => Ok (off, 0)
  | S k' => x ← rd key off; if x =? 0 then strip_zeros key k' (off + 1) else Ok (off, Z.of_nat k)
  end.

(** [if (f(...) != ELPIS_OK) return ELPIS_EFORMAT] *)
Definition or_format {A} (r : res A) : res A :=
  match r with Err _ d => Err ELPIS_EFORMAT d | r => r end.

Definition eformat {A} : res A := Err ELPIS_EFORMAT ELPIS_DROP_NONE.

(** From the check of the exponent's length on: the modulus and the exponent. *)
Definition rsa_parse_at (key : list Z) (elen off : Z) : res (list Z * list Z) :=
  let keylen := zlen key in
  if (elen =? 0) || (keylen <=? off + elen) then eformat
  else
    '(off, elen) ← strip_zeros key (Z.to_nat elen) off;
    if (elen =? 0) || (8 <? elen) then eformat
    else
      pe ← rds key off elen;
      e ← or_format (bn_from_bytes pe);
      pn ← rds key (off + elen) (keylen - off - elen);
      n ← or_format (bn_from_bytes pn);
      if bn_is_zero n || bn_is_zero e then eformat
      else if (bn_bits n <? 1024) || (4096 <? bn_bits n) then eformat
      else if Z.land (limb n 0) 1 =? 0 then eformat
      else Ok (n, e).

Definition rsa_parse (key : list Z) : res (list Z * list Z) :=
  if zlen key <? 3 then eformat
  else
    k0 ← rd key 0;
    if k0 =? 0 then l ← elpis_get16 key 1; rsa_parse_at key l 3 else rsa_parse_at key k0 1.

(** *** DigestInfo prefixes *)

Definition di_sha1 : list Z :=
  [0x30; 0x21; 0x30; 0x09; 0x06; 0x05; 0x2b; 0x0e; 0x03; 0x02; 0x1a; 0x05; 0x00; 0x04; 0x14].
Definition di_sha256 : list Z :=
  [0x30; 0x31; 0x30; 0x0d; 0x06; 0x09; 0x60; 0x86; 0x48; 0x01; 0x65; 0x03; 0x04; 0x02; 0x01; 0x05; 0x00; 0x04; 0x20].
Definition di_sha384 : list Z :=
  [0x30; 0x41; 0x30; 0x0d; 0x06; 0x09; 0x60; 0x86; 0x48; 0x01; 0x65; 0x03; 0x04; 0x02; 0x02; 0x05; 0x00; 0x04; 0x30].
Definition di_sha512 : list Z :=
  [0x30; 0x51; 0x30; 0x0d; 0x06; 0x09; 0x60; 0x86; 0x48; 0x01; 0x65; 0x03; 0x04; 0x02; 0x03; 0x05; 0x00; 0x04; 0x40].

Definition digest_info (alg : Z) : option (list Z) :=
  if alg =? ELPIS_HASH_SHA1 then Some di_sha1
  else if alg =? ELPIS_HASH_SHA256 then Some di_sha256
  else if alg =? ELPIS_HASH_SHA384 then Some di_sha384
  else if alg =? ELPIS_HASH_SHA512 then Some di_sha512
  else None.

(** *** Montgomery contexts, kept per key *)

Definition MONT_CACHE : Z := 16.

Record mont_ent := mkMontEnt { me_n : list Z; me_ctx : mont_t; me_valid : bool }.

(** [g_mont] and [g_mont_next], one of each per thread. *)
Record mont_cache := mkMontCache { g_mont : list mont_ent; g_mont_next : Z }.

(** The first valid entry for [n]. *)
Fixpoint mont_find (l : list mont_ent) (n : list Z) : option mont_t :=
  match l with
  | [] => None
  | x :: l => if me_valid x && (bn_cmp (me_n x) n =? 0) then Some (me_ctx x) else mont_find l n
  end.

Definition mont_for (u128 : bool) (st : mont_cache) (n : list Z) : res (option mont_t * mont_cache) :=
  match mont_find (g_mont st) n with
  | Some c => Ok (Some c, st)
  | None =>
    let slot := g_mont_next st in
    let next := (g_mont_next st + 1) mod MONT_CACHE in
    x ← rd (g_mont st) slot;
    l ← wr (g_mont st) slot (mkMontEnt (me_n x) (me_ctx x) false);
    match mont_init u128 n with
    | Ok c => l ← wr l slot (mkMontEnt n c true); Ok (Some c, mkMontCache l next)
    | Err _ _ => Ok (None, mkMontCache l next)
    | Stuck w => Stuck w
    end
  end.

(** *** The check of the encoded message *)

(** [for (i = 2; i < 2 + pslen; i++) if (em[i] != 0xFF) return 0] *)
Fixpoint ff_loop (em : list Z) (i : Z) (k : nat) : res bool :=
  match k with
  | O => Ok true
  | S k => x ← rd em i; if negb (x =? 0xFF) then Ok false else ff_loop em (i + 1) k
  end.

Definition check_em (em di hash : list Z) (k : Z) : res bool :=
  let dilen := zlen di in
  let hashlen := zlen hash in
  a ← rd em 0; b ← rd em 1;
  if negb (a =? 0) || negb (b =? 1) then Ok false
  else
    let pslen := k - 3 - dilen - hashlen in
    if pslen <? 8 then Ok false
    else
      ff ← ff_loop em 2 (Z.to_nat pslen);
      if negb ff then Ok false
      else
        z ← rd em (2 + pslen);
        if negb (z =? 0) then Ok false
        else
          c ← memcmp (drop (Z.to_nat (3 + pslen)) em) di dilen;
          if negb (c =? 0) then Ok false
          else
            differ ← elpis_ct_memcmp (drop (Z.to_nat (3 + pslen + dilen)) em) hash hashlen;
            Ok (negb differ).

Definition elpis_rsa_verify (u128 : bool) (st : mont_cache) (key sig hash : list Z) (hash_alg : Z) : res (bool * mont_cache) :=
  match rsa_parse key with
  | Stuck w => Stuck w
  | Err _ _ => Ok (false, st)
  | Ok (n, e) =>
    let k := (bn_bits n + 7) / 8 in
    if negb (zlen sig =? k) || (BN_MAX_LIMBS * 4 <? k) then Ok (false, st)
    else
      match digest_info hash_alg with
      | None => Ok (false, st)
      | Some di =>
        if negb (zlen hash =? elpis_hash_len hash_alg) then Ok (false, st)
        else if k <? zlen di + zlen hash + 11 then Ok (false, st)
        else
          match bn_from_bytes sig with
          | Stuck w => Stuck w
          | Err _ _ => Ok (false, st)
          | Ok s =>
            if 0 <=? bn_cmp s n then Ok (false, st)
            else
              '(mc, st) ← mont_for u128 st n;
              match mc with
              | None => Ok (false, st)
              | Some c =>
                match bn_to_bytes (bn_modexp u128 s e c) k with
                | Stuck w => Stuck w
                | Err _ _ => Ok (false, st)
                | Ok em => ok ← check_em em di hash k; Ok (ok, st)
                end
              end
          end
      end
  end.

(** ** Specification *)

(** RFC 3110, section 2: the length of the exponent, and what follows it. *)
Definition rsa_key_body (key : list Z) : option (Z * list Z) :=
  match key with
  | k0 :: rest =>
    if k0 =? 0 then match rest with h :: l :: rest => Some (be2 h l, rest) | _ => None end
    else Some (k0, rest)
  | [] => None
  end.

(** The modulus and the exponent, with the bounds the verifier sets. *)
Definition rsa_key (key : list Z) : option (Z * Z) :=
  match rsa_key_body key with
  | None => None
  | Some (elen, rest) =>
    let n := os2ip (drop (Z.to_nat elen) rest) in
    let e := os2ip (take (Z.to_nat elen) rest) in
    if (0 <? elen) && (elen <? zlen rest) && (0 <? e) && (e <? 2 ^ 64) && (2 ^ 1023 <=? n) && (n <? 2 ^ 4096) && Z.odd n then Some (n, e) else None
  end.

(** RFC 8017, section 9.2: 0x00 0x01, octets 0xFF, 0x00, the DigestInfo and the digest, [k] octets in all. *)
Definition emsa_pkcs1 (k : Z) (di hash : list Z) : list Z :=
  [0; 1] ++ replicate (Z.to_nat (k - 3 - zlen di - zlen hash)) 255 ++ [0] ++ di ++ hash.

(** RFC 8017, section 8.2.2. *)
Definition rsa_spec (key sig hash : list Z) (alg : Z) : bool :=
  match rsa_key key, digest_info alg with
  | Some (n, e), Some di =>
    let k := Z.log2 n / 8 + 1 in
    (zlen sig =? k) && (zlen hash =? elpis_hash_len alg) && (zlen di + zlen hash + 11 <=? k) && (os2ip sig <? n) &&
    (os2ip sig ^ e mod n =? os2ip (emsa_pkcs1 k di hash))
  | _, _ => false
  end.

(** ** The key *)

Lemma strip_zeros_spec key k : ∀ off, 0 <= off → off + Z.of_nat k <= zlen key →
  let s := skip_zeros (slice key off (Z.of_nat k)) in
  strip_zeros key k off = Ok (off + Z.of_nat k - zlen s, zlen s) ∧ slice key (off + Z.of_nat k - zlen s) (zlen s) = s.
Proof.
  induction k as [|k IH]; intros off Ho Hl; cbn [strip_zeros].
  { change (slice key off (Z.of_nat 0)) with (@nil Z). cbn [skip_zeros]. rewrite (@zlen_nil Z). split; [|done]. do 2 f_equal. lia. }
  destruct (rd_in_range key off) as (x & Hx & Lx); [lia|]. rewrite Hx. bind_ok.
  assert (slice key off (Z.of_nat (S k)) = x :: slice key (off + 1) (Z.of_nat k)) as ->.
  { unfold slice. rewrite Nat2Z.id, Nat2Z.id, (drop_S _ _ _ Lx). cbn [take]. do 3 f_equal. lia. }
  cbn [skip_zeros]. destruct (Z.eqb_spec x 0).
  - destruct (IH (off + 1)) as [-> E]; [lia|lia|]. replace (off + Z.of_nat (S k)) with (off + 1 + Z.of_nat k) by lia. split; done.
  - assert (zlen (x :: slice key (off + 1) (Z.of_nat k)) = Z.of_nat (S k)) as -> by (rewrite zlen_cons, zlen_slice by lia; lia).
    split; [do 2 f_equal; lia|]. replace (off + Z.of_nat (S k) - Z.of_nat (S k)) with off by lia.
    unfold slice. rewrite Nat2Z.id, Nat2Z.id, (drop_S _ _ _ Lx). cbn [take]. do 3 f_equal. lia.
Qed.

(** The octets a number takes. *)
Lemma skip_zeros_len p m : bytes p → 0 <= m → zlen (skip_zeros p) <= m ↔ os2ip p < 256 ^ m.
Proof.
  intros Hp Hm. rewrite <- skip_zeros_val. induction Hp as [|c p Hc Hp IH]; [change (os2ip (skip_zeros [])) with 0; change (zlen (skip_zeros [])) with 0; pose proof (Z.pow_pos_nonneg 256 m); lia|].
  cbn [skip_zeros]. destruct (Z.eqb_spec c 0) as [->|Hne]; [done|]. clear IH. unfold byte in Hc.
  rewrite os2ip_cons, zlen_cons. pose proof (os2ip_range p Hp). pose proof (zlen_nonneg p). split; intros Hlt.
  - assert (256 ^ (1 + zlen p) <= 256 ^ m) by (apply Z.pow_le_mono_r; lia). rewrite Z.pow_add_r in * by lia. nia.
  - destruct (Z.le_gt_cases (1 + zlen p) m); [done|]. assert (256 ^ m <= 256 ^ zlen p) by (apply Z.pow_le_mono_r; lia). nia.
Qed.

Lemma from_bytes_val p : bytes p →
  match bn_from_bytes p with
  | Ok a => normal a ∧ bn_val a = os2ip p ∧ os2ip p < 256 ^ 576
  | Err _ d => d = ELPIS_DROP_NONE ∧ 256 ^ 576 <= os2ip p
  | Stuck _ => False
  end.
Proof.
  intros Hp. pose proof (from_bytes_spec p Hp) as Hf. pose proof (skip_zeros_len p 576 Hp ltac:(lia)) as Hl. unfold BN_MAX_LIMBS in Hf.
  change (4 * 144) with 576 in Hf. case_decide.
  - destruct Hf as (a & -> & Hn & _ & Hv). split; [done|]. split; [done|]. by apply Hl.
  - rewrite Hf. split; [done|]. destruct (Z.le_gt_cases (256 ^ 576) (os2ip p)) as [|Hlt]; [done|]. by apply Hl in Hlt.
Qed.

(** The bounds of the verifier. *)
Definition key_ok (e n : Z) : bool := (0 <? e) && (e <? 2 ^ 64) && (2 ^ 1023 <=? n) && (n <? 2 ^ 4096) && Z.odd n.

Lemma rsa_parse_at_spec hd rest elen : bytes rest → 0 <= elen →
  let n := os2ip (drop (Z.to_nat elen) rest) in
  let e := os2ip (take (Z.to_nat elen) rest) in
  if (0 <? elen) && (elen <? zlen rest) && key_ok e n then
    ∃ nb eb, rsa_parse_at (hd ++ rest) elen (zlen hd) = Ok (nb, eb) ∧ normal nb ∧ bn_val nb = n ∧ normal eb ∧ bn_val eb = e
  else rsa_parse_at (hd ++ rest) elen (zlen hd) = eformat.
Proof.
  intros Hr He. unfold rsa_parse_at. pose proof (zlen_nonneg hd). pose proof (zlen_nonneg rest). rewrite zlen_app.
  destruct (Z.eqb_spec elen 0) as [->|]; [done|]. cbn [orb].
  destruct (Z.leb_spec (zlen hd + zlen rest) (zlen hd + elen)).
  { assert ((elen <? zlen rest) = false) as -> by lia. by rewrite andb_false_r. }
  assert ((0 <? elen) && (elen <? zlen rest) = true) as -> by lia. cbn [andb].
  destruct (strip_zeros_spec (hd ++ rest) (Z.to_nat elen) (zlen hd)) as [Es Esl]; [lia|rewrite zlen_app; lia|].
  rewrite !Z2Nat.id in Es, Esl by lia.
  assert (slice (hd ++ rest) (zlen hd) elen = take (Z.to_nat elen) rest) as Ee by (rewrite slice_app_r, Z.sub_diag by lia; unfold slice; by rewrite drop_0).
  rewrite Ee in Es, Esl. rewrite Es. bind_ok. cbv iota.
  set (pe := take (Z.to_nat elen) rest) in *. assert (bytes pe) as Hpe by (by apply Forall_take).
  pose proof (skip_zeros_bytes pe Hpe) as [Hsb Hsl]. pose proof (skip_zeros_val pe) as Hsv. pose proof (skip_zeros_len pe 8 Hpe ltac:(lia)) as H8.
  pose proof (skip_zeros_len pe 0 Hpe ltac:(lia)) as Hs0. set (s := skip_zeros pe) in *. pose proof (zlen_nonneg s). pose proof (os2ip_range pe Hpe) as Re.
  change (256 ^ 8) with (2 ^ 64) in H8. change (256 ^ 0) with 1 in Hs0. unfold key_ok.
  destruct (Z.eqb_spec (zlen s) 0) as [Ez|Hnz]; cbn [orb].
  { assert ((0 <? os2ip pe) = false) as -> by lia. done. }
  destruct (Z.ltb_spec 8 (zlen s)); [assert ((os2ip pe <? 2 ^ 64) = false) as -> by lia; by rewrite andb_false_r|].
  assert ((0 <? os2ip pe) = true) as -> by lia. assert ((os2ip pe <? 2 ^ 64) = true) as -> by lia. cbn [andb].
  assert (zlen pe = elen) as Elp by (unfold pe; rewrite zlen_take; lia).
  assert (rds (hd ++ rest) (zlen hd + elen - zlen s) (zlen s) = Ok s) as -> by (rewrite rds_in_range by (rewrite ?zlen_app; lia); by rewrite Esl). bind_ok. pose proof (from_bytes_val s Hsb) as He'. unfold BN_MAX_LIMBS in He'.
  assert (os2ip s < 256 ^ 576) as Hsmall by (apply (Z.lt_le_trans _ (2 ^ 64)); [lia|]; change (2 ^ 64) with (256 ^ 8); apply Z.pow_le_mono_r; lia).
  destruct (bn_from_bytes s) as [eb|? ?|?]; [|lia|done]. destruct He' as (Neb & Veb & _). cbn [or_format]. bind_ok.
  assert (rds (hd ++ rest) (zlen hd + elen - zlen s + zlen s) (zlen hd + zlen rest - (zlen hd + elen - zlen s) - zlen s) = Ok (drop (Z.to_nat elen) rest)) as ->.
  { rewrite rds_in_range, slice_app_r by (rewrite ?zlen_app; lia). replace (zlen hd + elen - zlen s + zlen s - zlen hd) with elen by lia.
    unfold slice. rewrite take_ge by (rewrite length_drop; zl). done. }
  bind_ok.
  set (pn := drop (Z.to_nat elen) rest). assert (bytes pn) as Hpn by (by apply Forall_drop). pose proof (from_bytes_val pn Hpn) as Hn'.
  destruct (bn_from_bytes pn) as [nb|? ?|?]; [|destruct Hn' as [-> Hbig]|done].
  2:{ cbn [or_format]. assert ((os2ip pn <? 2 ^ 4096) = false) as ->; [|by rewrite andb_false_r].
      apply Z.ltb_ge. etransitivity; [|exact Hbig]. change 256 with (2 ^ 8). rewrite <- Z.pow_mul_r by lia. apply Z.pow_le_mono_r; lia. }
  destruct Hn' as (Nnb & Vnb & _). cbn [or_format]. bind_ok. pose proof (proj1 Nnb) as Lnb. pose proof (proj1 Neb) as Leb.
  rewrite !is_zero_spec, Vnb, Veb by done. assert ((os2ip s =? 0) = false) as -> by lia. rewrite orb_false_r.
  pose proof (os2ip_range pn Hpn) as Rn. pose proof (bits_bound nb 1023 Lnb ltac:(lia)) as B1. pose proof (bits_bound nb 4096 Lnb ltac:(lia)) as B2.
  rewrite Vnb in B1, B2. destruct (Z.eqb_spec (os2ip pn) 0) as [->|Hn0]; [done|].
  destruct (Z.leb_spec (2 ^ 1023) (os2ip pn)) as [Hge|Hlt]; cbn [andb].
  2:{ apply B1 in Hlt. destruct (Z.ltb_spec (bn_bits nb) 1024); [done|lia]. }
  destruct (Z.ltb_spec (bn_bits nb) 1024) as [Hb1|Hb1]; [assert (os2ip pn < 2 ^ 1023) by (apply B1; lia); lia|]. cbn [orb].
  destruct (Z.ltb_spec (os2ip pn) (2 ^ 4096)) as [Hlt|Hge2]; cbn [andb].
  2:{ destruct (Z.ltb_spec 4096 (bn_bits nb)) as [|Hb2]; [done|]. apply B2 in Hb2. lia. }
  apply B2 in Hlt. destruct (Z.ltb_spec 4096 (bn_bits nb)); [lia|].
  change 1 with (Z.ones 1) at 1 2. rewrite Z.land_ones, Z.pow_1_r, odd_limb, Vnb by (lia || done). rewrite Zmod_odd.
  destruct (Z.odd (os2ip pn)); cbn [Z.eqb Pos.eqb]; [|done]. exists nb, eb. split_and!; try done. lia.
Qed.

Lemma rsa_parse_spec key : bytes key →
  match rsa_key key with
  | Some (n, e) => ∃ nb eb, rsa_parse key = Ok (nb, eb) ∧ normal nb ∧ bn_val nb = n ∧ normal eb ∧ bn_val eb = e
  | None => rsa_parse key = eformat
  end.
Proof.
  intros Hk. unfold rsa_key, rsa_parse. destruct key as [|k0 rest]; [done|]. cbn [rsa_key_body]. apply Forall_cons_1 in Hk as [Hk0 Hr]. unfold byte in Hk0.
  rewrite zlen_cons. pose proof (zlen_nonneg rest). destruct (Z.eqb_spec k0 0) as [->|Hne].
  - destruct rest as [|h [|l rest]]; [done|done|]. rewrite !zlen_cons. pose proof (zlen_nonneg rest).
    destruct (Z.ltb_spec (1 + (1 + (1 + zlen rest))) 3); [lia|]. change (rd (0 :: h :: l :: rest) 0) with (Ok 0). bind_ok. cbn [Z.eqb].
    apply Forall_cons_1 in Hr as [Hh Hr]. apply Forall_cons_1 in Hr as [Hl Hr]. rewrite (get16_value _ _ h l) by done. bind_ok.
    assert (0 <= be2 h l) as Hb by (unfold be2, byte in *; lia). pose proof (rsa_parse_at_spec [0; h; l] rest (be2 h l) Hr Hb) as Hs.
    cbn [app] in Hs. change (zlen [0; h; l]) with 3 in Hs. unfold key_ok in Hs. rewrite !andb_assoc in Hs. case_match; done.
  - assert (0 <= k0) as Hb by lia. pose proof (rsa_parse_at_spec [k0] rest k0 Hr Hb) as Hs. cbn [app] in Hs. change (zlen [k0]) with 1 in Hs.
    unfold key_ok in Hs. rewrite !andb_assoc in Hs. change (rd (k0 :: rest) 0) with (Ok k0). bind_ok. destruct (Z.eqb_spec k0 0); [lia|].
    destruct (Z.ltb_spec (1 + zlen rest) 3); [|case_match; done].
    assert ((0 <? k0) && (k0 <? zlen rest) = false) as -> by lia. done.
Qed.

(** ** The table of contexts *)

(** What holds of the table: a valid entry has the context of its modulus. *)
Definition wf_mc (u128 : bool) (st : mont_cache) : Prop :=
  zlen (g_mont st) = MONT_CACHE ∧ 0 <= g_mont_next st < MONT_CACHE ∧
  Forall (fun x => me_valid x = true → wf_mont u128 (me_ctx x) ∧ m_m (me_ctx x) = me_n x) (g_mont st).

Lemma mont_find_spec u128 l n c :
  Forall (fun x => me_valid x = true → wf_mont u128 (me_ctx x) ∧ m_m (me_ctx x) = me_n x) l → normal n → mont_find l n = Some c →
  wf_mont u128 c ∧ m_m c = n.
Proof.
  intros Hl Hn. induction Hl as [|x l Hx _ IH]; cbn [mont_find]; [done|]. destruct (me_valid x) eqn:Ev; [|exact IH]. cbn [andb].
  destruct (Hx eq_refl) as [Hw Hm]. pose proof (wm_norm _ _ Hw) as Hnx. rewrite Hm in Hnx. destruct (Z.eqb_spec (bn_cmp (me_n x) n) 0) as [E|]; [|exact IH].
  intros [= <-]. split; [done|]. rewrite Hm. apply normal_inj; [done|done|]. rewrite cmp_spec in E by (apply Hnx || apply Hn).
  destruct (Z.ltb_spec (bn_val (me_n x)) (bn_val n)); [done|]. by destruct (Z.eqb_spec (bn_val (me_n x)) (bn_val n)).
Qed.

(** The context of a modulus, from the table or built into its oldest entry. *)
Lemma mont_for_spec u128 st n : wf_mc u128 st → normal n → bn_val n mod 2 = 1 → 1 < bn_val n → zlen n + 2 <= BN_MAX_LIMBS →
  ∃ c st', mont_for u128 st n = Ok (Some c, st') ∧ wf_mc u128 st' ∧ wf_mont u128 c ∧ m_m c = n.
Proof.
  intros (Hl & Hx & Hf) Hn Ho H1 Hlen. unfold mont_for. destruct (mont_find (g_mont st) n) as [c|] eqn:Ef.
  { destruct (mont_find_spec u128 _ _ _ Hf Hn Ef). exists c, st. done. }
  destruct (rd_in_range (g_mont st) (g_mont_next st)) as (x & -> & Lx); [lia|]. bind_ok. rewrite wr_in_range by lia. bind_ok.
  destruct (mont_init_spec u128 n Hn Ho H1 Hlen) as (c & -> & Hc & Em). rewrite wr_in_range by (rewrite zlen_insert; lia). bind_ok.
  rewrite list_insert_insert_eq. eexists _, _. split; [done|]. split; [|done]. split; [cbn [g_mont]; by rewrite zlen_insert|].
  split; [apply Z.mod_pos_bound; done|]. cbn [g_mont]. apply Forall_insert; [done|]. done.
Qed.

(** ** The encoded message *)

Lemma ff_loop_spec pre post P : ff_loop (pre ++ P ++ post) (zlen pre) (length P) = Ok (forallb (fun x => x =? 255) P).
Proof.
  revert pre. induction P as [|x P IH]; intros pre; cbn [ff_loop length forallb]; [done|]. rewrite rd_app_r, Z.sub_diag by lia.
  change (rd ((x :: P) ++ post) 0) with (Ok x). bind_ok. destruct (x =? 255); cbn [negb andb]; [|done].
  specialize (IH (pre ++ [x])). rewrite zlen_app, <- app_assoc in IH. exact IH.
Qed.

Lemma forallb_replicate P n : length P = n → forallb (fun x => x =? 255) P = bool_decide (P = replicate n 255).
Proof.
  intros <-. induction P as [|x P IH]; cbn [forallb length replicate]; [done|]. rewrite IH.
  destruct (Z.eqb_spec x 255) as [->|]; cbn [andb].
  - apply bool_decide_ext. split; congruence.
  - symmetry. apply bool_decide_eq_false_2. congruence.
Qed.

Lemma split_len {A} (l : list A) n m : 0 <= n → 0 <= m → zlen l = n + m → ∃ p q, l = p ++ q ∧ zlen p = n ∧ zlen q = m.
Proof.
  intros Hn Hm Hl. exists (take (Z.to_nat n) l), (drop (Z.to_nat n) l). rewrite take_drop, zlen_take, zlen_drop. split; [done|]. lia.
Qed.

Lemma drop_exact {A} (l k : list A) n : zlen l = n → drop (Z.to_nat n) (l ++ k) = k.
Proof. intros <-. apply drop_app_length'. zl. Qed.

(** The comparison of what follows the padding. *)
Lemma em_tail D H' di hash : bytes H' → bytes hash → zlen D = zlen di → zlen H' = zlen hash →
  (c ← memcmp (D ++ H') di (zlen di);
   if negb (c =? 0) then Ok false else differ ← elpis_ct_memcmp H' hash (zlen hash); Ok (negb differ)) = Ok (bool_decide (D = di ∧ H' = hash)).
Proof.
  intros HH Hh Hl Hl'. pose proof (zlen_nonneg di). pose proof (zlen_nonneg hash). unfold memcmp. pose proof (zlen_nonneg H').
  rewrite !rds_in_range by (rewrite ?zlen_app; lia). bind_ok. rewrite (slice_0_all di) by lia. assert (slice (D ++ H') 0 (zlen di) = D) as -> by (rewrite <- Hl; apply slice_0_app). do 2 bind_ok.
  pose proof (cmp_eq (cmp := octets_cmp) D di) as Hc. destruct (Z.eqb_spec (octets_cmp D di) 0) as [E|E]; cbn [negb].
  - apply Hc in E as ->. rewrite ct_memcmp_spec by (done || lia). bind_ok. rewrite !slice_0_all by lia. f_equal.
    destruct (decide (slice H' 0 (zlen hash) = H')) as [_|Hx]; [|destruct Hx; apply slice_0_all; lia]. rewrite bool_decide_not, negb_involutive. apply bool_decide_ext. tauto.
  - rewrite bool_decide_eq_false_2; [done|]. intros [? _]. tauto.
Qed.

Lemma check_em_spec em di hash k : bytes em → bytes hash → zlen em = k → zlen di + zlen hash + 11 <= k →
  check_em em di hash k = Ok (bool_decide (em = emsa_pkcs1 k di hash)).
Proof.
  intros He Hh Hl Hk. pose proof (zlen_nonneg di). pose proof (zlen_nonneg hash). set (ps := k - 3 - zlen di - zlen hash).
  destruct em as [|a [|b em]]; [zl..|]. rewrite !zlen_cons in Hl.
  destruct (split_len em ps (1 + zlen di + zlen hash)) as (P & q & -> & HlP & Hlq); [lia..|].
  destruct q as [|z q]; [zl|]. rewrite zlen_cons in Hlq. destruct (split_len q (zlen di) (zlen hash)) as (D & H' & -> & HlD & HlH); [lia..|].
  unfold emsa_pkcs1. fold ps. assert (length P = Z.to_nat ps) as Hnp by zl.
  unfold check_em. fold ps. change (rd (a :: b :: ?r) 0) with (Ok a). bind_ok. change (rd (a :: b :: ?r) 1) with (Ok b). bind_ok.
  destruct (Z.eqb_spec a 0) as [->|]; cbn [negb orb]; [|rewrite bool_decide_eq_false_2; [done|]; cbn [app]; congruence].
  destruct (Z.eqb_spec b 1) as [->|]; cbn [negb]; [|rewrite bool_decide_eq_false_2; [done|]; cbn [app]; congruence].
  destruct (Z.ltb_spec ps 8); [lia|]. pose proof (ff_loop_spec [0; 1] (z :: D ++ H') P) as Hff. rewrite Hnp in Hff. cbn [app] in Hff. change (zlen [0; 1]) with 2 in Hff.
  rewrite Hff, (forallb_replicate P (Z.to_nat ps)) by done. bind_ok. case_bool_decide as HP; cbn [negb].
  2:{ rewrite bool_decide_eq_false_2; [done|]. cbn [app]. intros [= E]. apply app_inj_1 in E as [E _]; [done|]. by rewrite length_replicate. }
  assert (0 :: 1 :: P ++ z :: D ++ H' = (0 :: 1 :: P) ++ z :: D ++ H') as Eem by done.
  assert (zlen (0 :: 1 :: P) = 2 + ps) as Elp by (rewrite !zlen_cons; lia).
  rewrite Eem, rd_app_r, Elp, Z.sub_diag by lia. change (rd (z :: ?r) 0) with (Ok z). bind_ok. rewrite <- Eem.
  assert (drop (Z.to_nat (3 + ps)) (0 :: 1 :: P ++ z :: D ++ H') = D ++ H') as ->.
  { rewrite Eem, (cons_middle z), app_assoc. apply drop_exact. rewrite zlen_app. change (zlen [z]) with 1. lia. }
  assert (drop (Z.to_nat (3 + ps + zlen di)) (0 :: 1 :: P ++ z :: D ++ H') = H') as ->.
  { rewrite Eem, (cons_middle z), !app_assoc. apply drop_exact. rewrite !zlen_app. change (zlen [z]) with 1. lia. }
  assert (bytes H') as HbH by (rewrite Eem in He; by apply Forall_app in He as [_ [_ [_ ?]%Forall_app]%Forall_cons_1]).
  rewrite em_tail, HP by done. cbn [app]. destruct (Z.eqb_spec z 0) as [->|Hz]; cbn [negb].
  - f_equal. apply bool_decide_ext. split; [by intros [-> ->]|]. intros [= E]. apply app_inv_head in E. injection E as E. by apply app_inj_1 in E; [|zl].
  - rewrite bool_decide_eq_false_2; [done|]. intros [= E]. apply app_inv_head in E. congruence.
Qed.

(** ** Verification *)

Lemma digest_info_bytes alg di : digest_info alg = Some di → bytes di.
Proof.
  assert (bytes di_sha1 ∧ bytes di_sha256 ∧ bytes di_sha384 ∧ bytes di_sha512) as (H1 & H2 & H3 & H4).
  { split_and!; repeat apply Forall_cons_2; try apply Forall_nil_2; unfold byte; lia. }
  unfold digest_info. repeat case_match; by intros [= <-].
Qed.

Lemma emsa_bytes k di hash : bytes di → bytes hash → bytes (emsa_pkcs1 k di hash).
Proof.
  intros Hd Hh. unfold emsa_pkcs1. repeat (apply Forall_app; split); try done; [| |].
  - repeat apply Forall_cons_2; try apply Forall_nil_2; unfold byte; lia.
  - apply Forall_replicate. unfold byte. lia.
  - apply Forall_cons_2; [unfold byte; lia|apply Forall_nil_2].
Qed.

Lemma zlen_emsa k di hash : zlen di + zlen hash + 3 <= k → zlen (emsa_pkcs1 k di hash) = k.
Proof. intros Hk. unfold emsa_pkcs1. rewrite !zlen_app, zlen_replicate. change (zlen [0; 1]) with 2. change (zlen [0]) with 1. zl. Qed.

Lemma rsa_key_bounds key n e : rsa_key key = Some (n, e) → 2 ^ 1023 <= n < 2 ^ 4096 ∧ n mod 2 = 1.
Proof.
  unfold rsa_key. destruct (rsa_key_body key) as [[elen rest]|]; [|done]. cbv zeta. destruct (_ && Z.odd _) eqn:E; [|done]. intros [= <- _].
  apply andb_true_iff in E as [E Ho]. apply andb_true_iff in E as [E ?]. apply andb_true_iff in E as [E ?].
  rewrite Zmod_odd, Ho. lia.
Qed.

Lemma rsa_modulus n : normal n → 2 ^ 1023 <= bn_val n < 2 ^ 4096 → zlen n + 2 <= BN_MAX_LIMBS ∧ 1 < bn_val n.
Proof.
  intros Hn Hv. split.
  - pose proof (normal_low n 128 Hn ltac:(change (32 * Z.of_nat 128) with 4096; lia)). unfold BN_MAX_LIMBS. zl.
  - apply (Z.lt_le_trans _ (2 ^ 1023)); [|lia]. change 1 with (2 ^ 0). apply Z.pow_lt_mono_r; lia.
Qed.

(** The octets of the modulus. *)
Lemma octets_of n : 0 < n → (Z.log2 n + 1 + 7) / 8 = Z.log2 n / 8 + 1 ∧ n < 256 ^ (Z.log2 n / 8 + 1).
Proof.
  intros Hn. pose proof (Z.log2_nonneg n). split; [rewrite <- Z.add_assoc; change (1 + 7) with (1 * 8); by apply Z.div_add|].
  destruct (Z.log2_spec n Hn) as [_ Hlt]. apply (Z.lt_le_trans _ _ _ Hlt). change 256 with (2 ^ 8). rewrite <- Z.pow_mul_r by (Z.div_mod_to_equations; lia).
  apply Z.pow_le_mono_r; [lia|]. Z.div_mod_to_equations; lia.
Qed.

(** C17. An RSA signature is accepted exactly when RFC 8017 accepts it: the key is an RFC 3110 key whose
    modulus is odd and of 1024 to 4096 bits and whose exponent is between 1 and 2^64 - 1, the
    digest has its algorithm's length, the signature has the modulus' length and is below it, and
    its [e]-th power modulo [n] is the EMSA-PKCS1-v1_5 encoding of the digest.  Nothing is read
    or written out of bounds, whatever the octets, and the verdict does not depend on the table
    of Montgomery contexts the thread has kept, which stays well formed, nor on the limb width
    of the build. *)
Theorem rsa_verify_exact u128 st key sig hash alg : wf_mc u128 st → bytes key → bytes sig → bytes hash →
  ∃ st', elpis_rsa_verify u128 st key sig hash alg = Ok (rsa_spec key sig hash alg, st') ∧ wf_mc u128 st'.
Proof.
  intros Hst Hk Hs Hh. unfold elpis_rsa_verify, rsa_spec. pose proof (rsa_parse_spec key Hk) as Hp.
  destruct (rsa_key key) as [[n e]|] eqn:Ek; [|rewrite Hp; by exists st]. destruct Hp as (nb & eb & -> & Hn & Vn & He & Ve).
  apply rsa_key_bounds in Ek as [Hb Ho]. rewrite <- Vn in Hb, Ho. destruct (rsa_modulus nb Hn Hb) as [Hlen H1].
  destruct (octets_of n) as [Eo Ho']; [lia|]. rewrite bits_spec, Vn by apply Hn. destruct (Z.eqb_spec n 0); [lia|]. rewrite Eo. set (k := Z.log2 n / 8 + 1) in *.
  assert (k <= 512) as Hk512.
  { assert (Z.log2 n < 4096) by (apply Z.log2_lt_pow2; lia). unfold k. Z.div_mod_to_equations; lia. }
  assert ((BN_MAX_LIMBS * 4 <? k) = false) as -> by (unfold BN_MAX_LIMBS; lia). rewrite orb_false_r.
  destruct (digest_info alg) as [di|] eqn:Ed; [|case_match; by exists st]. apply digest_info_bytes in Ed.
  destruct (Z.eqb_spec (zlen sig) k) as [Hls|]; cbn [negb andb]; [|by exists st].
  destruct (Z.eqb_spec (zlen hash) (elpis_hash_len alg)) as [Hlh|]; cbn [negb andb]; [|by exists st].
  destruct (Z.ltb_spec k (zlen di + zlen hash + 11)); destruct (Z.leb_spec (zlen di + zlen hash + 11) k); try lia; cbn [andb]; [by exists st|].
  pose proof (from_bytes_val sig Hs) as Hf. pose proof (os2ip_range sig Hs) as Rs. rewrite Hls in Rs.
  assert (256 ^ k <= 256 ^ 576) by (apply Z.pow_le_mono_r; lia). destruct (bn_from_bytes sig) as [s|? ?|?]; [|lia|done]. destruct Hf as (Ns & Vs & _).
  rewrite cmp_spec, Vs, Vn by (apply Ns || apply Hn). destruct (Z.ltb_spec (os2ip sig) n); cbn [andb].
  2:{ assert ((0 <=? (if os2ip sig =? n then 0 else 1)) = true) as -> by (by destruct (_ =? _)). by exists st. }
  change (0 <=? -1) with false. destruct (mont_for_spec u128 st nb Hst Hn Ho H1 Hlen) as (c & st' & -> & Hst' & Hc & Em). bind_ok. cbv iota.
  destruct (modexp_spec u128 c s eb Hc Ns (proj1 He)) as [Nr Vr]. rewrite Em, Vs, Ve, Vn in Vr.
  pose proof (Z.mod_pos_bound (os2ip sig ^ e) n ltac:(lia)) as Rm. pose proof (bn_to_bytes_spec _ k (proj1 Nr) ltac:(pose proof (zlen_nonneg sig); lia)) as Ht.
  rewrite decide_True in Ht by (rewrite Vr; lia). destruct Ht as (em & -> & Hem & Hlem & Vem). rewrite check_em_spec by done. bind_ok.
  exists st'. split; [|done]. do 2 f_equal. rewrite <- Vr, <- Vem. pose proof (emsa_bytes k di hash Ed Hh) as Hbe.
  case_bool_decide as E; [rewrite E; symmetry; apply Z.eqb_refl|]. symmetry. apply Z.eqb_neq. intros E'. apply E, os2ip_inj; try done.
  rewrite zlen_emsa; lia.
Qed.
(** An example: a 1024-bit key of exponent 3 and its signature of a digest. *)
Definition rsa_ex_n : list Z :=
  [189; 155; 66; 181; 31; 232; 33; 97; 190; 118; 10; 235; 195; 149; 36; 49; 42; 202; 168; 222; 15; 79; 227; 213; 169; 141; 122; 62; 109; 145; 168; 153;
   161; 77; 77; 89; 58; 202; 113; 49; 121; 183; 177; 161; 187; 113; 12; 3; 103; 112; 32; 51; 203; 134; 141; 193; 44; 77; 74; 235; 59; 210; 53; 118;
   125; 107; 80; 155; 54; 86; 104; 181; 77; 172; 72; 196; 157; 30; 65; 35; 45; 173; 125; 176; 186; 159; 39; 136; 108; 99; 21; 123; 149; 1; 228; 22;
   227; 53; 155; 184; 61; 235; 106; 143; 133; 244; 22; 243; 253; 175; 75; 48; 239; 138; 173; 233; 71; 187; 76; 52; 233; 89; 159; 17; 132; 38; 183; 213].
Definition rsa_ex_sig : list Z :=
  [13; 205; 18; 158; 112; 27; 219; 213; 187; 70; 100; 29; 162; 228; 147; 26; 78; 50; 126; 5; 231; 44; 156; 236; 239; 184; 98; 87; 94; 92; 77; 234;
   112; 235; 251; 151; 137; 152; 221; 19; 24; 18; 111; 255; 142; 255; 49; 70; 89; 42; 89; 76; 64; 82; 35; 227; 4; 6; 203; 80; 222; 215; 9; 158;
   200; 183; 157; 134; 77; 38; 124; 41; 152; 255; 29; 73; 60; 87; 13; 85; 91; 118; 150; 85; 171; 38; 251; 66; 22; 62; 246; 31; 202; 127; 226; 193;
   249; 212; 15; 194; 134; 131; 158; 195; 153; 238; 247; 235; 99; 96; 237; 188; 31; 209; 85; 49; 16; 95; 248; 230; 157; 97; 144; 128; 145; 103; 123; 82].
Definition rsa_ex_hash : list Z := [0; 1; 2; 3; 4; 5; 6; 7; 8; 9; 10; 11; 12; 13; 14; 15; 16; 17; 18; 19].
(** The table as the thread starts with it: static storage. *)
Definition mont_cache0 : mont_cache := mkMontCache (replicate 16 (mkMontEnt [] (mkMont [] [] 0 0 [] 0) false)) 0.

Lemma wf_mont_cache0 u128 : wf_mc u128 mont_cache0.
Proof. split; [done|]. split; [done|]. cbn [g_mont mont_cache0]. by apply Forall_replicate. Qed.

Lemma bytes_dec l : forallb (fun x => (0 <=? x) && (x <? 256)) l = true → bytes l.
Proof. intros H. apply Forall_forall. intros x Hx. rewrite forallb_forall in H. specialize (H x Hx). unfold byte. lia. Qed.

Lemma rsa_verify_exact_witness : ∃ st',
  elpis_rsa_verify true mont_cache0 ([1; 3] ++ rsa_ex_n) rsa_ex_sig rsa_ex_hash ELPIS_HASH_SHA1 = Ok (true, st') ∧ wf_mc true st'.
Proof.
  assert (rsa_spec ([1; 3] ++ rsa_ex_n) rsa_ex_sig rsa_ex_hash ELPIS_HASH_SHA1 = true) as E by (vm_compute; reflexivity).
  assert (bytes ([1; 3] ++ rsa_ex_n) ∧ bytes rsa_ex_sig ∧ bytes rsa_ex_hash) as (Hk & Hs & Hh) by (split_and!; apply bytes_dec; vm_compute; reflexivity).
  destruct (rsa_verify_exact true mont_cache0 ([1; 3] ++ rsa_ex_n) rsa_ex_sig rsa_ex_hash ELPIS_HASH_SHA1 (wf_mont_cache0 true) Hk Hs Hh) as (st' & Hv & Hst).
  exists st'. split; [|exact Hst]. rewrite E in Hv. exact Hv.
Defined.
