(* ===== verification/Nsec3.v ===== *)
(** NSEC3 denial of existence and base32hex: src/dnssec/nsec3.c.

    Octets a pointer leads to are the list from that octet on. *)
From Stdlib Require Import String.
From stdpp Require Import base list numbers.
From Stdlib Require Import ZArith Lia.
From S2P Require Import Prelude Bytes Simd Name NameOps NameOrder Text Rdesc Bitmap Nsec Sha1.

#[local] Open Scope Z_scope.

(** ** base32hex *)

Definition k_b32 : list Z := str "0123456789abcdefghijklmnopqrstuv".

(** [while (bits >= 5)]: at most two turns, as fewer than 13 bits wait. *)
Fixpoint b32_emit (fuel : nat) (acc bits cap : Z) (out : list Z) : res (Z * list Z) :=
  match fuel with
  | O => Stuck OutOfFuel
  | S f =>
    if 5 <=? bits then
      let bits := bits - 5 in
      _ ← guard_err (cap <=? zlen out + 1) ELPIS_ETRUNC ELPIS_DROP_NONE;
      c ← rd k_b32 (Z.land (Z.shiftr acc bits) 0x1F);
      b32_emit f acc bits cap (out ++ [c])
    else Ok (bits, out)
  end.

(** [for (i = 0; i < n; i++)]: the accumulator, the waiting bits, the text. *)
Fixpoint b32_enc_loop (inp : list Z) (acc bits cap : Z) (out : list Z) : res (Z * Z * list Z) :=
  match inp with
  | [] => Ok (acc, bits, out)
  | b :: inp =>
    let acc := Z.lor (u32 (Z.shiftl acc 8)) b in
    '(bits, out) ← b32_emit 3 acc (bits + 8) cap out;
    b32_enc_loop inp acc bits cap out
  end.

(** [out[o] = '\0'] and the text before it. *)
Definition nul_end (out : list Z) (cap : Z) : res (list Z) :=
  if cap <=? zlen out then Stuck OutOfBounds else Ok out.

Definition elpis_base32hex_encode (inp : list Z) (n cap : Z) : res (list Z) :=
  s ← rds inp 0 n;
  '(acc, bits, out) ← b32_enc_loop s 0 0 cap [];
  if 0 <? bits then
    _ ← guard_err (cap <=? zlen out + 1) ELPIS_ETRUNC ELPIS_DROP_NONE;
    c ← rd k_b32 (Z.land (u32 (Z.shiftl acc (5 - bits))) 0x1F);
    nul_end (out ++ [c]) cap
  else nul_end out cap.

(** The value of a digit; [None] for [=], which ends the text. *)
Definition b32_digit (c : Z) : res (option Z) :=
  if (48 <=? c) && (c <=? 57) then Ok (Some (c - 48))
  else if (97 <=? c) && (c <=? 118) then Ok (Some (c - 97 + 10))
  else if (65 <=? c) && (c <=? 86) then Ok (Some (c - 65 + 10))
  else if c =? 61 then Ok None
  else fail ELPIS_EFORMAT.

Fixpoint b32_dec_loop (inp : list Z) (acc bits cap : Z) (out : list Z) : res (list Z) :=
  match inp with
  | [] => Ok out
  | c :: inp =>
    v ← b32_digit c;
    match v with
    | None => Ok out
    | Some v =>
      let acc := Z.lor (u32 (Z.shiftl acc 5)) v in
      let bits := bits + 5 in
      if 8 <=? bits then
        let bits := bits - 8 in
        _ ← guard_err (cap <=? zlen out) ELPIS_ETRUNC ELPIS_DROP_NONE;
        b32_dec_loop inp acc bits cap (out ++ [u8 (Z.shiftr acc bits)])
      else b32_dec_loop inp acc bits cap out
    end
  end.
Definition elpis_base32hex_decode (inp : list Z) (n cap : Z) : res (list Z) :=
  s ← rds inp 0 n;
  b32_dec_loop s 0 0 cap [].

(** ** Hashing *)

Definition ELPIS_NSEC3_SHA1 : Z := 1.
Definition ELPIS_NSEC3_OPTOUT : Z := 1.
Definition ELPIS_NSEC3_MAX_ITER : Z := 100.
Definition ELPIS_NSEC3_OPTOUT_PROOF : Z := 2.

(** [for (i = 0; i < iterations; i++)]. *)
Fixpoint n3_iterate (n : nat) (salt : list Z) (saltlen : Z) (out : list Z) : res (list Z) :=
  match n with
  | O => Ok out
  | S n =>
    s ← (if saltlen =? 0 then Ok [] else rds salt 0 saltlen);
    c ← elpis_sha1_update elpis_sha1_init (out ++ s);
    out ← elpis_sha1_final c;
    n3_iterate n salt saltlen out
  end.

Definition elpis_nsec3_hash (name : elpis_name_t) (salt : list Z) (saltlen iterations alg : Z) : res (list Z) :=
  _ ← guard_err (negb (alg =? ELPIS_NSEC3_SHA1)) ELPIS_ERR ELPIS_DROP_NONE;
  _ ← guard_err (ELPIS_NSEC3_MAX_ITER <? iterations) ELPIS_ERR ELPIS_DROP_NONE;
  canon ← elpis_name_lower name;
  d ← rds (n_d canon) 0 (n_len canon);
  c ← elpis_sha1_update elpis_sha1_init d;
  c ← (if saltlen =? 0 then Ok c else s ← rds salt 0 saltlen; elpis_sha1_update c s);
  out ← elpis_sha1_final c;
  n3_iterate (Z.to_nat iterations) salt saltlen out.

(** ** Records *)

Record n3_t := mkN3 {
  n3_alg : Z; n3_flags : Z; n3_iterations : Z; n3_salt : list Z; n3_saltlen : Z;
  n3_next : list Z; n3_nextlen : Z; n3_bitmap : list Z; n3_bitmaplen : Z;
  n3_owner_hash : list Z }.

(** The checks on the owner name; [None] for the code's 0. *)
Definition n3_owner (r : elpis_denial_rr_t) (zone : elpis_name_t) : res (option (list Z)) :=
  if n_len (dn_owner r) <? 2 then Ok None
  else
    d0 ← rd (n_d (dn_owner r)) 0;
    if (d0 =? 0) || (80 <=? d0) then Ok None
    else
      sub ← elpis_name_is_subdomain (dn_owner r) zone;
      if negb sub then Ok None
      else
        label ← rds (n_d (dn_owner r)) 1 d0;
        try (elpis_base32hex_decode label d0 32).

Definition n3_parse (r : elpis_denial_rr_t) (zone : elpis_name_t) : res (option n3_t) :=
  let rdl := dn_rdlen r in
  if rdl <? 5 then Ok None
  else
    alg ← rd (dn_rd r) 0;
    flags ← rd (dn_rd r) 1;
    iterations ← elpis_get16 (dn_rd r) 2;
    saltlen ← rd (dn_rd r) 4;
    if rdl <? 5 + saltlen + 1 then Ok None
    else
      let p := 5 + saltlen in
      nextlen ← rd (dn_rd r) p;
      let p := p + 1 in
      if (nextlen =? 0) || (rdl <? p + nextlen) then Ok None
      else
        let at_ o := drop (Z.to_nat o) (dn_rd r) in
        oh ← n3_owner r zone;
        match oh with
        | None => Ok None
        | Some oh =>
          if negb (zlen oh =? nextlen) then Ok None
          else
            Ok (Some (mkN3 alg flags iterations (at_ 5) saltlen (at_ p) nextlen
                        (at_ (p + nextlen)) (rdl - (p + nextlen)) oh))
        end.

Definition hash_cmp : list Z → Z → list Z → Z → res Z := memcmp_then_len.

Definition n3_covers (o : n3_t) (h : list Z) (hlen : Z) : res bool :=
  c_owner ← hash_cmp (n3_owner_hash o) (zlen (n3_owner_hash o)) h hlen;
  c_next ← hash_cmp h hlen (n3_next o) (n3_nextlen o);
  c ← hash_cmp (n3_owner_hash o) (zlen (n3_owner_hash o)) (n3_next o) (n3_nextlen o);
  Ok (if c <? 0 then (c_owner <? 0) && (c_next <? 0)
      else (c_owner <? 0) || (c_next <? 0)).

Definition n3_matches (o : n3_t) (h : list Z) (hlen : Z) : res bool :=
  c ← hash_cmp (n3_owner_hash o) (zlen (n3_owner_hash o)) h hlen;
  Ok (c =? 0).

(** The parameter test of the record loops. *)
Definition n3_same_params (o params : n3_t) : res bool :=
  if negb (n3_iterations o =? n3_iterations params) || negb (n3_saltlen o =? n3_saltlen params) then Ok false
  else if n3_saltlen o =? 0 then Ok true
  else c ← memcmp (n3_salt o) (n3_salt params) (n3_saltlen o); Ok (c =? 0).

(** The loop over the records that three functions share: the first one with
    the given parameters that passes the test. *)
Fixpoint n3_scan (rrs : list elpis_denial_rr_t) (zone : elpis_name_t) (params : n3_t)
    (test : n3_t → res bool) : res (option n3_t) :=
  match rrs with
  | [] => Ok None
  | r :: rrs =>
    o ← n3_parse r zone;
    match o with
    | None => n3_scan rrs zone params test
    | Some o =>
      same ← n3_same_params o params;
      if negb same then n3_scan rrs zone params test
      else
        hit ← test o;
        if (hit : bool) then Ok (Some o) else n3_scan rrs zone params test
    end
  end.

(** ** Proofs *)

Definition n3_hash_of (params : n3_t) (name : elpis_name_t) : res (option (list Z)) :=
  try (elpis_nsec3_hash name (n3_salt params) (n3_saltlen params) (n3_iterations params) (n3_alg params)).

(** [guard] counts to ELPIS_MAX_LABELS; [None] for the code's -1. *)
Fixpoint find_closest_encloser (guard : nat) (rrs : list elpis_denial_rr_t) (zone : elpis_name_t)
    (params : n3_t) (cur : elpis_name_t) : res (option elpis_name_t) :=
  match guard with
  | O => Ok None
  | S guard =>
    if n_labels cur <? n_labels zone then Ok None
    else
      h ← n3_hash_of params cur;
      hit ← match h with
            | Some h => n3_scan rrs zone params (fun o => n3_matches o h (zlen h))
            | None => Ok None
            end;
      match hit with
      | Some _ => Ok (Some cur)
      | None =>
        if n_len cur <=? 1 then Ok None
        else
          top ← elpis_name_eq cur zone;
          if (top : bool) then Ok None
          else
            up ← try (elpis_name_parent cur);
            match up with
            | None => Ok None
            | Some cur => find_closest_encloser guard rrs zone params cur
            end
      end
  end.

Fixpoint pick_params (rrs : list elpis_denial_rr_t) (zone : elpis_name_t) : res (option n3_t) :=
  match rrs with
  | [] => Ok None
  | r :: rrs =>
    o ← n3_parse r zone;
    match o with Some o => Ok (Some o) | None => pick_params rrs zone end
  end.

(** [Some opt_out] for the code's 1. *)
Definition covered_by_any (rrs : list elpis_denial_rr_t) (zone : elpis_name_t) (params : n3_t)
    (name : elpis_name_t) : res (option bool) :=
  h ← n3_hash_of params name;
  match h with
  | None => Ok None
  | Some h =>
    o ← n3_scan rrs zone params (fun o => n3_covers o h (zlen h));
    Ok match o with
       | Some o => Some (negb (Z.land (n3_flags o) ELPIS_NSEC3_OPTOUT =? 0))
       | None => None
       end
  end.

Definition matched_by_any (rrs : list elpis_denial_rr_t) (zone : elpis_name_t) (params : n3_t)
    (name : elpis_name_t) : res (option n3_t) :=
  h ← n3_hash_of params name;
  match h with
  | None => Ok None
  | Some h => n3_scan rrs zone params (fun o => n3_matches o h (zlen h))
  end.

(** The opening of the four proofs. *)
Definition n3_params (rrs : list elpis_denial_rr_t) (zone : elpis_name_t) : res (option n3_t) :=
  if zlen rrs =? 0 then Ok None
  else
    p ← pick_params rrs zone;
    match p with
    | Some p => Ok (if ELPIS_NSEC3_MAX_ITER <? n3_iterations p then None else Some p)
    | None => Ok None
    end.

Definition n3_bitmap_has (o : n3_t) (t : Z) : res bool := elpis_bitmap_has (n3_bitmap o) (n3_bitmaplen o) t.

Definition elpis_nsec3_proves_nxdomain (rrs : list elpis_denial_rr_t) (qname zone : elpis_name_t) : res Z :=
  p ← n3_params rrs zone;
  match p with
  | None => Ok 0
  | Some params =>
    ce ← find_closest_encloser (Z.to_nat ELPIS_MAX_LABELS) rrs zone params qname;
    match ce with
    | None => Ok 0
    | Some ce =>
      if n_labels qname <=? n_labels ce then Ok 0
      else
        nc ← try (elpis_name_suffix qname (n_labels ce + 1));
        match nc with
        | None => Ok 0
        | Some nc =>
          cov ← covered_by_any rrs zone params nc;
          match cov with
          | None => Ok 0
          | Some opt_out =>
            wc ← try (elpis_name_prepend [42] 1 ce);
            match wc with
            | None => Ok 0
            | Some wc =>
              m ← matched_by_any rrs zone params wc;
              match m with
              | Some _ => Ok 0
              | None =>
                c ← covered_by_any rrs zone params wc;
                match c with
                | None => Ok 0
                | Some _ => Ok (if opt_out : bool then ELPIS_NSEC3_OPTOUT_PROOF else 1)
                end
              end
            end
          end
        end
    end
  end.

Definition elpis_nsec3_proves_no_ds (rrs : list elpis_denial_rr_t) (qname zone : elpis_name_t) : res Z :=
  p ← n3_params rrs zone;
  match p with
  | None => Ok 0
  | Some params =>
    m ← matched_by_any rrs zone params qname;
    match m with
    | Some hit =>
      ds ← n3_bitmap_has hit ELPIS_T_DS;
      if (ds : bool) then Ok 0
      else
        soa ← n3_bitmap_has hit ELPIS_T_SOA;
        Ok (if (soa : bool) then 0 else 1)
    | None =>
      c ← covered_by_any rrs zone params qname;
      Ok match c with Some true => ELPIS_NSEC3_OPTOUT_PROOF | _ => 0 end
    end
  end.

Definition elpis_nsec3_proves_nodata (rrs : list elpis_denial_rr_t) (qname : elpis_name_t) (qtype : Z)
    (zone : elpis_name_t) : res Z :=
  p ← n3_params rrs zone;
  match p with
  | None => Ok 0
  | Some params =>
    m ← matched_by_any rrs zone params qname;
    match m with
    | Some hit =>
      b ← n3_bitmap_has hit qtype;
      if (b : bool) then Ok 0
      else
        c ← (if negb (qtype =? ELPIS_T_CNAME) then n3_bitmap_has hit ELPIS_T_CNAME else Ok false);
        Ok (if (c : bool) then 0 else 1)
    | None => if qtype =? ELPIS_T_DS then elpis_nsec3_proves_no_ds rrs qname zone else Ok 0
    end
  end.

Definition elpis_nsec3_proves_insecure_deleg (rrs : list elpis_denial_rr_t) (qname zone : elpis_name_t) : res Z :=
  p ← n3_params rrs zone;
  match p with
  | None => Ok 0
  | Some params =>
    m ← matched_by_any rrs zone params qname;
    match m with
    | Some hit =>
      ds ← n3_bitmap_has hit ELPIS_T_DS;
      if (ds : bool) then Ok 0
      else
        soa ← n3_bitmap_has hit ELPIS_T_SOA;
        if (soa : bool) then Ok 0
        else
          ns ← n3_bitmap_has hit ELPIS_T_NS;
          Ok (if (ns : bool) then 1 else 0)
    | None => elpis_nsec3_proves_no_ds rrs qname zone
    end
  end.

(** ** What the records mean *)

(** RFC 5155 section 5: the iterated, salted hash of a name. *)
Definition digest (salt : list Z) (iterations : Z) (ls : list (list Z)) : list Z :=
  Nat.iter (Z.to_nat iterations) (fun x => sha1_spec (x ++ salt)) (sha1_spec (wire (fold_labels ls) ++ salt)).

(** Strictly between two hashes, in the order that wraps after the last. *)
Definition hash_spans (oh nh h : list Z) : Prop :=
  if octets_cmp oh nh <? 0 then octets_cmp oh h < 0 ∧ octets_cmp h nh < 0
  else octets_cmp oh h < 0 ∨ octets_cmp h nh < 0.

#[export] Instance hash_spans_dec oh nh h : Decision (hash_spans oh nh h).
Proof. unfold hash_spans. case_match; apply _. Defined.

(** A zone signed with NSEC3: every name that exists in it, empty
    non-terminals included, with its types and whether the signer may leave it
    out of the chain under opt-out (an unsigned delegation, or a name that
    exists only because of one). *)
Definition zone3 : Type := list (list (list Z) * list Z * bool).

(** The zone below [apex]: with a name it has every name between that and the
    apex, and a name above one that the signer covers is covered too. *)
Definition zone3_ok (apex : list (list Z)) (zn : zone3) : Prop :=
  ∀ z ts u, (z, ts, u) ∈ zn → ∀ j, (length apex < length (drop j z))%nat →
    ∃ z' ts' u', (z', ts', u') ∈ zn ∧ labels_eq z' (drop j z) ∧ (u' = true → u = true).

(** What a correct signer of the zone publishes: SHA-1 records at the hashes of
    its names, in which the bitmap of a name lists its types and no name hashes
    strictly between the owner's hash and the next, except names left out by an
    opt-out record. *)
Definition genuine3 (zn : zone3) (apex : elpis_name_t) (r : elpis_denial_rr_t) : Prop :=
  ∀ o, n3_parse r apex = Ok (Some o) →
    let salt := slice (n3_salt o) 0 (n3_saltlen o) in
    let next := slice (n3_next o) 0 (n3_nextlen o) in
    n3_alg o = ELPIS_NSEC3_SHA1 ∧
    (∃ z ts u, (z, ts, u) ∈ zn ∧ digest salt (n3_iterations o) z = n3_owner_hash o) ∧
    (∃ ws, windows_ok ws ∧ slice (n3_bitmap o) 0 (n3_bitmaplen o) = enc_windows ws ∧
      ∀ z ts u t, (z, ts, u) ∈ zn → digest salt (n3_iterations o) z = n3_owner_hash o →
        0 <= t < 65536 → in_windows ws t ↔ t ∈ ts) ∧
    ∀ z ts u, (z, ts, u) ∈ zn → hash_spans (n3_owner_hash o) next (digest salt (n3_iterations o) z) →
      u = true ∧ negb (Z.land (n3_flags o) ELPIS_NSEC3_OPTOUT =? 0) = true.

(** ** Base32 *)

(** The code's order of digits is the order of values. *)
Lemma k_b32_length : zlen k_b32 = 32.
Proof. by vm_compute. Qed.

Lemma b32_digit_of v : 0 <= v < 32 → ∃ c, rd k_b32 v = Ok c ∧ b32_digit c = Ok (Some v).
Proof.
  intros Hv. assert (forallb (fun v => match rd k_b32 v with
    | Ok c => match b32_digit c with Ok (Some w) => w =? v | _ => false end | _ => false end) (seqZ 0 32) = true) as H by by vm_compute.
  rewrite forallb_forall in H. specialize (H v ltac:(apply list_elem_of_In, elem_of_seqZ; lia)).
  destruct (rd k_b32 v) as [c| |]; [|done|done]. exists c. split; [done|].
  destruct (b32_digit c) as [[w|]| |]; try done. bool_to_prop. by subst.
Qed.

(** The digit of a value. *)
Definition b32c (v : Z) : Z := default 0 (k_b32 !! Z.to_nat v).

Lemma rd_b32c v : 0 <= v < 32 → rd k_b32 v = Ok (b32c v) ∧ b32_digit (b32c v) = Ok (Some v).
Proof.
  intros Hv. destruct (b32_digit_of v Hv) as (c & Hc & Hd). apply rd_Ok_inv in Hc as Hl. destruct Hl as [_ Hl].
  unfold b32c. by rewrite Hl.
Qed.

Lemma shift_in acc b k w : 0 <= k → 0 <= w → k + w <= 32 → 0 <= b < 2 ^ w →
  Z.lor (u32 (Z.shiftl acc w)) b mod 2 ^ (k + w) = (acc mod 2 ^ k) * 2 ^ w + b.
Proof.
  intros Hk Hw Hkw Hb. rewrite shiftl_mul by lia. unfold u32.
  assert (2 ^ 32 = 2 ^ (32 - w) * 2 ^ w) as E by (rewrite <- Z.pow_add_r by lia; f_equal; lia).
  assert (0 < 2 ^ w) by (apply Z.pow_pos_nonneg; lia). assert (0 < 2 ^ k) by (apply Z.pow_pos_nonneg; lia).
  assert (0 < 2 ^ (32 - w)) by (apply Z.pow_pos_nonneg; lia).
  assert ((acc * 2 ^ w) mod 2 ^ 32 = (acc mod 2 ^ (32 - w)) * 2 ^ w) as ->.
  { rewrite E, Z.mul_mod_distr_r by lia. done. }
  rewrite <- (shiftl_mul _ w), lor_shiftl_add by lia. rewrite Z.pow_add_r by lia.
  rewrite (Z.mul_comm (2 ^ k) (2 ^ w)), Z.rem_mul_r by lia.
  rewrite (Z.add_comm _ b), Z_mod_plus_full, Z.mod_small by lia. rewrite Z.div_add, Z.div_small by lia. rewrite Z.add_0_l.
  rewrite Z.mod_mod_divide; [lia|]. exists (2 ^ (32 - w - k)). rewrite <- Z.pow_add_r by lia. f_equal. lia.
Qed.

Lemma shift_out acc b w : 0 <= b → 0 <= w →
  acc mod 2 ^ (b + w) = (Z.shiftr acc b mod 2 ^ w) * 2 ^ b + acc mod 2 ^ b.
Proof.
  intros. rewrite shiftr_div, Z.pow_add_r by lia.
  assert (0 < 2 ^ w) by (apply Z.pow_pos_nonneg; lia). assert (0 < 2 ^ b) by (apply Z.pow_pos_nonneg; lia).
  rewrite Z.rem_mul_r by lia. lia.
Qed.

Abbreviation quintets := (Forall (fun v => 0 <= v < 32)).
Definition value_from (base v : Z) (ds : list Z) : Z := fold_left (fun v d => v * base + d) ds v.

Lemma b32_emit_spec fuel : ∀ acc bits cap vs T,
  0 <= bits < 5 * Z.of_nat fuel → quintets vs → 5 * zlen vs + bits = T → (T + 4) / 5 < cap →
  ∃ bits' vs', b32_emit fuel acc bits cap (map b32c vs) = Ok (bits', map b32c vs') ∧ 0 <= bits' < 5 ∧ quintets vs' ∧
    5 * zlen vs' + bits' = T ∧
    value 32 vs * 2 ^ bits + acc mod 2 ^ bits = value 32 vs' * 2 ^ bits' + acc mod 2 ^ bits'.
Proof.
  induction fuel as [|f IH]; intros acc bits cap vs T Hb Hvs HT Hcap; cbn [b32_emit]; [lia|].
  destruct (Z.leb_spec 5 bits); [|exists bits, vs; split_and!; done || lia]. cbv zeta. rewrite zlen_map.
  assert ((cap <=? zlen vs + 1) = false) as ->.
  { apply Z.leb_gt. apply Z.le_lt_trans with ((T + 4) / 5); [|done]. apply Z.div_le_lower_bound; lia. }
  bind_step. change 0x1F with (Z.ones 5). rewrite Z.land_ones by lia.
  set (v := Z.shiftr acc (bits - 5) mod 2 ^ 5). assert (0 <= v < 32) as Hv by (apply Z.mod_pos_bound; lia).
  destruct (rd_b32c v Hv) as [-> _]. bind_step.
  destruct (IH acc (bits - 5) cap (vs ++ [v]) T) as (bits' & vs' & E & Hb' & Hvs' & HT' & Hval); [lia| | |done|].
  - apply Forall_app. split; [done|]. by constructor.
  - rewrite zlen_app, zlen_cons, zlen_nil. lia.
  - exists bits', vs'. rewrite map_app in E. split; [done|]. split; [done|]. split; [done|]. split; [done|].
    rewrite <- Hval, value_snoc. replace bits with ((bits - 5) + 5) at 1 2 by lia. rewrite (shift_out acc (bits - 5) 5) by lia.
    fold v. rewrite Z.pow_add_r by lia. lia.
Qed.

Lemma b32_enc_loop_spec inp : ∀ acc bits cap vs T,
  bytes inp → 0 <= bits < 5 → quintets vs → 5 * zlen vs + bits + 8 * zlen inp = T → (T + 4) / 5 < cap →
  ∃ acc' bits' vs', b32_enc_loop inp acc bits cap (map b32c vs) = Ok (acc', bits', map b32c vs') ∧
    0 <= bits' < 5 ∧ quintets vs' ∧ 5 * zlen vs' + bits' = T ∧
    value_from 256 (value 32 vs * 2 ^ bits + acc mod 2 ^ bits) inp = value 32 vs' * 2 ^ bits' + acc' mod 2 ^ bits'.
Proof.
  induction inp as [|b inp IH]; intros acc bits cap vs T Hinp Hb Hvs HT Hcap; cbn [b32_enc_loop].
  - exists acc, bits, vs. split; [done|]. split; [done|]. split; [done|]. split; [rewrite (@zlen_nil Z) in HT; lia|done].
  - apply Forall_cons_iff in Hinp as [Hbb Hinp]. rewrite zlen_cons in HT. pose proof (zlen_nonneg inp). unfold byte in Hbb. cbv zeta.
    set (acc1 := Z.lor _ b).
    destruct (b32_emit_spec 3 acc1 (bits + 8) cap vs (5 * zlen vs + (bits + 8))) as (bits1 & vs1 & -> & Hb1 & Hvs1 & HT1 & Hval1);
      [lia|done|done| |].
    { apply Z.le_lt_trans with ((T + 4) / 5); [|done]. apply Z.div_le_mono; lia. }
    bind_step. destruct (IH acc1 bits1 cap vs1 T) as (acc' & bits' & vs' & E & Hb' & Hvs' & HT' & Hval'); [done|done|done|lia|done|].
    exists acc', bits', vs'. split; [done|]. split; [done|]. split; [done|]. split; [done|].
    rewrite <- Hval', <- Hval1. unfold value_from. cbn [fold_left]. f_equal.
    unfold acc1. rewrite (shift_in acc b bits 8) by lia. rewrite Z.pow_add_r by lia. lia.
Qed.

Lemma b32_dec_loop_spec vs : ∀ acc bits cap out,
  quintets vs → 0 <= bits < 8 → bytes out → 8 * zlen out + bits + 5 * zlen vs < 8 * (cap + 1) →
  ∃ out' r bits', b32_dec_loop (map b32c vs) acc bits cap out = Ok out' ∧ bytes out' ∧ 0 <= bits' < 8 ∧ 0 <= r < 2 ^ bits' ∧
    8 * zlen out' + bits' = 8 * zlen out + bits + 5 * zlen vs ∧
    value_from 32 (value 256 out * 2 ^ bits + acc mod 2 ^ bits) vs = value 256 out' * 2 ^ bits' + r.
Proof.
  induction vs as [|v vs IH]; intros acc bits cap out Hvs Hb Hout Hcap; cbn [map b32_dec_loop].
  - exists out, (acc mod 2 ^ bits), bits. split; [done|]. split; [done|]. split; [done|].
    split; [apply Z.mod_pos_bound, Z.pow_pos_nonneg; lia|]. split; [rewrite (@zlen_nil Z); lia|done].
  - apply Forall_cons_iff in Hvs as [Hv Hvs]. rewrite zlen_cons in Hcap. pose proof (zlen_nonneg vs). destruct (rd_b32c v Hv) as [_ ->].
    bind_step. cbv zeta. set (acc1 := Z.lor _ v).
    assert (acc1 mod 2 ^ (bits + 5) = acc mod 2 ^ bits * 2 ^ 5 + v) as Hacc by (apply shift_in; lia).
    destruct (Z.leb_spec 8 (bits + 5)).
    + zfalse (cap <=? zlen out). bind_step. set (y := u8 _).
      destruct (IH acc1 (bits + 5 - 8) cap (out ++ [y])) as (out' & r & bits' & E & Ho & Hb' & Hr & Hz & Hval); [done|lia| | |].
      * apply Forall_app. split; [done|]. constructor; [apply u8_byte|constructor].
      * rewrite zlen_app, zlen_cons, zlen_nil. lia.
      * exists out', r, bits'. split; [done|]. split; [done|]. split; [done|]. split; [done|].
        rewrite zlen_app, !zlen_cons, zlen_nil in *. split; [lia|]. rewrite <- Hval. unfold value_from. cbn [fold_left]. f_equal.
        rewrite value_snoc. unfold y, u8. pose proof (shift_out acc1 (bits + 5 - 8) 8 ltac:(lia) ltac:(lia)) as Hs.
        replace (bits + 5 - 8 + 8) with (bits + 5) in Hs by lia. rewrite Hacc in Hs.
        assert (2 ^ bits * 32 = 256 * 2 ^ (bits + 5 - 8)) as Hp.
        { change 32 with (2 ^ 5). change 256 with (2 ^ 8). rewrite <- !Z.pow_add_r by lia. f_equal. lia. }
        change (2 ^ 5) with 32 in Hs. nia.
    + destruct (IH acc1 (bits + 5) cap out) as (out' & r & bits' & E & Ho & Hb' & Hr & Hz & Hval); [done|lia|done|lia|].
      exists out', r, bits'. split; [done|]. split; [done|]. split; [done|]. split; [done|]. rewrite zlen_cons. split; [lia|].
      rewrite <- Hval. unfold value_from. cbn [fold_left]. f_equal. rewrite Hacc, Z.pow_add_r by lia. lia.
Qed.

Lemma value_bound ds : bytes ds → 0 <= value 256 ds.
Proof. induction ds as [|d ds IH] using rev_ind; [done|]. intros [? Hd]%Forall_app. rewrite value_snoc. apply Forall_cons_iff in Hd as [[? ?] _]. specialize (IH H). lia. Qed.

Lemma value_256_inj a : ∀ b, bytes a → bytes b → zlen a = zlen b → value 256 a = value 256 b → a = b.
Proof.
  induction a as [|x a IH] using rev_ind; intros b Ha Hb Hz Hv.
  - symmetry. rewrite zlen_nil in Hz. symmetry in Hz. by apply zlen_0_nil.
  - destruct b as [|y b _] using rev_ind; [rewrite zlen_app, zlen_cons, !zlen_nil in Hz; pose proof (zlen_nonneg a); lia|].
    apply Forall_app in Ha as [Ha Hx], Hb as [Hb Hy]. apply Forall_cons_iff in Hx as [[? ?] _], Hy as [[? ?] _].
    rewrite !value_snoc in Hv. rewrite !zlen_app, !zlen_cons in Hz.
    assert (x = y) as -> by lia. f_equal. apply IH; (done || lia).
Qed.

Lemma b32_round_trip xs cap cap' :
  bytes xs → (8 * zlen xs + 4) / 5 < cap → zlen xs <= cap' →
  ∃ t, elpis_base32hex_encode xs (zlen xs) cap = Ok t ∧ zlen t = (8 * zlen xs + 4) / 5 ∧
    elpis_base32hex_decode t (zlen t) cap' = Ok xs.
Proof.
  intros Hx Hcap Hcap'. unfold elpis_base32hex_encode, elpis_base32hex_decode. rewrite rds_full by done. bind_step.
  destruct (b32_enc_loop_spec xs 0 0 cap [] (8 * zlen xs)) as (acc & bits & vs & E & Hb & Hvs & HT & Hval);
    [done|lia|constructor|rewrite (@zlen_nil Z); lia|done|].
  cbn [map] in E. rewrite E. bind_step. change (value_from 256 (value 32 [] * 2 ^ 0 + 0 mod 2 ^ 0) xs) with (value 256 xs) in Hval.
  assert (∀ ws r, quintets ws → 5 * zlen ws = 8 * zlen xs + r → 0 <= r < 8 → value 32 ws = value 256 xs * 2 ^ r →
    elpis_base32hex_decode (map b32c ws) (zlen (map b32c ws)) cap' = Ok xs) as Hdec.
  { intros ws r Hws Hz Hr Hvw. unfold elpis_base32hex_decode. rewrite rds_full by done. bind_step.
    destruct (b32_dec_loop_spec ws 0 0 cap' [] Hws ltac:(lia) ltac:(constructor) ltac:(rewrite (@zlen_nil Z); lia))
      as (out' & r' & bits' & -> & Ho & Hb' & Hr' & Hz' & Hv').
    change (value_from 32 (value 256 [] * 2 ^ 0 + 0 mod 2 ^ 0) ws) with (value 32 ws) in Hv'. rewrite (@zlen_nil Z) in Hz'.
    assert (bits' = r) as -> by lia. f_equal. apply value_256_inj; [done|done|lia|]. rewrite Hvw in Hv'.
    assert (0 < 2 ^ r) by (apply Z.pow_pos_nonneg; lia). nia. }
  destruct (Z.ltb_spec 0 bits) as [Hpos|Hz].
  - rewrite zlen_map. assert (zlen vs + 1 = (8 * zlen xs + 4) / 5) as Hm by (apply Z.div_unique with (8 * zlen xs + 4 - 5 * (zlen vs + 1)); lia).
    assert ((cap <=? zlen vs + 1) = false) as -> by (apply Z.leb_gt; lia). bind_step. change 0x1F with (Z.ones 5). rewrite Z.land_ones by lia.
    set (v := _ mod 2 ^ 5). assert (0 <= v < 32) as Hv by (apply Z.mod_pos_bound; lia).
    destruct (rd_b32c v Hv) as [-> _]. bind_step. change [b32c v] with (map b32c [v]). rewrite <- map_app.
    exists (map b32c (vs ++ [v])). unfold nul_end. rewrite !zlen_map, !zlen_app, !zlen_cons, !(@zlen_nil Z).
    assert ((cap <=? zlen vs + (1 + 0)) = false) as -> by (apply Z.leb_gt; lia). split; [done|].
    split; [lia|]. pose proof (Hdec (vs ++ [v]) (5 - bits)) as Hd. rewrite !zlen_map, !zlen_app, !zlen_cons, !(@zlen_nil Z) in Hd.
    apply Hd; [|lia|lia|].
    + apply Forall_app. split; [done|by constructor].
    + rewrite value_snoc, Hval. unfold v. pose proof (shift_in acc 0 bits (5 - bits) ltac:(lia) ltac:(lia) ltac:(lia)) as Hs.
      rewrite Z.lor_0_r in Hs. replace (bits + (5 - bits)) with 5 in Hs by lia. rewrite Hs by (split; [lia|apply Z.pow_pos_nonneg; lia]).
      assert (2 ^ bits * 2 ^ (5 - bits) = 32) as Hp by (rewrite <- Z.pow_add_r by lia; by replace (bits + (5 - bits)) with 5 by lia).
      rewrite Z.mul_add_distr_r, <- Z.mul_assoc, Hp. lia.
  - assert (bits = 0) as -> by lia. exists (map b32c vs). assert (zlen vs = (8 * zlen xs + 4) / 5) as Hm by (apply Z.div_unique with 4; lia).
    unfold nul_end. rewrite zlen_map. assert ((cap <=? zlen vs) = false) as -> by (apply Z.leb_gt; lia). split; [done|].
    split; [apply Z.div_unique with 4; lia|]. pose proof (Hdec vs 0 Hvs ltac:(lia) ltac:(lia)) as Hd. rewrite zlen_map in Hd.
    apply Hd. rewrite Hval, Z.mod_1_r. lia.
Qed.

(** ** Hashes *)

Lemma b32_dec_total inp : ∀ acc bits cap out,
  bytes out → match b32_dec_loop inp acc bits cap out with Ok h => bytes h | Err _ _ => True | Stuck _ => False end.
Proof.
  induction inp as [|c inp IH]; intros acc bits cap out Ho; cbn [b32_dec_loop]; [done|].
  assert ((∃ v, b32_digit c = Ok v) ∨ b32_digit c = fail ELPIS_EFORMAT) as [(v & ->) | ->]
    by (unfold b32_digit; repeat case_match; eauto); bind_step; [|done].
  destruct v as [v|]; [|done]. cbv zeta. destruct (8 <=? bits + 5); [|by apply IH].
  destruct (cap <=? zlen out); [done|]. bind_step. apply IH, Forall_app. split; [done|].
  constructor; [apply u8_byte|constructor].
Qed.

Lemma n3_iterate_spec n : ∀ salt saltlen out, 0 <= saltlen <= zlen salt →
  n3_iterate n salt saltlen out = Ok (Nat.iter n (fun x => sha1_spec (x ++ slice salt 0 saltlen)) out).
Proof.
  induction n as [|n IH]; intros salt saltlen out Hs; cbn [n3_iterate]; [done|].
  assert ((if saltlen =? 0 then Ok [] else rds salt 0 saltlen) = Ok (slice salt 0 saltlen)) as ->.
  { destruct (Z.eqb_spec saltlen 0) as [->|]; [done|]. apply rds_in_range; lia. }
  bind_step. pose proof (sha1_once (out ++ slice salt 0 saltlen)) as H. unfold elpis_sha1 in H.
  apply bind_Ok_inv in H as (c & -> & Hc). bind_step. rewrite Hc. bind_step. rewrite IH by done.
  by rewrite Nat.iter_succ_r.
Qed.

Lemma nsec3_hash_spec ls salt saltlen iterations alg :
  labels_ok ls → 0 <= saltlen <= zlen salt → 0 <= iterations →
  elpis_nsec3_hash (name_of ls) salt saltlen iterations alg =
    if (alg =? ELPIS_NSEC3_SHA1) && (iterations <=? ELPIS_NSEC3_MAX_ITER)
    then Ok (digest (slice salt 0 saltlen) iterations ls) else fail ELPIS_ERR.
Proof.
  intros Hls Hs Hi. unfold elpis_nsec3_hash. rewrite Z.leb_antisym. destruct (alg =? _); [|done]. bind_step.
  destruct (_ <? iterations); [done|]. bind_step. cbn [andb negb].
  rewrite name_lower_spec by done. bind_step. cbn [n_d n_len name_of]. rewrite (rds_full (wire (fold_labels ls))) by done. bind_step.
  destruct (sha1_update_holds elpis_sha1_init [] (wire (fold_labels ls)) eq_refl) as (c & -> & Hc). bind_step. cbn [app] in Hc.
  assert (∃ c', (if saltlen =? 0 then Ok c else s ← rds salt 0 saltlen; elpis_sha1_update c s) = Ok c' ∧
    sha1_holds c' (wire (fold_labels ls) ++ slice salt 0 saltlen)) as (c' & -> & Hc').
  { destruct (Z.eqb_spec saltlen 0) as [->|]; [exists c; change (slice salt 0 0) with (@nil Z); by rewrite app_nil_r|].
    rewrite rds_in_range by lia. bind_step. by apply sha1_update_holds. }
  bind_step. rewrite (sha1_final_holds _ _ Hc'). bind_step. by apply n3_iterate_spec.
Qed.

Lemma digest_eq salt it a b : labels_eq a b → digest salt it a = digest salt it b.
Proof. unfold digest, labels_eq. by intros ->. Qed.

(** ** Records *)

(** What [n3_parse] gives of a record. *)
Definition wf_n3 (o : n3_t) : Prop :=
  0 <= n3_iterations o ∧ 0 <= n3_saltlen o <= zlen (n3_salt o) ∧ 0 <= n3_nextlen o <= zlen (n3_next o) ∧
  bytes (n3_bitmap o) ∧ 0 <= n3_bitmaplen o <= zlen (n3_bitmap o).

Lemma rd_bytes_total p i : bytes p → 0 <= i < zlen p → ∃ c, rd p i = Ok c ∧ byte c.
Proof. intros Hp Hi. destruct (rd_in_range p i Hi) as (c & Hc & _). exists c. split; [done|]. by apply (rd_byte p Hp i). Qed.

Lemma get16_total p i : bytes p → 0 <= i → i + 2 <= zlen p → ∃ v, elpis_get16 p i = Ok v ∧ 0 <= v < 65536.
Proof.
  intros Hp ??. pose proof (get16_safe p i Hp ltac:(lia) ltac:(lia)) as Hs. unfold elpis_get16 in *.
  destruct (rd_bytes_total p i Hp ltac:(lia)) as (a & Ha & _), (rd_bytes_total p (i + 1) Hp ltac:(lia)) as (b & Hb & _).
  rewrite Ha in *. cbn [mbind res_bind] in *. rewrite Hb in *. eexists. by split.
Qed.

Lemma n3_owner_total r za :
  wf_denial r → labels_ok za → ∃ x, n3_owner r (name_of za) = Ok x.
Proof.
  intros ((ls & Hls & E) & _) Hz. unfold n3_owner. rewrite E. cbn [n_len name_of n_d].
  destruct (Z.ltb_spec (zlen (wire ls)) 2) as [|Hw]; [by eexists|].
  destruct ls as [|l ls]; [done|]. pose proof (labels_ok_cons _ _ Hls) as [[Hl _] _].
  change (rd (wire (l :: ls)) 0) with (Ok (zlen l)). bind_step. destruct ((_ =? 0) || _); [by eexists|].
  rewrite name_is_subdomain_spec by done. bind_step. destruct (negb _); [by eexists|].
  rewrite rds_in_range; [|lia|lia|rewrite zlen_wire_cons; pose proof (zlen_wire_pos ls); lia]. bind_step.
  set (s := slice _ 1 _). unfold elpis_base32hex_decode. rewrite rds_full; [|unfold s; rewrite zlen_slice; try lia; rewrite zlen_wire_cons; pose proof (zlen_wire_pos ls); lia].
  bind_step. pose proof (b32_dec_total s 0 0 32 [] ltac:(constructor)). destruct (b32_dec_loop s 0 0 32 []); [by eexists|by eexists|done].
Qed.

Lemma n3_parse_total r za :
  wf_denial r → labels_ok za →
  ∃ x, n3_parse r (name_of za) = Ok x ∧ ∀ o, x = Some o → wf_n3 o.
Proof.
  intros Hwf Hz. pose proof Hwf as (_ & Hb & Hl). unfold n3_parse.
  destruct (Z.ltb_spec (dn_rdlen r) 5); [by exists None|].
  destruct (rd_bytes_total (dn_rd r) 0 Hb ltac:(lia)) as (alg & -> & _).
  destruct (rd_bytes_total (dn_rd r) 1 Hb ltac:(lia)) as (flags & -> & _). bind_step.
  destruct (get16_total (dn_rd r) 2 Hb ltac:(lia) ltac:(lia)) as (it & -> & Hit). bind_step.
  destruct (rd_bytes_total (dn_rd r) 4 Hb ltac:(lia)) as (sl & -> & Hsl). bind_step. unfold byte in Hsl.
  destruct (Z.ltb_spec (dn_rdlen r) (5 + sl + 1)); [by exists None|]. cbv zeta.
  destruct (rd_bytes_total (dn_rd r) (5 + sl) Hb ltac:(lia)) as (nl & -> & Hnl). bind_step. unfold byte in Hnl.
  destruct (_ || _) eqn:E; [by exists None|]. bool_to_prop.
  destruct (n3_owner_total r za Hwf Hz) as ([oh|] & ->); bind_step; [|by exists None].
  destruct (negb _); [by exists None|]. eexists. split; [done|]. intros o [= <-]. unfold wf_n3. cbn.
  rewrite !zlen_drop. split_and!; try lia. by apply Forall_drop.
Qed.

Lemma hash_cmp_spec a n b m :
  0 <= n <= zlen a → 0 <= m <= zlen b →
  hash_cmp a n b m = Ok (octets_cmp (slice a 0 n) (slice b 0 m)).
Proof. apply memcmp_then_len_spec. Qed.

Definition salt_of (o : n3_t) : list Z := slice (n3_salt o) 0 (n3_saltlen o).
Definition next_of (o : n3_t) : list Z := slice (n3_next o) 0 (n3_nextlen o).

Lemma n3_covers_spec o h : wf_n3 o → n3_covers o h (zlen h) = Ok (bool_decide (hash_spans (n3_owner_hash o) (next_of o) h)).
Proof.
  intros (_ & _ & Hn & _). unfold n3_covers. pose proof (zlen_nonneg h). pose proof (zlen_nonneg (n3_owner_hash o)).
  rewrite !hash_cmp_spec by lia. bind_step. rewrite (slice_0_all (n3_owner_hash o)), !(slice_0_all h) by lia. fold (next_of o). f_equal.
  apply eq_true_iff_eq. rewrite bool_decide_eq_true. unfold hash_spans.
  destruct (octets_cmp (n3_owner_hash o) (next_of o) <? 0).
  - by rewrite andb_true_iff, !Z.ltb_lt.
  - by rewrite orb_true_iff, !Z.ltb_lt.
Qed.

Lemma n3_matches_spec o h : n3_matches o h (zlen h) = Ok (bool_decide (n3_owner_hash o = h)).
Proof.
  unfold n3_matches. pose proof (zlen_nonneg h). pose proof (zlen_nonneg (n3_owner_hash o)).
  rewrite hash_cmp_spec by lia. bind_step. rewrite !slice_0_all by lia. f_equal.
  apply eq_true_iff_eq. rewrite bool_decide_eq_true, Z.eqb_eq. apply cmp_eq.
Qed.

Definition same_params (o p : n3_t) : Prop := n3_iterations o = n3_iterations p ∧ salt_of o = salt_of p.

Lemma n3_same_params_spec o p : wf_n3 o → wf_n3 p →
  ∃ b, n3_same_params o p = Ok b ∧ (b = true → same_params o p).
Proof.
  intros (_ & Ho & _) (_ & Hp & _). unfold n3_same_params, same_params, salt_of.
  destruct (_ || _) eqn:E; [by exists false|]. bool_to_prop. assert (n3_saltlen p = n3_saltlen o) as Es by lia. rewrite Es.
  destruct (Z.eqb_spec (n3_saltlen o) 0) as [E0|_]; [exists true; split; [done|]; intros _; rewrite E0; split; [lia|done]|].
  unfold memcmp. rewrite !rds_in_range by lia. bind_step. eexists. split; [done|]. intros Hc%Z.eqb_eq.
  split; [lia|]. by apply (cmp_eq (cmp := octets_cmp)).
Qed.

(** ** The searches *)
Section proofs.
Context (rrs : list elpis_denial_rr_t) (za : list (list Z)).
Hypotheses (Hwf : Forall wf_denial rrs) (Hza : labels_ok za).

(** A record of the list, as the code reads it. *)
Definition n3_in (o : n3_t) : Prop := ∃ r, r ∈ rrs ∧ n3_parse r (name_of za) = Ok (Some o).

Lemma n3_in_wf o : n3_in o → wf_n3 o.
Proof.
  intros (r & Hin & Ho). destruct (n3_parse_total r za (Forall_elem _ _ _ Hwf Hin) Hza) as (x & Hx & Hw).
  apply Hw. congruence.
Qed.

Lemma n3_scan_spec p test (P : n3_t → Prop) :
  wf_n3 p → (∀ o, wf_n3 o → ∃ b, test o = Ok b ∧ (b = true → P o)) →
  ∃ x, n3_scan rrs (name_of za) p test = Ok x ∧ ∀ o, x = Some o → n3_in o ∧ same_params o p ∧ P o.
Proof.
  intros Hp Ht. assert (∀ l, (∀ r, r ∈ l → r ∈ rrs) →
    ∃ x, n3_scan l (name_of za) p test = Ok x ∧ ∀ o, x = Some o → n3_in o ∧ same_params o p ∧ P o) as H; [|by apply H].
  induction l as [|r l IH]; intros Hl; cbn [n3_scan]; [by exists None|].
  assert (r ∈ rrs) as Hr by (apply Hl; by left). specialize (IH ltac:(intros; apply Hl; by right)).
  destruct (n3_parse_total r za (Forall_elem _ _ _ Hwf Hr) Hza) as ([o|] & Ho & Hw); rewrite Ho; bind_step; [|done].
  specialize (Hw o eq_refl). destruct (n3_same_params_spec o p Hw Hp) as (b & -> & Hb). bind_step.
  destruct b; cbn [negb]; [|done]. destruct (Ht o Hw) as (b & -> & HP). bind_step. destruct b; [|done].
  exists (Some o). split; [done|]. intros ? [= <-]. split; [by exists r|]. split; [by apply Hb|by apply HP].
Qed.

Lemma n3_params_spec :
  ∃ x, n3_params rrs (name_of za) = Ok x ∧ ∀ p, x = Some p → n3_in p ∧ n3_iterations p <= ELPIS_NSEC3_MAX_ITER.
Proof.
  unfold n3_params. destruct (zlen rrs =? 0); [by exists None|].
  assert (∀ l, (∀ r, r ∈ l → r ∈ rrs) → ∃ x, pick_params l (name_of za) = Ok x ∧ ∀ p, x = Some p → n3_in p) as H.
  { induction l as [|r l IH]; intros Hl; cbn [pick_params]; [by exists None|].
    assert (r ∈ rrs) as Hr by (apply Hl; by left). specialize (IH ltac:(intros; apply Hl; by right)).
    destruct (n3_parse_total r za (Forall_elem _ _ _ Hwf Hr) Hza) as ([o|] & Ho & _); rewrite Ho; bind_step; [|done].
    exists (Some o). split; [done|]. intros ? [= <-]. by exists r. }
  destruct (H rrs ltac:(done)) as ([p|] & -> & Hp); bind_step; [|by exists None].
  destruct (Z.ltb_spec ELPIS_NSEC3_MAX_ITER (n3_iterations p)); [by exists None|].
  exists (Some p). split; [done|]. intros ? [= <-]. split; [by apply Hp|done].
Qed.

Section params.
Context (p : n3_t) (Hin : n3_in p).

Lemma n3_hash_of_spec ls :
  labels_ok ls → ∃ x, n3_hash_of p (name_of ls) = Ok x ∧
    ∀ h, x = Some h → h = digest (salt_of p) (n3_iterations p) ls.
Proof using Hwf Hza Hin.
  intros Hls. destruct (n3_in_wf p Hin) as (Hi & Hs & _). unfold n3_hash_of. rewrite nsec3_hash_spec by done.
  destruct (_ && _); cbn [try]; [|by exists None]. eexists. split; [done|]. by intros ? [= <-].
Qed.

(** A record that matches, and one that covers, a name. *)
Definition n3_at (o : n3_t) (ls : list (list Z)) : Prop :=
  n3_in o ∧ digest (salt_of o) (n3_iterations o) ls = n3_owner_hash o.
Definition n3_over (o : n3_t) (ls : list (list Z)) : Prop :=
  n3_in o ∧ hash_spans (n3_owner_hash o) (next_of o) (digest (salt_of o) (n3_iterations o) ls).

Lemma n3_scan_match ls :
  ∃ x, n3_scan rrs (name_of za) p (fun o => n3_matches o (digest (salt_of p) (n3_iterations p) ls)
         (zlen (digest (salt_of p) (n3_iterations p) ls))) = Ok x ∧ ∀ o, x = Some o → n3_at o ls.
Proof using Hwf Hza Hin.
  set (h := digest _ _ _).
  destruct (n3_scan_spec p (fun o => n3_matches o h (zlen h)) (fun o => n3_owner_hash o = h) (n3_in_wf p Hin)) as (x & -> & Hx).
  { intros o _. rewrite n3_matches_spec. eexists. split; [done|]. by intros ?%bool_decide_eq_true. }
  exists x. split; [done|]. intros o Ho. destruct (Hx o Ho) as (Ho' & [Ei Es] & E). split; [done|].
  by rewrite Es, Ei.
Qed.

Lemma matched_by_any_spec ls :
  labels_ok ls → ∃ x, matched_by_any rrs (name_of za) p (name_of ls) = Ok x ∧ ∀ o, x = Some o → n3_at o ls.
Proof using Hwf Hza Hin.
  intros Hls. unfold matched_by_any. destruct (n3_hash_of_spec ls Hls) as ([h|] & -> & Hh); bind_step; [|by exists None].
  rewrite (Hh h eq_refl). apply n3_scan_match.
Qed.

Lemma covered_by_any_spec ls :
  labels_ok ls → ∃ x, covered_by_any rrs (name_of za) p (name_of ls) = Ok x ∧
    ∀ b, x = Some b → ∃ o, n3_over o ls ∧ b = negb (Z.land (n3_flags o) ELPIS_NSEC3_OPTOUT =? 0).
Proof using Hwf Hza Hin.
  intros Hls. unfold covered_by_any. destruct (n3_hash_of_spec ls Hls) as ([h|] & -> & Hh); bind_step; [|by exists None].
  rewrite (Hh h eq_refl). set (h' := digest _ _ _).
  destruct (n3_scan_spec p (fun o => n3_covers o h' (zlen h')) (fun o => hash_spans (n3_owner_hash o) (next_of o) h') (n3_in_wf p Hin)) as (x & -> & Hx).
  { intros o Ho. rewrite n3_covers_spec by done. eexists. split; [done|]. by intros ?%bool_decide_eq_true. }
  bind_step. eexists. split; [done|]. intros b Hb. destruct x as [o|]; [|done]. injection Hb as <-.
  destruct (Hx o eq_refl) as (Ho' & [Ei Es] & E). exists o. split; [|done]. split; [done|]. by rewrite Es, Ei.
Qed.

Lemma find_closest_encloser_spec guard : ∀ ls,
  labels_ok ls →
  ∃ x, find_closest_encloser guard rrs (name_of za) p (name_of ls) = Ok x ∧
    ∀ ce, x = Some ce → ∃ k o, (k <= length ls)%nat ∧ ce = name_of (drop k ls) ∧
      (length za <= length (drop k ls))%nat ∧ n3_at o (drop k ls).
Proof using Hwf Hza Hin.
  induction guard as [|guard IH]; intros ls Hls; cbn [find_closest_encloser]; [by exists None|].
  cbn [n_labels name_of n_len]. destruct (Z.ltb_spec (zlen ls) (zlen za)) as [|Hle]; [by exists None|].
  destruct (n3_hash_of_spec ls Hls) as (h & -> & Hh). bind_step.
  assert (∃ hit, match h with Some h => n3_scan rrs (name_of za) p (fun o => n3_matches o h (zlen h)) | None => Ok None end = Ok hit
    ∧ ∀ o, hit = Some o → n3_at o ls) as (hit & -> & Hhit).
  { destruct h as [h|]; [|by exists None]. rewrite (Hh h eq_refl). apply n3_scan_match. }
  bind_step. destruct hit as [o|].
  { exists (Some (name_of ls)). split; [done|]. intros ce [= <-]. exists 0%nat, o. rewrite drop_0.
    split; [lia|]. split; [done|]. split; [zl|by apply Hhit]. }
  destruct (Z.leb_spec (zlen (wire ls)) 1) as [|Hw]; [by exists None|].
  rewrite name_eq_spec by done. bind_step. destruct (bool_decide _); [by exists None|].
  destruct ls as [|l ls]; [by vm_compute in Hw|]. rewrite name_parent_spec by done. cbn [try]. bind_step.
  destruct (IH ls) as (x & -> & Hx); [by apply labels_ok_cons in Hls as [_ ?]|]. exists x. split; [done|].
  intros ce Hce. destruct (Hx ce Hce) as (k & o & Hk & -> & Hl & Ho). exists (S k), o. cbn [drop length]. split; [lia|done].
Qed.

Lemma n3_bitmap_has_spec o t : n3_in o → 0 <= t < 65536 →
  ∃ b, n3_bitmap_has o t = Ok b ∧
    ∀ ws, windows_ok ws → slice (n3_bitmap o) 0 (n3_bitmaplen o) = enc_windows ws → (b = true ↔ in_windows ws t).
Proof using Hwf Hza.
  intros Ho Ht. destruct (n3_in_wf o Ho) as (_ & _ & _ & Hb & Hl). apply bitmap_has_spec; [done|lia|lia|done].
Qed.
End params.

(** What the records say of a zone they are genuine in. *)
Section zone.
Context (zn : zone3) (Hg : Forall (genuine3 zn (name_of za)) rrs).

Lemma n3_over_zone o q z ts u :
  n3_over o q → (z, ts, u) ∈ zn → labels_eq z q → u = true ∧ negb (Z.land (n3_flags o) ELPIS_NSEC3_OPTOUT =? 0) = true.
Proof using Hg.
  intros [(r & Hr & Ho) Hs] Hz E. destruct (Forall_elem _ _ _ Hg Hr o Ho) as (_ & _ & _ & Hno).
  apply (Hno z ts u Hz). by rewrite (digest_eq _ _ z q E).
Qed.

Lemma n3_at_types o q z ts u t b :
  n3_at o q → (z, ts, u) ∈ zn → labels_eq z q → 0 <= t < 65536 →
  (∀ ws, windows_ok ws → slice (n3_bitmap o) 0 (n3_bitmaplen o) = enc_windows ws → (b = true ↔ in_windows ws t)) →
  b = true ↔ t ∈ ts.
Proof using Hg.
  intros [(r & Hr & Ho) Hs] Hz E Ht Hb. destruct (Forall_elem _ _ _ Hg Hr o Ho) as (_ & _ & (ws & Hok & Ews & Hty) & _).
  rewrite (Hb ws Hok Ews). apply (Hty z ts u t Hz); [|done]. by rewrite (digest_eq _ _ z q E).
Qed.
End zone.

(** ** What the proofs prove *)

(** The hash of [ls], in some chain, is that of a name of the zone. *)
Definition hashed_in (zn : zone3) (ls : list (list Z)) : Prop :=
  ∃ salt it z ts u, (z, ts, u) ∈ zn ∧ digest salt it z = digest salt it ls.

(** The zone denies [q] with verdict [v]: some suffix of [q] is the closest
    encloser, and nothing the signer covers is at or below the name one label
    longer, or at the wildcard below the encloser; an exact denial (1) leaves
    no room for a name that the signer does not cover either. *)
Definition denied3 (zn : zone3) (q : list (list Z)) (v : Z) : Prop :=
  ∃ k, (0 < k <= length q)%nat ∧ hashed_in zn (drop k q) ∧
    (∀ z ts u, (z, ts, u) ∈ zn → labels_suffix (drop (k - 1) q) z → u = true ∧ v = ELPIS_NSEC3_OPTOUT_PROOF) ∧
    (∀ z ts u, (z, ts, u) ∈ zn → labels_eq z ([42] :: drop k q) → u = true).

Lemma n3_at_hashed zn o q : Forall (genuine3 zn (name_of za)) rrs → n3_at o q → hashed_in zn q.
Proof.
  intros Hg [(r & Hr & Ho) E]. destruct (Forall_elem _ _ _ Hg Hr o Ho) as (_ & (z & ts & u & Hz & Ez) & _).
  exists (salt_of o), (n3_iterations o), z, ts, u. split; [done|]. by rewrite E, <- Ez.
Qed.

Lemma nsec3_nxdomain_spec q :
  labels_ok q →
  ∃ v, elpis_nsec3_proves_nxdomain rrs (name_of q) (name_of za) = Ok v ∧
    ∀ zn, v ≠ 0 → zone3_ok za zn → Forall (genuine3 zn (name_of za)) rrs → denied3 zn q v.
Proof using Hwf Hza.
  intros Hq. unfold elpis_nsec3_proves_nxdomain.
  destruct n3_params_spec as ([p|] & -> & Hp); bind_step; [|by exists 0]. destruct (Hp p eq_refl) as [Hin _].
  destruct (find_closest_encloser_spec p Hin (Z.to_nat ELPIS_MAX_LABELS) q Hq) as ([ce|] & -> & Hce); bind_step; [|by exists 0].
  destruct (Hce ce eq_refl) as (k & o & Hk & -> & Hlen & Ho). cbn [n_labels name_of].
  destruct (Z.leb_spec (zlen q) (zlen (drop k q))) as [|Hlt]; [by exists 0|].
  rewrite zlen_drop in Hlt. pose proof (zlen_nonneg q). assert (0 < k <= length q)%nat as Hk' by zl.
  rewrite name_suffix_spec by (first [done|pose proof (zlen_nonneg (drop k q)); lia]). cbn [try]. bind_step.
  replace (length q - Z.to_nat (zlen (drop k q) + 1))%nat with (k - 1)%nat by (rewrite zlen_drop; zl).
  assert (∀ j, labels_ok (drop j q)) as Hd by (intros j; rewrite <- (take_drop j q) in Hq; by apply labels_ok_app in Hq).
  destruct (covered_by_any_spec p Hin (drop (k - 1) q) (Hd _)) as ([opt|] & -> & Hcov); bind_step; [|by exists 0].
  destruct (Hcov opt eq_refl) as (o1 & Ho1 & Eopt). rewrite prepend_star by done.
  destruct (decide _) as [Hwc|_]; cbn [try]; bind_step; [|by exists 0].
  destruct (matched_by_any_spec p Hin _ Hwc) as ([m|] & -> & _); bind_step; [by exists 0|].
  destruct (covered_by_any_spec p Hin _ Hwc) as ([opt2|] & -> & Hcov2); bind_step; [|by exists 0].
  destruct (Hcov2 opt2 eq_refl) as (o2 & Ho2 & _). eexists. split; [done|]. intros zn _ Hzn Hg. exists k.
  split; [done|]. split; [by apply (n3_at_hashed zn o)|]. split.
  - intros z ts u Hz [Hsl Hsuf]. destruct (Hzn z ts u Hz (length z - length (drop (k - 1) q))%nat) as (z' & ts' & u' & Hz' & E & Hu).
    { rewrite !length_drop in *. lia. }
    destruct (n3_over_zone zn Hg o1 (drop (k - 1) q) z' ts' u' Ho1 Hz') as [-> Hf]; [by rewrite E|].
    split; [by apply Hu|]. by rewrite Eopt, Hf.
  - intros z ts u Hz E. exact (proj1 (n3_over_zone zn Hg o2 _ z ts u Ho2 Hz E)).
Qed.

(** Without a matching record only an opt-out record speaks of the name. *)
Lemma no_ds_unmatched p q :
  n3_params rrs (name_of za) = Ok (Some p) → n3_in p → labels_ok q →
  matched_by_any rrs (name_of za) p (name_of q) = Ok None →
  ∃ v, elpis_nsec3_proves_no_ds rrs (name_of q) (name_of za) = Ok v ∧
    (v ≠ 0 → v = ELPIS_NSEC3_OPTOUT_PROOF ∧ ∃ o, n3_over o q).
Proof using Hwf Hza.
  intros Ep Hin Hq Em. unfold elpis_nsec3_proves_no_ds. rewrite Ep. bind_step. rewrite Em. bind_step.
  destruct (covered_by_any_spec p Hin q Hq) as (c & -> & Hc). bind_step.
  destruct c as [[]|]; [|by exists 0|by exists 0]. eexists. split; [done|]. intros _. split; [done|].
  destruct (Hc true eq_refl) as (o & Ho & _). by exists o.
Qed.

(** What [elpis_nsec3_proves_nodata] shows of the types [ts] at the name. *)
Definition nodata3 (qtype : Z) (ts : list Z) (u : bool) (v : Z) : Prop :=
  (v = 1 ∧ (qtype ∉ ts) ∧ (ELPIS_T_CNAME ∉ ts)) ∨ (v = ELPIS_NSEC3_OPTOUT_PROOF ∧ qtype = ELPIS_T_DS ∧ u = true).

Lemma nsec3_nodata_spec q qtype :
  labels_ok q → 0 <= qtype < 65536 →
  ∃ v, elpis_nsec3_proves_nodata rrs (name_of q) qtype (name_of za) = Ok v ∧
    ∀ zn, v ≠ 0 → Forall (genuine3 zn (name_of za)) rrs →
      (v = 1 → hashed_in zn q) ∧ ∀ z ts u, (z, ts, u) ∈ zn → labels_eq z q → nodata3 qtype ts u v.
Proof using Hwf Hza.
  intros Hq Ht. unfold elpis_nsec3_proves_nodata. destruct type_numbers as (Tc & _ & _ & _).
  destruct n3_params_spec as ([p|] & Ep & Hp); rewrite Ep; bind_step; [|by exists 0]. destruct (Hp p eq_refl) as [Hin _].
  destruct (matched_by_any_spec p Hin q Hq) as ([o|] & Em & Hm); rewrite Em; bind_step.
  - specialize (Hm o eq_refl). destruct (n3_bitmap_has_spec o qtype (proj1 Hm) Ht) as (b & Eb & Hb). rewrite Eb. bind_step.
    destruct b; [by exists 0|]. destruct (n3_bitmap_has_spec o ELPIS_T_CNAME (proj1 Hm) Tc) as (c & Ec & Hc).
    assert ((if negb (qtype =? ELPIS_T_CNAME) then n3_bitmap_has o ELPIS_T_CNAME else Ok false) = Ok c) as ->.
    { destruct (Z.eqb_spec qtype ELPIS_T_CNAME) as [->|]; cbn [negb]; [congruence|done]. }
    bind_step. eexists. split; [done|]. intros zn Hv Hg. destruct c; [done|]. split; [intros _; by apply (n3_at_hashed zn o)|].
    intros z ts u Hz E. left. split; [done|]. split.
    + by rewrite <- (n3_at_types zn Hg o q z ts u qtype false Hm Hz E Ht Hb).
    + by rewrite <- (n3_at_types zn Hg o q z ts u ELPIS_T_CNAME false Hm Hz E Tc Hc).
  - destruct (Z.eqb_spec qtype ELPIS_T_DS) as [->|]; [|by exists 0].
    destruct (no_ds_unmatched p q Ep Hin Hq Em) as (v & Ev & Hv). exists v. split; [done|]. intros zn Hv0 Hg.
    destruct (Hv Hv0) as [-> (o & Ho)]. split; [done|]. intros z ts u Hz E. right. split; [done|]. split; [done|].
    exact (proj1 (n3_over_zone zn Hg o q z ts u Ho Hz E)).
Qed.

(** What the two delegation proofs show. *)
Definition no_ds3 (ts : list Z) (u : bool) (v : Z) : Prop :=
  (v = 1 ∧ (ELPIS_T_DS ∉ ts) ∧ (ELPIS_T_SOA ∉ ts)) ∨ (v = ELPIS_NSEC3_OPTOUT_PROOF ∧ u = true).

Lemma nsec3_no_ds_spec q :
  labels_ok q →
  ∃ v, elpis_nsec3_proves_no_ds rrs (name_of q) (name_of za) = Ok v ∧
    ∀ zn, v ≠ 0 → Forall (genuine3 zn (name_of za)) rrs →
      ∀ z ts u, (z, ts, u) ∈ zn → labels_eq z q → no_ds3 ts u v.
Proof using Hwf Hza.
  intros Hq. destruct type_numbers as (_ & _ & Ts & Td).
  destruct n3_params_spec as ([p|] & Ep & Hp).
  2:{ unfold elpis_nsec3_proves_no_ds. rewrite Ep. by exists 0. }
  destruct (Hp p eq_refl) as [Hin _]. destruct (matched_by_any_spec p Hin q Hq) as ([o|] & Em & Hm).
  - unfold elpis_nsec3_proves_no_ds. rewrite Ep. bind_step. rewrite Em. bind_step. specialize (Hm o eq_refl).
    destruct (n3_bitmap_has_spec o _ (proj1 Hm) Td) as (b & -> & Hb). bind_step. destruct b; [by exists 0|].
    destruct (n3_bitmap_has_spec o _ (proj1 Hm) Ts) as (c & -> & Hc). bind_step. destruct c; [by exists 0|].
    exists 1. split; [done|]. intros zn _ Hg z ts u Hz E. left. split; [done|]. split.
    + by rewrite <- (n3_at_types zn Hg o q z ts u _ false Hm Hz E Td Hb).
    + by rewrite <- (n3_at_types zn Hg o q z ts u _ false Hm Hz E Ts Hc).
  - destruct (no_ds_unmatched p q Ep Hin Hq Em) as (v & Ev & Hv). exists v. split; [done|]. intros zn Hv0 Hg z ts u Hz E.
    destruct (Hv Hv0) as [-> (o & Ho)]. right. split; [done|]. exact (proj1 (n3_over_zone zn Hg o q z ts u Ho Hz E)).
Qed.

Lemma nsec3_insecure_spec q :
  labels_ok q →
  ∃ v, elpis_nsec3_proves_insecure_deleg rrs (name_of q) (name_of za) = Ok v ∧
    ∀ zn, v ≠ 0 → Forall (genuine3 zn (name_of za)) rrs →
      ∀ z ts u, (z, ts, u) ∈ zn → labels_eq z q → no_ds3 ts u v ∧ (v = 1 → ELPIS_T_NS ∈ ts).
Proof using Hwf Hza.
  intros Hq. destruct type_numbers as (_ & Tn & Ts & Td). unfold elpis_nsec3_proves_insecure_deleg.
  destruct n3_params_spec as ([p|] & Ep & Hp); rewrite Ep; bind_step; [|by exists 0]. destruct (Hp p eq_refl) as [Hin _].
  destruct (matched_by_any_spec p Hin q Hq) as ([o|] & Em & Hm); rewrite Em; bind_step.
  - specialize (Hm o eq_refl).
    destruct (n3_bitmap_has_spec o _ (proj1 Hm) Td) as (b & -> & Hb). bind_step. destruct b; [by exists 0|].
    destruct (n3_bitmap_has_spec o _ (proj1 Hm) Ts) as (c & -> & Hc). bind_step. destruct c; [by exists 0|].
    destruct (n3_bitmap_has_spec o _ (proj1 Hm) Tn) as (d & -> & Hd). bind_step. destruct d; [|by exists 0].
    exists 1. split; [done|]. intros zn _ Hg z ts u Hz E. split; [left; split; [done|]; split|].
    + by rewrite <- (n3_at_types zn Hg o q z ts u _ false Hm Hz E Td Hb).
    + by rewrite <- (n3_at_types zn Hg o q z ts u _ false Hm Hz E Ts Hc).
    + intros _. by rewrite <- (n3_at_types zn Hg o q z ts u _ true Hm Hz E Tn Hd).
  - destruct (no_ds_unmatched p q Ep Hin Hq Em) as (v & Ev & Hv). exists v. split; [done|]. intros zn Hv0 Hg z ts u Hz E.
    destruct (Hv Hv0) as [-> (o & Ho)]. split; [|done]. right. split; [done|].
    exact (proj1 (n3_over_zone zn Hg o q z ts u Ho Hz E)).
Qed.
End proofs.

(** ** Properties *)

(** Text that [elpis_base32hex_encode] writes, into a buffer with room for its
    digits and the final NUL, is read back by [elpis_base32hex_decode] to the
    same octets: eight digits for five octets, no padding. *)
Theorem base32_round_trip (xs : list Z) (cap cap' : Z) :
  bytes xs → (8 * zlen xs + 4) / 5 < cap → zlen xs <= cap' →
  ∃ t, elpis_base32hex_encode xs (zlen xs) cap = Ok t ∧ zlen t = (8 * zlen xs + 4) / 5 ∧
    elpis_base32hex_decode t (zlen t) cap' = Ok xs.
Proof. apply b32_round_trip. Qed.

Lemma base32_round_trip_witness :
  elpis_base32hex_encode (str "foobar") 6 11 = Ok (str "cpnmuoj1e8") ∧
  ∃ t, elpis_base32hex_encode (str "foobar") (zlen (str "foobar")) 11 = Ok t ∧ zlen t = (8 * zlen (str "foobar") + 4) / 5 ∧
    elpis_base32hex_decode t (zlen t) 32 = Ok (str "foobar").
Proof. split; [by vm_compute|]. apply (base32_round_trip (str "foobar") 11 32); by_compute. Defined.

(** The zone of the examples: [e.] with its SOA, [a.e.], the delegation [d.e.]
    and the delegation [c.e.] that the signer leaves out. *)
Definition ex3_zone : zone3 :=
  [([[101]], [ELPIS_T_NS; ELPIS_T_SOA], false); ([[97];[101]], [1], false);
   ([[100];[101]], [ELPIS_T_NS], false); ([[99];[101]], [ELPIS_T_NS], true)].

(** The record at the hash of [o], one extra iteration, one octet of salt. *)
Definition ex3_rr (flags : Z) (o nx : list (list Z)) (bm : list Z) : elpis_denial_rr_t :=
  let rd := [1; flags; 0; 1; 1; 0xAB; 20] ++ digest [0xAB] 1 nx ++ bm in
  match elpis_base32hex_encode (digest [0xAB] 1 o) 20 64 with
  | Ok t => mkDenial (name_of [t; [101]]) rd (zlen rd)
  | _ => mkDenial (name_of []) rd (zlen rd)
  end.
Definition ex3_rrs : list elpis_denial_rr_t :=
  [ex3_rr 1 [[101]] [[100];[101]] [0; 1; 34]; ex3_rr 0 [[100];[101]] [[97];[101]] [0; 1; 32];
   ex3_rr 0 [[97];[101]] [[101]] [0; 1; 64]].

(** A decision procedure for [genuine3] on concrete records. *)
Definition genuine3_b (zn : zone3) (apex : elpis_name_t) (r : elpis_denial_rr_t) (ws : list window) : bool :=
  match n3_parse r apex with
  | Ok (Some o) =>
    let hs := map (fun '(z, ts, u) => (digest (salt_of o) (n3_iterations o) z, ts, u)) zn in
    bool_decide (n3_alg o = ELPIS_NSEC3_SHA1) && bool_decide (windows_ok ws) && bool_decide (bytes (enc_windows ws)) &&
    bool_decide (slice (n3_bitmap o) 0 (n3_bitmaplen o) = enc_windows ws) &&
    existsb (fun '(h, _, _) => bool_decide (h = n3_owner_hash o)) hs &&
    forallb (fun '(h, ts, u) =>
      (negb (bool_decide (h = n3_owner_hash o)) ||
       check_from (fun t => match elpis_bitmap_has (enc_windows ws) (zlen (enc_windows ws)) t with
                            | Ok b => eqb b (bool_decide (t ∈ ts)) | _ => false end) (Z.to_nat 65536) 0) &&
      (negb (bool_decide (hash_spans (n3_owner_hash o) (next_of o) h)) ||
       (u && negb (Z.land (n3_flags o) ELPIS_NSEC3_OPTOUT =? 0)))) hs
  | _ => false
  end.

Lemma genuine3_check zn apex r ws : genuine3_b zn apex r ws = true → genuine3 zn apex r.
Proof.
  unfold genuine3_b. intros H o Ho. rewrite Ho in H. cbv zeta in *. rewrite !andb_true_iff in H.
  destruct H as [[[[[Ha%bool_decide_eq_true Hok%bool_decide_eq_true] Hb%bool_decide_eq_true] Hs%bool_decide_eq_true] He] Hall].
  fold (salt_of o) (next_of o). split; [done|].
  rewrite existsb_exists in He. destruct He as ([[h ts] u] & Hin & E%bool_decide_eq_true).
  apply in_map_iff in Hin as ([[z ts'] u'] & [= <- -> ->] & Hin%list_elem_of_In).
  rewrite forallb_forall in Hall.
  assert (∀ z ts u, (z, ts, u) ∈ zn → In (digest (salt_of o) (n3_iterations o) z, ts, u)
    (map (fun '(z, ts, u) => (digest (salt_of o) (n3_iterations o) z, ts, u)) zn)) as Hmap.
  { intros z1 ts1 u1 H1%list_elem_of_In. apply in_map_iff. by exists (z1, ts1, u1). }
  split; [by exists z, ts, u|]. split.
  - exists ws. split; [done|]. split; [done|]. intros z1 ts1 u1 t H1 E1 Ht. specialize (Hall _ (Hmap _ _ _ H1)). cbv beta iota in Hall.
    apply andb_true_iff in Hall as [Hall _]. apply orb_true_iff in Hall as [Hall|Hall];
      [by rewrite bool_decide_eq_true_2 in Hall|].
    pose proof (check_from_spec _ _ _ Hall t ltac:(lia)) as Hc. cbv beta in Hc.
    destruct (bitmap_has_spec (enc_windows ws) (zlen (enc_windows ws)) Hb ltac:(lia) t ltac:(apply zlen_nonneg) Ht) as (b & Eb & Hw).
    rewrite Eb in Hc. apply eqb_prop in Hc. rewrite <- (Hw ws Hok), Hc, bool_decide_eq_true; [done|]. by apply slice_0_all.
  - intros z1 ts1 u1 H1 Hsp. specialize (Hall _ (Hmap _ _ _ H1)). cbv beta iota in Hall. apply andb_true_iff in Hall as [_ Hall].
    rewrite bool_decide_eq_true_2 in Hall by done. by apply andb_true_iff in Hall as [-> ->].
Qed.

Lemma ex3_genuine : Forall (genuine3 ex3_zone (name_of [[101]])) ex3_rrs.
Proof.
  unfold ex3_rrs. repeat (apply Forall_cons_2; [eapply genuine3_check|]); [| | |constructor].
  - instantiate (1 := [(0, [34])]). by vm_compute.
  - instantiate (1 := [(0, [32])]). by vm_compute.
  - instantiate (1 := [(0, [64])]). by vm_compute.
Qed.

Lemma ex3_wf : Forall wf_denial ex3_rrs.
Proof.
  assert (∀ flags o nx bm, bool_decide (bytes ([1; flags; 0; 1; 1; 0xAB; 20] ++ digest [0xAB] 1 nx ++ bm)) &&
    (match elpis_base32hex_encode (digest [0xAB] 1 o) 20 64 with Ok t => bool_decide (labels_ok [t; [101]]) | _ => false end) = true →
    wf_denial (ex3_rr flags o nx bm)) as H.
  { intros flags o nx bm [Hb%bool_decide_eq_true H]%andb_true_iff. unfold ex3_rr.
    destruct (elpis_base32hex_encode _ _ _) as [t| |]; [|done|done]. apply bool_decide_eq_true in H.
    split; [by exists [t; [101]]|]. split; [done|]. cbn [dn_rd dn_rdlen].
    pose proof (zlen_nonneg ([1; flags; 0; 1; 1; 0xAB; 20] ++ digest [0xAB] 1 nx ++ bm)). lia. }
  unfold ex3_rrs. repeat (apply Forall_cons_2; [apply H; by vm_compute|]). constructor.
Qed.

Lemma ex3_zone_ok : zone3_ok [[101]] ex3_zone.
Proof.
  intros z ts u Hz j Hj. exists z, ts, u. split; [done|]. split; [|done].
  assert (length z <= 2)%nat as Hl.
  { unfold ex3_zone in Hz. repeat (apply elem_of_cons in Hz as [[= -> -> ->]|Hz]; [cbn; lia|]). by apply not_elem_of_nil in Hz. }
  rewrite length_drop in Hj. cbn in Hj. assert (j = 0%nat) as -> by lia. by rewrite drop_0.
Qed.

(** C27. When [elpis_nsec3_proves_nxdomain] accepts genuine records of a zone, the
    question is denied: some suffix of it hashes like a name of the zone, and
    no name the signer covers is at or below the name one label longer, or at
    the wildcard below that suffix; verdict 1 excludes names under opt-out too,
    which verdict 2 leaves open.  The function answers on any records and never
    reads outside them. *)
Theorem nsec3_nxdomain_sound (rrs : list elpis_denial_rr_t) (za q : list (list Z)) :
  Forall wf_denial rrs → labels_ok za → labels_ok q →
  ∃ v, elpis_nsec3_proves_nxdomain rrs (name_of q) (name_of za) = Ok v ∧
    ∀ zn, v ≠ 0 → zone3_ok za zn → Forall (genuine3 zn (name_of za)) rrs → denied3 zn q v.
Proof. intros. by apply nsec3_nxdomain_spec. Qed.

Lemma nsec3_nxdomain_sound_witness :
  elpis_nsec3_proves_nxdomain ex3_rrs (name_of [[121];[122];[101]]) (name_of [[101]]) = Ok 1 ∧
  zone3_ok [[101]] ex3_zone ∧ Forall (genuine3 ex3_zone (name_of [[101]])) ex3_rrs ∧
  ∃ v, elpis_nsec3_proves_nxdomain ex3_rrs (name_of [[121];[122];[101]]) (name_of [[101]]) = Ok v ∧
    ∀ zn, v ≠ 0 → zone3_ok [[101]] zn → Forall (genuine3 zn (name_of [[101]])) ex3_rrs → denied3 zn [[121];[122];[101]] v.
Proof.
  split; [by vm_compute|]. split; [exact ex3_zone_ok|]. split; [exact ex3_genuine|].
  apply (nsec3_nxdomain_sound ex3_rrs [[101]] [[121];[122];[101]]); [exact ex3_wf|by_compute|by_compute].
Defined.

(** C30. When [elpis_nsec3_proves_nodata] accepts genuine records, the name has
    neither the type asked for nor a CNAME (verdict 1, and its hash is in the
    chain), or DS was asked for at a name that the signer left out (verdict 2).
    When the two delegation proofs do, the name has neither DS nor SOA, or was
    left out; a delegation proved insecure by its own record has NS. *)
Theorem nsec3_nodata_sound (rrs : list elpis_denial_rr_t) (za q : list (list Z)) (qtype : Z) :
  Forall wf_denial rrs → labels_ok za → labels_ok q → 0 <= qtype < 65536 →
  ∃ v d i, elpis_nsec3_proves_nodata rrs (name_of q) qtype (name_of za) = Ok v ∧
    elpis_nsec3_proves_no_ds rrs (name_of q) (name_of za) = Ok d ∧
    elpis_nsec3_proves_insecure_deleg rrs (name_of q) (name_of za) = Ok i ∧
    ∀ zn, Forall (genuine3 zn (name_of za)) rrs →
      (v = 1 → hashed_in zn q) ∧
      ∀ z ts u, (z, ts, u) ∈ zn → labels_eq z q →
        (v ≠ 0 → nodata3 qtype ts u v) ∧ (d ≠ 0 → no_ds3 ts u d) ∧
        (i ≠ 0 → no_ds3 ts u i ∧ (i = 1 → ELPIS_T_NS ∈ ts)).
Proof.
  intros Hwf Hza Hq Ht. destruct (nsec3_nodata_spec rrs za Hwf Hza q qtype Hq Ht) as (v & Ev & Hv).
  destruct (nsec3_no_ds_spec rrs za Hwf Hza q Hq) as (d & Ed & Hd).
  destruct (nsec3_insecure_spec rrs za Hwf Hza q Hq) as (i & Ei & Hi).
  exists v, d, i. split; [done|]. split; [done|]. split; [done|]. intros zn Hg. split.
  - intros ->. by apply Hv.
  - intros z ts u Hz E. split; [intros Hn; exact (proj2 (Hv zn Hn Hg) z ts u Hz E)|].
    split; [intros Hn; exact (Hd zn Hn Hg z ts u Hz E)|]. intros Hn. exact (Hi zn Hn Hg z ts u Hz E).
Qed.

Lemma nsec3_nodata_sound_witness :
  elpis_nsec3_proves_nodata ex3_rrs (name_of [[65];[101]]) 28 (name_of [[101]]) = Ok 1 ∧
  elpis_nsec3_proves_no_ds ex3_rrs (name_of [[99];[101]]) (name_of [[101]]) = Ok 2 ∧
  elpis_nsec3_proves_insecure_deleg ex3_rrs (name_of [[100];[101]]) (name_of [[101]]) = Ok 1 ∧
  Forall (genuine3 ex3_zone (name_of [[101]])) ex3_rrs ∧
  ∃ v d i, elpis_nsec3_proves_nodata ex3_rrs (name_of [[65];[101]]) 28 (name_of [[101]]) = Ok v ∧
    elpis_nsec3_proves_no_ds ex3_rrs (name_of [[65];[101]]) (name_of [[101]]) = Ok d ∧
    elpis_nsec3_proves_insecure_deleg ex3_rrs (name_of [[65];[101]]) (name_of [[101]]) = Ok i ∧
    ∀ zn, Forall (genuine3 zn (name_of [[101]])) ex3_rrs →
      (v = 1 → hashed_in zn [[65];[101]]) ∧
      ∀ z ts u, (z, ts, u) ∈ zn → labels_eq z [[65];[101]] →
        (v ≠ 0 → nodata3 28 ts u v) ∧ (d ≠ 0 → no_ds3 ts u d) ∧
        (i ≠ 0 → no_ds3 ts u i ∧ (i = 1 → ELPIS_T_NS ∈ ts)).
Proof.
  split; [by vm_compute|]. split; [by vm_compute|]. split; [by vm_compute|]. split; [exact ex3_genuine|].
  apply (nsec3_nodata_sound ex3_rrs [[101]] [[65];[101]] 28); [exact ex3_wf|by_compute|by_compute|lia].
Defined.

(** At a delegation, where the zone has NS without SOA and what is below it
    belongs to the child, [elpis_nsec3_proves_nodata] proves the absence of the
    types the parent has no records of all the same, from genuine records of
    the parent: the test [elpis_nsec_proves_nodata] has for this is missing. *)
Theorem nsec3_nodata_at_cut :
  ∃ zn rrs za q ts, Forall (genuine3 zn (name_of za)) rrs ∧ (q, ts, false) ∈ zn ∧
    ELPIS_T_NS ∈ ts ∧ (ELPIS_T_SOA ∉ ts) ∧
    elpis_nsec3_proves_nodata rrs (name_of q) 1 (name_of za) = Ok 1.
Proof.
  exists ex3_zone, ex3_rrs, [[101]], [[100];[101]], [ELPIS_T_NS]. split; [exact ex3_genuine|].
  split; [do 2 right; by left|]. split; [by_compute|]. split; [by_compute|by vm_compute].
Qed.
