(* ===== verification/Ratelimit.v ===== *)
(** Client and response rate limits: src/server/ratelimit.c, src/server/rrl.c.

    The tables are per worker and the code runs on one thread, so they are
    passed along.  The clock is an argument of every call. *)
From stdpp Require Import base list numbers.
From Stdlib Require Import ZArith Lia.
From S2P Require Import Prelude Bytes Simd Ecs.

(** ** Definitions *)

Definition ELPIS_RC_NXDOMAIN : Z := 3.
Definition RL_BUCKETS : Z := 4096.
Definition TOKEN_SCALE : Z := 16.

Record rlent_t := mkRlent { rl_key : Z; rl_tokens : Z; rl_last_ms : Z }.

(** The two tables, zero at the start. *)
Record rl_t := mkRl { g_client : list rlent_t; g_resp : list rlent_t }.
Definition rl_init : rl_t :=
  let t := replicate (Z.to_nat RL_BUCKETS) (mkRlent 0 0 0) in mkRl t t.

Definition prefix_key (a : elpis_addr_t) (salt : Z) : res Z :=
  match a with
  | Addr4 ip _ =>
    b ← rds ip 0 4;
    elpis_simd_hash_ci (splice b 3 [0] ++ [u8 salt]) 5 salt
  | Addr6 ip _ =>
    b ← rds ip 0 16;
    elpis_simd_hash_ci (splice b 7 (zeros 9) ++ [u8 salt]) 17 salt
  | AddrOther => Ok salt
  end.

(** The entry of the slot after the refill, or after the reset when it belongs
    to another key. *)
Definition bucket_refill (e : rlent_t) (key rate now : Z) : rlent_t :=
  let cap := u32 (u32 (rate * TOKEN_SCALE) * 2) in
  if negb (rl_key e =? key) then mkRlent key cap now
  else
    let elapsed := u32 (now - rl_last_ms e) in
    if 0 <? elapsed then
      let add := u64 (u64 (elapsed * rate) * TOKEN_SCALE) / 1000 in
      let nt := u64 (rl_tokens e + add) in
      mkRlent (rl_key e) (u32 (if cap <? nt then cap else nt)) now
    else e.

Definition bucket_take (tab : list rlent_t) (key rate now : Z) : res (bool * list rlent_t) :=
  let i := Z.land key (RL_BUCKETS - 1) in
  let now := u32 now in
  if rate =? 0 then Ok (true, tab)
  else
    e ← rd tab i;
    let e := bucket_refill e key rate now in
    if rl_tokens e <? TOKEN_SCALE then Ok (false, <[Z.to_nat i := e]> tab)
    else Ok (true, <[Z.to_nat i := mkRlent (rl_key e) (rl_tokens e - TOKEN_SCALE) (rl_last_ms e)]> tab).

(** [rate] is the configured [client_qps]. *)
Definition elpis_ratelimit_client (s : rl_t) (rate : Z) (a : elpis_addr_t) (now : Z) : res (bool * rl_t) :=
  if rate =? 0 then Ok (true, s)
  else
    key ← prefix_key a 0x1111;
    '(ok, tab) ← bucket_take (g_client s) key rate now;
    Ok (ok, mkRl tab (g_resp s)).

(** [rate] is the configured [nxdomain_qps]. *)
Definition elpis_rrl_allow (s : rl_t) (rate : Z) (a : elpis_addr_t) (rcode now : Z) : res (bool * rl_t) :=
  if (rate =? 0) || negb (rcode =? ELPIS_RC_NXDOMAIN) then Ok (true, s)
  else
    key ← prefix_key a 0x2222;
    '(ok, tab) ← bucket_take (g_resp s) key rate now;
    Ok (ok, mkRl (g_client s) tab).

(** 0: send normally, 1: answer with TC set. *)
Definition elpis_rrl_decide (s : rl_t) (rate : Z) (client : elpis_addr_t) (rcode : Z) (over_tcp : bool)
    (now : Z) : res (Z * rl_t) :=
  if over_tcp then Ok (0, s)
  else
    '(ok, s) ← elpis_rrl_allow s rate client rcode now;
    Ok (if (ok : bool) then 0 else 1, s).

(** ** Sequences of calls *)

(** Calls with their keys and times, and what each answered. *)
Fixpoint rl_run (tab : list rlent_t) (rate : Z) (evs : list (Z * Z)) : res (list (Z * bool) * list rlent_t) :=
  match evs with
  | [] => Ok ([], tab)
  | (key, now) :: evs =>
    '(ok, tab) ← bucket_take tab key rate now;
    '(out, tab) ← rl_run tab rate evs;
    Ok ((key, ok) :: out, tab)
  end.

(** How many calls of [key] were let through. *)
Definition accepted (key : Z) (out : list (Z * bool)) : Z :=
  zlen (filter (fun kb => kb.1 = key ∧ kb.2 = true) out).

(** The milliseconds that pass between the calls of [key], on the 32-bit clock
    the code keeps; the first call counts from [last] when that is known. *)
Fixpoint passed (key : Z) (last : option Z) (evs : list (Z * Z)) : Z :=
  match evs with
  | [] => 0
  | (k, now) :: evs =>
    if k =? key then match last with Some l => u32 (u32 now - l) | None => 0 end + passed key (Some (u32 now)) evs
    else passed key last evs
  end.

(** No other key uses the slot of [key]. *)
Definition alone (key : Z) (evs : list (Z * Z)) : Prop :=
  Forall (fun kn => Z.land kn.1 (RL_BUCKETS - 1) = Z.land key (RL_BUCKETS - 1) → kn.1 = key) evs.

#[export] Instance alone_dec key evs : Decision (alone key evs).
Proof. unfold alone. apply _. Defined.

Definition wf_tab (tab : list rlent_t) : Prop :=
  zlen tab = RL_BUCKETS ∧ Forall (fun e => 0 <= rl_tokens e < 2 ^ 32 ∧ 0 <= rl_last_ms e < 2 ^ 32) tab.

Definition slot (key : Z) : nat := Z.to_nat (Z.land key (RL_BUCKETS - 1)).

(** When the slot was last used for [key], if it was. *)
Definition last_use (key : Z) (e : rlent_t) : option Z := if rl_key e =? key then Some (rl_last_ms e) else None.

(** ** Lemmas *)

Lemma slot_lt key : (slot key < 4096)%nat.
Proof.
  unfold slot, RL_BUCKETS. change (4096 - 1) with (Z.ones 12). rewrite Z.land_ones by lia.
  pose proof (Z.mod_pos_bound key (2 ^ 12)). lia.
Qed.

Section rate.
Context (rate : Z) (Hrate : 0 < rate < 2 ^ 32).

Definition wf_ent (e : rlent_t) : Prop := 0 <= rl_tokens e < 2 ^ 32 ∧ 0 <= rl_last_ms e < 2 ^ 32.

Lemma u32_le x : 0 <= x → u32 x <= x.
Proof. intros. unfold u32. apply Z.mod_le; lia. Qed.
Lemma u64_le x : 0 <= x → u64 x <= x.
Proof. intros. unfold u64. apply Z.mod_le; lia. Qed.

Lemma bucket_refill_spec e key now :
  wf_ent e → 0 <= now < 2 ^ 32 →
  let e' := bucket_refill e key rate now in
  wf_ent e' ∧ rl_key e' = key ∧ rl_last_ms e' = now ∧
  (rl_key e = key → 1000 * rl_tokens e' <= 1000 * rl_tokens e + 16 * rate * u32 (now - rl_last_ms e)) ∧
  (rl_key e = key → rl_tokens e <= 32 * rate → rl_tokens e' <= 32 * rate) ∧
  (rl_key e ≠ key → rl_tokens e' <= 32 * rate).
Proof using Hrate.
  intros [Ht Hl] Hn. unfold bucket_refill, TOKEN_SCALE. set (cap := u32 (u32 (rate * 16) * 2)).
  assert (cap <= 32 * rate) as Hcap.
  { unfold cap. pose proof (u32_le (rate * 16) ltac:(lia)). pose proof (u32_range (rate * 16)).
    pose proof (u32_le (u32 (rate * 16) * 2) ltac:(lia)). lia. }
  assert (0 <= cap < 2 ^ 32) as Hcr by apply u32_range.
  destruct (Z.eqb_spec (rl_key e) key) as [Ek|Ek]; cbn [negb].
  2:{ cbn [rl_key rl_tokens rl_last_ms]. unfold wf_ent. cbn. split_and!; try done; lia. }
  pose proof (u32_range (now - rl_last_ms e)) as Hel. set (el := u32 (now - rl_last_ms e)) in *.
  destruct (Z.ltb_spec 0 el) as [Hpos|Hz].
  - cbn [rl_key rl_tokens rl_last_ms]. set (add := u64 (u64 (el * rate) * 16) / 1000).
    assert (0 <= add < 2 ^ 63 ∧ 1000 * add <= 16 * rate * el) as [Ha Hadd].
    { pose proof (u64_range (u64 (el * rate) * 16)) as H1. pose proof (u64_range (el * rate)) as H2.
      pose proof (u64_le (el * rate) ltac:(nia)) as H3. pose proof (u64_le (u64 (el * rate) * 16) ltac:(lia)) as H4.
      pose proof (Z.mul_div_le (u64 (u64 (el * rate) * 16)) 1000 ltac:(lia)) as H5. fold add in H5.
      assert (0 <= add) by (apply Z.div_pos; lia). split; lia. }
    assert (0 <= u64 (rl_tokens e + add) <= rl_tokens e + add) as Hnt by (split; [apply u64_range|apply u64_le; lia]).
    assert (∀ x, 0 <= x <= cap → u32 x = x) as Hid by (intros; apply u32_id; lia).
    unfold wf_ent. cbn. destruct (Z.ltb_spec cap (u64 (rl_tokens e + add))); rewrite Hid by lia; split_and!; try done; try lia.
  - assert (el = 0) as E0 by lia. split; [done|]. split; [done|]. split; [|split; [intros _; lia|split; done]].
    unfold el, u32 in E0. apply Z.mod_divide in E0 as [q Hq]; [|lia]. lia.
Qed.

(** A call of [key] on the entry of its slot. *)
Lemma bucket_take_slot tab key now e :
  tab !! slot key = Some e →
  bucket_take tab key rate now =
    let e' := bucket_refill e key rate (u32 now) in
    if rl_tokens e' <? TOKEN_SCALE then Ok (false, <[slot key := e']> tab)
    else Ok (true, <[slot key := mkRlent (rl_key e') (rl_tokens e' - TOKEN_SCALE) (rl_last_ms e')]> tab).
Proof using Hrate.
  intros He. unfold bucket_take. zfalse (rate =? 0). 
  rewrite (rd_lookup _ _ e) by (first [exact He|apply Z.land_nonneg; right; done]). done.
Qed.

Lemma bucket_take_wf tab key now :
  wf_tab tab → ∃ b tab', bucket_take tab key rate now = Ok (b, tab') ∧ wf_tab tab' ∧
    ∀ i, i ≠ slot key → tab' !! i = tab !! i.
Proof using Hrate.
  intros [Hl Hw]. destruct (lookup_lt_is_Some_2 tab (slot key)) as [e He].
  { pose proof (slot_lt key). unfold RL_BUCKETS in Hl. zl. }
  rewrite (bucket_take_slot tab key now e He). cbv zeta.
  pose proof (Forall_lookup_1 _ _ _ _ Hw He) as Hwe.
  destruct (bucket_refill_spec e key (u32 now) Hwe (u32_range now)) as ([Ht' Hl'] & _ & _ & _). 
  assert (∀ e1, wf_ent e1 → wf_tab (<[slot key := e1]> tab)) as Hins.
  { intros e1 H1. split; [unfold zlen; rewrite length_insert; done|]. by apply Forall_insert. }
  destruct (Z.ltb_spec (rl_tokens (bucket_refill e key rate (u32 now))) TOKEN_SCALE) as [|Hge]; eexists _, _; (split; [done|]);
    (split; [|intros i Hi; by rewrite list_lookup_insert_ne]); apply Hins; split; cbn; unfold TOKEN_SCALE in *; lia.
Qed.

Lemma accepted_cons key k b out :
  accepted key ((k, b) :: out) = (if (k =? key) && b then 1 else 0) + accepted key out.
Proof.
  unfold accepted. rewrite filter_cons. cbn [fst snd]. destruct (Z.eqb_spec k key) as [->|]; cbn [andb].
  - destruct b; [rewrite decide_True by done; by rewrite zlen_cons|by rewrite decide_False by (by intros [_ ?])].
  - by rewrite decide_False by (by intros [? _]).
Qed.

Lemma slot_neq k key : Z.land k (RL_BUCKETS - 1) ≠ Z.land key (RL_BUCKETS - 1) → slot key ≠ slot k.
Proof.
  unfold slot. intros Hne E. apply Hne. apply Z2Nat.inj in E; [done|..]; apply Z.land_nonneg; by right.
Qed.

(** What calls of [key] get, as long as no other key takes its slot. *)
Lemma rl_run_bound key evs : ∀ tab e,
  wf_tab tab → alone key evs → tab !! slot key = Some e → rl_key e = key →
  ∃ out tab', rl_run tab rate evs = Ok (out, tab') ∧
    16000 * accepted key out <= 1000 * rl_tokens e + 16 * rate * passed key (Some (rl_last_ms e)) evs.
Proof using Hrate.
  induction evs as [|[k now] evs IH]; intros tab e Hw Hal He Hk; cbn [rl_run passed].
  - exists [], tab. split; [done|]. change (accepted key []) with 0. pose proof (Forall_lookup_1 _ _ _ _ (proj2 Hw) He) as [? _]. lia.
  - apply Forall_cons_1 in Hal as [Hk0 Hal]. cbn [fst] in Hk0.
    destruct (Z.eqb_spec k key) as [->|Hne].
    + rewrite (bucket_take_slot tab key now e He). cbv zeta.
      pose proof (Forall_lookup_1 _ _ _ _ (proj2 Hw) He) as Hwe.
      destruct (bucket_refill_spec e key (u32 now) Hwe (u32_range now)) as (Hwe' & Ek' & El' & Hb & _). specialize (Hb Hk).
      destruct (bucket_take_wf tab key now Hw) as (b0 & t0 & Et & Hw' & _). rewrite (bucket_take_slot tab key now e He) in Et. cbv zeta in Et.
      assert ((slot key < length tab)%nat) as Hlt by (by apply lookup_lt_Some in He).
      destruct (Z.ltb_spec (rl_tokens (bucket_refill e key rate (u32 now))) TOKEN_SCALE) as [Hlow|Hge]; injection Et as <- <-; bind_step.
      * destruct (IH _ _ Hw' Hal (list_lookup_insert_eq _ _ _ Hlt) Ek') as (out & tab' & -> & Hacc). bind_step.
        exists ((key, false) :: out), tab'. split; [done|]. rewrite accepted_cons, andb_false_r, El' in *. lia.
      * destruct (IH _ _ Hw' Hal (list_lookup_insert_eq _ _ _ Hlt) Ek') as (out & tab' & -> & Hacc). bind_step.
        exists ((key, true) :: out), tab'. split; [done|]. rewrite accepted_cons, Z.eqb_refl. cbn [andb].
        cbn [rl_tokens rl_last_ms] in Hacc. rewrite El' in Hacc. unfold TOKEN_SCALE in *. lia.
    + destruct (bucket_take_wf tab k now Hw) as (b & t & -> & Hw' & Hoth). bind_step.
      destruct (IH t e Hw' Hal) as (out & tab' & -> & Hacc); [|done|].
      { rewrite Hoth; [done|]. apply slot_neq. intros E. apply Hne, Hk0, E. }
      bind_step. exists ((k, b) :: out), tab'. split; [done|]. rewrite accepted_cons. destruct (Z.eqb_spec k key); [done|]. cbn [andb]. lia.
Qed.

Lemma rl_run_limit key evs : ∀ tab e,
  wf_tab tab → alone key evs → tab !! slot key = Some e → (rl_key e = key → rl_tokens e <= 32 * rate) →
  ∃ out tab', rl_run tab rate evs = Ok (out, tab') ∧
    1000 * accepted key out <= rate * (2000 + passed key (last_use key e) evs).
Proof using Hrate.
  intros tab e. unfold last_use. destruct (Z.eqb_spec (rl_key e) key) as [Ek|Hne].
  { intros Hw Hal He Ht. specialize (Ht Ek). destruct (rl_run_bound key evs tab e Hw Hal He Ek) as (out & tab' & Er & Hacc).
    exists out, tab'. split; [done|]. lia. }
  revert tab. induction evs as [|[k now] evs IH]; intros tab Hw Hal He Ht; cbn [rl_run passed].
  - exists [], tab. split; [done|]. change (accepted key []) with 0. lia.
  - apply Forall_cons_1 in Hal as [Hk0 Hal]. cbn [fst] in Hk0.
    destruct (bucket_take_wf tab k now Hw) as (b & t & Et & Hw' & Hoth). rewrite Et. bind_step.
    destruct (Z.eqb_spec k key) as [->|Hk].
    + rewrite (bucket_take_slot tab key now e He) in Et. cbv zeta in Et.
      pose proof (Forall_lookup_1 _ _ _ _ (proj2 Hw) He) as Hwe.
      destruct (bucket_refill_spec e key (u32 now) Hwe (u32_range now)) as (_ & Ek' & El' & _ & _ & Hc). specialize (Hc Hne).
      assert ((slot key < length tab)%nat) as Hlt by (by apply lookup_lt_Some in He).
      assert (∃ e1, t !! slot key = Some e1 ∧ rl_key e1 = key ∧ rl_last_ms e1 = u32 now ∧ rl_tokens e1 + (if b then 16 else 0) <= 32 * rate)
        as (e1 & He1 & Ek1 & El1 & Ht1).
      { destruct (_ <? TOKEN_SCALE); injection Et as <- <-; (eexists; split; [by apply list_lookup_insert_eq|]);
          cbn [rl_key rl_last_ms rl_tokens]; unfold TOKEN_SCALE; split_and!; try done; lia. }
      destruct (rl_run_bound key evs t e1 Hw' Hal He1 Ek1) as (out & tab' & -> & Hacc). bind_step.
      exists ((key, b) :: out), tab'. split; [done|]. rewrite accepted_cons, Z.eqb_refl. cbn [andb]. rewrite El1 in Hacc. destruct b; lia.
    + destruct (IH t Hw' Hal) as (out & tab' & -> & Hacc); [|done|].
      { rewrite Hoth; [done|]. apply slot_neq. intros E. apply Hk, Hk0, E. }
      bind_step. exists ((k, b) :: out), tab'. split; [done|]. rewrite accepted_cons. destruct (Z.eqb_spec k key); [done|]. cbn [andb]. lia.
Qed.

(** No entry ever holds more than two seconds' worth. *)
Definition capped (tab : list rlent_t) : Prop := Forall (fun e => rl_tokens e <= 32 * rate) tab.

Lemma rl_run_capped evs : ∀ tab out tab',
  wf_tab tab → capped tab → rl_run tab rate evs = Ok (out, tab') → wf_tab tab' ∧ capped tab'.
Proof using Hrate.
  induction evs as [|[k now] evs IH]; intros tab out tab' Hw Hc; cbn [rl_run]; [by intros [= <- <-]|].
  destruct (bucket_take_wf tab k now Hw) as (b & t & Et & Hw' & _). rewrite Et. bind_step.
  intros ([out1 tab1] & Er & [= <- <-])%bind_Ok_inv. apply (IH t out1); [done| |done].
  destruct (lookup_lt_is_Some_2 tab (slot k)) as [e He].
  { pose proof (slot_lt k). destruct Hw as [Hl _]. unfold RL_BUCKETS in Hl. zl. }
  rewrite (bucket_take_slot tab k now e He) in Et. cbv zeta in Et.
  pose proof (Forall_lookup_1 _ _ _ _ (proj2 Hw) He) as Hwe. pose proof (Forall_lookup_1 _ _ _ _ Hc He) as Hce. cbv beta in Hce.
  destruct (bucket_refill_spec e k (u32 now) Hwe (u32_range now)) as (_ & _ & _ & _ & H1 & H2).
  assert (rl_tokens (bucket_refill e k rate (u32 now)) <= 32 * rate) as Hr.
  { destruct (decide (rl_key e = k)) as [E|E]; [by apply H1|by apply H2]. }
  destruct (_ <? TOKEN_SCALE); injection Et as <- <-; apply Forall_insert; try done. cbn. unfold TOKEN_SCALE. lia.
Qed.

(** Every gap between calls of [key] satisfies [P]. *)
Fixpoint gaps (P : Z → Prop) (key : Z) (last : option Z) (evs : list (Z * Z)) : Prop :=
  match evs with
  | [] => True
  | (k, now) :: evs =>
    if k =? key then match last with Some l => P (u32 (u32 now - l)) | None => True end ∧ gaps P key (Some (u32 now)) evs
    else gaps P key last evs
  end.

(** A reset or a refill of at least one token lets the call through. *)
Lemma bucket_refill_enough e key now :
  rate < 2 ^ 27 → wf_ent e → (rl_key e = key → 1000 <= rate * u32 (now - rl_last_ms e)) →
  TOKEN_SCALE <= rl_tokens (bucket_refill e key rate now).
Proof using Hrate.
  intros Hr [Ht Hl] Hg. unfold bucket_refill, TOKEN_SCALE in *. rewrite (u32_id (rate * 16)), u32_id by lia.
  destruct (Z.eqb_spec (rl_key e) key) as [Ek|]; cbn [negb]; [|cbn; lia]. specialize (Hg Ek).
  pose proof (u32_range (now - rl_last_ms e)). set (el := u32 (now - rl_last_ms e)) in *.
  ztrue (0 <? el). cbn [rl_tokens].
  rewrite (u64_id (el * rate)) by nia. rewrite (u64_id (el * rate * 16)) by nia.
  assert (16 <= el * rate * 16 / 1000 < 2 ^ 63) as Hadd by (split; [apply Z.div_le_lower_bound; lia|apply Z.div_lt_upper_bound; nia]).
  rewrite u64_id by lia. destruct (Z.ltb_spec (rate * 16 * 2) (rl_tokens e + el * rate * 16 / 1000)); rewrite u32_id by lia; lia.
Qed.

Lemma rl_run_slow key evs : ∀ tab e,
  rate < 2 ^ 27 → wf_tab tab → alone key evs → tab !! slot key = Some e →
  gaps (fun d => 1000 <= rate * d) key (last_use key e) evs →
  ∃ out tab', rl_run tab rate evs = Ok (out, tab') ∧ map fst out = map fst evs ∧
    Forall (fun kb => kb.1 = key → kb.2 = true) out.
Proof using Hrate.
  induction evs as [|[k now] evs IH]; intros tab e Hr Hw Hal He Hg; cbn [rl_run gaps map] in *; [by exists [], tab|].
  apply Forall_cons_1 in Hal as [Hk0 Hal]. cbn [fst] in Hk0.
  destruct (bucket_take_wf tab k now Hw) as (b & t & Et & Hw' & Hoth). rewrite Et. bind_step.
  destruct (Z.eqb_spec k key) as [->|Hne].
  - destruct Hg as [Hgap Hg]. rewrite (bucket_take_slot tab key now e He) in Et. cbv zeta in Et.
    pose proof (Forall_lookup_1 _ _ _ _ (proj2 Hw) He) as Hwe.
    destruct (bucket_refill_spec e key (u32 now) Hwe (u32_range now)) as (_ & Ek' & El' & _).
    assert (TOKEN_SCALE <= rl_tokens (bucket_refill e key rate (u32 now))) as Hen.
    { apply bucket_refill_enough; [done|done|]. intros Ek. unfold last_use in Hgap. by rewrite Ek, Z.eqb_refl in Hgap. }
    destruct (Z.ltb_spec (rl_tokens (bucket_refill e key rate (u32 now))) TOKEN_SCALE); [lia|]. injection Et as <- <-.
    assert ((slot key < length tab)%nat) as Hlt by (by apply lookup_lt_Some in He).
    destruct (IH _ _ Hr Hw' Hal (list_lookup_insert_eq _ _ _ Hlt)) as (out & tab' & -> & Em & Hall).
    { unfold last_use. cbn. by rewrite Ek', Z.eqb_refl, El'. }
    bind_step. exists ((key, true) :: out), tab'. cbn [map fst]. rewrite Em. split; [done|]. split; [done|]. by constructor.
  - destruct (IH t e Hr Hw' Hal) as (out & tab' & -> & Em & Hall); [|done|].
    { rewrite Hoth; [done|]. apply slot_neq. intros E. apply Hne, Hk0, E. }
    bind_step. exists ((k, b) :: out), tab'. cbn [map fst]. rewrite Em. split; [done|]. split; [done|]. by constructor.
Qed.

(** Calls closer than a sixteenth of a token's time refill nothing, and yet
    move the clock of the entry on. *)
Lemma bucket_refill_none e key now :
  wf_ent e → 0 <= now < 2 ^ 32 → rl_key e = key → 16 * rate * u32 (now - rl_last_ms e) < 1000 →
  rl_tokens (bucket_refill e key rate now) <= rl_tokens e.
Proof using Hrate.
  intros [Ht Hl] Hn Ek Hg. unfold bucket_refill, TOKEN_SCALE. rewrite Ek, Z.eqb_refl. cbn [negb].
  pose proof (u32_range (now - rl_last_ms e)). set (el := u32 (now - rl_last_ms e)) in *.
  destruct (0 <? el); [|lia]. cbn [rl_tokens].
  rewrite (u64_id (el * rate)) by nia. rewrite (u64_id (el * rate * 16)) by nia. rewrite (Z.div_small (el * rate * 16)) by nia.
  rewrite Z.add_0_r, u64_id by lia. set (cap := u32 (u32 (rate * 16) * 2)). assert (0 <= cap < 2 ^ 32) by apply u32_range.
  destruct (Z.ltb_spec cap (rl_tokens e)); rewrite u32_id by lia; lia.
Qed.

Lemma rl_run_starved key evs : ∀ tab e,
  wf_tab tab → alone key evs → tab !! slot key = Some e → rl_key e = key →
  gaps (fun d => 16 * rate * d < 1000) key (Some (rl_last_ms e)) evs →
  ∃ out tab', rl_run tab rate evs = Ok (out, tab') ∧ 16 * accepted key out <= rl_tokens e.
Proof using Hrate.
  induction evs as [|[k now] evs IH]; intros tab e Hw Hal He Hk Hg; cbn [rl_run gaps] in *.
  - exists [], tab. split; [done|]. change (accepted key []) with 0. pose proof (Forall_lookup_1 _ _ _ _ (proj2 Hw) He) as [? _]. lia.
  - apply Forall_cons_1 in Hal as [Hk0 Hal]. cbn [fst] in Hk0.
    destruct (bucket_take_wf tab k now Hw) as (b & t & Et & Hw' & Hoth). rewrite Et. bind_step.
    destruct (Z.eqb_spec k key) as [->|Hne].
    + destruct Hg as [Hgap Hg]. rewrite (bucket_take_slot tab key now e He) in Et. cbv zeta in Et.
      pose proof (Forall_lookup_1 _ _ _ _ (proj2 Hw) He) as Hwe.
      destruct (bucket_refill_spec e key (u32 now) Hwe (u32_range now)) as (_ & Ek' & El' & _).
      pose proof (bucket_refill_none e key (u32 now) Hwe (u32_range now) Hk Hgap) as Hno.
      assert ((slot key < length tab)%nat) as Hlt by (by apply lookup_lt_Some in He).
      assert (∃ e1, t !! slot key = Some e1 ∧ rl_key e1 = key ∧ rl_last_ms e1 = u32 now ∧ rl_tokens e1 + (if b then 16 else 0) <= rl_tokens e)
        as (e1 & He1 & Ek1 & El1 & Ht1).
      { destruct (_ <? TOKEN_SCALE); injection Et as <- <-; (eexists; split; [by apply list_lookup_insert_eq|]);
          cbn [rl_key rl_last_ms rl_tokens]; unfold TOKEN_SCALE; split_and!; try done; lia. }
      destruct (IH t e1 Hw' Hal He1 Ek1) as (out & tab' & -> & Hacc); [by rewrite El1|]. bind_step.
      exists ((key, b) :: out), tab'. split; [done|]. rewrite accepted_cons, Z.eqb_refl. cbn [andb]. destruct b; lia.
    + destruct (IH t e Hw' Hal) as (out & tab' & -> & Hacc); [|done|done|].
      { rewrite Hoth; [done|]. apply slot_neq. intros E. apply Hne, Hk0, E. }
      bind_step. exists ((k, b) :: out), tab'. split; [done|]. rewrite accepted_cons. destruct (Z.eqb_spec k key); [done|]. cbn [andb]. lia.
Qed.
End rate.

Lemma wf_init : wf_tab (g_client rl_init).
Proof. split; [done|]. apply Forall_replicate. cbn. lia. Qed.

Lemma capped_init rate : 0 < rate → capped rate (g_client rl_init).
Proof. intros. apply Forall_replicate. cbn. lia. Qed.

Lemma lookup_init i : (i < 4096)%nat → g_client rl_init !! i = Some (mkRlent 0 0 0).
Proof. intros. by apply lookup_replicate_2. Qed.

(** ** Properties *)

(** C31. The limit holds: however its calls are spread, a key whose slot no other
    key uses gets no more than two seconds' worth of its rate through, plus its
    rate for the time that passed between its calls; this for every rate,
    those whose products wrap included, and with calls of other keys in
    between.  The bound on the entries that it starts from holds again at the
    end, so that it covers every window of a longer run. *)
Theorem bucket_limit (rate key : Z) (evs : list (Z * Z)) (tab : list rlent_t) (e : rlent_t) :
  0 < rate < 2 ^ 32 → wf_tab tab → capped rate tab → alone key evs → tab !! slot key = Some e →
  ∃ out tab', rl_run tab rate evs = Ok (out, tab') ∧ wf_tab tab' ∧ capped rate tab' ∧
    1000 * accepted key out <= rate * (2000 + passed key (last_use key e) evs).
Proof.
  intros Hr Hw Hc Hal He. destruct (rl_run_limit rate Hr key evs tab e Hw Hal He) as (out & tab' & Er & Hacc).
  { intros _. exact (Forall_lookup_1 _ _ _ _ Hc He). }
  exists out, tab'. split; [done|]. by destruct (rl_run_capped rate Hr evs tab out tab' Hw Hc Er).
Qed.

Lemma bucket_limit_witness :
  ∃ out tab', rl_run (g_client rl_init) 1 [(7, 100); (9, 100); (7, 200); (7, 1700); (7, 1800)] = Ok (out, tab') ∧
    wf_tab tab' ∧ capped 1 tab' ∧
    1000 * accepted 7 out <= 1 * (2000 + passed 7 None [(7, 100); (9, 100); (7, 200); (7, 1700); (7, 1800)]).
Proof.
  apply (bucket_limit 1 7 [(7, 100); (9, 100); (7, 200); (7, 1700); (7, 1800)] (g_client rl_init) (mkRlent 0 0 0));
    [lia|exact wf_init|exact (capped_init 1 eq_refl)|by_compute|apply lookup_init, slot_lt].
Defined.

(** C40. A client that keeps to its rate is never refused: with a rate under 2^27
    and gaps that earn a token each, every call of the key is let through. *)
Theorem bucket_slow_client_accepted (rate key : Z) (evs : list (Z * Z)) (tab : list rlent_t) (e : rlent_t) :
  0 < rate < 2 ^ 27 → wf_tab tab → alone key evs → tab !! slot key = Some e →
  gaps (fun d => 1000 <= rate * d) key (last_use key e) evs →
  ∃ out tab', rl_run tab rate evs = Ok (out, tab') ∧ map fst out = map fst evs ∧
    Forall (fun kb => kb.1 = key → kb.2 = true) out.
Proof. intros [? ?] ????. apply (rl_run_slow rate ltac:(lia) key evs tab e); (done || lia). Qed.

Lemma bucket_slow_client_accepted_witness :
  ∃ out tab', rl_run (g_client rl_init) 2 [(7, 100); (9, 100); (7, 600); (7, 1100); (7, 1700)] = Ok (out, tab') ∧
    map fst out = [7; 9; 7; 7; 7] ∧ Forall (fun kb => kb.1 = 7 → kb.2 = true) out.
Proof.
  apply (bucket_slow_client_accepted 2 7 [(7, 100); (9, 100); (7, 600); (7, 1100); (7, 1700)] (g_client rl_init) (mkRlent 0 0 0));
    [lia|exact wf_init|by_compute|apply lookup_init, slot_lt|by vm_compute].
Defined.

(** A client that calls more often than a sixteenth of a token accrues is
    starved rather than limited: the refill rounds to nothing and the entry's
    clock moves on all the same, so that once its tokens are gone it gets
    nothing for as long as it keeps calling. *)
Theorem bucket_starves (rate key : Z) (evs : list (Z * Z)) (tab : list rlent_t) (e : rlent_t) :
  0 < rate < 2 ^ 32 → wf_tab tab → alone key evs → tab !! slot key = Some e → rl_key e = key →
  gaps (fun d => 16 * rate * d < 1000) key (Some (rl_last_ms e)) evs →
  ∃ out tab', rl_run tab rate evs = Ok (out, tab') ∧ 16 * accepted key out <= rl_tokens e.
Proof. intros. by apply rl_run_starved. Qed.

Lemma bucket_starves_witness :
  ∃ out tab', rl_run (<[7%nat := mkRlent 7 15 0]> (g_client rl_init)) 1 [(7, 60); (7, 120); (7, 180)] = Ok (out, tab') ∧
    16 * accepted 7 out <= 15.
Proof.
  apply (bucket_starves 1 7 [(7, 60); (7, 120); (7, 180)] (<[7%nat := mkRlent 7 15 0]> (g_client rl_init)) (mkRlent 7 15 0));
    [lia| |by_compute|reflexivity|reflexivity|by vm_compute].
  split; [reflexivity|]. apply Forall_insert; [apply wf_init|]. cbn. lia.
Defined.

(** Two prefixes in one slot do not share an allowance: each takes the slot
    from the other with a full bucket, so alternating calls are all let
    through, even at one instant. *)
Theorem bucket_slot_contention (rate k1 k2 t : Z) (n : nat) (tab : list rlent_t) (e : rlent_t) :
  0 < rate < 2 ^ 27 → wf_tab tab → slot k1 = slot k2 → k1 ≠ k2 → tab !! slot k1 = Some e → rl_key e ≠ k1 →
  ∃ tab', rl_run tab rate (concat (replicate n [(k1, t); (k2, t)]))
    = Ok (concat (replicate n [(k1, true); (k2, true)]), tab').
Proof.
  intros [Hr0 Hr] Hw Es Hne. revert tab e Hw. assert (0 < rate < 2 ^ 32) as Hrate by lia.
  assert (∀ tab k e, wf_tab tab → tab !! slot k = Some e → rl_key e ≠ k →
    ∃ tab' e', bucket_take tab k rate t = Ok (true, tab') ∧ wf_tab tab' ∧ tab' !! slot k = Some e' ∧ rl_key e' = k) as Hone.
  { intros tab k e Hw He Hk. destruct (bucket_take_wf rate Hrate tab k t Hw) as (b & tab' & Et & Hw' & _).
    pose proof Et as Et'. rewrite (bucket_take_slot rate Hrate tab k t e He) in Et'. cbv zeta in Et'.
    pose proof (Forall_lookup_1 _ _ _ _ (proj2 Hw) He) as Hwe.
    destruct (bucket_refill_spec rate Hrate e k (u32 t) Hwe (u32_range t)) as (_ & Ek & _).
    pose proof (bucket_refill_enough rate Hrate e k (u32 t) Hr Hwe ltac:(done)) as Hen.
    destruct (Z.ltb_spec (rl_tokens (bucket_refill e k rate (u32 t))) TOKEN_SCALE); [lia|]. injection Et' as Eb Ett.
    exists tab'. rewrite <- Eb in Et. eexists. split; [exact Et|]. split; [done|]. rewrite <- Ett.
    split; [apply list_lookup_insert_eq; by apply lookup_lt_Some in He|done]. }
  induction n as [|n IH]; intros tab e Hw He Hk; cbn [replicate concat app rl_run]; [by exists tab|].
  destruct (Hone tab k1 e Hw He Hk) as (t1 & e1 & -> & Hw1 & He1 & Ek1). bind_step. rewrite Es in He1.
  destruct (Hone t1 k2 e1 Hw1 He1 ltac:(congruence)) as (t2 & e2 & -> & Hw2 & He2 & Ek2). bind_step. rewrite <- Es in He2.
  destruct (IH t2 e2 Hw2 He2 ltac:(congruence)) as (t3 & ->). bind_step. by exists t3.
Qed.

Lemma bucket_slot_contention_witness :
  ∃ tab', rl_run (g_client rl_init) 1 (concat (replicate 50 [(7, 0); (4103, 0)]))
    = Ok (concat (replicate 50 [(7, true); (4103, true)]), tab').
Proof.
  apply (bucket_slot_contention 1 7 4103 0 50 (g_client rl_init) (mkRlent 0 0 0));
    [lia|exact wf_init|reflexivity|discriminate|apply lookup_init, slot_lt|discriminate].
Defined.

(** The key is the hash for names, which folds ASCII case: 10.65.1.0/24 and
    10.97.1.0/24 differ in an octet that is a letter in two cases, and have the
    same key, hence one allowance, under every salt tried by the code. *)
Example prefix_key_folds_case :
  prefix_key (Addr4 [10; 65; 1; 2] 53) 0x1111 = prefix_key (Addr4 [10; 97; 1; 9] 53) 0x1111 ∧
  prefix_key (Addr4 [10; 65; 1; 2] 53) 0x1111 ≠ prefix_key (Addr4 [10; 66; 1; 2] 53) 0x1111.
Proof. split; [by vm_compute|vm_compute; discriminate]. Qed.
