(* ===== verification/Dns64.v ===== *)
(** DNS64: src/server/dns64.c (RFC 6147, RFC 6052).

    Of a task only the fields this file reads and writes are kept.  The child
    task, whose answer [dns64_child_done] receives, is made by the resolver. *)
From stdpp Require Import base list numbers.
From Stdlib Require Import ZArith Lia.
From S2P Require Import Prelude Bytes Simd Name NameOps Ecs Addr Rdesc Rnames Rrlist.

(** ** Data *)

Definition ELPIS_SEC_ANSWER : Z := 0.
Definition ELPIS_RC_NOERROR : Z := 0.

Inductive elpis_tstate_t :=
  | ELPIS_TS_INIT | ELPIS_TS_LOOKUP | ELPIS_TS_DELEG | ELPIS_TS_SEND | ELPIS_TS_WAIT
  | ELPIS_TS_NSADDR | ELPIS_TS_VALIDATE | ELPIS_TS_FINISH | ELPIS_TS_DEAD.

#[export] Instance elpis_tstate_t_eq_dec : EqDecision elpis_tstate_t.
Proof. solve_decision. Defined.

(** The [dns64] part of [elpis_conf_t]. *)
Record dns64_conf_t := mkD64conf {
  dns64 : bool; dns64_synth_all : bool; dns64_strip_a : bool;
  dns64_prefix : elpis_prefix_t; dns64_ignore_aaaa : list elpis_prefix_t }.

(** The fields of [elpis_task_t] that DNS64 uses. *)
Record elpis_task_t := mkTask {
  k_dns64_tried : bool; k_orig_qtype : Z; k_qclass : Z; k_rcode : Z;
  k_has_client : bool; k_client_do : bool; k_client_cd : bool;
  k_ans : elpis_rrlist_t; k_sec : elpis_sec_t; k_dns64_synth : bool;
  k_ecs_tailored : bool; k_ecs_scope : Z; k_ecs_local : bool;
  k_nchild : Z; k_state : elpis_tstate_t; k_stat_synth : Z }.

(** ** Operations *)

(** [memcpy(out + o, v4 + i, n)] *)
Definition put4 (out : list Z) (o : Z) (v4 : list Z) (i n : Z) : res (list Z) :=
  bs ← rds v4 i n;
  if o + n <=? zlen out then Ok (splice out o bs) else Stuck OutOfBounds.

Definition elpis_dns64_embed (p : elpis_prefix_t) (v4 : list Z) : res (list Z) :=
  out ← rds (px_ip p) 0 16;
  let bits := px_bits p in
  if bits =? 32 then put4 out 4 v4 0 4
  else if bits =? 40 then
    out ← put4 out 5 v4 0 3; put4 (splice out 8 [0]) 9 v4 3 1
  else if bits =? 48 then
    out ← put4 out 6 v4 0 2; put4 (splice out 8 [0]) 9 v4 2 2
  else if bits =? 56 then
    out ← put4 out 7 v4 0 1; put4 (splice out 8 [0]) 9 v4 1 3
  else if bits =? 64 then put4 (splice out 8 [0]) 9 v4 0 4
  else put4 out 12 v4 0 4.

Definition has_type (l : elpis_rrlist_t) (type : Z) : bool :=
  existsb (fun e => (t_section e =? ELPIS_SEC_ANSWER) && (t_type e =? type)) (l_rr l).

Definition elpis_dns64_needed (c : dns64_conf_t) (t : elpis_task_t) : bool :=
  if negb (dns64 c) || k_dns64_tried t then false
  else if negb (k_orig_qtype t =? ELPIS_T_AAAA) || negb (k_qclass t =? ELPIS_CLASS_IN) then false
  else if negb (k_rcode t =? ELPIS_RC_NOERROR) then false
  else if negb (dns64_synth_all c) && has_type (k_ans t) ELPIS_T_AAAA then false
  else if k_client_do t && k_client_cd t then false
  else true.

(** [elpis_trr_rd]: the octets from the rdata on. *)
Definition elpis_trr_rd (l : elpis_rrlist_t) (e : elpis_trr_t) : list Z := drop (Z.to_nat (t_rdoff e)) (l_pool l).

Section Alloc.
Variable alloc : Z → bool.

(** The loop over the child's records, from [i] on: the parent's answer and
    the addresses made. *)
Fixpoint child_loop (pfx : elpis_prefix_t) (cl : elpis_rrlist_t) (es : list elpis_trr_t) (i : Z)
    (ans : elpis_rrlist_t) (synth : Z) : res (elpis_rrlist_t * Z) :=
  match es with
  | [] => Ok (ans, synth)
  | rr :: es =>
    if negb (t_section rr =? ELPIS_SEC_ANSWER) then child_loop pfx cl es (i + 1) ans synth
    else
      on ← try (elpis_trr_get_name cl i);
      match on with
      | None => child_loop pfx cl es (i + 1) ans synth
      | Some on =>
        if t_type rr =? ELPIS_T_CNAME then
          have ← elpis_rrlist_has ans on (t_type rr) (elpis_trr_rd cl rr) (t_rdlen rr);
          if (have : bool) then child_loop pfx cl es (i + 1) ans synth
          else
            '(ans, _) ← elpis_rrlist_add alloc ans ELPIS_SEC_ANSWER on (t_type rr) (t_klass rr) (t_ttl rr)
                          (elpis_trr_rd cl rr) (t_rdlen rr);
            child_loop pfx cl es (i + 1) ans synth
        else if negb (t_type rr =? ELPIS_T_A) || negb (t_rdlen rr =? 4) then child_loop pfx cl es (i + 1) ans synth
        else
          v6 ← elpis_dns64_embed pfx (elpis_trr_rd cl rr);
          '(ans, _) ← elpis_rrlist_add alloc ans ELPIS_SEC_ANSWER on ELPIS_T_AAAA (t_klass rr) (t_ttl rr) v6 16;
          child_loop pfx cl es (i + 1) ans (u32 (synth + 1))
      end
  end.

(** The parent after its child is done, and whether [elpis_task_step] runs it
    next. *)
Definition dns64_child_done (c : dns64_conf_t) (child : elpis_task_t) (parent : option elpis_task_t)
    : res (option elpis_task_t * bool) :=
  match parent with
  | None => Ok (None, false)
  | Some p =>
    let tailored := k_ecs_tailored p || k_ecs_tailored child in
    let scope := if k_ecs_tailored child && (k_ecs_scope p <? k_ecs_scope child) then k_ecs_scope child else k_ecs_scope p in
    let local := k_ecs_local p || k_ecs_local child in
    '(ans, synth) ← (if k_rcode child =? ELPIS_RC_NOERROR
                     then child_loop (dns64_prefix c) (k_ans child) (l_rr (k_ans child)) 0 (k_ans p) 0
                     else Ok (k_ans p, 0));
    let made := negb (synth =? 0) in
    let step := match k_state p with ELPIS_TS_WAIT => true | _ => false end in
    Ok (Some (mkTask (k_dns64_tried p) (k_orig_qtype p) (k_qclass p) (k_rcode p)
                (k_has_client p) (k_client_do p) (k_client_cd p) ans
                (if made then ELPIS_SEC_INSECURE else k_sec p) (made || k_dns64_synth p)
                tailored scope local
                (if k_nchild p =? 0 then 0 else k_nchild p - 1)
                (if step then ELPIS_TS_FINISH else k_state p)
                (u64 (k_stat_synth p + synth))),
        step)
  end.
End Alloc.

Definition elpis_dns64_strips (c : dns64_conf_t) (qtype : Z) (do_bit cd_bit : bool) : bool :=
  dns64 c && dns64_strip_a c && ((qtype =? ELPIS_T_A) || (qtype =? ELPIS_T_ANY)) && negb (do_bit && cd_bit).

(** [t->ans.rr[out++] = t->ans.rr[i]] for the entries not dropped. *)
Fixpoint keep_loop (drop : elpis_trr_t → res bool) (es : list elpis_trr_t) : res (list elpis_trr_t) :=
  match es with
  | [] => Ok []
  | e :: es =>
    d ← drop e;
    out ← keep_loop drop es;
    Ok (if (d : bool) then out else e :: out)
  end.

Definition set_rr (l : elpis_rrlist_t) (es : list elpis_trr_t) : elpis_rrlist_t :=
  mkRrlist es (l_cap l) (l_pool l) (l_pcap l) (l_zone_labels l) (l_tailored l).
Definition set_ans (t : elpis_task_t) (ans : elpis_rrlist_t) (sec : elpis_sec_t) : elpis_task_t :=
  mkTask (k_dns64_tried t) (k_orig_qtype t) (k_qclass t) (k_rcode t) (k_has_client t) (k_client_do t) (k_client_cd t)
    ans sec (k_dns64_synth t) (k_ecs_tailored t) (k_ecs_scope t) (k_ecs_local t) (k_nchild t) (k_state t) (k_stat_synth t).

(** The test of [strip_a]. *)
Definition drops_a (l : elpis_rrlist_t) (rr : elpis_trr_t) : res bool :=
  if t_section rr =? ELPIS_SEC_ANSWER then
    if t_type rr =? ELPIS_T_A then Ok true
    else if (t_type rr =? ELPIS_T_RRSIG) && (2 <=? t_rdlen rr) then
      covered ← elpis_get16 (elpis_trr_rd l rr) 0;
      Ok (covered =? ELPIS_T_A)
    else Ok false
  else Ok false.

Definition strip_a (t : elpis_task_t) : res elpis_task_t :=
  let l := k_ans t in
  out ← keep_loop (drops_a l) (l_rr l);
  let dropped := zlen (l_rr l) - zlen out in
  Ok (set_ans t (set_rr l out)
        (if (0 <? dropped) && bool_decide (k_sec t = ELPIS_SEC_SECURE) then ELPIS_SEC_INSECURE else k_sec t)).

(** [for (k = 0; k < c->n_dns64_ignore; k++)] *)
Fixpoint ignored (ps : list elpis_prefix_t) (a : elpis_addr_t) : res bool :=
  match ps with
  | [] => Ok false
  | p :: ps => m ← elpis_prefix_match p a; if (m : bool) then Ok true else ignored ps a
  end.

(** The test of the second loop of [elpis_dns64_apply]. *)
Definition drops_aaaa (c : dns64_conf_t) (l : elpis_rrlist_t) (rr : elpis_trr_t) : res bool :=
  if (t_section rr =? ELPIS_SEC_ANSWER) && (t_type rr =? ELPIS_T_AAAA) && (t_rdlen rr =? 16) then
    ip ← rds (elpis_trr_rd l rr) 0 16;
    ignored (dns64_ignore_aaaa c) (elpis_addr_from6 ip 0)
  else Ok false.

Definition elpis_dns64_apply (c : dns64_conf_t) (t : elpis_task_t) : res elpis_task_t :=
  t ← (if k_has_client t && elpis_dns64_strips c (k_orig_qtype t) (k_client_do t) (k_client_cd t)
       then strip_a t else Ok t);
  if zlen (dns64_ignore_aaaa c) =? 0 then Ok t
  else
    out ← keep_loop (drops_aaaa c (k_ans t)) (l_rr (k_ans t));
    Ok (set_ans t (set_rr (k_ans t) out) (k_sec t)).

(** ** Embedding an address *)

(** RFC 6052 section 2.2: where the four octets stand. *)
Definition dns64_extract (bits : Z) (a : list Z) : list Z :=
  if bits =? 32 then slice a 4 4
  else if bits =? 40 then slice a 5 3 ++ slice a 9 1
  else if bits =? 48 then slice a 6 2 ++ slice a 9 2
  else if bits =? 56 then slice a 7 1 ++ slice a 9 3
  else if bits =? 64 then slice a 9 4
  else slice a 12 4.

(** The lengths the configuration accepts. *)
Definition dns64_bits (bits : Z) : Prop := bits ∈ [32; 40; 48; 56; 64; 96].
#[export] Instance dns64_bits_dec bits : Decision (dns64_bits bits).
Proof. unfold dns64_bits. apply _. Defined.

Lemma embed_reads p v4 v4' :
  rds v4 0 4 = Ok v4' → elpis_dns64_embed p v4 = elpis_dns64_embed p v4'.
Proof.
  intros (_ & _ & Hl & ->)%rds_Ok_inv. unfold elpis_dns64_embed.
  assert (∀ o out i n, 0 <= i → 0 <= n → i + n <= 4 → put4 out o v4 i n = put4 out o (slice v4 0 4) i n) as E.
  { intros. unfold put4. rewrite !rds_in_range; [|lia|lia|rewrite zlen_slice; lia|lia|lia|lia].
    replace (slice (slice v4 0 4) i n) with (slice v4 i n); [done|].
    unfold slice. rewrite drop_0, skipn_firstn_comm, take_take. f_equal. lia. }
  destruct (rds (px_ip p) 0 16) as [ip| |]; [|done|done]. cbn [mbind res_bind].
  repeat case_match; rewrite E by lia; try done;
    match goal with |- mbind _ ?m = mbind _ ?m => destruct m as [out| |]; [|done|done] end; cbn [mbind res_bind]; by rewrite E by lia.
Qed.

(** A list of known length, element by element. *)
Ltac explode l H :=
  unfold zlen in H;
  repeat (let x := fresh "x" in destruct l as [|x l]; [try (exfalso; cbn [length] in H; lia)|try (exfalso; cbn [length] in H; lia)]);
  clear H.

Lemma embed_spec p v4 :
  wf_prefix p → px_v6 p = true → dns64_bits (px_bits p) → bytes v4 → zlen v4 = 4 →
  ∃ out, elpis_dns64_embed p v4 = Ok out ∧ zlen out = 16 ∧ bytes out ∧
    dns64_extract (px_bits p) out = v4 ∧
    (∀ port, elpis_prefix_match p (Addr6 out port) = Ok true) ∧
    (40 <= px_bits p <= 64 → out !! 8%nat = Some 0).
Proof.
  intros (Hb & Hl & _) Hv Hbits Hb4 Hl4. destruct p as [ip bits v6]. cbn [px_ip px_bits px_v6] in *. subst v6.
  explode ip Hl. explode v4 Hl4.
  repeat (apply Forall_cons_1 in Hb as [? Hb]). repeat (apply Forall_cons_1 in Hb4 as [? Hb4]).
  assert (byte 0) as Hz0 by (unfold byte; lia).
  unfold dns64_bits in Hbits. repeat (apply elem_of_cons in Hbits as [->|Hbits]); [..|by apply not_elem_of_nil in Hbits];
    (eexists; split; [vm_compute; reflexivity|]; split; [reflexivity|];
     split; [repeat (apply Forall_cons_2; [assumption|]); apply Forall_nil_2|]; split; [reflexivity|];
     split; [intros port; unfold elpis_prefix_match; cbn [px_bits px_ip px_v6];
       match goal with |- context [?b / 8] => let v := eval vm_compute in (b / 8) in change (b / 8) with v;
         let r := eval vm_compute in (b mod 8) in change (b mod 8) with r end;
       rewrite !rds_in_range by (first [lia|by vm_compute]); bind_step; by rewrite bool_decide_true by reflexivity
     |intros; first [reflexivity|lia]]).
Qed.

(** ** The accumulator, through pointers into another one *)

Lemma rds_at (pool : list Z) o n s : rds pool o n = Ok s → rds (drop (Z.to_nat o) pool) 0 n = Ok s.
Proof.
  intros (? & ? & ? & ->)%rds_Ok_inv. rewrite rds_in_range by (rewrite ?zlen_drop; lia). done.
Qed.

Lemma pool_append_ext l a b n : rds a 0 n = rds b 0 n → pool_append l a n = pool_append l b n.
Proof. intros E. unfold pool_append. by rewrite E. Qed.

Lemma rrlist_add_ext alloc l sec name type klass ttl a b n :
  rds a 0 n = rds b 0 n →
  elpis_rrlist_add alloc l sec name type klass ttl a n = elpis_rrlist_add alloc l sec name type klass ttl b n.
Proof.
  intros E. unfold elpis_rrlist_add. destruct (_ <=? _); [done|]. destruct (_ && _); [done|].
  set (l0 := if _ =? _ then _ else l). destruct (pool_reserve alloc l0 (n_len name + n)) as [[l1 rc]| |]; [|done|done]. cbn [mbind res_bind].
  destruct (negb (bool_decide (rc = ELPIS_OK))); [done|].
  destruct (pool_append l1 (n_d name) (n_len name)) as [l2| |]; [|done|done]. cbn [mbind res_bind].
  by rewrite (pool_append_ext l2 a b n E).
Qed.

Lemma has_loop_ext pool es name type a b n :
  rds a 0 n = rds b 0 n → has_loop pool es name type a n = has_loop pool es name type b n.
Proof.
  intros E. induction es as [|e es IH]; [done|]. cbn [has_loop]. by rewrite IH, E.
Qed.

(** What an add that succeeds writes to the pool. *)
Lemma rrlist_add_pool alloc l sec name type klass ttl rdata n l' :
  elpis_rrlist_add alloc l sec name type klass ttl rdata n = Ok (l', ELPIS_OK) →
  zlen (l_pool l') = zlen (l_pool l) + n_len name + n.
Proof.
  assert (∀ k src m k', pool_append k src m = Ok k' → zlen (l_pool k') = zlen (l_pool k) + m) as Happ.
  { intros k src m k'. unfold pool_append. destruct (rds src 0 m) as [bs| |] eqn:Er; [|done|done]. cbn [mbind res_bind].
    apply rds_Ok_inv in Er as (_ & ? & ? & ->). destruct (_ <=? _); [|done]. intros [= <-]. cbn [l_pool].
    rewrite zlen_app, zlen_slice by lia. lia. }
  unfold elpis_rrlist_add. destruct (_ <=? _); [done|]. destruct (_ && _); [done|]. set (l0 := if _ =? _ then _ else l).
  assert (l_pool l0 = l_pool l) as <- by (unfold l0; by destruct (_ =? _)).
  intros ([l1 rc] & Hr & H)%bind_Ok_inv. assert (l_pool l1 = l_pool l0) as E1.
  { unfold pool_reserve in Hr. destruct (_ <=? _); [by injection Hr as <- <-|].
    apply bind_Ok_inv in Hr as ([w|] & _ & Hr); [|by injection Hr as <- <-].
    destruct (negb _); by injection Hr as <- <-. }
  rewrite <- E1. destruct (negb _); [done|].
  apply bind_Ok_inv in H as (l2 & H2 & H). apply bind_Ok_inv in H as (l3 & H3 & H). apply bind_Ok_inv in H as (l4 & H4 & H).
  injection H as <-. apply Happ in H2. assert (zlen (l_pool l3) = zlen (l_pool l2) + n) as E3.
  { destruct (Z.eqb_spec n 0) as [->|]; [injection H3 as <-; lia|by apply Happ in H3]. }
  unfold rr_append in H4. destruct (_ <? _); [|done]. injection H4 as <-. cbn [l_pool]. lia.
Qed.

(** ** What the child's answer becomes *)

(** Record [r] of the parent comes from record [c] of the child. *)
Definition dns64_from (pfx : elpis_prefix_t) (c r : trec) : Prop :=
  r_section c = ELPIS_SEC_ANSWER ∧ r_section r = ELPIS_SEC_ANSWER ∧ r_name r = r_name c ∧
  r_klass r = r_klass c ∧ r_ttl r = r_ttl c ∧
  ((r_type c = ELPIS_T_CNAME ∧ r_type r = ELPIS_T_CNAME ∧ r_rdata r = r_rdata c) ∨
   (r_type c = ELPIS_T_A ∧ zlen (r_rdata c) = 4 ∧ r_type r = ELPIS_T_AAAA ∧
    elpis_dns64_embed pfx (r_rdata c) = Ok (r_rdata r))).

Definition is_a (c : trec) : Prop :=
  r_section c = ELPIS_SEC_ANSWER ∧ r_type c = ELPIS_T_A ∧ zlen (r_rdata c) = 4.
#[export] Instance is_a_dec c : Decision (is_a c).
Proof. unfold is_a. apply _. Defined.

Definition rec_ok (c : trec) : Prop := bytes (r_rdata c) ∧ zlen (r_rdata c) < 65536.

(** Octets that the records made of these take at most. *)
Definition space (cs : list trec) : Z :=
  foldr (fun c n => zlen (wire (r_name c)) + zlen (r_rdata c) + 16 + n) 0 cs.

Section loop.
Context (alloc : Z → bool) (pfx : elpis_prefix_t) (cl : elpis_rrlist_t) (cs : list trec).
Hypotheses (Hcl : holds cl cs) (Hok : Forall rec_ok cs).
Hypotheses (Hp : wf_prefix pfx) (Hv6 : px_v6 pfx = true) (Hbits : dns64_bits (px_bits pfx)).

(** What an add of a record made of [c] does to the parent's answer. *)
Lemma add_step ans rs c type rdata rd' :
  holds ans rs → labels_ok (r_name c) → zlen rdata < 65536 → rds rd' 0 (zlen rdata) = Ok rdata →
  ∃ ans' new rc, elpis_rrlist_add alloc ans ELPIS_SEC_ANSWER (name_of (r_name c)) type (r_klass c) (r_ttl c) rd' (zlen rdata)
      = Ok (ans', rc) ∧ holds ans' (rs ++ new) ∧
    Forall (fun r => r_section r = ELPIS_SEC_ANSWER ∧ r_name r = r_name c ∧ r_klass r = r_klass c ∧ r_ttl r = r_ttl c ∧
                     r_type r = type ∧ r_rdata r = rdata) new ∧ zlen new <= 1 ∧
    zlen (l_pool ans') <= zlen (l_pool ans) + zlen (wire (r_name c)) + zlen rdata ∧
    ((∀ k, alloc k = true) → zlen rs < RRLIST_RR_MAX →
     zlen (l_pool ans) + zlen (wire (r_name c)) + zlen rdata <= RRLIST_POOL_MAX → new ≠ []).
Proof.
  intros Hh Hls Hn Hrd. rewrite (rrlist_add_ext alloc ans _ _ _ _ _ rd' rdata) by (rewrite Hrd; symmetry; by apply rds_full).
  destruct (rrlist_add_spec alloc ans rs ELPIS_SEC_ANSWER (r_name c) type (r_klass c) (r_ttl c) rdata Hh Hls Hn)
    as (ans' & rc & Ea & Hgood & Hbad & Hiff).
  pose proof (zlen_nonneg rdata). pose proof (zlen_wire_pos (r_name c)).
  destruct (decide (rc = ELPIS_OK)) as [->|Hrc].
  - exists ans', [new_rec ans ELPIS_SEC_ANSWER (r_name c) type (r_klass c) (r_ttl c) rdata], ELPIS_OK.
    split; [done|]. split; [by apply Hgood|]. split; [by constructor|]. split; [done|].
    apply rrlist_add_pool in Ea. rewrite n_len_of in Ea. split; [lia|done].
  - exists ans', [], rc. destruct (Hbad Hrc) as (_ & Hh' & Epool & _). split; [done|]. rewrite app_nil_r.
    split; [done|]. split; [constructor|]. split; [done|]. rewrite Epool. split; [lia|].
    intros Ha Hr Hs. exfalso. apply Hrc, (Hiff Ha). done.
Qed.

Lemma child_loop_spec es : ∀ i ans rs synth done_cs todo,
  cs = done_cs ++ todo → i = zlen done_cs → Forall2 (stands_for (l_pool cl)) es todo →
  holds ans rs → 0 <= synth → synth + zlen todo < 2 ^ 32 →
  ∃ ans' new synth', child_loop alloc pfx cl es i ans synth = Ok (ans', synth') ∧
    holds ans' (rs ++ new) ∧ synth' = synth + zlen (filter is_a todo) ∧
    Forall (fun r => Exists (fun c => dns64_from pfx c r) todo ∧
      (r_type r = ELPIS_T_CNAME → ¬ Exists (matches (r_name r) ELPIS_T_CNAME (r_rdata r)) rs)) new ∧
    ((∀ k, alloc k = true) → zlen rs + zlen todo <= RRLIST_RR_MAX →
     zlen (l_pool ans) + space todo <= RRLIST_POOL_MAX →
     Forall (fun c => is_a c → Exists (dns64_from pfx c) new) todo).
Proof using Hcl Hok Hp Hv6 Hbits.
  induction es as [|e es IH]; intros i ans rs synth dcs todo Ecs Ei Hall Hans Hs0 Hs; apply Forall2_length in Hall as Hlen;
    destruct todo as [|c todo]; [|done|done|]; cbn [child_loop].
  { exists ans, [], synth. rewrite app_nil_r. split; [done|]. split; [done|]. split; [rewrite filter_nil, (@zlen_nil trec); lia|]. split; [constructor|]. intros; constructor. }
  apply Forall2_cons_1 in Hall as [He Hall]. rewrite zlen_cons in Hs. pose proof (zlen_nonneg todo).
  assert (cs = (dcs ++ [c]) ++ todo) as Ecs' by (by rewrite <- app_assoc).
  assert (i + 1 = zlen (dcs ++ [c])) as Ei' by (rewrite zlen_app, zlen_cons, zlen_nil; lia).
  destruct He as (Hls & Enl & Erl & Enm & Erd & Ety & Ekl & Ettl & Esec & _).
  assert (rec_ok c) as [Hcb Hcl'] by (rewrite Ecs in Hok; apply Forall_app in Hok as [_ Hok']; by apply Forall_cons_1 in Hok' as [? _]).
  (* a record that adds nothing *)
  assert (∀ (Hna : ¬ is_a c), ∃ ans' new synth', child_loop alloc pfx cl es (i + 1) ans synth = Ok (ans', synth') ∧
    holds ans' (rs ++ new) ∧ synth' = synth + zlen (filter is_a (c :: todo)) ∧
    Forall (fun r => Exists (fun c => dns64_from pfx c r) (c :: todo) ∧
      (r_type r = ELPIS_T_CNAME → ¬ Exists (matches (r_name r) ELPIS_T_CNAME (r_rdata r)) rs)) new ∧
    ((∀ k, alloc k = true) → zlen rs + zlen (c :: todo) <= RRLIST_RR_MAX →
     zlen (l_pool ans) + space (c :: todo) <= RRLIST_POOL_MAX →
     Forall (fun c => is_a c → Exists (dns64_from pfx c) new) (c :: todo))) as Hskip.
  { intros Hna. destruct (IH (i + 1) ans rs synth _ todo Ecs' Ei' Hall Hans Hs0 ltac:(lia)) as (ans' & new & s' & E & Hh & -> & Hf & Hc).
    exists ans', new, (synth + zlen (filter is_a todo)). split; [done|]. split; [done|]. rewrite filter_cons_False by done. split; [done|].
    split; [eapply Forall_impl; [|exact Hf]; intros r [? ?]; split; [by apply Exists_cons; right|done]|].
    intros Ha Hr Hsp. constructor; [done|]. cbn [space foldr] in Hsp. fold (space todo) in Hsp. rewrite zlen_cons in Hr.
    pose proof (zlen_nonneg (r_rdata c)). pose proof (zlen_wire_pos (r_name c)). apply Hc; [done|lia|lia]. }
  rewrite Esec. destruct (Z.eqb_spec (r_section c) ELPIS_SEC_ANSWER) as [Hsec|Hsec]; cbn [negb]; [|apply Hskip; by intros (? & _)].
  rewrite (trr_get_name_spec cl cs i c Hcl) by (first [pose proof (zlen_nonneg dcs); lia|
    rewrite Ecs, Ei; unfold zlen; rewrite Nat2Z.id, lookup_app_r, Nat.sub_diag by lia; done]).
  cbn [try]. bind_step. rewrite Ety, Ekl, Ettl, Erl. rewrite Erl in Erd. apply rds_at in Erd. fold (elpis_trr_rd cl e) in Erd.
  (* a record that is added *)
  assert (∀ type rdata rd', rds rd' 0 (zlen rdata) = Ok rdata → zlen rdata <= zlen (r_rdata c) + 16 → zlen rdata < 65536 →
    (∀ r, r_section r = ELPIS_SEC_ANSWER → r_name r = r_name c → r_klass r = r_klass c → r_ttl r = r_ttl c →
       r_type r = type → r_rdata r = rdata → dns64_from pfx c r) →
    (type = ELPIS_T_CNAME → ¬ Exists (matches (r_name c) ELPIS_T_CNAME rdata) rs) →
    ∀ d, 0 <= d → synth + d + zlen todo < 2 ^ 32 → d + zlen (filter is_a todo) = zlen (filter is_a (c :: todo)) →
    ∃ ans' new synth', ('(ans, _) ← elpis_rrlist_add alloc ans ELPIS_SEC_ANSWER (name_of (r_name c)) type (r_klass c) (r_ttl c) rd' (zlen rdata);
        child_loop alloc pfx cl es (i + 1) ans (synth + d)) = Ok (ans', synth') ∧
    holds ans' (rs ++ new) ∧ synth' = synth + zlen (filter is_a (c :: todo)) ∧
    Forall (fun r => Exists (fun c => dns64_from pfx c r) (c :: todo) ∧
      (r_type r = ELPIS_T_CNAME → ¬ Exists (matches (r_name r) ELPIS_T_CNAME (r_rdata r)) rs)) new ∧
    ((∀ k, alloc k = true) → zlen rs + zlen (c :: todo) <= RRLIST_RR_MAX →
     zlen (l_pool ans) + space (c :: todo) <= RRLIST_POOL_MAX →
     Forall (fun c => is_a c → Exists (dns64_from pfx c) new) (c :: todo))) as Hadd.
  { intros type rdata rd' Hrd Hle Hlt Hfrom Hcn d Hd Hds Hcount.
    destruct (add_step ans rs c type rdata rd' Hans Hls Hlt Hrd) as (ans1 & new1 & rc & -> & Hh1 & Hn1 & Hl1 & Hp1 & Hc1). bind_step.
    destruct (IH (i + 1) ans1 (rs ++ new1) (synth + d) _ todo Ecs' Ei' Hall Hh1 ltac:(lia) ltac:(lia)) as (ans2 & new2 & s2 & -> & Hh2 & -> & Hf2 & Hc2).
    exists ans2, (new1 ++ new2), (synth + d + zlen (filter is_a todo)). split; [done|]. rewrite app_assoc. split; [done|]. split; [lia|]. split.
    - apply Forall_app. split; (eapply Forall_impl; [|eassumption]).
      + intros r (R1 & R2 & R3 & R4 & R5 & R6). split; [apply Exists_cons; left; by apply Hfrom|]. rewrite R2, R5, R6. done.
      + intros r [? Hno]. split; [by apply Exists_cons; right|]. intros Hr Hex. apply Hno; [done|]. apply Exists_app. by left.
    - intros Ha Hr Hsp. cbn [space foldr] in Hsp. fold (space todo) in Hsp. rewrite zlen_cons in Hr.
      pose proof (zlen_wire_pos (r_name c)). assert (0 <= space todo).
      { clear. induction todo as [|x t IHt]; cbn; [lia|]. fold (space t). pose proof (zlen_nonneg (r_rdata x)). pose proof (zlen_wire_pos (r_name x)). lia. }
      constructor.
      + intros _. destruct new1 as [|r1 new1]; [exfalso; apply Hc1; [done|lia|lia|done]|]. cbn [app]. apply Exists_cons. left.
        apply Forall_cons_1 in Hn1 as [(R1 & R2 & R3 & R4 & R5 & R6) _]. by apply Hfrom.
      + eapply Forall_impl; [|apply Hc2; [done|rewrite zlen_app; lia|lia]]. intros x Hx Hax. apply Exists_app. right. by apply Hx. }
  destruct (Z.eqb_spec (r_type c) ELPIS_T_CNAME) as [Hcn|Hcn].
  - assert (¬ is_a c) as Hna by (intros (_ & E & _); rewrite E in Hcn; done).
    unfold elpis_rrlist_has. rewrite (has_loop_ext _ _ _ _ (elpis_trr_rd cl e) (r_rdata c)) by (rewrite Erd; symmetry; by apply rds_full).
    destruct (rrlist_has_spec ans rs (r_name c) (r_type c) (r_rdata c) Hans Hls) as (b & Eb & Hb). unfold elpis_rrlist_has in Eb. rewrite Eb.
    bind_step. destruct b; [by apply Hskip|].
    pose proof (fun F1 F2 => Hadd (r_type c) (r_rdata c) (elpis_trr_rd cl e) Erd ltac:(lia) Hcl' F1 F2 0
      ltac:(lia) ltac:(lia) ltac:(by rewrite filter_cons_False)) as H0. rewrite Z.add_0_r in H0. apply H0.
    + intros r ? ? ? ? Er ?. unfold dns64_from. split_and!; try done. left. split_and!; [done|congruence|done].
    + intros _ Hex. rewrite Hcn in Hb. by apply Hb in Hex.
  - destruct (Z.eqb_spec (r_type c) ELPIS_T_A) as [Ha|Ha]; cbn [negb orb]; [|apply Hskip; by intros (_ & ? & _)].
    destruct (Z.eqb_spec (zlen (r_rdata c)) 4) as [H4|H4]; cbn [negb]; [|apply Hskip; by intros (_ & _ & ?)].
    rewrite H4 in Erd. rewrite (embed_reads pfx _ _ Erd).
    destruct (embed_spec pfx (r_rdata c) Hp Hv6 Hbits Hcb H4) as (v6 & Ev & Hl6 & _). rewrite Ev. bind_step.
    rewrite u32_id by lia.
    pose proof (fun F1 F2 F3 => Hadd ELPIS_T_AAAA v6 v6 (rds_full v6 _ eq_refl) ltac:(lia) ltac:(lia) F1 F2 1 ltac:(lia) ltac:(lia) F3) as H0.
    rewrite Hl6 in H0. apply H0; [|done|].
    + intros r ? ? ? ? Er Erdata. unfold dns64_from. split_and!; try done. right. split_and!; try done. by rewrite Erdata.
    + rewrite filter_cons_True by done. rewrite zlen_cons. lia.
Qed.
End loop.

Lemma holds_count l rs : holds l rs → zlen rs <= 512.
Proof.
  intros (Hall & Hn & Hcap & _). apply Forall2_length in Hall.
  apply cap_ok_max in Hcap; [|done]. unfold RRLIST_RR_MAX in *. zl.
Qed.

Lemma filter_none {A} (P : A → Prop) `{∀ x, Decision (P x)} l : zlen (filter P l) = 0 → Forall (fun x => ¬ P x) l.
Proof.
  induction l as [|x l IH]; intros Hz; [constructor|]. rewrite filter_cons in Hz. destruct (decide (P x)).
  - rewrite zlen_cons in Hz. pose proof (zlen_nonneg (filter P l)). lia.
  - constructor; [done|by apply IH].
Qed.

Lemma dns64_child_done_spec alloc c child p rs cs :
  holds (k_ans p) rs → holds (k_ans child) cs → Forall rec_ok cs →
  wf_prefix (dns64_prefix c) → px_v6 (dns64_prefix c) = true → dns64_bits (px_bits (dns64_prefix c)) →
  ∃ p' new, dns64_child_done alloc c child (Some p)
      = Ok (Some p', bool_decide (k_state p = ELPIS_TS_WAIT)) ∧
    holds (k_ans p') (rs ++ new) ∧
    (k_rcode child ≠ ELPIS_RC_NOERROR → new = []) ∧
    Forall (fun r => Exists (fun x => dns64_from (dns64_prefix c) x r) cs ∧
      (r_type r = ELPIS_T_CNAME → ¬ Exists (matches (r_name r) ELPIS_T_CNAME (r_rdata r)) rs)) new ∧
    (Exists (fun r => r_type r = ELPIS_T_AAAA) new → k_sec p' = ELPIS_SEC_INSECURE ∧ k_dns64_synth p' = true) ∧
    (k_rcode child = ELPIS_RC_NOERROR → (∀ k, alloc k = true) → zlen rs + zlen cs <= RRLIST_RR_MAX →
     zlen (l_pool (k_ans p)) + space cs <= RRLIST_POOL_MAX →
     Forall (fun x => is_a x → Exists (dns64_from (dns64_prefix c) x) new) cs).
Proof.
  intros Hp Hc Hok Hpfx Hv6 Hbits. unfold dns64_child_done. pose proof (holds_count _ _ Hc) as Hn.
  assert (match k_state p with ELPIS_TS_WAIT => true | _ => false end = bool_decide (k_state p = ELPIS_TS_WAIT)) as ->
    by (case_bool_decide as E; [by rewrite E|by destruct (k_state p)]).
  destruct (Z.eqb_spec (k_rcode child) ELPIS_RC_NOERROR) as [Hrc|Hrc].
  - destruct (child_loop_spec alloc (dns64_prefix c) (k_ans child) cs Hc Hok Hpfx Hv6 Hbits (l_rr (k_ans child)) 0 (k_ans p) rs 0 [] cs)
      as (ans & new & synth & -> & Hh & -> & Hf & Hcomp); [done|done|by destruct Hc|done|lia|lia|]. bind_step.
    eexists _, new. split; [done|]. cbn [k_ans k_sec k_dns64_synth]. split; [done|]. split; [done|]. split; [done|]. split; [|done].
    intros Hex. assert (zlen (filter is_a cs) ≠ 0) as Hne.
    { intros Hz. apply filter_none in Hz. apply Exists_exists in Hex as (r & Hr & Et). apply list_elem_of_In in Hr.
      apply (Forall_elem _ _ _ Hf) in Hr as [Hex _]. apply Exists_exists in Hex as (x & Hx & Hsec & _ & _ & _ & _ & [(_ & Hcn & _)|(Ha & H4 & _)]).
      + rewrite Et in Hcn. done.
      + apply list_elem_of_In, (Forall_elem _ _ _ Hz) in Hx. by apply Hx. }
    rewrite Z.add_0_l. destruct (Z.eqb_spec (zlen (filter is_a cs)) 0); [done|]. done.
  - bind_step. eexists _, []. split; [done|]. cbn [k_ans]. rewrite app_nil_r. split; [done|]. split; [done|].
    split; [constructor|]. split; [|done]. intros Hex. by apply Exists_nil in Hex.
Qed.

(** ** What is taken out of an answer *)

(** What [strip_a] drops: A records, and signatures over A. *)
Definition stripped (r : trec) : Prop :=
  r_section r = ELPIS_SEC_ANSWER ∧
  (r_type r = ELPIS_T_A ∨ (r_type r = ELPIS_T_RRSIG ∧ take 2 (r_rdata r) = [0; 1])).
#[export] Instance stripped_dec r : Decision (stripped r).
Proof. unfold stripped. apply _. Defined.

(** The prefix covers the address. *)
Definition covers6 (ip : list Z) (p : elpis_prefix_t) : Prop :=
  px_v6 p = true ∧ Forall (fun k => addr_bit ip k = addr_bit (px_ip p) k) (seqZ 0 (px_bits p)).
#[export] Instance covers6_dec ip p : Decision (covers6 ip p).
Proof. unfold covers6. apply _. Defined.

Definition ignored_aaaa (c : dns64_conf_t) (r : trec) : Prop :=
  r_section r = ELPIS_SEC_ANSWER ∧ r_type r = ELPIS_T_AAAA ∧ zlen (r_rdata r) = 16 ∧
  Exists (covers6 (r_rdata r)) (dns64_ignore_aaaa c).
#[export] Instance ignored_aaaa_dec c r : Decision (ignored_aaaa c r).
Proof. unfold ignored_aaaa. apply _. Defined.

Lemma keep_loop_spec l rs drop (P : trec → Prop) `{∀ r, Decision (P r)} :
  holds l rs →
  (∀ e r, r ∈ rs → stands_for (l_pool l) e r → ∃ b, drop e = Ok b ∧ (b = true ↔ P r)) →
  ∃ out, keep_loop drop (l_rr l) = Ok out ∧ holds (set_rr l out) (filter (fun r => ¬ P r) rs).
Proof.
  intros (Hall & Hn & Hrest) Hd.
  assert (∀ es todo, Forall2 (stands_for (l_pool l)) es todo → (∀ r, r ∈ todo → r ∈ rs) →
    ∃ out, keep_loop drop es = Ok out ∧ Forall2 (stands_for (l_pool l)) out (filter (fun r => ¬ P r) todo) ∧ zlen out <= zlen es) as Hk.
  { induction 1 as [|e r es todo He _ IH]; intros Hin; cbn [keep_loop]; [exists []; split; [done|]; split; [constructor|lia]|].
    destruct (Hd e r) as (b & -> & Hb); [apply Hin; by left|done|]. bind_step.
    destruct IH as (out & -> & Ho & Hlen); [intros; apply Hin; by right|]. bind_step.
    exists (if b then out else e :: out). split; [done|]. rewrite filter_cons, zlen_cons. destruct b.
    - rewrite decide_False by (intros Hn'; by apply Hn', Hb). split; [done|lia].
    - rewrite decide_True by (by rewrite <- Hb). split; [by constructor|rewrite zlen_cons; lia]. }
  destruct (Hk _ _ Hall ltac:(done)) as (out & -> & Ho & Hlen). exists out. split; [done|]. split; [done|].
  cbn [set_rr l_rr l_cap l_pool l_pcap]. split; [lia|done].
Qed.

Lemma drops_a_spec l e r :
  stands_for (l_pool l) e r → rec_ok r → ∃ b, drops_a l e = Ok b ∧ (b = true ↔ stripped r).
Proof.
  intros (_ & _ & Erl & _ & Erd & Ety & _ & _ & Esec & _) [Hb _]. unfold drops_a, stripped. rewrite Esec, Ety.
  destruct (Z.eqb_spec (r_section r) ELPIS_SEC_ANSWER); [|exists false; split; [done|]; split; [done|by intros [? _]]].
  destruct (Z.eqb_spec (r_type r) ELPIS_T_A) as [|Hna]; [exists true; split; [done|]; split; [by split; [|left]|done]|].
  destruct (Z.eqb_spec (r_type r) ELPIS_T_RRSIG) as [|Hns]; cbn [andb];
    [|exists false; split; [done|]; split; [done|intros [_ [?|[? _]]]; done]].
  rewrite Erl. destruct (Z.leb_spec 2 (zlen (r_rdata r))) as [H2|H2].
  2:{ exists false. split; [done|]. split; [done|]. intros [_ [?|[_ E]]]; [done|]. apply (f_equal length) in E. rewrite length_take in E. change (length [0; 1]) with 2%nat in E. zl. }
  destruct (r_rdata r) as [|x [|y k]] eqn:Er; [rewrite (@zlen_nil Z) in H2; lia|rewrite zlen_cons, (@zlen_nil Z) in H2; lia|].
  apply Forall_cons_1 in Hb as [Hx Hb]. apply Forall_cons_1 in Hb as [Hy _].
  apply rds_at in Erd. fold (elpis_trr_rd l e) in Erd. apply rds_Ok_inv in Erd as (_ & _ & Hlen & Hsl). rewrite Erl in *.
  assert (∃ k', elpis_trr_rd l e = x :: y :: k') as (k' & ->).
  { destruct (elpis_trr_rd l e) as [|x' [|y' k']]; [pose proof (zlen_nonneg k); rewrite !zlen_cons, (@zlen_nil Z) in Hlen; lia| |].
    - rewrite !zlen_cons, (@zlen_nil Z) in Hlen. pose proof (zlen_nonneg k). lia.
    - exists k'. unfold slice in Hsl. rewrite drop_0 in Hsl. replace (Z.to_nat (zlen (x :: y :: k))) with (S (S (length k))) in Hsl by zl.
      cbn [take] in Hsl. by injection Hsl as -> -> _. }
  rewrite (get16_value (x :: y :: k') 0 x y) by done. bind_step. eexists. split; [done|]. unfold be2, byte, ELPIS_T_A in *.
  rewrite Z.eqb_eq. cbn [take]. split; [intros; split; [done|]; right; split; [done|]; f_equal; [lia|]; f_equal; lia|].
  intros [_ [?|[_ [= -> ->]]]]; [done|lia].
Qed.

Lemma ignored_spec ps ip : Forall wf_prefix ps → bytes ip → zlen ip = 16 →
  ∃ b, ignored ps (elpis_addr_from6 ip 0) = Ok b ∧ (b = true ↔ Exists (covers6 ip) ps).
Proof.
  intros Hps Hb Hl. induction Hps as [|p ps Hp _ IH]; cbn [ignored]; [exists false; split; [done|]; by rewrite Exists_nil|].
  destruct (prefix_match_spec p (Addr6 ip 0) Hp) as (b & Hm & Hiff); [by split; [|split; [|lia]]|].
  unfold elpis_addr_from6. rewrite Hm. bind_step. cbn [same_family addr_ip] in Hiff.
  assert (b = true ↔ covers6 ip p) as Hcov.
  { rewrite Hiff. unfold covers6. rewrite Forall_forall. split; intros [? H]; (split; [done|]); intros k Hk; apply H.
    - apply list_elem_of_In, elem_of_seqZ in Hk. lia.
    - apply list_elem_of_In, elem_of_seqZ. lia. }
  destruct b; [exists true; split; [done|]; rewrite Exists_cons; split; [intros _; left; by apply Hcov|done]|].
  destruct IH as (b' & Eb & Hb'). unfold elpis_addr_from6 in Eb. rewrite Eb. exists b'. split; [done|]. rewrite Exists_cons, Hb'.
  split; [by right|]. intros [Hc|]; [by apply Hcov in Hc|done].
Qed.

Lemma drops_aaaa_spec c l e r :
  Forall wf_prefix (dns64_ignore_aaaa c) → stands_for (l_pool l) e r → rec_ok r →
  ∃ b, drops_aaaa c l e = Ok b ∧ (b = true ↔ ignored_aaaa c r).
Proof.
  intros Hps (_ & _ & Erl & _ & Erd & Ety & _ & _ & Esec & _) [Hb _]. unfold drops_aaaa, ignored_aaaa. rewrite Esec, Ety, Erl.
  destruct (Z.eqb_spec (r_section r) ELPIS_SEC_ANSWER); cbn [andb]; [|exists false; split; [done|]; split; [done|by intros [? _]]].
  destruct (Z.eqb_spec (r_type r) ELPIS_T_AAAA); cbn [andb]; [|exists false; split; [done|]; split; [done|by intros (_ & ? & _)]].
  destruct (Z.eqb_spec (zlen (r_rdata r)) 16) as [H16|]; cbn [andb]; [|exists false; split; [done|]; split; [done|by intros (_ & _ & ? & _)]].
  apply rds_at in Erd. rewrite Erl, H16 in Erd. fold (elpis_trr_rd l e) in Erd. rewrite Erd. bind_step.
  destruct (ignored_spec (dns64_ignore_aaaa c) (r_rdata r) Hps Hb H16) as (b & -> & Hiff). exists b. split; [done|]. rewrite Hiff. tauto.
Qed.

Lemma filter_loses {A} (P : A → Prop) `{∀ x, Decision (P x)} l :
  Exists P l → zlen (filter (fun x => ¬ P x) l) < zlen l.
Proof.
  induction 1 as [x l Hx|x l _ IH].
  - rewrite filter_cons_False by (by intros ?). pose proof (length_filter (fun x => ¬ P x) l). zl.
  - rewrite filter_cons. destruct (decide _); zl.
Qed.

Lemma filter_all {A} (P : A → Prop) `{∀ x, Decision (P x)} l : Forall P l → filter P l = l.
Proof. induction 1 as [|x l Hx _ IH]; [done|]. by rewrite filter_cons_True, IH. Qed.

Lemma Forall_not_Exists {A} (P : A → Prop) l : ¬ Exists P l → Forall (fun x => ¬ P x) l.
Proof. induction l as [|x l IH]; [constructor|]. rewrite Exists_cons. intros Hn. constructor; tauto. Qed.

Lemma strip_a_spec t rs :
  holds (k_ans t) rs → Forall rec_ok rs →
  ∃ t', strip_a t = Ok t' ∧ holds (k_ans t') (filter (fun r => ¬ stripped r) rs) ∧
    (k_sec t = ELPIS_SEC_SECURE → k_sec t' = if decide (Exists stripped rs) then ELPIS_SEC_INSECURE else ELPIS_SEC_SECURE) ∧
    (k_sec t ≠ ELPIS_SEC_SECURE → k_sec t' = k_sec t).
Proof.
  intros Hh Hok. unfold strip_a.
  destruct (keep_loop_spec (k_ans t) rs (drops_a (k_ans t)) stripped Hh) as (out & -> & Ho).
  { intros e r Hr Hs. apply drops_a_spec; [done|by apply (Forall_elem _ _ _ Hok)]. }
  bind_step. eexists. split; [done|]. cbn [set_ans k_ans k_sec]. split; [done|].
  assert (zlen (l_rr (k_ans t)) = zlen rs ∧ zlen out = zlen (filter (fun r => ¬ stripped r) rs)) as [-> ->].
  { destruct Hh as [Ha _], Ho as [Hb _]. apply Forall2_length in Ha, Hb. cbn [set_rr l_rr] in Hb. zl. }
  split; intros E.
  - rewrite (bool_decide_true _ E), andb_true_r. destruct (decide (Exists stripped rs)) as [Hex|Hno].
    + pose proof (filter_loses stripped rs Hex). by ztrue (0 <? zlen rs - zlen (filter (fun r => ¬ stripped r) rs)).
    + rewrite (filter_all (fun r => ¬ stripped r)), Z.sub_diag by (by apply Forall_not_Exists). done.
  - rewrite (bool_decide_false _ E), andb_false_r. done.
Qed.

(** ** Properties *)

(** An address embedded in a prefix of a length the configuration accepts lies
    in the prefix and is read back from the octets RFC 6052 says, and octet 8
    is zero where the address straddles it; nothing is written outside the
    sixteen octets. *)
Theorem dns64_embed_rfc6052 (p : elpis_prefix_t) (v4 : list Z) :
  wf_prefix p → px_v6 p = true → dns64_bits (px_bits p) → bytes v4 → zlen v4 = 4 →
  ∃ out, elpis_dns64_embed p v4 = Ok out ∧ zlen out = 16 ∧ bytes out ∧
    dns64_extract (px_bits p) out = v4 ∧
    (∀ port, elpis_prefix_match p (Addr6 out port) = Ok true) ∧
    (40 <= px_bits p <= 64 → out !! 8%nat = Some 0).
Proof. apply embed_spec. Qed.

(** The well-known prefix 64:ff9b::/96. *)
Definition ex_prefix : elpis_prefix_t := mkPrefix [0; 100; 255; 155; 0;0;0;0; 0;0;0;0; 0;0;0;0] 96 true.

Lemma dns64_embed_rfc6052_witness :
  ∃ out, elpis_dns64_embed ex_prefix [192; 0; 2; 33] = Ok out ∧ zlen out = 16 ∧ bytes out ∧
    dns64_extract 96 out = [192; 0; 2; 33] ∧
    (∀ port, elpis_prefix_match ex_prefix (Addr6 out port) = Ok true) ∧ (40 <= 96 <= 64 → out !! 8%nat = Some 0).
Proof. apply (dns64_embed_rfc6052 ex_prefix [192; 0; 2; 33]); by_compute. Defined.

(** C37. When the A lookup is done, the records the AAAA answer gains are CNAMEs of
    the child it did not have and AAAA records made of the child's A records,
    with their owner, class and TTL; none when the child failed.  An answer
    with a made record is insecure, never secure.  With memory and room, every
    A record has its AAAA.  The parent that waits is run again. *)
Theorem dns64_child_done_sound (alloc : Z → bool) (c : dns64_conf_t) (child p : elpis_task_t) (rs cs : list trec) :
  holds (k_ans p) rs → holds (k_ans child) cs → Forall rec_ok cs →
  wf_prefix (dns64_prefix c) → px_v6 (dns64_prefix c) = true → dns64_bits (px_bits (dns64_prefix c)) →
  ∃ p' new, dns64_child_done alloc c child (Some p)
      = Ok (Some p', bool_decide (k_state p = ELPIS_TS_WAIT)) ∧
    holds (k_ans p') (rs ++ new) ∧
    (k_rcode child ≠ ELPIS_RC_NOERROR → new = []) ∧
    Forall (fun r => Exists (fun x => dns64_from (dns64_prefix c) x r) cs ∧
      (r_type r = ELPIS_T_CNAME → ¬ Exists (matches (r_name r) ELPIS_T_CNAME (r_rdata r)) rs)) new ∧
    (Exists (fun r => r_type r = ELPIS_T_AAAA) new → k_sec p' = ELPIS_SEC_INSECURE ∧ k_dns64_synth p' = true) ∧
    (k_rcode child = ELPIS_RC_NOERROR → (∀ k, alloc k = true) → zlen rs + zlen cs <= RRLIST_RR_MAX →
     zlen (l_pool (k_ans p)) + space cs <= RRLIST_POOL_MAX →
     Forall (fun x => is_a x → Exists (dns64_from (dns64_prefix c) x) new) cs).
Proof. apply dns64_child_done_spec. Qed.

Definition ex_conf : dns64_conf_t :=
  mkD64conf true false true ex_prefix [mkPrefix [0;0;0;0;0;0;0;0;0;0;255;255;0;0;0;0] 96 true].
Definition ex_task (qtype : Z) (ans : elpis_rrlist_t) (sec : elpis_sec_t) : elpis_task_t :=
  mkTask false qtype 1 0 true false false ans sec false false 0 false 1 ELPIS_TS_WAIT 0.
Definition ex_a : elpis_rrlist_t := mkRrlist [mkTrr 0 5 60 1 1 4 5 0 0 0] 16 [1;119;1;99;0;10;0;0;1] 512 0 0.
Definition ex_a_rec : trec := mkTrec [[119];[99]] 1 1 60 [10;0;0;1] 0 0 0.

Lemma ex_a_holds : holds ex_a [ex_a_rec].
Proof.
  split.
  - constructor; [|constructor]. unfold stands_for. split; [by_compute|]. split_and!; by vm_compute.
  - cbn. split; [by vm_compute|]. split; [right; exists 0; by vm_compute|].
    split; [by vm_compute|]. right. exists 0. by vm_compute.
Qed.

Lemma dns64_child_done_sound_witness :
  ∃ p' new, dns64_child_done (fun _ => true) ex_conf (ex_task 1 ex_a ELPIS_SEC_SECURE)
      (Some (ex_task 28 elpis_rrlist_init ELPIS_SEC_SECURE)) = Ok (Some p', true) ∧
    holds (k_ans p') ([] ++ new) ∧ Forall (fun x => is_a x → Exists (dns64_from ex_prefix x) new) [ex_a_rec].
Proof.
  destruct (dns64_child_done_sound (fun _ => true) ex_conf (ex_task 1 ex_a ELPIS_SEC_SECURE)
    (ex_task 28 elpis_rrlist_init ELPIS_SEC_SECURE) [] [ex_a_rec]) as (p' & new & E & Hh & _ & _ & _ & Hc);
    [exact holds_init|exact ex_a_holds|by repeat constructor|by_compute|reflexivity|by_compute|].
  exists p', new. split; [exact E|]. split; [exact Hh|]. by apply Hc.
Defined.

(** On the way out an answer keeps, in order, every record but those the
    client is not to see: under dns64-strip-a the A records of an A or ANY
    answer and the signatures over them, and AAAA records in the ignored
    ranges.  A secure answer that loses A records is insecure. *)
Theorem dns64_apply_filters (c : dns64_conf_t) (t : elpis_task_t) (rs : list trec) :
  holds (k_ans t) rs → Forall rec_ok rs → Forall wf_prefix (dns64_ignore_aaaa c) →
  let strips := k_has_client t && elpis_dns64_strips c (k_orig_qtype t) (k_client_do t) (k_client_cd t) in
  ∃ t', elpis_dns64_apply c t = Ok t' ∧
    holds (k_ans t') (filter (fun r => ¬ ignored_aaaa c r) (if strips then filter (fun r => ¬ stripped r) rs else rs)) ∧
    k_sec t' = if strips && bool_decide (Exists stripped rs) && bool_decide (k_sec t = ELPIS_SEC_SECURE)
               then ELPIS_SEC_INSECURE else k_sec t.
Proof.
  intros Hh Hok Hps strips. unfold elpis_dns64_apply. fold strips.
  assert (∃ t1, (if strips then strip_a t else Ok t) = Ok t1 ∧
    holds (k_ans t1) (if strips then filter (fun r => ¬ stripped r) rs else rs) ∧
    k_sec t1 = if strips && bool_decide (Exists stripped rs) && bool_decide (k_sec t = ELPIS_SEC_SECURE)
               then ELPIS_SEC_INSECURE else k_sec t) as (t1 & -> & Hh1 & Es).
  { destruct strips; [|by exists t]. destruct (strip_a_spec t rs Hh Hok) as (t1 & -> & Hh1 & Hs & Hn). exists t1.
    split; [done|]. split; [done|]. cbn [andb]. destruct (decide (k_sec t = ELPIS_SEC_SECURE)) as [E|E].
    - rewrite (Hs E), (bool_decide_true _ E), E, andb_true_r. by case_decide; [rewrite bool_decide_true|rewrite bool_decide_false].
    - by rewrite (Hn E), (bool_decide_false _ E), andb_false_r. }
  bind_step. set (rs1 := if strips then _ else rs) in *.
  assert (Forall rec_ok rs1) as Hok1 by (unfold rs1; destruct strips; [by apply Forall_filter|done]).
  destruct (Z.eqb_spec (zlen (dns64_ignore_aaaa c)) 0) as [E0|_].
  - exists t1. split; [done|]. split; [|done].
    rewrite filter_all; [done|]. apply Forall_not_Exists. intros Hex. apply Exists_exists in Hex as (r & _ & _ & _ & _ & Hi).
    destruct (dns64_ignore_aaaa c); [by apply Exists_nil in Hi|rewrite zlen_cons in E0; pose proof (zlen_nonneg l); lia].
  - destruct (keep_loop_spec (k_ans t1) rs1 (drops_aaaa c (k_ans t1)) (ignored_aaaa c) Hh1) as (out & -> & Ho).
    { intros e r Hr Hs. apply drops_aaaa_spec; [done|done|by apply (Forall_elem _ _ _ Hok1)]. }
    bind_step. eexists. split; [done|]. by split.
Qed.

Lemma dns64_apply_filters_witness :
  ∃ t', elpis_dns64_apply ex_conf (ex_task 1 ex_a ELPIS_SEC_SECURE) = Ok t' ∧
    holds (k_ans t') (filter (fun r => ¬ ignored_aaaa ex_conf r) (filter (fun r => ¬ stripped r) [ex_a_rec])) ∧
    k_sec t' = ELPIS_SEC_INSECURE.
Proof.
  apply (dns64_apply_filters ex_conf (ex_task 1 ex_a ELPIS_SEC_SECURE) [ex_a_rec]);
    [exact ex_a_holds|by repeat constructor|by repeat constructor].
Defined.

(** A name whose only AAAA lies in an ignored range gets no address at all:
    the AAAA keeps DNS64 from asking for A records and is then taken out, and
    the answer, no longer what the zone signed, stays secure. *)
Theorem dns64_ignored_not_replaced :
  ∃ c t t', has_type (k_ans t) ELPIS_T_AAAA = true ∧ k_sec t = ELPIS_SEC_SECURE ∧
    elpis_dns64_needed c t = false ∧ elpis_dns64_needed c (set_ans t elpis_rrlist_init (k_sec t)) = true ∧
    elpis_dns64_apply c t = Ok t' ∧ l_rr (k_ans t') = [] ∧ k_sec t' = ELPIS_SEC_SECURE.
Proof.
  exists ex_conf, (ex_task 28 (mkRrlist [mkTrr 0 5 60 28 1 16 5 0 0 0] 16
    ([1;119;1;99;0] ++ [0;0;0;0;0;0;0;0;0;0;255;255;10;0;0;1]) 512 0 0) ELPIS_SEC_SECURE).
  eexists. split; [reflexivity|]. split; [reflexivity|]. split; [reflexivity|]. split; [reflexivity|].
  split; [vm_compute; reflexivity|]. by split.
Qed.
