(* ===== verification/Dcache.v ===== *)
(** The delegation cache: src/cache/delegation.c and include/elpis/deleg.h, over
    the table of Cache.v.

    An entry is the object the code allocates: its fields and the area after
    them, which holds the folded zone name and the packed nameservers.  [mem] is
    elpis_malloc, as in Rcache.v; the cached clock is an argument.  A refresh of
    a pinned entry is claimed in two steps, the load of its time and the
    compare-and-swap, so that workers can come between each other. *)
From stdpp Require Import base list numbers gmap.
From Stdlib Require Import ZArith Lia.
From S2P Require Import Prelude Bytes Simd Name NameOps Edns Rnames Rrset Rrsig Group Cache Cachemap Rcache.

(** ** Data *)

Definition ELPIS_DELEG_MAX_NS : Z := 16.
Definition ELPIS_NS_MAX_A4 : Z := 4.
Definition ELPIS_NS_MAX_A6 : Z := 2.
Definition ELPIS_NSF_NOADDR : Z := 0x08.
Definition ELPIS_DS_UNKNOWN : Z := 0.
Definition ELPIS_DS_ABSENT : Z := 2.

(** The arrays [a4] and [a6] are lists of [n4] and [n6] addresses, [ns] one of
    [nns] servers. *)
Record elpis_nsrec_t := mkNsrec { ns_name : elpis_name_t; ns_flags : Z; ns_port : Z; ns_a4 : list (list Z); ns_a6 : list (list Z) }.
Record elpis_deleg_t := mkDeleg {
  d_zone : elpis_name_t; d_sec : elpis_sec_t; d_ds_state : Z; d_pinned : bool; d_ttl : Z; d_ns : list elpis_nsrec_t }.

Definition with_ns (d : elpis_deleg_t) (ns : list elpis_nsrec_t) : elpis_deleg_t :=
  mkDeleg (d_zone d) (d_sec d) (d_ds_state d) (d_pinned d) (d_ttl d) ns.

Record dent_t := mkDent {
  de_zonelen : Z; de_nns : Z; de_sec : elpis_sec_t; de_ds_state : Z; de_stored : Z; de_ttl : Z; de_datalen : Z; de_due : Z; de_area : list Z }.

Record dkey_t := mkDkey { dk_zone : elpis_name_t; dk_hash : Z }.

Definition dent_eq (e : dent_t) (k : dkey_t) : res bool :=
  if de_zonelen e =? n_len (dk_zone k) then elpis_eq_ci (de_area e) (n_d (dk_zone k)) (de_zonelen e) else Ok false.

Definition DKEY_SEED : Z := 0x7F4A7C15DEADBEEF.
Definition dkey_init (zone : elpis_name_t) : res dkey_t :=
  h ← elpis_simd_hash_ci (n_d zone) (n_len zone) DKEY_SEED; Ok (mkDkey zone h).

Definition dcache_t := elpis_cache dent_t.
Definition elpis_dcache_new (ok : bool) (bytes shards : Z) : option dcache_t := elpis_cache_new ok bytes shards.

(** ** Building a delegation *)

Fixpoint find_ns_loop (l : list elpis_nsrec_t) (ns : elpis_name_t) (i : Z) : res (option Z) :=
  match l with
  | [] => Ok None
  | r :: l => e ← elpis_name_eq (ns_name r) ns; if (e : bool) then Ok (Some i) else find_ns_loop l ns (i + 1)
  end.
Definition elpis_deleg_find_ns (d : elpis_deleg_t) (ns : elpis_name_t) : res (option Z) := find_ns_loop (d_ns d) ns 0.

Definition elpis_deleg_add_ns (d : elpis_deleg_t) (ns : elpis_name_t) : res elpis_deleg_t :=
  r ← elpis_deleg_find_ns d ns;
  match r with
  | Some _ => Ok d
  | None =>
    if ELPIS_DELEG_MAX_NS <=? zlen (d_ns d) then Ok d
    else n ← elpis_name_lower ns; Ok (with_ns d (d_ns d ++ [mkNsrec n 0 53 [] []]))
  end.

(** An address into its array, unless it is there or the array is full. *)
Definition add_ip (as_ : list (list Z)) (ip : list Z) (width max : Z) : res (list (list Z)) :=
  a ← rds ip 0 width;
  if bool_decide (a ∈ as_) then Ok as_ else if zlen as_ <? max then Ok (as_ ++ [a]) else Ok as_.

Definition elpis_deleg_add_addr (d : elpis_deleg_t) (ns : elpis_name_t) (ip : list Z) (family flags : Z) : res elpis_deleg_t :=
  r ← elpis_deleg_find_ns d ns;
  d ← (match r with Some _ => Ok d | None => elpis_deleg_add_ns d ns end);
  r ← (match r with Some i => Ok (Some i) | None => elpis_deleg_find_ns d ns end);
  match r with
  | None => Ok d
  | Some i =>
    r ← rd (d_ns d) i;
    let f := u8 (Z.land (u8 (Z.lor (ns_flags r) flags)) (Z.lnot ELPIS_NSF_NOADDR)) in
    a4 ← (if family =? AF_INET then add_ip (ns_a4 r) ip 4 ELPIS_NS_MAX_A4 else Ok (ns_a4 r));
    a6 ← (if family =? AF_INET6 then add_ip (ns_a6 r) ip 16 ELPIS_NS_MAX_A6 else Ok (ns_a6 r));
    ns ← wr (d_ns d) i (mkNsrec (ns_name r) f (ns_port r) a4 a6);
    Ok (with_ns d ns)
  end.

Definition elpis_deleg_add_addr_port (d : elpis_deleg_t) (ns : elpis_name_t) (ip : list Z) (family flags port : Z) : res elpis_deleg_t :=
  d ← elpis_deleg_add_addr d ns ip family flags;
  r ← elpis_deleg_find_ns d ns;
  match r with
  | None => Ok d
  | Some i => r ← rd (d_ns d) i; ns ← wr (d_ns d) i (mkNsrec (ns_name r) (ns_flags r) port (ns_a4 r) (ns_a6 r)); Ok (with_ns d ns)
  end.

Definition elpis_deleg_addr_count (d : elpis_deleg_t) : Z := foldl (fun n r => n + zlen (ns_a4 r) + zlen (ns_a6 r)) 0 (d_ns d).

(** ** Packing *)

Definition deleg_packed_len (ns : list elpis_nsrec_t) : Z :=
  foldl (fun n r => n + (1 + n_len (ns_name r) + 5) + (zlen (ns_a4 r) * 4 + zlen (ns_a6 r) * 16)) 0 ns.

Fixpoint pack_addrs (area : list Z) (p : Z) (as_ : list (list Z)) : res (list Z * Z) :=
  match as_ with [] => Ok (area, p) | a :: as_ => area ← blit area p a; pack_addrs area (p + zlen a) as_ end.

Definition pack_ns (area : list Z) (p : Z) (r : elpis_nsrec_t) : res (list Z * Z) :=
  nm ← rds (n_d (ns_name r)) 0 (n_len (ns_name r));
  area ← wr area p (n_len (ns_name r));
  area ← blit area (p + 1) nm;
  let p := p + 1 + n_len (ns_name r) in
  area ← blit area p [zlen (ns_a4 r); zlen (ns_a6 r); ns_flags r; u8 (Z.shiftr (ns_port r) 8); u8 (ns_port r)];
  '(area, p) ← pack_addrs area (p + 5) (ns_a4 r);
  pack_addrs area p (ns_a6 r).

Fixpoint deleg_pack (area : list Z) (p : Z) (ns : list elpis_nsrec_t) : res (list Z) :=
  match ns with [] => Ok area | r :: ns => '(area, p) ← pack_ns area p r; deleg_pack area p ns end.

(** [k] addresses of [width] octets from [off] on. *)
Fixpoint unpack_addrs (p : list Z) (k : nat) (off width : Z) : res (list (list Z)) :=
  match k with O => Ok [] | S k => a ← rds p off width; r ← unpack_addrs p k (off + width) width; Ok (a :: r) end.

(** [k] servers from [off] on, in the [len] octets at [p]; [acc] has those read. *)
Fixpoint unpack_loop (p : list Z) (len : Z) (k : nat) (off : Z) (acc : list elpis_nsrec_t) : res (elpis_rc_t * list elpis_nsrec_t) :=
  match k with
  | O => Ok (ELPIS_OK, acc)
  | S k =>
    if len <? off + 1 then Ok (ELPIS_EFORMAT, acc)
    else
      nl ← rd p off;
      let off := off + 1 in
      if len <? off + nl + 5 then Ok (ELPIS_EFORMAT, acc)
      else
        n ← try (elpis_name_parse_nocomp (drop (Z.to_nat off) p) nl);
        match n with
        | None => Ok (ELPIS_EFORMAT, acc)
        | Some (n, used) =>
          if negb (used =? nl) then Ok (ELPIS_EFORMAT, acc)
          else
            let off := off + nl in
            n4 ← rd p off; n6 ← rd p (off + 1); flags ← rd p (off + 2); port ← elpis_get16 p (off + 3);
            let off := off + 5 in
            let port := if port =? 0 then 53 else port in
            if (ELPIS_NS_MAX_A4 <? n4) || (ELPIS_NS_MAX_A6 <? n6) then Ok (ELPIS_EFORMAT, acc)
            else if len <? off + n4 * 4 + n6 * 16 then Ok (ELPIS_EFORMAT, acc)
            else
              a4 ← unpack_addrs p (Z.to_nat n4) off 4;
              a6 ← unpack_addrs p (Z.to_nat n6) (off + n4 * 4) 16;
              unpack_loop p len k (off + n4 * 4 + n6 * 16) (acc ++ [mkNsrec n flags port a4 a6])
        end
  end.

Definition deleg_unpack (d : elpis_deleg_t) (p : list Z) (len nns : Z) : res (elpis_rc_t * elpis_deleg_t) :=
  '(rc, ns) ← unpack_loop p len (Z.to_nat (Z.min nns ELPIS_DELEG_MAX_NS)) 0 []; Ok (rc, with_ns d ns).

(** ** The cache *)

(** [sizeof(dent_t)] with 64-bit alignment. *)
Definition DENT_SIZE : Z := 48.

Definition elpis_dcache_put (alloc : Z → bool) (mem : Z → option (list Z)) (clock : Z) (c : dcache_t) (d : elpis_deleg_t) (ttl : Z) (pinned : bool)
    : res (elpis_rc_t * dcache_t * list (centry dent_t)) :=
  if zlen (d_ns d) =? 0 then Ok (ELPIS_ERR, c, [])
  else
    let datalen := deleg_packed_len (d_ns d) in
    let sz := DENT_SIZE + n_len (d_zone d) + datalen in
    match mem sz with
    | None => Ok (ELPIS_ENOMEM, c, [])
    | Some area =>
      k ← dkey_init (d_zone d);
      let hdr := mkHdr (dk_hash k) (if pinned then 0 else u32 (clock + ttl)) (u32 (sz + 64)) 1 (Z.b2z pinned) in
      nm ← rds (n_d (d_zone d)) 0 (n_len (d_zone d));
      area ← blit area 0 nm;
      area ← elpis_scalar_lower area area (n_len (d_zone d));
      area ← deleg_pack area (n_len (d_zone d)) (d_ns d);
      let e := mkDent (n_len (d_zone d)) (zlen (d_ns d)) (d_sec d) (d_ds_state d) clock ttl (u32 datalen) 0 area in
      elpis_cache_insert dent_eq alloc c (mkEntry hdr e) k clock
    end.

Definition dent_pinned (e : centry dent_t) : bool := negb (h_pinned (hdr_of e) =? 0).

Definition elpis_dcache_get (c : dcache_t) (zone : elpis_name_t) (now : Z) (out : elpis_deleg_t) : res (elpis_rc_t * elpis_deleg_t * dcache_t) :=
  k ← dkey_init zone;
  '(r, c) ← elpis_cache_read_begin dent_eq c (dk_hash k) k;
  match r with
  | None => Ok (ELPIS_ENOTFOUND, out, c)
  | Some r =>
    let e := e_body r in
    let elapsed := u32 (now - de_stored e) in
    if negb (dent_pinned r) && (de_ttl e <=? elapsed) then Ok (ELPIS_ENOTFOUND, out, c)
    else
      let out := mkDeleg zone (de_sec e) (de_ds_state e) (dent_pinned r) (if dent_pinned r then de_ttl e else u32 (de_ttl e - elapsed)) [] in
      '(rc, out) ← deleg_unpack out (drop (Z.to_nat (de_zonelen e)) (de_area e)) (de_datalen e) (de_nns e);
      Ok (if decide (rc = ELPIS_OK) then ELPIS_OK else ELPIS_EFORMAT, out, c)
  end.

Definition elpis_dcache_ds_state (c : dcache_t) (zone : elpis_name_t) (now : Z) : res (Z * dcache_t) :=
  k ← dkey_init zone;
  '(r, c) ← elpis_cache_read_begin dent_eq c (dk_hash k) k;
  match r with
  | None => Ok (-1, c)
  | Some r =>
    if dent_pinned r || (u32 (now - de_stored (e_body r)) <? de_ttl (e_body r)) then Ok (de_ds_state (e_body r), c) else Ok (-1, c)
  end.

Definition REFRESH_RETRY : Z := 300.

Definition with_due (e : dent_t) (due : Z) : dent_t :=
  mkDent (de_zonelen e) (de_nns e) (de_sec e) (de_ds_state e) (de_stored e) (de_ttl e) (de_datalen e) due (de_area e).

(** When an entry is due, given the interval asked for. *)
Definition refresh_at (e : dent_t) (every : Z) : Z :=
  let every := if (every =? 0) || (de_ttl e <? every) then de_ttl e else every in
  let every := if every <? REFRESH_RETRY then REFRESH_RETRY else every in
  if negb (de_due e =? 0) then de_due e else u32 (de_stored e + every).

(** What a worker that found an entry due holds until its swap: the entry, by
    its key, [seen] and [now]; and the read lock of the entry's shard. *)
Record refresh_t := mkRefresh { rf_key : dkey_t; rf_seen : Z; rf_now : Z }.

(** Up to the comparison with the clock. *)
Definition refresh_begin (c : dcache_t) (zone : elpis_name_t) (now every : Z) : res (option refresh_t * dcache_t) :=
  k ← dkey_init zone;
  '(r, c) ← elpis_cache_read_begin dent_eq c (dk_hash k) k;
  match r with
  | None => Ok (None, c)
  | Some r =>
    if negb (dent_pinned r) then Ok (None, c)
    else if 0 <=? i32 (u32 (now - refresh_at (e_body r) every)) then Ok (Some (mkRefresh k (de_due (e_body r)) now), c)
    else Ok (None, c)
  end.

(** The word after, and whether the swap was made. *)
Definition elpis_atomic_cas32 (word expected desired : Z) : bool * Z :=
  if word =? expected then (true, desired) else (false, word).

(** [elpis_atomic_cas32(&e->due, &seen, now + REFRESH_RETRY)], through the
    pointer to the entry: one that is gone is written after it was freed. *)
Definition refresh_swap (c : dcache_t) (w : refresh_t) : res (bool * dcache_t) :=
  let k := rf_key w in
  s ← rd (c_sh c) (shard_of c (dk_hash k));
  i ← find_slot dent_eq s (dk_hash k) k;
  match i with
  | None => Stuck OutOfBounds
  | Some (i, r) =>
    let '(ok, due) := elpis_atomic_cas32 (de_due (e_body r)) (rf_seen w) (u32 (rf_now w + REFRESH_RETRY)) in
    slots ← wr (s_slots s) i (Some (mkEntry (hdr_of r) (with_due (e_body r) due)));
    c ← set_shard c (shard_of c (dk_hash k)) (with_table s (s_ctrl s) slots (s_used s) (s_tomb s));
    Ok (ok, c)
  end.

Definition elpis_dcache_refresh_due (c : dcache_t) (zone : elpis_name_t) (now every : Z) : res (bool * dcache_t) :=
  '(w, c) ← refresh_begin c zone now every;
  match w with None => Ok (false, c) | Some w => refresh_swap c w end.

(** Workers race: each calls elpis_dcache_refresh_due when it likes, and its two
    steps come anywhere among those of the others, and among look-ups.  Entries
    stay as long as somebody holds the read lock, so none is stored meanwhile.
    [ra_held] are the workers between their two steps, in no order that
    matters, [ra_won] and [ra_lost] those whose swap was made and was not. *)
Record race_t := mkRace { ra_cache : dcache_t; ra_held : list refresh_t; ra_won : list refresh_t; ra_lost : list refresh_t }.

Inductive race_event :=
  | Look (zone : elpis_name_t) (now every : Z)
  | Swap (i : nat)
  | Fetch (zone : elpis_name_t) (now : Z) (out : elpis_deleg_t).

Definition race_step (r : race_t) (e : race_event) : res race_t :=
  match e with
  | Look zone now every =>
    '(w, c) ← refresh_begin (ra_cache r) zone now every;
    Ok (mkRace c (match w with Some w => w :: ra_held r | None => ra_held r end) (ra_won r) (ra_lost r))
  | Swap i =>
    match ra_held r !! i with
    | None => Ok r
    | Some w =>
      '(ok, c) ← refresh_swap (ra_cache r) w;
      let held := delete i (ra_held r) in
      Ok (if (ok : bool) then mkRace c held (w :: ra_won r) (ra_lost r) else mkRace c held (ra_won r) (w :: ra_lost r))
    end
  | Fetch zone now out => '(_, _, c) ← elpis_dcache_get (ra_cache r) zone now out; Ok (mkRace c (ra_held r) (ra_won r) (ra_lost r))
  end.

Fixpoint race_run (r : race_t) (es : list race_event) : res race_t :=
  match es with [] => Ok r | e :: es => r ← race_step r e; race_run r es end.

(** [for (;;)] up the labels of the name. *)
Fixpoint closest_loop (fuel : nat) (c : dcache_t) (cur : elpis_name_t) (now guard : Z) (out : elpis_deleg_t)
    : res (elpis_rc_t * elpis_deleg_t * dcache_t) :=
  match fuel with
  | O => Stuck OutOfFuel
  | S fuel =>
    '(rc, out, c) ← elpis_dcache_get c cur now out;
    if bool_decide (rc = ELPIS_OK) && (0 <? elpis_deleg_addr_count out) then Ok (ELPIS_OK, out, c)
    else if n_len cur <=? 1 then Ok (ELPIS_ENOTFOUND, out, c)
    else
      p ← try (elpis_name_parent cur);
      match p with
      | None => Ok (ELPIS_ENOTFOUND, out, c)
      | Some p => if ELPIS_MAX_LABELS <? guard + 1 then Ok (ELPIS_ENOTFOUND, out, c) else closest_loop fuel c p now (guard + 1) out
      end
  end.
Definition elpis_dcache_closest (c : dcache_t) (name : elpis_name_t) (now : Z) (out : elpis_deleg_t) : res (elpis_rc_t * elpis_deleg_t * dcache_t) :=
  closest_loop (Z.to_nat (ELPIS_MAX_LABELS + 2)) c name now 0 out.

(** ** Keys *)

Definition dent_key (e : dent_t) : list Z := map lower_byte (slice (de_area e) 0 (de_zonelen e)).
Definition dkey_canon (k : dkey_t) : list Z := map lower_byte (slice (n_d (dk_zone k)) 0 (n_len (dk_zone k))).
#[local] Typeclasses Opaque dent_key dkey_canon.
Definition dkey_ok (k : dkey_t) : Prop := wf_name (dk_zone k).
Definition dkey_of (ls : list (list Z)) : list Z := map lower_byte (wire ls).
Definition dkey_hash (w : list Z) : Z := match elpis_simd_hash_ci w (zlen w) DKEY_SEED with Ok h => h | _ => 0 end.

Lemma dkey_hash_nonneg w : 0 <= dkey_hash w.
Proof.
  unfold dkey_hash. destruct (elpis_simd_hash_ci _ _ _) as [h| |] eqn:E; try done.
  unfold elpis_simd_hash_ci, elpis_scalar_hash_ci in E. apply bind_Ok_inv in E as (h0 & _ & E).
  apply bind_Ok_inv in E as ([a b] & _ & [= <-]). apply mix64_nonneg.
Qed.

Lemma dkey_init_key ls : labels_ok ls →
  ∃ k, dkey_init (name_of ls) = Ok k ∧ dkey_ok k ∧ dkey_canon k = dkey_of ls ∧ dk_hash k = dkey_hash (dkey_canon k) ∧ 0 <= dkey_hash (dkey_canon k).
Proof.
  intros Hls. pose proof Hls as [Hl Hz]. unfold dkey_init. cbn [n_d n_len name_of]. pose proof (bytes_wire ls Hl) as Hb. pose proof (zlen_nonneg (wire ls)).
  destruct (hash_ci_congr (wire ls) (map lower_byte (wire ls)) (zlen (wire ls)) DKEY_SEED) as (h & -> & E);
    [done|by apply bytes_lower|lia|lia|rewrite zlen_map; lia|rewrite !slice_0_all by (rewrite ?zlen_map; lia); unfold fold_eq; by rewrite map_lower_idem|].
  bind_ok. eexists. split; [done|]. split; [by exists ls|]. unfold dkey_canon. cbn [dk_zone dk_hash n_d n_len name_of]. rewrite slice_0_all by lia.
  split; [done|]. split; [|apply dkey_hash_nonneg]. unfold dkey_hash. by rewrite zlen_map, E.
Qed.

Lemma dkey_of_eq a b : labels_ok a → labels_ok b → labels_eq a b → dkey_of a = dkey_of b.
Proof. intros [Ha _] [Hb _] E. unfold dkey_of. by apply labels_eq_wire. Qed.

(** ** What an entry holds *)

(** A server as the arrays of the struct can hold it. *)
Record ns_ok (r : elpis_nsrec_t) : Prop := {
  no_name : wf_name (ns_name r);
  no_flags : byte (ns_flags r);
  no_port : 0 <= ns_port r < 2 ^ 16;
  no_a4 : zlen (ns_a4 r) <= ELPIS_NS_MAX_A4 ∧ Forall (fun a => bytes a ∧ zlen a = 4) (ns_a4 r);
  no_a6 : zlen (ns_a6 r) <= ELPIS_NS_MAX_A6 ∧ Forall (fun a => bytes a ∧ zlen a = 16) (ns_a6 r) }.

Definition enc_ns (r : elpis_nsrec_t) : list Z :=
  ([n_len (ns_name r)] ++ n_d (ns_name r)) ++
  [zlen (ns_a4 r); zlen (ns_a6 r); ns_flags r; u8 (Z.shiftr (ns_port r) 8); u8 (ns_port r)] ++ concat (ns_a4 r) ++ concat (ns_a6 r).

(** What is read back: port 0 has become 53. *)
Definition read_ns (r : elpis_nsrec_t) : elpis_nsrec_t :=
  mkNsrec (ns_name r) (ns_flags r) (if ns_port r =? 0 then 53 else ns_port r) (ns_a4 r) (ns_a6 r).

Record dent_holds (e : dent_t) (ls : list (list Z)) (ns : list elpis_nsrec_t) : Prop := {
  dh_labels : labels_ok ls;
  dh_zonelen : de_zonelen e = zlen (wire ls);
  dh_bytes : bytes (de_area e);
  dh_area : de_area e = map lower_byte (wire ls) ++ concat (map enc_ns ns);
  dh_nns : de_nns e = zlen ns;
  dh_datalen : de_datalen e = zlen (concat (map enc_ns ns));
  dh_max : zlen ns <= ELPIS_DELEG_MAX_NS;
  dh_ns : Forall ns_ok ns }.

Definition dent_ok (e : dent_t) : Prop := ∃ ls ns, dent_holds e ls ns.

Lemma dh_name e ls ns : dent_holds e ls ns → slice (de_area e) 0 (de_zonelen e) = map lower_byte (wire ls).
Proof.
  intros Hh. rewrite (dh_area _ _ _ Hh), (dh_zonelen _ _ _ Hh). rewrite <- (zlen_map lower_byte (wire ls)). apply slice_0_app.
Qed.

Lemma dent_key_holds e ls ns : dent_holds e ls ns → dent_key e = dkey_of ls.
Proof. intros Hh. unfold dent_key, dkey_of. by rewrite (dh_name _ _ _ Hh), map_lower_idem. Qed.

Lemma dent_eq_spec e k : dent_ok e → dkey_ok k → dent_eq e k = Ok (bool_decide (dent_key e = dkey_canon k)).
Proof.
  intros (ls & ns & Hh) (ls' & [Hl' Hz'] & Hn). rewrite (dent_key_holds _ _ _ Hh). destruct k as [n h]. cbn in Hn. subst n.
  unfold dent_eq, dkey_of, dkey_canon. cbn [dk_zone n_d n_len name_of]. destruct (dh_labels _ _ _ Hh) as [Hl Hz]. pose proof (dh_zonelen _ _ _ Hh) as Hnl.
  pose proof (zlen_wire_pos ls). rewrite (slice_0_all (wire ls')) by lia.
  destruct (Z.eqb_spec (de_zonelen e) (zlen (wire ls'))) as [En|Hne].
  - assert (de_zonelen e <= zlen (de_area e)).
    { rewrite (dh_area _ _ _ Hh), zlen_app, zlen_map. pose proof (zlen_nonneg (concat (map enc_ns ns))). lia. }
    rewrite eq_ci_spec by first [by eapply dh_bytes|by apply bytes_wire|lia]. f_equal. apply bool_decide_ext.
    rewrite (slice_0_all (wire ls')) by lia. rewrite (dh_name _ _ _ Hh). unfold fold_eq. by rewrite map_lower_idem.
  - rewrite bool_decide_eq_false_2; [done|]. intros E. apply (f_equal zlen) in E. rewrite !zlen_map in E. lia.
Qed.

(** ** Packing *)

Lemma concat_width (w : Z) as_ : Forall (fun a => bytes a ∧ zlen a = w) as_ → zlen (concat as_) = zlen as_ * w.
Proof. induction 1 as [|a as_ [_ Ha] _ IH]; cbn [concat]; [done|]. rewrite zlen_app, zlen_cons. lia. Qed.

Lemma bytes_concat (w : Z) as_ : Forall (fun a => bytes a ∧ zlen a = w) as_ → bytes (concat as_).
Proof. induction 1 as [|a as_ [Ha _] _ IH]; cbn [concat]; [constructor|]. by apply Forall_app. Qed.

Lemma name_len n : wf_name n → zlen (n_d n) = n_len n ∧ 1 <= n_len n <= 255 ∧ bytes (n_d n).
Proof.
  intros (ls & [Hl Hz] & ->). cbn [n_d n_len name_of]. pose proof (zlen_wire_pos ls). split; [done|]. split; [lia|]. by apply bytes_wire.
Qed.

Lemma zlen_enc_ns r : ns_ok r → zlen (enc_ns r) = 1 + n_len (ns_name r) + 5 + (zlen (ns_a4 r) * 4 + zlen (ns_a6 r) * 16).
Proof.
  intros [Hn _ _ [_ H4] [_ H6]]. destruct (name_len _ Hn) as (E & _). unfold enc_ns.
  rewrite !zlen_app, (concat_width 4), (concat_width 16), E by done. rewrite !zlen_cons, (@zlen_nil Z). lia.
Qed.

Lemma bytes_enc_ns r : ns_ok r → bytes (enc_ns r).
Proof.
  intros [Hn Hf Hp [H4 H4'] [H6 H6']]. destruct (name_len _ Hn) as (E & Hr & Hb). unfold enc_ns, ELPIS_NS_MAX_A4, ELPIS_NS_MAX_A6 in *.
  pose proof (zlen_nonneg (ns_a4 r)). pose proof (zlen_nonneg (ns_a6 r)).
  apply Forall_app. split; [apply Forall_app; split; [repeat constructor; unfold byte; lia|done]|]. apply Forall_app. split.
  - repeat constructor; try apply u8_byte; unfold byte in *; lia.
  - apply Forall_app. split; by eapply bytes_concat.
Qed.

Lemma packed_len_spec ns : Forall ns_ok ns → deleg_packed_len ns = zlen (concat (map enc_ns ns)).
Proof.
  intros Hns. unfold deleg_packed_len.
  assert (∀ m, foldl (fun n r => n + (1 + n_len (ns_name r) + 5) + (zlen (ns_a4 r) * 4 + zlen (ns_a6 r) * 16)) m ns = m + zlen (concat (map enc_ns ns))) as ->; [|lia].
  induction Hns as [|r ns Hr _ IH]; intros m; cbn [foldl map concat]; [rewrite (@zlen_nil Z); lia|]. rewrite IH, zlen_app, zlen_enc_ns by done. lia.
Qed.

Lemma pack_addrs_spec as_ : ∀ pre rest, zlen (concat as_) <= zlen rest →
  pack_addrs (pre ++ rest) (zlen pre) as_ = Ok ((pre ++ concat as_) ++ drop (length (concat as_)) rest, zlen (pre ++ concat as_)).
Proof.
  induction as_ as [|a as_ IH]; intros pre rest Hl; cbn [pack_addrs concat] in *; [by rewrite app_nil_r|].
  rewrite zlen_app in Hl. pose proof (zlen_nonneg (concat as_)). pose proof (zlen_nonneg a). rewrite blit_at by lia. bind_step.
  rewrite <- zlen_app. rewrite IH by (rewrite zlen_drop; zl). rewrite drop_drop, <- !app_assoc, length_app. done.
Qed.

Lemma pack_ns_spec r pre rest : ns_ok r → zlen (enc_ns r) <= zlen rest →
  pack_ns (pre ++ rest) (zlen pre) r = Ok ((pre ++ enc_ns r) ++ drop (length (enc_ns r)) rest, zlen (pre ++ enc_ns r)).
Proof.
  intros Hr Hl. pose proof (zlen_enc_ns r Hr) as Hz. destruct Hr as [Hn Hf Hp [H4 H4'] [H6 H6']]. destruct (name_len _ Hn) as (E & Hr & Hb).
  pose proof (zlen_nonneg (ns_a4 r)). pose proof (zlen_nonneg (ns_a6 r)). pose proof (concat_width 4 _ H4') as W4. pose proof (concat_width 16 _ H6') as W6.
  unfold pack_ns. rewrite rds_full by done. bind_step. destruct rest as [|x rest]; [rewrite (@zlen_nil Z) in Hl; lia|].
  assert (wr (pre ++ x :: rest) (zlen pre) (n_len (ns_name r)) = Ok ((pre ++ [n_len (ns_name r)]) ++ rest)) as ->.
  { rewrite wr_in_range by (rewrite zlen_app, zlen_cons; pose proof (zlen_nonneg rest); pose proof (zlen_nonneg pre); lia).
    rewrite insert_app_r_alt by zl. replace (Z.to_nat (zlen pre) - length pre)%nat with 0%nat by zl. cbn. by rewrite <- app_assoc. }
  bind_step. rewrite zlen_cons in Hl. rewrite blit_at by (rewrite ?zlen_app, ?zlen_cons, ?(@zlen_nil Z); lia). bind_step.
  set (q := (pre ++ [n_len (ns_name r)]) ++ n_d (ns_name r)). assert (zlen q = zlen pre + 1 + n_len (ns_name r)) as Eq.
  { unfold q. rewrite !zlen_app, zlen_cons, (@zlen_nil Z). lia. }
  set (cs := [_; _; _; _; _]). assert (zlen cs = 5) as Ec by done.
  rewrite <- Eq. rewrite blit_at by (rewrite ?zlen_drop; zl). bind_step. rewrite <- Ec, <- zlen_app. rewrite pack_addrs_spec by (rewrite !zlen_drop; zl). bind_step.
  rewrite pack_addrs_spec by (rewrite !zlen_drop; zl). unfold q, enc_ns. fold cs. rewrite !drop_drop, <- !app_assoc. cbn [app].
  replace (length (n_len (ns_name r) :: n_d (ns_name r) ++ cs ++ concat (ns_a4 r) ++ concat (ns_a6 r)))
    with (S (length (n_d (ns_name r)) + length cs + length (concat (ns_a4 r)) + length (concat (ns_a6 r)))) by (cbn [length]; rewrite !length_app; lia).
  cbn [drop]. by rewrite !Nat.add_assoc.
Qed.

Lemma deleg_pack_spec ns : Forall ns_ok ns → ∀ pre rest, zlen (concat (map enc_ns ns)) <= zlen rest →
  deleg_pack (pre ++ rest) (zlen pre) ns = Ok ((pre ++ concat (map enc_ns ns)) ++ drop (length (concat (map enc_ns ns))) rest).
Proof.
  induction 1 as [|r ns Hr _ IH]; intros pre rest Hl; cbn [deleg_pack map concat] in *; [by rewrite app_nil_r|].
  rewrite zlen_app in Hl. pose proof (zlen_nonneg (concat (map enc_ns ns))). pose proof (zlen_nonneg (enc_ns r)).
  rewrite pack_ns_spec by (done || lia). bind_step. rewrite IH by (rewrite zlen_drop; zl). rewrite drop_drop, <- !app_assoc, length_app. done.
Qed.

(** ** Unpacking *)

Lemma unpack_addrs_spec w as_ post : 0 <= w → Forall (fun a => bytes a ∧ zlen a = w) as_ → ∀ pre,
  unpack_addrs (pre ++ concat as_ ++ post) (length as_) (zlen pre) w = Ok as_.
Proof.
  intros Hw. induction 1 as [|a as_ [_ Ha] _ IH]; intros pre; cbn [unpack_addrs length concat]; [done|].
  rewrite <- app_assoc. rewrite <- Ha at 1. rewrite rds_at_end. bind_step.
  replace (zlen pre + w) with (zlen (pre ++ a)) by (rewrite zlen_app; lia). rewrite (app_assoc pre), IH. by bind_step.
Qed.

Lemma unpack_loop_spec ns : Forall ns_ok ns → ∀ pre acc, bytes pre →
  unpack_loop (pre ++ concat (map enc_ns ns)) (zlen (pre ++ concat (map enc_ns ns))) (length ns) (zlen pre) acc = Ok (ELPIS_OK, acc ++ map read_ns ns).
Proof.
  induction 1 as [|r ns Hr Hns IH]; intros pre acc Hpre; cbn [unpack_loop length map concat]; [by rewrite app_nil_r|].
  pose proof (zlen_enc_ns r Hr) as Hz. pose proof (bytes_enc_ns r Hr) as Hbr. pose proof Hr as [Hn Hf Hp [H4 H4'] [H6 H6']]. destruct (name_len _ Hn) as (E & Hl & Hb).
  pose proof (zlen_nonneg (ns_a4 r)). pose proof (zlen_nonneg (ns_a6 r)). pose proof (concat_width 4 _ H4') as W4. pose proof (concat_width 16 _ H6') as W6.
  set (tl := concat (map enc_ns ns)) in *. pose proof (zlen_nonneg tl). pose proof (zlen_nonneg pre).
  assert (bytes tl) as Htl by (unfold tl; clear -Hns; induction Hns; cbn [map concat]; [constructor|apply Forall_app; split; [by apply bytes_enc_ns|done]]).
  set (buf := pre ++ enc_ns r ++ tl). assert (zlen buf = zlen pre + zlen (enc_ns r) + zlen tl) as Eb by (unfold buf; rewrite !zlen_app; lia).
  set (p1 := pre ++ [n_len (ns_name r)]). assert (zlen p1 = zlen pre + 1) as Ep1 by (unfold p1; by rewrite zlen_app).
  set (p2 := p1 ++ n_d (ns_name r)). assert (zlen p2 = zlen pre + 1 + n_len (ns_name r)) as Ep2 by (unfold p2; rewrite zlen_app; lia).
  set (cs := [zlen (ns_a4 r); zlen (ns_a6 r); ns_flags r; u8 (Z.shiftr (ns_port r) 8); u8 (ns_port r)]).
  assert (buf = p2 ++ cs ++ concat (ns_a4 r) ++ concat (ns_a6 r) ++ tl) as E2.
  { unfold buf, p2, p1, enc_ns. fold cs. by rewrite <- !app_assoc. }
  destruct (Z.ltb_spec (zlen buf) (zlen pre + 1)); [lia|].
  assert (rd buf (zlen pre) = Ok (n_len (ns_name r))) as -> by (unfold buf, enc_ns; rewrite <- !app_assoc; apply (rd_mid_eq pre [n_len (ns_name r)] _ _ 0); [lia|done]). bind_step.
  destruct (Z.ltb_spec (zlen buf) (zlen pre + 1 + n_len (ns_name r) + 5)); [lia|].
  assert (drop (Z.to_nat (zlen pre + 1)) buf = n_d (ns_name r) ++ cs ++ concat (ns_a4 r) ++ concat (ns_a6 r) ++ tl) as ->.
  { rewrite E2. unfold p2. rewrite <- app_assoc, drop_app_length'; [done|zl]. }
  destruct Hn as (ls & Hls & En). rewrite (name_parse_nocomp_complete _ _ ls); [| |rewrite zlen_app; pose proof (zlen_nonneg (cs ++ concat (ns_a4 r) ++ concat (ns_a6 r) ++ tl)); lia|done|].
  2:{ apply Forall_app. split; [done|]. unfold buf in E2. assert (bytes (pre ++ enc_ns r ++ tl)) as Hall by (apply Forall_app; split; [done|by apply Forall_app]).
      rewrite E2 in Hall. by apply Forall_app in Hall as [_ Hall]. }
  2:{ rewrite En. cbn [n_d n_len name_of]. split; [lia|]. apply slice_0_app. }
  cbn [try]. bind_step. replace (zlen (wire ls)) with (n_len (ns_name r)) by (by rewrite En). rewrite Z.eqb_refl. cbn [negb].
  rewrite <- Ep2. assert (∀ (k : nat) x, cs !! k = Some x → rd buf (zlen p2 + Z.of_nat k) = Ok x) as Hcs.
  { intros k x Hk. rewrite E2. apply rd_lookup; [lia|]. rewrite lookup_app_r by zl. replace (Z.to_nat (zlen p2 + Z.of_nat k) - length p2)%nat with k by zl.
    by apply lookup_app_l_Some. }
  pose proof (Hcs 0%nat _ eq_refl) as C0. rewrite Z.add_0_r in C0. rewrite C0. bind_step. pose proof (Hcs 1%nat _ eq_refl) as C1. pose proof (Hcs 2%nat _ eq_refl) as C2. change (Z.of_nat 1) with 1 in C1. change (Z.of_nat 2) with 2 in C2.
  rewrite C1. bind_step. rewrite C2. bind_step.
  assert (elpis_get16 buf (zlen p2 + 3) = Ok (ns_port r)) as ->.
  { replace buf with ((p2 ++ [zlen (ns_a4 r); zlen (ns_a6 r); ns_flags r]) ++ put16_bytes (ns_port r) ++ concat (ns_a4 r) ++ concat (ns_a6 r) ++ tl)
      by (rewrite E2; unfold cs; by rewrite <- app_assoc).
    replace (zlen p2 + 3) with (zlen (p2 ++ [zlen (ns_a4 r); zlen (ns_a6 r); ns_flags r])) by (by rewrite zlen_app). by apply get16_put16. }
  bind_step. unfold ELPIS_NS_MAX_A4, ELPIS_NS_MAX_A6 in *. destruct (Z.ltb_spec 4 (zlen (ns_a4 r))); [lia|]. destruct (Z.ltb_spec 2 (zlen (ns_a6 r))); [lia|]. cbn [orb].
  destruct (Z.ltb_spec (zlen buf) (zlen p2 + 5 + zlen (ns_a4 r) * 4 + zlen (ns_a6 r) * 16)); [lia|].
  replace (Z.to_nat (zlen (ns_a4 r))) with (length (ns_a4 r)) by zl. replace (Z.to_nat (zlen (ns_a6 r))) with (length (ns_a6 r)) by zl.
  assert (zlen (p2 ++ cs) = zlen p2 + 5) as Ep3 by (by rewrite zlen_app). rewrite <- Ep3.
  assert (buf = (p2 ++ cs) ++ concat (ns_a4 r) ++ concat (ns_a6 r) ++ tl) as E3 by (by rewrite E2, <- app_assoc).
  rewrite E3 at 1. rewrite unpack_addrs_spec by done. bind_step. rewrite <- W4, <- zlen_app.
  assert (buf = ((p2 ++ cs) ++ concat (ns_a4 r)) ++ concat (ns_a6 r) ++ tl) as E4 by (by rewrite E3, <- !app_assoc).
  rewrite E4 at 1. rewrite unpack_addrs_spec by done. bind_step. rewrite <- W6, <- zlen_app. set (p4 := ((p2 ++ cs) ++ concat (ns_a4 r)) ++ concat (ns_a6 r)).
  assert (buf = p4 ++ tl) as E5 by (rewrite E4; unfold p4; by rewrite <- !app_assoc). rewrite E5. rewrite IH.
  - rewrite <- app_assoc. cbn [app]. assert (read_ns r = mkNsrec (name_of ls) (ns_flags r) (if ns_port r =? 0 then 53 else ns_port r) (ns_a4 r) (ns_a6 r)) as -> by (unfold read_ns; by rewrite En). done.
  - assert (bytes buf) as Hall by (apply Forall_app; split; [done|by apply Forall_app]). rewrite E5 in Hall. by apply Forall_app in Hall as [? _].
Qed.

Lemma deleg_unpack_spec d ns : Forall ns_ok ns → zlen ns <= ELPIS_DELEG_MAX_NS →
  deleg_unpack d (concat (map enc_ns ns)) (zlen (concat (map enc_ns ns))) (zlen ns) = Ok (ELPIS_OK, with_ns d (map read_ns ns)).
Proof.
  intros Hns Hm. unfold deleg_unpack. replace (Z.to_nat (Z.min (zlen ns) ELPIS_DELEG_MAX_NS)) with (length ns) by zl.
  pose proof (unpack_loop_spec ns Hns [] [] (Forall_nil_2 _)) as E. change (zlen (@nil Z)) with 0 in E. cbn [app] in E. rewrite E. by bind_step.
Qed.

(** ** Look-ups *)

Abbreviation dcache_ok := (cache_ok dent_key dkey_hash dent_ok).
Abbreviation dcache_map := (cache_map dent_key).

(** Too old to be used; a pinned entry never is. *)
Definition dent_stale (r : centry dent_t) (now : Z) : bool := negb (dent_pinned r) && (de_ttl (e_body r) <=? u32 (now - de_stored (e_body r))).

(** The delegation an entry holds, at a time it may be used. *)
Definition deleg_at (r : centry dent_t) (zone : elpis_name_t) (ns : list elpis_nsrec_t) (now : Z) : elpis_deleg_t :=
  mkDeleg zone (de_sec (e_body r)) (de_ds_state (e_body r)) (dent_pinned r)
    (if dent_pinned r then de_ttl (e_body r) else u32 (de_ttl (e_body r) - u32 (now - de_stored (e_body r)))) (map read_ns ns).

Lemma dcache_get_spec c ls now out : dcache_ok c → labels_ok ls →
  ∃ rc out' c', elpis_dcache_get c (name_of ls) now out = Ok (rc, out', c') ∧ dcache_ok c' ∧ dcache_map c' = dcache_map c ∧
    match dcache_map c !! dkey_of ls with
    | None => rc = ELPIS_ENOTFOUND ∧ out' = out
    | Some r => ∃ ls' ns, dent_holds (e_body r) ls' ns ∧
        if dent_stale r now then rc = ELPIS_ENOTFOUND ∧ out' = out else rc = ELPIS_OK ∧ out' = deleg_at r (name_of ls) ns now
    end.
Proof.
  intros Hc Hls. unfold elpis_dcache_get. destruct (dkey_init_key ls Hls) as (k & -> & Hk & Eq & Eh & Hn). bind_ok. rewrite Eh, <- Eq.
  destruct (cache_read_spec dent_eq dent_key dkey_canon dkey_hash dent_ok dkey_ok dent_eq_spec c k Hc Hk Hn) as (r & c' & -> & Hc' & Hm & Hr). bind_ok.
  destruct r as [e|]; cbn in Hr; [|rewrite <- Hr; by exists ELPIS_ENOTFOUND, out, c']. symmetry in Hr. rewrite Hr.
  destruct (cache_map_ok _ _ _ _ _ _ Hc Hr) as [(_ & _ & _ & ls' & ns & Hh) _]. change (e_body (strip e)) with (e_body e) in *.
  unfold dent_stale, deleg_at. change (dent_pinned (strip e)) with (dent_pinned e). change (e_body (strip e)) with (e_body e).
  destruct (negb (dent_pinned e) && _) eqn:Es.
  { exists ELPIS_ENOTFOUND, out, c'. split; [done|]. split; [done|]. split; [done|]. by exists ls', ns. }
  rewrite (dh_area _ _ _ Hh), (dh_zonelen _ _ _ Hh), (dh_datalen _ _ _ Hh), (dh_nns _ _ _ Hh).
  rewrite drop_app_length' by (rewrite length_map; zl). rewrite deleg_unpack_spec by apply Hh. bind_ok.
  rewrite decide_True by done. eexists _, _, c'. split; [done|]. split; [done|]. split; [done|]. by exists ls', ns.
Qed.

Lemma dcache_ds_state_spec c ls now : dcache_ok c → labels_ok ls →
  ∃ x c', elpis_dcache_ds_state c (name_of ls) now = Ok (x, c') ∧ dcache_ok c' ∧ dcache_map c' = dcache_map c ∧
    x = match dcache_map c !! dkey_of ls with Some r => if dent_stale r now then -1 else de_ds_state (e_body r) | None => -1 end.
Proof.
  intros Hc Hls. unfold elpis_dcache_ds_state. destruct (dkey_init_key ls Hls) as (k & -> & Hk & Eq & Eh & Hn). bind_ok. rewrite Eh, <- Eq.
  destruct (cache_read_spec dent_eq dent_key dkey_canon dkey_hash dent_ok dkey_ok dent_eq_spec c k Hc Hk Hn) as (r & c' & -> & Hc' & Hm & Hr). bind_ok.
  rewrite <- Hr. destruct r as [e|]; cbn [fmap option_fmap option_map]; [|by exists (-1), c'].
  unfold dent_stale. change (dent_pinned (strip e)) with (dent_pinned e). change (e_body (strip e)) with (e_body e). rewrite Z.ltb_antisym.
  eexists _, c'. split; [|split; [done|split; [done|reflexivity]]]. by destruct (dent_pinned e), (de_ttl (e_body e) <=? _).
Qed.

(** ** Storing *)

(** The area of a new entry, as the code fills it. *)
Lemma dent_area area ls ns : labels_ok ls → bytes area → Forall ns_ok ns → zlen area = zlen (wire ls) + zlen (concat (map enc_ns ns)) →
  ∃ a1 a2, blit area 0 (wire ls) = Ok a1 ∧ elpis_scalar_lower a1 a1 (zlen (wire ls)) = Ok a2 ∧
    deleg_pack a2 (zlen (wire ls)) ns = Ok (map lower_byte (wire ls) ++ concat (map enc_ns ns)).
Proof.
  intros [Hl Hz] Hb Hns Hlen. pose proof (zlen_wire_pos ls). pose proof (zlen_nonneg (concat (map enc_ns ns))).
  set (rest := drop (length (wire ls)) area). assert (zlen rest = zlen (concat (map enc_ns ns))) as Hrest by (unfold rest; rewrite zlen_drop; zl).
  exists (wire ls ++ rest), (map lower_byte (wire ls) ++ rest). split; [|split].
  - rewrite <- (app_nil_l area) at 1. rewrite blit_at by (rewrite ?(@zlen_nil Z); lia). done.
  - change elpis_scalar_lower with elpis_lower_pad16. rewrite lower_pad16_spec.
    + rewrite slice_0_app. f_equal. by rewrite drop_app_length' by zl.
    + apply Forall_app. split; [by apply bytes_wire|by apply Forall_drop].
    + lia.
    + rewrite zlen_app. lia.
    + rewrite zlen_app. lia.
  - rewrite <- (zlen_map lower_byte (wire ls)). rewrite deleg_pack_spec by (done || lia). by rewrite drop_ge, app_nil_r by zl.
Qed.

(** What the entry made of a delegation says. *)
Record stored (r : centry dent_t) (d : elpis_deleg_t) (ls : list (list Z)) (clock ttl : Z) (pinned : bool) : Prop := {
  so_holds : dent_holds (e_body r) ls (d_ns d);
  so_sec : de_sec (e_body r) = d_sec d;
  so_ds : de_ds_state (e_body r) = d_ds_state d;
  so_stored : de_stored (e_body r) = clock;
  so_ttl : de_ttl (e_body r) = ttl;
  so_due : de_due (e_body r) = 0;
  so_pinned : dent_pinned r = pinned }.

Definition deleg_ok (d : elpis_deleg_t) (ls : list (list Z)) : Prop :=
  labels_ok ls ∧ d_zone d = name_of ls ∧ Forall ns_ok (d_ns d) ∧ zlen (d_ns d) <= ELPIS_DELEG_MAX_NS.

Lemma enc_ns_max ns : Forall ns_ok ns → zlen ns <= ELPIS_DELEG_MAX_NS → zlen (concat (map enc_ns ns)) <= 8192.
Proof.
  intros Hns Hm. enough (zlen (concat (map enc_ns ns)) <= 512 * zlen ns) by (unfold ELPIS_DELEG_MAX_NS in *; lia). clear Hm.
  induction Hns as [|r ns Hr _ IH]; cbn [map concat]; [done|]. rewrite zlen_app, zlen_enc_ns, zlen_cons by done.
  destruct Hr as [Hn _ _ [H4 _] [H6 _]]. destruct (name_len _ Hn) as (_ & ? & _). unfold ELPIS_NS_MAX_A4, ELPIS_NS_MAX_A6 in *. lia.
Qed.

Lemma dcache_put_spec alloc mem clock c d ls ttl pinned : (∀ cap, alloc cap = true → cap <= 2 ^ 30) → mem_ok mem → dcache_ok c → deleg_ok d ls →
  ∃ rc c' f, elpis_dcache_put alloc mem clock c d ttl pinned = Ok (rc, c', f) ∧ dcache_ok c' ∧
    (rc = ELPIS_OK → ∃ r, dcache_map c' !! dkey_of ls = Some r ∧ stored r d ls clock ttl pinned) ∧
    (∀ q r, dcache_map c' !! q = Some r → dcache_map c !! q = Some r ∨ stored r d ls clock ttl pinned).
Proof.
  intros Ha Hmem Hc (Hls & En & Hns & Hm). unfold elpis_dcache_put. destruct (_ =? 0); [exists ELPIS_ERR, c, []; split; [done|]; split; [done|]; split; [done|by left]|].
  rewrite packed_len_spec, En by done. cbn [n_len n_d name_of]. set (D := concat (map enc_ns (d_ns d))). pose proof (enc_ns_max _ Hns Hm) as HD. fold D in HD.
  pose proof (zlen_nonneg D). pose proof Hls as [Hl Hz]. pose proof (zlen_wire_pos ls).
  destruct (mem _) as [area|] eqn:Em; [|exists ELPIS_ENOMEM, c, []; split; [done|]; split; [done|]; split; [done|by left]].
  apply Hmem in Em as [Hlen Hb]. change RENT_SIZE with DENT_SIZE in Hlen. destruct (dkey_init_key ls Hls) as (k & -> & Hk & Eq & Eh & Hn). bind_ok.
  rewrite rds_full by done. bind_ok. destruct (dent_area area ls (d_ns d) Hls Hb Hns) as (a1 & a2 & -> & E2 & E3); [fold D; lia|].
  bind_ok. rewrite E2. bind_ok. rewrite E3. bind_ok. set (e := mkDent _ _ _ _ _ _ _ _ _). set (hdr := mkHdr _ _ _ _ _).
  assert (dent_holds e ls (d_ns d)) as Hh.
  { split; cbn; try done; [|fold D; rewrite u32_id by lia; done]. apply Forall_app. split; [by apply bytes_lower, bytes_wire|].
    clear -Hns. induction Hns; cbn [map concat]; [constructor|]. apply Forall_app. split; [by apply bytes_enc_ns|done]. }
  assert (dent_key e = dkey_canon k) as Ek by (rewrite (dent_key_holds _ _ _ Hh), Eq; done).
  assert (stored (strip (mkEntry hdr e)) d ls clock ttl pinned) as Hst by (split; try done; by destruct pinned).
  destruct (cache_insert_spec dent_eq dent_key dkey_canon dkey_hash dent_ok dkey_ok dent_eq_spec alloc c (mkEntry hdr e) k clock Hc Ha) as (rc & c' & f & -> & Hc' & Hcase).
  - split; [|split; [|split; [|by exists ls, (d_ns d)]]].
    + unfold e_hash, e_key. cbn [hdr_of e_body hdr h_hash]. by rewrite Eh, Ek.
    + unfold e_hash. cbn [hdr_of hdr h_hash]. by rewrite Eh.
    + cbn [hdr_of hdr h_size]. unfold DENT_SIZE in *. rewrite u32_id by lia. lia.
  - done.
  - exact Ek.
  - exists rc, c', f. split; [done|]. split; [done|]. rewrite <- Eq.
    assert (∀ m : gmap (list Z) (centry dent_t), m ⊆ dcache_map c → ∀ q r, <[dkey_canon k := strip (mkEntry hdr e)]> m !! q = Some r → dcache_map c !! q = Some r ∨ stored r d ls clock ttl pinned) as Hins.
    { intros m Hsub q r. destruct (decide (q = dkey_canon k)) as [->|]; [rewrite lookup_insert_eq; intros [= <-]; by right|].
      rewrite lookup_insert_ne by done. intros Hq. left. by eapply lookup_weaken. }
    destruct (dcache_map c !! dkey_canon k) as [old|].
    + destruct Hcase as (-> & -> & _). split; [|by apply Hins]. intros _. exists (strip (mkEntry hdr e)). by rewrite lookup_insert_eq.
    + destruct Hcase as (g & _ & Hg & [(-> & _ & ->)|(-> & _ & -> & _)]).
      * split; [|apply Hins; apply map_subseteq_difference_l; done]. intros _. exists (strip (mkEntry hdr e)). by rewrite lookup_insert_eq.
      * split; [done|]. intros q r [Hq _]%lookup_difference_Some. by left.
Qed.

(** ** Refreshing *)

(** An entry written through its pointer: what the table reads of it is as it was. *)
Lemma write_ok (s : shard_t dent_t) i e e' : shard_ok dent_key dkey_hash dent_ok s → s_slots s !! Z.to_nat i = Some (Some e) →
  h_hash (hdr_of e') = h_hash (hdr_of e) → h_size (hdr_of e') = h_size (hdr_of e) → h_pinned (hdr_of e') = h_pinned (hdr_of e) →
  dent_key (e_body e') = dent_key (e_body e) → dent_ok (e_body e') →
  let s' := with_table s (s_ctrl s) (<[Z.to_nat i := Some e']> (s_slots s)) (s_used s) (s_tomb s) in
  shard_ok dent_key dkey_hash dent_ok s' ∧ shard_map dent_key s' = <[dent_key (e_body e) := strip e']> (shard_map dent_key s).
Proof.
  intros Hk Hi Hh Hsz Hpn Hke Hok s'. destruct (ents_swap (s_slots s) (Z.to_nat i) e e' Hi) as (rest & Hp & Hp').
  assert (entry_ok dent_key dkey_hash dent_ok e) as He.
  { pose proof (l_ents _ _ _ _ _ _ (k_layout _ _ _ _ Hk)) as Hf. rewrite Hp in Hf. by apply Forall_cons_1 in Hf as [? _]. }
  assert (entry_ok dent_key dkey_hash dent_ok e') as He'.
  { destruct He as (H1 & H2 & H3 & _). unfold entry_ok, e_hash, e_key in *. rewrite Hh, Hsz, Hke. done. }
  assert (shard_ok dent_key dkey_hash dent_ok s') as Hk'.
  { assert (sizes (e :: rest) = sizes (e' :: rest)) as E1 by (cbn; by rewrite Hsz).
    assert (filter pinned (e' :: rest) = if decide (pinned e) then e' :: filter pinned rest else filter pinned rest) as E2.
    { rewrite filter_cons. unfold pinned. rewrite Hpn. done. }
    split; cbn [s' with_table s_cap s_ctrl s_slots s_hand s_used s_tomb s_bytes s_pinned_entries s_pinned_bytes s_bytes_max]; try apply Hk.
    - apply (layout_swap _ _ _ _ _ _ _ e); [apply Hk|done|unfold e_hash; by rewrite Hh|done|done].
    - rewrite (k_used _ _ _ _ Hk), Hp, Hp', !zlen_cons. done.
    - by rewrite (k_bytes _ _ _ _ Hk), Hp, Hp', E1.
    - rewrite (k_pins _ _ _ _ Hk), Hp, Hp', E2, filter_pinned_cons. by case_decide; rewrite ?zlen_cons.
    - rewrite (k_pinned _ _ _ _ Hk), Hp, Hp', E2, filter_pinned_cons. case_decide; [|done]. cbn. by rewrite Hsz. }
  split; [done|]. unfold shard_map. rewrite (mapof_perm dent_key _ _ (shard_nodup _ _ _ s' Hk') Hp'), (mapof_perm dent_key _ _ (shard_nodup _ _ _ s Hk) Hp), !mapof_cons.
  unfold e_key. rewrite Hke. by rewrite insert_insert_eq.
Qed.

Lemma with_due_holds e ls ns due : dent_holds e ls ns → dent_holds (with_due e due) ls ns.
Proof. intros []. by split. Qed.

(** A key as dkey_init leaves it. *)
Definition key_good (k : dkey_t) : Prop := dkey_ok k ∧ dk_hash k = dkey_hash (dkey_canon k) ∧ 0 <= dkey_hash (dkey_canon k).

Definition refresh_found (r : centry dent_t) (now every : Z) : bool := dent_pinned r && (0 <=? i32 (u32 (now - refresh_at (e_body r) every))).

(** The first step changes no entry, and holds what it saw of one that is due. *)
Lemma refresh_begin_spec c ls now every : dcache_ok c → labels_ok ls →
  ∃ w c', refresh_begin c (name_of ls) now every = Ok (w, c') ∧ dcache_ok c' ∧ dcache_map c' = dcache_map c ∧
    match w with
    | Some w => key_good (rf_key w) ∧ dkey_canon (rf_key w) = dkey_of ls ∧ rf_now w = now ∧
        ∃ r, dcache_map c !! dkey_of ls = Some r ∧ refresh_found r now every = true ∧ rf_seen w = de_due (e_body r)
    | None => ∀ r, dcache_map c !! dkey_of ls = Some r → refresh_found r now every = false end.
Proof.
  intros Hc Hls. unfold refresh_begin. destruct (dkey_init_key ls Hls) as (k & -> & Hk & Eq & Eh & Hn). bind_ok. rewrite Eh, <- Eq.
  destruct (cache_read_spec dent_eq dent_key dkey_canon dkey_hash dent_ok dkey_ok dent_eq_spec c k Hc Hk Hn) as (r & c' & -> & Hc' & Hm & Hr). bind_ok.
  destruct r as [e|]; cbn [fmap option_fmap option_map] in Hr; symmetry in Hr; [|exists None, c'; rewrite Hr; split; [done|]; split; [done|]; by split].
  rewrite Hr. unfold refresh_found.
  assert (∀ b : bool, b = false → dent_pinned e && (0 <=? i32 (u32 (now - refresh_at (e_body e) every))) = b →
    ∃ w c'', Ok (None, c') = Ok (w, c'') ∧ dcache_ok c'' ∧ dcache_map c'' = dcache_map c ∧
      match w with
      | Some w => key_good (rf_key w) ∧ dkey_canon (rf_key w) = dkey_canon k ∧ rf_now w = now ∧
          ∃ r, Some (strip e) = Some r ∧ dent_pinned r && (0 <=? i32 (u32 (now - refresh_at (e_body r) every))) = true ∧ rf_seen w = de_due (e_body r)
      | None => ∀ r, Some (strip e) = Some r → dent_pinned r && (0 <=? i32 (u32 (now - refresh_at (e_body r) every))) = false end) as Hno.
  { intros b -> E. exists None, c'. split; [done|]. split; [done|]. split; [done|]. intros r [= <-]. exact E. }
  destruct (dent_pinned e) eqn:Ep; cbn [negb]; [|by apply (Hno false)]. destruct (0 <=? _) eqn:Ed; [|by apply (Hno false)].
  exists (Some (mkRefresh k (de_due (e_body e)) now)), c'. split; [done|]. split; [done|]. split; [done|]. cbn [rf_key rf_seen rf_now].
  split; [by split|]. split; [done|]. split; [done|]. exists (strip e). change (dent_pinned (strip e)) with (dent_pinned e).
  change (e_body (strip e)) with (e_body e). by rewrite Ep, Ed.
Qed.

(** The swap is made when the time is the one seen, and is the only change. *)
Lemma refresh_swap_spec c w r : dcache_ok c → key_good (rf_key w) → dcache_map c !! dkey_canon (rf_key w) = Some r →
  ∃ c', refresh_swap c w = Ok (de_due (e_body r) =? rf_seen w, c') ∧ dcache_ok c' ∧
    dcache_map c' = if de_due (e_body r) =? rf_seen w
      then <[dkey_canon (rf_key w) := mkEntry (hdr_of r) (with_due (e_body r) (u32 (rf_now w + REFRESH_RETRY)))]> (dcache_map c) else dcache_map c.
Proof.
  intros Hc (Hk & Eh & Hn) Hm. unfold refresh_swap. set (k := rf_key w) in *. cbv zeta. rewrite Eh.
  destruct (cache_map_ok _ _ _ _ _ _ Hc Hm) as [(_ & _ & _ & ls' & ns & Hh) _].
  destruct (shard_at dent_key dkey_hash dent_ok c (dkey_hash (dkey_canon k)) Hc) as (s & -> & Hs & Hsk). bind_ok.
  destruct (find_slot_map dent_eq dent_key dkey_canon dkey_hash dent_ok dkey_ok dent_eq_spec s k Hsk Hk Hn) as ([[j e]|] & -> & Hj); bind_ok.
  2:{ destruct Hj as [_ Hno]. rewrite (cache_lookup dent_key dkey_hash dent_ok c _ s Hc Hs) in Hm. congruence. }
  destruct Hj as (Hj & He & Hek & Hsm). pose proof (l_slots _ _ _ _ _ _ (k_layout _ _ _ _ Hsk)). pose proof Hm as Hm0.
  rewrite (cache_lookup dent_key dkey_hash dent_ok c _ s Hc Hs), Hsm in Hm. injection Hm as <-. change (e_body (strip e)) with (e_body e) in *.
  unfold elpis_atomic_cas32. set (b := de_due (e_body e) =? rf_seen w). set (due := if b then u32 (rf_now w + REFRESH_RETRY) else de_due (e_body e)).
  replace (if b then (true, u32 (rf_now w + REFRESH_RETRY)) else (false, de_due (e_body e))) with (b, due) by (unfold due; by destruct b).
  rewrite wr_in_range by lia. bind_ok. set (r' := mkEntry (hdr_of e) (with_due (e_body e) due)).
  destruct (write_ok s j e r' Hsk He) as [Hk' Hm']; [done|done|done| |by exists ls', ns; apply with_due_holds|].
  { cbn [r' e_body]. rewrite (dent_key_holds _ ls' ns), (dent_key_holds _ ls' ns); [done|done|by apply with_due_holds]. }
  cbn zeta in Hk', Hm'. set (s' := with_table _ _ _ _ _) in *. change (dent_key (e_body e)) with (e_key dent_key e) in Hm'. rewrite Hek in Hm'.
  destruct (set_shard_alter dent_key dkey_hash dent_ok c (dkey_canon k) s s' (Some (strip r')) [] Hc Hs Hk') as (c' & -> & Hc' & _ & Hm2).
  - by apply map_empty_subseteq.
  - rewrite Hm'. change (mapof dent_key []) with (∅ : gmap (list Z) (centry dent_t)). by rewrite map_difference_empty.
  - bind_ok. change (mapof dent_key []) with (∅ : gmap (list Z) (centry dent_t)) in Hm2. rewrite map_difference_empty in Hm2.
    exists c'. split; [done|]. split; [done|]. rewrite Hm2. unfold r', due. destruct b; [done|]. refine (insert_id (dcache_map c) (dkey_canon k) _ _). rewrite Hm0.
    by destruct e as [h []].
Qed.

(** The claims of one entry. *)
Definition claims (q : list Z) (ws : list refresh_t) : list refresh_t := filter (fun w => dkey_canon (rf_key w) = q) ws.

(** Workers look up names that are names, within five minutes of [t]. *)
Definition race_event_ok (t : Z) (e : race_event) : Prop :=
  match e with
  | Look zone now _ => (∃ ls, labels_ok ls ∧ zone = name_of ls) ∧ t <= now < t + REFRESH_RETRY
  | Swap _ => True
  | Fetch zone _ _ => ∃ ls, labels_ok ls ∧ zone = name_of ls
  end.

(** What a worker saw of the entry as it was at the start. *)
Definition saw (m : gmap (list Z) (centry dent_t)) (t : Z) (w : refresh_t) : Prop :=
  key_good (rf_key w) ∧ t <= rf_now w < t + REFRESH_RETRY ∧
  ∃ r, m !! dkey_canon (rf_key w) = Some r ∧ dent_pinned r = true ∧ rf_seen w = de_due (e_body r) ∧
    (rf_seen w ≠ 0 → 0 <= i32 (u32 (rf_now w - rf_seen w))).

Definition claimed (r : centry dent_t) (w : refresh_t) : centry dent_t :=
  mkEntry (hdr_of r) (with_due (e_body r) (u32 (rf_now w + REFRESH_RETRY))).

(** An entry is as it was at the start until its one claim. *)
Record race_inv (m : gmap (list Z) (centry dent_t)) (t : Z) (r : race_t) : Prop := {
  ri_cache : dcache_ok (ra_cache r);
  ri_saw : Forall (saw m t) (ra_held r ++ ra_won r ++ ra_lost r);
  ri_none : ∀ q, m !! q = None → dcache_map (ra_cache r) !! q = None;
  ri_some : ∀ q e, m !! q = Some e →
    match claims q (ra_won r) with
    | [] => dcache_map (ra_cache r) !! q = Some e ∧ claims q (ra_lost r) = []
    | [w] => dcache_map (ra_cache r) !! q = Some (claimed e w)
    | _ => False end }.

Section race.
Context (m : gmap (list Z) (centry dent_t)) (t : Z) (Ht : 0 <= t) (Ht' : t + 2 * REFRESH_RETRY <= 2 ^ 32).

(** A claimed entry is not due, and its time is not one that was seen. *)
Lemma claimed_not_due e w now every : t <= rf_now w < t + REFRESH_RETRY → t <= now < rf_now w + REFRESH_RETRY →
  refresh_found (claimed e w) now every = false.
Proof.
  intros Hw Hnow. unfold refresh_found, claimed, refresh_at. cbn [e_body with_due de_due]. unfold REFRESH_RETRY in *.
  rewrite (u32_id (rf_now w + 300)) by lia. destruct (Z.eqb_spec (rf_now w + 300) 0); [lia|]. cbn [negb].
  apply andb_false_intro2, Z.leb_gt. unfold i32, u32. rewrite Zplus_mod_idemp_l, Z.mod_small by lia. lia.
Qed.

Lemma claimed_not_seen e w w' : saw m t w → saw m t w' → dkey_canon (rf_key w) = dkey_canon (rf_key w') →
  (de_due (e_body (claimed e w)) =? rf_seen w') = false.
Proof.
  intros (_ & Hn & r & Hr & _ & Hs & Hd) (_ & Hn' & r' & Hr' & _ & Hs' & _) E. rewrite <- E, Hr in Hr'. injection Hr' as <-. rewrite Hs', <- Hs.
  cbn [claimed e_body with_due de_due]. apply Z.eqb_neq. unfold REFRESH_RETRY in *. rewrite u32_id by lia. intros Eq.
  specialize (Hd ltac:(lia)). rewrite <- Eq in Hd. unfold i32, u32 in Hd. rewrite Zplus_mod_idemp_l, Z.mod_small in Hd by lia. lia.
Qed.

Lemma claims_other q w ws : dkey_canon (rf_key w) ≠ q → claims q (w :: ws) = claims q ws.
Proof. intros. unfold claims. by rewrite filter_cons_False. Qed.
Lemma claims_own w ws : claims (dkey_canon (rf_key w)) (w :: ws) = w :: claims (dkey_canon (rf_key w)) ws.
Proof. unfold claims. by rewrite filter_cons_True. Qed.

Lemma race_look r zone now every : race_inv m t r → race_event_ok t (Look zone now every) →
  ∃ r', race_step r (Look zone now every) = Ok r' ∧ race_inv m t r'.
Proof.
  intros [H1 H2 H3 H4] ((ls & Hls & ->) & Hnow). cbn [race_step].
  destruct (refresh_begin_spec (ra_cache r) ls now every H1 Hls) as (w & c' & -> & Hc' & Hm & Hw). bind_ok. eexists. split; [done|].
  split; cbn [ra_cache ra_held ra_won ra_lost]; rewrite ?Hm; [done| |done|done]. destruct w as [w|]; [|done].
  destruct Hw as (Hg & Eq & En & e & He & Hf & Hs). cbn [app]. apply Forall_cons. split; [|done]. split; [done|]. rewrite Eq, En. split; [done|].
  unfold refresh_found in Hf. apply andb_true_iff in Hf as [Hp Hd]. destruct (m !! dkey_of ls) as [e0|] eqn:E0; [|rewrite (H3 _ E0) in He; done].
  specialize (H4 _ _ E0). destruct (claims (dkey_of ls) (ra_won r)) as [|w1 [|]] eqn:Ec; [| |done].
  - destruct H4 as [H4 _]. rewrite He in H4. injection H4 as ->. exists e0. split; [done|]. split; [done|]. split; [done|]. rewrite Hs. intros Hz.
    unfold refresh_at in Hd. apply Z.eqb_neq in Hz. rewrite Hz in Hd. by apply Z.leb_le.
  - exfalso. rewrite He in H4. injection H4 as ->. assert (w1 ∈ claims (dkey_of ls) (ra_won r)) as Hin by (rewrite Ec; by left).
    apply list_elem_of_filter in Hin as [_ Hin]. rewrite !Forall_app in H2. destruct (Forall_elem _ _ _ (proj1 (proj2 H2)) Hin) as (_ & Hw1 & _).
    pose proof (claimed_not_due e0 w1 now every Hw1 ltac:(lia)) as Hno. unfold refresh_found in Hno. by rewrite Hp, Hd in Hno.
Qed.

Lemma race_swap r i : race_inv m t r → ∃ r', race_step r (Swap i) = Ok r' ∧ race_inv m t r'.
Proof.
  intros Hr. cbn [race_step]. destruct (ra_held r !! i) as [w|] eqn:Ei; [|by exists r]. destruct Hr as [H1 H2 H3 H4].
  assert (ra_held r ≡ₚ w :: delete i (ra_held r)) as Hp by by apply delete_Permutation. rewrite Hp in H2. cbn [app] in H2.
  apply Forall_cons_1 in H2 as [Hw H2]. pose proof Hw as (Hg & Hnow & e & He & Hpin & Hs & Hd). pose proof (H4 _ _ He) as Hq. set (q := dkey_canon (rf_key w)) in *.
  destruct (claims q (ra_won r)) as [|w1 [|]] eqn:Ec; [| |done].
  - destruct Hq as [Hq _]. destruct (refresh_swap_spec (ra_cache r) w e H1 Hg Hq) as (c' & -> & Hc' & Hm). bind_ok. rewrite Hs, Z.eqb_refl in *.
    eexists. split; [done|]. fold q in Hm. split; cbn [ra_cache ra_held ra_won ra_lost]; [done| | |].
    + rewrite !Forall_app in *. destruct H2 as (? & ? & ?). split; [done|]. split; [by apply Forall_cons|done].
    + intros p Hp0. rewrite Hm. rewrite lookup_insert_ne by congruence. by apply H3.
    + intros p e' He'. destruct (decide (p = q)) as [->|Hne].
      * unfold q. rewrite claims_own. fold q. rewrite Ec, Hm, lookup_insert_eq. rewrite He in He'. by injection He' as <-.
      * rewrite claims_other, Hm, lookup_insert_ne by done. by apply H4.
  - assert (w1 ∈ claims q (ra_won r)) as Hin by (rewrite Ec; by left). apply list_elem_of_filter in Hin as [Eq Hin].
    rewrite !Forall_app in H2. pose proof (Forall_elem _ _ _ (proj1 (proj2 H2)) Hin) as Hw1.
    destruct (refresh_swap_spec (ra_cache r) w (claimed e w1) H1 Hg Hq) as (c' & -> & Hc' & Hm). bind_ok.
    rewrite (claimed_not_seen e w1 w Hw1 Hw Eq) in *. eexists. split; [done|]. split; cbn [ra_cache ra_held ra_won ra_lost]; [done| | |].
    + rewrite !Forall_app. destruct H2 as (? & ? & ?). split; [done|]. split; [done|by apply Forall_cons].
    + intros p. rewrite Hm. apply H3.
    + intros p e' He'. rewrite Hm. specialize (H4 p e' He'). destruct (claims p (ra_won r)) as [|w2 [|]] eqn:Ep; [|done|done].
      destruct H4 as [H4 H5]. split; [done|]. rewrite claims_other; [done|]. fold q. intros ->. congruence.
Qed.

Lemma race_fetch r zone now out : race_inv m t r → race_event_ok t (Fetch zone now out) →
  ∃ r', race_step r (Fetch zone now out) = Ok r' ∧ race_inv m t r'.
Proof.
  intros [H1 H2 H3 H4] (ls & Hls & ->). cbn [race_step].
  destruct (dcache_get_spec (ra_cache r) ls now out H1 Hls) as (rc & out' & c' & -> & Hc' & Hm & _). bind_ok. eexists. split; [done|].
  split; cbn [ra_cache ra_held ra_won ra_lost]; rewrite ?Hm; done.
Qed.

Lemma race_run_spec es : Forall (race_event_ok t) es → ∀ r, race_inv m t r → ∃ r', race_run r es = Ok r' ∧ race_inv m t r'.
Proof.
  induction 1 as [|e es He _ IH]; intros r Hr; cbn [race_run]; [by exists r|].
  assert (∃ r', race_step r e = Ok r' ∧ race_inv m t r') as (r1 & -> & Hr1).
  { destruct e; [by apply race_look|by apply race_swap|by apply race_fetch]. }
  bind_ok. by apply IH.
Qed.
End race.

Lemma race_start_inv c t : dcache_ok c → race_inv (dcache_map c) t (mkRace c [] [] []).
Proof. intros Hc. by split; cbn [ra_cache ra_held ra_won ra_lost]. Qed.

(** ** The closest delegation *)

Lemma holds_read_det e ls ns ls' ns' : dent_holds e ls ns → dent_holds e ls' ns' → map read_ns ns = map read_ns ns'.
Proof.
  intros H1 H2. assert (∀ ls ns, dent_holds e ls ns → deleg_unpack (mkDeleg (name_of []) ELPIS_SEC_UNCHECKED 0 false 0 []) (drop (Z.to_nat (de_zonelen e)) (de_area e)) (de_datalen e) (de_nns e)
    = Ok (ELPIS_OK, mkDeleg (name_of []) ELPIS_SEC_UNCHECKED 0 false 0 (map read_ns ns))) as H.
  { intros a b Hh. rewrite (dh_area _ _ _ Hh), (dh_zonelen _ _ _ Hh), (dh_datalen _ _ _ Hh), (dh_nns _ _ _ Hh).
    rewrite drop_app_length' by (rewrite length_map; zl). by rewrite deleg_unpack_spec by apply Hh. }
  pose proof (H _ _ H1) as E1. pose proof (H _ _ H2) as E2. rewrite E1 in E2. by injection E2.
Qed.

Definition addrs (ns : list elpis_nsrec_t) : Z := foldl (fun n r => n + zlen (ns_a4 r) + zlen (ns_a6 r)) 0 ns.

Lemma addrs_read ns : addrs (map read_ns ns) = addrs ns.
Proof. unfold addrs. generalize 0. induction ns as [|r ns IH]; intros m; cbn [foldl map]; [done|]. apply IH. Qed.

(** There is a delegation at [ls] that may be used: it is live and has an address. *)
Definition usable (c : dcache_t) (ls : list (list Z)) (now : Z) (r : centry dent_t) (ns : list elpis_nsrec_t) : Prop :=
  dcache_map c !! dkey_of ls = Some r ∧ (∃ ls', dent_holds (e_body r) ls' ns) ∧ dent_stale r now = false ∧ 0 < addrs ns.

Lemma get_usable c ls now out : dcache_ok c → labels_ok ls →
  ∃ rc out' c', elpis_dcache_get c (name_of ls) now out = Ok (rc, out', c') ∧ dcache_ok c' ∧ dcache_map c' = dcache_map c ∧
    ((bool_decide (rc = ELPIS_OK) && (0 <? elpis_deleg_addr_count out') = true ∧ ∃ r ns, usable c ls now r ns ∧ out' = deleg_at r (name_of ls) ns now) ∨
     (bool_decide (rc = ELPIS_OK) && (0 <? elpis_deleg_addr_count out') = false ∧ ∀ r ns, ¬ usable c ls now r ns)).
Proof.
  intros Hc Hls. destruct (dcache_get_spec c ls now out Hc Hls) as (rc & out1 & c1 & E & Hc1 & Hm1 & Hcase). exists rc, out1, c1.
  split; [done|]. split; [done|]. split; [done|]. destruct (dcache_map c !! dkey_of ls) as [r|] eqn:Em.
  2:{ destruct Hcase as [-> ->]. right. split; [done|]. intros r ns (Hr & _). congruence. }
  destruct Hcase as (ls' & ns & Hh & Hcase). destruct (dent_stale r now) eqn:Es; destruct Hcase as [-> ->].
  { right. split; [done|]. intros r' ns' (Hr & _ & Hs & _). congruence. }
  rewrite bool_decide_eq_true_2 by done. cbn [andb]. change (elpis_deleg_addr_count (deleg_at r (name_of ls) ns now)) with (addrs (map read_ns ns)).
  rewrite addrs_read. destruct (Z.ltb_spec 0 (addrs ns)) as [Ha|Ha].
  - left. split; [done|]. exists r, ns. split; [|done]. split; [done|]. split; [by exists ls'|done].
  - right. split; [done|]. intros r' ns' (Hr & (ls2 & Hh') & _ & Ha'). rewrite Em in Hr. injection Hr as <-.
    pose proof (holds_read_det _ _ _ _ _ Hh Hh') as Ens. rewrite <- addrs_read, Ens, addrs_read in Ha. lia.
Qed.

Lemma closest_loop_spec ls : ∀ fuel c now guard out, dcache_ok c → labels_ok ls → (length ls < fuel)%nat → 0 <= guard → guard + zlen ls <= ELPIS_MAX_LABELS →
  ∃ rc out' c', closest_loop fuel c (name_of ls) now guard out = Ok (rc, out', c') ∧ dcache_ok c' ∧ dcache_map c' = dcache_map c ∧
    ((rc = ELPIS_OK ∧ ∃ k r ns, (k <= length ls)%nat ∧ usable c (drop k ls) now r ns ∧ out' = deleg_at r (name_of (drop k ls)) ns now ∧
        ∀ j r' ns', (j < k)%nat → ¬ usable c (drop j ls) now r' ns') ∨
     (rc = ELPIS_ENOTFOUND ∧ ∀ j r' ns', (j <= length ls)%nat → ¬ usable c (drop j ls) now r' ns')).
Proof.
  induction ls as [|l ls IH]; intros fuel c now guard out Hc Hls Hf Hg Hmax; (destruct fuel as [|fuel]; [cbn in Hf; lia|]); cbn [closest_loop].
  - destruct (get_usable c [] now out Hc Hls) as (rc & out1 & c1 & -> & Hc1 & Hm1 & [(Hb & r & ns & Hu & ->)|(Hb & Hno)]); bind_ok; rewrite Hb.
    + exists ELPIS_OK, (deleg_at r (name_of []) ns now), c1. split; [done|]. split; [done|]. split; [done|]. left. split; [done|].
      exists 0%nat, r, ns. split; [lia|]. split; [exact Hu|]. split; [done|]. lia.
    + change (n_len (name_of []) <=? 1) with true. exists ELPIS_ENOTFOUND, out1, c1. split; [done|]. split; [done|]. split; [done|]. right. split; [done|].
      intros j r' ns' Hj. replace (drop j []) with (@nil (list Z)) by (by destruct j). apply Hno.
  - destruct (get_usable c (l :: ls) now out Hc Hls) as (rc & out1 & c1 & -> & Hc1 & Hm1 & [(Hb & r & ns & Hu & ->)|(Hb & Hno)]); bind_ok; rewrite Hb.
    + exists ELPIS_OK, (deleg_at r (name_of (l :: ls)) ns now), c1. split; [done|]. split; [done|]. split; [done|]. left. split; [done|].
      exists 0%nat, r, ns. split; [lia|]. split; [exact Hu|]. split; [done|]. lia.
    + pose proof (labels_ok_cons l ls Hls) as [[Hl1 Hl2] Hls']. assert (1 < n_len (name_of (l :: ls))) as Hlen.
      { cbn [n_len name_of]. rewrite zlen_wire_cons. pose proof (zlen_wire_pos ls). lia. }
      destruct (Z.leb_spec (n_len (name_of (l :: ls))) 1); [lia|]. rewrite name_parent_spec by done. cbn [try]. bind_ok. rewrite zlen_cons in Hmax. pose proof (zlen_nonneg ls).
      destruct (Z.ltb_spec ELPIS_MAX_LABELS (guard + 1)); [lia|].
      destruct (IH fuel c1 now (guard + 1) out1 Hc1 Hls') as (rc2 & out2 & c2 & -> & Hc2 & Hm2 & Hcase2); [cbn in Hf; lia|lia|lia|].
      assert (∀ ls r ns, usable c1 ls now r ns ↔ usable c ls now r ns) as Hu1 by (intros; unfold usable; by rewrite Hm1).
      exists rc2, out2, c2. split; [done|]. split; [done|]. split; [congruence|]. destruct Hcase2 as [(-> & k & r & ns & Hk & Hu & -> & Hd)|(-> & Hd)].
      * left. split; [done|]. exists (S k), r, ns. split; [cbn; lia|]. split; [by apply Hu1|]. split; [done|]. intros [|j] r' ns' Hj; [apply Hno|].
        cbn [drop]. rewrite <- Hu1. apply Hd. lia.
      * right. split; [done|]. intros [|j] r' ns' Hj; [apply Hno|]. cbn [drop]. rewrite <- Hu1. apply Hd. cbn in Hj. lia.
Qed.

(** ** Building *)

(** A delegation as the builders make them: the servers distinct whatever the
    case of their names, their addresses too. *)
Record built_ok (d : elpis_deleg_t) (ls : list (list (list Z))) : Prop := {
  bo_names : map ns_name (d_ns d) = map name_of ls;
  bo_labels : Forall labels_ok ls;
  bo_distinct : NoDup (map fold_labels ls);
  bo_ns : Forall ns_ok (d_ns d);
  bo_max : zlen (d_ns d) <= ELPIS_DELEG_MAX_NS;
  bo_addrs : Forall (fun r => NoDup (ns_a4 r) ∧ NoDup (ns_a6 r)) (d_ns d) }.

Lemma find_ns_spec l ls n : map ns_name l = map name_of ls → Forall labels_ok ls → labels_ok n → ∀ i,
  ∃ o, find_ns_loop l (name_of n) i = Ok o ∧ match o with
    | Some j => ∃ k x, j = i + Z.of_nat k ∧ ls !! k = Some x ∧ labels_eq x n
    | None => fold_labels n ∉ map fold_labels ls end.
Proof.
  revert ls. induction l as [|r l IH]; intros [|x ls] En Hls Hn i; cbn [find_ns_loop map] in *; try done; [exists None; split; [done|apply not_elem_of_nil]|].
  injection En as Er En. apply Forall_cons_1 in Hls as [Hx Hls]. rewrite Er, name_eq_spec by done. bind_ok.
  destruct (bool_decide_reflect (labels_eq x n)) as [E|E].
  - exists (Some i). split; [done|]. exists 0%nat, x. split; [lia|done].
  - destruct (IH ls En Hls Hn (i + 1)) as (o & -> & Ho). exists o. split; [done|]. destruct o as [j|].
    + destruct Ho as (k & y & -> & Hy & Ey). exists (S k), y. split; [lia|done].
    + apply not_elem_of_cons. split; [|done]. intros E'. apply E. by symmetry.
Qed.

Lemma add_ns_spec d ls n : built_ok d ls → labels_ok n →
  ∃ d', elpis_deleg_add_ns d (name_of n) = Ok d' ∧
    (d' = d ∧ (fold_labels n ∈ map fold_labels ls ∨ zlen (d_ns d) = ELPIS_DELEG_MAX_NS) ∨
     d' = with_ns d (d_ns d ++ [mkNsrec (name_of (fold_labels n)) 0 53 [] []]) ∧ built_ok d' (ls ++ [fold_labels n])).
Proof.
  intros [B1 B2 B3 B4 B5 B6] Hn. unfold elpis_deleg_add_ns, elpis_deleg_find_ns. destruct (find_ns_spec _ _ n B1 B2 Hn 0) as ([j|] & -> & Ho); bind_ok.
  { exists d. split; [done|]. left. split; [done|]. left. destruct Ho as (k & x & _ & Hx & Ex). apply list_elem_of_fmap. exists x.
    split; [done|by eapply list_elem_of_lookup_2]. }
  destruct (Z.leb_spec ELPIS_DELEG_MAX_NS (zlen (d_ns d))); [exists d; split; [done|]; left; split; [done|]; right; lia|].
  rewrite name_lower_spec by done. bind_ok. eexists. split; [done|]. right. split; [done|]. pose proof (labels_ok_fold n Hn) as Hf. split; cbn [with_ns d_ns].
  - by rewrite !map_app, B1.
  - apply Forall_app. split; [done|by constructor].
  - rewrite map_app. cbn [map]. rewrite fold_labels_idem. apply NoDup_app. split; [done|]. split; [|apply NoDup_singleton].
    intros x Hx [= ->]%list_elem_of_singleton. done.
  - apply Forall_app. split; [done|]. constructor; [|done]. split; cbn; [by exists (fold_labels n)|done|lia|done|done].
  - rewrite zlen_app, zlen_cons, (@zlen_nil elpis_nsrec_t). lia.
  - apply Forall_app. split; [done|]. constructor; [|done]. split; apply NoDup_nil_2.
Qed.

Lemma add_ip_spec as_ ip w max : bytes ip → 0 <= w <= zlen ip → Forall (fun a => bytes a ∧ zlen a = w) as_ → NoDup as_ → zlen as_ <= max →
  ∃ as', add_ip as_ ip w max = Ok as' ∧ Forall (fun a => bytes a ∧ zlen a = w) as' ∧ NoDup as' ∧ zlen as' <= max ∧ as_ ⊆ as' ∧
    (take (Z.to_nat w) ip ∈ as' ∨ zlen as_ = max).
Proof.
  intros Hb Hw Ha Hd Hm. unfold add_ip. rewrite rds_in_range by lia. bind_ok. unfold slice. change (drop (Z.to_nat 0) ip) with ip. set (a := take _ _).
  destruct (bool_decide_reflect (a ∈ as_)); [exists as_; repeat (split; [done|]); by left|]. destruct (Z.ltb_spec (zlen as_) max).
  - exists (as_ ++ [a]). split; [done|]. split; [|split; [|split; [rewrite zlen_app, zlen_cons, (@zlen_nil (list Z)); lia|split; [by apply list_subseteq_app_l|left; apply elem_of_app; right; by apply list_elem_of_singleton]]]].
    + apply Forall_app. split; [done|]. constructor; [|done]. split; [by apply Forall_take|]. unfold a. rewrite zlen_take. lia.
    + apply NoDup_app. split; [done|]. split; [|apply NoDup_singleton]. intros x Hx ->%list_elem_of_singleton. done.
  - exists as_. split; [done|]. split; [done|]. split; [done|]. split; [done|]. split; [done|]. right. lia.
Qed.

(** One server replaced by one of the same name. *)
Lemma built_wr d ls i r r' : built_ok d ls → d_ns d !! i = Some r → ns_name r' = ns_name r → ns_ok r' → NoDup (ns_a4 r') → NoDup (ns_a6 r') →
  built_ok (with_ns d (<[i := r']> (d_ns d))) ls.
Proof.
  intros [B1 B2 B3 B4 B5 B6] Hi En Hr H4 H6. split; cbn [with_ns d_ns]; try done.
  - rewrite <- B1. apply list_eq. intros j. rewrite !list_lookup_fmap. destruct (decide (j = i)) as [->|]; [|by rewrite list_lookup_insert_ne].
    rewrite list_lookup_insert_eq by (by eapply lookup_lt_Some). rewrite Hi. cbn. by rewrite En.
  - by apply Forall_insert.
  - by rewrite zlen_insert.
  - apply Forall_insert; [done|by split].
Qed.

Definition ip_ok (ip : list Z) (family : Z) : Prop :=
  bytes ip ∧ (family = AF_INET → 4 <= zlen ip) ∧ (family = AF_INET6 → 16 <= zlen ip).

(** The server found is one of the list. *)
Lemma server_at d ls i k x : built_ok d ls → i = 0 + Z.of_nat k → ls !! k = Some x → ∃ r, rd (d_ns d) i = Ok r ∧ d_ns d !! k = Some r.
Proof.
  intros B -> Hx. assert (length (d_ns d) = length ls) as El by (pose proof (f_equal length (bo_names _ _ B)) as E; by rewrite !length_map in E).
  destruct (lookup_lt_is_Some_2 (d_ns d) k) as [r Hr]; [rewrite El; by eapply lookup_lt_Some|]. exists r. split; [|done].
  apply rd_lookup; [lia|]. rewrite Z.add_0_l, Nat2Z.id. done.
Qed.

Lemma add_addr_spec d ls n ip family flags : built_ok d ls → labels_ok n → ip_ok ip family → byte flags →
  ∃ d' ls', elpis_deleg_add_addr d (name_of n) ip family flags = Ok d' ∧ built_ok d' ls'.
Proof.
  intros B Hn (Hb & H4 & H6) Hf. unfold elpis_deleg_add_addr. change (elpis_deleg_find_ns d (name_of n)) with (find_ns_loop (d_ns d) (name_of n) 0).
  destruct (find_ns_spec _ _ n (bo_names _ _ B) (bo_labels _ _ B) Hn 0) as (o & -> & Ho). bind_ok.
  assert (∃ d1 ls1 o1, (match o with Some _ => Ok d | None => elpis_deleg_add_ns d (name_of n) end) = Ok d1 ∧ built_ok d1 ls1 ∧
    (match o with Some i => Ok (Some i) | None => elpis_deleg_find_ns d1 (name_of n) end) = Ok o1 ∧
    ∀ i, o1 = Some i → ∃ k x, i = 0 + Z.of_nat k ∧ ls1 !! k = Some x) as (d1 & ls1 & o1 & E1 & B1 & E2 & Ho1).
  { destruct o as [j|]; [exists d, ls, (Some j); split; [done|]; split; [done|]; split; [done|]; intros i [= <-]; destruct Ho as (k & x & -> & Hx & _); by exists k, x|].
    destruct (add_ns_spec d ls n B Hn) as (d1 & E1 & Hcase). assert (∃ ls1, built_ok d1 ls1) as (ls1 & B1) by (destruct Hcase as [[-> _]|[_ ?]]; by eexists).
    unfold elpis_deleg_find_ns. destruct (find_ns_spec _ _ n (bo_names _ _ B1) (bo_labels _ _ B1) Hn 0) as (o1 & E2 & Ho1).
    exists d1, ls1, o1. split; [done|]. split; [done|]. split; [done|]. intros i ->. destruct Ho1 as (k & x & -> & Hx & _). by exists k, x. }
  rewrite E1. bind_ok. rewrite E2. bind_ok. destruct o1 as [i|]; [|by exists d1, ls1]. destruct (Ho1 i eq_refl) as (k & x & Ei & Hx).
  destruct (server_at d1 ls1 i k x B1 Ei Hx) as (r & Er & Hr). rewrite Er. bind_ok. pose proof (Forall_lookup_1 _ _ _ _ (bo_ns _ _ B1) Hr) as [R1 R2 R3 [R4 R4'] [R6 R6']].
  destruct (Forall_lookup_1 _ _ _ _ (bo_addrs _ _ B1) Hr) as [D4 D6].
  assert (∃ a4, (if family =? AF_INET then add_ip (ns_a4 r) ip 4 ELPIS_NS_MAX_A4 else Ok (ns_a4 r)) = Ok a4 ∧ NoDup a4 ∧
    zlen a4 <= ELPIS_NS_MAX_A4 ∧ Forall (fun a => bytes a ∧ zlen a = 4) a4) as (a4 & -> & N4 & Z4 & F4).
  { destruct (Z.eqb_spec family AF_INET) as [E|]; [|by exists (ns_a4 r)]. destruct (add_ip_spec (ns_a4 r) ip 4 ELPIS_NS_MAX_A4 Hb) as (a4 & -> & ? & ? & ? & _); try done.
    - specialize (H4 E). lia. - by exists a4. }
  bind_ok. assert (∃ a6, (if family =? AF_INET6 then add_ip (ns_a6 r) ip 16 ELPIS_NS_MAX_A6 else Ok (ns_a6 r)) = Ok a6 ∧ NoDup a6 ∧
    zlen a6 <= ELPIS_NS_MAX_A6 ∧ Forall (fun a => bytes a ∧ zlen a = 16) a6) as (a6 & -> & N6 & Z6 & F6).
  { destruct (Z.eqb_spec family AF_INET6) as [E|]; [|by exists (ns_a6 r)]. destruct (add_ip_spec (ns_a6 r) ip 16 ELPIS_NS_MAX_A6 Hb) as (a6 & -> & ? & ? & ? & _); try done.
    - specialize (H6 E). lia. - by exists a6. }
  bind_ok. pose proof (lookup_lt_Some _ _ _ Hr). rewrite wr_in_range by zl. bind_ok. exists (with_ns d1 (<[Z.to_nat i := mkNsrec (ns_name r) (u8 (Z.land (u8 (Z.lor (ns_flags r) flags)) (Z.lnot ELPIS_NSF_NOADDR))) (ns_port r) a4 a6]> (d_ns d1))), ls1.
  split; [done|]. replace (Z.to_nat i) with k by lia. apply (built_wr d1 ls1 k r); try done. split; cbn; try done. apply u8_byte.
Qed.

Lemma add_addr_port_spec d ls n ip family flags port : built_ok d ls → labels_ok n → ip_ok ip family → byte flags → 0 <= port < 2 ^ 16 →
  ∃ d' ls', elpis_deleg_add_addr_port d (name_of n) ip family flags port = Ok d' ∧ built_ok d' ls'.
Proof.
  intros B Hn Hip Hf Hp. unfold elpis_deleg_add_addr_port. destruct (add_addr_spec d ls n ip family flags B Hn Hip Hf) as (d1 & ls1 & -> & B1). bind_ok.
  unfold elpis_deleg_find_ns. destruct (find_ns_spec _ _ n (bo_names _ _ B1) (bo_labels _ _ B1) Hn 0) as ([i|] & -> & Ho); bind_ok; [|by exists d1, ls1].
  destruct Ho as (k & x & Ei & Hx & _). destruct (server_at d1 ls1 i k x B1 Ei Hx) as (r & -> & Hr). bind_ok. pose proof (lookup_lt_Some _ _ _ Hr).
  rewrite wr_in_range by zl. bind_ok. eexists _, ls1. split; [done|]. replace (Z.to_nat i) with k by lia.
  pose proof (Forall_lookup_1 _ _ _ _ (bo_ns _ _ B1) Hr) as [R1 R2 R3 R4 R6]. destruct (Forall_lookup_1 _ _ _ _ (bo_addrs _ _ B1) Hr). by apply (built_wr d1 ls1 k r).
Qed.

(** ** Theorems *)

(** C35. The builders keep a delegation well formed: whatever names, addresses
    and ports are added in whatever order, they return, and the servers stay
    distinct whatever the case of their names, at most sixteen of them, each
    with at most four and two distinct addresses of four and sixteen octets, a
    16-bit port and octet-sized flags, which is what a cache entry can hold. *)
Theorem deleg_builders_wf d ls n ip family flags port : built_ok d ls → labels_ok n → ip_ok ip family → byte flags → 0 <= port < 2 ^ 16 →
  (∃ d' ls', elpis_deleg_add_ns d (name_of n) = Ok d' ∧ built_ok d' ls') ∧
  (∃ d' ls', elpis_deleg_add_addr d (name_of n) ip family flags = Ok d' ∧ built_ok d' ls') ∧
  (∃ d' ls', elpis_deleg_add_addr_port d (name_of n) ip family flags port = Ok d' ∧ built_ok d' ls').
Proof.
  intros B Hn Hip Hf Hp. split; [|split; [by eapply add_addr_spec|by eapply add_addr_port_spec]].
  destruct (add_ns_spec d ls n B Hn) as (d' & E & [[-> _]|[_ B']]); by eexists _, _.
Qed.

Module Delegated.
(** The delegation of "b." with one server "N.b", built from nothing. *)
Definition zone : list (list Z) := [[98]].
Definition server : list (list Z) := [[78]; [98]].
Definition empty : elpis_deleg_t := mkDeleg (name_of zone) ELPIS_SEC_UNCHECKED ELPIS_DS_UNKNOWN false 0 [].
Definition ip : list Z := [192; 0; 2; 1].
Definition d : elpis_deleg_t := match elpis_deleg_add_addr_port empty (name_of server) ip AF_INET 1 0 with Ok d => d | _ => empty end.
Definition c0 : dcache_t := mkCache 1 [fresh_shard 65536] 65536.
Definition c1 (pinned : bool) : dcache_t := match elpis_dcache_put Stored.alloc Stored.mem 100 c0 d 300 pinned with Ok (_, c, _) => c | _ => c0 end.

Lemma zone_ok : labels_ok zone.
Proof. by_compute. Qed.
Lemma server_ok : labels_ok server.
Proof. by_compute. Qed.
Lemma fresh_ok : dcache_ok c0.
Proof. by apply (cache_new_spec dent_key dkey_hash dent_ok 65536 1). Qed.
Lemma unserved_ok : built_ok empty [].
Proof. split; cbn; first [done|apply NoDup_nil_2|apply Forall_nil_2]. Qed.
Lemma d_ok : deleg_ok d zone.
Proof.
  split; [exact zone_ok|]. split; [done|]. split; [|done]. constructor; [|constructor]. split; [exists (fold_labels server); split; by_compute|done|by_compute|by_compute|by_compute].
Qed.
Lemma c1_ok pinned : dcache_ok (c1 pinned) ∧ ∃ r, dcache_map (c1 pinned) !! dkey_of zone = Some r ∧ stored r d zone 100 300 pinned.
Proof.
  unfold c1. destruct (dcache_put_spec Stored.alloc Stored.mem 100 c0 d zone 300 pinned Stored.tables_fit Stored.mem_spec fresh_ok d_ok) as (rc & c' & f & E & Hc' & Hok & _).
  assert ((match elpis_dcache_put Stored.alloc Stored.mem 100 c0 d 300 pinned with Ok (rc, _, _) => Some rc | _ => None end) = Some ELPIS_OK) as Erc
    by (destruct pinned; by vm_compute).
  rewrite E in *. injection Erc as ->. split; [done|]. by apply Hok.
Qed.
End Delegated.

Lemma deleg_builders_wf_witness :
  built_ok Delegated.empty [] ∧ ∃ d' ls', elpis_deleg_add_addr_port Delegated.empty (name_of Delegated.server) Delegated.ip AF_INET 1 0 = Ok d' ∧ built_ok d' ls'.
Proof.
  split; [exact Delegated.unserved_ok|].
  destruct (deleg_builders_wf Delegated.empty [] Delegated.server Delegated.ip AF_INET 1 0 Delegated.unserved_ok Delegated.server_ok) as (_ & _ & H);
    [split; by_compute|by_compute|lia|exact H].
Defined.

(** C20. A delegation stored is the delegation found: what elpis_dcache_put
    accepts is found under its zone in any letter case, with its security
    status, its DS state and the same servers and addresses in the same order
    (a server stored with port 0 has port 53), the TTL less the seconds since;
    after the TTL it is not found, unless it is pinned, and then its TTL is the
    one it was stored with. *)
Theorem dcache_store_fetch alloc mem clock c d ls ttl pinned : (∀ cap, alloc cap = true → cap <= 2 ^ 30) → mem_ok mem → dcache_ok c → deleg_ok d ls → 0 <= ttl < 2 ^ 32 →
  ∃ rc c' f, elpis_dcache_put alloc mem clock c d ttl pinned = Ok (rc, c', f) ∧ dcache_ok c' ∧
    (rc = ELPIS_OK → ∀ ls' now out, labels_ok ls' → labels_eq ls' ls →
      ∃ rc' out' c'', elpis_dcache_get c' (name_of ls') now out = Ok (rc', out', c'') ∧ dcache_ok c'' ∧
        let elapsed := u32 (now - clock) in
        if negb pinned && (ttl <=? elapsed) then rc' = ELPIS_ENOTFOUND ∧ out' = out
        else rc' = ELPIS_OK ∧
          out' = mkDeleg (name_of ls') (d_sec d) (d_ds_state d) pinned (if pinned then ttl else ttl - elapsed) (map read_ns (d_ns d))).
Proof.
  intros Ha Hmem Hc Hd Httl. destruct (dcache_put_spec alloc mem clock c d ls ttl pinned Ha Hmem Hc Hd) as (rc & c' & f & E & Hc' & Hok & _).
  exists rc, c', f. split; [done|]. split; [done|]. intros Hrc ls' now out Hls' Heq. destruct (Hok Hrc) as (r & Hr & [S1 S2 S3 S4 S5 S6 S7]).
  destruct (dcache_get_spec c' ls' now out Hc' Hls') as (rc' & out' & c'' & Eg & Hc'' & _ & Hcase). exists rc', out', c''. split; [done|]. split; [done|].
  rewrite (dkey_of_eq ls' ls Hls' (proj1 Hd) Heq), Hr in Hcase. destruct Hcase as (ls2 & ns & Hh & Hcase). unfold dent_stale, deleg_at in Hcase.
  rewrite S2, S3, S4, S5, S7, (holds_read_det _ _ _ _ _ Hh S1) in Hcase. cbv zeta. destruct (negb pinned && _) eqn:Es; [done|]. destruct Hcase as [-> ->]. split; [done|].
  f_equal. destruct pinned; [done|]. apply Z.leb_gt in Es. pose proof (u32_range (now - clock)). rewrite u32_id by lia. done.
Qed.

(** Stored at second 100 with a TTL of 300, found at second 150. *)
Lemma dcache_store_fetch_witness :
  ∃ c' f out' c'', elpis_dcache_put Stored.alloc Stored.mem 100 Delegated.c0 Delegated.d 300 false = Ok (ELPIS_OK, c', f) ∧
    elpis_dcache_get c' (name_of [[66]]) 150 Delegated.empty = Ok (ELPIS_OK, out', c'') ∧ d_ttl out' = 250 ∧ map ns_port (d_ns out') = [53].
Proof.
  destruct (dcache_store_fetch Stored.alloc Stored.mem 100 Delegated.c0 Delegated.d Delegated.zone 300 false Stored.tables_fit Stored.mem_spec Delegated.fresh_ok Delegated.d_ok ltac:(lia))
    as (rc & c' & f & E & _ & Hget).
  assert ((match elpis_dcache_put Stored.alloc Stored.mem 100 Delegated.c0 Delegated.d 300 false with Ok (rc, _, _) => Some rc | _ => None end) = Some ELPIS_OK) as Erc
    by (by vm_compute).
  rewrite E in Erc. injection Erc as ->. destruct (Hget eq_refl [[66]] 150 Delegated.empty) as (rc' & out' & c'' & Eg & _ & Hcase); [by_compute|by_compute|].
  cbv zeta in Hcase. change (negb false && (300 <=? u32 (150 - 100))) with false in Hcase. destruct Hcase as [-> ->]. exists c', f, (mkDeleg (name_of [[66]]) (d_sec Delegated.d) (d_ds_state Delegated.d) false (300 - u32 (150 - 100)) (map read_ns (d_ns Delegated.d))), c''. split; [exact E|]. split; [exact Eg|].
  split; vm_compute; reflexivity.
Defined.

(** C22. Of all the workers that ask whether a pinned delegation is due for a
    refresh within five minutes, at most one is told so, however their loads and their
    swaps fall among each other and among look-ups: no step writes an entry that
    is not there; at most one swap of an entry is made, and exactly one when any
    was tried; it is that of a pinned entry; and until five minutes after it
    whoever asks again, under any case of the name and with any interval, is
    told no.  The entry is not stored anew meanwhile, and the five minutes begin
    at second 2^32 - 600 or before. *)
Theorem refresh_claimed_once c t es : dcache_ok c → 0 <= t → t + 2 * REFRESH_RETRY <= 2 ^ 32 → Forall (race_event_ok t) es →
  ∃ r, race_run (mkRace c [] [] []) es = Ok r ∧ dcache_ok (ra_cache r) ∧
    (∀ q, zlen (claims q (ra_won r)) <= 1) ∧
    (∀ w, w ∈ ra_lost r → zlen (claims (dkey_canon (rf_key w)) (ra_won r)) = 1) ∧
    (∀ w, w ∈ ra_won r → ∃ e, dcache_map c !! dkey_canon (rf_key w) = Some e ∧ dent_pinned e = true) ∧
    (∀ w ls now every, w ∈ ra_won r → labels_ok ls → dkey_of ls = dkey_canon (rf_key w) → t <= now < rf_now w + REFRESH_RETRY →
      ∃ c', elpis_dcache_refresh_due (ra_cache r) (name_of ls) now every = Ok (false, c') ∧ dcache_map c' = dcache_map (ra_cache r)).
Proof.
  intros Hc Ht Ht' Hes. destruct (race_run_spec (dcache_map c) t Ht Ht' es Hes _ (race_start_inv c t Hc)) as (r & E & [H1 H2 H3 H4]).
  rewrite !Forall_app in H2. destruct H2 as (_ & Hwon & Hlost). exists r. split; [done|]. split; [done|]. split; [|split; [|split]].
  - intros q. destruct (dcache_map c !! q) as [e|] eqn:Eq.
    + specialize (H4 q e Eq). by destruct (claims q (ra_won r)) as [|w [|]].
    + destruct (claims q (ra_won r)) as [|w ws] eqn:Ec; [done|]. assert (w ∈ claims q (ra_won r)) as Hin by (rewrite Ec; by left).
      apply list_elem_of_filter in Hin as [<- Hin]. destruct (Forall_elem _ _ _ Hwon Hin) as (_ & _ & e & He & _). congruence.
  - intros w Hin. destruct (Forall_elem _ _ _ Hlost Hin) as (_ & _ & e & He & _). specialize (H4 _ _ He).
    destruct (claims _ (ra_won r)) as [|w1 [|]]; [|done|done]. destruct H4 as [_ Hno].
    assert (w ∈ claims (dkey_canon (rf_key w)) (ra_lost r)) as Hin2 by by apply list_elem_of_filter. rewrite Hno in Hin2. by apply elem_of_nil in Hin2.
  - intros w Hin. destruct (Forall_elem _ _ _ Hwon Hin) as (_ & _ & e & He & Hp & _). by exists e.
  - intros w ls now every Hin Hls Eq Hnow. destruct (Forall_elem _ _ _ Hwon Hin) as (_ & Hw & e & He & _). specialize (H4 _ _ He).
    assert (w ∈ claims (dkey_canon (rf_key w)) (ra_won r)) as Hin2 by by apply list_elem_of_filter.
    destruct (claims _ (ra_won r)) as [|w1 [|]]; [by apply elem_of_nil in Hin2| |done]. apply list_elem_of_singleton in Hin2 as <-.
    unfold elpis_dcache_refresh_due. destruct (refresh_begin_spec (ra_cache r) ls now every H1 Hls) as (o & c' & -> & _ & Hm & Ho). bind_ok.
    destruct o as [o|]; [|by exists c']. destruct Ho as (_ & _ & _ & e' & He' & Hf & _). rewrite Eq, H4 in He'. injection He' as <-.
    by rewrite (claimed_not_due t Ht Ht' e w now every Hw Hnow) in Hf.
Qed.

(** Three workers find "b" due before any has swapped; the second swaps first. *)
Module Race.
Definition es : list race_event :=
  [Look (name_of Delegated.zone) 500 0; Look (name_of [[66]]) 501 0; Look (name_of Delegated.zone) 502 300; Swap 1; Swap 1; Look (name_of Delegated.zone) 700 0; Swap 0].
End Race.

Lemma refresh_claimed_once_witness :
  ∃ r, race_run (mkRace (Delegated.c1 true) [] [] []) Race.es = Ok r ∧ map rf_now (ra_won r) = [501] ∧ zlen (ra_lost r) = 2 ∧
    (∀ q, zlen (claims q (ra_won r)) <= 1) ∧ ∃ c', elpis_dcache_refresh_due (ra_cache r) (name_of [[66]]) 800 0 = Ok (false, c').
Proof.
  assert (∀ ls, bool_decide (labels_ok ls) = true → ∃ ls', labels_ok ls' ∧ name_of ls = name_of ls') as Hn.
  { intros ls H. exists ls. split; [exact (bool_decide_eq_true_1 _ H)|reflexivity]. }
  destruct (refresh_claimed_once (Delegated.c1 true) 500 Race.es (proj1 (Delegated.c1_ok true)) ltac:(lia) ltac:(unfold REFRESH_RETRY; lia)) as (r & E & _ & H1 & _ & _ & H2).
  { unfold Race.es. repeat (apply Forall_cons; split; [first [exact I|split; [apply Hn; vm_compute; reflexivity|unfold REFRESH_RETRY; lia]]|]). by apply Forall_nil. }
  assert ((match race_run (mkRace (Delegated.c1 true) [] [] []) Race.es with Ok r => Some (map rf_now (ra_won r), zlen (ra_lost r), map (fun w => dkey_canon (rf_key w)) (ra_won r)) | _ => None end)
    = Some ([501], 2, [dkey_of [[66]]])) as Er by (vm_compute; reflexivity).
  rewrite E in Er. injection Er as E1 E2 E3. exists r. split; [exact E|]. split; [exact E1|]. split; [exact E2|]. split; [exact H1|].
  destruct (ra_won r) as [|w ws]; [discriminate E1|]. injection E1 as E1 _. injection E3 as E3 _.
  destruct (H2 w [[66]] 800 0) as (c' & E' & _); [by left|by_compute|symmetry; exact E3|rewrite E1; unfold REFRESH_RETRY; lia|]. exists c'. exact E'.
Defined.

(** C21. The closest delegation is the deepest: for every name the walk returns,
    with the delegation at the longest suffix of the name that has one that is
    live and has an address, and with nothing exactly when no suffix, the root
    included, has one; the cache holds the same delegations afterwards. *)
Theorem dcache_closest_deepest c ls now out : dcache_ok c → labels_ok ls →
  ∃ rc out' c', elpis_dcache_closest c (name_of ls) now out = Ok (rc, out', c') ∧ dcache_ok c' ∧ dcache_map c' = dcache_map c ∧
    ((rc = ELPIS_OK ∧ ∃ k r ns, (k <= length ls)%nat ∧ usable c (drop k ls) now r ns ∧ out' = deleg_at r (name_of (drop k ls)) ns now ∧
        ∀ j r' ns', (j < k)%nat → ¬ usable c (drop j ls) now r' ns') ∨
     (rc = ELPIS_ENOTFOUND ∧ ∀ j r' ns', (j <= length ls)%nat → ¬ usable c (drop j ls) now r' ns')).
Proof.
  intros Hc Hls. pose proof (zlen_labels_of_ok ls Hls). apply closest_loop_spec; [done|done|unfold ELPIS_MAX_LABELS; zl|lia|unfold ELPIS_MAX_LABELS; lia].
Qed.

(** "a.b" goes to the servers of "b". *)
Lemma dcache_closest_deepest_witness :
  ∃ out' c', elpis_dcache_closest (Delegated.c1 false) (name_of [[97]; [98]]) 200 Delegated.empty = Ok (ELPIS_OK, out', c') ∧
    ∃ k r ns, (k <= 2)%nat ∧ usable (Delegated.c1 false) (drop k [[97]; [98]]) 200 r ns ∧ out' = deleg_at r (name_of (drop k [[97]; [98]])) ns 200.
Proof.
  destruct (dcache_closest_deepest (Delegated.c1 false) [[97]; [98]] 200 Delegated.empty (proj1 (Delegated.c1_ok false)) ltac:(by_compute)) as (rc & out' & c' & E & _ & _ & Hcase).
  assert ((match elpis_dcache_closest (Delegated.c1 false) (name_of [[97]; [98]]) 200 Delegated.empty with Ok (rc, _, _) => Some rc | _ => None end) = Some ELPIS_OK) as Erc by (by vm_compute).
  rewrite E in Erc. injection Erc as ->. destruct Hcase as [(_ & k & r & ns & Hk & Hu & Ho & _)|(Hno & _)]; [|discriminate Hno].
  exists out', c'. split; [exact E|]. exists k, r, ns. split; [exact Hk|]. split; [exact Hu|exact Ho].
Defined.
