(* ===== verification/Valset.v ===== *)
(** The RRsets of an answer: src/dnssec/dnssec.c, lines 1809 to 2044 and 2099 to
    2119; how the records of a task's accumulator are grouped, which groups
    need a signature and who signed them, and whether the denial records among
    them answer the question. *)
From stdpp Require Import base list numbers.
From Stdlib Require Import ZArith Lia.
From S2P Require Import Prelude Bytes Simd Name NameOps Rdesc Rnames Ratelimit Rrset Dnskey Rrsig Nsec Nsec3 Rcache Rrlist.

(** ** Definitions *)

Definition ELPIS_SEC_ANSWER : Z := 0.
Definition ELPIS_SEC_AUTHORITY : Z := 1.
Definition ELPIS_T_OPT : Z := 41.

(** Whether the record's RRset has to carry a signature. *)
Definition set_must_be_signed (rr : elpis_trr_t) : bool :=
  if (t_type rr =? ELPIS_T_RRSIG) || (t_type rr =? ELPIS_T_OPT) then false
  else if t_section rr =? ELPIS_SEC_ANSWER then true
  else if t_section rr =? ELPIS_SEC_AUTHORITY then
    (t_type rr =? ELPIS_T_SOA) || (t_type rr =? ELPIS_T_NSEC) || (t_type rr =? ELPIS_T_NSEC3)
  else false.

(** The rdata of entry [j]. *)
Definition elpis_trr_rd (l : elpis_rrlist_t) (j : Z) : res (list Z) :=
  e ← rd (l_rr l) j; rds (l_pool l) (t_rdoff e) (t_rdlen e).

(** Whether entry [j] has the owner [a]; an unreadable owner is no one's. *)
Definition trr_owned (l : elpis_rrlist_t) (j : Z) (a : elpis_name_t) : res bool :=
  b ← try (elpis_trr_get_name l j);
  match b with None => Ok false | Some b => elpis_name_eq b a end.

(** [for (j = 0; j < i; j++)], [k] turns from [j]: whether no earlier entry is of the group. *)
Fixpoint leader_loop (l : elpis_rrlist_t) (a : elpis_name_t) (ri : elpis_trr_t) (k : nat) (j : Z) : res bool :=
  match k with
  | O => Ok true
  | S k =>
    rj ← rd (l_rr l) j;
    if negb (t_type rj =? t_type ri) || negb (t_klass rj =? t_klass ri) then leader_loop l a ri k (j + 1)
    else same ← trr_owned l j a; if (same : bool) then Ok false else leader_loop l a ri k (j + 1)
  end.

(** Whether [i] is the first entry of its owner, type and class. *)
Definition set_leader (l : elpis_rrlist_t) (i : Z) : res bool :=
  a ← try (elpis_trr_get_name l i);
  match a with
  | None => Ok false
  | Some a => ri ← rd (l_rr l) i; leader_loop l a ri (Z.to_nat i) 0
  end.

(** A call whose return code is not looked at. *)
Definition ignored (set : elpis_rrset_buf_t) (m : res elpis_rrset_buf_t) : res elpis_rrset_buf_t :=
  match m with Err _ _ => Ok set | m => m end.

Definition set_ttl (b : elpis_rrset_buf_t) (ttl : Z) : elpis_rrset_buf_t :=
  mkRrset (rs_name b) (rs_type b) (rs_klass b) ttl (rs_orig_ttl b) (rs_sec b) (rs_count b) (rs_sigcount b)
    (rs_flags b) (rs_zone_labels b) (rs_len b) (rs_off b) (rs_used b) (rs_data b).
Definition set_zone_labels (b : elpis_rrset_buf_t) (z : Z) : elpis_rrset_buf_t :=
  mkRrset (rs_name b) (rs_type b) (rs_klass b) (rs_ttl b) (rs_orig_ttl b) (rs_sec b) (rs_count b) (rs_sigcount b)
    (rs_flags b) z (rs_len b) (rs_off b) (rs_used b) (rs_data b).

(** The first pass: the data. *)
Fixpoint data_loop (l : elpis_rrlist_t) (owner : elpis_name_t) (rr : elpis_trr_t) (k : nat) (j : Z) (set : elpis_rrset_buf_t)
    : res elpis_rrset_buf_t :=
  match k with
  | O => Ok set
  | S k =>
    r2 ← rd (l_rr l) j;
    if negb (t_klass r2 =? t_klass rr) || negb (t_type r2 =? t_type rr) then data_loop l owner rr k (j + 1) set
    else
      same ← trr_owned l j owner;
      if negb same then data_loop l owner rr k (j + 1) set
      else
        d ← elpis_trr_rd l j;
        set ← ignored set (elpis_rrset_buf_add set d);
        data_loop l owner rr k (j + 1) (if t_ttl r2 <? rs_ttl set then set_ttl set (t_ttl r2) else set)
  end.

(** The second pass: the signatures that cover the type. *)
Fixpoint sigs_loop (l : elpis_rrlist_t) (owner : elpis_name_t) (rr : elpis_trr_t) (k : nat) (j : Z) (set : elpis_rrset_buf_t)
    : res elpis_rrset_buf_t :=
  match k with
  | O => Ok set
  | S k =>
    r2 ← rd (l_rr l) j;
    if negb (t_klass r2 =? t_klass rr) || negb (t_type r2 =? ELPIS_T_RRSIG) || (t_rdlen r2 <? 19) then sigs_loop l owner rr k (j + 1) set
    else
      d ← elpis_trr_rd l j;
      covered ← elpis_get16 d 0;
      if negb (covered =? t_type rr) then sigs_loop l owner rr k (j + 1) set
      else
        same ← trr_owned l j owner;
        if negb same then sigs_loop l owner rr k (j + 1) set
        else
          set ← ignored set (elpis_rrset_buf_add_sig set d);
          sigs_loop l owner rr k (j + 1) set
  end.

(** The RRset led by entry [i], in the buffer given, and whether it has a record. *)
Definition build_set (l : elpis_rrlist_t) (i : Z) (set : elpis_rrset_buf_t) : res (bool * elpis_rrset_buf_t) :=
  rr ← rd (l_rr l) i;
  owner ← try (elpis_trr_get_name l i);
  match owner with
  | None => Ok (false, set)
  | Some owner =>
    let set := set_zone_labels (elpis_rrset_buf_init set owner (t_type rr) (t_klass rr) (t_ttl rr)) (t_zone_labels rr) in
    set ← data_loop l owner rr (length (l_rr l)) 0 set;
    set ← sigs_loop l owner rr (length (l_rr l)) 0 set;
    Ok (0 <? rs_count set, set)
  end.

(** The first signature of the RRset led by [i] whose signer is a name. *)
Fixpoint signer_loop (l : elpis_rrlist_t) (owner : elpis_name_t) (rr : elpis_trr_t) (k : nat) (j : Z) : res (option elpis_name_t) :=
  match k with
  | O => Ok None
  | S k =>
    r2 ← rd (l_rr l) j;
    if negb (t_type r2 =? ELPIS_T_RRSIG) || (t_rdlen r2 <? 19) then signer_loop l owner rr k (j + 1)
    else
      d ← elpis_trr_rd l j;
      covered ← elpis_get16 d 0;
      if negb (covered =? t_type rr) then signer_loop l owner rr k (j + 1)
      else
        same ← trr_owned l j owner;
        if negb same then signer_loop l owner rr k (j + 1)
        else
          sn ← try (elpis_name_parse_nocomp (drop 18 d) (t_rdlen r2 - 18));
          match sn with
          | None => signer_loop l owner rr k (j + 1)
          | Some (sn, _) => sn ← elpis_name_lower sn; Ok (Some sn)
          end
  end.

Definition set_signer (l : elpis_rrlist_t) (i : Z) : res (option elpis_name_t) :=
  rr ← rd (l_rr l) i;
  owner ← try (elpis_trr_get_name l i);
  match owner with
  | None => Ok None
  | Some owner => signer_loop l owner rr (length (l_rr l)) 0
  end.

(** The zone that served the RRset led by [i], as the record was stamped. *)
Definition serving_zone (l : elpis_rrlist_t) (i : Z) : res (option elpis_name_t) :=
  rr ← rd (l_rr l) i;
  let stamp := t_zone_labels rr in
  if stamp =? 0 then Ok None
  else
    owner ← try (elpis_trr_get_name l i);
    match owner with
    | None => Ok None
    | Some owner => if n_labels owner <? stamp - 1 then Ok None else try (elpis_name_suffix owner (stamp - 1))
    end.

Definition set_is_unsigned (l : elpis_rrlist_t) (i : Z) : res bool :=
  rr ← rd (l_rr l) i;
  if set_must_be_signed rr then
    lead ← set_leader l i;
    if (lead : bool) then sn ← set_signer l i; Ok (match sn with None => true | Some _ => false end) else Ok false
  else Ok false.

(** ** Denial of existence *)

(** What [check_denial] reads of the task. *)
Record denial_q := mkDenialQ { q_name : elpis_name_t; q_type : Z; q_rcode : Z; q_from_cache : bool }.

(** The denial records found so far, and what was seen. *)
Record denial_acc := mkDenialAcc { a_rrs : list elpis_denial_rr_t; a_nsec3 : bool; a_nsec : bool; a_answered : bool }.

Definition DENIAL_MAX : Z := 32.

Fixpoint gather_denial (l : elpis_rrlist_t) (k : nat) (i : Z) (a : denial_acc) : res denial_acc :=
  match k with
  | O => Ok a
  | S k =>
    rr ← rd (l_rr l) i;
    let answered := a_answered a || ((t_section rr =? ELPIS_SEC_ANSWER) && negb (t_type rr =? ELPIS_T_RRSIG)) in
    let a := mkDenialAcc (a_rrs a) (a_nsec3 a) (a_nsec a) answered in
    if negb (t_section rr =? ELPIS_SEC_AUTHORITY) then gather_denial l k (i + 1) a
    else if negb (t_type rr =? ELPIS_T_NSEC) && negb (t_type rr =? ELPIS_T_NSEC3) then gather_denial l k (i + 1) a
    else if DENIAL_MAX <=? zlen (a_rrs a) then Ok a
    else
      o ← try (elpis_trr_get_name l i);
      match o with
      | None => gather_denial l k (i + 1) a
      | Some o =>
        d ← elpis_trr_rd l i;
        gather_denial l k (i + 1)
          (mkDenialAcc (a_rrs a ++ [mkDenial o d (t_rdlen rr)]) (a_nsec3 a || (t_type rr =? ELPIS_T_NSEC3))
             (a_nsec a || negb (t_type rr =? ELPIS_T_NSEC3)) answered)
      end
  end.

(** NSEC3 first, then NSEC: each proof as a number, the first that is not 0. *)
Definition either_proof (nsec3 : bool) (p3 : res Z) (nsec : bool) (p : res bool) : res Z :=
  r ← (if nsec3 then p3 else Ok 0);
  if negb (r =? 0) then Ok r
  else if nsec then b ← p; Ok (Z.b2z b) else Ok 0.

Definition check_denial (harden_stripped : bool) (l : elpis_rrlist_t) (q : denial_q) (zone : elpis_name_t) : res Z :=
  a ← gather_denial l (length (l_rr l)) 0 (mkDenialAcc [] false false false);
  if a_answered a then Ok 1
  else if zlen (a_rrs a) =? 0 then Ok (if harden_stripped && negb (q_from_cache q) then 0 else 1)
  else if q_rcode q =? ELPIS_RC_NXDOMAIN then
    either_proof (a_nsec3 a) (elpis_nsec3_proves_nxdomain (a_rrs a) (q_name q) zone)
      (a_nsec a) (elpis_nsec_proves_nxdomain (a_rrs a) (q_name q))
  else if q_type q =? ELPIS_T_DS then
    either_proof (a_nsec3 a) (elpis_nsec3_proves_no_ds (a_rrs a) (q_name q) zone)
      (a_nsec a) (elpis_nsec_proves_no_ds (a_rrs a) (q_name q))
  else
    either_proof (a_nsec3 a) (elpis_nsec3_proves_nodata (a_rrs a) (q_name q) (q_type q) zone)
      (a_nsec a) (elpis_nsec_proves_nodata (a_rrs a) (q_name q) (q_type q)).


(** ** The groups of a list of records *)

(** The rdata can be handed to the buffers. *)
Definition recs_ok (R : list trec) : Prop :=
  Forall (fun r => bytes (r_rdata r) ∧ zlen (r_rdata r) < 2 ^ 16 ∧ 0 <= r_type r < 2 ^ 16) R.

(** [x] is of the RRset of [r]. *)
Definition in_set (r x : trec) : Prop := r_type x = r_type r ∧ r_klass x = r_klass r ∧ labels_eq (r_name x) (r_name r).
(** [x] is a signature over the type of [r] at its owner; [signs_set] looks at the class too. *)
Definition names_signer (r x : trec) : Prop :=
  r_type x = ELPIS_T_RRSIG ∧ 19 <= zlen (r_rdata x) ∧ oct16 (r_rdata x) 0 = r_type r ∧ labels_eq (r_name x) (r_name r).
Definition signs_set (r x : trec) : Prop := r_klass x = r_klass r ∧ names_signer r x.

#[export] Instance in_set_dec r x : Decision (in_set r x).
Proof. unfold in_set. apply _. Defined.
#[export] Instance names_signer_dec r x : Decision (names_signer r x).
Proof. unfold names_signer. apply _. Defined.
#[export] Instance signs_set_dec r x : Decision (signs_set r x).
Proof. unfold signs_set. apply _. Defined.

(** Record [i] leads its RRset: no earlier record is of it. *)
Definition leads (R : list trec) (i : nat) : Prop :=
  ∃ r, R !! i = Some r ∧ Forall (fun x => ¬ in_set r x) (take i R).

Definition must_sign (r : trec) : Prop :=
  r_type r ≠ ELPIS_T_RRSIG ∧ r_type r ≠ ELPIS_T_OPT ∧
  (r_section r = ELPIS_SEC_ANSWER ∨
   r_section r = ELPIS_SEC_AUTHORITY ∧ (r_type r = ELPIS_T_SOA ∨ r_type r = ELPIS_T_NSEC ∨ r_type r = ELPIS_T_NSEC3)).

#[export] Instance leads_dec R i : Decision (leads R i).
Proof.
  destruct (R !! i) as [r|] eqn:E; [|right; by intros (r & Hr & _); rewrite E in Hr].
  destruct (decide (Forall (fun x => ¬ in_set r x) (take i R))) as [H|H]; [left; by exists r|right].
  intros (x & Hx & H'). rewrite E in Hx. by injection Hx as <-.
Defined.
#[export] Instance must_sign_dec r : Decision (must_sign r).
Proof. unfold must_sign. apply _. Defined.

(** What fits, in order: a record too many or too long for what is left is skipped. *)
Fixpoint fit (n room : Z) (xs : list (list Z)) : list (list Z) :=
  match xs with
  | [] => []
  | x :: xs => if (1 <=? n) && (zlen x <=? room) then x :: fit (n - 1) (room - zlen x) xs else fit n room xs
  end.

Definition group_data (R : list trec) (r : trec) : list (list Z) :=
  fit ELPIS_RRSET_MAX_RR ELPIS_RRSET_BUF (r_rdata <$> filter (in_set r) R).
Definition group_sigs (R : list trec) (r : trec) : list (list Z) :=
  fit (ELPIS_RRSET_MAX_RR - zlen (group_data R r)) (ELPIS_RRSET_BUF - total (group_data R r)) (r_rdata <$> filter (signs_set r) R).

(** The zone the code takes for the signer of [r]'s RRset: that of the first
    signature over it that holds a name, in lower case. *)
Definition no_form (sig : list Z) : Prop := ∀ signer rest, ¬ rrsig_form sig signer rest.
Definition signer_is (R : list trec) (r : trec) (o : option (list (list Z))) : Prop :=
  match o with
  | None => ∀ x, x ∈ R → names_signer r x → no_form (r_rdata x)
  | Some z => ∃ i x signer rest, R !! i = Some x ∧ names_signer r x ∧ rrsig_form (r_rdata x) signer rest ∧ z = fold_labels signer ∧
      ∀ y, y ∈ take i R → names_signer r y → no_form (r_rdata y)
  end.

(** ** Reading the list *)

Section Read.
Context (l : elpis_rrlist_t) (R : list trec) (Hl : holds l R).

Lemma trr_entry i r : R !! i = Some r → ∃ e, rd (l_rr l) (Z.of_nat i) = Ok e ∧ stands_for (l_pool l) e r.
Proof using Hl.
  intros Hr. destruct (Forall2_lookup_r _ _ _ _ _ (proj1 Hl) Hr) as (e & He & Hs). exists e. split; [|done].
  apply rd_lookup; [lia|by rewrite Nat2Z.id].
Qed.

Lemma trr_length : length (l_rr l) = length R.
Proof using Hl. eapply Forall2_length, (proj1 Hl). Qed.

Lemma trr_name i r : R !! i = Some r → elpis_trr_get_name l (Z.of_nat i) = Ok (name_of (r_name r)).
Proof using Hl. intros Hr. apply (trr_get_name_spec l R); [done|lia|by rewrite Nat2Z.id]. Qed.

Lemma trr_labels i r : R !! i = Some r → labels_ok (r_name r).
Proof using Hl. intros Hr. destruct (trr_entry i r Hr) as (e & _ & Hs). apply Hs. Qed.

Lemma trr_rdata i r : R !! i = Some r → elpis_trr_rd l (Z.of_nat i) = Ok (r_rdata r).
Proof using Hl.
  intros Hr. destruct (trr_entry i r Hr) as (e & He & Hs). unfold elpis_trr_rd. rewrite He. bind_step. apply Hs.
Qed.

Lemma trr_owned_spec i r a : R !! i = Some r → labels_ok a → trr_owned l (Z.of_nat i) (name_of a) = Ok (bool_decide (labels_eq (r_name r) a)).
Proof using Hl.
  intros Hr Ha. unfold trr_owned. rewrite (trr_name i r Hr). cbn [try]. bind_step. apply name_eq_spec; [by apply (trr_labels i)|done].
Qed.

Lemma leader_loop_spec r a ri : labels_ok a → labels_eq a (r_name r) → t_type ri = r_type r → t_klass ri = r_klass r →
  ∀ k j, (j + k <= length R)%nat →
  leader_loop l (name_of a) ri k (Z.of_nat j) = Ok (bool_decide (Forall (fun x => ¬ in_set r x) (take k (drop j R)))).
Proof using Hl.
  intros Ha Ea Et Ek. induction k as [|k IH]; intros j Hj; cbn [leader_loop]; [done|].
  destruct (lookup_lt_is_Some_2 R j) as [x Hx]; [lia|]. destruct (trr_entry j x Hx) as (e & He & Hs). rewrite He. bind_step.
  destruct Hs as (_ & _ & _ & _ & _ & Tt & Tk & _). rewrite Tt, Tk, Et, Ek, (drop_S R x j Hx). cbn [take].
  specialize (IH (S j) ltac:(lia)). replace (Z.of_nat j + 1) with (Z.of_nat (S j)) by lia.
  assert (¬ in_set r x → bool_decide (Forall (fun y => ¬ in_set r y) (x :: take k (drop (S j) R)))
    = bool_decide (Forall (fun y => ¬ in_set r y) (take k (drop (S j) R)))) as Hskip.
  { intros Hx'. apply bool_decide_ext. rewrite Forall_cons_iff. tauto. }
  destruct (negb (r_type x =? r_type r) || negb (r_klass x =? r_klass r)) eqn:E.
  { rewrite IH, Hskip; [done|]. intros (E1 & E2 & _). rewrite E1, E2, !Z.eqb_refl in E. done. }
  apply orb_false_iff in E as [E1%negb_false_iff%Z.eqb_eq E2%negb_false_iff%Z.eqb_eq].
  rewrite (trr_owned_spec j x a Hx Ha). bind_step. destruct (bool_decide_reflect (labels_eq (r_name x) a)) as [En|En].
  - rewrite bool_decide_eq_false_2; [done|]. rewrite Forall_cons_iff. intros [Hn _]. apply Hn. split; [done|]. split; [done|].
    unfold labels_eq in *. congruence.
  - rewrite IH, Hskip; [done|]. intros (_ & _ & E3). apply En. unfold labels_eq in *. congruence.
Qed.

Lemma set_leader_spec i r : R !! i = Some r → set_leader l (Z.of_nat i) = Ok (bool_decide (leads R i)).
Proof using Hl.
  intros Hr. unfold set_leader. rewrite (trr_name i r Hr). cbn [try]. bind_step.
  destruct (trr_entry i r Hr) as (e & -> & Hs). bind_step. rewrite Nat2Z.id. apply lookup_lt_Some in Hr as Hi.
  rewrite (leader_loop_spec r (r_name r) e (proj1 Hs) eq_refl) with (j := 0%nat); [|apply Hs|apply Hs|lia]. rewrite drop_0. f_equal.
  apply bool_decide_ext. split; [by exists r|]. intros (x & Hx & H). rewrite Hr in Hx. by injection Hx as <-.
Qed.

Lemma must_be_signed_spec e r : stands_for (l_pool l) e r → set_must_be_signed e = bool_decide (must_sign r).
Proof.
  intros (_ & _ & _ & _ & _ & Et & _ & _ & Es & _). unfold set_must_be_signed, must_sign. rewrite Et, Es. symmetry.
  destruct (Z.eqb_spec (r_type r) ELPIS_T_RRSIG); [apply bool_decide_eq_false_2; tauto|].
  destruct (Z.eqb_spec (r_type r) ELPIS_T_OPT); [apply bool_decide_eq_false_2; tauto|]. cbn [orb].
  destruct (Z.eqb_spec (r_section r) ELPIS_SEC_ANSWER); [apply bool_decide_eq_true_2; tauto|].
  destruct (Z.eqb_spec (r_section r) ELPIS_SEC_AUTHORITY); [|apply bool_decide_eq_false_2; tauto].
  destruct (Z.eqb_spec (r_type r) ELPIS_T_SOA); [apply bool_decide_eq_true_2; tauto|].
  destruct (Z.eqb_spec (r_type r) ELPIS_T_NSEC); [apply bool_decide_eq_true_2; tauto|].
  destruct (Z.eqb_spec (r_type r) ELPIS_T_NSEC3); [apply bool_decide_eq_true_2; tauto|]. apply bool_decide_eq_false_2. tauto.
Qed.
End Read.

(** ** Building a set *)

Lemma fit_step n room x xs :
  fit n room (x :: xs) = fit n room [x] ++ fit (n - zlen (fit n room [x])) (room - total (fit n room [x])) xs.
Proof.
  cbn [fit]. destruct ((1 <=? n) && (zlen x <=? room)); cbn [app].
  - do 2 f_equal. unfold total. cbn [concat]. by rewrite app_nil_r.
  - change (zlen (@nil (list Z))) with 0. change (total []) with 0. by rewrite !Z.sub_0_r.
Qed.

(** What is in a buffer besides its records and its TTL. *)
Definition rrset_kind (b : elpis_rrset_buf_t) :=
  (rs_name b, rs_type b, rs_klass b, rs_orig_ttl b, rs_sec b, rs_flags b, rs_zone_labels b).

Lemma put_kind b i x c s b' : rrset_put b i x c s = Ok b' → rrset_kind b' = rrset_kind b ∧ rs_ttl b' = rs_ttl b.
Proof.
  unfold rrset_put. intros (off & _ & E)%bind_Ok_inv. apply bind_Ok_inv in E as (len & _ & E). apply bind_Ok_inv in E as (d & _ & E).
  by injection E as <-.
Qed.

Lemma add_kind b x b' : elpis_rrset_buf_add b x = Ok b' ∨ elpis_rrset_buf_add_sig b x = Ok b' → rrset_kind b' = rrset_kind b ∧ rs_ttl b' = rs_ttl b.
Proof.
  unfold elpis_rrset_buf_add, elpis_rrset_buf_add_sig.
  intros [E|E]; [do 3 (apply bind_Ok_inv in E as (? & _ & E))|do 2 (apply bind_Ok_inv in E as (? & _ & E))]; by eapply put_kind.
Qed.

(** [b'] is [b] with what fits of [xs] added. *)
Definition grown (b b' : elpis_rrset_buf_t) (ds sgs ds' sgs' f : list (list Z)) : Prop :=
  rrset_kind b' = rrset_kind b ∧ rs_ttl b' = rs_ttl b ∧ rrset_holds b' ds' sgs' ∧ rs_used b' = rs_used b + total f.

Lemma fit_one n room x : (1 <= n ∧ zlen x <= room ∧ fit n room [x] = [x]) ∨ (¬ (1 <= n ∧ zlen x <= room) ∧ fit n room [x] = []).
Proof.
  cbn [fit]. destruct (Z.leb_spec 1 n), (Z.leb_spec (zlen x) room); cbn [andb]; [left|right..]; split; try split; done || lia.
Qed.

Lemma ignored_add_spec b ds x : rrset_holds b ds [] → bytes x → zlen x < 2 ^ 16 →
  let f := fit (ELPIS_RRSET_MAX_RR - zlen ds) (ELPIS_RRSET_BUF - rs_used b) [x] in
  ∃ b', ignored b (elpis_rrset_buf_add b x) = Ok b' ∧ grown b b' ds [] (ds ++ f) [] f.
Proof.
  intros Hb Hx Hz f. pose proof (rrset_add_spec b ds [] x Hb Hx Hz) as H. unfold rrset_room in H. rewrite (@zlen_nil (list Z)), Z.add_0_r in H.
  destruct (fit_one (ELPIS_RRSET_MAX_RR - zlen ds) (ELPIS_RRSET_BUF - rs_used b) x) as [(H1 & H2 & Ef)|(Hno & Ef)]; unfold f; rewrite Ef; clear f Ef.
  - rewrite decide_True in H by (split; [done|lia]). destruct H as (b' & E & Hb' & Hu & _). rewrite E. exists b'. split; [done|].
    destruct (add_kind b x b') as [Hk Ht]; [by left|]. split; [done|]. split; [done|]. split; [done|]. unfold total. cbn [concat]. by rewrite app_nil_r.
  - rewrite decide_False in H by (intros [_ ?]; apply Hno; lia). rewrite H. exists b. split; [done|]. rewrite app_nil_r.
    split; [done|]. split; [done|]. split; [done|]. change (total []) with 0. lia.
Qed.

Lemma ignored_sig_spec b ds sgs x : rrset_holds b ds sgs → bytes x → zlen x < 2 ^ 16 →
  let f := fit (ELPIS_RRSET_MAX_RR - zlen ds - zlen sgs) (ELPIS_RRSET_BUF - rs_used b) [x] in
  ∃ b', ignored b (elpis_rrset_buf_add_sig b x) = Ok b' ∧ grown b b' ds sgs ds (sgs ++ f) f.
Proof.
  intros Hb Hx Hz f. pose proof (rrset_add_sig_spec b ds sgs x Hb Hx Hz) as H. unfold rrset_room in H.
  destruct (fit_one (ELPIS_RRSET_MAX_RR - zlen ds - zlen sgs) (ELPIS_RRSET_BUF - rs_used b) x) as [(H1 & H2 & Ef)|(Hno & Ef)]; unfold f; rewrite Ef; clear f Ef.
  - rewrite decide_True in H by lia. destruct H as (b' & E & Hb' & Hu & _). rewrite E. exists b'. split; [done|].
    destruct (add_kind b x b') as [Hk Ht]; [by right|]. split; [done|]. split; [done|]. split; [done|]. unfold total. cbn [concat]. by rewrite app_nil_r.
  - rewrite decide_False in H by (intros ?; apply Hno; lia). rewrite H. exists b. split; [done|]. rewrite app_nil_r.
    split; [done|]. split; [done|]. split; [done|]. change (total []) with 0. lia.
Qed.

Lemma set_ttl_holds b ds sgs t : rrset_holds b ds sgs → rrset_holds (set_ttl b t) ds sgs.
Proof. intros []. by split. Qed.
Lemma set_zone_labels_holds b ds sgs z : rrset_holds b ds sgs → rrset_holds (set_zone_labels b z) ds sgs.
Proof. intros []. by split. Qed.

Section Build.
Context (l : elpis_rrlist_t) (R : list trec) (Hl : holds l R) (HR : recs_ok R).

Lemma rec_ok_at j x : R !! j = Some x → bytes (r_rdata x) ∧ zlen (r_rdata x) < 2 ^ 16.
Proof using HR. intros Hx. destruct (Forall_lookup_1 _ _ _ _ HR Hx) as (? & ? & _). done. Qed.

(** The test both passes make of a record. *)
Lemma data_loop_spec r a ri : labels_ok a → labels_eq a (r_name r) → t_type ri = r_type r → t_klass ri = r_klass r →
  ∀ k j b ds, (j + k <= length R)%nat → rrset_holds b ds [] →
  let g := filter (in_set r) (take k (drop j R)) in
  let f := fit (ELPIS_RRSET_MAX_RR - zlen ds) (ELPIS_RRSET_BUF - rs_used b) (r_rdata <$> g) in
  ∃ b', data_loop l (name_of a) ri k (Z.of_nat j) b = Ok b' ∧ rrset_kind b' = rrset_kind b ∧ rrset_holds b' (ds ++ f) [] ∧
    rs_used b' = rs_used b + total f ∧ rs_ttl b' = foldl Z.min (rs_ttl b) (r_ttl <$> g).
Proof using Hl HR.
  intros Ha Ea Et Ek. induction k as [|k IH]; intros j b ds Hj Hb; cbn [data_loop].
  { exists b. rewrite take_0. cbn [filter list_filter fmap list_fmap fit foldl]. change (total []) with 0. by rewrite app_nil_r, Z.add_0_r. }
  destruct (lookup_lt_is_Some_2 R j) as [x Hx]; [lia|]. destruct (trr_entry l R Hl j x Hx) as (e & He & Hs). rewrite He. bind_step.
  pose proof Hs as (_ & _ & _ & _ & _ & Tt & Tk & Tl & _). rewrite Tt, Tk, Et, Ek, (drop_S R x j Hx). cbn [take].
  replace (Z.of_nat j + 1) with (Z.of_nat (S j)) by lia.
  destruct (decide (in_set r x)) as [Hin|Hout]; [rewrite filter_cons_True by done|rewrite filter_cons_False by done].
  - pose proof Hin as (E1 & E2 & E3). rewrite E1, E2, !Z.eqb_refl. cbn [negb orb].
    rewrite (trr_owned_spec l R Hl j x a Hx Ha), bool_decide_eq_true_2 by (unfold labels_eq in *; congruence). bind_step.
    rewrite (trr_rdata l R Hl j x Hx). bind_step. destruct (rec_ok_at j x Hx) as [Hbx Hzx].
    destruct (ignored_add_spec b ds (r_rdata x) Hb Hbx Hzx) as (b1 & -> & Hk1 & Ht1 & Hh1 & Hu1). bind_step. rewrite Tl, Ht1.
    set (f1 := fit _ _ [r_rdata x]) in *. set (b2 := if r_ttl x <? rs_ttl b then set_ttl b1 (r_ttl x) else b1).
    assert (rrset_holds b2 (ds ++ f1) [] ∧ rrset_kind b2 = rrset_kind b ∧ rs_used b2 = rs_used b1 ∧ rs_ttl b2 = Z.min (rs_ttl b) (r_ttl x))
      as (Hh2 & Hk2 & Hu2 & Ht2).
    { unfold b2. destruct (Z.ltb_spec (r_ttl x) (rs_ttl b)); split_and!; try done; [by apply set_ttl_holds|cbn; lia|rewrite Ht1; lia]. }
    destruct (IH (S j) b2 (ds ++ f1) ltac:(lia) Hh2) as (b' & -> & Hk' & Hh' & Hu' & Ht'). exists b'. split; [done|].
    split; [congruence|]. rewrite fmap_cons, fit_step. fold f1. rewrite fmap_cons. cbn [foldl]. rewrite Ht', Ht2.
    rewrite zlen_app, Hu2, Hu1 in *. replace (ELPIS_RRSET_MAX_RR - zlen ds - zlen f1) with (ELPIS_RRSET_MAX_RR - (zlen ds + zlen f1)) by lia.
    replace (ELPIS_RRSET_BUF - rs_used b - total f1) with (ELPIS_RRSET_BUF - (rs_used b + total f1)) by lia.
    rewrite app_assoc. split; [done|]. split; [|done]. rewrite Hu'. unfold total. rewrite concat_app, zlen_app. lia.
  - destruct (IH (S j) b ds ltac:(lia) Hb) as (b' & Eb & H). exists b'. split; [|done].
    destruct (negb (r_klass x =? r_klass r) || negb (r_type x =? r_type r)) eqn:E; [done|].
    apply orb_false_iff in E as [E1%negb_false_iff%Z.eqb_eq E2%negb_false_iff%Z.eqb_eq].
    rewrite (trr_owned_spec l R Hl j x a Hx Ha), bool_decide_eq_false_2; [done|]. intros E3. apply Hout. split; [done|]. split; [done|].
    unfold labels_eq in *. congruence.
Qed.

Lemma sigs_loop_spec r a ri : labels_ok a → labels_eq a (r_name r) → t_type ri = r_type r → t_klass ri = r_klass r →
  ∀ k j b ds sgs, (j + k <= length R)%nat → rrset_holds b ds sgs →
  let f := fit (ELPIS_RRSET_MAX_RR - zlen ds - zlen sgs) (ELPIS_RRSET_BUF - rs_used b) (r_rdata <$> filter (signs_set r) (take k (drop j R))) in
  ∃ b', sigs_loop l (name_of a) ri k (Z.of_nat j) b = Ok b' ∧ grown b b' ds sgs ds (sgs ++ f) f.
Proof using Hl HR.
  intros Ha Ea Et Ek. induction k as [|k IH]; intros j b ds sgs Hj Hb; cbn [sigs_loop].
  { exists b. rewrite take_0. cbn [filter list_filter fmap list_fmap fit]. unfold grown. change (total []) with 0. by rewrite app_nil_r, Z.add_0_r. }
  destruct (lookup_lt_is_Some_2 R j) as [x Hx]; [lia|]. destruct (trr_entry l R Hl j x Hx) as (e & He & Hs). rewrite He. bind_step.
  pose proof Hs as (_ & _ & Trl & _ & _ & Tt & Tk & Tl & _). rewrite Tt, Tk, Trl, Et, Ek, (drop_S R x j Hx). cbn [take].
  replace (Z.of_nat j + 1) with (Z.of_nat (S j)) by lia. destruct (rec_ok_at j x Hx) as [Hbx Hzx].
  destruct (decide (signs_set r x)) as [Hin|Hout]; [rewrite filter_cons_True by done|rewrite filter_cons_False by done].
  - pose proof Hin as (E2 & E1 & E3 & E4 & E5). rewrite E1, E2, !Z.eqb_refl. cbn [negb orb]. zfalse (zlen (r_rdata x) <? 19).
    rewrite (trr_rdata l R Hl j x Hx). bind_step. rewrite get16_oct by (done || lia). bind_step. rewrite E4, Z.eqb_refl. cbn [negb].
    rewrite (trr_owned_spec l R Hl j x a Hx Ha), bool_decide_eq_true_2 by (unfold labels_eq in *; congruence). bind_step.
    destruct (ignored_sig_spec b ds sgs (r_rdata x) Hb Hbx Hzx) as (b1 & -> & Hk1 & Ht1 & Hh1 & Hu1). bind_step.
    set (f1 := fit _ _ [r_rdata x]) in *.
    destruct (IH (S j) b1 ds (sgs ++ f1) ltac:(lia) Hh1) as (b' & -> & Hk' & Ht' & Hh' & Hu'). exists b'. split; [done|].
    split; [congruence|]. split; [congruence|]. rewrite fmap_cons, fit_step. fold f1.
    rewrite zlen_app, Hu1 in *. replace (ELPIS_RRSET_MAX_RR - zlen ds - (zlen sgs + zlen f1)) with (ELPIS_RRSET_MAX_RR - zlen ds - zlen sgs - zlen f1) in * by lia.
    replace (ELPIS_RRSET_BUF - (rs_used b + total f1)) with (ELPIS_RRSET_BUF - rs_used b - total f1) in * by lia.
    rewrite app_assoc. split; [done|]. rewrite Hu'. unfold total. rewrite concat_app, zlen_app. lia.
  - destruct (IH (S j) b ds sgs ltac:(lia) Hb) as (b' & Eb & H). exists b'. split; [|done].
    destruct (negb (r_klass x =? r_klass r) || negb (r_type x =? ELPIS_T_RRSIG) || (zlen (r_rdata x) <? 19)) eqn:E; [done|].
    apply orb_false_iff in E as [[E1%negb_false_iff%Z.eqb_eq E2%negb_false_iff%Z.eqb_eq]%orb_false_iff E3%Z.ltb_ge].
    rewrite (trr_rdata l R Hl j x Hx). bind_step. rewrite get16_oct by (done || lia). bind_step.
    destruct (Z.eqb_spec (oct16 (r_rdata x) 0) (r_type r)) as [E4|]; cbn [negb]; [|done].
    rewrite (trr_owned_spec l R Hl j x a Hx Ha), bool_decide_eq_false_2; [done|]. intros E5. apply Hout. split; [done|]. split; [done|].
    split; [done|]. split; [done|]. unfold labels_eq in *. congruence.
Qed.

(** What [build_set] leaves in the buffer. *)
Record built (r : trec) (b : elpis_rrset_buf_t) : Prop := {
  bt_holds : rrset_holds b (group_data R r) (group_sigs R r);
  bt_kind : rrset_kind b = (name_of (r_name r), r_type r, r_klass r, r_ttl r, ELPIS_SEC_UNCHECKED, 0, r_zone_labels r);
  bt_ttl : rs_ttl b = foldl Z.min (r_ttl r) (r_ttl <$> filter (in_set r) R) }.

Lemma build_set_spec i r b : R !! i = Some r → rrset_sized b →
  ∃ b', build_set l (Z.of_nat i) b = Ok (bool_decide (group_data R r ≠ []), b') ∧ built r b'.
Proof using Hl HR.
  intros Hr (S1 & S2 & S3). unfold build_set. destruct (trr_entry l R Hl i r Hr) as (e & -> & Hs). bind_step.
  pose proof Hs as (Hok & _ & _ & _ & _ & Tt & Tk & Tl & _ & Tz & _). rewrite (trr_name l R Hl i r Hr). cbn [try]. bind_step.
  set (b0 := set_zone_labels _ _). assert (rrset_holds b0 [] []) as Hb0.
  { apply set_zone_labels_holds. split; cbn; rewrite ?(@zlen_nil (list Z)); unfold ELPIS_RRSET_MAX_RR, ELPIS_RRSET_BUF in *; done || lia. }
  destruct (data_loop_spec r (r_name r) e Hok eq_refl Tt Tk (length (l_rr l)) 0 b0 [] ) as (b1 & E1 & K1 & H1 & U1 & T1);
    [rewrite (trr_length l R Hl); lia|done|]. change (Z.of_nat 0) with 0 in E1. rewrite E1. bind_step.
  destruct (sigs_loop_spec r (r_name r) e Hok eq_refl Tt Tk (length (l_rr l)) 0 b1 _ [] ltac:(rewrite (trr_length l R Hl); lia) H1) as (b2 & E2 & K2 & T2 & H2 & U2).
  change (Z.of_nat 0) with 0 in E2. rewrite E2. bind_step. rewrite drop_0, take_ge, (@zlen_nil (list Z)), Z.sub_0_r in * by (rewrite (trr_length l R Hl); lia).
  change (rs_used b0) with 0 in *. rewrite Z.sub_0_r, Z.add_0_l in *. cbn [app] in *. fold (group_data R r) in *. rewrite U1, Z.sub_0_r in H2. fold (group_sigs R r) in H2.
  exists b2. split.
  - rewrite (rh_count _ _ _ H2). do 2 f_equal. destruct (group_data R r) as [|x xs]; [done|].
    rewrite zlen_cons, bool_decide_eq_true_2 by done. pose proof (zlen_nonneg xs). apply Z.ltb_lt. lia.
  - split; [done| |by rewrite T2, T1; cbn; rewrite Tl]. rewrite K2, K1. unfold rrset_kind. cbn. by rewrite Tt, Tk, Tl, Tz.
Qed.
End Build.

(** ** Signers *)

Section Signer.
Context (l : elpis_rrlist_t) (R : list trec) (Hl : holds l R) (HR : recs_ok R).

Lemma signer_loop_spec r a ri : labels_ok a → labels_eq a (r_name r) → t_type ri = r_type r →
  ∀ k j, (j + k <= length R)%nat → (∀ y, y ∈ take j R → names_signer r y → no_form (r_rdata y)) →
  ∃ o, signer_loop l (name_of a) ri k (Z.of_nat j) = Ok (name_of <$> o) ∧ signer_is (take (j + k) R) r o ∧
    ∀ z, o = Some z → labels_ok z ∧ fold_labels z = z.
Proof using Hl HR.
  intros Ha Ea Et. induction k as [|k IH]; intros j Hj Hno; cbn [signer_loop].
  { exists None. split; [done|]. by rewrite Nat.add_0_r. }
  destruct (lookup_lt_is_Some_2 R j) as [x Hx]; [lia|]. destruct (trr_entry l R Hl j x Hx) as (e & He & Hs). rewrite He. bind_step.
  pose proof Hs as (_ & _ & Trl & _ & _ & Tt & _). rewrite Tt, Trl, Et.
  replace (Z.of_nat j + 1) with (Z.of_nat (S j)) by lia. replace (j + S k)%nat with (S j + k)%nat by lia.
  destruct (rec_ok_at R HR j x Hx) as [Hbx Hzx]. specialize (IH (S j) ltac:(lia)). rewrite (take_S_r R j x Hx) in IH.
  assert ((names_signer r x → no_form (r_rdata x)) → ∃ o, signer_loop l (name_of a) ri k (Z.of_nat (S j)) = Ok (name_of <$> o) ∧
    signer_is (take (S j + k) R) r o ∧ ∀ z, o = Some z → labels_ok z ∧ fold_labels z = z) as Hskip.
  { intros Hx'. apply IH. intros y [Hy|Hy]%elem_of_app; [by apply Hno|]. by apply list_elem_of_singleton in Hy as ->. }
  destruct (negb (r_type x =? ELPIS_T_RRSIG) || (zlen (r_rdata x) <? 19)) eqn:E.
  { apply Hskip. intros (E1 & E2 & _). rewrite E1, Z.eqb_refl in E. cbn in E. lia. }
  apply orb_false_iff in E as [E1%negb_false_iff%Z.eqb_eq E2%Z.ltb_ge].
  rewrite (trr_rdata l R Hl j x Hx). bind_step. rewrite get16_oct by (done || lia). bind_step.
  destruct (Z.eqb_spec (oct16 (r_rdata x) 0) (r_type r)) as [E3|E3]; cbn [negb]; [|by apply Hskip; intros (_ & _ & ? & _)].
  rewrite (trr_owned_spec l R Hl j x a Hx Ha). bind_step.
  destruct (bool_decide_reflect (labels_eq (r_name x) a)) as [E4|E4]; cbn [negb].
  2:{ apply Hskip. intros (_ & _ & _ & ?). destruct E4. unfold labels_eq in *. congruence. }
  assert (names_signer r x) as Hin by (unfold names_signer, labels_eq in *; split_and!; done || congruence).
  destruct (signer_parse (r_rdata x) Hbx ltac:(lia)) as [(signer & rest & Hf & ->)|[(rc & d & ->) Hn]]; cbn [try]; bind_step; [|by apply Hskip].
  rewrite name_lower_spec by apply Hf. bind_step. exists (Some (fold_labels signer)). split; [done|]. split.
  - exists j, x, signer, rest. split; [by rewrite lookup_take_lt by lia|]. do 3 (split; [done|]). rewrite take_take, Nat.min_l by lia. done.
  - intros ? [= <-]. split; [apply labels_ok_fold, Hf|apply fold_labels_idem].
Qed.

Lemma set_signer_spec i r : R !! i = Some r →
  ∃ o, set_signer l (Z.of_nat i) = Ok (name_of <$> o) ∧ signer_is R r o ∧ ∀ z, o = Some z → labels_ok z ∧ fold_labels z = z.
Proof using Hl HR.
  intros Hr. unfold set_signer. destruct (trr_entry l R Hl i r Hr) as (e & -> & Hs). bind_step.
  rewrite (trr_name l R Hl i r Hr). cbn [try]. bind_step.
  destruct (signer_loop_spec r (r_name r) e (proj1 Hs) eq_refl) with (k := length (l_rr l)) (j := 0%nat) as (o & E & H);
    [apply Hs|rewrite (trr_length l R Hl); lia|intros y Hy; by apply elem_of_nil in Hy|].
  exists o. split; [exact E|]. by rewrite Nat.add_0_l, take_ge in H by (rewrite (trr_length l R Hl); lia).
Qed.

(** The list decides the signer. *)
Lemma signer_is_det r o o' : signer_is R r o → signer_is R r o' → o = o'.
Proof using.
  destruct o as [z|], o' as [z'|]; cbn; [| | |done].
  - intros (i & x & s & t & Hx & Hn & Hf & -> & Hb) (i' & x' & s' & t' & Hx' & Hn' & Hf' & -> & Hb').
    assert (i = i') as <-.
    { destruct (Nat.lt_trichotomy i i') as [Hlt|[?|Hlt]]; [exfalso|done|exfalso].
      - apply (Hb' x) in Hf; [done| |done]. apply elem_of_take. by exists i.
      - apply (Hb x') in Hf'; [done| |done]. apply elem_of_take. by exists i'. }
    rewrite Hx in Hx'. injection Hx' as <-. destruct (rrsig_form_det _ _ _ _ _ Hf Hf') as [-> _]. done.
  - intros (i & x & s & t & Hx & Hn & Hf & _) H. exfalso. by apply (H x (list_elem_of_lookup_2 _ _ _ Hx) Hn) in Hf.
  - intros H (i & x & s & t & Hx & Hn & Hf & _). exfalso. by apply (H x (list_elem_of_lookup_2 _ _ _ Hx) Hn) in Hf.
Qed.

Lemma set_is_unsigned_spec i r : R !! i = Some r →
  ∃ b, set_is_unsigned l (Z.of_nat i) = Ok b ∧ (b = true ↔ must_sign r ∧ leads R i ∧ signer_is R r None).
Proof using Hl HR.
  intros Hr. unfold set_is_unsigned. destruct (trr_entry l R Hl i r Hr) as (e & -> & Hs). bind_step.
  rewrite (must_be_signed_spec l e r Hs). destruct (bool_decide_reflect (must_sign r)); [|exists false; split; [done|]; split; [done|tauto]].
  rewrite (set_leader_spec l R Hl i r Hr). bind_step. destruct (bool_decide_reflect (leads R i)); [|exists false; split; [done|]; split; [done|tauto]].
  destruct (set_signer_spec i r Hr) as (o & -> & Ho & _). bind_step. eexists. split; [done|].
  destruct o as [z|]; cbn [fmap option_fmap option_map]; [|tauto]. split; [done|]. intros (_ & _ & Hn). by apply (signer_is_det r _ _ Hn) in Ho.
Qed.

Lemma serving_zone_spec i r : R !! i = Some r → 0 <= r_zone_labels r →
  serving_zone l (Z.of_nat i) = Ok (if decide (1 <= r_zone_labels r <= zlen (r_name r) + 1)
    then Some (name_of (drop (length (r_name r) - Z.to_nat (r_zone_labels r - 1)) (r_name r))) else None).
Proof using Hl.
  intros Hr Hz. unfold serving_zone. destruct (trr_entry l R Hl i r Hr) as (e & -> & Hs). bind_step.
  pose proof Hs as (Hok & _ & _ & _ & _ & _ & _ & _ & _ & -> & _).
  destruct (Z.eqb_spec (r_zone_labels r) 0); [by rewrite decide_False by lia|]. rewrite (trr_name l R Hl i r Hr). cbn [try]. bind_step.
  cbn [n_labels name_of]. destruct (Z.ltb_spec (zlen (r_name r)) (r_zone_labels r - 1)); [by rewrite decide_False by lia|].
  rewrite decide_True by lia. by rewrite name_suffix_spec by (done || lia).
Qed.
End Signer.

(** ** Denial *)

Section Denial.
Context (l : elpis_rrlist_t) (R : list trec) (Hl : holds l R) (HR : recs_ok R).

Definition denial_of (x : trec) : elpis_denial_rr_t := mkDenial (name_of (r_name x)) (r_rdata x) (zlen (r_rdata x)).
Definition denies (x : trec) : Prop :=
  r_section x = ELPIS_SEC_AUTHORITY ∧ (r_type x = ELPIS_T_NSEC ∨ r_type x = ELPIS_T_NSEC3).
Definition answers (x : trec) : Prop := r_section x = ELPIS_SEC_ANSWER ∧ r_type x ≠ ELPIS_T_RRSIG.
#[export] Instance denies_dec x : Decision (denies x).
Proof. unfold denies. apply _. Defined.
#[export] Instance answers_dec x : Decision (answers x).
Proof. unfold answers. apply _. Defined.

(** The first 32 denial records of the authority section. *)
Definition denials : list trec := take (Z.to_nat DENIAL_MAX) (filter denies R).
Definition has_type_in (t : Z) (ds : list trec) : bool := existsb (fun x => r_type x =? t) ds.

Lemma gather_denial_spec k : ∀ j a, (j + k <= length R)%nat → zlen (a_rrs a) <= DENIAL_MAX →
  let ds := take (Z.to_nat (DENIAL_MAX - zlen (a_rrs a))) (filter denies (take k (drop j R))) in
  ∃ ans, gather_denial l k (Z.of_nat j) a = Ok (mkDenialAcc (a_rrs a ++ (denial_of <$> ds))
      (a_nsec3 a || has_type_in ELPIS_T_NSEC3 ds) (a_nsec a || has_type_in ELPIS_T_NSEC ds) ans) ∧
    (ans = true → a_answered a = true ∨ Exists answers (take k (drop j R))) ∧
    (a_answered a = true → ans = true) ∧
    (zlen (filter denies (take k (drop j R))) <= DENIAL_MAX - zlen (a_rrs a) → Exists answers (take k (drop j R)) → ans = true).
Proof using Hl HR.
  induction k as [|k IH]; intros j a Hj Ha; cbn [gather_denial].
  { rewrite take_0. cbn [filter list_filter]. rewrite take_nil. cbn [fmap list_fmap has_type_in existsb]. rewrite app_nil_r, !orb_false_r.
    exists (a_answered a). split; [by destruct a|]. split; [tauto|]. split; [done|]. intros _ H. by apply Exists_nil in H. }
  destruct (lookup_lt_is_Some_2 R j) as [x Hx]; [lia|]. destruct (trr_entry l R Hl j x Hx) as (e & He & Hs). rewrite He. bind_step.
  pose proof Hs as (_ & _ & Trl & _ & _ & Tt & _ & _ & Ts & _). rewrite Tt, Ts, Trl, (drop_S R x j Hx). cbn [take].
  replace (Z.of_nat j + 1) with (Z.of_nat (S j)) by lia.
  set (b := (r_section x =? ELPIS_SEC_ANSWER) && negb (r_type x =? ELPIS_T_RRSIG)).
  assert (b = true ↔ answers x) as Hb.
  { unfold b, answers. rewrite andb_true_iff, negb_true_iff, Z.eqb_eq, Z.eqb_neq. done. }
  set (a' := mkDenialAcc (a_rrs a) (a_nsec3 a) (a_nsec a) (a_answered a || b)).
  assert (¬ denies x → ∃ ans, gather_denial l k (Z.of_nat (S j)) a' = Ok (mkDenialAcc (a_rrs a ++ (denial_of <$> take (Z.to_nat (DENIAL_MAX - zlen (a_rrs a))) (filter denies (x :: take k (drop (S j) R)))))
      (a_nsec3 a || has_type_in ELPIS_T_NSEC3 (take (Z.to_nat (DENIAL_MAX - zlen (a_rrs a))) (filter denies (x :: take k (drop (S j) R)))))
      (a_nsec a || has_type_in ELPIS_T_NSEC (take (Z.to_nat (DENIAL_MAX - zlen (a_rrs a))) (filter denies (x :: take k (drop (S j) R))))) ans) ∧
    (ans = true → a_answered a = true ∨ Exists answers (x :: take k (drop (S j) R))) ∧
    (a_answered a = true → ans = true) ∧
    (zlen (filter denies (x :: take k (drop (S j) R))) <= DENIAL_MAX - zlen (a_rrs a) → Exists answers (x :: take k (drop (S j) R)) → ans = true)) as Hskip.
  { intros Hx'. rewrite filter_cons_False by done. destruct (IH (S j) a' ltac:(lia) Ha) as (ans & E & H1 & H2 & H3).
    exists ans. split; [exact E|]. cbn [a' a_answered a_rrs] in *. rewrite Exists_cons, <- Hb. split; [|split].
    - intros Hans. destruct (H1 Hans) as [Ho|Ho]; [|tauto]. apply orb_true_iff in Ho. tauto.
    - intros Ho. apply H2. by rewrite Ho.
    - intros Hz [Ho|Ho]; [apply H2; rewrite Ho; apply orb_true_r|by apply H3]. }
  destruct (Z.eqb_spec (r_section x) ELPIS_SEC_AUTHORITY) as [Es|Es]; cbn [negb]; [|by apply Hskip; intros [? _]].
  destruct (negb (r_type x =? ELPIS_T_NSEC) && negb (r_type x =? ELPIS_T_NSEC3)) eqn:E.
  { apply Hskip. intros [_ [E'|E']]; rewrite E', Z.eqb_refl in E; [done|]. by rewrite andb_false_r in E. }
  clear Hskip. assert (r_type x = ELPIS_T_NSEC ∨ r_type x = ELPIS_T_NSEC3) as Et.
  { apply andb_false_iff in E as [E%negb_false_iff%Z.eqb_eq|E%negb_false_iff%Z.eqb_eq]; tauto. }
  rewrite filter_cons_True by (split; done). cbn [a' a_rrs a_nsec3 a_nsec].
  destruct (Z.leb_spec DENIAL_MAX (zlen (a_rrs a))) as [Hfull|Hroom].
  { replace (Z.to_nat (DENIAL_MAX - zlen (a_rrs a))) with 0%nat by lia. rewrite take_0. cbn [fmap list_fmap has_type_in existsb]. rewrite app_nil_r, !orb_false_r.
    eexists. split; [done|]. split; [|split].
    - intros Ho%orb_true_iff. rewrite Exists_cons, <- Hb. tauto.
    - intros ->. done.
    - rewrite zlen_cons. pose proof (zlen_nonneg (filter denies (take k (drop (S j) R)))). lia. }
  rewrite (trr_name l R Hl j x Hx). cbn [try]. bind_step. rewrite (trr_rdata l R Hl j x Hx). bind_step.
  set (a2 := mkDenialAcc _ _ _ _). destruct (IH (S j) a2 ltac:(lia)) as (ans & E2 & H1 & H2 & H3).
  { cbn [a2 a_rrs]. rewrite zlen_app, zlen_cons, (@zlen_nil elpis_denial_rr_t). lia. }
  exists ans. rewrite E2. clear E2. cbn [a2 a_rrs a_nsec3 a_nsec a_answered] in *. rewrite zlen_app, zlen_cons, (@zlen_nil elpis_denial_rr_t) in *.
  replace (Z.to_nat (DENIAL_MAX - zlen (a_rrs a))) with (S (Z.to_nat (DENIAL_MAX - (zlen (a_rrs a) + (1 + 0))))) by lia. cbn [take].
  rewrite fmap_cons. cbn [has_type_in existsb]. rewrite !orb_assoc. split.
  { do 2 f_equal; [by rewrite <- app_assoc|]. f_equal. f_equal. destruct Et as [-> | ->]; done. }
  rewrite Exists_cons, <- Hb, zlen_cons. split; [|split].
  - intros Hans. destruct (H1 Hans) as [Ho|Ho]; [|tauto]. apply orb_true_iff in Ho. tauto.
  - intros Ho. apply H2. by rewrite Ho.
  - intros Hz [Ho|Ho]; [apply H2; rewrite Ho; apply orb_true_r|apply H3; [lia|done]].
Qed.

Lemma denials_wf : Forall wf_denial (denial_of <$> denials).
Proof using Hl HR.
  apply Forall_fmap, Forall_take, Forall_filter, Forall_lookup_2. intros i x Hx. cbn.
  destruct (rec_ok_at R HR i x Hx) as [Hb _]. split; [|split; [done|]].
  - exists (r_name x). split; [by apply (trr_labels l R Hl i)|done].
  - cbn. pose proof (zlen_nonneg (r_rdata x)). lia.
Qed.

(** The first of the two proofs that is not 0. *)
Definition first_proof (n3 : bool) (p3 : res Z) (n : bool) (p : res bool) (v : Z) : Prop :=
  ∃ v3 b, p3 = Ok v3 ∧ p = Ok b ∧
    let a := if n3 then v3 else 0 in let c := if n then Z.b2z b else 0 in v = if a =? 0 then c else a.

Lemma either_proof_spec n3 p3 n p v3 b : p3 = Ok v3 → p = Ok b →
  ∃ v, either_proof n3 p3 n p = Ok v ∧ first_proof n3 p3 n p v.
Proof using.
  intros -> ->. unfold either_proof, first_proof. destruct n3; bind_step; [|].
  - destruct (Z.eqb_spec v3 0) as [->|]; cbn [negb].
    + destruct n; bind_step; (eexists; split; [done|]; by exists 0, b).
    + eexists. split; [done|]. exists v3, b. split; [done|]. split; [done|]. cbn. by rewrite (proj2 (Z.eqb_neq v3 0)).
  - rewrite Z.eqb_refl. cbn [negb]. destruct n; bind_step; (eexists; split; [done|]; by exists v3, b).
Qed.

(** The proof [check_denial] asks for of the denial records [ds]. *)
Definition denial_proof (ds : list trec) (q : list (list Z)) (qtype rcode : Z) (za : list (list Z)) (v : Z) : Prop :=
  let rrs := denial_of <$> ds in let n3 := has_type_in ELPIS_T_NSEC3 ds in let n := has_type_in ELPIS_T_NSEC ds in
  if decide (rcode = ELPIS_RC_NXDOMAIN) then
    first_proof n3 (elpis_nsec3_proves_nxdomain rrs (name_of q) (name_of za)) n (elpis_nsec_proves_nxdomain rrs (name_of q)) v
  else if decide (qtype = ELPIS_T_DS) then
    first_proof n3 (elpis_nsec3_proves_no_ds rrs (name_of q) (name_of za)) n (elpis_nsec_proves_no_ds rrs (name_of q)) v
  else
    first_proof n3 (elpis_nsec3_proves_nodata rrs (name_of q) qtype (name_of za)) n (elpis_nsec_proves_nodata rrs (name_of q) qtype) v.

Lemma check_denial_spec harden q za qn : q_name q = name_of qn → labels_ok qn → labels_ok za → 0 <= q_type q < 65536 →
  ∃ v, check_denial harden l q (name_of za) = Ok v ∧
    (Exists answers R ∧ v = 1 ∨
     denials = [] ∧ v = (if harden && negb (q_from_cache q) then 0 else 1) ∨
     denials ≠ [] ∧ denial_proof denials qn (q_type q) (q_rcode q) za v).
Proof using Hl HR.
  intros Eq Hq Hz Ht. unfold check_denial.
  destruct (gather_denial_spec (length (l_rr l)) 0 (mkDenialAcc [] false false false)) as (ans & E & H1 & _);
    [rewrite (trr_length l R Hl); lia|done|]. change (Z.of_nat 0) with 0 in E. rewrite E. clear E. bind_step.
  cbn [a_rrs a_nsec3 a_nsec a_answered orb app] in *. change (zlen (@nil elpis_denial_rr_t)) with 0.
  assert (take (length (l_rr l)) (drop 0 R) = R) as ER by (rewrite drop_0, take_ge; [done|rewrite (trr_length l R Hl); lia]).
  rewrite Z.sub_0_r, ER in *.
  fold denials. destruct ans; [exists 1; split; [done|]; left; split; [|done]; by destruct (H1 eq_refl)|]. clear H1. rewrite Eq.
  pose proof denials_wf as Hwf. change (list_fmap trec elpis_denial_rr_t denial_of denials) with (denial_of <$> denials).
  destruct denials as [|d ds] eqn:Ed; [eexists; split; [done|]; right; by left|]. rewrite <- Ed in *. 
  assert ((zlen (denial_of <$> denials) =? 0) = false) as ->.
  { rewrite Ed. cbn [fmap list_fmap]. rewrite zlen_cons. pose proof (zlen_nonneg (denial_of <$> ds)). cbn [fmap] in *. lia. }
  set (rrs := denial_of <$> denials) in *. unfold denial_proof. fold rrs.
  destruct (nsec_nxdomain_spec rrs qn Hwf Hq) as (b1 & E1 & _). destruct (nsec3_nxdomain_spec rrs za Hwf Hz qn Hq) as (v1 & E1' & _).
  destruct (nsec_delegation_sound [] rrs qn Hwf Hq) as (_ & b2 & _ & E2 & _). destruct (nsec3_no_ds_spec rrs za Hwf Hz qn Hq) as (v2 & E2' & _).
  destruct (nsec_nodata_spec [] rrs qn (q_type q) Hwf Hq Ht) as (b3 & E3 & _). destruct (nsec3_nodata_spec rrs za Hwf Hz qn (q_type q) Hq Ht) as (v3 & E3' & _).
  destruct (decide (q_rcode q = ELPIS_RC_NXDOMAIN)) as [Er|Er]; [rewrite (proj2 (Z.eqb_eq _ _) Er)|rewrite (proj2 (Z.eqb_neq _ _) Er)].
  { destruct (either_proof_spec (has_type_in ELPIS_T_NSEC3 denials) _ (has_type_in ELPIS_T_NSEC denials) _ _ _ E1' E1) as (v & Ev & Hv).
    exists v. split; [exact Ev|]. right; right. split; [by rewrite Ed|exact Hv]. }
  destruct (decide (q_type q = ELPIS_T_DS)) as [Et|Et]; [rewrite (proj2 (Z.eqb_eq _ _) Et)|rewrite (proj2 (Z.eqb_neq _ _) Et)].
  { destruct (either_proof_spec (has_type_in ELPIS_T_NSEC3 denials) _ (has_type_in ELPIS_T_NSEC denials) _ _ _ E2' E2) as (v & Ev & Hv).
    exists v. split; [exact Ev|]. right; right. split; [by rewrite Ed|exact Hv]. }
  destruct (either_proof_spec (has_type_in ELPIS_T_NSEC3 denials) _ (has_type_in ELPIS_T_NSEC denials) _ _ _ E3' E3) as (v & Ev & Hv).
  exists v. split; [exact Ev|]. right; right. split; [by rewrite Ed|exact Hv].
Qed.
End Denial.
