(* ===== verification/Valflight.v ===== *)
(** What validations share: src/dnssec/dnssec.c, the table of look-ups in
    flight (lines 1291 to 1447) and the TTL-0 sets handed from a look-up to the
    validations that waited on it (val_kept_t, lines 1107 to 1196 and 1472 to
    1515).

    Tasks are numbers, as the code compares them by address; the shared sets
    live in a heap of their own, so that two validations that hold one set see
    each other's verdict on it.  Which operations come in which order is the
    business of the event loop (Valtasks.v). *)
From stdpp Require Import base list numbers gmap.
From Stdlib Require Import ZArith Lia.
From S2P Require Import Prelude Bytes Simd Name NameOps Rrset.

(** ** Look-ups in flight *)

Definition VAL_INFLIGHT : Z := 64.
Definition VAL_WAITERS : Z := 24.

(** The [nwait] waiters are a list. *)
Record val_inflight_t := mkFlight {
  f_hash : Z; f_name : elpis_name_t; f_type : Z; f_waiter : list Z; f_owner : option Z }.

Abbreviation flight_table := (list val_inflight_t).

Definition free_slot : val_inflight_t := mkFlight 0 (mkName 0 0 []) 0 [] None.
Definition flight_start : flight_table := replicate (Z.to_nat VAL_INFLIGHT) free_slot.

Definition inflight_hash (n : elpis_name_t) (type : Z) : res Z :=
  d ← rds (n_d n) 0 (n_len n);
  let h := fold_left (fun h b => u64 (Z.lxor h b * 1099511628211)) d 1469598103934665603 in
  let h := u64 (Z.lxor h type * 1099511628211) in
  Ok (if h =? 0 then 1 else h).

Fixpoint find_loop (fs : flight_table) (h : Z) (n : elpis_name_t) (type i : Z) : res (option Z) :=
  match fs with
  | [] => Ok None
  | f :: fs =>
    if (f_hash f =? h) && (f_type f =? type) then
      e ← elpis_name_eq (f_name f) n; if (e : bool) then Ok (Some i) else find_loop fs h n type (i + 1)
    else find_loop fs h n type (i + 1)
  end.

Definition inflight_find (tab : flight_table) (n : elpis_name_t) (type : Z) : res (option Z) :=
  h ← inflight_hash n type; find_loop tab h n type 0.

Fixpoint first_free (fs : flight_table) (i : Z) : option Z :=
  match fs with [] => None | f :: fs => if negb (f_hash f =? 0) then first_free fs (i + 1) else Some i end.

Definition inflight_new (tab : flight_table) (n : elpis_name_t) (type : Z) : res (option Z * flight_table) :=
  match first_free tab 0 with
  | None => Ok (None, tab)
  | Some i => h ← inflight_hash n type; tab ← wr tab i (mkFlight h n type [] None); Ok (Some i, tab)
  end.

(** Whether [t] waits on slot [i] now. *)
Definition inflight_join (tab : flight_table) (i t : Z) : res (bool * flight_table) :=
  f ← rd tab i;
  if existsb (Z.eqb t) (f_waiter f) then Ok (true, tab)
  else if VAL_WAITERS <=? zlen (f_waiter f) then Ok (false, tab)
  else tab ← wr tab i (mkFlight (f_hash f) (f_name f) (f_type f) (f_waiter f ++ [t]) (f_owner f)); Ok (true, tab).

(** [waiter[j] = waiter[--nwait]] at the first [j] that holds [t]. *)
Fixpoint swap_out (t : Z) (ws : list Z) : list Z :=
  match ws with
  | [] => []
  | w :: ws => if w =? t then match last ws with None => [] | Some z => z :: removelast ws end else w :: swap_out t ws
  end.

Definition retired (f : val_inflight_t) : val_inflight_t := mkFlight 0 (f_name f) (f_type f) [] None.

Definition forget_slot (t : Z) (f : val_inflight_t) : val_inflight_t :=
  if f_hash f =? 0 then f
  else
    let ws := swap_out t (f_waiter f) in
    if bool_decide (f_owner f = Some t) || (zlen ws =? 0) then retired f
    else mkFlight (f_hash f) (f_name f) (f_type f) ws (f_owner f).

Definition inflight_forget (tab : flight_table) (t : Z) : flight_table := map (forget_slot t) tab.

(** [f->hash = 0; f->nwait = 0; f->owner = NULL] *)
Definition flight_retire (tab : flight_table) (i : Z) : res flight_table := f ← rd tab i; wr tab i (retired f).

(** The part of [val_need] between the decision to ask and the child: [t] waits
    on a look-up already in flight, or owns a new slot, or has neither. *)
Inductive flight_place := Joined | Slot (i : Z) | Unshared.

Definition flight_want (tab : flight_table) (n : elpis_name_t) (type t : Z) : res (flight_place * flight_table) :=
  f ← inflight_find tab n type;
  '(ok, tab) ← (match f with Some i => inflight_join tab i t | None => Ok (false, tab) end);
  if (ok : bool) then Ok (Joined, tab)
  else
    '(f, tab) ← inflight_new tab n type;
    match f with
    | None => Ok (Unshared, tab)
    | Some i =>
      '(ok, tab) ← inflight_join tab i t;
      if (ok : bool) then
        g ← rd tab i;
        tab ← wr tab i (mkFlight (f_hash g) (f_name g) (f_type g) (f_waiter g) (Some t)); Ok (Slot i, tab)
      else Ok (Unshared, tab)
    end.

(** Whom [val_child_done] resumes when the child of [parent] is done that was
    started for slot [f], and the table then.  They are resumed one by one:
    Valtasks.v does that. *)
Definition flight_done (tab : flight_table) (f : option Z) (parent : Z) : res (list Z * flight_table) :=
  match f with
  | None => Ok ([parent], tab)
  | Some i =>
    s ← rd tab i;
    if negb (bool_decide (f_owner s = Some parent)) || (f_hash s =? 0) then Ok ([parent], tab)
    else tab ← wr tab i (retired s); Ok (f_waiter s, tab)
  end.

(** ** Shared sets *)

Definition VAL_KEPT : Z := 8.

Record val_kept_t := mkKept { kp_refs : Z; kp_set : elpis_rrset_buf_t }.
Abbreviation kept_heap := (gmap Z val_kept_t).

(** A reference to a set that was freed is a use after free. *)
Definition kept_at (hp : kept_heap) (k : Z) : res val_kept_t :=
  match hp !! k with Some e => Ok e | None => Stuck OutOfBounds end.

Definition kept_drop (hp : kept_heap) (k : option Z) : res kept_heap :=
  match k with
  | None => Ok hp
  | Some k =>
    e ← kept_at hp k;
    let r := u32 (kp_refs e - 1) in
    if negb (r =? 0) then Ok (<[k := mkKept r (kp_set e)]> hp) else Ok (delete k hp)
  end.

(** [mem]: whether the allocator has room. *)
Definition kept_take (mem : bool) (hp : kept_heap) (held : option elpis_rrset_buf_t) : option Z * kept_heap :=
  match held with
  | None => (None, hp)
  | Some set =>
    if negb mem then (None, hp)
    else let k := fresh (dom hp) in (Some k, <[k := mkKept 1 set]> hp)
  end.

(** The loop over the sets held: the slot of a set of the same name and type. *)
Fixpoint same_lookup (hp : kept_heap) (set : elpis_rrset_buf_t) (k : Z) (kept : list Z) (i : Z) : res (option Z) :=
  match kept with
  | [] => Ok None
  | o :: kept =>
    if o =? k then Ok (Some i)
    else
      old ← kept_at hp o;
      if negb (rs_type (kp_set old) =? rs_type set) then same_lookup hp set k kept (i + 1)
      else
        e ← elpis_name_eq (rs_name (kp_set old)) (rs_name set);
        if (e : bool) then Ok (Some i) else same_lookup hp set k kept (i + 1)
  end.

(** [kept]: the sets of a validation, or none when its verdict is in. *)
Definition kept_give (hp : kept_heap) (kept : option (list Z)) (k : option Z) : res (option (list Z) * kept_heap) :=
  match kept, k with
  | Some kept, Some k =>
    e ← kept_at hp k;
    at_ ← same_lookup hp (kp_set e) k kept 0;
    match at_ with
    | Some i =>
      old ← rd kept i;
      if old =? k then Ok (Some kept, hp)
      else
        kept ← wr kept i k;
        let hp := <[k := mkKept (u32 (kp_refs e + 1)) (kp_set e)]> hp in
        hp ← kept_drop hp (Some old); Ok (Some kept, hp)
    | None =>
      if VAL_KEPT <=? zlen kept then Ok (Some kept, hp)
      else Ok (Some (kept ++ [k]), <[k := mkKept (u32 (kp_refs e + 1)) (kp_set e)]> hp)
    end
  | _, _ => Ok (kept, hp)
  end.

(** The references [val_release] gives up. *)
Fixpoint kept_release (hp : kept_heap) (kept : list Z) : res kept_heap :=
  match kept with [] => Ok hp | k :: kept => hp ← kept_drop hp (Some k); kept_release hp kept end.

(** Every waiter is given the set, then the look-up's own reference goes. *)
Fixpoint give_all (hp : kept_heap) (k : option Z) (ws : list (option (list Z))) : res (list (option (list Z)) * kept_heap) :=
  match ws with
  | [] => Ok ([], hp)
  | w :: ws => '(w, hp) ← kept_give hp w k; '(ws, hp) ← give_all hp k ws; Ok (w :: ws, hp)
  end.

Definition kept_deliver (mem : bool) (hp : kept_heap) (held : option elpis_rrset_buf_t) (ws : list (option (list Z)))
    : res (list (option (list Z)) * kept_heap) :=
  let '(k, hp) := kept_take mem hp held in
  '(ws, hp) ← give_all hp k ws; hp ← kept_drop hp k; Ok (ws, hp).

(** ** The table *)

(** Every slot in use is waited on, by tasks that are alive, each once, one of
    them the owner of the look-up's child. *)
Record slot_ok (live : gset Z) (f : val_inflight_t) : Prop := {
  so_hash : wf_name (f_name f) ∧ inflight_hash (f_name f) (f_type f) = Ok (f_hash f);
  so_nodup : NoDup (f_waiter f);
  so_count : 1 <= zlen (f_waiter f) <= VAL_WAITERS;
  so_live : ∀ t, t ∈ f_waiter f → t ∈ live;
  so_owner : ∃ o, f_owner f = Some o ∧ o ∈ f_waiter f }.

Definition flight_ok (live : gset Z) (tab : flight_table) : Prop :=
  zlen tab = VAL_INFLIGHT ∧ Forall (fun f => f_hash f ≠ 0 → slot_ok live f) tab.

Lemma inflight_hash_spec n type : wf_name n → ∃ h, inflight_hash n type = Ok h ∧ h ≠ 0.
Proof.
  intros (ls & _ & ->). unfold inflight_hash. cbn [n_d n_len name_of]. rewrite rds_full by done. bind_step.
  set (h := u64 _). exists (if h =? 0 then 1 else h). split; [done|]. destruct (Z.eqb_spec h 0); done.
Qed.

Lemma rd_slot live tab i : flight_ok live tab → 0 <= i < VAL_INFLIGHT → ∃ f, rd tab i = Ok f ∧ (f_hash f ≠ 0 → slot_ok live f).
Proof.
  intros [Hz Hf] Hi. destruct (rd_in_range tab i) as (f & E & Hl); [lia|]. exists f. split; [done|]. exact (Forall_lookup_1 _ _ _ _ Hf Hl).
Qed.

Lemma wr_slot live tab i f : flight_ok live tab → 0 <= i < VAL_INFLIGHT → (f_hash f ≠ 0 → slot_ok live f) →
  ∃ tab', wr tab i f = Ok tab' ∧ flight_ok live tab' ∧ rd tab' i = Ok f.
Proof.
  intros [Hz Hf] Hi Hs. exists (<[Z.to_nat i := f]> tab). split; [apply wr_in_range; lia|]. split.
  - split; [unfold zlen in *; by rewrite length_insert|]. by apply Forall_insert.
  - apply rd_lookup; [lia|]. apply list_lookup_insert_eq. zl.
Qed.

Lemma slot_find_spec live fs h n type : Forall (fun f => f_hash f ≠ 0 → slot_ok live f) fs → wf_name n → h ≠ 0 → ∀ i,
  ∃ o, find_loop fs h n type i = Ok o ∧ ∀ k, o = Some k → ∃ f, i <= k < i + zlen fs ∧ fs !! Z.to_nat (k - i) = Some f ∧ f_hash f = h.
Proof.
  intros Hf (ls & Hls & ->) Hh. induction Hf as [|f fs Hfs _ IH]; intros i; cbn [find_loop]; [by exists None|].
  destruct (IH (i + 1)) as (o & E & Ho). clear IH.
  assert (∀ k, o = Some k → ∃ g, i <= k < i + zlen (f :: fs) ∧ (f :: fs) !! Z.to_nat (k - i) = Some g ∧ f_hash g = h) as Hskip.
  { intros k Hk. destruct (Ho k Hk) as (g & Hr & Hg & Hgh). exists g. rewrite zlen_cons. split; [lia|]. split; [|done].
    replace (Z.to_nat (k - i)) with (S (Z.to_nat (k - (i + 1)))) by lia. done. }
  destruct ((f_hash f =? h) && (f_type f =? type)) eqn:Ec; [|by exists o].
  apply andb_true_iff in Ec as [Eh%Z.eqb_eq _]. destruct (Hfs ltac:(congruence)) as [((fl & Hfl & ->) & _) _ _ _ _].
  rewrite name_eq_spec by done. bind_step. case_bool_decide; [|by exists o]. exists (Some i). split; [done|]. intros ? [= <-].
  exists f. rewrite zlen_cons, Z.sub_diag. pose proof (zlen_nonneg fs). split; [lia|done].
Qed.

Lemma inflight_find_spec live tab n type : flight_ok live tab → wf_name n →
  ∃ o, inflight_find tab n type = Ok o ∧ ∀ i, o = Some i → 0 <= i < VAL_INFLIGHT ∧ ∃ f, rd tab i = Ok f ∧ f_hash f ≠ 0.
Proof.
  intros [Hz Hf] Hn. unfold inflight_find. destruct (inflight_hash_spec n type Hn) as (h & -> & Hh). bind_step.
  destruct (slot_find_spec live tab h n type Hf Hn Hh 0) as (o & -> & Ho). exists o. split; [done|]. intros i Hi.
  destruct (Ho i Hi) as (f & Hr & Hl & E). rewrite Z.sub_0_r in Hl. split; [lia|]. exists f. split; [apply rd_lookup; [lia|done]|congruence].
Qed.

Lemma inflight_join_spec live tab i t : flight_ok live tab → 0 <= i < VAL_INFLIGHT → t ∈ live → ∀ f, rd tab i = Ok f → f_hash f ≠ 0 →
  ∃ b tab', inflight_join tab i t = Ok (b, tab') ∧ flight_ok live tab'.
Proof.
  intros Htab Hi Ht f Hf Hh. unfold inflight_join. rewrite Hf. bind_step. destruct (rd_slot live tab i Htab Hi) as (g & Hg & Hok).
  rewrite Hf in Hg. injection Hg as <-. destruct (existsb (Z.eqb t) (f_waiter f)) eqn:Ex; [by exists true, tab|].
  destruct (Z.leb_spec VAL_WAITERS (zlen (f_waiter f))); [by exists false, tab|]. destruct (Hok Hh) as [H1 H2 H3 H4 (o & Eo & Ho)].
  assert (t ∉ f_waiter f) as Hnt.
  { intros Hin. assert (existsb (Z.eqb t) (f_waiter f) = true); [|congruence]. apply existsb_exists. exists t. split; [by apply list_elem_of_In|apply Z.eqb_refl]. }
  edestruct (wr_slot live tab i (mkFlight (f_hash f) (f_name f) (f_type f) (f_waiter f ++ [t]) (f_owner f)) Htab Hi) as (tab' & -> & Htab' & _); [|by exists true, tab'].
  intros _. split; cbn [f_name f_type f_hash f_waiter f_owner]; [done| | | |].
  - apply NoDup_app. split; [done|]. split; [|apply NoDup_singleton]. intros x Hx ->%list_elem_of_singleton. done.
  - rewrite zlen_app, zlen_cons, (@zlen_nil Z). lia.
  - intros x [Hx|Hx]%elem_of_app; [by apply H4|]. by apply list_elem_of_singleton in Hx as ->.
  - exists o. split; [done|]. apply elem_of_app. by left.
Qed.

Lemma first_free_spec tab i : ∀ o, first_free tab i = Some o → i <= o < i + zlen tab.
Proof.
  revert i. induction tab as [|f tab IH]; intros i o; cbn [first_free]; [done|]. rewrite zlen_cons. pose proof (zlen_nonneg tab).
  destruct (negb _); [intros E%IH; lia|intros [= <-]; lia].
Qed.

(** Whoever asks has a place, and the table stays good. *)
Lemma flight_want_spec live tab n type t : flight_ok live tab → wf_name n → t ∈ live →
  ∃ p tab', flight_want tab n type t = Ok (p, tab') ∧ flight_ok live tab' ∧ ∀ i, p = Slot i → 0 <= i < VAL_INFLIGHT.
Proof.
  intros Htab Hn Ht. unfold flight_want. destruct (inflight_find_spec live tab n type Htab Hn) as (o & -> & Ho). bind_step.
  assert (∃ b tab', match o with Some i => inflight_join tab i t | None => Ok (false, tab) end = Ok (b, tab') ∧ flight_ok live tab') as (b & tab1 & -> & Htab1).
  { destruct o as [i|]; [|by exists false, tab]. destruct (Ho i eq_refl) as (Hi & f & Hf & Hh). by apply (inflight_join_spec live tab i t Htab Hi Ht f). }
  bind_step. destruct b; [by exists Joined, tab1|]. unfold inflight_new.
  destruct (first_free tab1 0) as [i|] eqn:Ef; [|bind_step; by exists Unshared, tab1]. apply first_free_spec in Ef. pose proof (proj1 Htab1) as Hz.
  destruct (inflight_hash_spec n type Hn) as (h & Eh & Hh). rewrite Eh. bind_step. rewrite wr_in_range by lia. bind_step.
  set (f0 := mkFlight h n type [] None). unfold inflight_join.
  assert (rd (<[Z.to_nat i := f0]> tab1) i = Ok f0) as -> by (apply rd_lookup; [lia|apply list_lookup_insert_eq; zl]).
  bind_step. cbn [existsb f_waiter f0]. change (VAL_WAITERS <=? zlen (@nil Z)) with false. cbn [app].
  rewrite wr_in_range by (unfold zlen in *; rewrite length_insert; lia). bind_step. cbn [f_hash f_name f_type f_owner f0].
  set (f1 := mkFlight h n type [t] None). rewrite list_insert_insert_eq.
  assert (rd (<[Z.to_nat i := f1]> tab1) i = Ok f1) as -> by (apply rd_lookup; [lia|apply list_lookup_insert_eq; zl]).
  bind_step. rewrite wr_in_range by (unfold zlen in *; rewrite length_insert; lia). bind_step. rewrite list_insert_insert_eq.
  eexists _, _. split; [done|]. split; [|intros ? [= <-]; lia].
  edestruct (wr_slot live tab1 i (mkFlight (f_hash f1) (f_name f1) (f_type f1) (f_waiter f1) (Some t)) Htab1 ltac:(lia)) as (tab' & E & Htab' & _);
    [|rewrite wr_in_range in E by lia; by injection E as <-].
  intros _. split; cbn [f1 f_name f_type f_hash f_waiter f_owner]; [done|apply NoDup_singleton|by rewrite zlen_cons, (@zlen_nil Z)| |].
  - intros x ->%list_elem_of_singleton. done.
  - exists t. split; [done|by apply list_elem_of_singleton].
Qed.

Lemma retired_ok live f : f_hash (retired f) ≠ 0 → slot_ok live (retired f).
Proof. done. Qed.

Lemma flight_retire_spec live tab i : flight_ok live tab → 0 <= i < VAL_INFLIGHT → ∃ tab', flight_retire tab i = Ok tab' ∧ flight_ok live tab'.
Proof.
  intros Htab Hi. unfold flight_retire. destruct (rd_slot live tab i Htab Hi) as (f & -> & _). bind_step.
  destruct (wr_slot live tab i (retired f) Htab Hi (retired_ok live f)) as (tab' & -> & H & _). by exists tab'.
Qed.

(** Only the parent of the child and tasks that are alive are resumed, each once. *)
Lemma flight_done_spec live tab f parent : flight_ok live tab → (∀ i, f = Some i → 0 <= i < VAL_INFLIGHT) →
  ∃ ws tab', flight_done tab f parent = Ok (ws, tab') ∧ flight_ok live tab' ∧ NoDup ws ∧ ∀ t, t ∈ ws → t = parent ∨ t ∈ live.
Proof.
  intros Htab Hf. unfold flight_done.
  assert (∀ tab', flight_ok live tab' → ∃ ws tab'', Ok ([parent], tab') = Ok (ws, tab'') ∧ flight_ok live tab'' ∧ NoDup ws ∧ ∀ t, t ∈ ws → t = parent ∨ t ∈ live) as Hown.
  { intros tab' H. eexists _, _. split; [done|]. split; [done|]. split; [apply NoDup_singleton|]. intros t ->%list_elem_of_singleton. by left. }
  destruct f as [i|]; [|by apply Hown]. specialize (Hf i eq_refl). destruct (rd_slot live tab i Htab Hf) as (s & -> & Hok). bind_step.
  destruct (bool_decide_reflect (f_owner s = Some parent)) as [Eo|]; cbn [negb orb]; [|by apply Hown].
  destruct (Z.eqb_spec (f_hash s) 0) as [|Hh]; [by apply Hown|]. destruct (Hok Hh) as [_ H2 _ H4 _].
  destruct (wr_slot live tab i (retired s) Htab Hf (retired_ok live s)) as (tab' & -> & H & _). bind_step.
  eexists _, _. split; [done|]. split; [done|]. split; [done|]. intros t Hin. right. by apply H4.
Qed.

Lemma swap_out_perm t ws : NoDup ws → swap_out t ws ≡ₚ filter (fun w => w ≠ t) ws.
Proof.
  induction 1 as [|w ws Hw Hnd IH]; [done|]. cbn [swap_out]. destruct (Z.eqb_spec w t) as [->|Hne].
  - rewrite filter_cons_False by (by intros []). assert (filter (fun x => x ≠ t) ws = ws) as ->.
    { clear -Hw. induction ws as [|x ws IH]; [done|]. apply not_elem_of_cons in Hw as [Hx Hw]. rewrite filter_cons_True by congruence. by rewrite IH. }
    destruct (last ws) as [z|] eqn:El; [|by apply last_None in El as ->]. apply last_Some in El as (pre & ->).
    rewrite removelast_last. by rewrite Permutation_app_comm.
  - rewrite filter_cons_True by done. by rewrite IH.
Qed.

Lemma forget_slot_ok live t f : (f_hash f ≠ 0 → slot_ok live f) → f_hash (forget_slot t f) ≠ 0 → slot_ok (live ∖ {[t]}) (forget_slot t f).
Proof.
  intros Hf. unfold forget_slot. destruct (Z.eqb_spec (f_hash f) 0) as [|Hh]; [done|]. destruct (Hf Hh) as [H1 H2 H3 H4 (o & Eo & Ho)].
  pose proof (swap_out_perm t (f_waiter f) H2) as Hp. assert (∀ x, x ∈ swap_out t (f_waiter f) ↔ x ∈ f_waiter f ∧ x ≠ t) as Hin.
  { intros x. rewrite Hp, list_elem_of_filter. tauto. }
  destruct (bool_decide_reflect (f_owner f = Some t)) as [|Hown]; cbn [orb]; [done|].
  destruct (Z.eqb_spec (zlen (swap_out t (f_waiter f))) 0) as [|Hz]; [done|]. intros _. split; cbn [f_name f_type f_hash f_waiter f_owner]; [done| | | |].
  - rewrite Hp. by apply NoDup_filter.
  - pose proof (zlen_nonneg (swap_out t (f_waiter f))). split; [lia|]. unfold zlen. rewrite Hp. pose proof (length_filter (fun w => w ≠ t) (f_waiter f)). zl.
  - intros x [Hx Hne]%Hin. apply elem_of_difference. split; [by apply H4|]. by rewrite elem_of_singleton.
  - exists o. split; [done|]. apply Hin. split; [done|congruence].
Qed.

(** After a task is forgotten no slot names it. *)
Lemma inflight_forget_spec live tab t : flight_ok live tab → flight_ok (live ∖ {[t]}) (inflight_forget tab t).
Proof.
  intros [Hz Hf]. split; [by unfold inflight_forget; rewrite zlen_map|]. apply Forall_fmap. eapply Forall_impl; [exact Hf|].
  intros f H Hh. exact (forget_slot_ok live t f H Hh).
Qed.

Lemma flight_ok_mono live live' tab : flight_ok live tab → live ⊆ live' → flight_ok live' tab.
Proof.
  intros [Hz Hf] Hs. split; [done|]. eapply Forall_impl; [exact Hf|]. intros f H Hh. destruct (H Hh) as [H1 H2 H3 H4 H5]. split; try done. intros t Ht. by apply Hs, H4.
Qed.

Lemma flight_start_ok live : flight_ok live flight_start.
Proof. split; [done|]. by apply Forall_replicate. Qed.

(** ** The shared sets *)

(** The references to [k] among [refs]. *)
Definition cnt (k : Z) (refs : list Z) : Z := zlen (filter (fun x => x = k) refs).

Lemma cnt_cons k x refs : cnt k (x :: refs) = (if decide (x = k) then 1 else 0) + cnt k refs.
Proof.
  unfold cnt. destruct (decide (x = k)); [rewrite filter_cons_True by done; by rewrite zlen_cons|rewrite filter_cons_False by done; lia].
Qed.
Lemma cnt_app k a b : cnt k (a ++ b) = cnt k a + cnt k b.
Proof. unfold cnt. by rewrite filter_app, zlen_app. Qed.
Lemma cnt_le k refs : 0 <= cnt k refs <= zlen refs.
Proof. unfold cnt. pose proof (length_filter (fun x => x = k) refs). zl. Qed.
Lemma cnt_pos k refs : 0 < cnt k refs ↔ k ∈ refs.
Proof.
  induction refs as [|x refs IH]; [split; [done|by intros ?%elem_of_nil]|]. rewrite cnt_cons, elem_of_cons, <- IH.
  pose proof (cnt_le k refs). case_decide; split; intros; try tauto; try lia; naive_solver lia.
Qed.

(** The heap holds exactly the sets referred to, each with its count. *)
Record ledger (hp : kept_heap) (refs : list Z) : Prop := {
  lg_in : ∀ k e, hp !! k = Some e → kp_refs e = cnt k refs ∧ k ∈ refs ∧ wf_name (rs_name (kp_set e));
  lg_out : ∀ k, k ∈ refs → is_Some (hp !! k);
  lg_max : zlen refs < 2 ^ 32 }.

Lemma ledger_perm hp refs refs' : ledger hp refs → (∀ k, cnt k refs = cnt k refs') → zlen refs' < 2 ^ 32 → ledger hp refs'.
Proof.
  intros [H1 H2 H3] E Hz. split; [| |done].
  - intros k e Hk. destruct (H1 k e Hk) as (Hr & Hin & Hw). rewrite <- cnt_pos, <- E, cnt_pos. split; [congruence|done].
  - intros k Hk. apply H2. by rewrite <- cnt_pos, E, cnt_pos.
Qed.

(** A change of verdict changes no count. *)
Lemma ledger_set hp refs k e s : ledger hp refs → hp !! k = Some e → wf_name (rs_name s) → ledger (<[k := mkKept (kp_refs e) s]> hp) refs.
Proof.
  intros [H1 H2 H3] Hk Hs. split; [| |done].
  - intros j f. destruct (decide (j = k)) as [->|]; [|rewrite lookup_insert_ne by done; apply H1].
    rewrite lookup_insert_eq. intros [= <-]. destruct (H1 k e Hk) as (? & ? & _). done.
  - intros j Hj. destruct (decide (j = k)) as [->|]; [rewrite lookup_insert_eq; by eexists|rewrite lookup_insert_ne by done; by apply H2].
Qed.

(** The sets that are left keep what they hold. *)
Definition same_sets (hp hp' : kept_heap) : Prop := ∀ k e', hp' !! k = Some e' → ∃ e, hp !! k = Some e ∧ kp_set e' = kp_set e.

Lemma same_sets_refl hp : same_sets hp hp.
Proof. intros k e H. by exists e. Qed.
Lemma same_sets_trans a b c : same_sets a b → same_sets b c → same_sets a c.
Proof. intros H1 H2 k e H. destruct (H2 k e H) as (f & Hf & ->). destruct (H1 k f Hf) as (g & Hg & ->). by exists g. Qed.

Lemma kept_drop_spec hp refs k : ledger hp (k :: refs) → ∃ hp', kept_drop hp (Some k) = Ok hp' ∧ ledger hp' refs ∧ same_sets hp hp'.
Proof.
  intros [H1 H2 H3]. destruct (H2 k ltac:(by left)) as (e & He). unfold kept_drop, kept_at. rewrite He. bind_step.
  destruct (H1 k e He) as (Hr & _ & Hw). rewrite cnt_cons, decide_True in Hr by done. rewrite zlen_cons in H3. pose proof (cnt_le k refs).
  replace (kp_refs e - 1) with (cnt k refs) by lia. rewrite u32_id by lia. destruct (Z.eqb_spec (cnt k refs) 0) as [Hz|Hz]; cbn [negb].
  - exists (delete k hp). split; [done|]. split; [split; [| |lia]|].
    + intros j f [Hne Hj]%lookup_delete_Some. destruct (H1 j f Hj) as (Hf & Hin & ?). rewrite cnt_cons, decide_False in Hf by done.
      apply elem_of_cons in Hin as [->|Hin]; [done|]. done.
    + intros j Hj. destruct (decide (j = k)) as [->|]; [apply cnt_pos in Hj; lia|]. rewrite lookup_delete_ne by done. apply H2. by right.
    + intros j f [_ Hj]%lookup_delete_Some. by exists f.
  - eexists. split; [done|]. split; [split; [| |lia]|].
    + intros j f. destruct (decide (j = k)) as [->|Hne].
      * rewrite lookup_insert_eq. intros [= <-]. split; [done|]. split; [apply cnt_pos; lia|done].
      * rewrite lookup_insert_ne by done. intros Hj. destruct (H1 j f Hj) as (Hf & Hin & ?). rewrite cnt_cons, decide_False in Hf by done.
        apply elem_of_cons in Hin as [->|Hin]; [done|]. done.
    + intros j Hj. destruct (decide (j = k)) as [->|]; [rewrite lookup_insert_eq; by eexists|rewrite lookup_insert_ne by done; apply H2; by right].
    + intros j f. destruct (decide (j = k)) as [->|]; [rewrite lookup_insert_eq; intros [= <-]; by exists e|rewrite lookup_insert_ne by done; by exists f].
Qed.

Lemma kept_release_spec kept : ∀ hp refs, ledger hp (kept ++ refs) → ∃ hp', kept_release hp kept = Ok hp' ∧ ledger hp' refs ∧ same_sets hp hp'.
Proof.
  induction kept as [|k kept IH]; intros hp refs H; cbn [kept_release app] in *; [exists hp; split; [done|]; split; [done|apply same_sets_refl]|].
  destruct (kept_drop_spec hp (kept ++ refs) k H) as (hp1 & -> & H1 & S1). bind_step.
  destruct (IH hp1 refs H1) as (hp2 & -> & H2 & S2). exists hp2. split; [done|]. split; [done|]. by eapply same_sets_trans.
Qed.

Lemma same_lookup_spec hp refs set k kept : ledger hp refs → wf_name (rs_name set) → (∀ j, j ∈ kept → j ∈ refs) → ∀ i,
  ∃ o, same_lookup hp set k kept i = Ok o ∧
    match o with Some m => i <= m < i + zlen kept | None => k ∉ kept end.
Proof.
  intros Hl (ls & Hls & Es) . induction kept as [|o kept IH]; intros Hin i; cbn [same_lookup].
  { exists None. split; [done|]. by apply not_elem_of_nil. }
  rewrite zlen_cons. pose proof (zlen_nonneg kept). destruct (Z.eqb_spec o k) as [->|Hne]; [exists (Some i); split; [done|lia]|].
  destruct (lg_out _ _ Hl o (Hin o ltac:(by left))) as (e & He). unfold kept_at. rewrite He. bind_step.
  destruct (lg_in _ _ Hl o e He) as (_ & _ & (l2 & Hl2 & E2)). destruct (IH ltac:(intros; apply Hin; by right) (i + 1)) as (m & Em & Hm).
  assert (match m with Some m => i <= m < i + (1 + zlen kept) | None => k ∉ o :: kept end) as Hm'.
  { destruct m; [lia|]. by apply not_elem_of_cons. }
  destruct (negb _); [by exists m|]. rewrite E2, Es, name_eq_spec by done. bind_step. case_bool_decide; [exists (Some i); split; [done|lia]|by exists m].
Qed.

(** The set is added, or replaces the older answer to the same look-up, or is
    not taken because eight are held: the counts are right in each case. *)
Lemma kept_give_spec hp kept k rest : ledger hp (k :: kept ++ rest) → zlen kept <= VAL_KEPT → 1 + zlen kept + zlen rest < 2 ^ 32 - 1 →
  ∃ kept' hp', kept_give hp (Some kept) (Some k) = Ok (Some kept', hp') ∧ ledger hp' (k :: kept' ++ rest) ∧ same_sets hp hp' ∧
    zlen kept <= zlen kept' <= VAL_KEPT ∧ zlen kept' <= zlen kept + 1 ∧ (k ∈ kept' ∨ zlen kept = VAL_KEPT) ∧ ∀ j, j ∈ kept' → j = k ∨ j ∈ kept.
Proof.
  intros Hl Hk8 Hmax. unfold kept_give. destruct (lg_out _ _ Hl k ltac:(by left)) as (e & He). unfold kept_at. rewrite He. bind_step.
  destruct (lg_in _ _ Hl k e He) as (Hr & _ & Hw).
  destruct (same_lookup_spec hp _ (kp_set e) k kept Hl Hw ltac:(intros j Hj; right; apply elem_of_app; by left) 0) as (o & -> & Ho). bind_step.
  pose proof (cnt_le k (k :: kept ++ rest)) as Hc. rewrite zlen_cons, zlen_app in Hc. pose proof (zlen_nonneg kept). pose proof (zlen_nonneg rest).
  assert (u32 (kp_refs e + 1) = cnt k (k :: k :: kept ++ rest)) as Er.
  { rewrite u32_id by lia. rewrite (cnt_cons k k (k :: _)), decide_True by done. lia. }
  assert (ledger (<[k := mkKept (u32 (kp_refs e + 1)) (kp_set e)]> hp) (k :: k :: kept ++ rest)) as Hl'.
  { split; [| |rewrite !zlen_cons, zlen_app; lia].
    - intros j f. destruct (decide (j = k)) as [->|Hne]; [rewrite lookup_insert_eq; intros [= <-]|rewrite lookup_insert_ne by done; intros Hj].
      + split; [done|]. split; [by left|done].
      + destruct (lg_in _ _ Hl j f Hj) as (Hf & Hin & ?). rewrite cnt_cons, decide_False by done. split; [lia|]. split; [by right|done].
    - intros j Hj. destruct (decide (j = k)) as [->|]; [rewrite lookup_insert_eq; by eexists|rewrite lookup_insert_ne by done].
      apply (lg_out _ _ Hl). apply elem_of_cons in Hj as [->|Hj]; [by left|done]. }
  assert (same_sets hp (<[k := mkKept (u32 (kp_refs e + 1)) (kp_set e)]> hp)) as Hss.
  { intros j f. destruct (decide (j = k)) as [->|]; [rewrite lookup_insert_eq; intros [= <-]; by exists e|rewrite lookup_insert_ne by done; by exists f]. }
  destruct o as [i|].
  - destruct (rd_in_range kept i) as (old & -> & Hold); [lia|]. bind_step. destruct (Z.eqb_spec old k) as [->|Hne].
    { exists kept, hp. split; [done|]. split; [done|]. split; [apply same_sets_refl|]. split; [lia|]. split; [lia|].
      split; [left; by eapply list_elem_of_lookup_2|by right]. }
    rewrite wr_in_range by lia. bind_step. set (kept' := <[Z.to_nat i := k]> kept).
    assert (∀ j, cnt j (k :: k :: kept ++ rest) = cnt j (old :: k :: kept' ++ rest)) as Ec.
    { intros j. rewrite !cnt_cons, !cnt_app. enough (cnt j kept + (if decide (k = j) then 1 else 0) = cnt j kept' + (if decide (old = j) then 1 else 0)) by lia.
      unfold kept'. apply lookup_lt_Some in Hold as Hlt. rewrite insert_take_drop by done. rewrite <- (take_drop_middle _ _ _ Hold) at 1.
      rewrite !cnt_app, !cnt_cons. lia. }
    destruct (kept_drop_spec _ (k :: kept' ++ rest) old (ledger_perm _ _ _ Hl' Ec ltac:(rewrite !zlen_cons, zlen_app; unfold kept', zlen in *; rewrite length_insert; lia)))
      as (hp' & -> & Hl'' & Hss'). bind_step. assert (zlen kept' = zlen kept) by (unfold kept', zlen; by rewrite length_insert).
    exists kept', hp'. split; [done|]. split; [done|]. split; [by eapply same_sets_trans|]. split; [lia|]. split; [lia|]. split.
    + left. apply (list_elem_of_lookup_2 _ (Z.to_nat i)). apply list_lookup_insert_eq. zl.
    + intros j Hj. apply list_elem_of_lookup in Hj as (m & Hm). unfold kept' in Hm.
      apply list_lookup_insert_Some in Hm as [(_ & <- & _)|(_ & Hm)]; [by left|right; by eapply list_elem_of_lookup_2].
  - destruct (Z.leb_spec VAL_KEPT (zlen kept)).
    { exists kept, hp. split; [done|]. split; [done|]. split; [apply same_sets_refl|]. split; [lia|]. split; [lia|]. split; [right; lia|by right]. }
    exists (kept ++ [k]), (<[k := mkKept (u32 (kp_refs e + 1)) (kp_set e)]> hp). split; [done|]. rewrite zlen_app, zlen_cons, (@zlen_nil Z).
    split; [|split; [done|split; [lia|split; [lia|split; [left; apply elem_of_app; right; by left|]]]]].
    + eapply ledger_perm; [exact Hl'| |rewrite zlen_cons, !zlen_app, zlen_cons, (@zlen_nil Z); lia].
      intros j. rewrite !cnt_cons, !cnt_app, cnt_cons. change (cnt j []) with 0. lia.
    + intros j [Hj|Hj]%elem_of_app; [by right|]. apply list_elem_of_singleton in Hj as ->. by left.
Qed.

(** The references of all the waiters. *)
Definition all_kept (ws : list (option (list Z))) : list Z := concat (map (default []) ws).

Lemma zlen_all_kept ws : Forall (fun w => zlen (default [] w) <= VAL_KEPT) ws → zlen (all_kept ws) <= VAL_KEPT * zlen ws.
Proof.
  induction 1 as [|w ws Hw _ IH]; [done|]. unfold all_kept in *. cbn [map concat]. rewrite zlen_app, zlen_cons. unfold VAL_KEPT in *. lia.
Qed.

Lemma give_all_spec k ws : ∀ hp rest, ledger hp (k :: all_kept ws ++ rest) → Forall (fun w => zlen (default [] w) <= VAL_KEPT) ws →
  1 + VAL_KEPT * zlen ws + zlen rest < 2 ^ 32 - 1 →
  ∃ ws' hp', give_all hp (Some k) ws = Ok (ws', hp') ∧ ledger hp' (k :: all_kept ws' ++ rest) ∧ same_sets hp hp' ∧
    Forall2 (fun w w' => match w with
      | None => w' = None
      | Some kept => ∃ kept', w' = Some kept' ∧ zlen kept' <= VAL_KEPT ∧ (k ∈ kept' ∨ zlen kept = VAL_KEPT) end) ws ws'.
Proof.
  induction ws as [|w ws IH]; intros hp rest Hl Hw Hmax; cbn [give_all].
  { exists [], hp. split; [done|]. split; [done|]. split; [apply same_sets_refl|constructor]. }
  apply Forall_cons_1 in Hw as [Hw0 Hw]. rewrite zlen_cons in Hmax. pose proof (zlen_nonneg ws). pose proof (zlen_all_kept ws Hw) as Hak.
  destruct w as [kept|].
  - unfold all_kept in Hl. cbn [map concat default] in Hl. fold (all_kept ws) in Hl. rewrite <- app_assoc in Hl. cbn [default] in Hw0. change (id kept) with kept in *.
    destruct (kept_give_spec hp kept k (all_kept ws ++ rest) Hl Hw0) as (kept' & hp1 & -> & Hl1 & S1 & Hz' & Hz1 & Hin & _).
    { rewrite zlen_app. unfold VAL_KEPT in *. lia. }
    bind_step. destruct (IH hp1 (kept' ++ rest)) as (ws' & hp2 & -> & Hl2 & S2 & Hf); [|done| |].
    + eapply ledger_perm; [exact Hl1|intros j; rewrite !cnt_cons, !cnt_app; lia|].
      rewrite zlen_cons, !zlen_app. unfold VAL_KEPT in *. lia.
    + rewrite zlen_app. unfold VAL_KEPT in *. lia.
    + bind_step. exists (Some kept' :: ws'), hp2. split; [done|]. split; [|split; [by eapply same_sets_trans|]].
      * pose proof (lg_max _ _ Hl2) as Hm. eapply ledger_perm; [exact Hl2|intros j|]; unfold all_kept; cbn [map concat default]; fold (all_kept ws'); change (id kept') with kept' in *;
          [rewrite !cnt_cons, !cnt_app; lia|rewrite !zlen_cons, !zlen_app in *; lia].
      * constructor; [|done]. exists kept'. split; [done|]. split; [lia|done].
  - cbn [kept_give]. bind_step. destruct (IH hp rest Hl Hw ltac:(unfold VAL_KEPT in *; lia)) as (ws' & hp2 & -> & Hl2 & S2 & Hf). bind_step.
    exists (None :: ws'), hp2. split; [done|]. split; [done|]. split; [done|]. by constructor.
Qed.

(** ** Theorems *)

(** C10. The references to the TTL-0 sets are counted right: when a look-up
    delivers the set it kept to the validations that waited on it, every count
    is the number of references there are, no set is used after it is freed and
    none is kept without a reference; each waiter whose verdict is not in has
    the set unless it holds eight others; and a validation that lets go of its
    sets leaves the counts of the others right. *)
Theorem kept_counts_exact mem hp held ws rest :
  ledger hp (all_kept ws ++ rest) → Forall (fun w => zlen (default [] w) <= VAL_KEPT) ws →
  (∀ set, held = Some set → wf_name (rs_name set)) → 1 + VAL_KEPT * zlen ws + zlen rest < 2 ^ 32 - 1 →
  (∃ ws' hp', kept_deliver mem hp held ws = Ok (ws', hp') ∧ ledger hp' (all_kept ws' ++ rest) ∧
    Forall2 (fun w w' => match w with
      | None => w' = None
      | Some kept => ∃ kept', w' = Some kept' ∧ zlen kept' <= VAL_KEPT ∧
          (mem = true → ∀ set, held = Some set → zlen kept = VAL_KEPT ∨ ∃ k e, k ∈ kept' ∧ hp' !! k = Some e ∧ kp_set e = set) end) ws ws') ∧
  ∀ kept ws0, ws = Some kept :: ws0 → ∃ hp', kept_release hp kept = Ok hp' ∧ ledger hp' (all_kept ws0 ++ rest).
Proof.
  intros Hl Hw Hset Hmax. split.
  2:{ intros kept ws0 ->. unfold all_kept in *. cbn [map concat default] in Hl. change (id kept) with kept in Hl. rewrite <- app_assoc in Hl.
      destruct (kept_release_spec kept hp _ Hl) as (hp' & E & H & _). by exists hp'. }
  assert (Forall2 (fun w w' => match w with None => w' = None | Some kept => ∃ kept', w' = Some kept' ∧ zlen kept' <= VAL_KEPT ∧
    (false = true → ∀ set, held = Some set → zlen kept = VAL_KEPT ∨ ∃ k e, k ∈ kept' ∧ hp !! k = Some e ∧ kp_set e = set) end) ws ws) as Hid.
  { clear -Hw. induction Hw as [|w ws Hw0 Hw IH]; constructor; [|done]. destruct w as [kept|]; [|done]. by exists kept. }
  assert (∀ l : list (option (list Z)), give_all hp None l = Ok (l, hp)) as Hnone.
  { induction l as [|w l IH]; cbn [give_all]; [done|]. assert (kept_give hp w None = Ok (w, hp)) as -> by (by destruct w). bind_step. by rewrite IH. }
  unfold kept_deliver, kept_take. destruct held as [set|]; [destruct mem; cbn [negb]|].
  - set (k := fresh (dom hp)). assert (hp !! k = None) as Hk by (apply not_elem_of_dom, is_fresh).
    assert (k ∉ all_kept ws ++ rest) as Hnk by (intros Hin; destruct (lg_out _ _ Hl k Hin) as (e & He); congruence).
    set (hp0 := <[k := mkKept 1 set]> hp). assert (ledger hp0 (k :: all_kept ws ++ rest)) as Hl0.
    { pose proof (lg_max _ _ Hl). pose proof (zlen_all_kept ws Hw). split.
      - intros j f. destruct (decide (j = k)) as [->|Hne]; [unfold hp0; rewrite lookup_insert_eq; intros [= <-]|unfold hp0; rewrite lookup_insert_ne by done; intros Hj].
        + rewrite cnt_cons, decide_True by done. split; [|split; [by left|by apply Hset]]. pose proof (cnt_le k (all_kept ws ++ rest)).
          destruct (Z.eq_dec (cnt k (all_kept ws ++ rest)) 0) as [->|Hne]; [done|]. destruct Hnk. apply cnt_pos. lia.
        + destruct (lg_in _ _ Hl j f Hj) as (Hf & Hin & ?). rewrite cnt_cons, decide_False by done. split; [lia|]. split; [by right|done].
      - intros j [->|Hj]%elem_of_cons; [unfold hp0; rewrite lookup_insert_eq; by eexists|]. assert (j ≠ k) by (by intros ->). unfold hp0.
        rewrite lookup_insert_ne by done. by apply (lg_out _ _ Hl).
      - rewrite zlen_cons, zlen_app. unfold VAL_KEPT in *. pose proof (zlen_nonneg ws). lia. }
    destruct (give_all_spec k ws hp0 rest Hl0 Hw Hmax) as (ws' & hp1 & -> & Hl1 & S1 & Hf). bind_step.
    destruct (kept_drop_spec hp1 (all_kept ws' ++ rest) k Hl1) as (hp2 & -> & Hl2 & S2). bind_step. exists ws', hp2. split; [done|]. split; [done|].
    apply Forall2_same_length_lookup. split; [by eapply Forall2_length|]. intros i w w' Hwi Hwi'. pose proof (Forall2_lookup_lr _ _ _ _ _ _ Hf Hwi Hwi') as H.
    destruct w as [kept|]; [|done]. destruct H as (kept' & -> & Hz & Hin). exists kept'. split; [done|]. split; [done|].
    intros _ ? [= <-]. destruct Hin as [Hin|]; [right|by left].
    assert (k ∈ all_kept ws' ++ rest) as Hin2.
    { apply elem_of_app. left. unfold all_kept. apply list_elem_of_In, in_concat. exists kept'. split; [|by apply list_elem_of_In].
      apply in_map_iff. exists (Some kept'). split; [done|]. apply list_elem_of_In. by eapply list_elem_of_lookup_2. }
    destruct (lg_out _ _ Hl2 k Hin2) as (e & He). exists k, e. split; [done|]. split; [done|].
    destruct (S2 k e He) as (e1 & He1 & ->). destruct (S1 k e1 He1) as (e0 & He0 & ->). unfold hp0 in He0. rewrite lookup_insert_eq in He0. by injection He0 as <-.
  - rewrite Hnone. bind_step. cbn [kept_drop]. bind_step. by exists ws, hp.
  - rewrite Hnone. bind_step. cbn [kept_drop]. bind_step. exists ws, hp. split; [done|]. split; [done|].
    eapply Forall2_impl; [exact Hid|]. intros w w' H. destruct w as [kept|]; [|done]. destruct H as (kept' & -> & ? & _). exists kept'. split; [done|]. split; [done|]. by intros _ ? [=].
Qed.

Lemma kept_counts_exact_witness :
  let set := rrset_of (name_of [[120]]) 48 1 0 0 [[1; 1; 3; 15; 9]] [] in
  (∃ ws' hp', kept_deliver true ∅ (Some set) [Some (@nil Z); None; Some []] = Ok (ws', hp') ∧ ledger hp' (all_kept ws' ++ []) ∧
    Forall2 (fun w w' => match w with
      | None => w' = None
      | Some kept => ∃ kept', w' = Some kept' ∧ zlen kept' <= VAL_KEPT ∧
          (true = true → ∀ s, Some set = Some s → zlen kept = VAL_KEPT ∨ ∃ k e, k ∈ kept' ∧ hp' !! k = Some e ∧ kp_set e = s) end)
      [Some (@nil Z); None; Some []] ws') ∧
  ∀ kept ws0, [Some (@nil Z); None; Some []] = Some kept :: ws0 → ∃ hp', kept_release ∅ kept = Ok hp' ∧ ledger hp' (all_kept ws0 ++ []).
Proof.
  intros set. apply (kept_counts_exact true ∅ (Some set) [Some (@nil Z); None; Some []] []).
  - split; [intros k e H; by rewrite lookup_empty in H|intros k Hk; by apply elem_of_nil in Hk|by vm_compute].
  - by_compute.
  - intros s [= <-]. exists [[120]]. split; [by_compute|done].
  - by vm_compute.
Defined.
