(* ===== verification/Valtasks.v ===== *)
(** The tasks of a worker and the look-ups they wait on:
    src/resolver/resolver.c (elpis_task_child, task_finish, elpis_task_free and
    the completion callbacks) with the table of src/dnssec/dnssec.c.

    Of a task only what decides who is resumed and who is freed is kept: its
    parent, its completion callback, its state and whether its validation waits.
    One callback runs inside another, so a stack holds the tasks whose callback
    has not returned, each with the waiters it has still to resume; the task
    that runs at the moment is [s_run].  A step that follows a pointer to a task
    that was freed is [Stuck].  What a task does between two such steps is left
    open: every order the event loop and the answers can bring is an order of
    events.  The loop's own pointers, to timers and queries, are cancelled by
    elpis_task_free and are not kept. *)
From stdpp Require Import base list numbers gmap.
From Stdlib Require Import ZArith Lia.
From S2P Require Import Prelude Bytes Simd Name NameOps Dns64 Valflight.

(** ** State *)

(** [done_cb] and [done_ctx]: none, or one that resumes no task; nsaddr_done;
    dns64_child_done; val_child_done with the slot it was started for. *)
Inductive done_cb_t := NoTask | NsaddrDone | Dns64ChildDone | ValChildDone (f : option Z).

(** [n_waits] is [val->waiting].  The children of a task are the tasks whose
    parent it is. *)
Record node_t := mkNode { n_parent : option Z; n_done_cb : done_cb_t; n_state : elpis_tstate_t; n_waits : bool }.
Abbreviation tasks_t := (gmap Z node_t).

(** A task whose callback runs, and the waiters that are still to be resumed. *)
Record frame_t := mkFrame { fr_child : Z; fr_wait : list Z }.

Record sched_t := mkSched { s_tab : flight_table; s_tasks : tasks_t; s_stack : list frame_t; s_run : option Z }.

Definition sched_start : sched_t := mkSched flight_start ∅ [] None.

Definition with_tab (s : sched_t) (tab : flight_table) : sched_t := mkSched tab (s_tasks s) (s_stack s) (s_run s).
Definition with_task (s : sched_t) (t : Z) (n : node_t) : sched_t := mkSched (s_tab s) (<[t := n]> (s_tasks s)) (s_stack s) (s_run s).
Definition with_run (s : sched_t) (r : option Z) : sched_t := mkSched (s_tab s) (s_tasks s) (s_stack s) r.
Definition push (s : sched_t) (t : Z) (ws : list Z) : sched_t := mkSched (s_tab s) (s_tasks s) (mkFrame t ws :: s_stack s) None.

Definition in_state (n : node_t) (x : elpis_tstate_t) : node_t := mkNode (n_parent n) (n_done_cb n) x (n_waits n).

(** A task that was freed is used after it. *)
Definition node (s : sched_t) (t : Z) : res node_t := match s_tasks s !! t with Some n => Ok n | None => Stuck OutOfBounds end.

(** ** Operations *)

(** elpis_task_new and elpis_task_start; with a parent, elpis_task_child.  The
    task starts on the next turn of the loop. *)
Definition task_new (s : sched_t) (k : Z) (parent : option Z) (cb : done_cb_t) : sched_t :=
  with_task s k (mkNode parent cb ELPIS_TS_INIT false).

(** What elpis_task_free does to the children. *)
Definition detach (t : Z) (n : node_t) : node_t :=
  if bool_decide (n_parent n = Some t) then mkNode None NoTask (n_state n) (n_waits n) else n.

Definition elpis_task_free (s : sched_t) (t : Z) : res sched_t :=
  _ ← node s t;
  Ok (mkSched (inflight_forget (s_tab s) t) (delete t (detach t <$> s_tasks s)) (s_stack s) (s_run s)).

(** The validation of [t] waits, and everything returns to the loop or to the
    callback that resumed it.  A task that is ended may still be resumed. *)
Definition suspend (s : sched_t) (t : Z) : res sched_t :=
  n ← node s t;
  let x := if bool_decide (n_state n = ELPIS_TS_DEAD) then ELPIS_TS_DEAD else ELPIS_TS_VALIDATE in
  Ok (with_run (with_task s t (mkNode (n_parent n) (n_done_cb n) x true)) None).

(** The plain way of val_need, when no slot is to be had. *)
Definition ask_alone (s : sched_t) (t : Z) (c : option Z) : res sched_t :=
  match c with Some k => suspend (task_new s k (Some t) (ValChildDone None)) t | None => Ok s end.

(** The end of val_need: [t] asks for a set.  [c1] and [c2] are the children
    started for a slot and without one, if they could be. *)
Definition val_ask (s : sched_t) (t : Z) (n : elpis_name_t) (type : Z) (c1 c2 : option Z) : res sched_t :=
  '(place, tab) ← flight_want (s_tab s) n type t;
  match place with
  | Joined => suspend (with_tab s tab) t
  | Slot i =>
    match c1 with
    | Some k => suspend (task_new (with_tab s tab) k (Some t) (ValChildDone (Some i))) t
    | None => tab ← flight_retire tab i; ask_alone (with_tab s tab) t c2
    end
  | Unshared => ask_alone (with_tab s tab) t c2
  end.

(** task_finish up to and into the callback; [ready] is what nsaddr_done asks of
    the look-ups for addresses besides the state of its parent. *)
Definition task_finish (s : sched_t) (t : Z) (ready : bool) : res sched_t :=
  n ← node s t;
  if bool_decide (n_state n = ELPIS_TS_DEAD) then Ok s
  else
    let s := with_task s t (mkNode (n_parent n) NoTask ELPIS_TS_DEAD (n_waits n)) in
    match n_done_cb n, n_parent n with
    | NsaddrDone, Some p =>
      m ← node s p;
      if bool_decide (n_state m = ELPIS_TS_NSADDR) && ready
      then Ok (with_run (push (with_task s p (in_state m ELPIS_TS_SEND)) t []) (Some p)) else Ok (push s t [])
    | Dns64ChildDone, Some p =>
      m ← node s p;
      if bool_decide (n_state m = ELPIS_TS_WAIT)
      then Ok (with_run (push (with_task s p (in_state m ELPIS_TS_FINISH)) t []) (Some p)) else Ok (push s t [])
    | ValChildDone f, Some p => '(ws, tab) ← flight_done (s_tab s) f p; Ok (push (with_tab s tab) t ws)
    | _, _ => Ok (push s t [])
    end.

(** The callback of the frame on top goes on: val_resume of its next waiter, or
    it returns and the task is freed. *)
Definition frame_next (s : sched_t) : res sched_t :=
  match s_stack s with
  | [] => Ok s
  | mkFrame t [] :: st => elpis_task_free (mkSched (s_tab s) (s_tasks s) st (s_run s)) t
  | mkFrame t (w :: ws) :: st =>
    n ← node s w;
    Ok (mkSched (s_tab s) (<[w := mkNode (n_parent n) (n_done_cb n) (n_state n) false]> (s_tasks s)) (mkFrame t ws :: st) (Some w))
  end.

(** elpis_dns64_start: the task on top is not freed but waits for the A look-up [k]. *)
Definition task_keep (s : sched_t) (k : Z) : res sched_t :=
  match s_stack s with
  | mkFrame t [] :: st =>
    n ← node s t;
    Ok (task_new (mkSched (s_tab s) (<[t := in_state n ELPIS_TS_WAIT]> (s_tasks s)) st None) k (Some t) Dns64ChildDone)
  | _ => Ok s
  end.

(** ** Events *)

Inductive event :=
  | Born (k : Z)                       (** a client, a refresh or the worker itself starts a task *)
  | Child (k : Z)                      (** the running task starts one for an address (nsaddr_child) *)
  | Wake (t : Z)                       (** the loop runs a task: its kick, a reply, an error, a timeout *)
  | Deadline (t : Z) (ready : bool)    (** the loop ends a task (elpis_task_fail) *)
  | Ask (n : elpis_name_t) (type : Z) (c1 c2 : option Z)
  | Verdict                            (** elpis_val_free of the running task *)
  | Suspend (addresses : bool)         (** the running task waits for a reply, or for addresses *)
  | End (ready : bool)                 (** the running task finishes *)
  | Next                               (** the callback on top goes on *)
  | Keep (k : Z)
  | Shutdown (t : Z).                  (** elpis_resolver_fini frees a task *)

Definition idle (s : sched_t) : bool := match s_run s, s_stack s with None, [] => true | _, _ => false end.
Definition unused (s : sched_t) (k : Z) : bool := match s_tasks s !! k with None => true | Some _ => false end.
Definition has (s : sched_t) (t : Z) (P : node_t → bool) : bool := match s_tasks s !! t with Some n => P n | None => false end.
Definition is_dead (n : node_t) : bool := bool_decide (n_state n = ELPIS_TS_DEAD).

(** Whether the event can come now.  A task has no reply to wait for while it
    validates or waits for addresses: its query was cancelled or answered.  One
    kept for DNS64 has its verdict: a deadline makes the answer SERVFAIL, to
    which DNS64 adds nothing. *)
Definition can (s : sched_t) (e : event) : bool :=
  match e with
  | Born k => unused s k
  | Child k => match s_run s with Some _ => unused s k | None => false end
  | Wake t => idle s && has s t (fun n => bool_decide (n_state n = ELPIS_TS_INIT ∨ n_state n = ELPIS_TS_WAIT))
  | Deadline t _ => idle s && has s t (fun n => negb (is_dead n))
  | Ask _ _ c1 c2 => match s_run s with
      | Some _ => match c1 with Some k => unused s k | None => true end && match c2 with Some k => unused s k | None => true end
      | None => false end
  | Verdict | Suspend _ => match s_run s with Some _ => true | None => false end
  | End _ => match s_run s with Some t => has s t (fun n => negb (is_dead n)) | None => false end
  | Next => match s_run s, s_stack s with None, _ :: _ => true | _, _ => false end
  | Keep k => match s_run s, s_stack s with
      | None, mkFrame t [] :: _ => unused s k && has s t (fun n => negb (n_waits n) && match n_parent n with None => true | Some _ => false end)
      | _, _ => false end
  | Shutdown t => idle s && has s t (fun _ => true)
  end.

Definition step (s : sched_t) (e : event) : res sched_t :=
  match e, s_run s with
  | Born k, _ => Ok (task_new s k None NoTask)
  | Child k, Some t => Ok (task_new s k (Some t) NsaddrDone)
  | Wake t, _ => n ← node s t; Ok (with_run (with_task s t (in_state n ELPIS_TS_LOOKUP)) (Some t))
  | Deadline t ready, _ => task_finish s t ready
  | Ask n type c1 c2, Some t => val_ask s t n type c1 c2
  | Verdict, Some t => Ok (with_tab s (inflight_forget (s_tab s) t))
  | Suspend addresses, Some t =>
    n ← node s t;
    let x := if is_dead n then ELPIS_TS_DEAD else if (addresses : bool) then ELPIS_TS_NSADDR else ELPIS_TS_WAIT in
    Ok (with_run (with_task s t (in_state n x)) None)
  | End ready, Some t => task_finish s t ready
  | Next, _ => frame_next s
  | Keep k, _ => task_keep s k
  | Shutdown t, _ => elpis_task_free s t
  | _, _ => Ok s
  end.

(** Names are names. *)
Definition event_ok (e : event) : Prop := match e with Ask n _ _ _ => wf_name n | _ => True end.

Inductive reached : sched_t → Prop :=
  | reached_start : reached sched_start
  | reached_step s e s' : reached s → event_ok e → can s e = true → step s e = Ok s' → reached s'.

Fixpoint steps (s : sched_t) (es : list event) : option sched_t :=
  match es with
  | [] => Some s
  | e :: es => if can s e then match step s e with Ok s => steps s es | _ => None end else None
  end.

(** Tasks that callbacks have still to resume. *)
Definition pending (st : list frame_t) : list Z := concat (map fr_wait st).

(** ** The table, by who waits where *)

Definition waiting_in (tab : flight_table) (t : Z) (i : nat) : Prop := ∃ f, tab !! i = Some f ∧ f_hash f ≠ 0 ∧ t ∈ f_waiter f.
Definition owns (tab : flight_table) (t : Z) (i : nat) : Prop := ∃ f, tab !! i = Some f ∧ f_hash f ≠ 0 ∧ f_owner f = Some t.

Lemma owns_waits live tab t i : flight_ok live tab → owns tab t i → waiting_in tab t i.
Proof.
  intros [_ Hf] (f & Hi & Hh & Eo). destruct (Forall_lookup_1 _ _ _ _ Hf Hi Hh) as [_ _ _ _ (o & Eo' & Ho)]. exists f. split; [done|]. split; [done|]. congruence.
Qed.

Lemma owns_one tab t t' i : owns tab t i → owns tab t' i → t = t'.
Proof. intros (f & Hf & _ & E) (g & Hg & _ & E'). congruence. Qed.

Lemma waiting_insert tab i f t j : (i < length tab)%nat →
  waiting_in (<[i := f]> tab) t j ↔ (j = i ∧ f_hash f ≠ 0 ∧ t ∈ f_waiter f) ∨ (j ≠ i ∧ waiting_in tab t j).
Proof.
  intros Hi. unfold waiting_in. destruct (decide (j = i)) as [->|Hne].
  - rewrite list_lookup_insert_eq by done. split; [intros (g & [= <-] & ?); by left|intros [(_ & ?)|[? _]]; [by exists f|done]].
  - rewrite list_lookup_insert_ne by done. split; [intros ?; by right|by intros [[? _]|[_ ?]]].
Qed.

Lemma owns_insert tab i f t j : (i < length tab)%nat →
  owns (<[i := f]> tab) t j ↔ (j = i ∧ f_hash f ≠ 0 ∧ f_owner f = Some t) ∨ (j ≠ i ∧ owns tab t j).
Proof.
  intros Hi. unfold owns. destruct (decide (j = i)) as [->|Hne].
  - rewrite list_lookup_insert_eq by done. split; [intros (g & [= <-] & ?); by left|intros [(_ & ?)|[? _]]; [by exists f|done]].
  - rewrite list_lookup_insert_ne by done. split; [intros ?; by right|by intros [[? _]|[_ ?]]].
Qed.

Lemma retire_waiting tab i tab' : flight_retire tab i = Ok tab' → ∀ t j, waiting_in tab' t j ↔ j ≠ Z.to_nat i ∧ waiting_in tab t j.
Proof.
  unfold flight_retire. intros E t j. apply bind_Ok_inv in E as (f & Ef & E). apply rd_Ok_inv in Ef as (Hi & Hl). apply lookup_lt_Some in Hl.
  rewrite wr_in_range in E by zl. injection E as <-. rewrite waiting_insert by done. cbn [retired f_hash]. tauto.
Qed.

Lemma retire_owns tab i tab' : flight_retire tab i = Ok tab' → ∀ t j, owns tab' t j ↔ j ≠ Z.to_nat i ∧ owns tab t j.
Proof.
  unfold flight_retire. intros E t j. apply bind_Ok_inv in E as (f & Ef & E). apply rd_Ok_inv in Ef as (Hi & Hl). apply lookup_lt_Some in Hl.
  rewrite wr_in_range in E by zl. injection E as <-. rewrite owns_insert by done. cbn [retired f_hash]. tauto.
Qed.

Lemma forget_waiting live tab t x j : flight_ok live tab → waiting_in (inflight_forget tab t) x j → waiting_in tab x j ∧ x ≠ t.
Proof.
  intros [_ Hf] (g & Hg & Hh & Hx). unfold inflight_forget in Hg. change (map (forget_slot t) tab) with (forget_slot t <$> tab) in Hg.
  apply list_lookup_fmap_Some in Hg as (f & -> & Hj). unfold forget_slot in Hh, Hx. destruct (Z.eqb_spec (f_hash f) 0) as [|Hne]; [done|].
  destruct (_ || _); [done|]. cbn [f_waiter] in Hx. destruct (Forall_lookup_1 _ _ _ _ Hf Hj Hne) as [_ Hnd _ _ _].
  rewrite (swap_out_perm t _ Hnd) in Hx. apply list_elem_of_filter in Hx as [Hxt Hx]. split; [by exists f|done].
Qed.

Lemma forget_owns live tab t x j : flight_ok live tab → x ≠ t → owns tab x j → owns (inflight_forget tab t) x j.
Proof.
  intros [_ Hf] Hne (f & Hj & Hh & Eo). exists (forget_slot t f). unfold inflight_forget. change (map (forget_slot t) tab) with (forget_slot t <$> tab).
  rewrite list_lookup_fmap, Hj. split; [done|]. destruct (Forall_lookup_1 _ _ _ _ Hf Hj Hh) as [_ Hnd _ _ (o & Eo' & Ho)]. unfold forget_slot.
  destruct (Z.eqb_spec (f_hash f) 0) as [|_]; [done|]. rewrite Eo. rewrite bool_decide_eq_false_2 by congruence. cbn [orb].
  assert (o ∈ swap_out t (f_waiter f)) as Hin by (rewrite (swap_out_perm t _ Hnd); apply list_elem_of_filter; split; [congruence|done]).
  destruct (Z.eqb_spec (zlen (swap_out t (f_waiter f))) 0) as [Hz|_]; [|done]. apply zlen_0_nil in Hz. rewrite Hz in Hin. by apply elem_of_nil in Hin.
Qed.

(** A task that waits nowhere joins a slot in use, if there is room. *)
Lemma join_shape live tab i t f : flight_ok live tab → t ∈ live → (∀ j, ¬ waiting_in tab t j) → 0 <= i < VAL_INFLIGHT → rd tab i = Ok f → f_hash f ≠ 0 →
  inflight_join tab i t = Ok (false, tab) ∨
  ∃ tab', inflight_join tab i t = Ok (true, tab') ∧ flight_ok live tab' ∧
    (∀ x j, waiting_in tab' x j ↔ (x = t ∧ j = Z.to_nat i) ∨ waiting_in tab x j) ∧ ∀ x j, owns tab' x j ↔ owns tab x j.
Proof.
  intros Htab Ht Hno Hi Ef Hh. destruct (inflight_join_spec live tab i t Htab Hi Ht f Ef Hh) as (b & tab0 & E0 & Htab0).
  apply rd_Ok_inv in Ef as Hl. destruct Hl as [_ Hl]. apply lookup_lt_Some in Hl as Hlt. unfold inflight_join in E0 |- *. rewrite Ef in E0 |- *. bind_step.
  cbn [mbind res_bind] in E0. destruct (existsb (Z.eqb t) (f_waiter f)) eqn:Ex.
  { apply existsb_exists in Ex as (x & Hx & ->%Z.eqb_eq). exfalso. apply (Hno (Z.to_nat i)). exists f. split; [done|]. split; [done|]. by apply list_elem_of_In. }
  destruct (VAL_WAITERS <=? zlen (f_waiter f)); [by left|]. right. rewrite wr_in_range in E0 |- * by zl. bind_step. injection E0 as <- <-.
  eexists. split; [done|]. split; [done|]. split; intros x j.
  - rewrite waiting_insert by done. cbn [f_hash f_waiter]. rewrite elem_of_app, list_elem_of_singleton. destruct (decide (j = Z.to_nat i)) as [->|Hne]; [|tauto].
    split; [intros [(_ & _ & [Hx|Hx])|[? _]]; [right; by exists f|by left|done]|].
    intros [[-> _]|(g & Hg & _ & Hx)]; left; (split; [done|]); (split; [done|]); [by right|left; congruence].
  - rewrite owns_insert by done. cbn [f_hash f_owner]. destruct (decide (j = Z.to_nat i)) as [->|Hne]; [|tauto].
    split; [intros [(_ & _ & Hx)|[? _]]; [by exists f|done]|]. intros (g & Hg & _ & Hx). left. split; [done|]. split; [done|congruence].
Qed.

Lemma free_unused tab i f : tab !! i = Some f → f_hash f = 0 → ∀ x, ¬ waiting_in tab x i ∧ ¬ owns tab x i.
Proof. intros Hi Hh x. split; intros (g & Hg & Hgh & _); congruence. Qed.

Lemma first_free_unused tab : ∀ i o, first_free tab i = Some o → ∃ f, tab !! Z.to_nat (o - i) = Some f ∧ f_hash f = 0.
Proof.
  induction tab as [|f tab IH]; intros i o; cbn [first_free]; [done|]. destruct (Z.eqb_spec (f_hash f) 0) as [Hz|]; cbn [negb].
  - intros [= <-]. rewrite Z.sub_diag. by exists f.
  - intros E. pose proof (first_free_spec _ _ _ E). destruct (IH _ _ E) as (g & Hg & Hz). exists g.
    replace (Z.to_nat (o - i)) with (S (Z.to_nat (o - (i + 1)))) by lia. done.
Qed.

(** What a look-up that is wanted does to the table. *)
Definition wanted (tab : flight_table) (t : Z) (p : flight_place) (tab' : flight_table) : Prop :=
  match p with
  | Joined => ∃ i, (∀ x j, waiting_in tab' x j ↔ (x = t ∧ j = i) ∨ waiting_in tab x j) ∧ ∀ x j, owns tab' x j ↔ owns tab x j
  | Slot i => 0 <= i < VAL_INFLIGHT ∧ (∀ x, ¬ waiting_in tab x (Z.to_nat i) ∧ ¬ owns tab x (Z.to_nat i)) ∧
      (∀ x j, waiting_in tab' x j ↔ (x = t ∧ j = Z.to_nat i) ∨ waiting_in tab x j) ∧ ∀ x j, owns tab' x j ↔ (x = t ∧ j = Z.to_nat i) ∨ owns tab x j
  | Unshared => tab' = tab
  end.

Lemma want_shape live tab n type t : flight_ok live tab → wf_name n → t ∈ live → (∀ j, ¬ waiting_in tab t j) →
  ∃ p tab', flight_want tab n type t = Ok (p, tab') ∧ flight_ok live tab' ∧ wanted tab t p tab'.
Proof.
  intros Htab Hn Ht Hno. destruct (flight_want_spec live tab n type t Htab Hn Ht) as (p0 & tab0 & E0 & Htab0 & _). unfold flight_want in E0 |- *.
  destruct (inflight_find_spec live tab n type Htab Hn) as (o & Eo & Ho). rewrite Eo in E0 |- *. bind_step. cbn [mbind res_bind] in E0.
  assert (∃ b tab1, match o with Some i => inflight_join tab i t | None => Ok (false, tab) end = Ok (b, tab1) ∧ flight_ok live tab1 ∧
    if b then wanted tab t Joined tab1 else tab1 = tab) as (b & tab1 & E1 & Htab1 & H1).
  { destruct o as [i|]; [|by exists false, tab]. destruct (Ho i eq_refl) as (Hi & f & Ef & Hh).
    destruct (join_shape live tab i t f Htab Ht Hno Hi Ef Hh) as [->|(tab1 & -> & H & Hw & Hx)]; [by exists false, tab|]. exists true, tab1.
    split; [done|]. split; [done|]. by exists (Z.to_nat i). }
  rewrite E1 in E0 |- *. bind_step. cbn [mbind res_bind] in E0. destruct b; [by exists Joined, tab1|]. subst tab1. unfold inflight_new in E0 |- *.
  destruct (first_free tab 0) as [i|] eqn:Ef; [|bind_step; by exists Unshared, tab].
  pose proof (first_free_spec _ _ _ Ef) as Hi. destruct (first_free_unused _ _ _ Ef) as (f & Hf & Hz). rewrite Z.sub_0_r in Hf. pose proof (proj1 Htab) as Hlen.
  apply lookup_lt_Some in Hf as Hlt. destruct (inflight_hash_spec n type Hn) as (h & Eh & Hh). rewrite Eh in E0 |- *. bind_step. cbn [mbind res_bind] in E0.
  rewrite wr_in_range in E0 |- * by lia. bind_step. cbn [mbind res_bind] in E0. unfold inflight_join in E0 |- *.
  assert (∀ g, rd (<[Z.to_nat i := g]> tab) i = Ok g) as Erd by (intros g; apply rd_lookup; [lia|by apply list_lookup_insert_eq]).
  rewrite Erd in E0 |- *. bind_step. cbn [mbind res_bind existsb f_waiter] in E0. cbn [existsb f_waiter].
  change (VAL_WAITERS <=? zlen (@nil Z)) with false in E0 |- *. cbn [app f_hash f_name f_type f_owner] in E0 |- *.
  rewrite wr_in_range in E0 |- * by (unfold zlen in *; rewrite length_insert; lia). bind_step. cbn [mbind res_bind] in E0. rewrite list_insert_insert_eq in E0 |- *.
  rewrite Erd in E0 |- *. bind_step. cbn [mbind res_bind f_hash f_name f_type f_waiter] in E0. cbn [f_hash f_name f_type f_waiter].
  rewrite wr_in_range in E0 |- * by (unfold zlen in *; rewrite length_insert; lia). bind_step. cbn [mbind res_bind] in E0. rewrite list_insert_insert_eq in E0 |- *.
  injection E0 as <- <-. eexists _, _. split; [done|]. split; [done|]. split; [lia|]. pose proof (free_unused _ _ _ Hf Hz) as Hfree. split; [exact Hfree|]. split; intros x j.
  - rewrite waiting_insert by done. cbn [f_hash f_waiter]. rewrite list_elem_of_singleton. destruct (decide (j = Z.to_nat i)) as [->|]; [|tauto].
    pose proof (Hfree x). tauto.
  - rewrite owns_insert by done. cbn [f_hash f_owner]. destruct (decide (j = Z.to_nat i)) as [->|]; [|tauto]. pose proof (Hfree x).
    split; [intros [(_ & _ & [= ->])|[? _]]; [by left|done]|intros [[-> _]|?]; [by left|tauto]].
Qed.

(** ** The invariant *)

Definition waits (m : tasks_t) (t : Z) : Prop := ∃ n, m !! t = Some n ∧ n_waits n = true.
(** The callback of [c] will resume the validation of [p], from slot [f]. *)
Definition armed (m : tasks_t) (c p : Z) (f : option Z) : Prop := ∃ n, m !! c = Some n ∧ n_parent n = Some p ∧ n_done_cb n = ValChildDone f.

(** A task is on the stack once, and no frame below its own will resume it. *)
Fixpoint frames_ok (st : list frame_t) : Prop :=
  match st with [] => True | f :: st => (fr_child f ∉ map fr_child st) ∧ (fr_child f ∉ pending st) ∧ frames_ok st end.

Definition on_stack (st : list frame_t) (t : Z) : Prop := t ∈ map fr_child st.

Record inv (s : sched_t) : Prop := {
  iv_flight : flight_ok (dom (s_tasks s)) (s_tab s);
  iv_parent : ∀ c n p, s_tasks s !! c = Some n → n_parent n = Some p → is_Some (s_tasks s !! p);
  iv_waits : ∀ x i, waiting_in (s_tab s) x i → waits (s_tasks s) x;
  iv_once : ∀ x i j, waiting_in (s_tab s) x i → waiting_in (s_tab s) x j → i = j;
  iv_pend : ∀ x, x ∈ pending (s_stack s) → waits (s_tasks s) x ∧ ∀ i, ¬ waiting_in (s_tab s) x i;
  iv_nodup : NoDup (pending (s_stack s));
  iv_frames : frames_ok (s_stack s);
  iv_dead : ∀ k, on_stack (s_stack s) k → ∃ n, s_tasks s !! k = Some n ∧ n_state n = ELPIS_TS_DEAD;
  iv_run : ∀ t, s_run s = Some t → ∃ n, s_tasks s !! t = Some n ∧ n_waits n = false;
  iv_armed : ∀ c p f, armed (s_tasks s) c p f → waits (s_tasks s) p ∧ (p ∉ pending (s_stack s)) ∧
    match f with
    | Some i => 0 <= i < VAL_INFLIGHT ∧ owns (s_tab s) p (Z.to_nat i)
    | None => ∀ i, ¬ waiting_in (s_tab s) p i
    end;
  iv_one : ∀ c c' p f f', armed (s_tasks s) c p f → armed (s_tasks s) c' p f' → c = c';
  iv_state : ∀ t n, s_tasks s !! t = Some n → n_waits n = true → n_state n = ELPIS_TS_VALIDATE ∨ n_state n = ELPIS_TS_DEAD }.

Lemma waits_insert m t n x : waits (<[t := n]> m) x ↔ (x = t ∧ n_waits n = true) ∨ (x ≠ t ∧ waits m x).
Proof.
  unfold waits. destruct (decide (x = t)) as [->|Hne].
  - rewrite lookup_insert_eq. split; [intros (k & [= <-] & ?); by left|intros [[_ ?]|[? _]]; [by exists n|done]].
  - rewrite lookup_insert_ne by done. split; [intros ?; by right|by intros [[? _]|[_ ?]]].
Qed.

Lemma armed_insert m t n c p f : armed (<[t := n]> m) c p f ↔ (c = t ∧ n_parent n = Some p ∧ n_done_cb n = ValChildDone f) ∨ (c ≠ t ∧ armed m c p f).
Proof.
  unfold armed. destruct (decide (c = t)) as [->|Hne].
  - rewrite lookup_insert_eq. split; [intros (k & [= <-] & ?); by left|intros [[_ ?]|[? _]]; [by exists n|done]].
  - rewrite lookup_insert_ne by done. split; [intros ?; by right|by intros [[? _]|[_ ?]]].
Qed.

Lemma node_ok s t n : s_tasks s !! t = Some n → node s t = Ok n.
Proof. unfold node. by intros ->. Qed.

(** A change of state, or of the callback to none, that leaves who waits. *)
Definition restated (n n' : node_t) : Prop :=
  n_parent n' = n_parent n ∧ n_waits n' = n_waits n ∧ (n_done_cb n' = n_done_cb n ∨ n_done_cb n' = NoTask).

Lemma inv_restate s t n n' : inv s → s_tasks s !! t = Some n → restated n n' →
  (n_waits n = true → n_state n' = ELPIS_TS_VALIDATE ∨ n_state n' = ELPIS_TS_DEAD) → (on_stack (s_stack s) t → n_state n' = ELPIS_TS_DEAD) →
  inv (with_task s t n').
Proof.
  intros Hi Ht (Ep & Ew & Ec) Hst Hdead. pose proof Hi as [H1 H2 H3 H4 H5 H6 H7 H8 H9 H10 H11 H12].
  assert (∀ x, waits (<[t := n']> (s_tasks s)) x ↔ waits (s_tasks s) x) as Hw.
  { intros x. rewrite waits_insert. unfold waits. destruct (decide (x = t)) as [->|]; [|tauto]. rewrite Ht, Ew. split; [intros [[_ ?]|[? _]]; [by exists n|done]|].
    intros (k & [= <-] & ?). by left. }
  assert (∀ c p f, armed (<[t := n']> (s_tasks s)) c p f → armed (s_tasks s) c p f) as Ha.
  { intros c p f. rewrite armed_insert. intros [(-> & Hp & Hc)|[_ ?]]; [|done]. destruct Ec as [Ec|Ec]; [|congruence]. exists n. split; [done|]. split; congruence. }
  split; cbn [with_task s_tab s_tasks s_stack s_run]; try done.
  - eapply flight_ok_mono; [exact H1|]. rewrite dom_insert. apply union_subseteq_r.
  - intros c k p Hc Hp. assert (is_Some (s_tasks s !! p)) as Hs.
    { destruct (decide (c = t)) as [->|]; [rewrite lookup_insert_eq in Hc; injection Hc as <-; apply (H2 t n p Ht); congruence|].
      rewrite lookup_insert_ne in Hc by done. by apply (H2 c k p). }
    destruct (decide (p = t)) as [->|]; [rewrite lookup_insert_eq; by eexists|by rewrite lookup_insert_ne].
  - intros x i Hx. apply Hw. by eapply H3.
  - intros x Hx. rewrite Hw. by apply H5.
  - intros k Hk. destruct (decide (k = t)) as [->|]; [rewrite lookup_insert_eq; exists n'; split; [done|by apply Hdead]|rewrite lookup_insert_ne by done; by apply H8].
  - intros x Hx. destruct (decide (x = t)) as [->|]; [rewrite lookup_insert_eq|rewrite lookup_insert_ne by done; by apply H9].
    exists n'. split; [done|]. destruct (H9 _ Hx) as (k & Hk & ?). congruence.
  - intros c p f Hc. rewrite Hw. by apply (H10 c p f), Ha.
  - intros c c' p f f' Hc Hc'. by apply (H11 c c' p f f'); apply Ha.
  - intros x k Hx. destruct (decide (x = t)) as [->|]; [rewrite lookup_insert_eq in Hx; injection Hx as <-; rewrite Ew; exact Hst|].
    rewrite lookup_insert_ne in Hx by done. exact (H12 x k Hx).
Qed.

(** [p] waits for a child that will be started for [f]. *)
Definition may_arm (s : sched_t) (p : Z) (f : option Z) : Prop :=
  waits (s_tasks s) p ∧ (p ∉ pending (s_stack s)) ∧ (∀ c g, ¬ armed (s_tasks s) c p g) ∧
  match f with Some i => 0 <= i < VAL_INFLIGHT ∧ owns (s_tab s) p (Z.to_nat i) | None => ∀ i, ¬ waiting_in (s_tab s) p i end.

(** A new task, which waits for nothing. *)
Lemma inv_new s k parent cb : inv s → s_tasks s !! k = None → (∀ p, parent = Some p → is_Some (s_tasks s !! p)) →
  (∀ p f, parent = Some p → cb = ValChildDone f → may_arm s p f) → inv (task_new s k parent cb).
Proof.
  intros Hi Hk Hp Hcb. pose proof Hi as [H1 H2 H3 H4 H5 H6 H7 H8 H9 H10 H11 H12]. unfold task_new. set (n := mkNode parent cb ELPIS_TS_INIT false).
  assert (∀ x, waits (s_tasks s) x → waits (<[k := n]> (s_tasks s)) x) as Hw.
  { intros x (y & Hx & ?). apply waits_insert. right. split; [congruence|by exists y]. }
  assert (∀ c p f, armed (<[k := n]> (s_tasks s)) c p f → armed (s_tasks s) c p f ∨ c = k ∧ may_arm s p f) as Ha.
  { intros c p f. rewrite armed_insert. intros [(-> & E & E')|[_ ?]]; [right|by left]. split; [done|]. by apply Hcb. }
  split; cbn [with_task s_tab s_tasks s_stack s_run]; try done.
  - eapply flight_ok_mono; [exact H1|]. rewrite dom_insert. apply union_subseteq_r.
  - intros c y p Hc Hy. assert (is_Some (s_tasks s !! p)) as Hs.
    { destruct (decide (c = k)) as [->|]; [rewrite lookup_insert_eq in Hc; injection Hc as <-; by apply Hp|]. rewrite lookup_insert_ne in Hc by done. by apply (H2 c y p). }
    apply lookup_insert_is_Some. destruct (decide (k = p)); [by left|by right].
  - intros x i Hx. apply Hw. by eapply H3.
  - intros x Hx. destruct (H5 x Hx). split; [by apply Hw|done].
  - intros x Hx. destruct (H8 x Hx) as (y & ? & ?). exists y. rewrite lookup_insert_ne by congruence. done.
  - intros x Hx. destruct (H9 x Hx) as (y & ? & ?). exists y. rewrite lookup_insert_ne by congruence. done.
  - intros c p f [Hc|(_ & Hpw & Hpp & _ & Hf)]%Ha; [|split; [by apply Hw|done]]. destruct (H10 c p f Hc) as (? & ? & ?). split; [by apply Hw|done].
  - intros c c' p f f' [Hc|(-> & _ & _ & Hno & _)]%Ha [Hc'|(-> & _ & _ & Hno' & _)]%Ha;
      [by apply (H11 c c' p f f')|by destruct (Hno' c f)|by destruct (Hno c' f')|done].
  - intros x y Hx. destruct (decide (x = k)) as [->|]; [rewrite lookup_insert_eq in Hx; by injection Hx as <-|]. rewrite lookup_insert_ne in Hx by done. exact (H12 x y Hx).
Qed.

Lemma inv_run s r : inv s → (∀ t, r = Some t → ∃ n, s_tasks s !! t = Some n ∧ n_waits n = false) → inv (with_run s r).
Proof. intros [] Hr. by split. Qed.

(** A task whose verdict is in leaves the table. *)
Lemma inv_verdict s t : inv s → s_run s = Some t → inv (with_tab s (inflight_forget (s_tab s) t)).
Proof.
  intros [H1 H2 H3 H4 H5 H6 H7 H8 H9 H10 H11 H12] Ht. destruct (H9 t Ht) as (n & Hn & Hw).
  assert (∀ x j, waiting_in (inflight_forget (s_tab s) t) x j → waiting_in (s_tab s) x j) as Hin by (intros x j Hx; by apply (forget_waiting _ _ _ _ _ H1 Hx)).
  split; cbn [with_tab s_tab s_tasks s_stack s_run]; try done.
  - eapply flight_ok_mono; [by apply inflight_forget_spec|apply subseteq_difference_l; done].
  - intros x i Hx%Hin. by eapply H3.
  - intros x i j Hi%Hin Hj%Hin. by apply (H4 x).
  - intros x Hx. destruct (H5 x Hx) as [? Hno]. split; [done|]. intros i Hi%Hin. by apply (Hno i).
  - intros c p f Hc. destruct (H10 c p f Hc) as ((y & Hy & Hyw) & Hnp & Hf). split; [by exists y|]. split; [done|].
    destruct f as [i|]; [|intros i Hi%Hin; by apply (Hf i)]. split; [apply Hf|]. apply (forget_owns _ _ _ _ _ H1); [congruence|apply Hf].
Qed.

(** What is left when a task is freed. *)
Lemma freed_lookup (m : tasks_t) t x n' : delete t (detach t <$> m) !! x = Some n' ↔ x ≠ t ∧ ∃ n, m !! x = Some n ∧ n' = detach t n.
Proof.
  rewrite lookup_delete_Some, lookup_fmap_Some. split; [intros (? & n & <- & ?); split; [congruence|by exists n]|intros (? & n & ? & ->); split; [congruence|by exists n]].
Qed.

Lemma detach_same t n : n_state (detach t n) = n_state n ∧ n_waits (detach t n) = n_waits n ∧ ∀ p, n_parent (detach t n) = Some p → p ≠ t ∧ detach t n = n.
Proof. unfold detach. case_bool_decide as E; (split; [done|]); (split; [done|]); intros p Hp; [done|]. split; [congruence|done]. Qed.

Lemma inv_free s t : inv s → is_Some (s_tasks s !! t) → ¬ on_stack (s_stack s) t → (t ∉ pending (s_stack s)) → s_run s ≠ Some t →
  ∃ s', elpis_task_free s t = Ok s' ∧ inv s'.
Proof.
  intros [H1 H2 H3 H4 H5 H6 H7 H8 H9 H10 H11 H12] (n & Hn) Hst Hpend Hrun. unfold elpis_task_free. rewrite (node_ok _ _ _ Hn). bind_step.
  eexists. split; [done|]. set (m' := delete t (detach t <$> s_tasks s)).
  assert (∀ x, x ≠ t → waits (s_tasks s) x → waits m' x) as Hw.
  { intros x Hx (y & Hy & ?). exists (detach t y). split; [apply freed_lookup; split; [done|by exists y]|]. by rewrite (proj1 (proj2 (detach_same t y))). }
  assert (∀ c p f, armed m' c p f → p ≠ t ∧ armed (s_tasks s) c p f) as Ha.
  { intros c p f (y' & (_ & y & Hy & ->)%freed_lookup & Hp & Hc). destruct (proj2 (proj2 (detach_same t y)) p Hp) as [? E]. rewrite E in *. split; [done|by exists y]. }
  assert (∀ x j, waiting_in (inflight_forget (s_tab s) t) x j → waiting_in (s_tab s) x j ∧ x ≠ t) as Hin by (intros x j Hx; by apply (forget_waiting _ _ _ _ _ H1 Hx)).
  split; cbn [s_tab s_tasks s_stack s_run]; try done.
  - unfold m'. rewrite dom_delete_L, dom_fmap_L. by apply inflight_forget_spec.
  - intros c y' p (_ & y & Hy & ->)%freed_lookup Hp. destruct (proj2 (proj2 (detach_same t y)) p Hp) as [Hne E]. rewrite E in Hp.
    destruct (H2 c y p Hy Hp) as (z & Hz). exists (detach t z). apply freed_lookup. split; [done|by exists z].
  - intros x i [Hx ?]%Hin. apply Hw; [done|]. by eapply H3.
  - intros x i j [Hi _]%Hin [Hj _]%Hin. by apply (H4 x).
  - intros x Hx. destruct (H5 x Hx) as [? Hno]. split; [apply Hw; [congruence|done]|]. intros i [Hi _]%Hin. by apply (Hno i).
  - intros k Hk. destruct (H8 k Hk) as (y & Hy & ?). exists (detach t y). split; [apply freed_lookup; split; [congruence|by exists y]|]. by rewrite (proj1 (detach_same t y)).
  - intros x Hx. destruct (H9 x Hx) as (y & Hy & ?). exists (detach t y). split; [apply freed_lookup; split; [congruence|by exists y]|]. by rewrite (proj1 (proj2 (detach_same t y))).
  - intros c p f [Hp Hc]%Ha. destruct (H10 c p f Hc) as (? & ? & Hf). split; [by apply Hw|]. split; [done|].
    destruct f as [i|]; [|intros i [Hi _]%Hin; by apply (Hf i)]. split; [apply Hf|]. apply (forget_owns _ _ _ _ _ H1); [done|apply Hf].
  - intros c c' p f f' [_ Hc]%Ha [_ Hc']%Ha. by apply (H11 c c' p f f').
  - intros x y' (_ & y & Hy & ->)%freed_lookup. destruct (detach_same t y) as (-> & -> & _). exact (H12 x y Hy).
Qed.

(** The running task waits from now on, in a slot or in none. *)
Definition waiting (n : node_t) : node_t :=
  mkNode (n_parent n) (n_done_cb n) (if bool_decide (n_state n = ELPIS_TS_DEAD) then ELPIS_TS_DEAD else ELPIS_TS_VALIDATE) true.

Lemma inv_wait s t n tab (i0 : nat) : inv s → s_run s = Some t → s_tasks s !! t = Some n → flight_ok (dom (s_tasks s)) tab →
  (∀ x j, waiting_in tab x j → waiting_in (s_tab s) x j ∨ x = t ∧ j = i0) → (∀ x j, owns (s_tab s) x j → owns tab x j) →
  inv (mkSched tab (<[t := waiting n]> (s_tasks s)) (s_stack s) None) ∧ ∀ c g, ¬ armed (<[t := waiting n]> (s_tasks s)) c t g.
Proof.
  intros [H1 H2 H3 H4 H5 H6 H7 H8 H9 H10 H11 H12] Hrun Hn Htab Hin Hown. destruct (H9 t Hrun) as (n0 & Hn0 & Hnw). assert (n0 = n) as -> by congruence. clear Hn0.
  set (m := <[t := waiting n]> (s_tasks s)). assert (¬ waits (s_tasks s) t) as Hno by (intros (y & Hy & ?); congruence).
  assert (∀ x, waits (s_tasks s) x → waits m x) as Hw by (intros x Hx; apply waits_insert; right; split; [by intros ->|done]).
  assert (waits m t) as Hwt by (apply waits_insert; by left).
  assert (∀ c p f, armed m c p f → armed (s_tasks s) c p f ∧ p ≠ t) as Ha.
  { intros c p f Hc. assert (armed (s_tasks s) c p f) as Hc'.
    { apply armed_insert in Hc as [(-> & Hp & Hc)|[_ ?]]; [|done]. by exists n. }
    split; [done|]. intros ->. by destruct (H10 c t f Hc'). }
  split; [|by intros c g [_ ?]%Ha].
  split; cbn [s_tab s_tasks s_stack s_run]; try done.
  - eapply flight_ok_mono; [exact Htab|]. unfold m. rewrite dom_insert. apply union_subseteq_r.
  - intros c y p Hc Hp. apply lookup_insert_is_Some. destruct (decide (t = p)); [by left|right; split; [done|]]. unfold m in Hc.
    destruct (decide (c = t)) as [->|]; [rewrite lookup_insert_eq in Hc; injection Hc as <-; by apply (H2 t n p)|]. rewrite lookup_insert_ne in Hc by done. by apply (H2 c y p).
  - intros x i Hx. destruct (Hin x i Hx) as [Hx'|[-> ->]]; [apply Hw; by eapply H3|done].
  - assert (∀ i, waiting_in tab t i → i = i0) as Ht0 by (intros i Hi; destruct (Hin t i Hi) as [Hi'|[_ ->]]; [by destruct (Hno (H3 t i Hi'))|done]).
    intros x i j Hi Hj. destruct (decide (x = t)) as [->|]; [by rewrite (Ht0 i Hi), (Ht0 j Hj)|].
    destruct (Hin x i Hi) as [Hi'|[? _]], (Hin x j Hj) as [Hj'|[? _]]; try done. by apply (H4 x).
  - intros x Hx. destruct (H5 x Hx) as [Hxw Hni]. split; [by apply Hw|]. intros i Hi. destruct (Hin x i Hi) as [Hi'|[-> _]]; [by apply (Hni i)|done].
  - intros k Hk. destruct (H8 k Hk) as (y & Hy & Hd). unfold m. destruct (decide (k = t)) as [->|]; [|exists y; by rewrite lookup_insert_ne].
    exists (waiting n). rewrite lookup_insert_eq. split; [done|]. cbn [waiting n_state]. rewrite bool_decide_eq_true_2; [done|congruence].
  - intros c p f [Hc Hpt]%Ha. destruct (H10 c p f Hc) as (Hp & ? & Hf). split; [by apply Hw|]. split; [done|].
    destruct f as [i|]; [split; [apply Hf|by apply Hown, Hf]|]. intros i Hi. destruct (Hin p i Hi) as [Hi'|[? _]]; [by apply (Hf i)|done].
  - intros c c' p f f' [Hc _]%Ha [Hc' _]%Ha. by apply (H11 c c' p f f').
  - intros x y Hx Hyw. unfold m in Hx. destruct (decide (x = t)) as [->|]; [rewrite lookup_insert_eq in Hx; injection Hx as <-|rewrite lookup_insert_ne in Hx by done; by apply (H12 x)].
    cbn [waiting n_state]. case_bool_decide; [by right|by left].
Qed.

Lemma suspend_joined s t n tab (i0 : nat) : inv s → s_run s = Some t → s_tasks s !! t = Some n → flight_ok (dom (s_tasks s)) tab →
  (∀ x j, waiting_in tab x j → waiting_in (s_tab s) x j ∨ x = t ∧ j = i0) → (∀ x j, owns (s_tab s) x j → owns tab x j) →
  ∃ s', suspend (with_tab s tab) t = Ok s' ∧ inv s'.
Proof.
  intros Hi Hrun Hn Htab Hin Hown. unfold suspend. rewrite (node_ok (with_tab s tab) t n Hn). bind_step. eexists. split; [done|]. by apply (inv_wait s t n tab i0).
Qed.

Lemma suspend_child s t n tab (i0 : nat) k f : inv s → s_run s = Some t → s_tasks s !! t = Some n → flight_ok (dom (s_tasks s)) tab →
  (∀ x j, waiting_in tab x j → waiting_in (s_tab s) x j ∨ x = t ∧ j = i0) → (∀ x j, owns (s_tab s) x j → owns tab x j) → s_tasks s !! k = None →
  match f with Some i => 0 <= i < VAL_INFLIGHT ∧ owns tab t (Z.to_nat i) | None => ∀ j, ¬ waiting_in tab t j end →
  ∃ s', suspend (task_new (with_tab s tab) k (Some t) (ValChildDone f)) t = Ok s' ∧ inv s'.
Proof.
  intros Hi Hrun Hn Htab Hin Hown Hk Hf. assert (k ≠ t) as Hkt by congruence. destruct (inv_wait s t n tab i0 Hi Hrun Hn Htab Hin Hown) as [Hi1 Hno].
  set (s1 := mkSched _ _ _ _) in Hi1. unfold suspend. rewrite (node_ok _ t n) by (cbn; by rewrite lookup_insert_ne). bind_step. eexists. split; [done|].
  assert (inv (task_new s1 k (Some t) (ValChildDone f))) as H.
  { apply inv_new; [done|cbn; by rewrite lookup_insert_ne|intros p [= <-]; cbn; rewrite lookup_insert_eq; by eexists|]. intros p g [= <-] [= <-].
    split; [apply waits_insert; by left|]. split; [|by split]. intros Hp%(iv_pend s Hi). destruct Hp as [(y & Hy & ?) _]. destruct (iv_run s Hi t Hrun) as (z & Hz & ?). congruence. }
  unfold task_new, with_task, with_run, with_tab in *. cbn [s1 s_tab s_tasks s_stack s_run] in *.
  rewrite insert_insert_ne by congruence. exact H.
Qed.

(** The callback of a task that ended begins, with the waiters it has to resume. *)
Lemma inv_push s t ws : inv s → (∃ n, s_tasks s !! t = Some n ∧ n_state n = ELPIS_TS_DEAD) → ¬ on_stack (s_stack s) t → (t ∉ pending (s_stack s)) →
  NoDup ws → (∀ x, x ∈ ws → waits (s_tasks s) x ∧ (x ∉ pending (s_stack s)) ∧ (∀ i, ¬ waiting_in (s_tab s) x i) ∧ ∀ c f, ¬ armed (s_tasks s) c x f) →
  inv (push s t ws).
Proof.
  intros [H1 H2 H3 H4 H5 H6 H7 H8 H9 H10 H11 H12] Ht Hst Hp Hnd Hws.
  assert (∀ x, x ∈ pending (mkFrame t ws :: s_stack s) ↔ x ∈ ws ∨ x ∈ pending (s_stack s)) as Hpend by (intros x; apply elem_of_app).
  split; cbn [push s_tab s_tasks s_stack s_run]; try done.
  - intros x [Hx|Hx]%Hpend; [destruct (Hws x Hx) as (? & _ & ? & _); done|by apply H5].
  - apply NoDup_app. split; [done|]. split; [|done]. intros x Hx. by apply Hws.
  - intros k [->|Hk]%elem_of_cons; [done|by apply H8].
  - intros c p f Hc. destruct (H10 c p f Hc) as (? & ? & ?). split; [done|]. split; [|done]. intros [Hx|Hx]%Hpend; [|done].
    destruct (Hws p Hx) as (_ & _ & _ & Hno). by apply (Hno c f).
Qed.

Lemma inv_retire s i tab : inv s → 0 <= i < VAL_INFLIGHT → flight_retire (s_tab s) i = Ok tab → (∀ c p f, armed (s_tasks s) c p f → ¬ owns (s_tab s) p (Z.to_nat i)) →
  inv (with_tab s tab).
Proof.
  intros [H1 H2 H3 H4 H5 H6 H7 H8 H9 H10 H11 H12] Hi E Hno. pose proof (retire_waiting _ _ _ E) as Hw. pose proof (retire_owns _ _ _ E) as Ho.
  split; cbn [with_tab s_tab s_tasks s_stack s_run]; try done.
  - destruct (flight_retire_spec _ _ i H1 Hi) as (tab' & E' & H). rewrite E in E'. by injection E' as <-.
  - intros x j [_ Hx]%Hw. by eapply H3.
  - intros x j k [_ Hj]%Hw [_ Hk]%Hw. by apply (H4 x).
  - intros x Hx. destruct (H5 x Hx) as [? Hn]. split; [done|]. intros j [_ Hj]%Hw. by apply (Hn j).
  - intros c p f Hc. destruct (H10 c p f Hc) as (? & ? & Hf). split; [done|]. split; [done|].
    destruct f as [j|]; [|intros k [_ Hk]%Hw; by apply (Hf k)]. split; [apply Hf|]. apply Ho. split; [|apply Hf]. intros Ej. apply (Hno c p (Some j) Hc). rewrite <- Ej. apply Hf.
Qed.

(** The state in which the callback of [t] is called. *)
Lemma inv_dead s t n : inv s → s_tasks s !! t = Some n → n_state n ≠ ELPIS_TS_DEAD →
  inv (with_task s t (mkNode (n_parent n) NoTask ELPIS_TS_DEAD (n_waits n))) ∧ ¬ on_stack (s_stack s) t.
Proof.
  intros Hi Hn Hd. split; [|intros Hst; destruct (iv_dead s Hi t Hst) as (k & Hk & ?); congruence].
  apply (inv_restate s t n); [done|done|split; [done|split; [done|by right]]|by right|done].
Qed.

(** Its parent is run by the callback, in a state in which it does not wait. *)
Lemma inv_parent s t p m x : inv s → (∃ n, s_tasks s !! t = Some n ∧ n_state n = ELPIS_TS_DEAD) → ¬ on_stack (s_stack s) t → (t ∉ pending (s_stack s)) →
  s_tasks s !! p = Some m → n_state m = ELPIS_TS_NSADDR ∨ n_state m = ELPIS_TS_WAIT →
  inv (with_run (push (with_task s p (in_state m x)) t []) (Some p)).
Proof.
  intros Hi (n & Hn & Hd) Hst Hp Hm Hx. assert (n_waits m = false) as Hw.
  { destruct (n_waits m) eqn:E; [|done]. destruct (iv_state s Hi p m Hm E), Hx; congruence. }
  assert (p ≠ t) as Hpt by (intros ->; destruct Hx; congruence). apply inv_run.
  - apply inv_push; cbn [with_task s_tab s_tasks s_stack]; [|exists n; by rewrite lookup_insert_ne|done|done|apply NoDup_nil_2|intros y Hy; by apply elem_of_nil in Hy].
    apply (inv_restate s p m); [done|done|split; [done|split; [done|by left]]|congruence|].
    intros Hs. destruct (iv_dead s Hi p Hs) as (k & Hk & ?). destruct Hx; congruence.
  - intros y [= <-]. exists (in_state m x). cbn [push with_task s_tasks]. by rewrite lookup_insert_eq.
Qed.

(** val_child_done takes the list of the slot, or its own parent. *)
Lemma inv_child_done s0 s t p f : inv s0 → armed (s_tasks s0) t p f → inv s → s_tab s = s_tab s0 → s_stack s = s_stack s0 →
  (∀ x, waits (s_tasks s0) x → waits (s_tasks s) x) → (∀ c q g, armed (s_tasks s) c q g → c ≠ t ∧ armed (s_tasks s0) c q g) →
  (∃ n, s_tasks s !! t = Some n ∧ n_state n = ELPIS_TS_DEAD) → ¬ on_stack (s_stack s) t → (t ∉ pending (s_stack s)) →
  ∃ ws tab, flight_done (s_tab s) f p = Ok (ws, tab) ∧ inv (push (with_tab s tab) t ws).
Proof.
  intros Hi0 Harm Hi Etab Est Hw Ha Ht Hst Hp. destruct (iv_armed s0 Hi0 t p f Harm) as (Hpw & Hpp & Hf). rewrite <- Est in Hpp.
  assert (∀ c g, ¬ armed (s_tasks s) c p g) as Hno by (intros c g [Hne Hc]%Ha; by apply Hne, (iv_one s0 Hi0 c t p g f)).
  destruct f as [i|]; cbn [flight_done]; rewrite ?Etab.
  - destruct Hf as (Hi64 & Ho). pose proof Ho as (fl & Hfl & Hh & Eo). rewrite (rd_lookup _ i fl) by first [lia|done]. bind_step.
    rewrite bool_decide_eq_true_2 by done. cbn [negb orb]. destruct (Z.eqb_spec (f_hash fl) 0) as [|_]; [done|].
    destruct (flight_retire_spec _ _ i (iv_flight s0 Hi0) Hi64) as (tab & E & _). pose proof E as E'. unfold flight_retire in E'.
    rewrite (rd_lookup _ i fl) in E' by first [lia|done]. cbn [mbind res_bind] in E'. rewrite E'. bind_step. eexists _, _. split; [done|].
    assert (∀ x, x ∈ f_waiter fl → waiting_in (s_tab s0) x (Z.to_nat i)) as Hin by (intros x Hx; by exists fl).
    apply inv_push; [apply (inv_retire s i); [done|done|by rewrite Etab|]|done|done|done| |]; cbn [with_tab s_tab s_tasks s_stack].
    + rewrite Etab. intros c q g Hc Hoq. rewrite (owns_one _ _ _ _ Hoq Ho) in Hc. by apply (Hno c g).
    + by destruct (Forall_lookup_1 _ _ _ _ (proj2 (iv_flight s0 Hi0)) Hfl Hh).
    + intros x Hx. pose proof (Hin x Hx) as Hxi. split; [by apply Hw, (iv_waits s0 Hi0 x (Z.to_nat i))|].
      split; [rewrite Est; intros Hxp; by apply (proj2 (iv_pend s0 Hi0 x Hxp) (Z.to_nat i))|]. split.
      * intros j [Hne Hj]%(retire_waiting _ _ _ E). by apply Hne, (iv_once s0 Hi0 x).
      * intros c g Hc. destruct (Ha c x g Hc) as [Hne Hc0]. destruct (iv_armed s0 Hi0 c x g Hc0) as (_ & _ & Hg). destruct g as [j|]; [|by apply (Hg (Z.to_nat i))].
        pose proof (owns_waits _ _ _ _ (iv_flight s0 Hi0) (proj2 Hg)) as Hxj. pose proof (iv_once s0 Hi0 x _ _ Hxi Hxj) as Ej. rewrite <- Ej in Hg.
        rewrite (owns_one _ _ _ _ (proj2 Hg) Ho) in Hc. by apply (Hno c (Some j)).
  - eexists _, _. split; [done|]. rewrite <- Etab. apply inv_push; [by destruct s|done|done|done|apply NoDup_singleton|]; cbn [with_tab s_tab s_tasks s_stack].
    intros x ->%list_elem_of_singleton. split; [by apply Hw|]. split; [done|]. split; [rewrite Etab; exact Hf|exact Hno].
Qed.

Lemma finish_ok s t n ready : inv s → s_tasks s !! t = Some n → n_state n ≠ ELPIS_TS_DEAD → (t ∉ pending (s_stack s)) →
  ∃ s', task_finish s t ready = Ok s' ∧ inv s'.
Proof.
  intros Hi Hn Hd Hp. unfold task_finish. rewrite (node_ok _ _ _ Hn). bind_step. rewrite bool_decide_eq_false_2 by done.
  destruct (inv_dead s t n Hi Hn Hd) as [Hi1 Hst]. set (n1 := mkNode _ _ _ _) in *. set (s1 := with_task s t n1) in *.
  assert (∃ k, s_tasks s1 !! t = Some k ∧ n_state k = ELPIS_TS_DEAD) as Hdead by (exists n1; cbn; by rewrite lookup_insert_eq).
  assert (∃ s', Ok (push s1 t []) = Ok s' ∧ inv s') as Hplain.
  { eexists. split; [done|]. apply inv_push; [done|done|done|done|apply NoDup_nil_2|intros y Hy; by apply elem_of_nil in Hy]. }
  destruct (n_parent n) as [p|] eqn:Ep; [|by destruct (n_done_cb n)].
  destruct (iv_parent s1 Hi1 t n1 p) as (m & Hm); [cbn; by rewrite lookup_insert_eq|done|]. destruct (n_done_cb n) as [| | |f] eqn:Ec; [exact Hplain| | |].
  - rewrite (node_ok _ _ _ Hm). bind_step. destruct (bool_decide_reflect (n_state m = ELPIS_TS_NSADDR)) as [Es|]; [|exact Hplain]. destruct ready; [|exact Hplain].
    eexists. split; [done|]. apply inv_parent; try done. by left.
  - rewrite (node_ok _ _ _ Hm). bind_step. destruct (bool_decide_reflect (n_state m = ELPIS_TS_WAIT)) as [Es|]; [|exact Hplain].
    eexists. split; [done|]. apply inv_parent; try done. by right.
  - destruct (inv_child_done s s1 t p f Hi) as (ws & tab & -> & H); [by exists n|done|done|done| | |done|done|done|bind_step; by eexists].
    + intros x Hx. cbn [s1 with_task s_tasks]. apply waits_insert. destruct (decide (x = t)) as [->|]; [left; split; [done|]|by right].
      destruct Hx as (y & Hy & ?). cbn [n1 n_waits]. congruence.
    + intros c q g. cbn [s1 with_task s_tasks]. rewrite armed_insert. by intros [(_ & _ & [=])|?].
Qed.

Lemma next_ok s : inv s → s_run s = None → s_stack s ≠ [] → ∃ s', frame_next s = Ok s' ∧ inv s'.
Proof.
  intros Hi Hrun Hne. pose proof Hi as [H1 H2 H3 H4 H5 H6 H7 H8 H9 H10 H11 H12]. unfold frame_next. destruct (s_stack s) as [|[t [|w ws]] st] eqn:Est; [done| |].
  - cbn [frames_ok fr_child] in H7. destruct H7 as (Hts & Htp & Hfr). destruct (H8 t) as (n & Hn & _); [by left|].
    apply (inv_free (mkSched (s_tab s) (s_tasks s) st (s_run s)) t); cbn [s_tab s_tasks s_stack s_run]; [|by eexists|done|done|by rewrite Hrun].
    split; cbn [s_tab s_tasks s_stack s_run]; try done. intros k Hk. apply H8. by right.
  - change (pending (mkFrame t (w :: ws) :: st)) with (w :: pending (mkFrame t ws :: st)) in *. apply NoDup_cons in H6 as [Hw H6].
    destruct (H5 w) as [(n & Hn & Hnw) Hwi]; [by left|]. rewrite (node_ok _ _ _ Hn). bind_step. eexists. split; [done|]. set (n' := mkNode _ _ _ _).
    assert (∀ x, x ≠ w → waits (s_tasks s) x → waits (<[w := n']> (s_tasks s)) x) as Hws by (intros x Hx ?; apply waits_insert; by right).
    assert (∀ c p f, armed (<[w := n']> (s_tasks s)) c p f → armed (s_tasks s) c p f) as Ha.
    { intros c p f. rewrite armed_insert. intros [(-> & ? & ?)|[_ ?]]; [by exists n|done]. }
    split; cbn [s_tab s_tasks s_stack s_run]; try done.
    + eapply flight_ok_mono; [exact H1|]. rewrite dom_insert. apply union_subseteq_r.
    + intros c y p Hc Hp. assert (is_Some (s_tasks s !! p)) as Hs.
      { destruct (decide (c = w)) as [->|]; [rewrite lookup_insert_eq in Hc; injection Hc as <-; by apply (H2 w n p)|]. rewrite lookup_insert_ne in Hc by done. by apply (H2 c y p). }
      apply lookup_insert_is_Some. destruct (decide (w = p)); [by left|by right].
    + intros x i Hx. apply Hws; [|by eapply H3]. intros ->. by apply (Hwi i).
    + intros x Hx. destruct (H5 x) as [? ?]; [by right|]. split; [apply Hws; [congruence|done]|done].
    + intros k Hk. destruct (H8 k Hk) as (y & Hy & ?). destruct (decide (k = w)) as [->|]; [exists n'; rewrite lookup_insert_eq; split; [done|cbn; congruence]|].
      exists y. by rewrite lookup_insert_ne.
    + intros x [= <-]. exists n'. by rewrite lookup_insert_eq.
    + intros c p f Hc%Ha. destruct (H10 c p f Hc) as (? & Hp & ?). apply not_elem_of_cons in Hp as [? Hp]. split; [by apply Hws|]. done.
    + intros c c' p f f' Hc%Ha Hc'%Ha. by apply (H11 c c' p f f').
    + intros x y Hx Hy. destruct (decide (x = w)) as [->|]; [rewrite lookup_insert_eq in Hx; by injection Hx as <-|]. rewrite lookup_insert_ne in Hx by done. by apply (H12 x).
Qed.

Lemma keep_ok s t st n k : inv s → s_run s = None → s_stack s = mkFrame t [] :: st → s_tasks s !! t = Some n → n_waits n = false →
  s_tasks s !! k = None → ∃ s', task_keep s k = Ok s' ∧ inv s'.
Proof.
  intros Hi Hrun Est Hn Hw Hk. unfold task_keep. rewrite Est, (node_ok _ _ _ Hn). bind_step. eexists. split; [done|].
  pose proof Hi as [H1 H2 H3 H4 H5 H6 H7 H8 H9 H10 H11 H12]. rewrite Est in *. cbn [frames_ok fr_child] in H7. destruct H7 as (Hts & Htp & Hfr).
  assert (inv (mkSched (s_tab s) (s_tasks s) st None)) as Hpop.
  { split; cbn [s_tab s_tasks s_stack s_run]; try done. intros x Hx. apply H8. by right. }
  assert (k ≠ t) by congruence. set (s1 := with_task (mkSched (s_tab s) (s_tasks s) st None) t (in_state n ELPIS_TS_WAIT)).
  assert (inv s1) as Hi1 by (apply (inv_restate _ t n); [done|done|split; [done|split; [done|by left]]|congruence|done]).
  change (inv (task_new s1 k (Some t) Dns64ChildDone)). apply inv_new; [done|cbn; by rewrite lookup_insert_ne| |done].
  intros p [= <-]. cbn. rewrite lookup_insert_eq. by eexists.
Qed.

Lemma unused_None s k : unused s k = true → s_tasks s !! k = None.
Proof. unfold unused. by destruct (s_tasks s !! k). Qed.

Lemma alone_ok s t n tab c : inv s → s_run s = Some t → s_tasks s !! t = Some n → flight_ok (dom (s_tasks s)) tab →
  (∀ x j, waiting_in tab x j ↔ waiting_in (s_tab s) x j) → (∀ x j, owns tab x j ↔ owns (s_tab s) x j) →
  (∀ k, c = Some k → s_tasks s !! k = None) → ∃ s', ask_alone (with_tab s tab) t c = Ok s' ∧ inv s'.
Proof.
  intros Hi Hrun Hn Htab Hw Ho Hc. pose proof (iv_run s Hi t Hrun) as (n0 & Hn0 & Hnw). destruct c as [k|]; cbn [ask_alone].
  - apply (suspend_child s t n tab 0%nat k None); [done|done|done|done| | |by apply Hc|].
    + intros x j Hx. left. by apply Hw.
    + intros x j Hx. by apply Ho.
    + intros j Hj%Hw%(iv_waits s Hi). destruct Hj as (y & Hy & ?). congruence.
  - eexists. split; [done|]. destruct Hi as [H1 H2 H3 H4 H5 H6 H7 H8 H9 H10 H11 H12]. split; cbn [with_tab s_tab s_tasks s_stack s_run]; try done.
    + intros x i Hx%Hw. by eapply H3.
    + intros x i j Hx%Hw Hy%Hw. by apply (H4 x).
    + intros x Hx. destruct (H5 x Hx) as [? Hno]. split; [done|]. intros i Hi%Hw. by apply (Hno i).
    + intros a p f Ha. destruct (H10 a p f Ha) as (? & ? & Hf). split; [done|]. split; [done|]. destruct f as [i|]; [split; [apply Hf|by apply Ho, Hf]|].
      intros i Hi%Hw. by apply (Hf i).
Qed.

Lemma ask_ok s t n type c1 c2 : inv s → s_run s = Some t → wf_name n → (∀ k, c1 = Some k → s_tasks s !! k = None) → (∀ k, c2 = Some k → s_tasks s !! k = None) →
  ∃ s', val_ask s t n type c1 c2 = Ok s' ∧ inv s'.
Proof.
  intros Hi Hrun Hname Hc1 Hc2. destruct (iv_run s Hi t Hrun) as (y & Hy & Hyw).
  assert (∀ j, ¬ waiting_in (s_tab s) t j) as Hno by (intros j (z & Hz & ?)%(iv_waits s Hi); congruence).
  destruct (want_shape (dom (s_tasks s)) (s_tab s) n type t (iv_flight s Hi) Hname) as (p & tab & E & Htab & Hp); [apply elem_of_dom; by eexists|done|].
  unfold val_ask. rewrite E. bind_step. destruct p as [|i|]; cbn [wanted] in Hp.
  - destruct Hp as (i & Hw & Ho). apply (suspend_joined s t y tab i); [done|done|done|done| |].
    + intros x j [Hx|Hx]%Hw; [by right|by left].
    + intros x j Hx. by apply Ho.
  - destruct Hp as (Hi64 & Hfree & Hw & Ho). destruct c1 as [k|].
    + apply (suspend_child s t y tab (Z.to_nat i) k (Some i)); [done|done|done|done| | |by apply Hc1|].
      * intros x j [Hx|Hx]%Hw; [by right|by left].
      * intros x j Hx. apply Ho. by right.
      * split; [done|]. apply Ho. by left.
    + destruct (flight_retire_spec _ _ i Htab Hi64) as (tab' & E' & Htab'). rewrite E'. bind_step.
      apply (alone_ok s t y); [done|done|done|done| | |done].
      * intros x j. rewrite (retire_waiting _ _ _ E'), Hw. pose proof (Hfree x) as [Hf _]. destruct (decide (j = Z.to_nat i)) as [->|]; tauto.
      * intros x j. rewrite (retire_owns _ _ _ E'), Ho. pose proof (Hfree x) as [_ Hf]. destruct (decide (j = Z.to_nat i)) as [->|]; tauto.
  - subst tab. by apply (alone_ok s t y).
Qed.

Lemma has_inv s t P : has s t P = true → ∃ n, s_tasks s !! t = Some n ∧ P n = true.
Proof. unfold has. destruct (s_tasks s !! t) as [n|]; [|done]. by exists n. Qed.

Lemma idle_inv s : idle s = true → s_run s = None ∧ s_stack s = [].
Proof. unfold idle. by destruct (s_run s), (s_stack s). Qed.

Lemma start_inv : inv sched_start.
Proof.
  assert (∀ x i, ¬ waiting_in flight_start x i) as Hno.
  { intros x i (f & Hf & Hh & _). unfold flight_start in Hf. apply lookup_replicate in Hf as [-> _]. done. }
  split; cbn [sched_start s_tab s_tasks s_stack s_run]; try done.
  - apply flight_start_ok.
  - intros x i Hx. by apply Hno in Hx.
  - intros x i j Hx. by apply Hno in Hx.
  - intros x Hx. by apply elem_of_nil in Hx.
  - apply NoDup_nil_2.
  - intros k Hk. by apply elem_of_nil in Hk.
  - by intros c p f (n & Hc & _).
  - by intros c c' p f f' (n & Hc & _).
Qed.

(** Whatever can come is done, and keeps the invariant. *)
Lemma step_ok s e : inv s → event_ok e → can s e = true → ∃ s', step s e = Ok s' ∧ inv s'.
Proof.
  intros Hi He Hc. destruct e as [k|k|t|t ready|n type c1 c2| |addr|ready| |k|t]; cbn [can step event_ok] in *.
  - eexists. split; [done|]. apply inv_new; [done|by apply unused_None|done|done].
  - destruct (s_run s) as [t|] eqn:Er; [|done]. eexists. split; [done|]. destruct (iv_run s Hi t Er) as (n & Hn & _).
    apply inv_new; [done|by apply unused_None| |done]. intros p [= <-]. by eexists.
  - apply andb_true_iff in Hc as [[Hr Hs]%idle_inv (n & Hn & Hx)%has_inv]. apply bool_decide_eq_true in Hx. rewrite (node_ok _ _ _ Hn). bind_step.
    assert (n_waits n = false) as Hw by (destruct (n_waits n) eqn:E; [destruct (iv_state s Hi t n Hn E), Hx; congruence|done]).
    eexists. split; [done|]. apply inv_run; [|intros x [= <-]; exists (in_state n ELPIS_TS_LOOKUP); cbn; by rewrite lookup_insert_eq].
    apply (inv_restate s t n); [done|done|split; [done|split; [done|by left]]|congruence|]. rewrite Hs. intros Hb. by apply elem_of_nil in Hb.
  - apply andb_true_iff in Hc as [[Hr Hs]%idle_inv (n & Hn & Hx)%has_inv]. apply negb_true_iff, bool_decide_eq_false in Hx.
    apply (finish_ok s t n); [done|done|done|]. rewrite Hs. apply not_elem_of_nil.
  - destruct (s_run s) as [t|] eqn:Er; [|done]. apply andb_true_iff in Hc as [H1 H2]. apply ask_ok; [done|done|done| |]; intros k ->; by apply unused_None.
  - destruct (s_run s) as [t|] eqn:Er; [|done]. eexists. split; [done|]. by apply inv_verdict.
  - destruct (s_run s) as [t|] eqn:Er; [|done]. destruct (iv_run s Hi t Er) as (n & Hn & Hw). rewrite (node_ok _ _ _ Hn). bind_step. eexists. split; [done|].
    apply inv_run; [|done]. apply (inv_restate s t n); [done|done|split; [done|split; [done|by left]]|congruence|].
    intros Hs. destruct (iv_dead s Hi t Hs) as (m & Hm & Hd). rewrite Hn in Hm. injection Hm as <-. unfold is_dead. by rewrite bool_decide_eq_true_2.
  - destruct (s_run s) as [t|] eqn:Er; [|done]. apply has_inv in Hc as (n & Hn & Hx). apply negb_true_iff, bool_decide_eq_false in Hx.
    apply (finish_ok s t n); [done|done|done|]. intros Hp. destruct (iv_pend s Hi t Hp) as [(m & Hm & ?) _]. destruct (iv_run s Hi t Er) as (m' & Hm' & ?). congruence.
  - destruct (s_run s) eqn:Er; [done|]. apply next_ok; [done|done|]. by destruct (s_stack s).
  - destruct (s_run s) eqn:Er; [done|]. destruct (s_stack s) as [|[t [|w ws]] st] eqn:Est; [done| |done].
    apply andb_true_iff in Hc as [Hk (n & Hn & Hx)%has_inv]. apply andb_true_iff in Hx as [Hx _]. apply negb_true_iff in Hx.
    apply (keep_ok s t st n k); [done|done|done|done|done|by apply unused_None].
  - apply andb_true_iff in Hc as [[Hr Hs]%idle_inv (n & Hn & _)%has_inv].
    apply inv_free; [done|by eexists|rewrite Hs; intros Hx; by apply elem_of_nil in Hx|rewrite Hs; apply not_elem_of_nil|by rewrite Hr].
Qed.

Lemma reached_inv s : reached s → inv s.
Proof.
  induction 1 as [|s e s' _ IH He Hc E]; [apply start_inv|]. destruct (step_ok s e IH He Hc) as (s1 & E1 & H). rewrite E in E1. by injection E1 as <-.
Qed.

Lemma steps_reached es : ∀ s s', reached s → Forall event_ok es → steps s es = Some s' → reached s'.
Proof.
  induction es as [|e es IH]; intros s s' Hs Hes E; cbn [steps] in E; [by injection E as <-|]. apply Forall_cons_1 in Hes as [He Hes].
  destruct (can s e) eqn:Ec; [|done]. destruct (step s e) as [s1| |] eqn:Es; [|done|done]. apply (IH s1); [|done|done]. by apply (reached_step s e).
Qed.

(** C9. No look-up resumes a task that is gone: in every order in which tasks
    start, ask for look-ups, share them, are resumed, end by a verdict or a
    deadline and are freed, one waiter after the other and callbacks within
    callbacks, every step that can come is done without following a pointer to a
    freed task, be it a waiter's, a parent's, or that of a task about to be
    freed.  Every slot in use has between one and 24 waiters, each once, each
    there and waiting, the owner of its look-up among them; the tasks that the
    running callbacks have still to resume are there and waiting, each once, and
    in no slot; a task's parent is there; and a callback can always go on.  The
    loop itself calls no task that was freed: freeing one cancels its query and
    its timers. *)
Theorem lookups_never_dangle s : reached s →
  (∀ e, event_ok e → can s e = true → ∃ s', step s e = Ok s') ∧
  (∀ f, f ∈ s_tab s → f_hash f ≠ 0 → NoDup (f_waiter f) ∧ 1 <= zlen (f_waiter f) <= VAL_WAITERS ∧ (∀ t, t ∈ f_waiter f → waits (s_tasks s) t) ∧
     ∃ o, f_owner f = Some o ∧ o ∈ f_waiter f) ∧
  (NoDup (pending (s_stack s)) ∧ ∀ t, t ∈ pending (s_stack s) → waits (s_tasks s) t ∧ ∀ f, f ∈ s_tab s → f_hash f ≠ 0 → t ∉ f_waiter f) ∧
  (∀ c n p, s_tasks s !! c = Some n → n_parent n = Some p → is_Some (s_tasks s !! p)) ∧
  (s_run s = None → s_stack s ≠ [] → can s Next = true).
Proof.
  intros Hi%reached_inv. split; [|split; [|split; [|split]]].
  - intros e He Hc. destruct (step_ok s e Hi He Hc) as (s' & E & _). by exists s'.
  - intros f Hf Hh. destruct (Forall_elem _ _ _ (proj2 (iv_flight s Hi)) Hf Hh) as [_ H2 H3 _ H5]. split; [done|]. split; [done|]. split; [|done].
    intros t Ht. apply list_elem_of_lookup in Hf as (i & Hf). apply (iv_waits s Hi t i). by exists f.
  - split; [apply (iv_nodup s Hi)|]. intros t Ht. destruct (iv_pend s Hi t Ht) as [Hw Hno]. split; [done|].
    intros f Hf Hh Hin. apply list_elem_of_lookup in Hf as (i & Hf). apply (Hno i). by exists f.
  - intros c n p. apply (iv_parent s Hi).
  - intros Hr Hst. cbn [can]. rewrite Hr. by destruct (s_stack s).
Qed.

(** Tasks 1 and 2 wait on one look-up, task 3, which task 1 started. *)
Module Shared.
Definition n : elpis_name_t := name_of [[99; 111; 109]].
Definition both : list event := [Born 1; Wake 1; Ask n 43 (Some 3) None; Born 2; Wake 2; Ask n 43 None None; Wake 3].
Definition at_ (es : list event) : sched_t := match steps sched_start es with Some s => s | None => sched_start end.

(** The tasks there are and whether they wait, those a callback has still to
    resume, and who runs. *)
Definition view (es : list event) : option (list (Z * bool) * list Z * option Z) :=
  s ← steps sched_start es; Some (map (fun kn => (kn.1, n_waits kn.2)) (map_to_list (s_tasks s)), pending (s_stack s), s_run s).

Lemma n_ok : wf_name n.
Proof. exists [[99; 111; 109]]. split; [by_compute|done]. Qed.

Lemma at_reached es : (∀ e, e ∈ es → event_ok e) → (match steps sched_start es with Some _ => true | None => false end) = true → reached (at_ es).
Proof.
  unfold at_. destruct (steps sched_start es) as [s|] eqn:E; [|done]. intros H _. apply (steps_reached es sched_start); [constructor|by apply Forall_forall|done].
Qed.
End Shared.

(** The look-up is done and neither has been resumed: both are there and wait,
    and the next step resumes one of them. *)
Lemma lookups_never_dangle_witness :
  pending (s_stack (Shared.at_ (Shared.both ++ [End true]))) = [1; 2] ∧
  (∀ t, t ∈ [1; 2] → waits (s_tasks (Shared.at_ (Shared.both ++ [End true]))) t) ∧ ∃ s', step (Shared.at_ (Shared.both ++ [End true])) Next = Ok s'.
Proof.
  destruct (lookups_never_dangle (Shared.at_ (Shared.both ++ [End true]))) as (H1 & _ & (_ & H3) & _ & _).
  - apply Shared.at_reached; [|vm_compute; reflexivity]. intros e He. cbn [Shared.both app] in He.
    repeat (apply elem_of_cons in He as [->|He]; [first [exact I|exact Shared.n_ok]|]). by apply elem_of_nil in He.
  - assert (pending (s_stack (Shared.at_ (Shared.both ++ [End true]))) = [1; 2]) as Ep by (vm_compute; reflexivity). split; [exact Ep|].
    split; [intros t Ht; apply H3; rewrite Ep; exact Ht|]. apply H1; [exact I|vm_compute; reflexivity].
Defined.

(** The first is resumed and ends within the callback of task 3, which it was
    the parent of; then the second is, and then nothing is left. *)
Example resumed_one_by_one :
  Shared.view (Shared.both ++ [End true; Next]) = Some ([(3, false); (2, true); (1, false)], [2], Some 1) ∧
  Shared.view (Shared.both ++ [End true; Next; Verdict; End true; Next]) = Some ([(3, false); (2, true)], [2], None) ∧
  Shared.view (Shared.both ++ [End true; Next; Verdict; End true; Next; Next; Verdict; End true; Next; Next]) = Some ([], [], None).
Proof. split; [|split]; vm_compute; reflexivity. Qed.

(** When task 1 ends first, its deadline past, task 3 is left without a parent
    and resumes nobody; but task 2 goes on waiting, until its own deadline. *)
Example waiter_stranded :
  Shared.view (removelast Shared.both ++ [Deadline 1 true; Next; Wake 3; End true; Next]) = Some ([(2, true)], [], None) ∧
  Forall (fun f => f_hash f = 0) (s_tab (Shared.at_ (removelast Shared.both ++ [Deadline 1 true; Next; Wake 3; End true; Next]))).
Proof. split; [vm_compute; reflexivity|by_compute]. Qed.
