(* ===== verification/Valstep.v ===== *)
(** The validation state machine: src/dnssec/dnssec.c, lines 1029 to 1290, 1516
    to 1640 and 1860 to 3018, with elpis_ta_closest of src/dnssec/trustanchor.c
    and elpis_route_depth of src/resolver/resolver.c.

    A validation walks the chain of trust for one answer.  Its state is
    [val_t]; what it shares with the rest of the worker is [vworld]: the two
    caches behind the interface [ValStore], the table of look-ups in flight, the
    shared TTL-0 sets, the children started and the signature budget.  The code
    runs until it needs a look-up that is not at hand, returns, and is run again
    when the look-up is done; here [val_run] is one such run.  The clocks are
    arguments of a run, one value each; whether a child can be started is the
    function [can_child]; texts for the log are left out. *)
From stdpp Require Import base list numbers gmap.
From Stdlib Require Import ZArith Lia.
From S2P Require Import Prelude Bytes Simd Name NameOps Rdesc Rnames Ratelimit Rrset Dnskey Rrsig Rrvalid Nsec Nsec3 Rcache Dcache Rrlist Valset Valflight.

(** ** Data *)

Inductive val_stage := VS_START | VS_ANCHOR_KEYS | VS_DESCEND | VS_VERIFY | VS_TALLY.

Definition VAL_MAX_SIGNERS : Z := 12.
Definition VAL_MAX_STEPS : Z := 384.
Definition VAL_MAX_SETS : Z := 256.
Definition VAL_FAILED : Z := 8.
Definition VAL_FAIL_TRIES : Z := 2.
Definition SS_UNKNOWN : Z := 0.
Definition SS_SECURE : Z := 1.
Definition SS_INSECURE : Z := 2.
Definition SS_BOGUS : Z := 3.
Definition ELPIS_T_NXNAME : Z := 0.
Definition ELPIS_RRF_REFERRAL : Z := 0x20.
Definition ELPIS_RRF_ECS_LOCAL : Z := 0x40.
Definition ELPIS_EDE_OTHER : Z := 0.
Definition ELPIS_EDE_NSEC_MISSING : Z := 12.
Definition ELPIS_EDE_NOT_READY : Z := 14.
Definition ELPIS_MAX_DEPTH : Z := 8.
Definition ELPIS_RC_SERVFAIL : Z := 2.

Record val_fail_t := mkFail { fl_key : Z; fl_tries : Z }.

(** [signers[i]], [probe[i]] and [cut[i]]. *)
Record vsigner_t := mkSigner { sg_name : elpis_name_t; sg_probe : bool; sg_cut : bool }.

(** The arrays [signers], [probe] and [cut] are a list of [nsigners] entries,
    [kept] a list of [nkept] references. *)
Record val_t := mkVal {
  v_stage : val_stage; v_signers : list vsigner_t; v_si : Z;
  v_anchor : elpis_name_t; v_cur : elpis_name_t; v_walk : elpis_name_t;
  v_pending : elpis_name_t; v_pending_type : Z; v_waiting : bool; v_pending_tries : Z;
  v_steps : Z; v_verifies : Z; v_keyed : bool; v_failed : list val_fail_t; v_kept : list Z;
  v_pq_only : bool; v_status : list Z; v_keys : elpis_rrset_buf_t }.

Definition with_stage (v : val_t) (x : val_stage) : val_t :=
  mkVal x (v_signers v) (v_si v) (v_anchor v) (v_cur v) (v_walk v) (v_pending v) (v_pending_type v) (v_waiting v) (v_pending_tries v) (v_steps v) (v_verifies v) (v_keyed v) (v_failed v) (v_kept v) (v_pq_only v) (v_status v) (v_keys v).
Definition with_signers (v : val_t) (x : list vsigner_t) : val_t :=
  mkVal (v_stage v) x (v_si v) (v_anchor v) (v_cur v) (v_walk v) (v_pending v) (v_pending_type v) (v_waiting v) (v_pending_tries v) (v_steps v) (v_verifies v) (v_keyed v) (v_failed v) (v_kept v) (v_pq_only v) (v_status v) (v_keys v).
Definition with_si (v : val_t) (x : Z) : val_t :=
  mkVal (v_stage v) (v_signers v) x (v_anchor v) (v_cur v) (v_walk v) (v_pending v) (v_pending_type v) (v_waiting v) (v_pending_tries v) (v_steps v) (v_verifies v) (v_keyed v) (v_failed v) (v_kept v) (v_pq_only v) (v_status v) (v_keys v).
Definition with_walk (v : val_t) (a c w : elpis_name_t) : val_t :=
  mkVal (v_stage v) (v_signers v) (v_si v) a c w (v_pending v) (v_pending_type v) (v_waiting v) (v_pending_tries v) (v_steps v) (v_verifies v) (v_keyed v) (v_failed v) (v_kept v) (v_pq_only v) (v_status v) (v_keys v).
Definition with_pending (v : val_t) (n : elpis_name_t) (type : Z) : val_t :=
  mkVal (v_stage v) (v_signers v) (v_si v) (v_anchor v) (v_cur v) (v_walk v) n type true (u32 (v_pending_tries v + 1)) (u32 (v_steps v + 1)) (v_verifies v) (v_keyed v) (v_failed v) (v_kept v) (v_pq_only v) (v_status v) (v_keys v).
Definition with_waiting (v : val_t) (x : bool) : val_t :=
  mkVal (v_stage v) (v_signers v) (v_si v) (v_anchor v) (v_cur v) (v_walk v) (v_pending v) (v_pending_type v) x (v_pending_tries v) (v_steps v) (v_verifies v) (v_keyed v) (v_failed v) (v_kept v) (v_pq_only v) (v_status v) (v_keys v).
Definition with_tries (v : val_t) (x : Z) : val_t :=
  mkVal (v_stage v) (v_signers v) (v_si v) (v_anchor v) (v_cur v) (v_walk v) (v_pending v) (v_pending_type v) (v_waiting v) x (v_steps v) (v_verifies v) (v_keyed v) (v_failed v) (v_kept v) (v_pq_only v) (v_status v) (v_keys v).
Definition with_verifies (v : val_t) (x : Z) : val_t :=
  mkVal (v_stage v) (v_signers v) (v_si v) (v_anchor v) (v_cur v) (v_walk v) (v_pending v) (v_pending_type v) (v_waiting v) (v_pending_tries v) (v_steps v) x (v_keyed v) (v_failed v) (v_kept v) (v_pq_only v) (v_status v) (v_keys v).
Definition with_keyed (v : val_t) (x : bool) : val_t :=
  mkVal (v_stage v) (v_signers v) (v_si v) (v_anchor v) (v_cur v) (v_walk v) (v_pending v) (v_pending_type v) (v_waiting v) (v_pending_tries v) (v_steps v) (v_verifies v) x (v_failed v) (v_kept v) (v_pq_only v) (v_status v) (v_keys v).
Definition with_failed (v : val_t) (x : list val_fail_t) : val_t :=
  mkVal (v_stage v) (v_signers v) (v_si v) (v_anchor v) (v_cur v) (v_walk v) (v_pending v) (v_pending_type v) (v_waiting v) (v_pending_tries v) (v_steps v) (v_verifies v) (v_keyed v) x (v_kept v) (v_pq_only v) (v_status v) (v_keys v).
Definition with_kept (v : val_t) (x : list Z) : val_t :=
  mkVal (v_stage v) (v_signers v) (v_si v) (v_anchor v) (v_cur v) (v_walk v) (v_pending v) (v_pending_type v) (v_waiting v) (v_pending_tries v) (v_steps v) (v_verifies v) (v_keyed v) (v_failed v) x (v_pq_only v) (v_status v) (v_keys v).
Definition with_pq_only (v : val_t) (x : bool) : val_t :=
  mkVal (v_stage v) (v_signers v) (v_si v) (v_anchor v) (v_cur v) (v_walk v) (v_pending v) (v_pending_type v) (v_waiting v) (v_pending_tries v) (v_steps v) (v_verifies v) (v_keyed v) (v_failed v) (v_kept v) x (v_status v) (v_keys v).
Definition with_status (v : val_t) (x : list Z) : val_t :=
  mkVal (v_stage v) (v_signers v) (v_si v) (v_anchor v) (v_cur v) (v_walk v) (v_pending v) (v_pending_type v) (v_waiting v) (v_pending_tries v) (v_steps v) (v_verifies v) (v_keyed v) (v_failed v) (v_kept v) (v_pq_only v) x (v_keys v).
Definition with_keys (v : val_t) (x : elpis_rrset_buf_t) : val_t :=
  mkVal (v_stage v) (v_signers v) (v_si v) (v_anchor v) (v_cur v) (v_walk v) (v_pending v) (v_pending_type v) (v_waiting v) (v_pending_tries v) (v_steps v) (v_verifies v) (v_keyed v) (v_failed v) (v_kept v) (v_pq_only v) (v_status v) x.

(** [val_alloc]: all but the buffer of keys is cleared. *)
Definition val_alloc (keys : elpis_rrset_buf_t) : val_t :=
  let z := mkName 0 0 [] in
  mkVal VS_START [] 0 z z z z 0 false 0 0 0 false (replicate (Z.to_nat VAL_FAILED) (mkFail 0 0)) [] false
    (replicate (Z.to_nat VAL_MAX_SETS) SS_UNKNOWN)
    (mkRrset (rs_name keys) (rs_type keys) (rs_klass keys) (rs_ttl keys) (rs_orig_ttl keys) (rs_sec keys) 0 0
       (rs_flags keys) (rs_zone_labels keys) (rs_len keys) (rs_off keys) 0 (rs_data keys)).

(** What the machine reads and writes of a task; [k_deleg] is the zone of its
    delegation, if it has one. *)
Record vtask := mkVtask {
  k_id : Z; k_ans : elpis_rrlist_t; k_qname : elpis_name_t; k_qtype : Z; k_qclass : Z; k_rcode : Z;
  k_from_cache : bool; k_ecs_local : bool; k_deleg : option elpis_name_t; k_depth : Z; k_client_cd : bool; k_warming : bool;
  k_sec : elpis_sec_t; k_ede : Z; k_unavailable : bool; k_nchild : Z }.

Definition with_verdict (t : vtask) (sec : elpis_sec_t) (ede : Z) : vtask :=
  mkVtask (k_id t) (k_ans t) (k_qname t) (k_qtype t) (k_qclass t) (k_rcode t) (k_from_cache t) (k_ecs_local t) (k_deleg t) (k_depth t)
    (k_client_cd t) (k_warming t) sec ede (k_unavailable t) (k_nchild t).
Definition with_unavailable (t : vtask) : vtask :=
  mkVtask (k_id t) (k_ans t) (k_qname t) (k_qtype t) (k_qclass t) (k_rcode t) (k_from_cache t) (k_ecs_local t) (k_deleg t) (k_depth t)
    (k_client_cd t) (k_warming t) (k_sec t) (k_ede t) true (k_nchild t).
Definition with_nchild (t : vtask) (n : Z) : vtask :=
  mkVtask (k_id t) (k_ans t) (k_qname t) (k_qtype t) (k_qclass t) (k_rcode t) (k_from_cache t) (k_ecs_local t) (k_deleg t) (k_depth t)
    (k_client_cd t) (k_warming t) (k_sec t) (k_ede t) (k_unavailable t) n.

(** A child started, with the slot of the table it feeds; its [hold_uncached] is set. *)
Record vchild := mkChild { ch_parent : Z; ch_name : elpis_name_t; ch_type : Z; ch_slot : option Z }.

Definition with_ds_state (d : elpis_deleg_t) (x : Z) : elpis_deleg_t := mkDeleg (d_zone d) (d_sec d) x (d_pinned d) (d_ttl d) (d_ns d).

(** What the validator asks of the RRset cache (class IN) and of the delegation
    cache; the state may change on a look-up too. *)
Class ValStore (St : Type) := {
  vs_get : St → elpis_name_t → Z → Z → Z → elpis_rrset_buf_t → res (elpis_rc_t * elpis_rrset_buf_t * St);
  vs_put : St → Z → elpis_rrset_buf_t → Z → res St;
  vs_state : St → elpis_name_t → Z → Z → res (option (elpis_sec_t * Z) * St);
  vs_del : St → elpis_name_t → Z → res St;
  vd_get : St → elpis_name_t → Z → res (option elpis_deleg_t * St);
  vd_put : St → Z → elpis_deleg_t → res St;
  vd_state : St → elpis_name_t → Z → res (Z * St) }.

Record vworld (St : Type) := mkVw {
  w_store : St; w_flight : list val_inflight_t; w_heap : gmap Z val_kept_t; w_sent : list vchild;
  w_cnt : counters; w_rrbuf : elpis_rrset_buf_t }.
Arguments mkVw {St}.
Arguments w_store {St}.
Arguments w_flight {St}.
Arguments w_heap {St}.
Arguments w_sent {St}.
Arguments w_cnt {St}.
Arguments w_rrbuf {St}.

(** ** Running code over the state *)

Record vst (St : Type) := mkVst { s_w : vworld St; s_t : vtask; s_v : val_t }.
Arguments mkVst {St}.
Arguments s_w {St}.
Arguments s_t {St}.
Arguments s_v {St}.

Definition M (St A : Type) : Type := vst St → res (A * vst St).
#[export] Instance M_ret {St} : MRet (M St) := fun A a s => Ok (a, s).
#[export] Instance M_bind {St} : MBind (M St) := fun A B k m s => match m s with Ok (a, s) => k a s | Err rc d => Err rc d | Stuck f => Stuck f end.

Section Ops.
Context {St : Type}.

Definition lift {A} (m : res A) : M St A := fun s => match m with Ok a => Ok (a, s) | Err rc d => Err rc d | Stuck f => Stuck f end.
Definition gets {A} (f : vst St → A) : M St A := fun s => Ok (f s, s).
Definition mod_v (f : val_t → val_t) : M St unit := fun s => Ok (tt, mkVst (s_w s) (s_t s) (f (s_v s))).
Definition mod_t (f : vtask → vtask) : M St unit := fun s => Ok (tt, mkVst (s_w s) (f (s_t s)) (s_v s)).
Definition mod_w (f : vworld St → vworld St) : M St unit := fun s => Ok (tt, mkVst (f (s_w s)) (s_t s) (s_v s)).
Definition set_store (x : St) : M St unit := mod_w (fun w => mkVw x (w_flight w) (w_heap w) (w_sent w) (w_cnt w) (w_rrbuf w)).
Definition set_flight (x : list val_inflight_t) : M St unit := mod_w (fun w => mkVw (w_store w) x (w_heap w) (w_sent w) (w_cnt w) (w_rrbuf w)).
Definition set_heap (x : gmap Z val_kept_t) : M St unit := mod_w (fun w => mkVw (w_store w) (w_flight w) x (w_sent w) (w_cnt w) (w_rrbuf w)).
Definition set_sent (x : list vchild) : M St unit := mod_w (fun w => mkVw (w_store w) (w_flight w) (w_heap w) x (w_cnt w) (w_rrbuf w)).
Definition set_cnt (x : counters) : M St unit := mod_w (fun w => mkVw (w_store w) (w_flight w) (w_heap w) (w_sent w) x (w_rrbuf w)).
Definition set_rrbuf (x : elpis_rrset_buf_t) : M St unit := mod_w (fun w => mkVw (w_store w) (w_flight w) (w_heap w) (w_sent w) (w_cnt w) x).

(** [for (i = 0; i < k; i++)] over the records a verdict is kept for. *)
Fixpoint upto (k : nat) (i : Z) (f : Z → M St unit) : M St unit :=
  match k with O => mret tt | S k => _ ← f i; upto k (i + 1) f end.
Definition sets_of (t : vtask) : nat := Nat.min (length (l_rr (k_ans t))) (Z.to_nat VAL_MAX_SETS).
Definition for_sets (f : Z → M St unit) : M St unit := t ← gets s_t; upto (sets_of t) 0 f.
End Ops.

(** The part of [elpis_conf_t] the machine reads; the routes are the zones of
    the stub-zone and forward-zone entries. *)
Record vconf := mkVconf {
  vc_sec : sec_conf_t; vc_dnssec : bool; vc_serve_stale : Z; vc_stripped : bool; vc_routes : list elpis_name_t }.

(** Zones at and above a name. *)
Fixpoint ta_closest_loop (tas : list elpis_ta_t) (name : elpis_name_t) (best : option elpis_name_t) : res (option elpis_name_t) :=
  match tas with
  | [] => Ok best
  | ta :: tas =>
    sub ← elpis_name_is_subdomain name (ta_name ta);
    if negb sub then ta_closest_loop tas name best
    else ta_closest_loop tas name
           (match best with Some b => if n_labels b <? n_labels (ta_name ta) then Some (ta_name ta) else best | None => Some (ta_name ta) end)
  end.
Definition elpis_ta_closest (tas : list elpis_ta_t) (name : elpis_name_t) : res (option elpis_name_t) := ta_closest_loop tas name None.

Fixpoint route_lookup (zs : list elpis_name_t) (name : elpis_name_t) (best : option elpis_name_t) : res (option elpis_name_t) :=
  match zs with
  | [] => Ok best
  | z :: zs =>
    if match best with Some b => n_labels z <=? n_labels b | None => false end then route_lookup zs name best
    else sub ← elpis_name_is_subdomain name z; route_lookup zs name (if (sub : bool) then Some z else best)
  end.
Definition elpis_route_depth (c : vconf) (name : elpis_name_t) : res Z :=
  if zlen (vc_routes c) =? 0 then Ok (-1)
  else r ← route_lookup (vc_routes c) name None; Ok (match r with Some z => n_labels z | None => -1 end).

(** The first entry of a list that passes. *)
Fixpoint index_of {A} (p : A → bool) (l : list A) (i : Z) : option Z :=
  match l with [] => None | x :: l => if p x then Some i else index_of p l (i + 1) end.

(** The slot with the fewest failures, from slot [i] on. *)
Fixpoint weakest_slot (fs : list val_fail_t) (i weakest tries : Z) : Z :=
  match fs with
  | [] => weakest
  | f :: fs => if fl_tries f <? tries then weakest_slot fs (i + 1) i (fl_tries f) else weakest_slot fs (i + 1) weakest tries
  end.

(** Whether the set is the very one that was judged. *)
Definition same_material (s set : elpis_rrset_buf_t) : res bool :=
  let n := rs_count set + rs_sigcount set in
  if negb (rs_type s =? rs_type set) || negb (rs_count s =? rs_count set) || negb (rs_sigcount s =? rs_sigcount set) ||
     negb (rs_used s =? rs_used set) then Ok false
  else
    e ← elpis_name_eq (rs_name s) (rs_name set);
    if negb e then Ok false
    else
      a ← rds (rs_len s) 0 n; b ← rds (rs_len set) 0 n;
      if negb (bool_decide (a = b)) then Ok false
      else x ← rds (rs_data s) 0 (rs_used set); y ← rds (rs_data set) 0 (rs_used set); Ok (bool_decide (x = y)).

Definition set_sec (b : elpis_rrset_buf_t) (sec : elpis_sec_t) : elpis_rrset_buf_t :=
  mkRrset (rs_name b) (rs_type b) (rs_klass b) (rs_ttl b) (rs_orig_ttl b) sec (rs_count b) (rs_sigcount b)
    (rs_flags b) (rs_zone_labels b) (rs_len b) (rs_off b) (rs_used b) (rs_data b).
Definition set_flags (b : elpis_rrset_buf_t) (flags : Z) : elpis_rrset_buf_t :=
  mkRrset (rs_name b) (rs_type b) (rs_klass b) (rs_ttl b) (rs_orig_ttl b) (rs_sec b) (rs_count b) (rs_sigcount b)
    flags (rs_zone_labels b) (rs_len b) (rs_off b) (rs_used b) (rs_data b).
Definition set_name (b : elpis_rrset_buf_t) (n : elpis_name_t) : elpis_rrset_buf_t :=
  mkRrset n (rs_type b) (rs_klass b) (rs_ttl b) (rs_orig_ttl b) (rs_sec b) (rs_count b) (rs_sigcount b)
    (rs_flags b) (rs_zone_labels b) (rs_len b) (rs_off b) (rs_used b) (rs_data b).
Definition has_flag (b : elpis_rrset_buf_t) (f : Z) : bool := negb (Z.land (rs_flags b) f =? 0).

(** The record [i] of a stored denial: its type, its owner and what follows,
    or nothing when it is not one of the types wanted. *)
Definition denial_item (b : elpis_rrset_buf_t) (i : Z) (want : Z → bool) : res (option (Z * elpis_name_t * list Z)) :=
  len ← rd (rs_len b) i;
  p ← elpis_rrset_rd b i;
  if len <? 4 then Ok None
  else
    ty ← elpis_get16 p 0;
    olen ← rd p 2;
    if negb (want ty) then Ok None
    else if len <=? 3 + olen then Ok None
    else
      o ← try (elpis_name_parse_nocomp (drop 3 p) olen);
      match o with None => Ok None | Some (o, _) => Ok (Some (ty, o, drop (Z.to_nat (3 + olen)) p)) end.

(** [for (j = 1; j < b->count; j++)]: the signatures stored with a denial record. *)
Fixpoint denial_sigs (b : elpis_rrset_buf_t) (owner : elpis_name_t) (ty : Z) (k : nat) (j : Z) (set : elpis_rrset_buf_t)
    : res elpis_rrset_buf_t :=
  match k with
  | O => Ok set
  | S k =>
    it ← denial_item b j (fun t => t =? ELPIS_T_RRSIG);
    match it with
    | None => denial_sigs b owner ty k (j + 1) set
    | Some (_, o2, q) =>
      same ← elpis_name_eq o2 owner;
      if negb same then denial_sigs b owner ty k (j + 1) set
      else if zlen q <? 19 then denial_sigs b owner ty k (j + 1) set
      else
        covered ← elpis_get16 q 0;
        if negb (covered =? ty) then denial_sigs b owner ty k (j + 1) set
        else set ← ignored set (elpis_rrset_buf_add_sig set q); denial_sigs b owner ty k (j + 1) set
    end
  end.

Definition DENIAL_PROOFS : Z := 8.
Definition DENIAL_RD : Z := 768.
Inductive denial_goal := PROVES_CUT | PROVES_NXDOMAIN.

Section Machine.
Context `{SigPrims} {St : Type} `{ValStore St}.
(** The configuration, whether the signature buffer can be had, the trust
    anchors, the wall clock and the caches' clock, what the thread's scratch
    buffers hold, and whether a child can be started. *)
Context (c : vconf) (mem : bool) (tas : list elpis_ta_t) (now mono : Z).
Context (one_buf ds_buf den_buf : elpis_rrset_buf_t) (can_child : list vchild → elpis_name_t → Z → bool).
Abbreviation Mn := (M St).

(** ** Material *)

Definition fail_slot (n : elpis_name_t) (type : Z) : Mn Z :=
  key ← lift (inflight_hash n type);
  v ← gets s_v;
  match index_of (fun f => fl_key f =? key) (v_failed v) 0 with
  | Some i => mret i
  | None =>
    first ← lift (rd (v_failed v) 0);
    let i := match index_of (fun f => fl_key f =? 0) (v_failed v) 0 with
             | Some i => i
             | None => weakest_slot (tail (v_failed v)) 1 0 (fl_tries first)
             end in
    failed ← lift (wr (v_failed v) i (mkFail key 0));
    _ ← mod_v (fun v => with_failed v failed);
    mret i
  end.

Definition set_slot_tries (i tries : Z) : Mn unit :=
  v ← gets s_v;
  f ← lift (rd (v_failed v) i);
  failed ← lift (wr (v_failed v) i (mkFail (fl_key f) tries));
  mod_v (fun v => with_failed v failed).

(** The sets this validation was handed. *)
Fixpoint cached_kept (hp : gmap Z val_kept_t) (n : elpis_name_t) (type : Z) (kept : list Z) (out : elpis_rrset_buf_t)
    : res (bool * elpis_rrset_buf_t) :=
  match kept with
  | [] => Ok (false, out)
  | k :: kept =>
    e ← kept_at hp k;
    let s := kp_set e in
    if negb (rs_type s =? type) then cached_kept hp n type kept out
    else
      eq ← elpis_name_eq (rs_name s) n;
      if negb eq then cached_kept hp n type kept out
      else out ← elpis_rrset_buf_copy out s; Ok (true, set_name out n)
  end.

Definition val_cached (n : elpis_name_t) (type : Z) (out : elpis_rrset_buf_t) : Mn (bool * elpis_rrset_buf_t) :=
  w ← gets s_w;
  '(rc, out, st) ← lift (vs_get (w_store w) n type mono (vc_serve_stale c) out);
  _ ← set_store st;
  fresh ← (if decide (rc = ELPIS_OK) then
             if rs_ttl out =? 0 then lapsed ← lift (elpis_rrset_sigs_lapsed (vc_sec c) out now); mret (negb lapsed) else mret true
           else mret false);
  if (fresh : bool) then mret (true, out)
  else v ← gets s_v; lift (cached_kept (w_heap w) n type (v_kept v) out).

(** [elpis_task_child], as far as the parent and what is sent go. *)
Definition task_child (n : elpis_name_t) (type : Z) (slot : option Z) : Mn bool :=
  w ← gets s_w;
  t ← gets s_t;
  if can_child (w_sent w) n type then
    _ ← set_sent (w_sent w ++ [mkChild (k_id t) n type slot]);
    _ ← mod_t (fun t => with_nchild t (u32 (k_nchild t + 1)));
    mret true
  else mret false.

Definition val_alone (n : elpis_name_t) (type : Z) (out : elpis_rrset_buf_t) : Mn (bool * elpis_rrset_buf_t) :=
  ok ← task_child n type None;
  if (ok : bool) then mret (false, out)
  else _ ← mod_v (fun v => with_waiting v false); mret (true, elpis_rrset_buf_init out n type ELPIS_CLASS_IN 0).

(** The look-up is waited on, shared or not; [true] when it cannot be had. *)
Definition val_launch (n : elpis_name_t) (type : Z) (out : elpis_rrset_buf_t) : Mn (bool * elpis_rrset_buf_t) :=
  w ← gets s_w;
  t ← gets s_t;
  '(place, tab) ← lift (flight_want (w_flight w) n type (k_id t));
  _ ← set_flight tab;
  match place with
  | Joined => _ ← mod_t (fun t => with_nchild t (u32 (k_nchild t + 1))); mret (false, out)
  | Slot i =>
    ok ← task_child n type (Some i);
    if (ok : bool) then mret (false, out)
    else
      w ← gets s_w;
      tab ← lift (flight_retire (w_flight w) i);
      _ ← set_flight tab;
      val_alone n type out
  | Unshared => val_alone n type out
  end.

(** [true] when the data is in hand, or is known not to be had. *)
Definition val_need (n : elpis_name_t) (type : Z) (out : elpis_rrset_buf_t) : Mn (bool * elpis_rrset_buf_t) :=
  slot ← fail_slot n type;
  '(hit, out) ← val_cached n type out;
  '(hit, out) ← (if (hit : bool) then mret (true, out)
                 else if type =? ELPIS_T_DS then
                   '(h, out) ← val_cached n ELPIS_T_NXNAME out;
                   if (h : bool) && has_flag out ELPIS_RRF_NXDOMAIN then mret (true, out)
                   else '(h, out) ← val_cached n ELPIS_T_CNAME out; mret ((h : bool) && (0 <? rs_count out), out)
                 else mret (false, out));
  if (hit : bool) then
    _ ← set_slot_tries slot 0;
    _ ← mod_v (fun v => with_tries v 0);
    mret (true, out)
  else
    v ← gets s_v;
    f ← lift (rd (v_failed v) slot);
    if VAL_FAIL_TRIES <=? fl_tries f then mret (true, elpis_rrset_buf_init out n type ELPIS_CLASS_IN 0)
    else
      _ ← set_slot_tries slot (u32 (fl_tries f + 1));
      _ ← mod_v (fun v => with_pending v n type);
      val_launch n type out.

(** ** Verdicts *)

Definition elpis_val_free : Mn unit :=
  w ← gets s_w;
  t ← gets s_t;
  v ← gets s_v;
  _ ← set_flight (inflight_forget (w_flight w) (k_id t));
  hp ← lift (kept_release (w_heap w) (v_kept v));
  _ ← set_heap hp;
  mod_v (fun v => with_kept v []).

Definition val_done (sec : elpis_sec_t) (ede : Z) : Mn unit :=
  _ ← mod_t (fun t => with_verdict t sec (if (0 <=? ede) && (k_ede t <? 0) then ede else k_ede t));
  elpis_val_free.

Definition put_verdict (i : Z) (set : elpis_rrset_buf_t) : Mn unit :=
  t ← gets s_t;
  rr ← lift (rd (l_rr (k_ans t)) i);
  if negb (t_tailored rr =? 0) then mret tt
  else
    let set := if k_ecs_local t then set_flags set (Z.lor (rs_flags set) ELPIS_RRF_ECS_LOCAL) else set in
    w ← gets s_w;
    st ← lift (vs_put (w_store w) mono set (vc_serve_stale c));
    set_store st.

Fixpoint stamp_kept (hp : gmap Z val_kept_t) (set : elpis_rrset_buf_t) (kept : list Z) : res (gmap Z val_kept_t) :=
  match kept with
  | [] => Ok hp
  | k :: kept =>
    e ← kept_at hp k;
    same ← same_material (kp_set e) set;
    if (same : bool) then stamp_kept (<[k := mkKept (kp_refs e) (set_sec (kp_set e) (rs_sec set))]> hp) set kept
    else stamp_kept hp set kept
  end.

Definition put_material (set : elpis_rrset_buf_t) : Mn unit :=
  w ← gets s_w;
  v ← gets s_v;
  st ← lift (vs_put (w_store w) mono set (vc_serve_stale c));
  _ ← set_store st;
  hp ← lift (stamp_kept (w_heap w) set (v_kept v));
  set_heap hp.

(** [elpis_rrset_validate] without a wildcard report. *)
Definition validate (set keys : elpis_rrset_buf_t) (ede : option Z) : Mn (elpis_rc_t * option Z) :=
  w ← gets s_w;
  '(rc, _, ede, cnt) ← lift (elpis_rrset_validate (vc_sec c) mem (w_cnt w) set keys now None ede);
  _ ← set_cnt cnt;
  mret (rc, ede).

Definition note_unsigned_zone (zone : elpis_name_t) (proof : elpis_rrset_buf_t) : Mn unit :=
  _ ← (if negb (bool_decide (rs_sec proof = ELPIS_SEC_INSECURE)) then put_material (set_sec proof ELPIS_SEC_INSECURE) else mret tt);
  w ← gets s_w;
  '(d, st) ← lift (vd_get (w_store w) zone mono);
  _ ← set_store st;
  match d with
  | None => mret tt
  | Some d =>
    if d_ds_state d =? ELPIS_DS_ABSENT then mret tt
    else st ← lift (vd_put st mono (with_ds_state d ELPIS_DS_ABSENT)); set_store st
  end.

(** The verified records of a stored denial, [k] turns from [i]. *)
Fixpoint denial_loop (b : elpis_rrset_buf_t) (k : nat) (i : Z) (proof : list elpis_denial_rr_t) (any3 any : bool)
    : Mn (list elpis_denial_rr_t * bool * bool) :=
  match k with
  | O => mret (proof, any3, any)
  | S k =>
    if DENIAL_PROOFS <=? zlen proof then mret (proof, any3, any)
    else
      it ← lift (denial_item b i (fun t => (t =? ELPIS_T_NSEC) || (t =? ELPIS_T_NSEC3)));
      match it with
      | None => denial_loop b k (i + 1) proof any3 any
      | Some (ty, owner, r) =>
        let set := elpis_rrset_buf_init den_buf owner ty (rs_klass b) (rs_ttl b) in
        set ← lift (ignored set (elpis_rrset_buf_add set r));
        set ← lift (denial_sigs b owner ty (Z.to_nat (rs_count b - 1)) 1 set);
        if rs_sigcount set =? 0 then denial_loop b k (i + 1) proof any3 any
        else
          v ← gets s_v;
          '(rc, _) ← validate set (v_keys v) None;
          if negb (bool_decide (rc = ELPIS_OK)) then denial_loop b k (i + 1) proof any3 any
          else
            len ← lift (rd (rs_len set) 0);
            if DENIAL_RD <? len then denial_loop b k (i + 1) proof any3 any
            else
              d ← lift (elpis_rrset_rd set 0);
              denial_loop b k (i + 1) (proof ++ [mkDenial owner d len]) (any3 || (ty =? ELPIS_T_NSEC3)) (any || negb (ty =? ELPIS_T_NSEC3))
      end
  end.

Definition denial_proves (name : elpis_name_t) (b : elpis_rrset_buf_t) (zone : elpis_name_t) (what : denial_goal) : Mn bool :=
  '(proof, any3, any) ← denial_loop b (Z.to_nat (rs_count b - 1)) 1 [] false false;
  if zlen proof =? 0 then mret false
  else
    qn ← lift (elpis_name_lower name);
    zn ← lift (elpis_name_lower zone);
    r ← lift (match what with
              | PROVES_NXDOMAIN => either_proof any3 (elpis_nsec3_proves_nxdomain proof qn zn) any (elpis_nsec_proves_nxdomain proof qn)
              | PROVES_CUT => either_proof any3 (elpis_nsec3_proves_insecure_deleg proof qn zn) any (elpis_nsec_proves_insecure_deleg proof qn)
              end);
    mret (negb (r =? 0)).

(** [while (cur.labels > anchor->labels)]; a name has fewer than 128 labels. *)
Fixpoint cut_loop (k : nat) (anchor cur : elpis_name_t) : Mn bool :=
  match k with
  | O => lift (Stuck OutOfFuel)
  | S k =>
    if n_labels anchor <? n_labels cur then
      w ← gets s_w;
      '(d, st) ← lift (vd_state (w_store w) cur mono);
      _ ← set_store st;
      if d =? ELPIS_DS_ABSENT then mret true
      else
        '(r, st) ← lift (vs_state st cur ELPIS_T_DS mono);
        _ ← set_store st;
        if match r with
           | Some (sec, flags) => negb (Z.land flags ELPIS_RRF_NODATA =? 0) && bool_decide (sec = ELPIS_SEC_INSECURE)
           | None => false end then mret true
        else
          p ← lift (try (elpis_name_parent cur));
          match p with None => mret false | Some p => cut_loop k anchor p end
    else mret false
  end.

Definition below_unsigned_cut (name : elpis_name_t) : Mn bool :=
  anchor ← lift (elpis_ta_closest tas name);
  match anchor with None => mret false | Some a => cut_loop (Z.to_nat ELPIS_MAX_LABELS) a name end.

(** ** Over the RRsets of the answer *)

Fixpoint signer_at (ss : list vsigner_t) (n : elpis_name_t) (i : Z) : res (option Z) :=
  match ss with
  | [] => Ok None
  | s :: ss => e ← elpis_name_eq (sg_name s) n; if (e : bool) then Ok (Some i) else signer_at ss n (i + 1)
  end.

(** Whether record [i] leads an RRset that must be signed. *)
Definition judged (i : Z) : Mn bool :=
  t ← gets s_t;
  rr ← lift (rd (l_rr (k_ans t)) i);
  if set_must_be_signed rr then lift (set_leader (k_ans t) i) else mret false.

Definition set_status (i x : Z) : Mn unit :=
  v ← gets s_v; st ← lift (wr (v_status v) i x); mod_v (fun v => with_status v st).

(** The set is insecure: noted, and written back to the cache. *)
Definition settle_insecure (i : Z) : Mn unit :=
  _ ← set_status i SS_INSECURE;
  t ← gets s_t;
  w ← gets s_w;
  '(ok, set) ← lift (build_set (k_ans t) i (w_rrbuf w));
  if (ok : bool) then
    let set := set_sec set ELPIS_SEC_INSECURE in
    _ ← set_rrbuf set; put_verdict i set
  else set_rrbuf set.

Definition collect_signer (i : Z) : Mn unit :=
  j ← judged i;
  if negb j then mret tt
  else
    t ← gets s_t;
    sn ← lift (set_signer (k_ans t) i);
    match sn with
    | None => mret tt
    | Some sn =>
      v ← gets s_v;
      dup ← lift (signer_at (v_signers v) sn 0);
      match dup with
      | Some _ => mret tt
      | None =>
        if VAL_MAX_SIGNERS <=? zlen (v_signers v) then mret tt
        else mod_v (fun v => with_signers v (v_signers v ++ [mkSigner sn false false]))
      end
    end.

Definition collect_signers : Mn unit := _ ← mod_v (fun v => with_signers v []); for_sets collect_signer.

Definition collect_unsigned_zone (i : Z) : Mn unit :=
  t ← gets s_t;
  u ← lift (set_is_unsigned (k_ans t) i);
  if negb u then mret tt
  else
    served ← lift (serving_zone (k_ans t) i);
    match served with
    | None => mret tt
    | Some _ =>
      zone ← lift (try (elpis_trr_get_name (k_ans t) i));
      match zone with
      | None => mret tt
      | Some zone =>
        cut ← below_unsigned_cut zone;
        if (cut : bool) then settle_insecure i
        else
          v ← gets s_v;
          dup ← lift (signer_at (v_signers v) zone 0);
          match dup with
          | Some j =>
            s ← lift (rd (v_signers v) j);
            ss ← lift (wr (v_signers v) j (mkSigner (sg_name s) true (sg_cut s)));
            mod_v (fun v => with_signers v ss)
          | None =>
            if VAL_MAX_SIGNERS <=? zlen (v_signers v) then mret tt
            else mod_v (fun v => with_signers v (v_signers v ++ [mkSigner zone true false]))
          end
      end
    end.

Definition collect_unsigned_zones : Mn unit := for_sets collect_unsigned_zone.

(** The signer whose chain is walked. *)
Definition current : Mn vsigner_t := v ← gets s_v; lift (rd (v_signers v) (v_si v)).

Definition classify_unsigned (i : Z) : Mn unit :=
  t ← gets s_t;
  v ← gets s_v;
  st ← lift (rd (v_status v) i);
  if negb (st =? SS_UNKNOWN) then mret tt
  else
    u ← lift (set_is_unsigned (k_ans t) i);
    if negb u then mret tt
    else
      zone ← lift (try (elpis_trr_get_name (k_ans t) i));
      match zone with
      | None => mret tt
      | Some zone =>
        s ← current;
        e ← lift (elpis_name_eq zone (sg_name s));
        if negb e then mret tt
        else if negb (sg_cut s) && vc_stripped c then
          _ ← set_status i SS_BOGUS;
          mod_t (fun t => with_verdict t (k_sec t) (if k_ede t <? 0 then ELPIS_EDE_RRSIGS_MISSING else k_ede t))
        else settle_insecure i
      end.

Definition classify_unsigned_for_current : Mn unit := for_sets classify_unsigned.

(** Whether the verdict on the set led by [i] is open and up to the current signer. *)
Definition signed_by_current (i : Z) : Mn bool :=
  v ← gets s_v;
  st ← lift (rd (v_status v) i);
  if negb (st =? SS_UNKNOWN) then mret false
  else
    j ← judged i;
    if negb j then mret false
    else
      t ← gets s_t;
      sn ← lift (set_signer (k_ans t) i);
      match sn with None => mret false | Some sn => s ← current; lift (elpis_name_eq sn (sg_name s)) end.

Definition verify_set (i : Z) : Mn unit :=
  mine ← signed_by_current i;
  if negb mine then mret tt
  else
    t ← gets s_t;
    w ← gets s_w;
    '(ok, set) ← lift (build_set (k_ans t) i (w_rrbuf w));
    _ ← set_rrbuf set;
    if negb ok then mret tt
    else
      v ← gets s_v;
      '(rc, ede) ← validate set (v_keys v) (Some (-1));
      if decide (rc = ELPIS_OK) then
        _ ← set_status i SS_SECURE;
        let set := set_sec set ELPIS_SEC_SECURE in
        _ ← set_rrbuf set; put_verdict i set
      else
        _ ← set_status i SS_BOGUS;
        let e := default (-1) ede in
        mod_t (fun t => with_verdict t (k_sec t)
                 (if k_ede t <? 0 then if 0 <=? e then e else ELPIS_EDE_DNSSEC_BOGUS else k_ede t)).

Definition verify_for_current : Mn unit := for_sets verify_set.

Definition mark_insecure (i : Z) : Mn unit :=
  mine ← signed_by_current i; if negb mine then mret tt else settle_insecure i.
Definition mark_insecure_for_current : Mn unit := for_sets mark_insecure.

(** [n] counts the sets settled so far. *)
Fixpoint settled_loop (k : nat) (i n : Z) : Mn bool :=
  match k with
  | O => mret (0 <? n)
  | S k =>
    j ← judged i;
    if negb j then settled_loop k (i + 1) n
    else
      v ← gets s_v;
      st ← lift (rd (v_status v) i);
      if st =? SS_UNKNOWN then mret false else settled_loop k (i + 1) (n + 1)
  end.
Definition all_settled : Mn bool := t ← gets s_t; settled_loop (sets_of t) 0 0.

(** The sets found secure, insecure and bogus. *)
Fixpoint tally_loop (k : nat) (i nsecure ninsecure nbogus : Z) : Mn (Z * Z * Z) :=
  match k with
  | O => mret (nsecure, ninsecure, nbogus)
  | S k =>
    j ← judged i;
    if negb j then tally_loop k (i + 1) nsecure ninsecure nbogus
    else
      v ← gets s_v;
      st ← lift (rd (v_status v) i);
      if st =? SS_SECURE then tally_loop k (i + 1) (nsecure + 1) ninsecure nbogus
      else if st =? SS_BOGUS then tally_loop k (i + 1) nsecure ninsecure (nbogus + 1)
      else tally_loop k (i + 1) nsecure (ninsecure + 1) nbogus
  end.

Definition tally : Mn unit :=
  t ← gets s_t;
  '(nsecure, ninsecure, nbogus) ← tally_loop (sets_of t) 0 0 0 0;
  v ← gets s_v;
  if 0 <? nbogus then val_done ELPIS_SEC_BOGUS (if 0 <=? k_ede t then k_ede t else ELPIS_EDE_DNSSEC_BOGUS)
  else if (nsecure =? 0) && (ninsecure =? 0) && v_keyed v then val_done ELPIS_SEC_BOGUS ELPIS_EDE_NSEC_MISSING
  else if (0 <? ninsecure) || (nsecure =? 0) then val_done ELPIS_SEC_INSECURE (-1)
  else
    let zone := match v_signers v with s :: _ => sg_name s | [] => k_qname t end in
    r ← lift (check_denial (vc_stripped c) (k_ans t) (mkDenialQ (k_qname t) (k_qtype t) (k_rcode t) (k_from_cache t)) zone);
    if r =? 0 then val_done ELPIS_SEC_BOGUS ELPIS_EDE_NSEC_MISSING
    else if r =? ELPIS_NSEC3_OPTOUT_PROOF then val_done ELPIS_SEC_INSECURE (-1)
    else val_done ELPIS_SEC_SECURE (-1).

(** ** The machine *)

(** How a turn ends: the loop goes on, the verdict is in, a look-up is waited on. *)
Inductive turn_end := TNext | TDone | TWait.

(** The last [ede] of the run goes from turn to turn. *)
Abbreviation Turn := (Mn (turn_end * Z)).

Definition unavailable (e code : Z) : Turn :=
  _ ← mod_t with_unavailable; _ ← val_done ELPIS_SEC_INDETERMINATE code; mret (TDone, e).

Definition goto (stage : val_stage) (e : Z) : Turn := _ ← mod_v (fun v => with_stage v stage); mret (TNext, e).

(** The walk down to the signer starts at its closest anchor. *)
Definition start_walk (a : elpis_name_t) (e : Z) : Turn :=
  _ ← mod_v (fun v => with_walk v a a a); goto VS_ANCHOR_KEYS e.

Definition turn_start (e : Z) : Turn :=
  _ ← collect_signers;
  _ ← collect_unsigned_zones;
  v ← gets s_v;
  settled ← (if zlen (v_signers v) =? 0 then all_settled else mret false);
  if (settled : bool) then goto VS_TALLY e
  else
    t ← gets s_t;
    _ ← (if zlen (v_signers v) =? 0 then mod_v (fun v => with_signers v [mkSigner (default (k_qname t) (k_deleg t)) false false]) else mret tt);
    _ ← mod_v (fun v => with_si v 0);
    s ← current;
    anchor ← lift (elpis_ta_closest tas (sg_name s));
    match anchor with
    | None => _ ← val_done ELPIS_SEC_INDETERMINATE (-1); mret (TDone, e)
    | Some a => start_walk a e
    end.

(** The rest of VS_ANCHOR_KEYS, the keys being there. *)
Definition anchor_judge (e : Z) : Turn :=
  v ← gets s_v;
  w ← gets s_w;
  '(rc, e) ← (if bool_decide (rs_sec (v_keys v) = ELPIS_SEC_SECURE) then mret (ELPIS_OK, e)
              else
                '(rc, e', cnt) ← lift (elpis_dnskey_validate_ta (vc_sec c) mem one_buf (w_cnt w) tas (v_keys v) now (Some e));
                _ ← set_cnt cnt;
                _ ← (if decide (rc = ELPIS_OK) then
                       let keys := set_sec (v_keys v) ELPIS_SEC_SECURE in
                       _ ← mod_v (fun v => with_keys v keys); put_material keys
                     else mret tt);
                mret (rc, default e e'));
  if decide (rc = ELPIS_ENOTFOUND) then _ ← mark_insecure_for_current; goto VS_VERIFY e
  else if negb (bool_decide (rc = ELPIS_OK)) then _ ← val_done ELPIS_SEC_BOGUS e; mret (TDone, e)
  else goto VS_DESCEND e.

Definition turn_anchor_keys (e : Z) : Turn :=
  v ← gets s_v;
  '(have, keys) ← val_need (v_cur v) ELPIS_T_DNSKEY (v_keys v);
  _ ← mod_v (fun v => with_keys v keys);
  if negb have then mret (TWait, e)
  else
    _ ← mod_v (fun v => with_pq_only v false);
    mine ← lift (if rs_count keys =? 0 then Ok false else elpis_name_eq (rs_name keys) (v_cur v));
    if negb mine then unavailable e ELPIS_EDE_NOT_READY else anchor_judge e.

(** No DS at [next]: what its denial shows. *)
Definition descend_denied (next : elpis_name_t) (ds : elpis_rrset_buf_t) (e : Z) : Turn :=
  v ← gets s_v;
  s ← current;
  let nx := has_flag ds ELPIS_RRF_NXDOMAIN in
  cut ← (if nx || has_flag ds ELPIS_RRF_NODATA then denial_proves next ds (v_cur v) PROVES_CUT else mret false);
  let mark := (v ← gets s_v; ss ← lift (wr (v_signers v) (v_si v) (mkSigner (sg_name s) (sg_probe s) true));
               _ ← mod_v (fun v => with_signers v ss); goto VS_VERIFY e) in
  if (cut : bool) then _ ← note_unsigned_zone next ds; mark
  else
    depth ← lift (elpis_route_depth c (sg_name s));
    routed ← (if nx && (n_labels next <=? depth) then denial_proves next ds (v_cur v) PROVES_NXDOMAIN else mret false);
    if (routed : bool) then mark
    else if has_flag ds ELPIS_RRF_REFERRAL then
      w ← gets s_w;
      st ← lift (vs_del (w_store w) next ELPIS_T_DS);
      _ ← set_store st;
      mret (TNext, e)
    else _ ← mod_v (fun v => with_walk v (v_anchor v) (v_cur v) next); mret (TNext, e).

(** The DS set of [next] is verified: its keys. *)
Definition descend_keys (next : elpis_name_t) (ds : elpis_rrset_buf_t) (e : Z) : Turn :=
  ds_hold ← lift (elpis_rrset_buf_copy ds_buf ds);
  '(have, set) ← val_need next ELPIS_T_DNSKEY ds;
  _ ← set_rrbuf set;
  if negb have then mret (TWait, e)
  else if rs_count set =? 0 then unavailable e ELPIS_EDE_DNSKEY_MISSING
  else
    w ← gets s_w;
    '(rc, e, set) ← (if bool_decide (rs_sec set = ELPIS_SEC_SECURE) then mret (ELPIS_OK, e, set)
                     else
                       '(rc, e', cnt) ← lift (elpis_dnskey_validate_ds (vc_sec c) mem one_buf (w_cnt w) set ds_hold now (Some e));
                       _ ← set_cnt cnt;
                       if decide (rc = ELPIS_OK) then
                         let set := set_sec set ELPIS_SEC_SECURE in
                         _ ← set_rrbuf set; _ ← put_material set; mret (rc, default e e', set)
                       else mret (rc, default e e', set));
    if decide (rc = ELPIS_ENOTFOUND) then _ ← mark_insecure_for_current; goto VS_VERIFY e
    else if negb (bool_decide (rc = ELPIS_OK)) then _ ← val_done ELPIS_SEC_BOGUS e; mret (TDone, e)
    else
      v ← gets s_v;
      keys ← lift (elpis_rrset_buf_copy (v_keys v) set);
      '(pq, keys) ← lift (elpis_dnskey_signers (vc_sec c) keys ds_hold);
      _ ← mod_v (fun v => with_walk (with_pq_only (with_keys v keys) pq) (v_anchor v) next next);
      mret (TNext, e).

(** The DS set of [next] is there: is it signed by the zone above? *)
Definition descend_ds (next : elpis_name_t) (ds : elpis_rrset_buf_t) (e : Z) : Turn :=
  if bool_decide (rs_sec ds = ELPIS_SEC_SECURE) then descend_keys next ds e
  else
    v ← gets s_v;
    '(rc, e') ← validate ds (v_keys v) (Some e);
    let e := default e e' in
    if negb (bool_decide (rc = ELPIS_OK)) then _ ← val_done ELPIS_SEC_BOGUS e; mret (TDone, e)
    else
      let ds := set_sec ds ELPIS_SEC_SECURE in
      _ ← set_rrbuf ds;
      _ ← put_material ds;
      descend_keys next ds e.

Definition turn_descend (e : Z) : Turn :=
  v ← gets s_v;
  s ← current;
  if n_labels (sg_name s) <=? n_labels (v_walk v) then goto VS_VERIFY e
  else
    next ← lift (try (elpis_name_suffix (sg_name s) (n_labels (v_walk v) + 1)));
    match next with
    | None => goto VS_VERIFY e
    | Some next =>
      w ← gets s_w;
      '(have, ds) ← val_need next ELPIS_T_DS (w_rrbuf w);
      _ ← set_rrbuf ds;
      if negb have then mret (TWait, e)
      else
        cname ← lift (if (rs_type ds =? ELPIS_T_CNAME) && (0 <? rs_count ds) then elpis_name_eq (rs_name ds) next else Ok false);
        if (cname : bool) then _ ← mod_v (fun v => with_walk v (v_anchor v) (v_cur v) next); mret (TNext, e)
        else
          let denied := has_flag ds ELPIS_RRF_NXDOMAIN || has_flag ds ELPIS_RRF_NODATA in
          if (rs_count ds =? 0) && negb denied then unavailable e ELPIS_EDE_NOT_READY
          else
            there ← lift (if denied then Ok false else elpis_name_eq (rs_name ds) next);
            if negb there then descend_denied next ds e else descend_ds next ds e
    end.

Definition turn_verify (e : Z) : Turn :=
  v ← gets s_v;
  s ← current;
  reached ← lift (elpis_name_eq (v_cur v) (sg_name s));
  _ ← (if reached && bool_decide (rs_sec (v_keys v) = ELPIS_SEC_SECURE) && negb (sg_cut s) then mod_v (fun v => with_keyed v true) else mret tt);
  _ ← (if (reached : bool) then verify_for_current else mark_insecure_for_current);
  _ ← (if sg_probe s then classify_unsigned_for_current else mret tt);
  _ ← mod_v (fun v => with_si v (v_si v + 1));
  v ← gets s_v;
  if v_si v <? zlen (v_signers v) then
    s ← current;
    anchor ← lift (elpis_ta_closest tas (sg_name s));
    match anchor with
    | None =>
      _ ← mark_insecure_for_current;
      _ ← (if sg_probe s then classify_unsigned_for_current else mret tt);
      goto VS_VERIFY e
    | Some a => start_walk a e
    end
  else goto VS_TALLY e.

Definition val_turn (e : Z) : Turn :=
  v ← gets s_v;
  match v_stage v with
  | VS_START => turn_start e
  | VS_ANCHOR_KEYS => turn_anchor_keys e
  | VS_DESCEND => turn_descend e
  | VS_VERIFY => turn_verify e
  | VS_TALLY => _ ← tally; mret (TDone, e)
  end.

(** [while (++guard < 128)] *)
Fixpoint val_turns (k : nat) (e : Z) : Mn turn_end :=
  match k with
  | O => _ ← val_done ELPIS_SEC_BOGUS ELPIS_EDE_OTHER; mret TDone
  | S k =>
    '(o, e) ← val_turn e;
    match o with TNext => val_turns k e | _ => mret o end
  end.

Definition val_step : Mn turn_end :=
  v ← gets s_v;
  if VAL_MAX_STEPS <? v_steps v then
    _ ← mod_t with_unavailable; _ ← val_done ELPIS_SEC_INDETERMINATE ELPIS_EDE_NOT_READY; mret TDone
  else val_turns 127 (-1).

(** The world and the task after a run, and the validation if its verdict is
    not in; the budget in force is the validation's own. *)
Definition val_run (w : vworld St) (t : vtask) (ov : option val_t) : res (vworld St * vtask * option val_t) :=
  match ov with
  | None => Ok (w, t, None)
  | Some v =>
    let saved := g_val_spent (w_cnt w) in
    let mine := mkCounters (g_verifies (w_cnt w)) (Some (v_verifies v)) in
    '(o, s) ← val_step (mkVst (mkVw (w_store w) (w_flight w) (w_heap w) (w_sent w) mine (w_rrbuf w)) t v);
    let cnt := w_cnt (s_w s) in
    let w := mkVw (w_store (s_w s)) (w_flight (s_w s)) (w_heap (s_w s)) (w_sent (s_w s)) (mkCounters (g_verifies cnt) saved) (w_rrbuf (s_w s)) in
    Ok (w, s_t s, match o with TWait => Some (with_verifies (s_v s) (default 0 (g_val_spent cnt))) | _ => None end)
  end.

(** [keys]: the buffer a new state has, if there is memory for one; the first
    component says whether the task is suspended. *)
Definition elpis_val_start (keys : option elpis_rrset_buf_t) (w : vworld St) (t : vtask) (ov : option val_t)
    : res (bool * (vworld St * vtask * option val_t)) :=
  let unchecked := Ok (false, (w, with_verdict t ELPIS_SEC_UNCHECKED (k_ede t), ov)) in
  if negb (vc_dnssec c) then unchecked
  else if (((k_qtype t =? ELPIS_T_DNSKEY) || (k_qtype t =? ELPIS_T_DS)) && (0 <? k_depth t)) || negb (k_qclass t =? ELPIS_CLASS_IN) then unchecked
  else if ELPIS_MAX_DEPTH - 1 <=? k_depth t then unchecked
  else if k_client_cd t && (k_depth t =? 0) then unchecked
  else if k_warming t then unchecked
  else if k_rcode t =? ELPIS_RC_SERVFAIL then unchecked
  else
    match (match ov with Some v => Some v | None => val_alloc <$> keys end) with
    | None => unchecked
    | Some v =>
      '(w, t, ov) ← val_run w t (Some v);
      Ok (match ov with Some v => v_waiting v | None => false end, (w, t, ov))
    end.

(** A look-up landed: run again.  The first component says whether the task is
    to go on to its end, which is the resolver's. *)
Definition val_resume (w : vworld St) (t : vtask) (ov : option val_t) : res (bool * (vworld St * vtask * option val_t)) :=
  let t := if k_nchild t =? 0 then t else with_nchild t (k_nchild t - 1) in
  match ov with
  | None => Ok (false, (w, t, None))
  | Some v =>
    '(w, t, ov) ← val_run w t (Some (with_waiting v false));
    Ok (negb (match ov with Some v => v_waiting v | None => false end), (w, t, ov))
  end.
End Machine.
