(* ===== verification/Valinv.v ===== *)
(** What the validation machine keeps true: the proofs about Valstep.

    [wp] is the weakest precondition of the state monad, and total: what is
    proved with it returns.  [vouched] is the chain of trust, [base] what every
    operation keeps, [walk_ok] what each stage of the walk has established. *)
From stdpp Require Import base list numbers gmap.
From Stdlib Require Import ZArith Lia.
From S2P Require Import Prelude Bytes Simd Name NameOps Rdesc Rnames Ratelimit Rrset Dnskey Rrsig Rrvalid Nsec Nsec3 Rcache Dcache Rrlist Valset Valflight Valstep.

(** ** The logic *)

Section Logic.
Context {St : Type}.

Definition wp {A} (m : M St A) (Q : A → vst St → Prop) (s : vst St) : Prop := ∃ a s', m s = Ok (a, s') ∧ Q a s'.

Lemma wp_mono {A} (m : M St A) (Q Q' : A → vst St → Prop) s : wp m Q s → (∀ a s', Q a s' → Q' a s') → wp m Q' s.
Proof. intros (a & s' & E & Hq) H. exists a, s'. split; [done|by apply H]. Qed.

Lemma wp_bind {A B} (m : M St A) (k : A → M St B) Q s : wp m (fun a s' => wp (k a) Q s') s → wp (m ≫= k) Q s.
Proof. intros (a & s' & E & b & s2 & E2 & Hq). exists b, s2. split; [|done]. unfold mbind, M_bind. by rewrite E. Qed.

Lemma wp_ret {A} (a : A) (Q : A → vst St → Prop) s : Q a s → wp (mret a) Q s.
Proof. intros Hq. by exists a, s. Qed.

Lemma wp_lift {A} (m : res A) a (Q : A → vst St → Prop) s : m = Ok a → Q a s → wp (lift m) Q s.
Proof. intros -> Hq. by exists a, s. Qed.

Lemma wp_gets {A} (f : vst St → A) (Q : A → vst St → Prop) s : Q (f s) s → wp (gets f) Q s.
Proof. intros Hq. by exists (f s), s. Qed.

Lemma wp_mod_v f (Q : unit → vst St → Prop) s : Q tt (mkVst (s_w s) (s_t s) (f (s_v s))) → wp (mod_v f) Q s.
Proof. intros Hq. by eexists _, _. Qed.
Lemma wp_mod_t f (Q : unit → vst St → Prop) s : Q tt (mkVst (s_w s) (f (s_t s)) (s_v s)) → wp (mod_t f) Q s.
Proof. intros Hq. by eexists _, _. Qed.
Lemma wp_mod_w f (Q : unit → vst St → Prop) s : Q tt (mkVst (f (s_w s)) (s_t s) (s_v s)) → wp (mod_w f) Q s.
Proof. intros Hq. by eexists _, _. Qed.

(** A loop keeps what each turn keeps. *)
Lemma wp_upto (I : vst St → Prop) f k : ∀ i s, I s → 0 <= i →
  (∀ j s, i <= j < i + Z.of_nat k → I s → wp (f j) (fun _ => I) s) → wp (upto k i f) (fun _ => I) s.
Proof.
  induction k as [|k IH]; intros i s Hi H0 Hf; cbn [upto]; [by apply wp_ret|].
  apply wp_bind. eapply wp_mono; [apply Hf; [lia|done]|]. intros [] s' Hi'. apply IH; [done|lia|]. intros j s2 Hj. apply Hf. lia.
Qed.

(** A loop that settles turn [j] in turn [j]: at the end all are settled. *)
Lemma wp_upto_all (I : vst St → Prop) (D : Z → vst St → Prop) f k : ∀ i s, I s → 0 <= i → (∀ j, 0 <= j < i → D j s) →
  (∀ j s, i <= j < i + Z.of_nat k → I s → wp (f j) (fun _ s' => I s' ∧ D j s' ∧ ∀ m, D m s → D m s') s) →
  wp (upto k i f) (fun _ s' => I s' ∧ ∀ j, 0 <= j < i + Z.of_nat k → D j s') s.
Proof.
  induction k as [|k IH]; intros i s Hi H0 Hd Hf; cbn [upto].
  { apply wp_ret. split; [done|]. intros j Hj. apply Hd. lia. }
  apply wp_bind. eapply wp_mono; [apply Hf; [lia|done]|]. intros [] s' (Hi' & Hj & Hm). eapply wp_mono; [apply (IH (i + 1) s'); [done|lia| |]|].
  - intros j Hj'. destruct (decide (j = i)) as [->|]; [done|]. apply Hm, Hd. lia.
  - intros j s2 Hj2. apply Hf. lia.
  - intros [] s2 (Hi2 & Hd2). split; [done|]. intros j Hj2. apply Hd2. lia.
Qed.
End Logic.

(** Steps through the straight-line part of a computation. *)
Ltac wp1 :=
  lazymatch goal with
  | |- wp (_ ≫= _) _ _ => apply wp_bind; cbv beta
  | |- wp (mret _) _ _ => apply wp_ret
  | |- wp (gets _) _ _ => apply wp_gets
  | |- wp (mod_v _) _ _ => apply wp_mod_v
  | |- wp (mod_t _) _ _ => apply wp_mod_t
  | |- wp (mod_w _) _ _ => apply wp_mod_w
  | |- wp (set_store _) _ _ => apply wp_mod_w
  | |- wp (set_flight _) _ _ => apply wp_mod_w
  | |- wp (set_heap _) _ _ => apply wp_mod_w
  | |- wp (set_sent _) _ _ => apply wp_mod_w
  | |- wp (set_cnt _) _ _ => apply wp_mod_w
  | |- wp (set_rrbuf _) _ _ => apply wp_mod_w
  end; cbn [s_w s_t s_v w_store w_flight w_heap w_sent w_cnt w_rrbuf].
Ltac wps := repeat wp1.
(** The result of a call known to succeed. *)
Tactic Notation "wp_call" constr(E) := eapply wp_lift; [exact E|cbv beta iota].

(** ** Calls on sets that are well formed *)

Lemma set_sec_holds b x rs sgs : rrset_holds b rs sgs → rrset_holds (set_sec b x) rs sgs.
Proof. intros []. by split. Qed.
Lemma set_flags_holds b x rs sgs : rrset_holds b rs sgs → rrset_holds (set_flags b x) rs sgs.
Proof. intros []. by split. Qed.
Lemma set_name_holds b x rs sgs : rrset_holds b rs sgs → rrset_holds (set_name b x) rs sgs.
Proof. intros []. by split. Qed.

Lemma sig_window_total conf sig now : dates_defined conf now sig → bytes sig → 19 <= zlen sig → ∃ b, sig_in_window conf sig now = Ok b.
Proof. intros (late & E) Hb Hz. rewrite sig_in_window_spec, E by done. bind_step. by eexists. Qed.

Lemma sigs_lapsed_total conf b rs sgs now : rrset_holds b rs sgs → (∀ sig, dates_defined conf now sig) →
  ∃ x, elpis_rrset_sigs_lapsed conf b now = Ok x.
Proof.
  intros Hb Hd. unfold elpis_rrset_sigs_lapsed. rewrite (rh_count _ _ _ Hb), (rh_sigcount _ _ _ Hb).
  assert (∀ r, r ∈ rs ++ sgs → bytes r) as Hbytes by (intros r Hr; by apply (rrset_rec_size _ _ _ r Hb)).
  destruct (rrset_denied b).
  - enough (∀ k i seen, (i + k <= length rs)%nat → ∃ x, lapsed_denial conf b now k (Z.of_nat i) seen = Ok x) as H.
    { destruct rs as [|r rs]; [by eexists|]. destruct (H (Z.to_nat (zlen (r :: rs) - 1)) 1%nat 0) as (x & E); [zl|by exists x]. }
    induction k as [|k IH]; intros i seen Hi; cbn [lapsed_denial]; [by eexists|].
    destruct (lookup_lt_is_Some_2 rs i) as [r Hr]; [lia|]. destruct (rrset_data_rd _ _ _ _ _ Hb Hr) as [-> ->]. do 2 bind_ok.
    assert (bytes r) as Hbr by (apply Hbytes, elem_of_app; left; by eapply list_elem_of_lookup_2).
    replace (Z.of_nat i + 1) with (Z.of_nat (S i)) by lia.
    destruct (Z.ltb_spec (zlen r) 3); [bind_ok; apply IH; lia|]. rewrite get16_oct by (done || lia). bind_ok.
    destruct (negb _); [bind_ok; apply IH; lia|]. rewrite rd_octet by lia. bind_ok.
    destruct (Z.ltb_spec (zlen r) (3 + octet r 2 + 19)); bind_ok; [apply IH; lia|]. pose proof (octet_byte r 2 Hbr) as Ho. unfold byte in Ho.
    destruct (sig_window_total conf (drop (Z.to_nat (3 + octet r 2)) r) now (Hd _)) as (x & ->); [by apply Forall_drop|rewrite zlen_drop; lia|].
    bind_ok. destruct x; [by eexists|apply IH; lia].
  - enough (∀ k i seen, (i + k <= length sgs)%nat → ∃ x, lapsed_sigs conf b now k (Z.of_nat i) seen = Ok x) as H.
    { destruct (H (length sgs) 0%nat 0) as (x & E); [lia|]. replace (Z.to_nat (zlen sgs)) with (length sgs) by zl. by exists x. }
    induction k as [|k IH]; intros i seen Hi; cbn [lapsed_sigs]; [by eexists|].
    destruct (lookup_lt_is_Some_2 sgs i) as [r Hr]; [lia|]. destruct (rrset_sig_rd _ _ _ _ _ Hb Hr) as [-> ->]. bind_ok.
    assert (bytes r) as Hbr by (apply Hbytes, elem_of_app; right; by eapply list_elem_of_lookup_2).
    replace (Z.of_nat i + 1) with (Z.of_nat (S i)) by lia.
    destruct (Z.ltb_spec (zlen r) 19); [apply IH; lia|]. bind_ok.
    destruct (sig_window_total conf r now (Hd _) Hbr ltac:(lia)) as (x & ->). bind_ok. destruct x; [by eexists|apply IH; lia].
Qed.

(** The parts of a record of a stored denial. *)
Lemma denial_item_spec b rs sgs i want : rrset_holds b rs sgs → (i < length rs)%nat →
  ∃ o, denial_item b (Z.of_nat i) want = Ok o ∧
    ∀ ty n p, o = Some (ty, n, p) → wf_name n ∧ bytes p ∧ zlen p <= ELPIS_RRSET_BUF ∧ want ty = true ∧ 0 <= ty < 2 ^ 16.
Proof.
  intros Hb Hi. unfold denial_item. destruct (lookup_lt_is_Some_2 rs i) as [r Hr]; [done|]. destruct (rrset_data_rd _ _ _ _ _ Hb Hr) as [-> ->]. do 2 bind_ok.
  destruct (rrset_rec_size _ _ _ r Hb) as [Hbr Hzr]; [apply elem_of_app; left; by eapply list_elem_of_lookup_2|].
  destruct (Z.ltb_spec (zlen r) 4); [by exists None|]. rewrite get16_oct by (done || lia). bind_ok. rewrite rd_octet by lia. bind_ok.
  destruct (want (oct16 r 0)) eqn:Ew; cbn [negb]; [|by exists None]. pose proof (octet_byte r 2 Hbr) as Ho. unfold byte in Ho.
  destruct (Z.leb_spec (zlen r) (3 + octet r 2)); [by exists None|].
  pose proof (name_parse_nocomp_spec (drop 3 r) (octet r 2) (Forall_drop _ _ _ Hbr) ltac:(rewrite zlen_drop; lia)) as Hp.
  destruct (elpis_name_parse_nocomp _ _) as [[n e]|rc d|f]; [|exists None; split; [done|intros ty n p [=]]|done]. cbn [try]. bind_ok.
  eexists. split; [done|]. intros ty n' p [= <- <- <-]. destruct Hp as (ls & _ & Hls & -> & _). split; [by exists ls|].
  split; [by apply Forall_drop|]. split; [rewrite zlen_drop; lia|]. split; [done|]. apply oct16_range, Hbr.
Qed.

Lemma denial_sigs_spec b rs sgs owner ty ds : rrset_holds b rs sgs → wf_name owner → ∀ k i set gs, (i + k <= length rs)%nat → rrset_holds set ds gs →
  ∃ set' gs', denial_sigs b owner ty k (Z.of_nat i) set = Ok set' ∧ rrset_holds set' ds gs' ∧ rrset_kind set' = rrset_kind set.
Proof.
  intros Hb (ol & Hol & ->). induction k as [|k IH]; intros i set gs Hi Hs; cbn [denial_sigs]; [by exists set, gs|].
  destruct (denial_item_spec b rs sgs i (fun t => t =? ELPIS_T_RRSIG) Hb ltac:(lia)) as (o & -> & Ho). bind_ok.
  replace (Z.of_nat i + 1) with (Z.of_nat (S i)) by lia. destruct o as [[[t o2] q]|]; [|apply (IH _ _ gs); [lia|done]].
  destruct (Ho t o2 q eq_refl) as ((l2 & Hl2 & ->) & Hbq & Hzq & _). rewrite name_eq_spec by done. bind_ok.
  destruct (bool_decide _); cbn [negb]; [|apply (IH _ _ gs); [lia|done]].
  destruct (Z.ltb_spec (zlen q) 19); [apply (IH _ _ gs); [lia|done]|]. rewrite get16_oct by (done || lia). bind_ok.
  destruct (negb _); [apply (IH _ _ gs); [lia|done]|].
  destruct (ignored_sig_spec set ds gs q Hs Hbq ltac:(unfold ELPIS_RRSET_BUF in *; lia)) as (set1 & -> & Hk & _ & Hh & _). bind_ok.
  destruct (IH (S i) set1 _ ltac:(lia) Hh) as (set' & gs' & -> & Hh' & Hk'). exists set', gs'. split; [done|]. split; [done|congruence].
Qed.

(** The closest anchor is a name at or above. *)
Lemma ta_closest_spec tas ls : Forall (fun ta => wf_name (ta_name ta)) tas → labels_ok ls →
  ∃ o, elpis_ta_closest tas (name_of ls) = Ok o ∧ ∀ a, o = Some a → ∃ al, labels_ok al ∧ a = name_of al ∧ labels_suffix al ls.
Proof.
  intros Ht Hls. unfold elpis_ta_closest.
  assert (∀ best : option elpis_name_t, (∀ a, best = Some a → ∃ al, labels_ok al ∧ a = name_of al ∧ labels_suffix al ls) →
    ∃ o, ta_closest_loop tas (name_of ls) best = Ok o ∧ ∀ a, o = Some a → ∃ al, labels_ok al ∧ a = name_of al ∧ labels_suffix al ls) as H; [|by apply H].
  induction Ht as [|ta tas (tl & Htl & Etl) Ht IH]; intros best Hbest; cbn [ta_closest_loop]; [by exists best|].
  rewrite Etl, name_is_subdomain_spec by done. bind_ok. destruct (bool_decide_reflect (labels_suffix tl ls)); cbn [negb]; [|by apply IH].
  apply IH. intros a Ha. destruct best as [b|]; [destruct (_ <? _)|]; try (injection Ha as <-; by exists tl). by apply Hbest.
Qed.

Lemma route_depth_total c ls : Forall wf_name (vc_routes c) → labels_ok ls → ∃ d, elpis_route_depth c (name_of ls) = Ok d.
Proof.
  intros Hr Hls. unfold elpis_route_depth. destruct (_ =? 0); [by eexists|].
  assert (∀ best, ∃ o, route_lookup (vc_routes c) (name_of ls) best = Ok o) as H; [|destruct (H None) as (o & ->); bind_ok; by eexists].
  induction Hr as [|z zs (zl' & Hzl & ->) _ IH]; intros best; cbn [route_lookup]; [by eexists|].
  destruct (match best with Some b => _ | None => false end); [apply IH|]. rewrite name_is_subdomain_spec by done. bind_ok. apply IH.
Qed.

Lemma index_of_range {A} (p : A → bool) l : ∀ i k, index_of p l i = Some k → i <= k < i + zlen l.
Proof.
  induction l as [|x l IH]; intros i k; cbn [index_of]; [done|]. rewrite zlen_cons. pose proof (zlen_nonneg l).
  destruct (p x); [intros [= <-]; lia|]. intros E%IH. lia.
Qed.

Lemma weakest_range fs : ∀ i w t, 0 <= w < i → 0 <= weakest_slot fs i w t < i + zlen fs.
Proof.
  induction fs as [|f fs IH]; intros i w t Hw; cbn [weakest_slot]; [rewrite (@zlen_nil val_fail_t); lia|]. rewrite zlen_cons.
  destruct (_ <? _); [specialize (IH (i + 1) i (fl_tries f) ltac:(lia))|specialize (IH (i + 1) w t ltac:(lia))]; lia.
Qed.

Lemma concat_lens_inj (a : list (list Z)) : ∀ b, map zlen a = map zlen b → concat a = concat b → a = b.
Proof.
  induction a as [|x a IH]; intros [|y b]; cbn [map concat]; try done. intros [= Ez El] E.
  apply app_inj_1 in E as [-> E]; [|zl]. by rewrite (IH b).
Qed.

Lemma rrset_lens b rs sgs : rrset_holds b rs sgs → slice (rs_len b) 0 (zlen rs + zlen sgs) = map zlen (rs ++ sgs).
Proof.
  intros Hb. pose proof (rh_max _ _ _ Hb). pose proof (rh_len _ _ _ Hb). pose proof (zlen_nonneg rs). pose proof (zlen_nonneg sgs).
  apply list_eq_same_length with (n := length (rs ++ sgs)).
  - by rewrite length_map.
  - unfold slice. rewrite length_take, length_drop, length_app. zl.
  - intros i x y Hi Hx Hy. destruct (lookup_lt_is_Some_2 (rs ++ sgs) i Hi) as [r Hr]. destruct (rh_rec _ _ _ Hb i r Hr) as (Hl & _).
    rewrite list_lookup_fmap, Hr in Hy. injection Hy as <-. rewrite (slice_0_lookup _ _ _ _ Hl) in Hx; [congruence|]. rewrite length_app in Hi. zl.
Qed.

Lemma same_material_spec s set rs sgs rs' sgs' ls ls' : rrset_holds s rs sgs → packed s rs sgs → rrset_holds set rs' sgs' → packed set rs' sgs' →
  rs_name s = name_of ls → labels_ok ls → rs_name set = name_of ls' → labels_ok ls' →
  ∃ b, same_material s set = Ok b ∧ (b = true → rs_type s = rs_type set ∧ rs = rs' ∧ sgs = sgs' ∧ labels_eq ls ls').
Proof.
  intros Hs Ps Hset Pset En Hls En' Hls'. unfold same_material.
  pose proof (rh_max _ _ _ Hs). pose proof (zlen_nonneg rs). pose proof (zlen_nonneg sgs). pose proof (rh_used _ _ _ Hset).
  rewrite (rh_count _ _ _ Hs), (rh_sigcount _ _ _ Hs), (rh_count _ _ _ Hset), (rh_sigcount _ _ _ Hset).
  destruct (Z.eqb_spec (rs_type s) (rs_type set)) as [Et|]; cbn [negb orb]; [|by exists false].
  destruct (Z.eqb_spec (zlen rs) (zlen rs')) as [Ec|]; cbn [negb orb]; [|by exists false].
  destruct (Z.eqb_spec (zlen sgs) (zlen sgs')) as [Eg|]; cbn [negb orb]; [|by exists false].
  destruct (Z.eqb_spec (rs_used s) (rs_used set)) as [Eu|]; cbn [negb orb]; [|by exists false].
  rewrite En, En', name_eq_spec by done. bind_ok. destruct (bool_decide_reflect (labels_eq ls ls')) as [El|]; cbn [negb]; [|by exists false].
  pose proof (rh_len _ _ _ Hs). pose proof (rh_len _ _ _ Hset). pose proof (rh_data _ _ _ Hs). pose proof (rh_data _ _ _ Hset).
  rewrite (rds_in_range (rs_len s)) by lia. bind_ok. rewrite (rds_in_range (rs_len set)) by lia. bind_ok.
  rewrite <- Ec, <- Eg. rewrite (rrset_lens s rs sgs Hs). rewrite Ec, Eg, (rrset_lens set rs' sgs' Hset).
  destruct (bool_decide_reflect (map zlen (rs ++ sgs) = map zlen (rs' ++ sgs'))) as [Em|]; cbn [negb]; [|by exists false].
  rewrite (rds_in_range (rs_data s)) by lia. bind_ok. rewrite (rds_in_range (rs_data set)) by lia. bind_ok. eexists. split; [done|].
  intros Ed%bool_decide_eq_true. rewrite <- Eu in Ed at 1. unfold packed in *. rewrite Ps, Pset in Ed.
  pose proof (concat_lens_inj _ _ Em Ed) as E. apply app_inj_1 in E as [-> ->]; [done|zl].
Qed.

Lemma copy_packed dst src b rs sgs : elpis_rrset_buf_copy dst src = Ok b → rrset_sized dst → rrset_holds src rs sgs → packed src rs sgs → packed b rs sgs.
Proof.
  intros E (_ & _ & Hd) Hs Hp. pose proof (rh_used _ _ _ Hs). pose proof (rh_data _ _ _ Hs). unfold elpis_rrset_buf_copy in E. do 5 (apply bind_Ok_inv in E as (? & _ & E)).
  replace (Z.min (rs_used src) ELPIS_RRSET_BUF) with (rs_used src) in E by lia. rewrite rds_in_range in E by lia.
  assert (zlen (slice (rs_data src) 0 (rs_used src)) = rs_used src) as El by (apply zlen_slice; lia).
  rewrite bind_Ok in E. rewrite blit_in_range in E by lia. rewrite bind_Ok in E. injection E as <-.
  unfold packed. cbn [rs_data rs_used]. rewrite <- Hp. rewrite <- El at 2. apply slice_splice_at; lia.
Qed.

(** ** The chain of trust *)

Lemma signed_labels_fold o n : signed_labels (fold_labels o) n = signed_labels o n.
Proof.
  unfold signed_labels. assert (zlen (fold_labels o) = zlen o) as -> by (unfold zlen; by rewrite length_fold_labels).
  by rewrite fold_labels_idem.
Qed.

Section Chain.
Context `{SigPrims} (conf : sec_conf_t) (tas : list elpis_ta_t).

(** [sig] is a valid signature of [key] over the records [rs] at [o]. *)
Definition signs (now : Z) (o : list (list Z)) (t kl : Z) (rs : list (list Z)) (sig key : list Z) : Prop :=
  sig_applies conf t sig key ∧ sig_dates conf (oct32 sig 8) (oct32 sig 12) now = Ok None ∧ sig_good conf o t kl rs sig key.

(** The sets a chain of signatures leads to from an anchor.  The owner of a key
    set and of what it signs are not related: the code does not relate them. *)
Inductive vouched : list (list Z) → Z → Z → list (list Z) → Prop :=
  | vouched_anchor o kl rs ta key sig now : ta ∈ tas → ta_at o ta = true → ds_of o (ta_ds ta) key → key ∈ rs →
      signs now o ELPIS_T_DNSKEY kl rs sig key → vouched o ELPIS_T_DNSKEY kl rs
  | vouched_ds o kl kl' rs dss d key sig now : vouched o ELPIS_T_DS kl' dss → d ∈ dss → ds_of o d key → key ∈ rs →
      signs now o ELPIS_T_DNSKEY kl rs sig key → vouched o ELPIS_T_DNSKEY kl rs
  | vouched_signed o t kl rs z kl' ks key sig now : vouched z ELPIS_T_DNSKEY kl' ks → key ∈ ks →
      signs now o t kl rs sig key → vouched o t kl rs.

Lemma signs_fold now o t kl rs sig key : signs now o t kl rs sig key → signs now (fold_labels o) t kl rs sig key.
Proof.
  intros (H1 & H2 & (signer & rest & nm & cs & Hf & Hn & H3)). split; [done|]. split; [done|].
  exists signer, rest, nm, cs. by rewrite signed_labels_fold.
Qed.

Lemma ds_of_fold o d key : ds_of o d key → ds_of (fold_labels o) d key.
Proof. unfold ds_of, ds_record. by rewrite fold_labels_idem. Qed.

Lemma ta_at_fold o ta : labels_ok o → wf_name (ta_name ta) → ta_at o ta = true → ta_at (fold_labels o) ta = true.
Proof.
  intros Ho (tl & Htl & E). unfold ta_at. rewrite E, !name_eq_spec by (done || by apply labels_ok_fold).
  intros Hb%bool_decide_eq_true. apply bool_decide_eq_true. unfold labels_eq in *. by rewrite fold_labels_idem.
Qed.

(** What a set holds, and that a set with the stamp SECURE is vouched for. *)
Definition good_set (b : elpis_rrset_buf_t) (o : list (list Z)) (rs sgs : list (list Z)) : Prop :=
  labels_ok o ∧ rs_name b = name_of o ∧ rs_klass b = ELPIS_CLASS_IN ∧ rrset_holds b rs sgs ∧
  (rs_sec b = ELPIS_SEC_SECURE → vouched (fold_labels o) (rs_type b) ELPIS_CLASS_IN rs).
Definition good (b : elpis_rrset_buf_t) : Prop := ∃ o rs sgs, good_set b o rs sgs ∧ packed b rs sgs.
End Chain.

(** ** The interface of the caches *)

(** What the validator relies on: a cache gives back sets it was given, under
    the name asked for, and never the stamp SECURE to anything else. [vs_ok P]:
    all that is stamped SECURE satisfies [P]. *)
Class ValStoreLaws (St : Type) `{ValStore St} := {
  vs_ok : (list (list Z) → Z → Z → list (list Z) → Prop) → St → Prop;
  vs_get_ok P s o type now stale out : vs_ok P s → labels_ok o → rrset_sized out →
    ∃ rc out' s', vs_get s (name_of o) type now stale out = Ok (rc, out', s') ∧ vs_ok P s' ∧ rrset_sized out' ∧
      (rc = ELPIS_OK → rs_name out' = name_of o ∧ rs_type out' = type ∧ rs_klass out' = ELPIS_CLASS_IN ∧ ∃ rs sgs, rrset_holds out' rs sgs ∧ packed out' rs sgs ∧
         (rs_sec out' = ELPIS_SEC_SECURE → P (fold_labels o) type ELPIS_CLASS_IN rs));
  vs_put_ok P s clock b stale o rs sgs : vs_ok P s → labels_ok o → rs_name b = name_of o → rrset_holds b rs sgs →
    (rs_sec b = ELPIS_SEC_SECURE → P (fold_labels o) (rs_type b) (rs_klass b) rs) →
    ∃ s', vs_put s clock b stale = Ok s' ∧ vs_ok P s';
  vs_state_ok P s o type now : vs_ok P s → labels_ok o → ∃ r s', vs_state s (name_of o) type now = Ok (r, s') ∧ vs_ok P s';
  vs_del_ok P s o type : vs_ok P s → labels_ok o → ∃ s', vs_del s (name_of o) type = Ok s' ∧ vs_ok P s';
  vd_get_ok P s o now : vs_ok P s → labels_ok o → ∃ d s', vd_get s (name_of o) now = Ok (d, s') ∧ vs_ok P s' ∧ (∀ x, d = Some x → deleg_ok x o);
  vd_put_ok P s now d o : vs_ok P s → deleg_ok d o → ∃ s', vd_put s now d = Ok s' ∧ vs_ok P s';
  vd_state_ok P s o now : vs_ok P s → labels_ok o → ∃ r s', vd_state s (name_of o) now = Ok (r, s') ∧ vs_ok P s' }.

(** ** What every operation keeps *)

(** The walk, and how far it has got; the parts of the task that are read only. *)
Definition vwalk (v : val_t) :=
  (v_stage v, v_signers v, v_si v, v_anchor v, v_cur v, v_walk v, v_keyed v, v_kept v, v_pq_only v, v_status v, v_keys v).
Definition vprog (v : val_t) := (v_waiting v, v_steps v).
Definition tstat (t : vtask) :=
  (k_id t, k_ans t, k_qname t, k_qtype t, k_qclass t, k_rcode t, k_from_cache t, k_ecs_local t, k_deleg t).

Section Inv.
Context `{SP : SigPrims} {St : Type} `{VS : ValStore St} `{VL : !ValStoreLaws St}.
Context (c : vconf) (mem : bool) (tas : list elpis_ta_t) (now mono : Z).
Context (one_buf ds_buf den_buf : elpis_rrset_buf_t) (can_child : list vchild → elpis_name_t → Z → bool).
Context (live : gset Z) (rest : list Z) (T : vtask) (R : list trec) (qn : list (list Z)) (C : counters).
Abbreviation conf := (vc_sec c).
Abbreviation P := (vouched conf tas).

(** What the answer, the configuration and the scratch buffers are taken to be. *)
Record setting : Prop := {
  st_ans : holds (k_ans T) R;
  st_recs : recs_ok R;
  st_stamps : Forall (fun r => 0 <= r_zone_labels r) R;
  st_qname : k_qname T = name_of qn ∧ labels_ok qn ∧ 0 <= k_qtype T < 2 ^ 16;
  st_deleg : ∀ d, k_deleg T = Some d → wf_name d;
  st_id : k_id T ∈ live;
  st_dates : ∀ sig, dates_defined conf now sig;
  st_tas : Forall (fun ta => wf_name (ta_name ta) ∧ byte (ta_alg ta) ∧ byte (ta_digest_type ta) ∧ bytes (ta_digest ta)) tas;
  st_routes : Forall wf_name (vc_routes c);
  st_bufs : rrset_sized one_buf ∧ rrset_sized ds_buf ∧ rrset_sized den_buf }.
Context (HS : setting).

Record base (s : vst St) : Prop := {
  b_store : vs_ok P (w_store (s_w s));
  b_flight : flight_ok live (w_flight (s_w s));
  b_ledger : ledger (w_heap (s_w s)) (v_kept (s_v s) ++ rest);
  b_heap : ∀ k e, w_heap (s_w s) !! k = Some e → good conf tas (kp_set e);
  b_spent : ∃ n, spends n C (w_cnt (s_w s));
  b_rrbuf : rrset_sized (w_rrbuf (s_w s));
  b_failed : zlen (v_failed (s_v s)) = VAL_FAILED;
  b_status : zlen (v_status (s_v s)) = VAL_MAX_SETS;
  b_keys : rrset_sized (v_keys (s_v s));
  b_task : tstat (s_t s) = tstat T }.

(** The operation changes nothing of the walk. *)
Definition still (s s' : vst St) : Prop := vwalk (s_v s') = vwalk (s_v s) ∧ vprog (s_v s') = vprog (s_v s).

Lemma still_refl s : still s s.
Proof. done. Qed.
Lemma still_trans a b d : still a b → still b d → still a d.
Proof. unfold still. intros [-> ->] [-> ->]. done. Qed.

Lemma tas_wf : Forall (fun ta => wf_name (ta_name ta)) tas.
Proof using HS. eapply Forall_impl; [apply (st_tas HS)|]. by intros ta (? & _). Qed.

Lemma base_store s x : base s → vs_ok P x → base (mkVst (mkVw x (w_flight (s_w s)) (w_heap (s_w s)) (w_sent (s_w s)) (w_cnt (s_w s)) (w_rrbuf (s_w s))) (s_t s) (s_v s)).
Proof. intros [] Hx. by split. Qed.
Lemma base_rrbuf s x : base s → rrset_sized x → base (mkVst (mkVw (w_store (s_w s)) (w_flight (s_w s)) (w_heap (s_w s)) (w_sent (s_w s)) (w_cnt (s_w s)) x) (s_t s) (s_v s)).
Proof. intros [] Hx. by split. Qed.

(** *** Material *)

Lemma fail_slot_spec s n type : base s → wf_name n →
  wp (fail_slot (St := St) n type) (fun i s' => base s' ∧ still s s' ∧ 0 <= i < VAL_FAILED) s.
Proof.
  intros Hb Hn. unfold fail_slot. destruct (inflight_hash_spec n type Hn) as (key & Ek & _). wps. wp_call Ek. wps.
  pose proof (b_failed _ Hb) as Hf. destruct (index_of (fun f => fl_key f =? key) (v_failed (s_v s)) 0) as [i|] eqn:Ei.
  { wps. apply index_of_range in Ei. split; [done|]. split; [done|lia]. }
  destruct (rd_in_range (v_failed (s_v s)) 0) as (f0 & E0 & _); [unfold VAL_FAILED in *; lia|]. wps. wp_call E0. wps.
  set (i := match index_of _ _ _ with Some i => i | None => _ end). assert (0 <= i < VAL_FAILED) as Hi.
  { unfold i. destruct (index_of (fun f => fl_key f =? 0) (v_failed (s_v s)) 0) as [j|] eqn:Ej; [apply index_of_range in Ej; lia|].
    destruct (v_failed (s_v s)) as [|f fs] eqn:Ef; [done|]. cbn [tail]. rewrite zlen_cons in Hf.
    pose proof (weakest_range fs 1 0 (fl_tries f0) ltac:(lia)). lia. }
  wp_call (wr_in_range (v_failed (s_v s)) i (mkFail key 0) ltac:(lia)). wps. split; [|split; [done|done]].
  destruct Hb. split; try done. cbn. unfold zlen in *. by rewrite length_insert.
Qed.

Lemma set_slot_tries_spec s i x : base s → 0 <= i < VAL_FAILED → wp (set_slot_tries (St := St) i x) (fun _ s' => base s' ∧ still s s') s.
Proof.
  intros Hb Hi. unfold set_slot_tries. pose proof (b_failed _ Hb) as Hf. wps.
  destruct (rd_in_range (v_failed (s_v s)) i) as (f & Ef & _); [lia|]. wp_call Ef. wps.
  wp_call (wr_in_range (v_failed (s_v s)) i (mkFail (fl_key f) x) ltac:(lia)). wps. split; [|done].
  destruct Hb. split; try done. cbn. unfold zlen in *. by rewrite length_insert.
Qed.

(** A set found under a name: its owner, its type, what it holds and what its stamp says. *)
Definition found (n : list (list Z)) (type : Z) (b : elpis_rrset_buf_t) : Prop :=
  rs_name b = name_of n ∧ rs_type b = type ∧ rs_klass b = ELPIS_CLASS_IN ∧ ∃ rs sgs, rrset_holds b rs sgs ∧ packed b rs sgs ∧
    (rs_sec b = ELPIS_SEC_SECURE → P (fold_labels n) type ELPIS_CLASS_IN rs).

Lemma found_sized n type b : found n type b → rrset_sized b.
Proof. intros (_ & _ & _ & rs & sgs & Hh & _). by eapply rrset_holds_sized. Qed.

Lemma found_init n type out : rrset_sized out → found n type (elpis_rrset_buf_init out (name_of n) type ELPIS_CLASS_IN 0).
Proof.
  intros Hs. split; [done|]. split; [done|]. split; [done|]. exists [], []. split; [by apply rrset_init_holds|]. split; [|done]. reflexivity.
Qed.

Lemma cached_kept_spec hp refs n type : ledger hp refs → (∀ k e, hp !! k = Some e → good conf tas (kp_set e)) → labels_ok n →
  ∀ kept out, (∀ k, k ∈ kept → k ∈ refs) → rrset_sized out →
  ∃ b out', cached_kept hp (name_of n) type kept out = Ok (b, out') ∧ rrset_sized out' ∧ (b = true → found n type out').
Proof.
  intros Hl Hg Hn. induction kept as [|k kept IH]; intros out Hin Ho; cbn [cached_kept]; [by exists false, out|].
  destruct (lg_out _ _ Hl k (Hin k ltac:(by left))) as (e & He). unfold kept_at. rewrite He. bind_ok.
  destruct (Hg k e He) as (o & rs & sgs & (Hok & En & Ek & Hh & Hsec) & Hp).
  destruct (Z.eqb_spec (rs_type (kp_set e)) type) as [Et|]; cbn [negb]; [|apply IH; [intros; apply Hin; by right|done]].
  rewrite En, name_eq_spec by done. bind_ok. destruct (bool_decide_reflect (labels_eq o n)) as [El|]; cbn [negb]; [|apply IH; [intros; apply Hin; by right|done]].
  destruct (rrset_copy_spec out (kp_set e) rs sgs Ho Hh) as (b & Eb & Hb & _ & Etb & Ekb & _ & _ & Esb & _); [by exists o; rewrite En|].
  rewrite Eb. bind_ok. exists true, (set_name b (name_of n)). split; [done|]. split; [eapply rrset_holds_sized, set_name_holds, Hb|]. intros _.
  split; [done|]. split; [cbn; congruence|]. split; [cbn; congruence|]. exists rs, sgs. split; [by apply set_name_holds|]. split; [exact (copy_packed _ _ _ _ _ Eb Ho Hh Hp)|].
  cbn. rewrite Esb, <- Et. unfold labels_eq in El. rewrite <- El. done.
Qed.

Lemma val_cached_spec s n type out : base s → labels_ok n → rrset_sized out →
  wp (val_cached c now mono (name_of n) type out) (fun r s' => base s' ∧ still s s' ∧ rrset_sized (snd r) ∧ (fst r = true → found n type (snd r))) s.
Proof using HS.
  intros Hb Hn Ho. unfold val_cached. wps.
  destruct (vs_get_ok P (w_store (s_w s)) n type mono (vc_serve_stale c) out (b_store _ Hb) Hn Ho) as (rc & out' & st' & Eg & Hst & Hsz & Hok).
  wp_call Eg. wps. pose proof (base_store s st' Hb Hst) as Hb'. set (s1 := mkVst _ _ _) in *.
  assert (wp (lift (cached_kept (w_heap (s_w s)) (name_of n) type (v_kept (s_v s)) out'))
    (fun r s' => base s' ∧ still s s' ∧ rrset_sized (snd r) ∧ (fst r = true → found n type (snd r))) s1) as Hkept.
  { destruct (cached_kept_spec (w_heap (s_w s)) (v_kept (s_v s) ++ rest) n type (b_ledger _ Hb) (b_heap _ Hb) Hn (v_kept (s_v s)) out') as (b & o2 & E & Hck);
      [intros k Hk; apply elem_of_app; by left|done|]. wp_call E. split; [done|]. split; [done|exact Hck]. }
  destruct (decide (rc = ELPIS_OK)) as [->|].
  - destruct (Hok eq_refl) as (En & Et & Ek & rs & sgs & Hh & Hp & Hsec). assert (found n type out') as Hf by (split; [done|]; split; [done|]; split; [done|]; by exists rs, sgs).
    destruct (rs_ttl out' =? 0).
    + wps. destruct (sigs_lapsed_total conf out' rs sgs now Hh (st_dates HS)) as (x & Ex). wp_call Ex. wps. destruct x; cbn [negb]; [exact Hkept|].
      wps. by split.
    + wps. by split.
  - wps. exact Hkept.
Qed.

Lemma task_child_spec s n type slot : base s → wp (task_child can_child n type slot) (fun _ s' => base s' ∧ still s s') s.
Proof. intros Hb. unfold task_child. wps. destruct (can_child _ n type); wps; [|done]. split; [|done]. destruct Hb. by split. Qed.

(** What asking leads to: the look-up is waited on, or known not to be had. *)
Definition asked (s : vst St) (n : list (list Z)) (type : Z) (r : bool * elpis_rrset_buf_t) (s' : vst St) : Prop :=
  base s' ∧ vwalk (s_v s') = vwalk (s_v s) ∧ v_steps (s_v s') = v_steps (s_v s) ∧ rrset_sized (snd r) ∧
  (fst r = true → v_waiting (s_v s') = false ∧ found n type (snd r)) ∧ (fst r = false → v_waiting (s_v s') = v_waiting (s_v s)).

Lemma val_alone_spec s n type out : base s → labels_ok n → rrset_sized out →
  wp (val_alone can_child (name_of n) type out) (asked s n type) s.
Proof.
  intros Hb Hn Ho. unfold val_alone. wps. eapply wp_mono; [by apply task_child_spec|]. intros ok s1 (Hb1 & Hw & Hp). injection Hp as Hp1 Hp2.
  destruct ok; wps.
  - split; [done|]. split; [done|]. split; [done|]. split; [done|]. split; [done|]. intros _. done.
  - split; [by destruct Hb1; split|]. split; [done|]. split; [done|]. split; [by apply (found_sized n type), found_init|].
    split; [|done]. intros _. split; [done|by apply found_init].
Qed.

Lemma flight_want_at s n type : base s → labels_ok n →
  ∃ p tab, flight_want (w_flight (s_w s)) (name_of n) type (k_id (s_t s)) = Ok (p, tab) ∧ flight_ok live tab ∧ ∀ i, p = Slot i → 0 <= i < VAL_INFLIGHT.
Proof using HS.
  intros Hb Hn. apply flight_want_spec; [apply Hb|by exists n|]. pose proof (b_task _ Hb) as Ht. injection Ht as -> _. apply (st_id HS).
Qed.

Lemma val_launch_spec s n type out : base s → labels_ok n → rrset_sized out →
  wp (val_launch can_child (name_of n) type out) (asked s n type) s.
Proof using HS.
  intros Hb Hn Ho. unfold val_launch. wps. destruct (flight_want_at s n type Hb Hn) as (p & tab & E & Htab & Hp). wp_call E. wps.
  set (s1 := mkVst _ _ _). assert (base s1) as Hb1 by (destruct Hb; by split). destruct p as [|i|].
  - wps. split; [by destruct Hb1; split|]. split; [done|]. split; [done|]. split; [done|]. split; done.
  - wps. eapply wp_mono; [by apply task_child_spec|]. intros ok s2 (Hb2 & Hw & Hpr). injection Hpr as Hp1 Hp2. destruct ok; wps.
    { split; [done|]. split; [done|]. split; [done|]. split; [done|]. split; [done|]. intros _. done. }
    destruct (flight_retire_spec live (w_flight (s_w s2)) i (b_flight _ Hb2) (Hp i eq_refl)) as (tab' & Et & Htab'). wp_call Et. wps.
    eapply wp_mono; [apply (val_alone_spec _ n type out); [destruct Hb2; by split|done|done]|].
    intros r s3 (Hb3 & Hw3 & Hs3 & Hz & H1 & H2). cbn [s_v] in *. split; [done|]. split; [by rewrite Hw3, Hw|]. split; [by rewrite Hs3, Hp2|]. split; [done|].
    split; [done|]. intros Hr. rewrite (H2 Hr). exact Hp1.
  - eapply wp_mono; [by apply (val_alone_spec s1 n type out)|]. intros r s3 Hr. exact Hr.
Qed.

(** A set in hand: of the type asked for, or, for a DS, what says that there is none. *)
Definition needed (n : list (list Z)) (type : Z) (b : elpis_rrset_buf_t) : Prop :=
  found n (rs_type b) b ∧ (rs_type b = type ∨ type = ELPIS_T_DS ∧ (has_flag b ELPIS_RRF_NXDOMAIN = true ∨ rs_type b = ELPIS_T_CNAME ∧ 0 < rs_count b)).

Lemma val_need_spec s n type out : base s → labels_ok n → rrset_sized out → v_waiting (s_v s) = false → 0 <= v_steps (s_v s) < 2 ^ 32 - 1 →
  wp (val_need c now mono can_child (name_of n) type out) (fun r s' => base s' ∧ vwalk (s_v s') = vwalk (s_v s) ∧ rrset_sized (snd r) ∧
    v_steps (s_v s) <= v_steps (s_v s') <= v_steps (s_v s) + 1 ∧
    (fst r = true → v_waiting (s_v s') = false ∧ needed n type (snd r)) ∧
    (fst r = false → v_waiting (s_v s') = true ∧ v_steps (s_v s') = v_steps (s_v s) + 1)) s.
Proof using HS.
  intros Hb Hn Ho Hwait Hsteps. unfold val_need. wps. eapply wp_mono; [apply fail_slot_spec; [done|by exists n]|]. intros slot s1 (Hb1 & [Hw1 Hp1] & Hslot).
  wps. eapply wp_mono; [by apply val_cached_spec|]. intros [hit out1] s2 (Hb2 & [Hw2 Hp2] & Hz2 & Hf2). cbn [fst snd] in *. wps.
  apply wp_mono with (Q := fun r s' => base s' ∧ still s s' ∧ rrset_sized (snd r) ∧ (fst r = true → needed n type (snd r))).
  { assert (still s s2) as Hst by (split; congruence). destruct hit.
    { wps. split; [done|]. split; [done|]. split; [done|]. intros _. cbn. specialize (Hf2 eq_refl). pose proof Hf2 as (_ & Et & _).
      split; [by rewrite Et|by left]. }
    destruct (Z.eqb_spec type ELPIS_T_DS) as [->|]; [|wps; split; [done|]; split; [done|]; split; [done|]; done].
    wps. eapply wp_mono; [by apply val_cached_spec|]. intros [h out2] s3 (Hb3 & [Hw3 Hp3] & Hz3 & Hf3). cbn [fst snd] in *.
    assert (still s s3) as Hst3 by (destruct Hst; split; congruence).
    destruct (h && has_flag out2 ELPIS_RRF_NXDOMAIN) eqn:Eh.
    { apply andb_true_iff in Eh as [-> Efl]. wps. split; [done|]. split; [done|]. split; [done|]. intros _. cbn. specialize (Hf3 eq_refl). pose proof Hf3 as (_ & Et & _).
      split; [by rewrite Et|]. right. split; [done|by left]. }
    wps. eapply wp_mono; [by apply val_cached_spec|]. intros [h4 out4] s4 (Hb4 & [Hw4 Hp4] & Hz4 & Hf4). cbn [fst snd] in *. wps.
    split; [done|]. split; [destruct Hst3; split; congruence|]. split; [done|]. intros [-> Hc%Z.ltb_lt]%andb_true_iff. specialize (Hf4 eq_refl). pose proof Hf4 as (_ & Et & _).
    cbn [fst snd]. split; [by rewrite Et|]. right. split; [done|]. right. by rewrite Et. }
  clear Hf2 Hz2. intros [hit' out5] s5 (Hb5 & [Hw5 Hp5] & Hz5 & Hf5). cbn [fst snd] in *. injection Hp5 as Hp5w Hp5s. destruct hit'.
  - wps. eapply wp_mono; [by apply set_slot_tries_spec|]. intros [] s6 (Hb6 & [Hw6 Hp6]). injection Hp6 as Hp6w Hp6s. wps. cbn [fst snd].
    split; [by destruct Hb6; split|]. split; [cbn; by rewrite <- Hw5, <- Hw6|]. split; [done|]. cbn [with_tries v_steps v_waiting s_v]. split; [lia|].
    split; [|done]. intros _. split; [congruence|by apply Hf5].
  - wps. destruct (rd_in_range (v_failed (s_v s5)) slot) as (f & Ef & _); [pose proof (b_failed _ Hb5); lia|]. wp_call Ef.
    destruct (VAL_FAIL_TRIES <=? fl_tries f).
    + wps. cbn [fst snd]. split; [done|]. split; [done|]. pose proof (found_init n type out5 Hz5) as Hi. split; [by apply (found_sized _ _ _ Hi)|]. split; [lia|].
      split; [|done]. intros _. split; [congruence|]. split; [exact Hi|by left].
    + wps. eapply wp_mono; [by apply set_slot_tries_spec|]. intros [] s6 (Hb6 & [Hw6 Hp6]). injection Hp6 as Hp6w Hp6s. wps.
      set (s7 := mkVst _ _ _). assert (base s7) as Hb7 by (destruct Hb6; by split).
      eapply wp_mono; [by apply (val_launch_spec s7 n type out5)|]. intros [h out6] s8 (Hb8 & Hw8 & Hs8 & Hz8 & H1 & H2). cbn [fst snd] in *.
      assert (v_steps (s_v s7) = v_steps (s_v s) + 1) as Es7.
      { cbn. rewrite u32_id by lia. lia. }
      split; [done|]. split; [rewrite Hw8; cbn; by rewrite <- Hw5, <- Hw6|]. split; [done|]. split; [lia|]. split.
      * intros ->. destruct (H1 eq_refl) as [? Hf]. split; [done|]. pose proof Hf as (_ & Et & _). split; [by rewrite Et|by left].
      * intros ->. split; [by rewrite H2|lia].
Qed.

(** *** Verdicts *)

Lemma base_ans s : base s → k_ans (s_t s) = k_ans T.
Proof using. intros Hb. pose proof (b_task _ Hb) as E. by injection E. Qed.

Lemma ans_entry i r : R !! i = Some r → ∃ e, rd (l_rr (k_ans T)) (Z.of_nat i) = Ok e ∧ stands_for (l_pool (k_ans T)) e r.
Proof using HS. intros Hr. by apply (trr_entry _ R (st_ans HS)). Qed.

Lemma put_verdict_spec s i set o rs sgs : base s → (i < length R)%nat → labels_ok o → rs_name set = name_of o → rrset_holds set rs sgs →
  (rs_sec set = ELPIS_SEC_SECURE → P (fold_labels o) (rs_type set) (rs_klass set) rs) →
  wp (put_verdict c mono (Z.of_nat i) set) (fun _ s' => base s' ∧ s_v s' = s_v s) s.
Proof using HS.
  intros Hb Hi Ho En Hh Hsec. unfold put_verdict. wps. rewrite base_ans by done. destruct (lookup_lt_is_Some_2 R i Hi) as [r Hr].
  destruct (ans_entry i r Hr) as (e & Ee & _). wp_call Ee. destruct (negb _); [by wps|]. wps. set (set' := if k_ecs_local _ then _ else set).
  assert (rs_name set' = rs_name set ∧ rs_type set' = rs_type set ∧ rs_klass set' = rs_klass set ∧ rs_sec set' = rs_sec set) as (E1 & E2 & E3 & E4)
    by (unfold set'; by destruct (k_ecs_local _)).
  destruct (vs_put_ok P (w_store (s_w s)) mono set' (vc_serve_stale c) o rs sgs (b_store _ Hb) Ho) as (st & Es & Hst); [congruence| |by rewrite E2, E3, E4|].
  - unfold set'. destruct (k_ecs_local _); [by apply set_flags_holds|done].
  - wp_call Es. wps. split; [by apply base_store|done].
Qed.

Lemma stamp_kept_spec n type set refs : labels_ok n → found n type set → ∀ kept hp, (∀ k, k ∈ kept → k ∈ refs) →
  ledger hp refs → (∀ k e, hp !! k = Some e → good conf tas (kp_set e)) →
  ∃ hp', stamp_kept hp set kept = Ok hp' ∧ ledger hp' refs ∧ (∀ k e, hp' !! k = Some e → good conf tas (kp_set e)).
Proof.
  intros Hn (En & Et & Ek & rs & sgs & Hh & Hp & Hsec). induction kept as [|k kept IH]; intros hp Hin Hl Hg; cbn [stamp_kept]; [by exists hp|].
  destruct (lg_out _ _ Hl k (Hin k ltac:(by left))) as (e & He). unfold kept_at. rewrite He. bind_ok.
  destruct (Hg k e He) as (o & rs' & sgs' & (Ho & En' & Ek' & Hh' & Hsec') & Hp').
  destruct (same_material_spec (kp_set e) set rs' sgs' rs sgs o n) as (b & Eb & Hb); [done..|]. rewrite Eb. bind_ok.
  destruct b; [|apply IH; [intros; apply Hin; by right|done..]]. destruct (Hb eq_refl) as (Et' & -> & -> & El).
  apply IH; [intros; apply Hin; by right| |].
  - apply ledger_set; [done..|]. exists o. by split.
  - intros j f. destruct (decide (j = k)) as [->|]; [|rewrite lookup_insert_ne by done; apply Hg]. rewrite lookup_insert_eq. intros [= <-].
    exists o, rs, sgs. split; [|exact Hp']. split; [done|]. split; [done|]. split; [done|]. split; [by apply set_sec_holds|]. cbn. intros Hx.
    unfold labels_eq in El. rewrite El, Et', Et. by apply Hsec.
Qed.

Lemma put_material_spec s n type set : base s → labels_ok n → found n type set →
  wp (put_material c mono set) (fun _ s' => base s' ∧ s_v s' = s_v s) s.
Proof using HS.
  intros Hb Hn Hf. unfold put_material. wps. pose proof Hf as (En & Et & Ek & rs & sgs & Hh & Hp & Hsec).
  destruct (vs_put_ok P (w_store (s_w s)) mono set (vc_serve_stale c) n rs sgs (b_store _ Hb) Hn En Hh) as (st & Es & Hst); [by rewrite Et, Ek|].
  wp_call Es. wps. destruct (stamp_kept_spec n type set (v_kept (s_v s) ++ rest) Hn Hf (v_kept (s_v s)) (w_heap (s_w s))) as (hp & Ehp & Hl & Hg).
  { intros k Hk. apply elem_of_app. by left. } { apply Hb. } { apply Hb. }
  wp_call Ehp. wps. split; [|done]. destruct Hb. by split.
Qed.

Lemma base_cnt s x n : base s → spends n (w_cnt (s_w s)) x →
  base (mkVst (mkVw (w_store (s_w s)) (w_flight (s_w s)) (w_heap (s_w s)) (w_sent (s_w s)) x (w_rrbuf (s_w s))) (s_t s) (s_v s)).
Proof using.
  intros [] Hx. split; try done. cbn. destruct b_spent0 as (m & Hm). exists (m + n)%nat. by eapply spends_trans.
Qed.

Lemma validate_spec s set keys ede o rs sgs ks kgs : base s → labels_ok o → rs_name set = name_of o → rrset_holds set rs sgs → rrset_holds keys ks kgs →
  wp (validate (St := St) c mem now set keys ede) (fun r s' => base s' ∧ s_v s' = s_v s ∧
    (fst r = ELPIS_OK → rs ≠ [] ∧ ∃ sig key, sig ∈ sgs ∧ key ∈ ks ∧ signs conf now o (rs_type set) (rs_klass set) rs sig key)) s.
Proof using HS.
  intros Hb Ho En Hh Hk. unfold validate. wps.
  destruct (rrset_validate_spec conf mem set o rs now Ho En keys ks kgs Hk sgs Hh) with (wild := @None elpis_name_t) (ede := ede) (s := w_cnt (s_w s))
    as (rc & wild' & ede' & cnt' & n & E & Hsp & _ & _ & _ & Hok & _).
  { intros sig _ _. apply (st_dates HS). }
  wp_call E. wps. split; [by eapply base_cnt|]. split; [done|]. intros Hrc. destruct (Hok Hrc) as (Hne & sig & key & Hs & Hky & (Ha & Hd & Hg) & _).
  split; [done|]. exists sig, key. split; [done|]. split; [done|]. by split.
Qed.

Lemma note_unsigned_zone_spec s n type proof : base s → labels_ok n → found n type proof →
  wp (note_unsigned_zone c mono (name_of n) proof) (fun _ s' => base s' ∧ s_v s' = s_v s) s.
Proof using HS.
  intros Hb Hn Hf. unfold note_unsigned_zone. wps. apply wp_mono with (Q := fun _ s' => base s' ∧ s_v s' = s_v s).
  { destruct (negb _); [|by wps]. apply (put_material_spec s n type); [done..|]. destruct Hf as (En & Et & Ek & rs & sgs & Hh & Hp & Hsec).
    split; [done|]. split; [done|]. split; [done|]. exists rs, sgs. split; [by apply set_sec_holds|]. split; [exact Hp|]. done. }
  intros [] s1 [Hb1 Hv1]. wps. destruct (vd_get_ok P (w_store (s_w s1)) n mono (b_store _ Hb1) Hn) as (d & st & Ed & Hst & Hdok). wp_call Ed. wps.
  pose proof (base_store s1 st Hb1 Hst) as Hb2. destruct d as [d|]; [|by wps]. destruct (_ =? _); [by wps|]. wps. cbn [w_store s_w] in *.
  destruct (vd_put_ok P st mono (with_ds_state d ELPIS_DS_ABSENT) n Hst (Hdok d eq_refl)) as (st' & Es & Hst'). wp_call Es. wps. split; [|done]. by apply (base_store _ st' Hb2).
Qed.

(** *** Denials *)

Lemma denial_loop_spec b rs sgs ks kgs : rrset_holds b rs sgs → ∀ k i proof a3 a s, (0 < i)%nat → (i + k <= length rs)%nat → base s →
  rrset_holds (v_keys (s_v s)) ks kgs → Forall wf_denial proof →
  wp (denial_loop c mem now den_buf b k (Z.of_nat i) proof a3 a) (fun r s' => base s' ∧ s_v s' = s_v s ∧ Forall wf_denial (fst (fst r))) s.
Proof using HS.
  intros Hh. induction k as [|k IH]; intros i proof a3 a s Hi0 Hi Hb Hk Hp; cbn [denial_loop]; [by wps|]. destruct (_ <=? _); [by wps|].
  replace (Z.of_nat i + 1) with (Z.of_nat (S i)) by lia. wps.
  destruct (denial_item_spec b rs sgs i (fun t => (t =? ELPIS_T_NSEC) || (t =? ELPIS_T_NSEC3)) Hh ltac:(lia)) as (o & Eo & Ho). wp_call Eo.
  destruct o as [[[ty owner] r]|]; [|apply IH; done || lia]. destruct (Ho ty owner r eq_refl) as ((ol & Hol & Eow) & Hbr & Hzr & _).
  assert (zlen r < 2 ^ 16) as Hz16 by (unfold ELPIS_RRSET_BUF in *; lia). wps.
  destruct (ignored_add_spec _ [] r (rrset_init_holds den_buf owner ty (rs_klass b) (rs_ttl b) (proj2 (proj2 (st_bufs HS)))) Hbr Hz16) as (set & Es & Hkd & _ & Hset & _).
  wp_call Es. wps. rewrite app_nil_l in Hset.
  destruct (denial_sigs_spec b rs sgs owner ty _ Hh ltac:(by exists ol) (Z.to_nat (rs_count b - 1)) 1%nat set [] ltac:(rewrite (rh_count _ _ _ Hh); zl) Hset) as (set' & gs & Eg & Hset' & Hkd').
  change (Z.of_nat 1) with 1 in Eg. wp_call Eg. destruct (_ =? 0); [apply IH; done || lia|]. wps.
  assert (rs_name set' = name_of ol) as En by (rewrite Hkd in Hkd'; by injection Hkd' as -> _).
  eapply wp_mono; [by apply (validate_spec s set' (v_keys (s_v s)) None ol _ _ _ _ Hb Hol En Hset' Hk)|]. intros [rc e] s1 (Hb1 & Hv1 & Hok). cbn [fst] in Hok.
  destruct (bool_decide_reflect (rc = ELPIS_OK)) as [Hrc|]; cbn [negb]; [|eapply wp_mono; [apply IH; [lia..|done|by rewrite Hv1|done]|by rewrite Hv1]].
  destruct (Hok Hrc) as [Hne _]. destruct (fit_one (ELPIS_RRSET_MAX_RR - zlen (@nil (list Z))) (ELPIS_RRSET_BUF - rs_used (elpis_rrset_buf_init den_buf owner ty (rs_klass b) (rs_ttl b))) r) as [(_ & _ & Ef)|(_ & Ef)]; rewrite Ef in *; [|done].
  destruct (rrset_data_rd set' [r] gs 0 r Hset' eq_refl) as [E1 E2]. change (Z.of_nat 0) with 0 in *. wps. wp_call E1.
  destruct (_ <? _); [eapply wp_mono; [apply IH; [lia..|done|by rewrite Hv1|done]|by rewrite Hv1]|]. wps. wp_call E2.
  eapply wp_mono; [apply IH; [lia..|done|by rewrite Hv1| ]|by rewrite Hv1].
  apply Forall_app. split; [done|]. constructor; [|done]. split; [by exists ol|]. split; [done|]. cbn. pose proof (zlen_nonneg r). lia.
Qed.

Lemma denial_proves_spec s n b rs sgs za ks kgs what : base s → labels_ok n → labels_ok za → rrset_holds b rs sgs → rrset_holds (v_keys (s_v s)) ks kgs →
  wp (denial_proves c mem now den_buf (name_of n) b (name_of za) what) (fun _ s' => base s' ∧ s_v s' = s_v s) s.
Proof using HS.
  intros Hb Hn Hz Hh Hk. unfold denial_proves. wps. rewrite (rh_count _ _ _ Hh).
  apply wp_mono with (Q := fun r s' => base s' ∧ s_v s' = s_v s ∧ Forall wf_denial (fst (fst r))).
  { destruct rs as [|r rs]; [change (Z.to_nat (zlen (@nil (list Z)) - 1)) with O; cbn [denial_loop]; by wps|]. apply (denial_loop_spec b (r :: rs) sgs ks kgs Hh _ 1%nat); [lia|zl|done..]. }
  intros [[proof a3] a] s1 (Hb1 & Hv1 & Hp). cbn [fst] in Hp. destruct (_ =? 0); [by wps|]. wps.
  wp_call (name_lower_spec n Hn). wps. wp_call (name_lower_spec za Hz). wps.
  pose proof (labels_ok_fold n Hn) as Hn'. pose proof (labels_ok_fold za Hz) as Hz'. destruct what.
  - destruct (nsec_insecure_spec [] proof (fold_labels n) Hp Hn') as (x & Ex & _). destruct (nsec3_insecure_spec proof (fold_labels za) Hp Hz' (fold_labels n) Hn') as (y & Ey & _).
    destruct (either_proof_spec a3 _ a _ _ _ Ey Ex) as (v & Ev & _). wp_call Ev. by wps.
  - destruct (nsec_nxdomain_spec proof (fold_labels n) Hp Hn') as (x & Ex & _). destruct (nsec3_nxdomain_spec proof (fold_labels za) Hp Hz' (fold_labels n) Hn') as (y & Ey & _).
    destruct (either_proof_spec a3 _ a _ _ _ Ey Ex) as (v & Ev & _). wp_call Ev. by wps.
Qed.

Lemma cut_loop_spec al : ∀ k ls s, labels_ok ls → base s → (length ls < k)%nat →
  wp (cut_loop mono k (name_of al) (name_of ls)) (fun _ s' => base s' ∧ s_v s' = s_v s) s.
Proof using.
  induction k as [|k IH]; intros ls s Hls Hb Hk; [lia|]. cbn [cut_loop n_labels name_of]. destruct (Z.ltb_spec (zlen al) (zlen ls)); [|by wps]. wps.
  destruct (vd_state_ok P (w_store (s_w s)) ls mono (b_store _ Hb) Hls) as (d & st & Ed & Hst). wp_call Ed. wps. pose proof (base_store s st Hb Hst) as Hb1.
  destruct (_ =? _); [by wps|]. wps. destruct (vs_state_ok P st ls ELPIS_T_DS mono Hst Hls) as (r & st' & Er & Hst'). wp_call Er. wps.
  pose proof (base_store _ st' Hb1 Hst') as Hb2. destruct (match r with Some _ => _ | None => false end); [by wps|]. wps.
  destruct ls as [|l ls]; [pose proof (zlen_nonneg al); rewrite (@zlen_nil (list Z)) in *; lia|]. rewrite name_parent_spec by done.
  eapply wp_lift; [done|]. cbv beta iota. eapply wp_mono; [apply (IH ls); [by apply labels_ok_cons in Hls as [_ Hls]|exact Hb2|cbn in Hk; lia]|]. done.
Qed.

Lemma below_unsigned_cut_spec s n : base s → labels_ok n → wp (below_unsigned_cut tas mono (name_of n)) (fun _ s' => base s' ∧ s_v s' = s_v s) s.
Proof using HS.
  intros Hb Hn. unfold below_unsigned_cut. wps. destruct (ta_closest_spec tas n tas_wf Hn) as (o & Eo & Ho). wp_call Eo.
  destruct o as [a|]; [|by wps]. destruct (Ho a eq_refl) as (al & _ & -> & _). apply cut_loop_spec; [done..|].
  pose proof (zlen_labels_of_ok n Hn). unfold ELPIS_MAX_LABELS. zl.
Qed.

(** *** The RRsets of the answer *)

(** The RRset of [r] is signed by a key the chain of trust leads to, of the zone
    its first signature names. *)
Definition secure (r : trec) : Prop :=
  ∃ z kl ks key sig t, signer_is R r (Some z) ∧ P z ELPIS_T_DNSKEY kl ks ∧ key ∈ ks ∧ sig ∈ group_sigs R r ∧
    signs conf t (r_name r) (r_type r) (r_klass r) (group_data R r) sig key.

(** What is known of the walk besides [base]: the names are names, and a set is
    called secure only when it is. *)
Record inv (s : vst St) : Prop := {
  i_base : base s;
  i_signers : Forall (fun g => wf_name (sg_name g)) (v_signers (s_v s));
  i_status : ∀ i r, R !! i = Some r → v_status (s_v s) !! i = Some SS_SECURE → secure r }.

(** The parts of the walk that the loops over the sets leave alone. *)
Definition vfix (v : val_t) := (v_stage v, v_si v, v_cur v, v_walk v, v_keyed v, v_waiting v, v_steps v, v_keys v).
Definition vsame (v v' : val_t) : Prop := vfix v' = vfix v ∧ v_signers v' = v_signers v ∧ v_status v' = v_status v.

Lemma inv_same s s' : inv s → base s' → s_v s' = s_v s → inv s'.
Proof using. intros [] Hb E. split; [done|by rewrite E|by rewrite E]. Qed.

(** The records that have a verdict. *)
Definition nsets : nat := Nat.min (length R) (Z.to_nat VAL_MAX_SETS).

Lemma sets_of_spec s : base s → sets_of (s_t s) = nsets.
Proof using HS. intros Hb. unfold sets_of, nsets. by rewrite (base_ans _ Hb), (trr_length _ _ (st_ans HS)). Qed.

Lemma judged_spec s i r : base s → R !! i = Some r →
  wp (judged (Z.of_nat i)) (fun b s' => s' = s ∧ b = bool_decide (must_sign r ∧ leads R i)) s.
Proof using HS.
  intros Hb Hr. unfold judged. wps. rewrite (base_ans _ Hb). destruct (ans_entry i r Hr) as (e & Ee & He). wp_call Ee.
  rewrite (must_be_signed_spec _ _ _ He). destruct (bool_decide_reflect (must_sign r)); wps; [|split; [done|]; by rewrite bool_decide_eq_false_2 by tauto].
  wp_call (set_leader_spec _ _ (st_ans HS) i r Hr). split; [done|]. apply bool_decide_ext. tauto.
Qed.

Lemma status_at s i : base s → (i < nsets)%nat → ∃ x, rd (v_status (s_v s)) (Z.of_nat i) = Ok x ∧ v_status (s_v s) !! i = Some x.
Proof using.
  intros Hb Hi. pose proof (b_status _ Hb). unfold nsets, VAL_MAX_SETS in *. destruct (rd_in_range (v_status (s_v s)) (Z.of_nat i)) as (x & E & Hx); [lia|].
  exists x. split; [done|]. by rewrite Nat2Z.id in Hx.
Qed.

Lemma set_status_spec s i r x : inv s → (i < nsets)%nat → R !! i = Some r → (x = SS_SECURE → secure r) →
  wp (set_status (St := St) (Z.of_nat i) x) (fun _ s' => inv s' ∧ vfix (s_v s') = vfix (s_v s) ∧ v_signers (s_v s') = v_signers (s_v s) ∧
    v_status (s_v s') = <[i := x]> (v_status (s_v s))) s.
Proof using.
  intros [Hb Hs Ht] Hi Hr Hx. unfold set_status. wps. pose proof (b_status _ Hb) as Hz. unfold nsets, VAL_MAX_SETS in *.
  wp_call (wr_in_range (v_status (s_v s)) (Z.of_nat i) x ltac:(lia)). wps. rewrite Nat2Z.id. split; [|done]. split; [|done|].
  - destruct Hb. split; try done. cbn. by rewrite zlen_insert.
  - intros j rj Hj. cbn. destruct (decide (j = i)) as [->|Hne]; [|rewrite list_lookup_insert_ne by done; by apply Ht].
    rewrite list_lookup_insert_eq by zl. rewrite Hr in Hj. injection Hj as <-. intros [= ->]. by apply Hx.
Qed.

Lemma build_set_at s i r : base s → R !! i = Some r →
  ∃ b', build_set (k_ans (s_t s)) (Z.of_nat i) (w_rrbuf (s_w s)) = Ok (bool_decide (group_data R r ≠ []), b') ∧ built R r b'.
Proof using HS. intros Hb Hr. rewrite (base_ans _ Hb). apply (build_set_spec _ R (st_ans HS) (st_recs HS)); [done|apply Hb]. Qed.

Lemma nsets_lt i : (i < nsets)%nat → (i < length R)%nat.
Proof using. unfold nsets. lia. Qed.

Lemma built_put s i r b x : base s → R !! i = Some r → (i < nsets)%nat → built R r b →
  (x = ELPIS_SEC_SECURE → P (fold_labels (r_name r)) (r_type r) (r_klass r) (group_data R r)) →
  wp (_ ← set_rrbuf (set_sec b x); put_verdict c mono (Z.of_nat i) (set_sec b x)) (fun _ s' => base s' ∧ s_v s' = s_v s) s.
Proof using HS.
  intros Hb Hr Hi [Hh Hk _] Hx. wps. pose proof Hk as [= En Et Ekl _ _ _ _].
  assert (rrset_sized (set_sec b x)) as Hz by (eapply rrset_holds_sized, set_sec_holds, Hh). pose proof (base_rrbuf s (set_sec b x) Hb Hz) as Hb'.
  eapply wp_mono; [apply (put_verdict_spec _ i (set_sec b x) (r_name r) _ _ Hb' (nsets_lt i Hi) (trr_labels (k_ans T) R (st_ans HS) i r Hr) En (set_sec_holds _ x _ _ Hh))|done].
  cbn. rewrite Et, Ekl. exact Hx.
Qed.

(** A set is settled: its status is [x] and nothing else of the walk changes. *)
Definition settles (i : nat) (x : Z) (s s' : vst St) : Prop :=
  inv s' ∧ vfix (s_v s') = vfix (s_v s) ∧ v_signers (s_v s') = v_signers (s_v s) ∧ v_status (s_v s') = <[i := x]> (v_status (s_v s)).

Lemma settle_insecure_spec s i r : inv s → (i < nsets)%nat → R !! i = Some r →
  wp (settle_insecure c mono (Z.of_nat i)) (fun _ => settles i SS_INSECURE s) s.
Proof using HS.
  intros Hv Hi Hr. unfold settle_insecure. wps. eapply wp_mono; [by apply (set_status_spec s i r SS_INSECURE Hv Hi Hr)|].
  intros [] s1 (Hv1 & Hf1 & Hg1 & Hs1). wps. destruct (build_set_at s1 i r (i_base _ Hv1) Hr) as (b & Eb & Hbt). wp_call Eb.
  destruct (bool_decide _).
  - eapply wp_mono; [apply (built_put s1 i r b ELPIS_SEC_INSECURE (i_base _ Hv1) Hr Hi Hbt); done|]. intros [] s2 [Hb2 Hv2].
    split; [by eapply inv_same|]. by rewrite Hv2.
  - wps. split; [|done]. eapply inv_same; [exact Hv1| |done]. apply base_rrbuf; [apply Hv1|]. by eapply rrset_holds_sized, bt_holds.
Qed.

(** *** The signers *)

Lemma signer_at_spec ss ls : Forall (fun g => wf_name (sg_name g)) ss → labels_ok ls → ∀ i, 0 <= i →
  ∃ o, signer_at ss (name_of ls) i = Ok o ∧ ∀ j, o = Some j → i <= j < i + zlen ss.
Proof.
  intros Hs Hls. induction Hs as [|g ss (gl & Hgl & E) _ IH]; intros i Hi; cbn [signer_at]; [by exists None|].
  rewrite E, name_eq_spec by done. bind_ok. rewrite zlen_cons. pose proof (zlen_nonneg ss). destruct (bool_decide _).
  - exists (Some i). split; [done|]. intros j [= <-]. lia.
  - destruct (IH (i + 1) ltac:(lia)) as (o & Eo & Ho). exists o. split; [done|]. intros j Hj. specialize (Ho j Hj). lia.
Qed.

Lemma inv_signers s ss : inv s → Forall (fun g => wf_name (sg_name g)) ss → inv (mkVst (s_w s) (s_t s) (with_signers (s_v s) ss)).
Proof using. intros [[] Hs Ht] Hss. by split. Qed.

Lemma collect_signer_spec s i : inv s → (i < nsets)%nat →
  wp (collect_signer (St := St) (Z.of_nat i)) (fun _ s' => inv s' ∧ vfix (s_v s') = vfix (s_v s)) s.
Proof using HS.
  intros Hv Hi. destruct (lookup_lt_is_Some_2 R i (nsets_lt i Hi)) as [r Hr]. unfold collect_signer. wps.
  eapply wp_mono; [by apply (judged_spec s i r (i_base _ Hv))|]. intros b s1 [-> _]. destruct b; cbn [negb]; [|by wps]. wps.
  rewrite (base_ans _ (i_base _ Hv)). destruct (set_signer_spec _ R (st_ans HS) (st_recs HS) i r Hr) as (o & Eo & _ & Ho). wp_call Eo.
  destruct o as [z|]; cbn [fmap option_fmap option_map]; [|by wps]. destruct (Ho z eq_refl) as [Hz _]. wps.
  destruct (signer_at_spec (v_signers (s_v s)) z (i_signers _ Hv) Hz 0 ltac:(done)) as (d & Ed & _). wp_call Ed. destruct d; [by wps|].
  destruct (_ <=? _); wps; [by split|]. split; [|done]. apply inv_signers; [done|]. apply Forall_app. split; [apply Hv|].
  constructor; [by exists z|done].
Qed.

Lemma inv_upto (f : Z → M St unit) s (J : vst St → Prop) : J s → base s → (∀ s, J s → base s) →
  (∀ i s, (i < nsets)%nat → J s → wp (f (Z.of_nat i)) (fun _ => J) s) → wp (for_sets f) (fun _ => J) s.
Proof using HS.
  intros Hj Hb HJ Hf. unfold for_sets. wps. rewrite (sets_of_spec s Hb). apply (wp_upto J); [done|done|].
  intros j s' Hj' Hs'. rewrite <- (Z2Nat.id j) by lia. apply Hf; [lia|done].
Qed.

Lemma collect_signers_spec s : inv s → wp (collect_signers (St := St)) (fun _ s' => inv s' ∧ vfix (s_v s') = vfix (s_v s)) s.
Proof using HS.
  intros Hv. unfold collect_signers. wps. pose proof (inv_signers s [] Hv (Forall_nil_2 _)) as Hv'.
  apply (inv_upto _ _ (fun s' => inv s' ∧ vfix (s_v s') = vfix (s_v s))); [done|apply Hv'|intros s' [H _]; apply H|].
  intros i s1 Hi [Hv1 Hf1]. eapply wp_mono; [by apply collect_signer_spec|]. intros [] s2 [Hv2 Hf2]. split; [done|congruence].
Qed.

Lemma collect_unsigned_zone_spec s i : inv s → (i < nsets)%nat →
  wp (collect_unsigned_zone c tas mono (Z.of_nat i)) (fun _ s' => inv s' ∧ vfix (s_v s') = vfix (s_v s)) s.
Proof using HS.
  intros Hv Hi. destruct (lookup_lt_is_Some_2 R i (nsets_lt i Hi)) as [r Hr]. unfold collect_unsigned_zone. wps. rewrite (base_ans _ (i_base _ Hv)).
  destruct (set_is_unsigned_spec _ R (st_ans HS) (st_recs HS) i r Hr) as (u & Eu & _). wp_call Eu. destruct u; cbn [negb]; [|by wps]. wps.
  assert (0 <= r_zone_labels r) as Hz by (by apply (Forall_lookup_1 _ _ _ _ (st_stamps HS) Hr)).
  wp_call (serving_zone_spec _ R (st_ans HS) i r Hr Hz). destruct (decide _); [|by wps]. wps. rewrite (trr_name _ _ (st_ans HS) i r Hr).
  eapply wp_lift; [done|]. cbv beta iota. pose proof (trr_labels (k_ans T) R (st_ans HS) i r Hr) as Hl. wps.
  eapply wp_mono; [by apply (below_unsigned_cut_spec s _ (i_base _ Hv) Hl)|]. intros cut s1 [Hb1 Ev1]. pose proof (inv_same s s1 Hv Hb1 Ev1) as Hv1.
  rewrite <- Ev1. destruct cut.
  { eapply wp_mono; [by apply (settle_insecure_spec s1 i r)|]. intros [] s2 (Hv2 & Hf2 & _). by split. }
  wps. destruct (signer_at_spec (v_signers (s_v s1)) (r_name r) (i_signers _ Hv1) Hl 0 ltac:(done)) as (d & Ed & Hd). wp_call Ed. destruct d as [j|].
  - specialize (Hd j eq_refl). wps. destruct (rd_in_range (v_signers (s_v s1)) j) as (g & Eg & Hg); [lia|]. wp_call Eg. wps.
    wp_call (wr_in_range (v_signers (s_v s1)) j (mkSigner (sg_name g) true (sg_cut g)) ltac:(lia)). wps. split; [|done]. apply inv_signers; [done|].
    apply Forall_insert; [apply Hv1|]. by apply (Forall_lookup_1 _ _ _ _ (i_signers _ Hv1) Hg).
  - destruct (_ <=? _); wps; [by split|]. split; [|done]. apply inv_signers; [done|]. apply Forall_app. split; [apply Hv1|]. constructor; [by exists (r_name r)|done].
Qed.

Lemma collect_unsigned_zones_spec s : inv s → wp (collect_unsigned_zones c tas mono) (fun _ s' => inv s' ∧ vfix (s_v s') = vfix (s_v s)) s.
Proof using HS.
  intros Hv. unfold collect_unsigned_zones.
  apply (inv_upto _ _ (fun s' => inv s' ∧ vfix (s_v s') = vfix (s_v s))); [done|apply Hv|intros s' [Hx _]; apply Hx|].
  intros i s1 Hi [Hv1 Hf1]. eapply wp_mono; [by apply collect_unsigned_zone_spec|]. intros [] s2 [Hv2 Hf2]. split; [done|congruence].
Qed.

(** *** The sets of one signer *)

(** The signer of the turn is [sl]. *)
Definition at_signer (v : val_t) (sl : list (list Z)) : Prop :=
  labels_ok sl ∧ 0 <= v_si v ∧ ∃ g, v_signers v !! Z.to_nat (v_si v) = Some g ∧ sg_name g = name_of sl.

Lemma current_spec s sl : at_signer (s_v s) sl → wp (current (St := St)) (fun g s' => s' = s ∧ sg_name g = name_of sl) s.
Proof using.
  intros (Hsl & H0 & g & Hg & En). unfold current. wps. assert (rd (v_signers (s_v s)) (v_si (s_v s)) = Ok g) as E by (by apply rd_lookup).
  wp_call E. by split.
Qed.

(** The set led by [i] waits for the verdict of that signer. *)
Definition open_at (v : val_t) (sl : list (list Z)) (i : nat) (r : trec) (z : list (list Z)) : Prop :=
  v_status v !! i = Some SS_UNKNOWN ∧ must_sign r ∧ leads R i ∧ signer_is R r (Some z) ∧ labels_eq z sl.

Lemma signed_by_current_spec s i r sl : inv s → (i < nsets)%nat → R !! i = Some r → at_signer (s_v s) sl →
  wp (signed_by_current (St := St) (Z.of_nat i)) (fun b s' => s' = s ∧
    if b then ∃ z, open_at (s_v s) sl i r z ∧ fold_labels z = z else ∀ z, ¬ open_at (s_v s) sl i r z) s.
Proof using HS.
  intros Hv Hi Hr Hsg. unfold signed_by_current. wps. destruct (status_at s i (i_base _ Hv) Hi) as (x & Ex & Hx). wp_call Ex.
  destruct (Z.eqb_spec x SS_UNKNOWN) as [->|Hne]; cbn [negb]; wps.
  2:{ split; [done|]. intros z (Hx' & _). congruence. }
  eapply wp_mono; [by apply (judged_spec s i r (i_base _ Hv))|]. intros b s1 [-> ->].
  destruct (bool_decide_reflect (must_sign r ∧ leads R i)) as [[Hm Hl]|Hno]; cbn [negb]; wps; [|split; [done|]; intros z (_ & ? & ? & _); tauto].
  rewrite (base_ans _ (i_base _ Hv)). destruct (set_signer_spec _ R (st_ans HS) (st_recs HS) i r Hr) as (o & Eo & Hs & Ho). wp_call Eo.
  destruct o as [z|]; cbn [fmap option_fmap option_map]; wps.
  2:{ split; [done|]. intros z (_ & _ & _ & Hz & _). by apply (signer_is_det _ _ _ _ Hs) in Hz. }
  destruct (Ho z eq_refl) as [Hz Hzf]. eapply wp_mono; [by apply current_spec|]. intros g s2 [-> Eg].
  rewrite Eg. wp_call (name_eq_spec z sl Hz (proj1 Hsg)). split; [done|]. destruct (bool_decide_reflect (labels_eq z sl)) as [He|He].
  - by exists z.
  - intros z' (_ & _ & _ & Hz' & He'). pose proof (signer_is_det _ _ _ _ Hs Hz') as [= <-]. done.
Qed.

(** The keys in hand are the keys of [cl], or some of them. *)
Definition keys_ok (keys : elpis_rrset_buf_t) (cl : list (list Z)) : Prop :=
  ∃ ks sgs kl all, rrset_holds keys ks sgs ∧ ks ⊆ all ∧ P (fold_labels cl) ELPIS_T_DNSKEY kl all.

(** No set waits for that signer any more. *)
Definition settled (v : val_t) (sl : list (list Z)) (i : nat) : Prop := ∀ r z, R !! i = Some r → ¬ open_at v sl i r z.
Definition all_done (v : val_t) (sl : list (list Z)) : Prop := ∀ i, (i < nsets)%nat → settled v sl i.

Lemma settled_step sl i x s s' : settles i x s s' → x ≠ SS_UNKNOWN → ∀ j, settled (s_v s) sl j → settled (s_v s') sl j.
Proof using.
  intros (_ & _ & _ & Es) Hx j Hj r z Hr (Ho & Hrest). apply (Hj r z Hr). split; [|done]. rewrite Es in Ho.
  destruct (decide (j = i)) as [->|]; [|by rewrite list_lookup_insert_ne in Ho].
  destruct (v_status (s_v s) !! i) as [y|] eqn:Ey; [|rewrite list_insert_ge in Ho by (by apply lookup_ge_None_1); congruence].
  rewrite list_lookup_insert_eq in Ho by (by eapply lookup_lt_Some). congruence.
Qed.

Lemma settles_self sl i x s s' : settles i x s s' → x ≠ SS_UNKNOWN → base s → (i < nsets)%nat → settled (s_v s') sl i.
Proof using.
  intros (_ & _ & _ & Es) Hx Hb Hi r z Hr (Ho & _). destruct (status_at s i Hb Hi) as (y & _ & Hy). rewrite Es in Ho.
  rewrite list_lookup_insert_eq in Ho by (by eapply lookup_lt_Some). congruence.
Qed.

Lemma at_signer_eq v v' sl : vfix v' = vfix v → v_signers v' = v_signers v → at_signer v sl → at_signer v' sl.
Proof using. intros [= _ E _ _ _ _ _ _] Es (? & ? & ?). unfold at_signer. by rewrite E, Es. Qed.

(** The verdict of a set does not touch the walk. *)
Definition kept_walk (s s' : vst St) : Prop := inv s' ∧ vfix (s_v s') = vfix (s_v s) ∧ v_signers (s_v s') = v_signers (s_v s).

Lemma kept_refl s : inv s → kept_walk s s.
Proof. done. Qed.
Lemma kept_trans a b d : kept_walk a b → kept_walk b d → kept_walk a d.
Proof. intros (_ & E1 & E2) (? & ? & ?). split; [done|]. split; congruence. Qed.
Lemma settles_kept i x s s' : settles i x s s' → kept_walk s s'.
Proof. intros (? & ? & ? & _). done. Qed.

Lemma mark_insecure_spec s i sl : inv s → (i < nsets)%nat → at_signer (s_v s) sl →
  wp (mark_insecure c mono (Z.of_nat i)) (fun _ s' => kept_walk s s' ∧ settled (s_v s') sl i ∧ ∀ j, settled (s_v s) sl j → settled (s_v s') sl j) s.
Proof using HS.
  intros Hv Hi Hsg. destruct (lookup_lt_is_Some_2 R i (nsets_lt i Hi)) as [r Hr]. unfold mark_insecure. wps.
  eapply wp_mono; [by apply (signed_by_current_spec s i r sl)|]. intros b s1 [-> Hb]. destruct b; cbn [negb].
  - eapply wp_mono; [by apply (settle_insecure_spec s i r)|]. intros [] s2 Hs2. split; [by eapply settles_kept|]. split.
    + by apply (settles_self sl i _ s s2 Hs2); [|apply Hv|].
    + intros j. by apply (settled_step sl i _ s s2 Hs2).
  - wps. split; [done|]. split; [|done]. intros r' z Hr'. rewrite Hr in Hr'. injection Hr' as <-. apply Hb.
Qed.

Lemma mark_insecure_for_current_spec s sl : inv s → at_signer (s_v s) sl →
  wp (mark_insecure_for_current c mono) (fun _ s' => kept_walk s s' ∧ all_done (s_v s') sl) s.
Proof using HS.
  intros Hv Hsg. unfold mark_insecure_for_current, for_sets. wps. rewrite (sets_of_spec s (i_base _ Hv)).
  eapply wp_mono; [apply (wp_upto_all (kept_walk s) (fun j s' => settled (s_v s') sl (Z.to_nat j))); [by apply kept_refl|done|intros j Hj; lia|]|].
  - intros j s1 Hj Hk1. replace j with (Z.of_nat (Z.to_nat j)) by lia.
    eapply wp_mono; [apply (mark_insecure_spec s1 (Z.to_nat j) sl); [apply Hk1|lia|by eapply at_signer_eq; [..|exact Hsg]; apply Hk1]|].
    intros [] s2 (Hk2 & Hs & Hm). split; [by eapply kept_trans|]. rewrite !Nat2Z.id. split; [done|]. intros m. apply Hm.
  - intros [] s1 [Hk1 Hd]. split; [done|]. intros i Hi. rewrite <- (Nat2Z.id i). apply Hd. lia.
Qed.

Lemma base_task s t : base s → tstat t = tstat T → base (mkVst (s_w s) t (s_v s)).
Proof using. intros [] Ht. by split. Qed.

Lemma inv_task s t : inv s → tstat t = tstat T → inv (mkVst (s_w s) t (s_v s)).
Proof using. intros Hv Ht. eapply inv_same; [exact Hv| |done]. apply base_task; [apply Hv|done]. Qed.

Lemma verify_set_spec s i cl sl : inv s → (i < nsets)%nat → at_signer (s_v s) sl → labels_eq cl sl →
  keys_ok (v_keys (s_v s)) cl ∨ all_done (s_v s) sl →
  wp (verify_set c mem now mono (Z.of_nat i)) (fun _ s' => kept_walk s s' ∧ (all_done (s_v s) sl → s_v s' = s_v s)) s.
Proof using HS.
  intros Hv Hi Hsg Hcl Hk. destruct (lookup_lt_is_Some_2 R i (nsets_lt i Hi)) as [r Hr]. unfold verify_set. wps.
  eapply wp_mono; [by apply (signed_by_current_spec s i r sl)|]. intros b s1 [-> Hb]. destruct b; cbn [negb]; [|by wps].
  destruct Hb as (z & Hz & Hzf). destruct Hk as [(ks & kgs & kl & all & Hks & Hsub & Hall)|Hd]; [|by destruct (Hd i Hi r z Hr)].
  assert (¬ all_done (s_v s) sl) as Hnd by (intros Hd; by apply (Hd i Hi r z Hr)). wps.
  destruct (build_set_at s i r (i_base _ Hv) Hr) as (set & Es & Hbt). wp_call Es. wps.
  set (s2 := mkVst _ _ _). assert (inv s2) as Hv2.
  { eapply inv_same; [exact Hv| |done]. apply base_rrbuf; [apply Hv|]. by eapply rrset_holds_sized, bt_holds. }
  destruct (bool_decide _); cbn [negb]; [|wps; by split]. wps. pose proof (bt_kind _ _ _ Hbt) as [= En Et Ekl _ _ _ _].
  pose proof (trr_labels (k_ans T) R (st_ans HS) i r Hr) as Hl.
  eapply wp_mono; [apply (validate_spec s2 set (v_keys (s_v s)) (Some (-1)) (r_name r) _ _ _ _ (i_base _ Hv2) Hl En (bt_holds _ _ _ Hbt) Hks)|].
  intros [rc e] s3 (Hb3 & Ev3 & Hok). cbn [fst] in Hok. pose proof (inv_same _ _ Hv2 Hb3 Ev3) as Hv3. change (s_v s2) with (s_v s) in Ev3.
  destruct (decide (rc = ELPIS_OK)) as [Hrc|].
  - destruct (Hok Hrc) as (_ & sig & key & Hsig & Hkey & Hsn). rewrite Et, Ekl in Hsn.
    assert (P z ELPIS_T_DNSKEY kl all) as Hz'.
    { destruct Hz as (_ & _ & _ & _ & He). unfold labels_eq in *. by rewrite <- Hzf, He, <- Hcl. }
    assert (secure r) as Hsec.
    { exists z, kl, all, key, sig, now. split; [by apply Hz|]. split; [done|]. split; [by apply Hsub|]. by split. }
    wps. eapply wp_mono; [by apply (set_status_spec s3 i r SS_SECURE Hv3 Hi Hr)|]. intros [] s4 Hs4. pose proof Hs4 as (Hv4 & Hf4 & Hg4 & _).
    eapply wp_mono; [apply (built_put s4 i r set ELPIS_SEC_SECURE (i_base _ Hv4) Hr Hi Hbt)|].
    + intros _. eapply vouched_signed; [exact Hz'|by apply Hsub|by apply signs_fold].
    + intros [] s5 [Hb5 Ev5]. split; [|done]. split; [by eapply inv_same|]. rewrite Ev5, Hf4, Hg4, Ev3. done.
  - wps. eapply wp_mono; [by apply (set_status_spec s3 i r SS_BOGUS Hv3 Hi Hr)|]. intros [] s4 (Hv4 & Hf4 & Hg4 & _). wps. split; [|done].
    split; [apply inv_task; [done|apply (b_task _ (i_base _ Hv4))]|]. cbn [s_v]. rewrite Hf4, Hg4, Ev3. done.
Qed.

Lemma verify_for_current_spec s cl sl : inv s → at_signer (s_v s) sl → labels_eq cl sl → keys_ok (v_keys (s_v s)) cl ∨ all_done (s_v s) sl →
  wp (verify_for_current c mem now mono) (fun _ s' => kept_walk s s') s.
Proof using HS.
  intros Hv Hsg Hcl Hk. set (J := fun s' => kept_walk s s' ∧ (keys_ok (v_keys (s_v s')) cl ∨ all_done (s_v s') sl)).
  apply wp_mono with (Q := fun _ => J); [|intros [] s' [? _]; done].
  unfold verify_for_current. apply (inv_upto _ _ J); [by split|apply Hv|intros s' [[Hx _] _]; apply Hx|].
  intros i s1 Hi [Hk1 Hkeys]. assert (at_signer (s_v s1) sl) as Hsg1 by (eapply at_signer_eq; [apply Hk1|apply Hk1|exact Hsg]).
  eapply wp_mono; [apply (verify_set_spec s1 i cl sl); [apply Hk1|done..]|]. intros [] s2 [Hk2 Hd]. split; [by eapply kept_trans|].
  destruct Hkeys as [Hkeys|Hdone]; [left|right; by rewrite (Hd Hdone)]. destruct Hk2 as (_ & [= _ _ _ _ _ _ _ ->] & _). done.
Qed.

Lemma classify_unsigned_spec s i sl : inv s → (i < nsets)%nat → at_signer (s_v s) sl →
  wp (classify_unsigned c mono (Z.of_nat i)) (fun _ s' => kept_walk s s' ∧ ∀ j, settled (s_v s) sl j → settled (s_v s') sl j) s.
Proof using HS.
  intros Hv Hi Hsg. destruct (lookup_lt_is_Some_2 R i (nsets_lt i Hi)) as [r Hr]. unfold classify_unsigned. wps.
  destruct (status_at s i (i_base _ Hv) Hi) as (x & Ex & _). wp_call Ex. destruct (negb _); [by wps|]. wps. rewrite (base_ans _ (i_base _ Hv)).
  destruct (set_is_unsigned_spec _ R (st_ans HS) (st_recs HS) i r Hr) as (u & Eu & _). wp_call Eu. destruct u; cbn [negb]; [|by wps]. wps.
  rewrite (trr_name _ _ (st_ans HS) i r Hr). eapply wp_lift; [done|]. cbv beta iota. wps.
  eapply wp_mono; [by apply (current_spec s sl)|]. intros g s1 [-> Eg]. wps. rewrite Eg.
  wp_call (name_eq_spec (r_name r) sl (trr_labels (k_ans T) R (st_ans HS) i r Hr) (proj1 Hsg)). destruct (bool_decide _); cbn [negb]; [|by wps].
  destruct (negb (sg_cut g) && vc_stripped c).
  - wps. eapply wp_mono; [by apply (set_status_spec s i r SS_BOGUS Hv Hi Hr)|]. intros [] s1 Hs1. pose proof Hs1 as (Hv1 & Hf1 & Hg1 & _). wps.
    split; [|by apply (settled_step sl i SS_BOGUS s s1 Hs1)]. split; [|done]. apply inv_task; [done|apply (b_task _ (i_base _ Hv1))].
  - eapply wp_mono; [by apply (settle_insecure_spec s i r)|]. intros [] s2 Hs2.
    split; [by eapply settles_kept|by apply (settled_step sl i SS_INSECURE s s2 Hs2)].
Qed.

Lemma classify_unsigned_for_current_spec s sl : inv s → at_signer (s_v s) sl →
  wp (classify_unsigned_for_current c mono) (fun _ s' => kept_walk s s' ∧ (all_done (s_v s) sl → all_done (s_v s') sl)) s.
Proof using HS.
  intros Hv Hsg. unfold classify_unsigned_for_current.
  apply (inv_upto _ _ (fun s' => kept_walk s s' ∧ (all_done (s_v s) sl → all_done (s_v s') sl))); [by split|apply Hv|intros s' [[Hx _] _]; apply Hx|].
  intros i s1 Hi [Hk1 Hd1]. assert (at_signer (s_v s1) sl) as Hsg1 by (eapply at_signer_eq; [apply Hk1|apply Hk1|exact Hsg]).
  eapply wp_mono; [apply (classify_unsigned_spec s1 i sl); [apply Hk1|done..]|]. intros [] s2 [Hk2 Hd2].
  split; [by eapply kept_trans|]. intros Hd j Hj. by apply Hd2, Hd1.
Qed.

Lemma settled_loop_spec s k : inv s → ∀ i n, (i + k <= nsets)%nat → wp (settled_loop (St := St) k (Z.of_nat i) n) (fun _ s' => s' = s) s.
Proof using HS.
  intros Hv. induction k as [|k IH]; intros i n Hi; cbn [settled_loop]; [by wps|].
  destruct (lookup_lt_is_Some_2 R i (nsets_lt i ltac:(lia))) as [r Hr]. replace (Z.of_nat i + 1) with (Z.of_nat (S i)) by lia. wps.
  eapply wp_mono; [by apply (judged_spec s i r (i_base _ Hv))|]. intros b s1 [-> _]. destruct b; cbn [negb]; [|apply IH; lia]. wps.
  destruct (status_at s i (i_base _ Hv) ltac:(lia)) as (x & Ex & _). wp_call Ex. destruct (_ =? _); [by wps|apply IH; lia].
Qed.

Lemma all_settled_spec s : inv s → wp (all_settled (St := St)) (fun _ s' => s' = s) s.
Proof using HS. intros Hv. unfold all_settled. wps. rewrite (sets_of_spec s (i_base _ Hv)). by apply (settled_loop_spec s nsets Hv 0%nat). Qed.

(** Record [i] leads an RRset that must be signed and is judged. *)
Definition judges (i : nat) (r : trec) : Prop := R !! i = Some r ∧ must_sign r ∧ leads R i.

Lemma tally_loop_spec s k : inv s → ∀ i ns ni nb, (i + k <= nsets)%nat → 0 <= ns → 0 <= ni → 0 <= nb →
  wp (tally_loop (St := St) k (Z.of_nat i) ns ni nb) (fun q s' => s' = s ∧ ∃ ns' ni' nb', q = (ns', ni', nb') ∧ ns <= ns' ∧ ni <= ni' ∧ nb <= nb' ∧
    (ni' = ni → nb' = nb → ∀ j r, (i <= j < i + k)%nat → judges j r → secure r) ∧ (ns < ns' → ∃ j r, (j < nsets)%nat ∧ judges j r)) s.
Proof using HS.
  intros Hv. induction k as [|k IH]; intros i ns ni nb Hi H1 H2 H3; cbn [tally_loop].
  { wps. split; [done|]. exists ns, ni, nb. split; [done|]. split; [lia|]. split; [lia|]. split; [lia|]. split; [intros _ _ j r Hj; lia|lia]. }
  destruct (lookup_lt_is_Some_2 R i (nsets_lt i ltac:(lia))) as [r Hr]. replace (Z.of_nat i + 1) with (Z.of_nat (S i)) by lia. wps.
  eapply wp_mono; [by apply (judged_spec s i r (i_base _ Hv))|]. intros b s1 [-> ->]. destruct (bool_decide_reflect (must_sign r ∧ leads R i)) as [[Hm Hl]|Hno]; cbn [negb].
  2:{ eapply wp_mono; [apply IH; lia|]. intros q s2 (-> & ns' & ni' & nb' & -> & ? & ? & ? & Hs & Hj). split; [done|].
      exists ns', ni', nb'. split; [done|]. split; [lia|]. split; [lia|]. split; [lia|]. split; [|done]. intros E1 E2 j rj Hjr Hjd.
      destruct (decide (j = i)) as [->|]; [|apply (Hs E1 E2 j); [lia|done]]. destruct Hjd as (Hrj & ? & ?). rewrite Hr in Hrj. injection Hrj as <-. tauto. }
  wps. destruct (status_at s i (i_base _ Hv) ltac:(lia)) as (x & Ex & Hx). wp_call Ex.
  destruct (Z.eqb_spec x SS_SECURE) as [->|]; [|destruct (x =? SS_BOGUS)].
  - eapply wp_mono; [apply IH; lia|]. intros q s2 (-> & ns' & ni' & nb' & -> & ? & ? & ? & Hs & Hj). split; [done|].
    exists ns', ni', nb'. split; [done|]. split; [lia|]. split; [lia|]. split; [lia|]. split; [|intros _; exists i, r; split; [lia|done]].
    intros E1 E2 j rj Hjr Hjd. destruct (decide (j = i)) as [->|]; [|apply (Hs E1 E2 j); [lia|done]].
    destruct Hjd as (Hrj & _ & _). apply (i_status _ Hv i rj Hrj Hx).
  - eapply wp_mono; [apply IH; lia|]. intros q s2 (-> & ns' & ni' & nb' & -> & ? & ? & ? & Hs & Hj). split; [done|].
    exists ns', ni', nb'. split; [done|]. split; [lia|]. split; [lia|]. split; [lia|]. split; [lia|done].
  - eapply wp_mono; [apply IH; lia|]. intros q s2 (-> & ns' & ni' & nb' & -> & ? & ? & ? & Hs & Hj). split; [done|].
    exists ns', ni', nb'. split; [done|]. split; [lia|]. split; [lia|]. split; [lia|]. split; [lia|done].
Qed.

(** *** The verdict *)

(** The proof of denial did not fail, and was not one of opt-out only. *)
Definition denial_ok : Prop :=
  ∃ v za, labels_ok za ∧ v ≠ 0 ∧ v ≠ ELPIS_NSEC3_OPTOUT_PROOF ∧
    (Exists answers R ∧ v = 1 ∨
     denials R = [] ∧ v = (if vc_stripped c && negb (k_from_cache T) then 0 else 1) ∨
     denials R ≠ [] ∧ denial_proof (denials R) qn (k_qtype T) (k_rcode T) za v).

(** What the verdict SECURE stands for. *)
Definition all_secure : Prop :=
  (∃ i r, (i < nsets)%nat ∧ judges i r) ∧ (∀ i r, (i < nsets)%nat → judges i r → secure r) ∧ denial_ok.

(** The verdict is in: nothing of the task is left in the shared tables. *)
Record finished (s : vst St) : Prop := {
  f_base : base s;
  f_kept : v_kept (s_v s) = [];
  f_flight : flight_ok (live ∖ {[k_id T]}) (w_flight (s_w s));
  f_sound : k_sec (s_t s) = ELPIS_SEC_SECURE → all_secure }.

Lemma val_done_spec s sec ede : base s → (sec = ELPIS_SEC_SECURE → all_secure) → wp (val_done (St := St) sec ede) (fun _ s' => finished s') s.
Proof using.
  intros Hb Hsec. unfold val_done, elpis_val_free. wps. pose proof (b_task _ Hb) as Ht. pose proof Ht as [= Eid _ _ _ _ _ _ _ _].
  destruct (kept_release_spec (v_kept (s_v s)) (w_heap (s_w s)) rest (b_ledger _ Hb)) as (hp & Ehp & Hl & Hs). wp_call Ehp. wps.
  pose proof (inflight_forget_spec live (w_flight (s_w s)) (k_id (s_t s)) (b_flight _ Hb)) as Hf. split.
  - destruct Hb. split; try done; cbn.
    + eapply flight_ok_mono; [exact Hf|intros x [? _]%elem_of_difference; done].
    + intros k e He. destruct (Hs k e He) as (e0 & He0 & ->). by eapply b_heap0.
  - done.
  - cbn. by rewrite <- Eid.
  - exact Hsec.
Qed.

Lemma tally_spec s : inv s → wp (tally c) (fun _ s' => finished s') s.
Proof using HS.
  intros Hv. unfold tally. wps. rewrite (sets_of_spec s (i_base _ Hv)).
  eapply wp_mono; [by apply (tally_loop_spec s nsets Hv 0%nat)|]. intros q s1 (-> & ns & ni & nb & -> & H1 & H2 & H3 & Hs & Hj). wps.
  pose proof (i_base _ Hv) as Hb. destruct (Z.ltb_spec 0 nb); [by apply val_done_spec|]. destruct ((ns =? 0) && (ni =? 0) && _); [by apply val_done_spec|].
  destruct ((0 <? ni) || (ns =? 0)) eqn:E; [by apply val_done_spec|]. apply orb_false_iff in E as [E1%Z.ltb_ge E2%Z.eqb_neq]. wps.
  set (zone := match v_signers (s_v s) with g :: _ => sg_name g | [] => _ end). pose proof (b_task _ Hb) as Ht. pose proof Ht as [= _ Ean Eqn Eqt _ Erc Efc _ _].
  destruct (st_qname HS) as (Eq & Hq & Hqt).
  assert (∃ za, zone = name_of za ∧ labels_ok za) as (za & -> & Hza).
  { unfold zone. pose proof (i_signers _ Hv) as Hg. destruct (v_signers (s_v s)) as [|g gs]; [exists qn; by rewrite Eqn|].
    apply Forall_cons_1 in Hg as [(za & ? & ?) _]. by exists za. }
  rewrite Ean, Eqn, Eqt, Erc, Efc.
  destruct (check_denial_spec (k_ans T) R (st_ans HS) (st_recs HS) (vc_stripped c) (mkDenialQ (k_qname T) (k_qtype T) (k_rcode T) (k_from_cache T)) za qn Eq Hq Hza Hqt)
    as (v & Ev & Hcase). cbn [q_type q_rcode q_from_cache] in Hcase.
  wp_call Ev. destruct (Z.eqb_spec v 0); [by apply val_done_spec|]. destruct (Z.eqb_spec v ELPIS_NSEC3_OPTOUT_PROOF); [by apply val_done_spec|].
  apply val_done_spec; [done|]. intros _. split; [|split].
  - destruct (Hj ltac:(lia)) as (i & r & Hi & Hr). by exists i, r.
  - intros i r Hi. apply (Hs ltac:(lia) ltac:(lia) i r). lia.
  - exists v, za. by split.
Qed.

(** ** The machine *)

(** What each stage has established. *)
Definition stage_ok (v : val_t) : Prop :=
  match v_stage v with
  | VS_START | VS_TALLY => True
  | VS_ANCHOR_KEYS => ∃ sl al, at_signer v sl ∧ labels_ok al ∧ v_cur v = name_of al ∧ v_walk v = name_of al
  | VS_DESCEND => ∃ sl cl wl, at_signer v sl ∧ labels_ok cl ∧ v_cur v = name_of cl ∧ labels_ok wl ∧ v_walk v = name_of wl ∧ keys_ok (v_keys v) cl
  | VS_VERIFY => ∃ sl cl, at_signer v sl ∧ labels_ok cl ∧ v_cur v = name_of cl ∧ (labels_eq cl sl → keys_ok (v_keys v) cl ∨ all_done v sl)
  end.

(** A turn that began with [n] look-ups asked for. *)
Definition turn_post (n : Z) (r : turn_end * Z) (s : vst St) : Prop :=
  match fst r with
  | TNext => inv s ∧ stage_ok (s_v s) ∧ v_waiting (s_v s) = false ∧ n <= v_steps (s_v s) <= n + 2
  | TWait => inv s ∧ stage_ok (s_v s) ∧ v_waiting (s_v s) = true ∧ n < v_steps (s_v s) <= n + 2
  | TDone => finished s
  end.

Lemma done_turn s n e sec ede : base s → sec ≠ ELPIS_SEC_SECURE → wp (_ ← val_done (St := St) sec ede; mret (TDone, e)) (turn_post n) s.
Proof using. intros Hb Hs. wps. eapply wp_mono; [by apply val_done_spec|]. intros [] s1 Hf. by wps. Qed.

Lemma unavailable_turn s n e code : base s → wp (unavailable (St := St) e code) (turn_post n) s.
Proof using. intros Hb. unfold unavailable. do 2 wp1. apply done_turn; [|done]. apply base_task; [done|apply Hb]. Qed.

Lemma goto_turn s n stage e : inv s → stage_ok (with_stage (s_v s) stage) → v_waiting (s_v s) = false → n <= v_steps (s_v s) <= n + 2 →
  wp (goto (St := St) stage e) (turn_post n) s.
Proof using. intros [[] ? ?] Hst Hw Hn. unfold goto. wps. split; [by split|]. done. Qed.

Lemma start_walk_turn s n e al sl : inv s → at_signer (s_v s) sl → labels_ok al → v_waiting (s_v s) = false → n <= v_steps (s_v s) <= n + 2 →
  wp (start_walk (St := St) (name_of al) e) (turn_post n) s.
Proof using.
  intros [[] ? ?] Hs Ha Hw Hn. unfold start_walk. wps. apply goto_turn; [by split| |done..]. by exists sl, al.
Qed.

Lemma anchor_turn s n e sl (k : M St (turn_end * Z)) : inv s → at_signer (s_v s) sl → v_waiting (s_v s) = false → n <= v_steps (s_v s) <= n + 2 →
  wp k (turn_post n) s →
  wp (anchor ← lift (elpis_ta_closest tas (name_of sl)); match anchor with None => k | Some a => start_walk a e end) (turn_post n) s.
Proof using HS.
  intros Hv Hs Hw Hn Hk. wps. destruct (ta_closest_spec tas sl tas_wf (proj1 Hs)) as (o & Eo & Ho). wp_call Eo.
  destruct o as [a|]; [|done]. destruct (Ho a eq_refl) as (al & Hal & -> & _). by eapply start_walk_turn.
Qed.

Lemma signer_exists s : inv s → 0 <= v_si (s_v s) < zlen (v_signers (s_v s)) → ∃ sl, at_signer (s_v s) sl.
Proof using.
  intros Hv Hi. destruct (lookup_lt_is_Some_2 (v_signers (s_v s)) (Z.to_nat (v_si (s_v s)))) as [g Hg]; [zl|].
  destruct (Forall_lookup_1 _ _ _ _ (i_signers _ Hv) Hg) as (sl & Hsl & En). exists sl. split; [done|]. split; [lia|]. by exists g.
Qed.

Lemma start_turn s e : inv s → v_waiting (s_v s) = false → wp (turn_start c tas mono e) (turn_post (v_steps (s_v s))) s.
Proof using HS.
  intros Hv Hw. unfold turn_start. wps. eapply wp_mono; [by apply collect_signers_spec|]. intros [] s1 [Hv1 Hf1].
  wps. eapply wp_mono; [by apply collect_unsigned_zones_spec|]. intros [] s2 [Hv2 Hf2]. rewrite Hf1 in Hf2. clear dependent s1. wps.
  pose proof Hf2 as [= _ _ _ _ _ Ew Es _]. rewrite Hw in Ew.
  assert (v_steps (s_v s) <= v_steps (s_v s2) <= v_steps (s_v s) + 2) as Hn by lia.
  apply wp_mono with (Q := fun _ s' => s' = s2); [destruct (_ =? 0); [by apply all_settled_spec|by wps]|]. intros st s3 ->. destruct st; [by apply goto_turn|].
  wps. set (d := default _ _). assert (wf_name d) as Hd.
  { unfold d. pose proof (b_task _ (i_base _ Hv2)) as [= _ _ -> _ _ _ _ _ ->]. destruct (st_qname HS) as (-> & Hq & _).
    destruct (k_deleg T) as [z|] eqn:Ez; [|by exists qn]. by apply (st_deleg HS). }
  apply wp_mono with (Q := fun _ s' => inv s' ∧ vfix (s_v s') = vfix (s_v s2) ∧ v_signers (s_v s') ≠ []).
  { destruct (Z.eqb_spec (zlen (v_signers (s_v s2))) 0) as [Hz|Hz]; wps.
    - split; [apply inv_signers; [done|by constructor]|done].
    - split; [done|]. split; [done|]. intros Ee. by rewrite Ee in Hz. }
  intros [] s3 (Hv3 & Hf3 & Hne). wps. set (s4 := mkVst _ _ _). assert (inv s4) as Hv4 by (by destruct Hv3 as [[] ? ?]).
  destruct (signer_exists s4 Hv4) as (sl & Hsl).
  { cbn. destruct (v_signers (s_v s3)) as [|g gs]; [done|]. rewrite zlen_cons. pose proof (zlen_nonneg gs). lia. }
  eapply wp_mono; [by apply (current_spec s4 sl)|]. intros g s5 [-> ->]. injection Hf3 as _ _ _ _ _ Ew3 Es3 _. apply (anchor_turn s4 _ e sl); [done..| | |].
  - cbn. congruence.
  - cbn. lia.
  - by apply done_turn; [apply Hv4|].
Qed.

Lemma anchored_vouched keys o ks kgs kl d key : labels_ok o → rs_type keys = ELPIS_T_DNSKEY → rs_klass keys = kl → key ∈ ks → anchored conf keys o ks kgs now d key →
  (∃ ta, ta ∈ tas ∧ ta_at o ta = true ∧ d = ta_ds ta) ∨ (∃ kl' dss, P (fold_labels o) ELPIS_T_DS kl' dss ∧ d ∈ dss) →
  P (fold_labels o) ELPIS_T_DNSKEY kl ks.
Proof using HS.
  intros Ho Et Ek Hkey (Hds & _ & sig & _ & Ha & Hdt & Hg) Hd. rewrite Et, Ek in *.
  assert (signs conf now (fold_labels o) ELPIS_T_DNSKEY kl ks sig key) as Hs by (by apply signs_fold).
  destruct Hd as [(ta & Hta & Hat & ->)|(kl' & dss & Hp & Hin)].
  - eapply vouched_anchor; [exact Hta| |by apply ds_of_fold|exact Hkey|exact Hs]. apply ta_at_fold; [done| |done]. apply (Forall_elem _ _ _ tas_wf Hta).
  - by eapply vouched_ds; [exact Hp|exact Hin|by apply ds_of_fold| |].
Qed.

Lemma stamp_found n type b rs sgs : rs_name b = name_of n → rs_type b = type → rs_klass b = ELPIS_CLASS_IN → rrset_holds b rs sgs → packed b rs sgs →
  P (fold_labels n) type ELPIS_CLASS_IN rs → found n type (set_sec b ELPIS_SEC_SECURE).
Proof using.
  intros En Et Ek Hh Hp Hv. split; [done|]. split; [done|]. split; [done|].
  exists rs, sgs. split; [by apply set_sec_holds|]. split; [exact Hp|]. done.
Qed.

Lemma found_keys n b : found n ELPIS_T_DNSKEY b → rs_sec b = ELPIS_SEC_SECURE → keys_ok b n.
Proof using. intros (_ & _ & _ & rs & sgs & Hh & _ & Hs) E. exists rs, sgs, ELPIS_CLASS_IN, rs. split; [done|]. split; [done|]. by apply Hs. Qed.

Lemma ta_judged n keys e : labels_ok n → found n ELPIS_T_DNSKEY keys → ∀ cnt : counters, ∃ rc e' cnt' m,
  elpis_dnskey_validate_ta conf mem one_buf cnt tas keys now e = Ok (rc, e', cnt') ∧ spends m cnt cnt' ∧
  (rc = ELPIS_OK → found n ELPIS_T_DNSKEY (set_sec keys ELPIS_SEC_SECURE)).
Proof using HS.
  intros Hn (En & Et & Ek & rs & sgs & Hh & Hp & _) cnt.
  destruct (dnskey_validate_ta_spec conf mem one_buf keys tas n rs sgs now e cnt) as ([[rc e'] cnt'] & E & (m & Hm & _) & _ & _ & Hok & _);
    [apply (st_bufs HS)|done..|apply Forall_true; intros; apply (st_dates HS)|apply (st_tas HS)|].
  exists rc, e', cnt', m. split; [done|]. split; [done|]. intros Hrc. destruct (Hok Hrc) as (d & key & Hd & _ & Hkey & Ha).
  apply (stamp_found n _ keys rs sgs); [done..|]. eapply anchored_vouched; [done..|exact Ha|]. left.
  apply list_elem_of_fmap in Hd as (ta & -> & Hta). exists ta.
  apply (subseteq_take 16) in Hta. apply list_elem_of_filter in Hta as [? ?]. done.
Qed.

Lemma ds_judged n keys ds dss dgs kl e : labels_ok n → found n ELPIS_T_DNSKEY keys → rrset_holds ds dss dgs → P (fold_labels n) ELPIS_T_DS kl dss →
  ∀ cnt : counters, ∃ rc e' cnt' m,
  elpis_dnskey_validate_ds conf mem one_buf cnt keys ds now e = Ok (rc, e', cnt') ∧ spends m cnt cnt' ∧
  (rc = ELPIS_OK → found n ELPIS_T_DNSKEY (set_sec keys ELPIS_SEC_SECURE)).
Proof using HS.
  intros Hn (En & Et & Ek & rs & sgs & Hh & Hp & _) Hds Hv cnt.
  destruct (dnskey_validate_ds_spec conf mem one_buf keys ds n rs sgs dss dgs now e cnt) as ([[rc e'] cnt'] & E & (m & Hm & _) & _ & _ & Hok & _);
    [apply (st_bufs HS)|done..|apply Forall_true; intros; apply (st_dates HS)|].
  exists rc, e', cnt', m. split; [done|]. split; [done|]. intros Hrc. destruct (Hok Hrc) as (d & key & Hd & _ & Hkey & Ha).
  apply (stamp_found n _ keys rs sgs); [done..|]. eapply anchored_vouched; [done..|exact Ha|]. right. by exists kl, dss.
Qed.

Lemma inv_cnt s n x : inv s → spends n (w_cnt (s_w s)) x →
  inv (mkVst (mkVw (w_store (s_w s)) (w_flight (s_w s)) (w_heap (s_w s)) (w_sent (s_w s)) x (w_rrbuf (s_w s))) (s_t s) (s_v s)).
Proof using. intros Hv Hx. eapply inv_same; [exact Hv|by eapply base_cnt; [apply Hv|]|done]. Qed.

Lemma inv_rrbuf s x : inv s → rrset_sized x →
  inv (mkVst (mkVw (w_store (s_w s)) (w_flight (s_w s)) (w_heap (s_w s)) (w_sent (s_w s)) (w_cnt (s_w s)) x) (s_t s) (s_v s)).
Proof using. intros Hv Hx. eapply inv_same; [exact Hv|by apply base_rrbuf; [apply Hv|]|done]. Qed.

Lemma inv_keys s k : inv s → rrset_sized k → inv (mkVst (s_w s) (s_t s) (with_keys (s_v s) k)).
Proof using. intros [[] ? ?] Hk. by split. Qed.

(** The keys are no keys, or no anchor counts: all that waits for the signer is insecure. *)
Lemma insecure_turn s n e sl cl : inv s → at_signer (s_v s) sl → labels_ok cl → v_cur (s_v s) = name_of cl → v_waiting (s_v s) = false →
  n <= v_steps (s_v s) <= n + 2 → wp (_ ← mark_insecure_for_current c mono; goto VS_VERIFY e) (turn_post n) s.
Proof using HS.
  intros Hv Hs Hcl Ec Hw Hn. wps. eapply wp_mono; [by apply (mark_insecure_for_current_spec s sl)|]. intros [] s1 [(Hv1 & Hf1 & Hg1) Hd].
  assert (at_signer (s_v s1) sl) as Hs1 by (by eapply at_signer_eq). injection Hf1 as _ _ Ec1 _ _ Ew1 Es1 _.
  apply goto_turn; [done| |congruence|lia]. exists sl, cl. split; [done|]. split; [done|]. split; [cbn; congruence|]. intros _. right. exact Hd.
Qed.

Lemma anchor_judge_turn s n e sl al : inv s → at_signer (s_v s) sl → labels_ok al → v_cur (s_v s) = name_of al → v_walk (s_v s) = name_of al →
  found al ELPIS_T_DNSKEY (v_keys (s_v s)) → v_waiting (s_v s) = false → n <= v_steps (s_v s) <= n + 2 →
  wp (anchor_judge c mem tas now mono one_buf e) (turn_post n) s.
Proof using HS.
  intros Hv Hs Hal Ec Ewk Hf Hw Hn. unfold anchor_judge. wps.
  apply wp_mono with (Q := fun r s' => inv s' ∧ (∃ k, s_v s' = with_keys (s_v s) k) ∧
    (fst r = ELPIS_OK → found al ELPIS_T_DNSKEY (v_keys (s_v s')) ∧ rs_sec (v_keys (s_v s')) = ELPIS_SEC_SECURE)).
  { destruct (bool_decide_reflect (rs_sec (v_keys (s_v s)) = ELPIS_SEC_SECURE)) as [E|E].
    { wps. split; [done|]. split; [exists (v_keys (s_v s)); by destruct (s_v s)|]. done. }
    wps. destruct (ta_judged al _ (Some e) Hal Hf (w_cnt (s_w s))) as (rc & e' & cnt & m & Et & Hm & Hok). wp_call Et. wps.
    pose proof (inv_cnt s m cnt Hv Hm) as Hv1. destruct (decide (rc = ELPIS_OK)) as [->|Hne]; wps.
    - specialize (Hok eq_refl). set (s2 := mkVst _ _ _). assert (inv s2) as Hv2 by (apply (inv_keys _ _ Hv1); by eapply found_sized).
      eapply wp_mono; [by apply (put_material_spec s2 al _ _ (i_base _ Hv2) Hal Hok)|]. intros [] s3 [Hb3 Ev3]. wps. cbn [fst].
      split; [by eapply inv_same|]. rewrite Ev3. split; [by eexists|]. intros _. split; [exact Hok|done].
    - cbn [fst]. split; [done|]. split; [exists (v_keys (s_v s)); cbn; by destruct (s_v s)|]. done. }
  intros [rc e1] s1 (Hv1 & (k & Ek) & Hok). cbn [fst] in Hok.
  assert (at_signer (s_v s1) sl ∧ v_cur (s_v s1) = name_of al ∧ v_walk (s_v s1) = name_of al ∧ v_waiting (s_v s1) = false ∧ v_steps (s_v s1) = v_steps (s_v s))
    as (Hs1 & Ec1 & Ewk1 & Ew1 & Es1) by (by rewrite Ek).
  destruct (decide (rc = ELPIS_ENOTFOUND)) as [->|]; [apply (insecure_turn s1 n e1 sl al); done || lia|].
  destruct (bool_decide_reflect (rc = ELPIS_OK)) as [E|E]; cbn [negb]; [|by apply done_turn; [apply Hv1|]].
  destruct (Hok E) as [Hf1 Hsec]. apply goto_turn; [done| |done|lia]. exists sl, al, al. split; [done|]. split; [done|]. split; [done|]. split; [done|].
  split; [done|]. by apply found_keys.
Qed.

(** Asking keeps the walk. *)
Lemma inv_walk s s' : inv s → base s' → vwalk (s_v s') = vwalk (s_v s) → inv s'.
Proof using. intros [] Hb [= _ Eg _ _ _ _ _ _ _ Es _]. split; [done|by rewrite Eg|by rewrite Es]. Qed.

Lemma at_signer_walk v v' sl : vwalk v' = vwalk v → at_signer v sl → at_signer v' sl.
Proof using. intros [= _ Eg Ei _ _ _ _ _ _ _ _] (? & ? & ?). unfold at_signer. by rewrite Eg, Ei. Qed.

Lemma needed_type n type b : type ≠ ELPIS_T_DS → needed n type b → found n type b.
Proof using. intros Hne (Hf & [E|(? & _)]); [by rewrite E in Hf|done]. Qed.

Lemma anchor_keys_turn s e : inv s → stage_ok (s_v s) → v_stage (s_v s) = VS_ANCHOR_KEYS → v_waiting (s_v s) = false → 0 <= v_steps (s_v s) < 2 ^ 31 →
  wp (turn_anchor_keys c mem tas now mono one_buf can_child e) (turn_post (v_steps (s_v s))) s.
Proof using HS.
  intros Hv Hst Est Hw Hn. unfold stage_ok in Hst. rewrite Est in Hst. destruct Hst as (sl & al & Hs & Hal & Ec & Ewk).
  unfold turn_anchor_keys. wps. rewrite Ec.
  eapply wp_mono; [by apply (val_need_spec s al ELPIS_T_DNSKEY); [apply Hv|done|apply (i_base _ Hv)|done|lia]|].
  intros [have keys] s1 (Hb1 & Hwk1 & Hz1 & Hn1 & Hyes & Hno). cbn [fst snd] in *. wps. pose proof (inv_walk s s1 Hv Hb1 Hwk1) as Hv1.
  pose proof (at_signer_walk _ _ sl Hwk1 Hs) as Hs1. pose proof Hwk1 as [= Est1 _ _ _ Ec1 Ewk1 _ _ _ _ _]. rewrite Est in Est1. rewrite Ec in Ec1. rewrite Ewk in Ewk1.
  pose proof (inv_keys s1 keys Hv1 Hz1) as Hv2. destruct have; cbn [negb].
  2:{ destruct (Hno eq_refl) as [Hw1 Hs1']. wps. split; [done|]. split; [|split; [exact Hw1|cbn; lia]]. unfold stage_ok. cbn. rewrite Est1. by exists sl, al. }
  destruct (Hyes eq_refl) as [Hw1 Hnd]. apply needed_type in Hnd; [|done]. wps. pose proof Hnd as (En & _). rewrite En.
  assert (∃ b, (if rs_count keys =? 0 then Ok false else elpis_name_eq (name_of al) (name_of al)) = Ok b) as (b & Eb).
  { destruct (_ =? 0); [by eexists|]. rewrite name_eq_spec by done. by eexists. }
  wp_call Eb. set (s2 := mkVst _ _ _). assert (inv s2) as Hv3 by (by destruct Hv2 as [[] ? ?]).
  destruct b; cbn [negb]; [|apply unavailable_turn; apply Hv3]. apply (anchor_judge_turn s2 _ e sl al); try done. cbn. lia.
Qed.

(** A step down: the walk stands at [wl], with the keys of [cl]. *)
Definition descending (s : vst St) (sl cl wl : list (list Z)) : Prop :=
  inv s ∧ v_stage (s_v s) = VS_DESCEND ∧ at_signer (s_v s) sl ∧ labels_ok cl ∧ v_cur (s_v s) = name_of cl ∧ labels_ok wl ∧
  v_walk (s_v s) = name_of wl ∧ keys_ok (v_keys (s_v s)) cl ∧ v_waiting (s_v s) = false.

Lemma descending_same s s' sl cl wl : descending s sl cl wl → base s' → s_v s' = s_v s → descending s' sl cl wl.
Proof using. intros (Hv & Hr) Hb E. split; [by eapply inv_same|]. by rewrite E. Qed.

Lemma descending_stage s sl cl wl : descending s sl cl wl → stage_ok (s_v s).
Proof using. intros (_ & E & Hs & Hcl & Ec & Hwl & Ew & Hk & _). unfold stage_ok. rewrite E. by exists sl, cl, wl. Qed.

Lemma step_down s sl cl wl nl n e : descending s sl cl wl → labels_ok nl → n <= v_steps (s_v s) <= n + 2 →
  wp (_ ← mod_v (fun v => with_walk v (v_anchor v) (v_cur v) (name_of nl)); mret (TNext, e)) (turn_post n) s.
Proof using.
  intros ([[] ? ?] & E & Hs & Hcl & Ec & Hwl & Ew & Hk & Hw) Hnl Hn. wps. split; [by split|]. split; [|done]. unfold stage_ok. cbn. rewrite E.
  by exists sl, cl, nl.
Qed.

Lemma mark_cut s sl cl wl n e g : descending s sl cl wl → sg_name g = name_of sl → n <= v_steps (s_v s) <= n + 2 →
  wp (v ← gets s_v; ss ← lift (wr (v_signers v) (v_si v) (mkSigner (sg_name g) (sg_probe g) true));
      _ ← mod_v (fun v => with_signers v ss); goto VS_VERIFY e) (turn_post n) s.
Proof using.
  intros (Hv & E & Hs & Hcl & Ec & Hwl & Ew & Hk & Hw) Eg Hn. wps. pose proof Hs as (Hsl & H0 & g0 & Hg0 & Eg0).
  assert (v_si (s_v s) < zlen (v_signers (s_v s))) as Hlt by (apply lookup_lt_Some in Hg0; zl).
  wp_call (wr_in_range (v_signers (s_v s)) (v_si (s_v s)) (mkSigner (sg_name g) (sg_probe g) true) ltac:(lia)). wps.
  set (ss := <[_ := _]> _). assert (inv (mkVst (s_w s) (s_t s) (with_signers (s_v s) ss))) as Hv1.
  { apply inv_signers; [done|]. apply Forall_insert; [apply Hv|]. exists sl. by rewrite <- Eg. }
  apply goto_turn; [done| |done..]. exists sl, cl. split; [|by split; [|split; [|left]]]. split; [done|]. split; [done|]. cbn.
  unfold ss. rewrite list_lookup_insert_eq by zl. by eexists.
Qed.

Lemma descend_denied_turn s sl cl wl nl n e ds : descending s sl cl wl → labels_ok nl → found nl (rs_type ds) ds → n <= v_steps (s_v s) <= n + 2 →
  wp (descend_denied c mem now mono den_buf (name_of nl) ds e) (turn_post n) s.
Proof using HS.
  intros Hd Hnl Hf Hn. unfold descend_denied. pose proof Hd as (Hv & _ & Hs & Hcl & Ec & _ & _ & (ks & kgs & kl & all & Hks & _) & _). wps.
  eapply wp_mono; [by apply (current_spec s sl)|]. intros g s0 [-> Eg]. wps. rewrite Ec. pose proof Hf as (_ & _ & _ & rs & sgs & Hh & _).
  assert (∀ s1 what, base s1 → s_v s1 = s_v s → wp (denial_proves c mem now den_buf (name_of nl) ds (name_of cl) what) (fun _ s' => base s' ∧ s_v s' = s_v s) s1) as Hpr.
  { intros s1 what Hb1 E1. rewrite <- E1. eapply denial_proves_spec; [done..|exact Hh|by rewrite E1]. }
  apply wp_mono with (Q := fun _ s' => base s' ∧ s_v s' = s_v s); [destruct (_ || _); [by apply Hpr; [apply Hv|]|wps; by split; [apply Hv|]]|].
  intros cut s1 [Hb1 E1]. assert (descending s1 sl cl wl) as Hd1 by (by eapply descending_same). rewrite <- E1 in Hn. destruct cut.
  { apply wp_bind. eapply wp_mono; [by apply (note_unsigned_zone_spec s1 nl (rs_type ds))|]. intros [] s2 [Hb2 E2].
    eapply mark_cut; [by eapply descending_same|done|by rewrite E2]. }
  apply wp_bind. rewrite Eg. destruct (route_depth_total c sl (st_routes HS) (proj1 Hs)) as (d & Edp). wp_call Edp. apply wp_bind.
  apply wp_mono with (Q := fun _ s' => base s' ∧ s_v s' = s_v s1); [destruct (_ && _); [rewrite E1; by apply Hpr|by wps]|].
  intros routed s2 [Hb2 E2]. assert (descending s2 sl cl wl) as Hd2 by (by eapply descending_same). rewrite <- E2 in Hn. destruct routed.
  { rewrite <- Eg. by eapply mark_cut. }
  destruct (has_flag ds ELPIS_RRF_REFERRAL); [|by eapply step_down]. wps.
  destruct (vs_del_ok P (w_store (s_w s2)) nl ELPIS_T_DS (b_store _ Hb2) Hnl) as (st & Es & Hst). wp_call Es. wps.
  pose proof (base_store s2 st Hb2 Hst) as Hb3. assert (descending (mkVst (mkVw st (w_flight (s_w s2)) (w_heap (s_w s2)) (w_sent (s_w s2)) (w_cnt (s_w s2)) (w_rrbuf (s_w s2))) (s_t s2) (s_v s2)) sl cl wl) as Hd3
    by (by eapply descending_same; [exact Hd2|..]).
  split; [apply Hd3|]. split; [by eapply descending_stage|]. split; [apply Hd2|exact Hn].
Qed.

Lemma descend_keys_turn s sl cl wl nl n e ds dss dgs kl : descending s sl cl wl → labels_ok nl → rs_name ds = name_of nl → rrset_holds ds dss dgs →
  P (fold_labels nl) ELPIS_T_DS kl dss → n <= v_steps (s_v s) <= n + 1 → 0 <= n < 2 ^ 31 →
  wp (descend_keys c mem now mono one_buf ds_buf can_child (name_of nl) ds e) (turn_post n) s.
Proof using HS.
  intros Hd Hnl En Hh Hds Hn Hn0. unfold descend_keys. pose proof Hd as (Hv & Est & Hs & Hcl & Ec & Hwl & Ewk & Hk & Hw). wps.
  destruct (rrset_copy_spec ds_buf ds dss dgs (proj1 (proj2 (st_bufs HS))) Hh ltac:(by exists nl)) as (hold & Eh & Hhold & _). wp_call Eh. wps.
  eapply wp_mono; [apply (val_need_spec s nl ELPIS_T_DNSKEY ds); [apply Hv|done|by eapply rrset_holds_sized|done|lia]|].
  intros [have set] s1 (Hb1 & Hwk1 & Hz1 & Hn1 & Hyes & Hno). cbn [fst snd] in *. wps. pose proof (inv_walk s s1 Hv Hb1 Hwk1) as Hv1.
  pose proof (at_signer_walk _ _ sl Hwk1 Hs) as Hs1. pose proof Hwk1 as [= Est1 _ _ _ Ec1 Ewk1 _ _ _ _ Ek1]. rewrite Est in Est1. rewrite Ec in Ec1. rewrite Ewk in Ewk1.
  pose proof (inv_rrbuf s1 set Hv1 Hz1) as Hv2. set (s2 := mkVst _ _ _) in *. destruct have; cbn [negb].
  2:{ destruct (Hno eq_refl) as [Hw1 Hs1']. wps. split; [done|]. split; [|split; [exact Hw1|cbn; lia]]. unfold stage_ok. cbn. rewrite Est1.
      exists sl, cl, wl. by rewrite Ek1. }
  destruct (Hyes eq_refl) as [Hw1 Hnd]. apply needed_type in Hnd; [|done].
  assert (descending s2 sl cl wl) as Hd2 by (split; [done|]; split; [done|]; split; [done|]; split; [done|]; split; [done|]; split; [done|]; split; [done|]; split; [cbn; by rewrite Ek1|done]).
  assert (n <= v_steps (s_v s2) <= n + 2) as Hn2 by (cbn; lia). clearbody s2. destruct (_ =? 0); [apply unavailable_turn; apply Hv2|]. wps.
  apply wp_mono with (Q := fun r s' => base s' ∧ s_v s' = s_v s2 ∧ (fst (fst r) = ELPIS_OK → found nl ELPIS_T_DNSKEY (snd r) ∧ rs_sec (snd r) = ELPIS_SEC_SECURE)).
  { destruct (bool_decide_reflect (rs_sec set = ELPIS_SEC_SECURE)) as [E|E]; [by wps; split; [apply Hv2|]|]. wps.
    destruct (ds_judged nl set hold dss dgs kl (Some e) Hnl Hnd Hhold Hds (w_cnt (s_w s2))) as (rc & e' & cnt & m & Et & Hm & Hok). wp_call Et. wps.
    pose proof (inv_cnt s2 m cnt Hv2 Hm) as Hv3. destruct (decide (rc = ELPIS_OK)) as [->|Hne]; wps; [|by split; [apply Hv3|]].
    specialize (Hok eq_refl). pose proof (inv_rrbuf _ (set_sec set ELPIS_SEC_SECURE) Hv3 ltac:(by eapply found_sized)) as Hv4.
    eapply wp_mono; [by apply (put_material_spec _ nl _ _ (i_base _ Hv4) Hnl Hok)|]. intros [] s3 [Hb3 Ev3]. wps. cbn [fst snd].
    split; [done|]. split; [exact Ev3|]. done. }
  intros [[rc e1] set1] s3 (Hb3 & Ev3 & Hok). cbn [fst snd] in Hok. assert (descending s3 sl cl wl) as Hd3 by (by eapply descending_same).
  pose proof Hd3 as (Hv3 & _ & Hs3 & _ & Ec3 & _ & _ & _ & Hw3). rewrite <- Ev3 in Hn2.
  destruct (decide (rc = ELPIS_ENOTFOUND)) as [->|]; [by apply (insecure_turn s3 n e1 sl cl)|].
  destruct (bool_decide_reflect (rc = ELPIS_OK)) as [E|E]; cbn [negb]; [|by apply done_turn].
  destruct (Hok E) as [Hf1 Hsec]. pose proof Hf1 as (En1 & _ & _ & ks & kgs & Hks & _ & Hp). wps.
  destruct (rrset_copy_spec (v_keys (s_v s3)) set1 ks kgs (b_keys _ Hb3) Hks ltac:(by exists nl)) as (k1 & Ek & Hk1 & _). wp_call Ek. wps.
  pose proof (dnskey_signers_spec conf k1 hold ks kgs dss dgs Hk1 Hhold) as Hpq.
  assert (∃ b k2 ks2, elpis_dnskey_signers conf k1 hold = Ok (b, k2) ∧ rrset_holds k2 ks2 kgs ∧ ks2 ⊆ ks) as (b & k2 & ks2 & E2 & Hk2 & Hsub).
  { destruct (decide _); [|by exists false, k1, ks]. destruct Hpq as (off & len & E2 & Hk2). eexists _, _, _. split; [done|]. split; [done|].
    intros x Hx. by apply list_elem_of_filter in Hx as [_ ?]. }
  wp_call E2. wps. pose proof (inv_keys s3 k2 Hv3 ltac:(by eapply rrset_holds_sized)) as Hv4. split; [by destruct Hv4 as [[] ? ?]|].
  split; [|by split]. unfold stage_ok. cbn. rewrite (proj1 (proj2 Hd3)). exists sl, nl, nl. split; [done|]. split; [done|]. split; [done|].
  split; [done|]. split; [done|]. exists ks2, kgs, ELPIS_CLASS_IN, ks. split; [done|]. split; [done|]. by apply Hp.
Qed.

Lemma descend_ds_turn s sl cl wl nl n e ds : descending s sl cl wl → labels_ok nl → found nl ELPIS_T_DS ds → n <= v_steps (s_v s) <= n + 1 → 0 <= n < 2 ^ 31 →
  wp (descend_ds c mem now mono one_buf ds_buf can_child (name_of nl) ds e) (turn_post n) s.
Proof using HS.
  intros Hd Hnl Hf Hn Hn0. unfold descend_ds. pose proof Hf as (En & Et & Ek & dss & dgs & Hh & Hp & Hsec).
  destruct (bool_decide_reflect (rs_sec ds = ELPIS_SEC_SECURE)) as [E|E].
  { eapply descend_keys_turn; [exact Hd|done|exact En|exact Hh|by apply Hsec|done|done]. }
  pose proof Hd as (Hv & _ & _ & _ & _ & _ & _ & (ks & kgs & kl & all & Hks & Hsub & Hall) & _). wps.
  eapply wp_mono; [apply (validate_spec s ds (v_keys (s_v s)) (Some e) nl dss dgs ks kgs (i_base _ Hv) Hnl En Hh Hks)|].
  intros [rc e'] s1 (Hb1 & Ev1 & Hok). cbn [fst] in Hok. destruct (bool_decide_reflect (rc = ELPIS_OK)) as [Hrc|]; cbn [negb]; [|by apply done_turn].
  destruct (Hok Hrc) as (_ & sig & key & Hsig & Hkey & Hsn). rewrite Et, Ek in Hsn.
  assert (P (fold_labels nl) ELPIS_T_DS ELPIS_CLASS_IN dss) as Hv2 by (eapply vouched_signed; [exact Hall|by apply Hsub|by apply signs_fold]).
  pose proof (stamp_found nl _ ds dss dgs En Et Ek Hh Hp Hv2) as Hf2. assert (descending s1 sl cl wl) as Hd1 by (by eapply descending_same).
  pose proof (base_rrbuf s1 _ Hb1 (found_sized _ _ _ Hf2)) as Hb2. wps.
  eapply wp_mono; [by apply (put_material_spec _ nl _ _ Hb2 Hnl Hf2)|]. intros [] s3 [Hb3 Ev3].
  eapply descend_keys_turn; [eapply (descending_same s1); [exact Hd1|done|exact Ev3]|done|exact En|by apply set_sec_holds|done| |done].
  rewrite Ev3. cbn. by rewrite Ev1.
Qed.

Lemma descend_turn s e : inv s → stage_ok (s_v s) → v_stage (s_v s) = VS_DESCEND → v_waiting (s_v s) = false → 0 <= v_steps (s_v s) < 2 ^ 31 →
  wp (turn_descend c mem now mono one_buf ds_buf den_buf can_child e) (turn_post (v_steps (s_v s))) s.
Proof using HS.
  intros Hv Hst Est Hw Hn. unfold stage_ok in Hst. rewrite Est in Hst. destruct Hst as (sl & cl & wl & Hs & Hcl & Ec & Hwl & Ewk & Hk).
  unfold turn_descend. wps. eapply wp_mono; [by apply (current_spec s sl)|]. intros g s0 [-> Eg]. rewrite Eg, Ewk. cbn [n_labels name_of].
  assert (wp (goto (St := St) VS_VERIFY e) (turn_post (v_steps (s_v s))) s) as Hver.
  { apply goto_turn; [done| |done|lia]. exists sl, cl. split; [done|]. split; [done|]. split; [done|]. by left. }
  destruct (Z.leb_spec (zlen sl) (zlen wl)) as [|Hlt]; [exact Hver|]. wps. pose proof (zlen_nonneg wl).
  change (elpis_name_suffix (name_of sl) (zlen wl + 1)) with (elpis_name_suffix (name_of sl) (zlen wl + 1)).
  rewrite name_suffix_spec by (first [exact (proj1 Hs)|lia]). eapply wp_lift; [done|]. cbv beta iota.
  set (nl := drop _ sl). assert (labels_ok nl) as Hnl by (apply labels_ok_drop, Hs). clearbody nl. wps.
  eapply wp_mono; [apply (val_need_spec s nl ELPIS_T_DS (w_rrbuf (s_w s))); [apply Hv|done|apply (i_base _ Hv)|done|lia]|].
  intros [have ds] s1 (Hb1 & Hwk1 & Hz1 & Hn1 & Hyes & Hno). cbn [fst snd] in *. wps. pose proof (inv_walk s s1 Hv Hb1 Hwk1) as Hv1.
  pose proof (at_signer_walk _ _ sl Hwk1 Hs) as Hs1. pose proof Hwk1 as [= Est1 _ _ _ Ec1 Ewk1 _ _ _ _ Ek1]. rewrite Est in Est1. rewrite Ec in Ec1. rewrite Ewk in Ewk1.
  pose proof (inv_rrbuf s1 ds Hv1 Hz1) as Hv2. set (s2 := mkVst _ _ _) in *. destruct have; cbn [negb].
  2:{ destruct (Hno eq_refl) as [Hw1 Hs1']. wps. split; [done|]. split; [|split; [exact Hw1|cbn; lia]]. unfold stage_ok. cbn. rewrite Est1.
      exists sl, cl, wl. by rewrite Ek1. }
  destruct (Hyes eq_refl) as [Hw1 [Hf Hty]].
  assert (descending s2 sl cl wl) as Hd2 by (split; [done|]; split; [done|]; split; [done|]; split; [done|]; split; [done|]; split; [done|]; split; [done|]; split; [cbn; by rewrite Ek1|done]).
  assert (v_steps (s_v s) <= v_steps (s_v s2) <= v_steps (s_v s) + 1) as Hn2 by (cbn; lia). clearbody s2. pose proof Hf as (En & _ & _ & rs & sgs & Hh & _).
  assert (elpis_name_eq (rs_name ds) (name_of nl) = Ok true) as Eeq by (rewrite En, name_eq_spec by done; by rewrite bool_decide_eq_true_2).
  rewrite Eeq. wps. destruct ((rs_type ds =? ELPIS_T_CNAME) && (0 <? rs_count ds)) eqn:Ecn.
  { eapply wp_lift; [done|]. cbv beta iota. eapply step_down; [done|done|lia]. }
  eapply wp_lift; [done|]. cbv beta iota. set (denied := has_flag ds ELPIS_RRF_NXDOMAIN || has_flag ds ELPIS_RRF_NODATA).
  destruct ((rs_count ds =? 0) && negb denied); [apply unavailable_turn; apply Hd2|]. wps. destruct denied eqn:Eden.
  { eapply wp_lift; [done|]. cbv beta iota. cbn [negb]. eapply descend_denied_turn; [done|done|exact Hf|lia]. }
  eapply wp_lift; [done|]. cbv beta iota. cbn [negb]. eapply descend_ds_turn; [done|done| |done|lia].
  destruct Hty as [E|(_ & [E|[E Hc]])]; [by rewrite E in Hf|unfold denied in Eden; by rewrite E in Eden|].
  rewrite E in Ecn. apply Z.ltb_lt in Hc. by rewrite Hc in Ecn.
Qed.

Lemma verify_turn s e : inv s → stage_ok (s_v s) → v_stage (s_v s) = VS_VERIFY → v_waiting (s_v s) = false →
  wp (turn_verify c mem tas now mono e) (turn_post (v_steps (s_v s))) s.
Proof using HS.
  intros Hv Hst Est Hw. unfold stage_ok in Hst. rewrite Est in Hst. destruct Hst as (sl & cl & Hs & Hcl & Ec & Hk).
  unfold turn_verify. wps. eapply wp_mono; [by apply (current_spec s sl)|]. intros g s0 [-> Eg]. wps. rewrite Ec, Eg.
  wp_call (name_eq_spec cl sl Hcl (proj1 Hs)). wps. set (x := s_v s) in *.
  apply wp_mono with (Q := fun _ s' => inv s' ∧ v_signers (s_v s') = v_signers x ∧ v_si (s_v s') = v_si x ∧ v_cur (s_v s') = v_cur x ∧ v_keys (s_v s') = v_keys x ∧
    v_status (s_v s') = v_status x ∧ v_waiting (s_v s') = false ∧ v_steps (s_v s') = v_steps x).
  { destruct (_ && _); wps; [|by split]. by destruct Hv as [[] ? ?]. }
  intros [] s1 (Hv1 & Eg1 & Ei1 & Ec1 & Ek1 & Et1 & Ew1 & Es1). wps.
  assert (at_signer (s_v s1) sl) as Hs1 by (unfold at_signer; by rewrite Eg1, Ei1).
  apply wp_mono with (Q := fun _ s' => kept_walk s1 s').
  { destruct (bool_decide_reflect (labels_eq cl sl)) as [El|El].
    - apply (verify_for_current_spec s1 cl sl); [done..|]. rewrite Ek1. destruct (Hk El) as [|Hd]; [by left|right].
      intros i Hi r z Hr (Ho & Hrest). apply (Hd i Hi r z Hr). split; [by rewrite Et1 in Ho|done].
    - eapply wp_mono; [by apply (mark_insecure_for_current_spec s1 sl)|]. by intros [] s2 [? _]. }
  intros [] s2 Hk2. wps. assert (at_signer (s_v s2) sl) as Hs2 by (eapply at_signer_eq; [apply Hk2|apply Hk2|done]).
  apply wp_mono with (Q := fun _ s' => kept_walk s1 s').
  { destruct (sg_probe g); [|by wps]. eapply wp_mono; [apply (classify_unsigned_for_current_spec s2 sl); [apply Hk2|done]|].
    intros [] s3 [Hk3 _]. by eapply kept_trans. }
  clear dependent s2. intros [] s3 (Hv3 & Hf3 & Hg3). pose proof Hf3 as [= _ Ei3 Ec3 _ _ Ew3 Es3 _]. wps. set (s4 := mkVst _ _ _).
  assert (inv s4) as Hv4 by (by destruct Hv3 as [[] ? ?]).
  assert (v_waiting (s_v s4) = false) as Ew4 by (cbn; congruence). assert (v_steps x <= v_steps (s_v s4) <= v_steps x + 2) as Hn4 by (cbn; lia).
  change (with_si (s_v s3) (v_si (s_v s3) + 1)) with (s_v s4). destruct (Z.ltb_spec (v_si (s_v s4)) (zlen (v_signers (s_v s4)))) as [Hlt|]; [|by apply goto_turn].
  destruct (signer_exists s4 Hv4) as (sl2 & Hs4); [split; [|exact Hlt]; cbn; pose proof (proj1 (proj2 Hs)); lia|]. wps.
  eapply wp_mono; [by apply (current_spec s4 sl2)|]. intros g2 s5 [-> Eg2]. rewrite Eg2. apply (anchor_turn s4 _ e sl2); [done..|]. wps.
  eapply wp_mono; [by apply (mark_insecure_for_current_spec s4 sl2)|]. intros [] s5 [Hk5 Hd5]. wps.
  assert (at_signer (s_v s5) sl2) as Hs5 by (eapply at_signer_eq; [apply Hk5|apply Hk5|done]).
  apply wp_mono with (Q := fun _ s' => kept_walk s4 s' ∧ all_done (s_v s') sl2).
  { destruct (sg_probe g2); [|by wps]. eapply wp_mono; [apply (classify_unsigned_for_current_spec s5 sl2); [apply Hk5|done]|].
    intros [] s6 [Hk6 Hd6]. split; [by eapply kept_trans|by apply Hd6]. }
  intros [] s6 [(Hv6 & Hf6 & Hg6) Hd6]. pose proof Hf6 as [= _ _ Ec6 _ _ Ew6 Es6 _]. apply goto_turn; [done| |cbn; congruence|lia].
  exists sl2, cl. split; [change (at_signer (s_v s6) sl2); by apply (at_signer_eq (s_v s4))|]. split; [done|]. split; [|intros _; right; exact Hd6]. cbn. rewrite Ec6. cbn. rewrite Ec3, Ec1. done.
Qed.

Lemma turn_spec s e : inv s → stage_ok (s_v s) → v_waiting (s_v s) = false → 0 <= v_steps (s_v s) < 2 ^ 31 →
  wp (val_turn c mem tas now mono one_buf ds_buf den_buf can_child e) (turn_post (v_steps (s_v s))) s.
Proof using HS.
  intros Hv Hst Hw Hn. unfold val_turn. wps. destruct (v_stage (s_v s)) eqn:E.
  - by apply start_turn.
  - by apply anchor_keys_turn.
  - by apply descend_turn.
  - by apply verify_turn.
  - wps. eapply wp_mono; [by apply tally_spec|]. intros [] s1 Hf. wps. exact Hf.
Qed.

(** What a run ends with. *)
Definition run_post (n : Z) (o : turn_end) (s : vst St) : Prop :=
  match o with
  | TWait => inv s ∧ stage_ok (s_v s) ∧ v_waiting (s_v s) = true ∧ n < v_steps (s_v s) <= n + 254
  | _ => finished s
  end.

Lemma turns_spec k : ∀ s e, inv s → stage_ok (s_v s) → v_waiting (s_v s) = false → 0 <= v_steps (s_v s) → v_steps (s_v s) + 2 * Z.of_nat k < 2 ^ 31 →
  wp (val_turns c mem tas now mono one_buf ds_buf den_buf can_child k e)
    (fun o s' => match o with
       | TWait => inv s' ∧ stage_ok (s_v s') ∧ v_waiting (s_v s') = true ∧ v_steps (s_v s) < v_steps (s_v s') <= v_steps (s_v s) + 2 * Z.of_nat k
       | _ => finished s' end) s.
Proof using HS.
  induction k as [|k IH]; intros s e Hv Hst Hw H0 Hn; cbn [val_turns].
  { wps. eapply wp_mono; [by apply val_done_spec; [apply Hv|]|]. intros [] s1 Hf. by wps. }
  wps. eapply wp_mono; [apply (turn_spec s e); [done..|lia]|]. intros [o e1] s1 Hp. destruct o; cbn in Hp; [|by wps|].
  - destruct Hp as (Hv1 & Hst1 & Hw1 & Hn1). eapply wp_mono; [apply IH; done || lia|]. intros o s2 Hp2. destruct o; try done.
    destruct Hp2 as (? & ? & ? & ?). split; [done|]. split; [done|]. split; [done|]. lia.
  - wps. destruct Hp as (? & ? & ? & ?). split; [done|]. split; [done|]. split; [done|]. lia.
Qed.

Lemma step_spec s : inv s → stage_ok (s_v s) → v_waiting (s_v s) = false → 0 <= v_steps (s_v s) < 2 ^ 30 →
  wp (val_step c mem tas now mono one_buf ds_buf den_buf can_child)
    (fun o s' => run_post (v_steps (s_v s)) o s' ∧ (o = TWait → v_steps (s_v s) <= VAL_MAX_STEPS)) s.
Proof using HS.
  intros Hv Hst Hw Hn. unfold val_step. wps. destruct (Z.ltb_spec VAL_MAX_STEPS (v_steps (s_v s))).
  - wps. eapply wp_mono; [by apply val_done_spec; [apply base_task; [apply Hv|apply (b_task _ (i_base _ Hv))]|]|]. intros [] s1 Hf. by wps.
  - eapply wp_mono; [apply (turns_spec 127 s (-1)); done || lia|]. intros o s1 Hp. split; [|done]. destruct o; try done.
Qed.
End Inv.
