(* ===== verification/Valstore.v ===== *)
(** The caches the validator runs over: the RRset cache and the delegation cache
    give the interface of Valstep, and keep what Valinv asks of it. *)
From stdpp Require Import base list numbers gmap.
From Stdlib Require Import ZArith Lia.
From S2P Require Import Prelude Bytes Simd Name NameOps Rdesc Rnames Ratelimit Rrset Dnskey Rrsig Rrvalid Nsec Nsec3 Cache Cachemap Rcache Dcache Valset Valflight Valstep Valinv.

(** The two caches of the process. *)
Record caches := mkCaches { cs_rr : rcache_t; cs_deleg : dcache_t }.

Section Store.
(** Whether tables can grow, and memory for entries, as Rcache and Dcache take them. *)
Context (alloc : Z → bool) (mem : Z → option (list Z)).

Definition no_deleg : elpis_deleg_t := mkDeleg (mkName 0 0 []) ELPIS_SEC_UNCHECKED ELPIS_DS_UNKNOWN false 0 [].

(** Class IN throughout; what a call leaves to be freed is freed. *)
#[local] Instance caches_store : ValStore caches := {|
  vs_get s n type now stale out :=
    '(rc, out, c) ← elpis_rcache_get (cs_rr s) n type ELPIS_CLASS_IN now stale out; Ok (rc, out, mkCaches c (cs_deleg s));
  vs_put s clock b stale := '(_, c, _) ← elpis_rcache_put_buf alloc mem clock (cs_rr s) b stale false; Ok (mkCaches c (cs_deleg s));
  vs_state s n type now := '(r, c) ← elpis_rcache_state (cs_rr s) n type ELPIS_CLASS_IN now; Ok (r, mkCaches c (cs_deleg s));
  vs_del s n type := '(_, c, _) ← elpis_rcache_del (cs_rr s) n type ELPIS_CLASS_IN; Ok (mkCaches c (cs_deleg s));
  vd_get s n now :=
    '(rc, d, c) ← elpis_dcache_get (cs_deleg s) n now no_deleg;
    Ok (if decide (rc = ELPIS_OK) then Some d else None, mkCaches (cs_rr s) c);
  vd_put s clock d := '(_, c, _) ← elpis_dcache_put alloc mem clock (cs_deleg s) d (d_ttl d) (d_pinned d); Ok (mkCaches (cs_rr s) c);
  vd_state s n now := '(x, c) ← elpis_dcache_ds_state (cs_deleg s) n now; Ok (x, mkCaches (cs_rr s) c) |}.

(** All that is stored with the stamp SECURE satisfies [P]. *)
Definition stamped (P : list (list Z) → Z → Z → list (list Z) → Prop) (c : rcache_t) : Prop :=
  ∀ q e ls rs sgs, rcache_map c !! q = Some e → rent_holds (e_body e) ls rs sgs → r_sec (e_body e) = ELPIS_SEC_SECURE →
    P (fold_labels ls) (r_type (e_body e)) (r_klass (e_body e)) rs.

Definition caches_ok (P : list (list Z) → Z → Z → list (list Z) → Prop) (s : caches) : Prop :=
  rcache_ok (cs_rr s) ∧ dcache_ok (cs_deleg s) ∧ stamped P (cs_rr s).

Lemma stamped_sub P c c' : stamped P c → rcache_map c' ⊆ rcache_map c → stamped P c'.
Proof. intros H Hs q e ls rs sgs Hq. apply (H q). by eapply lookup_weaken. Qed.

(** The entry under a key is of that owner, type and class. *)
Lemma entry_of c ls type klass e ls' rs sgs : rcache_ok c → labels_ok ls → rcache_map c !! rkey_of ls type klass = Some e →
  rent_holds (e_body e) ls' rs sgs → fold_labels ls' = fold_labels ls ∧ r_type (e_body e) = type ∧ r_klass (e_body e) = klass.
Proof.
  intros Hc [Hls _] He Hh. destruct (cache_map_ok _ _ _ _ _ _ Hc He) as [_ Ek]. unfold e_key in Ek. rewrite (rent_key_holds _ _ _ _ Hh) in Ek.
  destruct (re_labels _ _ _ _ Hh) as [Hls' _]. unfold rkey_of in Ek. injection Ek as Ew Et Ekl. split; [|done]. by apply labels_eq_wire in Ew.
Qed.

(** Two readings of an entry agree. *)
Lemma enc_recs_inj a : ∀ b, Forall rec_ok a → Forall rec_ok b → length a = length b → concat (map enc_rec a) = concat (map enc_rec b) → a = b.
Proof.
  induction a as [|x a IH]; intros [|y b] Ha Hb Hl E; cbn [length map concat] in *; try done. injection Hl as Hl.
  apply Forall_cons_1 in Ha as [[_ Hx] Ha], Hb as [[_ Hy] Hb]. unfold enc_rec, put16_bytes in E. cbn [app] in E.
  injection E as E1 E2 E. pose proof (zlen_nonneg x). pose proof (zlen_nonneg y).
  assert (zlen x = zlen y) as Ez.
  { unfold u8 in *. rewrite !Z.shiftr_div_pow2 in E1 by lia. pose proof (Z.div_mod (zlen x) 256). pose proof (Z.div_mod (zlen y) 256).
    change (2 ^ 8) with 256 in *. rewrite !(Z.mod_small (_ / 256)) in E1 by (split; [apply Z.div_pos; lia|apply Z.div_lt_upper_bound; lia]). lia. }
  apply app_inj_1 in E as [-> E]; [|zl]. f_equal. by apply IH.
Qed.

Lemma entry_det e ls rs sgs ls' rs' sgs' : rent_holds e ls rs sgs → rent_holds e ls' rs' sgs' → fold_labels ls = fold_labels ls' ∧ rs = rs' ∧ sgs = sgs'.
Proof.
  intros H1 H2. pose proof (rent_key_holds _ _ _ _ H1) as E. rewrite (rent_key_holds _ _ _ _ H2) in E. unfold rkey_of in E. injection E as E.
  destruct (re_labels _ _ _ _ H1) as [Hl1 _]. destruct (re_labels _ _ _ _ H2) as [Hl2 _]. split; [symmetry; by apply labels_eq_wire in E|].
  destruct (re_area _ _ _ _ H1) as (f1 & A1 & F1). destruct (re_area _ _ _ _ H2) as (f2 & A2 & F2). rewrite A1, E, <- E in A2.
  pose proof (re_count _ _ _ _ H1) as C1. rewrite (re_count _ _ _ _ H2) in C1. pose proof (re_sigcount _ _ _ _ H1) as S1. rewrite (re_sigcount _ _ _ _ H2) in S1.
  rewrite !app_assoc in A2. apply app_inj_1 in A2 as [_ A2].
  2:{ apply (f_equal (@length Z)) in E. rewrite !length_map in E. rewrite !length_app, !length_map. zl. }
  apply enc_recs_inj in A2; [|apply H1|apply H2|rewrite !length_app; zl]. apply app_inj_1 in A2 as [-> ->]; [done|zl].
Qed.

Context (Hgrow : ∀ cap, alloc cap = true → cap <= 2 ^ 30) (Hmem : mem_ok mem).

(** Storing an RRset leaves what was there, or what was stored. *)
Lemma put_buf_spec clock c b o rs sgs stale : rcache_ok c → labels_ok o → rs_name b = name_of o → rrset_holds b rs sgs →
  ∃ rc c' f, elpis_rcache_put_buf alloc mem clock c b stale false = Ok (rc, c', f) ∧ rcache_ok c' ∧
    ∀ q e, rcache_map c' !! q = Some e → rcache_map c !! q = Some e ∨
      rent_holds (e_body e) o rs sgs ∧ r_type (e_body e) = rs_type b ∧ r_klass (e_body e) = rs_klass b ∧ r_sec (e_body e) = rs_sec b.
Proof using Hgrow Hmem.
  intros Hc Ho En Hb. unfold elpis_rcache_put_buf. destruct (put_buf_recs _ _ _ Hb) as [-> ->]. do 2 bind_ok. rewrite En.
  assert (Forall rec_ok (rs ++ sgs)) as Hok.
  { apply Forall_forall. intros r Hr. destruct (rrset_rec_size _ _ _ r Hb) as [Hbr Hz]; [exact Hr|]. split; [done|]. unfold ELPIS_RRSET_BUF in *. lia. }
  pose proof (rh_max _ _ _ Hb) as Hmax. pose proof (zlen_nonneg rs). pose proof (zlen_nonneg sgs).
  assert (kept_rd rs = rs) as Erd by (apply take_ge; zl). assert (kept_sig rs sgs = sgs) as Esg by (unfold kept_sig; rewrite Erd; apply take_ge; zl).
  destruct (rcache_put_spec alloc mem clock c o (rs_type b) (rs_klass b) (rs_ttl b) (rs_sec b) (rs_flags b) (rs_zone_labels b) rs sgs stale false Hmem Ho Hok)
    as [(rc & E & _)|(e & k & E & He & Hk & Eke & _ & Hh & Et & Ekl & Es & _)].
  { exists rc, c, []. split; [exact E|]. split; [done|]. by left. }
  rewrite Erd, Esg in Hh. rewrite E.
  destruct (cache_insert_spec rent_eq rent_key rkey_canon rkey_hash rent_ok rkey_ok rent_eq_spec alloc c e k clock Hc Hgrow He Hk Eke)
    as (rc & c' & f & -> & Hc' & Hcase). exists rc, c', f. split; [done|]. split; [done|]. clear E.
  assert (∀ q x m, m ⊆ rcache_map c → <[rkey_canon k := strip e]> m !! q = Some x → rcache_map c !! q = Some x ∨
    rent_holds (e_body x) o rs sgs ∧ r_type (e_body x) = rs_type b ∧ r_klass (e_body x) = rs_klass b ∧ r_sec (e_body x) = rs_sec b) as Hins.
  { intros q x m Hm [[_ <-]|[_ Hq]]%lookup_insert_Some; [right; split; [exact Hh|split; [exact Et|split; [exact Ekl|exact Es]]]|left; by eapply lookup_weaken]. }
  intros q x Hq. destruct (rcache_map c !! rkey_canon k) as [old|].
  - destruct Hcase as (_ & Em & _). rewrite Em in Hq. by eapply Hins.
  - destruct Hcase as (g & _ & _ & [(_ & _ & Em)|(_ & _ & Em & _)]); rewrite Em in Hq.
    + eapply Hins; [|exact Hq]. apply map_subseteq_difference_l. done.
    + left. eapply lookup_weaken; [exact Hq|]. by apply map_subseteq_difference_l.
Qed.

Lemma read_ns_ok r : ns_ok r → ns_ok (read_ns r).
Proof. intros [H1 H2 H3 H4 H5]. split; try done. cbn. by destruct (_ =? _). Qed.

#[local] Instance caches_laws : ValStoreLaws caches.
Proof using Hgrow Hmem.
  refine {| vs_ok := caches_ok |}.
  - intros P s o type now stale out (Hr & Hd & Hp) Ho Hout. cbn [vs_get caches_store].
    destruct (rcache_get_spec (cs_rr s) o type ELPIS_CLASS_IN now stale out Hr Ho Hout) as (rc & out' & c' & -> & Hc' & Em & Hsz & Hpk & Hcase).
    bind_step. eexists rc, out', _. split; [reflexivity|]. split; [split; [done|split; [done|]]|].
    { eapply stamped_sub; [exact Hp|]. cbn. by rewrite Em. }
    split; [done|]. intros ->. destruct (Hpk eq_refl) as (e & He & Hpack). rewrite He in Hcase.
    destruct (cache_map_ok _ _ _ _ _ _ Hr He) as [(_ & _ & _ & ls & rs & sgs & Hh) _]. specialize (Hcase ls rs sgs Hh).
    destruct (entry_of _ _ _ _ _ _ _ _ Hr Ho He Hh) as (El & Et & Ekl). unfold served in Hcase.
    destruct (too_old _ _ _); [by destruct Hcase|]. destruct (_ <=? _); [|done]. destruct Hcase as (_ & Hh' & [= En2 Et2 Ekl2 _ _ Es2 _ _]).
    split; [done|]. split; [congruence|]. split; [congruence|]. exists rs, sgs. split; [done|]. split; [by eapply Hpack|].
    rewrite Es2, <- El, <- Et, <- Ekl. by apply (Hp _ e ls rs sgs He Hh).
  - intros P s clock b stale o rs sgs (Hr & Hd & Hp) Ho En Hb Hsec. cbn [vs_put caches_store].
    destruct (put_buf_spec clock (cs_rr s) b o rs sgs stale Hr Ho En Hb) as (rc & c' & f & -> & Hc' & Hin). bind_step.
    eexists. split; [reflexivity|]. split; [done|]. split; [done|]. intros q e ls rs' sgs' Hq Hh Hs.
    destruct (Hin q e Hq) as [Hq'|(Hh2 & -> & -> & Es)]; [by eapply Hp|]. destruct (entry_det _ _ _ _ _ _ _ Hh Hh2) as (-> & -> & _). apply Hsec. congruence.
  - intros P s o type now (Hr & Hd & Hp) Ho. cbn [vs_state caches_store].
    destruct (rcache_state_spec (cs_rr s) o type ELPIS_CLASS_IN now Hr Ho) as (r & c' & -> & Hc' & Em & _). bind_step.
    eexists _, _. split; [reflexivity|]. split; [done|]. split; [done|]. eapply stamped_sub; [exact Hp|]. cbn. by rewrite Em.
  - intros P s o type (Hr & Hd & Hp) Ho. cbn [vs_del caches_store].
    destruct (rcache_del_spec (cs_rr s) o type ELPIS_CLASS_IN Hr Ho) as (rc & c' & f & -> & Hc' & Em). bind_step.
    eexists. split; [reflexivity|]. split; [done|]. split; [done|]. eapply stamped_sub; [exact Hp|]. cbn. rewrite Em. apply delete_subseteq.
  - intros P s o now (Hr & Hd & Hp) Ho. cbn [vd_get caches_store].
    destruct (dcache_get_spec (cs_deleg s) o now no_deleg Hd Ho) as (rc & d & c' & -> & Hc' & Em & Hcase). bind_step.
    eexists _, _. split; [reflexivity|]. split; [by split|]. intros x Hx. destruct (decide (rc = ELPIS_OK)) as [->|]; [|done]. injection Hx as ->.
    destruct (dcache_map (cs_deleg s) !! dkey_of o) as [r|]; [|by destruct Hcase]. destruct Hcase as (ls & ns & Hh & Hcase).
    destruct (dent_stale r now); [by destruct Hcase|]. destruct Hcase as [_ ->]. split; [done|]. split; [done|]. cbn [deleg_at d_ns].
    split; [|rewrite zlen_map; by apply (dh_max _ _ _ Hh)]. apply Forall_map. eapply Forall_impl; [apply (dh_ns _ _ _ Hh)|]. intros y. apply read_ns_ok.
  - intros P s now d o (Hr & Hd & Hp) Ho. cbn [vd_put caches_store].
    destruct (dcache_put_spec alloc mem now (cs_deleg s) d o (d_ttl d) (d_pinned d) Hgrow Hmem Hd Ho) as (rc & c' & f & -> & Hc' & _). bind_step.
    eexists. split; [reflexivity|]. by split.
  - intros P s o now (Hr & Hd & Hp) Ho. cbn [vd_state caches_store].
    destruct (dcache_ds_state_spec (cs_deleg s) o now Hd Ho) as (x & c' & -> & Hc' & _). bind_step. eexists _, _. split; [reflexivity|]. by split.
Defined.
End Store.
