(* ===== verification/Valchain.v ===== *)
(** The validation of an answer, from its start to its verdict: the proofs about
    [elpis_val_start] and [val_resume].

    [lives] is the life of one validation: a start, then a resumption for every
    look-up that lands, each in a world the rest of the resolver has changed as
    it liked within [world_ok]. *)
From stdpp Require Import base list numbers gmap.
From Stdlib Require Import ZArith Lia.
From S2P Require Import Prelude Bytes Simd Name NameOps Rdesc Rnames Mdhash Sha1 Sha2 Ratelimit Rrset Dnskey Rrsig Rrvalid Nsec Nsec3 Cache Cachemap Rcache Dcache Rrlist Valset Valflight Valstep Valinv Valstore.

Lemma spends_counted n : ∀ s s', spends n s s' → 0 <= g_verifies s < 2 ^ 64 →
  0 <= g_verifies s' < 2 ^ 64 ∧ u64 (g_verifies s' - g_verifies s) = u64 (Z.of_nat n).
Proof.
  induction n as [|n IH]; intros s s' Hn Hr; cbn [spends] in Hn; [subst; by rewrite Z.sub_diag|].
  destruct Hn as (s1 & Hs & Hn). assert (g_verifies s1 = u64 (g_verifies s + 1)) as E.
  { unfold spend in Hs. destruct (g_val_spent s); [destruct (_ <=? _); [done|]|]; by injection Hs as <-. }
  destruct (IH _ _ Hn) as [Hr' E']; [rewrite E; unfold u64; apply Z.mod_pos_bound; lia|]. split; [done|]. unfold u64 in *. rewrite E in E'.
  transitivity ((Z.of_nat n + 1) mod 2 ^ 64); [|f_equal; lia]. rewrite <- Zplus_mod_idemp_l, <- E', Zplus_mod_idemp_l.
  replace (g_verifies s' - (g_verifies s + 1) mod 2 ^ 64 + 1) with (g_verifies s' + 1 - (g_verifies s + 1) mod 2 ^ 64) by lia.
  rewrite Zminus_mod_idemp_r. f_equal. lia.
Qed.

Section Life.
Context `{SP : SigPrims} {St : Type} `{VS : ValStore St} `{VL : !ValStoreLaws St}.
Context (c : vconf) (tas : list elpis_ta_t) (T : vtask) (R : list trec) (qn : list (list Z)).
Abbreviation conf := (vc_sec c).

(** What a run finds besides the world: memory, the clocks, the scratch buffers
    of the thread, and whether a child can be started. *)
Record around := mkAround {
  ar_mem : bool; ar_now : Z; ar_mono : Z; ar_one : elpis_rrset_buf_t; ar_ds : elpis_rrset_buf_t; ar_den : elpis_rrset_buf_t;
  ar_child : list vchild → elpis_name_t → Z → bool }.
Definition begins (a : around) := elpis_val_start c (ar_mem a) tas (ar_now a) (ar_mono a) (ar_one a) (ar_ds a) (ar_den a) (ar_child a).
Definition resumes (a : around) := val_resume c (ar_mem a) tas (ar_now a) (ar_mono a) (ar_one a) (ar_ds a) (ar_den a) (ar_child a).
Definition runs (a : around) := val_run c (ar_mem a) tas (ar_now a) (ar_mono a) (ar_one a) (ar_ds a) (ar_den a) (ar_child a).
Abbreviation setting_at a live := (setting c tas (ar_now a) (ar_one a) (ar_ds a) (ar_den a) live T R qn).

(** The world with the tasks [live], in which this validation keeps the sets
    [kept] and the others keep [rest]. *)
Record world_ok (live : gset Z) (rest kept : list Z) (w : vworld St) : Prop := {
  wo_store : vs_ok (vouched conf tas) (w_store w);
  wo_flight : flight_ok live (w_flight w);
  wo_ledger : ledger (w_heap w) (kept ++ rest);
  wo_heap : ∀ k e, w_heap w !! k = Some e → good conf tas (kp_set e);
  wo_rrbuf : rrset_sized (w_rrbuf w);
  wo_count : 0 <= g_verifies (w_cnt w) < 2 ^ 64 }.

(** What a validation that waits has established. *)
Record val_ok (v : val_t) : Prop := {
  vo_failed : zlen (v_failed v) = VAL_FAILED;
  vo_status : zlen (v_status v) = VAL_MAX_SETS;
  vo_keys : rrset_sized (v_keys v);
  vo_signers : Forall (fun g => wf_name (sg_name g)) (v_signers v);
  vo_secure : ∀ i r, R !! i = Some r → v_status v !! i = Some SS_SECURE → secure c tas R r;
  vo_stage : stage_ok c tas R v;
  vo_verifies : 0 <= v_verifies v <= VAL_MAX_VERIFIES;
  vo_steps : 0 <= v_steps v <= VAL_MAX_STEPS + 254 }.

(** Public-key operations of a run, by the thread's counter. *)
Definition operations (w w' : vworld St) : Z := u64 (g_verifies (w_cnt w') - g_verifies (w_cnt w)).

(** Nothing of the task is in the shared tables, where the other validations
    keep [rest]. *)
Definition left_nothing (rest : list Z) (w : vworld St) : Prop :=
  (∀ f, f ∈ w_flight w → f_hash f ≠ 0 → (k_id T ∉ f_waiter f) ∧ f_owner f ≠ Some (k_id T)) ∧
  ledger (w_heap w) rest ∧ vs_ok (vouched conf tas) (w_store w).

Definition after_run (live : gset Z) (rest : list Z) (v : val_t) (w : vworld St) (r : vworld St * vtask * option val_t) : Prop :=
  let '(w', t', ov) := r in
  tstat t' = tstat T ∧ g_val_spent (w_cnt w') = g_val_spent (w_cnt w) ∧ 0 <= operations w w' ∧ v_verifies v + operations w w' <= VAL_MAX_VERIFIES ∧
  match ov with
  | Some v' => v_waiting v' = true ∧ val_ok v' ∧ world_ok live rest (v_kept v') w' ∧ v_steps v < v_steps v' ∧ v_steps v <= VAL_MAX_STEPS ∧
      v_verifies v' = v_verifies v + operations w w'
  | None => world_ok (live ∖ {[k_id T]}) rest [] w' ∧ (k_sec t' = ELPIS_SEC_SECURE → all_secure c tas T R qn)
  end.

Definition own_budget (w : vworld St) (v : val_t) : counters := mkCounters (g_verifies (w_cnt w)) (Some (v_verifies v)).
Definition own_state (w : vworld St) (t : vtask) (v : val_t) : vst St :=
  mkVst (mkVw (w_store w) (w_flight w) (w_heap w) (w_sent w) (own_budget w v) (w_rrbuf w)) t v.

Lemma own_inv live rest w t v : world_ok live rest (v_kept v) w → val_ok v → tstat t = tstat T →
  inv c tas live rest T R (own_budget w v) (own_state w t v).
Proof using.
  intros [] [] Ht. split; [|done|done]. split; try done. by exists 0%nat.
Qed.

Lemma spent_at live rest w v s : base c tas live rest T (own_budget w v) s → world_ok live rest (v_kept v) w → val_ok v →
  ∃ n, g_val_spent (w_cnt (s_w s)) = Some (v_verifies v + n) ∧ 0 <= n ∧ v_verifies v + n <= VAL_MAX_VERIFIES ∧
    u64 (g_verifies (w_cnt (s_w s)) - g_verifies (w_cnt w)) = n ∧ 0 <= g_verifies (w_cnt (s_w s)) < 2 ^ 64.
Proof using.
  intros Hb Hw Hv. destruct (b_spent _ _ _ _ _ _ _ Hb) as (n & Hn). destruct (spends_capped n _ _ (v_verifies v) Hn eq_refl (vo_verifies _ Hv)) as [Es Hc].
  destruct (spends_counted n _ _ Hn (wo_count _ _ _ _ Hw)) as [Hr E]. pose proof (vo_verifies _ Hv). exists (Z.of_nat n). split; [exact Es|]. split; [lia|]. split; [lia|].
  split; [|done]. cbn [own_budget g_verifies] in E. rewrite E. unfold u64, VAL_MAX_VERIFIES in *. apply Z.mod_small. lia.
Qed.

Lemma run_spec a live rest w t v : setting_at a live → world_ok live rest (v_kept v) w → val_ok v → tstat t = tstat T → v_waiting v = false →
  ∃ r, runs a w t (Some v) = Ok r ∧ after_run live rest v w r.
Proof using VL.
  intros HS Hw Hv Ht Hwait. pose proof (own_inv live rest w t v Hw Hv Ht) as Hi. pose proof (vo_steps _ Hv) as Hn.
  destruct (step_spec c (ar_mem a) tas (ar_now a) (ar_mono a) (ar_one a) (ar_ds a) (ar_den a) (ar_child a) live rest T R qn (own_budget w v) HS
    (own_state w t v) Hi (vo_stage _ Hv) Hwait) as (o & s & E & Hp & Hcap); [cbn; unfold VAL_MAX_STEPS in *; lia|].
  assert (base c tas live rest T (own_budget w v) s) as Hb by (destruct o; apply Hp).
  destruct (spent_at live rest w v s Hb Hw Hv) as (n & Es & Hn0 & Hn1 & Eu & Hr).
  unfold runs, val_run. unfold own_state, own_budget in E. rewrite E. bind_step. eexists. split; [reflexivity|].
  unfold after_run, operations. cbn [w_cnt g_verifies g_val_spent]. rewrite Eu. split; [apply Hb|]. split; [done|]. split; [done|]. split; [done|].
  assert (∀ l ks, flight_ok l (w_flight (s_w s)) → v_kept (s_v s) = ks →
    world_ok l rest ks (mkVw (w_store (s_w s)) (w_flight (s_w s)) (w_heap (s_w s)) (w_sent (s_w s))
      (mkCounters (g_verifies (w_cnt (s_w s))) (g_val_spent (w_cnt w))) (w_rrbuf (s_w s)))) as Hworld.
  { intros l ks Hl <-. split; cbn; first [apply Hb|done]. }
  destruct o.
  - split; [apply Hworld; apply Hp|apply Hp].
  - split; [apply Hworld; apply Hp|apply Hp].
  - destruct Hp as (Hi' & Hst & Hw' & Hsteps). rewrite Es. cbn [default]. split; [exact Hw'|]. specialize (Hcap eq_refl).
    change (s_v (own_state w t v)) with v in Hsteps, Hcap.
    split; [|split; [apply (Hworld live); [apply Hb|done]|split; [cbn; lia|by split]]].
    split; try (apply Hb || apply Hi'); [exact Hst| |]; pose proof (vo_verifies _ Hv); cbn [with_verifies v_verifies v_steps]; unfold id; lia.
Qed.

Lemma alloc_ok keys : rrset_sized keys → val_ok (val_alloc keys).
Proof using.
  intros Hk. split; try done. intros i r _ E. exfalso. cbn [val_alloc v_status] in E. apply lookup_replicate in E as [E _]. done.
Qed.

Lemma tstat_nchild t n : tstat (with_nchild t n) = tstat t.
Proof using. done. Qed.

(** A start: either a verdict is not asked for, or the first run. *)
Definition begun (live : gset Z) (rest : list Z) (w : vworld St) (r : bool * (vworld St * vtask * option val_t)) : Prop :=
  let '(b, (w', t', ov)) := r in
  (b = false ∧ w' = w ∧ ov = None ∧ tstat t' = tstat T ∧ k_sec t' = ELPIS_SEC_UNCHECKED) ∨
  (b = match ov with Some _ => true | None => false end ∧ ∃ keys, rrset_sized keys ∧ after_run live rest (val_alloc keys) w (w', t', ov)).

Lemma begin_spec a live rest w t keys : setting_at a live → world_ok live rest [] w → tstat t = tstat T → (∀ k, keys = Some k → rrset_sized k) →
  ∃ r, begins a keys w t None = Ok r ∧ begun live rest w r.
Proof using VL.
  intros HS Hw Ht Hk. unfold begins, elpis_val_start. set (unchecked := Ok _).
  assert (∃ r, unchecked = Ok r ∧ begun live rest w r) as Hun by (eexists; split; [done|by left]).
  do 6 (match goal with |- context [if ?b then unchecked else _] => destruct b; [exact Hun|] end).
  destruct keys as [k|]; [|exact Hun]. cbn [fmap option_fmap option_map].
  destruct (run_spec a live rest w t (val_alloc k) HS Hw (alloc_ok k (Hk k eq_refl)) Ht eq_refl) as ([[w' t'] ov] & E & Hp).
  unfold runs in E. rewrite E. bind_step. eexists. split; [reflexivity|]. right. split; [|exists k; by split; [apply Hk|]].
  destruct ov as [v'|]; [|done]. apply Hp.
Qed.

Lemma world_waits live rest w v x : world_ok live rest (v_kept v) w → world_ok live rest (v_kept (with_waiting v x)) w.
Proof using. done. Qed.

Lemma val_ok_same v x k : val_ok v → val_ok (with_kept (with_waiting v x) k).
Proof using. intros []. by split. Qed.

Lemma resume_spec a live rest w t v k x : setting_at a live → world_ok live rest k w → tstat t = tstat T → val_ok v →
  ∃ b r, resumes a w t (Some (with_kept (with_waiting v x) k)) = Ok (b, r) ∧ after_run live rest v w r ∧
    b = match snd r with Some _ => false | None => true end.
Proof using VL.
  intros HS Hw Ht Hv. unfold resumes, val_resume.
  destruct (run_spec a live rest w (if k_nchild t =? 0 then t else with_nchild t (k_nchild t - 1)) (with_kept (with_waiting v false) k) HS Hw) as ([[w' t'] ov] & E & Hp);
    [by apply val_ok_same|by destruct (_ =? _)|done|].
  unfold runs in E. cbv zeta. change (with_waiting (with_kept (with_waiting v x) k) false) with (with_kept (with_waiting v false) k).
  rewrite E. bind_step. eexists _, _. split; [reflexivity|]. split; [exact Hp|]. destruct ov as [v'|]; cbn [snd]; [|done].
  destruct Hp as (_ & _ & _ & _ & -> & _). done.
Qed.

(** The life of a validation, [n] runs and [m] public-key operations long. *)
Inductive lives : Z → Z → vworld St → vtask → option val_t → Prop :=
  | lives_begin a live rest w t keys b w' t' ov : setting_at a live → world_ok live rest [] w → flight_ok (live ∖ {[k_id T]}) (w_flight w) →
      tstat t = tstat T → (∀ k, keys = Some k → rrset_sized k) →
      begins a keys w t None = Ok (b, (w', t', ov)) → lives 1 (operations w w') w' t' ov
  | lives_resume n m w0 t0 v a live rest w t kept b w' t' ov : lives n m w0 t0 (Some v) →
      setting_at a live → world_ok live rest kept w → tstat t = tstat T →
      resumes a w t (Some (with_kept v kept)) = Ok (b, (w', t', ov)) → lives (n + 1) (m + operations w w') w' t' ov.

Lemma world_less live live' rest kept w : world_ok live rest kept w → flight_ok live' (w_flight w) → world_ok live' rest kept w.
Proof using. intros [] ?. by split. Qed.

Lemma operations_none (w : vworld St) : operations w w = 0.
Proof using. unfold operations. by rewrite Z.sub_diag. Qed.

Lemma lives_ok n m w t ov : lives n m w t ov →
  tstat t = tstat T ∧ 0 <= m <= VAL_MAX_VERIFIES ∧
  match ov with
  | Some v => val_ok v ∧ v_waiting v = true ∧ n <= v_steps v ∧ n <= VAL_MAX_STEPS + 1 ∧ v_verifies v = m
  | None => n <= VAL_MAX_STEPS + 2 ∧ (∃ live rest, world_ok (live ∖ {[k_id T]}) rest [] w) ∧ (k_sec t = ELPIS_SEC_SECURE → all_secure c tas T R qn)
  end.
Proof using VL.
  induction 1 as [a live rest w t keys b w' t' ov HS Hw Hf Ht Hk E|n m w0 t0 v a live rest w t kept b w' t' ov _ (Ht0 & Hm & Hv & Hwait & Hn & Hn1 & Em) HS Hw Ht E].
  - destruct (begin_spec a live rest w t keys HS Hw Ht Hk) as (r & E' & Hp). rewrite E in E'. injection E' as <-.
    destruct Hp as [(-> & -> & -> & Ht' & Hsec)|(-> & k & Hks & Ht' & _ & Hop & Hmax & Hp)].
    { rewrite operations_none. split; [done|]. split; [done|]. split; [done|]. split; [|by rewrite Hsec]. exists live, rest. by eapply world_less. }
    cbn [val_alloc v_verifies v_steps] in *. split; [done|]. split; [lia|]. destruct ov as [v'|].
    + destruct Hp as (Hw' & Hv' & _ & Hs & _ & Hvf). split; [done|]. split; [done|]. split; [lia|]. split; [done|]. lia.
    + split; [done|]. split; [exists live, rest; apply Hp|apply Hp].
  - destruct (resume_spec a live rest w t v kept (v_waiting v) HS Hw Ht Hv) as (b' & r & E' & Hp & _).
    replace (with_kept (with_waiting v (v_waiting v)) kept) with (with_kept v kept) in E' by by destruct v. rewrite E in E'. injection E' as <- <-.
    destruct Hp as (Ht' & _ & Hop & Hmax & Hp). split; [done|]. split; [lia|]. destruct ov as [v'|].
    + destruct Hp as (Hw' & Hv' & _ & Hs & Hcap & Hvf). split; [done|]. split; [done|]. split; [lia|]. split; [lia|]. lia.
    + split; [lia|]. split; [exists live, rest; apply Hp|apply Hp].
Qed.

Lemma world_left live rest w : world_ok (live ∖ {[k_id T]}) rest [] w → left_nothing rest w.
Proof using.
  intros Hw. split; [|split; [apply (wo_ledger _ _ _ _ Hw)|apply (wo_store _ _ _ _ Hw)]]. intros f Hin Hne.
  destruct (Forall_elem _ _ _ (proj2 (wo_flight _ _ _ _ Hw)) Hin Hne) as [_ _ _ Hl (o & Eo & Ho)].
  assert (k_id T ∉ f_waiter f) as Hno by (intros H%Hl; apply elem_of_difference in H as [_ H]; by apply H, elem_of_singleton).
  split; [exact Hno|]. rewrite Eo. by intros [= ->].
Qed.


(** C2. A validation ends: a start returns, and so does a resumption of every
    validation that waits, with the verdict or waiting for one more look-up; no
    validation waits more than 385 times, and the resumption after the 385th
    brings the verdict, whatever the look-ups brought; with signature-clock-skew
    0 ([st_dates]). *)
Theorem validation_terminates :
  (∀ a live rest w t keys, setting_at a live → world_ok live rest [] w → tstat t = tstat T → (∀ k, keys = Some k → rrset_sized k) →
     ∃ b w' t' ov, begins a keys w t None = Ok (b, (w', t', ov)) ∧ b = match ov with Some _ => true | None => false end) ∧
  (∀ n m w0 t0 v a live rest w t kept, lives n m w0 t0 (Some v) → setting_at a live → world_ok live rest kept w → tstat t = tstat T →
     n <= VAL_MAX_STEPS + 1 ∧
     ∃ b w' t' ov, resumes a w t (Some (with_kept v kept)) = Ok (b, (w', t', ov)) ∧ b = match ov with Some _ => false | None => true end ∧
       (n = VAL_MAX_STEPS + 1 → ov = None)).
Proof using VL.
  split.
  - intros a live rest w t keys HS Hw Ht Hk. destruct (begin_spec a live rest w t keys HS Hw Ht Hk) as ([b [[w' t'] ov]] & E & Hp).
    exists b, w', t', ov. split; [exact E|]. by destruct Hp as [(-> & _ & -> & _)|[-> _]].
  - intros n m w0 t0 v a live rest w t kept Hl HS Hw Ht. pose proof (lives_ok _ _ _ _ _ Hl) as (_ & _ & Hv & _ & _ & Hn & _). split; [exact Hn|].
    destruct (resume_spec a live rest w t v kept (v_waiting v) HS Hw Ht Hv) as (b & [[w' t'] ov] & E & _ & Hb).
    replace (with_kept (with_waiting v (v_waiting v)) kept) with (with_kept v kept) in E by by destruct v.
    exists b, w', t', ov. split; [exact E|]. split; [exact Hb|]. intros ->. destruct ov as [v'|]; [|done].
    pose proof (lives_ok _ _ _ _ _ (lives_resume _ _ _ _ _ _ _ _ _ _ _ _ _ _ _ Hl HS Hw Ht E)) as (_ & _ & _ & _ & _ & Hn' & _). lia.
Qed.

(** C7. One budget for a validation: all its runs together do at most 64
    public-key operations, counted on the thread's own counter, and what it
    carries from one run to the next is exactly what it has spent; with
    signature-clock-skew 0 ([st_dates]). *)
Theorem validation_budget n m w t ov : lives n m w t ov →
  0 <= m <= VAL_MAX_VERIFIES ∧ (∀ v, ov = Some v → v_verifies v = m).
Proof using VL. intros (_ & Hm & H)%lives_ok. split; [exact Hm|]. intros v ->. apply H. Qed.

(** C8. A validation that has its verdict has left the shared tables, whether it
    came with the start or with a resumption: no look-up in flight has its task
    as a waiter or as the owner of the child; of the references to the shared
    sets, its own and the [rest] of the others before that run, the heap counts
    those of the others and no more, and has freed the sets that only it kept;
    and all that is in the caches with the stamp SECURE is vouched for.  With
    signature-clock-skew 0 ([st_dates]). *)
Theorem validation_leaves_nothing :
  (∀ a live rest w t keys b w' t', setting_at a live → world_ok live rest [] w → flight_ok (live ∖ {[k_id T]}) (w_flight w) → tstat t = tstat T →
     (∀ k, keys = Some k → rrset_sized k) → begins a keys w t None = Ok (b, (w', t', None)) → left_nothing rest w') ∧
  (∀ n m w0 t0 v a live rest w t kept b w' t', lives n m w0 t0 (Some v) → setting_at a live → world_ok live rest kept w → tstat t = tstat T →
     resumes a w t (Some (with_kept v kept)) = Ok (b, (w', t', None)) → left_nothing rest w').
Proof using VL.
  split.
  - intros a live rest w t keys b w' t' HS Hw Hf Ht Hk E. destruct (begin_spec a live rest w t keys HS Hw Ht Hk) as (r & E' & Hp). rewrite E in E'. injection E' as <-.
    destruct Hp as [(_ & -> & _)|(_ & k & _ & Hp)]; [|destruct Hp as (_ & _ & _ & _ & Hp & _); by eapply world_left].
    apply (world_left live). by eapply world_less.
  - intros n m w0 t0 v a live rest w t kept b w' t' (_ & _ & Hv & _)%lives_ok HS Hw Ht E.
    destruct (resume_spec a live rest w t v kept (v_waiting v) HS Hw Ht Hv) as (b' & r & E' & Hp & _).
    replace (with_kept (with_waiting v (v_waiting v)) kept) with (with_kept v kept) in E' by by destruct v.
    rewrite E in E'. injection E' as <- <-. destruct Hp as (_ & _ & _ & _ & Hp & _). by eapply world_left.
Qed.
End Life.

(** ** An answer under an anchored zone *)

Module Walked.
Definition com : list (list Z) := [[99; 111; 109]].
Definition bank : list (list Z) := [98] :: com.
Definition www : list (list Z) := [119] :: bank.
Definition conf : vconf := mkVconf (mkSecConf true 18 25 26 0) true 0 true [].
(** An Ed25519 key, a signature by it, and the anchor of "com.". *)
Definition key (a : Z) : list Z := [1; 0; 3; 15] ++ replicate 32 a.
Definition sig (type labels : Z) (key : list Z) (signer : list (list Z)) : list Z :=
  put16_bytes type ++ [15; labels; 0; 0; 0; 60; 0; 0; 2; 0; 0; 0; 1; 0] ++ put16_bytes (key_tag key) ++ wire signer ++ replicate 64 1.
Definition anchor : elpis_ta_t := mkTa (name_of com) (key_tag (key 1)) 15 2 (hash_spec 2 (wire com ++ key 1)).

(** What the caches hold: the keys of both zones and the DS records of the second. *)
Definition empty : caches := mkCaches Stored.c0 Delegated.c0.
Definition sets : list elpis_rrset_buf_t := [
  rrset_of (name_of com) ELPIS_T_DNSKEY 1 60 0 [key 1] [sig ELPIS_T_DNSKEY 1 (key 1) com];
  rrset_of (name_of bank) ELPIS_T_DS 1 60 0 [ds_record bank (key 2) 2] [sig ELPIS_T_DS 2 (key 1) com];
  rrset_of (name_of bank) ELPIS_T_DNSKEY 1 60 0 [key 2] [sig ELPIS_T_DNSKEY 2 (key 2) bank] ].
#[local] Instance store : ValStore caches := caches_store Stored.alloc Stored.mem.
Fixpoint put_all (s : caches) (bs : list elpis_rrset_buf_t) : res caches :=
  match bs with [] => Ok s | b :: bs => s ← vs_put s 200 b 0; put_all s bs end.
Definition filled : caches := match put_all empty sets with Ok s => s | _ => empty end.

(** "www" is an address with the signature [s]. *)
Definition records (s : list (list Z)) : list trec :=
  mkTrec www 1 1 60 [192; 0; 2; 1] 0 2 0 :: map (fun s => mkTrec www ELPIS_T_RRSIG 1 60 s 0 2 0) s.
Fixpoint list_of (l : elpis_rrlist_t) (rs : list trec) : elpis_rrlist_t :=
  match rs with
  | [] => l
  | r :: rs =>
    match elpis_rrlist_add (fun _ => true) (mkRrlist (l_rr l) (l_cap l) (l_pool l) (l_pcap l) (r_zone_labels r) (r_tailored r))
            (r_section r) (name_of (r_name r)) (r_type r) (r_klass r) (r_ttl r) (r_rdata r) (zlen (r_rdata r)) with
    | Ok (l, _) => list_of l rs
    | _ => l
    end
  end.
Definition task (rs : list trec) : vtask :=
  mkVtask 7 (list_of elpis_rrlist_init rs) (name_of www) 1 1 0 false false None 0 false false ELPIS_SEC_UNCHECKED (-1) false 0.
Definition buf : elpis_rrset_buf_t := rrset_of (name_of []) 0 0 0 0 [] [].
Definition world (s : caches) : vworld caches := mkVw s flight_start ∅ [] (mkCounters 0 None) buf.
Definition here : around := mkAround true 300 220 buf buf buf (fun _ _ _ => true).
#[local] Existing Instance accept_all.
Abbreviation start s rs := (@begins accept_all caches store conf [anchor] here (Some buf) (world s) (task rs) None).

(** "www" signed by the key of its zone, which the caches hold or not. *)
Definition answer : list trec := records [sig 1 3 (key 2) bank].

Lemma buf_sized : rrset_sized buf.
Proof. by_compute. Qed.

Lemma answer_held : holds (k_ans (task answer)) answer.
Proof.
  let l := eval vm_compute in (k_ans (task answer)) in replace (k_ans (task answer)) with l by (vm_compute; reflexivity).
  let a := eval vm_compute in answer in change answer with a. split.
  - constructor; [|constructor; [|constructor]]; unfold stands_for; (split; [by_compute|]); split_and!; vm_compute; reflexivity.
  - split; [by vm_compute|]. split; [right; exists 0; by vm_compute|]. split; [by vm_compute|]. right. exists 0. by vm_compute.
Qed.

#[local] Instance laws : ValStoreLaws caches := caches_laws Stored.alloc Stored.mem Stored.tables_fit Stored.mem_spec.

(** A set put without the stamp SECURE. *)
Definition plain (b : elpis_rrset_buf_t) : Prop :=
  ∃ o rs sgs, labels_ok o ∧ rs_name b = name_of o ∧ rrset_holds b rs sgs ∧ rs_sec b ≠ ELPIS_SEC_SECURE.

Lemma put_all_ok P bs : ∀ s, vs_ok P s → Forall plain bs → ∃ s', put_all s bs = Ok s' ∧ vs_ok P s'.
Proof.
  induction bs as [|b bs IH]; intros s Hs Hb; cbn [put_all]; [by exists s|]. apply Forall_cons_1 in Hb as [(o & rs & sgs & Ho & En & Hh & Hne) Hb].
  destruct (vs_put_ok P s 200 b 0 o rs sgs Hs Ho En Hh) as (s1 & -> & Hs1); [done|]. bind_step. by apply IH.
Qed.

Lemma unfilled_ok P : vs_ok P empty.
Proof.
  split; [exact Stored.c0_ok|]. split; [exact Delegated.fresh_ok|]. intros q e ls rs sgs Hq. exfalso.
  destruct (cache_new_spec rent_key rkey_hash rent_ok 65536 1 Stored.c0) as [_ Em]; [done|done|done|].
  change (cs_rr empty) with Stored.c0 in Hq. by rewrite Em, lookup_empty in Hq.
Qed.

Lemma filled_ok P : vs_ok P filled.
Proof.
  unfold filled. destruct (put_all_ok P sets empty (unfilled_ok P)) as (s & -> & Hs); [|exact Hs].
  assert (labels_ok com ∧ labels_ok bank) as [Hc Hb] by (split; by_compute).
  apply Forall_cons_2; [|apply Forall_cons_2; [|apply Forall_cons_2; [|apply Forall_nil_2]]]; eexists _, _, _.
  - split; [exact Hc|]. split; [reflexivity|]. split; [apply rrset_of_holds; by_compute|done].
  - split; [exact Hb|]. split; [reflexivity|]. split; [apply rrset_of_holds; by_compute|done].
  - split; [exact Hb|]. split; [reflexivity|]. split; [apply rrset_of_holds; by_compute|done].
Qed.

Lemma world_holds s : vs_ok (vouched (vc_sec conf) [anchor]) s → world_ok conf [anchor] {[7]} [] [] (world s).
Proof.
  intros Hs. split; try done.
  - apply flight_start_ok.
  - split; [intros k e Hk; cbn in Hk; by apply lookup_empty_Some in Hk|by intros k ?%elem_of_nil|done].
Qed.

Lemma setting_holds : setting conf [anchor] (ar_now here) (ar_one here) (ar_ds here) (ar_den here) {[7]} (task answer) answer www.
Proof.
  split.
  - exact answer_held.
  - repeat constructor; by_compute.
  - repeat constructor; by_compute.
  - split; [reflexivity|]. split; [by_compute|by cbn].
  - done.
  - by apply elem_of_singleton.
  - intros sig0. by apply dates_defined_no_skew.
  - constructor; [|constructor]. split; [exists com; split; [by_compute|done]|]. split; [by_compute|]. split; [by_compute|]. vm_compute. repeat constructor; done.
  - constructor.
  - split; [exact buf_sized|]. split; exact buf_sized.
Qed.

(** One run over the caches that hold the keys; one over empty caches. *)
Lemma started_secure : ∃ w t, start filled answer = Ok (false, (w, t, None)) ∧ k_sec t = ELPIS_SEC_SECURE.
Proof.
  assert (match start filled answer with Ok (b, (_, t, None)) => Some (b, k_sec t) | _ => None end = Some (false, ELPIS_SEC_SECURE)) as E by (vm_compute; reflexivity).
  destruct (start filled answer) as [[b [[w t] [v|]]]| |]; [discriminate E| |discriminate E|discriminate E]. injection E as -> E. by exists w, t.
Qed.

Lemma started_waits : ∃ w t v, start empty answer = Ok (true, (w, t, Some v)) ∧ v_waiting v = true.
Proof.
  assert (match start empty answer with Ok (b, (_, _, Some v)) => Some (b, v_waiting v) | _ => None end = Some (true, true)) as E by (vm_compute; reflexivity).
  destruct (start empty answer) as [[b [[w t] [v|]]]| |]; [|discriminate E|discriminate E|discriminate E]. injection E as -> E. by exists w, t, v.
Qed.

Abbreviation lived := (lives conf [anchor] (task answer) answer www).

Lemma start_lives s b w t ov : vs_ok (vouched (vc_sec conf) [anchor]) s → start s answer = Ok (b, (w, t, ov)) → lived 1 (operations (world s) w) w t ov.
Proof.
  intros Hs E. apply (lives_begin conf [anchor] (task answer) answer www here {[7]} [] (world s) (task answer) (Some buf) b w t ov).
  - exact setting_holds.
  - by apply world_holds.
  - replace ({[7]} ∖ {[k_id (task answer)]}) with (∅ : gset Z) by by vm_compute. apply flight_start_ok.
  - done.
  - intros k [= <-]. exact buf_sized.
  - exact E.
Qed.

(** *** What the walk makes of other answers *)

Definition verdict (bs : list elpis_rrset_buf_t) (rs : list trec) : option elpis_sec_t :=
  match put_all filled bs with Ok s => match start s rs with Ok (_, (_, t, None)) => Some (k_sec t) | _ => None end | _ => None end.

(** The name has no DS records: the cached denial says so, without proof. *)
Definition no_ds : elpis_rrset_buf_t := rrset_of (name_of www) ELPIS_T_DS 1 60 ELPIS_RRF_NODATA [[0; 0]] [].

(** No signature. *)
Example unsigned_bogus : verdict [no_ds] (records []) = Some ELPIS_SEC_BOGUS.
Proof. vm_compute. reflexivity. Qed.

(** A signature that names the owner itself as its signer, which is no zone: its
    DS records do not exist, the walk ends above it, and a record of a signed zone
    passes as insecure with a signature nobody made. *)
Example phantom_signer_insecure :
  verdict [no_ds] (records [sig 1 3 (key 9) www]) = Some ELPIS_SEC_INSECURE.
Proof. vm_compute. reflexivity. Qed.

(** A signature by another signed zone, "evil.com.". *)
Definition evil : list (list Z) := [101; 118; 105; 108] :: com.
Example foreign_signer_secure :
  verdict [rrset_of (name_of evil) ELPIS_T_DS 1 60 0 [ds_record evil (key 3) 2] [sig ELPIS_T_DS 2 (key 1) com];
           rrset_of (name_of evil) ELPIS_T_DNSKEY 1 60 0 [key 3] [sig ELPIS_T_DNSKEY 2 (key 3) evil]]
    (records [sig 1 3 (key 3) evil]) = Some ELPIS_SEC_SECURE.
Proof. vm_compute. reflexivity. Qed.
End Walked.


(** The first look-up of a validation over empty caches has landed, with nothing found. *)
Lemma validation_terminates_witness :
  ∃ w t v, Walked.start Walked.empty Walked.answer = Ok (true, (w, t, Some v)) ∧
    ∃ b w' t' ov, @resumes accept_all _ Walked.store Walked.conf [Walked.anchor] Walked.here (Walked.world Walked.empty) t (Some (with_kept v [])) = Ok (b, (w', t', ov)).
Proof.
  destruct Walked.started_waits as (w & t & v & E & _). exists w, t, v. split; [exact E|].
  destruct (@validation_terminates accept_all _ _ Walked.laws Walked.conf [Walked.anchor] (Walked.task Walked.answer) Walked.answer Walked.www) as [_ H].
  pose proof (Walked.start_lives Walked.empty true w t (Some v) (Walked.unfilled_ok _) E) as Hl.
  destruct (H 1 _ w t v Walked.here {[7]} [] (Walked.world Walked.empty) t [] Hl Walked.setting_holds) as (_ & b & w' & t' & ov & E' & _);
    [apply Walked.world_holds, Walked.unfilled_ok|apply (lives_ok _ _ _ _ _ _ _ _ _ _ Hl)|by exists b, w', t', ov].
Defined.

Lemma validation_budget_witness :
  ∃ w t, Walked.start Walked.filled Walked.answer = Ok (false, (w, t, None)) ∧ 0 <= operations (Walked.world Walked.filled) w <= VAL_MAX_VERIFIES.
Proof.
  destruct Walked.started_secure as (w & t & E & _). exists w, t. split; [exact E|].
  apply (@validation_budget accept_all _ _ Walked.laws Walked.conf [Walked.anchor] (Walked.task Walked.answer) Walked.answer Walked.www 1 _ w t None).
  apply (Walked.start_lives Walked.filled false); [apply Walked.filled_ok|exact E].
Defined.

(** A validation that waited on a look-up keeps the set it brought, the keys of
    "com." with TTL 0, which nobody else keeps; its verdict frees it. *)
Module Kept.
Import Walked.
#[local] Existing Instances accept_all store laws.
Definition set : elpis_rrset_buf_t := rrset_of (name_of com) ELPIS_T_DNSKEY 1 0 0 [key 1] [sig ELPIS_T_DNSKEY 1 (key 1) com].
Definition world (s : caches) : vworld caches := mkVw s flight_start {[0 := mkKept 1 set]} [] (mkCounters 0 None) buf.

Lemma kept_world_ok s : vs_ok (vouched (vc_sec conf) [anchor]) s → world_ok conf [anchor] {[7]} [] [0] (world s).
Proof.
  intros Hs. assert (wf_name (rs_name set)) as Hn by (exists com; split; [by_compute|done]).
  split; try done.
  - apply flight_start_ok.
  - split; [|intros k ->%list_elem_of_singleton; by eexists|done]. intros k e Hk. cbn [world w_heap] in Hk. apply lookup_singleton_Some in Hk as [<- <-].
    split; [by vm_compute|]. split; [by left|exact Hn].
  - intros k e Hk. cbn [world w_heap] in Hk. apply lookup_singleton_Some in Hk as [<- <-]. exists com, [key 1], [sig ELPIS_T_DNSKEY 1 (key 1) com]. split; [|vm_compute; reflexivity].
    split; [by_compute|]. split; [done|]. split; [done|]. split; [apply rrset_of_holds; by_compute|done].
Qed.
End Kept.

Lemma validation_leaves_nothing_witness :
  ∃ w t v w' t', Walked.start Walked.empty Walked.answer = Ok (true, (w, t, Some v)) ∧
    @resumes accept_all _ Walked.store Walked.conf [Walked.anchor] Walked.here (Kept.world Walked.filled) t (Some (with_kept v [0])) = Ok (true, (w', t', None)) ∧
    k_sec t' = ELPIS_SEC_SECURE ∧ @left_nothing accept_all _ Walked.store Walked.laws Walked.conf [Walked.anchor] (Walked.task Walked.answer) [] w'.
Proof.
  assert (match Walked.start Walked.empty Walked.answer with
    | Ok (true, (_, t, Some v)) =>
      match @resumes accept_all _ Walked.store Walked.conf [Walked.anchor] Walked.here (Kept.world Walked.filled) t (Some (with_kept v [0])) with
      | Ok (true, (_, t', None)) => Some (k_sec t') | _ => None end
    | _ => None end = Some ELPIS_SEC_SECURE) as Er by (vm_compute; reflexivity).
  destruct Walked.started_waits as (w & t & v & E & _). rewrite E in Er.
  destruct (@resumes accept_all _ Walked.store Walked.conf [Walked.anchor] Walked.here (Kept.world Walked.filled) t (Some (with_kept v [0]))) as [[[|] [[w' t'] [v'|]]]| |] eqn:E';
    [discriminate Er| |discriminate Er|discriminate Er|discriminate Er|discriminate Er].
  injection Er as Er. exists w, t, v, w', t'. split; [exact E|]. split; [exact E'|]. split; [exact Er|].
  pose proof (Walked.start_lives Walked.empty true w t (Some v) (Walked.unfilled_ok _) E) as Hl.
  destruct (@validation_leaves_nothing accept_all _ _ Walked.laws Walked.conf [Walked.anchor] (Walked.task Walked.answer) Walked.answer Walked.www) as [_ H].
  apply (H 1 _ w t v Walked.here {[7]} [] (Kept.world Walked.filled) t [0] true w' t' Hl Walked.setting_holds (Kept.kept_world_ok Walked.filled (Walked.filled_ok _))); [|exact E'].
  apply (lives_ok _ _ _ _ _ _ _ _ _ _ Hl).
Defined.
